(* ===== verification/_CoqProject ===== *)
-Q . S2P
Prelude.v
Types.v
Loops.v
Mem.v
Memory.v
Strings.v
BootInfo.v
FrameAlloc.v
Pfa.v
Multiboot.v
MultibootProps.v
Paging.v
PagingSpec.v
AddrSpace.v
PagingBoot.v
SpaceLife.v
Handles.v
Process.v
ProcessInv.v
ProcessProps.v
ProcessExamples.v
Bytes.v
FileIO.v
Ramdisk.v
FsCore.v
Printk.v
PrintkProps.v
Timer.v
Pic.v
Gdt.v
Vfs.v
VfsPath.v
VfsTree.v
Fat16.v
Fat16Props.v
Fat16Read.v
Fat16Fs.v
Fat16Vfs.v
Fat16Mount.v
FsExamples.v
Owned.v
Umem.v
UmemProps.v
Elf.v
ElfProps.v
VfsFiles.v
Spawn.v
SpawnProps.v
Uaccess.v
UaccessProps.v
Syscall.v
SyscallProps.v
SyscallFiles.v
Interrupt.v
InterruptProps.v
Devices.v
Start.v
LoaderExamples.v
NyfsDisk.v
Nyfs.v
NyfsAcl.v
NyfsDir.v
NyfsNodes.v
NyfsFormat.v
NyfsFs.v
NyfsImage.v
NyfsIo.v
NyfsAlloc.v
NyfsFree.v
NyfsInodes.v
NyfsStream.v
NyfsGrow.v
NyfsReadWrite.v
NyfsDirs.v
NyfsDirOps.v
NyfsTree.v
NyfsTreeOps.v
NyfsVfs.v
NyfsFormatted.v
NyfsExamples.v
