(* ===== verification/Prelude.v ===== *)
(** * Nyxis OS: a verification library

    Nyxis OS is a small x86-64 kernel in C.  This library is a model of the
    kernel and of its storage drivers as Rocq functions, written from the
    source function by function, and the theorems about them.  This file is
    its root and its prelude; the paths below are those of [src/].

    ** The program

    A boot loader hands over a description of the machine.  The kernel converts
    it ([kernel/boot/multiboot2.c]), builds its own page tables
    ([kernel/paging/paging.c]), puts the free frames on a list
    ([kernel/mm/pfa.c]), sets up descriptor tables, interrupt controllers and
    the timer, mounts the file systems and starts programs.  A program has an
    address space, a heap ([process/umem.c]), a table of handles
    ([syscall/handles.c]) and a place on the round-robin list
    ([process/process.c], [schedule.c]); it reaches the kernel by system calls
    ([syscall/syscall.c]), which touch its memory only through
    [syscall/uaccess.c] and files only through the virtual file system
    ([drivers/filesystem/vfs.c]).  Behind that are two drivers, FAT16
    ([fat16/fat16.c]) and the system's own format NYFS ([nyfs/nyfs.c]), and
    the disks ([drivers/ramdisk/ramdisk.c]).  Everything reports by the log
    ([console/outputs/printk.c]).

    ** How the code is modelled

    A function of the source is a Definition or Fixpoint of the same name; the
    comment [[name]: path:lines] before it says what it translates.  Its
    variables are a record, the state, which it takes and gives back; calls are
    calls, early returns are the branches of the same tests in the same order.
    A status is a [Nerror] ([Types]); an output parameter is a result; a
    computation that fails is [ST S (res A)], with [<-?] for the early return.
    Machine words are integers, and wrap where C wraps ([u8] .. [u64], [sw]).
    Memory is a finite map from virtual addresses to bytes ([Mem]); the
    structures that C lays over memory - page tables, the free list, boot
    records, disk blocks - are read and written through it.  Where the code
    keeps a pointer into one of its own tables the model keeps the index, and
    a shared slot is shared in the model.  What hardware decides (a port read,
    [cpuid], a disk transfer) is a function that is a parameter, and so is
    what a local buffer holds before it is written ([stack]).

    Components meet at classes: [FrameAllocator] and its laws ([FrameAlloc];
    clients: paging, heap, loader; implementation: [Pfa]), [FileLayer]
    ([Handles]), [FileIO] and its laws ([FileIO]; clients: loader, system
    calls; implementation: [VfsFiles]), [VfsDrivers] and [DriverSpec] ([Vfs],
    [VfsTree]; implementations: [Fat16Fs] with [Fat16Vfs], [NyfsFs]), and
    [disk_laws] ([NyfsIo]; implementation: [ramdisk_laws]).

    ** The files

    - Shared: [Prelude] (words, loops, automation), [Types] ([include/types.h],
      monads), [Loops] (loops that only data bounds), [Mem] ([include/phys.h]),
      [Bytes] (little-endian fields), [Memory] and [Strings] ([nxkernel/lib]).
    - Start: [BootInfo] ([boot_info.h]), [Multiboot] and [MultibootProps],
      [PagingBoot] (the tables the kernel runs on: the code, the abstract
      tables, the map they make), [Pfa], and [Start] ([kernel.c]: these parts
      one after the other on one memory).
    - Address spaces: [Paging] (the operations), [PagingSpec] (the abstract
      space: a finite map from paths to leaf entries, and the invariant that
      ties it to memory), [AddrSpace] (one lemma an operation), [SpaceLife]
      (creation to destruction), [Owned] (which frames are whose).
    - Processes: [Process] ([process.c], [schedule.c], [sched_rr.h]),
      [ProcessInv] (the invariant), [ProcessProps]; [Handles]; [Umem] and
      [UmemProps]; [Elf] and [ElfProps]; [Spawn] and [SpawnProps].
    - System calls: [Uaccess] and [UaccessProps]; [Syscall], [SyscallProps],
      [SyscallFiles].
    - Interrupts and devices: [Gdt] (descriptor tables), [Interrupt] and
      [InterruptProps], [Pic], [Timer], [Printk] and [PrintkProps]; [Devices]
      (drawing, the keyboard, the ATA disk).
    - Files: [FileIO], [FsCore] ([filesystem/core.c]), [Vfs], [VfsPath]
      (paths), [VfsTree] (the dentry cache), [VfsFiles]; [Ramdisk].
    - FAT16: [Fat16] (the parsing code), [Fat16Fs] (tables and operations),
      [Fat16Props], [Fat16Read], [Fat16Vfs], [Fat16Mount] (theorems).
    - NYFS, the code: [NyfsDisk] (structures), [Nyfs] (bitmaps, inodes, extent
      streams), [NyfsAcl] (permissions), [NyfsDir] (hash tables), [NyfsNodes]
      (create, unlink, rename, write), [NyfsFormat], [NyfsFs] (under the VFS).
      NYFS, the theorems, from the bytes up: [NyfsImage] (encodings and
      checksums), [NyfsIo] (transfers), [NyfsAlloc] and [NyfsFree] (the bitmaps
      as sets), [NyfsInodes], [NyfsStream], [NyfsGrow] and [NyfsReadWrite]
      (streams as byte strings), [NyfsDirs] and [NyfsDirOps] (directories as
      maps), [NyfsTree] and [NyfsTreeOps] (the volume as a map of nodes),
      [NyfsVfs] (the driver's operations on it), [NyfsFormatted].
    - Runs of the theorems on concrete states: [ProcessExamples],
      [LoaderExamples], [FsExamples], [NyfsExamples].

    ** What is proved

    The properties of the program carry a number (C1, C2, ...) in the comment
    before them; the other lemmas serve them.

    - Frames and boot.  The free list is exactly the usable frames of the
      memory map, each once ([pfa_init_exact]); whatever is allocated and freed
      after that, no frame has two owners and none is lost ([pfa_ownership]).
      The conversion of boot information reads nothing outside the structure
      ([boot_info_bounds]) and describes only memory the structure calls
      available, so the allocator never gives out anything else
      ([boot_info_sound]).  The kernel's own page tables map what they should,
      address by address ([paging_init_maps]), and, where the processor has the
      no-execute bit, no page both writable and executable under any two of its
      addresses ([kernel_write_xor_execute]).  Put together, from an accepted
      Multiboot2 structure on whose available regions do not overlap: every
      frame on the free list is RAM, is nobody's, and is mapped by the tables in
      use ([boot_memory_ready]).  Overlapping regions the code does not refuse
      ([overlap_gives_frame_twice]).
    - Address spaces.  Mapping and unmapping are insertion and deletion in a
      finite map ([map_page_refines], and [unmap_free_page_refines] without a number); no page is
      both writable and executable where the processor can say so; destroying a space gives back exactly its
      frames, after any use ([addrspace_no_leak]); the check of a user range is
      exact ([is_user_range_exact]).
    - Processes.  An invariant of the table and the list holds along any run
      ([process_invariant]); the scheduler picks the next runnable process in
      order; a process that exits never runs again; reaping gives back its
      resources ([terminate_reclaims]).
    - Programs.  A loaded image is the one of the file ([elf_load_image]); a
      failed start changes nothing ([spawn_spec]); [umem_brk] refines an
      operation on the map of pages.
    - The system-call boundary.  No request of a program breaks the kernel's
      order ([syscalls_keep_order]); no fault of a program stops the kernel, or ends
      any process but that program ([interrupts_contained]); no copy writes outside the caller's writable
      pages ([copy_to_user_spec]); a closed handle never comes back.
    - Devices.  The log writes to the frame buffer only
      ([log_stays_in_frame_buffer]); a line is drawn from end to end, every
      point within half a pixel ([line_is_drawn], for ends at most 2^29 apart in
      either direction); and, without a number, a
      disk transfer says what the drive expects whatever the drive answers
      ([ata_read_run], [ata_write_run]).
    - Files.  A path resolves to what it names, whatever the cache holds
      ([resolve_refines]); open and read over a FAT16 volume give the bytes of
      the named file ([open_reaches_file], [vfs_read_exact]); a search of a
      damaged directory ends ([directory_search]).
    - NYFS.  A volume is a map from inode numbers to files and directories
      ([NyfsTree.holds]); formatting makes the map with an empty root
      ([nyfs_format_mounts]) and create, mkdir, unlink, write and read are
      updates and lookups of it, or fail for the reasons given and leave it; a
      write fails only when the free blocks are fewer than it can need
      ([nyfs_make_adds_node], [nyfs_unlink_removes_node], [nyfs_write_file],
      [nyfs_read_file]).  Below: directories are finite maps, the allocators
      sets, an inode is read as written and refused when damaged, and the
      access check is the one the entries describe ([access_decision]).

    ** Bounds and fuel

    A loop with a bound the code computes is [for_range], [steps] or a Fixpoint
    on that bound, and runs to its end.  Loops over strings take as fuel the
    number of bytes up to the zero that ends them.  Walks of page tables have
    four levels.  The pool of 320 tables is enough for an image below 128 MiB and
    a frame buffer of at most 64 GiB, which the theorems on [paging_init] assume.
    A loop bounded only by data on a disk is a [run] of [Loops],
    2^64 rounds in binary; the proofs give it a measure (the length of a chain
    or bucket, a 64-bit counter), which shows that it ends by itself; on data
    that forms a cycle the C loop does not end and the model answers
    [Ntimeout].  Lookups that walk the dentry tree or the process list take
    the size of the table, and the invariants show that the list is not
    longer.  FAT chains take the number of clusters, as the code does.

    ** Not modelled

    - Locks, the interrupt flag and the translation cache: the model is one flow
      of control, in which the operations of a run come one after the other.
      What preemption does at the points where the code allows it is the
      switch of [Process]; [invlpg] and the locks have no effect there.
    - Null output pointers, which every caller in the kernel passes non-null;
      nullable inputs are options.  The ignored parameters [info] of the disk
      functions and [fs] of the mount functions.
    - Assembly: the boot code, the entry and exit stubs, [context_switch] and
      the instructions that load system registers; their effect, where a
      function of the model depends on it, is described there.
    - The frame buffer is memory of its own ([Printk]), not an alias of other
      memory; and the direct map and the kernel image are not aliases either.
    - The rest of [kernel.c] (calls that start components modelled here, and
      trials of the file systems) and [selftest.c] (tests at boot),
      [drivers/ahci] (registers and descriptors that the device reads and
      writes by itself), the boot loader [bootloader/nytb] (a program for the
      firmware), the host tools under [tools/] (the same file system for a
      host), [userland] and [tests].
    - NYFS on a damaged volume is the code's behaviour in the definitions; the
      theorems are about volumes in order, apart from the checksums, and
      [nyfs_rename] and [nyfs_readdir] have definitions and no theorem.  A
      volume with access control entries has the decision and the inheritance;
      the theorems on nodes are for volumes without them. *)

From Stdlib Require Export ZArith Lia ZifyBool.
From stdpp Require Export base decidable option list numbers gmap.

#[global] Set Default Goal Selector "!".

(** The scope of the notations of this development. *)
Declare Scope nyx_scope.
Delimit Scope nyx_scope with nyx.
#[global] Open Scope nyx_scope.
#[global] Open Scope Z_scope.

(** ** Fixed-width integers

    A C integer of [w] bits is the [Z] it denotes; the conversions below are
    the ones the C operators perform after each operation. *)

Definition uw (w z : Z) : Z := z mod 2 ^ w.
Abbreviation u8 := (uw 8).
Abbreviation u16 := (uw 16).
Abbreviation u32 := (uw 32).
Abbreviation u64 := (uw 64).

(** Two's complement reading of the low [w] bits. *)
Definition sw (w z : Z) : Z := (z + 2 ^ (w - 1)) mod 2 ^ w - 2 ^ (w - 1).
Abbreviation i32 := (sw 32).
Abbreviation i64 := (sw 64).

(** The operator [~] on an unsigned type of [w] bits. *)
Definition unot (w z : Z) : Z := uw w (Z.lnot z).

(** A C condition [x & y] used as a truth value. *)
Definition tst (x y : Z) : bool := negb (Z.land x y =? 0).

(** ** Automation *)

Create HintDb nyx discriminated.
Create HintDb nyx_arith discriminated.
#[global] Hint Constants Transparent : nyx.
#[global] Hint Constants Opaque : nyx_arith.

(** Boolean tests to propositions, in the context and in the goal. *)
Ltac bool_simpl :=
  repeat match goal with
  | H : _ && _ = true |- _ => apply andb_true_iff in H as [? ?]
  | H : _ || _ = false |- _ => apply orb_false_iff in H as [? ?]
  | H : negb _ = true |- _ => apply negb_true_iff in H
  | H : negb _ = false |- _ => apply negb_false_iff in H
  | H : (_ =? _) = true |- _ => apply Z.eqb_eq in H
  | H : (_ =? _) = false |- _ => apply Z.eqb_neq in H
  | H : (_ <? _) = true |- _ => apply Z.ltb_lt in H
  | H : (_ <? _) = false |- _ => apply Z.ltb_ge in H
  | H : (_ <=? _) = true |- _ => apply Z.leb_le in H
  | H : (_ <=? _) = false |- _ => apply Z.leb_gt in H
  | H : bool_decide _ = true |- _ => apply bool_decide_eq_true in H
  | H : bool_decide _ = false |- _ => apply bool_decide_eq_false in H
  end.

(** Case analysis on the next condition of the goal. *)
Ltac case_if :=
  match goal with
  | |- context [if ?b then _ else _] =>
      match type of b with bool => let E := fresh "E" in destruct b eqn:E; bool_simpl end
  end.
Ltac case_if_in H :=
  match type of H with
  | context [if ?b then _ else _] =>
      match type of b with bool => let E := fresh "E" in destruct b eqn:E; bool_simpl end
  end.

(** ** Lemmas on words *)

Lemma uw_range w z : 0 <= w -> 0 <= uw w z < 2 ^ w.
Proof. intros. apply Z.mod_pos_bound. lia. Qed.

Lemma uw_small w z : 0 <= z < 2 ^ w -> uw w z = z.
Proof. apply Z.mod_small. Qed.

Lemma uw_idem w z : 0 <= w -> uw w (uw w z) = uw w z.
Proof. intros. apply uw_small, uw_range; done. Qed.

Lemma u64_range z : 0 <= u64 z < 2 ^ 64.
Proof. apply uw_range. lia. Qed.
Lemma u32_range z : 0 <= u32 z < 2 ^ 32.
Proof. apply uw_range. lia. Qed.
Lemma u8_range z : 0 <= u8 z < 2 ^ 8.
Proof. apply uw_range. lia. Qed.
Lemma sw_range w z : 0 < w -> - 2 ^ (w - 1) <= sw w z < 2 ^ (w - 1).
Proof.
  intros. unfold sw.
  pose proof (Z.mod_pos_bound (z + 2 ^ (w - 1)) (2 ^ w) ltac:(lia)).
  assert (2 ^ w = 2 * 2 ^ (w - 1)) by (rewrite <- Z.pow_succ_r; [f_equal|]; lia). lia.
Qed.

Lemma sw_small w z : 0 < w -> - 2 ^ (w - 1) <= z < 2 ^ (w - 1) -> sw w z = z.
Proof.
  intros ? ?. unfold sw.
  assert (2 ^ w = 2 * 2 ^ (w - 1)) by (rewrite <- Z.pow_succ_r; [f_equal|]; lia).
  rewrite Z.mod_small; lia.
Qed.

#[export] Hint Resolve u64_range u32_range u8_range : nyx_arith.

Lemma testbit_above w z i : 0 <= z < 2 ^ w -> 0 <= w <= i -> Z.testbit z i = false.
Proof.
  intros Hz Hi. rewrite <- (Z.mod_small z (2 ^ w)) by done.
  apply Z.mod_pow2_bits_high. lia.
Qed.

(** Masking with [~x] clears the bits of [x]. *)
Lemma land_unot w v x : 0 <= w -> 0 <= v < 2 ^ w -> Z.land v (unot w x) = Z.ldiff v x.
Proof.
  intros Hw Hv. apply Z.bits_inj'. intros i Hi.
  rewrite Z.land_spec, Z.ldiff_spec. unfold unot, uw.
  destruct (Z.lt_ge_cases i w).
  - rewrite Z.mod_pow2_bits_low by lia. by rewrite Z.lnot_spec.
  - by rewrite (testbit_above w v) by lia.
Qed.

Lemma ldiff_ones v k : 0 <= k -> Z.ldiff v (2 ^ k - 1) = v - v mod 2 ^ k.
Proof.
  intros Hk. replace (2 ^ k - 1) with (Z.ones k) by (rewrite Z.ones_equiv; lia).
  rewrite Z.ldiff_ones_r, Z.shiftl_mul_pow2, Z.shiftr_div_pow2 by done.
  pose proof (Z.div_mod v (2 ^ k) ltac:(lia)). lia.
Qed.

Lemma land_ones_mod v k : 0 <= k -> Z.land v (2 ^ k - 1) = v mod 2 ^ k.
Proof.
  intros Hk. replace (2 ^ k - 1) with (Z.ones k) by (rewrite Z.ones_equiv; lia).
  by apply Z.land_ones.
Qed.

(** Rounding to a power of two, as the kernel's [align_up] and [align_down]
    write it: [(v + a - 1) & ~(a - 1)] and [v & ~(a - 1)]. *)
Lemma align_down_pow2 w v k :
  0 <= w -> 0 <= k -> 0 <= v < 2 ^ w ->
  Z.land v (unot w (2 ^ k - 1)) = v - v mod 2 ^ k.
Proof. intros. rewrite land_unot by done. by apply ldiff_ones. Qed.

(** ** Loops

    A C loop is iterated on the state of its locals; [while_rule] is the
    only induction on the fuel: it gives the invariant *and* the negation of
    the loop's condition, so a fuel that covers the measure is enough. *)
Fixpoint while {S} (fuel : nat) (c : S -> bool) (b : S -> S) (s : S) : S :=
  match fuel with
  | O => s
  | Datatypes.S n => if c s then while n c b (b s) else s
  end.

Lemma while_rule {S} (I : S -> Prop) (mu : S -> nat) c b :
  (forall s, I s -> c s = true -> I (b s) /\ (mu (b s) < mu s)%nat) ->
  forall fuel s, I s -> (mu s <= fuel)%nat ->
  I (while fuel c b s) /\ c (while fuel c b s) = false.
Proof.
  intros Hb fuel. induction fuel as [|n IH]; intros s HI Hmu; simpl.
  - split; [done|]. destruct (c s) eqn:E; [|done]. destruct (Hb s HI E). lia.
  - destruct (c s) eqn:E; [|by split]. destruct (Hb s HI E). apply IH; [done|lia].
Qed.

(** [for (i = lo; i < hi; i += 1)] over a state. *)
Definition for_range {S} (lo hi : Z) (b : Z -> S -> S) (s : S) : S :=
  fold_left (fun acc i => b i acc) (seqZ lo (hi - lo)) s.

Lemma for_range_rule {S} (I : Z -> S -> Prop) lo hi (b : Z -> S -> S) s : lo <= hi -> I lo s ->
  (forall i s, lo <= i < hi -> I i s -> I (i + 1) (b i s)) -> I hi (for_range lo hi b s).
Proof.
  intros Hle Hs Hb. unfold for_range. remember (Z.to_nat (hi - lo)) as n eqn:En. revert lo s Hle Hs Hb En.
  induction n as [|n IH]; intros lo s Hle Hs Hb En; [by replace hi with lo by lia; rewrite Z.sub_diag|].
  rewrite seqZ_cons by lia. cbn [fold_left]. replace (Z.pred (hi - lo)) with (hi - Z.succ lo) by lia.
  apply IH; [lia| |intros i s' Hi; apply Hb; lia|lia]. rewrite <- Z.add_1_r. apply Hb; [lia|done].
Qed.

(** The values of [x] in [for (x = lo; x < hi; x += st)], when the additions
    do not overflow. *)
Definition steps (lo hi st : Z) : list Z :=
  (fun k => lo + st * k) <$> seqZ 0 ((hi - lo + st - 1) / st).

Lemma elem_of_steps x lo hi st :
  0 < st -> x ∈ steps lo hi st <-> lo <= x < hi /\ (x - lo) mod st = 0.
Proof.
  intros Hst. unfold steps. rewrite list_elem_of_fmap. split.
  - intros (k & -> & Hk). rewrite elem_of_seqZ in Hk.
    replace (lo + st * k - lo) with (k * st) by lia. rewrite Z.mod_mul by lia.
    assert (k + 1 <= (hi - lo + st - 1) / st) by lia.
    assert ((k + 1) * st <= hi - lo + st - 1).
    { pose proof (Z.mul_div_le (hi - lo + st - 1) st Hst). nia. }
    split; [|done]. nia.
  - intros [Hx Hm]. exists ((x - lo) / st). pose proof (Z.div_mod (x - lo) st ltac:(lia)).
    split; [lia|]. rewrite elem_of_seqZ. split; [apply Z.div_pos; lia|].
    cut ((x - lo) / st + 1 <= (hi - lo + st - 1) / st); [lia|].
    apply Z.div_le_lower_bound; lia.
Qed.

Lemma NoDup_steps lo hi st : 0 < st -> NoDup (steps lo hi st).
Proof.
  intros Hst. apply NoDup_fmap_2_strong; [|apply NoDup_seqZ]. intros x y _ _ ?. nia.
Qed.

Lemma steps_nil lo hi st : 0 < st -> hi <= lo -> steps lo hi st = [].
Proof.
  intros Hst H. unfold steps. rewrite seqZ_nil; [done|].
  assert ((hi - lo + st - 1) / st < 1) by (apply Z.div_lt_upper_bound; lia). lia.
Qed.

Lemma steps_cons lo hi st : 0 < st -> lo < hi -> steps lo hi st = lo :: steps (lo + st) hi st.
Proof.
  intros Hst H. unfold steps.
  assert (Hd : (hi - lo + st - 1) / st = (hi - (lo + st) + st - 1) / st + 1).
  { replace (hi - lo + st - 1) with ((hi - (lo + st) + st - 1) + 1 * st) by lia.
    by rewrite Z.div_add by lia. }
  assert (0 <= (hi - (lo + st) + st - 1) / st) by (apply Z.div_pos; lia).
  rewrite Hd, seqZ_cons by lia. simpl. f_equal; [lia|].
  change (Z.succ 0) with (1 + 0).
  replace (Z.pred _) with ((hi - (lo + st) + st - 1) / st) by lia.
  rewrite <- (fmap_add_seqZ 1 0), <- list_fmap_compose. apply list_fmap_ext. intros; simpl. lia.
Qed.

(** The values a loop went through before it came to [v]. *)
Lemma steps_split lo hi st vs v rest :
  0 < st -> steps lo hi st = vs ++ v :: rest -> steps lo v st = vs.
Proof.
  intros Hst. revert lo. induction vs as [|w vs IH]; intros lo E.
  all: destruct (Z.lt_ge_cases lo hi); [|by rewrite steps_nil in E by lia].
  all: rewrite steps_cons in E by lia; injection E as [= <- E].
  - apply steps_nil; lia.
  - assert (Hv : v ∈ steps (lo + st) hi st) by (rewrite E, elem_of_app; right; by left).
    apply elem_of_steps in Hv; [|done]. rewrite steps_cons by lia. f_equal. by apply IH.
Qed.

(** Rounding up to a page: [(v + 4095) & ~4095]. *)
Lemma land_unot_page v : 0 <= v < 2 ^ 64 -> Z.land v (unot 64 4095) = v - v mod 4096.
Proof. intros. by apply (align_down_pow2 64 v 12). Qed.

(** *** Bit tests *)

Lemma tst_bit e k : 0 <= k -> tst e (2 ^ k) = Z.testbit e k.
Proof.
  intros Hk. unfold tst. destruct (Z.testbit e k) eqn:E.
  - apply negb_true_iff, Z.eqb_neq. intros H0.
    assert (H : Z.testbit (Z.land e (2 ^ k)) k = true) by by rewrite Z.land_spec, E, Z.pow2_bits_true.
    by rewrite H0, Z.bits_0 in H.
  - apply negb_false_iff, Z.eqb_eq. apply Z.bits_inj'. intros i Hi.
    rewrite Z.land_spec, Z.bits_0, Z.pow2_bits_eqb by done.
    destruct (k =? i) eqn:Ek; [|by rewrite andb_false_r]. bool_simpl. subst. by rewrite E.
Qed.

(** A multiple of [2^k] has no bit below [k]. *)
Lemma testbit_aligned v k i : v mod 2 ^ k = 0 -> 0 <= i < k -> Z.testbit v i = false.
Proof.
  intros Hv Hi. rewrite <- (Z.mod_pow2_bits_low v k i) by lia. by rewrite Hv, Z.bits_0.
Qed.

Lemma tst_low_bits v k : 0 <= k -> tst v (2 ^ k - 1) = negb (v mod 2 ^ k =? 0).
Proof. intros. unfold tst. by rewrite land_ones_mod. Qed.

Lemma range_of_bits w x :
  0 <= w -> 0 <= x -> (forall i, w <= i -> Z.testbit x i = false) -> 0 <= x < 2 ^ w.
Proof.
  intros Hw Hx Hb. split; [done|]. rewrite <- (Z.mod_small x (2 ^ w)); [apply Z.mod_pos_bound; lia|].
  cut (x mod 2 ^ w = x).
  { intros <-. apply Z.mod_pos_bound. lia. }
  apply Z.bits_inj'. intros i Hi. destruct (Z.lt_ge_cases i w).
  - by apply Z.mod_pow2_bits_low.
  - rewrite Z.mod_pow2_bits_high by lia. symmetry. by apply Hb.
Qed.

Lemma lor_range w a b : 0 <= w -> 0 <= a < 2 ^ w -> 0 <= b < 2 ^ w -> 0 <= Z.lor a b < 2 ^ w.
Proof.
  intros Hw Ha Hb. apply range_of_bits; [done|apply Z.lor_nonneg; lia|].
  intros i Hi. by rewrite Z.lor_spec, !(testbit_above w) by lia.
Qed.

Lemma land_range w a b : 0 <= w -> 0 <= b < 2 ^ w -> 0 <= Z.land a b < 2 ^ w.
Proof.
  intros Hw Hb. apply range_of_bits; [done|apply Z.land_nonneg; lia|].
  intros i Hi. by rewrite Z.land_spec, (testbit_above w b), andb_false_r by lia.
Qed.

#[export] Hint Resolve lor_range land_range : nyx_arith.

(** A bind of duplicate-free, pairwise disjoint lists has no duplicates. *)
Lemma NoDup_bind_disjoint {A B} (f : A -> list B) (l : list A) :
  NoDup l -> (forall i, i ∈ l -> NoDup (f i)) ->
  (forall i j x, i ∈ l -> j ∈ l -> i <> j -> x ∈ f i -> x ∈ f j -> False) ->
  NoDup (l ≫= f).
Proof.
  intros Hnd. induction Hnd as [|i l Hn Hnd IH]; intros Hf Hd; [apply NoDup_nil_2|].
  simpl. apply NoDup_app. split_and!.
  - apply Hf. by left.
  - intros x Hx (j & Hxj & Hj)%list_elem_of_bind. apply (Hd i j x); [by left|by right| |done..].
    by intros ->.
  - apply IH.
    + intros j ?. apply Hf. by right.
    + intros j k x ? ?. apply Hd; by right.
Qed.

Lemma elem_of_rev {A} (x : A) (l : list A) : x ∈ rev l <-> x ∈ l.
Proof. by rewrite !list_elem_of_In, <- in_rev. Qed.

Lemma fmap_bind_list {A B C} (f : B -> C) (g : A -> list B) (l : list A) :
  f <$> (l ≫= g) = l ≫= (fun x => f <$> g x).
Proof. induction l as [|x l IH]; csimpl; [done|]. by rewrite fmap_app, <- IH. Qed.

(** A result is what its first component is, whatever the state. *)
Lemma pair_fst {A B} (x : A * B) a : x.1 = a -> x = (a, x.2).
Proof. destruct x. by intros <-. Qed.

(** Counting the free slots of a table: taking one, and changing one in a way
    that keeps it free or not. *)
Lemma length_filter_insert {A} (P : A -> Prop) `{forall x, Decision (P x)} (l : list A) j d x :
  l !! j = Some d -> P d -> ~ P x ->
  length (filter P l) = S (length (filter P (<[j := x]> l))).
Proof.
  intros Hl Hd Hx. assert (Hj : (j < length l)%nat) by by eapply lookup_lt_Some.
  rewrite <- (take_drop_middle l j d Hl) at 1. rewrite (insert_take_drop l j x Hj).
  rewrite !filter_app, !length_app, filter_cons_True, filter_cons_False by done. simpl. lia.
Qed.

Lemma length_filter_alter {A} (P : A -> Prop) `{forall x, Decision (P x)} (l : list A) k f :
  (forall d, P (f d) <-> P d) -> length (filter P (alter f k l)) = length (filter P l).
Proof.
  intros Hf. revert k. induction l as [|d l IH]; intros [|k]; try done.
  - change (alter f 0%nat (d :: l)) with (f d :: l). rewrite !filter_cons.
    destruct (decide (P (f d))), (decide (P d)); try done; exfalso; naive_solver.
  - change (alter f (Datatypes.S k) (d :: l)) with (d :: alter f k l). rewrite !filter_cons.
    case_decide; cbn [length]; by rewrite IH.
Qed.

Lemma list_find_free {A} (P : A -> Prop) `{forall x, Decision (P x)} (l : list A) :
  list_find P l = None -> length (filter P l) = 0%nat.
Proof. intros E%list_find_None. induction E as [|d l Hd _ IH]; [done|]. by rewrite filter_cons_False. Qed.
