(* ===== verification/Types.v ===== *)
(** * Status codes and the effect monads

    [include/types.h]: the [Nerror] enumeration, the encoding of a status in
    32 bits and its sign extension to the 64-bit result of a system call; and
    the two shapes of kernel code, a computation on a state ([ST]) and one
    that also fails with a status ([ST S (res A)]). *)

From S2P Require Import Prelude.

(** ** [Nstatus] *)

(** [Nerror]: include/types.h:87-176 *)
Inductive Nerror : Type :=
  | Nok | NnotFound | NinvalidArg | NoutOfMemory | Npermission | Ntimeout
  | Nbusy | NalreadyExists | Noverflow | Nunderflow | Nio | Ndisconnected
  | Nunsupported | Ncorrupted | Ninterrupted | Nunknown | NdivideByZero
  | Narithmetic | NoverflowMath | NunderflowMath | Nnan | NnullPointer
  | NinvalidPointer | NdoubleFree | NuseAfterFree | NstackOverflow
  | NheapCorruption | NbufferOverflow | NbufferUnderflow | NfileNotFound
  | NpathTooLong | NreadOnly | NdiskFull | NbadFilesystem | NfileCorrupted
  | NtooManyFileSystem | NprocessFailed | NthreadFailed | Ndeadlock
  | NraceCondition | NconnectionLost | NconnectionRefused | NhostUnreachable
  | NprotocolError | Nunauthorized | Nauthentication | Nencryption
  | NinvalidFormat | NparseError | NsyntaxError | NencodingError
  | NdeviceFailure | NdeviceMissing | NdeviceBusy | NhardwareFault
  | NnotInitialized | NalreadyInitialized | NinvalidState | NsyscallFailed
  | NkernelFault | Npanic | Nfatal | Nreserved1 | Nreserved2.

(** [NSTATUS_ERR_FLAG]: include/types.h:79-79 *)
Definition NSTATUS_ERR_FLAG : Z := -2147483647 - 1.

(** [NSTATUS_MAKE_ERR]: include/types.h:82-82 *)
Definition NSTATUS_MAKE_ERR (code : Z) : Z := i32 (Z.lor NSTATUS_ERR_FLAG (i32 code)).

(** The value of each enumerator. *)
(** [status]: include/types.h:87-176 *)
Definition status (e : Nerror) : Z :=
  match e with
  | Nok => 0
  | NnotFound => NSTATUS_MAKE_ERR 1
  | NinvalidArg => NSTATUS_MAKE_ERR 2
  | NoutOfMemory => NSTATUS_MAKE_ERR 3
  | Npermission => NSTATUS_MAKE_ERR 4
  | Ntimeout => NSTATUS_MAKE_ERR 5
  | Nbusy => NSTATUS_MAKE_ERR 6
  | NalreadyExists => NSTATUS_MAKE_ERR 7
  | Noverflow => NSTATUS_MAKE_ERR 8
  | Nunderflow => NSTATUS_MAKE_ERR 9
  | Nio => NSTATUS_MAKE_ERR 10
  | Ndisconnected => NSTATUS_MAKE_ERR 11
  | Nunsupported => NSTATUS_MAKE_ERR 12
  | Ncorrupted => NSTATUS_MAKE_ERR 13
  | Ninterrupted => NSTATUS_MAKE_ERR 14
  | Nunknown => NSTATUS_MAKE_ERR 15
  | NdivideByZero => NSTATUS_MAKE_ERR 16
  | Narithmetic => NSTATUS_MAKE_ERR 17
  | NoverflowMath => NSTATUS_MAKE_ERR 18
  | NunderflowMath => NSTATUS_MAKE_ERR 19
  | Nnan => NSTATUS_MAKE_ERR 20
  | NnullPointer => NSTATUS_MAKE_ERR 21
  | NinvalidPointer => NSTATUS_MAKE_ERR 22
  | NdoubleFree => NSTATUS_MAKE_ERR 23
  | NuseAfterFree => NSTATUS_MAKE_ERR 24
  | NstackOverflow => NSTATUS_MAKE_ERR 25
  | NheapCorruption => NSTATUS_MAKE_ERR 26
  | NbufferOverflow => NSTATUS_MAKE_ERR 27
  | NbufferUnderflow => NSTATUS_MAKE_ERR 28
  | NfileNotFound => NSTATUS_MAKE_ERR 29
  | NpathTooLong => NSTATUS_MAKE_ERR 30
  | NreadOnly => NSTATUS_MAKE_ERR 31
  | NdiskFull => NSTATUS_MAKE_ERR 32
  | NbadFilesystem => NSTATUS_MAKE_ERR 33
  | NfileCorrupted => NSTATUS_MAKE_ERR 34
  | NtooManyFileSystem => NSTATUS_MAKE_ERR 35
  | NprocessFailed => NSTATUS_MAKE_ERR 36
  | NthreadFailed => NSTATUS_MAKE_ERR 37
  | Ndeadlock => NSTATUS_MAKE_ERR 38
  | NraceCondition => NSTATUS_MAKE_ERR 39
  | NconnectionLost => NSTATUS_MAKE_ERR 40
  | NconnectionRefused => NSTATUS_MAKE_ERR 41
  | NhostUnreachable => NSTATUS_MAKE_ERR 42
  | NprotocolError => NSTATUS_MAKE_ERR 43
  | Nunauthorized => NSTATUS_MAKE_ERR 44
  | Nauthentication => NSTATUS_MAKE_ERR 45
  | Nencryption => NSTATUS_MAKE_ERR 46
  | NinvalidFormat => NSTATUS_MAKE_ERR 47
  | NparseError => NSTATUS_MAKE_ERR 48
  | NsyntaxError => NSTATUS_MAKE_ERR 49
  | NencodingError => NSTATUS_MAKE_ERR 50
  | NdeviceFailure => NSTATUS_MAKE_ERR 51
  | NdeviceMissing => NSTATUS_MAKE_ERR 52
  | NdeviceBusy => NSTATUS_MAKE_ERR 53
  | NhardwareFault => NSTATUS_MAKE_ERR 54
  | NnotInitialized => NSTATUS_MAKE_ERR 55
  | NalreadyInitialized => NSTATUS_MAKE_ERR 56
  | NinvalidState => NSTATUS_MAKE_ERR 57
  | NsyscallFailed => NSTATUS_MAKE_ERR 58
  | NkernelFault => NSTATUS_MAKE_ERR 59
  | Npanic => NSTATUS_MAKE_ERR 60
  | Nfatal => NSTATUS_MAKE_ERR 61
  | Nreserved1 => NSTATUS_MAKE_ERR 62
  | Nreserved2 => NSTATUS_MAKE_ERR 63
  end.

(** [NSTATUS_IS_ERR]: include/types.h:83-83 *)
Definition NSTATUS_IS_ERR (x : Z) : bool := x <? 0.

(** [NSTATUS_CODE]: include/types.h:84-84 *)
Definition NSTATUS_CODE (x : Z) : Z := Z.land x 0x7FFFFFFF.

(** The enumerator of a code: the inverse of [status], used to decide
    equality without comparing every pair of enumerators. *)
Definition status_of_code (c : Z) : option Nerror :=
  match c with
  | 0 => Some Nok
  | 1 => Some NnotFound
  | 2 => Some NinvalidArg
  | 3 => Some NoutOfMemory
  | 4 => Some Npermission
  | 5 => Some Ntimeout
  | 6 => Some Nbusy
  | 7 => Some NalreadyExists
  | 8 => Some Noverflow
  | 9 => Some Nunderflow
  | 10 => Some Nio
  | 11 => Some Ndisconnected
  | 12 => Some Nunsupported
  | 13 => Some Ncorrupted
  | 14 => Some Ninterrupted
  | 15 => Some Nunknown
  | 16 => Some NdivideByZero
  | 17 => Some Narithmetic
  | 18 => Some NoverflowMath
  | 19 => Some NunderflowMath
  | 20 => Some Nnan
  | 21 => Some NnullPointer
  | 22 => Some NinvalidPointer
  | 23 => Some NdoubleFree
  | 24 => Some NuseAfterFree
  | 25 => Some NstackOverflow
  | 26 => Some NheapCorruption
  | 27 => Some NbufferOverflow
  | 28 => Some NbufferUnderflow
  | 29 => Some NfileNotFound
  | 30 => Some NpathTooLong
  | 31 => Some NreadOnly
  | 32 => Some NdiskFull
  | 33 => Some NbadFilesystem
  | 34 => Some NfileCorrupted
  | 35 => Some NtooManyFileSystem
  | 36 => Some NprocessFailed
  | 37 => Some NthreadFailed
  | 38 => Some Ndeadlock
  | 39 => Some NraceCondition
  | 40 => Some NconnectionLost
  | 41 => Some NconnectionRefused
  | 42 => Some NhostUnreachable
  | 43 => Some NprotocolError
  | 44 => Some Nunauthorized
  | 45 => Some Nauthentication
  | 46 => Some Nencryption
  | 47 => Some NinvalidFormat
  | 48 => Some NparseError
  | 49 => Some NsyntaxError
  | 50 => Some NencodingError
  | 51 => Some NdeviceFailure
  | 52 => Some NdeviceMissing
  | 53 => Some NdeviceBusy
  | 54 => Some NhardwareFault
  | 55 => Some NnotInitialized
  | 56 => Some NalreadyInitialized
  | 57 => Some NinvalidState
  | 58 => Some NsyscallFailed
  | 59 => Some NkernelFault
  | 60 => Some Npanic
  | 61 => Some Nfatal
  | 62 => Some Nreserved1
  | 63 => Some Nreserved2
  | _ => None
  end.

Lemma status_of_code_status e : status_of_code (NSTATUS_CODE (status e)) = Some e.
Proof. by destruct e. Qed.

Lemma status_inj e1 e2 : status e1 = status e2 -> e1 = e2.
Proof.
  intros H. apply (inj Some). rewrite <- !status_of_code_status. by rewrite H.
Qed.

#[global] Instance Nerror_eq_dec : EqDecision Nerror.
Proof.
  intros e1 e2.
  destruct (decide (status e1 = status e2)) as [H|H].
  - left. by apply status_inj.
  - right. intros ->. done.
Defined.

(** The test the callers write on a returned [Nstatus]. *)
Definition is_err (e : Nerror) : bool := NSTATUS_IS_ERR (status e).

Lemma is_err_spec e : is_err e = negb (bool_decide (e = Nok)).
Proof. by destruct e. Qed.

(** ** Results *)

(** A function that fills an output on success and returns its status. *)
Inductive res (A : Type) : Type :=
| Ok (a : A)
| Err (e : Nerror).
Arguments Ok {A} a.
Arguments Err {A} e.

#[global] Instance res_eq_dec {A} `{EqDecision A} : EqDecision (res A).
Proof. solve_decision. Defined.

Definition res_status {A} (r : res A) : Nerror :=
  match r with Ok _ => Nok | Err e => e end.

(** ** Computations on a state *)

Definition ST (S A : Type) : Type := S -> A * S.

Section st.
Context {S : Type}.

Definition ret {A} (a : A) : ST S A := fun s => (a, s).
Definition bind {A B} (c : ST S A) (k : A -> ST S B) : ST S B :=
  fun s => let '(a, s') := c s in k a s'.
Definition gets {A} (f : S -> A) : ST S A := fun s => (f s, s).
Definition modify (f : S -> S) : ST S unit := fun s => (tt, f s).

(** [status = c(...); if (NSTATUS_IS_ERR(status)) return status;] *)
Definition tryb {A B} (c : ST S (res A)) (k : A -> ST S (res B)) : ST S (res B) :=
  fun s => match c s with
           | (Ok a, s') => k a s'
           | (Err e, s') => (Err e, s')
           end.
(** [p = c(...); if (!p) return e;] for a pointer-valued [c]. *)
Definition tryo {A B} (e : Nerror) (c : ST S (option A)) (k : A -> ST S (res B)) : ST S (res B) :=
  fun s => match c s with
           | (Some a, s') => k a s'
           | (None, s') => (Err e, s')
           end.
Definition ok {A} (a : A) : ST S (res A) := ret (Ok a).
Definition fail {A} (e : Nerror) : ST S (res A) := ret (Err e).
End st.

Notation "x <- c ;; k" := (bind c (fun x => k))
  (at level 100, c at next level, right associativity) : nyx_scope.
Notation "c ;;; k" := (bind c (fun _ => k))
  (at level 100, right associativity) : nyx_scope.
Notation "x <-? c ;; k" := (tryb c (fun x => k))
  (at level 100, c at next level, right associativity) : nyx_scope.

Notation "x <-o{ e } c ;; k" := (tryo e c (fun x => k))
  (at level 100, c at next level, right associativity) : nyx_scope.

Lemma bind_eq {S A B} (c : ST S A) (k : A -> ST S B) s :
  bind c k s = let '(a, s') := c s in k a s'.
Proof. done. Qed.

Lemma bind_run {S A B} (c : ST S A) (k : A -> ST S B) s a s' :
  c s = (a, s') -> bind c k s = k a s'.
Proof. unfold bind. by intros ->. Qed.

Lemma tryb_ok {S A B} (c : ST S (res A)) (k : A -> ST S (res B)) s a s' :
  c s = (Ok a, s') -> tryb c k s = k a s'.
Proof. unfold tryb. by intros ->. Qed.

Lemma tryb_err {S A B} (c : ST S (res A)) (k : A -> ST S (res B)) s e s' :
  c s = (Err e, s') -> tryb c k s = (Err e, s').
Proof. unfold tryb. by intros ->. Qed.
