(* ===== verification/Loops.v ===== *)
(** * Unbounded loops on a state

    A C loop whose number of rounds is bounded only by a 64-bit quantity - a
    count read from a disk, a chain of block numbers - is iterated with a
    binary fuel of [LOOP_FUEL] rounds; the iteration stops with the loop, so it
    runs as fast as the loop does.  [run_rule] is the only induction on the
    fuel: a measure below 2^64 that every round decreases shows that the loop
    has ended by itself.  A loop that is still running after [LOOP_FUEL] rounds
    follows a cycle on the disk and does not end in C; the model then answers
    [hang]. *)

From S2P Require Import Prelude Types.

Section loop.
Context {X A R : Type}.
Implicit Types (body : A -> ST X (A + R)).

(** One more round ([inl]) or the result ([inr]). *)
Fixpoint loop (fuel : positive) body (a : A) : ST X (A + R) := fun x =>
  match fuel with
  | xH => body a x
  | xO p => match loop p body a x with (inl a, x) => loop p body a x | r => r end
  | xI p =>
      match (match loop p body a x with (inl a, x) => loop p body a x | r => r end) with
      | (inl a, x) => body a x
      | r => r
      end
  end.

Fixpoint loopn (n : nat) body (a : A) : ST X (A + R) := fun x =>
  match n with
  | O => (inl a, x)
  | S n => match body a x with (inl a, x) => loopn n body a x | r => r end
  end.

Lemma loopn_add n m body a x :
  loopn (n + m) body a x = match loopn n body a x with (inl a, x) => loopn m body a x | r => r end.
Proof.
  revert a x. induction n as [|n IH]; intros a x; [done|]. simpl. destruct (body a x) as [[a'|r] x']; [apply IH|done].
Qed.

Lemma loop_loopn p body a x : loop p body a x = loopn (Pos.to_nat p) body a x.
Proof.
  revert a x. induction p as [p IH|p IH|]; intros a x.
  - cbn [loop]. rewrite IH.
    replace (Pos.to_nat p~1) with (Pos.to_nat p + (Pos.to_nat p + 1))%nat by lia. rewrite loopn_add.
    destruct (loopn (Pos.to_nat p) body a x) as [[a'|r] x']; [|done]. rewrite IH, loopn_add.
    destruct (loopn (Pos.to_nat p) body a' x') as [[a''|r] x'']; [|done]. simpl.
    by destruct (body a'' x'') as [[|] ?].
  - cbn [loop]. rewrite IH. replace (Pos.to_nat p~0) with (Pos.to_nat p + Pos.to_nat p)%nat by lia.
    rewrite loopn_add. destruct (loopn (Pos.to_nat p) body a x) as [[a'|r] x']; [apply IH|done].
  - simpl. by destruct (body a x) as [[|] ?].
Qed.

Lemma loopn_rule (I : Z -> A -> X -> Prop) (Q : R -> X -> Prop) body :
  (forall n a x, I n a x ->
     match body a x with
     | (inl a', x') => exists n', I n' a' x' /\ 0 <= n' < n
     | (inr r, x') => Q r x'
     end) ->
  forall k n a x, I n a x -> 0 <= n < Z.of_nat k ->
  exists r x', loopn k body a x = (inr r, x') /\ Q r x'.
Proof.
  intros Hb k. induction k as [|k IH]; intros n a x Hi Hn; [lia|]. simpl.
  pose proof (Hb n a x Hi) as H. destruct (body a x) as [[a'|r] x']; [|by exists r, x'].
  destruct H as (n' & Hi' & Hn'). apply (IH n'); [done|lia].
Qed.
End loop.

(** 2^64 rounds. *)
Definition LOOP_FUEL : positive := 18446744073709551616.

Section run.
Context {X A R : Type}.

Definition run (hang : R) (body : A -> ST X (A + R)) (a : A) : ST X R := fun x =>
  match loop LOOP_FUEL body a x with
  | (inr r, x) => (r, x)
  | (inl _, x) => (hang, x)
  end.

Lemma run_rule (I : Z -> A -> X -> Prop) (Q : R -> X -> Prop) hang body :
  (forall n a x, I n a x ->
     match body a x with
     | (inl a', x') => exists n', I n' a' x' /\ 0 <= n' < n
     | (inr r, x') => Q r x'
     end) ->
  forall n a x, I n a x -> 0 <= n < 2 ^ 64 ->
  exists r x', run hang body a x = (r, x') /\ Q r x'.
Proof.
  intros Hb n a x Hi Hn. unfold run. rewrite loop_loopn.
  destruct (loopn_rule I Q body Hb (Pos.to_nat LOOP_FUEL) n a x Hi) as (r & x' & -> & Hq); [|by exists r, x'].
  rewrite positive_nat_Z. exact Hn.
Qed.
End run.

(** [run_rule] for a computation used inside another. *)
Lemma run_wp {X A R} (I : Z -> A -> X -> Prop) (Q : R -> X -> Prop) hang body n (a : A) (x : X) :
  (forall n a x, I n a x ->
     match body a x with
     | (inl a', x') => exists n', I n' a' x' /\ 0 <= n' < n
     | (inr r, x') => Q r x'
     end) ->
  I n a x -> 0 <= n < 2 ^ 64 ->
  let '(r, x') := run hang body a x in Q r x'.
Proof. intros Hb Hi Hn. by destruct (run_rule I Q hang body Hb n a x Hi Hn) as (r & x' & -> & Hq). Qed.

(** ** Weakest preconditions

    [wp c Q s]: running [c] from [s] ends in [Q].  The rules follow the shapes
    of the code. *)

Definition wp {S A} (c : ST S A) (Q : A -> S -> Prop) (s : S) : Prop := let '(a, s') := c s in Q a s'.

Section wp.
Context {S : Type}.
Implicit Types s : S.

Lemma wp_mono {A} (c : ST S A) (P Q : A -> S -> Prop) s :
  wp c P s -> (forall a s', P a s' -> Q a s') -> wp c Q s.
Proof. unfold wp. destruct (c s). auto. Qed.

Lemma wp_run {A} (c : ST S A) (Q : A -> S -> Prop) s : wp c Q s -> exists a s', c s = (a, s') /\ Q a s'.
Proof. unfold wp. destruct (c s) as [a s']. eauto. Qed.

Lemma wp_and {A} (c : ST S A) (P Q : A -> S -> Prop) s : wp c P s -> wp c Q s -> wp c (fun a s => P a s /\ Q a s) s.
Proof. unfold wp. by destruct (c s). Qed.

Lemma wp_bind {A B} (c : ST S A) (k : A -> ST S B) Q s : wp c (fun a => wp (k a) Q) s -> wp (bind c k) Q s.
Proof. unfold wp, bind. by destruct (c s). Qed.

Lemma wp_tryb {A B} (c : ST S (res A)) (k : A -> ST S (res B)) Q s :
  wp c (fun r s' => match r with Ok a => wp (k a) Q s' | Err e => Q (Err e) s' end) s -> wp (tryb c k) Q s.
Proof. unfold wp, tryb. by destruct (c s) as [[a|e] s']. Qed.

Lemma wp_ret {A} (a : A) Q s : Q a s -> wp (ret a) Q s.
Proof. done. Qed.

(** Stepping over a computation that always succeeds. *)
Lemma wp_tryb_ok {A B} (c : ST S (res A)) (k : A -> ST S (res B)) (P : A -> S -> Prop) Q s :
  wp c (fun r s' => exists a, r = Ok a /\ P a s') s -> (forall a s', P a s' -> wp (k a) Q s') -> wp (tryb c k) Q s.
Proof. intros H Hk. apply wp_tryb. eapply wp_mono; [exact H|]. intros r s' (a & -> & Hp). by apply Hk. Qed.

(** A loop: [I n] holds before a round that has at most [n] to go. *)
Lemma wp_loop {A R} (hang : R) (body : A -> ST S (A + R)) (I : Z -> A -> S -> Prop) (Q : R -> S -> Prop) n a s :
  I n a s -> 0 <= n < 2 ^ 64 ->
  (forall n a s, I n a s ->
     wp (body a) (fun x s' => match x with inl a' => exists n', I n' a' s' /\ 0 <= n' < n | inr r => Q r s' end) s) ->
  wp (run hang body a) Q s.
Proof.
  intros Hi Hn Hb. unfold wp. apply (run_wp I Q hang body n a s); [|done..].
  intros n' a' s' Hi'. specialize (Hb n' a' s' Hi'). unfold wp in Hb.
  destruct (body a' s') as [[a2|r] s2]; exact Hb.
Qed.
End wp.

#[global] Opaque LOOP_FUEL.
