(* ===== verification/Mem.v ===== *)
(** * Byte memory

    Memory as the kernel addresses it: a byte per kernel virtual address.
    Loads are total ([0] where nothing was stored) and little-endian, and a
    byte read back is always below 256, whatever was stored.  Physical frame
    [p] is reached at [phys_to_virt p], as in [include/phys.h]. *)

From S2P Require Import Prelude.

Abbreviation mem := (gmap Z Z).

(** ** Bytes *)

Definition ld8 (m : mem) (a : Z) : Z := default 0 (m !! a) mod 256.
Definition st8 (a v : Z) (m : mem) : mem := <[a := v mod 256]> m.

(** Memories that read the same: the equality of this development. *)
Definition mem_eq (m m' : mem) : Prop := forall a, ld8 m a = ld8 m' a.

#[global] Instance mem_eq_equiv : Equivalence mem_eq.
Proof.
  split; unfold mem_eq.
  - done.
  - intros x y H a. by rewrite H.
  - intros x y z H1 H2 a. by rewrite H1, H2.
Qed.

#[global] Instance ld8_proper : Proper (mem_eq ==> eq ==> eq) ld8.
Proof. intros m m' H a a' ->. apply H. Qed.

Lemma ld8_range m a : 0 <= ld8 m a < 256.
Proof. apply Z.mod_pos_bound. lia. Qed.

Lemma ld8_st8 a v m b : ld8 (st8 a v m) b = if a =? b then v mod 256 else ld8 m b.
Proof.
  unfold ld8, st8. case_if.
  - subst. rewrite lookup_insert_eq. simpl. by rewrite Z.mod_mod.
  - by rewrite lookup_insert_ne.
Qed.

#[global] Instance st8_proper : Proper (eq ==> eq ==> mem_eq ==> mem_eq) st8.
Proof. intros a ? <- v ? <- m m' H b. rewrite !ld8_st8. by case_if. Qed.

(** ** Little-endian words of [n] bytes *)

Fixpoint ldn (n : nat) (m : mem) (a : Z) : Z :=
  match n with
  | O => 0
  | S n => ld8 m a + 256 * ldn n m (a + 1)
  end.

Fixpoint stn (n : nat) (a v : Z) (m : mem) : mem :=
  match n with
  | O => m
  | S n => st8 a v (stn n (a + 1) (v / 256) m)
  end.

Abbreviation ld16 := (ldn 2).
Abbreviation ld32 := (ldn 4).
Abbreviation ld64 := (ldn 8).
Abbreviation st64 := (stn 8).

(** The [k]-th byte of a word. *)
Definition byte_of (v k : Z) : Z := v / 256 ^ k mod 256.

Lemma ldn_range n m a : 0 <= ldn n m a < 256 ^ Z.of_nat n.
Proof.
  revert a. induction n as [|n IH]; intros a; [done|].
  rewrite Nat2Z.inj_succ, Z.pow_succ_r by lia. simpl.
  specialize (IH (a + 1)). pose proof (ld8_range m a). lia.
Qed.

Lemma ld64_range m a : 0 <= ld64 m a < 2 ^ 64.
Proof. apply (ldn_range 8). Qed.
#[export] Hint Resolve ld64_range : nyx_arith.

Lemma ldn_ext n m m' a :
  (forall b, a <= b < a + Z.of_nat n -> ld8 m b = ld8 m' b) -> ldn n m a = ldn n m' a.
Proof.
  revert a. induction n as [|n IH]; intros a H; simpl; [done|].
  rewrite (H a), (IH (a + 1)); [done| |lia]. intros b ?. apply H. lia.
Qed.

#[global] Instance ldn_proper n : Proper (mem_eq ==> eq ==> eq) (ldn n).
Proof. intros m m' H a ? <-. apply ldn_ext. intros; apply H. Qed.

Lemma byte_of_succ v k : 0 <= k -> byte_of v (k + 1) = byte_of (v / 256) k.
Proof.
  intros. unfold byte_of. rewrite Z.pow_add_r, Z.pow_1_r, Z.mul_comm by lia.
  by rewrite Z.div_div by lia.
Qed.

Lemma ld8_stn n a v m b :
  ld8 (stn n a v m) b =
  if (a <=? b) && (b <? a + Z.of_nat n) then byte_of v (b - a) else ld8 m b.
Proof.
  revert a v. induction n as [|n IH]; intros a v; simpl stn.
  - case_if; [lia|done].
  - rewrite ld8_st8, IH. repeat case_if; try lia; subst.
    all: try done.
    + unfold byte_of. by rewrite Z.sub_diag, Z.pow_0_r, Z.div_1_r.
    + rewrite <- byte_of_succ by lia. f_equal. lia.
Qed.

#[global] Instance stn_proper n : Proper (eq ==> eq ==> mem_eq ==> mem_eq) (stn n).
Proof. intros a ? <- v ? <- m m' H b. rewrite !ld8_stn. by case_if. Qed.

Lemma ldn_stn_same n a v m : ldn n (stn n a v m) a = v mod 256 ^ Z.of_nat n.
Proof.
  revert a v. induction n as [|n IH]; intros a v.
  - simpl. by rewrite Z.mod_1_r.
  - rewrite Nat2Z.inj_succ, Z.pow_succ_r by lia. simpl ldn. simpl stn.
    rewrite ld8_st8, Z.eqb_refl.
    rewrite (ldn_ext n _ (stn n (a + 1) (v / 256) m)).
    + rewrite IH. symmetry. rewrite Z.rem_mul_r by lia. done.
    + intros b Hb. rewrite ld8_st8. case_if; [lia|done].
Qed.

Lemma ld64_st64_same a v m : 0 <= v < 2 ^ 64 -> ld64 (st64 a v m) a = v.
Proof. intros. rewrite ldn_stn_same. by apply Z.mod_small. Qed.

Lemma ldn_stn_other n k a v m b :
  b + Z.of_nat k <= a \/ a + Z.of_nat n <= b -> ldn k (stn n a v m) b = ldn k m b.
Proof.
  intros H. apply ldn_ext. intros c Hc. rewrite ld8_stn. case_if; [lia|done].
Qed.

Lemma ld64_st64_other a v m b :
  b + 8 <= a \/ a + 8 <= b -> ld64 (st64 a v m) b = ld64 m b.
Proof. intros. by apply (ldn_stn_other 8 8). Qed.

(** ** Runs of bytes *)

Definition ld_bytes (m : mem) (a n : Z) : list Z := ld8 m <$> seqZ a n.

Fixpoint st_bytes (a : Z) (bs : list Z) (m : mem) : mem :=
  match bs with
  | [] => m
  | b :: bs => st8 a b (st_bytes (a + 1) bs m)
  end.

Lemma length_ld_bytes m a n : length (ld_bytes m a n) = Z.to_nat n.
Proof. unfold ld_bytes. by rewrite length_fmap, length_seqZ. Qed.

Lemma ld8_st_bytes a bs m b :
  ld8 (st_bytes a bs m) b =
  if (a <=? b) && (b <? a + Z.of_nat (length bs))
  then default 0 (bs !! Z.to_nat (b - a)) mod 256 else ld8 m b.
Proof.
  revert a. induction bs as [|x bs IH]; intros a; simpl st_bytes.
  - simpl. case_if; [lia|done].
  - rewrite ld8_st8, IH. simpl length. repeat case_if; try lia; subst.
    all: try done.
    + by rewrite Z.sub_diag.
    + by replace (Z.to_nat (b - a)) with (S (Z.to_nat (b - (a + 1)))) by lia.
Qed.

(** ** Physical addresses *)

(** [KERNEL_VMA_BASE]: include/phys.h:19-19 *)
Definition KERNEL_VMA_BASE : Z := 0xFFFFFFFF80000000.

(** [HHDM_BASE]: include/phys.h:20-20 *)
Definition HHDM_BASE : Z := 0xFFFF800000000000.

(** [phys_to_virt]: include/phys.h:23-26 *)
Definition phys_to_virt (phys : Z) : Z := u64 (phys + HHDM_BASE).

(** [virt_to_phys]: include/phys.h:33-42 *)
Definition virt_to_phys (virt : Z) : Z :=
  let a := u64 virt in
  if KERNEL_VMA_BASE <=? a then u64 (a - KERNEL_VMA_BASE)
  else if HHDM_BASE <=? a then u64 (a - HHDM_BASE)
  else a.

(** [virt_is_direct]: include/phys.h:45-48 *)
Definition virt_is_direct (virt : Z) : bool := HHDM_BASE <=? u64 virt.

(** Physical addresses the direct map covers without reaching the kernel image. *)
Definition PHYS_LIMIT : Z := KERNEL_VMA_BASE - HHDM_BASE.

Lemma phys_to_virt_eq p : 0 <= p < PHYS_LIMIT -> phys_to_virt p = p + HHDM_BASE.
Proof.
  unfold PHYS_LIMIT, KERNEL_VMA_BASE, HHDM_BASE, phys_to_virt. intros.
  apply uw_small. unfold HHDM_BASE. lia.
Qed.

Lemma virt_to_phys_to_virt p : 0 <= p < PHYS_LIMIT -> virt_to_phys (phys_to_virt p) = p.
Proof.
  intros H. rewrite phys_to_virt_eq by done.
  unfold PHYS_LIMIT, KERNEL_VMA_BASE, HHDM_BASE, virt_to_phys in *.
  rewrite (uw_small 64 (p + _)) by (unfold HHDM_BASE; lia).
  unfold KERNEL_VMA_BASE, HHDM_BASE. repeat case_if; try lia. rewrite uw_small; lia.
Qed.

Lemma byte_of_ldn n m a k : 0 <= k < Z.of_nat n -> byte_of (ldn n m a) k = ld8 m (a + k).
Proof.
  revert a k. induction n as [|n IH]; intros a k Hk; [lia|]. simpl ldn.
  pose proof (ld8_range m a).
  destruct (Z.eq_dec k 0) as [->|].
  - unfold byte_of. rewrite Z.pow_0_r, Z.div_1_r, Z.add_0_r.
    rewrite Z.mul_comm, Z_mod_plus_full. by apply Z.mod_small.
  - replace k with ((k - 1) + 1) at 1 by lia. rewrite byte_of_succ by lia.
    replace ((ld8 m a + 256 * ldn n m (a + 1)) / 256) with (ldn n m (a + 1)).
    + rewrite IH by lia. f_equal. lia.
    + rewrite Z.mul_comm, Z.div_add by lia. rewrite Z.div_small by done. lia.
Qed.

#[global] Arguments ldn : simpl never.
#[global] Arguments stn : simpl never.
