(* ===== verification/Memory.v ===== *)
(** * [nxkernel/lib/memory.c]

    [memset], [memcpy], [memmove] and [memcmp], with the word-at-a-time
    paths of the source.  Each loop is a [while] on the locals it assigns;
    [size] iterations are always enough, because every turn lowers [size].
    The lemmas reduce them to their byte-wise meaning. *)

From S2P Require Import Prelude Mem.

(** [NX_WORD_SIZE]: nxkernel/lib/memory.c:28-28 *)
Definition NX_WORD_SIZE : Z := 8.
(** [NX_WORD_MASK]: nxkernel/lib/memory.c:29-29 *)
Definition NX_WORD_MASK : Z := NX_WORD_SIZE - 1.

(** ** Definitions *)

(** The word pattern of step 2: the byte repeated. *)
(** [memset_word]: nxkernel/lib/memory.c:47-51 *)
Definition memset_word (byte : Z) : Z :=
  for_range 0 NX_WORD_SIZE (fun _ word => Z.lor (u64 (Z.shiftl word 8)) byte) 0.

(** The locals of [memset]: [d8], [size], and memory. *)
Abbreviation fill_st := (Z * Z * mem)%type.

(** [memset_bytes]: nxkernel/lib/memory.c:60-62 *)
Definition memset_bytes (byte : Z) (s : fill_st) : fill_st :=
  let '(d8, size, m) := s in (d8 + 1, size - 1, st8 d8 byte m).

(** [memset_words]: nxkernel/lib/memory.c:53-58 *)
Definition memset_words (word : Z) (s : fill_st) : fill_st :=
  let '(d8, size, m) := s in (d8 + NX_WORD_SIZE, size - NX_WORD_SIZE, st64 d8 word m).

(** [memset]: nxkernel/lib/memory.c:34-65 *)
Definition memset (dst value size : Z) (m : mem) : mem :=
  let byte := u8 value in
  let word := memset_word byte in
  let fuel := Z.to_nat size in
  let s := while fuel (fun '(d8, size, _) => negb (size =? 0) && tst d8 NX_WORD_MASK)
             (memset_bytes byte) (dst, size, m) in
  let s := while fuel (fun '(_, size, _) => NX_WORD_SIZE <=? size) (memset_words word) s in
  let s := while fuel (fun '(_, size, _) => negb (size =? 0)) (memset_bytes byte) s in
  s.2.

(** The locals of the copies: [d8], [s8], [size], and memory. *)
Abbreviation copy_st := (Z * Z * Z * mem)%type.

Definition aligned_pair (d8 s8 : Z) : bool := Z.land (Z.lor d8 s8) NX_WORD_MASK =? 0.

(** [memcpy]: nxkernel/lib/memory.c:70-89 *)
Definition memcpy (dst src size : Z) (m : mem) : mem :=
  let fuel := Z.to_nat size in
  let s : copy_st := (dst, src, size, m) in
  let s := if aligned_pair dst src then
      while fuel (fun '(_, _, size, _) => NX_WORD_SIZE <=? size)
        (fun '(d8, s8, size, m) =>
           (d8 + NX_WORD_SIZE, s8 + NX_WORD_SIZE, size - NX_WORD_SIZE, st64 d8 (ld64 m s8) m)) s
    else s in
  let s := while fuel (fun '(_, _, size, _) => negb (size =? 0))
      (fun '(d8, s8, size, m) => (d8 + 1, s8 + 1, size - 1, st8 d8 (ld8 m s8) m)) s in
  s.2.

(** The reverse copy of [memmove], from the ends of both regions. *)
(** [memmove_back]: nxkernel/lib/memory.c:109-123 *)
Definition memmove_back (dst src size : Z) (m : mem) : mem :=
  let fuel := Z.to_nat size in
  let s : copy_st := (dst + size, src + size, size, m) in
  let s := if aligned_pair (dst + size) (src + size) then
      while fuel (fun '(_, _, size, _) => NX_WORD_SIZE <=? size)
        (fun '(d8, s8, size, m) =>
           let d8 := d8 - NX_WORD_SIZE in
           let s8 := s8 - NX_WORD_SIZE in
           (d8, s8, size - NX_WORD_SIZE, st64 d8 (ld64 m s8) m)) s
    else s in
  let s := while fuel (fun '(_, _, size, _) => negb (size =? 0))
      (fun '(d8, s8, size, m) =>
         let d8 := d8 - 1 in
         let s8 := s8 - 1 in
         (d8, s8, size - 1, st8 d8 (ld8 m s8) m)) s in
  s.2.

(** [memmove]: nxkernel/lib/memory.c:94-126 *)
Definition memmove (dst src size : Z) (m : mem) : mem :=
  if (dst =? src) || (size =? 0) then m
  else if (dst <? src) || (u64 (src + size) <=? dst) then memcpy dst src size m
  else memmove_back dst src size m.

(** [memcmp_loop]: nxkernel/lib/memory.c:136-143 *)
Fixpoint memcmp_loop (size : nat) (m : mem) (s1 s2 : Z) : Z :=
  match size with
  | O => 0
  | S size =>
      if negb (ld8 m s1 =? ld8 m s2) then ld8 m s1 - ld8 m s2
      else memcmp_loop size m (s1 + 1) (s2 + 1)
  end.

(** [memcmp]: nxkernel/lib/memory.c:131-144 *)
Definition memcmp (m : mem) (a b size : Z) : Z := memcmp_loop (Z.to_nat size) m a b.

(** ** What they do, byte by byte *)

(** [m'] is [m] with [[lo, hi)] rewritten as [f] says. *)
Definition mem_upd (m m' : mem) (lo hi : Z) (f : Z -> Z) : Prop :=
  forall a, ld8 m' a = if (lo <=? a) && (a <? hi) then f a else ld8 m a.

Lemma mem_upd_empty m lo f : mem_upd m m lo lo f.
Proof. intros a. case_if; [lia|done]. Qed.

Lemma mem_upd_snoc n m m' lo hi f v :
  lo <= hi -> mem_upd m m' lo hi f ->
  (forall k, 0 <= k < Z.of_nat n -> byte_of v k = f (hi + k)) ->
  mem_upd m (stn n hi v m') lo (hi + Z.of_nat n) f.
Proof.
  intros Hle Hm Hv a. rewrite ld8_stn, Hm. repeat case_if; try lia; try done.
  rewrite Hv by lia. f_equal. lia.
Qed.

Lemma mem_upd_cons n m m' lo hi f v :
  lo <= hi -> mem_upd m m' lo hi f ->
  (forall k, 0 <= k < Z.of_nat n -> byte_of v k = f (lo - Z.of_nat n + k)) ->
  mem_upd m (stn n (lo - Z.of_nat n) v m') (lo - Z.of_nat n) hi f.
Proof.
  intros Hle Hm Hv a. rewrite ld8_stn, Hm. repeat case_if; try lia; try done.
  rewrite Hv by lia. f_equal. lia.
Qed.

(** A byte store is the one-byte word store. *)
Lemma st8_stn1 a v m : st8 a v m = stn 1 a v m.
Proof. done. Qed.

Lemma byte_of_0 v : byte_of v 0 = v mod 256.
Proof. unfold byte_of. by rewrite Z.pow_0_r, Z.div_1_r. Qed.

(** Every byte of the pattern is the byte, checked on the 256 bytes. *)
Lemma memset_word_byte b k : 0 <= b < 256 -> 0 <= k < 8 -> byte_of (memset_word b) k = b.
Proof.
  intros Hb Hk.
  assert (H : forallb (fun b => forallb (fun k => byte_of (memset_word b) k =? b) (seqZ 0 8))
                (seqZ 0 256) = true) by by vm_compute.
  rewrite forallb_forall in H. specialize (H b). rewrite <- list_elem_of_In, elem_of_seqZ in H.
  specialize (H ltac:(lia)). rewrite forallb_forall in H. specialize (H k).
  rewrite <- list_elem_of_In, elem_of_seqZ in H. specialize (H ltac:(lia)). lia.
Qed.

Section memset.
Context (dst size byte : Z) (m : mem).
Context (Hsize : 0 <= size) (Hbyte : 0 <= byte < 256).

Definition memset_inv (s : fill_st) : Prop :=
  let '(d8, sz, m') := s in
  dst <= d8 /\ 0 <= sz /\ d8 + sz = dst + size /\ mem_upd m m' dst d8 (fun _ => byte).

Definition fill_measure (s : fill_st) : nat := Z.to_nat s.1.2.

Lemma memset_bytes_step s :
  memset_inv s -> negb (s.1.2 =? 0) = true ->
  memset_inv (memset_bytes byte s) /\ (fill_measure (memset_bytes byte s) < fill_measure s)%nat.
Proof.
  destruct s as [[d8 sz] m']. unfold fill_measure. simpl. intros (? & ? & ? & Hm) Hc. bool_simpl.
  split_and!; try lia. rewrite st8_stn1.
  apply (mem_upd_snoc 1); [lia|done|]. intros k Hk. replace k with 0 by lia.
  rewrite byte_of_0. by apply Z.mod_small.
Qed.

Lemma memset_words_step s :
  memset_inv s -> (NX_WORD_SIZE <=? s.1.2) = true ->
  memset_inv (memset_words (memset_word byte) s) /\
  (fill_measure (memset_words (memset_word byte) s) < fill_measure s)%nat.
Proof.
  destruct s as [[d8 sz] m']. unfold fill_measure, NX_WORD_SIZE. cbn -[memset_word stn].
  intros (? & ? & ? & Hm) Hc. bool_simpl. unfold NX_WORD_SIZE in *.
  split_and!; try lia. apply (mem_upd_snoc 8); [lia|done|].
  intros. apply memset_word_byte; lia.
Qed.
End memset.

Lemma memset_upd dst v size m :
  0 <= size -> mem_upd m (memset dst v size m) dst (dst + size) (fun _ => u8 v).
Proof.
  intros Hsize. unfold memset.
  pose proof (u8_range v) as Hb. set (byte := u8 v) in *.
  pose (I := memset_inv dst size byte m).
  assert (H0 : I (dst, size, m)) by (split_and!; try lia; apply mem_upd_empty).
  assert (Hf : forall s, I s -> (fill_measure s <= Z.to_nat size)%nat).
  { intros [[d8 sz] m'] (? & ? & ? & _). unfold fill_measure. simpl. lia. }
  match goal with |- context [while ?f ?c ?b ?s] => match s with
    (_, _, _) => set (s1 := while f c b s) end end.
  assert (H1 : I s1).
  { apply (while_rule I fill_measure); auto.
    intros [[d8 sz] m'] HI Hc. apply memset_bytes_step; [exact Hb|exact HI|]. by apply andb_true_iff in Hc as [? _]. }
  clearbody s1.
  match goal with |- context [while ?f ?c ?b s1] => set (s2 := while f c b s1) end.
  assert (H2 : I s2).
  { apply (while_rule I fill_measure); auto.
    intros [[d8 sz] m'] HI Hc. by apply memset_words_step. }
  clearbody s2.
  match goal with |- context [while ?f ?c ?b s2] => set (s3 := while f c b s2);
    assert (H3 : I s3 /\ c s3 = false) end.
  { apply (while_rule I fill_measure); auto.
    intros [[d8 sz] m'] HI Hc. by apply memset_bytes_step. }
  clearbody s3. destruct s3 as [[d8 sz] m'], H3 as [(? & ? & Heq & Hm) Hc].
  bool_simpl. subst. simpl. by replace (dst + size) with d8 by lia.
Qed.

(** The region [[dst, dst+size)] read from the old [[src, src+size)]. *)
Definition copied (dst src : Z) (m : mem) : Z -> Z := fun a => ld8 m (src + (a - dst)).

Lemma st8_ld8 d s m : st8 d (ld8 m s) m = stn 1 d (ldn 1 m s) m.
Proof. unfold ldn, stn. by rewrite Z.mul_0_r, Z.add_0_r. Qed.

Definition copy_measure (s : copy_st) : nat := Z.to_nat s.1.2.

Section copy.
Context (dst src size : Z) (m : mem) (Hsize : 0 <= size).

Definition fwd_inv (s : copy_st) : Prop :=
  let '(d8, s8, sz, m') := s in
  dst <= d8 /\ 0 <= sz /\ d8 + sz = dst + size /\ s8 - src = d8 - dst /\
  mem_upd m m' dst d8 (copied dst src m).

Definition back_inv (s : copy_st) : Prop :=
  let '(d8, s8, sz, m') := s in
  0 <= sz <= size /\ d8 = dst + sz /\ s8 = src + sz /\
  mem_upd m m' d8 (dst + size) (copied dst src m).

(** A forward step of [n] bytes reads bytes that are still the old ones. *)
Lemma fwd_step n d8 s8 sz m' :
  dst <= src \/ src + size <= dst -> Z.of_nat n <= sz ->
  fwd_inv (d8, s8, sz, m') ->
  fwd_inv (d8 + Z.of_nat n, s8 + Z.of_nat n, sz - Z.of_nat n, stn n d8 (ldn n m' s8) m').
Proof.
  intros Hov Hn (? & ? & ? & ? & Hm). split_and!; try lia.
  apply mem_upd_snoc; [done..|]. intros k Hk. rewrite byte_of_ldn by done.
  rewrite Hm. unfold copied. case_if; [lia|]. f_equal. lia.
Qed.

Lemma back_step n d8 s8 sz m' :
  src < dst -> Z.of_nat n <= sz ->
  back_inv (d8, s8, sz, m') ->
  back_inv (d8 - Z.of_nat n, s8 - Z.of_nat n, sz - Z.of_nat n,
            stn n (d8 - Z.of_nat n) (ldn n m' (s8 - Z.of_nat n)) m').
Proof.
  intros Hov Hn (? & -> & -> & Hm). split_and!; try lia.
  apply mem_upd_cons; [lia|done|]. intros k Hk. rewrite byte_of_ldn by done.
  rewrite Hm. unfold copied. case_if; [lia|]. f_equal. lia.
Qed.

Lemma memcpy_upd :
  dst <= src \/ src + size <= dst ->
  mem_upd m (memcpy dst src size m) dst (dst + size) (copied dst src m).
Proof.
  intros Hov. unfold memcpy.
  assert (H0 : fwd_inv (dst, src, size, m)) by (split_and!; try lia; apply mem_upd_empty).
  assert (Hf : forall s, fwd_inv s -> (copy_measure s <= Z.to_nat size)%nat).
  { intros [[[d8 s8] sz] m'] (? & ? & ? & _). unfold copy_measure. simpl. lia. }
  match goal with |- context [if aligned_pair dst src then ?x else ?y] =>
    set (s1 := if aligned_pair dst src then x else y) end.
  assert (H1 : fwd_inv s1).
  { unfold s1. destruct (aligned_pair dst src); [|done].
    apply (while_rule fwd_inv copy_measure); auto.
    intros [[[d8 s8] sz] m'] HI Hc. unfold NX_WORD_SIZE in *. bool_simpl.
    refine (conj (fwd_step 8 _ _ _ _ Hov _ HI) _); [lia|]. unfold copy_measure. cbn. lia. }
  clearbody s1.
  match goal with |- context [while ?f ?c ?b s1] => set (s2 := while f c b s1);
    assert (H2 : fwd_inv s2 /\ c s2 = false) end.
  { apply (while_rule fwd_inv copy_measure); auto.
    intros [[[d8 s8] sz] m'] HI Hc. bool_simpl. rewrite st8_ld8.
    assert (0 <= sz) by by destruct HI as (? & ? & _).
    refine (conj (fwd_step 1 _ _ _ _ Hov _ HI) _); [lia|]. unfold copy_measure. cbn. lia. }
  clearbody s2. destruct s2 as [[[d8 s8] sz] m'], H2 as [(? & ? & Heq & ? & Hm) Hc].
  bool_simpl. subst. simpl. by replace (dst + size) with d8 by lia.
Qed.

Lemma memmove_back_upd :
  src < dst ->
  mem_upd m (memmove_back dst src size m) dst (dst + size) (copied dst src m).
Proof.
  intros Hov. unfold memmove_back.
  assert (H0 : back_inv (dst + size, src + size, size, m))
    by (split_and!; try lia; apply mem_upd_empty).
  assert (Hf : forall s, back_inv s -> (copy_measure s <= Z.to_nat size)%nat).
  { intros [[[d8 s8] sz] m'] (? & ? & _). unfold copy_measure. simpl. lia. }
  match goal with |- context [if aligned_pair ?a ?b then ?x else ?y] =>
    set (s1 := if aligned_pair a b then x else y) end.
  assert (H1 : back_inv s1).
  { unfold s1. destruct (aligned_pair _ _); [|done].
    apply (while_rule back_inv copy_measure); auto.
    intros [[[d8 s8] sz] m'] HI Hc. unfold NX_WORD_SIZE in *. bool_simpl.
    refine (conj (back_step 8 _ _ _ _ Hov _ HI) _); [lia|]. unfold copy_measure. cbn. lia. }
  clearbody s1.
  match goal with |- context [while ?f ?c ?b s1] => set (s2 := while f c b s1);
    assert (H2 : back_inv s2 /\ c s2 = false) end.
  { apply (while_rule back_inv copy_measure); auto.
    intros [[[d8 s8] sz] m'] HI Hc. bool_simpl. rewrite st8_ld8.
    assert (0 <= sz) by by destruct HI as ((? & ?) & _).
    refine (conj (back_step 1 _ _ _ _ Hov _ HI) _); [lia|]. unfold copy_measure. cbn. lia. }
  clearbody s2. destruct s2 as [[[d8 s8] sz] m'], H2 as [(? & -> & -> & Hm) Hc].
  bool_simpl. subst. simpl in *. by rewrite Z.add_0_r in Hm.
Qed.

Lemma memmove_upd :
  0 <= src -> src + size < 2 ^ 64 ->
  mem_upd m (memmove dst src size m) dst (dst + size) (copied dst src m).
Proof.
  intros Hs Hlim. unfold memmove. rewrite uw_small by lia.
  repeat case_if.
  - assert (dst = src \/ size = 0) as [-> | ->] by lia.
    + intros a. unfold copied. case_if; [|done]. f_equal. lia.
    + rewrite Z.add_0_r. apply mem_upd_empty.
  - apply memcpy_upd. lia.
  - apply memmove_back_upd. lia.
Qed.
End copy.

(** [memcmp] scans two byte lists to their first difference. *)
Fixpoint lex_cmp (l1 l2 : list Z) : Z :=
  match l1, l2 with
  | x :: l1, y :: l2 => if negb (x =? y) then x - y else lex_cmp l1 l2
  | _, _ => 0
  end.

Lemma seqZ_split a n : 0 < n -> seqZ a n = a :: seqZ (a + 1) (n - 1).
Proof.
  intros. rewrite seqZ_cons by lia. by f_equal.
Qed.

Lemma memcmp_lex m a b n : 0 <= n -> memcmp m a b n = lex_cmp (ld_bytes m a n) (ld_bytes m b n).
Proof.
  intros Hn. unfold memcmp, ld_bytes.
  remember (Z.to_nat n) as k eqn:Ek. revert a b n Hn Ek.
  induction k as [|k IH]; intros a b n Hn Ek.
  - by replace n with 0 by lia.
  - rewrite !(seqZ_split _ n) by lia. simpl. case_if; [done|]. apply IH; lia.
Qed.

Lemma lex_cmp_0 l1 l2 : length l1 = length l2 -> (lex_cmp l1 l2 = 0 <-> l1 = l2).
Proof.
  revert l2. induction l1 as [|x l1 IH]; intros [|y l2] Hl; try done.
  simpl in *. case_if.
  - split; [lia|]. intros [= -> ->]. done.
  - rewrite IH by lia. subst. split; [by intros ->|by intros [= ->]].
Qed.

(** [memmove] is a move: the destination holds what the source held
    before the call, however the two regions overlap and whichever of its
    forward, backward, word and byte loops runs; nothing else is written. *)
Theorem memmove_copies_old_bytes (dst src size : Z) (m : mem) :
  0 <= size -> 0 <= src -> src + size < 2 ^ 64 ->
  ld_bytes (memmove dst src size m) dst size = ld_bytes m src size /\
  (forall a, ~ dst <= a < dst + size -> ld8 (memmove dst src size m) a = ld8 m a).
Proof.
  intros Hsize Hs Hlim. pose proof (memmove_upd dst src size m Hsize Hs Hlim) as H. split.
  - unfold ld_bytes. apply list_eq. intros i. rewrite !list_lookup_fmap.
    destruct (decide (Z.of_nat i < size)).
    + rewrite !lookup_seqZ_lt by lia. simpl. rewrite H. case_if; [|lia].
      unfold copied. do 2 f_equal. lia.
    + by rewrite !lookup_seqZ_ge by lia.
  - intros a Ha. rewrite H. case_if; [lia|done].
Qed.

(** Overlapping by four bytes: the backward word loop runs. *)
Lemma memmove_copies_old_bytes_witness :
  let m := st_bytes 0x1000 [1; 2; 3; 4; 5; 6; 7; 8; 9] ∅ in
  ld_bytes (memmove 0x1004 0x1000 9 m) 0x1004 9 = [1; 2; 3; 4; 5; 6; 7; 8; 9].
Proof.
  intros m. destruct (memmove_copies_old_bytes 0x1004 0x1000 9 m) as [-> _]; [lia..|]. by vm_compute.
Defined.
