(* ===== verification/Strings.v ===== *)
(** * C strings: [nxkernel/lib/string.c]

    A [char *] is an address; a string is the bytes up to the first zero.
    Loops that the terminating byte ends carry a fuel, the number of bytes
    they may look at; [cstr] bounds it.  A pointer result is an option, [None]
    for the null pointer. *)

From S2P Require Import Prelude Types Mem Memory.

(** [strlen]: nxkernel/lib/string.c:19-27 *)
Fixpoint strlen (fuel : nat) (m : mem) (s : Z) : Z :=
  match fuel with
  | O => 0
  | S fuel => if negb (ld8 m s =? 0) then 1 + strlen fuel m (s + 1) else 0
  end.

(** [strnlen]: nxkernel/lib/string.c:30-38 *)
Fixpoint strnlen (maxlen : nat) (m : mem) (s : Z) : Z :=
  match maxlen with
  | O => 0
  | S maxlen => if negb (ld8 m s =? 0) then 1 + strnlen maxlen m (s + 1) else 0
  end.

(** [strcmp]: nxkernel/lib/string.c:41-49 *)
Fixpoint strcmp (fuel : nat) (m : mem) (a b : Z) : Z :=
  match fuel with
  | O => 0
  | S fuel =>
      if negb (ld8 m a =? 0) && (ld8 m a =? ld8 m b) then strcmp fuel m (a + 1) (b + 1)
      else ld8 m a - ld8 m b
  end.

(** [strncmp]: nxkernel/lib/string.c:52-64 *)
Fixpoint strncmp (n : nat) (m : mem) (a b : Z) : Z :=
  match n with
  | O => 0
  | S n =>
      if negb (ld8 m a =? 0) && (ld8 m a =? ld8 m b) then strncmp n m (a + 1) (b + 1)
      else ld8 m a - ld8 m b
  end.

(** [n] counts the bytes that are left; the second loop is [zeros]. *)
Fixpoint zeros (n : nat) (dest : Z) (m : mem) : mem :=
  match n with O => m | S n => zeros n (dest + 1) (st8 dest 0 m) end.

(** [strncpy]: nxkernel/lib/string.c:67-78 *)
Fixpoint strncpy (dest src : Z) (n : nat) (m : mem) : mem :=
  match n with
  | O => m
  | S k =>
      if negb (ld8 m src =? 0) then strncpy (dest + 1) (src + 1) k (st8 dest (ld8 m src) m)
      else zeros n dest m
  end.

(** [strcpy]: nxkernel/lib/string.c:81-91 *)
Fixpoint strcpy (fuel : nat) (dest src : Z) (m : mem) : mem :=
  match fuel with
  | O => m
  | S fuel =>
      if negb (ld8 m src =? 0) then strcpy fuel (dest + 1) (src + 1) (st8 dest (ld8 m src) m)
      else st8 dest 0 m
  end.

(** [strcat]: nxkernel/lib/string.c:94-104 *)
Definition strcat (fuel : nat) (dest src : Z) (m : mem) : mem :=
  strcpy fuel (dest + strlen fuel m dest) src m.

(** The loop of [strncat]. *)
Fixpoint strncat_loop (n : nat) (ptr src : Z) (m : mem) : mem :=
  match n with
  | O => st8 ptr 0 m
  | S n =>
      if negb (ld8 m src =? 0) then strncat_loop n (ptr + 1) (src + 1) (st8 ptr (ld8 m src) m)
      else st8 ptr 0 m
  end.

(** [strncat]: nxkernel/lib/string.c:107-119 *)
Definition strncat (fuel : nat) (dest src : Z) (n : nat) (m : mem) : mem :=
  strncat_loop n (dest + strlen fuel m dest) src m.

(** [strchr]: nxkernel/lib/string.c:122-135 *)
Fixpoint strchr (fuel : nat) (m : mem) (s c : Z) : option Z :=
  match fuel with
  | O => None
  | S fuel =>
      if negb (ld8 m s =? 0) then
        if ld8 m s =? u8 c then Some s else strchr fuel m (s + 1) c
      else if u8 c =? 0 then Some s else None
  end.

(** The loop of [strrchr], [last] being the last match so far. *)
Fixpoint strrchr_loop (fuel : nat) (m : mem) (s c : Z) (last : option Z) : option Z :=
  match fuel with
  | O => last
  | S fuel =>
      if negb (ld8 m s =? 0)
      then strrchr_loop fuel m (s + 1) c (if ld8 m s =? u8 c then Some s else last)
      else if u8 c =? 0 then Some s else last
  end.

(** [strrchr]: nxkernel/lib/string.c:138-153 *)
Definition strrchr (fuel : nat) (m : mem) (s c : Z) : option Z := strrchr_loop fuel m s c None.

(** The loop of [strstr]: [hay_len] bytes are left of the haystack. *)
(** [strstr_loop]: nxkernel/lib/string.c:168-174 *)
Fixpoint strstr_loop (fuel : nat) (m : mem) (haystack needle hay_len needle_len : Z) : option Z :=
  match fuel with
  | O => None
  | S fuel =>
      if needle_len <=? hay_len then
        if memcmp m haystack needle needle_len =? 0 then Some haystack
        else strstr_loop fuel m (haystack + 1) needle (u64 (hay_len - 1)) needle_len
      else None
  end.

(** [strstr]: nxkernel/lib/string.c:156-177 *)
Definition strstr (fuel : nat) (m : mem) (haystack needle : Z) : option Z :=
  if ld8 m needle =? 0 then Some haystack
  else
    let needle_len := strlen fuel m needle in
    let hay_len := strlen fuel m haystack in
    strstr_loop fuel m haystack needle hay_len needle_len.

(** The inner loop of [strpbrk]. *)
Fixpoint accepts (fuel : nat) (m : mem) (c a : Z) : bool :=
  match fuel with
  | O => false
  | S fuel => if negb (ld8 m a =? 0) then (c =? ld8 m a) || accepts fuel m c (a + 1) else false
  end.

(** [strpbrk]: nxkernel/lib/string.c:180-196 *)
Fixpoint strpbrk (fuel n : nat) (m : mem) (s accept : Z) : option Z :=
  match n with
  | O => None
  | S n =>
      if negb (ld8 m s =? 0) then
        if accepts fuel m (ld8 m s) accept then Some s else strpbrk fuel n m (s + 1) accept
      else None
  end.

(** Skipping while [strchr(delim, byte)] is, or is not, the null pointer. *)
Fixpoint tok_skip (fuel n : nat) (m : mem) (delim next : Z) (while_in : bool) : Z :=
  match n with
  | O => next
  | S n =>
      let found := match strchr fuel m delim (ld8 m next) with Some _ => true | None => false end in
      if negb (ld8 m next =? 0) && Bool.eqb found while_in
      then tok_skip fuel n m delim (next + 1) while_in else next
  end.

(** The static [next] is an argument and a result. *)
(** [strtok]: nxkernel/lib/string.c:199-231 *)
Definition strtok (fuel : nat) (str next : option Z) (delim : Z) (m : mem) : option Z * (option Z * mem) :=
  let next := match str with Some s => Some s | None => next end in
  match next with
  | None => (None, (None, m))
  | Some next =>
      let next := tok_skip fuel fuel m delim next true in
      if ld8 m next =? 0 then (None, (Some next, m))
      else
        let start := next in
        let next := tok_skip fuel fuel m delim next false in
        if negb (ld8 m next =? 0) then (Some start, (Some (next + 1), st8 next 0 m))
        else (Some start, (None, m))
  end.

(** ** Strings in memory *)

(** The string [l] is at [a]. *)
Fixpoint cstr (m : mem) (a : Z) (l : list Z) : Prop :=
  match l with
  | [] => ld8 m a = 0
  | x :: l => ld8 m a = x /\ x <> 0 /\ cstr m (a + 1) l
  end.

Lemma strlen_cstr fuel m a l : cstr m a l -> (length l < fuel)%nat -> strlen fuel m a = Z.of_nat (length l).
Proof.
  revert fuel a. induction l as [|x l IH]; intros [|fuel] a Hc Hf; simpl in *; try lia.
  - by rewrite Hc.
  - destruct Hc as (-> & Hx & Hc). rewrite (proj2 (Z.eqb_neq _ _) Hx). simpl.
    rewrite (IH fuel) by (done || lia). lia.
Qed.

Lemma cstr_bytes m a l : cstr m a l -> ld_bytes m a (Z.of_nat (length l)) = l.
Proof.
  revert a. induction l as [|x l IH]; intros a Hc; [done|]. destruct Hc as (Hx & _ & Hc).
  unfold ld_bytes. rewrite seqZ_split by (simpl; lia). csimpl. rewrite Hx. f_equal.
  rewrite <- (IH _ Hc) at 2. unfold ld_bytes. do 2 f_equal. lia.
Qed.

Lemma ld_bytes_take m a n k : 0 <= k <= n -> ld_bytes m a k = take (Z.to_nat k) (ld_bytes m a n).
Proof.
  intros Hk. unfold ld_bytes. rewrite <- fmap_take. f_equal.
  replace n with (k + (n - k)) by lia. rewrite seqZ_app by lia.
  rewrite take_app_le by (rewrite length_seqZ; lia). rewrite take_ge; [done|].
  rewrite length_seqZ. lia.
Qed.

(** Comparing [length ln] bytes of a long enough string is a prefix test. *)
Lemma memcmp_prefix m h n lh ln : cstr m h lh -> cstr m n ln -> (length ln <= length lh)%nat ->
  memcmp m h n (Z.of_nat (length ln)) = 0 <-> ln `prefix_of` lh.
Proof.
  intros Hh Hn Hl. rewrite memcmp_lex by lia. rewrite (cstr_bytes m n ln Hn).
  rewrite (ld_bytes_take m h (Z.of_nat (length lh))) by lia. rewrite (cstr_bytes m h lh Hh), Nat2Z.id.
  rewrite lex_cmp_0 by (rewrite length_take; lia). split.
  - intros <-. apply prefix_take.
  - intros [k ->]. by rewrite take_app_length.
Qed.

(** [i] is the first position of [ln] in [lh]. *)
Definition first_at (ln lh : list Z) (i : nat) : Prop :=
  (i <= length lh)%nat /\ ln `prefix_of` drop i lh /\ forall j, (j < i)%nat -> ~ ln `prefix_of` drop j lh.

Lemma strstr_loop_spec fuel m h n lh ln : cstr m h lh -> cstr m n ln -> ln <> [] ->
  (length lh < fuel)%nat -> Z.of_nat (length lh) < 2 ^ 64 ->
  match strstr_loop fuel m h n (Z.of_nat (length lh)) (Z.of_nat (length ln)) with
  | Some p => exists i, p = h + Z.of_nat i /\ first_at ln lh i
  | None => forall j, ~ ln `prefix_of` drop j lh
  end.
Proof.
  intros Hh Hn Hne Hf Hlim. revert fuel h Hh Hf.
  induction lh as [|x lh IH]; intros [|fuel] h Hh Hf; simpl in Hf; try lia.
  - simpl. case_if; [destruct ln; [done|simpl in E; lia]|].
    intros j Hp. rewrite drop_nil in Hp. by apply prefix_nil_inv in Hp.
  - cbn [strstr_loop]. case_if.
    2:{ intros j Hp. apply prefix_length in Hp. rewrite length_drop in Hp. simpl in Hp. simpl length in E. lia. }
    pose proof (memcmp_prefix m h n (x :: lh) ln Hh Hn ltac:(lia)) as Hm. case_if.
    + exists 0%nat. split; [lia|]. split; [lia|]. split; [by apply Hm|]. intros j Hj. lia.
    + destruct Hh as (Hx & Hx0 & Hh).
      assert (Hlen : u64 (Z.of_nat (length (x :: lh)) - 1) = Z.of_nat (length lh))
        by (simpl length in *; rewrite uw_small; lia).
      rewrite Hlen. specialize (IH ltac:(simpl length in *; lia) fuel (h + 1) Hh ltac:(lia)).
      assert (H0 : ~ ln `prefix_of` drop 0 (x :: lh)) by (intros Hp; by apply E0, Hm).
      destruct (strstr_loop fuel m (h + 1) n _ _) as [p|].
      * destruct IH as (i & -> & Hi & Hp & Hmin). exists (S i). split; [lia|].
        split; [simpl; lia|]. split; [done|]. intros [|j] Hj; [done|]. apply Hmin. lia.
      * intros [|j]; [done|]. apply IH.
Qed.

(** [strstr] finds the first occurrence: its result is the address of the
    first position at which the needle is a prefix of what is left of the
    haystack, and null only when there is none.  The comparisons never look
    past the haystack's end. *)
Theorem strstr_first (fuel : nat) (m : mem) (h n : Z) (lh ln : list Z) :
  cstr m h lh -> cstr m n ln -> (length lh < fuel)%nat -> (length ln < fuel)%nat ->
  Z.of_nat (length lh) < 2 ^ 64 ->
  match strstr fuel m h n with
  | Some p => exists i, p = h + Z.of_nat i /\ first_at ln lh i
  | None => forall j, ~ ln `prefix_of` drop j lh
  end.
Proof.
  intros Hh Hn Hfh Hfn Hlim. unfold strstr. case_if.
  - destruct ln as [|y ln]; [|by destruct Hn as (Hy & Hy0 & _); congruence].
    exists 0%nat. split; [lia|]. split; [lia|]. split; [apply prefix_nil|]. intros j Hj. lia.
  - rewrite (strlen_cstr fuel m n ln), (strlen_cstr fuel m h lh) by done. apply strstr_loop_spec; try done.
    intros ->. done.
Qed.

Lemma strstr_first_witness :
  exists m, cstr m 100 [1; 2; 1; 3] /\ cstr m 200 [1; 3] /\ strstr 10 m 100 200 = Some 102 /\
    first_at [1; 3] [1; 2; 1; 3] 2.
Proof.
  set (m := st_bytes 100 [1; 2; 1; 3; 0] (st_bytes 200 [1; 3; 0] ∅)).
  assert (Hh : cstr m 100 [1; 2; 1; 3]) by by vm_compute.
  assert (Hn : cstr m 200 [1; 3]) by by vm_compute.
  assert (E : strstr 10 m 100 200 = Some 102) by by vm_compute.
  assert (H1 : (length [1; 2; 1; 3] < 10)%nat) by (simpl; lia).
  assert (H2 : (length [1; 3] < 10)%nat) by (simpl; lia).
  assert (H3 : Z.of_nat (length [1; 2; 1; 3]) < 2 ^ 64) by done.
  pose proof (strstr_first 10 m 100 200 _ _ Hh Hn H1 H2 H3) as H. rewrite E in H.
  destruct H as (i & Hi & Hf). assert (i = 2%nat) as -> by lia.
  exists m. split; [exact Hh|]. split; [exact Hn|]. split; [exact E|exact Hf].
Defined.

(** ** [strncpy] *)

Lemma zeros_upd n dest m : mem_upd m (zeros n dest m) dest (dest + Z.of_nat n) (fun _ => 0).
Proof.
  revert dest m. induction n as [|n IH]; intros dest m a; simpl; [case_if; [lia|done]|].
  rewrite IH, ld8_st8. repeat case_if; try lia; done.
Qed.

Lemma cstr_ext m m' a l : cstr m a l ->
  (forall b, a <= b <= a + Z.of_nat (length l) -> ld8 m' b = ld8 m b) -> cstr m' a l.
Proof.
  revert a. induction l as [|x l IH]; intros a Hc He; simpl in *; [rewrite He by lia; done|].
  destruct Hc as (Hx & Hx0 & Hc). rewrite He by lia. split; [done|]. split; [done|].
  apply IH; [done|]. intros b Hb. apply He. lia.
Qed.

(** [strncpy] writes exactly the [n] bytes at the destination, the string
    cut to [n] bytes and then zeros, whatever was there; a string of [n] bytes
    or more leaves no terminating zero.  The two areas must not overlap. *)
Theorem strncpy_exact (m : mem) (dest src : Z) (n : nat) (l : list Z) :
  cstr m src l -> dest + Z.of_nat n <= src \/ src + Z.of_nat (length l) < dest ->
  mem_upd m (strncpy dest src n m) dest (dest + Z.of_nat n)
    (fun a => default 0 (l !! Z.to_nat (a - dest))).
Proof.
  revert m dest src l. induction n as [|n IH]; intros m dest src l Hc Hd a.
  { simpl. case_if; [lia|done]. }
  destruct l as [|x l].
  - simpl in Hc. cbn [strncpy]. rewrite Hc. change (negb (0 =? 0)) with false. cbv iota.
    rewrite zeros_upd. case_if; [by rewrite lookup_nil|done].
  - destruct Hc as (Hx & Hx0 & Hc). cbn [strncpy]. rewrite Hx, (proj2 (Z.eqb_neq _ _) Hx0).
    cbn [negb]. simpl length in Hd. pose proof (ld8_range m src) as Hr.
    rewrite (IH _ _ _ l); [| |lia].
    + rewrite ld8_st8. repeat case_if; try lia; try done.
      * replace (Z.to_nat (a - dest)) with (S (Z.to_nat (a - (dest + 1)))) by lia. done.
      * replace (Z.to_nat (a - dest)) with 0%nat by lia. simpl. rewrite Z.mod_small; lia.
    + apply (cstr_ext m); [done|]. intros b Hb. rewrite ld8_st8. case_if; [lia|done].
Qed.

Lemma strncpy_exact_witness :
  exists m, cstr m 100 [7; 9] /\
    mem_upd m (strncpy 50 100 4 m) 50 54 (fun a => default 0 ([7; 9] !! Z.to_nat (a - 50))).
Proof.
  assert (Hc : cstr (st_bytes 100 [7; 9; 0] ∅) 100 [7; 9]) by by vm_compute.
  eexists. split; [exact Hc|]. apply (strncpy_exact _ 50 100 4 [7; 9] Hc). left. done.
Defined.
