(* ===== verification/BootInfo.v ===== *)
(** * Boot information

    [NTBLI] ([include/types.h]) and the memory map it points to
    ([include/boot_info.h]): descriptors of [memmap_desc_size] bytes, read out
    of memory at the offsets of [ntbli_memdesc_t]. *)

From S2P Require Import Prelude Mem.

(** [NTBLI]: include/types.h:197-227 *)
Record NTBLI := mk_NTBLI {
  magic : Z;
  version : Z;
  ntbli_size : Z;
  memory_size : Z;
  initrd_base : Z;
  initrd_size : Z;
  framebuffer_base : Z;
  framebuffer_size : Z;
  width : Z;
  height : Z;
  pixels_per_scan_line : Z;
  pixel_format : Z;
  memmap_base : Z;
  memmap_size : Z;
  memmap_desc_size : Z;
  memmap_desc_version : Z;
  Rsdp : Z;
}.

(** [NTBLI_MAGIC]: include/types.h:184-184 *)
Definition NTBLI_MAGIC : Z := 0x4942544E.
(** [NTBLI_VERSION]: include/types.h:185-185 *)
Definition NTBLI_VERSION : Z := 2.
(** [NTBLI_PIXEL_RGB]: include/types.h:188-188 *)
Definition NTBLI_PIXEL_RGB : Z := 0.
(** [NTBLI_PIXEL_BGR]: include/types.h:189-189 *)
Definition NTBLI_PIXEL_BGR : Z := 1.
(** [NTBLI_PIXEL_BITMASK]: include/types.h:190-190 *)
Definition NTBLI_PIXEL_BITMASK : Z := 2.
(** [NTBLI_PIXEL_BLTONLY]: include/types.h:191-191 *)
Definition NTBLI_PIXEL_BLTONLY : Z := 3.

(** [NTBLI_MEM_RESERVED]: include/boot_info.h:13-13 *)
Definition NTBLI_MEM_RESERVED : Z := 0.
(** [NTBLI_MEM_CONVENTIONAL]: include/boot_info.h:20-20 *)
Definition NTBLI_MEM_CONVENTIONAL : Z := 7.
(** [NTBLI_MEM_UNUSABLE]: include/boot_info.h:21-21 *)
Definition NTBLI_MEM_UNUSABLE : Z := 8.
(** [NTBLI_MEM_ACPI_RECLAIM]: include/boot_info.h:22-22 *)
Definition NTBLI_MEM_ACPI_RECLAIM : Z := 9.
(** [NTBLI_MEM_ACPI_NVS]: include/boot_info.h:23-23 *)
Definition NTBLI_MEM_ACPI_NVS : Z := 10.
(** [NTBLI_MEM_MMIO]: include/boot_info.h:24-24 *)
Definition NTBLI_MEM_MMIO : Z := 11.
(** [NTBLI_MEM_MMIO_PORT]: include/boot_info.h:25-25 *)
Definition NTBLI_MEM_MMIO_PORT : Z := 12.
(** [NTBLI_MEM_PAL_CODE]: include/boot_info.h:26-26 *)
Definition NTBLI_MEM_PAL_CODE : Z := 13.

(** [ntbli_memdesc_t]: include/boot_info.h:34-41 *)
Record ntbli_memdesc_t := mk_memdesc {
  md_type : Z;
  md_pad : Z;
  md_phys_start : Z;
  md_virt_start : Z;
  md_num_pages : Z;
  md_attribute : Z;
}.

Definition sizeof_memdesc : Z := 40.

(** [NTBLI_PAGE_SIZE]: include/boot_info.h:46-46 *)
Definition NTBLI_PAGE_SIZE : Z := 4096.

(** The descriptor stored at an address: its fields at their offsets. *)
(** [ld_memdesc]: include/boot_info.h:34-43 *)
Definition ld_memdesc (m : mem) (a : Z) : ntbli_memdesc_t :=
  mk_memdesc (ld32 m a) (ld32 m (a + 4)) (ld64 m (a + 8))
             (ld64 m (a + 16)) (ld64 m (a + 24)) (ld64 m (a + 32)).

(** [no_memmap]: include/boot_info.h:57-58 *)
Definition no_memmap (info : NTBLI) : bool :=
  (memmap_base info =? 0) || (memmap_desc_size info <? sizeof_memdesc).

(** [ntbli_memmap_at]: include/boot_info.h:52-66 *)
Definition ntbli_memmap_at (m : mem) (info : NTBLI) (idx : Z) : option ntbli_memdesc_t :=
  if no_memmap info then None
  else
    let count := memmap_size info / memmap_desc_size info in
    if count <=? idx then None
    else Some (ld_memdesc m (memmap_base info + idx * memmap_desc_size info)).

(** [ntbli_memmap_count]: include/boot_info.h:69-75 *)
Definition ntbli_memmap_count (info : NTBLI) : Z :=
  if no_memmap info then 0 else memmap_size info / memmap_desc_size info.

(** The map is read inside its own bytes only. *)
Lemma ntbli_memmap_at_ext m m' info i :
  0 <= i -> 0 <= memmap_size info ->
  (forall a, memmap_base info <= a < memmap_base info + memmap_size info -> ld8 m a = ld8 m' a) ->
  ntbli_memmap_at m info i = ntbli_memmap_at m' info i.
Proof.
  intros Hi Hsz H. unfold ntbli_memmap_at, no_memmap, sizeof_memdesc. repeat case_if; try done.
  f_equal. set (ds := memmap_desc_size info) in *.
  assert ((i + 1) * ds <= memmap_size info).
  { assert (i + 1 <= memmap_size info / ds) by lia.
    pose proof (Z.mul_div_le (memmap_size info) ds ltac:(lia)). nia. }
  unfold ld_memdesc. f_equal; apply ldn_ext; intros b Hb; apply H; nia.
Qed.
