(* ===== verification/FrameAlloc.v ===== *)
(** * The frame allocator as its clients see it

    [paging.c], [umem.c], [elf.c] and [spawn.c] only use [pfa_alloc],
    [pfa_free] and memory.  They are modelled over any state with this
    interface; the class [FrameAllocatorLaws] is what they rely on.  The file
    [Pfa] gives the instance for [nxkernel/kernel/mm/pfa.c]. *)

From S2P Require Import Prelude Types Mem Memory.

Definition PAGE_SIZE : Z := 4096.

(** A physical frame the direct map reaches. *)
Definition frame_ok (p : Z) : Prop :=
  0 < p /\ p mod PAGE_SIZE = 0 /\ p + PAGE_SIZE <= PHYS_LIMIT.

#[global] Instance frame_ok_dec p : Decision (frame_ok p).
Proof. unfold frame_ok. apply _. Defined.

(** The kernel virtual addresses of a frame. *)
Definition in_frame (p a : Z) : Prop :=
  phys_to_virt p <= a < phys_to_virt p + PAGE_SIZE.

#[global] Instance in_frame_dec p a : Decision (in_frame p a).
Proof. unfold in_frame. apply _. Defined.

Class FrameAllocator (S : Type) := {
  fa_mem : S -> mem;
  fa_set_mem : mem -> S -> S;
  fa_alloc : ST S (res Z);
  fa_free : Z -> ST S Nerror;
  (** the free frames, the next one to be handed out first *)
  fa_rep : S -> list Z -> Prop;
}.

Class FrameAllocatorLaws (S : Type) `{FrameAllocator S} := {
  fa_mem_set m s : fa_mem (fa_set_mem m s) = m;
  fa_rep_ok s l : fa_rep s l -> NoDup l /\ Forall frame_ok l;
  fa_alloc_cons s p l :
    fa_rep s (p :: l) ->
    exists s', fa_alloc s = (Ok p, s') /\ fa_rep s' l /\
      mem_upd (fa_mem s) (fa_mem s') (phys_to_virt p) (phys_to_virt p + PAGE_SIZE) (fun _ => 0);
  fa_alloc_nil s : fa_rep s [] -> fa_alloc s = (Err NoutOfMemory, s);
  fa_free_ok s p l :
    fa_rep s l -> frame_ok p -> p ∉ l ->
    exists s', fa_free p s = (Nok, s') /\ fa_rep s' (p :: l) /\
      (forall a, ~ in_frame p a -> ld8 (fa_mem s') a = ld8 (fa_mem s) a);
  (** a store outside the free frames does not disturb the allocator *)
  fa_set_mem_rep s l m :
    fa_rep s l ->
    (forall p a, p ∈ l -> in_frame p a -> ld8 m a = ld8 (fa_mem s) a) ->
    fa_rep (fa_set_mem m s) l;
}.

(** ** Frames are disjoint *)

Lemma frame_virt p : frame_ok p -> phys_to_virt p = p + HHDM_BASE.
Proof. intros (? & ? & ?). apply phys_to_virt_eq. unfold PAGE_SIZE in *. lia. Qed.

Lemma frame_virt_phys p : frame_ok p -> virt_to_phys (phys_to_virt p) = p.
Proof. intros (? & ? & ?). apply virt_to_phys_to_virt. unfold PAGE_SIZE in *. lia. Qed.

Lemma frame_sep p q : frame_ok p -> frame_ok q -> p <> q -> p + PAGE_SIZE <= q \/ q + PAGE_SIZE <= p.
Proof.
  unfold frame_ok, PAGE_SIZE. intros (_ & Hp & _) (_ & Hq & _) Hne.
  pose proof (Z.div_mod p 4096 ltac:(lia)). pose proof (Z.div_mod q 4096 ltac:(lia)). lia.
Qed.

Lemma in_frame_inj p q a : frame_ok p -> frame_ok q -> in_frame p a -> in_frame q a -> p = q.
Proof.
  unfold in_frame. intros Hp Hq. rewrite !frame_virt by done. intros.
  destruct (decide (p = q)); [done|]. pose proof (frame_sep p q Hp Hq ltac:(done)). lia.
Qed.

Lemma in_frame_off p k : 0 <= k < PAGE_SIZE -> in_frame p (phys_to_virt p + k).
Proof. unfold in_frame. lia. Qed.

#[export] Hint Resolve in_frame_off : nyx.

(** Two memories that agree on a frame. *)
Definition frame_agree (m m' : mem) (p : Z) : Prop :=
  forall a, in_frame p a -> ld8 m a = ld8 m' a.

#[global] Instance frame_agree_equiv p : Equivalence (fun m m' => frame_agree m m' p).
Proof.
  split; unfold frame_agree.
  - done.
  - intros x y H a Ha. symmetry. auto.
  - intros x y z H1 H2 a Ha. rewrite H1 by done. auto.
Qed.

(** What changes only inside frame [q] leaves the other frames alone. *)
Lemma frame_agree_outside m m' p q :
  frame_ok p -> frame_ok q -> p <> q ->
  (forall a, ~ in_frame q a -> ld8 m' a = ld8 m a) -> frame_agree m' m p.
Proof.
  intros Hp Hq Hne H a Ha. apply H. intros Hb. apply Hne. by apply (in_frame_inj p q a).
Qed.

Lemma mem_upd_outside m m' p f :
  mem_upd m m' (phys_to_virt p) (phys_to_virt p + PAGE_SIZE) f ->
  forall a, ~ in_frame p a -> ld8 m' a = ld8 m a.
Proof. intros H a Ha. rewrite H. unfold in_frame in Ha. case_if; [lia|done]. Qed.
