(* ===== verification/Pfa.v ===== *)
(** * Physical frame allocator: [nxkernel/kernel/mm/pfa.c]

    A free list threaded through the free frames: the first eight bytes of a
    free frame hold the physical address of the next.  The state is the
    file's globals and memory.  The spin lock is not modelled (the model is
    one flow of control); output pointers are results. *)

From S2P Require Import Prelude Types Mem Memory BootInfo FrameAlloc.

(** [PFA_PAGE_SIZE]: nxkernel/kernel/mm/pfa.c:11-11 *)
Definition PFA_PAGE_SIZE : Z := 4096.
(** [PFA_LOW_RESERVED]: nxkernel/kernel/mm/pfa.c:12-12 *)
Definition PFA_LOW_RESERVED : Z := 0x100000.

(** ** State and operations *)

(** [pfa_st]: nxkernel/kernel/mm/pfa.c:14-16 *)
Record pfa_st := mk_pfa {
  pfa_mem : mem;
  g_free_head : Z;
  g_free_count : Z;
  g_initialized : bool;
}.

Definition pfa_set_mem (m : mem) (s : pfa_st) : pfa_st :=
  mk_pfa m (g_free_head s) (g_free_count s) (g_initialized s).

(** [align_up]: nxkernel/kernel/mm/pfa.c:19-22 *)
Definition align_up (v a : Z) : Z := Z.land (u64 (u64 (v + a) - 1)) (unot 64 (u64 (a - 1))).

(** [align_down]: nxkernel/kernel/mm/pfa.c:24-27 *)
Definition align_down (v a : Z) : Z := Z.land v (unot 64 (u64 (a - 1))).

(** [ranges_overlap]: nxkernel/kernel/mm/pfa.c:30-35 *)
Definition ranges_overlap (a_start a_end b_start b_end : Z) : bool :=
  if (a_end <=? a_start) || (b_end <=? b_start) then false
  else (a_start <? b_end) && (b_start <? a_end).

(** [push_free_locked]: nxkernel/kernel/mm/pfa.c:38-45 *)
Definition push_free_locked (phys : Z) (s : pfa_st) : pfa_st :=
  let node := phys_to_virt phys in
  mk_pfa (st64 node (g_free_head s) (pfa_mem s)) phys (u64 (g_free_count s + 1)) (g_initialized s).

(** The physical ranges [pfa_init] is called with. *)
Record pfa_ranges := mk_ranges {
  kernel_phys_start : Z;
  kernel_phys_end : Z;
  initrd_phys_start : Z;
  initrd_phys_end : Z;
  hhdm_limit : Z;
}.

(** The conditions of the innermost loop: is [start] pushed? *)
(** [frame_eligible]: nxkernel/kernel/mm/pfa.c:95-101 *)
Definition frame_eligible (r : pfa_ranges) (start : Z) : bool :=
  if start <? PFA_LOW_RESERVED then false
  else if ranges_overlap start (u64 (start + PFA_PAGE_SIZE)) (kernel_phys_start r) (kernel_phys_end r)
  then false
  else if (initrd_phys_start r <? initrd_phys_end r) &&
          ranges_overlap start (u64 (start + PFA_PAGE_SIZE)) (initrd_phys_start r) (initrd_phys_end r)
  then false
  else true.

(** The frames one descriptor contributes, in the order they are pushed. *)
(** [desc_frames]: nxkernel/kernel/mm/pfa.c:75-104 *)
Definition desc_frames (r : pfa_ranges) (d : ntbli_memdesc_t) : list Z :=
  if negb (md_type d =? NTBLI_MEM_CONVENTIONAL) then []
  else if 0x1000000000000 / NTBLI_PAGE_SIZE <? md_num_pages d then []
  else
    let start := md_phys_start d in
    let end_ := u64 (start + u64 (md_num_pages d * NTBLI_PAGE_SIZE)) in
    if end_ <? start then []
    else
      let end_ := if hhdm_limit r <? end_ then hhdm_limit r else end_ in
      if end_ <=? start then []
      else
        let start := align_up start PFA_PAGE_SIZE in
        let end_ := align_down end_ PFA_PAGE_SIZE in
        filter (fun p => frame_eligible r p = true) (steps start end_ PFA_PAGE_SIZE).

(** [pfa_init_loop]: nxkernel/kernel/mm/pfa.c:68-105 *)
Fixpoint pfa_init_loop (info : NTBLI) (r : pfa_ranges) (idx : list Z) (s : pfa_st) : pfa_st :=
  match idx with
  | [] => s
  | i :: idx =>
      match ntbli_memmap_at (pfa_mem s) info i with
      | None => s
      | Some d =>
          pfa_init_loop info r idx (fold_left (fun s p => push_free_locked p s) (desc_frames r d) s)
      end
  end.

(** [pfa_init]: nxkernel/kernel/mm/pfa.c:47-109 *)
Definition pfa_init (info : option NTBLI) (r : pfa_ranges) : ST pfa_st Nerror :=
  fun s =>
    if g_initialized s then (NalreadyInitialized, s)
    else match info with
    | None => (NinvalidArg, s)
    | Some info =>
        let s := mk_pfa (pfa_mem s) 0 0 (g_initialized s) in
        let count := ntbli_memmap_count info in
        let s := pfa_init_loop info r (seqZ 0 count) s in
        (Nok, mk_pfa (pfa_mem s) (g_free_head s) (g_free_count s) true)
    end.

(** [pfa_alloc]: nxkernel/kernel/mm/pfa.c:111-138 *)
Definition pfa_alloc : ST pfa_st (res Z) :=
  fun s =>
    if g_free_head s =? 0 then (Err NoutOfMemory, s)
    else
      let phys := g_free_head s in
      let node := phys_to_virt phys in
      let m := memset (phys_to_virt phys) 0 PFA_PAGE_SIZE (pfa_mem s) in
      (Ok phys, mk_pfa m (ld64 (pfa_mem s) node) (u64 (g_free_count s - 1)) (g_initialized s)).

(** [pfa_free]: nxkernel/kernel/mm/pfa.c:140-150 *)
Definition pfa_free (phys : Z) : ST pfa_st Nerror :=
  fun s =>
    if (phys =? 0) || negb (Z.land phys (PFA_PAGE_SIZE - 1) =? 0) then (NinvalidArg, s)
    else (Nok, push_free_locked phys s).

(** [pfa_free_count]: nxkernel/kernel/mm/pfa.c:152-155 *)
Definition pfa_free_count (s : pfa_st) : Z := g_free_count s.

(** ** The free list *)

(** The list threaded through memory from [h]. *)
Fixpoint linked (m : mem) (h : Z) (l : list Z) : Prop :=
  match l with
  | [] => h = 0
  | p :: l => h = p /\ linked m (ld64 m (phys_to_virt p)) l
  end.

(** The invariant: the list is the duplicate-free list [l] of frames, and the
    counter is its length. *)
Definition pfa_rep (s : pfa_st) (l : list Z) : Prop :=
  linked (pfa_mem s) (g_free_head s) l /\
  g_free_count s = u64 (Z.of_nat (length l)) /\
  NoDup l /\ Forall frame_ok l.

Lemma linked_ext m m' h l :
  Forall frame_ok l -> (forall p, p ∈ l -> frame_agree m' m p) -> linked m h l -> linked m' h l.
Proof.
  revert h. induction l as [|p l IH]; intros h Hok Ha Hl; [done|].
  destruct Hl as [-> Hl]. apply Forall_cons in Hok as [Hp Hok]. split; [done|].
  assert (Heq : ld64 m' (phys_to_virt p) = ld64 m (phys_to_virt p)).
  { apply ldn_ext. intros b Hb. apply (Ha p); [by left|]. unfold in_frame, PAGE_SIZE. lia. }
  rewrite Heq. apply IH; [done| |done]. intros q Hq. apply Ha. by right.
Qed.

Lemma st64_outside p v m a : ~ in_frame p a -> ld8 (st64 (phys_to_virt p) v m) a = ld8 m a.
Proof. intros H. rewrite ld8_stn. unfold in_frame, PAGE_SIZE in H. case_if; [lia|done]. Qed.

Lemma u64_succ n : u64 (u64 n + 1) = u64 (n + 1).
Proof. unfold uw. by rewrite Zplus_mod_idemp_l. Qed.
Lemma u64_pred n : u64 (u64 n - 1) = u64 (n - 1).
Proof. unfold uw. by rewrite Zminus_mod_idemp_l. Qed.

Lemma frame_ok_64 p : frame_ok p -> 0 <= p < 2 ^ 64.
Proof. unfold frame_ok, PHYS_LIMIT, KERNEL_VMA_BASE, HHDM_BASE, PAGE_SIZE. lia. Qed.

Lemma pfa_rep_head_range s l : pfa_rep s l -> 0 <= g_free_head s < 2 ^ 64.
Proof.
  intros (Hl & _ & _ & Hok). destruct l as [|p l]; [simpl in Hl; lia|].
  destruct Hl as [-> _]. apply frame_ok_64. by apply Forall_inv in Hok.
Qed.

Lemma push_free_rep s l p :
  pfa_rep s l -> frame_ok p -> p ∉ l -> pfa_rep (push_free_locked p s) (p :: l).
Proof.
  intros Hrep Hp Hn. pose proof (pfa_rep_head_range s l Hrep) as Hh.
  destruct Hrep as (Hl & Hc & Hnd & Hok). split_and!.
  - split; [done|]. cbn [pfa_mem push_free_locked]. rewrite ld64_st64_same by done.
    apply (linked_ext (pfa_mem s)); [done| |done]. intros q Hq.
    rewrite Forall_forall in Hok.
    apply (frame_agree_outside _ _ _ p); [auto|done|congruence|].
    intros. by apply st64_outside.
  - cbn [g_free_count push_free_locked]. rewrite Hc, u64_succ. f_equal. simpl. lia.
  - by constructor.
  - by constructor.
Qed.

Lemma pfa_alloc_cons s p l :
  pfa_rep s (p :: l) ->
  exists s', pfa_alloc s = (Ok p, s') /\ pfa_rep s' l /\
    mem_upd (pfa_mem s) (pfa_mem s') (phys_to_virt p) (phys_to_virt p + PAGE_SIZE) (fun _ => 0).
Proof.
  intros ([Hh Hl] & Hc & Hnd & Hok). apply Forall_cons in Hok as [Hp Hok].
  apply NoDup_cons in Hnd as [Hn Hnd]. eexists. split; [|split].
  - unfold pfa_alloc. rewrite Hh. destruct Hp as [? _]. case_if; [lia|done].
  - cbn [pfa_mem g_free_count g_free_head]. split_and!; try done.
    + cbn [pfa_mem g_free_head]. apply (linked_ext (pfa_mem s)); [done| |done].
      intros q Hq. rewrite Forall_forall in Hok.
      apply (frame_agree_outside _ _ _ p); [auto|done|congruence|].
      apply (mem_upd_outside _ _ _ (fun _ => u8 0)), memset_upd. done.
    + cbn [g_free_count]. rewrite Hc, u64_pred. f_equal. simpl. lia.
  - cbn [pfa_mem]. apply (memset_upd (phys_to_virt p) 0 PFA_PAGE_SIZE).
    unfold PFA_PAGE_SIZE. lia.
Qed.

Lemma pfa_alloc_nil s : pfa_rep s [] -> pfa_alloc s = (Err NoutOfMemory, s).
Proof. intros (Hh & _). unfold pfa_alloc. simpl in Hh. by rewrite Hh. Qed.

Lemma pfa_free_ok s p l :
  pfa_rep s l -> frame_ok p -> p ∉ l ->
  exists s', pfa_free p s = (Nok, s') /\ pfa_rep s' (p :: l) /\
    (forall a, ~ in_frame p a -> ld8 (pfa_mem s') a = ld8 (pfa_mem s) a).
Proof.
  intros Hrep Hp Hn. exists (push_free_locked p s). split_and!.
  - unfold pfa_free. destruct Hp as (? & Hm & _). unfold PFA_PAGE_SIZE, PAGE_SIZE in *.
    change (4096 - 1) with (2 ^ 12 - 1). rewrite land_ones_mod by lia.
    change (2 ^ 12) with 4096. rewrite Hm. case_if; [lia|done].
  - by apply push_free_rep.
  - intros. by apply st64_outside.
Qed.

Lemma pfa_set_mem_rep s l m :
  pfa_rep s l ->
  (forall p a, p ∈ l -> in_frame p a -> ld8 m a = ld8 (pfa_mem s) a) ->
  pfa_rep (pfa_set_mem m s) l.
Proof.
  intros (Hl & Hc & Hnd & Hok) H. split_and!; try done.
  apply (linked_ext (pfa_mem s)); [done| |done]. intros p Hp a Ha. by apply (H p).
Qed.

(** ** [pfa.c] implements the interface *)

#[global] Instance pfa_allocator : FrameAllocator pfa_st := {
  fa_mem := pfa_mem;
  fa_set_mem := pfa_set_mem;
  fa_alloc := pfa_alloc;
  fa_free := pfa_free;
  fa_rep := pfa_rep;
}.

#[global] Instance pfa_allocator_laws : FrameAllocatorLaws pfa_st.
Proof.
  split.
  - done.
  - intros s l (_ & _ & ? & ?). done.
  - apply pfa_alloc_cons.
  - apply pfa_alloc_nil.
  - apply pfa_free_ok.
  - apply pfa_set_mem_rep.
Qed.

(** ** What [pfa_init] puts in the list *)

Lemma align_up_page v :
  0 <= v -> v + 4096 <= 2 ^ 64 ->
  v <= align_up v 4096 < v + 4096 /\ align_up v 4096 mod 4096 = 0.
Proof.
  intros Hv Hlim. unfold align_up. change (u64 (4096 - 1)) with 4095.
  destruct (Z.eq_dec (v + 4096) (2 ^ 64)) as [He|].
  - rewrite He. change (u64 (u64 (2 ^ 64) - 1)) with (2 ^ 64 - 1).
    rewrite land_unot_page by lia. change ((2 ^ 64 - 1) mod 4096) with 4095.
    replace v with (2 ^ 64 - 4096) by lia. done.
  - rewrite (uw_small 64 (v + 4096)), uw_small by lia. rewrite land_unot_page by lia.
    pose proof (Z.mod_pos_bound (v + 4096 - 1) 4096 ltac:(lia)).
    pose proof (Z.div_mod (v + 4096 - 1) 4096 ltac:(lia)) as Hd.
    split; [lia|].
    replace (v + 4096 - 1 - (v + 4096 - 1) mod 4096) with ((v + 4096 - 1) / 4096 * 4096) by lia.
    apply Z.mod_mul. lia.
Qed.

Lemma align_down_page v :
  0 <= v < 2 ^ 64 -> align_down v 4096 = v - v mod 4096.
Proof. intros. unfold align_down. change (u64 (4096 - 1)) with 4095. by apply land_unot_page. Qed.

Lemma ranges_overlap_spec a b c d :
  ranges_overlap a b c d = true <-> exists x, a <= x < b /\ c <= x < d.
Proof.
  unfold ranges_overlap. split.
  - case_if; [done|]. intros. bool_simpl. exists (Z.max a c). lia.
  - intros (x & ? & ?). case_if; [lia|]. lia.
Qed.

(** Frame [p] is RAM the descriptor [d] offers, and none of the ranges the
    kernel keeps. *)
Definition usable (r : pfa_ranges) (d : ntbli_memdesc_t) (p : Z) : Prop :=
  md_type d = NTBLI_MEM_CONVENTIONAL /\
  md_num_pages d <= 2 ^ 36 /\
  md_phys_start d + md_num_pages d * PAGE_SIZE < 2 ^ 64 /\
  p mod PAGE_SIZE = 0 /\
  md_phys_start d <= p /\ p + PAGE_SIZE <= md_phys_start d + md_num_pages d * PAGE_SIZE /\
  p + PAGE_SIZE <= hhdm_limit r /\
  PFA_LOW_RESERVED <= p /\
  (forall a, p <= a < p + PAGE_SIZE -> ~ kernel_phys_start r <= a < kernel_phys_end r) /\
  (forall a, p <= a < p + PAGE_SIZE -> ~ initrd_phys_start r <= a < initrd_phys_end r).

(** The fields of a descriptor are unsigned words. *)
Definition memdesc_ok (d : ntbli_memdesc_t) : Prop :=
  0 <= md_phys_start d < 2 ^ 64 /\ 0 <= md_num_pages d < 2 ^ 64.

Lemma ld_memdesc_ok m a : memdesc_ok (ld_memdesc m a).
Proof. split; apply ld64_range. Qed.

Lemma frame_eligible_spec r p :
  0 <= p -> p + PAGE_SIZE < 2 ^ 64 ->
  frame_eligible r p = true <->
  PFA_LOW_RESERVED <= p /\
  (forall a, p <= a < p + PAGE_SIZE -> ~ kernel_phys_start r <= a < kernel_phys_end r) /\
  (forall a, p <= a < p + PAGE_SIZE -> ~ initrd_phys_start r <= a < initrd_phys_end r).
Proof.
  intros Hp Hlim. unfold frame_eligible, PFA_PAGE_SIZE. change PAGE_SIZE with 4096 in *.
  rewrite uw_small by lia.
  pose proof (ranges_overlap_spec p (p + 4096) (kernel_phys_start r) (kernel_phys_end r)) as HK.
  pose proof (ranges_overlap_spec p (p + 4096) (initrd_phys_start r) (initrd_phys_end r)) as HI.
  set (k := ranges_overlap _ _ (kernel_phys_start r) _) in *.
  set (i := ranges_overlap _ _ (initrd_phys_start r) _) in *. clearbody k i.
  transitivity (PFA_LOW_RESERVED <= p /\ k <> true /\ i <> true).
  - assert (Hi : i = true -> initrd_phys_start r < initrd_phys_end r)
      by (intros ->; destruct HI as [[x ?] _]; [done|lia]). clear HI HK.
    destruct k, i; simpl; rewrite ?andb_true_r, ?andb_false_r; repeat case_if; naive_solver lia.
  - rewrite HK, HI. naive_solver.
Qed.

Lemma desc_frames_spec r d p :
  memdesc_ok d -> 0 <= hhdm_limit r <= PHYS_LIMIT ->
  p ∈ desc_frames r d <-> usable r d p.
Proof.
  intros [Hs Hn] Hlim. unfold desc_frames, usable.
  assert (HPL : PHYS_LIMIT < 2 ^ 47) by done.
  change (0x1000000000000 / NTBLI_PAGE_SIZE) with (2 ^ 36).
  change NTBLI_PAGE_SIZE with 4096. change PFA_PAGE_SIZE with 4096. change PAGE_SIZE with 4096.
  case_if; [rewrite elem_of_nil; lia|].
  case_if; [rewrite elem_of_nil; lia|].
  rewrite (uw_small 64 (md_num_pages d * 4096)) by lia.
  set (sz := md_num_pages d * 4096) in *.
  destruct (Z.lt_ge_cases (md_phys_start d + sz) (2 ^ 64)) as [Hov|Hov]; cycle 1.
  { assert (He : u64 (md_phys_start d + sz) = md_phys_start d + sz - 2 ^ 64).
    { unfold uw. symmetry. apply (Z.mod_unique_pos _ _ 1); lia. }
    rewrite He. case_if; [rewrite elem_of_nil; lia|lia]. }
  rewrite uw_small by lia. case_if; [lia|].
  set (end_ := if hhdm_limit r <? md_phys_start d + sz then hhdm_limit r else md_phys_start d + sz).
  assert (Hend : end_ = Z.min (hhdm_limit r) (md_phys_start d + sz)) by (unfold end_; case_if; lia).
  clearbody end_. case_if; [rewrite elem_of_nil; lia|].
  destruct (align_up_page (md_phys_start d) ltac:(lia) ltac:(lia)) as [Hu Hum].
  rewrite align_down_page by lia.
  pose proof (Z.mod_pos_bound end_ 4096 ltac:(lia)).
  rewrite list_elem_of_filter, elem_of_steps by lia.
  pose proof (Z.div_mod (align_up (md_phys_start d) 4096) 4096 ltac:(lia)).
  pose proof (Z.div_mod end_ 4096 ltac:(lia)).
  split.
  - intros (He & Hr & Hm).
    assert (Hp : p mod 4096 = 0).
    { replace p with (align_up (md_phys_start d) 4096 + (p - align_up (md_phys_start d) 4096)) by lia.
      by rewrite Z.add_mod, Hum, Hm by lia. }
    pose proof (Z.div_mod p 4096 ltac:(lia)).
    apply frame_eligible_spec in He; [|lia|change PAGE_SIZE with 4096; lia].
    split_and!; try lia; apply He.
  - intros (? & ? & ? & Hp & ? & ? & ? & Hel).
    pose proof (Z.div_mod p 4096 ltac:(lia)).
    split; [apply frame_eligible_spec; [lia|change PAGE_SIZE with 4096; lia|done]|].
    split; [lia|]. rewrite Zminus_mod, Hp, Hum. done.
Qed.

(** *** The list after the initial pushes *)

Lemma usable_frame_ok r d p : hhdm_limit r <= PHYS_LIMIT -> usable r d p -> frame_ok p.
Proof. intros ? (? & ? & ? & ? & ? & ? & ? & ? & ?). unfold frame_ok, PFA_LOW_RESERVED in *. lia. Qed.

Lemma NoDup_desc_frames r d : NoDup (desc_frames r d).
Proof.
  unfold desc_frames. repeat case_if; try apply NoDup_nil_2.
  all: by apply NoDup_filter, NoDup_steps.
Qed.

Lemma push_frames_rep fs s l :
  pfa_rep s l -> Forall frame_ok fs -> NoDup fs -> fs ## l ->
  let s' := fold_left (fun s p => push_free_locked p s) fs s in
  pfa_rep s' (rev fs ++ l) /\
  (forall a, (forall p, p ∈ fs -> ~ in_frame p a) -> ld8 (pfa_mem s') a = ld8 (pfa_mem s) a).
Proof.
  revert s l. induction fs as [|p fs IH]; intros s l Hrep Hok Hnd Hdj; [done|].
  apply Forall_cons in Hok as [Hp Hok]. apply NoDup_cons in Hnd as [Hn Hnd].
  assert (p ∉ l) by (intros ?; apply (Hdj p); [by left|done]).
  destruct (IH (push_free_locked p s) (p :: l)) as [Hr Hm].
  - by apply push_free_rep.
  - done.
  - done.
  - intros q ? [-> | ?]%elem_of_cons; [done|]. apply (Hdj q); [by right|done].
  - simpl. rewrite <- app_assoc. split; [done|]. intros a Ha. rewrite Hm.
    + apply st64_outside. apply Ha. by left.
    + intros q ?. apply Ha. by right.
Qed.

(** The frames of the descriptors [idx], in the order they are pushed. *)
Definition map_frames (m : mem) (info : NTBLI) (r : pfa_ranges) (idx : list Z) : list Z :=
  idx ≫= (fun i => from_option (desc_frames r) [] (ntbli_memmap_at m info i)).

(** The memory map's own bytes are not in a frame it offers. *)
Definition memmap_safe (m : mem) (info : NTBLI) (r : pfa_ranges) : Prop :=
  forall i d p a, 0 <= i -> ntbli_memmap_at m info i = Some d -> usable r d p ->
    memmap_base info <= a < memmap_base info + memmap_size info -> ~ in_frame p a.

(** No frame is offered by two descriptors. *)
Definition memmap_disjoint (m : mem) (info : NTBLI) (r : pfa_ranges) : Prop :=
  forall i j d e p, 0 <= i -> 0 <= j -> i <> j ->
    ntbli_memmap_at m info i = Some d -> ntbli_memmap_at m info j = Some e ->
    usable r d p -> ~ usable r e p.

Lemma memmap_at_ok m info i d : ntbli_memmap_at m info i = Some d -> memdesc_ok d.
Proof. unfold ntbli_memmap_at. repeat case_if; intros; simplify_eq. apply ld_memdesc_ok. Qed.

Section init.
Context (m0 : mem) (info : NTBLI) (r : pfa_ranges).
Context (Hlim : 0 <= hhdm_limit r <= PHYS_LIMIT) (Hsz : 0 <= memmap_size info).
Context (Hsafe : memmap_safe m0 info r) (Hdisj : memmap_disjoint m0 info r).

Definition map_agree (m : mem) : Prop :=
  forall a, memmap_base info <= a < memmap_base info + memmap_size info -> ld8 m0 a = ld8 m a.

Lemma elem_of_map_frames idx p :
  p ∈ map_frames m0 info r idx <->
  exists i d, i ∈ idx /\ ntbli_memmap_at m0 info i = Some d /\ usable r d p.
Proof.
  unfold map_frames. rewrite list_elem_of_bind. split.
  - intros (i & Hp & Hi). destruct (ntbli_memmap_at m0 info i) as [d|] eqn:E; [|by apply elem_of_nil in Hp].
    exists i, d. split_and!; try done. apply desc_frames_spec; [by eapply memmap_at_ok|done|done].
  - intros (i & d & Hi & E & Hu). exists i. rewrite E. split; [|done].
    apply desc_frames_spec; [by eapply memmap_at_ok|done|done].
Qed.

Lemma NoDup_map_frames idx :
  NoDup idx -> Forall (fun i => 0 <= i) idx -> NoDup (map_frames m0 info r idx).
Proof.
  induction idx as [|i idx IH]; intros Hnd Hp; [apply NoDup_nil_2|].
  apply NoDup_cons in Hnd as [Hn Hnd]. apply Forall_cons in Hp as [Hi Hp].
  simpl. apply NoDup_app. split_and!.
  - destruct (ntbli_memmap_at m0 info i); [apply NoDup_desc_frames|apply NoDup_nil_2].
  - intros p Hp1 (j & e & Hj & Ej & Hu)%elem_of_map_frames.
    destruct (ntbli_memmap_at m0 info i) as [d|] eqn:E; [|by apply elem_of_nil in Hp1].
    rewrite Forall_forall in Hp. refine (Hdisj i j d e p Hi (Hp j Hj) _ E Ej _ Hu).
    + by intros ->.
    + apply desc_frames_spec in Hp1; [done|by eapply memmap_at_ok|done].
  - by apply IH.
Qed.

Lemma init_loop_rep idx s l :
  map_agree (pfa_mem s) -> pfa_rep s l ->
  NoDup idx -> Forall (fun i => 0 <= i < ntbli_memmap_count info) idx ->
  l ## map_frames m0 info r idx ->
  pfa_rep (pfa_init_loop info r idx s) (rev (map_frames m0 info r idx) ++ l).
Proof.
  revert s l. induction idx as [|i idx IH]; intros s l Hag Hrep Hnd Hrg Hdj; [done|].
  pose proof (Forall_impl _ (fun i => 0 <= i) _ Hrg ltac:(simpl; lia)) as Hpos.
  pose proof (NoDup_map_frames _ Hnd Hpos) as Hndf.
  apply Forall_cons in Hrg as [Hi Hrg].
  simpl in *. rewrite <- (ntbli_memmap_at_ext m0) by (try done; lia).
  assert (exists d, ntbli_memmap_at m0 info i = Some d) as [d E].
  { unfold ntbli_memmap_count in Hi. unfold ntbli_memmap_at. case_if; [lia|].
    case_if; [lia|]. by eexists. }
  rewrite E in *. simpl in *. apply NoDup_app in Hndf as (Hnd1 & Hd1 & Hnd2).
  assert (Hus : forall p, p ∈ desc_frames r d -> usable r d p).
  { intros p. apply desc_frames_spec; [by eapply memmap_at_ok|done]. }
  destruct (push_frames_rep (desc_frames r d) s l) as [Hr Hm]; [done| |done| |].
  - apply Forall_forall. intros p Hp. eapply usable_frame_ok; [|by apply Hus]. lia.
  - intros p ? ?. apply (Hdj p); [done|]. apply elem_of_app. by left.
  - rewrite rev_app_distr, <- app_assoc. apply IH; try done.
    + intros a Ha. rewrite Hm by (intros p Hp; apply (Hsafe i d); [lia|done|auto|done]).
      by apply Hag.
    + by apply NoDup_cons in Hnd as [_ ?].
    + intros p [?%list_elem_of_In%in_rev%list_elem_of_In | ?]%elem_of_app ?.
      * by apply (Hd1 p).
      * apply (Hdj p); [done|]. apply elem_of_app. by right.
Qed.
End init.

Lemma pfa_init_run (info : NTBLI) (r : pfa_ranges) (s : pfa_st) :
  g_initialized s = false ->
  0 <= hhdm_limit r <= PHYS_LIMIT ->
  0 <= memmap_size info ->
  memmap_safe (pfa_mem s) info r ->
  memmap_disjoint (pfa_mem s) info r ->
  exists s' l,
    pfa_init (Some info) r s = (Nok, s') /\ pfa_rep s' l /\ g_initialized s' = true /\
    forall p, p ∈ l <-> exists i d, 0 <= i < ntbli_memmap_count info /\
      ntbli_memmap_at (pfa_mem s) info i = Some d /\ usable r d p.
Proof.
  intros Hini Hlim Hsz Hsafe Hdisj. unfold pfa_init. rewrite Hini.
  set (s0 := mk_pfa (pfa_mem s) 0 0 false). set (idx := seqZ 0 (ntbli_memmap_count info)).
  pose proof (init_loop_rep (pfa_mem s) info r Hlim Hsz Hsafe Hdisj idx s0 []) as Hrep.
  eexists _, (rev (map_frames (pfa_mem s) info r idx) ++ []). split; [done|]. split; [|split; [done|]].
  - apply Hrep; [by intros ? ?|by split_and!; try apply NoDup_nil_2|apply NoDup_seqZ| |set_solver].
    apply Forall_forall. intros i ?%elem_of_seqZ. lia.
  - intros p. rewrite app_nil_r, list_elem_of_In, <- in_rev, <- list_elem_of_In.
    rewrite elem_of_map_frames by done. unfold idx. setoid_rewrite elem_of_seqZ. naive_solver lia.
Qed.

(** C2: [pfa_init] fills the free list with exactly the frames it may hand
    out: the page-aligned frames that lie wholly in a conventional descriptor
    of the memory map (one whose page count and end do not overflow), below the
    end of the direct map, above the first megabyte, and outside the kernel
    image and the initial ramdisk.  It holds when no frame is offered by two
    descriptors and the map is not itself stored in a frame it offers. *)
Theorem pfa_init_exact (info : NTBLI) (r : pfa_ranges) (s : pfa_st) :
  g_initialized s = false ->
  0 <= hhdm_limit r <= PHYS_LIMIT ->
  0 <= memmap_size info ->
  memmap_safe (pfa_mem s) info r ->
  memmap_disjoint (pfa_mem s) info r ->
  exists s' l,
    pfa_init (Some info) r s = (Nok, s') /\ pfa_rep s' l /\ g_initialized s' = true /\
    forall p, p ∈ l <-> exists i d, 0 <= i < ntbli_memmap_count info /\
      ntbli_memmap_at (pfa_mem s) info i = Some d /\ usable r d p.
Proof. apply pfa_init_run. Qed.

(** ** Clients of the allocator *)

(** A configuration: the allocator, and the frames handed out and not given
    back.  A client allocates, gives back what it owns, and writes to what it
    owns. *)
Inductive pfa_step : pfa_st * list Z -> pfa_st * list Z -> Prop :=
| step_alloc s s' o p : pfa_alloc s = (Ok p, s') -> pfa_step (s, o) (s', p :: o)
| step_alloc_fail s s' o e : pfa_alloc s = (Err e, s') -> pfa_step (s, o) (s', o)
| step_free s s' o1 o2 p e :
    pfa_free p s = (e, s') -> pfa_step (s, o1 ++ p :: o2) (s', o1 ++ o2)
| step_write s o p a v :
    p ∈ o -> in_frame p a -> pfa_step (s, o) (pfa_set_mem (st8 a v (pfa_mem s)) s, o).

(** Owned and free frames are a rearrangement of the initial ones. *)
Definition pfa_shared (l : list Z) (c : pfa_st * list Z) : Prop :=
  exists l', pfa_rep c.1 l' /\ c.2 ++ l' ≡ₚ l.

Lemma pfa_step_shared l c c' :
  NoDup l -> Forall frame_ok l -> pfa_step c c' -> pfa_shared l c -> pfa_shared l c'.
Proof.
  intros Hnd Hok Hst (l' & Hrep & Hp). destruct Hst as [s s' o p Hal|s s' o e Hal|s s' o1 o2 p e Hfr|s o p a v Hpo Ha].
  all: simpl in *.
  - destruct l' as [|q l']; [by rewrite (pfa_alloc_nil s Hrep) in Hal|].
    destruct (pfa_alloc_cons s q l' Hrep) as (s'' & E & Hr & _).
    rewrite E in Hal. simplify_eq. exists l'. split; [done|]. simpl. rewrite <- Hp. by rewrite Permutation_middle.
  - destruct l' as [|q l'].
    + rewrite (pfa_alloc_nil s Hrep) in Hal. simplify_eq. by exists [].
    + destruct (pfa_alloc_cons s q l' Hrep) as (s'' & E & _). congruence.
  - assert (Hp' : p :: o1 ++ o2 ++ l' ≡ₚ l) by (rewrite <- Hp, <- app_assoc; simpl; solve_Permutation).
    rewrite <- Hp' in Hnd. apply NoDup_cons in Hnd as [Hn _].
    rewrite <- Hp' in Hok. apply Forall_cons in Hok as [Hpok _].
    destruct (pfa_free_ok s p l' Hrep Hpok) as (s'' & E & Hr & _); [set_solver|].
    rewrite E in Hfr. simplify_eq. exists (p :: l'). split; [done|]. simpl. rewrite <- Hp'. solve_Permutation.
  - exists l'. split; [|done]. apply pfa_set_mem_rep; [done|]. intros q b Hq Hb.
    rewrite ld8_st8. case_if; [|done]. subst b. exfalso.
    pose proof Hnd as Hnd'. rewrite <- Hp in Hnd'. apply NoDup_app in Hnd' as (_ & Hd & _).
    rewrite Forall_forall in Hok.
    apply (Hd p Hpo). rewrite (in_frame_inj p q a); [done| | |done..].
    all: apply Hok; rewrite <- Hp; set_solver.
Qed.

(** C3: starting from a free list [l], whatever clients do with the frames
    they own, the frames they own and the free list are a rearrangement of [l]:
    no frame is lost, none has two owners, and the counter is exact.  The next
    allocation fails only when every frame is owned, and otherwise yields a
    frame of [l] nobody owns, filled with zeros. *)
Theorem pfa_ownership (l : list Z) (s0 s : pfa_st) (o : list Z) :
  pfa_rep s0 l -> Z.of_nat (length l) < 2 ^ 64 ->
  rtc pfa_step (s0, []) (s, o) ->
  (exists l', pfa_rep s l' /\ o ++ l' ≡ₚ l) /\ NoDup o /\
  pfa_free_count s = Z.of_nat (length l) - Z.of_nat (length o) /\
  match pfa_alloc s with
  | (Err e, _) => e = NoutOfMemory /\ o ≡ₚ l
  | (Ok p, s') => p ∈ l /\ p ∉ o /\ forall a, in_frame p a -> ld8 (pfa_mem s') a = 0
  end.
Proof.
  intros Hrep Hlen Hrtc. pose proof Hrep as (_ & _ & Hnd & Hok).
  assert (Hsh : pfa_shared l (s, o)).
  { apply (rtc_ind_r (R := pfa_step) (pfa_shared l) (s0, [])); [by exists l| |done].
    intros c c' _ Hst Hc. by eapply pfa_step_shared. }
  destruct Hsh as (l' & Hr & Hp). simpl in *. split; [by exists l'|].
  pose proof Hnd as Hnd'. rewrite <- Hp in Hnd'. apply NoDup_app in Hnd' as (Hno & Hd & _).
  split; [done|]. split.
  - destruct Hr as (_ & Hc & _). unfold pfa_free_count. rewrite Hc.
    rewrite <- Hp, length_app in *. rewrite uw_small by lia. lia.
  - destruct l' as [|p l'].
    + rewrite (pfa_alloc_nil s Hr). rewrite app_nil_r in Hp. done.
    + destruct (pfa_alloc_cons s p l' Hr) as (s' & E & _ & Hm). rewrite E.
      split_and!; [rewrite <- Hp; set_solver|set_solver|].
      intros a Ha. rewrite Hm. unfold in_frame in Ha. case_if; [done|lia].
Qed.

(** *** Concrete inputs *)

(** One conventional descriptor of four frames at 2 MiB, in the kernel image;
    the kernel takes the second frame, the ramdisk the third. *)
Definition ex_map_base : Z := KERNEL_VMA_BASE + 0x100000.
Definition ex_mem : mem :=
  stn 4 ex_map_base 7 (st64 (ex_map_base + 8) 0x200000 (st64 (ex_map_base + 24) 4 ∅)).
Definition ex_info : NTBLI :=
  mk_NTBLI NTBLI_MAGIC NTBLI_VERSION 0 0 0 0 0 0 0 0 0 0 ex_map_base 40 40 1 0.
Definition ex_ranges : pfa_ranges := mk_ranges 0x201000 0x202000 0x202000 0x203000 0x1000000.
Definition ex_pfa : pfa_st := mk_pfa ex_mem 0 0 false.

Lemma ex_memmap_safe : memmap_safe ex_mem ex_info ex_ranges.
Proof.
  intros i d p a Hi _ Hu Ha Hf. unfold in_frame in Hf.
  rewrite frame_virt in Hf by (by eapply (usable_frame_ok ex_ranges)).
  destruct Hu as (_ & _ & _ & _ & _ & _ & Hl & _). simpl in *.
  unfold ex_map_base, KERNEL_VMA_BASE, HHDM_BASE, PAGE_SIZE in *. lia.
Qed.

Lemma ex_memmap_disjoint : memmap_disjoint ex_mem ex_info ex_ranges.
Proof.
  intros i j d e p Hi Hj Hne Hd He. exfalso.
  unfold ntbli_memmap_at in Hd, He. change (no_memmap ex_info) with false in *.
  change (memmap_size ex_info / memmap_desc_size ex_info) with 1 in *. simpl in *.
  case_if_in Hd; [done|]. case_if_in He; [done|]. lia.
Qed.

Lemma pfa_init_exact_witness :
  exists s' l, pfa_init (Some ex_info) ex_ranges ex_pfa = (Nok, s') /\ pfa_rep s' l /\
    0x203000 ∈ l /\ 0x201000 ∉ l /\ g_free_head s' = 0x203000 /\ g_free_count s' = 2.
Proof.
  destruct (pfa_init_exact ex_info ex_ranges ex_pfa) as (s' & l & E & Hr & _ & Hl).
  - done.
  - done.
  - done.
  - apply ex_memmap_safe.
  - apply ex_memmap_disjoint.
  - exists s', l. split; [done|]. split; [done|].
    pose proof (Hl 0x203000) as H1. pose proof (Hl 0x201000) as H2.
    split_and!.
    + apply H1. exists 0, (mk_memdesc 7 0 0x200000 0 4 0). split; [done|]. split; [by vm_compute|].
      unfold usable. simpl. unfold PAGE_SIZE, PFA_LOW_RESERVED. repeat split; lia.
    + intros (i & d & _ & _ & Hu)%H2. destruct Hu as (_ & _ & _ & _ & _ & _ & _ & _ & Hk & _).
      apply (Hk 0x201000); simpl; unfold PAGE_SIZE; lia.
    + assert (H : g_free_head (pfa_init (Some ex_info) ex_ranges ex_pfa).2 = 0x203000) by by vm_compute.
      by rewrite E in H.
    + assert (H : g_free_count (pfa_init (Some ex_info) ex_ranges ex_pfa).2 = 2) by by vm_compute.
      by rewrite E in H.
Defined.

(** Two free frames; one allocation, one store, one release. *)
Definition ex_list : list Z := [0x5000; 0x7000].
Definition ex_free2 : pfa_st := push_free_locked 0x5000 (push_free_locked 0x7000 (mk_pfa ∅ 0 0 true)).

Lemma ex_free2_rep : pfa_rep ex_free2 ex_list.
Proof.
  unfold ex_free2, ex_list. apply push_free_rep; [apply push_free_rep| |set_solver].
  - by split_and!; try apply NoDup_nil_2.
  - by vm_compute.
  - set_solver.
  - by vm_compute.
Qed.

Lemma pfa_ownership_witness :
  let s1 := (pfa_alloc ex_free2).2 in
  (exists l', pfa_rep s1 l' /\ [0x5000] ++ l' ≡ₚ ex_list) /\ pfa_free_count s1 = 1.
Proof.
  destruct (pfa_ownership ex_list ex_free2 (pfa_alloc ex_free2).2 [0x5000]) as (H1 & _ & H2 & _).
  - apply ex_free2_rep.
  - by vm_compute.
  - apply rtc_once. apply step_alloc. unfold pfa_alloc. by case_if.
  - split; [exact H1|]. rewrite H2. reflexivity.
Defined.

(** Two descriptors that offer one and the same frame: [pfa_init] puts it on the
    list twice, and two allocations in a row give it out.  This is why the
    theorems ask that no frame is offered twice. *)
Definition ex_overlap_mem : mem :=
  stn 4 (ex_map_base + 40) 7 (st64 (ex_map_base + 48) 0x200000 (st64 (ex_map_base + 64) 1
    (stn 4 ex_map_base 7 (st64 (ex_map_base + 8) 0x200000 (st64 (ex_map_base + 24) 1 ∅))))).
Definition ex_overlap_info : NTBLI :=
  mk_NTBLI NTBLI_MAGIC NTBLI_VERSION 0 0 0 0 0 0 0 0 0 0 ex_map_base 80 40 1 0.

Example overlap_gives_frame_twice :
  let '(st, s) := pfa_init (Some ex_overlap_info) ex_ranges (mk_pfa ex_overlap_mem 0 0 false) in
  let '(r1, s1) := pfa_alloc s in
  st = Nok /\ r1 = Ok 0x200000 /\ (pfa_alloc s1).1 = Ok 0x200000.
Proof. by vm_compute. Qed.
