(* ===== verification/Multiboot.v ===== *)
(** * Boot information of a multiboot2 loader

    [nxkernel/kernel/boot/multiboot2.c]: the structure a multiboot2 loader
    leaves in memory, tag by tag, converted to the kernel's [NTBLI].  The
    structure is input from outside; addresses are those of the identity
    mapping at boot.  [out] is the caller's record, the descriptors go to
    memory. *)

From S2P Require Import Prelude Types Mem BootInfo.

(** [MB2_TAG_END]: nxkernel/kernel/boot/multiboot2.c:13-13 *)
Definition MB2_TAG_END : Z := 0.
(** [MB2_TAG_MODULE]: nxkernel/kernel/boot/multiboot2.c:14-14 *)
Definition MB2_TAG_MODULE : Z := 3.
(** [MB2_TAG_MMAP]: nxkernel/kernel/boot/multiboot2.c:15-15 *)
Definition MB2_TAG_MMAP : Z := 6.
(** [MB2_TAG_FRAMEBUF]: nxkernel/kernel/boot/multiboot2.c:16-16 *)
Definition MB2_TAG_FRAMEBUF : Z := 8.
(** [MB2_TAG_ACPI_OLD]: nxkernel/kernel/boot/multiboot2.c:17-17 *)
Definition MB2_TAG_ACPI_OLD : Z := 14.
(** [MB2_TAG_ACPI_NEW]: nxkernel/kernel/boot/multiboot2.c:18-18 *)
Definition MB2_TAG_ACPI_NEW : Z := 15.
(** [MB2_MEM_AVAILABLE]: nxkernel/kernel/boot/multiboot2.c:21-21 *)
Definition MB2_MEM_AVAILABLE : Z := 1.
(** [MB2_MEM_ACPI]: nxkernel/kernel/boot/multiboot2.c:22-22 *)
Definition MB2_MEM_ACPI : Z := 3.
(** [MB2_MEM_NVS]: nxkernel/kernel/boot/multiboot2.c:23-23 *)
Definition MB2_MEM_NVS : Z := 4.
(** [MB2_MEM_BAD]: nxkernel/kernel/boot/multiboot2.c:24-24 *)
Definition MB2_MEM_BAD : Z := 5.
(** [MB2_MIN_RSDP_SIZE]: nxkernel/kernel/boot/multiboot2.c:26-26 *)
Definition MB2_MIN_RSDP_SIZE : Z := 20.
(** [MB2_MAX_INFO_SIZE]: nxkernel/kernel/boot/multiboot2.h:17-17 *)
Definition MB2_MAX_INFO_SIZE : Z := 0x100000.

Definition sizeof_NTBLI : Z := 112.

(** [rd32]: nxkernel/kernel/boot/multiboot2.c:29-35 *)
Definition rd32 (m : mem) (p : Z) : Z := ld32 m p.
(** [rd64]: nxkernel/kernel/boot/multiboot2.c:37-43 *)
Definition rd64 (m : mem) (p : Z) : Z := ld64 m p.

(** ** Stores to the fields of the record *)

Definition set_memory_size (v : Z) (o : NTBLI) : NTBLI :=
  mk_NTBLI (magic o) (version o) (ntbli_size o) v (initrd_base o) (initrd_size o) (framebuffer_base o)
    (framebuffer_size o) (width o) (height o) (pixels_per_scan_line o) (pixel_format o) (memmap_base o)
    (memmap_size o) (memmap_desc_size o) (memmap_desc_version o) (Rsdp o).
Definition set_initrd (base size : Z) (o : NTBLI) : NTBLI :=
  mk_NTBLI (magic o) (version o) (ntbli_size o) (memory_size o) base size (framebuffer_base o)
    (framebuffer_size o) (width o) (height o) (pixels_per_scan_line o) (pixel_format o) (memmap_base o)
    (memmap_size o) (memmap_desc_size o) (memmap_desc_version o) (Rsdp o).
Definition set_framebuffer (base size w h stride format : Z) (o : NTBLI) : NTBLI :=
  mk_NTBLI (magic o) (version o) (ntbli_size o) (memory_size o) (initrd_base o) (initrd_size o) base
    size w h stride format (memmap_base o) (memmap_size o) (memmap_desc_size o) (memmap_desc_version o) (Rsdp o).
Definition set_memmap (base size desc_size desc_version : Z) (o : NTBLI) : NTBLI :=
  mk_NTBLI (magic o) (version o) (ntbli_size o) (memory_size o) (initrd_base o) (initrd_size o)
    (framebuffer_base o) (framebuffer_size o) (width o) (height o) (pixels_per_scan_line o) (pixel_format o)
    base size desc_size desc_version (Rsdp o).
Definition set_Rsdp (v : Z) (o : NTBLI) : NTBLI :=
  mk_NTBLI (magic o) (version o) (ntbli_size o) (memory_size o) (initrd_base o) (initrd_size o)
    (framebuffer_base o) (framebuffer_size o) (width o) (height o) (pixels_per_scan_line o) (pixel_format o)
    (memmap_base o) (memmap_size o) (memmap_desc_size o) (memmap_desc_version o) v.

(** ** The memory map *)

(** [map_memory_type]: nxkernel/kernel/boot/multiboot2.c:45-54 *)
Definition map_memory_type (mb2_type : Z) : Z :=
  if mb2_type =? MB2_MEM_AVAILABLE then NTBLI_MEM_CONVENTIONAL
  else if mb2_type =? MB2_MEM_ACPI then NTBLI_MEM_ACPI_RECLAIM
  else if mb2_type =? MB2_MEM_NVS then NTBLI_MEM_ACPI_NVS
  else if mb2_type =? MB2_MEM_BAD then NTBLI_MEM_UNUSABLE
  else NTBLI_MEM_RESERVED.

(** [dst[used] = ...] *)
(** [st_memdesc]: nxkernel/kernel/boot/multiboot2.c:105-110 *)
Definition st_memdesc (a type start pages : Z) (m : mem) : mem :=
  stn 8 (a + 32) 0 (stn 8 (a + 24) pages (stn 8 (a + 16) 0 (stn 8 (a + 8) start (stn 4 (a + 4) 0 (stn 4 a type m))))).

Definition page_down (v : Z) : Z := Z.land v (unot 64 (NTBLI_PAGE_SIZE - 1)).
Definition page_up (v : Z) : Z := page_down (u64 (v + (NTBLI_PAGE_SIZE - 1))).

(** What an entry covers once aligned, or [None] when it is skipped: inwards
    for available memory, outwards for the rest. *)
(** [entry_span]: nxkernel/kernel/boot/multiboot2.c:76-100 *)
Definition entry_span (base len type : Z) : option (Z * Z) :=
  if (len =? 0) || (u64 (base + len) <? base) then None
  else
    let end_ := u64 (base + len) in
    if type =? NTBLI_MEM_CONVENTIONAL then
      let '(start, end_) := (page_up base, page_down end_) in
      if end_ <=? start then None else Some (start, end_)
    else
      let '(start, end_) := (page_down base, page_up end_) in
      if end_ <? start then None else Some (start, end_).

(** The loop over the entries from address [e] on. *)
(** [mmap_loop]: nxkernel/kernel/boot/multiboot2.c:75-117 *)
Fixpoint mmap_loop (n : nat) (e entry_size dst cap_entries used : Z) (s : NTBLI * mem) : Z * (NTBLI * mem) :=
  match n with
  | O => (used, s)
  | S n =>
      let '(out, m) := s in
      let type := map_memory_type (rd32 m (e + 16)) in
      match entry_span (rd64 m e) (rd64 m (e + 8)) type with
      | None => mmap_loop n (e + entry_size) entry_size dst cap_entries used s
      | Some (start, end_) =>
          if cap_entries <=? used then (used, s)
          else
            let m := st_memdesc (dst + used * sizeof_memdesc) type start (u64 (end_ - start) / NTBLI_PAGE_SIZE) m in
            let out :=
              if ((type =? NTBLI_MEM_CONVENTIONAL) || (type =? NTBLI_MEM_ACPI_RECLAIM) ||
                  (type =? NTBLI_MEM_ACPI_NVS)) && (memory_size out <? end_)
              then set_memory_size end_ out else out in
            mmap_loop n (e + entry_size) entry_size dst cap_entries (used + 1) (out, m)
      end
  end.

(** [convert_mmap]: nxkernel/kernel/boot/multiboot2.c:57-119 *)
Definition convert_mmap (tag tag_size dst cap_entries : Z) (s : NTBLI * mem) : res Z * (NTBLI * mem) :=
  if tag_size <? 16 then (Err NinvalidFormat, s)
  else
    let entry_size := rd32 s.2 (tag + 8) in
    if entry_size <? 24 then (Err NinvalidFormat, s)
    else
      let '(used, s) := mmap_loop (Z.to_nat ((tag_size - 16) / entry_size)) (tag + 16) entry_size dst cap_entries 0 s in
      (Ok used, s).

(** ** The other tags *)

(** [convert_framebuffer]: nxkernel/kernel/boot/multiboot2.c:121-164 *)
Definition convert_framebuffer (tag tag_size : Z) (m : mem) (out : NTBLI) : NTBLI :=
  if tag_size <? 38 then out
  else
    let addr := rd64 m (tag + 8) in
    let pitch := rd32 m (tag + 16) in
    let w := rd32 m (tag + 20) in
    let h := rd32 m (tag + 24) in
    let bpp := ld8 m (tag + 28) in
    let fbtype := ld8 m (tag + 29) in
    let red_pos := ld8 m (tag + 32) in
    let green_pos := ld8 m (tag + 34) in
    let blue_pos := ld8 m (tag + 36) in
    if negb (fbtype =? 1) || negb (bpp =? 32) || (addr =? 0) || (w =? 0) || (h =? 0) then out
    else if negb (Z.land pitch 3 =? 0) || (pitch <? u32 (w * 4)) then out
    else
      let format :=
        if (red_pos =? 16) && (green_pos =? 8) && (blue_pos =? 0) then NTBLI_PIXEL_BGR
        else if (red_pos =? 0) && (green_pos =? 8) && (blue_pos =? 16) then NTBLI_PIXEL_RGB
        else NTBLI_PIXEL_BITMASK in
      set_framebuffer addr (u64 (pitch * h)) w h (pitch / 4) format out.

(** [MB2_TAG_MODULE]: the first module is the initial RAM disk. *)
(** [convert_module]: nxkernel/kernel/boot/multiboot2.c:206-217 *)
Definition convert_module (tag size : Z) (m : mem) (out : NTBLI) : NTBLI :=
  if (16 <=? size) && (initrd_base out =? 0) then
    let mstart := rd32 m (tag + 8) in
    let mend := rd32 m (tag + 12) in
    if mstart <? mend then set_initrd mstart (mend - mstart) out else out
  else out.

(** ** The loop over the tags *)

(** What the loop changes: [have_rsdp_new], the record and memory. *)
Abbreviation mb2_st := (bool * (NTBLI * mem))%type.

(** The body of the [switch]; a status ends the conversion. *)
(** [handle_tag]: nxkernel/kernel/boot/multiboot2.c:204-243 *)
Definition handle_tag (tag type size memmap_buf memmap_cap : Z) (s : mb2_st) : Nerror * mb2_st :=
  let '(have_rsdp_new, (out, m)) := s in
  if type =? MB2_TAG_MODULE then (Nok, (have_rsdp_new, (convert_module tag size m out, m)))
  else if type =? MB2_TAG_MMAP then
    match convert_mmap tag size memmap_buf (memmap_cap / sizeof_memdesc) (out, m) with
    | (Err _, om) => (NinvalidFormat, (have_rsdp_new, om))
    | (Ok count, (out, m)) =>
        (Nok, (have_rsdp_new,
          (set_memmap memmap_buf (u64 (count * sizeof_memdesc)) sizeof_memdesc 1 out, m)))
    end
  else if type =? MB2_TAG_FRAMEBUF then (Nok, (have_rsdp_new, (convert_framebuffer tag size m out, m)))
  else if type =? MB2_TAG_ACPI_NEW then
    if 8 + MB2_MIN_RSDP_SIZE <=? size then (Nok, (true, (set_Rsdp (tag + 8) out, m))) else (Nok, s)
  else if type =? MB2_TAG_ACPI_OLD then
    if negb have_rsdp_new && (8 + MB2_MIN_RSDP_SIZE <=? size)
    then (Nok, (have_rsdp_new, (set_Rsdp (tag + 8) out, m))) else (Nok, s)
  else (Nok, s).

(** The loop; [fuel] bounds its rounds, each of which moves [off] by at least
    eight. *)
(** [tag_loop]: nxkernel/kernel/boot/multiboot2.c:192-246 *)
Fixpoint tag_loop (fuel : nat) (mbi total off memmap_buf memmap_cap : Z) (s : mb2_st) : Nerror * mb2_st :=
  match fuel with
  | O => (Nok, s)
  | S fuel =>
      if negb (off + 8 <=? total) then (Nok, s)
      else
        let tag := mbi + off in
        let type := rd32 s.2.2 tag in
        let size := rd32 s.2.2 (tag + 4) in
        if type =? MB2_TAG_END then (Nok, s)
        else if (size <? 8) || (total - off <? size) then (NinvalidFormat, s)
        else match handle_tag tag type size memmap_buf memmap_cap s with
        | (Nok, s) => tag_loop fuel mbi total (u32 (off + Z.land (u32 (size + 7)) (unot 32 7))) memmap_buf memmap_cap s
        | (e, s) => (e, s)
        end
  end.

(** The record [memset] and the first assignments leave. *)
(** [mb2_start]: nxkernel/kernel/boot/multiboot2.c:185-189 *)
Definition mb2_start : NTBLI :=
  mk_NTBLI NTBLI_MAGIC NTBLI_VERSION sizeof_NTBLI 0 0 0 0 0 0 0 0 NTBLI_PIXEL_BLTONLY 0 0 0 0 0.

(** [multiboot2_to_ntbli]: nxkernel/kernel/boot/multiboot2.c:166-255 *)
Definition multiboot2_to_ntbli (mbi_phys memmap_buf memmap_cap : Z) (s : NTBLI * mem) : Nerror * (NTBLI * mem) :=
  let '(out, m) := s in
  if memmap_buf =? 0 then (NinvalidArg, s)
  else if (mbi_phys =? 0) || negb (Z.land mbi_phys 7 =? 0) || (0x100000000 <=? mbi_phys) then (NinvalidPointer, s)
  else
    let total := rd32 m mbi_phys in
    if (total <? 16) || (MB2_MAX_INFO_SIZE <? total) || (0x100000000 <? u64 (mbi_phys + total)) then (NinvalidFormat, s)
    else
      match tag_loop (S (Z.to_nat (total / 8))) mbi_phys total 8 memmap_buf memmap_cap (false, (mb2_start, m)) with
      | (Nok, (_, (out, m))) =>
          if (memmap_base out =? 0) || (memory_size out =? 0) then (NinvalidFormat, (out, m)) else (Nok, (out, m))
      | (e, (_, s)) => (e, s)
      end.
