(* ===== verification/MultibootProps.v ===== *)
(** * The conversion of multiboot2 information, specified

    The structure comes from outside, so nothing is assumed of it: whatever
    it holds, the conversion reads inside it, writes inside the buffer for the
    memory map, and what it accepts describes memory the loader reported. *)

From S2P Require Import Prelude Types Mem BootInfo FrameAlloc Pfa Multiboot.

(** ** Rounding *)

Lemma page_down_eq v : 0 <= v < 2 ^ 64 -> page_down v = v - v mod 4096.
Proof. intros. unfold page_down. change (NTBLI_PAGE_SIZE - 1) with (2 ^ 12 - 1). by rewrite align_down_pow2. Qed.

Lemma page_up_eq v : 0 <= v -> v + 4095 < 2 ^ 64 -> page_up v = v + 4095 - (v + 4095) mod 4096.
Proof.
  intros ? ?. unfold page_up. change (NTBLI_PAGE_SIZE - 1) with 4095.
  rewrite (uw_small 64) by lia. apply page_down_eq. lia.
Qed.

Lemma span_end base len : 0 <= base < 2 ^ 64 -> 0 <= len < 2 ^ 64 -> base <= u64 (base + len) ->
  u64 (base + len) = base + len /\ base + len < 2 ^ 64.
Proof.
  intros Hb Hl Hle. destruct (Z.lt_ge_cases (base + len) (2 ^ 64)) as [|Hge].
  - split; [apply uw_small; lia|done].
  - assert (u64 (base + len) = base + len - 2 ^ 64) by (symmetry; apply (Z.mod_unique_pos _ _ 1); lia). lia.
Qed.

Lemma rounded v : (v - v mod 4096) mod 4096 = 0.
Proof. by rewrite Zminus_mod, Z.mod_mod, Z.sub_diag by lia. Qed.

(** Available memory is rounded inwards, or skipped; an entry in the last page
    of the address space, whose rounding up wraps to zero, yields more pages
    than the frame allocator takes. *)
Lemma entry_span_inside base len start end_ : 0 <= base < 2 ^ 64 -> 0 <= len < 2 ^ 64 ->
  entry_span base len NTBLI_MEM_CONVENTIONAL = Some (start, end_) ->
  start < end_ < 2 ^ 64 /\ 0 <= start /\ end_ <= base + len < 2 ^ 64 /\ start mod 4096 = 0 /\ end_ mod 4096 = 0 /\
  (if base + 4095 <? 2 ^ 64 then base <= start else end_ - start = 2 ^ 64 - 4096).
Proof.
  intros Hb Hl. unfold entry_span. case_if; [done|].
  change (NTBLI_MEM_CONVENTIONAL =? NTBLI_MEM_CONVENTIONAL) with true. cbv iota zeta.
  destruct (span_end base len Hb Hl ltac:(lia)) as [-> Hs]. rewrite (page_down_eq (base + len)) by lia.
  pose proof (Z.mod_pos_bound (base + len) 4096 ltac:(lia)). case_if; [done|]. intros [= <- <-].
  case_if.
  - rewrite page_up_eq in * by lia. pose proof (Z.mod_pos_bound (base + 4095) 4096 ltac:(lia)).
    split_and!; [lia..|apply rounded|apply rounded|lia].
  - assert (Hw : u64 (base + 4095) = base + 4095 - 2 ^ 64) by (symmetry; apply (Z.mod_unique_pos _ _ 1); lia).
    assert (Hz : page_up base = 0).
    { unfold page_up. change (NTBLI_PAGE_SIZE - 1) with 4095. rewrite Hw, page_down_eq by lia.
      rewrite Z.mod_small by lia. lia. }
    rewrite Hz in *. pose proof (Z.div_mod (base + len) 4096 ltac:(lia)).
    split_and!; [lia..|done|apply rounded|lia].
Qed.

(** ** One descriptor *)

Lemma st_memdesc_outside a type start pages m b : ~ a <= b < a + sizeof_memdesc ->
  ld8 (st_memdesc a type start pages m) b = ld8 m b.
Proof.
  unfold sizeof_memdesc, st_memdesc. intros Hb. rewrite !ld8_stn. repeat (case_if; [exfalso; lia|]). done.
Qed.

Lemma ld_st_memdesc a type start pages m :
  0 <= type < 2 ^ 32 -> 0 <= start < 2 ^ 64 -> 0 <= pages < 2 ^ 64 ->
  ld_memdesc (st_memdesc a type start pages m) a = mk_memdesc type 0 start 0 pages 0.
Proof.
  intros Ht Hs Hp. unfold ld_memdesc, st_memdesc.
  f_equal; rewrite ?ldn_stn_other by lia; rewrite ldn_stn_same; by rewrite ?Z.mod_small.
Qed.

Lemma ld_memdesc_ext m m' a : (forall b, a <= b < a + sizeof_memdesc -> ld8 m b = ld8 m' b) ->
  ld_memdesc m a = ld_memdesc m' a.
Proof. unfold sizeof_memdesc. intros He. unfold ld_memdesc. f_equal; apply ldn_ext; intros b Hb; apply He; lia. Qed.

Lemma map_memory_type_range t : 0 <= map_memory_type t < 2 ^ 32.
Proof. unfold map_memory_type. repeat case_if; by vm_compute. Qed.

Lemma map_memory_type_available t : map_memory_type t = NTBLI_MEM_CONVENTIONAL -> t = MB2_MEM_AVAILABLE.
Proof. unfold map_memory_type. repeat case_if; done. Qed.

(** ** Walking the structure *)

Section walk.
Context (mbi total buf cap : Z) (m0 : mem).

(** The offsets of tags, each behind the one before. *)
Inductive tag_at : Z -> Prop :=
| tag_first : tag_at 8
| tag_next off : tag_at off -> off + 8 <= total -> rd32 m0 (mbi + off) <> MB2_TAG_END ->
    8 <= rd32 m0 (mbi + off + 4) <= total - off ->
    tag_at (off + (rd32 m0 (mbi + off + 4) + 7 - (rd32 m0 (mbi + off + 4) + 7) mod 8)).

(** [e] is the address of an entry of a memory map of the structure. *)
Definition map_entry (e : Z) : Prop := exists off i,
  let tag := mbi + off in
  let size := rd32 m0 (tag + 4) in
  let entry_size := rd32 m0 (tag + 8) in
  tag_at off /\ rd32 m0 tag = MB2_TAG_MMAP /\ 16 <= size <= total - off /\ 24 <= entry_size /\
  0 <= i < (size - 16) / entry_size /\ e = tag + 16 + i * entry_size.

(** The descriptor of an entry. *)
Definition desc_from (e : Z) (d : ntbli_memdesc_t) : Prop := exists start end_, map_entry e /\
  md_type d = map_memory_type (rd32 m0 (e + 16)) /\
  entry_span (rd64 m0 e) (rd64 m0 (e + 8)) (md_type d) = Some (start, end_) /\
  md_phys_start d = start /\ md_num_pages d = u64 (end_ - start) / NTBLI_PAGE_SIZE.
Definition desc_of (d : ntbli_memdesc_t) : Prop := exists e, desc_from e d.

(** Only the buffer has changed. *)
Definition only_buf (m : mem) : Prop := forall a, ~ buf <= a < buf + cap -> ld8 m a = ld8 m0 a.

(** The first [used] descriptors are of entries, and [memory_size] covers the
    available ones. *)
Definition descs (m : mem) (out : NTBLI) (used : Z) : Prop := 0 <= used <= cap / sizeof_memdesc /\
  forall j, 0 <= j < used -> let d := ld_memdesc m (buf + j * sizeof_memdesc) in
    desc_of d /\ (md_type d = NTBLI_MEM_CONVENTIONAL ->
                  md_phys_start d + md_num_pages d * NTBLI_PAGE_SIZE <= memory_size out).

(** They are of different entries, in the order of the structure; those still to
    come start at [bound]. *)
Definition in_order (m : mem) (used bound : Z) : Prop := exists ent : Z -> Z,
  (forall j, 0 <= j < used -> desc_from (ent j) (ld_memdesc m (buf + j * sizeof_memdesc)) /\ ent j < bound) /\
  forall j j', 0 <= j < j' -> j' < used -> ent j < ent j'.

Lemma in_order_nil m bound : in_order m 0 bound.
Proof. exists (fun _ => 0). split; intros; lia. Qed.

Lemma in_order_more m used b b' : in_order m used b -> b <= b' -> in_order m used b'.
Proof. intros (ent & He & Ho) Hb. exists ent. split; [|done]. intros j Hj. destruct (He j Hj). split; [done|lia]. Qed.

(** The structure and the buffer do not overlap. *)
Context (Hcap : 0 <= cap) (Hdis : mbi + total <= buf \/ buf + cap <= mbi).

Lemma read_same n m a : only_buf m -> mbi <= a -> a + Z.of_nat n <= mbi + total -> ldn n m a = ldn n m0 a.
Proof. intros Hm H1 H2. apply ldn_ext. intros b Hb. apply Hm. lia. Qed.

Lemma map_entry_inside e : map_entry e -> mbi <= e /\ e + 24 <= mbi + total.
Proof.
  intros (off & i & Ht & _ & Hs & He & Hi & ->). assert (Hoff : 8 <= off).
  { clear -Ht. induction Ht; [lia|]. pose proof (Z.mod_pos_bound (rd32 m0 (mbi + off + 4) + 7) 8 ltac:(lia)). lia. }
  set (size := rd32 m0 (mbi + off + 4)) in *. set (es := rd32 m0 (mbi + off + 8)) in *.
  pose proof (Z.mul_div_le (size - 16) es ltac:(lia)). nia.
Qed.

Lemma entry_span_range base len type start end_ : 0 <= base < 2 ^ 64 -> entry_span base len type = Some (start, end_) ->
  0 <= start < 2 ^ 64 /\ 0 <= end_ < 2 ^ 64.
Proof.
  intros Hb. unfold entry_span. case_if; [done|].
  assert (Hd : forall v, 0 <= v < 2 ^ 64 -> 0 <= page_down v < 2 ^ 64).
  { intros v Hv. rewrite page_down_eq by done. pose proof (Z.mod_pos_bound v 4096 ltac:(lia)).
    pose proof (Z.mod_le v 4096 ltac:(lia) ltac:(lia)). lia. }
  assert (Hu : forall v, 0 <= page_up v < 2 ^ 64) by (intros v; apply Hd, u64_range).
  pose proof (Hd base Hb). pose proof (Hu base). pose proof (Hd _ (u64_range (base + len))).
  pose proof (Hu (u64 (base + len))). repeat case_if; try done; intros [= <- <-]; by split.
Qed.

Lemma pages_range start end_ : 0 <= u64 (end_ - start) / NTBLI_PAGE_SIZE < 2 ^ 64.
Proof.
  pose proof (u64_range (end_ - start)). unfold NTBLI_PAGE_SIZE. split; [apply Z.div_pos; lia|].
  apply Z.div_lt_upper_bound; lia.
Qed.

Lemma set_memory_size_same o : set_memory_size (memory_size o) o = o.
Proof. by destruct o. Qed.

Lemma stored_desc m used e start end_ : map_entry e -> let type := map_memory_type (rd32 m0 (e + 16)) in
  entry_span (rd64 m0 e) (rd64 m0 (e + 8)) type = Some (start, end_) ->
  let m' := st_memdesc (buf + used * sizeof_memdesc) type start (u64 (end_ - start) / NTBLI_PAGE_SIZE) m in
  desc_from e (ld_memdesc m' (buf + used * sizeof_memdesc)) /\
  forall j, 0 <= j < used -> ld_memdesc m' (buf + j * sizeof_memdesc) = ld_memdesc m (buf + j * sizeof_memdesc).
Proof.
  intros He type Hs m'. destruct (entry_span_range _ _ _ _ _ (ld64_range m0 e) Hs) as [Hst Hen]. split.
  - unfold m'. rewrite ld_st_memdesc; [|apply map_memory_type_range|done|apply pages_range]. by exists start, end_.
  - intros j Hj. apply ld_memdesc_ext. intros b Hb. apply st_memdesc_outside. unfold sizeof_memdesc in *. lia.
Qed.

Lemma in_order_step m used e es start end_ : in_order m used e -> 0 <= used -> 0 < es -> map_entry e -> let type := map_memory_type (rd32 m0 (e + 16)) in
  entry_span (rd64 m0 e) (rd64 m0 (e + 8)) type = Some (start, end_) ->
  in_order (st_memdesc (buf + used * sizeof_memdesc) type start (u64 (end_ - start) / NTBLI_PAGE_SIZE) m) (used + 1) (e + es).
Proof.
  intros (ent & Hent & Ho) Hu Hes He type Hs. destruct (stored_desc m used e start end_ He Hs) as [Hnew Hold].
  exists (fun j => if j =? used then e else ent j). split.
  - intros j Hj. case_if; [subst j; split; [exact Hnew|lia]|]. fold type in Hold. rewrite Hold by lia. destruct (Hent j ltac:(lia)). split; [done|lia].
  - intros j j' Hj Hj'. case_if; [lia|]. case_if; [apply Hent; lia|apply Ho; lia].
Qed.

(** Storing one more descriptor. *)
Lemma descs_step m out used e start end_ : only_buf m -> descs m out used -> used < cap / sizeof_memdesc ->
  map_entry e -> let type := map_memory_type (rd32 m0 (e + 16)) in
  entry_span (rd64 m0 e) (rd64 m0 (e + 8)) type = Some (start, end_) ->
  let m' := st_memdesc (buf + used * sizeof_memdesc) type start (u64 (end_ - start) / NTBLI_PAGE_SIZE) m in
  forall ms, memory_size out <= ms -> (type = NTBLI_MEM_CONVENTIONAL -> end_ <= ms) ->
  only_buf m' /\ descs m' (set_memory_size ms out) (used + 1).
Proof.
  intros Hm [Hu Hd] Hlt He type Hs m' ms Hms Hcov. pose proof (Z.mul_div_le cap sizeof_memdesc ltac:(done)) as Hc.
  pose proof (ld64_range m0 e) as Hr1. pose proof (ld64_range m0 (e + 8)) as Hr2.
  destruct (entry_span_range _ _ _ _ _ Hr1 Hs) as [Hst Hen]. unfold sizeof_memdesc in *.
  split.
  { intros a Ha. unfold m'. rewrite st_memdesc_outside by (unfold sizeof_memdesc; lia). by apply Hm. }
  split; [unfold sizeof_memdesc; lia|]. intros j Hj. cbn zeta. unfold sizeof_memdesc. destruct (Z.eq_dec j used) as [->|Hne].
  - unfold m'. rewrite ld_st_memdesc; [|apply map_memory_type_range|done|apply pages_range].
    split; [by exists e; exists start, end_|]. cbn. intros Ht. fold type in Ht. specialize (Hcov Ht).
    rewrite Ht in Hs. apply entry_span_inside in Hs; [|done..]. destruct Hs as (? & ? & _ & Ha1 & Ha2 & _).
    rewrite uw_small by lia. unfold NTBLI_PAGE_SIZE.
    pose proof (Z.div_mod end_ 4096 ltac:(lia)). pose proof (Z.div_mod start 4096 ltac:(lia)).
    replace (end_ - start) with ((end_ / 4096 - start / 4096) * 4096) by lia. rewrite Z.div_mul by lia. lia.
  - assert (Ej : ld_memdesc m' (buf + j * 40) = ld_memdesc m (buf + j * 40)).
    { apply ld_memdesc_ext. unfold sizeof_memdesc. intros b Hb. unfold m'.
      apply st_memdesc_outside. unfold sizeof_memdesc. lia. }
    rewrite Ej. destruct (Hd j ltac:(lia)) as [H1 H2]. split; [done|]. intros Ht. specialize (H2 Ht). cbn [memory_size set_memory_size]. lia.
Qed.

Lemma mmap_loop_run n e es used out m :
  (forall k, (k < n)%nat -> map_entry (e + Z.of_nat k * es)) -> 0 < es -> only_buf m -> descs m out used -> in_order m used e ->
  let '(used', (out', m')) := mmap_loop n e es buf (cap / sizeof_memdesc) used (out, m) in
  only_buf m' /\ descs m' out' used' /\ (exists b, in_order m' used' b) /\ exists ms, memory_size out <= ms /\ out' = set_memory_size ms out.
Proof.
  revert e used out m. induction n as [|n IH]; intros e used out m He Hes Hm Hd Hin; cbn [mmap_loop].
  { split; [done|]. split; [done|]. split; [by exists e|]. exists (memory_size out). split; [lia|]. by rewrite set_memory_size_same. }
  pose proof (He 0%nat ltac:(lia)) as He0. rewrite Z.mul_0_l, Z.add_0_r in He0.
  destruct (map_entry_inside e He0) as [Hi1 Hi2]. unfold rd32, rd64.
  rewrite (read_same 4 m (e + 16)), (read_same 8 m e), (read_same 8 m (e + 8)) by (done || lia).
  assert (He' : forall k, (k < n)%nat -> map_entry (e + es + Z.of_nat k * es)).
  { intros k Hk. specialize (He (S k) ltac:(lia)). rewrite Nat2Z.inj_succ in He.
    by replace (e + es + Z.of_nat k * es) with (e + Z.succ (Z.of_nat k) * es) by lia. }
  destruct (entry_span _ _ _) as [[start end_]|] eqn:Es; [|apply IH; try done; eapply in_order_more; [exact Hin|lia]].
  case_if.
  { split; [done|]. split; [done|]. split; [by exists e|]. exists (memory_size out). split; [lia|]. by rewrite set_memory_size_same. }
  set (type := map_memory_type _) in *. set (out' := if _ && _ then _ else _).
  assert (Ho : exists ms, memory_size out <= ms /\ out' = set_memory_size ms out /\
    (type = NTBLI_MEM_CONVENTIONAL -> end_ <= ms)).
  { unfold out'. case_if.
    - exists end_. split; [lia|]. by split.
    - exists (memory_size out). split; [lia|]. split; [by rewrite set_memory_size_same|]. intros Ht.
      rewrite Ht in E0. change (NTBLI_MEM_CONVENTIONAL =? NTBLI_MEM_CONVENTIONAL) with true in E0. simpl in E0. lia. }
  destruct Ho as (ms & Hms & -> & Hcov).
  destruct (descs_step m out used e start end_ Hm Hd ltac:(lia) He0 Es ms Hms Hcov) as [Hm' Hd'].
  specialize (IH (e + es) (used + 1) _ _ He' Hes Hm' Hd' (in_order_step m used e es start end_ Hin (proj1 (proj1 Hd)) Hes He0 Es)). destruct (mmap_loop _ _ _ _ _ _ _) as [used' [out2 m2]].
  destruct IH as (H1 & H2 & H2' & ms2 & H3 & ->). split; [done|]. split; [done|]. split; [done|]. exists ms2. cbn in H3. split; [lia|done].
Qed.

(** What the record may say. *)
Record info_ok (out : NTBLI) (m : mem) : Prop := {
  io_head : magic out = NTBLI_MAGIC /\ version out = NTBLI_VERSION /\ ntbli_size out = sizeof_NTBLI;
  io_map : memmap_base out = 0 \/ memmap_base out = buf /\ memmap_desc_size out = sizeof_memdesc /\
    exists count, memmap_size out = count * sizeof_memdesc /\ descs m out count /\ exists bound, in_order m count bound;
  io_initrd : initrd_base out = 0 \/ 0 < initrd_base out /\ 0 < initrd_size out /\
    initrd_base out + initrd_size out < 2 ^ 32;
  io_frame : framebuffer_base out = 0 \/ 0 < width out /\ 0 < height out /\
    framebuffer_size out = 4 * pixels_per_scan_line out * height out /\
    (width out < 2 ^ 30 -> width out <= pixels_per_scan_line out);
  io_rsdp : Rsdp out = 0 \/ mbi + 16 <= Rsdp out /\ Rsdp out + MB2_MIN_RSDP_SIZE <= mbi + total;
}.

Context (Hbuf : buf <> 0) (Hcap64 : cap < 2 ^ 64).

Lemma ld32_range m a : 0 <= ld32 m a < 2 ^ 32.
Proof. apply (ldn_range 4). Qed.

Lemma convert_module_ok tag size m out : info_ok out m -> info_ok (convert_module tag size m out) m.
Proof.
  intros Hi. unfold convert_module, rd32. pose proof (ld32_range m (tag + 8)). pose proof (ld32_range m (tag + 12)).
  repeat case_if; try done. destruct Hi. destruct (Z.eq_dec (ld32 m (tag + 8)) 0) as [Hz|Hz]; split; try done; cbn.
  - by left.
  - right. lia.
Qed.

Lemma convert_framebuffer_ok tag size m out : info_ok out m -> info_ok (convert_framebuffer tag size m out) m.
Proof.
  intros Hi. unfold convert_framebuffer, rd32, rd64. pose proof (ld32_range m (tag + 16)) as Hp.
  pose proof (ld32_range m (tag + 20)) as Hw. pose proof (ld32_range m (tag + 24)) as Hh.
  do 3 (case_if; [done|]). destruct Hi. split; try done. cbn. right.
  change 3 with (2 ^ 2 - 1) in *. rewrite land_ones_mod in * by lia. change (2 ^ 2) with 4 in *.
  pose proof (Z.div_mod (ld32 m (tag + 16)) 4 ltac:(lia)). split_and!; [lia|lia| |].
  - rewrite uw_small by nia. nia.
  - intros Hlt. rewrite uw_small in * by lia. lia.
Qed.

Lemma handle_tag_ok off have out m : only_buf m -> info_ok out m -> tag_at off ->
  let size := rd32 m0 (mbi + off + 4) in let type := rd32 m0 (mbi + off) in
  8 <= size <= total - off -> 8 <= off ->
  let '(st, (_, (out', m'))) := handle_tag (mbi + off) type size buf cap (have, (out, m)) in
  only_buf m' /\ (st = Nok -> info_ok out' m').
Proof.
  intros Hm Hi Ht size type Hs Ho. unfold handle_tag.
  assert (Hrsdp : 8 + MB2_MIN_RSDP_SIZE <= size -> info_ok (set_Rsdp (mbi + off + 8) out) m).
  { intros Hx. destruct Hi. split; try done. right. cbn. unfold MB2_MIN_RSDP_SIZE in *. lia. }
  case_if; [split; [done|]; intros _; by apply convert_module_ok|]. case_if.
  2:{ repeat case_if; (split; [done|]); intros _; auto. by apply convert_framebuffer_ok. }
  unfold convert_mmap. case_if; [by split|]. cbn [snd]. unfold rd32 in *.
  rewrite (read_same 4 m (mbi + off + 8)) by (done || lia). case_if; [by split|].
  set (es := ld32 m0 (mbi + off + 8)) in *. pose proof (mmap_loop_run (Z.to_nat ((size - 16) / es)) (mbi + off + 16) es 0 out m) as Hr.
  destruct (mmap_loop _ _ _ _ _ _ _) as [used [out' m']]. destruct Hr as (Hm' & Hd & Hin & ms & Hms & ->); [|lia|done| |apply in_order_nil|].
  - intros k Hk. assert (Hk' : Z.of_nat k < (size - 16) / es) by (set (q := (size - 16) / es) in *; clearbody q; lia).
    exists off, (Z.of_nat k). cbn zeta. unfold rd32. split_and!; try done; lia.
  - split; [|lia]. pose proof (Z.div_pos cap sizeof_memdesc Hcap ltac:(done)). lia.
  - split; [done|]. intros _. destruct Hi. split; try done. cbn. right. split_and!; try done. exists used.
    split; [|split; [destruct Hd as [Hd1 Hd2]; by split|exact Hin]]. apply uw_small. destruct Hd as [Hd _]. unfold sizeof_memdesc in *.
    pose proof (Z.mul_div_le cap 40 ltac:(lia)). lia.
Qed.

Lemma off_step off : 8 <= off -> off + 8 <= total -> total <= MB2_MAX_INFO_SIZE -> forall size, 8 <= size <= total - off ->
  u32 (off + Z.land (u32 (size + 7)) (unot 32 7)) = off + (size + 7 - (size + 7) mod 8) /\
  off + 8 <= off + (size + 7 - (size + 7) mod 8).
Proof.
  unfold MB2_MAX_INFO_SIZE. intros Ho Hle Ht size Hs. rewrite (uw_small 32 (size + 7)) by lia.
  change 7 with (2 ^ 3 - 1) at 2. rewrite align_down_pow2 by lia. change (2 ^ 3) with 8.
  pose proof (Z.mod_pos_bound (size + 7) 8 ltac:(lia)). pose proof (Z.div_mod (size + 7) 8 ltac:(lia)).
  rewrite uw_small by lia. lia.
Qed.

Lemma tag_loop_ok fuel off s : total <= MB2_MAX_INFO_SIZE -> only_buf s.2.2 -> info_ok s.2.1 s.2.2 -> tag_at off -> 8 <= off ->
  let '(st, (_, (out', m'))) := tag_loop fuel mbi total off buf cap s in only_buf m' /\ (st = Nok -> info_ok out' m').
Proof.
  intros Hmax. revert off s. induction fuel as [|fuel IH]; intros off [have [out m]] Hm Hi Ht Ho; cbn [tag_loop]; [by split|].
  cbn [fst snd] in *. case_if; [by split|]. unfold rd32.
  rewrite (read_same 4 m (mbi + off)), (read_same 4 m (mbi + off + 4)) by (done || lia).
  case_if; [by split|]. case_if; [by split|].
  pose proof (handle_tag_ok off have out m Hm Hi Ht ltac:(unfold rd32; lia) Ho) as Hh. unfold rd32 in Hh.
  destruct (handle_tag _ _ _ _ _ _) as [st [have' [out' m']]]. destruct Hh as [Hm' Hi']. destruct st; try (by split).
  destruct (off_step off Ho ltac:(lia) Hmax (ld32 m0 (mbi + off + 4)) ltac:(lia)) as [-> Hle].
  apply IH; cbn [fst snd]; [done|by apply Hi'| |lia]. apply tag_next; unfold rd32; [done|lia|done|lia].
Qed.
End walk.

(** ** Reads stay inside the structure *)

Section extent.
Context (P : Z -> Prop).
Definition agree (m m' : mem) : Prop := forall a, P a -> ld8 m a = ld8 m' a.
Definition inside (lo hi : Z) : Prop := forall a, lo <= a < hi -> P a.

Lemma agree_read n m m' a lo hi : agree m m' -> inside lo hi -> lo <= a -> a + Z.of_nat n <= hi -> ldn n m a = ldn n m' a.
Proof. intros Ha Hi ? ?. apply ldn_ext. intros b Hb. apply Ha, Hi. lia. Qed.

Lemma agree_memdesc m m' a type start pages : agree m m' ->
  agree (st_memdesc a type start pages m) (st_memdesc a type start pages m').
Proof. intros Ha b Hb. unfold st_memdesc. rewrite !ld8_stn. repeat (case_if; [done|]). by apply Ha. Qed.

(** Two outcomes that agree. *)
Definition same {A} (r r' : A * (NTBLI * mem)) : Prop := r.1 = r'.1 /\ r.2.1 = r'.2.1 /\ agree r.2.2 r'.2.2.

Lemma mmap_loop_ext n e es dst cap used out m m' : agree m m' -> 24 <= es -> inside e (e + Z.of_nat n * es) ->
  same (mmap_loop n e es dst cap used (out, m)) (mmap_loop n e es dst cap used (out, m')).
Proof.
  intros Hm Hes. revert e used out m m' Hm. induction n as [|n IH]; intros e used out m m' Hm Hi; [by split_and!|].
  rewrite Nat2Z.inj_succ in Hi. cbn [mmap_loop]. unfold rd32, rd64.
  rewrite (agree_read 4 m m' (e + 16) e (e + es)), (agree_read 8 m m' e e (e + es)), (agree_read 8 m m' (e + 8) e (e + es));
    try done; try lia; try (intros a ?; apply Hi; nia).
  assert (Hi' : inside (e + es) (e + es + Z.of_nat n * es)) by (intros a ?; apply Hi; lia).
  destruct (entry_span _ _ _) as [[start end_]|]; [|by apply IH]. case_if; [by split_and!|].
  apply IH; [by apply agree_memdesc|done].
Qed.

Lemma convert_framebuffer_ext tag size out m m' : agree m m' -> inside tag (tag + size) ->
  convert_framebuffer tag size m out = convert_framebuffer tag size m' out.
Proof.
  intros Hm Hi. unfold convert_framebuffer, rd32, rd64. case_if; [done|].
  rewrite (agree_read 8 m m' (tag + 8) tag (tag + size)) by (done || lia).
  rewrite (agree_read 4 m m' (tag + 16) tag (tag + size)) by (done || lia).
  rewrite (agree_read 4 m m' (tag + 20) tag (tag + size)) by (done || lia).
  rewrite (agree_read 4 m m' (tag + 24) tag (tag + size)) by (done || lia).
  by rewrite !(Hm (tag + _)) by (apply Hi; lia).
Qed.

Lemma convert_module_ext tag size out m m' : agree m m' -> inside tag (tag + size) ->
  convert_module tag size m out = convert_module tag size m' out.
Proof.
  intros Hm Hi. unfold convert_module, rd32. case_if; [|done].
  rewrite (agree_read 4 m m' (tag + 8) tag (tag + size)) by (done || lia).
  by rewrite (agree_read 4 m m' (tag + 12) tag (tag + size)) by (done || lia).
Qed.

(** Two states of the loop that agree. *)
Definition same_st (s s' : mb2_st) : Prop := s.1 = s'.1 /\ s.2.1 = s'.2.1 /\ agree s.2.2 s'.2.2.

Lemma handle_tag_ext tag type size buf cap s s' : same_st s s' -> 8 <= size -> inside tag (tag + size) ->
  (handle_tag tag type size buf cap s).1 = (handle_tag tag type size buf cap s').1 /\
  same_st (handle_tag tag type size buf cap s).2 (handle_tag tag type size buf cap s').2.
Proof.
  destruct s as [have [out m]], s' as [have' [out' m']]. intros (Hh & Ho & Hm) Hs Hi. cbn in Hh, Ho, Hm. subst have' out'.
  unfold handle_tag. rewrite (convert_module_ext tag size out m m' Hm Hi), (convert_framebuffer_ext tag size out m m' Hm Hi).
  case_if; [by split_and!|]. case_if; [|repeat case_if; by split_and!].
  unfold convert_mmap. cbn [snd]. case_if; [by split_and!|]. unfold rd32.
  rewrite (agree_read 4 m m' (tag + 8) tag (tag + size)) by (done || lia). case_if; [by split_and!|].
  set (es := ld32 m' (tag + 8)) in *. pose proof (Z.mul_div_le (size - 16) es ltac:(lia)) as Hd.
  pose proof (Z.div_pos (size - 16) es ltac:(lia) ltac:(lia)) as Hp.
  pose proof (mmap_loop_ext (Z.to_nat ((size - 16) / es)) (tag + 16) es buf (cap / sizeof_memdesc) 0 out m m' Hm ltac:(lia)) as Hl.
  destruct (mmap_loop _ _ _ _ _ _ (out, m)) as [u [o1 m1]], (mmap_loop _ _ _ _ _ _ (out, m')) as [u' [o1' m1']].
  destruct Hl as (Hu & Ho & Ha); [intros a Ha; apply Hi; nia|]. cbn in Hu, Ho, Ha. subst. by split_and!.
Qed.

Lemma tag_loop_ext fuel mbi total off buf cap s s' : same_st s s' -> inside mbi (mbi + total) -> 0 <= off ->
  (tag_loop fuel mbi total off buf cap s).1 = (tag_loop fuel mbi total off buf cap s').1 /\
  same_st (tag_loop fuel mbi total off buf cap s).2 (tag_loop fuel mbi total off buf cap s').2.
Proof.
  intros Hs Hi. revert off s s' Hs. induction fuel as [|fuel IH]; intros off s s' Hs Ho; cbn [tag_loop]; [by split|].
  case_if; [by split|]. pose proof Hs as (_ & _ & Hm). unfold rd32.
  rewrite (agree_read 4 s.2.2 s'.2.2 (mbi + off) mbi (mbi + total)) by (done || lia).
  rewrite (agree_read 4 s.2.2 s'.2.2 (mbi + off + 4) mbi (mbi + total)) by (done || lia).
  case_if; [by split|]. case_if; [by split|].
  destruct (handle_tag_ext (mbi + off) (ld32 s'.2.2 (mbi + off)) (ld32 s'.2.2 (mbi + off + 4)) buf cap s s' Hs)
    as [H1 H2]; [lia|intros a Ha; apply Hi; lia|].
  destruct (handle_tag _ _ _ _ _ s) as [st t], (handle_tag _ _ _ _ _ s') as [st' t']. cbn in H1, H2. subst st'.
  destruct st; try (by split). apply IH; [done|]. apply u32_range.
Qed.
End extent.

(** More rounds than the structure has eight-byte units change nothing. *)
Lemma tag_loop_fuel fuel more mbi total off buf cap s : total <= MB2_MAX_INFO_SIZE -> 8 <= off -> total - off < 8 * Z.of_nat fuel ->
  tag_loop (fuel + more) mbi total off buf cap s = tag_loop fuel mbi total off buf cap s.
Proof.
  intros Hmax. revert off s. induction fuel as [|fuel IH]; intros off s Ho Hf.
  { destruct more; [done|]. cbn [Nat.add tag_loop]. case_if; [done|lia]. }
  cbn [Nat.add tag_loop]. case_if; [done|]. case_if; [done|]. case_if; [done|].
  destruct (handle_tag _ _ _ _ _ s) as [st s']. destruct st; try done. set (size := rd32 s.2.2 (mbi + off + 4)) in *.
  destruct (off_step total off Ho ltac:(lia) Hmax size ltac:(lia)) as [-> Hle]. apply IH; lia.
Qed.

(** C5: The structure of the loader is read inside its own bytes only, and the
    conversion ends: the outcome, the record and every byte of memory one looks
    at afterwards depend only on that byte and on the bytes of the structure
    (of its first word, when the size it gives is refused), and rounds of the
    tag loop beyond those given would change nothing. *)
Theorem boot_info_bounds (mbi buf cap : Z) (out : NTBLI) (m m' : mem) (P : Z -> Prop) :
  (forall a, mbi <= a < mbi + 4 -> P a) ->
  (16 <= rd32 m mbi <= MB2_MAX_INFO_SIZE -> forall a, mbi <= a < mbi + rd32 m mbi -> P a) ->
  (forall a, P a -> ld8 m a = ld8 m' a) ->
  let '(st, (o, m1)) := multiboot2_to_ntbli mbi buf cap (out, m) in
  let '(st', (o', m1')) := multiboot2_to_ntbli mbi buf cap (out, m') in
  st = st' /\ o = o' /\ (forall a, P a -> ld8 m1 a = ld8 m1' a) /\
  forall s more, rd32 m mbi <= MB2_MAX_INFO_SIZE ->
    tag_loop (S (Z.to_nat (rd32 m mbi / 8)) + more) mbi (rd32 m mbi) 8 buf cap s =
    tag_loop (S (Z.to_nat (rd32 m mbi / 8))) mbi (rd32 m mbi) 8 buf cap s.
Proof.
  intros H4 Ht Ha. assert (Hf : forall s more, rd32 m mbi <= MB2_MAX_INFO_SIZE ->
    tag_loop (S (Z.to_nat (rd32 m mbi / 8)) + more) mbi (rd32 m mbi) 8 buf cap s =
    tag_loop (S (Z.to_nat (rd32 m mbi / 8))) mbi (rd32 m mbi) 8 buf cap s).
  { intros s more Hmax. apply tag_loop_fuel; [done|lia|]. unfold rd32. pose proof (ld32_range m mbi).
    pose proof (Z.div_mod (ld32 m mbi) 8 ltac:(lia)). pose proof (Z.mod_pos_bound (ld32 m mbi) 8 ltac:(lia)). lia. }
  assert (Htot : rd32 m mbi = rd32 m' mbi) by (unfold rd32; apply (agree_read P 4 _ _ _ mbi (mbi + 4)); (done || lia)).
  revert Hf. unfold multiboot2_to_ntbli. rewrite <- Htot. set (total := rd32 m mbi) in *. clearbody total. intros Hf.
  case_if; [by split_and!|]. case_if; [by split_and!|]. case_if; [by split_and!|].
  destruct (tag_loop_ext P (S (Z.to_nat (total / 8))) mbi total 8 buf cap (false, (mb2_start, m)) (false, (mb2_start, m')))
    as [Hx (_ & Hy & Hz)]; [by split_and!|intros a Hi; apply Ht; lia|lia|].
  destruct (tag_loop _ _ _ _ _ _ (_, (_, m))) as [st [hv [o m1]]], (tag_loop _ _ _ _ _ _ (_, (_, m'))) as [st' [hv' [o' m1']]].
  cbn in Hx, Hy, Hz. subst st' o'. destruct st; try (by split_and!). case_if; by split_and!.
Qed.

(** ** The frames of the descriptors *)

(** A frame the allocator takes from a descriptor lies in the available region
    of the descriptor's entry. *)
Lemma usable_inside mbi total m0 e d r p : memdesc_ok d -> 0 <= hhdm_limit r <= PHYS_LIMIT ->
  desc_from mbi total m0 e d -> usable r d p ->
  map_entry mbi total m0 e /\ rd32 m0 (e + 16) = MB2_MEM_AVAILABLE /\ rd64 m0 e <= p /\ p + PAGE_SIZE <= rd64 m0 e + rd64 m0 (e + 8).
Proof.
  intros Hok Hlim (start & end_ & He & Ht & Hs & Hx & Hy) (Hc & Hn & _ & _ & Hlo & Hhi & _).
  rewrite Hc in Hs, Ht. symmetry in Ht. apply map_memory_type_available in Ht. split; [done|]. split; [done|].
  unfold rd64 in *. apply entry_span_inside in Hs; [|apply ld64_range..]. destruct Hs as (Hse & Hs0 & Hel & Ha1 & Ha2 & Hif).
  rewrite Hx, Hy in *. rewrite uw_small in * by lia. unfold NTBLI_PAGE_SIZE in *. change PAGE_SIZE with 4096 in *.
  pose proof (Z.mul_div_le (end_ - start) 4096 ltac:(lia)). case_if_in Hif; [lia|].
  rewrite Hif in Hn. change ((2 ^ 64 - 4096) / 4096) with (2 ^ 52 - 1) in Hn. lia.
Qed.

(** The available regions the structure reports do not overlap. *)
Definition entries_disjoint (mbi total : Z) (m0 : mem) : Prop := forall e e', map_entry mbi total m0 e -> map_entry mbi total m0 e' -> e <> e' ->
  rd32 m0 (e + 16) = MB2_MEM_AVAILABLE -> rd32 m0 (e' + 16) = MB2_MEM_AVAILABLE ->
  rd64 m0 e + rd64 m0 (e + 8) <= rd64 m0 e' \/ rd64 m0 e' + rd64 m0 (e' + 8) <= rd64 m0 e.

Section frames.
Context (mbi total buf cap : Z) (m0 : mem) (out : NTBLI) (m : mem).
Context (Hok : info_ok mbi total buf cap m0 out m).

(** The descriptors of the record are those the conversion stored, of different
    entries. *)
Lemma memmap_at_stored : exists ent : Z -> Z,
  (forall j d, 0 <= j -> ntbli_memmap_at m out j = Some d -> desc_from mbi total m0 (ent j) d) /\
  forall i j d e, 0 <= i -> 0 <= j -> i <> j -> ntbli_memmap_at m out i = Some d -> ntbli_memmap_at m out j = Some e -> ent i <> ent j.
Proof.
  pose proof (io_map _ _ _ _ _ _ _ Hok) as [Hz|(Hb & Hds & count & Hsz & _ & b & ent & Hent & Hord)].
  { exists (fun _ => 0). unfold ntbli_memmap_at, no_memmap. rewrite Hz. by split. }
  assert (Hat : forall j d, ntbli_memmap_at m out j = Some d -> j < count /\ d = ld_memdesc m (buf + j * sizeof_memdesc)).
  { intros j d. unfold ntbli_memmap_at, no_memmap. rewrite Hds, Hsz, Hb, Z.div_mul by done. repeat case_if; try done. intros [= <-]. split; [lia|done]. }
  exists ent. split.
  - intros j d Hj Hd. destruct (Hat j d Hd) as [Hlt ->]. apply Hent. lia.
  - intros i j d e Hi Hj Hne Hd He. apply Hat in Hd as [Hd _], He as [He _].
    destruct (Z.lt_trichotomy i j) as [H|[H|H]]; [pose proof (Hord i j)|done|pose proof (Hord j i)]; lia.
Qed.

Lemma stored_disjoint r : 0 <= hhdm_limit r <= PHYS_LIMIT -> entries_disjoint mbi total m0 -> memmap_disjoint m out r.
Proof.
  intros Hlim Hdj i j d e p Hi Hj Hne Hd He Hu Hv. destruct memmap_at_stored as (ent & Hfrom & Hdiff).
  destruct (usable_inside _ _ _ (ent i) d r p (memmap_at_ok _ _ _ _ Hd) Hlim (Hfrom i d Hi Hd) Hu) as (E1 & A1 & L1 & U1).
  destruct (usable_inside _ _ _ (ent j) e r p (memmap_at_ok _ _ _ _ He) Hlim (Hfrom j e Hj He) Hv) as (E2 & A2 & L2 & U2).
  destruct (Hdj _ _ E1 E2 (Hdiff i j d e Hi Hj Hne Hd He) A1 A2); unfold PAGE_SIZE in *; lia.
Qed.

Lemma stored_frames r i d p : 0 <= hhdm_limit r <= PHYS_LIMIT -> 0 <= i -> ntbli_memmap_at m out i = Some d -> p ∈ desc_frames r d ->
  exists e, map_entry mbi total m0 e /\ rd32 m0 (e + 16) = MB2_MEM_AVAILABLE /\ rd64 m0 e <= p /\ p + PAGE_SIZE <= rd64 m0 e + rd64 m0 (e + 8).
Proof.
  intros Hlim Hi Hd Hp. destruct memmap_at_stored as (ent & Hfrom & _). exists (ent i). pose proof (memmap_at_ok _ _ _ _ Hd) as Hdok.
  apply (usable_inside _ _ _ (ent i) d r p Hdok Hlim (Hfrom i d Hi Hd)). by apply desc_frames_spec.
Qed.
End frames.

Lemma multiboot_run (mbi buf cap : Z) (out0 : NTBLI) (m0 : mem) :
  0 <= cap < 2 ^ 64 -> mbi + rd32 m0 mbi <= buf \/ buf + cap <= mbi ->
  let total := rd32 m0 mbi in
  let '(st, (out, m)) := multiboot2_to_ntbli mbi buf cap (out0, m0) in
  only_buf buf cap m0 m /\
  (st = Nok -> info_ok mbi total buf cap m0 out m /\ memmap_base out = buf /\ memory_size out <> 0 /\
    forall r i d p, 0 <= hhdm_limit r <= PHYS_LIMIT -> 0 <= i -> ntbli_memmap_at m out i = Some d -> p ∈ desc_frames r d ->
      exists e, map_entry mbi total m0 e /\ rd32 m0 (e + 16) = MB2_MEM_AVAILABLE /\
        rd64 m0 e <= p /\ p + PAGE_SIZE <= rd64 m0 e + rd64 m0 (e + 8)).
Proof.
  intros Hcap Hdis total. unfold multiboot2_to_ntbli. fold total. case_if; [by split|]. case_if; [by split|]. case_if; [by split|].
  pose proof (tag_loop_ok mbi total buf cap m0 ltac:(lia) Hdis ltac:(done) ltac:(lia) (S (Z.to_nat (total / 8))) 8
    (false, (mb2_start, m0)) ltac:(lia)) as Hl.
  destruct (tag_loop _ _ _ _ _ _ _) as [st [hv [out m]]]. destruct Hl as [Hm Hi]; [done| |apply tag_first|lia|].
  { split; try (by left). by split_and!. }
  destruct st; try (by split). case_if; [by split|]. split; [done|]. intros _. specialize (Hi eq_refl).
  assert (Hb : memmap_base out = buf) by (destruct (io_map _ _ _ _ _ _ _ Hi) as [|[]]; [lia|done]).
  split; [exact Hi|]. split; [done|]. split; [done|]. intros r i d p. by apply (stored_frames mbi total buf cap m0 out m).
Qed.

(** C4: Whatever structure the loader left, the conversion writes only to the
    buffer of the memory map, and a record it accepts is consistent: the
    descriptors are those of entries of the structure, each at most once and in
    the order they have there, their number fits the buffer, [memory_size] covers the available ones, and the RAM disk, the
    frame buffer and the ACPI pointer are absent or well formed.  Every frame
    the allocator takes from the map lies in a region the loader reported as
    available. *)
Theorem boot_info_sound (mbi buf cap : Z) (out0 : NTBLI) (m0 : mem) :
  0 <= cap < 2 ^ 64 -> mbi + rd32 m0 mbi <= buf \/ buf + cap <= mbi ->
  let total := rd32 m0 mbi in
  let '(st, (out, m)) := multiboot2_to_ntbli mbi buf cap (out0, m0) in
  only_buf buf cap m0 m /\
  (st = Nok -> info_ok mbi total buf cap m0 out m /\ memmap_base out = buf /\ memory_size out <> 0 /\
    forall r i d p, 0 <= hhdm_limit r <= PHYS_LIMIT -> 0 <= i -> ntbli_memmap_at m out i = Some d -> p ∈ desc_frames r d ->
      exists e, map_entry mbi total m0 e /\ rd32 m0 (e + 16) = MB2_MEM_AVAILABLE /\
        rd64 m0 e <= p /\ p + PAGE_SIZE <= rd64 m0 e + rd64 m0 (e + 8)).
Proof. apply multiboot_run. Qed.

(** ** A structure with one region of available memory *)

Definition ex_mbi : Z := 0x10000.
Definition ex_boot : mem :=
  foldr (fun '(n, a, v) m => stn n (ex_mbi + a) v m) ∅
    [(4%nat, 0, 56); (4%nat, 8, MB2_TAG_MMAP); (4%nat, 12, 40); (4%nat, 16, 24);
     (8%nat, 24, 0x100800); (8%nat, 32, 0x200000); (4%nat, 40, MB2_MEM_AVAILABLE); (4%nat, 52, 8)].

Lemma ex_boot_total : rd32 ex_boot ex_mbi = 56.
Proof. by vm_compute. Qed.

Lemma boot_info_bounds_witness :
  exists o m1, multiboot2_to_ntbli ex_mbi 0x20000 4096 (mb2_start, st8 5 7 ex_boot) = (Nok, (o, m1)).
Proof.
  assert (Ha : forall a, ex_mbi <= a < ex_mbi + 56 -> ld8 ex_boot a = ld8 (st8 5 7 ex_boot) a).
  { intros a Ha. rewrite ld8_st8. unfold ex_mbi in Ha. case_if; [lia|done]. }
  assert (H1 : forall a, ex_mbi <= a < ex_mbi + 4 -> ex_mbi <= a < ex_mbi + 56) by (intros a ?; lia).
  assert (H2 : 16 <= rd32 ex_boot ex_mbi <= MB2_MAX_INFO_SIZE ->
    forall a, ex_mbi <= a < ex_mbi + rd32 ex_boot ex_mbi -> ex_mbi <= a < ex_mbi + 56)
    by (rewrite ex_boot_total; intros _ a ?; lia).
  pose proof (boot_info_bounds ex_mbi 0x20000 4096 mb2_start ex_boot (st8 5 7 ex_boot) _ H1 H2 Ha) as Hb.
  assert (Es : (multiboot2_to_ntbli ex_mbi 0x20000 4096 (mb2_start, ex_boot)).1 = Nok) by by vm_compute.
  destruct (multiboot2_to_ntbli _ _ _ (_, ex_boot)) as [st [o m1]].
  destruct (multiboot2_to_ntbli _ _ _ (_, st8 5 7 ex_boot)) as [st' [o' m1']].
  destruct Hb as (<- & <- & _). cbn in Es. subst st. by exists o, m1'.
Defined.

Lemma boot_info_sound_witness :
  exists out m, multiboot2_to_ntbli ex_mbi 0x20000 4096 (mb2_start, ex_boot) = (Nok, (out, m)) /\
    memmap_base out = 0x20000 /\ (forall a, 0x30000 <= a -> ld8 m a = ld8 ex_boot a).
Proof.
  assert (H1 : 0 <= 4096 < 2 ^ 64) by done.
  assert (H2 : ex_mbi + rd32 ex_boot ex_mbi <= 0x20000 \/ 0x20000 + 4096 <= ex_mbi)
    by (rewrite ex_boot_total; left; by vm_compute).
  pose proof (boot_info_sound ex_mbi 0x20000 4096 mb2_start ex_boot H1 H2) as Hb.
  assert (Es : (multiboot2_to_ntbli ex_mbi 0x20000 4096 (mb2_start, ex_boot)).1 = Nok) by by vm_compute.
  destruct (multiboot2_to_ntbli _ _ _ _) as [st [out m]]. cbn in Es. subst st.
  destruct Hb as [Hm Hok]. destruct (Hok eq_refl) as (_ & Hbase & _). exists out, m. split; [done|]. split; [exact Hbase|].
  intros a Ha. apply Hm. lia.
Defined.
