(* ===== verification/Paging.v ===== *)
(** * Address spaces: the dynamic half of [nxkernel/kernel/paging/paging.c]

    The operations on per-process page tables, over any frame allocator
    ([FrameAlloc]).  A table is 512 eight-byte entries of memory; pointers to
    tables are kernel virtual addresses, [0] for the null pointer.  [invlpg]
    has no counterpart: the model has no translation cache. *)

From S2P Require Import Prelude Types Mem FrameAlloc.

(** [PAGE_PRESENT]: nxkernel/kernel/paging/paging.h:36-36 *)
Definition PAGE_PRESENT : Z := 0x001.
(** [PAGE_RW]: nxkernel/kernel/paging/paging.h:37-37 *)
Definition PAGE_RW : Z := 0x002.
(** [PAGE_USER]: nxkernel/kernel/paging/paging.h:38-38 *)
Definition PAGE_USER : Z := 0x004.
(** [PAGE_PWT]: nxkernel/kernel/paging/paging.h:39-39 *)
Definition PAGE_PWT : Z := 0x008.
(** [PAGE_PCD]: nxkernel/kernel/paging/paging.h:40-40 *)
Definition PAGE_PCD : Z := 0x010.
(** [PAGE_HUGE]: nxkernel/kernel/paging/paging.h:43-43 *)
Definition PAGE_HUGE : Z := 0x080.
(** [PAGE_GLOBAL]: nxkernel/kernel/paging/paging.h:44-44 *)
Definition PAGE_GLOBAL : Z := 0x100.
(** [PAGE_NX]: nxkernel/kernel/paging/paging.h:45-45 *)
Definition PAGE_NX : Z := 0x8000000000000000.
(** [USER_SPACE_END]: nxkernel/kernel/paging/paging.h:48-48 *)
Definition USER_SPACE_END : Z := 0x0000800000000000.
(** [ENTRY_ADDR_MASK]: nxkernel/kernel/paging/paging.c:23-23 *)
Definition ENTRY_ADDR_MASK : Z := 0x000FFFFFFFFFF000.
(** [ENTRIES_PER_TABLE]: nxkernel/kernel/paging/paging.c:24-24 *)
Definition ENTRIES_PER_TABLE : Z := 512.
(** [KERNEL_PML4_INDEX]: nxkernel/kernel/paging/paging.c:30-30 *)
Definition KERNEL_PML4_INDEX : Z := 511.
(** [HHDM_PML4_INDEX]: nxkernel/kernel/paging/paging.c:32-32 *)
Definition HHDM_PML4_INDEX : Z := 256.

(** The globals the dynamic API reads; [paging_init] sets them once. *)
(** [paging_globals]: nxkernel/kernel/paging/paging.c:45-48 *)
Record paging_globals := mk_paging_globals {
  g_pml4 : Z;
  g_nx_supported : bool;
}.

(** [addr_space_t]: nxkernel/kernel/paging/paging.h:71-73 *)
Record addr_space_t := mk_as { pml4 : Z }.

(** The index of a virtual address in the table whose entries cover [2^sh] bytes. *)
Definition pt_index (v sh : Z) : Z := u32 (Z.land (Z.shiftr v sh) 0x1FF).

(** [is_canonical]: nxkernel/kernel/paging/paging.c:418-422 *)
Definition is_canonical (addr : Z) : bool :=
  let top := Z.shiftr addr 47 in (top =? 0) || (top =? 0x1FFFF).

(** [table_of_dyn]: nxkernel/kernel/paging/paging.c:412-415 *)
Definition table_of_dyn (entry : Z) : Z := phys_to_virt (Z.land entry ENTRY_ADDR_MASK).

(** [user_page_ok]: nxkernel/kernel/paging/paging.c:638-665 *)
Definition user_page_ok (m : mem) (as_ : addr_space_t) (v : Z) (write : bool) : bool :=
  let fix level (idx : list Z) (t : Z) : bool :=
    match idx with
    | [] => true
    | i :: idx =>
        let e := ld64 m (t + 8 * i) in
        if negb (tst e PAGE_PRESENT) then false
        else if negb (tst e PAGE_USER) then false
        else if write && negb (tst e PAGE_RW) then false
        else level idx (table_of_dyn e)
    end in
  level [pt_index v 39; pt_index v 30; pt_index v 21; pt_index v 12] (pml4 as_).

(** The loop of [paging_is_user_range]: [page < end] in steps of a page. *)
(** [user_range_loop]: nxkernel/kernel/paging/paging.c:684-687 *)
Fixpoint user_range_loop (fuel : nat) (m : mem) (as_ : addr_space_t) (page end_ : Z) (write : bool) : bool :=
  match fuel with
  | O => true
  | S fuel =>
      if page <? end_ then
        if negb (user_page_ok m as_ page write) then false
        else user_range_loop fuel m as_ (u64 (page + PAGE_SIZE)) end_ write
      else true
  end.

(** [paging_is_user_range]: nxkernel/kernel/paging/paging.c:667-690 *)
Definition paging_is_user_range (m : mem) (as_ : option addr_space_t) (virt len : Z) (write : bool) : bool :=
  match as_ with
  | None => false
  | Some as_ =>
      if pml4 as_ =? 0 then false
      else if len =? 0 then true
      else
        let end_ := u64 (virt + len) in
        if end_ <? virt then false
        else if USER_SPACE_END <? end_ then false
        else user_range_loop (Z.to_nat len + 1) m as_ (Z.land virt (unot 64 (PAGE_SIZE - 1))) end_ write
  end.

Section paging.
Context {S : Type} `{FrameAllocator S}.

(** An entry of a table, read and written through the direct map. *)
Definition rd_entry (table idx : Z) (s : S) : Z := ld64 (fa_mem s) (table + 8 * idx).
Definition wr_entry (table idx v : Z) (s : S) : S :=
  fa_set_mem (st64 (table + 8 * idx) v (fa_mem s)) s.

(** [alloc_table_dyn]: nxkernel/kernel/paging/paging.c:401-409 *)
Definition alloc_table_dyn : ST S (option Z) :=
  r <- fa_alloc ;;
  match r with
  | Err _ => ret None
  | Ok phys => ret (Some (phys_to_virt phys))
  end.

(** [next_level_dyn]: nxkernel/kernel/paging/paging.c:428-450 *)
Definition next_level_dyn (table idx : Z) (create : bool) : ST S (option Z) :=
  entry <- gets (rd_entry table idx) ;;
  if tst entry PAGE_PRESENT then
    if tst entry PAGE_HUGE then ret None
    else
      (if negb (tst entry PAGE_USER)
       then modify (wr_entry table idx (Z.lor entry PAGE_USER)) else ret tt) ;;;
      ret (Some (table_of_dyn entry))
  else if negb create then ret None
  else
    r <- alloc_table_dyn ;;
    match r with
    | None => ret None
    | Some fresh =>
        modify (wr_entry table idx
          (Z.lor (Z.lor (Z.lor (virt_to_phys fresh) PAGE_PRESENT) PAGE_RW) PAGE_USER)) ;;;
        ret (Some fresh)
    end.

(** [paging_addrspace_create]: nxkernel/kernel/paging/paging.c:452-473 *)
Definition paging_addrspace_create (g : paging_globals) : ST S (res addr_space_t) :=
  if g_pml4 g =? 0 then fail NnotInitialized
  else
    t <-o{NoutOfMemory} alloc_table_dyn ;;
    e <- gets (rd_entry (g_pml4 g) HHDM_PML4_INDEX) ;;
    modify (wr_entry t HHDM_PML4_INDEX e) ;;;
    e <- gets (rd_entry (g_pml4 g) KERNEL_PML4_INDEX) ;;
    modify (wr_entry t KERNEL_PML4_INDEX e) ;;;
    ok (mk_as t).

Definition free_frame (phys : Z) (s : S) : S := (fa_free phys s).2.

(** The innermost loop: the frames a page table maps, then the table. *)
(** [destroy_pt]: nxkernel/kernel/paging/paging.c:506-513 *)
Definition destroy_pt (pt : Z) (s : S) : S :=
  let s := for_range 0 ENTRIES_PER_TABLE (fun i1 s =>
    let e1 := rd_entry pt i1 s in
    if tst e1 PAGE_PRESENT then free_frame (Z.land e1 ENTRY_ADDR_MASK) s else s) s in
  free_frame (virt_to_phys pt) s.

(** [destroy_pd]: nxkernel/kernel/paging/paging.c:498-516 *)
Definition destroy_pd (pd : Z) (s : S) : S :=
  let s := for_range 0 ENTRIES_PER_TABLE (fun i2 s =>
    let e2 := rd_entry pd i2 s in
    if negb (tst e2 PAGE_PRESENT) || tst e2 PAGE_HUGE then s
    else destroy_pt (table_of_dyn e2) s) s in
  free_frame (virt_to_phys pd) s.

(** [destroy_pdpt]: nxkernel/kernel/paging/paging.c:490-519 *)
Definition destroy_pdpt (pdpt : Z) (s : S) : S :=
  let s := for_range 0 ENTRIES_PER_TABLE (fun i3 s =>
    let e3 := rd_entry pdpt i3 s in
    if negb (tst e3 PAGE_PRESENT) || tst e3 PAGE_HUGE then s
    else destroy_pd (table_of_dyn e3) s) s in
  free_frame (virt_to_phys pdpt) s.

(** [paging_addrspace_destroy]: nxkernel/kernel/paging/paging.c:475-524 *)
Definition paging_addrspace_destroy (as_ : addr_space_t) : ST S addr_space_t :=
  fun s =>
    if pml4 as_ =? 0 then (as_, s)
    else
      let s := for_range 0 HHDM_PML4_INDEX (fun i4 s =>
        let e4 := rd_entry (pml4 as_) i4 s in
        if negb (tst e4 PAGE_PRESENT) then s
        else destroy_pdpt (table_of_dyn e4) s) s in
      (mk_as 0, free_frame (virt_to_phys (pml4 as_)) s).

(** The flags a leaf may carry. *)
(** [leaf_flags]: nxkernel/kernel/paging/paging.c:566-567 *)
Definition leaf_flags : Z :=
  Z.lor (Z.lor (Z.lor (Z.lor (Z.lor PAGE_RW PAGE_USER) PAGE_PWT) PAGE_PCD) PAGE_GLOBAL) PAGE_NX.

(** [paging_map_page]: nxkernel/kernel/paging/paging.c:526-571 *)
Definition paging_map_page (g : paging_globals) (as_ : option addr_space_t) (p v flags : Z)
    : ST S (res unit) :=
  match as_ with
  | None => fail NnotInitialized
  | Some as_ =>
    if pml4 as_ =? 0 then fail NnotInitialized
    else if tst p (PAGE_SIZE - 1) || tst v (PAGE_SIZE - 1) then fail NinvalidArg
    else if (v =? 0) || negb (is_canonical v) || (USER_SPACE_END <=? v) then fail NinvalidArg
    else if negb (Z.shiftr p 52 =? 0) then fail NinvalidArg
    else
      let flags := if negb (g_nx_supported g) then Z.land flags (unot 64 PAGE_NX) else flags in
      if g_nx_supported g && tst flags PAGE_RW && negb (tst flags PAGE_NX) then fail Npermission
      else
        pdpt <-o{NoutOfMemory} next_level_dyn (pml4 as_) (pt_index v 39) true ;;
        pd <-o{NoutOfMemory} next_level_dyn pdpt (pt_index v 30) true ;;
        pt <-o{NoutOfMemory} next_level_dyn pd (pt_index v 21) true ;;
        e <- gets (rd_entry pt (pt_index v 12)) ;;
        if tst e PAGE_PRESENT then fail NalreadyExists
        else
          modify (wr_entry pt (pt_index v 12)
            (Z.lor (Z.lor (Z.lor p (Z.land flags leaf_flags)) PAGE_PRESENT) PAGE_USER)) ;;;
          ok tt
  end.

(** [paging_unmap_page]: nxkernel/kernel/paging/paging.c:573-601 *)
Definition paging_unmap_page (as_ : option addr_space_t) (v : Z) : ST S (res unit) :=
  match as_ with
  | None => fail NnotInitialized
  | Some as_ =>
    if pml4 as_ =? 0 then fail NnotInitialized
    else if (v =? 0) || tst v (PAGE_SIZE - 1) || negb (is_canonical v) || (USER_SPACE_END <=? v)
    then fail NinvalidArg
    else
      pdpt <-o{NinvalidArg} next_level_dyn (pml4 as_) (pt_index v 39) false ;;
      pd <-o{NinvalidArg} next_level_dyn pdpt (pt_index v 30) false ;;
      pt <-o{NinvalidArg} next_level_dyn pd (pt_index v 21) false ;;
      e <- gets (rd_entry pt (pt_index v 12)) ;;
      if negb (tst e PAGE_PRESENT) then fail NinvalidArg
      else
        modify (wr_entry pt (pt_index v 12) 0) ;;;
        ok tt
  end.

(** [paging_unmap_free_page]: nxkernel/kernel/paging/paging.c:603-635 *)
Definition paging_unmap_free_page (as_ : option addr_space_t) (v : Z) : ST S Nerror :=
  match as_ with
  | None => ret NnotInitialized
  | Some as_ =>
    if pml4 as_ =? 0 then ret NnotInitialized
    else if (v =? 0) || tst v (PAGE_SIZE - 1) || negb (is_canonical v) || (USER_SPACE_END <=? v)
    then ret NinvalidArg
    else
      r <- (pdpt <-o{NinvalidArg} next_level_dyn (pml4 as_) (pt_index v 39) false ;;
            pd <-o{NinvalidArg} next_level_dyn pdpt (pt_index v 30) false ;;
            pt <-o{NinvalidArg} next_level_dyn pd (pt_index v 21) false ;;
            entry <- gets (rd_entry pt (pt_index v 12)) ;;
            if negb (tst entry PAGE_PRESENT) then fail NinvalidArg
            else
              modify (wr_entry pt (pt_index v 12) 0) ;;;
              ok entry) ;;
      match r with
      | Err e => ret e
      | Ok entry => fa_free (Z.land entry ENTRY_ADDR_MASK)
      end
  end.
End paging.
