(* ===== verification/PagingSpec.v ===== *)
(** * The abstract address space

    A user address space is a set of tables, one per reached prefix of a
    four-index path, and a finite map from full paths to leaf entries.
    [as_inv] ties it to memory; the lemmas say what [next_level_dyn] and a
    store to an entry do to it. *)

From S2P Require Import Prelude Types Mem Memory FrameAlloc Paging.

(** ** Entries *)

Lemma entry_mask_bits i :
  0 <= i -> Z.testbit ENTRY_ADDR_MASK i = (12 <=? i) && (i <? 52).
Proof.
  intros Hi. change ENTRY_ADDR_MASK with (Z.shiftl (Z.ones 40) 12).
  rewrite Z.shiftl_spec by done. destruct (12 <=? i) eqn:E; bool_simpl; simpl.
  - rewrite Z.testbit_ones by lia. lia.
  - by rewrite Z.testbit_neg_r by lia.
Qed.

(** Addresses an entry can hold. *)
Definition phys_ok (p : Z) : Prop := 0 <= p < 2 ^ 52 /\ p mod 4096 = 0.

Lemma frame_phys_ok p : frame_ok p -> phys_ok p.
Proof.
  unfold frame_ok, phys_ok, PHYS_LIMIT, KERNEL_VMA_BASE, HHDM_BASE, PAGE_SIZE. lia.
Qed.
#[export] Hint Resolve frame_phys_ok : nyx.

Lemma phys_mask p : phys_ok p -> Z.land p ENTRY_ADDR_MASK = p.
Proof.
  intros [Hr Ha]. apply Z.bits_inj'. intros i Hi. rewrite Z.land_spec, entry_mask_bits by done.
  destruct (12 <=? i) eqn:E1; bool_simpl; simpl.
  - destruct (i <? 52) eqn:E2; bool_simpl; [by rewrite andb_true_r|].
    by rewrite (testbit_above 52) by lia.
  - by rewrite (testbit_aligned p 12) by (done || lia).
Qed.

Lemma entry_addr p f : phys_ok p -> Z.land f ENTRY_ADDR_MASK = 0 ->
  Z.land (Z.lor p f) ENTRY_ADDR_MASK = p.
Proof. intros Hp Hf. rewrite Z.land_lor_distr_l, phys_mask, Hf by done. apply Z.lor_0_r. Qed.

(** A low or high flag of an entry comes from its flags alone. *)
Lemma entry_flag p f k : phys_ok p -> (0 <= k < 12 \/ 52 <= k) ->
  tst (Z.lor p f) (2 ^ k) = tst f (2 ^ k).
Proof.
  intros [Hr Ha] Hk. rewrite !tst_bit, Z.lor_spec by lia. destruct Hk.
  - by rewrite (testbit_aligned p 12) by (done || lia).
  - by rewrite (testbit_above 52 p) by lia.
Qed.

(** ** The abstract state *)

Record space := mk_space {
  tabs : gmap (list Z) Z;
  leaves : gmap (list Z) Z;
}.

Definition entry_at (m : mem) (p i : Z) : Z := ld64 m (phys_to_virt p + 8 * i).

(** A present, user, writable, non-huge entry for the table in frame [q]. *)
Definition table_entry (e q : Z) : Prop :=
  tst e PAGE_PRESENT = true /\ tst e PAGE_USER = true /\ tst e PAGE_RW = true /\
  tst e PAGE_HUGE = false /\ Z.land e ENTRY_ADDR_MASK = q.

Definition tab_entry (e : Z) (o : option Z) : Prop :=
  match o with Some q => table_entry e q | None => tst e PAGE_PRESENT = false end.
Definition leaf_entry (e : Z) (o : option Z) : Prop :=
  match o with Some x => e = x /\ tst x PAGE_PRESENT = true | None => tst e PAGE_PRESENT = false end.

(** Index [i] of the table at prefix [π] belongs to user space. *)
Definition idx_ok (π : list Z) (i : Z) : Prop := 0 <= i < 512 /\ (π = [] -> i < 256).

Record as_inv (m : mem) (G : space) : Prop := {
  ai_tab π p : tabs G !! π = Some p -> frame_ok p /\ (length π <= 3)%nat;
  ai_inj π π' p : tabs G !! π = Some p -> tabs G !! π' = Some p -> π = π';
  ai_closed π i q : tabs G !! (π ++ [i]) = Some q -> is_Some (tabs G !! π) /\ idx_ok π i;
  ai_leaf ρ e : leaves G !! ρ = Some e -> exists π i, ρ = π ++ [i] /\ length π = 3%nat /\
    is_Some (tabs G !! π) /\ idx_ok π i;
  ai_entry π p i : tabs G !! π = Some p -> idx_ok π i ->
    if decide (length π = 3%nat) then leaf_entry (entry_at m p i) (leaves G !! (π ++ [i]))
    else tab_entry (entry_at m p i) (tabs G !! (π ++ [i]));
}.

Definition tab_frames (G : space) : list Z := (map_to_list (tabs G)).*2.
Definition leaf_frames (G : space) : list Z :=
  (fun '(_, e) => Z.land e ENTRY_ADDR_MASK) <$> map_to_list (leaves G).

Lemma elem_of_tab_frames G p : p ∈ tab_frames G <-> exists π, tabs G !! π = Some p.
Proof.
  unfold tab_frames. rewrite list_elem_of_fmap. split.
  - intros ([π q] & -> & Hin%elem_of_map_to_list). by exists π.
  - intros [π Hπ]. exists (π, p). by rewrite elem_of_map_to_list.
Qed.

Lemma NoDup_tab_frames m G : as_inv m G -> NoDup (tab_frames G).
Proof.
  intros Hi. apply NoDup_fmap_2_strong; [|apply NoDup_map_to_list].
  intros [π p] [π' q] H1%elem_of_map_to_list H2%elem_of_map_to_list Heq. simpl in Heq. subst q.
  by rewrite (ai_inj m G Hi π π' p).
Qed.

(** ** Memory of the tables *)

Lemma entry_at_ext m m' p i :
  frame_agree m m' p -> 0 <= i < 512 -> entry_at m p i = entry_at m' p i.
Proof.
  intros Ha Hi. apply ldn_ext. intros a Hr. apply Ha. unfold in_frame, PAGE_SIZE. lia.
Qed.

Lemma as_inv_ext m m' G :
  (forall p, p ∈ tab_frames G -> frame_agree m m' p) -> as_inv m G -> as_inv m' G.
Proof.
  intros Ha Hi. destruct Hi as [H1 H2 H3 H4 H5]. split; [eauto..|].
  intros π p i Hp Hidx. specialize (H5 π p i Hp Hidx).
  rewrite <- (entry_at_ext m m'); [done| |by apply Hidx].
  apply Ha, elem_of_tab_frames. by exists π.
Qed.

Lemma entry_at_st64 m p i v q j :
  frame_ok p -> frame_ok q -> 0 <= i < 512 -> 0 <= j < 512 -> 0 <= v < 2 ^ 64 ->
  entry_at (st64 (phys_to_virt p + 8 * i) v m) q j =
  if decide (q = p /\ j = i) then v else entry_at m q j.
Proof.
  intros Hp Hq Hi Hj Hv. unfold entry_at. case_decide as Hc.
  - destruct Hc as [-> ->]. by apply ld64_st64_same.
  - apply ld64_st64_other. rewrite !frame_virt by done. destruct (decide (q = p)) as [->|].
    + assert (j <> i) by naive_solver. lia.
    + pose proof (frame_sep p q Hp Hq ltac:(done)). unfold PAGE_SIZE in *. lia.
Qed.

Lemma st64_in_frame m p i v a :
  0 <= i < 512 -> ~ in_frame p a -> ld8 (st64 (phys_to_virt p + 8 * i) v m) a = ld8 m a.
Proof. intros Hi Ha. rewrite ld8_stn. unfold in_frame, PAGE_SIZE in Ha. case_if; [lia|done]. Qed.

(** ** Changes of the abstract state *)

Lemma snoc_inj (π π' : list Z) i j : π ++ [i] = π' ++ [j] -> π = π' /\ i = j.
Proof. apply app_inj_tail. Qed.

Lemma tab_not_below m G π i : as_inv m G -> tabs G !! π = None -> tabs G !! (π ++ [i]) = None.
Proof.
  intros Hi Hn. destruct (tabs G !! (π ++ [i])) eqn:E; [|done].
  apply (ai_closed m G Hi) in E as [[? ?] _]. congruence.
Qed.

Lemma leaf_not_below m G π i : as_inv m G -> tabs G !! π = None -> leaves G !! (π ++ [i]) = None.
Proof.
  intros Hi Hn. destruct (leaves G !! (π ++ [i])) eqn:E; [|done].
  apply (ai_leaf m G Hi) in E as (π' & j & [-> ->]%snoc_inj & _ & [? ?] & _). congruence.
Qed.

Definition add_tab (π : list Z) (q : Z) (G : space) : space :=
  mk_space (<[π := q]> (tabs G)) (leaves G).
Definition set_leaf (ρ : list Z) (o : option Z) (G : space) : space :=
  mk_space (tabs G) (partial_alter (fun _ => o) ρ (leaves G)).

(** What changes between two memories when only entry [i] of [p] is written. *)
Definition one_entry (m m' : mem) (G : space) (p i : Z) : Prop :=
  (forall j, j <> i -> 0 <= j < 512 -> entry_at m' p j = entry_at m p j) /\
  (forall r, r ∈ tab_frames G -> r <> p -> frame_agree m m' r).

Lemma one_entry_other m m' G p i π r j :
  one_entry m m' G p i -> tabs G !! π = Some r -> (r <> p \/ j <> i) -> 0 <= j < 512 ->
  entry_at m' r j = entry_at m r j.
Proof.
  intros [H1 H2] Hr Hne Hj. destruct (decide (r = p)) as [->|].
  - apply H1; [naive_solver|done].
  - symmetry. apply entry_at_ext; [|done]. apply H2; [|done]. apply elem_of_tab_frames. by exists π.
Qed.

Lemma as_inv_install m m' G π p i q :
  as_inv m G -> tabs G !! π = Some p -> (length π < 3)%nat -> idx_ok π i ->
  tabs G !! (π ++ [i]) = None -> frame_ok q -> q ∉ tab_frames G ->
  (forall j, 0 <= j < 512 -> tst (entry_at m' q j) PAGE_PRESENT = false) ->
  table_entry (entry_at m' p i) q -> one_entry m m' G p i ->
  as_inv m' (add_tab (π ++ [i]) q G).
Proof.
  intros Hinv Hp Hlen Hidx Hnone Hq Hfresh Hzero Hent Hone.
  assert (Hnew : forall π' r, tabs G !! π' = Some r -> r <> q).
  { intros π' r Hr ->. apply Hfresh, elem_of_tab_frames. by exists π'. }
  split; simpl.
  - intros π' r [[<- <-]|[_ Hr]]%lookup_insert_Some; [|by eapply ai_tab].
    split; [done|]. rewrite length_app. simpl. lia.
  - intros π1 π2 r [[<- <-]|[_ H1]]%lookup_insert_Some [[<- Hr]|[_ H2]]%lookup_insert_Some.
    + done.
    + by apply Hnew in H2.
    + subst r. by apply Hnew in H1.
    + by eapply ai_inj.
  - intros π' j r [[[<- <-]%snoc_inj _]|[_ Hr]]%lookup_insert_Some.
    + split; [|done]. apply lookup_insert_is_Some'. right. by eexists.
    + apply (ai_closed m G Hinv) in Hr as [Hs ?]. split; [|done].
      apply lookup_insert_is_Some'. by right.
  - intros ρ e He. apply (ai_leaf m G Hinv) in He as (π' & j & -> & Hl & Hs & Hj).
    exists π', j. split_and!; try done. apply lookup_insert_is_Some'. by right.
  - intros π' r j [[<- <-]|[Hne Hr]]%lookup_insert_Some Hj.
    + pose proof (Hzero j (proj1 Hj)) as Hz. case_decide.
      * by rewrite (leaf_not_below m G _ _ Hinv Hnone).
      * rewrite lookup_insert_ne by (intros Hc; by apply (f_equal length) in Hc; rewrite !length_app in Hc; simpl in Hc; lia).
        by rewrite (tab_not_below m G _ _ Hinv Hnone).
    + pose proof (ai_entry m G Hinv π' r j Hr Hj) as He.
      destruct (decide (r = p /\ j = i)) as [[-> ->]|Hd].
      * assert (π' = π) as -> by by eapply ai_inj. rewrite decide_False by lia.
        by rewrite lookup_insert_eq.
      * rewrite (one_entry_other m m' G p i π' r j) by (try done; try (by destruct Hj); by destruct (decide (r = p)); naive_solver).
        case_decide; [done|]. rewrite lookup_insert_ne; [done|].
        intros [-> ->]%snoc_inj. naive_solver.
Qed.

Lemma as_inv_set_leaf m m' G π p i o :
  as_inv m G -> tabs G !! π = Some p -> length π = 3%nat -> idx_ok π i ->
  leaf_entry (entry_at m' p i) o -> one_entry m m' G p i ->
  as_inv m' (set_leaf (π ++ [i]) o G).
Proof.
  intros Hinv Hp Hlen Hidx Hent Hone. split; simpl.
  - by apply (ai_tab m G).
  - by apply (ai_inj m G).
  - by apply (ai_closed m G).
  - intros ρ e He. destruct (decide (ρ = π ++ [i])) as [->|].
    + exists π, i. by split_and!; try by eexists.
    + rewrite lookup_partial_alter_ne in He by done. by apply (ai_leaf m G Hinv) in He.
  - intros π' r j Hr Hj. pose proof (ai_entry m G Hinv π' r j Hr Hj) as He.
    destruct (decide (r = p /\ j = i)) as [[-> ->]|Hd].
    + assert (π' = π) as -> by by eapply ai_inj. rewrite decide_True by done.
      by rewrite lookup_partial_alter_eq.
    + rewrite (one_entry_other m m' G p i π' r j) by (try done; try (by destruct Hj); by destruct (decide (r = p)); naive_solver).
      case_decide; [|done]. rewrite lookup_partial_alter_ne; [done|].
      intros [-> ->]%snoc_inj. naive_solver.
Qed.

Lemma tab_frames_add G π q : tabs G !! π = None -> tab_frames (add_tab π q G) ≡ₚ q :: tab_frames G.
Proof. intros Hn. unfold tab_frames. simpl. by rewrite map_to_list_insert. Qed.

(** ** The operations on tables *)

Section ops.
Context {S : Type} `{FrameAllocatorLaws S}.
Implicit Types (s : S) (G : space) (l : list Z) (π : list Z).

(** An address space beside the free list [l]. *)
Definition sys s G l : Prop :=
  fa_rep s l /\ as_inv (fa_mem s) G /\ tab_frames G ## l.

Lemma sys_tab s G l π p : sys s G l -> tabs G !! π = Some p -> frame_ok p /\ p ∉ l.
Proof.
  intros (_ & Hi & Hd) Hp. split; [by eapply ai_tab|]. intros ?. apply (Hd p); [|done].
  apply elem_of_tab_frames. by exists π.
Qed.

(** A store inside a frame that is not free. *)
Lemma fa_rep_store s l p i v :
  fa_rep s l -> frame_ok p -> p ∉ l -> 0 <= i < 512 ->
  fa_rep (wr_entry (phys_to_virt p) i v s) l.
Proof.
  intros Hr Hp Hn Hi. apply fa_set_mem_rep; [done|]. intros q a Hq Ha.
  apply (st64_in_frame _ p); [done|]. intros Hb.
  destruct (fa_rep_ok s l Hr) as [_ Hok]. rewrite Forall_forall in Hok.
  apply Hn. by rewrite (in_frame_inj p q a) by auto.
Qed.

Lemma fa_mem_wr p i v s : fa_mem (wr_entry p i v s) = st64 (p + 8 * i) v (fa_mem s).
Proof. apply fa_mem_set. Qed.

(** Reading at a table of the space. *)
Lemma rd_entry_at p i s : rd_entry (phys_to_virt p) i s = entry_at (fa_mem s) p i.
Proof. done. Qed.

Lemma next_level_present s p i q create :
  table_entry (entry_at (fa_mem s) p i) q ->
  next_level_dyn (phys_to_virt p) i create s = (Some (phys_to_virt q), s).
Proof.
  intros (E1 & E2 & _ & E4 & E5). unfold next_level_dyn, bind, gets. rewrite rd_entry_at.
  rewrite E1, E4, E2. simpl. unfold ret, table_of_dyn. by rewrite E5.
Qed.

Lemma next_level_absent s p i :
  tst (entry_at (fa_mem s) p i) PAGE_PRESENT = false ->
  next_level_dyn (phys_to_virt p) i false s = (None, s).
Proof. intros E. unfold next_level_dyn, bind, gets. by rewrite rd_entry_at, E. Qed.

Lemma next_level_oom s p i :
  fa_rep s [] -> tst (entry_at (fa_mem s) p i) PAGE_PRESENT = false ->
  next_level_dyn (phys_to_virt p) i true s = (None, s).
Proof.
  intros Hr E. unfold next_level_dyn, bind, gets. rewrite rd_entry_at, E. simpl.
  unfold alloc_table_dyn, bind. by rewrite fa_alloc_nil.
Qed.

(** The entry [next_level_dyn] installs. *)
Lemma new_table_entry q : frame_ok q ->
  table_entry (Z.lor (Z.lor (Z.lor (virt_to_phys (phys_to_virt q)) PAGE_PRESENT) PAGE_RW) PAGE_USER) q /\
  0 <= Z.lor (Z.lor (Z.lor (virt_to_phys (phys_to_virt q)) PAGE_PRESENT) PAGE_RW) PAGE_USER < 2 ^ 64.
Proof.
  intros Hq. rewrite frame_virt_phys by done. pose proof (frame_phys_ok q Hq) as Hp.
  rewrite <- !Z.lor_assoc. change (Z.lor PAGE_PRESENT (Z.lor PAGE_RW PAGE_USER)) with 7.
  split.
  - split_and!; [apply (entry_flag q 7 0)|apply (entry_flag q 7 2)|apply (entry_flag q 7 1)
      |apply (entry_flag q 7 7)|by apply entry_addr]; done || lia.
  - destruct Hp as [Hr _]. split; [apply Z.lor_nonneg; lia|].
    apply Z.log2_lt_cancel. rewrite Z.log2_lor by lia. change (Z.log2 (2 ^ 64)) with 64.
    pose proof (Z.log2_nonneg q). assert (Z.log2 q < 64); [|simpl; lia].
    destruct (Z.eq_dec q 0) as [->|]; [done|]. apply Z.log2_lt_pow2; lia.
Qed.

Lemma st64_one_entry m G π p i v :
  as_inv m G -> tabs G !! π = Some p -> 0 <= i < 512 -> 0 <= v < 2 ^ 64 ->
  one_entry m (st64 (phys_to_virt p + 8 * i) v m) G p i /\
  entry_at (st64 (phys_to_virt p + 8 * i) v m) p i = v.
Proof.
  intros Hinv Hp Hi Hv. destruct (ai_tab m G Hinv π p Hp) as [Hok _]. split; [split|].
  - intros j Hne Hj. rewrite entry_at_st64 by done. case_decide; [naive_solver|done].
  - intros r [π' Hr]%elem_of_tab_frames Hne a Ha. symmetry. apply (st64_in_frame _ p); [done|].
    destruct (ai_tab m G Hinv π' r Hr) as [Hrok _]. intros Hb. by rewrite (in_frame_inj p r a) in Hne.
  - rewrite entry_at_st64 by done. by rewrite decide_True.
Qed.

Lemma next_level_install s G q l π p i :
  sys s G (q :: l) -> tabs G !! π = Some p -> (length π < 3)%nat -> idx_ok π i ->
  tabs G !! (π ++ [i]) = None ->
  exists s', next_level_dyn (phys_to_virt p) i true s = (Some (phys_to_virt q), s') /\
    sys s' (add_tab (π ++ [i]) q G) l /\
    (forall a, ~ in_frame p a -> ~ in_frame q a -> ld8 (fa_mem s') a = ld8 (fa_mem s) a).
Proof.
  intros Hsys Hp Hlen Hidx Hn. pose proof Hsys as (Hr & Hinv & Hd).
  pose proof (ai_entry _ _ Hinv π p i Hp Hidx) as He. rewrite decide_False in He by lia.
  rewrite Hn in He. destruct (sys_tab _ _ _ _ _ Hsys Hp) as [Hpok Hpn].
  destruct (fa_rep_ok _ _ Hr) as [Hnd Hok]. apply Forall_cons in Hok as [Hq Hok].
  apply NoDup_cons in Hnd as [Hqn Hnd].
  destruct (fa_alloc_cons s q l Hr) as (s1 & Ea & Hr1 & Hm1).
  pose proof (mem_upd_outside _ _ _ _ Hm1) as Hout.
  destruct (new_table_entry q Hq) as [Hte Hrg].
  set (e := Z.lor _ _) in Hte, Hrg.
  assert (Hinv1 : as_inv (fa_mem s1) G).
  { apply (as_inv_ext (fa_mem s)); [|done]. intros r Hr' a Ha. symmetry. apply Hout.
    pose proof Hr' as [π' Hπ']%elem_of_tab_frames. destruct (ai_tab _ _ Hinv _ _ Hπ') as [Hrok _].
    intros Hb. apply (Hd r Hr'). rewrite (in_frame_inj r q a) by done. by left. }
  destruct (st64_one_entry (fa_mem s1) G π p i e Hinv1 Hp (proj1 Hidx) Hrg) as [Hone Hent].
  exists (wr_entry (phys_to_virt p) i e s1). split_and!.
  - unfold next_level_dyn, bind, gets. rewrite rd_entry_at, He. simpl.
    unfold alloc_table_dyn, bind. by rewrite Ea.
  - split_and!.
    + apply fa_rep_store; [done|done| |by destruct Hidx]. intros ?. apply Hpn. by right.
    + rewrite fa_mem_wr. apply (as_inv_install (fa_mem s1) _ G π p i q); try done.
      * intros Hin. apply (Hd q Hin). by left.
      * intros j Hj. rewrite entry_at_st64 by (done || by destruct Hidx).
        rewrite decide_False by (intros [-> _]; apply Hpn; by left).
        assert (Hz : entry_at (fa_mem s1) q j = 0); [|by rewrite Hz].
        unfold entry_at. rewrite (ldn_ext 8 _ ∅); [done|].
        intros b Hb. rewrite Hm1. unfold PAGE_SIZE. case_if; [done|lia].
      * by rewrite Hent.
    + intros r. rewrite tab_frames_add by done. intros [-> | Hin]%elem_of_cons; [done|].
      intros ?. apply (Hd r Hin). by right.
  - intros a Ha Hb. rewrite fa_mem_wr, st64_in_frame by (done || by destruct Hidx). by apply Hout.
Qed.
(** The space grew by tables taken from the free list, at most [n]. *)
Definition grows (n : nat) s G l s' G' l' : Prop :=
  tabs G ⊆ tabs G' /\ leaves G' = leaves G /\ (length l <= length l' + n)%nat /\
  tab_frames G' ++ l' ≡ₚ tab_frames G ++ l /\
  (forall a, (forall p, p ∈ tab_frames G' -> ~ in_frame p a) ->
    ld8 (fa_mem s') a = ld8 (fa_mem s) a).

Lemma grows_refl n s G l : grows n s G l s G l.
Proof. split_and!; [done|done|lia|done|done]. Qed.

Lemma tab_frames_mono G G' p : tabs G ⊆ tabs G' -> p ∈ tab_frames G -> p ∈ tab_frames G'.
Proof.
  intros Hs [π Hπ]%elem_of_tab_frames. apply elem_of_tab_frames. exists π.
  by eapply lookup_weaken.
Qed.

Lemma grows_trans n k s1 G1 l1 s2 G2 l2 s3 G3 l3 :
  grows n s1 G1 l1 s2 G2 l2 -> grows k s2 G2 l2 s3 G3 l3 -> grows (n + k) s1 G1 l1 s3 G3 l3.
Proof.
  intros (A1 & A2 & A3 & A4 & A5) (B1 & B2 & B3 & B4 & B5). split_and!.
  - by transitivity (tabs G2).
  - congruence.
  - lia.
  - by rewrite B4.
  - intros a Ha. rewrite B5 by done. apply A5. intros p Hp. apply Ha. by eapply tab_frames_mono.
Qed.

Lemma next_level_create s G l π p i :
  sys s G l -> tabs G !! π = Some p -> (length π < 3)%nat -> idx_ok π i ->
  (exists q s' G' l', next_level_dyn (phys_to_virt p) i true s = (Some (phys_to_virt q), s') /\
     sys s' G' l' /\ tabs G' !! (π ++ [i]) = Some q /\ grows 1 s G l s' G' l') \/
  (l = [] /\ next_level_dyn (phys_to_virt p) i true s = (None, s)).
Proof.
  intros Hsys Hp Hlen Hidx. pose proof Hsys as (Hr & Hinv & Hd).
  pose proof (ai_entry _ _ Hinv π p i Hp Hidx) as He. rewrite decide_False in He by lia.
  destruct (tabs G !! (π ++ [i])) as [q|] eqn:Eq.
  - left. exists q, s, G, l. split_and!; [by apply next_level_present|done|done|apply grows_refl].
  - destruct l as [|q l]; [right; split; [done|by apply next_level_oom]|].
    left. destruct (next_level_install s G q l π p i) as (s' & E & Hs' & Hm); try done.
    exists q, s', (add_tab (π ++ [i]) q G), l. split_and!; [done|done| |split_and!].
    + apply lookup_insert_eq.
    + by apply insert_subseteq.
    + done.
    + simpl. lia.
    + rewrite tab_frames_add by done. simpl. by rewrite Permutation_middle.
    + intros a Ha. apply Hm; apply Ha; rewrite tab_frames_add by done; [|by left].
      right. apply elem_of_tab_frames. by exists π.
Qed.

Section walk.
Context {B : Type} (k : Z -> ST S (res B)).
Context (s : S) (G : space) (l : list Z) (root a b c : Z).
Context (Hsys : sys s G l) (Hroot : tabs G !! [] = Some root).
Context (Ha : 0 <= a < 256) (Hb : 0 <= b < 512) (Hc : 0 <= c < 512).

Definition walk (e : Nerror) (create : bool) : ST S (res B) :=
  pdpt <-o{e} next_level_dyn (phys_to_virt root) a create ;;
  pd <-o{e} next_level_dyn pdpt b create ;;
  pt <-o{e} next_level_dyn pd c create ;;
  k pt.

Lemma walk_create :
  (exists p s' G' l', walk NoutOfMemory true s = k (phys_to_virt p) s' /\ sys s' G' l' /\
     tabs G' !! [a; b; c] = Some p /\ grows 3 s G l s' G' l') \/
  (exists s' G', walk NoutOfMemory true s = (Err NoutOfMemory, s') /\ sys s' G' [] /\
     grows 2 s G l s' G' []).
Proof.
  unfold walk, tryo.
  destruct (next_level_create s G l [] root a) as [(p1 & s1 & G1 & l1 & E1 & H1 & T1 & R1)|[-> E1]];
    [done|done|simpl; lia|split; lia| |rewrite E1; right; exists s, G; by split_and!; [..|apply grows_refl]].
  rewrite E1.
  destruct (next_level_create s1 G1 l1 [a] p1 b) as [(p2 & s2 & G2 & l2 & E2 & H2 & T2 & R2)|[-> E2]];
    [done|done|simpl; lia|split; done| |rewrite E2; right; exists s1, G1; split_and!; try done;
     by apply (grows_trans 1 1 _ _ _ _ _ _ _ _ _ R1), grows_refl].
  rewrite E2. pose proof (grows_trans _ _ _ _ _ _ _ _ _ _ _ R1 R2) as R12.
  destruct (next_level_create s2 G2 l2 [a; b] p2 c) as [(p3 & s3 & G3 & l3 & E3 & H3 & T3 & R3)|[-> E3]];
    [done|done|simpl; lia|split; done| |rewrite E3; right; by exists s2, G2].
  rewrite E3. left. exists p3, s3, G3, l3. split_and!; try done.
  by apply (grows_trans 2 1 _ _ _ _ _ _ _ _ _ R12).
Qed.

Lemma walk_find e :
  (exists p, tabs G !! [a; b; c] = Some p /\ walk e false s = k (phys_to_virt p) s) \/
  (tabs G !! [a; b; c] = None /\ walk e false s = (Err e, s)).
Proof.
  pose proof Hsys as (Hr & Hinv & Hd). unfold walk, tryo.
  assert (step : forall π p i, tabs G !! π = Some p -> (length π < 3)%nat -> idx_ok π i ->
    (exists q, tabs G !! (π ++ [i]) = Some q /\
       next_level_dyn (phys_to_virt p) i false s = (Some (phys_to_virt q), s)) \/
    (tabs G !! (π ++ [i]) = None /\ next_level_dyn (phys_to_virt p) i false s = (None, s))).
  { intros π p i Hp Hlen Hidx. pose proof (ai_entry _ _ Hinv π p i Hp Hidx) as He.
    rewrite decide_False in He by lia. destruct (tabs G !! (π ++ [i])) as [q|] eqn:Eq.
    - left. exists q. split; [done|]. by apply next_level_present.
    - right. split; [done|]. by apply next_level_absent. }
  destruct (step [] root a) as [(p1 & T1 & ->)|[T1 ->]]; [done|simpl; lia|split; lia| |].
  - destruct (step [a] p1 b) as [(p2 & T2 & ->)|[T2 ->]]; [done|simpl; lia|split; done| |].
    + destruct (step [a; b] p2 c) as [(p3 & T3 & ->)|[T3 ->]]; [done|simpl; lia|split; done| |].
      * left. by exists p3.
      * by right.
    + right. split; [|done]. by apply (tab_not_below _ _ [a; b] c Hinv).
  - right. split; [|done]. apply (tab_not_below _ _ [a; b] c Hinv).
    by apply (tab_not_below _ _ [a] b Hinv).
Qed.
End walk.
End ops.
