(* ===== verification/AddrSpace.v ===== *)
(** * What the operations on an address space do

    The refinement of [Paging]'s operations to the finite map of
    [PagingSpec], the write-xor-execute policy, and the conservation of
    frames from creation to destruction. *)

From S2P Require Import Prelude Types Mem Memory FrameAlloc Paging PagingSpec.

(** ** Paths *)

(** The four indices of a virtual address. *)
Definition path (v : Z) : list Z := [pt_index v 39; pt_index v 30; pt_index v 21; pt_index v 12].

Lemma pt_index_eq v sh : 0 <= sh -> pt_index v sh = v / 2 ^ sh mod 512.
Proof.
  intros. unfold pt_index. rewrite Z.shiftr_div_pow2 by done.
  change 0x1FF with (2 ^ 9 - 1). rewrite land_ones_mod by done. change (2 ^ 9) with 512.
  pose proof (Z.mod_pos_bound (v / 2 ^ sh) 512 ltac:(lia)). apply uw_small. lia.
Qed.

Lemma pt_index_range v sh : 0 <= sh -> 0 <= pt_index v sh < 512.
Proof. intros. rewrite pt_index_eq by done. apply Z.mod_pos_bound. lia. Qed.

Lemma pt_index_top v : 0 <= v < USER_SPACE_END -> 0 <= pt_index v 39 < 256.
Proof.
  unfold USER_SPACE_END. intros Hv. rewrite pt_index_eq by done.
  assert (v / 2 ^ 39 < 256) by (apply Z.div_lt_upper_bound; lia).
  assert (0 <= v / 2 ^ 39) by (apply Z.div_pos; lia). rewrite Z.mod_small; lia.
Qed.

(** The page of a byte. *)
Definition page_of (v : Z) : Z := v - v mod PAGE_SIZE.

Lemma page_of_div v : page_of v / 4096 = v / 4096.
Proof.
  unfold page_of, PAGE_SIZE. pose proof (Z.div_mod v 4096 ltac:(lia)).
  replace (v - v mod 4096) with (v / 4096 * 4096) by lia. apply Z.div_mul. lia.
Qed.

Lemma pt_index_page v sh : 12 <= sh -> pt_index v sh = v / 4096 / 2 ^ (sh - 12) mod 512.
Proof.
  intros. rewrite pt_index_eq by lia. rewrite Z.div_div by lia. do 2 f_equal.
  change 4096 with (2 ^ 12). rewrite <- Z.pow_add_r by lia. f_equal. lia.
Qed.

Lemma path_page_of v : path (page_of v) = path v.
Proof. unfold path. rewrite !pt_index_page by lia. by rewrite page_of_div. Qed.

Lemma path_inj v v' :
  0 <= v < USER_SPACE_END -> 0 <= v' < USER_SPACE_END ->
  path v = path v' -> page_of v = page_of v'.
Proof.
  unfold USER_SPACE_END, path, page_of, PAGE_SIZE. intros Hv Hv'.
  rewrite !pt_index_page by lia.
  change (2 ^ (39 - 12)) with (512 * (512 * 512)). change (2 ^ (30 - 12)) with (512 * 512).
  change (2 ^ (21 - 12)) with 512. change (2 ^ (12 - 12)) with 1.
  intros [= H1 H2 H3 H4].
  pose proof (Z.div_mod v 4096 ltac:(lia)). pose proof (Z.div_mod v' 4096 ltac:(lia)).
  cut (v / 4096 = v' / 4096); [lia|].
  rewrite !Z.div_1_r in H4.
  assert (0 <= v / 4096 < 512 * 512 * 512 * 512)
    by (split; [apply Z.div_pos|apply Z.div_lt_upper_bound]; lia).
  assert (0 <= v' / 4096 < 512 * 512 * 512 * 512)
    by (split; [apply Z.div_pos|apply Z.div_lt_upper_bound]; lia).
  set (n := v / 4096) in *. set (n' := v' / 4096) in *. clearbody n n'.
  rewrite <- !Z.div_div in H1 by lia. rewrite <- !Z.div_div in H2 by lia.
  assert (forall k, 0 <= k < 512 * 512 * 512 * 512 -> 0 <= k / 512 / 512 / 512 < 512) as Htop
    by (intros; rewrite !Z.div_div by lia; split; [apply Z.div_pos|apply Z.div_lt_upper_bound]; lia).
  pose proof (Htop n ltac:(done)). pose proof (Htop n' ltac:(done)).
  rewrite !Z.mod_small in H1 by done.
  pose proof (Z.div_mod n 512 ltac:(lia)). pose proof (Z.div_mod n' 512 ltac:(lia)).
  pose proof (Z.div_mod (n / 512) 512 ltac:(lia)). pose proof (Z.div_mod (n' / 512) 512 ltac:(lia)).
  pose proof (Z.div_mod (n / 512 / 512) 512 ltac:(lia)). pose proof (Z.div_mod (n' / 512 / 512) 512 ltac:(lia)).
  lia.
Qed.

(** ** Arguments and entries *)

(** The entry [paging_map_page] writes. *)
Definition leaf_of (g : paging_globals) (p flags : Z) : Z :=
  let flags := if negb (g_nx_supported g) then Z.land flags (unot 64 PAGE_NX) else flags in
  Z.lor (Z.lor (Z.lor p (Z.land flags leaf_flags)) PAGE_PRESENT) PAGE_USER.

(** A page of user space. *)
Definition upage (v : Z) : Prop := 0 < v < USER_SPACE_END /\ v mod PAGE_SIZE = 0.

(** A word of 64 bits. *)
Definition word (x : Z) : Prop := 0 <= x < 2 ^ 64.

(** The write-xor-execute test of [paging_map_page]. *)
Definition wx_ok (g : paging_globals) (flags : Z) : Prop :=
  g_nx_supported g = true -> tst flags PAGE_RW = true -> tst flags PAGE_NX = true.

Lemma tst_page v : tst v (PAGE_SIZE - 1) = negb (v mod PAGE_SIZE =? 0).
Proof. apply (tst_low_bits v 12). lia. Qed.

Lemma upage_guard v : upage v ->
  (v =? 0) || tst v (PAGE_SIZE - 1) || negb (is_canonical v) || (USER_SPACE_END <=? v) = false /\
  tst v (PAGE_SIZE - 1) = false /\
  (v =? 0) || negb (is_canonical v) || (USER_SPACE_END <=? v) = false.
Proof.
  intros [Hv Hm]. assert (Hc : is_canonical v = true).
  { unfold is_canonical, USER_SPACE_END in *. rewrite Z.shiftr_div_pow2 by lia.
    rewrite Z.div_small by lia. done. }
  assert (Ht : tst v (PAGE_SIZE - 1) = false) by (rewrite tst_page, Hm; done).
  rewrite Hc, Ht. split_and!; try done; lia.
Qed.

Lemma phys_guard p : phys_ok p -> tst p (PAGE_SIZE - 1) = false /\ Z.shiftr p 52 =? 0 = true.
Proof.
  intros [Hp Hm]. split; [rewrite tst_page; unfold PAGE_SIZE; by rewrite Hm|].
  rewrite Z.shiftr_div_pow2, Z.div_small by lia. done.
Qed.

#[global] Instance upage_dec v : Decision (upage v).
Proof. unfold upage. apply _. Defined.
#[global] Instance phys_ok_dec p : Decision (phys_ok p).
Proof. unfold phys_ok. apply _. Defined.
#[global] Instance wx_ok_dec g flags : Decision (wx_ok g flags).
Proof. unfold wx_ok. apply _. Defined.

Lemma not_upage_guard v : word v -> ~ upage v ->
  tst v (PAGE_SIZE - 1) = true \/ (v =? 0) || negb (is_canonical v) || (USER_SPACE_END <=? v) = true.
Proof.
  intros Hw Hn. rewrite tst_page. unfold upage, word in *.
  destruct (decide (v mod PAGE_SIZE = 0)) as [E|E]; [|left; lia]. right.
  destruct (v =? 0) eqn:E0; [done|]. destruct (USER_SPACE_END <=? v) eqn:E1; [by rewrite orb_true_r|].
  exfalso. apply Hn. split; [lia|done].
Qed.

Lemma not_phys_guard p : word p -> ~ phys_ok p ->
  tst p (PAGE_SIZE - 1) = true \/ Z.shiftr p 52 =? 0 = false.
Proof.
  intros Hw Hn. rewrite tst_page. unfold phys_ok, word, PAGE_SIZE in *.
  destruct (decide (p mod 4096 = 0)) as [E|E]; [|left; lia]. right.
  rewrite Z.shiftr_div_pow2 by lia. apply Z.eqb_neq. intros H0.
  pose proof (Z.div_mod p (2 ^ 52) ltac:(lia)). pose proof (Z.mod_pos_bound p (2 ^ 52) ltac:(lia)).
  apply Hn. split; [lia|done].
Qed.

(** Bits 12 to 51 of the flags are dropped. *)
Lemma leaf_flags_mask f : Z.land (Z.lor (Z.land f leaf_flags) 5) ENTRY_ADDR_MASK = 0.
Proof.
  rewrite Z.land_lor_distr_l, <- Z.land_assoc.
  change (Z.land leaf_flags ENTRY_ADDR_MASK) with 0. by rewrite Z.land_0_r.
Qed.

Section leaf_of.
Context (g : paging_globals) (p flags : Z) (Hp : phys_ok p).

Let flags' := if negb (g_nx_supported g) then Z.land flags (unot 64 PAGE_NX) else flags.

Lemma leaf_of_eq : leaf_of g p flags = Z.lor p (Z.lor (Z.land flags' leaf_flags) 5).
Proof. unfold leaf_of. fold flags'. by rewrite <- !Z.lor_assoc. Qed.

Lemma leaf_of_range : word (leaf_of g p flags).
Proof.
  rewrite leaf_of_eq. destruct Hp as [Hr _].
  apply lor_range; [done|lia|]. apply lor_range; [done| |done]. by apply land_range.
Qed.

Lemma leaf_of_addr : Z.land (leaf_of g p flags) ENTRY_ADDR_MASK = p.
Proof. rewrite leaf_of_eq. apply entry_addr; [done|apply leaf_flags_mask]. Qed.

Lemma leaf_of_present : tst (leaf_of g p flags) PAGE_PRESENT = true.
Proof.
  rewrite leaf_of_eq. change PAGE_PRESENT with (2 ^ 0). rewrite entry_flag by (done || lia).
  rewrite tst_bit, Z.lor_spec by lia. by rewrite orb_true_r.
Qed.

Lemma leaf_of_user : tst (leaf_of g p flags) PAGE_USER = true.
Proof.
  rewrite leaf_of_eq. change PAGE_USER with (2 ^ 2). rewrite entry_flag by (done || lia).
  rewrite tst_bit, Z.lor_spec by lia. by rewrite orb_true_r.
Qed.

Lemma leaf_of_rw : tst (leaf_of g p flags) PAGE_RW = tst flags' PAGE_RW.
Proof.
  rewrite leaf_of_eq. change PAGE_RW with (2 ^ 1). rewrite entry_flag by (done || lia).
  rewrite !tst_bit, Z.lor_spec, Z.land_spec by lia. by rewrite andb_true_r, orb_false_r.
Qed.

Lemma leaf_of_nx : g_nx_supported g = true -> tst (leaf_of g p flags) PAGE_NX = tst flags PAGE_NX.
Proof.
  intros Hg. rewrite leaf_of_eq. unfold flags'. rewrite Hg. simpl.
  change PAGE_NX with (2 ^ 63). rewrite entry_flag by (done || lia).
  rewrite !tst_bit, Z.lor_spec, Z.land_spec by lia. by rewrite andb_true_r, orb_false_r.
Qed.
End leaf_of.

(** ** Mapping, unmapping *)

Section ops.
Context {S : Type} `{FrameAllocatorLaws S}.
Implicit Types (s : S) (G : space) (l : list Z).

Lemma path_idx v : upage v ->
  0 <= pt_index v 39 < 256 /\ 0 <= pt_index v 30 < 512 /\ 0 <= pt_index v 21 < 512 /\
  idx_ok [pt_index v 39; pt_index v 30; pt_index v 21] (pt_index v 12).
Proof.
  intros [Hv _]. split_and!; try (apply pt_index_range; lia); try (apply pt_index_top; lia).
  split; [apply pt_index_range; lia|done].
Qed.

Lemma root_nonzero s G l root : sys s G l -> tabs G !! [] = Some root -> phys_to_virt root =? 0 = false.
Proof.
  intros Hs Hr. destruct (sys_tab s G l _ _ Hs Hr) as [Hok _]. rewrite frame_virt by done.
  destruct Hok. unfold HHDM_BASE. lia.
Qed.

(** A leaf store turns one space into the other. *)
Lemma sys_set_leaf s G l π p i v o :
  sys s G l -> tabs G !! π = Some p -> length π = 3%nat -> idx_ok π i -> word v ->
  leaf_entry v o ->
  sys (wr_entry (phys_to_virt p) i v s) (set_leaf (π ++ [i]) o G) l.
Proof.
  intros Hsys Hp Hlen Hidx Hv Hent. pose proof Hsys as (Hr & Hinv & Hd).
  destruct (sys_tab s G l _ _ Hsys Hp) as [Hpok Hpn].
  destruct (st64_one_entry (fa_mem s) G π p i v Hinv Hp (proj1 Hidx) Hv) as [Hone Hat].
  split_and!; [by apply fa_rep_store; [..|destruct Hidx]| |done].
  rewrite fa_mem_wr. apply (as_inv_set_leaf (fa_mem s) _ G π p i o); try done. by rewrite Hat.
Qed.

(** What [paging_map_page] does with arguments that pass its tests. *)
Lemma map_page_run g s G l root p v flags :
  sys s G l -> tabs G !! [] = Some root -> phys_ok p -> upage v -> word flags -> wx_ok g flags ->
  exists r s' G' l',
    paging_map_page g (Some (mk_as (phys_to_virt root))) p v flags s = (r, s') /\
    sys s' G' l' /\ tabs G ⊆ tabs G' /\ tab_frames G' ++ l' ≡ₚ tab_frames G ++ l /\
    (forall a, (forall q, q ∈ tab_frames G' -> ~ in_frame q a) ->
       ld8 (fa_mem s') a = ld8 (fa_mem s) a) /\
    match r with
    | Ok _ => leaves G !! path v = None /\ leaves G' = <[path v := leaf_of g p flags]> (leaves G)
    | Err NalreadyExists => is_Some (leaves G !! path v) /\ leaves G' = leaves G
    | Err NoutOfMemory => (length l < 3)%nat /\ l' = [] /\ leaves G' = leaves G
    | Err _ => False
    end.
Proof.
  intros Hsys Hroot Hp Hv Hf Hwx. unfold paging_map_page. cbn [pml4].
  rewrite (root_nonzero s G l root) by done.
  destruct (phys_guard p Hp) as [-> ->]. destruct (upage_guard v Hv) as (_ & -> & ->). simpl.
  replace (g_nx_supported g && tst _ PAGE_RW && negb _) with false; cycle 1.
  { destruct (g_nx_supported g) eqn:Eg; [|done]. simpl.
    destruct (tst flags PAGE_RW) eqn:Er; [|done]. by rewrite Hwx. }
  destruct (path_idx v Hv) as (Ha & Hb & Hc & Hd).
  match goal with |- context [tryo _ (next_level_dyn _ (pt_index v 39) _) (fun pdpt =>
    tryo _ _ (fun pd => tryo _ _ ?k))] =>
    destruct (walk_create k s G l root _ _ _ Hsys Hroot Ha Hb Hc)
      as [(pt & s1 & G1 & l1 & E & Hs1 & Ht & Hg)|(s1 & G1 & E & Hs1 & Hg)] end.
  - unfold walk in E. rewrite E. clear E. destruct Hg as (B1 & B2 & B3 & B4 & B5).
    pose proof Hs1 as (_ & Hinv1 & _). pose proof (ai_entry _ _ Hinv1 _ _ _ Ht Hd) as He.
    rewrite decide_True in He by done. change (_ ++ [_]) with (path v) in He. rewrite B2 in He.
    unfold bind, gets. rewrite rd_entry_at.
    destruct (leaves G !! path v) as [e|] eqn:El; simpl in He.
    + destruct He as [-> Hpr]. rewrite Hpr. eexists _, s1, G1, l1. by split_and!.
    + rewrite He. simpl. fold (leaf_of g p flags).
      eexists _, _, (set_leaf (path v) (Some (leaf_of g p flags)) G1), l1.
      split; [done|]. split; [|split_and!].
      * apply (sys_set_leaf s1 G1 l1 _ pt _ _ _ Hs1 Ht); [done|done|by apply leaf_of_range|].
        split; [done|]. by apply leaf_of_present.
      * done.
      * done.
      * intros a Hout. rewrite fa_mem_wr, st64_in_frame; [by apply B5|by destruct Hd|].
        apply Hout. apply elem_of_tab_frames. by eexists.
      * done.
      * simpl. rewrite B2. done.
  - unfold walk in E. rewrite E. destruct Hg as (B1 & B2 & B3 & B4 & B5).
    eexists _, s1, G1, []. split_and!; try done. split_and!; [simpl in *; lia|done|done].
Qed.

(** The tests of [paging_map_page], before it touches the tables. *)
Lemma map_page_guards g s t p v flags :
  phys_to_virt t =? 0 = false -> word p -> word v ->
  let run := paging_map_page g (Some (mk_as (phys_to_virt t))) p v flags s in
  if decide (phys_ok p /\ upage v) then
    if decide (wx_ok g flags) then True else run = (Err Npermission, s)
  else run = (Err NinvalidArg, s).
Proof.
  intros Ht Hwp Hwv. unfold paging_map_page. cbn [pml4]. rewrite Ht. cbv zeta.
  destruct (decide (phys_ok p /\ upage v)) as [[Hp Hv]|Hn].
  - destruct (decide (wx_ok g flags)) as [|Hwx]; [done|].
    destruct (phys_guard p Hp) as [-> ->]. destruct (upage_guard v Hv) as (_ & -> & ->). simpl.
    unfold wx_ok in Hwx. destruct (g_nx_supported g); simpl; [|naive_solver].
    destruct (tst flags PAGE_RW); simpl; [|naive_solver].
    destruct (tst flags PAGE_NX); simpl; [naive_solver|done].
  - destruct (decide (phys_ok p)) as [Hp|Hp].
    + assert (Hv : ~ upage v) by tauto. destruct (phys_guard p Hp) as [-> _].
      destruct (not_upage_guard v Hwv Hv) as [-> | ->]; [done|]. by destruct (tst v _).
    + destruct (not_phys_guard p Hwp Hp) as [-> | ->]; [done|].
      destruct (_ || _); [done|]. by destruct (_ || _).
Qed.

Lemma not_upage_guard' v : word v -> ~ upage v ->
  (v =? 0) || tst v (PAGE_SIZE - 1) || negb (is_canonical v) || (USER_SPACE_END <=? v) = true.
Proof.
  intros Hw Hv. destruct (not_upage_guard v Hw Hv) as [-> | E]; [by rewrite orb_true_r|].
  destruct (v =? 0); [done|]. destruct (tst v _); [done|]. exact E.
Qed.

(** Unmapping: the entry of the page, if it has one, is cleared. *)
Lemma sys_clear_leaf s G l v pt :
  sys s G l -> upage v -> tabs G !! [pt_index v 39; pt_index v 30; pt_index v 21] = Some pt ->
  sys (wr_entry (phys_to_virt pt) (pt_index v 12) 0 s) (set_leaf (path v) None G) l /\
  forall a, (forall q, q ∈ tab_frames G -> ~ in_frame q a) ->
    ld8 (fa_mem (wr_entry (phys_to_virt pt) (pt_index v 12) 0 s)) a = ld8 (fa_mem s) a.
Proof.
  intros Hsys Hv Ht. destruct (path_idx v Hv) as (_ & _ & _ & Hd). split.
  - by apply (sys_set_leaf s G l _ pt _ _ None Hsys Ht).
  - intros a Hout. rewrite fa_mem_wr, st64_in_frame; [done|by destruct Hd|].
    apply Hout, elem_of_tab_frames. by eexists.
Qed.

Lemma leaf_read s G l v pt :
  sys s G l -> upage v -> tabs G !! [pt_index v 39; pt_index v 30; pt_index v 21] = Some pt ->
  leaf_entry (rd_entry (phys_to_virt pt) (pt_index v 12) s) (leaves G !! path v).
Proof.
  intros (_ & Hinv & _) Hv Ht. destruct (path_idx v Hv) as (_ & _ & _ & Hd).
  pose proof (ai_entry _ _ Hinv _ _ _ Ht Hd) as He. by rewrite decide_True in He.
Qed.

Lemma leaf_no_table s G l v :
  sys s G l -> tabs G !! [pt_index v 39; pt_index v 30; pt_index v 21] = None ->
  leaves G !! path v = None.
Proof. intros (_ & Hinv & _) Hn. by apply (leaf_not_below _ _ [_; _; _] (pt_index v 12) Hinv). Qed.

Lemma unmap_page_run s G l root v :
  sys s G l -> tabs G !! [] = Some root -> upage v ->
  match leaves G !! path v with
  | Some _ => exists s', paging_unmap_page (Some (mk_as (phys_to_virt root))) v s = (Ok tt, s') /\
      sys s' (set_leaf (path v) None G) l /\
      forall a, (forall q, q ∈ tab_frames G -> ~ in_frame q a) -> ld8 (fa_mem s') a = ld8 (fa_mem s) a
  | None => paging_unmap_page (Some (mk_as (phys_to_virt root))) v s = (Err NinvalidArg, s)
  end.
Proof.
  intros Hsys Hroot Hv. unfold paging_unmap_page. cbn [pml4].
  rewrite (root_nonzero s G l root) by done. destruct (upage_guard v Hv) as (-> & _ & _).
  destruct (path_idx v Hv) as (Ha & Hb & Hc & _).
  match goal with |- context [tryo _ (next_level_dyn _ (pt_index v 39) _) (fun pdpt =>
    tryo _ _ (fun pd => tryo _ _ ?k))] =>
    destruct (walk_find k s G l root _ _ _ Hsys Hroot Ha Hb Hc NinvalidArg) as [(pt & Ht & E)|(Ht & E)] end.
  all: unfold walk in E; rewrite E; clear E.
  - pose proof (leaf_read s G l v pt Hsys Hv Ht) as He. unfold bind, gets.
    destruct (leaves G !! path v) as [e|] eqn:El; simpl in He.
    + destruct He as [-> Hpr]. rewrite Hpr. simpl. eexists. split; [done|]. by eapply sys_clear_leaf.
    + by rewrite He.
  - by rewrite (leaf_no_table s G l v).
Qed.

Lemma unmap_free_page_run s G l root v :
  sys s G l -> tabs G !! [] = Some root -> upage v ->
  match leaves G !! path v with
  | Some e =>
      frame_ok (Z.land e ENTRY_ADDR_MASK) ->
      Z.land e ENTRY_ADDR_MASK ∉ tab_frames G -> Z.land e ENTRY_ADDR_MASK ∉ l ->
      exists s', paging_unmap_free_page (Some (mk_as (phys_to_virt root))) v s = (Nok, s') /\
        sys s' (set_leaf (path v) None G) (Z.land e ENTRY_ADDR_MASK :: l) /\
        forall a, (forall q, q ∈ Z.land e ENTRY_ADDR_MASK :: tab_frames G -> ~ in_frame q a) ->
          ld8 (fa_mem s') a = ld8 (fa_mem s) a
  | None => paging_unmap_free_page (Some (mk_as (phys_to_virt root))) v s = (NinvalidArg, s)
  end.
Proof.
  intros Hsys Hroot Hv. unfold paging_unmap_free_page. cbn [pml4].
  rewrite (root_nonzero s G l root) by done. destruct (upage_guard v Hv) as (-> & _ & _).
  destruct (path_idx v Hv) as (Ha & Hb & Hc & _). rewrite !bind_eq.
  match goal with |- context [tryo _ (next_level_dyn _ (pt_index v 39) _) (fun pdpt =>
    tryo _ _ (fun pd => tryo _ _ ?k))] =>
    destruct (walk_find k s G l root _ _ _ Hsys Hroot Ha Hb Hc NinvalidArg) as [(pt & Ht & E)|(Ht & E)] end.
  all: unfold walk in E; rewrite E; clear E.
  - pose proof (leaf_read s G l v pt Hsys Hv Ht) as He. unfold bind, gets. cbv beta iota.
    destruct (leaves G !! path v) as [e|] eqn:El; simpl in He.
    + destruct He as [-> Hpr]. rewrite Hpr. simpl. intros Hok Hnt Hnl.
      set (p := Z.land e ENTRY_ADDR_MASK) in *.
      destruct (sys_clear_leaf s G l v pt Hsys Hv Ht) as [(Hr1 & Hi1 & Hd1) Hm1].
      destruct (fa_free_ok _ p l Hr1 Hok Hnl) as (s' & E & Hr' & Hm').
      exists s'. split; [exact E|]. split; [split_and!; [done| |]|].
      * apply (as_inv_ext (fa_mem (wr_entry (phys_to_virt pt) (pt_index v 12) 0 s))); [|done].
        intros q Hq a Haq. symmetry. apply Hm'. intros Hb'. apply Hnt.
        destruct Hsys as (_ & Hinv & _). pose proof Hq as [π Hπ]%elem_of_tab_frames.
        destruct (ai_tab _ _ Hinv π q Hπ) as [Hqok _]. by rewrite (in_frame_inj p q a).
      * intros q Hq [-> | Hq']%elem_of_cons; [done|]. by apply (Hd1 q).
      * intros a Hout. rewrite Hm' by (apply Hout; by left). apply Hm1. intros q Hq.
        apply Hout. by right.
    + by rewrite He.
  - by rewrite (leaf_no_table s G l v).
Qed.

(** ** The check on user ranges *)

(** The page of [v] is mapped for user mode, and for writing if asked. *)
Definition user_ok G (v : Z) (write : bool) : bool :=
  match leaves G !! path v with
  | Some e => tst e PAGE_USER && (negb write || tst e PAGE_RW)
  | None => false
  end.

(** The entries a walk meets: four present ones, or an absent one. *)
Definition walk_entries (m : mem) (t v : Z) (o : option Z) : Prop :=
  let e1 := ld64 m (t + 8 * pt_index v 39) in
  let e2 := ld64 m (table_of_dyn e1 + 8 * pt_index v 30) in
  let e3 := ld64 m (table_of_dyn e2 + 8 * pt_index v 21) in
  let e4 := ld64 m (table_of_dyn e3 + 8 * pt_index v 12) in
  let is_table e := exists q, table_entry e q in
  let absent e := tst e PAGE_PRESENT = false in
  match o with
  | Some e => is_table e1 /\ is_table e2 /\ is_table e3 /\ e4 = e /\ tst e PAGE_PRESENT = true
  | None => absent e1 \/ is_table e1 /\ (absent e2 \/ is_table e2 /\
              (absent e3 \/ is_table e3 /\ absent e4))
  end.

Lemma walk_entries_spec s G l root v :
  sys s G l -> tabs G !! [] = Some root -> 0 <= v < USER_SPACE_END ->
  walk_entries (fa_mem s) (phys_to_virt root) v (leaves G !! path v).
Proof.
  intros (_ & Hinv & _) Hroot Hv.
  assert (step : forall π p i, tabs G !! π = Some p -> (length π < 3)%nat -> idx_ok π i ->
    tab_entry (ld64 (fa_mem s) (phys_to_virt p + 8 * i)) (tabs G !! (π ++ [i]))).
  { intros π p i Hp Hlen Hidx. pose proof (ai_entry _ _ Hinv π p i Hp Hidx) as He.
    by rewrite decide_False in He by lia. }
  assert (tof : forall e q, table_entry e q -> table_of_dyn e = phys_to_virt q)
    by (intros e q (_ & _ & _ & _ & <-); done).
  pose proof (pt_index_top v Hv) as Ha. pose proof (pt_index_range v 30 ltac:(lia)) as Hb.
  pose proof (pt_index_range v 21 ltac:(lia)) as Hc. pose proof (pt_index_range v 12 ltac:(lia)) as Hd.
  unfold walk_entries, path. set (a := pt_index v 39) in *. set (b := pt_index v 30) in *.
  set (c := pt_index v 21) in *. set (d := pt_index v 12) in *. cbv zeta.
  pose proof (step [] root a Hroot ltac:(simpl; lia) ltac:(split; lia)) as S1.
  pose proof (fun i => tab_not_below _ _ [a] i Hinv) as N1.
  pose proof (fun i => tab_not_below _ _ [a; b] i Hinv) as N2.
  pose proof (leaf_not_below _ _ [a; b; c] d Hinv) as N3. simpl in N1, N2, N3, S1.
  destruct (tabs G !! [a]) as [p1|] eqn:T1; simpl in S1.
  2:{ rewrite N3 by (apply N2, N1; done). by left. }
  rewrite (tof _ p1 S1).
  pose proof (step [a] p1 b T1 ltac:(simpl; lia) ltac:(split; done)) as S2. simpl in S2.
  destruct (tabs G !! [a; b]) as [p2|] eqn:T2; simpl in S2.
  2:{ rewrite N3 by (apply N2; done). right. split; [by exists p1|by left]. }
  rewrite (tof _ p2 S2).
  pose proof (step [a; b] p2 c T2 ltac:(simpl; lia) ltac:(split; done)) as S3. simpl in S3.
  destruct (tabs G !! [a; b; c]) as [p3|] eqn:T3; simpl in S3.
  2:{ rewrite N3 by done. right. split; [by exists p1|]. right. split; [by exists p2|by left]. }
  rewrite (tof _ p3 S3).
  pose proof (ai_entry _ _ Hinv [a; b; c] p3 d T3 ltac:(split; done)) as S4.
  rewrite decide_True in S4 by done. unfold entry_at in S4. simpl app in S4.
  destruct (leaves G !! [a; b; c; d]) as [e|]; simpl in S4.
  - destruct S4. split_and!; try done; by eexists.
  - right. split; [by exists p1|]. right. split; [by exists p2|]. right. split; [by exists p3|done].
Qed.

Lemma user_page_ok_spec s G l root v write :
  sys s G l -> tabs G !! [] = Some root -> 0 <= v < USER_SPACE_END ->
  user_page_ok (fa_mem s) (mk_as (phys_to_virt root)) v write = user_ok G v write.
Proof.
  intros Hsys Hroot Hv. pose proof (walk_entries_spec s G l root v Hsys Hroot Hv) as Hw.
  unfold walk_entries in Hw. unfold user_page_ok, user_ok. cbn [pml4]. cbv zeta in Hw.
  assert (flags : forall e q, table_entry e q -> tst e PAGE_PRESENT = true /\
    tst e PAGE_USER = true /\ tst e PAGE_RW = true) by (unfold table_entry; tauto).
  destruct (leaves G !! path v) as [e|].
  - destruct Hw as ([q1 H1] & [q2 H2] & [q3 H3] & He & Hpr).
    apply flags in H1 as (-> & -> & ->), H2 as (-> & -> & ->), H3 as (-> & -> & ->).
    rewrite He, Hpr, !andb_false_r. simpl.
    destruct (tst e PAGE_USER), write, (tst e PAGE_RW); done.
  - destruct Hw as [A | [[q1 H1] [A | [[q2 H2] [A | [[q3 H3] A]]]]]]; [by rewrite A|..].
    all: apply flags in H1 as (-> & -> & ->); rewrite andb_false_r; simpl; try by rewrite A.
    all: apply flags in H2 as (-> & -> & ->); rewrite andb_false_r; simpl; try by rewrite A.
    apply flags in H3 as (-> & -> & ->). rewrite andb_false_r. simpl. by rewrite A.
Qed.

(** The translation the processor makes of a user address for 4 KiB pages. *)
Definition hw_leaf (m : mem) (t v : Z) : option Z :=
  let next e k := if tst e PAGE_PRESENT && negb (tst e PAGE_HUGE) then k (table_of_dyn e) else None in
  next (ld64 m (t + 8 * pt_index v 39)) (fun t =>
  next (ld64 m (t + 8 * pt_index v 30)) (fun t =>
  next (ld64 m (t + 8 * pt_index v 21)) (fun t =>
    let e := ld64 m (t + 8 * pt_index v 12) in if tst e PAGE_PRESENT then Some e else None))).

Definition hw_translate (m : mem) (t v : Z) : option Z :=
  (fun e => Z.land e ENTRY_ADDR_MASK + v mod PAGE_SIZE) <$> hw_leaf m t v.

Lemma hw_leaf_spec s G l root v :
  sys s G l -> tabs G !! [] = Some root -> 0 <= v < USER_SPACE_END ->
  hw_leaf (fa_mem s) (phys_to_virt root) v = leaves G !! path v.
Proof.
  intros Hsys Hroot Hv. pose proof (walk_entries_spec s G l root v Hsys Hroot Hv) as Hw.
  unfold walk_entries in Hw. unfold hw_leaf. cbv zeta in *.
  assert (flags : forall e q, table_entry e q -> tst e PAGE_PRESENT = true /\ tst e PAGE_HUGE = false)
    by (unfold table_entry; tauto).
  destruct (leaves G !! path v) as [e|].
  - destruct Hw as ([q1 H1] & [q2 H2] & [q3 H3] & He & Hpr).
    apply flags in H1 as (-> & ->), H2 as (-> & ->), H3 as (-> & ->). simpl. by rewrite He, Hpr.
  - destruct Hw as [A | [[q1 H1] [A | [[q2 H2] [A | [[q3 H3] A]]]]]]; [by rewrite A|..].
    all: apply flags in H1 as (-> & ->); simpl; try by rewrite A.
    all: apply flags in H2 as (-> & ->); simpl; try by rewrite A.
    apply flags in H3 as (-> & ->). simpl. by rewrite A.
Qed.

Lemma user_ok_page G a b write : page_of a = page_of b -> user_ok G a write = user_ok G b write.
Proof. unfold user_ok. intros Hp. by rewrite <- (path_page_of a), Hp, path_page_of. Qed.

Lemma page_of_aligned p a : p mod PAGE_SIZE = 0 -> p <= a < p + PAGE_SIZE -> page_of a = p.
Proof.
  unfold page_of, PAGE_SIZE. intros Hp Ha.
  pose proof (Z.div_mod p 4096 ltac:(lia)).
  replace (a mod 4096) with (a - p); [lia|]. apply (Z.mod_unique_pos _ _ (p / 4096)); lia.
Qed.

Lemma user_range_loop_spec s G l root fuel page end_ write :
  sys s G l -> tabs G !! [] = Some root ->
  0 <= page -> page mod PAGE_SIZE = 0 -> end_ <= USER_SPACE_END ->
  end_ - page <= PAGE_SIZE * Z.of_nat fuel ->
  user_range_loop fuel (fa_mem s) (mk_as (phys_to_virt root)) page end_ write = true <->
  forall a, page <= a < end_ -> user_ok G a write = true.
Proof.
  intros Hsys Hroot. revert page. induction fuel as [|fuel IH]; intros page Hpos Hal Hend Hfuel.
  - split; [|done]. intros _ a Ha. lia.
  - cbn [user_range_loop]. case_if; [|split; [|done]; intros _ a Ha; lia].
    rewrite (user_page_ok_spec s G l) by (try done; lia).
    unfold USER_SPACE_END in *. change PAGE_SIZE with 4096 in *.
    rewrite uw_small by lia. case_if.
    + split; [done|]. intros Ha. rewrite (Ha page) in E0; [done|lia].
    + rewrite IH; [| lia| |done|lia].
      2:{ rewrite <- Z.add_mod_idemp_l, Hal by lia. done. }
      split; intros Ha a Hr; [|apply Ha; lia].
      destruct (Z.lt_ge_cases a (page + 4096)); [|apply Ha; lia].
      rewrite (user_ok_page G a page); [done|].
      rewrite !(page_of_aligned page) by (unfold PAGE_SIZE; done || lia). done.
Qed.

Lemma is_user_range_spec s G l root virt len write :
  sys s G l -> tabs G !! [] = Some root -> word virt -> word len ->
  paging_is_user_range (fa_mem s) (Some (mk_as (phys_to_virt root))) virt len write = true <->
  len = 0 \/ (virt + len <= USER_SPACE_END /\
    forall a, virt <= a < virt + len -> user_ok G a write = true).
Proof.
  intros Hsys Hroot Hv Hl. unfold paging_is_user_range. cbn [pml4].
  rewrite (root_nonzero s G l root) by done. unfold word in *.
  case_if; [tauto|]. unfold USER_SPACE_END in *.
  destruct (Z.lt_ge_cases (virt + len) (2 ^ 64)); cycle 1.
  { assert (He : u64 (virt + len) = virt + len - 2 ^ 64)
      by (symmetry; apply (Z.mod_unique_pos _ _ 1); lia).
    rewrite He. case_if; lia. }
  rewrite uw_small by lia. case_if; [lia|]. case_if; [lia|].
  change (PAGE_SIZE - 1) with 4095. rewrite land_unot_page by lia.
  pose proof (Z.mod_pos_bound virt 4096 ltac:(lia)).
  pose proof (Z.div_mod virt 4096 ltac:(lia)).
  assert (Hal : (virt - virt mod 4096) mod 4096 = 0).
  { replace (virt - virt mod 4096) with (virt / 4096 * 4096) by lia. apply Z.mod_mul. lia. }
  rewrite (user_range_loop_spec s G l); unfold PAGE_SIZE, USER_SPACE_END; try done; try lia.
  split.
  - intros Ha. right. split; [lia|]. intros a Hr. apply Ha. lia.
  - intros [?|[_ Ha]]; [lia|]. intros a Hr. destruct (Z.lt_ge_cases a virt); [|apply Ha; lia].
    rewrite (user_ok_page G a virt); [apply Ha; lia|].
    rewrite !(page_of_aligned (virt - virt mod 4096)); unfold PAGE_SIZE; done || lia.
Qed.
End ops.
