(* ===== verification/PagingBoot.v ===== *)
(** * The tables the kernel runs on: the static half of
    [nxkernel/kernel/paging/paging.c]

    [paging_init] builds, in a pool inside the kernel image, the direct map of
    the physical memory and the map of the image.  A table is 512 eight-byte
    entries of memory, at its address in the image; the pool, the symbols of
    the linker script and [cpuid] are parameters. *)

From S2P Require Import Prelude Types Loops Mem Memory BootInfo FrameAlloc Pfa Paging PagingSpec AddrSpace.

(** [PAGE_SIZE_2M]: nxkernel/kernel/paging/paging.h:33-33 *)
Definition PAGE_SIZE_2M : Z := 0x200000.
(** [HHDM_MIN_LIMIT]: nxkernel/kernel/paging/paging.c:26-26 *)
Definition HHDM_MIN_LIMIT : Z := 0x100000000.
(** [HHDM_MAX_LIMIT]: nxkernel/kernel/paging/paging.c:27-27 *)
Definition HHDM_MAX_LIMIT : Z := 0x1000000000.
(** [PDPT_SPAN_LIMIT]: nxkernel/kernel/paging/paging.c:28-28 *)
Definition PDPT_SPAN_LIMIT : Z := 0x8000000000.
(** [KERNEL_PDPT_INDEX]: nxkernel/kernel/paging/paging.c:31-31 *)
Definition KERNEL_PDPT_INDEX : Z := 510.
(** [EFER_NXE]: nxkernel/kernel/paging/paging.c:35-35 *)
Definition EFER_NXE : Z := Z.shiftl 1 11.
(** [CR0_WP]: nxkernel/kernel/paging/paging.c:36-36 *)
Definition CR0_WP : Z := Z.shiftl 1 16.
(** [CR4_SMEP]: nxkernel/kernel/paging/paging.c:37-37 *)
Definition CR4_SMEP : Z := Z.shiftl 1 20.
(** [PAGING_POOL_PAGES]: nxkernel/kernel/paging/paging.c:40-40 *)
Definition PAGING_POOL_PAGES : Z := 320.

(** The symbols of [linker64.lds] and [boot.s], and the address of [g_pool]. *)
(** [symbols]: nxkernel/kernel/paging/paging.c:14-21 *)
Record symbols := mk_symbols {
  boot_start : Z;
  text_start : Z;
  text_end : Z;
  rodata_start : Z;
  rodata_end : Z;
  data_start : Z;
  kernel_end : Z;
  boot_stack_guard : Z;
  g_pool : Z;
}.

(** The file's variables and memory; [printed] holds the addresses that the
    message on memory above 64 GiB was printed with. *)
(** [boot]: nxkernel/kernel/paging/paging.c:43-50 *)
Record boot := mk_boot {
  b_mem : mem;
  g_pool_used : Z;
  b_pml4 : Z;
  g_pdpt_hhdm : Z;
  g_pd_kernel : Z;
  b_nx_supported : bool;
  g_smep_supported : bool;
  g_hhdm_limit : Z;
  printed : list Z;
}.

Definition with_bmem m s : boot :=
  mk_boot m (g_pool_used s) (b_pml4 s) (g_pdpt_hhdm s) (g_pd_kernel s) (b_nx_supported s) (g_smep_supported s) (g_hhdm_limit s) (printed s).
Definition with_used n s : boot :=
  mk_boot (b_mem s) n (b_pml4 s) (g_pdpt_hhdm s) (g_pd_kernel s) (b_nx_supported s) (g_smep_supported s) (g_hhdm_limit s) (printed s).
Definition with_tables p h k s : boot :=
  mk_boot (b_mem s) (g_pool_used s) p h k (b_nx_supported s) (g_smep_supported s) (g_hhdm_limit s) (printed s).
Definition with_features nx smep s : boot :=
  mk_boot (b_mem s) (g_pool_used s) (b_pml4 s) (g_pdpt_hhdm s) (g_pd_kernel s) nx smep (g_hhdm_limit s) (printed s).
Definition with_limit l s : boot :=
  mk_boot (b_mem s) (g_pool_used s) (b_pml4 s) (g_pdpt_hhdm s) (g_pd_kernel s) (b_nx_supported s) (g_smep_supported s) l (printed s).
Definition print_limit l s : boot :=
  mk_boot (b_mem s) (g_pool_used s) (b_pml4 s) (g_pdpt_hhdm s) (g_pd_kernel s) (b_nx_supported s) (g_smep_supported s) (g_hhdm_limit s) (l :: printed s).

(** [align_up]: nxkernel/kernel/paging/paging.c:112-115 *)
Definition align_up (v a : Z) : Z := Z.land (u64 (u64 (v + a) - 1)) (unot 64 (u64 (a - 1))).
(** [align_down]: nxkernel/kernel/paging/paging.c:117-120 *)
Definition align_down (v a : Z) : Z := Z.land v (unot 64 (u64 (a - 1))).

(** [table_of]: nxkernel/kernel/paging/paging.c:79-82 *)
Definition table_of (entry : Z) : Z := u64 (Z.land entry ENTRY_ADDR_MASK + KERNEL_VMA_BASE).
(** [table_phys]: nxkernel/kernel/paging/paging.c:84-87 *)
Definition table_phys (table : Z) : Z := virt_to_phys table.

(** [table[idx]], and an assignment to it. *)
Definition rd (table idx : Z) s : Z := ld64 (b_mem s) (table + 8 * idx).
Definition wr (table idx v : Z) s : boot := with_bmem (st64 (table + 8 * idx) v (b_mem s)) s.

(** [for (a = lo; a < hi; a += st)], with a body that may return. *)
Definition for_addr (lo hi st : Z) (body : Z -> ST boot (res unit)) : ST boot (res unit) :=
  run (Err Ntimeout) (fun a s =>
    if a <? hi then
      match body a s with
      | (Ok _, s) => (inl (u64 (a + st)), s)
      | (Err e, s) => (inr (Err e), s)
      end
    else (inr (Ok tt), s)) lo.

Section init.
Context (cpuid_count : Z -> Z -> Z * Z * Z * Z) (y : symbols).
Implicit Types s : boot.

(** [nx_bit]: nxkernel/kernel/paging/paging.c:56-59 *)
Definition nx_bit s : Z := if b_nx_supported s then PAGE_NX else 0.

(** [alloc_table]: nxkernel/kernel/paging/paging.c:62-72 *)
Definition alloc_table : ST boot (option Z) := fun s =>
  if PAGING_POOL_PAGES <=? g_pool_used s then (None, s)
  else
    let table := g_pool y + g_pool_used s * PAGE_SIZE in
    (Some table, with_bmem (memset table 0 PAGE_SIZE (b_mem s)) (with_used (g_pool_used s + 1) s)).

(** [detect_cpu_features]: nxkernel/kernel/paging/paging.c:90-110 *)
Definition detect_cpu_features s : boot :=
  let '(a, _, _, _) := cpuid_count 0x80000000 0 in
  let nx :=
    if 0x80000001 <=? a then
      let '(_, _, _, d) := cpuid_count 0x80000001 0 in tst d (Z.shiftl 1 20)
    else false in
  let '(a, _, _, _) := cpuid_count 0 0 in
  let smep :=
    if 7 <=? a then
      let '(_, b, _, _) := cpuid_count 7 0 in tst b (Z.shiftl 1 7)
    else false in
  with_features nx smep s.

(** [hhdm_pd]: nxkernel/kernel/paging/paging.c:127-141 *)
Definition hhdm_pd (pdpt_idx : Z) : ST boot (option Z) := fun s =>
  let entry := rd (g_pdpt_hhdm s) pdpt_idx s in
  if tst entry PAGE_PRESENT then (Some (table_of entry), s)
  else
    match alloc_table s with
    | (None, s) => (None, s)
    | (Some pd, s) => (Some pd, wr (g_pdpt_hhdm s) pdpt_idx (Z.lor (Z.lor (table_phys pd) PAGE_PRESENT) PAGE_RW) s)
    end.

(** [map_hhdm_2m, one step]: nxkernel/kernel/paging/paging.c:152-159 *)
Definition map_hhdm_one (addr : Z) : ST boot (res unit) :=
  pd <-o{NoutOfMemory} hhdm_pd (pt_index addr 30) ;;
  fun s =>
    (Ok tt, if negb (tst (rd pd (pt_index addr 21) s) PAGE_PRESENT)
            then wr pd (pt_index addr 21) (Z.lor (Z.lor (Z.lor (Z.lor addr PAGE_PRESENT) PAGE_RW) PAGE_HUGE) (nx_bit s)) s
            else s).

(** [map_hhdm_2m]: nxkernel/kernel/paging/paging.c:144-163 *)
Definition map_hhdm_2m (start end_ : Z) : ST boot (res unit) :=
  if PDPT_SPAN_LIMIT <? end_ then fail Nunsupported
  else for_addr (align_down start PAGE_SIZE_2M) end_ PAGE_SIZE_2M map_hhdm_one.

(** [hhdm_pt_for]: nxkernel/kernel/paging/paging.c:166-192 *)
Definition hhdm_pt_for (addr : Z) : ST boot (option Z) := fun s =>
  match hhdm_pd (pt_index addr 30) s with
  | (None, s) => (None, s)
  | (Some pd, s) =>
      let pde := rd pd (pt_index addr 21) s in
      if tst pde PAGE_PRESENT && negb (tst pde PAGE_HUGE) then (Some (table_of pde), s)
      else
        match alloc_table s with
        | (None, s) => (None, s)
        | (Some pt, s) =>
            let base := align_down addr PAGE_SIZE_2M in
            let s := for_range 0 ENTRIES_PER_TABLE (fun i s =>
              wr pt i (Z.lor (Z.lor (Z.lor (u64 (base + i * PAGE_SIZE)) PAGE_PRESENT) PAGE_RW) (nx_bit s)) s) s in
            (Some pt, wr pd (pt_index addr 21) (Z.lor (Z.lor (table_phys pt) PAGE_PRESENT) PAGE_RW) s)
        end
  end.

(** [hhdm_make_readonly]: nxkernel/kernel/paging/paging.c:195-209 *)
Definition hhdm_make_readonly (start end_ : Z) : ST boot (res unit) :=
  for_addr (align_down start PAGE_SIZE) end_ PAGE_SIZE (fun addr =>
    pt <-o{NoutOfMemory} hhdm_pt_for addr ;;
    fun s => (Ok tt, wr pt (Z.land (Z.shiftr addr 12) 0x1FF) (Z.lor (Z.lor addr PAGE_PRESENT) (nx_bit s)) s)).

(** [map_kernel_page]: nxkernel/kernel/paging/paging.c:216-233 *)
Definition map_kernel_page (virt flags : Z) : ST boot (res unit) := fun s =>
  let phys := u64 (virt - KERNEL_VMA_BASE) in
  let pd_idx := pt_index phys 21 in
  let entry := rd (g_pd_kernel s) pd_idx s in
  (pt <-o{NoutOfMemory} (fun s =>
     if negb (tst entry PAGE_PRESENT) then
       match alloc_table s with
       | (None, s) => (None, s)
       | (Some pt, s) => (Some pt, wr (g_pd_kernel s) pd_idx (Z.lor (Z.lor (table_phys pt) PAGE_PRESENT) PAGE_RW) s)
       end
     else (Some (table_of entry), s)) ;;
   fun s => (Ok tt, wr pt (pt_index virt 12) (Z.lor (Z.lor phys flags) PAGE_PRESENT) s)) s.

(** [map_kernel_image]: nxkernel/kernel/paging/paging.c:235-266 *)
Definition map_kernel_image : ST boot (res unit) := fun s =>
  let nx := nx_bit s in
  (_ <-? for_addr (text_start y) (text_end y) PAGE_SIZE (fun v => map_kernel_page v 0) ;;
   _ <-? for_addr (rodata_start y) (rodata_end y) PAGE_SIZE (fun v => map_kernel_page v nx) ;;
   for_addr (data_start y) (align_up (kernel_end y) PAGE_SIZE) PAGE_SIZE (fun v =>
     if v =? boot_stack_guard y then ok tt else map_kernel_page v (Z.lor PAGE_RW nx))) s.

(** The memory types that are not RAM. *)
(** [not_ram]: nxkernel/kernel/paging/paging.c:305-308 *)
Definition not_ram (d : ntbli_memdesc_t) : bool :=
  (md_type d =? NTBLI_MEM_MMIO) || (md_type d =? NTBLI_MEM_MMIO_PORT) || (md_type d =? NTBLI_MEM_RESERVED) ||
  (md_type d =? NTBLI_MEM_UNUSABLE) || (md_type d =? NTBLI_MEM_PAL_CODE).

(** The end of the highest RAM, at least [limit]. *)
(** [ram_limit]: nxkernel/kernel/paging/paging.c:296-318 *)
Fixpoint ram_limit (m : mem) (info : NTBLI) (idx : list Z) (limit : Z) : Z :=
  match idx with
  | [] => limit
  | i :: idx =>
      match ntbli_memmap_at m info i with
      | None => limit
      | Some d =>
          if not_ram d then ram_limit m info idx limit
          else if 0x1000000000000 / NTBLI_PAGE_SIZE <? md_num_pages d then ram_limit m info idx limit
          else
            let end_ := u64 (md_phys_start d + md_num_pages d * NTBLI_PAGE_SIZE) in
            if end_ <? md_phys_start d then ram_limit m info idx limit
            else ram_limit m info idx (if limit <? end_ then end_ else limit)
      end
  end.

(** The four top tables. *)
(** [top_tables]: nxkernel/kernel/paging/paging.c:285-295 *)
Definition top_tables : ST boot (res unit) := fun s =>
  let '(pml4, s) := alloc_table (with_used 0 s) in
  let '(pdpt_hhdm, s) := alloc_table s in
  let '(pdpt_kernel, s) := alloc_table s in
  let '(pd_kernel, s) := alloc_table s in
  let s := with_tables (default 0 pml4) (default 0 pdpt_hhdm) (default 0 pd_kernel) s in
  match pml4, pdpt_hhdm, pdpt_kernel, pd_kernel with
  | Some pml4, Some pdpt_hhdm, Some pdpt_kernel, Some pd_kernel =>
      let s := wr pml4 HHDM_PML4_INDEX (Z.lor (Z.lor (table_phys pdpt_hhdm) PAGE_PRESENT) PAGE_RW) s in
      let s := wr pml4 KERNEL_PML4_INDEX (Z.lor (Z.lor (table_phys pdpt_kernel) PAGE_PRESENT) PAGE_RW) s in
      let s := wr pdpt_kernel KERNEL_PDPT_INDEX (Z.lor (Z.lor (table_phys pd_kernel) PAGE_PRESENT) PAGE_RW) s in
      (Ok tt, s)
  | _, _, _, _ => (Err NoutOfMemory, s)
  end.

(** The limit of the direct map. *)
(** [set_limit]: nxkernel/kernel/paging/paging.c:296-325 *)
Definition set_limit (info : NTBLI) s : boot :=
  let limit := ram_limit (b_mem s) info (seqZ 0 (ntbli_memmap_count info)) HHDM_MIN_LIMIT in
  let '(limit, s) := if HHDM_MAX_LIMIT <? limit then (HHDM_MAX_LIMIT, print_limit limit s) else (limit, s) in
  with_limit (align_up limit PAGE_SIZE_2M) s.

(** [map_framebuffer]: nxkernel/kernel/paging/paging.c:331-341 *)
Definition map_framebuffer (info : NTBLI) : ST boot (res unit) := fun s =>
  if negb (framebuffer_base info =? 0) && negb (framebuffer_size info =? 0) then
    let fb := framebuffer_base info in
    let fb_end := u64 (fb + framebuffer_size info) in
    if (fb <? fb_end) && (g_hhdm_limit s <? fb_end)
    then map_hhdm_2m (align_down fb PAGE_SIZE_2M) (align_up fb_end PAGE_SIZE_2M) s
    else (Ok tt, s)
  else (Ok tt, s).

(** [paging_init]: nxkernel/kernel/paging/paging.c:272-350 *)
Definition paging_init (info : option NTBLI) : ST boot (res unit) := fun s =>
  match info with
  | None => (Err NinvalidArg, s)
  | Some info =>
      (_ <-? top_tables ;;
       fun s =>
         let s := set_limit info s in
         (_ <-? map_hhdm_2m 0 (g_hhdm_limit s) ;;
          _ <-? map_framebuffer info ;;
          _ <-? hhdm_make_readonly (boot_start y) (align_up (u64 (kernel_end y - KERNEL_VMA_BASE)) PAGE_SIZE) ;;
          map_kernel_image) s) (detect_cpu_features s)
  end.
End init.

(** The control registers. *)
Record cpu := mk_cpu { msr_efer : Z; cr0 : Z; cr4 : Z; cr3 : Z }.

(** [paging_enable]: nxkernel/kernel/paging/paging.c:352-369 *)
Definition paging_enable (s : boot) (c : cpu) : cpu :=
  let efer := if b_nx_supported s then Z.lor (msr_efer c) EFER_NXE else msr_efer c in
  mk_cpu efer (Z.lor (cr0 c) CR0_WP) (if g_smep_supported s then Z.lor (cr4 c) CR4_SMEP else cr4 c) (table_phys (b_pml4 s)).

(** [paging_hhdm_limit]: nxkernel/kernel/paging/paging.c:371-374 *)
Definition paging_hhdm_limit (s : boot) : Z := g_hhdm_limit s.
(** [paging_kernel_cr3]: nxkernel/kernel/paging/paging.c:376-379 *)
Definition paging_kernel_cr3 (s : boot) : Z := table_phys (b_pml4 s).
(** [paging_kernel_addrspace]: nxkernel/kernel/paging/paging.c:381-387 *)
Definition paging_kernel_addrspace (s : boot) : addr_space_t := mk_as (b_pml4 s).

(** ** Addresses *)

Lemma align_down_eq v k : 0 <= v < 2 ^ 64 -> 0 <= k < 64 -> align_down v (2 ^ k) = v - v mod 2 ^ k.
Proof.
  intros Hv Hk. unfold align_down. rewrite (uw_small 64); [by apply align_down_pow2; lia|].
  pose proof (Z.pow_pos_nonneg 2 k ltac:(lia) ltac:(lia)). pose proof (Z.pow_lt_mono_r 2 k 64 ltac:(lia) ltac:(lia) ltac:(lia)). lia.
Qed.

Lemma align_up_eq v k : 0 <= k < 64 -> 0 <= v -> v + 2 ^ k < 2 ^ 64 ->
  align_up v (2 ^ k) = (v + 2 ^ k - 1) - (v + 2 ^ k - 1) mod 2 ^ k.
Proof.
  intros Hk Hv Hl. pose proof (Z.pow_pos_nonneg 2 k ltac:(lia) ltac:(lia)). unfold align_up.
  rewrite (uw_small 64 (v + _)), (uw_small 64 (v + 2 ^ k - 1)) by lia. by apply (align_down_eq (v + 2 ^ k - 1) k); lia.
Qed.

Lemma align_down_aligned v k : 0 <= v < 2 ^ 64 -> 0 <= k < 64 -> v mod 2 ^ k = 0 -> align_down v (2 ^ k) = v.
Proof. intros Hv Hk Ha. rewrite align_down_eq by done. lia. Qed.

Lemma align_up_spec v k : 0 <= k < 64 -> 0 <= v -> v + 2 ^ k < 2 ^ 64 ->
  v <= align_up v (2 ^ k) < v + 2 ^ k /\ align_up v (2 ^ k) mod 2 ^ k = 0.
Proof.
  intros Hk Hv Hl. pose proof (Z.pow_pos_nonneg 2 k ltac:(lia) ltac:(lia)) as Hp. rewrite align_up_eq by done.
  pose proof (Z.mod_pos_bound (v + 2 ^ k - 1) (2 ^ k) Hp). split; [lia|]. by rewrite Zminus_mod_idemp_r, Z.sub_diag, Z.mod_0_l by lia.
Qed.

(** ** The kernel's address space, as the processor sees it *)

(** What an access at an address reaches: the physical byte, and whether it may
    be written, executed, and used by a program. *)
Record access := mk_access { a_phys : Z; a_write : bool; a_exec : bool; a_user : bool }.

(** The walk through the levels [shs] of the tables at [t]; an entry of a
    large page ends it early. *)
Fixpoint kwalk (m : mem) (shs : list Z) (t v : Z) (w x u : bool) : option access :=
  match shs with
  | [] => None
  | sh :: shs =>
      let e := ld64 m (t + 8 * pt_index v sh) in
      let w := w && tst e PAGE_RW in
      let x := x && negb (tst e PAGE_NX) in
      let u := u && tst e PAGE_USER in
      if negb (tst e PAGE_PRESENT) then None
      else if (sh =? 12) || tst e PAGE_HUGE then Some (mk_access (Z.land e ENTRY_ADDR_MASK + v mod 2 ^ sh) w x u)
      else kwalk m shs (table_of e) v w x u
  end.
Definition kernel_translate (m : mem) (root v : Z) : option access := kwalk m [39; 30; 21; 12] root v true true true.

(** ** The abstract tables *)

Section tables.
Context (y : symbols) (nx : bool).
Context (Hpool : KERNEL_VMA_BASE <= g_pool y /\ g_pool y + PAGING_POOL_PAGES * 4096 <= 2 ^ 64 /\ g_pool y mod 4096 = 0).
Implicit Types s : boot.

(** The page [i] of the pool, and the entry that leads to it. *)
Definition tbl (i : Z) : Z := g_pool y + i * PAGE_SIZE.
Definition link (i : Z) : Z := Z.lor (tbl i - KERNEL_VMA_BASE) 3.
Definition nxv : Z := if nx then PAGE_NX else 0.

Definition in_pool (i : Z) : Prop := 0 <= i < PAGING_POOL_PAGES.

Lemma tbl_range i : in_pool i -> KERNEL_VMA_BASE <= tbl i /\ tbl i + 4096 <= 2 ^ 64 /\ tbl i mod 4096 = 0.
Proof.
  unfold in_pool, tbl, PAGING_POOL_PAGES, PAGE_SIZE in *. intros Hi. split; [lia|]. split; [lia|].
  rewrite Z.mod_add by lia. tauto.
Qed.

Lemma tbl_phys i : in_pool i -> table_phys (tbl i) = tbl i - KERNEL_VMA_BASE /\ phys_ok (tbl i - KERNEL_VMA_BASE).
Proof.
  intros Hi. destruct (tbl_range i Hi) as (H1 & H2 & H3). unfold table_phys, virt_to_phys, phys_ok, KERNEL_VMA_BASE in *.
  rewrite (uw_small 64 (tbl i)) by lia. case_if; [|lia]. rewrite uw_small by lia. split; [done|]. split; [lia|].
  rewrite Zminus_mod, H3. done.
Qed.

Lemma tables_apart i j a b : in_pool i -> in_pool j -> 0 <= a < 512 -> 0 <= b < 512 -> (i, a) <> (j, b) ->
  tbl i + 8 * a + 8 <= tbl j + 8 * b \/ tbl j + 8 * b + 8 <= tbl i + 8 * a.
Proof. unfold tbl, PAGE_SIZE, in_pool. intros ?? ?? Hne. destruct (Z.eq_dec i j); [subst; assert (a <> b) by congruence|]; lia. Qed.

Lemma link_written i : in_pool i -> Z.lor (Z.lor (table_phys (tbl i)) PAGE_PRESENT) PAGE_RW = link i.
Proof. intros Hi. destruct (tbl_phys i Hi) as [-> _]. by rewrite <- Z.lor_assoc. Qed.

Lemma entry_flags p f : phys_ok p -> tst (Z.lor p f) PAGE_PRESENT = tst f PAGE_PRESENT /\ tst (Z.lor p f) PAGE_RW = tst f PAGE_RW /\
  tst (Z.lor p f) PAGE_USER = tst f PAGE_USER /\ tst (Z.lor p f) PAGE_HUGE = tst f PAGE_HUGE /\ tst (Z.lor p f) PAGE_NX = tst f PAGE_NX.
Proof.
  intros Hp. split_and!; [apply (entry_flag p f 0)|apply (entry_flag p f 1)|apply (entry_flag p f 2)|apply (entry_flag p f 7)|apply (entry_flag p f 63)]; done || lia.
Qed.

Lemma link_flags i : in_pool i -> tst (link i) PAGE_PRESENT = true /\ tst (link i) PAGE_RW = true /\ tst (link i) PAGE_USER = false /\
  tst (link i) PAGE_HUGE = false /\ tst (link i) PAGE_NX = false.
Proof. intros Hi. destruct (tbl_phys i Hi) as [_ Hp]. unfold link. destruct (entry_flags _ 3 Hp) as (-> & -> & -> & -> & ->). done. Qed.

Lemma link_table i : in_pool i -> table_of (link i) = tbl i.
Proof.
  intros Hi. destruct (tbl_phys i Hi) as [_ Hp]. unfold table_of, link. rewrite entry_addr by done.
  destruct (tbl_range i Hi). rewrite uw_small by (unfold KERNEL_VMA_BASE in *; lia). lia.
Qed.

Lemma link_range i : in_pool i -> 0 <= link i < 2 ^ 64.
Proof.
  intros Hi. destruct (tbl_phys i Hi) as [_ [Hp _]]. apply lor_range; [lia| |lia]. unfold phys_ok in *. lia.
Qed.

(** Which table is where in the pool, by its role: a level and a number.
    (0,0): the top; (1,0), (2,0): its tables for the direct map and the image;
    (3,0): the image's directory; (4,a): the directory of gigabyte [a] of
    memory; (5,r): the table of its two-megabyte region [r]; (6,d): the table
    of region [d] of the image. *)
Abbreviation role := (Z * Z)%type.

(** Beside the roles: the regions mapped by large pages or a table, the pages
    made read-only, and the flags of the image's pages. *)
Record tabs := mk_tabs { t_at : gmap role Z; t_big : gset Z; t_ro : gset Z; t_image : gmap Z Z }.
Implicit Types (A : tabs) (q : role).

(** The role an entry leads to. *)
Definition child q (j : Z) : option role :=
  let '(k, x) := q in
  if k =? 0 then (if j =? 256 then Some (1, 0) else if j =? 511 then Some (2, 0) else None)
  else if k =? 1 then Some (4, j)
  else if k =? 2 then (if j =? 510 then Some (3, 0) else None)
  else if k =? 3 then Some (6, j)
  else if k =? 4 then Some (5, 512 * x + j)
  else None.

(** The entry where it leads to no table. *)
Definition leaf A q (j : Z) : Z :=
  let '(k, x) := q in
  let n := 512 * x + j in
  if k =? 4 then (if decide (n ∈ t_big A) then Z.lor (n * PAGE_SIZE_2M) (Z.lor 0x83 nxv) else 0)
  else if k =? 5 then Z.lor (n * PAGE_SIZE) (if decide (n ∈ t_ro A) then Z.lor 1 nxv else Z.lor 3 nxv)
  else if k =? 6 then (match t_image A !! n with Some f => Z.lor (n * PAGE_SIZE) (Z.lor f 1) | None => 0 end)
  else 0.

Definition content A q (j : Z) : Z :=
  match child q j with
  | Some c => match t_at A !! c with Some i => link i | None => leaf A q j end
  | None => leaf A q j
  end.

Definition role_ok A q : Prop :=
  let '(k, x) := q in
  0 <= k <= 3 /\ x = 0 \/ k = 4 /\ 0 <= x < 512 \/ k = 5 /\ 0 <= x < 2 ^ 18 /\ x ∈ t_big A \/ k = 6 /\ 0 <= x < 512.

Definition image_flags (f : Z) : Prop := f = 0 \/ f = nxv \/ f = Z.lor PAGE_RW nxv.

Record valid A : Prop := {
  v_top : t_at A !! (0, 0) = Some 0 /\ t_at A !! (1, 0) = Some 1 /\ t_at A !! (2, 0) = Some 2 /\ t_at A !! (3, 0) = Some 3;
  v_role q i : t_at A !! q = Some i -> role_ok A q;
  v_big r : r ∈ t_big A -> 0 <= r < 2 ^ 18 /\ is_Some (t_at A !! (4, r / 512));
  v_ro n : n ∈ t_ro A -> is_Some (t_at A !! (5, n / 512));
  v_image n f : t_image A !! n = Some f -> 0 <= n < 2 ^ 18 /\ image_flags f /\ is_Some (t_at A !! (6, n / 512));
}.

Context (allowed : gset role) (Hallowed : (base.size allowed <= Z.to_nat PAGING_POOL_PAGES)%nat).

Record rep A s : Prop := {
  r_valid : valid A;
  r_used : g_pool_used s = Z.of_nat (base.size (t_at A));
  r_allowed : dom (t_at A) ⊆ allowed;
  r_nx : b_nx_supported s = nx;
  r_regs : b_pml4 s = tbl 0 /\ g_pdpt_hhdm s = tbl 1 /\ g_pd_kernel s = tbl 3;
  r_inj q q' i : t_at A !! q = Some i -> t_at A !! q' = Some i -> q = q';
  r_range q i : t_at A !! q = Some i -> 0 <= i < g_pool_used s;
  r_entry q i j : t_at A !! q = Some i -> 0 <= j < 512 -> rd (tbl i) j s = content A q j;
}.

Lemma used_range A s : rep A s -> 0 <= g_pool_used s <= PAGING_POOL_PAGES.
Proof.
  intros H. rewrite (r_used _ _ H). pose proof (subseteq_size _ _ (r_allowed _ _ H)) as Hs. rewrite size_dom in Hs.
  unfold PAGING_POOL_PAGES in *. lia.
Qed.

Lemma tab_in_pool A s q i : rep A s -> t_at A !! q = Some i -> in_pool i.
Proof. intros H Hq. pose proof (r_range _ _ H _ _ Hq). pose proof (used_range _ _ H). unfold in_pool. lia. Qed.

(** An entry has one place that leads to a role. *)
Lemma child_inj A q q' j j' c : role_ok A q -> role_ok A q' -> 0 <= j < 512 -> 0 <= j' < 512 ->
  child q j = Some c -> child q' j' = Some c -> (q, j) = (q', j').
Proof.
  destruct q as [k x], q' as [k' x']. unfold role_ok, child. intros Hq Hq' Hj Hj'.
  repeat case_if; intros; simplify_eq; try lia; repeat f_equal; lia.
Qed.

Lemma entry_div x j : 0 <= j < 512 -> (512 * x + j) / 512 = x.
Proof. intros Hj. symmetry. by apply (Z.div_unique _ 512 x j); [left|]. Qed.
Lemma entry_mod x j : 0 <= j < 512 -> (512 * x + j) mod 512 = j.
Proof. intros Hj. symmetry. by apply (Z.mod_unique _ 512 x j); [left|]. Qed.

(** ** Writing an entry *)

(** Memory outside the pool is as it was. *)
Definition outside (m m' : mem) : Prop := forall a, ~ (g_pool y <= a < g_pool y + PAGING_POOL_PAGES * 4096) -> ld8 m' a = ld8 m a.

Lemma outside_trans m1 m2 m3 : outside m1 m2 -> outside m2 m3 -> outside m1 m3.
Proof. intros H1 H2 a Ha. by rewrite H2, H1. Qed.

Lemma wr_outside i j v (s : boot) : in_pool i -> 0 <= j < 512 -> outside (b_mem s) (b_mem (wr (tbl i) j v s)).
Proof.
  intros Hi Hj a Ha. unfold wr. cbn [b_mem with_bmem]. rewrite ld8_stn. case_if; [|done]. exfalso. unfold in_pool, tbl, PAGING_POOL_PAGES, PAGE_SIZE in *. lia.
Qed.
(** The states differ in the memory of the pool and the number of tables used. *)
Definition like s s' : Prop :=
  b_pml4 s' = b_pml4 s /\ g_pdpt_hhdm s' = g_pdpt_hhdm s /\ g_pd_kernel s' = g_pd_kernel s /\ b_nx_supported s' = b_nx_supported s /\
  g_smep_supported s' = g_smep_supported s /\ g_hhdm_limit s' = g_hhdm_limit s /\ printed s' = printed s /\ outside (b_mem s) (b_mem s').

Lemma like_refl s : like s s.
Proof. by split_and!. Qed.
Lemma like_trans s1 s2 s3 : like s1 s2 -> like s2 s3 -> like s1 s3.
Proof. unfold like. intros H1 H2. decompose [and] H1. decompose [and] H2. split_and!; try congruence. by eapply outside_trans. Qed.

Lemma wr_like i j v s : in_pool i -> 0 <= j < 512 -> like s (wr (tbl i) j v s).
Proof. intros Hi Hj. split_and!; try done. by apply wr_outside. Qed.

Lemma rd_wr i j i' j' v s : in_pool i -> in_pool i' -> 0 <= j < 512 -> 0 <= j' < 512 -> 0 <= v < 2 ^ 64 ->
  rd (tbl i') j' (wr (tbl i) j v s) = if decide ((i', j') = (i, j)) then v else rd (tbl i') j' s.
Proof.
  intros Hi Hi' Hj Hj' Hv. unfold rd, wr. cbn [b_mem with_bmem]. case_decide as E.
  - injection E as -> ->. by apply ld64_st64_same.
  - apply ld64_st64_other. by apply tables_apart.
Qed.

Lemma rep_write A A' s q i j v : rep A s -> t_at A !! q = Some i -> 0 <= j < 512 -> 0 <= v < 2 ^ 64 ->
  t_at A' = t_at A -> valid A' -> content A' q j = v ->
  (forall q' j', role_ok A q' -> 0 <= j' < 512 -> (q', j') <> (q, j) -> content A' q' j' = content A q' j') -> rep A' (wr (tbl i) j v s).
Proof.
  intros H Hq Hj Hv Ht Hval Hc Hother. split; rewrite ?Ht; try apply H; [exact Hval|].
  intros q' i' j' Hq' Hj'. rewrite rd_wr by (done || by eapply tab_in_pool). case_decide as E.
  - injection E as -> ->. by rewrite (r_inj _ _ H _ _ _ Hq' Hq).
  - rewrite Hother, (r_entry _ _ H q' i' j' Hq' Hj'); [done|by eapply v_role, Hq'; apply H|done|].
    intros [= -> ->]. apply E. congruence.
Qed.
(** ** A new table *)

Lemma ld64_zero m a : (forall b, a <= b < a + 8 -> ld8 m b = 0) -> ld64 m a = 0.
Proof.
  intros H. rewrite (ldn_ext 8 m ∅ a); [done|]. intros b Hb. by rewrite H.
Qed.

Lemma alloc_outside (s : boot) t s' : 0 <= g_pool_used s -> alloc_table y s = (t, s') -> outside (b_mem s) (b_mem s') /\ g_pool_used s <= g_pool_used s'.
Proof.
  intros Hu. unfold alloc_table. case_if; intros; simplify_eq; [split; [by intros ??|lia]|]. cbn. split; [|lia].
  intros a Ha. pose proof (memset_upd (g_pool y + g_pool_used s * PAGE_SIZE) 0 PAGE_SIZE (b_mem s) ltac:(done) a) as ->. case_if; [|done].
  exfalso. unfold PAGING_POOL_PAGES, PAGE_SIZE in *. lia.
Qed.

Lemma alloc_spec s : 0 <= g_pool_used s < PAGING_POOL_PAGES ->
  let n := g_pool_used s in
  exists s', alloc_table y s = (Some (tbl n), s') /\ like s s' /\ g_pool_used s' = n + 1 /\
    (forall j, 0 <= j < 512 -> rd (tbl n) j s' = 0) /\
    (forall i j, in_pool i -> i <> n -> 0 <= j < 512 -> rd (tbl i) j s' = rd (tbl i) j s).
Proof.
  intros Hn n. pose proof (fun t s' => alloc_outside s t s' ltac:(lia)) as Ho. unfold alloc_table in Ho |- *. rewrite (proj2 (Z.leb_gt _ _)) in Ho |- * by lia.
  eexists. split; [reflexivity|]. split; [split_and!; try done; exact (proj1 (Ho _ _ eq_refl))|]. split; [done|].
  pose proof (memset_upd (tbl n) 0 PAGE_SIZE (b_mem s) ltac:(done)) as Hm. unfold mem_upd in Hm. change (u8 0) with 0 in Hm.
  unfold rd. cbn [b_mem with_bmem]. fold n. change (g_pool y + n * PAGE_SIZE) with (tbl n). unfold PAGE_SIZE in *. split.
  - intros j Hj. apply ld64_zero. intros b Hb. rewrite Hm. case_if; [done|lia].
  - intros i j Hi Hne Hj. apply ldn_ext. intros b Hb. rewrite Hm. case_if; [|done]. exfalso. unfold tbl, PAGE_SIZE in *. lia.
Qed.

Definition with_tab A (q : role) (i : Z) : tabs := mk_tabs (<[q := i]> (t_at A)) (t_big A) (t_ro A) (t_image A).

(** Only the entry that leads to the new table is new. *)
Lemma content_with_tab A q n q' j : content (with_tab A q n) q' j = if decide (child q' j = Some q) then link n else content A q' j.
Proof.
  unfold content. cbn [t_at with_tab]. case_decide as E; [by rewrite E, lookup_insert_eq|].
  destruct (child q' j) as [c|] eqn:Ec; [|by destruct q']. rewrite lookup_insert_ne by congruence. destruct (t_at A !! c); [done|by destruct q'].
Qed.

Lemma rep_new A s s' q p j : rep A s -> t_at A !! q = None -> q ∈ allowed -> role_ok A q -> 4 <= q.1 ->
  role_ok A p -> is_Some (t_at A !! p) -> 0 <= j < 512 -> child p j = Some q ->
  like s s' -> g_pool_used s' = g_pool_used s + 1 ->
  (forall i j', in_pool i -> i <> g_pool_used s -> 0 <= j' < 512 -> Some i <> t_at A !! p \/ j' <> j -> rd (tbl i) j' s' = rd (tbl i) j' s) ->
  (forall i, t_at A !! p = Some i -> rd (tbl i) j s' = link (g_pool_used s)) ->
  (forall j', 0 <= j' < 512 -> rd (tbl (g_pool_used s)) j' s' = leaf A q j') ->
  (forall j', 0 <= j' < 512 -> content A q j' = leaf A q j') ->
  rep (with_tab A q (g_pool_used s)) s'.
Proof.
  intros H Hq Hal Hrole Hk Hp [ip Hip] Hj Hc Hlike Hu Hold Hlink Hnew Hleaf. set (n := g_pool_used s) in *.
  pose proof (r_valid _ _ H) as Hv. pose proof Hlike as (L1 & L2 & L3 & L4 & _). pose proof (used_range _ _ H) as Hur.
  assert (Hnp : forall q', q' <> q -> t_at (with_tab A q n) !! q' = t_at A !! q') by (intros q' ?; cbn; by rewrite lookup_insert_ne).
  split.
  - split.
    + pose proof (v_top _ Hv). cbn. rewrite !lookup_insert_ne by (intros ->; cbn in Hk; lia). done.
    + intros q' i. cbn [t_at with_tab]. rewrite lookup_insert_Some. intros [(<- & _)|(_ & Hq')]; [by destruct q|]. pose proof (v_role _ Hv _ _ Hq'). by destruct q'.
    + intros r Hr. destruct (v_big _ Hv r Hr) as [? ?]. split; [done|]. cbn. apply lookup_insert_is_Some'. by right.
    + intros x Hx. pose proof (v_ro _ Hv x Hx). cbn. apply lookup_insert_is_Some'. by right.
    + intros x f Hx. destruct (v_image _ Hv x f Hx) as (? & ? & ?). split; [done|]. split; [done|]. cbn. apply lookup_insert_is_Some'. by right.
  - cbn [t_at with_tab]. rewrite map_size_insert_None by done. rewrite Hu. unfold n. rewrite (r_used _ _ H). lia.
  - cbn [t_at with_tab]. rewrite dom_insert. pose proof (r_allowed _ _ H). set_solver.
  - rewrite L4. apply H.
  - rewrite L1, L2, L3. apply H.
  - intros q1 q2 i. cbn [t_at with_tab]. rewrite !lookup_insert_Some. intros [(<- & <-)|(? & H1)] [(<- & Hi)|(? & H2)]; try done.
    + pose proof (r_range _ _ H _ _ H2). unfold n in *. lia.
    + subst i. pose proof (r_range _ _ H _ _ H1). unfold n in *. lia.
    + by eapply r_inj.
  - intros q' i. cbn [t_at with_tab]. rewrite lookup_insert_Some. rewrite Hu. fold n. intros [(_ & <-)|(_ & Hq')]; [lia|]. pose proof (r_range _ _ H _ _ Hq'). fold n in H0. lia.
  - intros q' i j'. rewrite content_with_tab. cbn [t_at with_tab]. rewrite lookup_insert_Some. intros [(<- & <-)|(Hne & Hq')] Hj'.
    + rewrite decide_False; [by rewrite Hnew, Hleaf|]. intros E. pose proof (child_inj A p q j j' q Hp Hrole Hj Hj' Hc E). congruence.
    + assert (Hin : in_pool i) by by eapply tab_in_pool. assert (i <> n) by (pose proof (r_range _ _ H _ _ Hq'); unfold n; lia).
      case_decide as E.
      * assert ((p, j) = (q', j')) as [= <- <-]; [|by apply Hlink]. apply (child_inj A p q' j j' q); try done. by eapply v_role, Hq'.
      * rewrite Hold; [by apply (r_entry _ _ H)|done..|]. rewrite Hip. destruct (decide (j' = j)) as [->|]; [left|by right].
        intros [= ->]. apply E. by rewrite (r_inj _ _ H _ _ _ Hq' Hip).
Qed.

Lemma room A s q : rep A s -> t_at A !! q = None -> q ∈ allowed -> 0 <= g_pool_used s < PAGING_POOL_PAGES.
Proof.
  intros H Hq Hal. pose proof (used_range _ _ H). rewrite (r_used _ _ H) in *.
  assert (Hs : (base.size (dom (t_at A) ∪ {[q]}) <= base.size allowed)%nat) by (apply subseteq_size; pose proof (r_allowed _ _ H); set_solver).
  rewrite size_union, size_singleton, size_dom in Hs by (apply disjoint_singleton_r; by apply not_elem_of_dom). unfold PAGING_POOL_PAGES in *. lia.
Qed.

(** More tables, the same map. *)
Definition grown A A' : Prop := t_at A ⊆ t_at A' /\ t_big A' = t_big A /\ t_ro A' = t_ro A /\ t_image A' = t_image A.

Lemma tabs_grown_refl A : grown A A.
Proof. by split_and!. Qed.
Lemma grown_with_tab A q i : t_at A !! q = None -> grown A (with_tab A q i).
Proof. intros Hq. split_and!; try done. by apply insert_subseteq. Qed.
Lemma tabs_grown_trans A B C : grown A B -> grown B C -> grown A C.
Proof. intros (? & ? & ? & ?) (? & ? & ? & ?). split_and!; [by etrans|congruence..]. Qed.
Lemma grown_lookup A B q i : grown A B -> t_at A !! q = Some i -> t_at B !! q = Some i.
Proof. intros (H & _) Hq. by eapply lookup_weaken. Qed.

(** The new table of role [q], linked from entry [j] of the one at [t]. *)
Lemma new_table A s p q i j : rep A s -> t_at A !! q = None -> q ∈ allowed -> role_ok A q -> 4 <= q.1 ->
  role_ok A p -> t_at A !! p = Some i -> 0 <= j < 512 -> child p j = Some q ->
  (forall j', 0 <= j' < 512 -> content A q j' = 0) -> (forall j', 0 <= j' < 512 -> leaf A q j' = 0) ->
  exists s', alloc_table y s = (Some (tbl (g_pool_used s)), s') /\
    let s2 := wr (tbl i) j (Z.lor (Z.lor (table_phys (tbl (g_pool_used s))) PAGE_PRESENT) PAGE_RW) s' in
    like s s2 /\ rep (with_tab A q (g_pool_used s)) s2.
Proof.
  intros H Hq Hal Hrole Hk Hp Hip Hj Hc H0 Hl0. pose proof (room _ _ _ H Hq Hal) as Hroom.
  destruct (alloc_spec s Hroom) as (s1 & E & L1 & U1 & Z1 & O1). exists s1. split; [exact E|]. cbv zeta. set (n := g_pool_used s) in *.
  assert (Hn : in_pool n) by exact Hroom. assert (Hin : in_pool i) by by eapply tab_in_pool. rewrite link_written by done.
  assert (Hne : i <> n) by (pose proof (r_range _ _ H _ _ Hip); unfold n; lia).
  assert (L2 : like s (wr (tbl i) j (link n) s1)) by (eapply like_trans; [exact L1|apply wr_like; [done || by eapply tab_in_pool|lia]]).
  split; [exact L2|]. apply (rep_new A s _ q p j); try done.
  - intros i' j' Hi' Hne' Hj' Hd. rewrite rd_wr by (done || by apply link_range). case_decide as Ed; [|by apply O1].
    injection Ed as -> ->. exfalso. destruct Hd as [Hd|Hd]; [by rewrite Hip in Hd|done].
  - intros i' Hi'. rewrite Hip in Hi'. injection Hi' as <-. rewrite rd_wr by (done || by apply link_range). by rewrite decide_True.
  - intros j' Hj'. rewrite rd_wr by (done || by apply link_range). rewrite decide_False by (intros [= Hx _]; unfold n in *; lia). fold n. by rewrite Z1, Hl0.
  - intros j' Hj'. by rewrite H0, Hl0.
Qed.

Lemma link_present i : in_pool i -> tst (link i) PAGE_PRESENT = true /\ table_of (link i) = tbl i /\ tst (link i) PAGE_HUGE = false.
Proof. intros Hi. destruct (link_flags i Hi) as (? & _ & _ & ? & _). split; [done|]. split; [by apply link_table|done]. Qed.

Lemma content_link A q j c i : child q j = Some c -> t_at A !! c = Some i -> content A q j = link i.
Proof. unfold content. by intros -> ->. Qed.
Lemma content_leaf A q j c : child q j = Some c -> t_at A !! c = None -> content A q j = leaf A q j.
Proof. unfold content. by intros -> ->. Qed.

Lemma hhdm_pd_spec A s a : rep A s -> 0 <= a < 512 -> (4, a) ∈ allowed ->
  wp (hhdm_pd y a) (fun r s' => exists A' i, r = Some (tbl i) /\ rep A' s' /\ like s s' /\ grown A A' /\ t_at A' !! (4, a) = Some i) s.
Proof.
  intros H Ha Hal. pose proof (r_valid _ _ H) as Hv. destruct (v_top _ Hv) as (_ & Htop & _).
  unfold wp, hhdm_pd. cbv zeta. destruct (r_regs _ _ H) as (_ & Hreg & _). rewrite Hreg, (r_entry _ _ H _ _ _ Htop Ha).
  destruct (t_at A !! (4, a)) as [i|] eqn:Ei.
  - rewrite (content_link A (1, 0) a (4, a) i) by done. pose proof (tab_in_pool _ _ _ _ H Ei) as Hi. destruct (link_present i Hi) as (-> & -> & _). exists A, i.
    split; [done|]. split; [done|]. split; [apply like_refl|]. split; [apply tabs_grown_refl|done].
  - rewrite (content_leaf A (1, 0) a (4, a)) by done. change (tst (leaf A (1, 0) a) PAGE_PRESENT) with false. cbn iota.
    assert (Hrole : role_ok A (4, a)) by (unfold role_ok; lia). assert (Hp : role_ok A (1, 0)) by (unfold role_ok; lia).
    assert (H0 : forall r, r / 512 = a -> r ∉ t_big A).
    { intros r Hr Hb. destruct (v_big _ Hv r Hb) as [_ Hs]. rewrite Hr, Ei in Hs. by destruct Hs. }
    assert (Hno : forall j, 0 <= j < 512 -> leaf A (4, a) j = 0).
    { intros j Hj. unfold leaf. cbn [Z.eqb Pos.eqb]. rewrite decide_False; [done|]. apply H0. by apply entry_div. }
    destruct (new_table A s (1, 0) (4, a) 1 a) as (s' & -> & L & R); try done.
    { intros j Hj. destruct (t_at A !! (5, 512 * a + j)) as [i|] eqn:E5; [|by rewrite (content_leaf A _ _ (5, 512 * a + j)), Hno].
      pose proof (v_role _ Hv _ _ E5) as Hr. unfold role_ok in Hr. exfalso. apply (H0 (512 * a + j)); [by apply entry_div|]. intuition lia. }
    assert (Hs' : g_pdpt_hhdm s' = tbl 1) by (destruct L as (_ & Hs' & _); cbn in Hs'; by rewrite Hs'). rewrite Hs'.
    exists (with_tab A (4, a) (g_pool_used s)), (g_pool_used s). split; [done|]. split; [exact R|]. split; [exact L|].
    split; [by apply grown_with_tab|]. cbn. by rewrite lookup_insert_eq.
Qed.

(** ** The direct map *)

Lemma region_index r : 0 <= r < 2 ^ 18 -> pt_index (r * PAGE_SIZE_2M) 30 = r / 512 /\ pt_index (r * PAGE_SIZE_2M) 21 = r mod 512.
Proof.
  intros Hr. unfold PAGE_SIZE_2M. rewrite !pt_index_eq by done. change 0x200000 with (2 ^ 21).
  replace (r * 2 ^ 21 / 2 ^ 30) with (r / 512).
  - rewrite Z.div_mul by done. split; [|done]. apply Z.mod_small. split; [apply Z.div_pos; lia|apply Z.div_lt_upper_bound; lia].
  - change (2 ^ 30) with (512 * 2 ^ 21). by rewrite Z.div_mul_cancel_r by done.
Qed.

Lemma nx_bit_eq A s : rep A s -> nx_bit s = nxv.
Proof. intros H. unfold nx_bit, nxv. by rewrite (r_nx _ _ H). Qed.

Definition with_big A (r : Z) : tabs := mk_tabs (t_at A) ({[r]} ∪ t_big A) (t_ro A) (t_image A).

Lemma role_grown A A' q : role_ok A q -> t_big A ⊆ t_big A' -> role_ok A' q.
Proof. destruct q as [k x]. unfold role_ok. set_solver. Qed.

Lemma valid_with_big A r : valid A -> 0 <= r < 2 ^ 18 -> is_Some (t_at A !! (4, r / 512)) -> valid (with_big A r).
Proof.
  intros Hv Hr Hs. split; cbn [t_at t_big t_ro t_image with_big]; try apply Hv.
  - intros q i Hq. eapply role_grown; [by eapply v_role|]. cbn. set_solver.
  - intros r'. rewrite elem_of_union, elem_of_singleton. intros [->|Hb]; [done|by apply Hv].
Qed.

Lemma content_with_big A r q j : role_ok A q -> 0 <= j < 512 -> (q, j) <> ((4, r / 512), r mod 512) -> content (with_big A r) q j = content A q j.
Proof.
  intros Hq Hj Hne. unfold content. cbn [t_at with_big]. assert (Hl : leaf (with_big A r) q j = leaf A q j).
  { destruct q as [k x]. unfold leaf. cbn [t_big t_ro t_image with_big]. case_if; [|done]. subst k.
    assert (512 * x + j <> r) by (intros <-; apply Hne; by rewrite entry_div, entry_mod).
    repeat case_decide; try done; set_solver. }
  by rewrite Hl.
Qed.

Lemma leaf_range A q j : valid A -> role_ok A q -> 0 <= j < 512 -> 0 <= leaf A q j < 2 ^ 64.
Proof.
  intros Hv Hq Hj. assert (Hnx : 0 <= nxv < 2 ^ 64) by (unfold nxv; by destruct nx).
  destruct q as [k x]. unfold leaf, PAGE_SIZE_2M, PAGE_SIZE. repeat case_if; try case_decide; try lia.
  - unfold role_ok in Hq. apply lor_range; [lia| |apply lor_range; lia]. lia.
  - unfold role_ok in Hq. apply lor_range; [lia| |apply lor_range; lia]. lia.
  - unfold role_ok in Hq. apply lor_range; [lia| |apply lor_range; lia]. lia.
  - destruct (t_image A !! _) as [f|] eqn:Ef; [|lia]. destruct (v_image _ Hv _ _ Ef) as (Hn & Hf & _).
    apply lor_range; [lia|lia|apply lor_range; [lia| |lia]]. destruct Hf as [->|[->| ->]]; [lia|done|]. by apply lor_range.
Qed.

Lemma map_hhdm_one_spec A s r : rep A s -> 0 <= r < 2 ^ 18 -> (4, r / 512) ∈ allowed ->
  wp (map_hhdm_one y (r * PAGE_SIZE_2M)) (fun x s' => x = Ok tt /\ exists A', rep A' s' /\ like s s' /\
    t_big A' = {[r]} ∪ t_big A /\ t_ro A' = t_ro A /\ t_image A' = t_image A) s.
Proof.
  intros H Hr Hal. destruct (region_index r Hr) as [E1 E2]. unfold map_hhdm_one. rewrite E1, E2.
  assert (Ha : 0 <= r / 512 < 512) by (split; [apply Z.div_pos; lia|apply Z.div_lt_upper_bound; lia]).
  pose proof (Z.mod_pos_bound r 512 ltac:(lia)) as Hj. pose proof (Z.div_mod r 512 ltac:(lia)) as Hdm.
  unfold wp, tryo. destruct (wp_run _ _ _ (hhdm_pd_spec A s (r / 512) H Ha Hal)) as (x & s1 & -> & A1 & i & -> & H1 & L1 & G1 & Hi).
  destruct G1 as (_ & Gb & Gr & Gi). cbn beta iota. split; [done|]. rewrite (r_entry _ _ H1 _ _ _ Hi Hj), (nx_bit_eq _ _ H1).
  pose proof (r_valid _ _ H1) as Hv. assert (Hc : child (4, r / 512) (r mod 512) = Some (5, r)) by (cbn; do 2 f_equal; lia).
  assert (Hdone : r ∈ t_big A1 -> exists A', rep A' s1 /\ like s s1 /\ t_big A' = {[r]} ∪ t_big A /\ t_ro A' = t_ro A /\ t_image A' = t_image A).
  { intros Hb. exists A1. split; [done|]. split; [done|]. split; [|done]. rewrite <- Gb. set_solver. }
  destruct (t_at A1 !! (5, r)) as [k|] eqn:Ek.
  - rewrite (content_link A1 _ _ (5, r) k) by done. destruct (link_present k) as (-> & _); [by eapply tab_in_pool|]. cbn [negb].
    apply Hdone. pose proof (v_role _ Hv _ _ Ek) as Hro. unfold role_ok in Hro. intuition lia.
  - assert (Hlf : content A1 (4, r / 512) (r mod 512) = if decide (r ∈ t_big A1) then Z.lor (r * PAGE_SIZE_2M) (Z.lor 0x83 nxv) else 0).
    { rewrite (content_leaf A1 _ _ (5, r)) by done. unfold leaf. cbn [Z.eqb Pos.eqb]. by rewrite <- Hdm. }
    rewrite Hlf. case_decide as Eb.
    + assert (Hp : phys_ok (r * PAGE_SIZE_2M)) by (unfold phys_ok, PAGE_SIZE_2M; split; [lia|]; replace (r * 0x200000) with (r * 512 * 4096) by lia; by apply Z.mod_mul).
      destruct (entry_flags (r * PAGE_SIZE_2M) (Z.lor 0x83 nxv) Hp) as (-> & _). replace (tst (Z.lor 131 nxv) PAGE_PRESENT) with true by (unfold nxv; by destruct nx).
      by apply Hdone.
    + change (tst 0 PAGE_PRESENT) with false. cbn [negb]. assert (Hv2 : valid (with_big A1 r)) by (apply valid_with_big; [done..|by eexists]).
      exists (with_big A1 r). split; [|split; [eapply like_trans; [exact L1|apply wr_like; [done || by eapply tab_in_pool|lia]]|cbn; by rewrite Gb, Gr, Gi]].
      assert (Hval : Z.lor (Z.lor (Z.lor (Z.lor (r * PAGE_SIZE_2M) PAGE_PRESENT) PAGE_RW) PAGE_HUGE) nxv = leaf (with_big A1 r) (4, r / 512) (r mod 512)).
      { unfold leaf. cbn [Z.eqb Pos.eqb t_big with_big]. rewrite <- Hdm, decide_True by set_solver. rewrite <- !Z.lor_assoc. do 1 f_equal. by rewrite !Z.lor_assoc. }
      rewrite Hval. apply (rep_write A1 (with_big A1 r) s1 (4, r / 512)); try done.
      * apply leaf_range; [done|unfold role_ok; lia|lia].
      * by apply (content_leaf _ _ _ (5, r)).
      * intros q' j' ???. by apply content_with_big.
Qed.

(** The values of [a] in [for_addr] are the multiples of the step. *)
Lemma for_units (I : Z -> boot -> Prop) st x0 x1 body s : 0 < st -> 0 <= x0 <= x1 -> x1 * st + st <= 2 ^ 64 -> I x0 s ->
  (forall x s, x0 <= x < x1 -> I x s -> wp (body (x * st)) (fun r s' => r = Ok tt /\ I (x + 1) s') s) ->
  wp (for_addr (x0 * st) (x1 * st) st body) (fun r s' => r = Ok tt /\ I x1 s') s.
Proof.
  intros Hst Hx Hlim Hs Hb. unfold for_addr.
  assert (Hx1 : x1 < 2 ^ 64) by nia.
  apply (wp_loop _ _ (fun n a s => exists x, a = x * st /\ n = x1 - x /\ x0 <= x <= x1 /\ I x s) _ (x1 - x0)); [by exists x0; split_and!; try lia|lia|].
  intros n a s1 (x & -> & -> & Hxr & Hi). unfold wp. destruct (x * st <? x1 * st) eqn:E; bool_simpl.
  - assert (x < x1) by nia. destruct (wp_run _ _ _ (Hb x s1 ltac:(lia) Hi)) as (r & s2 & -> & -> & Hi2). cbn.
    rewrite uw_small by nia. exists (x1 - (x + 1)). split; [|lia]. exists (x + 1). split_and!; try done; lia.
  - assert (x = x1) as -> by nia. by split.
Qed.

Lemma map_hhdm_2m_spec A s r0 r1 : rep A s -> 0 <= r0 <= r1 -> r1 <= 2 ^ 18 ->
  (forall r, r0 <= r < r1 -> (4, r / 512) ∈ allowed) ->
  wp (map_hhdm_2m y (r0 * PAGE_SIZE_2M) (r1 * PAGE_SIZE_2M)) (fun x s' => x = Ok tt /\ exists A', rep A' s' /\ like s s' /\
    (forall r, r ∈ t_big A' <-> r ∈ t_big A \/ r0 <= r < r1) /\ t_ro A' = t_ro A /\ t_image A' = t_image A) s.
Proof.
  intros H Hr Hr1 Hal. unfold map_hhdm_2m. rewrite (proj2 (Z.ltb_ge _ _)) by (unfold PDPT_SPAN_LIMIT, PAGE_SIZE_2M; lia).
  change PAGE_SIZE_2M with (2 ^ 21) at 2. rewrite align_down_aligned; [|unfold PAGE_SIZE_2M; lia|lia|by apply Z.mod_mul].
  apply (for_units (fun x s' => exists A', rep A' s' /\ like s s' /\
    (forall r, r ∈ t_big A' <-> r ∈ t_big A \/ r0 <= r < x) /\ t_ro A' = t_ro A /\ t_image A' = t_image A)); [done|lia|unfold PAGE_SIZE_2M; lia| |].
  - exists A. split; [done|]. split; [apply like_refl|]. split; [|done]. intros r. split; [by left|]. intros [?|?]; [done|lia].
  - intros x s1 Hx (A1 & H1 & L1 & B1 & R1 & I1). eapply wp_mono; [apply (map_hhdm_one_spec A1); [done|lia|by apply Hal]|].
    intros z s2 (-> & A2 & H2 & L2 & B2 & R2 & I2). split; [done|]. exists A2. split; [done|]. split; [by eapply like_trans|].
    split; [|split; congruence]. intros r. rewrite B2, elem_of_union, elem_of_singleton, B1.
    split; [intros [->|[?|?]]; [right; lia|by left|right; lia]|intros [?|?]; [right; by left|]]. destruct (decide (r = x)); [by left|]. right. right. lia.
Qed.

(** ** Read-only pages *)

Lemma page_index n : 0 <= n < 2 ^ 27 -> pt_index (n * PAGE_SIZE) 30 = n / 512 / 512 /\ pt_index (n * PAGE_SIZE) 21 = n / 512 mod 512 /\
  Z.land (Z.shiftr (n * PAGE_SIZE) 12) 0x1FF = n mod 512 /\ pt_index (n * PAGE_SIZE) 12 = n mod 512.
Proof.
  intros Hn. unfold PAGE_SIZE. rewrite !pt_index_eq by done. change 4096 with (2 ^ 12). rewrite Z.shiftr_div_pow2 by done.
  change 0x1FF with (2 ^ 9 - 1). rewrite land_ones_mod by done. change (2 ^ 30) with (512 * 512 * 2 ^ 12). change (2 ^ 21) with (512 * 2 ^ 12).
  rewrite !Z.div_mul_cancel_r, Z.div_mul by done. split; [|done]. rewrite <- Z.div_div by done. apply Z.mod_small.
  rewrite Z.div_div by done. split; [apply Z.div_pos; lia|apply Z.div_lt_upper_bound; lia].
Qed.

(** A table filled entry by entry. *)
Lemma fill_spec (g : Z -> Z -> Z) i s : in_pool i -> (forall j, 0 <= j < 512 -> 0 <= g j (nx_bit s) < 2 ^ 64) ->
  let s' := for_range 0 ENTRIES_PER_TABLE (fun j s => wr (tbl i) j (g j (nx_bit s)) s) s in
  like s s' /\ g_pool_used s' = g_pool_used s /\ (forall j, 0 <= j < 512 -> rd (tbl i) j s' = g j (nx_bit s)) /\
  (forall i' j, in_pool i' -> i' <> i -> 0 <= j < 512 -> rd (tbl i') j s' = rd (tbl i') j s).
Proof.
  intros Hi Hg. cbv zeta. unfold ENTRIES_PER_TABLE.
  set (Q := fun k s' => like s s' /\ g_pool_used s' = g_pool_used s /\ (forall j, 0 <= j < k -> j < 512 -> rd (tbl i) j s' = g j (nx_bit s)) /\
    (forall i' j, in_pool i' -> i' <> i -> 0 <= j < 512 -> rd (tbl i') j s' = rd (tbl i') j s)).
  assert (HQ : Q 512 (for_range 0 512 (fun j s => wr (tbl i) j (g j (nx_bit s)) s) s)).
  { apply for_range_rule; [lia|split; [apply like_refl|]; split; [done|]; split; [lia|done]|]. intros k s1 Hk (L1 & U1 & T1 & O1).
    assert (Hnx : nx_bit s1 = nx_bit s) by (unfold nx_bit; by destruct L1 as (_ & _ & _ & -> & _)).
    rewrite Hnx. split; [eapply like_trans; [exact L1|apply wr_like; [done || by eapply tab_in_pool|lia]]|]. split; [by rewrite <- U1|]. split.
    - intros j Hj Hj2. rewrite rd_wr by (done || lia || apply Hg; lia). case_decide as E; [by injection E as ->|].
      apply T1; [|done]. assert (j <> k) by congruence. lia.
    - intros i' j Hi' Hne Hj. rewrite rd_wr by (done || apply Hg; lia). rewrite decide_False by congruence. by apply O1. }
  destruct HQ as (? & ? & HT & ?). split; [done|]. split; [done|]. split; [intros j Hj; apply HT; lia|done].
Qed.

Lemma hhdm_pt_spec A s n : rep A s -> 0 <= n < 2 ^ 27 -> n / 512 ∈ t_big A -> (4, n / 512 / 512) ∈ allowed -> (5, n / 512) ∈ allowed ->
  wp (hhdm_pt_for y (n * PAGE_SIZE)) (fun r s' => exists A' i, r = Some (tbl i) /\ rep A' s' /\ like s s' /\ grown A A' /\ t_at A' !! (5, n / 512) = Some i) s.
Proof.
  intros H Hn Hb Hal4 Hal5. destruct (page_index n Hn) as (E1 & E2 & _). set (r := n / 512) in *.
  assert (Hr : 0 <= r < 2 ^ 18) by (unfold r; split; [apply Z.div_pos; lia|apply Z.div_lt_upper_bound; lia]).
  assert (Ha : 0 <= r / 512 < 512) by (split; [apply Z.div_pos; lia|apply Z.div_lt_upper_bound; lia]).
  pose proof (Z.mod_pos_bound r 512 ltac:(lia)) as Hj. pose proof (Z.div_mod r 512 ltac:(lia)) as Hdm.
  unfold wp, hhdm_pt_for. rewrite E1, E2. destruct (wp_run _ _ _ (hhdm_pd_spec A s (r / 512) H Ha Hal4)) as (x & s1 & -> & A1 & i & -> & H1 & L1 & G1 & Hi).
  cbv zeta. rewrite (r_entry _ _ H1 _ _ _ Hi Hj). pose proof (r_valid _ _ H1) as Hv. pose proof G1 as (_ & Gb & _).
  assert (Hc : child (4, r / 512) (r mod 512) = Some (5, r)) by (cbn; do 2 f_equal; lia).
  destruct (t_at A1 !! (5, r)) as [k|] eqn:Ek.
  { rewrite (content_link A1 _ _ (5, r) k) by done. destruct (link_present k) as (-> & -> & ->); [by eapply tab_in_pool|]. cbn [negb andb]. exists A1, k. by split_and!. }
  rewrite (content_leaf A1 _ _ (5, r)) by done. set (lf := leaf A1 (4, r / 512) (r mod 512)). 
  assert (Hlf : tst lf PAGE_PRESENT = true /\ tst lf PAGE_HUGE = true).
  { unfold lf, leaf. cbn [Z.eqb Pos.eqb]. rewrite <- Hdm, decide_True by (by rewrite Gb).
    assert (Hp : phys_ok (r * PAGE_SIZE_2M)) by (unfold phys_ok, PAGE_SIZE_2M; split; [lia|]; replace (r * 0x200000) with (r * 512 * 4096) by lia; by apply Z.mod_mul).
    destruct (entry_flags (r * PAGE_SIZE_2M) (Z.lor 0x83 nxv) Hp) as (-> & _ & _ & -> & _). unfold nxv. by destruct nx. }
  destruct Hlf as [-> ->]. cbn [negb andb]. pose proof (room _ _ _ H1 Ek Hal5) as Hroom.
  destruct (alloc_spec s1 Hroom) as (s2 & -> & L2 & U2 & Z2 & O2). set (m := g_pool_used s1) in *.
  assert (Hbase : align_down (n * PAGE_SIZE) PAGE_SIZE_2M = r * PAGE_SIZE_2M).
  { unfold PAGE_SIZE_2M, PAGE_SIZE. change 0x200000 with (2 ^ 21). rewrite align_down_eq by lia. change (2 ^ 21) with (512 * 4096).
    rewrite Z.mul_mod_distr_r by done. unfold r. pose proof (Z.div_mod n 512 ltac:(lia)). lia. }
  rewrite Hbase. set (g := fun j nxb => Z.lor (Z.lor (Z.lor (u64 (r * PAGE_SIZE_2M + j * PAGE_SIZE)) PAGE_PRESENT) PAGE_RW) nxb).
  assert (Hnx2 : nx_bit s2 = nxv) by (unfold nx_bit; destruct L2 as (_ & _ & _ & -> & _); by apply (nx_bit_eq A1)).
  assert (Hg : forall j, 0 <= j < 512 -> g j nxv = leaf A1 (5, r) j).
  { intros j Hj'. unfold g, leaf. cbn [Z.eqb Pos.eqb]. rewrite decide_False.
    - rewrite uw_small by (unfold PAGE_SIZE_2M, PAGE_SIZE; lia). rewrite <- !Z.lor_assoc. unfold PAGE_SIZE_2M, PAGE_SIZE. f_equal; [lia|by rewrite Z.lor_assoc].
    - intros Hro. destruct (v_ro _ Hv _ Hro) as [k Hk]. rewrite entry_div in Hk by done. congruence. }
  assert (Hrole : role_ok A1 (5, r)) by (unfold role_ok; rewrite Gb; intuition lia).
  destruct (fill_spec g m s2) as (L3 & U3 & T3 & O3).
  { exact Hroom. } { intros j Hj'. rewrite Hnx2, Hg by done. by apply leaf_range. }
  fold (for_range (S := boot)). change (fun i0 s0 => wr (tbl m) i0 (Z.lor (Z.lor (Z.lor (u64 (r * PAGE_SIZE_2M + i0 * PAGE_SIZE)) PAGE_PRESENT) PAGE_RW) (nx_bit s0)) s0)
    with (fun j s0 => wr (tbl m) j (g j (nx_bit s0)) s0). set (s3 := for_range _ _ _ _) in *.
  assert (Hin : in_pool i) by by eapply tab_in_pool. assert (Hm : in_pool m) by exact Hroom. assert (Hne : i <> m) by (pose proof (r_range _ _ H1 _ _ Hi); unfold m; lia).
  rewrite link_written by done. assert (L4 : like s1 (wr (tbl i) (r mod 512) (link m) s3)) by (eapply like_trans; [exact L2|]; eapply like_trans; [exact L3|apply wr_like; [done || by eapply tab_in_pool|lia]]).
  exists (with_tab A1 (5, r) m), m. split; [done|]. split; [|split; [by eapply like_trans|split; [eapply tabs_grown_trans; [exact G1|by apply grown_with_tab]|cbn; by rewrite lookup_insert_eq]]].
  apply (rep_new A1 s1 _ (5, r) (4, r / 512) (r mod 512));
    [exact H1|exact Ek|exact Hal5|exact Hrole|cbn; lia|unfold role_ok; lia|by eexists|exact Hj|exact Hc|exact L4|cbn; rewrite U3; exact U2| | | |].
  - intros i' j' Hi' Hne' Hj' Hd. rewrite rd_wr by (done || by apply link_range). case_decide as Ed; [|by rewrite O3, O2].
    injection Ed as -> ->. exfalso. rewrite Hi in Hd. by destruct Hd.
  - intros i' Hi'. rewrite Hi in Hi'. injection Hi' as <-. rewrite rd_wr by (done || by apply link_range). by rewrite decide_True.
  - intros j' Hj'. rewrite rd_wr by (done || by apply link_range). rewrite decide_False by (intros [= Hx _]; unfold m in *; lia). fold m. by rewrite T3, Hnx2, Hg.
  - intros j' Hj'. reflexivity.
Qed.

Definition with_ro A (n : Z) : tabs := mk_tabs (t_at A) (t_big A) ({[n]} ∪ t_ro A) (t_image A).
Definition with_image A (n f : Z) : tabs := mk_tabs (t_at A) (t_big A) (t_ro A) (<[n := f]> (t_image A)).

Lemma valid_with_ro A n : valid A -> is_Some (t_at A !! (5, n / 512)) -> valid (with_ro A n).
Proof.
  intros Hv Hs. split; cbn [t_at t_big t_ro t_image with_ro]; try apply Hv.
  intros n'. rewrite elem_of_union, elem_of_singleton. intros [->|Hn]; [done|by apply Hv].
Qed.

Lemma valid_with_image A n f : valid A -> 0 <= n < 2 ^ 18 -> image_flags f -> is_Some (t_at A !! (6, n / 512)) -> valid (with_image A n f).
Proof.
  intros Hv Hn Hf Hs. split; cbn [t_at t_big t_ro t_image with_image]; try apply Hv.
  intros n' f'. rewrite lookup_insert_Some. intros [(<- & <-)|(_ & Hi)]; [done|by apply (v_image _ Hv)].
Qed.

Lemma content_with_ro A n q j : 0 <= j < 512 -> (q, j) <> ((5, n / 512), n mod 512) -> content (with_ro A n) q j = content A q j.
Proof.
  intros Hj Hne. unfold content. cbn [t_at with_ro]. assert (Hl : leaf (with_ro A n) q j = leaf A q j).
  { destruct q as [k x]. unfold leaf. cbn [t_big t_ro t_image with_ro]. case_if; [done|]. case_if; [|done]. subst k.
    assert (512 * x + j <> n) by (intros <-; apply Hne; by rewrite entry_div, entry_mod). repeat case_decide; try done; set_solver. }
  by rewrite Hl.
Qed.

Lemma content_with_image A n f q j : 0 <= j < 512 -> (q, j) <> ((6, n / 512), n mod 512) -> content (with_image A n f) q j = content A q j.
Proof.
  intros Hj Hne. unfold content. cbn [t_at with_image]. assert (Hl : leaf (with_image A n f) q j = leaf A q j).
  { destruct q as [k x]. unfold leaf. cbn [t_big t_ro t_image with_image]. do 2 (case_if; [done|]). case_if; [|done]. subst k.
    rewrite lookup_insert_ne; [done|]. intros ->. apply Hne. by rewrite entry_div, entry_mod. }
  by rewrite Hl.
Qed.

Lemma make_readonly_one A s n : rep A s -> 0 <= n < 2 ^ 27 -> n / 512 ∈ t_big A -> (4, n / 512 / 512) ∈ allowed -> (5, n / 512) ∈ allowed ->
  wp (pt <-o{NoutOfMemory} hhdm_pt_for y (n * PAGE_SIZE) ;;
      fun s => (Ok tt, wr pt (Z.land (Z.shiftr (n * PAGE_SIZE) 12) 0x1FF) (Z.lor (Z.lor (n * PAGE_SIZE) PAGE_PRESENT) (nx_bit s)) s))
    (fun r s' => r = Ok tt /\ exists A', rep A' s' /\ like s s' /\ t_big A' = t_big A /\ t_ro A' = {[n]} ∪ t_ro A /\ t_image A' = t_image A) s.
Proof.
  intros H Hn Hb H4 H5. destruct (page_index n Hn) as (_ & _ & -> & _). pose proof (Z.mod_pos_bound n 512 ltac:(lia)) as Hj.
  unfold wp, tryo. destruct (wp_run _ _ _ (hhdm_pt_spec A s n H Hn Hb H4 H5)) as (x & s1 & -> & A1 & i & -> & H1 & L1 & (_ & Gb & Gr & Gi) & Hi).
  cbn beta iota. split; [done|]. rewrite (nx_bit_eq _ _ H1). pose proof (r_valid _ _ H1) as Hv. pose proof (Z.div_mod n 512 ltac:(lia)) as Hdm.
  exists (with_ro A1 n). split; [|split; [eapply like_trans; [exact L1|apply wr_like; [done || by eapply tab_in_pool|lia]]|cbn; by rewrite Gb, Gr, Gi]].
  assert (Hv2 : valid (with_ro A1 n)) by (apply valid_with_ro; [done|by eexists]). pose proof (v_role _ Hv _ _ Hi) as Hrole.
  assert (Hval : Z.lor (Z.lor (n * PAGE_SIZE) PAGE_PRESENT) nxv = leaf (with_ro A1 n) (5, n / 512) (n mod 512)).
  { unfold leaf. cbn [Z.eqb Pos.eqb t_ro with_ro]. rewrite <- Hdm, decide_True by set_solver. by rewrite <- Z.lor_assoc. }
  rewrite Hval. apply (rep_write A1 (with_ro A1 n) s1 (5, n / 512)); [exact H1|exact Hi|exact Hj|by apply leaf_range|done|exact Hv2|done|].
  intros q' j' _ ??. by apply content_with_ro.
Qed.

Lemma make_readonly_spec A s n0 n1 : rep A s -> 0 <= n0 <= n1 -> n1 <= 2 ^ 27 ->
  (forall n, n0 <= n < n1 -> n / 512 ∈ t_big A /\ (4, n / 512 / 512) ∈ allowed /\ (5, n / 512) ∈ allowed) ->
  wp (hhdm_make_readonly y (n0 * PAGE_SIZE) (n1 * PAGE_SIZE)) (fun r s' => r = Ok tt /\ exists A', rep A' s' /\ like s s' /\
    t_big A' = t_big A /\ (forall n, n ∈ t_ro A' <-> n ∈ t_ro A \/ n0 <= n < n1) /\ t_image A' = t_image A) s.
Proof.
  intros H Hn Hn1 Hal. unfold hhdm_make_readonly. change PAGE_SIZE with (2 ^ 12) at 2.
  rewrite align_down_aligned; [|unfold PAGE_SIZE; lia|lia|by apply Z.mod_mul].
  apply (for_units (fun x s' => exists A', rep A' s' /\ like s s' /\
    t_big A' = t_big A /\ (forall n, n ∈ t_ro A' <-> n ∈ t_ro A \/ n0 <= n < x) /\ t_image A' = t_image A)); [done|lia|unfold PAGE_SIZE; lia| |].
  - exists A. split; [done|]. split; [apply like_refl|]. split; [done|]. split; [|done]. intros n. split; [by left|]. intros [?|?]; [done|lia].
  - intros x s1 Hx (A1 & H1 & L1 & B1 & R1 & I1). destruct (Hal x Hx) as (Hb & H4 & H5). rewrite <- B1 in Hb.
    eapply wp_mono; [apply (make_readonly_one A1); [done|lia|done..]|]. intros r s2 (-> & A2 & H2 & L2 & B2 & R2 & I2).
    split; [done|]. exists A2. split; [done|]. split; [by eapply like_trans|]. split; [congruence|]. split; [|congruence].
    intros n. rewrite R2, elem_of_union, elem_of_singleton, R1.
    split; [intros [->|[?|?]]; [right; lia|by left|right; lia]|intros [?|?]; [right; by left|]]. destruct (decide (n = x)); [by left|]. right. right. lia.
Qed.

(** ** The image *)

Lemma image_page n : 0 <= n < 2 ^ 18 ->
  let v := KERNEL_VMA_BASE + n * PAGE_SIZE in
  u64 (v - KERNEL_VMA_BASE) = n * PAGE_SIZE /\ pt_index (n * PAGE_SIZE) 21 = n / 512 /\ pt_index v 12 = n mod 512.
Proof.
  intros Hn. cbv zeta. destruct (page_index n ltac:(lia)) as (_ & -> & _). unfold PAGE_SIZE. split; [rewrite uw_small; lia|]. split.
  - apply Z.mod_small. split; [apply Z.div_pos; lia|apply Z.div_lt_upper_bound; lia].
  - rewrite pt_index_eq by done. replace (KERNEL_VMA_BASE + n * 4096) with ((n + KERNEL_VMA_BASE / 4096 / 512 * 512) * 2 ^ 12) by (change (KERNEL_VMA_BASE / 4096 / 512 * 512) with 4503599626846208; unfold KERNEL_VMA_BASE; lia).
    rewrite Z.div_mul by done. by apply Z.mod_add.
Qed.

Lemma kernel_pt_spec A s d : rep A s -> 0 <= d < 512 -> (6, d) ∈ allowed ->
  wp (fun s => if negb (tst (rd (g_pd_kernel s) d s) PAGE_PRESENT) then
        match alloc_table y s with
        | (None, s) => (None, s)
        | (Some pt, s) => (Some pt, wr (g_pd_kernel s) d (Z.lor (Z.lor (table_phys pt) PAGE_PRESENT) PAGE_RW) s)
        end
      else (Some (table_of (rd (g_pd_kernel s) d s)), s))
    (fun r s' => exists A' i, r = Some (tbl i) /\ rep A' s' /\ like s s' /\ grown A A' /\ t_at A' !! (6, d) = Some i) s.
Proof.
  intros H Hd Hal. pose proof (r_valid _ _ H) as Hv. destruct (v_top _ Hv) as (_ & _ & _ & Htop).
  unfold wp. destruct (r_regs _ _ H) as (_ & _ & Hreg). rewrite Hreg, (r_entry _ _ H _ _ _ Htop Hd).
  destruct (t_at A !! (6, d)) as [i|] eqn:Ei.
  - rewrite (content_link A (3, 0) d (6, d) i) by done. destruct (link_present i) as (-> & -> & _); [by eapply tab_in_pool|]. cbn [negb]. exists A, i.
    split; [done|]. split; [done|]. split; [apply like_refl|]. split; [apply tabs_grown_refl|done].
  - rewrite (content_leaf A (3, 0) d (6, d)) by done. change (tst (leaf A (3, 0) d) PAGE_PRESENT) with false. cbn [negb].
    assert (Hno : forall j, 0 <= j < 512 -> leaf A (6, d) j = 0).
    { intros j Hj. unfold leaf. cbn [Z.eqb Pos.eqb]. destruct (t_image A !! (512 * d + j)) as [f|] eqn:Ef; [|done].
      destruct (v_image _ Hv _ _ Ef) as (_ & _ & [k Hk]). rewrite entry_div in Hk by done. congruence. }
    destruct (new_table A s (3, 0) (6, d) 3 d) as (s' & -> & L & R);
      [done|done|done|unfold role_ok; lia|cbn; lia|unfold role_ok; lia|done|done|done|exact Hno|exact Hno|].
    assert (Hs' : g_pd_kernel s' = tbl 3) by (destruct L as (_ & _ & Hs' & _); cbn in Hs'; by rewrite Hs'). rewrite Hs'.
    exists (with_tab A (6, d) (g_pool_used s)), (g_pool_used s). split; [done|]. split; [exact R|]. split; [exact L|].
    split; [by apply grown_with_tab|]. cbn. by rewrite lookup_insert_eq.
Qed.

Lemma map_kernel_page_spec A s n f : rep A s -> 0 <= n < 2 ^ 18 -> (6, n / 512) ∈ allowed -> image_flags f ->
  wp (map_kernel_page y (KERNEL_VMA_BASE + n * PAGE_SIZE) f) (fun r s' => r = Ok tt /\ exists A', rep A' s' /\ like s s' /\
    t_big A' = t_big A /\ t_ro A' = t_ro A /\ t_image A' = <[n := f]> (t_image A)) s.
Proof.
  intros H Hn Hal Hf. destruct (image_page n Hn) as (E0 & E1 & E2).
  assert (Hd : 0 <= n / 512 < 512) by (split; [apply Z.div_pos; lia|apply Z.div_lt_upper_bound; lia]).
  pose proof (Z.mod_pos_bound n 512 ltac:(lia)) as Hj. pose proof (Z.div_mod n 512 ltac:(lia)) as Hdm.
  unfold wp, map_kernel_page. rewrite E0, E1, E2. cbv zeta. unfold tryo.
  destruct (wp_run _ _ _ (kernel_pt_spec A s (n / 512) H Hd Hal)) as (x & s1 & E & A1 & i & -> & H1 & L1 & (_ & Gb & Gr & Gi) & Hi).
  cbv beta in E. rewrite E. cbn beta iota. split; [done|]. pose proof (r_valid _ _ H1) as Hv.
  exists (with_image A1 n f). split; [|split; [eapply like_trans; [exact L1|apply wr_like; [done || by eapply tab_in_pool|lia]]|cbn; by rewrite Gb, Gr, Gi]].
  assert (Hv2 : valid (with_image A1 n f)) by (apply valid_with_image; [done..|by eexists]). pose proof (v_role _ Hv _ _ Hi) as Hrole.
  assert (Hval : Z.lor (Z.lor (n * PAGE_SIZE) f) PAGE_PRESENT = leaf (with_image A1 n f) (6, n / 512) (n mod 512)).
  { unfold leaf. cbn [Z.eqb Pos.eqb t_image with_image]. rewrite <- Hdm, lookup_insert_eq. by rewrite <- Z.lor_assoc. }
  rewrite Hval. apply (rep_write A1 (with_image A1 n f) s1 (6, n / 512)); [exact H1|exact Hi|exact Hj|by apply leaf_range|done|exact Hv2|done|].
  intros q' j' _ ??. by apply content_with_image.
Qed.

Definition vpage (n : Z) : Z := KERNEL_VMA_BASE + n * PAGE_SIZE.

(** A run of pages of the image, but for the page [hole]. *)
Lemma map_run_spec A s n0 n1 hole f body : rep A s -> 0 <= n0 <= n1 -> n1 <= 2 ^ 18 -> image_flags f ->
  (forall n, n0 <= n < n1 -> (6, n / 512) ∈ allowed) ->
  (forall n, n0 <= n < n1 -> body (vpage n) = if n =? hole then ok tt else map_kernel_page y (vpage n) f) ->
  wp (for_addr (vpage n0) (vpage n1) PAGE_SIZE body)
    (fun r s' => r = Ok tt /\ exists A', rep A' s' /\ like s s' /\ t_big A' = t_big A /\ t_ro A' = t_ro A /\
      forall n, t_image A' !! n = if decide (n0 <= n < n1 /\ n <> hole) then Some f else t_image A !! n) s.
Proof.
  intros H Hn Hn1 Hf Hal Hbody. unfold vpage in *. set (K := KERNEL_VMA_BASE / PAGE_SIZE). assert (HK : KERNEL_VMA_BASE = K * PAGE_SIZE) by done.
  rewrite HK, <- !Z.mul_add_distr_r.
  eapply wp_mono; [apply (for_units (fun x s' => exists A', rep A' s' /\ like s s' /\ t_big A' = t_big A /\ t_ro A' = t_ro A /\
    forall n, t_image A' !! n = if decide (n0 <= n < x - K /\ n <> hole) then Some f else t_image A !! n));
    [done|unfold K; change (KERNEL_VMA_BASE / PAGE_SIZE) with 4503599626846208; lia|unfold K, PAGE_SIZE; change (KERNEL_VMA_BASE / 4096) with 4503599626846208; lia| |]|].
  - exists A. split; [done|]. split; [apply like_refl|]. split; [done|]. split; [done|]. intros n. by rewrite decide_False by lia.
  - intros x s1 Hx (A1 & H1 & L1 & B1 & R1 & I1). set (m := x - K) in *. replace (x * PAGE_SIZE) with (KERNEL_VMA_BASE + m * PAGE_SIZE) by (unfold m; lia).
    rewrite Hbody by (unfold m; lia). case_if.
    + unfold wp, ok. split; [done|]. exists A1. split; [done|]. split; [done|]. split; [done|]. split; [done|]. intros n. rewrite I1.
      apply decide_ext. split; [intros [? ?]; split; [lia|done]|]. intros [? Hh]. split; [|done]. destruct (decide (n = m)) as [->|]; [done|lia].
    + eapply wp_mono; [apply (map_kernel_page_spec A1 s1 m f); [done|lia|apply Hal; lia|done]|]. intros r s2 (-> & A2 & H2 & L2 & B2 & R2 & I2).
      split; [done|]. exists A2. split; [done|]. split; [by eapply like_trans|]. split; [congruence|]. split; [congruence|]. intros n. rewrite I2.
      destruct (decide (n = m)) as [->|Hne]; [rewrite lookup_insert_eq, decide_True; [done|split; [lia|done]]|].
      rewrite lookup_insert_ne, I1 by done. apply decide_ext. split; [intros [? ?]; split; [lia|done]|intros [? ?]; split; [lia|done]].
  - intros r s' (-> & A' & H' & L' & B' & R' & I'). split; [done|]. exists A'. split; [done|]. split; [done|]. split; [done|]. split; [done|].
    intros n. rewrite I'. apply decide_ext. replace (K + n1 - K) with n1 by lia. done.
Qed.

(** Where the linker puts the parts of the image, as page numbers. *)
Record layout := mk_layout { l_boot : Z; l_text : Z; l_text_end : Z; l_ro : Z; l_ro_end : Z; l_data : Z; l_end : Z; l_guard : Z }.
Context (L : layout).

Record laid_out : Prop := {
  lo_boot : boot_start y = l_boot L * PAGE_SIZE;
  lo_text : text_start y = vpage (l_text L) /\ text_end y = vpage (l_text_end L);
  lo_ro : rodata_start y = vpage (l_ro L) /\ rodata_end y = vpage (l_ro_end L);
  lo_data : data_start y = vpage (l_data L) /\ kernel_end y = vpage (l_end L);
  lo_guard : boot_stack_guard y = vpage (l_guard L);
  lo_order : 0 <= l_boot L <= l_text L /\ l_text L <= l_text_end L <= l_ro L /\ l_ro L <= l_ro_end L <= l_data L /\ l_data L <= l_end L;
  lo_small : l_end L < 2 ^ 15;
}.
Context (Hlay : laid_out).

Lemma vpage_eqb a b : (vpage a =? vpage b) = (a =? b).
Proof. unfold vpage, PAGE_SIZE. destruct (Z.eqb_spec a b); [apply Z.eqb_eq|apply Z.eqb_neq]; lia. Qed.

(** The flags of a page of the image. *)
Definition image_page_flags (n : Z) : option Z :=
  if (l_text L <=? n) && (n <? l_text_end L) then Some 0
  else if (l_ro L <=? n) && (n <? l_ro_end L) then Some nxv
  else if (l_data L <=? n) && (n <? l_end L) && negb (n =? l_guard L) then Some (Z.lor PAGE_RW nxv)
  else None.

Lemma end_aligned k : k = vpage (l_end L) \/ k = l_end L * PAGE_SIZE -> align_up k PAGE_SIZE = k.
Proof.
  clear Hpool Hallowed.
  destruct Hlay. intros Hk. assert (Hr : 0 <= k < 2 ^ 64 - PAGE_SIZE) by (unfold vpage, PAGE_SIZE, KERNEL_VMA_BASE in *; lia).
  assert (Hm : k mod 2 ^ 12 = 0).
  { destruct Hk as [->| ->]; [|by apply Z.mod_mul]. unfold vpage. rewrite Z.add_comm. change KERNEL_VMA_BASE with (4503599626846208 * PAGE_SIZE). rewrite <- Z.mul_add_distr_r. by apply Z.mod_mul. }
  change PAGE_SIZE with (2 ^ 12) in *. destruct (align_up_spec k 12 ltac:(lia) ltac:(lia) ltac:(lia)) as [Hb Ha].
  assert (Hd : (align_up k (2 ^ 12) - k) mod 2 ^ 12 = 0) by (by rewrite Zminus_mod, Ha, Hm). rewrite Z.mod_small in Hd by lia. lia.
Qed.

Lemma map_kernel_image_spec A s : rep A s -> t_image A = ∅ -> (forall n, 0 <= n < 2 ^ 15 -> (6, n / 512) ∈ allowed) ->
  wp (map_kernel_image y) (fun r s' => r = Ok tt /\ exists A', rep A' s' /\ like s s' /\ t_big A' = t_big A /\ t_ro A' = t_ro A /\
    forall n, t_image A' !! n = image_page_flags n) s.
Proof.
  intros H H0 Hal. pose proof Hlay as [_ [Ht Hte] [Hr Hre] [Hd Hde] Hg Ho Hs]. unfold map_kernel_image, wp. cbv zeta. rewrite (nx_bit_eq _ _ H).
  rewrite (end_aligned (kernel_end y)) by (by left). rewrite Ht, Hte, Hr, Hre, Hd, Hde, Hg.
  unfold tryb. destruct (wp_run _ _ _ (map_run_spec A s (l_text L) (l_text_end L) (-1) 0 (fun v => map_kernel_page y v 0) H ltac:(lia) ltac:(lia) ltac:(by left)
    ltac:(intros; apply Hal; lia) ltac:(intros n ?; by rewrite (proj2 (Z.eqb_neq n (-1))) by lia))) as (r1 & s1 & -> & -> & A1 & H1 & L1 & B1 & R1 & I1).
  destruct (wp_run _ _ _ (map_run_spec A1 s1 (l_ro L) (l_ro_end L) (-1) nxv (fun v => map_kernel_page y v nxv) H1 ltac:(lia) ltac:(lia) ltac:(by right; left)
    ltac:(intros; apply Hal; lia) ltac:(intros n ?; by rewrite (proj2 (Z.eqb_neq n (-1))) by lia))) as (r2 & s2 & -> & -> & A2 & H2 & L2 & B2 & R2 & I2).
  destruct (wp_run _ _ _ (map_run_spec A2 s2 (l_data L) (l_end L) (l_guard L) (Z.lor PAGE_RW nxv)
    (fun v => if v =? vpage (l_guard L) then ok tt else map_kernel_page y v (Z.lor PAGE_RW nxv)) H2 ltac:(lia) ltac:(lia) ltac:(by right; right)
    ltac:(intros; apply Hal; lia)
    ltac:(intros n ?; cbv beta; by rewrite vpage_eqb)))
    as (r3 & s3 & -> & -> & A3 & H3 & L3 & B3 & R3 & I3).
  split; [done|]. exists A3. split; [done|]. split; [eapply like_trans; [done|by eapply like_trans]|]. split; [congruence|]. split; [congruence|].
  intros n. rewrite I3, I2, I1, H0, lookup_empty. unfold image_page_flags.
  destruct (Z.leb_spec (l_text L) n), (Z.ltb_spec n (l_text_end L)), (Z.leb_spec (l_ro L) n), (Z.ltb_spec n (l_ro_end L)),
    (Z.leb_spec (l_data L) n), (Z.ltb_spec n (l_end L)), (Z.eqb_spec n (l_guard L)); cbn; repeat case_decide; (done || lia).
Qed.

(** ** The start *)

Definition tabs0 : tabs := mk_tabs (<[(0, 0) := 0]> (<[(1, 0) := 1]> (<[(2, 0) := 2]> (<[(3, 0) := 3]> ∅)))) ∅ ∅ ∅.

Lemma tabs0_at q i : t_at tabs0 !! q = Some i <-> q = (i, 0) /\ 0 <= i < 4.
Proof.
  unfold tabs0. cbn [t_at]. split.
  - rewrite !lookup_insert_Some. intros H. repeat destruct H as [[<- <-]|[_ H]]; try (split; [done|lia]). by rewrite lookup_empty in H.
  - intros [-> Hi]. assert (i = 0 \/ i = 1 \/ i = 2 \/ i = 3) as [-> |[-> |[-> | ->]]] by lia; by vm_compute.
Qed.

Lemma valid_tabs0 : valid tabs0.
Proof.
  split.
  - split_and!; apply tabs0_at; split; done || lia.
  - intros q i [-> Hi]%tabs0_at. unfold role_ok. lia.
  - intros r Hr. cbn in Hr. set_solver.
  - intros r Hr. cbn in Hr. set_solver.
  - intros n f Hn. cbn in Hn. by rewrite lookup_empty in Hn.
Qed.

(** The three links, over tables of zeros. *)
Lemma tabs0_content i j : 0 <= i < 4 -> 0 <= j < 512 ->
  content tabs0 (i, 0) j =
    if decide ((i, j) = (0, 256)) then link 1 else if decide ((i, j) = (0, 511)) then link 2 else if decide ((i, j) = (2, 510)) then link 3 else 0.
Proof.
  intros Hi Hj. assert (Hz : forall c, c.1 = 4 \/ c.1 = 6 -> t_at tabs0 !! c = None).
  { intros c Hc. destruct (t_at tabs0 !! c) as [k|] eqn:Ek; [|done]. apply tabs0_at in Ek as [-> ?]. cbn in Hc. lia. }
  unfold content. assert (i = 0 \/ i = 1 \/ i = 2 \/ i = 3) as [-> |[-> |[-> | ->]]] by lia; cbn [child Z.eqb Pos.eqb].
  - destruct (Z.eqb_spec j 256) as [->|]; [done|]. destruct (Z.eqb_spec j 511) as [->|]; [done|]. rewrite !decide_False by congruence. done.
  - rewrite Hz by (cbn; lia). rewrite !decide_False by congruence. done.
  - destruct (Z.eqb_spec j 510) as [->|]; [done|]. rewrite !decide_False by congruence. done.
  - rewrite Hz by (cbn; lia). rewrite !decide_False by congruence. done.
Qed.

Lemma alloc_next n (s : boot) : 0 <= n < 4 -> g_pool_used s = n -> (forall i j, 0 <= i < n -> 0 <= j < 512 -> rd (tbl i) j s = 0) ->
  exists s', alloc_table y s = (Some (tbl n), s') /\ like s s' /\ g_pool_used s' = n + 1 /\
    (forall i j, 0 <= i < n + 1 -> 0 <= j < 512 -> rd (tbl i) j s' = 0) /\ outside (b_mem s) (b_mem s').
Proof.
  intros Hn Hu Hz. destruct (alloc_spec s) as (s' & E & L1 & U1 & Z1 & O1); [unfold PAGING_POOL_PAGES; lia|]. rewrite Hu in *.
  exists s'. split; [done|]. split; [done|]. split; [done|]. split; [|apply (alloc_outside s (Some (tbl n)) s'); [lia|exact E]]. intros i j Hi Hj. destruct (decide (i = n)) as [->|Hne]; [by apply Z1|].
  rewrite O1; [apply Hz; lia|unfold in_pool, PAGING_POOL_PAGES; lia|done|done].
Qed.

Lemma top_tables_spec (s : boot) : b_nx_supported s = nx -> (forall i, 0 <= i < 4 -> (i, 0) ∈ allowed) ->
  wp (top_tables y) (fun r s' => r = Ok tt /\ rep tabs0 s' /\ g_smep_supported s' = g_smep_supported s /\ outside (b_mem s) (b_mem s')) s.
Proof.
  intros Hnx Hal. unfold wp, top_tables.
  destruct (alloc_next 0 (with_used 0 s)) as (s1 & -> & L1 & U1 & Z1 & O1); [lia|done|lia|].
  destruct (alloc_next 1 s1) as (s2 & -> & L2 & U2 & Z2 & O2); [lia|done|exact Z1|].
  destruct (alloc_next 2 s2) as (s3 & -> & L3 & U3 & Z3 & O3); [lia|done|exact Z2|].
  destruct (alloc_next 3 s3) as (s4 & -> & L4 & U4 & Z4 & O4); [lia|done|exact Z3|]. cbn [from_option].
  assert (LL : like (with_used 0 s) s4) by (eapply like_trans; [exact L1|]; eapply like_trans; [exact L2|]; by eapply like_trans).
  destruct LL as (_ & _ & _ & Ln & Ls & _). assert (Hp : forall i, 0 <= i < 4 -> in_pool i) by (unfold in_pool, PAGING_POOL_PAGES; lia).
  cbv zeta. rewrite !link_written by (apply Hp; lia). unfold HHDM_PML4_INDEX, KERNEL_PML4_INDEX, KERNEL_PDPT_INDEX.
  set (s5 := with_tables _ _ _ s4). assert (Z5 : forall i j, 0 <= i < 4 -> 0 <= j < 512 -> rd (tbl i) j s5 = 0) by exact Z4.
  split; [done|]. split; [|split; [exact Ls|]].
  2: { repeat (eapply outside_trans; [|apply wr_outside; [apply Hp; lia|lia]]). change (b_mem s5) with (b_mem s4).
       eapply outside_trans; [exact O1|]. eapply outside_trans; [exact O2|]. by eapply outside_trans. }
  split.
  - exact valid_tabs0.
  - exact U4.
  - intros q. rewrite elem_of_dom. intros [i [-> Hi]%tabs0_at]. by apply Hal.
  - cbn. by rewrite Ln.
  - done.
  - intros q q' i [-> _]%tabs0_at [-> _]%tabs0_at. done.
  - intros q i [-> Hi]%tabs0_at. cbn. change (g_pool_used s5) with (g_pool_used s4). lia.
  - intros q i j [-> Hi]%tabs0_at Hj. rewrite tabs0_content by done. rewrite !rd_wr, Z5 by (done || (apply Hp; lia) || lia || apply link_range, Hp; lia).
    repeat case_decide; simplify_eq; try done.
Qed.

(** ** What the tables map *)

Definition canonical (v : Z) : Prop := 0 <= v < 2 ^ 47 \/ 2 ^ 64 - 2 ^ 47 <= v < 2 ^ 64.

(** The map, from the abstract tables. *)
Definition map_of A (v : Z) : option access :=
  if (HHDM_BASE <=? v) && (v <? HHDM_BASE + 2 ^ 39) then
    let a := v - HHDM_BASE in
    if decide (a / PAGE_SIZE_2M ∈ t_big A) then Some (mk_access a (negb (bool_decide (a / PAGE_SIZE ∈ t_ro A))) (negb nx) false) else None
  else if (KERNEL_VMA_BASE <=? v) && (v <? KERNEL_VMA_BASE + 2 ^ 30) then
    let a := v - KERNEL_VMA_BASE in
    match t_image A !! (a / PAGE_SIZE) with
    | Some f => Some (mk_access a (tst f PAGE_RW) (negb (tst f PAGE_NX)) false)
    | None => None
    end
  else None.

Lemma walk_absent A s q i shs sh v w x u : 0 <= sh -> rep A s -> t_at A !! q = Some i -> tst (content A q (pt_index v sh)) PAGE_PRESENT = false ->
  kwalk (b_mem s) (sh :: shs) (tbl i) v w x u = None.
Proof.
  intros Hs H Hq Ht. cbn [kwalk]. pose proof (r_entry _ _ H _ _ (pt_index v sh) Hq (pt_index_range v sh Hs)) as He. unfold rd in He. by rewrite He, Ht.
Qed.

Lemma walk_link A s q i k shs sh v w x u : 0 <= sh -> rep A s -> t_at A !! q = Some i -> in_pool k -> content A q (pt_index v sh) = link k -> sh <> 12 ->
  kwalk (b_mem s) (sh :: shs) (tbl i) v w x u = kwalk (b_mem s) shs (tbl k) v w x false.
Proof.
  intros Hs H Hq Hk Hc Hsh. cbn [kwalk]. pose proof (r_entry _ _ H _ _ (pt_index v sh) Hq (pt_index_range v sh Hs)) as He. unfold rd in He.
  rewrite He, Hc. destruct (link_flags k Hk) as (-> & -> & -> & -> & ->). rewrite (link_table k Hk), (proj2 (Z.eqb_neq sh 12) Hsh). cbn. by rewrite !andb_true_r, andb_false_r.
Qed.

Lemma walk_leaf A s q i shs sh v p f w x : 0 <= sh -> rep A s -> t_at A !! q = Some i -> content A q (pt_index v sh) = Z.lor p f -> phys_ok p ->
  Z.land f ENTRY_ADDR_MASK = 0 -> tst f PAGE_PRESENT = true -> (sh =? 12) || tst f PAGE_HUGE = true ->
  kwalk (b_mem s) (sh :: shs) (tbl i) v w x false = Some (mk_access (p + v mod 2 ^ sh) (w && tst f PAGE_RW) (x && negb (tst f PAGE_NX)) false).
Proof.
  intros Hs H Hq Hc Hp Hm Hpr Hh. cbn [kwalk]. pose proof (r_entry _ _ H _ _ (pt_index v sh) Hq (pt_index_range v sh Hs)) as He. unfold rd in He.
  rewrite He, Hc. destruct (entry_flags p f Hp) as (-> & -> & -> & -> & ->). rewrite Hpr, Hh, entry_addr by done. done.
Qed.

Lemma direct_index a : 0 <= a < 2 ^ 39 -> let v := HHDM_BASE + a in
  pt_index v 39 = 256 /\ pt_index v 30 = a / PAGE_SIZE_2M / 512 /\ pt_index v 21 = a / PAGE_SIZE_2M mod 512 /\ pt_index v 12 = a / PAGE_SIZE mod 512 /\
  a / PAGE_SIZE / 512 = a / PAGE_SIZE_2M /\ v mod 2 ^ 21 = a mod 2 ^ 21 /\ v mod 2 ^ 12 = a mod 2 ^ 12.
Proof.
  intros Ha. cbv zeta. rewrite !pt_index_eq by done. unfold HHDM_BASE, PAGE_SIZE, PAGE_SIZE_2M. cbn -[Z.div Z.modulo Z.add] in *.
  split_and!; Z.to_euclidean_division_equations; lia.
Qed.

Lemma image_index a : 0 <= a < 2 ^ 30 -> let v := KERNEL_VMA_BASE + a in
  pt_index v 39 = 511 /\ pt_index v 30 = 510 /\ pt_index v 21 = a / PAGE_SIZE / 512 /\ pt_index v 12 = a / PAGE_SIZE mod 512 /\ v mod 2 ^ 12 = a mod 2 ^ 12.
Proof.
  intros Ha. cbv zeta. rewrite !pt_index_eq by done. unfold KERNEL_VMA_BASE, PAGE_SIZE. cbn -[Z.div Z.modulo Z.add] in *.
  split_and!; Z.to_euclidean_division_equations; lia.
Qed.

Lemma other_index v : canonical v -> ~ (HHDM_BASE <= v < HHDM_BASE + 2 ^ 39) -> ~ (KERNEL_VMA_BASE <= v < KERNEL_VMA_BASE + 2 ^ 30) ->
  pt_index v 39 <> 256 /\ (pt_index v 39 = 511 -> pt_index v 30 <> 510).
Proof.
  intros Hc. rewrite !pt_index_eq by done. unfold canonical, HHDM_BASE, KERNEL_VMA_BASE in *. cbn -[Z.div Z.modulo Z.add] in *.
  split; Z.to_euclidean_division_equations; lia.
Qed.

Lemma nxv_flags f : f = 1 \/ f = 3 \/ f = 0x83 -> Z.land (Z.lor f nxv) ENTRY_ADDR_MASK = 0 /\ tst (Z.lor f nxv) PAGE_PRESENT = true /\
  tst (Z.lor f nxv) PAGE_HUGE = (f =? 0x83) /\ tst (Z.lor f nxv) PAGE_RW = negb (f =? 1) /\ tst (Z.lor f nxv) PAGE_NX = nx.
Proof. unfold nxv. intros [-> |[-> | ->]]; by destruct nx. Qed.

Lemma image_flags_spec f : image_flags f -> Z.land (Z.lor f 1) ENTRY_ADDR_MASK = 0 /\ tst (Z.lor f 1) PAGE_PRESENT = true /\
  tst (Z.lor f 1) PAGE_RW = tst f PAGE_RW /\ tst (Z.lor f 1) PAGE_NX = tst f PAGE_NX.
Proof. unfold image_flags, nxv. intros [-> |[-> | ->]]; by destruct nx. Qed.

Lemma page_phys n : 0 <= n < 2 ^ 40 -> phys_ok (n * PAGE_SIZE).
Proof. intros Hn. unfold phys_ok, PAGE_SIZE. split; [lia|by apply Z.mod_mul]. Qed.

(** Below the top: a gigabyte of the direct map. *)
Lemma walk_direct A s a : rep A s -> 0 <= a < 2 ^ 39 ->
  kernel_translate (b_mem s) (tbl 0) (HHDM_BASE + a) =
    if decide (a / PAGE_SIZE_2M ∈ t_big A) then Some (mk_access a (negb (bool_decide (a / PAGE_SIZE ∈ t_ro A))) (negb nx) false) else None.
Proof.
  intros H Ha. destruct (direct_index a Ha) as (E39 & E30 & E21 & E12 & Enr & M21 & M12). pose proof (r_valid _ _ H) as Hv.
  destruct (v_top _ Hv) as (Q0 & Q1 & _). unfold kernel_translate. set (v := HHDM_BASE + a) in *.
  rewrite (walk_link A s (0, 0) 0 1) by (done || (rewrite E39; by apply (content_link _ _ _ (1, 0))) || eapply tab_in_pool; done).
  set (r := a / PAGE_SIZE_2M) in *. set (n := a / PAGE_SIZE) in *.
  assert (Hr : 0 <= r < 2 ^ 18) by (unfold r, PAGE_SIZE_2M; split; [apply Z.div_pos; lia|apply Z.div_lt_upper_bound; lia]).
  assert (Hn : 0 <= n < 2 ^ 27) by (unfold n, PAGE_SIZE; split; [apply Z.div_pos; lia|apply Z.div_lt_upper_bound; lia]).
  pose proof (Z.div_mod r 512 ltac:(lia)) as Hdm. pose proof (Z.div_mod n 512 ltac:(lia)) as Hdn. rewrite Enr in Hdn.
  destruct (t_at A !! (4, r / 512)) as [i|] eqn:E4.
  2: { rewrite (walk_absent A s (1, 0) 1); [|done..|by rewrite E30, (content_leaf _ _ _ (4, r / 512))].
       rewrite decide_False; [done|]. intros Hb. destruct (v_big _ Hv _ Hb) as [_ [k Hk]]. congruence. }
  rewrite (walk_link A s (1, 0) 1 i) by (done || (rewrite E30; by apply (content_link _ _ _ (4, r / 512))) || eapply tab_in_pool; done).
  assert (Hc : child (4, r / 512) (r mod 512) = Some (5, r)) by (cbn; do 2 f_equal; lia).
  destruct (t_at A !! (5, r)) as [k|] eqn:E5.
  - rewrite (walk_link A s (4, r / 512) i k) by (done || (rewrite E21; by apply (content_link _ _ _ (5, r))) || eapply tab_in_pool; done).
    assert (Hb : r ∈ t_big A) by (pose proof (v_role _ Hv _ _ E5) as Hro; unfold role_ok in Hro; intuition lia).
    rewrite decide_True by done. set (f := if bool_decide (n ∈ t_ro A) then 1 else 3).
    destruct (nxv_flags f ltac:(unfold f; case_bool_decide; auto)) as (F1 & F2 & F3 & F4 & F5).
    rewrite (walk_leaf A s (5, r) k [] 12 v (n * PAGE_SIZE) (Z.lor f nxv)); try done; [| |by apply page_phys; lia].
    + rewrite F4, F5, M12. do 2 f_equal; [|unfold f; by case_bool_decide]. unfold n, PAGE_SIZE. change (2 ^ 12) with 4096. pose proof (Z.div_mod a 4096 ltac:(lia)). lia.
    + rewrite E12. change (content A (5, r) (n mod 512)) with (leaf A (5, r) (n mod 512)). unfold leaf. cbn [Z.eqb Pos.eqb]. rewrite <- Hdn.
      unfold f. by case_bool_decide; case_decide.
  - destruct (decide (r ∈ t_big A)) as [Hb|Hb].
    + destruct (nxv_flags 0x83 ltac:(auto)) as (F1 & F2 & F3 & F4 & F5).
      rewrite (walk_leaf A s (4, r / 512) i [12] 21 v (r * PAGE_SIZE_2M) (Z.lor 0x83 nxv)); try done.
      * rewrite F4, F5, M21. do 2 f_equal; [unfold r, PAGE_SIZE_2M; change (2 ^ 21) with 0x200000; pose proof (Z.div_mod a 0x200000 ltac:(lia)); lia|].
        rewrite bool_decide_eq_false_2; [done|]. intros Hro. destruct (v_ro _ Hv _ Hro) as [k Hk]. rewrite Enr in Hk. congruence.
      * rewrite E21, (content_leaf _ _ _ (5, r)) by done. unfold leaf. cbn [Z.eqb Pos.eqb]. by rewrite <- Hdm, decide_True.
      * replace (r * PAGE_SIZE_2M) with ((r * 512) * PAGE_SIZE) by (unfold PAGE_SIZE_2M, PAGE_SIZE; lia). apply page_phys. lia.
    + rewrite (walk_absent A s (4, r / 512) i); [done|done..|]. rewrite E21, (content_leaf _ _ _ (5, r)) by done. unfold leaf. cbn [Z.eqb Pos.eqb]. by rewrite <- Hdm, decide_False.
Qed.

Lemma walk_image A s a : rep A s -> 0 <= a < 2 ^ 30 ->
  kernel_translate (b_mem s) (tbl 0) (KERNEL_VMA_BASE + a) =
    match t_image A !! (a / PAGE_SIZE) with
    | Some f => Some (mk_access a (tst f PAGE_RW) (negb (tst f PAGE_NX)) false)
    | None => None
    end.
Proof.
  intros H Ha. destruct (image_index a Ha) as (E39 & E30 & E21 & E12 & M12). pose proof (r_valid _ _ H) as Hv.
  destruct (v_top _ Hv) as (Q0 & _ & Q2 & Q3). unfold kernel_translate. set (v := KERNEL_VMA_BASE + a) in *. set (n := a / PAGE_SIZE) in *.
  rewrite (walk_link A s (0, 0) 0 2) by (done || (rewrite E39; by apply (content_link _ _ _ (2, 0))) || eapply tab_in_pool; done).
  rewrite (walk_link A s (2, 0) 2 3) by (done || (rewrite E30; by apply (content_link _ _ _ (3, 0))) || eapply tab_in_pool; done).
  assert (Hn : 0 <= n < 2 ^ 18) by (unfold n, PAGE_SIZE; split; [apply Z.div_pos; lia|apply Z.div_lt_upper_bound; lia]).
  pose proof (Z.div_mod n 512 ltac:(lia)) as Hdn.
  destruct (t_at A !! (6, n / 512)) as [i|] eqn:E6.
  - rewrite (walk_link A s (3, 0) 3 i) by (done || (rewrite E21; by apply (content_link _ _ _ (6, n / 512))) || eapply tab_in_pool; done).
    assert (Hlf : content A (6, n / 512) (pt_index v 12) = match t_image A !! n with Some f => Z.lor (n * PAGE_SIZE) (Z.lor f 1) | None => 0 end).
    { rewrite E12. change (content A (6, n / 512) (n mod 512)) with (leaf A (6, n / 512) (n mod 512)). unfold leaf. cbn [Z.eqb Pos.eqb]. by rewrite <- Hdn. }
    destruct (t_image A !! n) as [f|] eqn:Ef.
    + destruct (v_image _ Hv _ _ Ef) as (_ & Hf & _). destruct (image_flags_spec f Hf) as (F1 & F2 & F3 & F4).
      rewrite (walk_leaf A s (6, n / 512) i [] 12 v (n * PAGE_SIZE) (Z.lor f 1)); try done; [|by apply page_phys; lia].
      rewrite F3, F4, M12. do 2 f_equal. unfold n, PAGE_SIZE. change (2 ^ 12) with 4096. pose proof (Z.div_mod a 4096 ltac:(lia)). lia.
    + apply (walk_absent A s (6, n / 512) i); [done..|by rewrite Hlf].
  - rewrite (walk_absent A s (3, 0) 3); [|done..|by rewrite E21, (content_leaf _ _ _ (6, n / 512))].
    destruct (t_image A !! n) as [f|] eqn:Ef; [|done]. destruct (v_image _ Hv _ _ Ef) as (_ & _ & [k Hk]). congruence.
Qed.

Lemma walk_map A s v : rep A s -> canonical v -> kernel_translate (b_mem s) (tbl 0) v = map_of A v.
Proof.
  intros H Hc. unfold map_of. cbv zeta. destruct ((HHDM_BASE <=? v) && (v <? HHDM_BASE + 2 ^ 39)) eqn:E1; bool_simpl.
  { replace v with (HHDM_BASE + (v - HHDM_BASE)) at 1 by lia. apply walk_direct; [done|lia]. }
  destruct ((KERNEL_VMA_BASE <=? v) && (v <? KERNEL_VMA_BASE + 2 ^ 30)) eqn:E2; bool_simpl.
  { replace v with (KERNEL_VMA_BASE + (v - KERNEL_VMA_BASE)) at 1 by lia. apply walk_image; [done|lia]. }
  destruct (other_index v Hc ltac:(lia) ltac:(lia)) as [N256 N510]. destruct (v_top _ (r_valid _ _ H)) as (Q0 & _ & Q2 & _).
  unfold kernel_translate. destruct (decide (pt_index v 39 = 511)) as [E39|N511].
  - rewrite (walk_link A s (0, 0) 0 2) by (done || (rewrite E39; by apply (content_link _ _ _ (2, 0))) || eapply tab_in_pool; done).
    apply (walk_absent A s (2, 0) 2); [done..|]. unfold content, child. cbn [Z.eqb Pos.eqb]. by rewrite (proj2 (Z.eqb_neq _ 510)) by auto.
  - apply (walk_absent A s (0, 0) 0); [done..|]. unfold content, child. cbn [Z.eqb Pos.eqb].
    by rewrite (proj2 (Z.eqb_neq _ 256)), (proj2 (Z.eqb_neq _ 511)) by auto.
Qed.

(** ** All of [paging_init] *)

Section start.
Context (cpuid_count : Z -> Z -> Z * Z * Z * Z) (info : NTBLI).

(** The conditions on the boot information: the framebuffer is in the span of
    one top table and has no more than 64 GiB; the memory map is not in the
    pool of the tables. *)
Definition fb_end : Z := u64 (framebuffer_base info + framebuffer_size info).
Record boot_info_ok : Prop := {
  bi_fb : 0 <= framebuffer_base info < 2 ^ 64;
  bi_fb_end : fb_end <= 2 ^ 39 /\ fb_end - framebuffer_base info <= 2 ^ 36;
  bi_map : 0 <= memmap_size info;
  bi_apart : forall a, memmap_base info <= a < memmap_base info + memmap_size info -> ~ (g_pool y <= a < g_pool y + PAGING_POOL_PAGES * 4096);
}.

(** The end of the direct map. *)
Definition direct_limit (m : mem) : Z :=
  align_up (Z.min HHDM_MAX_LIMIT (ram_limit m info (seqZ 0 (ntbli_memmap_count info)) HHDM_MIN_LIMIT)) PAGE_SIZE_2M.

(** The regions of two megabytes that are mapped beyond it. *)
Definition fb_region (lim r : Z) : Prop :=
  framebuffer_base info <> 0 /\ framebuffer_size info <> 0 /\ framebuffer_base info < fb_end /\ lim < fb_end /\
  framebuffer_base info / PAGE_SIZE_2M <= r < (fb_end + PAGE_SIZE_2M - 1) / PAGE_SIZE_2M.

Lemma ram_limit_ge m idx limit : limit <= ram_limit m info idx limit.
Proof.
  clear Hpool Hallowed Hlay.
  revert limit. induction idx as [|i idx IH]; intros limit; cbn [ram_limit]; [lia|]. cbv zeta. repeat case_match; try apply IH; [|lia].
  etrans; [|apply IH]. lia.
Qed.

Lemma ram_limit_covers m idx limit i d : (forall j, j ∈ idx -> is_Some (ntbli_memmap_at m info j)) -> i ∈ idx -> ntbli_memmap_at m info i = Some d ->
  not_ram d = false -> md_num_pages d <= 2 ^ 36 -> md_phys_start d + md_num_pages d * 4096 < 2 ^ 64 ->
  md_phys_start d + md_num_pages d * 4096 <= ram_limit m info idx limit.
Proof.
  clear Hpool Hallowed Hlay.
  intros Hs Hi Hd Hr Hn He. revert limit Hs. induction Hi as [i idx|i j idx Hi IH]; intros limit Hs; cbn [ram_limit].
  - rewrite Hd, Hr. destruct (memmap_at_ok _ _ _ _ Hd) as [Ho1 Ho2]. rewrite (proj2 (Z.ltb_ge _ _)) by exact Hn. cbv zeta. unfold NTBLI_PAGE_SIZE. rewrite uw_small by lia.
    rewrite (proj2 (Z.ltb_ge _ _)) by lia. etrans; [|apply ram_limit_ge]. case_if; lia.
  - destruct (Hs j) as [e He']; [by left|]. rewrite He'. assert (Hs' : forall j, j ∈ idx -> is_Some (ntbli_memmap_at m info j)) by (intros ??; apply Hs; by right).
    cbv zeta. repeat case_if; by apply (IH Hd).
Qed.

Lemma ram_limit_ext m m' idx limit : (forall i, i ∈ idx -> ntbli_memmap_at m info i = ntbli_memmap_at m' info i) -> ram_limit m info idx limit = ram_limit m' info idx limit.
Proof.
  revert limit. induction idx as [|i idx IH]; intros limit H; [done|]. cbn [ram_limit]. rewrite (H i) by by left.
  assert (IH' : forall limit, ram_limit m info idx limit = ram_limit m' info idx limit) by (intros; apply IH; intros; apply H; by right).
  cbv zeta. repeat case_match; by rewrite ?IH'.
Qed.

Lemma direct_limit_spec m : HHDM_MIN_LIMIT <= direct_limit m <= HHDM_MAX_LIMIT /\ exists R, direct_limit m = R * PAGE_SIZE_2M /\ 2 ^ 11 <= R <= 2 ^ 15.
Proof.
  clear Hpool Hallowed Hlay.
  unfold direct_limit. pose proof (ram_limit_ge m (seqZ 0 (ntbli_memmap_count info)) HHDM_MIN_LIMIT) as Hge. set (l := Z.min _ _).
  assert (Hl : HHDM_MIN_LIMIT <= l <= HHDM_MAX_LIMIT) by (unfold l, HHDM_MIN_LIMIT, HHDM_MAX_LIMIT in *; lia).
  unfold HHDM_MIN_LIMIT, HHDM_MAX_LIMIT in Hl. change PAGE_SIZE_2M with (2 ^ 21). rewrite align_up_eq by lia. set (k := l + 2 ^ 21 - 1).
  pose proof (Z.div_mod k (2 ^ 21) ltac:(lia)) as Hd. pose proof (Z.mod_pos_bound k (2 ^ 21) ltac:(lia)) as Hm.
  assert (HR : 2 ^ 11 <= k / 2 ^ 21 <= 2 ^ 15).
  { split; [apply Z.div_le_lower_bound; unfold k; lia|]. apply Z.lt_succ_r, Z.div_lt_upper_bound; unfold k; lia. }
  unfold HHDM_MIN_LIMIT, HHDM_MAX_LIMIT. split; [lia|]. exists (k / 2 ^ 21). split; [lia|exact HR].
Qed.


Lemma set_limit_spec A s : rep A s -> rep A (set_limit info s) /\ g_hhdm_limit (set_limit info s) = direct_limit (b_mem s) /\
  b_mem (set_limit info s) = b_mem s.
Proof.
  intros H. unfold set_limit, direct_limit. set (l := ram_limit _ _ _ _). destruct (Z.ltb_spec HHDM_MAX_LIMIT l).
  - rewrite Z.min_l by lia. split; [|done]. by destruct H.
  - rewrite Z.min_r by lia. split; [|done]. by destruct H.
Qed.

Lemma map_framebuffer_spec A s : boot_info_ok -> rep A s -> 0 <= g_hhdm_limit s -> (forall r, fb_region (g_hhdm_limit s) r -> (4, r / 512) ∈ allowed) ->
  wp (map_framebuffer y info) (fun x s' => x = Ok tt /\ exists A', rep A' s' /\ like s s' /\
    (forall r, r ∈ t_big A' <-> r ∈ t_big A \/ fb_region (g_hhdm_limit s) r) /\ t_ro A' = t_ro A /\ t_image A' = t_image A) s.
Proof.
  intros [Hfb [Hfe Hsz] _ _] H Hlim Hal. unfold wp, map_framebuffer. cbv zeta. fold fb_end. unfold fb_region in *.
  set (fb := framebuffer_base info) in *. set (fe := fb_end) in *.
  assert (Hskip : (forall r, ~ (fb <> 0 /\ framebuffer_size info <> 0 /\ fb < fe /\ g_hhdm_limit s < fe /\ fb / PAGE_SIZE_2M <= r < (fe + PAGE_SIZE_2M - 1) / PAGE_SIZE_2M)) ->
    Ok tt = Ok tt /\ exists A', rep A' s /\ like s s /\
    (forall r, r ∈ t_big A' <-> r ∈ t_big A \/ (fb <> 0 /\ framebuffer_size info <> 0 /\ fb < fe /\ g_hhdm_limit s < fe /\ fb / PAGE_SIZE_2M <= r < (fe + PAGE_SIZE_2M - 1) / PAGE_SIZE_2M)) /\
    t_ro A' = t_ro A /\ t_image A' = t_image A).
  { intros Hno. split; [done|]. exists A. split; [done|]. split; [apply like_refl|]. split; [|done]. intros r. split; [by left|]. intros [?|Hr]; [done|by destruct (Hno r)]. }
  destruct (negb (fb =? 0) && negb (framebuffer_size info =? 0)) eqn:E1; bool_simpl; [|apply Hskip; intros r ?; lia].
  destruct ((fb <? fe) && (g_hhdm_limit s <? fe)) eqn:E2; bool_simpl; [|apply Hskip; intros r ?; lia].
  assert (Hd : align_down fb PAGE_SIZE_2M = fb / PAGE_SIZE_2M * PAGE_SIZE_2M).
  { change PAGE_SIZE_2M with (2 ^ 21). rewrite align_down_eq by lia. pose proof (Z.div_mod fb (2 ^ 21) ltac:(lia)). lia. }
  assert (Hu : align_up fe PAGE_SIZE_2M = (fe + PAGE_SIZE_2M - 1) / PAGE_SIZE_2M * PAGE_SIZE_2M).
  { change PAGE_SIZE_2M with (2 ^ 21). rewrite align_up_eq by lia. pose proof (Z.div_mod (fe + 2 ^ 21 - 1) (2 ^ 21) ltac:(lia)). lia. }
  rewrite Hd, Hu. set (r0 := fb / PAGE_SIZE_2M) in *. set (r1 := (fe + PAGE_SIZE_2M - 1) / PAGE_SIZE_2M) in *.
  assert (Hr0 : 0 <= r0) by (unfold r0, PAGE_SIZE_2M; apply Z.div_pos; lia).
  assert (Hr01 : r0 <= r1) by (unfold r0, r1; apply Z.div_le_mono; unfold PAGE_SIZE_2M; lia).
  assert (Hr1 : r1 <= 2 ^ 18) by (apply Z.lt_succ_r; unfold r1, PAGE_SIZE_2M; apply Z.div_lt_upper_bound; lia).
  eapply wp_mono; [apply (map_hhdm_2m_spec A s r0 r1); [done|lia|done|]|].
  - intros r Hr. apply Hal. split_and!; lia.
  - intros x s' (-> & A' & H' & L' & B' & R' & I'). split; [done|]. exists A'. split; [done|]. split; [done|]. split; [|done].
    intros r. rewrite B'. split; (intros [?|?]; [by left|right; lia]).
Qed.

(** What the tables hold at the end. *)
Record built (lim : Z) A : Prop := {
  bu_big r : r ∈ t_big A <-> 0 <= r < lim / PAGE_SIZE_2M \/ fb_region lim r;
  bu_ro n : n ∈ t_ro A <-> l_boot L <= n < l_end L;
  bu_image n : t_image A !! n = image_page_flags n;
}.

Record tables_allowed (lim : Z) : Prop := {
  ta_top i : 0 <= i < 4 -> (i, 0) ∈ allowed;
  ta_dir a : 0 <= a < 64 -> (4, a) ∈ allowed;
  ta_fb r : fb_region lim r -> (4, r / 512) ∈ allowed;
  ta_ro d : 0 <= d < 64 -> (5, d) ∈ allowed;
  ta_image d : 0 <= d < 64 -> (6, d) ∈ allowed;
}.

Lemma image_region n : 0 <= n < 2 ^ 15 -> 0 <= n / 512 < 64 /\ n / 512 / 512 = 0.
Proof. intros Hn. cbn -[Z.div]. Z.to_euclidean_division_equations. lia. Qed.

Lemma limit_regions R r : 2 ^ 11 <= R <= 2 ^ 15 -> 0 <= r < R -> 0 <= r / 512 < 64.
Proof. intros HR Hr. split; [apply Z.div_pos; lia|apply Z.div_lt_upper_bound; lia]. Qed.

(** The tables are what is in the pool. *)
Definition pool_agrees (m m' : mem) : Prop := forall a, g_pool y <= a < g_pool y + PAGING_POOL_PAGES * 4096 -> ld8 m' a = ld8 m a.

Lemma rep_mem A s m : rep A s -> pool_agrees (b_mem s) m -> rep A (with_bmem m s).
Proof.
  intros H Hm. split; try apply H. intros q i j Hq Hj. rewrite <- (r_entry _ _ H q i j Hq Hj). pose proof (tab_in_pool _ _ _ _ H Hq) as Hi.
  unfold rd. cbn [b_mem with_bmem]. apply ldn_ext. intros b Hb. apply Hm. unfold in_pool, tbl, PAGING_POOL_PAGES, PAGE_SIZE in *. lia.
Qed.

Lemma paging_init_rep s : let f := detect_cpu_features cpuid_count s in let lim := direct_limit (b_mem s) in
  b_nx_supported f = nx -> boot_info_ok -> tables_allowed lim ->
  wp (paging_init cpuid_count y (Some info)) (fun r s' => r = Ok tt /\ exists A, rep A s' /\ built lim A /\
    g_hhdm_limit s' = lim /\ outside (b_mem s) (b_mem s')) s.
Proof.
  intros f lim Hnx Hbi [T0 T4 Tf T5 T6]. unfold wp, paging_init, tryb. fold f.
  destruct (wp_run _ _ _ (top_tables_spec f Hnx T0)) as (x0 & s0 & -> & -> & H0 & S0 & O0). cbv zeta.
  destruct (set_limit_spec _ _ H0) as (H1 & Hl & Ms). set (s1 := set_limit info s0) in *.
  assert (El : direct_limit (b_mem s0) = lim).
  { unfold lim, direct_limit. rewrite (ram_limit_ext (b_mem s0) (b_mem s)); [done|]. intros i Hi. rewrite elem_of_seqZ in Hi. destruct Hbi as [_ _ Hm Hap].
    apply ntbli_memmap_at_ext; [lia|exact Hm|]. intros a Ha. rewrite (O0 a); [|by apply Hap]. unfold f, detect_cpu_features. by repeat case_match. }
  rewrite El in Hl. destruct (direct_limit_spec (b_mem s)) as (Hlim & R & HR & HRr). fold lim in Hlim, HR.
  assert (Hdiv : lim / PAGE_SIZE_2M = R) by (rewrite HR; by apply Z.div_mul). rewrite Hl. replace (map_hhdm_2m y 0 lim) with (map_hhdm_2m y (0 * PAGE_SIZE_2M) (R * PAGE_SIZE_2M)) by (by rewrite HR).
  destruct (wp_run _ _ _ (map_hhdm_2m_spec tabs0 s1 0 R H1 ltac:(lia) ltac:(lia) ltac:(intros r Hr; apply T4; by apply (limit_regions R)))) as (x2 & s2 & -> & -> & A2 & H2 & L2 & B2 & R2 & I2).
  assert (Hl2 : g_hhdm_limit s2 = lim) by (destruct L2 as (_ & _ & _ & _ & _ & -> & _); exact Hl).
  destruct (wp_run _ _ _ (map_framebuffer_spec A2 s2 Hbi H2 ltac:(rewrite Hl2; unfold HHDM_MIN_LIMIT in Hlim; lia) ltac:(rewrite Hl2; exact Tf))) as (x3 & s3 & -> & -> & A3 & H3 & L3 & B3 & R3 & I3).
  rewrite Hl2 in B3. pose proof Hlay as [Lb _ _ [_ Le] _ Lo Ls]. rewrite Lb, Le. replace (u64 (vpage (l_end L) - KERNEL_VMA_BASE)) with (l_end L * PAGE_SIZE) by (unfold vpage, PAGE_SIZE; rewrite uw_small; lia).
  rewrite (end_aligned (l_end L * PAGE_SIZE)) by (by right).
  assert (Hro : forall n, l_boot L <= n < l_end L -> n / 512 ∈ t_big A3 /\ (4, n / 512 / 512) ∈ allowed /\ (5, n / 512) ∈ allowed).
  { intros n Hn. destruct (image_region n ltac:(lia)) as [Hn1 Hn2]. rewrite Hn2. split; [|split; [apply T4; lia|by apply T5]]. rewrite B3, B2. left. right. lia. }
  destruct (wp_run _ _ _ (make_readonly_spec A3 s3 (l_boot L) (l_end L) H3 ltac:(lia) ltac:(lia) Hro)) as (x4 & s4 & -> & -> & A4 & H4 & L4 & B4 & R4 & I4).
  destruct (wp_run _ _ _ (map_kernel_image_spec A4 s4 H4 ltac:(by rewrite I4, I3, I2) ltac:(intros n Hn; apply T6; by apply image_region))) as (x5 & s5 & -> & -> & A5 & H5 & L5 & B5 & R5 & I5).
  split; [done|]. exists A5. split; [exact H5|].
  assert (LL : like s1 s5) by (eapply like_trans; [exact L2|]; eapply like_trans; [exact L3|]; by eapply like_trans).
  assert (Of : outside (b_mem s) (b_mem f)) by (unfold f, detect_cpu_features; by repeat case_match).
  destruct LL as (_ & _ & _ & _ & _ & El5 & _ & Oe). split; [|split; [by rewrite El5|eapply outside_trans; [exact Of|]; eapply outside_trans; [exact O0|]; by rewrite <- Ms]].
  split; [intros r|intros n|exact I5].
  - rewrite B5, B4, B3, B2, Hdiv. change (t_big tabs0) with (∅ : gset Z). rewrite elem_of_empty. tauto.
  - rewrite R5, R4, R3, R2. change (t_ro tabs0) with (∅ : gset Z). rewrite elem_of_empty. tauto.
Qed.

Lemma paging_init_run s : let f := detect_cpu_features cpuid_count s in let lim := direct_limit (b_mem s) in
  b_nx_supported f = nx -> boot_info_ok -> tables_allowed lim ->
  exists s' A, paging_init cpuid_count y (Some info) s = (Ok tt, s') /\ built lim A /\ g_hhdm_limit s' = lim /\ outside (b_mem s) (b_mem s') /\
    b_nx_supported s' = nx /\
    forall m v, pool_agrees (b_mem s') m -> canonical v -> kernel_translate m (b_pml4 s') v = map_of A v.
Proof.
  intros f lim Hnx Hbi Hta. destruct (wp_run _ _ _ (paging_init_rep s Hnx Hbi Hta)) as (x & s' & E & -> & A & H & Hb & Hl & Ho).
  exists s', A. split; [exact E|]. split; [exact Hb|]. split; [exact Hl|]. split; [exact Ho|]. split; [apply H|]. intros m v Hm Hv.
  pose proof (rep_mem A s' m H Hm) as H'. destruct (r_regs _ _ H) as (-> & _). by apply (walk_map A (with_bmem m s')).
Qed.
End start.
End tables.

(** ** What the kernel gets *)

(** The tables it may take: the four at the top, the directories of the direct
    map and of the framebuffer, and the tables of the image, of which there
    are two maps. *)
Definition roles (info : NTBLI) : list (Z * Z) :=
  ((., 0) <$> seqZ 0 4) ++ ((4,.) <$> seqZ 0 64) ++ ((4,.) <$> seqZ (framebuffer_base info / 2 ^ 30) 66) ++ ((5,.) <$> seqZ 0 64) ++ ((6,.) <$> seqZ 0 64).

Lemma size_list_to_set_le (l : list (Z * Z)) : (base.size (list_to_set l : gset (Z * Z)) <= length l)%nat.
Proof. induction l as [|x l IH]; cbn [list_to_set length]; [done|]. rewrite size_union_alt, size_singleton. pose proof (subseteq_size (list_to_set l ∖ {[x]}) (list_to_set l : gset (Z * Z)) ltac:(set_solver)). lia. Qed.

Lemma roles_size info : (base.size (list_to_set (roles info) : gset (Z * Z)) <= Z.to_nat PAGING_POOL_PAGES)%nat.
Proof. etrans; [apply size_list_to_set_le|]. unfold roles. rewrite !length_app, !length_fmap, !length_seqZ. unfold PAGING_POOL_PAGES. lia. Qed.

Lemma elem_roles q info : q ∈ roles info -> q ∈ (list_to_set (roles info) : gset (Z * Z)).
Proof. by rewrite elem_of_list_to_set. Qed.

Lemma roles_allowed y info lim : boot_info_ok y info -> tables_allowed (list_to_set (roles info)) info lim.
Proof.
  intros [Hfb [Hfe Hsz] _ _].
  assert (Hin : forall (f : Z -> Z * Z) a n x, a <= x < a + n -> f x ∈ f <$> seqZ a n) by (intros f a n x Hx; apply list_elem_of_fmap; exists x; by rewrite elem_of_seqZ).
  split; intros; apply elem_roles; unfold roles; rewrite !elem_of_app.
  - left. by apply (Hin (., 0)).
  - right; left. by apply (Hin (4,.)).
  - do 2 right; left. apply (Hin (4,.)). destruct H as (_ & _ & H1 & _ & H2). unfold PAGE_SIZE_2M in H2. clear Hin. cbn -[Z.div] in *. Z.to_euclidean_division_equations. lia.
  - do 3 right; left. by apply (Hin (5,.)).
  - do 4 right. by apply (Hin (6,.)).
Qed.

Section kernel_space.
Context (L : layout) (info : NTBLI) (nx : bool).

Definition in_range (lo hi n : Z) : bool := (lo <=? n) && (n <? hi).

(** Page [n] of the image, at its own address: may it be written, executed. *)
Definition image_access (n : Z) : option (bool * bool) :=
  if in_range (l_text L) (l_text_end L) n then Some (false, true)
  else if in_range (l_ro L) (l_ro_end L) n then Some (false, negb nx)
  else if in_range (l_data L) (l_end L) n && negb (n =? l_guard L) then Some (true, negb nx)
  else None.

(** Is the physical address in the framebuffer, rounded to large pages, where
    the direct map does not reach its end? *)
Definition in_framebuffer (lim a : Z) : bool :=
  negb (framebuffer_base info =? 0) && negb (framebuffer_size info =? 0) && (framebuffer_base info <? fb_end info) && (lim <? fb_end info) &&
  in_range (framebuffer_base info / PAGE_SIZE_2M) ((fb_end info + PAGE_SIZE_2M - 1) / PAGE_SIZE_2M) (a / PAGE_SIZE_2M).

(** The address space of the kernel, when the direct map ends at [lim]: the
    direct map, where the image cannot be written, and the image. *)
Definition kernel_map (lim v : Z) : option access :=
  if in_range HHDM_BASE (HHDM_BASE + 2 ^ 39) v then
    let a := v - HHDM_BASE in
    if (a <? lim) || in_framebuffer lim a then Some (mk_access a (negb (in_range (l_boot L) (l_end L) (a / PAGE_SIZE))) (negb nx) false)
    else None
  else if in_range KERNEL_VMA_BASE (KERNEL_VMA_BASE + 2 ^ 30) v then
    let a := v - KERNEL_VMA_BASE in
    match image_access (a / PAGE_SIZE) with
    | Some (w, x) => Some (mk_access a w x false)
    | None => None
    end
  else None.

Lemma in_range_spec lo hi n : in_range lo hi n = true <-> lo <= n < hi.
Proof. unfold in_range. lia. Qed.

Lemma map_of_kernel A R v : 0 <= R -> built nx L info (R * PAGE_SIZE_2M) A -> map_of nx A v = kernel_map (R * PAGE_SIZE_2M) v.
Proof.
  intros HR [Hb Hr Hi]. unfold map_of, kernel_map. cbv zeta. unfold in_range at 1. destruct ((HHDM_BASE <=? v) && _) eqn:Ew; bool_simpl.
  - set (a := v - HHDM_BASE) in *. assert (Ha : 0 <= a) by (unfold a; lia).
    replace (bool_decide (a / PAGE_SIZE ∈ t_ro A)) with (in_range (l_boot L) (l_end L) (a / PAGE_SIZE)).
    2: { apply eq_bool_prop_intro. rewrite bool_decide_spec, Hr. by rewrite <- in_range_spec, Is_true_true. }
    set (bm := (a <? R * PAGE_SIZE_2M) || _). assert (Hbm : a / PAGE_SIZE_2M ∈ t_big A <-> bm = true); [|destruct bm; [by rewrite decide_True by tauto|rewrite decide_False; [done|]]].
    2: { intros Hin. apply Hbm in Hin. done. }
    rewrite Hb, Z.div_mul by done. unfold bm, in_framebuffer, fb_region. rewrite orb_true_iff, !andb_true_iff, in_range_spec, !negb_true_iff, !Z.ltb_lt, !Z.eqb_neq.
    assert (Hlt : 0 <= a / PAGE_SIZE_2M < R <-> a < R * PAGE_SIZE_2M) by (unfold PAGE_SIZE_2M; Z.to_euclidean_division_equations; lia). rewrite Hlt. tauto.
  - unfold in_range at 1. destruct ((KERNEL_VMA_BASE <=? v) && _); [|done]. rewrite Hi. unfold image_page_flags, image_access, in_range, nxv. repeat case_if; try done; by destruct nx.
Qed.
End kernel_space.

(** The pool is in the part of the address space the image is linked at. *)
Definition pool_ok (y : symbols) : Prop := KERNEL_VMA_BASE <= g_pool y /\ g_pool y + PAGING_POOL_PAGES * 4096 <= 2 ^ 64 /\ g_pool y mod 4096 = 0.

Section kernel.
Context (cpuid_count : Z -> Z -> Z * Z * Z * Z) (y : symbols) (L : layout) (info : NTBLI) (s : boot).
Context (Hpool : pool_ok y) (Hlay : laid_out y L) (Hinfo : boot_info_ok y info).

Definition cpu_nx : bool := b_nx_supported (detect_cpu_features cpuid_count s).

(** [paging_init] succeeds, and this is the address space it builds. *)
Lemma kernel_space_run : let lim := direct_limit info (b_mem s) in
  exists s', paging_init cpuid_count y (Some info) s = (Ok tt, s') /\ paging_hhdm_limit s' = lim /\ b_nx_supported s' = cpu_nx /\
    outside y (b_mem s) (b_mem s') /\
    forall m v, pool_agrees y (b_mem s') m -> canonical v -> kernel_translate m (b_pml4 s') v = kernel_map L info cpu_nx lim v.
Proof.
  cbv zeta. destruct (paging_init_run y cpu_nx Hpool (list_to_set (roles info)) (roles_size info) L Hlay cpuid_count info s eq_refl Hinfo (roles_allowed y info _ Hinfo))
    as (s' & A & E & Hb & Hl & Ho & Hn & Hm).
  exists s'. split; [exact E|]. split; [exact Hl|]. split; [exact Hn|]. split; [exact Ho|]. intros m v Ha Hv. rewrite (Hm m v Ha Hv).
  destruct (direct_limit_spec info (b_mem s)) as (_ & R & HR & HRr). rewrite HR in *. apply map_of_kernel; [lia|exact Hb].
Qed.
End kernel.

(** ** The claims *)

Lemma direct_limit_covers info m i d : 0 <= i < ntbli_memmap_count info -> ntbli_memmap_at m info i = Some d ->
  not_ram d = false -> md_num_pages d <= 2 ^ 36 -> md_phys_start d + md_num_pages d * 4096 < 2 ^ 64 ->
  md_phys_start d + md_num_pages d * 4096 <= direct_limit info m \/ direct_limit info m = HHDM_MAX_LIMIT.
Proof.
  intros Hi Hd Hr Hn He. unfold direct_limit. set (idx := seqZ _ _). set (l := ram_limit _ _ _ _).
  assert (Hl : md_phys_start d + md_num_pages d * 4096 <= l).
  { apply (ram_limit_covers info m idx _ i); [|by apply elem_of_seqZ|done..]. intros j Hj. apply elem_of_seqZ in Hj.
    unfold ntbli_memmap_count, ntbli_memmap_at in *. case_if; [lia|]. cbv zeta. rewrite (proj2 (Z.leb_gt _ _)) by lia. by eexists. }
  destruct (Z.le_gt_cases l HHDM_MAX_LIMIT) as [Hle|Hgt].
  - left. rewrite Z.min_r by done. pose proof (ram_limit_ge info m idx HHDM_MIN_LIMIT) as Hge. fold l in Hge.
    unfold HHDM_MIN_LIMIT, HHDM_MAX_LIMIT in *. destruct (align_up_spec l 21 ltac:(lia) ltac:(lia) ltac:(lia)) as [Hb _]. change PAGE_SIZE_2M with (2 ^ 21). lia.
  - right. by rewrite Z.min_l by lia.
Qed.

Lemma kernel_map_text L info lim v a (y : symbols) : laid_out y L -> kernel_map L info true lim v = Some a ->
  a_user a = false /\ (a_exec a = true -> in_range (l_text L) (l_text_end L) (a_phys a / PAGE_SIZE) = true) /\
  (a_write a = true -> in_range (l_text L) (l_text_end L) (a_phys a / PAGE_SIZE) = false).
Proof.
  intros [_ _ _ _ _ Ho _]. unfold kernel_map. cbv zeta. case_if.
  - case_if; [|done]. intros [= <-]. cbn. split; [done|]. split; [done|]. unfold in_range. intros Hw. lia.
  - case_if; [|done]. unfold image_access. case_if; [|case_if; [|case_if; [|done]]]; intros [= <-]; cbn; (split; [done|]); split; done.
Qed.

Lemma tst_lor_same x k : 0 <= k -> tst (Z.lor x (2 ^ k)) (2 ^ k) = true.
Proof. intros Hk. by rewrite tst_bit, Z.lor_spec, Z.pow2_bits_true, orb_true_r. Qed.

(** A frame the allocator may own, when it is given the limit of the direct map
    and the physical range of the image, is mapped writable. *)
Lemma frame_mapped L info nx lim (y : symbols) r d p o : laid_out y L -> lim <= HHDM_MAX_LIMIT -> hhdm_limit r = lim -> kernel_phys_start r = boot_start y ->
  kernel_phys_end r = align_up (u64 (kernel_end y - KERNEL_VMA_BASE)) PAGE_SIZE -> usable r d p -> 0 <= o < PAGE_SIZE ->
  canonical (phys_to_virt p + o) /\ kernel_map L info nx lim (phys_to_virt p + o) = Some (mk_access (p + o) true (negb nx) false).
Proof.
  intros Hl Hlim Hr1 Hr2 Hr3 Hu Ho. unfold HHDM_MAX_LIMIT in Hlim.
  assert (Hf : frame_ok p) by (eapply usable_frame_ok, Hu; rewrite Hr1; unfold PHYS_LIMIT, KERNEL_VMA_BASE, HHDM_BASE; lia).
  destruct Hu as (_ & _ & _ & Ha & _ & _ & Hpl & Hlow & Hk & _). rewrite Hr1 in Hpl. pose proof Hl as [Lb _ _ [_ Le] _ Lo Ls].
  rewrite (frame_virt p Hf). assert (Hp0 : 0 < p) by apply Hf. unfold PAGE_SIZE in Ho, Hpl.
  split; [unfold canonical, HHDM_BASE; lia|]. unfold kernel_map. cbv zeta. replace (p + HHDM_BASE + o - HHDM_BASE) with (p + o) by lia.
  rewrite (proj2 (in_range_spec HHDM_BASE (HHDM_BASE + 2 ^ 39) _)) by lia. rewrite (proj2 (Z.ltb_lt (p + o) lim)) by lia. cbn [orb]. do 2 f_equal.
  assert (Hpg : (p + o) / PAGE_SIZE = p / PAGE_SIZE /\ p = p / PAGE_SIZE * PAGE_SIZE) by (unfold PAGE_SIZE in *; Z.to_euclidean_division_equations; lia).
  destruct Hpg as [-> Hpp]. rewrite Le in Hr3. replace (u64 (vpage (l_end L) - KERNEL_VMA_BASE)) with (l_end L * PAGE_SIZE) in Hr3 by (unfold vpage, PAGE_SIZE; rewrite uw_small; lia).
  rewrite (end_aligned y L Hl) in Hr3 by (by right). rewrite Hr2, Lb, Hr3 in Hk. apply negb_true_iff, not_true_iff_false. rewrite in_range_spec. intros Hin.
  apply (Hk p); unfold PAGE_SIZE in *; lia.
Qed.

Section claims.
Context (cpuid_count : Z -> Z -> Z * Z * Z * Z) (y : symbols) (L : layout) (info : NTBLI) (s : boot).

(** C6: [paging_init] succeeds and leaves the address space of [kernel_map]:
    the direct map shows physical memory up to its limit, and the framebuffer
    beyond it, writable except over the kernel image and never executable where
    the processor can tell; at its own address the image has its text
    executable, its constants read-only, its data writable and the stack's
    guard page absent; nothing else is mapped and nothing is for programs.  The
    limit is between 4 and 64 GiB and is beyond every piece of RAM in the memory
    map, unless it is 64 GiB. *)
Theorem paging_init_maps : pool_ok y -> laid_out y L -> boot_info_ok y info ->
  exists s', paging_init cpuid_count y (Some info) s = (Ok tt, s') /\
    let lim := paging_hhdm_limit s' in
    HHDM_MIN_LIMIT <= lim <= HHDM_MAX_LIMIT /\
    (forall i d, 0 <= i < ntbli_memmap_count info -> ntbli_memmap_at (b_mem s) info i = Some d ->
       not_ram d = false -> md_num_pages d <= 2 ^ 36 -> md_phys_start d + md_num_pages d * 4096 < 2 ^ 64 ->
       md_phys_start d + md_num_pages d * 4096 <= lim \/ lim = HHDM_MAX_LIMIT) /\
    forall v, canonical v -> kernel_translate (b_mem s') (b_pml4 s') v = kernel_map L info (cpu_nx cpuid_count s) lim v.
Proof.
  intros Hp Hl Hi. destruct (kernel_space_run cpuid_count y L info s Hp Hl Hi) as (s' & E & El & _ & _ & Hm'). pose proof (fun v => Hm' (b_mem s') v (fun _ _ => eq_refl)) as Hm. exists s'. split; [exact E|]. cbv zeta.
  rewrite El. split; [apply direct_limit_spec|]. split; [|exact Hm]. intros i d. apply direct_limit_covers.
Qed.

(** C7: on a processor with the no-execute bit, no physical page can be both
    written and executed in the address space of [paging_init], whatever two
    addresses are used, and none is for programs; [paging_enable] loads this
    address space and turns on what its entries rely on, the no-execute bit and
    write protection in the kernel. *)
Theorem kernel_write_xor_execute : pool_ok y -> laid_out y L -> boot_info_ok y info -> cpu_nx cpuid_count s = true ->
  exists s', paging_init cpuid_count y (Some info) s = (Ok tt, s') /\
    (forall v1 v2 a1 a2, canonical v1 -> canonical v2 ->
       kernel_translate (b_mem s') (b_pml4 s') v1 = Some a1 -> kernel_translate (b_mem s') (b_pml4 s') v2 = Some a2 ->
       a_phys a1 / PAGE_SIZE = a_phys a2 / PAGE_SIZE -> a_user a1 = false /\ ~ (a_write a1 = true /\ a_exec a2 = true)) /\
    forall c, let c' := paging_enable s' c in
      cr3 c' = paging_kernel_cr3 s' /\ tst (msr_efer c') EFER_NXE = true /\ tst (cr0 c') CR0_WP = true.
Proof.
  intros Hp Hl Hi Hnx. destruct (kernel_space_run cpuid_count y L info s Hp Hl Hi) as (s' & E & _ & En & _ & Hm'). pose proof (fun v => Hm' (b_mem s') v (fun _ _ => eq_refl)) as Hm. rewrite Hnx in *. exists s'. split; [exact E|]. split.
  - intros v1 v2 a1 a2 C1 C2. rewrite !Hm by done. intros H1 H2 Heq.
    destruct (kernel_map_text L info _ v1 a1 y Hl H1) as (U1 & _ & W1). destruct (kernel_map_text L info _ v2 a2 y Hl H2) as (_ & X2 & _).
    split; [exact U1|]. intros [Hw Hx]. specialize (W1 Hw). specialize (X2 Hx). rewrite Heq in W1. congruence.
  - intros c. unfold paging_enable, paging_kernel_cr3. rewrite En. cbn [cr3 msr_efer cr0]. split; [done|]. split; [by apply (tst_lor_same _ 11)|by apply (tst_lor_same _ 16)].
Qed.

End claims.

(** *** A machine *)

(** The image is at one megabyte, with the pool in
    its data, and a framebuffer at 256 GiB. *)
Definition ex_layout : layout := mk_layout 0x100 0x110 0x150 0x150 0x170 0x170 0x400 0x180.
Definition ex_symbols : symbols :=
  mk_symbols 0x100000 (vpage 0x110) (vpage 0x150) (vpage 0x150) (vpage 0x170) (vpage 0x170) (vpage 0x400) (vpage 0x180) (vpage 0x200).
Definition ex_cpuid (leaf _ : Z) : Z * Z * Z * Z :=
  if leaf =? 0x80000000 then (0x80000008, 0, 0, 0) else if leaf =? 0x80000001 then (0, 0, 0, Z.shiftl 1 20) else (0, 0, 0, 0).
Definition ex_boot_info : NTBLI := mk_NTBLI NTBLI_MAGIC NTBLI_VERSION 0 0 0 0 (2 ^ 38) (2 ^ 23) 0 0 0 0 ex_map_base 40 40 1 0.
Definition ex_boot : boot := mk_boot ex_mem 0 0 0 0 false false 0 [].

Lemma ex_pool_placed : pool_ok ex_symbols.
Proof. unfold pool_ok. by vm_compute. Qed.

Lemma ex_laid_out : laid_out ex_symbols ex_layout.
Proof. by split. Qed.

Lemma ex_boot_info_ok : boot_info_ok ex_symbols ex_boot_info.
Proof.
  split; [done|by vm_compute|done|]. cbn. unfold ex_map_base, vpage, PAGING_POOL_PAGES, KERNEL_VMA_BASE, PAGE_SIZE. lia.
Qed.

Lemma paging_init_maps_witness :
  exists s', paging_init ex_cpuid ex_symbols (Some ex_boot_info) ex_boot = (Ok tt, s') /\
    let at_ v := kernel_translate (b_mem s') (b_pml4 s') v in
    at_ (KERNEL_VMA_BASE + 0x111234) = Some (mk_access 0x111234 false true false) /\
    at_ (KERNEL_VMA_BASE + 0x180000) = None /\
    at_ (HHDM_BASE + 0x111234) = Some (mk_access 0x111234 false false false) /\
    at_ (HHDM_BASE + 0x500000) = Some (mk_access 0x500000 true false false) /\
    at_ (HHDM_BASE + (2 ^ 38 + 5)) = Some (mk_access (2 ^ 38 + 5) true false false) /\
    at_ 0x400000 = None.
Proof.
  destruct (paging_init_maps ex_cpuid ex_symbols ex_layout ex_boot_info ex_boot ex_pool_placed ex_laid_out ex_boot_info_ok) as (s' & E & Hlim & _ & Hm).
  exists s'. split; [exact E|]. cbv zeta in *. set (lim := paging_hhdm_limit s') in *. unfold HHDM_MIN_LIMIT, HHDM_MAX_LIMIT in Hlim.
  assert (Hd : forall a, 0 <= a < 2 ^ 39 -> canonical (HHDM_BASE + a)) by (unfold canonical, HHDM_BASE; lia).
  assert (Hi : forall a, 0 <= a < 2 ^ 30 -> canonical (KERNEL_VMA_BASE + a)) by (unfold canonical, KERNEL_VMA_BASE; lia).
  assert (Hk : forall a, 0 <= a < 2 ^ 39 -> kernel_translate (b_mem s') (b_pml4 s') (HHDM_BASE + a) =
    if (a <? lim) || in_framebuffer ex_boot_info lim a then Some (mk_access a (negb (in_range 0x100 0x400 (a / PAGE_SIZE))) false false) else None).
  { intros a Ha. rewrite Hm by by apply Hd. unfold kernel_map. rewrite (proj2 (in_range_spec _ _ _)) by (unfold HHDM_BASE; lia). cbv zeta. by rewrite Z.add_simpl_l. }
  split_and!.
  - rewrite Hm by (apply Hi; lia). by vm_compute.
  - rewrite Hm by (apply Hi; lia). by vm_compute.
  - rewrite Hk by lia. by rewrite (proj2 (Z.ltb_lt 0x111234 lim)) by lia.
  - rewrite Hk by lia. by rewrite (proj2 (Z.ltb_lt 0x500000 lim)) by lia.
  - rewrite Hk by lia. rewrite (proj2 (Z.ltb_ge (2 ^ 38 + 5) lim)) by lia. unfold in_framebuffer. change (fb_end ex_boot_info) with (2 ^ 38 + 2 ^ 23).
    by rewrite (proj2 (Z.ltb_lt lim (2 ^ 38 + 2 ^ 23))) by lia.
  - rewrite Hm by (unfold canonical; lia). by vm_compute.
Defined.

Lemma kernel_write_xor_execute_witness :
  exists s', paging_init ex_cpuid ex_symbols (Some ex_boot_info) ex_boot = (Ok tt, s') /\
    ~ (exists a1 a2, kernel_translate (b_mem s') (b_pml4 s') (HHDM_BASE + 0x111000) = Some a1 /\
         kernel_translate (b_mem s') (b_pml4 s') (KERNEL_VMA_BASE + 0x111000) = Some a2 /\
         a_phys a1 = a_phys a2 /\ a_write a1 = true /\ a_exec a2 = true) /\
    tst (msr_efer (paging_enable s' (mk_cpu 0 0 0 0))) EFER_NXE = true.
Proof.
  destruct (kernel_write_xor_execute ex_cpuid ex_symbols ex_layout ex_boot_info ex_boot ex_pool_placed ex_laid_out ex_boot_info_ok eq_refl) as (s' & E & Hm & Hc).
  exists s'. split; [exact E|]. split; [|apply Hc]. intros (a1 & a2 & H1 & H2 & Hp & Hw & Hx).
  destruct (Hm (HHDM_BASE + 0x111000) (KERNEL_VMA_BASE + 0x111000) a1 a2) as [_ Hn]; [unfold canonical, HHDM_BASE; lia|unfold canonical, KERNEL_VMA_BASE; lia|exact H1|exact H2|by rewrite Hp|].
  exact (Hn (conj Hw Hx)).
Defined.
