(* ===== verification/SpaceLife.v ===== *)
(** * The life of an address space

    [paging_addrspace_create], then any use of the space, then
    [paging_addrspace_destroy]: the frames that come back are exactly the
    frames that went in. *)

From S2P Require Import Prelude Types Mem Memory FrameAlloc Paging PagingSpec AddrSpace.

(** ** The nodes of the tree, in the order the destruction frees them *)

Fixpoint nodes (d : nat) (G : space) (π : list Z) : list (list Z * Z) :=
  match d with
  | O => match leaves G !! π with Some e => [(π, Z.land e ENTRY_ADDR_MASK)] | None => [] end
  | Datatypes.S d =>
      match tabs G !! π with
      | None => []
      | Some p => (seqZ 0 (if decide (π = []) then 256 else 512) ≫= fun i => nodes d G (π ++ [i]))
                  ++ [(π, p)]
      end
  end.

Lemma nodes_prefix d G π ρ x : (ρ, x) ∈ nodes d G π -> exists τ, ρ = π ++ τ.
Proof.
  revert π. induction d as [|d IH]; intros π; simpl.
  - destruct (leaves G !! π); [|by rewrite elem_of_nil].
    intros [= -> _]%list_elem_of_singleton. exists []. by rewrite app_nil_r.
  - destruct (tabs G !! π); [|by rewrite elem_of_nil].
    intros [(i & Hin & _)%list_elem_of_bind | [= -> _]%list_elem_of_singleton]%elem_of_app.
    + apply IH in Hin as [τ ->]. exists (i :: τ). by rewrite <- app_assoc.
    + exists []. by rewrite app_nil_r.
Qed.

Lemma NoDup_nodes d G π : NoDup (nodes d G π).
Proof.
  revert π. induction d as [|d IH]; intros π; simpl.
  - destruct (leaves G !! π); [apply NoDup_singleton|apply NoDup_nil_2].
  - destruct (tabs G !! π) as [p|]; [|apply NoDup_nil_2]. apply NoDup_app. split_and!.
    + apply NoDup_bind_disjoint; [apply NoDup_seqZ|auto|].
      intros i j [ρ x] _ _ Hne [τ ->]%nodes_prefix [τ' Hτ]%nodes_prefix.
      rewrite <- !app_assoc in Hτ. apply app_inv_head in Hτ. simpl in Hτ. congruence.
    + intros [ρ x] (i & Hin & _)%list_elem_of_bind [= -> _]%list_elem_of_singleton.
      apply nodes_prefix in Hin as [τ Hτ]. apply (f_equal length) in Hτ.
      rewrite !length_app in Hτ. simpl in Hτ. lia.
    + apply NoDup_singleton.
Qed.

Section nodes.
Context (m : mem) (G : space) (Hinv : as_inv m G).

Lemma tabs_prefix π τ : is_Some (tabs G !! (π ++ τ)) -> is_Some (tabs G !! π).
Proof.
  induction τ as [|i τ IH] using rev_ind; [by rewrite app_nil_r|].
  rewrite app_assoc. intros [q Hq]. apply IH. by eapply (ai_closed m G Hinv).
Qed.

Lemma nodes_sound d π ρ x :
  (ρ, x) ∈ nodes d G π ->
  tabs G !! ρ = Some x \/ exists e, leaves G !! ρ = Some e /\ x = Z.land e ENTRY_ADDR_MASK.
Proof.
  revert π. induction d as [|d IH]; intros π; simpl.
  - destruct (leaves G !! π) as [e|] eqn:E; [|by rewrite elem_of_nil].
    intros [= -> ->]%list_elem_of_singleton. right. by exists e.
  - destruct (tabs G !! π) as [p|] eqn:E; [|by rewrite elem_of_nil].
    intros [(i & Hin & _)%list_elem_of_bind | [= -> ->]%list_elem_of_singleton]%elem_of_app.
    + by eapply IH.
    + by left.
Qed.

Lemma idx_ok_seqZ π i : idx_ok π i -> i ∈ seqZ 0 (if decide (π = []) then 256 else 512).
Proof. intros [Hi Hn]. rewrite elem_of_seqZ. case_decide; [specialize (Hn ltac:(done)); lia|lia]. Qed.

Lemma nodes_tab d π τ p :
  tabs G !! (π ++ τ) = Some p -> (length τ < d)%nat -> (π ++ τ, p) ∈ nodes d G π.
Proof.
  revert π τ. induction d as [|d IH]; intros π τ Hp Hlen; [lia|].
  destruct (tabs_prefix π τ) as [q Hq]; [by eexists|]. simpl. rewrite Hq. apply elem_of_app.
  destruct τ as [|i τ].
  - right. rewrite app_nil_r in *. apply list_elem_of_singleton. congruence.
  - left. apply list_elem_of_bind. exists i. change (i :: τ) with ([i] ++ τ) in *.
    rewrite app_assoc in *. split; [apply IH; [done|simpl in Hlen; lia]|].
    destruct (tabs_prefix (π ++ [i]) τ) as [r Hr]; [by eexists|].
    apply idx_ok_seqZ. by eapply (ai_closed m G Hinv).
Qed.

Lemma nodes_leaf d π τ e :
  leaves G !! (π ++ τ) = Some e -> length τ = d -> length π = (4 - d)%nat -> (d <= 4)%nat ->
  (π ++ τ, Z.land e ENTRY_ADDR_MASK) ∈ nodes d G π.
Proof.
  revert π τ. induction d as [|d IH]; intros π τ He Hlen Hπ Hd.
  - destruct τ; [|done]. rewrite app_nil_r in *. simpl. rewrite He. by apply list_elem_of_singleton.
  - destruct (ai_leaf m G Hinv _ _ He) as (π' & j & Hs & Hl & Hsome & Hj).
    destruct τ as [|i τ]; [done|]. simpl in Hlen.
    assert (Hpre : exists τ', π' = π ++ τ').
    { destruct (exists_last (l := i :: τ) ltac:(done)) as (τ' & k & Eτ). exists τ'.
      rewrite Eτ, app_assoc in Hs. by apply snoc_inj in Hs as [-> _]. }
    destruct Hpre as [τ' ->]. destruct (tabs_prefix π τ' Hsome) as [q Hq].
    simpl. rewrite Hq. apply elem_of_app. left. apply list_elem_of_bind. exists i.
    change (i :: τ) with ([i] ++ τ) in *. rewrite app_assoc in *.
    split; [apply IH; [done|lia|rewrite length_app; simpl; lia|lia]|].
    apply idx_ok_seqZ. destruct τ' as [|k τ'].
    + rewrite app_nil_r in *. destruct τ as [|? ?]; [|simpl in *; lia].
      rewrite app_nil_r in Hs. by apply snoc_inj in Hs as [_ <-].
    + change (k :: τ') with ([k] ++ τ') in *. rewrite app_assoc in *.
      assert (k = i) as ->.
      { rewrite <- !app_assoc in Hs. apply app_inv_head in Hs. simpl in Hs. congruence. }
      destruct (tabs_prefix (π ++ [i]) τ' Hsome) as [r Hr]. by eapply (ai_closed m G Hinv).
Qed.

Lemma nodes_frames : (nodes 4 G []).*2 ≡ₚ tab_frames G ++ leaf_frames G.
Proof.
  set (rhs := map_to_list (tabs G) ++
    ((fun '(ρ, e) => (ρ, Z.land e ENTRY_ADDR_MASK)) <$> map_to_list (leaves G))).
  assert (Hr : rhs.*2 = tab_frames G ++ leaf_frames G).
  { unfold rhs, tab_frames, leaf_frames. rewrite fmap_app. f_equal.
    rewrite <- list_fmap_compose. apply list_fmap_ext. by intros i [ρ e] _. }
  rewrite <- Hr. apply fmap_Permutation, NoDup_Permutation; [apply NoDup_nodes| |].
  - unfold rhs. apply NoDup_app. split_and!; [apply NoDup_map_to_list| |].
    + intros [ρ x] H1%elem_of_map_to_list ([ρ' e] & [= -> _] & H2%elem_of_map_to_list)%list_elem_of_fmap.
      destruct (ai_leaf m G Hinv _ _ H2) as (π & j & -> & Hl & _).
      destruct (ai_tab m G Hinv _ _ H1) as [_ Hl']. rewrite length_app in Hl'. simpl in Hl'. lia.
    + apply NoDup_fmap_2_strong; [|apply NoDup_map_to_list].
      intros [ρ e] [ρ' e'] H1%elem_of_map_to_list H2%elem_of_map_to_list [= -> _]. congruence.
  - intros [ρ x]. unfold rhs. rewrite elem_of_app, elem_of_map_to_list, list_elem_of_fmap. split.
    + intros [? | (e & He & ->)]%nodes_sound; [by left|]. right. exists (ρ, e).
      by rewrite elem_of_map_to_list.
    + intros [Ht | ([ρ' e] & [= -> ->] & He%elem_of_map_to_list)].
      * apply (nodes_tab 4 [] ρ x Ht). destruct (ai_tab m G Hinv _ _ Ht). lia.
      * destruct (ai_leaf m G Hinv _ _ He) as (π & j & -> & Hl & _).
        apply (nodes_leaf 4 [] (π ++ [j])); try done. rewrite length_app. simpl. lia.
Qed.
End nodes.

(** ** The destruction *)

Section destroy.
Context {S : Type} `{FrameAllocatorLaws S}.
Context (s0 : S) (G : space) (l : list Z) (Hsys : sys s0 G l).
Context (Hall : Forall frame_ok ((nodes 4 G []).*2)).

(** The frames [F] have been given back, and nothing else was written. *)
Definition freed (F : list Z) (s : S) : Prop :=
  fa_rep s (rev F ++ l) /\
  forall a, (forall p, p ∈ F -> ~ in_frame p a) -> ld8 (fa_mem s) a = ld8 (fa_mem s0) a.

Lemma freed_one F s p :
  freed F s -> frame_ok p -> p ∉ l ++ F -> freed (F ++ [p]) (free_frame p s).
Proof.
  intros [Hr Hm] Hp Hn. destruct (fa_free_ok s p (rev F ++ l) Hr Hp) as (s' & E & Hr' & Hm').
  { intros Hin. apply Hn. revert Hin. rewrite !elem_of_app, elem_of_rev. tauto. }
  unfold free_frame. rewrite E. split; simpl.
  - by rewrite rev_app_distr.
  - intros a Ha. rewrite Hm' by (apply Ha, elem_of_app; right; by left).
    apply Hm. intros q Hq. apply Ha, elem_of_app. by left.
Qed.

(** An entry of a table not yet freed still has its first value. *)
Lemma freed_entry F s p i :
  freed F s -> Forall frame_ok F -> frame_ok p -> p ∉ F -> 0 <= i < 512 ->
  rd_entry (phys_to_virt p) i s = entry_at (fa_mem s0) p i.
Proof.
  intros [_ Hm] HF Hp Hn Hi. rewrite rd_entry_at. apply entry_at_ext; [|done].
  intros a Ha. apply Hm. intros q Hq Hb. apply Hn. rewrite Forall_forall in HF.
  by rewrite (in_frame_inj p q a) by auto.
Qed.

(** The side condition: what is about to be freed is not free yet. *)
Definition fresh (F L : list Z) : Prop :=
  NoDup (l ++ F ++ L) /\ Forall frame_ok F /\ Forall frame_ok L.

Lemma fresh_app F L1 L2 : fresh F (L1 ++ L2) <-> fresh F L1 /\ fresh (F ++ L1) L2 .
Proof.
  unfold fresh. rewrite !Forall_app, <- !app_assoc. split.
  - intros (Hnd & HF & H1 & H2). split_and!; try done. rewrite !app_assoc in Hnd.
    apply NoDup_app in Hnd as [Hnd _]. by rewrite <- app_assoc in Hnd.
  - tauto.
Qed.

(** One table: its entries, then itself. *)
Lemma freed_table (N : Z) (b : Z -> S -> S) (L : Z -> list Z) F s p :
  (forall i F s, 0 <= i < N -> p ∉ F -> freed F s -> fresh F (L i) -> freed (F ++ L i) (b i s)) ->
  freed F s -> fresh F ((seqZ 0 N ≫= L) ++ [p]) ->
  freed (F ++ (seqZ 0 N ≫= L) ++ [p]) (free_frame (virt_to_phys (phys_to_virt p)) (for_range 0 N b s)).
Proof.
  intros Hb Hf Hfr. pose proof Hfr as [H1 H2]%fresh_app.
  assert (Hp : frame_ok p) by (by destruct H2 as (_ & _ & ?%Forall_inv)).
  rewrite app_assoc, frame_virt_phys by done. apply freed_one; [|done|].
  - assert (Hgen : forall idx F s, (forall i, i ∈ idx -> 0 <= i < N) -> freed F s ->
      fresh F ((idx ≫= L) ++ [p]) ->
      freed (F ++ (idx ≫= L)) (fold_left (fun acc i => b i acc) idx s)).
    { clear -Hb. induction idx as [|i idx IH]; intros F s Hin Hf Hfr; simpl in *.
      - by rewrite app_nil_r.
      - rewrite <- app_assoc in Hfr. apply fresh_app in Hfr as [H1 H2]. rewrite app_assoc.
        apply IH; [intros j ?; apply Hin; by right| |done]. apply Hb; [apply Hin; by left| |done..].
        destruct H2 as [Hnd _]. rewrite <- !app_assoc in Hnd. intros Hp.
        apply NoDup_app in Hnd as (_ & _ & Hnd). apply NoDup_app in Hnd as (_ & Hd & _).
        apply (Hd p Hp), elem_of_app. right. apply elem_of_app. right. by left. }
    unfold for_range. rewrite Z.sub_0_r. apply Hgen; [|done|done]. intros i ?%elem_of_seqZ. lia.
  - destruct H2 as [Hnd _]. rewrite app_assoc in Hnd. apply NoDup_app in Hnd as (_ & Hd & _).
    intros Hin. apply (Hd p Hin). by left.
Qed.

Definition node_frames (d : nat) (π : list Z) : list Z := (nodes d G π).*2.

Lemma node_frames_S d π p :
  tabs G !! π = Some p ->
  node_frames (Datatypes.S d) π =
  (seqZ 0 (if decide (π = []) then 256 else 512) ≫= fun i => node_frames d (π ++ [i])) ++ [p].
Proof.
  intros Hp. unfold node_frames. simpl. rewrite Hp, fmap_app. f_equal.
  apply fmap_bind_list.
Qed.

Lemma node_frames_O π :
  node_frames 0 π = match leaves G !! π with Some e => [Z.land e ENTRY_ADDR_MASK] | None => [] end.
Proof. unfold node_frames, nodes. by destruct (leaves G !! π). Qed.

Lemma node_frames_none d π : tabs G !! π = None -> node_frames (Datatypes.S d) π = [].
Proof. intros Hp. unfold node_frames. simpl. by rewrite Hp. Qed.

(** Reading entry [i] of the table at [π], some frames being freed. *)
Lemma freed_read F s π p i :
  freed F s -> Forall frame_ok F -> tabs G !! π = Some p -> p ∉ F -> idx_ok π i ->
  if decide (length π = 3%nat)
  then leaf_entry (rd_entry (phys_to_virt p) i s) (leaves G !! (π ++ [i]))
  else tab_entry (rd_entry (phys_to_virt p) i s) (tabs G !! (π ++ [i])).
Proof.
  intros Hf HF Hp Hn Hi. destruct Hsys as (_ & Hinv & _).
  destruct (ai_tab _ _ Hinv π p Hp) as [Hok _].
  rewrite (freed_entry F s p i) by (done || by destruct Hi). by apply (ai_entry _ _ Hinv).
Qed.

(** One of the inner loops: entries that are tables are destroyed by [b]. *)
Lemma freed_level d π p F s (b : Z -> S -> S) (skip : Z -> bool) :
  tabs G !! π = Some p -> (length π < 3)%nat -> freed F s -> fresh F (node_frames (Datatypes.S d) π) ->
  (forall e q, table_entry e q -> skip e = false) ->
  (forall e, tst e PAGE_PRESENT = false -> skip e = true) ->
  (forall i q F s, tabs G !! (π ++ [i]) = Some q -> freed F s -> fresh F (node_frames d (π ++ [i])) ->
     freed (F ++ node_frames d (π ++ [i])) (b (phys_to_virt q) s)) ->
  (0 < d)%nat ->
  freed (F ++ node_frames (Datatypes.S d) π)
    (free_frame (virt_to_phys (phys_to_virt p))
      (for_range 0 (if decide (π = []) then 256 else 512)
         (fun i s => let e := rd_entry (phys_to_virt p) i s in
            if skip e then s else b (table_of_dyn e) s) s)).
Proof.
  intros Hp Hlen Hf Hfr Hsk1 Hsk2 Hb Hd. rewrite (node_frames_S d π p Hp) in *.
  apply freed_table; [|done|done]. clear F s Hf Hfr. intros i F s Hi Hn Hf Hfr.
  assert (Hidx : idx_ok π i) by (split; case_decide; lia || done).
  pose proof (freed_read F s π p i Hf (proj1 (proj2 Hfr)) Hp Hn Hidx) as He.
  rewrite decide_False in He by lia. cbv zeta.
  destruct (tabs G !! (π ++ [i])) as [q|] eqn:Eq; simpl in He.
  - rewrite (Hsk1 _ q) by done. unfold table_of_dyn. destruct He as (_ & _ & _ & _ & ->).
    by apply Hb.
  - rewrite Hsk2 by done. destruct d as [|d]; [lia|]. rewrite node_frames_none by done.
    by rewrite app_nil_r.
Qed.

Lemma destroy_pt_freed π p F s :
  tabs G !! π = Some p -> length π = 3%nat -> freed F s -> fresh F (node_frames 1 π) ->
  freed (F ++ node_frames 1 π) (destroy_pt (phys_to_virt p) s).
Proof.
  intros Hp Hlen Hf Hfr. rewrite (node_frames_S 0 π p Hp) in *.
  assert (Hne : π <> []) by by intros ->. unfold destroy_pt.
  rewrite decide_False in * by done. apply freed_table; [|done|done].
  clear F s Hf Hfr. intros i F s Hi Hn Hf Hfr.
  pose proof (freed_read F s π p i Hf (proj1 (proj2 Hfr)) Hp Hn (conj Hi (fun h => False_ind _ (Hne h)))) as He.
  rewrite decide_True in He by done. rewrite node_frames_O in *.
  destruct (leaves G !! (π ++ [i])) as [e|]; cbn [leaf_entry] in He.
  - destruct He as [-> ->]. destruct Hfr as (Hnd & _ & ?%Forall_inv).
    apply freed_one; [done|done|]. rewrite app_assoc in Hnd. apply NoDup_app in Hnd as (_ & Hd & _).
    intros Hin. apply (Hd _ Hin). by left.
  - rewrite He. by rewrite app_nil_r.
Qed.

Lemma table_entry_skip e q : table_entry e q -> negb (tst e PAGE_PRESENT) || tst e PAGE_HUGE = false.
Proof. by intros (-> & _ & _ & -> & _). Qed.

Lemma destroy_pd_freed π p F s :
  tabs G !! π = Some p -> length π = 2%nat -> freed F s -> fresh F (node_frames 2 π) ->
  freed (F ++ node_frames 2 π) (destroy_pd (phys_to_virt p) s).
Proof.
  intros Hp Hlen Hf Hfr. unfold destroy_pd, ENTRIES_PER_TABLE.
  pose proof (freed_level 1 π p F s destroy_pt _ Hp ltac:(lia) Hf Hfr table_entry_skip) as Hlv.
  rewrite decide_False in Hlv by by intros ->. apply Hlv; [by intros e ->| |lia].
  intros. apply destroy_pt_freed; try done. rewrite length_app. simpl. lia.
Qed.

Lemma destroy_pdpt_freed π p F s :
  tabs G !! π = Some p -> length π = 1%nat -> freed F s -> fresh F (node_frames 3 π) ->
  freed (F ++ node_frames 3 π) (destroy_pdpt (phys_to_virt p) s).
Proof.
  intros Hp Hlen Hf Hfr. unfold destroy_pdpt, ENTRIES_PER_TABLE.
  pose proof (freed_level 2 π p F s destroy_pd _ Hp ltac:(lia) Hf Hfr table_entry_skip) as Hlv.
  rewrite decide_False in Hlv by by intros ->. apply Hlv; [by intros e ->| |lia].
  intros. apply destroy_pd_freed; try done. rewrite length_app. simpl. lia.
Qed.

Lemma destroy_run root :
  tabs G !! [] = Some root -> NoDup (tab_frames G ++ leaf_frames G ++ l) ->
  exists s' l', paging_addrspace_destroy (mk_as (phys_to_virt root)) s0 = (mk_as 0, s') /\
    fa_rep s' l' /\ l' ≡ₚ tab_frames G ++ leaf_frames G ++ l /\
    forall a, (forall p, p ∈ tab_frames G ++ leaf_frames G -> ~ in_frame p a) ->
      ld8 (fa_mem s') a = ld8 (fa_mem s0) a.
Proof.
  intros Hroot Hnd. pose proof Hsys as (Hr & Hinv & _).
  pose proof (nodes_frames _ _ Hinv) as Hp. fold (node_frames 4 []) in Hp, Hall.
  unfold paging_addrspace_destroy. cbn [pml4]. rewrite (root_nonzero s0 G l) by done.
  eexists _, (rev (node_frames 4 []) ++ l). split; [done|].
  destruct (freed_level 3 [] root [] s0 destroy_pdpt (fun e => negb (tst e PAGE_PRESENT))) as [Hr' Hm'].
  - done.
  - simpl. lia.
  - done.
  - split_and!; [|done|done]. simpl. rewrite Hp, Permutation_app_comm. by rewrite <- app_assoc.
  - by intros e q (-> & _).
  - by intros e ->.
  - intros. by apply destroy_pdpt_freed.
  - lia.
  - simpl in Hr', Hm'. split_and!; [exact Hr'| |].
    + rewrite <- Permutation_rev, Hp. by rewrite <- app_assoc.
    + intros a Ha. apply Hm'. intros q Hq. apply Ha. by rewrite <- Hp.
Qed.
End destroy.

(** ** The creation *)

Lemma leaf_frames_insert G ρ e : leaves G !! ρ = None ->
  leaf_frames (set_leaf ρ (Some e) G) ≡ₚ Z.land e ENTRY_ADDR_MASK :: leaf_frames G.
Proof.
  intros Hn. unfold leaf_frames, set_leaf. simpl.
  change (partial_alter _ ρ (leaves G)) with (<[ρ := e]> (leaves G)).
  by rewrite map_to_list_insert.
Qed.

Lemma leaf_frames_delete G ρ e : leaves G !! ρ = Some e ->
  leaf_frames G ≡ₚ Z.land e ENTRY_ADDR_MASK :: leaf_frames (set_leaf ρ None G).
Proof.
  intros Hs. unfold leaf_frames, set_leaf. simpl.
  change (partial_alter _ ρ (leaves G)) with (delete ρ (leaves G)).
  by rewrite <- (map_to_list_delete (leaves G) ρ e).
Qed.

Lemma leaf_frames_eq G G' : leaves G' = leaves G -> leaf_frames G' = leaf_frames G.
Proof. unfold leaf_frames. by intros ->. Qed.

Definition space0 (root : Z) : space := mk_space {[ [] := root ]} ∅.

Section create.
Context {S : Type} `{FrameAllocatorLaws S}.

Lemma as_inv_space0 (m : mem) root :
  frame_ok root -> (forall i, 0 <= i < 256 -> entry_at m root i = 0) -> as_inv m (space0 root).
Proof.
  intros Hok Hz. split; simpl.
  - intros π p [<- <-]%lookup_singleton_Some. split; [done|simpl; lia].
  - by intros π π' p [<- _]%lookup_singleton_Some [<- _]%lookup_singleton_Some.
  - intros π i q [Hn _]%lookup_singleton_Some. by destruct π.
  - done.
  - intros π p i [<- <-]%lookup_singleton_Some [Hi Hu]. rewrite decide_False by done.
    rewrite lookup_singleton_ne by done. simpl. by rewrite Hz by (specialize (Hu eq_refl); lia).
Qed.

Lemma create_run g s root l :
  fa_rep s (root :: l) -> g_pml4 g <> 0 ->
  exists s', paging_addrspace_create g s = (Ok (mk_as (phys_to_virt root)), s') /\
    sys s' (space0 root) l /\
    ((forall a, g_pml4 g <= a < g_pml4 g + PAGE_SIZE -> ~ in_frame root a) ->
     entry_at (fa_mem s') root HHDM_PML4_INDEX = rd_entry (g_pml4 g) HHDM_PML4_INDEX s /\
     entry_at (fa_mem s') root KERNEL_PML4_INDEX = rd_entry (g_pml4 g) KERNEL_PML4_INDEX s) /\
    (forall a, ~ in_frame root a -> ld8 (fa_mem s') a = ld8 (fa_mem s) a).
Proof.
  intros Hr Hg. pose proof (fa_rep_ok _ _ Hr) as [Hnd Hok].
  apply NoDup_cons in Hnd as [Hn Hnd]. apply Forall_cons in Hok as [Hroot Hok].
  destruct (fa_alloc_cons s root l Hr) as (s1 & E & Hr1 & Hm1).
  pose proof (mem_upd_outside _ _ _ _ Hm1) as Hout.
  set (e1 := rd_entry (g_pml4 g) HHDM_PML4_INDEX s1).
  set (s2 := wr_entry (phys_to_virt root) HHDM_PML4_INDEX e1 s1).
  set (e2 := rd_entry (g_pml4 g) KERNEL_PML4_INDEX s2).
  set (s3 := wr_entry (phys_to_virt root) KERNEL_PML4_INDEX e2 s2).
  assert (Hat : forall i, 0 <= i < 512 -> entry_at (fa_mem s3) root i =
    if decide (i = 511) then e2 else if decide (i = 256) then e1 else 0).
  { intros i Hi. unfold s3, s2. rewrite !fa_mem_wr. unfold HHDM_PML4_INDEX, KERNEL_PML4_INDEX.
    rewrite !entry_at_st64 by (try done; apply ld64_range).
    destruct (decide (i = 511)); [by rewrite decide_True|]. rewrite decide_False by tauto.
    destruct (decide (i = 256)); [by rewrite decide_True|]. rewrite decide_False by tauto.
    unfold entry_at. rewrite (ldn_ext 8 _ ∅); [done|]. intros b Hb. rewrite Hm1. unfold PAGE_SIZE.
    case_if; [done|lia]. }
  exists s3. split_and!.
  - unfold paging_addrspace_create. rewrite (proj2 (Z.eqb_neq _ _) Hg).
    unfold alloc_table_dyn, tryo, bind. by rewrite E.
  - split_and!.
    + unfold s3, s2. repeat (apply fa_rep_store; [|done|done|done]). done.
    + apply as_inv_space0; [done|]. intros i Hi. rewrite Hat by lia.
      by rewrite !decide_False by lia.
    + intros p Hp Hl. unfold tab_frames, space0 in Hp. simpl in Hp.
      rewrite map_to_list_singleton in Hp. simpl in Hp. apply list_elem_of_singleton in Hp as ->. done.
  - intros Hsep. rewrite !Hat by done.
    rewrite (decide_False (P := HHDM_PML4_INDEX = 511)), (decide_True (P := HHDM_PML4_INDEX = 256)),
      (decide_True (P := KERNEL_PML4_INDEX = 511)) by done.
    unfold e2, e1, rd_entry, s2. rewrite fa_mem_wr. split; apply ldn_ext; intros b Hb.
    + apply Hout, Hsep. unfold PAGE_SIZE, HHDM_PML4_INDEX in *. lia.
    + assert (~ in_frame root b) by (apply Hsep; unfold PAGE_SIZE, KERNEL_PML4_INDEX in *; lia).
      by rewrite st64_in_frame, Hout.
  - intros a Ha. unfold s3, s2. rewrite !fa_mem_wr, !st64_in_frame by done. by apply Hout.
Qed.

Lemma create_oom g s : fa_rep s [] -> g_pml4 g <> 0 ->
  paging_addrspace_create g s = (Err NoutOfMemory, s).
Proof.
  intros Hr Hg. unfold paging_addrspace_create. rewrite (proj2 (Z.eqb_neq _ _) Hg).
  unfold alloc_table_dyn, tryo, bind. by rewrite fa_alloc_nil.
Qed.
End create.

(** ** The life of a space *)

Section life.
Context {S : Type} `{FrameAllocatorLaws S}.
Context (g : paging_globals) (root : Z).
Let as_ := mk_as (phys_to_virt root).

(** Uses of the space: the state, and the frames the kernel holds outside it.
    [use_write] is a store by user code, through the processor's translation;
    [use_write_held] a store by the kernel into a frame it holds. *)
Inductive use_step : S * list Z -> S * list Z -> Prop :=
| use_alloc s s' h p : fa_alloc s = (Ok p, s') -> use_step (s, h) (s', p :: h)
| use_free s s' h1 h2 p e : fa_free p s = (e, s') -> use_step (s, h1 ++ p :: h2) (s', h1 ++ h2)
| use_map s s' h1 h2 p v flags : word v -> word flags ->
    paging_map_page g (Some as_) p v flags s = (Ok tt, s') ->
    use_step (s, h1 ++ p :: h2) (s', h1 ++ h2)
| use_map_fail s s' h p v flags e : word p -> word v -> word flags ->
    paging_map_page g (Some as_) p v flags s = (Err e, s') -> use_step (s, h) (s', h)
| use_unmap s s' h v e : word v -> hw_leaf (fa_mem s) (pml4 as_) v = Some e ->
    paging_unmap_page (Some as_) v s = (Ok tt, s') ->
    use_step (s, h) (s', Z.land e ENTRY_ADDR_MASK :: h)
| use_unmap_fail s s' h v e : word v ->
    paging_unmap_page (Some as_) v s = (Err e, s') -> use_step (s, h) (s', h)
| use_unmap_free s s' h v e : word v ->
    paging_unmap_free_page (Some as_) v s = (e, s') -> use_step (s, h) (s', h)
| use_write s h v pa b : 0 <= v < USER_SPACE_END ->
    hw_translate (fa_mem s) (pml4 as_) v = Some pa ->
    use_step (s, h) (fa_set_mem (st8 (phys_to_virt pa) b (fa_mem s)) s, h)
| use_write_held s h p a b : p ∈ h -> in_frame p a ->
    use_step (s, h) (fa_set_mem (st8 a b (fa_mem s)) s, h).

(** Writable pages cannot be executed, and every mapping is a user one. *)
Definition wx_leaf (e : Z) : Prop :=
  tst e PAGE_USER = true /\
  (g_nx_supported g = true -> tst e PAGE_RW = true -> tst e PAGE_NX = true).

(** The invariant of the life of a space made of the frames [l0]. *)
Definition life (l0 : list Z) (c : S * list Z) : Prop :=
  exists G l, sys c.1 G l /\ tabs G !! [] = Some root /\
    c.2 ++ tab_frames G ++ leaf_frames G ++ l ≡ₚ l0 /\
    map_Forall (fun _ => wx_leaf) (leaves G).

Section step.
Context (l0 : list Z) (Hnd0 : NoDup l0) (Hok0 : Forall frame_ok l0).

(** A store in a frame that holds no table and is not free. *)
Lemma sys_store s G l q a b :
  sys s G l -> frame_ok q -> q ∉ tab_frames G -> q ∉ l -> in_frame q a ->
  sys (fa_set_mem (st8 a b (fa_mem s)) s) G l.
Proof.
  intros (Hr & Hinv & Hd) Hq Ht Hl Ha.
  assert (Hagree : forall p c, frame_ok p -> p <> q -> in_frame p c ->
    ld8 (st8 a b (fa_mem s)) c = ld8 (fa_mem s) c).
  { intros p c Hp Hne Hc. rewrite ld8_st8. case_if; [|done]. subst c.
    exfalso. apply Hne. by eapply in_frame_inj. }
  destruct (fa_rep_ok _ _ Hr) as [_ Hok]. rewrite Forall_forall in Hok. split_and!; [| |done].
  - apply fa_set_mem_rep; [done|]. intros p c Hp Hc. apply (Hagree p); [auto| |done]. congruence.
  - rewrite fa_mem_set. apply (as_inv_ext (fa_mem s)); [|done]. intros p Hp c Hc. symmetry.
    pose proof Hp as [π Hπ]%elem_of_tab_frames. destruct (ai_tab _ _ Hinv π p Hπ) as [Hpok _].
    apply (Hagree p); [done|congruence|done].
Qed.

(** The frame of a mapped page is a frame of the initial list, apart from
    the tables and the free frames. *)
Lemma life_leaf h G l v e :
  h ++ tab_frames G ++ leaf_frames G ++ l ≡ₚ l0 -> leaves G !! path v = Some e ->
  frame_ok (Z.land e ENTRY_ADDR_MASK) /\ Z.land e ENTRY_ADDR_MASK ∉ tab_frames G /\
  Z.land e ENTRY_ADDR_MASK ∉ l.
Proof.
  intros Hp He. pose proof (leaf_frames_delete G _ _ He) as Hl. set (q := Z.land e _) in *.
  set (L := leaf_frames (set_leaf _ _ _)) in *. rewrite Hl in Hp.
  assert (Hp' : q :: h ++ tab_frames G ++ L ++ l ≡ₚ l0) by (rewrite <- Hp; solve_Permutation).
  pose proof Hnd0 as Hnd. rewrite <- Hp' in Hnd. apply NoDup_cons in Hnd as [Hn _].
  rewrite !elem_of_app in Hn. split_and!; [|tauto|tauto].
  rewrite Forall_forall in Hok0. apply Hok0. rewrite <- Hp'. by left.
Qed.

Lemma life_held h1 h2 p G l :
  (h1 ++ p :: h2) ++ tab_frames G ++ leaf_frames G ++ l ≡ₚ l0 ->
  frame_ok p /\ p ∉ tab_frames G /\ p ∉ l.
Proof.
  intros Hp. assert (Hp' : p :: h1 ++ h2 ++ tab_frames G ++ leaf_frames G ++ l ≡ₚ l0)
    by (rewrite <- Hp, <- app_assoc; simpl; solve_Permutation).
  pose proof Hnd0 as Hnd. rewrite <- Hp' in Hnd. apply NoDup_cons in Hnd as [Hn _].
  rewrite !elem_of_app in Hn. split_and!; [|tauto|tauto].
  rewrite Forall_forall in Hok0. apply Hok0. rewrite <- Hp'. by left.
Qed.

Lemma leaf_of_wx p flags : phys_ok p -> wx_ok g flags -> wx_leaf (leaf_of g p flags).
Proof.
  intros Hp Hwx. split; [by apply leaf_of_user|]. intros Hg Hrw.
  rewrite leaf_of_nx by done. rewrite leaf_of_rw in Hrw by done. rewrite Hg in Hrw. by apply Hwx.
Qed.

(** The shape every case ends with. *)
Lemma life_intro s h G l :
  sys s G l -> tabs G !! [] = Some root -> h ++ tab_frames G ++ leaf_frames G ++ l ≡ₚ l0 ->
  map_Forall (fun _ => wx_leaf) (leaves G) -> life l0 (s, h).
Proof. intros. by exists G, l. Qed.

(** What happens in a frame that is not a table changes no table. *)
Lemma as_inv_outside m m' G q :
  as_inv m G -> frame_ok q -> q ∉ tab_frames G ->
  (forall a, ~ in_frame q a -> ld8 m' a = ld8 m a) -> as_inv m' G.
Proof.
  intros Hinv Hq Ht Hm. apply (as_inv_ext m); [|done]. intros r Hr a Ha. symmetry. apply Hm.
  pose proof Hr as [π Hπ]%elem_of_tab_frames. destruct (ai_tab _ _ Hinv π r Hπ) as [Hrok _].
  intros Hb. apply Ht. by rewrite (in_frame_inj q r a).
Qed.

Section cases.
Context (s : S) (h : list Z) (G : space) (l : list Z) (Hsys : sys s G l).
Context (Hroot : tabs G !! [] = Some root).
Context (Hwx : map_Forall (fun _ => wx_leaf) (leaves G)).

Lemma life_alloc s' p :
  h ++ tab_frames G ++ leaf_frames G ++ l ≡ₚ l0 -> fa_alloc s = (Ok p, s') -> life l0 (s', p :: h).
Proof.
  intros Hp E. destruct Hsys as (Hr & Hinv & Hd). destruct l as [|q l'].
  { rewrite (fa_alloc_nil _ Hr) in E. done. }
  destruct (fa_alloc_cons _ q l' Hr) as (s'' & E' & Hr' & Hm'). rewrite E' in E.
  injection E as [= -> ->]. apply (life_intro _ _ G l'); [split_and!| | |].
  - done.
  - apply (as_inv_outside (fa_mem s) _ G p); [done| | |].
    + destruct (fa_rep_ok _ _ Hr) as [_ Hok]. by apply Forall_inv in Hok.
    + intros Hin. apply (Hd p Hin). by left.
    + by apply (mem_upd_outside _ _ _ _ Hm').
  - intros r Hr0 Hrl. apply (Hd r Hr0). by right.
  - done.
  - rewrite <- Hp. solve_Permutation.
  - done.
Qed.

Lemma life_free s' h1 h2 p e :
  (h1 ++ p :: h2) ++ tab_frames G ++ leaf_frames G ++ l ≡ₚ l0 ->
  fa_free p s = (e, s') -> life l0 (s', h1 ++ h2).
Proof.
  intros Hp E. destruct (life_held _ _ _ _ _ Hp) as (Hok & Ht & Hl). destruct Hsys as (Hr & Hinv & Hd).
  destruct (fa_free_ok _ p l Hr Hok Hl) as (s'' & E' & Hr' & Hm'). rewrite E' in E.
  injection E as [= <- <-]. apply (life_intro _ _ G (p :: l)); [split_and!| | |].
  - done.
  - by apply (as_inv_outside (fa_mem s) _ G p).
  - intros r Hr0 [-> | Hrl]%elem_of_cons; [done|]. by apply (Hd r Hr0).
  - done.
  - rewrite <- Hp. solve_Permutation.
  - done.
Qed.

Lemma life_map s' h1 h2 p v flags : word v -> word flags ->
  (h1 ++ p :: h2) ++ tab_frames G ++ leaf_frames G ++ l ≡ₚ l0 ->
  paging_map_page g (Some as_) p v flags s = (Ok tt, s') -> life l0 (s', h1 ++ h2).
Proof.
  intros Hv Hf Hp E. destruct (life_held _ _ _ _ _ Hp) as (Hok & _ & _).
  pose proof (root_nonzero _ _ _ _ Hsys Hroot) as Hnz.
  assert (Hwp : word p) by (destruct (frame_phys_ok p Hok); unfold word; lia).
  pose proof (map_page_guards g s root p v flags Hnz Hwp Hv) as Hgd. cbv zeta in Hgd.
  fold as_ in Hgd. rewrite E in Hgd.
  destruct (decide (phys_ok p /\ upage v)) as [[Hpk Hup]|]; [|discriminate].
  destruct (decide (wx_ok g flags)) as [Hw|]; [|discriminate].
  destruct (map_page_run g s G l root p v flags Hsys Hroot Hpk Hup Hf Hw)
    as (r & s'' & G' & l' & E' & Hs' & Ht & Hp' & _ & Hm).
  fold as_ in E'. rewrite E' in E. injection E as [= -> ->]. destruct Hm as [Hn Hl].
  apply (life_intro _ _ G' l'); [done|by eapply lookup_weaken| |].
  - rewrite (leaf_frames_eq (set_leaf (path v) (Some (leaf_of g p flags)) G) G') by done.
    rewrite leaf_frames_insert, leaf_of_addr by done.
    assert (Hc : tab_frames G' ++ (p :: leaf_frames G) ++ l' ≡ₚ p :: leaf_frames G ++ tab_frames G' ++ l')
      by solve_Permutation.
    rewrite Hc, Hp', <- Hp. solve_Permutation.
  - rewrite Hl. apply map_Forall_insert_2; [by apply leaf_of_wx|done].
Qed.

Context (Hp : h ++ tab_frames G ++ leaf_frames G ++ l ≡ₚ l0).

Lemma life_map_fail s' p v flags e : word p -> word v -> word flags ->
  paging_map_page g (Some as_) p v flags s = (Err e, s') -> life l0 (s', h).
Proof.
  intros Hwp Hv Hf E. pose proof (root_nonzero _ _ _ _ Hsys Hroot) as Hnz.
  pose proof (map_page_guards g s root p v flags Hnz Hwp Hv) as Hgd. cbv zeta in Hgd.
  fold as_ in Hgd. rewrite E in Hgd.
  destruct (decide (phys_ok p /\ upage v)) as [[Hpk Hup]|];
    [|injection Hgd as [= _ ->]; by apply (life_intro _ _ G l)].
  destruct (decide (wx_ok g flags)) as [Hw|];
    [|injection Hgd as [= _ ->]; by apply (life_intro _ _ G l)].
  destruct (map_page_run g s G l root p v flags Hsys Hroot Hpk Hup Hf Hw)
    as (r & s'' & G' & l' & E' & Hs' & Ht & Hp' & _ & Hm).
  fold as_ in E'. rewrite E' in E. injection E as [= -> ->].
  assert (Hl : leaves G' = leaves G) by (destruct e; naive_solver).
  apply (life_intro _ _ G' l'); [done|by eapply lookup_weaken| |by rewrite Hl].
  rewrite (leaf_frames_eq G G' Hl).
  assert (Hc : tab_frames G' ++ leaf_frames G ++ l' ≡ₚ leaf_frames G ++ tab_frames G' ++ l')
    by solve_Permutation.
  rewrite Hc, Hp', <- Hp. solve_Permutation.
Qed.

Lemma map_Forall_clear ρ : map_Forall (fun _ => wx_leaf) (leaves (set_leaf ρ None G)).
Proof. apply (map_Forall_delete (fun _ => wx_leaf) (leaves G) ρ). done. Qed.

Lemma unmap_reject v : word v -> ~ upage v ->
  paging_unmap_page (Some as_) v s = (Err NinvalidArg, s) /\
  paging_unmap_free_page (Some as_) v s = (NinvalidArg, s).
Proof.
  intros Hw Hv. pose proof (root_nonzero _ _ _ _ Hsys Hroot) as Hnz.
  unfold paging_unmap_page, paging_unmap_free_page. cbn [pml4 as_]. rewrite Hnz.
  by rewrite (not_upage_guard' v Hw Hv).
Qed.

Lemma life_unmap s' v e : word v -> hw_leaf (fa_mem s) (pml4 as_) v = Some e ->
  paging_unmap_page (Some as_) v s = (Ok tt, s') -> life l0 (s', Z.land e ENTRY_ADDR_MASK :: h).
Proof.
  intros Hv Hhw E. destruct (decide (upage v)) as [Hup|Hn].
  2:{ rewrite (proj1 (unmap_reject v Hv Hn)) in E. discriminate. }
  cbn [pml4 as_] in Hhw. rewrite (hw_leaf_spec s G l root v Hsys Hroot) in Hhw
    by (destruct Hup; lia).
  pose proof (unmap_page_run s G l root v Hsys Hroot Hup) as Hrun. fold as_ in Hrun.
  rewrite Hhw, E in Hrun. destruct Hrun as (s'' & [= <-] & Hs' & _).
  apply (life_intro _ _ (set_leaf (path v) None G) l); [done|done| |apply map_Forall_clear].
  change (tab_frames (set_leaf (path v) None G)) with (tab_frames G).
  rewrite <- Hp, (leaf_frames_delete G _ _ Hhw). solve_Permutation.
Qed.

Lemma life_unmap_fail s' v e : word v ->
  paging_unmap_page (Some as_) v s = (Err e, s') -> life l0 (s', h).
Proof.
  intros Hv E. destruct (decide (upage v)) as [Hup|Hn].
  2:{ rewrite (proj1 (unmap_reject v Hv Hn)) in E. injection E as [= _ <-].
      by apply (life_intro _ _ G l). }
  pose proof (unmap_page_run s G l root v Hsys Hroot Hup) as Hrun. fold as_ in Hrun.
  rewrite E in Hrun. destruct (leaves G !! path v).
  - destruct Hrun as (s'' & [=] & _).
  - injection Hrun as [= _ ->]. by apply (life_intro _ _ G l).
Qed.

Lemma life_unmap_free s' v e : word v ->
  paging_unmap_free_page (Some as_) v s = (e, s') -> life l0 (s', h).
Proof.
  intros Hv E. destruct (decide (upage v)) as [Hup|Hn].
  2:{ rewrite (proj2 (unmap_reject v Hv Hn)) in E. injection E as [= _ <-].
      by apply (life_intro _ _ G l). }
  pose proof (unmap_free_page_run s G l root v Hsys Hroot Hup) as Hrun. fold as_ in Hrun.
  rewrite E in Hrun. destruct (leaves G !! path v) as [x|] eqn:Hl.
  - destruct (life_leaf _ _ _ _ _ Hp Hl) as (Hok & Hnt & Hnl).
    destruct (Hrun Hok Hnt Hnl) as (s'' & [= _ <-] & Hs' & _).
    apply (life_intro _ _ (set_leaf (path v) None G) (Z.land x ENTRY_ADDR_MASK :: l));
      [done|done| |apply map_Forall_clear].
    change (tab_frames (set_leaf (path v) None G)) with (tab_frames G).
    rewrite <- Hp, (leaf_frames_delete G _ _ Hl). solve_Permutation.
  - injection Hrun as [= _ ->]. by apply (life_intro _ _ G l).
Qed.

Lemma life_write v pa b : 0 <= v < USER_SPACE_END ->
  hw_translate (fa_mem s) (pml4 as_) v = Some pa ->
  life l0 (fa_set_mem (st8 (phys_to_virt pa) b (fa_mem s)) s, h).
Proof.
  intros Hv Hhw. unfold hw_translate in Hhw. cbn [pml4 as_] in Hhw.
  rewrite (hw_leaf_spec s G l root v Hsys Hroot Hv) in Hhw.
  destruct (leaves G !! path v) as [x|] eqn:Hl; [|done]. injection Hhw as [= <-].
  destruct (life_leaf _ _ _ _ _ Hp Hl) as (Hok & Hnt & Hnl).
  apply (life_intro _ _ G l); [|done|done|done].
  apply (sys_store s G l (Z.land x ENTRY_ADDR_MASK)); [done..|].
  pose proof (Z.mod_pos_bound v PAGE_SIZE ltac:(done)).
  unfold in_frame. rewrite !phys_to_virt_eq; [lia| |].
  all: unfold frame_ok in Hok; unfold PAGE_SIZE in *; lia.
Qed.
End cases.

Lemma life_step c c' : use_step c c' -> life l0 c -> life l0 c'.
Proof.
  intros Hst (G & l & Hsys & Hroot & Hp & Hwx). destruct Hst.
  - by apply (life_alloc s h G l Hsys Hroot Hwx).
  - by apply (life_free s G l Hsys Hroot Hwx s' h1 h2 p e).
  - by apply (life_map s G l Hsys Hroot Hwx s' h1 h2 p v flags).
  - by apply (life_map_fail s h G l Hsys Hroot Hwx Hp s' p v flags e).
  - by apply (life_unmap s h G l Hsys Hroot Hwx Hp s' v e).
  - by apply (life_unmap_fail s h G l Hsys Hroot Hwx Hp s' v e).
  - by apply (life_unmap_free s h G l Hsys Hroot Hwx Hp s' v e).
  - by apply (life_write s h G l Hsys Hroot Hwx Hp v pa b).
  - apply (life_intro _ _ G l); [|done|done|done].
    match goal with Hh : p ∈ h |- _ => apply list_elem_of_split in Hh as (h1 & h2 & ->) end.
    destruct (life_held _ _ _ _ _ Hp) as (Hok & Ht & Hl). by apply (sys_store s G l p).
Qed.
End step.
End life.

(** ** The properties *)

Section props.
Context {S : Type} `{FrameAllocatorLaws S}.

(** C10: [paging_map_page], on every word-sized argument, either rejects it
    with [NinvalidArg] or [Npermission] and changes nothing, or refines the
    insertion of one entry in the finite map of the address space: the page
    gets exactly the entry of the frame and the allowed flags, a page already
    mapped gives [NalreadyExists], and [NoutOfMemory] arises only when fewer
    than three frames were free.  In every case the tables and the free list
    are a rearrangement of what they were, and memory outside the tables is
    unchanged. *)
Theorem map_page_refines (g : paging_globals) (s : S) (G : space) (l : list Z) (root p v flags : Z) :
  sys s G l -> tabs G !! [] = Some root -> word p -> word v -> word flags ->
  exists r s' G' l',
    paging_map_page g (Some (mk_as (phys_to_virt root))) p v flags s = (r, s') /\
    sys s' G' l' /\ tabs G ⊆ tabs G' /\ tab_frames G' ++ l' ≡ₚ tab_frames G ++ l /\
    (forall a, (forall q, q ∈ tab_frames G' -> ~ in_frame q a) ->
       ld8 (fa_mem s') a = ld8 (fa_mem s) a) /\
    match r with
    | Ok _ => phys_ok p /\ upage v /\ wx_ok g flags /\
        leaves G !! path v = None /\ leaves G' = <[path v := leaf_of g p flags]> (leaves G)
    | Err NalreadyExists => is_Some (leaves G !! path v) /\ leaves G' = leaves G
    | Err NoutOfMemory => (length l < 3)%nat /\ l' = [] /\ leaves G' = leaves G
    | Err NinvalidArg => ~ (phys_ok p /\ upage v) /\ s' = s /\ G' = G
    | Err Npermission => ~ wx_ok g flags /\ s' = s /\ G' = G
    | Err _ => False
    end.
Proof.
  intros Hsys Hroot Hp Hv Hf.
  pose proof (map_page_guards g s root p v flags (root_nonzero _ _ _ _ Hsys Hroot) Hp Hv) as Hgd.
  cbv zeta in Hgd. destruct (decide (phys_ok p /\ upage v)) as [[Hpk Hup]|Hn].
  2:{ eexists _, s, G, l. split; [exact Hgd|]. by split_and!. }
  destruct (decide (wx_ok g flags)) as [Hw|Hw].
  2:{ eexists _, s, G, l. split; [exact Hgd|]. by split_and!. }
  destruct (map_page_run g s G l root p v flags Hsys Hroot Hpk Hup Hf Hw)
    as (r & s' & G' & l' & E & H1 & H2 & H3 & H4 & H5).
  exists r, s', G', l'. split_and!; [exact E|done..|]. destruct r as [[]|e].
  - destruct H5 as [? ?]. by split_and!.
  - destruct e; first [exact H5|destruct H5].
Qed.

(** [paging_unmap_free_page] removes the entry of a mapped page and gives
    its frame back to the allocator, provided that frame is neither a table
    nor already free; on any other address it reports [NinvalidArg] and
    changes nothing. *)
Theorem unmap_free_page_refines (s : S) (G : space) (l : list Z) (root v : Z) :
  sys s G l -> tabs G !! [] = Some root -> word v ->
  (forall e, leaves G !! path v = Some e ->
     frame_ok (Z.land e ENTRY_ADDR_MASK) /\ Z.land e ENTRY_ADDR_MASK ∉ tab_frames G ++ l) ->
  exists r s', paging_unmap_free_page (Some (mk_as (phys_to_virt root))) v s = (r, s') /\
    match (if decide (upage v) then leaves G !! path v else None) with
    | Some e => r = Nok /\ sys s' (set_leaf (path v) None G) (Z.land e ENTRY_ADDR_MASK :: l)
    | None => r = NinvalidArg /\ s' = s
    end.
Proof.
  intros Hsys Hroot Hv Hown. destruct (decide (upage v)) as [Hup|Hn].
  - pose proof (unmap_free_page_run s G l root v Hsys Hroot Hup) as Hrun.
    destruct (leaves G !! path v) as [e|].
    + destruct (Hown e eq_refl) as [Hok Hnin]. rewrite elem_of_app in Hnin.
      destruct Hrun as (s' & E & Hs' & _); [done|tauto|tauto|]. by exists Nok, s'.
    + by exists NinvalidArg, s.
  - exists NinvalidArg, s. split; [|done].
    apply (proj2 (unmap_reject root s G l Hsys Hroot v Hv Hn)).
Qed.

(** C11: [paging_is_user_range] answers [true] exactly when the range is empty
    or lies below [USER_SPACE_END] and every one of its bytes is in a page
    mapped for user mode, writable if writing is asked; a range that wraps
    around the address space is refused. *)
Theorem is_user_range_exact (s : S) (G : space) (l : list Z) (root virt len : Z) (write : bool) :
  sys s G l -> tabs G !! [] = Some root -> word virt -> word len ->
  paging_is_user_range (fa_mem s) (Some (mk_as (phys_to_virt root))) virt len write = true <->
  len = 0 \/ (virt + len <= USER_SPACE_END /\
    forall a, virt <= a < virt + len -> user_ok G a write = true).
Proof. apply is_user_range_spec. Qed.

(** A new address space is empty, and shares the direct map and the
    kernel image with the kernel's own tables: its entries 256 and 511 are
    theirs, the other memory being unchanged. *)
Theorem create_shares_kernel (g : paging_globals) (s : S) (root : Z) (l : list Z) :
  fa_rep s (root :: l) -> g_pml4 g <> 0 ->
  (forall a, g_pml4 g <= a < g_pml4 g + PAGE_SIZE -> ~ in_frame root a) ->
  exists s', paging_addrspace_create g s = (Ok (mk_as (phys_to_virt root)), s') /\
    sys s' (space0 root) l /\
    (forall i, i = HHDM_PML4_INDEX \/ i = KERNEL_PML4_INDEX ->
       rd_entry (phys_to_virt root) i s' = rd_entry (g_pml4 g) i s) /\
    (forall v, 0 <= v < USER_SPACE_END -> hw_leaf (fa_mem s') (phys_to_virt root) v = None) /\
    (forall a, ~ in_frame root a -> ld8 (fa_mem s') a = ld8 (fa_mem s) a).
Proof.
  intros Hr Hg Hsep. destruct (create_run g s root l Hr Hg) as (s' & E & Hs' & Hk & Hm).
  exists s'. split_and!; [done|done| | |done].
  - destruct (Hk Hsep) as [H1 H2]. intros i [-> | ->]; done.
  - intros v Hv. rewrite (hw_leaf_spec s' _ l root v Hs' (lookup_singleton_eq _ _) Hv). done.
Qed.

Lemma life_of_create g s0 root l0 s1 c :
  fa_rep s0 (root :: l0) -> g_pml4 g <> 0 ->
  paging_addrspace_create g s0 = (Ok (mk_as (phys_to_virt root)), s1) ->
  rtc (use_step g root) (s1, []) c -> life g root (root :: l0) c.
Proof.
  intros Hr Hg E Hst. destruct (fa_rep_ok _ _ Hr) as [Hnd Hok].
  destruct (create_run g s0 root l0 Hr Hg) as (s1' & E' & Hs1 & _ & _).
  rewrite E' in E. injection E as [= ->].
  apply (rtc_ind_r (R := use_step g root) (life g root (root :: l0)) (s1, [])); [| |done].
  - apply (life_intro g root _ _ _ (space0 root) l0); [done|by apply lookup_singleton_eq| |done].
    unfold tab_frames, leaf_frames. simpl. by rewrite map_to_list_singleton, map_to_list_empty.
  - intros c1 c2 _ H1 H2. by apply (life_step g root (root :: l0) Hnd Hok c1 c2).
Qed.

(** C8: whatever is done with an address space between its creation and its
    destruction - pages mapped, unmapped, freed, tables allocated on the way,
    failures, stores by user code - the destruction gives back every frame:
    what is free afterwards, with the frames the kernel still holds, is a
    rearrangement of what was free before the creation. *)
Theorem addrspace_no_leak (g : paging_globals) (s0 s1 s : S) (root : Z) (l0 held : list Z) :
  fa_rep s0 (root :: l0) -> g_pml4 g <> 0 ->
  paging_addrspace_create g s0 = (Ok (mk_as (phys_to_virt root)), s1) ->
  rtc (use_step g root) (s1, []) (s, held) ->
  exists s' l', paging_addrspace_destroy (mk_as (phys_to_virt root)) s = (mk_as 0, s') /\
    fa_rep s' l' /\ held ++ l' ≡ₚ root :: l0.
Proof.
  intros Hr Hg E Hst.
  destruct (life_of_create g s0 root l0 s1 (s, held) Hr Hg E Hst) as (G & l & Hsys & Hroot & Hp & _).
  destruct (fa_rep_ok _ _ Hr) as [Hnd Hok]. simpl in Hp, Hsys.
  pose proof Hnd as Hnd'. rewrite <- Hp in Hnd'. apply NoDup_app in Hnd' as (_ & _ & Hnd').
  assert (Hall : Forall frame_ok ((nodes 4 G []).*2)).
  { destruct Hsys as (_ & Hinv & _). rewrite (nodes_frames _ _ Hinv).
    rewrite <- Hp, !Forall_app in Hok. rewrite Forall_app. tauto. }
  destruct (destroy_run s G l Hsys Hall root Hroot Hnd') as (s' & l' & E' & Hr' & Hp' & _).
  exists s', l'. split_and!; [done|done|]. by rewrite Hp'.
Qed.

(** C9: in every address space, at every moment of its life, every page the
    processor translates is a user page, and with the no-execute feature no
    page is both writable and executable. *)
Theorem addrspace_write_xor_execute (g : paging_globals) (s0 s1 s : S) (root : Z) (l0 held : list Z)
    (v e : Z) :
  fa_rep s0 (root :: l0) -> g_pml4 g <> 0 -> g_nx_supported g = true ->
  paging_addrspace_create g s0 = (Ok (mk_as (phys_to_virt root)), s1) ->
  rtc (use_step g root) (s1, []) (s, held) ->
  0 <= v < USER_SPACE_END -> hw_leaf (fa_mem s) (phys_to_virt root) v = Some e ->
  tst e PAGE_USER = true /\ (tst e PAGE_RW = true -> tst e PAGE_NX = true).
Proof.
  intros Hr Hg Hnx E Hst Hv He.
  destruct (life_of_create g s0 root l0 s1 (s, held) Hr Hg E Hst) as (G & l & Hsys & Hroot & _ & Hwx).
  rewrite (hw_leaf_spec s G l root v Hsys Hroot Hv) in He. destruct (Hwx _ _ He) as [Hu Hx].
  split; [done|]. by apply Hx.
Qed.
End props.
