(* ===== verification/Handles.v ===== *)
(** * Handle tables: [nxkernel/kernel/syscall/handles.c]

    A table of 32 slots; a handle is [(generation << 32) | slot].  The file a
    slot holds belongs to the layer below, which enters as the class
    [FileLayer]; [Vfs] gives the instance.  Pointers to slots are indices,
    output pointers are results. *)

From S2P Require Import Prelude Types.

(** What the table needs of the file layer: the zeroed handle, and closing. *)
Class FileLayer (V F : Type) := {
  file_zero : F;
  file_close : F -> V -> V;
}.

(** ** Constants *)

(** [NX_HANDLE_FREE]: nxkernel/kernel/syscall/handles.h:19-19 *)
Definition NX_HANDLE_FREE : Z := 0.
(** [NX_HANDLE_CONSOLE]: nxkernel/kernel/syscall/handles.h:20-20 *)
Definition NX_HANDLE_CONSOLE : Z := 1.
(** [NX_HANDLE_FILE]: nxkernel/kernel/syscall/handles.h:21-21 *)
Definition NX_HANDLE_FILE : Z := 2.
(** [NX_MAX_HANDLES]: include/nyx_abi.h:103-103 *)
Definition NX_MAX_HANDLES : nat := 32.
(** [NX_RIGHT_READ]: include/nyx_abi.h:73-73 *)
Definition NX_RIGHT_READ : Z := 0x01.
(** [NX_RIGHT_WRITE]: include/nyx_abi.h:74-74 *)
Definition NX_RIGHT_WRITE : Z := 0x02.
(** [NX_RIGHT_SEEK]: include/nyx_abi.h:75-75 *)
Definition NX_RIGHT_SEEK : Z := 0x04.
(** [NX_RIGHT_STAT]: include/nyx_abi.h:76-76 *)
Definition NX_RIGHT_STAT : Z := 0x08.
(** [NX_RIGHT_DUP]: include/nyx_abi.h:77-77 *)
Definition NX_RIGHT_DUP : Z := 0x10.
(** [NX_RIGHT_ALL]: include/nyx_abi.h:78-78 *)
Definition NX_RIGHT_ALL : Z := 0x1F.

(** [nx_handle_t]: nxkernel/kernel/syscall/handles.h:25-31 *)
Record nx_handle_t (F : Type) := mk_handle {
  h_type : Z;
  h_rights : Z;
  h_generation : Z;
  console_fd : Z;
  h_file : F;
}.
#[global] Arguments mk_handle {F}.
#[global] Arguments h_type {F}.
#[global] Arguments h_rights {F}.
#[global] Arguments h_generation {F}.
#[global] Arguments console_fd {F}.
#[global] Arguments h_file {F}.

(** The table of a process ([nx_handle_table_t]): its slots. *)
Abbreviation nx_handle_table_t F := (list (nx_handle_t F)).

Section handles.
Context {V F : Type} `{FileLayer V F}.

(** A slot filled with zero bytes, but for its generation. *)
Definition zero_slot (gen : Z) : nx_handle_t F := mk_handle 0 0 gen 0 file_zero.

(** [memset(table, 0, sizeof( *table))]. *)
Definition zero_table : nx_handle_table_t F := replicate NX_MAX_HANDLES (zero_slot 0).

(** [make_handle]: nxkernel/kernel/syscall/handles.c:9-12 *)
Definition make_handle (generation index : Z) : Z := Z.lor (u64 (Z.shiftl generation 32)) index.

Definition is_free (h : nx_handle_t F) : bool := h_type h =? NX_HANDLE_FREE.

(** The loop of [nx_handle_alloc]: the first free slot from index [i]. *)
(** [find_free]: nxkernel/kernel/syscall/handles.c:38-42 *)
Fixpoint find_free (slots : list (nx_handle_t F)) (i : nat) : option (nat * nx_handle_t F) :=
  match slots with
  | [] => None
  | slot :: slots => if negb (is_free slot) then find_free slots (S i) else Some (i, slot)
  end.

(** [nx_handle_alloc]: nxkernel/kernel/syscall/handles.c:30-60 *)
Definition nx_handle_alloc (table : nx_handle_table_t F) (type rights : Z)
    : res (Z * nat) * nx_handle_table_t F :=
  match find_free table 0 with
  | None => (Err NoutOfMemory, table)
  | Some (i, slot) =>
      let gen := h_generation slot in
      let slot := mk_handle type (Z.land rights NX_RIGHT_ALL) gen 0 file_zero in
      (Ok (make_handle gen (Z.of_nat i), i), <[i := slot]> table)
  end.

(** [nx_handle_lookup]: nxkernel/kernel/syscall/handles.c:62-87 *)
Definition nx_handle_lookup (table : nx_handle_table_t F) (handle required_rights : Z) : res nat :=
  let index := u32 (Z.land handle 0xFFFFFFFF) in
  let generation := u32 (Z.shiftr handle 32) in
  if Z.of_nat NX_MAX_HANDLES <=? index then Err NinvalidArg
  else
    match table !! Z.to_nat index with
    | None => Err NinvalidArg
    | Some slot =>
        if is_free slot || negb (h_generation slot =? generation) then Err NinvalidArg
        else if negb (Z.land (h_rights slot) required_rights =? required_rights) then Err Npermission
        else Ok (Z.to_nat index)
    end.

(** [nx_handle_close]: nxkernel/kernel/syscall/handles.c:89-107 *)
Definition nx_handle_close (handle : Z) (s : nx_handle_table_t F * V) : Nerror * (nx_handle_table_t F * V) :=
  let '(table, v) := s in
  match nx_handle_lookup table handle 0 with
  | Err e => (e, s)
  | Ok i =>
      match table !! i with
      | None => (NinvalidArg, s)
      | Some slot =>
          let v := if h_type slot =? NX_HANDLE_FILE then file_close (h_file slot) v else v in
          (Nok, (<[i := zero_slot (u32 (h_generation slot + 1))]> table, v))
      end
  end.

(** [nx_handle_discard]: nxkernel/kernel/syscall/handles.c:109-119 *)
Definition nx_handle_discard (i : nat) (table : nx_handle_table_t F) : nx_handle_table_t F :=
  match table !! i with
  | None => table
  | Some slot => <[i := zero_slot (u32 (h_generation slot + 1))]> table
  end.

(** [nx_handles_close_all]: nxkernel/kernel/syscall/handles.c:121-132 *)
Definition nx_handles_close_all (s : nx_handle_table_t F * V) : nx_handle_table_t F * V :=
  fold_left (fun s i =>
    match s.1 !! i with
    | None => s
    | Some slot =>
        if is_free slot then s
        else (nx_handle_close (make_handle (h_generation slot) (Z.of_nat i)) s).2
    end) (seq 0 NX_MAX_HANDLES) s.

(** [nx_handles_count]: nxkernel/kernel/syscall/handles.c:134-144 *)
Definition nx_handles_count (table : nx_handle_table_t F) : nat :=
  fold_left (fun n slot => if negb (is_free slot) then S n else n) table 0%nat.

(** One of the three calls of [nx_handles_init]. *)
(** [init_console]: nxkernel/kernel/syscall/handles.c:22-23 *)
Definition init_console (rights fd : Z) (table : nx_handle_table_t F) : nx_handle_table_t F :=
  match nx_handle_alloc table NX_HANDLE_CONSOLE rights with
  | (Ok (_, i), table) =>
      alter (fun s => mk_handle (h_type s) (h_rights s) (h_generation s) fd (h_file s)) i table
  | (Err _, table) => table
  end.

(** [nx_handles_init]: nxkernel/kernel/syscall/handles.c:14-28 *)
Definition nx_handles_init : nx_handle_table_t F :=
  let stat_dup := Z.lor NX_RIGHT_STAT NX_RIGHT_DUP in
  let table := zero_table in
  let table := init_console (Z.lor NX_RIGHT_READ stat_dup) 0 table in
  let table := init_console (Z.lor NX_RIGHT_WRITE stat_dup) 1 table in
  init_console (Z.lor NX_RIGHT_WRITE stat_dup) 2 table.
End handles.

(** ** Handles and slots *)

Lemma make_handle_eq g i : 0 <= g < 2 ^ 32 -> 0 <= i < 2 ^ 32 -> make_handle g i = g * 2 ^ 32 + i.
Proof.
  intros Hg Hi. unfold make_handle. rewrite Z.shiftl_mul_pow2, uw_small by lia.
  assert (Hd : Z.land (g * 2 ^ 32) i = 0).
  { apply Z.bits_inj'. intros k Hk. rewrite Z.land_spec, Z.bits_0.
    destruct (Z.lt_ge_cases k 32).
    - by rewrite Z.mul_pow2_bits_low.
    - rewrite (testbit_above 32 i) by lia. by rewrite andb_false_r. }
  by rewrite <- Z.lxor_lor, <- Z.add_nocarry_lxor.
Qed.

Lemma handle_index g i : 0 <= g < 2 ^ 32 -> 0 <= i < 2 ^ 32 ->
  u32 (Z.land (make_handle g i) 0xFFFFFFFF) = i.
Proof.
  intros Hg Hi. rewrite make_handle_eq by done. change 0xFFFFFFFF with (2 ^ 32 - 1).
  rewrite land_ones_mod, Z.add_comm, Z_mod_plus_full by lia. by rewrite !Z.mod_small, uw_small by (done || rewrite Z.mod_small; done).
Qed.

Lemma handle_generation g i : 0 <= g < 2 ^ 32 -> 0 <= i < 2 ^ 32 ->
  u32 (Z.shiftr (make_handle g i) 32) = g.
Proof.
  intros Hg Hi. rewrite make_handle_eq by done. rewrite Z.shiftr_div_pow2 by lia.
  rewrite Z.div_add_l, Z.div_small by lia. rewrite Z.add_0_r. by apply uw_small.
Qed.

(** Every 64-bit value is the handle of its two halves. *)
Lemma handle_halves h : 0 <= h < 2 ^ 64 ->
  h = make_handle (u32 (Z.shiftr h 32)) (u32 (Z.land h 0xFFFFFFFF)).
Proof.
  intros Hh. pose proof (Z.div_mod h (2 ^ 32) ltac:(lia)). pose proof (Z.mod_pos_bound h (2 ^ 32) ltac:(lia)).
  assert (0 <= h / 2 ^ 32 < 2 ^ 32) by (split; [apply Z.div_pos|apply Z.div_lt_upper_bound]; lia).
  change 0xFFFFFFFF with (2 ^ 32 - 1). rewrite land_ones_mod by lia.
  rewrite Z.shiftr_div_pow2 by lia. rewrite !uw_small by lia. rewrite make_handle_eq by lia. lia.
Qed.

Section props.
Context {V F : Type} `{FileLayer V F}.
Implicit Types (t : list (nx_handle_t F)) (s : nx_handle_t F) (v : V).

Definition slot_ok s : Prop := 0 <= h_generation s < 2 ^ 32 /\ 0 <= h_rights s < 32.
Definition table_ok t : Prop := length t = NX_MAX_HANDLES /\ Forall slot_ok t.

Lemma slot_ok_zero g : 0 <= g < 2 ^ 32 -> slot_ok (zero_slot g).
Proof. intros. split; simpl; lia. Qed.

Lemma table_ok_insert t i s : table_ok t -> slot_ok s -> table_ok (<[i := s]> t).
Proof. intros [Hl Ht] Hs. split; [by rewrite length_insert|by apply Forall_insert]. Qed.

Lemma table_ok_lookup t i s : table_ok t -> t !! i = Some s -> slot_ok s /\ (i < NX_MAX_HANDLES)%nat.
Proof.
  intros [Hl Ht] Hi. split; [by eapply Forall_lookup_1|]. rewrite <- Hl. by eapply lookup_lt_Some.
Qed.

Lemma zero_table_ok : table_ok zero_table.
Proof. split; [done|]. apply Forall_replicate, slot_ok_zero. lia. Qed.

(** *** Lookup *)

Lemma lookup_make t i s r : table_ok t -> t !! i = Some s ->
  nx_handle_lookup t (make_handle (h_generation s) (Z.of_nat i)) r =
  if is_free s then Err NinvalidArg
  else if negb (Z.land (h_rights s) r =? r) then Err Npermission else Ok i.
Proof.
  intros Ht Hi. destruct (table_ok_lookup t i s Ht Hi) as [[Hg _] Hlt].
  unfold NX_MAX_HANDLES in Hlt. unfold nx_handle_lookup. rewrite handle_index, handle_generation by lia.
  unfold NX_MAX_HANDLES. case_if; [lia|]. rewrite Nat2Z.id, Hi, Z.eqb_refl. simpl. by rewrite orb_false_r.
Qed.

Lemma lookup_ok_inv t h r i : 0 <= h < 2 ^ 64 -> nx_handle_lookup t h r = Ok i ->
  exists s, t !! i = Some s /\ h = make_handle (h_generation s) (Z.of_nat i) /\
    is_free s = false /\ Z.land (h_rights s) r = r.
Proof.
  intros Hh. unfold nx_handle_lookup. pose proof (handle_halves h Hh) as Hhh.
  set (idx := u32 (Z.land h _)) in *. set (gen := u32 (Z.shiftr h 32)) in *.
  assert (Hidx : 0 <= idx) by apply u32_range. case_if; [done|].
  destruct (t !! Z.to_nat idx) as [s|] eqn:Ei; [|done].
  destruct (is_free s) eqn:Ef; [done|]. simpl. case_if; [done|]. case_if; [done|].
  intros [= <-]. exists s. rewrite Z2Nat.id by done. split_and!; try done. congruence.
Qed.

Lemma lookup_other t i s h r j :
  table_ok t -> 0 <= h < 2 ^ 64 -> nx_handle_lookup t h r = Ok j -> j <> i ->
  nx_handle_lookup (<[i := s]> t) h r = Ok j.
Proof.
  intros Ht Hh Hl Hne. destruct (lookup_ok_inv t h r j Hh Hl) as (s' & Hj & -> & Hf & Hr).
  destruct (table_ok_lookup t j s' Ht Hj) as [[Hg _] Hlt]. unfold NX_MAX_HANDLES in Hlt.
  unfold nx_handle_lookup. rewrite handle_index, handle_generation by lia.
  unfold NX_MAX_HANDLES. case_if; [lia|]. rewrite Nat2Z.id, list_lookup_insert_ne by done.
  rewrite Hj, Hf, Z.eqb_refl. simpl. case_if; [lia|done].
Qed.

(** *** The first free slot *)

Lemma find_free_spec t k :
  match find_free t k with
  | Some (j, s) => exists i, j = (k + i)%nat /\ t !! i = Some s /\ is_free s = true /\
      forall i' s', (i' < i)%nat -> t !! i' = Some s' -> is_free s' = false
  | None => Forall (fun s => is_free s = false) t
  end.
Proof.
  revert k. induction t as [|s t IH]; intros k; simpl; [done|].
  destruct (is_free s) eqn:E; simpl.
  - exists 0%nat. split_and!; [lia|done|done|]. intros; lia.
  - specialize (IH (Datatypes.S k)). destruct (find_free t (Datatypes.S k)) as [[j s']|].
    + destruct IH as (i & -> & Hi & Hf & Hmin). exists (Datatypes.S i). split; [lia|]. split; [exact Hi|]. split; [exact Hf|].
      intros [|i'] s'' Hlt Hs''; [injection Hs'' as [= <-]; exact E|]. apply (Hmin i'); [simpl in *; lia|exact Hs''].
    + by constructor.
Qed.

Lemma count_app t1 t2 n :
  fold_left (fun n s => if negb (is_free s) then Datatypes.S n else n) (t1 ++ t2) n =
  (fold_left (fun n s => if negb (is_free s) then Datatypes.S n else n) t1 n +
   nx_handles_count t2)%nat.
Proof.
  rewrite fold_left_app. unfold nx_handles_count.
  generalize (fold_left (fun n s => if negb (is_free s) then Datatypes.S n else n) t1 n) as k.
  induction t2 as [|s t2 IH]; intros k; simpl; [lia|].
  rewrite IH. destruct (is_free s); simpl; [done|]. rewrite (IH 1%nat). lia.
Qed.

Lemma count_insert t i s s' : t !! i = Some s ->
  (nx_handles_count (<[i := s']> t) + (if is_free s then 0 else 1) =
   nx_handles_count t + (if is_free s' then 0 else 1))%nat.
Proof.
  intros Hi. pose proof (lookup_lt_Some _ _ _ Hi). rewrite insert_take_drop by done.
  assert (Ht : t = take i t ++ s :: drop (Datatypes.S i) t) by (symmetry; by apply take_drop_middle).
  rewrite Ht at 3. unfold nx_handles_count at 1 2. rewrite !count_app.
  change (s' :: ?x) with ([s'] ++ x). change (s :: ?x) with ([s] ++ x).
  unfold nx_handles_count. rewrite !count_app. simpl. destruct (is_free s), (is_free s'); simpl; lia.
Qed.

Lemma count_full t : Forall (fun s => is_free s = false) t <-> nx_handles_count t = length t.
Proof.
  induction t as [|s t IH]; [done|]. rewrite Forall_cons. change (s :: t) with ([s] ++ t).
  unfold nx_handles_count. rewrite count_app, length_app. simpl length.
  assert (Hle : (nx_handles_count t <= length t)%nat).
  { clear. induction t as [|x t IH]; [done|]. change (x :: t) with ([x] ++ t).
    unfold nx_handles_count. rewrite count_app. simpl. destruct (is_free x); simpl; lia. }
  simpl. destruct (is_free s); simpl; [split; [by intros [? _]|lia]|].
  rewrite IH. split; [intros [_ ?]; lia|]. intros. split; [done|lia].
Qed.

Lemma alloc_slot_ok t rights type g : 0 <= g < 2 ^ 32 ->
  slot_ok (mk_handle type (Z.land rights NX_RIGHT_ALL) g 0 file_zero).
Proof. intros. split; simpl; [done|]. apply (land_range 5); done. Qed.
End props.

(** ** Properties *)

Section claims.
Context {V F : Type} `{FileLayer V F}.
Implicit Types (t : list (nx_handle_t F)) (s : nx_handle_t F) (v : V).

(** The operations of the table, with the writes the callers make through the
    slot pointers they got ([slot->file = ...], [slot->console_fd = ...]). *)
Inductive table_step : list (nx_handle_t F) * V -> list (nx_handle_t F) * V -> Prop :=
| ts_alloc t t' v type rights r : type <> NX_HANDLE_FREE ->
    nx_handle_alloc t type rights = (r, t') -> table_step (t, v) (t', v)
| ts_close c c' h e : 0 <= h < 2 ^ 64 -> nx_handle_close h c = (e, c') -> table_step c c'
| ts_discard t v i : table_step (t, v) (nx_handle_discard i t, v)
| ts_write t v i s fd f : t !! i = Some s ->
    table_step (t, v) (<[i := mk_handle (h_type s) (h_rights s) (h_generation s) fd f]> t, v)
| ts_files t v v' : table_step (t, v) (t, v').

(** What a step does to the slots: a slot keeps its generation or takes the
    next one. *)
Definition next_slot s s' : Prop :=
  h_generation s' = h_generation s \/ h_generation s' = u32 (h_generation s + 1).

Lemma slot_step_insert t i s s' j x : t !! i = Some s -> next_slot s s' -> t !! j = Some x ->
  exists y, (<[i := s']> t) !! j = Some y /\ next_slot x y.
Proof.
  intros Hi Hn Hj. destruct (decide (i = j)) as [->|].
  - exists s'. rewrite list_lookup_insert_eq by (by eapply lookup_lt_Some). simplify_eq. done.
  - exists x. rewrite list_lookup_insert_ne by done. split; [done|by left].
Qed.

Lemma table_step_slots c c' : table_ok c.1 -> table_step c c' ->
  table_ok c'.1 /\ forall j x, c.1 !! j = Some x -> exists y, c'.1 !! j = Some y /\ next_slot x y.
Proof.
  intros Ht Hst.
  assert (Hid : forall t, (forall j x, t !! j = Some x -> exists y, t !! j = Some y /\ next_slot x y))
    by (intros t j x Hx; exists x; split; [done|by left]).
  destruct Hst as [t t' v type rights r _ E|c c' h e Hh E|t v i|t v i s fd f Hi|t v v']; simpl in *.
  - unfold nx_handle_alloc in E. pose proof (find_free_spec t 0) as Hff.
    destruct (find_free t 0) as [[i s]|]; [|by simplify_eq; split; [|apply Hid]].
    destruct Hff as (i' & -> & Hi & _). simpl in *.
    destruct (table_ok_lookup _ _ _ Ht Hi) as [[Hg _] _]. simplify_eq. split.
    + apply table_ok_insert; [done|]. by apply (alloc_slot_ok t).
    + intros j x Hj. by eapply slot_step_insert; [done|by left|done].
  - destruct c as [t v]. simpl in *. unfold nx_handle_close in E.
    destruct (nx_handle_lookup t h 0) as [i|]; [|by simplify_eq; split; [|apply Hid]].
    destruct (t !! i) as [s|] eqn:Hi; [|by simplify_eq; split; [|apply Hid]]. simplify_eq. simpl. split.
    + apply table_ok_insert; [done|]. apply slot_ok_zero, u32_range.
    + intros j x Hj. by eapply slot_step_insert; [done|by right|done].
  - unfold nx_handle_discard. destruct (t !! i) as [s|] eqn:Hi; [|by split; [|apply Hid]]. split.
    + apply table_ok_insert; [done|]. apply slot_ok_zero, u32_range.
    + intros j x Hj. by eapply slot_step_insert; [done|by right|done].
  - destruct (table_ok_lookup _ _ _ Ht Hi) as [[Hg Hr] _]. split.
    + by apply table_ok_insert.
    + intros j x Hj. by eapply slot_step_insert; [done|by left|done].
  - by split; [|apply Hid].
Qed.

(** How far a generation has moved. *)
Lemma next_slot_age g k s s' : 0 <= k -> h_generation s = u32 (g + k) -> next_slot s s' ->
  exists k', k <= k' <= k + 1 /\ h_generation s' = u32 (g + k').
Proof.
  intros Hk Hs [-> | ->]; [by exists k; split; [lia|]|]. exists (k + 1). split; [lia|].
  rewrite Hs. unfold uw. rewrite Zplus_mod_idemp_l. f_equal. lia.
Qed.

Lemma steps_age n c c' i g k s : table_ok c.1 -> nsteps table_step n c c' ->
  c.1 !! i = Some s -> 0 <= k -> h_generation s = u32 (g + k) ->
  table_ok c'.1 /\ exists s' k', c'.1 !! i = Some s' /\ k <= k' <= k + Z.of_nat n /\
    h_generation s' = u32 (g + k').
Proof.
  intros Ht Hn. revert k s Ht. induction Hn as [c|n c c1 c' Hst Hn IH]; intros k s Ht Hi Hk Hg.
  - split; [done|]. exists s, k. split_and!; try done; lia.
  - destruct (table_step_slots c c1 Ht Hst) as [Ht1 Hs1].
    destruct (Hs1 i s Hi) as (s1 & Hi1 & Hnx).
    destruct (next_slot_age g k s s1 Hk Hg Hnx) as (k1 & Hk1 & Hg1).
    destruct (IH k1 s1 Ht1 Hi1 ltac:(lia) Hg1) as (Ht' & s' & k' & Hi' & Hk' & Hg').
    split; [done|]. exists s', k'. split_and!; try done; lia.
Qed.

(** C39: once a handle is closed its value stays dead: after any sequence of
    fewer than [2^32 - 1] operations on the table - allocations that reuse the
    slot included - looking the old value up gives [NinvalidArg], whatever
    rights are asked. *)
Theorem closed_handle_stays_invalid (t : list (nx_handle_t F)) (v : V) (h : Z) c1 (n : nat) c2 (r : Z) :
  table_ok t -> 0 <= h < 2 ^ 64 -> nx_handle_close h (t, v) = (Nok, c1) ->
  nsteps table_step n c1 c2 -> Z.of_nat n < 2 ^ 32 - 1 ->
  nx_handle_lookup c2.1 h r = Err NinvalidArg.
Proof.
  intros Ht Hh Hc Hn Hlt. unfold nx_handle_close in Hc.
  destruct (nx_handle_lookup t h 0) as [i|e] eqn:El; [|by apply (f_equal fst) in Hc; simpl in Hc; subst; unfold nx_handle_lookup in El; repeat case_match; simplify_eq].
  destruct (lookup_ok_inv t h 0 i Hh El) as (s & Hi & -> & Hf & _). rewrite Hi in Hc.
  destruct (table_ok_lookup t i s Ht Hi) as [[Hg _] Hlti]. unfold NX_MAX_HANDLES in Hlti.
  injection Hc as [= <-]. set (s1 := zero_slot (u32 (h_generation s + 1))) in *.
  pose proof (lookup_lt_Some _ _ _ Hi) as Hlen.
  assert (Ht1 : table_ok (<[i := s1]> t))
    by (apply table_ok_insert; [done|]; apply slot_ok_zero, u32_range).
  assert (Hi1 : (<[i := s1]> t) !! i = Some s1) by by apply list_lookup_insert_eq.
  destruct (steps_age n (<[i := s1]> t, _) c2 i (h_generation s) 1 s1 Ht1 Hn Hi1 ltac:(lia) eq_refl)
    as (Ht2 & s2 & k & Hi2 & Hk & Hg2).
  unfold nx_handle_lookup. rewrite handle_index, handle_generation by lia.
  unfold NX_MAX_HANDLES. case_if; [lia|]. rewrite Nat2Z.id, Hi2.
  replace (h_generation s2 =? h_generation s) with false; [by rewrite orb_true_r|].
  symmetry. apply Z.eqb_neq. rewrite Hg2. intros He. unfold uw in He.
  destruct (Z.lt_ge_cases (h_generation s + k) (2 ^ 32)).
  - rewrite Z.mod_small in He by lia. lia.
  - rewrite (Z.mod_eq (h_generation s + k)) in He by lia.
    assert (H1 : (h_generation s + k) / 2 ^ 32 = 1); [|rewrite H1 in He; lia].
    symmetry. apply (Z.div_unique_pos _ _ _ (h_generation s + k - 2 ^ 32)); lia.
Qed.

(** [nx_handle_alloc] fails exactly when the 32 slots are taken; otherwise
    the handle it returns was invalid before, is now valid for exactly the
    asked rights (those the kernel knows), every other valid handle still
    means the same slot, and one more handle is open. *)
Theorem handle_alloc_spec (t : list (nx_handle_t F)) (type rights : Z) :
  table_ok t -> type <> NX_HANDLE_FREE ->
  match nx_handle_alloc t type rights with
  | (Err e, t') => e = NoutOfMemory /\ t' = t /\ nx_handles_count t = NX_MAX_HANDLES
  | (Ok (h, i), t') =>
      table_ok t' /\ nx_handles_count t' = S (nx_handles_count t) /\
      (forall r, nx_handle_lookup t h r = Err NinvalidArg) /\
      (forall r, nx_handle_lookup t' h r =
         if Z.land (Z.land rights NX_RIGHT_ALL) r =? r then Ok i else Err Npermission) /\
      (forall h' r j, 0 <= h' < 2 ^ 64 -> nx_handle_lookup t h' r = Ok j ->
         j <> i /\ nx_handle_lookup t' h' r = Ok j)
  end.
Proof.
  intros Ht Hty. unfold nx_handle_alloc. pose proof (find_free_spec t 0) as Hff.
  destruct (find_free t 0) as [[i s]|].
  2:{ split_and!; [done|done|]. apply count_full in Hff. rewrite Hff. by destruct Ht. }
  destruct Hff as (i' & -> & Hi & Hfree & _). simpl.
  destruct (table_ok_lookup t i' s Ht Hi) as [Hsok Hlt].
  set (s' := mk_handle type _ _ _ _).
  assert (Hs' : is_free s' = false) by (unfold is_free, s'; simpl; lia).
  assert (Ht' : table_ok (<[i' := s']> t)).
  { apply table_ok_insert; [done|]. apply (alloc_slot_ok t). by destruct Hsok. }
  assert (Hi' : (<[i' := s']> t) !! i' = Some s')
    by (apply list_lookup_insert_eq; by eapply lookup_lt_Some).
  split_and!.
  - done.
  - pose proof (count_insert t i' s s' Hi) as Hc. rewrite Hfree, Hs' in Hc. lia.
  - intros r. rewrite (lookup_make t i' s r Ht Hi). by rewrite Hfree.
  - intros r. change (h_generation s) with (h_generation s').
    rewrite (lookup_make _ i' s' r Ht' Hi'). rewrite Hs'. simpl. by destruct (_ =? r).
  - intros h' r j Hh' Hl. assert (Hne : j <> i').
    { intros ->. destruct (lookup_ok_inv t h' r i' Hh' Hl) as (s2 & Hs2 & _ & Hf & _). congruence. }
    split; [done|]. by apply lookup_other.
Qed.

(** [nx_handle_lookup] answers [Ok] exactly for the values that name an
    open slot with its current generation and hold the rights asked. *)
Theorem handle_lookup_exact (t : list (nx_handle_t F)) (h r : Z) (i : nat) :
  table_ok t -> 0 <= h < 2 ^ 64 ->
  nx_handle_lookup t h r = Ok i <->
  exists s, t !! i = Some s /\ h = make_handle (h_generation s) (Z.of_nat i) /\
    h_type s <> NX_HANDLE_FREE /\ Z.land (h_rights s) r = r.
Proof.
  intros Ht Hh. split.
  - intros Hl. destruct (lookup_ok_inv t h r i Hh Hl) as (s & ? & ? & Hf & ?). exists s.
    unfold is_free in Hf. split_and!; try done. lia.
  - intros (s & Hi & -> & Hty & Hr). rewrite (lookup_make t i s r Ht Hi).
    unfold is_free. case_if; [done|]. by rewrite Hr, Z.eqb_refl.
Qed.

(** *** Closing everything *)

Definition open_files t : list F := h_file <$> filter (fun s => (h_type s =? NX_HANDLE_FILE) = true) t.

Lemma close_all_from t v t1 t2 :
  table_ok t -> t = t1 ++ t2 -> Forall (fun s => is_free s = true) t1 ->
  let c := fold_left (fun c i =>
    match c.1 !! i with
    | None => c
    | Some slot => if is_free slot then c
                   else (nx_handle_close (make_handle (h_generation slot) (Z.of_nat i)) c).2
    end) (seq (length t1) (length t2)) (t, v) in
  Forall (fun s => is_free s = true) c.1 /\ length c.1 = length t /\
  c.2 = fold_left (fun v f => file_close f v) (open_files t2) v.
Proof.
  revert t v t1. induction t2 as [|s t2 IH]; intros t v t1 Ht -> Hf1; simpl.
  - rewrite app_nil_r in *. done.
  - rewrite lookup_app_r, Nat.sub_diag by lia. simpl.
    assert (Hi : (t1 ++ s :: t2) !! length t1 = Some s)
      by (rewrite lookup_app_r, Nat.sub_diag by lia; done).
    assert (Hs1 : forall s', t1 ++ s' :: t2 = (t1 ++ [s']) ++ t2) by (intros; by rewrite <- app_assoc).
    assert (Hl1 : forall s', Datatypes.S (length t1) = length (t1 ++ [s' : nx_handle_t F]))
      by (intros; rewrite length_app; simpl; lia).
    unfold open_files. rewrite filter_cons. destruct (is_free s) eqn:Ef.
    + rewrite (Hs1 s), (Hl1 s), decide_False by (unfold is_free in Ef; unfold NX_HANDLE_FILE, NX_HANDLE_FREE in *; lia).
      apply IH; [by rewrite <- Hs1|done|]. by rewrite Forall_app, Forall_singleton.
    + unfold nx_handle_close. rewrite (lookup_make _ (length t1) s 0 Ht Hi), Ef.
      rewrite Z.land_0_r. simpl. rewrite Hi. set (s' := zero_slot _).
      assert (Hup : <[length t1 := s']> (t1 ++ s :: t2) = t1 ++ s' :: t2)
        by (rewrite insert_app_r_alt, Nat.sub_diag by lia; done).
      assert (Ht' : table_ok (t1 ++ s' :: t2)).
      { rewrite <- Hup. apply table_ok_insert; [done|]. apply slot_ok_zero, u32_range. }
      simpl. rewrite Hup, (Hs1 s'), (Hl1 s').
      assert (Hlen : length (t1 ++ s :: t2) = length ((t1 ++ [s']) ++ t2))
        by (rewrite !length_app; simpl; lia).
      rewrite Hlen.
      destruct (h_type s =? NX_HANDLE_FILE) eqn:Et.
      * rewrite decide_True by done. simpl. apply IH; [by rewrite <- Hs1|done|].
        by rewrite Forall_app, Forall_singleton.
      * rewrite decide_False by done. apply IH; [by rewrite <- Hs1|done|].
        by rewrite Forall_app, Forall_singleton.
Qed.

(** [nx_handles_close_all] leaves no open handle, and closes every file
    the table held exactly once, in slot order, and nothing else. *)
Theorem handles_close_all_spec (t : list (nx_handle_t F)) (v : V) :
  table_ok t ->
  nx_handles_count (nx_handles_close_all (t, v)).1 = 0%nat /\
  (forall h r, nx_handle_lookup (nx_handles_close_all (t, v)).1 h r = Err NinvalidArg) /\
  (nx_handles_close_all (t, v)).2 = fold_left (fun v f => file_close f v) (open_files t) v.
Proof.
  intros Ht. pose proof (close_all_from t v [] t Ht eq_refl ltac:(done)) as Hc.
  simpl length in Hc. rewrite (proj1 Ht) in Hc. cbv zeta in Hc.
  unfold nx_handles_close_all.
  match goal with |- context [fold_left ?f ?l (t, v)] => set (c := fold_left f l (t, v)) in * end.
  clearbody c. destruct Hc as (Hfree & Hlen & Hv). destruct c as [t' v']. simpl in *. split_and!.
  - clear -Hfree. induction Hfree as [|s l Hs _ IH]; [done|].
    change (s :: l) with ([s] ++ l). unfold nx_handles_count. rewrite count_app. simpl.
    rewrite Hs. simpl. done.
  - intros h r. unfold nx_handle_lookup. case_if; [done|].
    destruct (t' !! _) as [s|] eqn:Es; [|done].
    rewrite Forall_lookup in Hfree. by rewrite (Hfree _ _ Es).
  - done.
Qed.
End claims.

(** *** Concrete inputs: files are numbers, closing logs them *)

#[local] Instance ex_layer : FileLayer (list Z) Z := {
  file_zero := 0;
  file_close f log := f :: log;
}.

Definition ex_table : list (nx_handle_t Z) :=
  <[3%nat := mk_handle NX_HANDLE_FILE 3 7 0 42]> (nx_handles_init (V := list Z)).

Lemma ex_table_ok : table_ok ex_table.
Proof.
  apply table_ok_insert; [|done]. split; [done|].
  repeat (apply Forall_cons; split; [split; vm_compute; split; congruence|]). apply Forall_nil_2.
Qed.

Lemma closed_handle_stays_invalid_witness :
  let h := make_handle 7 3 in
  let c1 := (nx_handle_close h (ex_table, [])).2 in
  nx_handle_lookup (nx_handle_alloc c1.1 NX_HANDLE_FILE 3).2 h 0 = Err NinvalidArg.
Proof.
  intros h c1. pose (t' := (nx_handle_alloc c1.1 NX_HANDLE_FILE 3).2).
  apply (closed_handle_stays_invalid ex_table [] h c1 1 (t', c1.2) 0).
  - apply ex_table_ok.
  - done.
  - reflexivity.
  - apply (nsteps_l _ _ _ (t', c1.2)); [|apply nsteps_O].
    rewrite (surjective_pairing c1) at 1.
    apply (ts_alloc c1.1 t' c1.2 NX_HANDLE_FILE 3 (nx_handle_alloc c1.1 NX_HANDLE_FILE 3).1); done.
  - done.
Defined.

Lemma handle_alloc_spec_witness :
  exists t', nx_handle_alloc ex_table NX_HANDLE_FILE 3 = (Ok (make_handle 0 4, 4%nat), t') /\
    nx_handles_count t' = 5%nat /\ nx_handle_lookup t' (make_handle 0 4) 2 = Ok 4%nat.
Proof.
  pose proof (handle_alloc_spec ex_table NX_HANDLE_FILE 3 ex_table_ok ltac:(done)) as Hs.
  destruct (nx_handle_alloc ex_table NX_HANDLE_FILE 3) as [r t'] eqn:E.
  vm_compute in E. injection E as [= <- Et]. destruct Hs as (_ & Hc & _ & Hl & _).
  exists t'. split; [by subst t'|]. split; [rewrite Hc; reflexivity|]. rewrite Hl. reflexivity.
Defined.

Lemma handle_lookup_exact_witness :
  nx_handle_lookup ex_table (make_handle 7 3) 1 = Ok 3%nat.
Proof.
  apply (handle_lookup_exact ex_table (make_handle 7 3) 1 3 ex_table_ok); [done|].
  eexists. split; [reflexivity|]. by split_and!.
Defined.

Lemma handles_close_all_spec_witness :
  (nx_handles_close_all (ex_table, [])).2 = [42].
Proof.
  destruct (handles_close_all_spec ex_table [] ex_table_ok) as (_ & _ & ->). reflexivity.
Defined.
