(* ===== verification/Process.v ===== *)
(** * Processes: [nxkernel/kernel/process/process.c], [schedule.c], [sched_rr.h]

    The process table, the list threaded through it, the scheduler and the
    context switch.  A process pointer is the index of its slot in [g_procs].
    Interrupt flags are not modelled.  A function that gives the processor
    away does not return to its caller in the same flow of control: its
    outcome is [Away] when another process now runs, and what the caller does
    when it is resumed is described with it. *)

From S2P Require Import Prelude Types Mem Memory FrameAlloc Paging Handles.

(** [PROCESS_MAX]: nxkernel/kernel/process/process.h:36-36 *)
Definition PROCESS_MAX : nat := 16.
(** [PROCESS_KSTACK_SIZE]: nxkernel/kernel/process/process.h:37-37 *)
Definition PROCESS_KSTACK_SIZE : Z := 16384.

(** [process_state_t]: nxkernel/kernel/process/process.h:40-45 *)
Inductive process_state_t : Type :=
| PROCESS_READY
| PROCESS_RUNNING
| PROCESS_BLOCKED
| PROCESS_TERMINATED.

#[global] Instance process_state_eq_dec : EqDecision process_state_t.
Proof. solve_decision. Defined.

(** [process_t]: nxkernel/kernel/process/process.h:50-80 *)
Record process_t (F : Type) := mk_process {
  pid : Z;
  state : process_state_t;
  uid : Z;
  gid : Z;
  stack : Z;
  entry_point : Z;
  addrspace : addr_space_t;
  user_entry : Z;
  user_stack_top : Z;
  heap_start : Z;
  heap_brk : Z;
  kernel_rsp : Z;
  kernel_stack : Z;
  wake_tick : Z;
  exit_code : Z;
  handles : list (nx_handle_t F);
  in_use : bool;
  next : option nat;
}.
#[global] Arguments mk_process {F}.
#[global] Arguments pid {F}.
#[global] Arguments state {F}.
#[global] Arguments uid {F}.
#[global] Arguments gid {F}.
#[global] Arguments stack {F}.
#[global] Arguments entry_point {F}.
#[global] Arguments addrspace {F}.
#[global] Arguments user_entry {F}.
#[global] Arguments user_stack_top {F}.
#[global] Arguments heap_start {F}.
#[global] Arguments heap_brk {F}.
#[global] Arguments kernel_rsp {F}.
#[global] Arguments kernel_stack {F}.
#[global] Arguments wake_tick {F}.
#[global] Arguments exit_code {F}.
#[global] Arguments handles {F}.
#[global] Arguments in_use {F}.
#[global] Arguments next {F}.

Section fields.
Context {F : Type}.
Implicit Types p : process_t F.

Definition set_state (x : process_state_t) p : process_t F :=
  mk_process (pid p) x (uid p) (gid p) (stack p) (entry_point p) (addrspace p) (user_entry p)
    (user_stack_top p) (heap_start p) (heap_brk p) (kernel_rsp p) (kernel_stack p) (wake_tick p)
    (exit_code p) (handles p) (in_use p) (next p).
Definition set_heap_brk (x : Z) p : process_t F :=
  mk_process (pid p) (state p) (uid p) (gid p) (stack p) (entry_point p) (addrspace p) (user_entry p)
    (user_stack_top p) (heap_start p) x (kernel_rsp p) (kernel_stack p) (wake_tick p)
    (exit_code p) (handles p) (in_use p) (next p).
Definition set_kernel_rsp (x : Z) p : process_t F :=
  mk_process (pid p) (state p) (uid p) (gid p) (stack p) (entry_point p) (addrspace p) (user_entry p)
    (user_stack_top p) (heap_start p) (heap_brk p) x (kernel_stack p) (wake_tick p)
    (exit_code p) (handles p) (in_use p) (next p).
Definition set_wake_tick (x : Z) p : process_t F :=
  mk_process (pid p) (state p) (uid p) (gid p) (stack p) (entry_point p) (addrspace p) (user_entry p)
    (user_stack_top p) (heap_start p) (heap_brk p) (kernel_rsp p) (kernel_stack p) x
    (exit_code p) (handles p) (in_use p) (next p).
Definition set_exit_code (x : Z) p : process_t F :=
  mk_process (pid p) (state p) (uid p) (gid p) (stack p) (entry_point p) (addrspace p) (user_entry p)
    (user_stack_top p) (heap_start p) (heap_brk p) (kernel_rsp p) (kernel_stack p) (wake_tick p)
    x (handles p) (in_use p) (next p).
Definition set_handles (x : list (nx_handle_t F)) p : process_t F :=
  mk_process (pid p) (state p) (uid p) (gid p) (stack p) (entry_point p) (addrspace p) (user_entry p)
    (user_stack_top p) (heap_start p) (heap_brk p) (kernel_rsp p) (kernel_stack p) (wake_tick p)
    (exit_code p) x (in_use p) (next p).
Definition set_next (x : option nat) p : process_t F :=
  mk_process (pid p) (state p) (uid p) (gid p) (stack p) (entry_point p) (addrspace p) (user_entry p)
    (user_stack_top p) (heap_start p) (heap_brk p) (kernel_rsp p) (kernel_stack p) (wake_tick p)
    (exit_code p) (handles p) (in_use p) x.
End fields.

(** What a function that may give the processor away comes to. *)
Inductive outcome : Type :=
| Returned (e : Nerror)
| Away
| Panicked (e : Nerror).

(** Addresses the linker fixes: the kernel stacks and two functions. *)
Record proc_globals := mk_proc_globals {
  g_kstacks : Z;
  process_entry_trampoline : Z;
  user_process_entry_thunk : Z;
  pg_paging : paging_globals;
}.

(** The globals of [process.c], the registers a switch changes, the timer,
    and the components below: frames and files. *)
Record psys (S V F : Type) := mk_psys {
  g_procs : list (process_t F);
  process_list : option nat;
  current_process : option nat;
  g_next_pid : Z;
  g_last_exit_code : Z;
  cr3 : Z;
  tss_rsp0 : Z;
  cpu_rsp : Z;
  timer_tick : Z;
  ps_fa : S;
  ps_vfs : V;
}.
#[global] Arguments mk_psys {S V F}.
#[global] Arguments g_procs {S V F}.
#[global] Arguments process_list {S V F}.
#[global] Arguments current_process {S V F}.
#[global] Arguments g_next_pid {S V F}.
#[global] Arguments g_last_exit_code {S V F}.
#[global] Arguments cr3 {S V F}.
#[global] Arguments tss_rsp0 {S V F}.
#[global] Arguments cpu_rsp {S V F}.
#[global] Arguments timer_tick {S V F}.
#[global] Arguments ps_fa {S V F}.
#[global] Arguments ps_vfs {S V F}.

Section process.
Context {S V F : Type} `{FrameAllocator S} `{FileLayer V F}.
Context (g : proc_globals).
Implicit Types (s : psys S V F) (p : process_t F) (procs : list (process_t F)).

(** Setters of the state. *)
Definition with_procs procs s : psys S V F :=
  mk_psys procs (process_list s) (current_process s) (g_next_pid s) (g_last_exit_code s) (cr3 s)
    (tss_rsp0 s) (cpu_rsp s) (timer_tick s) (ps_fa s) (ps_vfs s).
Definition with_list (x : option nat) s : psys S V F :=
  mk_psys (g_procs s) x (current_process s) (g_next_pid s) (g_last_exit_code s) (cr3 s)
    (tss_rsp0 s) (cpu_rsp s) (timer_tick s) (ps_fa s) (ps_vfs s).
Definition with_current (x : option nat) s : psys S V F :=
  mk_psys (g_procs s) (process_list s) x (g_next_pid s) (g_last_exit_code s) (cr3 s)
    (tss_rsp0 s) (cpu_rsp s) (timer_tick s) (ps_fa s) (ps_vfs s).
Definition with_next_pid (x : Z) s : psys S V F :=
  mk_psys (g_procs s) (process_list s) (current_process s) x (g_last_exit_code s) (cr3 s)
    (tss_rsp0 s) (cpu_rsp s) (timer_tick s) (ps_fa s) (ps_vfs s).
Definition with_exit_code (x : Z) s : psys S V F :=
  mk_psys (g_procs s) (process_list s) (current_process s) (g_next_pid s) x (cr3 s)
    (tss_rsp0 s) (cpu_rsp s) (timer_tick s) (ps_fa s) (ps_vfs s).
Definition with_cr3 (x : Z) s : psys S V F :=
  mk_psys (g_procs s) (process_list s) (current_process s) (g_next_pid s) (g_last_exit_code s) x
    (tss_rsp0 s) (cpu_rsp s) (timer_tick s) (ps_fa s) (ps_vfs s).
Definition with_rsp0 (x : Z) s : psys S V F :=
  mk_psys (g_procs s) (process_list s) (current_process s) (g_next_pid s) (g_last_exit_code s) (cr3 s)
    x (cpu_rsp s) (timer_tick s) (ps_fa s) (ps_vfs s).
Definition with_rsp (x : Z) s : psys S V F :=
  mk_psys (g_procs s) (process_list s) (current_process s) (g_next_pid s) (g_last_exit_code s) (cr3 s)
    (tss_rsp0 s) x (timer_tick s) (ps_fa s) (ps_vfs s).
Definition with_fa (x : S) s : psys S V F :=
  mk_psys (g_procs s) (process_list s) (current_process s) (g_next_pid s) (g_last_exit_code s) (cr3 s)
    (tss_rsp0 s) (cpu_rsp s) (timer_tick s) x (ps_vfs s).
Definition with_vfs (x : V) s : psys S V F :=
  mk_psys (g_procs s) (process_list s) (current_process s) (g_next_pid s) (g_last_exit_code s) (cr3 s)
    (tss_rsp0 s) (cpu_rsp s) (timer_tick s) (ps_fa s) x.

(** A store through a process pointer. *)
Definition upd (i : nat) (f : process_t F -> process_t F) s : psys S V F :=
  with_procs (alter f i (g_procs s)) s.

(** A process structure filled with zero bytes. *)
Definition zero_process : process_t F :=
  mk_process 0 PROCESS_READY 0 0 0 0 (mk_as 0) 0 0 0 0 0 0 0 0 zero_table false None.

(** [paging_kernel_cr3]: nxkernel/kernel/paging/paging.c:376-379 *)
Definition paging_kernel_cr3 : Z := virt_to_phys (g_pml4 (pg_paging g)).

(** ** Reaping *)

(** The loop of [process_reap], at slot [p] with [prev] before it. *)
(** [process_reap_loop]: nxkernel/kernel/process/process.c:32-55 *)
Fixpoint process_reap_loop (fuel : nat) (p prev : option nat) s : psys S V F :=
  match fuel, p with
  | O, _ | _, None => s
  | Datatypes.S fuel, Some i =>
      match g_procs s !! i with
      | None => s
      | Some proc =>
          let next_ := next proc in
          if bool_decide (state proc = PROCESS_TERMINATED) &&
             negb (bool_decide (current_process s = Some i)) && negb (pid proc =? 0)
          then
            let s := match prev with
                     | Some q => upd q (set_next next_) s
                     | None => with_list next_ s
                     end in
            let s := if negb (pml4 (addrspace proc) =? 0)
                     then with_fa (paging_addrspace_destroy (addrspace proc) (ps_fa s)).2 s else s in
            let s := upd i (fun _ => zero_process) s in
            process_reap_loop fuel next_ prev s
          else process_reap_loop fuel next_ p s
      end
  end.

(** [process_reap]: nxkernel/kernel/process/process.c:27-55 *)
Definition process_reap s : psys S V F :=
  process_reap_loop (length (g_procs s)) (process_list s) None s.

(** ** Creation *)

(** [process_init]: nxkernel/kernel/process/process.c:57-78 *)
Definition process_init s : Nerror * psys S V F :=
  match process_list s with
  | Some _ => (NalreadyInitialized, s)
  | None =>
      let idle := mk_process 0 PROCESS_RUNNING 0 0 0 0 (mk_as 0) 0 0 0 0 0 0 0 0
                    (nx_handles_init (V := V)) true None in
      let procs := <[0%nat := idle]> (replicate PROCESS_MAX zero_process) in
      (Nok, with_current (Some 0%nat) (with_list (Some 0%nat) (with_procs procs s)))
  end.

(** The search for a free slot, from slot 1 on. *)
(** [find_slot]: nxkernel/kernel/process/process.c:99-109 *)
Definition find_slot s : option nat :=
  list_find (fun i => from_option in_use true (g_procs s !! i) = false) (seq 1 (PROCESS_MAX - 1))
  ≫= fun '(_, i) => Some i.

(** The seven words below [top] that [cpu_switch_context] will pop. *)
(** [push_frame]: nxkernel/kernel/process/process.c:129-138 *)
Definition push_frame (top entry arg : Z) (m : mem) : Z * mem :=
  let m := st64 (top - 8) (process_entry_trampoline g) m in
  let m := st64 (top - 16) 0 m in
  let m := st64 (top - 24) 0 m in
  let m := st64 (top - 32) entry m in
  let m := st64 (top - 40) arg m in
  let m := st64 (top - 48) 0 m in
  let m := st64 (top - 56) 0 m in
  (top - 56, m).

(** The walk to the end of the list. *)
(** [list_tail]: nxkernel/kernel/process/process.c:141-143 *)
Fixpoint list_tail (fuel : nat) procs (tail : nat) : nat :=
  match fuel with
  | O => tail
  | Datatypes.S fuel =>
      match procs !! tail ≫= next with
      | Some n => list_tail fuel procs n
      | None => tail
      end
  end.

(** What both creations do once a slot is found: clear the slot and its
    stack, fill the process, build its first frame, append it. *)
(** [install_process]: nxkernel/kernel/process/process.c:111-144 *)
Definition install_process (slot : nat) (arg entry : Z) (as_ : addr_space_t)
    (uentry ustack heap : Z) s : psys S V F :=
  let kstack := g_kstacks g + PROCESS_KSTACK_SIZE * Z.of_nat slot in
  let m := memset kstack 0 PROCESS_KSTACK_SIZE (fa_mem (ps_fa s)) in
  let '(sp, m) := push_frame (kstack + PROCESS_KSTACK_SIZE) entry arg m in
  let proc := mk_process (g_next_pid s) PROCESS_READY 0 0 arg entry as_ uentry ustack heap heap
                sp kstack 0 0 (nx_handles_init (V := V)) true None in
  let s := with_fa (fa_set_mem m (ps_fa s)) s in
  let s := with_next_pid (u32 (g_next_pid s + 1)) s in
  let s := upd slot (fun _ => proc) s in
  match process_list s with
  | None => s
  | Some head => upd (list_tail (length (g_procs s)) (g_procs s) head) (set_next (Some slot)) s
  end.

(** [process_create]: nxkernel/kernel/process/process.c:80-148 *)
Definition process_create (entry stack_ : Z) s : Nerror * psys S V F :=
  if entry =? 0 then (NinvalidArg, s)
  else match process_list s with
  | None => (NnotInitialized, s)
  | Some _ =>
      let s := process_reap s in
      match find_slot s with
      | None => (NprocessFailed, s)
      | Some slot => (Nok, install_process slot stack_ entry (mk_as 0) 0 0 0 s)
      end
  end.

(** [process_create_user]: nxkernel/kernel/process/process.c:165-239 *)
Definition process_create_user (as_ : addr_space_t) (entry_vaddr stack_top_vaddr heap_start_vaddr : Z) s
    : res Z * psys S V F :=
  if pml4 as_ =? 0 then (Err NinvalidArg, s)
  else match process_list s with
  | None => (Err NnotInitialized, s)
  | Some _ =>
      let s := process_reap s in
      match find_slot s with
      | None => (Err NprocessFailed, s)
      | Some slot =>
          (Ok (g_next_pid s),
           install_process slot 0 (user_process_entry_thunk g) as_
             entry_vaddr stack_top_vaddr heap_start_vaddr s)
      end
  end.

(** ** Switching *)

(** [switch.s]: six registers are pushed, the stack pointer is saved, and the
    new stack pointer is loaded and popped back to its return address. *)
Definition cpu_switch_context (old : nat) (new_rsp : Z) s : psys S V F :=
  with_rsp (new_rsp + 56) (upd old (set_kernel_rsp (cpu_rsp s - 56)) s).

(** [process_switch]: nxkernel/kernel/process/process.c:241-276 *)
Definition process_switch (proc : nat) s : outcome * psys S V F :=
  match g_procs s !! proc with
  | None => (Returned NinvalidArg, s)
  | Some p =>
      if negb (in_use p) || negb (bool_decide (state p = PROCESS_READY))
      then (Returned NinvalidArg, s)
      else if bool_decide (current_process s = Some proc) then (Returned Nok, s)
      else
        match current_process s with
        | None => (Panicked NkernelFault, s)
        | Some old =>
            let s := upd old (fun o => if bool_decide (state o = PROCESS_RUNNING)
                                       then set_state PROCESS_READY o else o) s in
            let s := with_cr3 (if negb (pml4 (addrspace p) =? 0)
                               then virt_to_phys (pml4 (addrspace p)) else paging_kernel_cr3) s in
            let s := if negb (kernel_stack p =? 0)
                     then with_rsp0 (u64 (kernel_stack p + PROCESS_KSTACK_SIZE)) s else s in
            let s := with_current (Some proc) s in
            let s := upd proc (set_state PROCESS_RUNNING) s in
            (Away, cpu_switch_context old (kernel_rsp p) s)
        end
  end.

(** ** The scheduler *)

(** A sleeper whose time has come. *)
(** [due]: nxkernel/kernel/process/sched_rr.h:26-27 *)
Definition due (tick : Z) p : bool :=
  in_use p && bool_decide (state p = PROCESS_BLOCKED) && negb (wake_tick p =? 0) &&
  (wake_tick p <=? tick).

(** [wake]: nxkernel/kernel/process/sched_rr.h:28-29 *)
Definition wake p : process_t F := set_wake_tick 0 (set_state PROCESS_READY p).

(** The walk of [sched_pick_next], at [proc]. *)
(** [pick_loop]: nxkernel/kernel/process/sched_rr.h:24-37 *)
Fixpoint pick_loop (fuel : nat) (current : nat) (head proc : option nat) s
    : option nat * psys S V F :=
  match fuel, proc with
  | O, _ | _, None => (None, s)
  | Datatypes.S fuel, Some i =>
      if decide (i = current) then (None, s)
      else match g_procs s !! i with
      | None => (None, s)
      | Some p =>
          let woken := due (timer_tick s) p in
          let s := if woken then upd i wake s else s in
          let p := if woken then wake p else p in
          if in_use p && bool_decide (state p = PROCESS_READY) then (Some i, s)
          else pick_loop fuel current head (match next p with Some n => Some n | None => head end) s
      end
  end.

(** [sched_pick_next]: nxkernel/kernel/process/sched_rr.h:20-38 *)
Definition sched_pick_next (current : nat) (head : option nat) s : option nat * psys S V F :=
  let n := g_procs s !! current ≫= next in
  pick_loop (length (g_procs s) + 1) current head (match n with Some n => Some n | None => head end) s.

(** [schedule]: nxkernel/kernel/process/schedule.c:13-28 *)
Definition schedule s : outcome * psys S V F :=
  match current_process s, process_list s with
  | Some c, Some h =>
      match sched_pick_next c (Some h) s with
      | (None, s) => (Returned Nok, s)
      | (Some n, s) =>
          match process_switch n s with
          | (Returned _, s) => (Returned Nok, s)
          | r => r
          end
      end
  | _, _ => (Returned Nok, s)
  end.

(** ** Termination, sleep, queries *)

(** The search for a pid along the list. *)
(** [find_pid]: nxkernel/kernel/process/process.c:288-291 *)
Fixpoint find_pid (fuel : nat) procs (p : option nat) (pid_ : Z) : option nat :=
  match fuel, p with
  | O, _ | _, None => None
  | Datatypes.S fuel, Some i =>
      match procs !! i with
      | None => None
      | Some proc => if in_use proc && (pid proc =? pid_) then Some i
                     else find_pid fuel procs (next proc) pid_
      end
  end.

(** [process_terminate]: nxkernel/kernel/process/process.c:278-311 *)
Definition process_terminate (pid_ : Z) s : outcome * psys S V F :=
  if pid_ =? 0 then (Returned Npermission, s)
  else
    match find_pid (length (g_procs s)) (g_procs s) (process_list s) pid_ with
    | None => (Returned NnotFound, s)
    | Some i =>
        match g_procs s !! i with
        | None => (Returned NnotFound, s)
        | Some p =>
            if bool_decide (state p = PROCESS_TERMINATED) then (Returned NnotFound, s)
            else
              let '(t, v) := nx_handles_close_all (handles p, ps_vfs s) in
              let s := with_vfs v s in
              let s := upd i (fun p => set_state PROCESS_TERMINATED (set_handles t p)) s in
              if bool_decide (current_process s = Some i) then
                match schedule s with
                | (Away, s) => (Away, s)
                | (_, s) => (Panicked NprocessFailed, s)
                end
              else (Returned Nok, process_reap s)
        end
    end.

(** [process_exit_with_code]: nxkernel/kernel/process/process.c:313-322 *)
Definition process_exit_with_code (code : Z) s : outcome * psys S V F :=
  match current_process s ≫= fun c => pair c <$> g_procs s !! c with
  | None => (Panicked NinvalidState, s)
  | Some (c, p) =>
      if pid p =? 0 then (Panicked NinvalidState, s)
      else
        let s := upd c (set_exit_code code) s in
        let s := with_exit_code code s in
        match process_terminate (pid p) s with
        | (Away, s) => (Away, s)
        | (Panicked e, s) => (Panicked e, s)
        | (Returned _, s) => (Panicked NkernelFault, s)
        end
  end.

(** [process_exit]: nxkernel/kernel/process/process.c:324-327 *)
Definition process_exit s : outcome * psys S V F := process_exit_with_code 0 s.

(** [process_last_exit_code]: nxkernel/kernel/process/process.c:329-332 *)
Definition process_last_exit_code s : Z := g_last_exit_code s.

(** When the sleeper is resumed its state is [PROCESS_RUNNING], so the call
    then returns [NSTATUS_OK]; the code after [schedule()] runs at once only
    if no switch happened. *)
(** [process_sleep_ticks]: nxkernel/kernel/process/process.c:334-360 *)
Definition process_sleep_ticks (ticks : Z) s : outcome * psys S V F :=
  match current_process s ≫= fun c => pair c <$> g_procs s !! c with
  | None => (Returned Npermission, s)
  | Some (c, p) =>
      if pid p =? 0 then (Returned Npermission, s)
      else
        let t := u64 (timer_tick s + if negb (ticks =? 0) then ticks else 1) in
        let s := upd c (fun p => set_state PROCESS_BLOCKED (set_wake_tick t p)) s in
        match schedule s with
        | (Returned _, s) =>
            if bool_decide (state <$> g_procs s !! c = Some PROCESS_BLOCKED)
            then (Returned Ninterrupted,
                  upd c (fun p => set_wake_tick 0 (set_state PROCESS_RUNNING p)) s)
            else (Returned Nok, s)
        | r => r
        end
  end.

(** [process_reap_terminated]: nxkernel/kernel/process/process.c:362-368 *)
Definition process_reap_terminated s : psys S V F := process_reap s.

(** [process_get_exit_code]: nxkernel/kernel/process/process.c:370-396 *)
Definition process_get_exit_code (pid_ : Z) s : res Z :=
  match find_pid (length (g_procs s)) (g_procs s) (process_list s) pid_ ≫= fun i => g_procs s !! i with
  | None => Err NnotFound
  | Some p => if negb (bool_decide (state p = PROCESS_TERMINATED)) then Err Nbusy else Ok (exit_code p)
  end.

(** [process_count_loop]: nxkernel/kernel/process/process.c:403-406 *)
Fixpoint process_count_loop (fuel : nat) procs (p : option nat) (n : Z) : Z :=
  match fuel, p with
  | O, _ | _, None => n
  | Datatypes.S fuel, Some i =>
      match procs !! i with
      | None => n
      | Some proc =>
          process_count_loop fuel procs (next proc)
            (if in_use proc && negb (bool_decide (state proc = PROCESS_TERMINATED)) then n + 1 else n)
      end
  end.

(** [process_count]: nxkernel/kernel/process/process.c:398-408 *)
Definition process_count s : Z :=
  process_count_loop (length (g_procs s)) (g_procs s) (process_list s) 0.
End process.
