(* ===== verification/ProcessInv.v ===== *)
(** * The process list and its invariant

    The list threaded through [g_procs] is a segment from [process_list] to
    the null pointer.  [proc_inv] says it holds exactly the slots in use,
    starting with the idle process, that one process is running, and that the
    page tables loaded are its own; every operation of [Process] keeps it. *)

From S2P Require Import Prelude Types Mem Memory FrameAlloc Paging Handles Process.

(** ** List segments *)

Section lseg.
Context {F : Type}.
Implicit Types procs : list (process_t F).

Fixpoint lseg procs (h : option nat) (l : list nat) (t : option nat) : Prop :=
  match l with
  | [] => h = t
  | i :: l => h = Some i /\ exists p, procs !! i = Some p /\ lseg procs (next p) l t
  end.

Lemma lseg_app procs h l1 l2 t :
  lseg procs h (l1 ++ l2) t <-> exists m, lseg procs h l1 m /\ lseg procs m l2 t.
Proof.
  revert h. induction l1 as [|i l1 IH]; intros h; simpl.
  - split; [intros Hl; by exists h|]. by intros (m & -> & ?).
  - split.
    + intros (-> & p & Hi & Hl). apply IH in Hl as (m & ? & ?). exists m. naive_solver.
    + intros (m & (-> & p & Hi & Hl) & Hm). split; [done|]. exists p. split; [done|]. apply IH. by exists m.
Qed.

(** The segment depends on the [next] fields of its slots. *)
Lemma lseg_ext procs procs' h l t :
  (forall i p, i ∈ l -> procs !! i = Some p -> exists p', procs' !! i = Some p' /\ next p' = next p) ->
  lseg procs h l t -> lseg procs' h l t.
Proof.
  revert h. induction l as [|i l IH]; intros h Hex; simpl; [done|].
  intros (-> & p & Hi & Hl). split; [done|].
  destruct (Hex i p ltac:(by left) Hi) as (p' & Hi' & Hn). exists p'. split; [done|].
  rewrite Hn. apply IH; [|done]. intros j q Hj. apply Hex. by right.
Qed.

Lemma lseg_lookup procs h l t i : lseg procs h l t -> i ∈ l -> exists p, procs !! i = Some p.
Proof.
  revert h. induction l as [|j l IH]; intros h; simpl; [by rewrite elem_of_nil|].
  intros (-> & p & Hj & Hl) [-> | Hi]%elem_of_cons; [by exists p|]. by eapply IH.
Qed.

Lemma lseg_head procs h l t : lseg procs h l t -> h = match head l with Some i => Some i | None => t end.
Proof. destruct l as [|i l]; simpl; [done|]. by intros [-> _]. Qed.

Lemma lookup_alter_cases {A} (f : A -> A) (i j : nat) (l : list A) :
  alter f i l !! j = if decide (i = j) then f <$> l !! j else l !! j.
Proof. case_decide; [subst; by rewrite list_lookup_alter_eq|by rewrite list_lookup_alter_ne]. Qed.

(** Changing the last [next] of a segment changes where it ends. *)
Lemma lseg_snoc_redirect procs h l i t t' :
  i ∉ l -> lseg procs h (l ++ [i]) t -> lseg (alter (set_next t') i procs) h (l ++ [i]) t'.
Proof.
  intros Hn (m & Hl & (-> & p & Hi & _))%lseg_app. apply lseg_app. exists (Some i). split.
  - apply (lseg_ext procs); [|done]. intros j q Hj Hq. exists q. rewrite list_lookup_alter_ne; [done|].
    by intros <-.
  - split; [done|]. exists (set_next t' p). by rewrite list_lookup_alter_eq, Hi.
Qed.

Lemma lseg_alter procs f i h l t :
  (forall p, procs !! i = Some p -> next (f p) = next p) \/ i ∉ l ->
  lseg procs h l t -> lseg (alter f i procs) h l t.
Proof.
  intros Hf. apply lseg_ext. intros j p Hj Hp. rewrite lookup_alter_cases. case_decide as Hd.
  - subst j. rewrite Hp. exists (f p). split; [done|]. destruct Hf as [Hf|]; [by apply Hf|done].
  - by exists p.
Qed.
End lseg.

(** ** Reaping *)

Section reap.
Context {S V F : Type} `{FrameAllocator S} `{FileLayer V F}.
Implicit Types (s : psys S V F) (p : process_t F) (procs : list (process_t F)).

(** The processes [process_reap] removes. *)
Definition reapable s (i : nat) : Prop :=
  match g_procs s !! i with
  | Some p => state p = PROCESS_TERMINATED /\ current_process s <> Some i /\ pid p <> 0
  | None => False
  end.

#[global] Instance reapable_dec s i : Decision (reapable s i).
Proof. unfold reapable. destruct (g_procs s !! i); apply _. Defined.

(** The frames of the address space of slot [i] are given back. *)
Definition destroy_space s (fa : S) (i : nat) : S :=
  match g_procs s !! i with
  | Some p => if negb (pml4 (addrspace p) =? 0) then (paging_addrspace_destroy (addrspace p) fa).2 else fa
  | None => fa
  end.

(** [s'] is [s] after the slots [dead] were removed from the list. *)
Definition unlinked s s' (l' dead : list nat) : Prop :=
  exists procs' h' fa', s' = with_fa fa' (with_list h' (with_procs procs' s)) /\
    lseg procs' h' l' None /\ length procs' = length (g_procs s) /\
    (forall i p, g_procs s !! i = Some p ->
       if decide (i ∈ dead) then procs' !! i = Some zero_process
       else exists x, procs' !! i = Some (set_next x p) /\ (i ∉ l' -> x = next p)) /\
    fa' = fold_left (destroy_space s) dead (ps_fa s).

Lemma reapable_bool s i p : g_procs s !! i = Some p ->
  bool_decide (state p = PROCESS_TERMINATED) &&
    negb (bool_decide (current_process s = Some i)) && negb (pid p =? 0) =
  bool_decide (reapable s i).
Proof.
  intros Hi. unfold reapable. apply eq_true_iff_eq. rewrite bool_decide_eq_true, Hi.
  rewrite !andb_true_iff, !negb_true_iff, bool_decide_eq_true, bool_decide_eq_false, Z.eqb_neq. tauto.
Qed.

(** The slot is unlinked, its space destroyed, its structure cleared. *)
Definition unlink1 s (prev : option nat) (i : nat) p : psys S V F :=
  let s := match prev with
           | Some q => upd q (set_next (next p)) s
           | None => with_list (next p) s
           end in
  let s := if negb (pml4 (addrspace p) =? 0)
           then with_fa (paging_addrspace_destroy (addrspace p) (ps_fa s)).2 s else s in
  upd i (fun _ => zero_process) s.

Lemma unlink1_eq s prev i p :
  exists procs' h', unlink1 s prev i p =
    with_fa (if negb (pml4 (addrspace p) =? 0) then (paging_addrspace_destroy (addrspace p) (ps_fa s)).2
             else ps_fa s) (with_list h' (with_procs procs' s)) /\
    procs' = alter (fun _ => zero_process) i
      (match prev with Some q => alter (set_next (next p)) q (g_procs s) | None => g_procs s end) /\
    h' = match prev with Some _ => process_list s | None => next p end.
Proof.
  eexists _, _. split; [|done]. unfold unlink1. destruct s, prev, (negb _); done.
Qed.

Lemma reapable_other s s' i : g_procs s' !! i = g_procs s !! i \/
    (exists p x, g_procs s !! i = Some p /\ g_procs s' !! i = Some (set_next x p)) ->
  current_process s' = current_process s -> reapable s' i <-> reapable s i.
Proof.
  unfold reapable. intros [-> | (p & x & -> & ->)] ->; done.
Qed.

Lemma list_filter_ext (P Q : nat -> Prop) `{!forall x, Decision (P x)} `{!forall x, Decision (Q x)} (l : list nat) :
  (forall x, x ∈ l -> P x <-> Q x) -> filter P l = filter Q l.
Proof.
  induction l as [|x l IH]; intros Hx; [done|]. rewrite !filter_cons.
  rewrite IH by (intros y ?; apply Hx; by right). pose proof (Hx x ltac:(by left)).
  repeat case_decide; tauto.
Qed.

Lemma fold_left_ext_in {A B} (f f' : A -> B -> A) (l : list B) a :
  (forall a b, b ∈ l -> f a b = f' a b) -> fold_left f l a = fold_left f' l a.
Proof.
  revert a. induction l as [|b l IH]; intros a Hf; simpl; [done|].
  rewrite Hf by (by left). apply IH. intros; apply Hf. by right.
Qed.

Lemma unlinked_refl s l' :
  lseg (g_procs s) (process_list s) l' None -> unlinked s s l' [].
Proof.
  intros Hl. exists (g_procs s), (process_list s), (ps_fa s).
  split_and!; [by destruct s|done|done| |done].
  intros i q Hi. case_decide as Hd; [by apply not_elem_of_nil in Hd|]. exists (next q).
  rewrite Hi. split; [by destruct q|done].
Qed.

(** Removing one slot, then what [unlinked] says of the rest. *)
Lemma unlinked_cons s prev i q d rest l' dead s' :
  g_procs s !! i = Some q -> prev = last d -> NoDup (d ++ i :: rest) ->
  (forall j, j ∈ dead -> j ∈ rest) -> (forall j, j ∈ l' -> j ∈ d ++ rest) -> (forall j, j ∈ d -> j ∈ l') ->
  unlinked (unlink1 s prev i q) s' l' dead -> unlinked s s' l' (i :: dead).
Proof.
  intros Hi Hprev Hnd Hdead Hl'1 Hl'2 (procs' & h' & fa' & E' & Hl' & Hlen' & Hp' & Hfa').
  destruct (unlink1_eq s prev i q) as (procs1 & h1 & E1 & Hp1 & Hh1). rewrite E1 in *.
  cbn [g_procs with_fa with_list with_procs ps_fa] in *.
  apply NoDup_app in Hnd as (Hndd & Hdis & Hndr). apply NoDup_cons in Hndr as [Hir Hndr].
  assert (Hid : i ∉ d) by (intros Hx; apply (Hdis i Hx); by left).
  assert (Hother : forall j x, j <> i -> g_procs s !! j = Some x ->
    exists y, procs1 !! j = Some (set_next y x) /\ (j ∉ d -> y = next x)).
  { intros j x Hne Hj. rewrite Hp1, list_lookup_alter_ne by done. subst prev.
    destruct (last d) as [k|] eqn:Hk.
    - rewrite lookup_alter_cases. case_decide as Hkj.
      + rewrite Hj. simpl. eexists. split; [done|]. subst k. intros Hn. exfalso. apply Hn.
        apply last_Some in Hk as [d0 ->]. apply elem_of_app. right. by left.
      + rewrite Hj. exists (next x). split; [by destruct x|done].
    - rewrite Hj. exists (next x). split; [by destruct x|done]. }
  assert (Hz : procs1 !! i = Some zero_process).
  { rewrite Hp1, list_lookup_alter_eq. destruct prev as [k|]; [|by rewrite Hi].
    rewrite lookup_alter_cases. case_decide; by rewrite Hi. }
  exists procs', h', fa'. split_and!.
  - rewrite E'. by destruct s.
  - done.
  - rewrite Hlen', Hp1. destruct prev; by rewrite !length_alter.
  - intros j x Hx. destruct (decide (j = i)) as [->|Hne].
    + rewrite decide_True by (by left). specialize (Hp' i _ Hz).
      rewrite decide_False in Hp' by (intros ?; apply Hir; auto).
      destruct Hp' as (y & Hy & Hyn). rewrite Hy, Hyn; [done|].
      intros Hin%Hl'1%elem_of_app. tauto.
    + destruct (Hother j x Hne Hx) as (y & Hy & Hyn). specialize (Hp' j _ Hy).
      destruct (decide (j ∈ dead)).
      * by rewrite decide_True by (by right).
      * rewrite decide_False by (intros [?|?]%elem_of_cons; done).
        destruct Hp' as (z & Hz' & Hzn). exists z. split; [done|].
        intros Hj. rewrite Hzn by done. simpl. apply Hyn. auto.
  - rewrite Hfa'. simpl. unfold destroy_space at 3. rewrite Hi.
    apply fold_left_ext_in. intros fa j Hj%Hdead. unfold destroy_space. simpl.
    assert (Hne : j <> i) by by intros ->. destruct (g_procs s !! j) as [x|] eqn:Hx.
    + destruct (Hother j x Hne Hx) as (y & -> & _). done.
    + rewrite Hp1, list_lookup_alter_ne by done. destruct prev as [k|]; [|by rewrite Hx].
      rewrite lookup_alter_cases. case_decide; by rewrite Hx.
Qed.

Lemma reap_loop_spec fuel s (h : option nat) prev d rest :
  lseg (g_procs s) (process_list s) d h -> lseg (g_procs s) h rest None ->
  NoDup (d ++ rest) -> prev = last d -> (length rest <= fuel)%nat ->
  unlinked s (process_reap_loop fuel h prev s)
    (d ++ filter (fun i => ~ reapable s i) rest) (filter (reapable s) rest).
Proof.
  revert s h prev d rest. induction fuel as [|fuel IH]; intros s h prev d rest Hd Hr Hnd Hprev Hlen.
  { destruct rest; [|simpl in Hlen; lia]. simpl in Hr. subst h. simpl.
    rewrite app_nil_r. by apply unlinked_refl. }
  destruct rest as [|i rest].
  { simpl in Hr. subst h. simpl. rewrite app_nil_r. by apply unlinked_refl. }
  simpl in Hr. destruct Hr as (-> & q & Hi & Hr). simpl in Hlen.
  cbn [process_reap_loop]. rewrite Hi, (reapable_bool s i q Hi). rewrite !filter_cons.
  assert (Hnd' := Hnd). apply NoDup_app in Hnd' as (Hndd & Hdis & Hndr).
  apply NoDup_cons in Hndr as [Hir Hndr].
  case_bool_decide as Hre.
  - fold (unlink1 s prev i q). rewrite decide_False, decide_True by tauto.
    destruct (unlink1_eq s prev i q) as (procs1 & h1 & E1 & Hp1 & Hh1).
    assert (Hid : i ∉ d) by (intros Hx; apply (Hdis i Hx); by left).
    assert (Hl1 : lseg procs1 h1 d (next q)).
    { rewrite Hp1, Hh1. subst prev. destruct (last d) as [k|] eqn:Hk.
      - apply last_Some in Hk as [d0 ->]. apply lseg_alter; [by right|].
        apply (lseg_snoc_redirect _ _ _ _ (Some i)); [|done].
        apply NoDup_app in Hndd as (_ & Hx & _). intros Hin. apply (Hx k Hin). by left.
      - apply last_None in Hk as ->. done. }
    assert (Hsame : forall j, j ∈ rest -> procs1 !! j = g_procs s !! j).
    { intros j Hj. assert (Hne : j <> i) by by intros ->.
      rewrite Hp1, list_lookup_alter_ne by done. subst prev. destruct (last d) as [k|] eqn:Hk; [|done].
      rewrite list_lookup_alter_ne; [done|]. intros ->. apply last_Some in Hk as [d0 ->].
      apply (Hdis j); [|by right]. apply elem_of_app. right. by left. }
    assert (Hrea : forall j, j ∈ rest -> reapable (unlink1 s prev i q) j <-> reapable s j).
    { intros j Hj. apply reapable_other; [left|]; rewrite E1; [by apply Hsame|done]. }
    assert (Hrec : unlinked (unlink1 s prev i q) (process_reap_loop fuel (next q) prev (unlink1 s prev i q))
      (d ++ filter (fun i => ~ reapable s i) rest) (filter (reapable s) rest)).
    { rewrite <- (list_filter_ext (fun j => ~ reapable (unlink1 s prev i q) j) (fun j => ~ reapable s j) rest)
        by (intros j Hj; by rewrite Hrea).
      rewrite <- (list_filter_ext (reapable (unlink1 s prev i q)) (reapable s) rest) by auto.
      apply IH; [by rewrite E1| |by apply NoDup_app; split_and!; [|intros j Hj Hj'; apply (Hdis j Hj); by right|]|done|lia].
      rewrite E1. apply (lseg_ext (g_procs s)); [|done]. intros j x Hj Hx. exists x.
      simpl. rewrite Hsame by done. done. }
    apply (unlinked_cons s prev i q d rest); [done|done|done| | | |done].
    + by intros j [_ ?]%list_elem_of_filter.
    + intros j. rewrite !elem_of_app, list_elem_of_filter. tauto.
    + intros j ?. apply elem_of_app. by left.
  - rewrite decide_True, decide_False by tauto.
    change (i :: filter _ rest) with ([i] ++ filter (fun i => ~ reapable s i) rest).
    rewrite app_assoc. apply IH.
    + apply lseg_app. exists (Some i). split; [done|]. split; [done|]. by exists q.
    + done.
    + by rewrite <- app_assoc.
    + by rewrite last_snoc.
    + lia.
Qed.
End reap.

(** ** The invariant *)

Section inv.
Context {S V F : Type} `{FrameAllocator S} `{FileLayer V F}.
Context (g : proc_globals).
Implicit Types (s : psys S V F) (p q : process_t F) (procs : list (process_t F)) (l : list nat).

(** The table and the list: [l] are the slots in use, in list order. *)
Record shape procs (h : option nat) l (np : Z) : Prop := {
  sh_np : 0 < np;
  sh_len : length procs = PROCESS_MAX;
  sh_list : lseg procs h l None;
  sh_nodup : NoDup l;
  sh_head : head l = Some 0%nat;
  sh_used i p : procs !! i = Some p -> in_use p = true <-> i ∈ l;
  sh_idle p : procs !! 0%nat = Some p -> pid p = 0;
  sh_pid i p : procs !! i = Some p -> i ∈ l -> i <> 0%nat -> 0 < pid p < np;
  sh_inj i j p q : i ∈ l -> j ∈ l -> procs !! i = Some p -> procs !! j = Some q ->
    pid p = pid q -> i = j;
}.

(** The page tables a process runs on. *)
Definition cr3_of p : Z :=
  if negb (pml4 (addrspace p) =? 0) then virt_to_phys (pml4 (addrspace p)) else paging_kernel_cr3 g.

(** Slot [c] has the processor: its tables are loaded, nobody else is marked
    running, and the idle process is neither asleep nor dead. *)
Record runs s (c : nat) : Prop := {
  ru_cur : current_process s = Some c;
  ru_cr3 p : g_procs s !! c = Some p -> cr3 s = cr3_of p;
  ru_one i p : g_procs s !! i = Some p -> state p = PROCESS_RUNNING -> i = c;
  ru_idle p : g_procs s !! 0%nat = Some p -> state p = PROCESS_READY \/ state p = PROCESS_RUNNING;
}.

Definition proc_inv s : Prop :=
  exists l c p, shape (g_procs s) (process_list s) l (g_next_pid s) /\ runs s c /\ c ∈ l /\
    g_procs s !! c = Some p /\ state p = PROCESS_RUNNING.

Lemma shape_lookup procs h l np i : shape procs h l np -> i ∈ l -> exists p, procs !! i = Some p.
Proof. intros Hsh. apply (lseg_lookup procs h l None). apply Hsh. Qed.

(** Changes that leave the list, the pids and the use of slots alone. *)
Definition same_id (f : process_t F -> process_t F) : Prop :=
  forall p, next (f p) = next p /\ in_use (f p) = in_use p /\ pid (f p) = pid p.

Lemma shape_alter procs h l np f i : same_id f -> shape procs h l np -> shape (alter f i procs) h l np.
Proof.
  intros Hf Hsh.
  assert (Hlk : forall j p', alter f i procs !! j = Some p' ->
    exists p, procs !! j = Some p /\ next p' = next p /\ in_use p' = in_use p /\ pid p' = pid p).
  { intros j p'. rewrite lookup_alter_cases. case_decide; [|intros; by exists p'].
    destruct (procs !! j) as [p|]; [|done]. intros [= <-]. exists p. split; [done|]. apply Hf. }
  destruct Hsh as [H1 H2 H3 H4 H5 H6 H7 H8 H9]. split.
  - done.
  - by rewrite length_alter.
  - apply lseg_alter; [|done]. left. intros p _. apply Hf.
  - done.
  - done.
  - intros j p' (p & Hj & _ & -> & _)%Hlk. eauto.
  - intros p' (p & Hj & _ & _ & ->)%Hlk. eauto.
  - intros j p' (p & Hj & _ & _ & ->)%Hlk. eauto.
  - intros j k p' q' Hj Hk (p & Hp & _ & _ & ->)%Hlk (q & Hq & _ & _ & ->)%Hlk. eauto.
Qed.

(** ** The scheduler *)

(** A process the scheduler may choose. *)
Definition runnable s (i : nat) : bool :=
  match g_procs s !! i with
  | Some p => in_use p && (due (timer_tick s) p || bool_decide (state p = PROCESS_READY))
  | None => false
  end.

Definition is_due s (i : nat) : bool :=
  match g_procs s !! i with Some p => due (timer_tick s) p | None => false end.

(** The first runnable process of a list. *)
Definition first_runnable s (ord : list nat) : option nat :=
  head (filter (fun i => runnable s i = true) ord).

(** What choosing a process comes to: a sleeper is woken. *)
Definition picked s (r : option nat) : option nat * psys S V F :=
  match r with
  | Some i => (Some i, if is_due s i then upd i wake s else s)
  | None => (None, s)
  end.

Lemma first_runnable_cons s i ord :
  first_runnable s (i :: ord) = if runnable s i then Some i else first_runnable s ord.
Proof.
  unfold first_runnable. rewrite filter_cons. destruct (runnable s i) eqn:E; [done|].
  by rewrite decide_False.
Qed.

(** One turn of the loop. *)
Lemma pick_step fuel c hd i s p : i <> c -> g_procs s !! i = Some p ->
  pick_loop (Datatypes.S fuel) c hd (Some i) s =
  if runnable s i then picked s (Some i)
  else pick_loop fuel c hd (match next p with Some n => Some n | None => hd end) s.
Proof.
  intros Hne Hi. cbn [pick_loop]. rewrite decide_False by done. rewrite Hi.
  unfold runnable, picked, is_due. rewrite Hi.
  destruct (due (timer_tick s) p) eqn:Ed.
  - assert (Hu : in_use p = true) by (unfold due in Ed; by destruct (in_use p)).
    simpl. by rewrite Hu.
  - simpl. by destruct (in_use p && _).
Qed.

Lemma pick_before fuel c hd cur b s :
  lseg (g_procs s) cur b (Some c) -> c ∉ b -> (length b < fuel)%nat ->
  pick_loop fuel c hd cur s = picked s (first_runnable s b).
Proof.
  revert fuel cur. induction b as [|i b IH]; intros fuel cur Hl Hc Hlen; simpl in Hl, Hlen.
  - subst cur. destruct fuel; [lia|]. simpl. by rewrite decide_True.
  - destruct Hl as (-> & p & Hi & Hl). destruct fuel; [lia|].
    rewrite (pick_step _ _ _ _ _ p) by (done || set_solver). rewrite first_runnable_cons.
    destruct (runnable s i); [done|].
    assert (Hn : next p = Some c \/ exists k, next p = Some k).
    { rewrite (lseg_head _ _ _ _ Hl). destruct b; simpl; [by left|right; by eexists]. }
    replace (match next p with Some n => Some n | None => hd end) with (next p)
      by (destruct Hn as [-> | [k ->]]; done).
    apply IH; [done|set_solver|lia].
Qed.

Lemma pick_after fuel c hd cur a b s :
  lseg (g_procs s) cur a None -> lseg (g_procs s) hd b (Some c) -> c ∉ a -> c ∉ b ->
  (length a + length b < fuel)%nat ->
  pick_loop fuel c hd (match cur with Some n => Some n | None => hd end) s =
  picked s (first_runnable s (a ++ b)).
Proof.
  revert fuel cur. induction a as [|i a IH]; intros fuel cur Hl Hb Hca Hcb Hlen; simpl in Hl, Hlen.
  - subst cur. by apply pick_before.
  - destruct Hl as (-> & p & Hi & Hl). destruct fuel; [lia|].
    rewrite (pick_step _ _ _ _ _ p) by (done || set_solver). simpl. rewrite first_runnable_cons.
    destruct (runnable s i); [done|]. apply IH; [done|done|set_solver|done|lia].
Qed.

(** [sched_pick_next] goes once around the list from the current process. *)
Lemma sched_pick_next_first s c hd a b np :
  shape (g_procs s) hd (b ++ c :: a) np ->
  sched_pick_next c hd s = picked s (first_runnable s (a ++ b)).
Proof.
  intros Hsh. pose proof (sh_list _ _ _ _ Hsh) as Hl. pose proof (sh_nodup _ _ _ _ Hsh) as Hnd.
  apply lseg_app in Hl as (m & Hb & Hc). simpl in Hc. destruct Hc as (-> & p & Hcp & Ha).
  apply NoDup_app in Hnd as (_ & Hd & Hnd). apply NoDup_cons in Hnd as [Hca _].
  assert (Hcb : c ∉ b) by (intros Hx; apply (Hd c Hx); by left).
  unfold sched_pick_next. rewrite Hcp. simpl. apply pick_after; [done..|].
  assert (Hlen : (length (b ++ c :: a) <= length (g_procs s))%nat).
  { rewrite <- (length_seq (length (g_procs s)) 0). apply submseteq_length, NoDup_submseteq; [apply Hsh|].
    intros i Hi. destruct (shape_lookup _ _ _ _ i Hsh Hi) as [q Hq%lookup_lt_Some].
    apply elem_of_seq. lia. }
  rewrite length_app in Hlen. simpl in Hlen. lia.
Qed.

Lemma elem_of_first_runnable s ord n : first_runnable s ord = Some n -> n ∈ ord /\ runnable s n = true.
Proof.
  unfold first_runnable. intros Hh. apply head_Some_elem_of in Hh. apply list_elem_of_filter in Hh. tauto.
Qed.

Lemma first_runnable_exists s ord n : n ∈ ord -> runnable s n = true -> exists m, first_runnable s ord = Some m.
Proof.
  intros Hn Hr. unfold first_runnable. destruct (filter _ ord) as [|m r] eqn:E; [|by eexists].
  assert (Hin : n ∈ filter (fun i => runnable s i = true) ord) by by apply list_elem_of_filter.
  rewrite E in Hin. by apply elem_of_nil in Hin.
Qed.

Lemma same_id_wake : same_id wake.
Proof. by intros p. Qed.
Lemma same_id_state x : same_id (set_state x).
Proof. by intros p. Qed.
Lemma same_id_rsp x : same_id (set_kernel_rsp x).
Proof. by intros p. Qed.

(** The process that gives the processor away. *)
Definition yielded p : process_t F :=
  if bool_decide (state p = PROCESS_RUNNING) then set_state PROCESS_READY p else p.

Lemma same_id_yielded : same_id yielded.
Proof. intros p. unfold yielded. by case_bool_decide. Qed.

(** The state after a switch from [c] to [n], which was woken if [w]. *)
Definition switched s (c n : nat) (w : bool) p : psys S V F :=
  let procs := if w then alter wake n (g_procs s) else g_procs s in
  mk_psys
    (alter (set_kernel_rsp (cpu_rsp s - 56)) c (alter (set_state PROCESS_RUNNING) n (alter yielded c procs)))
    (process_list s) (Some n) (g_next_pid s) (g_last_exit_code s) (cr3_of p)
    (if negb (kernel_stack p =? 0) then u64 (kernel_stack p + PROCESS_KSTACK_SIZE) else tss_rsp0 s)
    (kernel_rsp p + 56) (timer_tick s) (ps_fa s) (ps_vfs s).

Lemma switch_run s c n p w :
  current_process s = Some c -> n <> c -> g_procs s !! n = Some p -> in_use p = true ->
  state p = PROCESS_READY \/ w = true ->
  process_switch g n (if w then upd n wake s else s) = (Away, switched s c n w p).
Proof.
  intros Hc Hne Hn Hu Hst. unfold process_switch, switched.
  destruct w.
  - unfold upd. simpl. rewrite list_lookup_alter_eq, Hn. simpl. rewrite Hu. simpl.
    rewrite Hc, bool_decide_false by congruence.
    unfold cr3_of, paging_kernel_cr3, cpu_switch_context, upd. simpl. by destruct (kernel_stack p =? 0).
  - destruct Hst as [Hst|]; [|done]. simpl. rewrite Hn, Hu, Hst. simpl.
    rewrite Hc, bool_decide_false by congruence.
    unfold cr3_of, paging_kernel_cr3, cpu_switch_context, upd. simpl. by destruct (kernel_stack p =? 0).
Qed.

Lemma switched_shape s c n w p l np h : shape (g_procs s) h l np ->
  shape (g_procs (switched s c n w p)) h l np.
Proof.
  intros Hsh. simpl. destruct w; repeat (apply shape_alter; [first [apply same_id_rsp|apply same_id_state
    |apply same_id_yielded|apply same_id_wake]|]); done.
Qed.

(** What a slot looks like after the switch. *)
Lemma switched_lookup s c n w p i q' : n <> c -> g_procs (switched s c n w p) !! i = Some q' ->
  exists q, g_procs s !! i = Some q /\ addrspace q' = addrspace q /\
    (i = n /\ state q' = PROCESS_RUNNING \/
     i = c /\ state q' = (if decide (state q = PROCESS_RUNNING) then PROCESS_READY else state q) \/
     i <> n /\ i <> c /\ state q' = state q).
Proof.
  intros Hne. simpl. rewrite !lookup_alter_cases.
  assert (Hw : (if w then alter wake n (g_procs s) else g_procs s) !! i =
    (if w then if decide (n = i) then wake <$> g_procs s !! i else g_procs s !! i else g_procs s !! i))
    by (destruct w; [apply lookup_alter_cases|done]).
  rewrite Hw. clear Hw.
  destruct (decide (c = i)) as [->|Hc], (decide (n = i)) as [->|Hn]; try done.
  - destruct (g_procs s !! i) as [q|]; [|by destruct w]. simpl. intros Hq. exists q.
    destruct w; injection Hq as [= <-]; unfold yielded; case_bool_decide; split_and!; try done; right; left;
      (split; [done|]); simpl; by case_decide.
  - destruct (g_procs s !! i) as [q|]; [|by destruct w]. simpl. intros Hq. exists q.
    destruct w; injection Hq as [= <-]; split_and!; try done; by left.
  - destruct (g_procs s !! i) as [q|]; [|by destruct w]. intros Hq. exists q.
    destruct w; injection Hq as [= <-]; split_and!; try done; right; right; by split_and!.
Qed.

Lemma switched_inv s c n w p l :
  shape (g_procs s) (process_list s) l (g_next_pid s) -> runs s c -> n ∈ l -> n <> c ->
  g_procs s !! n = Some p -> proc_inv (switched s c n w p).
Proof.
  intros Hsh Hru Hnl Hne Hn. pose proof (switched_shape s c n w p _ _ _ Hsh) as Hsh'.
  destruct (shape_lookup _ _ _ _ n Hsh' Hnl) as [p' Hp'].
  destruct (switched_lookup s c n w p n p' Hne Hp') as (q & Hq & Ha & Hcase).
  rewrite Hn in Hq. injection Hq as [= <-].
  exists l, n, p'. split_and!; [done| |done|done|by destruct Hcase as [[_ ?]|[[? _]|[? _]]]].
  destruct Hru as [R1 R2 R3 R4]. split.
  - done.
  - intros q Hq. simpl in Hq. simpl. unfold cr3_of.
    assert (q = p') as -> by (simpl in Hp'; congruence). by rewrite Ha.
  - intros i q Hq Hst. destruct (switched_lookup s c n w p i q Hne Hq) as (x & Hx & _ & Hc).
    destruct Hc as [[? _]|[[_ Hs]|(? & Hic & Hs)]]; [done| |].
    + rewrite Hs in Hst. case_decide; [done|]. done.
    + rewrite Hs in Hst. by apply (R3 i x) in Hst.
  - intros q Hq. destruct (switched_lookup s c n w p _ q Hne Hq) as (x & Hx & _ & Hc).
    destruct (R4 x Hx) as [Hr|Hr]; destruct Hc as [[_ ->]|[[_ ->]|(_ & _ & ->)]];
      rewrite ?Hr; try case_decide; auto.
Qed.

(** [schedule()], when slot [c] has the processor. *)
Lemma schedule_run s c a b :
  shape (g_procs s) (process_list s) (b ++ c :: a) (g_next_pid s) -> runs s c ->
  match first_runnable s (a ++ b) with
  | Some n => exists p, g_procs s !! n = Some p /\ n ∈ a ++ b /\ n <> c /\
      schedule g s = (Away, switched s c n (is_due s n) p) /\
      proc_inv (switched s c n (is_due s n) p)
  | None => schedule g s = (Returned Nok, s)
  end.
Proof.
  intros Hsh Hru. unfold schedule. rewrite (ru_cur _ _ Hru).
  assert (Hh : exists h, process_list s = Some h).
  { rewrite (lseg_head _ _ _ _ (sh_list _ _ _ _ Hsh)). destruct b; simpl; by eexists. }
  destruct Hh as [h Hh]. rewrite Hh.
  rewrite (sched_pick_next_first s c (Some h) a b (g_next_pid s)) by by rewrite <- Hh.
  destruct (first_runnable s (a ++ b)) as [n|] eqn:Ef; simpl; [|done].
  destruct (elem_of_first_runnable _ _ _ Ef) as [Hin Hrn].
  assert (Hnl : n ∈ b ++ c :: a) by (rewrite elem_of_app, elem_of_cons; rewrite elem_of_app in Hin; tauto).
  assert (Hne : n <> c).
  { intros ->. pose proof (sh_nodup _ _ _ _ Hsh) as Hnd. apply NoDup_app in Hnd as (_ & Hd & Hnd).
    apply NoDup_cons in Hnd as [Hca _]. apply elem_of_app in Hin as [?|?]; [done|].
    apply (Hd c); [done|by left]. }
  destruct (shape_lookup _ _ _ _ n Hsh Hnl) as [p Hp]. exists p.
  unfold runnable in Hrn. rewrite Hp in Hrn. apply andb_true_iff in Hrn as [Hu Hd].
  assert (Hsw : process_switch g n (if is_due s n then upd n wake s else s) =
    (Away, switched s c n (is_due s n) p)).
  { apply switch_run; [apply Hru|done|done|done|]. unfold is_due. rewrite Hp.
    apply orb_true_iff in Hd as [->|Hd]; [by right|left; by bool_simpl]. }
  rewrite Hsw. split_and!; [done|done|done|done|]. by apply (switched_inv s c n _ p (b ++ c :: a)).
Qed.

(** The idle process can always run, so another process that stops finds
    somebody to give the processor to. *)
Lemma schedule_away s l c :
  shape (g_procs s) (process_list s) l (g_next_pid s) -> runs s c -> c ∈ l -> c <> 0%nat ->
  exists s', schedule g s = (Away, s') /\ proc_inv s' /\
    exists n p, s' = switched s c n (is_due s n) p /\ n <> c /\ runnable s n = true.
Proof.
  intros Hsh Hru Hc Hne. apply list_elem_of_split in Hc as (b & a & ->).
  pose proof (schedule_run s c a b Hsh Hru) as Hs.
  assert (Hex : exists m, first_runnable s (a ++ b) = Some m).
  { apply (first_runnable_exists s _ 0%nat).
    - pose proof (sh_head _ _ _ _ Hsh) as Hh. destruct b as [|i b]; simpl in Hh.
      + congruence.
      + injection Hh as [= ->]. apply elem_of_app. right. by left.
    - assert (Hin : 0%nat ∈ b ++ c :: a) by (apply head_Some_elem_of; apply Hsh).
      destruct (shape_lookup _ _ _ _ _ Hsh Hin) as [p Hp]. unfold runnable. rewrite Hp.
      rewrite (proj2 (sh_used _ _ _ _ Hsh _ _ Hp) Hin). simpl.
      destruct (ru_idle _ _ Hru p Hp) as [Hr|Hr].
      + by rewrite Hr, orb_true_r.
      + apply (ru_one _ _ Hru _ _ Hp) in Hr. congruence. }
  destruct Hex as [m Hm]. rewrite Hm in Hs. destruct Hs as (p & Hp & _ & Hmc & E & Hi).
  eexists. split; [exact E|]. split; [done|]. destruct (elem_of_first_runnable _ _ _ Hm). by exists m, p.
Qed.

(** ** Reaping keeps the invariant *)

Definition kept s l : list nat := filter (fun i => ~ reapable s i) l.
Definition dead s l : list nat := filter (reapable s) l.

Lemma unlinked_lookup s s' l' d i p' : unlinked s s' l' d -> g_procs s' !! i = Some p' ->
  exists p, g_procs s !! i = Some p /\
    (i ∈ d /\ p' = zero_process \/ i ∉ d /\ exists x, p' = set_next x p).
Proof.
  intros (procs' & h' & fa' & -> & _ & Hlen & Hp & _) Hi. simpl in Hi.
  destruct (g_procs s !! i) as [p|] eqn:E.
  - exists p. split; [done|]. specialize (Hp i p E). case_decide; [left; split; congruence|right].
    split; [done|]. destruct Hp as (x & Hx & _). exists x. congruence.
  - apply lookup_lt_Some in Hi. apply lookup_ge_None in E. lia.
Qed.

Lemma reap_unlinked s l np : shape (g_procs s) (process_list s) l np ->
  unlinked s (process_reap s) (kept s l) (dead s l).
Proof.
  intros Hsh. apply (reap_loop_spec _ s _ None [] l); [done|apply Hsh|apply Hsh|done|].
  rewrite <- (length_seq (length (g_procs s)) 0). apply submseteq_length, NoDup_submseteq; [apply Hsh|].
  intros i Hi. destruct (shape_lookup _ _ _ _ i Hsh Hi) as [q Hq%lookup_lt_Some].
  apply elem_of_seq. lia.
Qed.

Lemma reap_shape s l np : shape (g_procs s) (process_list s) l np ->
  shape (g_procs (process_reap s)) (process_list (process_reap s)) (kept s l) np.
Proof.
  intros Hsh. pose proof (reap_unlinked s l np Hsh) as Hu.
  pose proof (fun i p' => unlinked_lookup s _ _ _ i p' Hu) as Hlk.
  destruct Hu as (procs' & h' & fa' & E & Hl & Hlen & _ & _).
  assert (Hp1 : g_procs (process_reap s) = procs') by by rewrite E.
  assert (Hh1 : process_list (process_reap s) = h') by by rewrite E.
  rewrite Hp1, Hh1 in *. clear E Hp1 Hh1.
  assert (Hk : forall i, i ∈ kept s l <-> i ∈ l /\ i ∉ dead s l).
  { intros i. unfold kept, dead. rewrite !list_elem_of_filter. destruct (decide (reapable s i)); tauto. }
  assert (Hin : forall i p', procs' !! i = Some p' -> i ∈ kept s l ->
    exists p x, g_procs s !! i = Some p /\ p' = set_next x p).
  { intros i p' Hi Hik. destruct (Hlk i p' Hi) as (p & Hp & [[Hd _]|[_ [x ->]]]); [|by exists p, x].
    apply Hk in Hik. tauto. }
  destruct Hsh as [H1 H2 H3 H4 H5 H6 H7 H8 H9]. split.
  - done.
  - by rewrite Hlen.
  - done.
  - by apply NoDup_filter.
  - destruct l as [|i l]; [done|]. injection H5 as [= ->]. unfold kept. rewrite filter_cons.
    rewrite decide_True; [done|]. unfold reapable. destruct (g_procs s !! 0%nat) as [p|] eqn:E0; [|tauto].
    specialize (H7 p eq_refl). tauto.
  - intros i p' Hi. rewrite Hk. destruct (Hlk i p' Hi) as (p & Hp & [[Hd ->]|[Hd [x ->]]]); simpl.
    + split; [done|tauto].
    + rewrite (H6 i p Hp). tauto.
  - intros p' Hi. destruct (Hlk _ p' Hi) as (p & Hp & [[Hd ->]|[Hd [x ->]]]); simpl; [done|auto].
  - intros i p' Hi Hik. destruct (Hin i p' Hi Hik) as (p & x & Hp & ->). simpl.
    apply (H8 i p Hp). by apply Hk.
  - intros i j p' q' Hi Hj Hp' Hq'. destruct (Hin i p' Hp' Hi) as (p & x & Hp & ->).
    destruct (Hin j q' Hq' Hj) as (q & y & Hq & ->). simpl. apply (H9 i j p q); try done; by apply Hk.
Qed.

Lemma reap_fields s l np : shape (g_procs s) (process_list s) l np ->
  let s' := process_reap s in
  current_process s' = current_process s /\ g_next_pid s' = g_next_pid s /\ cr3 s' = cr3 s /\
  ps_vfs s' = ps_vfs s /\ timer_tick s' = timer_tick s /\ g_last_exit_code s' = g_last_exit_code s /\
  ps_fa s' = fold_left (destroy_space s) (dead s l) (ps_fa s).
Proof.
  intros Hsh. destruct (reap_unlinked s l np Hsh) as (procs' & h' & fa' & E & _ & _ & _ & Hf).
  cbv zeta. rewrite E. simpl. by split_and!.
Qed.

Lemma reap_runs s l np c : shape (g_procs s) (process_list s) l np -> runs s c -> runs (process_reap s) c.
Proof.
  intros Hsh [R1 R2 R3 R4]. pose proof (reap_unlinked s l np Hsh) as Hu.
  destruct (reap_fields s l np Hsh) as (F1 & _ & F3 & _).
  pose proof (fun i p' => unlinked_lookup s _ _ _ i p' Hu) as Hlk. split.
  - by rewrite F1.
  - intros p' Hi. rewrite F3. destruct (Hlk _ p' Hi) as (p & Hp & [[Hd _]|[_ [x ->]]]).
    + apply list_elem_of_filter in Hd as [Hd _]. unfold reapable in Hd. rewrite Hp in Hd. tauto.
    + by rewrite (R2 p Hp).
  - intros i p' Hi. destruct (Hlk _ p' Hi) as (p & Hp & [[Hd ->]|[_ [x ->]]]); simpl; [done|].
    by apply (R3 i p).
  - intros p' Hi. destruct (Hlk _ p' Hi) as (p & Hp & [[Hd ->]|[_ [x ->]]]); simpl; [by left|].
    by apply (R4 p).
Qed.

Lemma reap_inv s : proc_inv s -> proc_inv (process_reap s).
Proof.
  intros (l & c & p & Hsh & Hru & Hc & Hp & Hst).
  pose proof (reap_shape s l _ Hsh) as Hsh'. pose proof (reap_runs s l _ c Hsh Hru) as Hru'.
  destruct (reap_fields s l _ Hsh) as (_ & F2 & _).
  assert (Hnr : ~ reapable s c) by (unfold reapable; rewrite Hp; destruct Hru; tauto).
  assert (Hck : c ∈ kept s l) by by apply list_elem_of_filter.
  destruct (shape_lookup _ _ _ _ c Hsh' Hck) as [p' Hp'].
  exists (kept s l), c, p'. rewrite F2. split_and!; try done.
  destruct (unlinked_lookup s _ _ _ c p' (reap_unlinked s l _ Hsh) Hp') as (q & Hq & [[Hd _]|[_ [x ->]]]).
  - apply list_elem_of_filter in Hd. tauto.
  - simpl. congruence.
Qed.

(** ** Creation *)

Lemma list_tail_last procs h l fuel : lseg procs (Some h) l None -> (length l <= fuel + 1)%nat ->
  last l = Some (list_tail fuel procs h).
Proof.
  revert h fuel. induction l as [|i l IH]; intros h fuel; simpl; [done|].
  intros ([= <-] & p & Hi & Hl) Hlen. destruct l as [|j l].
  - simpl in Hl. destruct fuel; simpl; [done|]. rewrite Hi. simpl. by rewrite Hl.
  - pose proof (lseg_head _ _ _ _ Hl) as Hn. simpl in Hn.
    destruct fuel as [|fuel]; [simpl in Hlen; lia|].
    cbn [list_tail]. rewrite Hi. cbn [mbind option_bind]. rewrite Hn.
    change (last (h :: j :: l)) with (last (j :: l)). apply IH; [by rewrite <- Hn|simpl in *; lia].
Qed.

Lemma find_slot_some s slot : find_slot s = Some slot ->
  exists p, g_procs s !! slot = Some p /\ in_use p = false /\ (0 < slot < PROCESS_MAX)%nat.
Proof.
  unfold find_slot. destruct (list_find _ _) as [[k i]|] eqn:E; [|done]. intros [= <-].
  apply list_find_Some in E as (Hk & Hf & _).
  destruct (g_procs s !! i) as [p|]; [|done]. exists p. simpl in Hf. split_and!; try done.
  all: apply list_elem_of_lookup_2, elem_of_seq in Hk; unfold PROCESS_MAX in *; lia.
Qed.

Lemma find_slot_none s l np : shape (g_procs s) (process_list s) l np -> find_slot s = None ->
  length l = PROCESS_MAX.
Proof.
  intros Hsh. unfold find_slot. destruct (list_find _ _) as [[k i]|] eqn:E; [done|]. intros _.
  rewrite <- (length_seq PROCESS_MAX 0). apply Permutation_length, NoDup_Permutation.
  - apply Hsh.
  - apply NoDup_seq.
  - intros i. rewrite elem_of_seq. split.
    + intros Hi. destruct (shape_lookup _ _ _ _ i Hsh Hi) as [q Hq%lookup_lt_Some].
      rewrite (sh_len _ _ _ _ Hsh) in Hq. lia.
    + intros Hi. destruct (decide (i = 0%nat)) as [->|Hne].
      { apply head_Some_elem_of. apply Hsh. }
      apply list_find_None in E. rewrite Forall_forall in E.
      specialize (E i). rewrite elem_of_seq in E.
      destruct (lookup_lt_is_Some_2 (g_procs s) i) as [p Hp]; [rewrite (sh_len _ _ _ _ Hsh); lia|].
      rewrite Hp in E. simpl in E. apply (sh_used _ _ _ _ Hsh _ _ Hp).
      destruct (in_use p); [done|]. exfalso. apply E; [unfold PROCESS_MAX in *; lia|done].
Qed.

(** The process a creation puts in its slot. *)
Definition fresh_process (slot : nat) (arg entry : Z) (as_ : addr_space_t) (uentry ustack heap np : Z)
    (t : list (nx_handle_t F)) p : Prop :=
  pid p = np /\ state p = PROCESS_READY /\ in_use p = true /\ addrspace p = as_ /\
  stack p = arg /\ entry_point p = entry /\ user_entry p = uentry /\ user_stack_top p = ustack /\
  heap_start p = heap /\ heap_brk p = heap /\ uid p = 0 /\ gid p = 0 /\ exit_code p = 0 /\
  wake_tick p = 0 /\ handles p = t /\ next p = None /\
  kernel_stack p = g_kstacks g + PROCESS_KSTACK_SIZE * Z.of_nat slot /\
  kernel_rsp p = kernel_stack p + PROCESS_KSTACK_SIZE - 56.

Lemma install_eq slot arg entry as_ uentry ustack heap s h :
  process_list s = Some h ->
  let s' := install_process g slot arg entry as_ uentry ustack heap s in
  exists proc, fresh_process slot arg entry as_ uentry ustack heap (g_next_pid s) (nx_handles_init (V := V)) proc /\
    let procs := alter (fun _ => proc) slot (g_procs s) in
    g_procs s' = alter (set_next (Some slot)) (list_tail (length procs) procs h) procs /\
    process_list s' = Some h /\ current_process s' = current_process s /\
    g_next_pid s' = u32 (g_next_pid s + 1) /\ cr3 s' = cr3 s /\ ps_vfs s' = ps_vfs s.
Proof.
  intros Hh. cbv zeta. unfold install_process, push_frame. cbn [process_list upd with_procs with_next_pid with_fa].
  rewrite Hh. eexists. split; [|split_and!; try done; simpl; reflexivity].
  unfold fresh_process. simpl. split_and!; try done.
Qed.

Lemma install_inv slot arg entry as_ uentry ustack heap s l c p0 :
  shape (g_procs s) (process_list s) l (g_next_pid s) -> runs s c -> c ∈ l ->
  g_procs s !! slot = Some p0 -> in_use p0 = false -> g_next_pid s + 1 < 2 ^ 32 ->
  let s' := install_process g slot arg entry as_ uentry ustack heap s in
  shape (g_procs s') (process_list s') (l ++ [slot]) (g_next_pid s + 1) /\ runs s' c /\
  g_next_pid s' = g_next_pid s + 1 /\
  (exists p, g_procs s' !! slot = Some p /\
     fresh_process slot arg entry as_ uentry ustack heap (g_next_pid s) (nx_handles_init (V := V)) p) /\
  (forall i p, i ∈ l -> g_procs s !! i = Some p -> exists x, g_procs s' !! i = Some (set_next x p)).
Proof.
  intros Hsh Hru Hcl Hslot Huse Hnp. cbv zeta.
  assert (Hh : process_list s = Some 0%nat).
  { rewrite (lseg_head _ _ _ _ (sh_list _ _ _ _ Hsh)). by rewrite (sh_head _ _ _ _ Hsh). }
  destruct (install_eq slot arg entry as_ uentry ustack heap s _ Hh)
    as (proc & Hproc & Hprocs & Hlist & Hcur & Hnext & Hcr3 & Hvfs).
  set (s' := install_process g slot arg entry as_ uentry ustack heap s) in *. clearbody s'.
  cbv zeta in Hprocs. set (procs1 := alter (fun _ => proc) slot (g_procs s)) in *.
  assert (Hns : slot ∉ l) by (intros Hin; by rewrite (proj2 (sh_used _ _ _ _ Hsh _ _ Hslot) Hin) in Huse).
  assert (Hl1 : lseg procs1 (Some 0%nat) l None).
  { apply lseg_alter; [by right|]. rewrite <- Hh. apply Hsh. }
  assert (Hlenl : (length l <= length procs1 + 1)%nat).
  { unfold procs1. rewrite length_alter. transitivity (length (g_procs s)); [|lia].
    rewrite <- (length_seq (length (g_procs s)) 0). apply submseteq_length, NoDup_submseteq; [apply Hsh|].
    intros i Hi. destruct (shape_lookup _ _ _ _ i Hsh Hi) as [q Hq%lookup_lt_Some].
    apply elem_of_seq. lia. }
  pose proof (list_tail_last procs1 0%nat l (length procs1) Hl1 Hlenl) as Htl.
  set (tl := list_tail (length procs1) procs1 0%nat) in *.
  apply last_Some in Htl as [l0 El]. assert (Htl : tl ∈ l) by (rewrite El; apply elem_of_app; right; by left).
  assert (Hne : tl <> slot) by by intros ->.
  assert (Hother : forall i p, i <> slot -> g_procs s !! i = Some p ->
    exists x, g_procs s' !! i = Some (set_next x p)).
  { intros i p Hi Hp. rewrite Hprocs, lookup_alter_cases. unfold procs1.
    rewrite list_lookup_alter_ne by done. rewrite Hp. case_decide; simpl; [by eexists|].
    exists (next p). by destruct p. }
  assert (Hnew : g_procs s' !! slot = Some proc).
  { rewrite Hprocs, list_lookup_alter_ne by done. unfold procs1. by rewrite list_lookup_alter_eq, Hslot. }
  assert (Hinv : forall i p', g_procs s' !! i = Some p' ->
    (i = slot /\ p' = proc) \/ (i <> slot /\ exists p x, g_procs s !! i = Some p /\ p' = set_next x p)).
  { intros i p' Hi. destruct (decide (i = slot)) as [->|Hne']; [left; split; congruence|right].
    split; [done|]. rewrite Hprocs, lookup_alter_cases in Hi. unfold procs1 in Hi.
    rewrite list_lookup_alter_ne in Hi by done. destruct (g_procs s !! i) as [p|]; [|by case_decide].
    case_decide; simpl in Hi; [by exists p, (Some slot); split; congruence|].
    exists p, (next p). injection Hi as [= <-]. by destruct p. }
  pose proof Hproc as Hfresh. destruct Hproc as (P1 & P2 & P3 & P4 & P5). pose proof Hsh as [H1 H2 H3 H4 H5 H6 H7 H8 H9].
  assert (Hslot0 : slot <> 0%nat) by (intros ->; apply Hns, head_Some_elem_of, H5).
  split_and!.
  - split.
    + lia.
    + rewrite Hprocs, length_alter. unfold procs1. by rewrite length_alter.
    + rewrite Hlist. apply lseg_app. exists (Some slot). split.
      * rewrite Hprocs. rewrite El in Hl1 |- *. apply (lseg_snoc_redirect _ _ _ _ None); [|done].
        rewrite El in H4. apply NoDup_app in H4 as (_ & Hd & _). intros Hx. apply (Hd tl Hx). by left.
      * split; [done|]. exists proc. split; [done|]. simpl.
        by destruct P5 as (_ & _ & _ & _ & _ & _ & _ & _ & _ & _ & _ & ? & _).
    + apply NoDup_app. split_and!; [done| |apply NoDup_singleton].
      intros i Hi ->%list_elem_of_singleton. done.
    + by destruct l.
    + intros i p' [[-> ->]|(Hi & p & x & Hp & ->)]%Hinv.
      * rewrite elem_of_app, list_elem_of_singleton. split; [by right|done].
      * simpl. rewrite (H6 i p Hp), elem_of_app, list_elem_of_singleton. tauto.
    + intros p' [[Hz _]|(_ & p & x & Hp & ->)]%Hinv; [by symmetry in Hz|]. by apply (H7 p).
    + intros i p' [[-> ->]|(Hi & p & x & Hp & ->)]%Hinv Hil Hi0; [lia|].
      apply elem_of_app in Hil as [Hil|Hil%list_elem_of_singleton]; [|done].
      pose proof (H8 i p Hp Hil Hi0). simpl. lia.
    + intros i j p' q' Hil Hjl Hp' Hq'.
      assert (Hpid : forall i p' , g_procs s' !! i = Some p' -> i ∈ l ++ [slot] -> i <> slot ->
        exists p, g_procs s !! i = Some p /\ pid p' = pid p /\ i ∈ l /\ pid p < g_next_pid s).
      { intros k r' Hr' Hk Hks. destruct (Hinv k r' Hr') as [[? _]|(_ & r & x & Hr & ->)]; [done|].
        apply elem_of_app in Hk as [Hk|Hk%list_elem_of_singleton]; [|done]. exists r.
        split_and!; try done. destruct (decide (k = 0%nat)) as [->|]; [rewrite (H7 r Hr); lia|].
        by apply (H8 k r Hr). }
      destruct (decide (i = slot)) as [->|Hi], (decide (j = slot)) as [->|Hj]; [done| | |].
      * destruct (Hpid j q' Hq' Hjl Hj) as (q & _ & -> & _ & ?). assert (p' = proc) as -> by congruence. lia.
      * destruct (Hpid i p' Hp' Hil Hi) as (p & _ & -> & _ & ?). assert (q' = proc) as -> by congruence. lia.
      * destruct (Hpid i p' Hp' Hil Hi) as (p & Hp & -> & Hil' & _).
        destruct (Hpid j q' Hq' Hjl Hj) as (q & Hq & -> & Hjl' & _). by apply (H9 i j p q).
  - destruct Hru as [R1 R2 R3 R4]. split.
    + congruence.
    + intros p' [[-> _]|(_ & p & x & Hp & ->)]%Hinv; [done|]. rewrite Hcr3, (R2 p Hp). done.
    + intros i p' [[-> ->]|(_ & p & x & Hp & ->)]%Hinv Hs; [congruence|]. by apply (R3 i p).
    + intros p' [[Hz _]|(_ & p & x & Hp & ->)]%Hinv; [by symmetry in Hz|]. by apply (R4 p).
  - rewrite Hnext. apply uw_small. lia.
  - by exists proc.
  - intros i p Hi Hp. apply Hother; [by intros ->|done].
Qed.
End inv.
