(* ===== verification/ProcessProps.v ===== *)
(** * What the process operations promise

    The invariant of [ProcessInv] along any run, the scheduling order, and the
    life of a process from creation to the return of its resources. *)

From S2P Require Import Prelude Types Mem Memory FrameAlloc Paging Handles Process ProcessInv.

#[local] Opaque nx_handles_close_all paging_addrspace_destroy nx_handles_init.

Section props.
Context {S V F : Type} `{FrameAllocator S} `{FileLayer V F}.
Context (g : proc_globals).
Implicit Types (s : psys S V F) (p q : process_t F) (procs : list (process_t F)) (l : list nat).

(** ** Searching by pid *)

Lemma find_pid_spec fuel procs h l x :
  lseg procs h l None -> (length l <= fuel)%nat ->
  (forall i p, i ∈ l -> procs !! i = Some p -> in_use p = true) ->
  match find_pid fuel procs h x with
  | Some i => i ∈ l /\ exists p, procs !! i = Some p /\ pid p = x
  | None => forall i p, i ∈ l -> procs !! i = Some p -> pid p <> x
  end.
Proof.
  revert h l. induction fuel as [|fuel IH]; intros h l Hl Hlen Hu; (destruct l as [|i l]; simpl in Hl, Hlen).
  - subst h. simpl. intros i p Hi. by apply elem_of_nil in Hi.
  - lia.
  - subst h. simpl. intros i p Hi. by apply elem_of_nil in Hi.
  - destruct Hl as (-> & p & Hp & Hl). cbn [find_pid]. rewrite Hp, (Hu i p ltac:(by left) Hp). simpl.
    case_if.
    + split; [by left|]. exists p. split; [done|lia].
    + specialize (IH (next p) l Hl ltac:(lia) ltac:(intros; eapply Hu; [by right|done])).
      destruct (find_pid fuel procs (next p) x) as [j|].
      * destruct IH as (? & q & ? & ?). split; [by right|]. by exists q.
      * intros j q [-> | Hj]%elem_of_cons Hq; [congruence|]. by apply (IH j q).
Qed.

Lemma shape_length procs h l np : shape procs h l np -> (length l <= length procs)%nat.
Proof.
  intros Hsh. rewrite <- (length_seq (length procs) 0). apply submseteq_length, NoDup_submseteq; [apply Hsh|].
  intros i Hi. destruct (shape_lookup _ _ _ _ i Hsh Hi) as [q Hq%lookup_lt_Some].
  apply elem_of_seq. lia.
Qed.

Lemma find_pid_shape s l np x : shape (g_procs s) (process_list s) l np ->
  match find_pid (length (g_procs s)) (g_procs s) (process_list s) x with
  | Some i => i ∈ l /\ exists p, g_procs s !! i = Some p /\ pid p = x
  | None => forall i p, i ∈ l -> g_procs s !! i = Some p -> pid p <> x
  end.
Proof.
  intros Hsh. apply find_pid_spec; [apply Hsh|by eapply shape_length|].
  intros i p Hi Hp. by apply (sh_used _ _ _ _ Hsh _ _ Hp).
Qed.

(** A process of the list is found under its pid. *)
Lemma find_pid_found s l np i p : shape (g_procs s) (process_list s) l np -> i ∈ l ->
  g_procs s !! i = Some p ->
  find_pid (length (g_procs s)) (g_procs s) (process_list s) (pid p) = Some i.
Proof.
  intros Hsh Hi Hp. pose proof (find_pid_shape s l np (pid p) Hsh) as Hf.
  destruct (find_pid _ _ _ _) as [j|].
  - destruct Hf as (Hj & q & Hq & Hpid). by rewrite (sh_inj _ _ _ _ Hsh i j p q).
  - by destruct (Hf i p Hi Hp).
Qed.

(** ** Updates of one process *)

Lemma upd_runs s c i f :
  (forall p, addrspace (f p) = addrspace p) ->
  (forall p, state (f p) = PROCESS_RUNNING -> i = c \/ state p = PROCESS_RUNNING) ->
  (i = 0%nat -> forall p, g_procs s !! 0%nat = Some p ->
     state (f p) = PROCESS_READY \/ state (f p) = PROCESS_RUNNING) ->
  runs g s c -> runs g (upd i f s) c.
Proof.
  intros Ha Hs Hi [R1 R2 R3 R4]. split; simpl.
  - done.
  - intros p'. rewrite lookup_alter_cases. case_decide; [|by apply R2].
    destruct (g_procs s !! c) as [p|] eqn:E; [|done]. intros [= <-].
    rewrite (R2 p eq_refl). unfold cr3_of. by rewrite Ha.
  - intros j p'. rewrite lookup_alter_cases. case_decide; [|by apply R3].
    destruct (g_procs s !! j) as [p|] eqn:E; [|done]. intros [= <-] Hst. subst j.
    destruct (Hs p Hst) as [|Hr]; [done|]. by apply (R3 i p).
  - intros p'. rewrite lookup_alter_cases. case_decide; [|by apply R4].
    destruct (g_procs s !! 0%nat) as [p|] eqn:E; [|done]. intros [= <-]. by apply Hi.
Qed.

Lemma inv_list s : proc_inv g s -> exists h, process_list s = Some h.
Proof.
  intros (l & c & p & Hsh & _). exists 0%nat.
  rewrite (lseg_head _ _ _ _ (sh_list _ _ _ _ Hsh)). by rewrite (sh_head _ _ _ _ Hsh).
Qed.

(** The killing of slot [i]: its handles are closed, its state set. *)
Definition killed s (i : nat) p : psys S V F :=
  let c := nx_handles_close_all (handles p, ps_vfs s) in
  upd i (fun p => set_state PROCESS_TERMINATED (set_handles c.1 p)) (with_vfs c.2 s).

Lemma killed_shape s i p l np : shape (g_procs s) (process_list s) l np ->
  shape (g_procs (killed s i p)) (process_list (killed s i p)) l np.
Proof. intros Hsh. apply shape_alter; [|done]. by intros q. Qed.

Lemma killed_runs s i p c : runs g s c -> i <> 0%nat -> runs g (killed s i p) c.
Proof.
  intros Hru Hi. apply upd_runs; [done| |done|]; [by intros q|].
  by destruct Hru.
Qed.

Lemma terminate_eq s l np i p : shape (g_procs s) (process_list s) l np -> i ∈ l ->
  g_procs s !! i = Some p -> pid p <> 0 -> state p <> PROCESS_TERMINATED ->
  process_terminate g (pid p) s =
  if bool_decide (current_process s = Some i)
  then match schedule g (killed s i p) with
       | (Away, s) => (Away, s)
       | (_, s) => (Panicked NprocessFailed, s)
       end
  else (Returned Nok, process_reap (killed s i p)).
Proof.
  intros Hsh Hi Hp Hpid Hst. unfold process_terminate. rewrite (proj2 (Z.eqb_neq _ _) Hpid).
  rewrite (find_pid_found s l np i p Hsh Hi Hp), Hp, bool_decide_false by done.
  unfold killed. by destruct (nx_handles_close_all (handles p, ps_vfs s)) as [t v].
Qed.

Lemma slot_pid s l np i p : shape (g_procs s) (process_list s) l np -> i ∈ l ->
  g_procs s !! i = Some p -> i = 0%nat <-> pid p = 0.
Proof.
  intros Hsh Hi Hp. split; [intros ->; by apply (sh_idle _ _ _ _ Hsh)|]. intros Hz.
  destruct (decide (i = 0%nat)); [done|]. pose proof (sh_pid _ _ _ _ Hsh i p Hp Hi ltac:(done)). lia.
Qed.

(** ** Every operation keeps the invariant *)

Lemma schedule_inv s o s' : proc_inv g s -> schedule g s = (o, s') ->
  proc_inv g s' /\ g_next_pid s' = g_next_pid s.
Proof.
  intros (l & c & p & Hsh & Hru & Hc & Hp & Hst) E.
  pose proof Hc as (b & a & El)%list_elem_of_split. rewrite El in Hsh.
  pose proof (schedule_run g s c a b Hsh Hru) as Hs.
  destruct (first_runnable s (a ++ b)) as [n|].
  - destruct Hs as (q & _ & _ & _ & E' & Hi). rewrite E' in E. injection E as [= _ <-]. by split.
  - rewrite Hs in E. injection E as [= _ <-]. split; [|done].
    exists (b ++ c :: a), c, p. split_and!; try done. apply elem_of_app. right. by left.
Qed.

Lemma terminate_inv s x o s' : proc_inv g s -> process_terminate g x s = (o, s') ->
  proc_inv g s' /\ g_next_pid s' = g_next_pid s /\ forall e, o <> Panicked e.
Proof.
  intros Hinv E. pose proof Hinv as (l & c & pc & Hsh & Hru & Hc & Hpc & Hstc).
  destruct (decide (x = 0)) as [->|Hx].
  { unfold process_terminate in E. injection E as [= <- <-]. done. }
  pose proof (find_pid_shape s l _ x Hsh) as Hf.
  destruct (find_pid (length (g_procs s)) (g_procs s) (process_list s) x) as [i|] eqn:Ef.
  2:{ unfold process_terminate in E. rewrite (proj2 (Z.eqb_neq _ _) Hx), Ef in E.
      injection E as [= <- <-]. done. }
  destruct Hf as (Hi & p & Hp & <-).
  destruct (decide (state p = PROCESS_TERMINATED)) as [Ht|Ht].
  { unfold process_terminate in E. rewrite (proj2 (Z.eqb_neq _ _) Hx), Ef, Hp, bool_decide_true in E by done.
    injection E as [= <- <-]. done. }
  rewrite (terminate_eq s l _ i p Hsh Hi Hp Hx Ht) in E.
  assert (Hi0 : i <> 0%nat) by (rewrite (slot_pid s l _ i p Hsh Hi Hp); done).
  pose proof (killed_shape s i p l _ Hsh) as Hsh'. pose proof (killed_runs s i p c Hru Hi0) as Hru'.
  rewrite (ru_cur _ _ _ Hru) in E. case_bool_decide as Hci.
  - injection Hci as [= ->].
    destruct (schedule_away g (killed s i p) l i Hsh' Hru' Hi Hi0) as (s2 & E2 & Hinv2 & n & q & -> & _).
    rewrite E2 in E. injection E as [= <- <-]. done.
  - injection E as [= <- <-].
    assert (Hk : proc_inv g (killed s i p)).
    { exists l, c, pc. split; [exact Hsh'|]. split; [exact Hru'|]. split; [exact Hc|].
      split; [|exact Hstc]. cbn [g_procs killed upd with_procs]. rewrite lookup_alter_cases.
      rewrite decide_False by congruence. exact Hpc. }
    split; [by apply reap_inv|]. split; [|done].
    by destruct (reap_fields (killed s i p) l _ Hsh') as (_ & -> & _).
Qed.

(** The current process, asleep until tick [t]. *)
Definition dozing s (c : nat) (t : Z) : psys S V F :=
  upd c (fun p => set_state PROCESS_BLOCKED (set_wake_tick t p)) s.

Lemma dozing_away s l c t : shape (g_procs s) (process_list s) l (g_next_pid s) -> runs g s c ->
  c ∈ l -> c <> 0%nat -> exists s', schedule g (dozing s c t) = (Away, s') /\ proc_inv g s' /\
    exists n p, s' = switched g (dozing s c t) c n (is_due (dozing s c t) n) p /\ n <> c.
Proof.
  intros Hsh Hru Hc Hne.
  destruct (schedule_away g (dozing s c t) l c) as (s' & E & Hi & n & p & Hs & Hn & _); [| |done..|by exists s'; eauto 6].
  - apply shape_alter; [by intros q|done].
  - apply upd_runs; [done|by intros q|done|done].
Qed.

Lemma sleep_inv s t o s' : proc_inv g s -> process_sleep_ticks g t s = (o, s') ->
  proc_inv g s' /\ g_next_pid s' = g_next_pid s.
Proof.
  intros Hinv E. pose proof Hinv as (l & c & pc & Hsh & Hru & Hc & Hpc & Hstc).
  destruct (decide (c = 0%nat)) as [->|Hne].
  - unfold process_sleep_ticks in E. rewrite (ru_cur _ _ _ Hru) in E. simpl in E. rewrite Hpc in E.
    simpl in E. rewrite (sh_idle _ _ _ _ Hsh _ Hpc) in E. simpl in E. by injection E as [= _ <-].
  - unfold process_sleep_ticks in E. rewrite (ru_cur _ _ _ Hru) in E. simpl in E. rewrite Hpc in E.
    simpl in E. assert (Hpid : pid pc =? 0 = false)
      by (apply Z.eqb_neq; rewrite <- (slot_pid s l _ c pc Hsh Hc Hpc); done).
    rewrite Hpid in E. set (w := u64 _) in E. fold (dozing s c w) in E.
    destruct (dozing_away s l c w Hsh Hru Hc Hne) as (s2 & E2 & Hi & n & q & Hs2 & Hn).
    rewrite E2 in E. injection E as [= _ <-]. split; [done|]. by rewrite Hs2.
Qed.

(** A creation that found a slot, once the dead were reaped. *)
Lemma create_installs s slot arg entry as_ uentry ustack heap : proc_inv g s -> g_next_pid s + 1 < 2 ^ 32 ->
  find_slot (process_reap s) = Some slot ->
  let s' := install_process g slot arg entry as_ uentry ustack heap (process_reap s) in
  proc_inv g s' /\ g_next_pid s' = g_next_pid s + 1 /\
  exists p, g_procs s' !! slot = Some p /\
    fresh_process g slot arg entry as_ uentry ustack heap (g_next_pid s) (nx_handles_init (V := V)) p.
Proof.
  intros Hinv Hnp Hslot. cbv zeta. pose proof Hinv as (l0 & _ & _ & Hsh0 & _).
  destruct (reap_fields s l0 _ Hsh0) as (_ & F2 & _).
  destruct (reap_inv g s Hinv) as (l & c & p & Hsh & Hru & Hc & Hp & Hst).
  destruct (find_slot_some _ _ Hslot) as (p0 & Hp0 & Hu0 & _). rewrite <- F2 in Hnp |- *.
  destruct (install_inv g slot arg entry as_ uentry ustack heap _ l c p0 Hsh Hru Hc Hp0 Hu0 Hnp)
    as (Hsh' & Hru' & Hn' & Hnew & Hold).
  set (s' := install_process _ _ _ _ _ _ _ _ _) in *. clearbody s'.
  split_and!; [|done|done]. destruct (Hold c p Hc Hp) as [x Hx].
  exists (l ++ [slot]), c, (set_next x p). rewrite Hn'. split_and!; try done.
  apply elem_of_app. by left.
Qed.

Lemma create_user_run s as_ entry ustack heap r s' : proc_inv g s -> g_next_pid s + 1 < 2 ^ 32 ->
  process_create_user g as_ entry ustack heap s = (r, s') ->
  proc_inv g s' /\ g_next_pid s <= g_next_pid s' <= g_next_pid s + 1.
Proof.
  intros Hinv Hnp. unfold process_create_user. case_if; [intros [= _ <-]; split; [done|lia]|].
  destruct (inv_list s Hinv) as [h ->].
  destruct (find_slot (process_reap s)) as [slot|] eqn:Hslot; intros [= _ <-].
  - destruct (create_installs s slot 0 (user_process_entry_thunk g) as_ entry ustack heap Hinv Hnp Hslot)
      as (Hi & Hn & _). split; [done|]. lia.
  - split; [by apply reap_inv|]. destruct Hinv as (l0 & _ & _ & Hsh0 & _).
    destruct (reap_fields s l0 _ Hsh0) as (_ & F2 & _). lia.
Qed.

Lemma proc_create_run s entry arg r s' : proc_inv g s -> g_next_pid s + 1 < 2 ^ 32 ->
  process_create g entry arg s = (r, s') ->
  proc_inv g s' /\ g_next_pid s <= g_next_pid s' <= g_next_pid s + 1.
Proof.
  intros Hinv Hnp. unfold process_create. case_if; [intros [= _ <-]; split; [done|lia]|].
  destruct (inv_list s Hinv) as [h ->].
  destruct (find_slot (process_reap s)) as [slot|] eqn:Hslot; intros [= _ <-].
  - destruct (create_installs s slot arg entry (mk_as 0) 0 0 0 Hinv Hnp Hslot)
      as (Hi & Hn & _). split; [done|]. lia.
  - split; [by apply reap_inv|]. destruct Hinv as (l0 & _ & _ & Hsh0 & _).
    destruct (reap_fields s l0 _ Hsh0) as (_ & F2 & _). lia.
Qed.

Lemma exit_inv s code o s' : proc_inv g s -> process_exit_with_code g code s = (o, s') ->
  proc_inv g s' /\ g_next_pid s' = g_next_pid s.
Proof.
  intros Hinv E. pose proof Hinv as (l & c & pc & Hsh & Hru & Hc & Hpc & Hstc).
  unfold process_exit_with_code in E. rewrite (ru_cur _ _ _ Hru) in E. simpl in E.
  rewrite Hpc in E. simpl in E. destruct (pid pc =? 0); [by injection E as [= _ <-]|].
  set (s1 := with_exit_code code (upd c (set_exit_code code) s)) in *.
  assert (Hinv1 : proc_inv g s1).
  { exists l, c, (set_exit_code code pc). split; [|split; [|split; [exact Hc|split; [|exact Hstc]]]].
    - apply (shape_alter (g_procs s)); [by intros q|exact Hsh].
    - destruct (upd_runs s c c (set_exit_code code)) as [R1 R2 R3 R4]; [done|by intros q; right| |done|].
      + intros _ p Hp. exact (ru_idle _ _ _ Hru p Hp).
      + by split.
    - cbn [g_procs s1 with_exit_code upd with_procs]. by rewrite list_lookup_alter_eq, Hpc. }
  destruct (process_terminate g (pid pc) s1) as [o1 s2] eqn:E1.
  destruct (terminate_inv s1 _ o1 s2 Hinv1 E1) as (Hi2 & Hn2 & _).
  assert (s' = s2) as -> by (destruct o1; by injection E). done.
Qed.

(** ** The steps of the system *)

(** What runs on the processor: the operations of the module, the timer, and
    any work that keeps the identity, the state and the page tables of every
    process (system calls on handles, memory, files). *)
Inductive proc_step : psys S V F -> psys S V F -> Prop :=
| st_create s s' entry arg r : process_create g entry arg s = (r, s') -> proc_step s s'
| st_create_user s s' as_ e st hp r : process_create_user g as_ e st hp s = (r, s') -> proc_step s s'
| st_schedule s s' o : schedule g s = (o, s') -> proc_step s s'
| st_terminate s s' x o : process_terminate g x s = (o, s') -> proc_step s s'
| st_exit s s' code o : process_exit_with_code g code s = (o, s') -> proc_step s s'
| st_sleep s s' t o : process_sleep_ticks g t s = (o, s') -> proc_step s s'
| st_reap s : proc_step s (process_reap_terminated s)
| st_tick s : proc_step s
    (mk_psys (g_procs s) (process_list s) (current_process s) (g_next_pid s) (g_last_exit_code s)
       (cr3 s) (tss_rsp0 s) (cpu_rsp s) (timer_tick s + 1) (ps_fa s) (ps_vfs s))
| st_work s i f fa v : same_id f ->
    (forall p, state (f p) = state p /\ addrspace (f p) = addrspace p) ->
    proc_step s (with_vfs v (with_fa fa (upd i f s))).

Lemma work_inv s i f fa v : same_id f ->
  (forall p, state (f p) = state p /\ addrspace (f p) = addrspace p) ->
  proc_inv g s -> proc_inv g (with_vfs v (with_fa fa (upd i f s))).
Proof.
  intros Hf Hs (l & c & p & Hsh & Hru & Hc & Hp & Hst).
  assert (Hru' : runs g (upd i f s) c).
  { apply upd_runs; [by intros q; destruct (Hs q)| | |done].
    - intros q. destruct (Hs q) as [-> _]. by right.
    - intros -> q. destruct (Hs q) as [-> _]. apply (ru_idle _ _ _ Hru). }
  destruct Hru' as [R1 R2 R3 R4].
  exists l, c, (if decide (i = c) then f p else p). split; [by apply (shape_alter (g_procs s))|].
  split; [by split|]. split; [done|]. split.
  - cbn [g_procs with_vfs with_fa upd with_procs]. rewrite lookup_alter_cases, Hp. by case_decide.
  - case_decide; [|done]. by rewrite (proj1 (Hs p)).
Qed.

Lemma proc_step_inv s s' : proc_step s s' -> proc_inv g s -> g_next_pid s + 1 < 2 ^ 32 ->
  proc_inv g s' /\ g_next_pid s <= g_next_pid s' <= g_next_pid s + 1.
Proof.
  intros Hst Hinv Hnp. destruct Hst as [s s' entry arg r E|s s' as_ e st hp r E|s s' o E|s s' x o E
    |s s' code o E|s s' t o E|s|s|s i f fa v Hf Hs].
  - by eapply proc_create_run.
  - by eapply create_user_run.
  - destruct (schedule_inv s o s' Hinv E) as [? ->]. split; [done|lia].
  - destruct (terminate_inv s x o s' Hinv E) as (? & -> & _). split; [done|lia].
  - destruct (exit_inv s code o s' Hinv E) as [? ->]. split; [done|lia].
  - destruct (sleep_inv s t o s' Hinv E) as [? ->]. split; [done|lia].
  - split; [by apply reap_inv|]. destruct Hinv as (l0 & _ & _ & Hsh0 & _).
    destruct (reap_fields s l0 _ Hsh0) as (_ & F2 & _). unfold process_reap_terminated. lia.
  - split; [|simpl; lia]. destruct Hinv as (l & c & p & Hsh & [R1 R2 R3 R4] & Hrest).
    exists l, c, p. split; [exact Hsh|]. split; [by split|exact Hrest].
  - split; [by apply work_inv|simpl; lia].
Qed.

Lemma init_inv s s' : process_list s = None -> g_next_pid s = 1 -> cr3 s = paging_kernel_cr3 g ->
  process_init s = (Nok, s') -> proc_inv g s' /\ g_next_pid s' = 1.
Proof.
  intros Hl Hn Hcr E. unfold process_init in E. rewrite Hl in E. injection E as [= <-].
  split; [|done]. set (idle := mk_process _ _ _ _ _ _ _ _ _ _ _ _ _ _ _ _ _ _).
  assert (Hlk : forall i p, (<[0%nat := idle]> (replicate PROCESS_MAX zero_process)) !! i = Some p ->
    (i = 0%nat /\ p = idle) \/ (i <> 0%nat /\ p = zero_process)).
  { intros [|i] p; simpl; [left; split; congruence|]. intros Hi. right. split; [done|].
    apply (lookup_replicate_1 15 (zero_process (F := F)) p i) in Hi. by destruct Hi. }
  exists [0%nat], 0%nat, idle. split_and!.
  - split; cbn [g_procs process_list with_current with_list with_procs g_next_pid].
    + lia.
    + done.
    + split; [done|]. by exists idle.
    + apply NoDup_singleton.
    + done.
    + intros i p [[-> ->]|[Hi ->]]%Hlk; rewrite list_elem_of_singleton; simpl; [done|]. by split.
    + by intros p [[_ ->]|[? _]]%Hlk.
    + by intros i p _ ->%list_elem_of_singleton.
    + intros i j p q ->%list_elem_of_singleton ->%list_elem_of_singleton. done.
  - split; cbn [g_procs current_process with_current with_list with_procs cr3].
    + done.
    + intros p [[_ ->]|[? _]]%Hlk; [|done]. by rewrite Hcr.
    + intros i p [[-> ->]|[_ ->]]%Hlk; done.
    + intros p [[_ ->]|[? _]]%Hlk; [|done]. by right.
  - by left.
  - done.
  - done.
Qed.

(** ** The properties *)

(** C21: from [process_init] on, whatever sequence of fewer than [2^32 - 2]
    operations runs (creations, yields, terminations, exits, sleeps, reaping,
    timer ticks, work of the processes), the process list holds exactly the
    slots in use, without repetition and headed by the idle process; pids are
    distinct; exactly one process is marked running, it is the current one,
    and the page tables loaded in CR3 are its own. *)
Theorem process_invariant (s0 s1 s : psys S V F) (n : nat) :
  process_list s0 = None -> g_next_pid s0 = 1 -> cr3 s0 = paging_kernel_cr3 g ->
  process_init s0 = (Nok, s1) -> nsteps proc_step n s1 s -> Z.of_nat n < 2 ^ 32 - 2 ->
  proc_inv g s /\ g_next_pid s <= Z.of_nat n + 1.
Proof.
  intros Hl Hn Hcr E Hsteps Hlt. destruct (init_inv s0 s1 Hl Hn Hcr E) as [Hinv Hn1].
  cut (proc_inv g s /\ g_next_pid s <= g_next_pid s1 + Z.of_nat n); [intros [? ?]; split; [done|lia]|].
  assert (Hb : g_next_pid s1 + Z.of_nat n < 2 ^ 32 - 1) by lia. clear -Hsteps Hinv Hb.
  induction Hsteps as [x|n x y z Hst Hsteps IH]; [split; [done|lia]|].
  destruct (proc_step_inv x y Hst Hinv ltac:(lia)) as [Hy Hny].
  destruct (IH Hy ltac:(lia)) as [Hz Hnz]. split; [done|lia].
Qed.

(** C22: the scheduler is round robin: [schedule()] looks once at each other
    process, in list order starting after the current one, and switches to the
    first that is ready or whose sleep is over - loading its page tables,
    marking it running and the former one ready; if there is none, it returns
    and changes nothing. *)
Theorem schedule_round_robin (s : psys S V F) (b a : list nat) (c : nat) :
  shape (g_procs s) (process_list s) (b ++ c :: a) (g_next_pid s) -> runs g s c ->
  match first_runnable s (a ++ b) with
  | Some n => exists s' p q, schedule g s = (Away, s') /\ proc_inv g s' /\
      g_procs s !! n = Some p /\ (state p = PROCESS_READY \/ due (timer_tick s) p = true) /\
      current_process s' = Some n /\ g_procs s' !! n = Some q /\ state q = PROCESS_RUNNING /\
      cr3 s' = cr3_of g p /\
      (forall r, g_procs s !! c = Some r -> state r = PROCESS_RUNNING ->
         state <$> g_procs s' !! c = Some PROCESS_READY)
  | None => schedule g s = (Returned Nok, s) /\
      (forall i, i ∈ a ++ b -> runnable s i = false)
  end.
Proof.
  intros Hsh Hru. pose proof (schedule_run g s c a b Hsh Hru) as Hs.
  destruct (first_runnable s (a ++ b)) as [n|] eqn:Ef.
  - destruct Hs as (p & Hp & Hin & Hne & E & Hinv). destruct (elem_of_first_runnable _ _ _ Ef) as [_ Hrn].
    set (s' := switched g s c n (is_due s n) p) in *.
    assert (Hnl : n ∈ b ++ c :: a) by (rewrite elem_of_app, elem_of_cons; rewrite elem_of_app in Hin; tauto).
    destruct (shape_lookup _ _ _ _ n (switched_shape g s c n (is_due s n) p _ _ _ Hsh) Hnl) as [q Hq].
    destruct (switched_lookup g s c n _ p n q Hne Hq) as (x & _ & _ & Hc).
    exists s', p, q. split; [exact E|]. split; [exact Hinv|]. split; [exact Hp|].
    split; [|split; [reflexivity|split; [exact Hq|split; [|split; [reflexivity|]]]]].
    + unfold runnable in Hrn. rewrite Hp in Hrn. apply andb_true_iff in Hrn as [_ Hd].
      apply orb_true_iff in Hd as [Hd|Hd]; [by right|left; by bool_simpl].
    + destruct Hc as [[_ Hx]|[[Hx _]|[Hx _]]]; [exact Hx|by destruct Hne|by destruct Hx].
    + intros r Hr Hst. assert (Hcl : c ∈ b ++ c :: a) by (apply elem_of_app; right; by left).
      destruct (shape_lookup _ _ _ _ c (switched_shape g s c n (is_due s n) p _ _ _ Hsh) Hcl) as [r' Hr'].
      fold s' in Hr'. rewrite Hr'. simpl. f_equal.
      destruct (switched_lookup g s c n _ p c r' Hne Hr') as (y & Hy & _ & Hcc).
      assert (y = r) as -> by congruence.
      destruct Hcc as [[? _]|[[_ ->]|(_ & ? & _)]]; [done| |done]. by rewrite decide_True.
  - split; [done|]. intros i Hi. destruct (runnable s i) eqn:Er; [|done].
    destruct (first_runnable_exists s _ i Hi Er) as [m Hm]. congruence.
Qed.

(** One process goes; what the others are then.  Each is as it was, apart from
    the one that now has the processor, which was ready or whose sleep was over;
    the list and the frames in use stay. *)
Definition takes_over (s s' : psys S V F) (j : nat) (q q' : process_t F) : Prop :=
  current_process s' = Some j /\
  (state q = PROCESS_READY /\ q' = set_state PROCESS_RUNNING q \/
   due (timer_tick s) q = true /\ q' = set_state PROCESS_RUNNING (wake q)).
Definition others_kept (s s' : psys S V F) (c : nat) : Prop :=
  ps_fa s' = ps_fa s /\ process_list s' = process_list s /\ g_next_pid s' = g_next_pid s /\ timer_tick s' = timer_tick s /\
  forall j q, j <> c -> g_procs s !! j = Some q -> exists q', g_procs s' !! j = Some q' /\ (q' = q \/ takes_over s s' j q q').

Lemma switched_others s c n p : runnable s n = true -> n <> c -> others_kept s (switched g s c n (is_due s n) p) c.
Proof.
  intros Hr Hn. do 4 (split; [done|]). intros j q Hj Hq. cbn [g_procs switched]. rewrite list_lookup_alter_ne by done.
  unfold runnable in Hr. destruct (decide (j = n)) as [->|Hjn].
  - rewrite list_lookup_alter_eq, list_lookup_alter_ne by done. rewrite Hq in Hr. unfold is_due. rewrite Hq. destruct (due _ q) eqn:Ed.
    + rewrite list_lookup_alter_eq, Hq. eexists. split; [done|]. right. split; [done|]. by right.
    + rewrite Hq. eexists. split; [done|]. right. split; [done|]. left. apply andb_true_iff in Hr as [_ Hr].
      rewrite orb_false_l in Hr. apply bool_decide_eq_true in Hr. by split.
  - exists q. split; [|by left]. rewrite !list_lookup_alter_ne by done. by destruct (is_due s n); rewrite ?list_lookup_alter_ne by done.
Qed.

(** A process that terminates itself hands the processor over. *)
Lemma terminate_self s l c p :
  shape (g_procs s) (process_list s) l (g_next_pid s) -> runs g s c -> c ∈ l ->
  g_procs s !! c = Some p -> pid p <> 0 -> state p <> PROCESS_TERMINATED ->
  exists s', process_terminate g (pid p) s = (Away, s') /\ proc_inv g s' /\
    current_process s' <> Some c /\ process_get_exit_code (pid p) s' = Ok (exit_code p) /\
    g_last_exit_code s' = g_last_exit_code s /\
    ps_vfs s' = (nx_handles_close_all (handles p, ps_vfs s)).2 /\ others_kept s s' c.
Proof.
  intros Hsh Hru Hc Hp Hpid Hst.
  assert (Hc0 : c <> 0%nat) by (rewrite (slot_pid s l _ c p Hsh Hc Hp); done).
  pose proof (terminate_eq s l _ c p Hsh Hc Hp Hpid Hst) as E.
  rewrite (ru_cur _ _ _ Hru), bool_decide_true in E by done.
  pose proof (killed_shape s c p l _ Hsh) as Hsh2. pose proof (killed_runs s c p c Hru Hc0) as Hru2.
  destruct (schedule_away g (killed s c p) l c Hsh2 Hru2 Hc Hc0) as (s3 & E3 & Hinv3 & n & q & Hs3 & Hne & Hrun).
  rewrite E3 in E. exists s3. split; [exact E|]. split; [exact Hinv3|]. split_and!.
  - rewrite Hs3. cbn [current_process switched]. congruence.
  - assert (Hsh3 : shape (g_procs s3) (process_list s3) l (g_next_pid s3)) by (rewrite Hs3; by apply switched_shape).
    destruct (shape_lookup _ _ _ _ c Hsh3 Hc) as [p3 Hp3].
    assert (Hfin : pid p3 = pid p /\ exit_code p3 = exit_code p /\ state p3 = PROCESS_TERMINATED).
    { rewrite Hs3 in Hp3. cbn [g_procs switched] in Hp3.
      rewrite list_lookup_alter_eq, list_lookup_alter_ne in Hp3 by done. rewrite list_lookup_alter_eq in Hp3.
      assert (Hw : forall b : bool, (if b then alter wake n (g_procs (killed s c p)) else g_procs (killed s c p)) !! c
        = g_procs (killed s c p) !! c) by (intros []; [by rewrite list_lookup_alter_ne|done]).
      rewrite Hw in Hp3. cbn [g_procs killed upd with_procs with_vfs] in Hp3.
      rewrite list_lookup_alter_eq, Hp in Hp3. injection Hp3 as [= <-].
      unfold yielded. by case_bool_decide. }
    destruct Hfin as (F1 & F2 & F3). unfold process_get_exit_code. rewrite <- F1.
    rewrite (find_pid_found s3 l _ c p3 Hsh3 Hc Hp3). cbn [mbind option_bind]. rewrite Hp3, F3.
    cbn. by rewrite F2.
  - rewrite Hs3. reflexivity.
  - rewrite Hs3. reflexivity.
  - rewrite Hs3. destruct (switched_others _ c n q Hrun Hne) as (? & ? & ? & ? & Ho). do 4 (split; [done|]). intros j x Hj Hx.
    apply Ho; [done|]. cbn [g_procs killed upd with_procs with_vfs]. by rewrite list_lookup_alter_ne.
Qed.

(** Exiting from a process other than idle. *)
Lemma exit_away (s : psys S V F) (c : nat) (p : process_t F) (code : Z) :
  proc_inv g s -> current_process s = Some c -> g_procs s !! c = Some p -> pid p <> 0 ->
  exists s', process_exit_with_code g code s = (Away, s') /\ proc_inv g s' /\
    current_process s' <> Some c /\ process_get_exit_code (pid p) s' = Ok code /\
    process_last_exit_code s' = code /\
    ps_vfs s' = (nx_handles_close_all (handles p, ps_vfs s)).2 /\ others_kept s s' c.
Proof.
  intros Hinv Hcur Hp Hpid. pose proof Hinv as (l & c' & pc & Hsh & Hru & Hc & Hpc & Hstc).
  assert (c' = c) as -> by (pose proof (ru_cur _ _ _ Hru); congruence).
  assert (pc = p) as -> by congruence. clear Hpc.
  assert (Hc0 : c <> 0%nat) by (rewrite (slot_pid s l _ c p Hsh Hc Hp); done).
  unfold process_exit_with_code. rewrite Hcur. cbn [mbind option_bind]. rewrite Hp.
  cbn [fmap option_fmap option_map].
  rewrite (proj2 (Z.eqb_neq _ _) Hpid). set (s1 := with_exit_code code (upd c (set_exit_code code) s)).
  assert (Hsh1 : shape (g_procs s1) (process_list s1) l (g_next_pid s1))
    by (apply (shape_alter (g_procs s)); [by intros q|exact Hsh]).
  assert (Hru1 : runs g s1 c).
  { destruct (upd_runs s c c (set_exit_code code)) as [R1 R2 R3 R4]; [done|by intros q; right| |done|by split].
    intros -> . done. }
  assert (Hp1 : g_procs s1 !! c = Some (set_exit_code code p))
    by (cbn [g_procs s1 with_exit_code upd with_procs]; by rewrite list_lookup_alter_eq, Hp).
  destruct (terminate_self s1 l c (set_exit_code code p) Hsh1 Hru1 Hc Hp1) as (s3 & E & Hi & Hn & Hg & Hl & Hv & Ho).
  - exact Hpid.
  - cbn [state set_exit_code]. by rewrite Hstc.
  - exists s3. change (pid (set_exit_code code p)) with (pid p) in E. rewrite E.
    split; [reflexivity|]. split; [exact Hi|]. split; [exact Hn|]. split; [exact Hg|]. split; [exact Hl|].
    split; [exact Hv|]. destruct Ho as (? & ? & ? & ? & Ho). do 4 (split; [done|]). intros j q Hj Hq. apply Ho; [done|].
    cbn [g_procs s1 with_exit_code upd with_procs]. by rewrite list_lookup_alter_ne.
Qed.

(** C23: a process other than idle that exits never comes back: the call always
    hands the processor to another process (it cannot panic, since idle can
    always run), the invariant holds, the dead process keeps its slot and its
    exit code can be read, and every file it had open was closed. *)
Theorem exit_never_returns (s : psys S V F) (c : nat) (p : process_t F) (code : Z) :
  proc_inv g s -> current_process s = Some c -> g_procs s !! c = Some p -> pid p <> 0 ->
  exists s', process_exit_with_code g code s = (Away, s') /\ proc_inv g s' /\
    current_process s' <> Some c /\ process_get_exit_code (pid p) s' = Ok code /\
    process_last_exit_code s' = code /\
    ps_vfs s' = (nx_handles_close_all (handles p, ps_vfs s)).2.
Proof.
  intros Hi Hc Hp Hpid. destruct (exit_away s c p code Hi Hc Hp Hpid) as (s' & ? & ? & ? & ? & ? & ? & _). by exists s'.
Qed.

(** C24: terminating another live process closes its files, unlinks it, frees
    its slot for reuse and gives back its address space (with those of the
    processes already dead), while the caller keeps the processor. *)
Theorem terminate_reclaims (s : psys S V F) (c i : nat) (p : process_t F) (l : list nat) :
  proc_inv g s -> shape (g_procs s) (process_list s) l (g_next_pid s) -> current_process s = Some c ->
  i ∈ l -> i <> c -> g_procs s !! i = Some p -> pid p <> 0 -> state p <> PROCESS_TERMINATED ->
  exists s', process_terminate g (pid p) s = (Returned Nok, s') /\ proc_inv g s' /\
    current_process s' = Some c /\ process_get_exit_code (pid p) s' = Err NnotFound /\
    g_procs s' !! i = Some zero_process /\
    ps_vfs s' = (nx_handles_close_all (handles p, ps_vfs s)).2 /\
    ps_fa s' = fold_left (destroy_space s)
      (filter (fun j => j = i \/ reapable s j) l) (ps_fa s).
Proof.
  intros Hinv Hsh Hcur Hi Hne Hp Hpid Hst.
  assert (Hci : bool_decide (current_process s = Some i) = false) by (apply bool_decide_eq_false; congruence).
  pose proof (terminate_eq s l _ i p Hsh Hi Hp Hpid Hst) as E. rewrite Hci in E.
  destruct (terminate_inv s (pid p) _ _ Hinv E) as (Hinv' & _ & _).
  pose proof (killed_shape s i p l _ Hsh) as Hsh1. set (s1 := killed s i p) in *.
  exists (process_reap s1). split; [done|]. split; [done|].
  destruct (reap_fields s1 l _ Hsh1) as (F1 & _ & _ & F4 & _ & _ & F7).
  assert (Hlk : forall j q, g_procs s !! j = Some q -> j <> i -> g_procs s1 !! j = Some q).
  { intros j q Hq Hji. cbn [g_procs s1 killed upd with_procs with_vfs]. by rewrite list_lookup_alter_ne. }
  set (p1 := set_state PROCESS_TERMINATED (set_handles (nx_handles_close_all (handles p, ps_vfs s)).1 p)).
  assert (Hi1 : g_procs s1 !! i = Some p1)
    by (cbn [g_procs s1 killed upd with_procs with_vfs]; by rewrite list_lookup_alter_eq, Hp).
  assert (Hre : forall j, j ∈ l -> reapable s1 j <-> j = i \/ reapable s j).
  { intros j Hj. destruct (shape_lookup _ _ _ _ j Hsh Hj) as [q Hq]. unfold reapable.
    destruct (decide (j = i)) as [->|Hji].
    - rewrite Hi1. split; [by left|]. intros _. split; [done|]. split; [|done]. simpl. congruence.
    - rewrite (Hlk j q Hq Hji), Hq. change (current_process s1) with (current_process s). tauto. }
  assert (Hdead : dead s1 l = filter (fun j => j = i \/ reapable s j) l)
    by (apply list_filter_ext; intros; by apply Hre).
  split; [by rewrite F1|]. split_and!.
  - unfold process_get_exit_code.
    pose proof (find_pid_shape _ _ _ (pid p) (reap_shape s1 l _ Hsh1)) as Hf.
    destruct (find_pid _ _ _ _) as [j|]; [|done]. destruct Hf as (Hj & q' & Hq' & Hpq).
    exfalso. apply list_elem_of_filter in Hj as [Hnr Hj]. apply Hnr, Hre; [done|]. left.
    destruct (unlinked_lookup s1 _ _ _ j q' (reap_unlinked s1 l _ Hsh1) Hq') as (q & Hq & Hc).
    destruct Hc as [[Hd _]|[_ [x ->]]].
    { apply list_elem_of_filter in Hd. tauto. }
    apply (sh_inj _ _ _ _ Hsh1 j i q p1); done.
  - destruct (reap_unlinked s1 l _ Hsh1) as (procs' & h' & fa' & Eq & _ & _ & Hz & _).
    specialize (Hz i p1 Hi1). rewrite decide_True in Hz; [by rewrite Eq|].
    apply list_elem_of_filter. split; [|done]. apply Hre; [done|by left].
  - by rewrite F4.
  - rewrite F7, Hdead. apply fold_left_ext_in. intros fa j _. unfold destroy_space.
    destruct (decide (j = i)) as [->|Hji]; [by rewrite Hi1, Hp|].
    cbn [g_procs s1 killed upd with_procs with_vfs]. by rewrite list_lookup_alter_ne.
Qed.

(** A process other than idle that sleeps gives the processor away at once
    (the [Ninterrupted] path is never taken), is blocked with a wake-up tick
    at least one tick ahead, and the scheduler does not choose it before that
    tick but may from then on. *)
Theorem sleep_until_due (s : psys S V F) (c : nat) (p : process_t F) (t : Z) :
  proc_inv g s -> current_process s = Some c -> g_procs s !! c = Some p -> pid p <> 0 ->
  0 <= t -> 0 <= timer_tick s -> timer_tick s + t + 1 < 2 ^ 64 ->
  exists s' p', process_sleep_ticks g t s = (Away, s') /\ proc_inv g s' /\
    g_procs s' !! c = Some p' /\ state p' = PROCESS_BLOCKED /\
    wake_tick p' = timer_tick s + Z.max t 1 /\
    forall tick, due tick p' = true <-> timer_tick s + Z.max t 1 <= tick.
Proof.
  intros Hinv Hcur Hp Hpid Ht Htick Hlim. pose proof Hinv as (l & c' & pc & Hsh & Hru & Hc & Hpc & Hstc).
  assert (c' = c) as -> by (pose proof (ru_cur _ _ _ Hru); congruence).
  assert (Hc0 : c <> 0%nat) by (rewrite (slot_pid s l _ c p Hsh Hc Hp); done).
  unfold process_sleep_ticks. rewrite Hcur. simpl. rewrite Hp. simpl.
  rewrite (proj2 (Z.eqb_neq _ _) Hpid). set (w := u64 _).
  assert (Hw : w = timer_tick s + Z.max t 1).
  { unfold w. destruct (t =? 0) eqn:E0; simpl; bool_simpl; (rewrite uw_small; lia). }
  clearbody w. subst w. set (w := timer_tick s + Z.max t 1). fold (dozing s c w).
  destruct (dozing_away s l c w Hsh Hru Hc Hc0) as (s2 & E2 & Hi2 & n & q & Hs2 & Hne).
  rewrite E2. assert (Hp2 : exists rsp, g_procs s2 !! c =
    Some (set_kernel_rsp rsp (set_state PROCESS_BLOCKED (set_wake_tick w p)))).
  { eexists. rewrite Hs2. cbn [g_procs switched].
    rewrite list_lookup_alter_eq, list_lookup_alter_ne by done. rewrite list_lookup_alter_eq.
    assert (Hd : forall b : bool, (if b then alter wake n (g_procs (dozing s c w)) else g_procs (dozing s c w)) !! c
      = g_procs (dozing s c w) !! c) by (intros []; [by rewrite list_lookup_alter_ne|done]).
    rewrite Hd. cbn [g_procs dozing upd with_procs]. by rewrite list_lookup_alter_eq, Hp. }
  destruct Hp2 as [rsp Hp2]. eexists s2, _. split; [done|]. split; [done|]. split; [exact Hp2|].
  split_and!; [done|done|]. intros tick. unfold due. simpl.
  rewrite (proj2 (sh_used _ _ _ _ Hsh _ _ Hp) Hc). simpl. subst w. lia.
Qed.

(** [process_create_user] fails with [NprocessFailed] only when, the dead
    reaped, all sixteen slots are in use; otherwise the new process is ready,
    owns the address space, starts at the given entry with an empty heap and
    the three console handles, and has a pid nobody has or had. *)
Theorem create_user_spec (s : psys S V F) (as_ : addr_space_t) (entry ustack heap : Z) :
  proc_inv g s -> g_next_pid s + 1 < 2 ^ 32 -> pml4 as_ <> 0 ->
  match process_create_user g as_ entry ustack heap s with
  | (Err e, s') => e = NprocessFailed /\ s' = process_reap s /\
      exists l, shape (g_procs s') (process_list s') l (g_next_pid s') /\ length l = PROCESS_MAX
  | (Ok x, s') => proc_inv g s' /\ x = g_next_pid s /\ g_next_pid s' = x + 1 /\
      (forall i p, g_procs s !! i = Some p -> in_use p = true -> pid p <> x) /\
      exists slot p, find_pid PROCESS_MAX (g_procs s') (process_list s') x = Some slot /\
        g_procs s' !! slot = Some p /\
        fresh_process g slot 0 (user_process_entry_thunk g) as_ entry ustack heap x
          (nx_handles_init (V := V)) p
  end.
Proof.
  intros Hinv Hnp Has. unfold process_create_user. rewrite (proj2 (Z.eqb_neq _ _) Has).
  destruct (inv_list s Hinv) as [h ->].
  pose proof Hinv as (l0 & c0 & p0 & Hsh0 & _).
  destruct (reap_fields s l0 _ Hsh0) as (_ & F2 & _). pose proof (reap_shape s l0 _ Hsh0) as Hshr.
  rewrite <- F2 in Hshr.
  destruct (find_slot (process_reap s)) as [slot|] eqn:Hslot.
  - rewrite F2. destruct (create_installs s slot 0 (user_process_entry_thunk g) as_ entry ustack heap Hinv Hnp Hslot)
      as (Hi & Hn & p & Hp & Hfr).
    set (s' := install_process _ _ _ _ _ _ _ _ _) in *. clearbody s'. split_and!; try done.
    + intros i q Hq Hu. apply (sh_used _ _ _ _ Hsh0 _ _ Hq) in Hu.
      destruct (decide (i = 0%nat)) as [->|Hi0].
      * rewrite (sh_idle _ _ _ _ Hsh0 _ Hq). pose proof (sh_np _ _ _ _ Hsh0). lia.
      * pose proof (sh_pid _ _ _ _ Hsh0 _ _ Hq Hu Hi0). lia.
    + exists slot, p. split; [|by split]. destruct Hi as (l & _ & _ & Hsh & _).
      rewrite <- (sh_len _ _ _ _ Hsh), <- (proj1 Hfr). apply (find_pid_found s' l _ slot p Hsh); [|done].
      apply (sh_used _ _ _ _ Hsh _ _ Hp). by destruct Hfr as (_ & _ & ? & _).
  - split_and!; [done|done|]. exists (kept s l0). split; [done|]. by eapply find_slot_none.
Qed.
End props.
