(* ===== verification/ProcessExamples.v ===== *)
(** * Address spaces and processes over the frame allocator

    A run of three operations - start, one kernel thread, one switch - at the
    instance of [Pfa], with files that are numbers and a log of their closing. *)

From S2P Require Import Prelude Types Mem Memory FrameAlloc Pfa Paging PagingSpec AddrSpace SpaceLife Handles Process ProcessInv ProcessProps.

(** ** Address spaces

    The theorems of [SpaceLife] at the instance of [Pfa], on a free list of
    seven frames. *)

Definition ex_frames : list Z := [0x10000; 0x11000; 0x12000; 0x13000; 0x14000; 0x15000; 0x16000].
Definition ex_s0 : pfa_st :=
  fold_left (fun s p => push_free_locked p s) (rev ex_frames) (mk_pfa ∅ 0 0 true).
Definition ex_g : paging_globals := mk_paging_globals (KERNEL_VMA_BASE + 0x200000) true.
Definition ex_root : Z := 0x10000.
Definition ex_as : addr_space_t := mk_as (phys_to_virt ex_root).
Definition ex_free_frames : list Z := tail ex_frames.

Lemma ex_s0_rep : fa_rep ex_s0 ex_frames.
Proof.
  destruct (push_frames_rep (rev ex_frames) (mk_pfa ∅ 0 0 true) []) as [Hr _].
  - by split_and!; try apply NoDup_nil_2.
  - by apply (bool_decide_unpack _); vm_compute.
  - by apply (bool_decide_unpack _); vm_compute.
  - set_solver.
  - done.
Qed.

(** The states along a run: a space, a frame, the frame mapped at 16 MiB. *)
Definition ex_s1 : pfa_st := (paging_addrspace_create ex_g ex_s0).2.
Definition ex_s2 : pfa_st := (fa_alloc ex_s1).2.
Definition ex_flags : Z := Z.lor PAGE_RW PAGE_NX.
Definition ex_v : Z := 0x1000000.
Definition ex_s3 : pfa_st := (paging_map_page ex_g (Some ex_as) 0x11000 ex_v ex_flags ex_s2).2.

Lemma ex_create : paging_addrspace_create ex_g ex_s0 = (Ok ex_as, ex_s1).
Proof. unfold ex_s1. apply pair_fst. by vm_compute. Qed.
Lemma ex_alloc : fa_alloc ex_s1 = (Ok 0x11000, ex_s2).
Proof. unfold ex_s2. apply pair_fst. by vm_compute. Qed.
Lemma ex_map : paging_map_page ex_g (Some ex_as) 0x11000 ex_v ex_flags ex_s2 = (Ok tt, ex_s3).
Proof. unfold ex_s3. apply pair_fst. by vm_compute. Qed.

Lemma ex_run : rtc (use_step ex_g ex_root) (ex_s1, []) (ex_s3, []).
Proof.
  assert (Hv : word ex_v) by done. assert (Hf : word ex_flags) by done.
  exact (rtc_l _ _ _ _ (use_alloc ex_g ex_root _ _ [] _ ex_alloc)
    (rtc_once _ _ (use_map ex_g ex_root ex_s2 ex_s3 [] [] 0x11000 ex_v ex_flags Hv Hf ex_map))).
Qed.

Lemma ex_sep a : g_pml4 ex_g <= a < g_pml4 ex_g + PAGE_SIZE -> ~ in_frame ex_root a.
Proof.
  unfold in_frame. change (phys_to_virt ex_root) with (ex_root + HHDM_BASE).
  unfold ex_g, ex_root, KERNEL_VMA_BASE, HHDM_BASE, PAGE_SIZE. simpl. lia.
Qed.

(** The run, its states kept abstract. *)
Lemma ex_life :
  exists s1 s3, paging_addrspace_create ex_g ex_s0 = (Ok (mk_as (phys_to_virt ex_root)), s1) /\
    rtc (use_step ex_g ex_root) (s1, []) (s3, []) /\
    hw_leaf (fa_mem s3) (phys_to_virt ex_root) ex_v = Some 0x8000000000011007.
Proof.
  exists ex_s1, ex_s3. split; [exact ex_create|]. split; [exact ex_run|]. by vm_compute.
Qed.

Lemma ex_g_ok : g_pml4 ex_g <> 0.
Proof. done. Qed.

Lemma addrspace_no_leak_witness :
  exists s3 s' l', paging_addrspace_destroy (mk_as (phys_to_virt ex_root)) s3 = (mk_as 0, s') /\
    fa_rep s' l' /\ l' ≡ₚ ex_root :: ex_free_frames.
Proof.
  destruct ex_life as (s1 & s3 & E1 & Hr & _).
  destruct (addrspace_no_leak ex_g ex_s0 s1 s3 ex_root ex_free_frames [] ex_s0_rep ex_g_ok E1 Hr)
    as (s' & l' & E & Hr' & Hp).
  exists s3, s', l'. split; [exact E|]. split; [exact Hr'|exact Hp].
Defined.

Lemma addrspace_write_xor_execute_witness :
  exists s3 e, hw_leaf (fa_mem (S := pfa_st) s3) (phys_to_virt ex_root) ex_v = Some e /\
    Z.land e ENTRY_ADDR_MASK = 0x11000 /\ tst e PAGE_NX = true.
Proof.
  destruct ex_life as (s1 & s3 & E1 & Hr & E).
  assert (Hv : 0 <= ex_v < USER_SPACE_END) by done.
  pose proof (addrspace_write_xor_execute ex_g ex_s0 s1 s3 ex_root ex_free_frames [] ex_v _
    ex_s0_rep ex_g_ok eq_refl E1 Hr Hv E) as [_ Hx].
  exists s3, 0x8000000000011007. split; [exact E|]. split; [done|]. apply Hx. done.
Defined.

Lemma create_shares_kernel_witness :
  exists s', paging_addrspace_create ex_g ex_s0 = (Ok ex_as, s') /\
    hw_leaf (fa_mem s') (phys_to_virt ex_root) ex_v = None.
Proof.
  destruct (create_shares_kernel ex_g ex_s0 ex_root ex_free_frames) as (s' & E & _ & _ & Hn & _).
  - apply ex_s0_rep.
  - done.
  - apply ex_sep.
  - exists s'. split; [done|]. by apply Hn.
Defined.

(** The abstract space of [ex_s1]: no page. *)
Lemma ex_s1_sys : sys ex_s1 (space0 ex_root) ex_free_frames.
Proof.
  destruct (create_run ex_g ex_s0 ex_root ex_free_frames) as (s' & E & Hs & _); [apply ex_s0_rep|done|].
  rewrite ex_create in E. by injection E as [= ->].
Qed.

Lemma ex_space : exists s1 : pfa_st, sys s1 (space0 ex_root) ex_free_frames.
Proof. exists ex_s1. exact ex_s1_sys. Qed.

Lemma map_page_refines_witness :
  exists s' G' l', paging_map_page ex_g (Some ex_as) 0x20000 ex_v ex_flags ex_s1 = (Ok tt, s') /\
    sys s' G' l' /\ leaves G' !! path ex_v = Some 0x8000000000020007.
Proof.
  destruct (map_page_refines ex_g ex_s1 (space0 ex_root) ex_free_frames ex_root 0x20000 ex_v ex_flags)
    as (r & s' & G' & l' & E & Hs & _ & _ & _ & Hr); [apply ex_s1_sys|done|done..|].
  assert (Er : (paging_map_page ex_g (Some ex_as) 0x20000 ex_v ex_flags ex_s1).1 = Ok tt)
    by by vm_compute.
  unfold ex_as in Er. rewrite E in Er. simpl in Er. subst r. exists s', G', l'.
  split; [exact E|]. split; [done|]. destruct Hr as (_ & _ & _ & _ & ->). by rewrite lookup_insert_eq.
Defined.

Lemma unmap_free_page_refines_witness :
  exists r s', paging_unmap_free_page (Some ex_as) ex_v ex_s1 = (r, s') /\ r = NinvalidArg.
Proof.
  destruct (unmap_free_page_refines ex_s1 (space0 ex_root) ex_free_frames ex_root ex_v)
    as (r & s' & E & Hr); [apply ex_s1_sys|done|done|done|].
  exists r, s'. split; [exact E|]. destruct (decide (upage ex_v)); by destruct Hr.
Defined.

Lemma is_user_range_exact_witness :
  exists s1 : pfa_st, sys s1 (space0 ex_root) ex_free_frames /\
    paging_is_user_range (fa_mem s1) (Some (mk_as (phys_to_virt ex_root))) ex_v 5 true = false.
Proof.
  destruct ex_space as (s1 & Hs). exists s1. split; [exact Hs|].
  assert (Hv : word ex_v) by done. assert (Hl : word 5) by done.
  pose proof (is_user_range_exact s1 (space0 ex_root) ex_free_frames ex_root ex_v 5 true Hs eq_refl Hv Hl)
    as [E _].
  apply not_true_iff_false. intros Ht. destruct (E Ht) as [Hc|[_ Hc]]; [discriminate|].
  assert (Hr : ex_v <= ex_v < ex_v + 5) by lia. specialize (Hc ex_v Hr). discriminate.
Defined.

(** ** Processes *)

#[local] Instance ex_files : FileLayer (list Z) Z := {
  file_zero := 0;
  file_close f log := f :: log;
}.

Definition ex_pg : proc_globals := mk_proc_globals (KERNEL_VMA_BASE + 0x300000) 0x111 0x222 ex_g.
Definition ex_p0 : psys pfa_st (list Z) Z :=
  mk_psys (replicate PROCESS_MAX zero_process) None None 1 0 (paging_kernel_cr3 ex_pg) 0 0 5 ex_s0 [].

Definition ex_p1 := (process_init ex_p0).2.
Definition ex_p2 := (process_create ex_pg 0x4000 7 ex_p1).2.
Definition ex_p3 := (schedule ex_pg ex_p2).2.

(** The run, its states kept abstract. *)
Lemma ex_proc_run :
  exists p1 p2 p3 : psys pfa_st (list Z) Z,
    process_init ex_p0 = (Nok, p1) /\ process_create ex_pg 0x4000 7 p1 = (Nok, p2) /\
    schedule ex_pg p2 = (Away, p3) /\ g_next_pid p2 = 2 /\ current_process p2 = Some 0%nat /\
    current_process p3 = Some 1%nat /\ timer_tick p3 = 5 /\ g_next_pid p3 = 2 /\
    (exists q, g_procs p3 !! 1%nat = Some q /\ pid q = 1 /\ handles q = nx_handles_init (V := list Z)) /\
    ps_vfs p3 = [] /\
    (exists q, g_procs p2 !! 1%nat = Some q /\ pid q = 1 /\ state q = PROCESS_READY /\ in_use q = true).
Proof.
  exists ex_p1, ex_p2, ex_p3.
  split; [unfold ex_p1; apply pair_fst; by vm_compute|].
  split; [unfold ex_p2; apply pair_fst; by vm_compute|].
  split; [unfold ex_p3; apply pair_fst; by vm_compute|].
  split_and!; try by vm_compute.
  - eexists. split; [by vm_compute|]. by split; vm_compute.
  - eexists. split; [by vm_compute|]. by split_and!; vm_compute.
Qed.

Lemma ex_p0_ok : process_list ex_p0 = None /\ g_next_pid ex_p0 = 1 /\ cr3 ex_p0 = paging_kernel_cr3 ex_pg.
Proof. by split_and!. Qed.

(** The invariant at the three states, by the lemmas on single steps. *)
Lemma ex_proc_inv p1 p2 p3 : process_init ex_p0 = (Nok, p1) ->
  process_create ex_pg 0x4000 7 p1 = (Nok, p2) -> schedule ex_pg p2 = (Away, p3) ->
  proc_inv ex_pg p1 /\ proc_inv ex_pg p2 /\ proc_inv ex_pg p3.
Proof.
  intros E1 E2 E3. destruct ex_p0_ok as (A & B & C).
  destruct (init_inv ex_pg ex_p0 p1 A B C E1) as [I1 N1].
  destruct (proc_create_run ex_pg p1 _ _ _ p2 I1 ltac:(lia) E2) as [I2 N2].
  by destruct (schedule_inv ex_pg p2 _ p3 I2 E3) as [I3 _].
Qed.

Lemma process_invariant_witness :
  exists p3 : psys pfa_st (list Z) Z, proc_inv ex_pg p3 /\ current_process p3 = Some 1%nat.
Proof.
  destruct ex_proc_run as (p1 & p2 & p3 & E1 & E2 & E3 & _ & _ & Hc & _).
  destruct ex_p0_ok as (A & B & C). exists p3. split; [|exact Hc].
  assert (Hlt : Z.of_nat 2 < 2 ^ 32 - 2) by lia.
  pose proof (nsteps_l _ 1 p1 p2 p3 (st_create ex_pg p1 p2 _ _ _ E2)
    (nsteps_l _ 0 p2 p3 p3 (st_schedule ex_pg p2 p3 _ E3) (nsteps_O _ _))) as Hn.
  exact (proj1 (process_invariant ex_pg ex_p0 p1 p3 2 A B C E1 Hn Hlt)).
Defined.

Lemma schedule_round_robin_witness :
  exists (p2 : psys pfa_st (list Z) Z) b a c, current_process p2 = Some c /\
    shape (g_procs p2) (process_list p2) (b ++ c :: a) (g_next_pid p2) /\
    (first_runnable p2 (a ++ b) = None -> schedule ex_pg p2 = (Returned Nok, p2)).
Proof.
  destruct ex_proc_run as (p1 & p2 & p3 & E1 & E2 & E3 & _).
  destruct (ex_proc_inv p1 p2 p3 E1 E2 E3) as (_ & (l & c & q & Hsh & Hru & Hc & _) & _).
  apply list_elem_of_split in Hc as (b & a & ->). exists p2, b, a, c.
  split; [apply Hru|]. split; [exact Hsh|]. intros Hn.
  pose proof (schedule_round_robin ex_pg p2 b a c Hsh Hru) as Hs. rewrite Hn in Hs. apply Hs.
Defined.

Lemma exit_never_returns_witness :
  exists p3 s' : psys pfa_st (list Z) Z, process_exit_with_code ex_pg 42 p3 = (Away, s') /\
    process_get_exit_code 1 s' = Ok 42.
Proof.
  destruct ex_proc_run as (p1 & p2 & p3 & E1 & E2 & E3 & _ & _ & Hc & _ & _ & (q & Hq & Hpid & _) & _).
  destruct (ex_proc_inv p1 p2 p3 E1 E2 E3) as (_ & _ & I3).
  assert (Hne : pid q <> 0) by lia.
  destruct (exit_never_returns ex_pg p3 1 q 42 I3 Hc Hq Hne) as (s' & E & _ & _ & Hx & _).
  exists p3, s'. split; [exact E|]. rewrite <- Hpid. exact Hx.
Defined.

Lemma terminate_reclaims_witness :
  exists p2 s' : psys pfa_st (list Z) Z, process_terminate ex_pg 1 p2 = (Returned Nok, s') /\
    g_procs s' !! 1%nat = Some zero_process.
Proof.
  destruct ex_proc_run as (p1 & p2 & p3 & E1 & E2 & E3 & _ & Hc & _ & _ & _ & _ & _ & (q & Hq & Hpid & Hst & Hiu)).
  destruct (ex_proc_inv p1 p2 p3 E1 E2 E3) as (_ & I2 & _).
  pose proof I2 as (l & c & pc & Hsh & _).
  assert (Hu : 1%nat ∈ l).
  { apply (sh_used _ _ _ _ Hsh 1%nat q Hq). exact Hiu. }
  assert (Hne : 1%nat <> 0%nat) by done. assert (Hnz : pid q <> 0) by lia.
  assert (Hnt : state q <> PROCESS_TERMINATED) by (rewrite Hst; done).
  destruct (terminate_reclaims ex_pg p2 0 1 q l I2 Hsh Hc Hu Hne Hq Hnz Hnt)
    as (s' & E & _ & _ & _ & Hz & _).
  exists p2, s'. rewrite Hpid in E. split; [exact E|exact Hz].
Defined.

Lemma sleep_until_due_witness :
  exists p3 s' q' , process_sleep_ticks (S := pfa_st) (V := list Z) (F := Z) ex_pg 10 p3 = (Away, s') /\
    g_procs s' !! 1%nat = Some q' /\ wake_tick q' = 15.
Proof.
  destruct ex_proc_run as (p1 & p2 & p3 & E1 & E2 & E3 & _ & _ & Hc & Ht & _ & (q & Hq & Hpid & _) & _).
  destruct (ex_proc_inv p1 p2 p3 E1 E2 E3) as (_ & _ & I3).
  assert (Hne : pid q <> 0) by lia. assert (H1 : 0 <= 10) by lia.
  assert (H2 : 0 <= timer_tick p3) by lia. assert (H3 : timer_tick p3 + 10 + 1 < 2 ^ 64) by lia.
  destruct (sleep_until_due ex_pg p3 1 q 10 I3 Hc Hq Hne H1 H2 H3) as (s' & q' & E & _ & Hq' & _ & Hw & _).
  exists p3, s', q'. split; [exact E|]. split; [exact Hq'|]. rewrite Hw, Ht. reflexivity.
Defined.

Lemma create_user_spec_witness :
  exists (p2 s' : psys pfa_st (list Z) Z) r,
    process_create_user ex_pg (mk_as 0x9000) 0x10000 0x20000 0x30000 p2 = (r, s') /\
    (forall x, r = Ok x -> x = 2 /\ proc_inv ex_pg s').
Proof.
  destruct ex_proc_run as (p1 & p2 & p3 & E1 & E2 & E3 & Hn & _).
  destruct (ex_proc_inv p1 p2 p3 E1 E2 E3) as (_ & I2 & _).
  assert (Hlt : g_next_pid p2 + 1 < 2 ^ 32) by lia.
  assert (Has : pml4 (mk_as 0x9000) <> 0) by done.
  pose proof (create_user_spec ex_pg p2 (mk_as 0x9000) 0x10000 0x20000 0x30000 I2 Hlt Has) as Hs.
  destruct (process_create_user ex_pg (mk_as 0x9000) 0x10000 0x20000 0x30000 p2) as [r s'] eqn:E.
  exists p2, s', r. split; [exact E|]. intros x ->. destruct Hs as (Hi & -> & _).
  split; [exact Hn|exact Hi].
Defined.
