(* ===== verification/Bytes.v ===== *)
(** * Byte strings

    Little-endian fields of on-disk and in-file structures, and C strings as
    the list of their bytes before the terminating NUL. *)

From S2P Require Import Prelude.

(** The value of little-endian bytes. *)
Fixpoint le (bs : list Z) : Z :=
  match bs with
  | [] => 0
  | b :: bs => b mod 256 + 256 * le bs
  end.

(** The [n] little-endian bytes of a value. *)
Fixpoint le_bytes (n : nat) (z : Z) : list Z :=
  match n with
  | O => []
  | S n => z mod 256 :: le_bytes n (z / 256)
  end.

(** The [n]-byte field at offset [off] of a packed structure. *)
Definition field (off n : nat) (bs : list Z) : Z := le (take n (drop off bs)).

(** The sub-array [[off, off + n)]. *)
Definition slice (off n : nat) (bs : list Z) : list Z := take n (drop off bs).

Lemma le_range bs : 0 <= le bs < 256 ^ Z.of_nat (length bs).
Proof.
  induction bs as [|b bs IH]; simpl; [lia|].
  rewrite Nat2Z.inj_succ, Z.pow_succ_r by lia. pose proof (Z.mod_pos_bound b 256 ltac:(lia)). lia.
Qed.

Lemma field_range off n bs : 0 <= field off n bs < 256 ^ Z.of_nat n.
Proof.
  unfold field. pose proof (le_range (take n (drop off bs))) as Hr.
  assert (Hl : (length (take n (drop off bs)) <= n)%nat) by (rewrite length_take; lia).
  assert (256 ^ Z.of_nat (length (take n (drop off bs))) <= 256 ^ Z.of_nat n)
    by (apply Z.pow_le_mono_r; lia). lia.
Qed.

#[export] Hint Resolve field_range : nyx_arith.

(** A byte string. *)
Definition is_bytes (bs : list Z) : Prop := Forall (fun b => 0 <= b < 256) bs.

Lemma length_le_bytes n z : length (le_bytes n z) = n.
Proof. revert z. induction n as [|n IH]; intros z; simpl; [done|]. by rewrite IH. Qed.

Lemma is_bytes_le_bytes n z : is_bytes (le_bytes n z).
Proof.
  revert z. induction n as [|n IH]; intros z; constructor; [apply Z.mod_pos_bound; lia|apply IH].
Qed.

Lemma le_le_bytes n z : le (le_bytes n z) = z mod 256 ^ Z.of_nat n.
Proof.
  revert z. induction n as [|n IH]; intros z; simpl; [by rewrite Z.mod_1_r|].
  rewrite IH, Nat2Z.inj_succ, Z.pow_succ_r, Z.mod_mod, Z.rem_mul_r by lia. done.
Qed.

Lemma le_bytes_le bs : is_bytes bs -> le_bytes (length bs) (le bs) = bs.
Proof.
  induction 1 as [|b bs Hb _ IH]; simpl; [done|]. rewrite (Z.mod_small b) by done.
  replace (b + 256 * le bs) with (le bs * 256 + b) by lia.
  rewrite Z.add_comm, Z.mod_add, Z.div_add by lia. rewrite Z.mod_small, Z.div_small by done. by rewrite Z.add_0_l, IH.
Qed.

(** Fields of a concatenation. *)
Lemma slice_skip a off n b : (length a <= off)%nat -> slice off n (a ++ b) = slice (off - length a) n b.
Proof. intros. unfold slice. by rewrite drop_app_ge by done. Qed.
Lemma slice_here a n b : length a = n -> slice 0 n (a ++ b) = a.
Proof. intros Hl. unfold slice. rewrite drop_0. by apply take_app_length'. Qed.
Lemma slice_all a n : length a = n -> slice 0 n a = a.
Proof. intros <-. unfold slice. rewrite drop_0. apply firstn_all. Qed.
Lemma field_slice off n bs : field off n bs = le (slice off n bs).
Proof. done. Qed.
Lemma le_bytes_small n z : 0 <= z < 256 ^ Z.of_nat n -> le (le_bytes n z) = z.
Proof. intros. rewrite le_le_bytes. by apply Z.mod_small. Qed.

#[export] Hint Resolve is_bytes_le_bytes : nyx.
#[export] Hint Rewrite length_le_bytes : nyx.

(** Decoding an encoded structure: each field is found after the ones before
    it. *)
Ltac decode_field :=
  rewrite ?field_slice;
  repeat (rewrite slice_skip by (rewrite ?length_le_bytes; cbn [length]; lia); rewrite ?length_le_bytes; cbn [Nat.sub]);
  first [rewrite slice_here by (rewrite ?length_le_bytes; done) | rewrite slice_all by (rewrite ?length_le_bytes; done)].


(** Encoding decoded fields gives their bytes back; adjacent slices join. *)
Lemma length_slice off n bs : (off + n <= length bs)%nat -> length (slice off n bs) = n.
Proof. intros. unfold slice. rewrite length_take, length_drop. lia. Qed.
Lemma is_bytes_slice off n bs : is_bytes bs -> is_bytes (slice off n bs).
Proof. intros H. unfold slice. by apply Forall_take, Forall_drop. Qed.
Lemma le_bytes_field off n bs : is_bytes bs -> (off + n <= length bs)%nat -> le_bytes n (field off n bs) = slice off n bs.
Proof.
  intros Hb Hl. rewrite field_slice. rewrite <- (length_slice off n bs) at 1 by done.
  apply le_bytes_le. by apply is_bytes_slice.
Qed.
Lemma slice_join off n m bs : slice off n bs ++ slice (off + n) m bs = slice off (n + m) bs.
Proof. unfold slice. rewrite <- drop_drop. apply take_take_drop. Qed.
Lemma slice_whole bs n : length bs = n -> slice 0 n bs = bs.
Proof. intros <-. unfold slice. rewrite drop_0. apply firstn_all. Qed.

(** Slices of a string around a middle part. *)
Lemma slice_before off n (a b : list Z) : (off + n <= length a)%nat -> slice off n (a ++ b) = slice off n a.
Proof.
  intros. unfold slice. rewrite drop_app_le by lia. by rewrite take_app_le by (rewrite length_drop; lia).
Qed.
Lemma slice_around off n (a x b : list Z) : (off <= length a)%nat -> (length a + length x <= off + n)%nat ->
  slice off n (a ++ x ++ b) = drop off a ++ x ++ take (off + n - length a - length x) b.
Proof.
  intros. unfold slice. rewrite drop_app_le by lia.
  rewrite (take_app_ge (drop off a)) by (rewrite length_drop; lia). rewrite take_app_ge by (rewrite length_drop; lia).
  do 2 f_equal. rewrite length_drop. f_equal. lia.
Qed.
Lemma slice_after off n (a x b : list Z) : (length a + length x <= off)%nat ->
  slice off n (a ++ x ++ b) = slice (off - length a - length x) n b.
Proof. intros. by rewrite !slice_skip by lia. Qed.
