(* ===== verification/FileIO.v ===== *)
(** * Open files as the loader and the system calls see them

    [vfs.h] gives its clients an open file ([handle_t]) with a position, and
    operations on it.  [elf.c], [spawn.c] and [syscall.c] are modelled over
    any type of files with the interface [FileIO]; what they rely on is the
    class [FileIOLaws].  The file [VfsFiles] gives the instance of
    [vfs.c] and the laws it has over FAT16 volumes. *)

From S2P Require Import Prelude Types Mem Handles.

(** The flags of an open. *)
(** [NX_O_READ]: include/nyx_abi.h:81-81 *)
Definition NX_O_READ : Z := 0x1.
(** [NX_O_WRITE]: include/nyx_abi.h:82-82 *)
Definition NX_O_WRITE : Z := 0x2.
(** [NX_O_MASK]: include/nyx_abi.h:83-83 *)
Definition NX_O_MASK : Z := 0x3.

(** [vfs_stat_t]: drivers/filesystem/vfs.h:22-26 *)
Record vfs_stat_t := mk_stat { st_size : Z; st_type : Z }.

(** [file_read n] is [vfs_read(handle, buffer, n, &got)]: its status, and the
    bytes it stored at the start of the buffer - on success, [got] of them. *)
Class FileIO (V F : Type) := {
  file_layer :: FileLayer V F;
  file_offset : F -> Z;
  file_set_offset : Z -> F -> F;
  file_open : list Z -> Z -> ST V (res F);
  file_read : Z -> ST (F * V) (Nerror * list Z);
  file_write : list Z -> ST (F * V) (res Z);
  file_stat : F -> ST V (res vfs_stat_t);
  file_reopen : F -> ST V (res F);
}.

(** [file_data v f d]: in state [v] the file [f] holds the bytes [d]; a read
    through it answers from them, at its position, and moves the position past
    them, or fails and leaves it; it does not fail when the files are
    [file_reliable]. *)
Class FileIOLaws (V F : Type) `{FileIO V F} := {
  file_data : V -> F -> list Z -> Prop;
  file_reliable : Prop;
  file_data_offset v f d off : file_data v f d -> file_data v (file_set_offset off f) d;
  file_offset_set off f : file_offset (file_set_offset off f) = off;
  file_data_size v f d : file_data v f d ->
    exists r v', file_stat f v = (r, v') /\ file_data v' f d /\
      match r with Ok st => st_size st = Z.of_nat (length d) | Err e => is_err e = true end;
  file_data_read v f d n : file_data v f d -> 0 <= file_offset f < 2 ^ 64 -> 0 <= n < 2 ^ 64 ->
    exists st bs f' v', file_read n (f, v) = ((st, bs), (f', v')) /\ file_data v' f' d /\
      (length bs <= Z.to_nat n)%nat /\
      file_offset f' = file_offset f + (if is_err st then 0 else Z.of_nat (length bs)) /\
      (is_err st = false ->
       st = Nok /\ bs = take (Z.to_nat n) (drop (Z.to_nat (file_offset f)) d)) /\
      (file_reliable -> is_err st = false);
}.
