(* ===== verification/Ramdisk.v ===== *)
(** * RAM disks: [drivers/ramdisk/ramdisk.c]

    A disk is a run of kernel memory; the table [g_ramdisks] says which.  The
    buffers of the transfers are addresses of the same memory.  A pointer to a
    slot of the table is its index; the address 0 is the null pointer.  The
    parameter [info], which every function ignores, is left out. *)

From S2P Require Import Prelude Types Mem Memory.

(** [ramdisk_t]: drivers/ramdisk/ramdisk.h:11-16 *)
Record ramdisk_t := mk_rd { rd_diskno : Z; rd_offset : Z; rd_size : Z; rd_is_used : bool }.

(** [RAMDISK_MAX]: drivers/ramdisk/ramdisk.h:18-18 *)
Definition RAMDISK_MAX : nat := 16.

(** The table and the memory. *)
Record rd_st := mk_rds { g_ramdisks : list ramdisk_t; rd_mem : mem }.

Definition zero_rd : ramdisk_t := mk_rd 0 0 0 false.
Definition rd_set_mem (m : mem) (s : rd_st) : rd_st := mk_rds (g_ramdisks s) m.

(** [ramdisk_find]: drivers/ramdisk/ramdisk.c:21-33 *)
Definition ramdisk_find (diskno : Z) (s : rd_st) : option (nat * ramdisk_t) :=
  list_find (fun rd => rd_is_used rd && (rd_diskno rd =? diskno) = true) (g_ramdisks s).

(** [range_within]: drivers/ramdisk/ramdisk.c:36-41 *)
Definition range_within (start size limit : Z) : bool :=
  if limit <? start then false else size <=? u64 (limit - start).

(** [ramdisk_init]: drivers/ramdisk/ramdisk.c:43-78 *)
Definition ramdisk_init (diskno ramdisk_start ramdisk_size : Z) : ST rd_st Nerror := fun s =>
  if (ramdisk_size =? 0) || (ramdisk_start =? 0) then (NinvalidArg, s)
  else if negb (range_within ramdisk_start ramdisk_size 0xFFFFFFFFFFFFFFFF) then (NinvalidArg, s)
  else
    match ramdisk_find diskno s with
    | Some _ => (NalreadyExists, s)
    | None =>
        match list_find (fun rd => rd_is_used rd = false) (g_ramdisks s) with
        | Some (i, _) =>
            (Nok, mk_rds (<[i := mk_rd diskno ramdisk_start ramdisk_size true]> (g_ramdisks s)) (rd_mem s))
        | None => (NtooManyFileSystem, s)
        end
    end.

(** [ramdisk_read]: drivers/ramdisk/ramdisk.c:80-106 *)
Definition ramdisk_read (diskno offset buffer size : Z) : ST rd_st Nerror := fun s =>
  match ramdisk_find diskno s with
  | None => (NnotFound, s)
  | Some (_, rd) =>
      if (buffer =? 0) || (size =? 0) then (NinvalidArg, s)
      else if negb (range_within offset size (rd_size rd)) then (Noverflow, s)
      else if negb (range_within buffer size 0xFFFFFFFFFFFFFFFF) then (NinvalidPointer, s)
      else (Nok, rd_set_mem (memcpy buffer (u64 (rd_offset rd + offset)) size (rd_mem s)) s)
  end.

(** [ramdisk_write]: drivers/ramdisk/ramdisk.c:108-134 *)
Definition ramdisk_write (diskno offset buffer size : Z) : ST rd_st Nerror := fun s =>
  match ramdisk_find diskno s with
  | None => (NnotFound, s)
  | Some (_, rd) =>
      if (buffer =? 0) || (size =? 0) then (NinvalidArg, s)
      else if negb (range_within offset size (rd_size rd)) then (Noverflow, s)
      else if negb (range_within buffer size 0xFFFFFFFFFFFFFFFF) then (NinvalidPointer, s)
      else (Nok, rd_set_mem (memcpy (u64 (rd_offset rd + offset)) buffer size (rd_mem s)) s)
  end.

(** [ramdisk_format]: drivers/ramdisk/ramdisk.c:136-149 *)
Definition ramdisk_format (diskno : Z) : ST rd_st Nerror := fun s =>
  match ramdisk_find diskno s with
  | None => (NnotFound, s)
  | Some (_, rd) => (Nok, rd_set_mem (memset (rd_offset rd) 0 (rd_size rd) (rd_mem s)) s)
  end.

(** [ramdisk_deinit]: drivers/ramdisk/ramdisk.c:151-165 *)
Definition ramdisk_deinit (diskno : Z) : ST rd_st Nerror := fun s =>
  match ramdisk_find diskno s with
  | None => (NnotFound, s)
  | Some (i, _) => (Nok, mk_rds (<[i := zero_rd]> (g_ramdisks s)) (rd_mem s))
  end.

(** ** The table *)

Definition rd_slot_ok (rd : ramdisk_t) : Prop :=
  rd_is_used rd = true -> 0 < rd_offset rd /\ 0 < rd_size rd /\ rd_offset rd + rd_size rd < 2 ^ 64.

(** Used slots describe memory below the end of the address space, and no two
    of them are the same disk. *)
Definition rd_ok (s : rd_st) : Prop :=
  Forall rd_slot_ok (g_ramdisks s) /\
  forall i j a b, g_ramdisks s !! i = Some a -> g_ramdisks s !! j = Some b ->
    rd_is_used a = true -> rd_is_used b = true -> rd_diskno a = rd_diskno b -> i = j.

Lemma range_within_spec start size limit : 0 <= start -> 0 <= limit < 2 ^ 64 ->
  range_within start size limit = true <-> start <= limit /\ size <= limit - start.
Proof. intros. unfold range_within. case_if; [lia|]. rewrite uw_small by lia. lia. Qed.

Lemma ramdisk_find_some k s i rd : ramdisk_find k s = Some (i, rd) ->
  g_ramdisks s !! i = Some rd /\ rd_is_used rd = true /\ rd_diskno rd = k.
Proof. intros (Hl & Hp & _)%list_find_Some. bool_simpl. by split_and!. Qed.

Lemma ramdisk_find_none k s i rd : ramdisk_find k s = None ->
  g_ramdisks s !! i = Some rd -> rd_is_used rd = true -> rd_diskno rd <> k.
Proof.
  intros Hn%list_find_None Hl Hu <-. rewrite Forall_forall in Hn.
  apply (Hn rd); [by eapply list_elem_of_lookup_2|]. rewrite Hu, Z.eqb_refl. done.
Qed.

Lemma rd_ok_insert s i rd : rd_ok s -> rd_slot_ok rd ->
  (rd_is_used rd = true -> forall j b, j <> i -> g_ramdisks s !! j = Some b ->
     rd_is_used b = true -> rd_diskno b <> rd_diskno rd) ->
  rd_ok (mk_rds (<[i := rd]> (g_ramdisks s)) (rd_mem s)).
Proof.
  intros [Hf Hu] Hr Hd. split; [by apply Forall_insert|]. simpl.
  intros j1 j2 a b Ha Hb Hua Hub He.
  apply list_lookup_insert_Some in Ha as [(<- & <- & _)|[Hn1 Ha]];
  apply list_lookup_insert_Some in Hb as [(<- & <- & _)|[Hn2 Hb]]; [done|..].
  - exfalso. eapply (Hd Hua j2 b); eauto.
  - exfalso. eapply (Hd Hub j1 a); eauto.
  - eauto.
Qed.

Lemma rd_ok_fresh m : rd_ok (mk_rds (replicate RAMDISK_MAX zero_rd) m).
Proof.
  split; [by apply Forall_replicate|]. intros i j a b (-> & _)%lookup_replicate_1 _ Hu. done.
Qed.

Lemma rd_ok_deinit k s : rd_ok s -> rd_ok (ramdisk_deinit k s).2.
Proof.
  intros Hok. unfold ramdisk_deinit. destruct (ramdisk_find k s) as [[i rd]|]; [|done].
  by apply rd_ok_insert.
Qed.

Lemma rd_ok_init k a n s : 0 <= a -> 0 <= n -> rd_ok s -> rd_ok (ramdisk_init k a n s).2.
Proof.
  intros Ha Hn Hok. unfold ramdisk_init. case_if; [done|]. case_if; [done|].
  apply range_within_spec in E; [|done..].
  destruct (ramdisk_find k s) as [[]|] eqn:Hf; [done|].
  destruct (list_find _ _) as [[i rd]|]; [|done]. apply rd_ok_insert; [done|..].
  - intros _. simpl. lia.
  - intros _ j b _ Hl Hub. by eapply ramdisk_find_none.
Qed.

(** ** Contents *)

(** In state [s] disk [k] occupies [[lo, lo + length d)] and holds [d]. *)
Definition disk_at (s : rd_st) (k lo : Z) (d : list Z) : Prop :=
  exists i rd, ramdisk_find k s = Some (i, rd) /\ rd_offset rd = lo /\
    d = ld_bytes (rd_mem s) lo (rd_size rd).

(** [d] with the bytes from [off] on replaced by [bs]. *)
Definition splice (d : list Z) (off : nat) (bs : list Z) : list Z :=
  take off d ++ bs ++ drop (off + length bs) d.

Definition disjoint_from (buf n lo size : Z) : Prop := buf + n <= lo \/ lo + size <= buf.

Lemma ld_bytes_copied m m' dst src n : mem_upd m m' dst (dst + n) (copied dst src m) ->
  ld_bytes m' dst n = ld_bytes m src n.
Proof.
  intros Hm. apply list_eq. intros i. unfold ld_bytes. rewrite !list_lookup_fmap.
  destruct (decide (Z.of_nat i < n)).
  - rewrite !lookup_seqZ_lt by lia. simpl. rewrite Hm. case_if; [|lia].
    unfold copied. do 2 f_equal. lia.
  - by rewrite !lookup_seqZ_ge by lia.
Qed.

Lemma ld_bytes_ext m m' a n : (forall b, a <= b < a + n -> ld8 m' b = ld8 m b) ->
  ld_bytes m' a n = ld_bytes m a n.
Proof.
  intros He. unfold ld_bytes. apply list_fmap_ext. intros i x Hx. apply He.
  apply lookup_seqZ in Hx. lia.
Qed.

Lemma ld_bytes_app m a n k : 0 <= n -> 0 <= k -> ld_bytes m a (n + k) = ld_bytes m a n ++ ld_bytes m (a + n) k.
Proof. intros. unfold ld_bytes. by rewrite seqZ_app, fmap_app. Qed.

Lemma ld_bytes_slice m a n off k : 0 <= off -> 0 <= k -> off + k <= n ->
  take (Z.to_nat k) (drop (Z.to_nat off) (ld_bytes m a n)) = ld_bytes m (a + off) k.
Proof.
  intros. replace n with (off + (k + (n - off - k))) by lia.
  rewrite !ld_bytes_app by lia. rewrite drop_app_length' by (rewrite length_ld_bytes; lia).
  by rewrite take_app_length' by (rewrite length_ld_bytes; lia).
Qed.

Lemma splice_copied m m' lo size off src n : 0 <= off -> 0 <= n -> off + n <= size ->
  mem_upd m m' (lo + off) (lo + off + n) (copied (lo + off) src m) ->
  ld_bytes m' lo size = splice (ld_bytes m lo size) (Z.to_nat off) (ld_bytes m src n).
Proof.
  intros Ho Hn Hs Hm. unfold splice. rewrite length_ld_bytes.
  replace size with (off + (n + (size - off - n))) by lia.
  rewrite !ld_bytes_app by lia. rewrite take_app_length' by (rewrite length_ld_bytes; lia).
  rewrite <- drop_drop. rewrite drop_app_length' by (rewrite length_ld_bytes; lia).
  rewrite drop_app_length' by (rewrite length_ld_bytes; lia).
  rewrite (ld_bytes_copied _ _ _ _ _ Hm). f_equal; [|f_equal].
  - apply ld_bytes_ext. intros b Hb. rewrite Hm. case_if; [lia|done].
  - apply ld_bytes_ext. intros b Hb. rewrite Hm. case_if; [lia|done].
Qed.

(** RAM disk transfers are bounded by the disk and round-trip.  A write
    succeeds exactly when the disk exists, the buffer and the length are not
    zero and the whole range is inside the disk (the test cannot be bypassed
    by overflow), and otherwise changes nothing; after it the disk holds the
    buffer's bytes at the offset and its old bytes elsewhere, no byte outside
    the disk has changed, and reading the range back into any buffer outside
    the disk gives those bytes. *)
Theorem ramdisk_write_read (k lo off buf n : Z) (d : list Z) (s : rd_st) :
  rd_ok s -> disk_at s k lo d -> 0 <= off < 2 ^ 64 -> 0 <= buf < 2 ^ 64 -> 0 <= n < 2 ^ 64 ->
  disjoint_from buf n lo (Z.of_nat (length d)) ->
  let '(st, s') := ramdisk_write k off buf n s in
  (st = Nok <-> buf <> 0 /\ n <> 0 /\ off + n <= Z.of_nat (length d) /\ buf + n < 2 ^ 64) /\
  (st <> Nok -> s' = s) /\
  (st = Nok ->
     disk_at s' k lo (splice d (Z.to_nat off) (ld_bytes (rd_mem s) buf n)) /\
     (forall a, ~ lo + off <= a < lo + off + n -> ld8 (rd_mem s') a = ld8 (rd_mem s) a) /\
     forall buf', 0 < buf' -> buf' + n < 2 ^ 64 -> disjoint_from buf' n lo (Z.of_nat (length d)) ->
       let '(st', s'') := ramdisk_read k off buf' n s' in
       st' = Nok /\ ld_bytes (rd_mem s'') buf' n = ld_bytes (rd_mem s) buf n).
Proof.
  intros [Hok _] (i & rd & Hf & Hlo & Hd) Ho Hb Hn Hdj.
  pose proof (ramdisk_find_some _ _ _ _ Hf) as (Hl & Hu & _).
  destruct (proj1 (Forall_lookup _ _) Hok i rd Hl Hu) as (Hlo0 & Hsz & Hend).
  assert (Hld : Z.of_nat (length d) = rd_size rd) by (subst d; rewrite length_ld_bytes; lia).
  rewrite Hld in *. unfold ramdisk_write. rewrite Hf. unfold disjoint_from in *.
  case_if; [split; [split; [done|intros (? & ? & _); lia]|by split]|].
  case_if.
  { split; [split; [done|]|by split]. intros (_ & _ & Hr & _).
    apply Bool.not_true_iff_false in E. rewrite range_within_spec in E; lia. }
  case_if.
  { split; [split; [done|]|by split]. intros (_ & _ & _ & Hr).
    apply Bool.not_true_iff_false in E0. rewrite range_within_spec in E0; lia. }
  apply range_within_spec in E; [|lia..]. apply range_within_spec in E0; [|lia..].
  rewrite Hlo, uw_small by lia.
  set (m' := memcpy _ _ _ _).
  assert (Hm : mem_upd (rd_mem s) m' (lo + off) (lo + off + n) (copied (lo + off) buf (rd_mem s))).
  { apply memcpy_upd; lia. }
  split; [split; [intros _; split_and!; [intros ->; done|intros ->; lia|lia|lia]|done]|].
  split; [done|]. intros _. split; [|split].
  - exists i, rd. split_and!; [done..|]. simpl. subst d. symmetry. apply splice_copied; [lia..|done].
  - intros a Ha. simpl. rewrite Hm. case_if; [lia|done].
  - intros buf' Hb' Hbe' Hdj'. unfold ramdisk_read.
    change (ramdisk_find k (rd_set_mem m' s)) with (ramdisk_find k s). rewrite Hf.
    case_if; [lia|]. rewrite (proj2 (range_within_spec off n (rd_size rd) ltac:(lia) ltac:(lia))) by lia.
    rewrite (proj2 (range_within_spec buf' n 0xFFFFFFFFFFFFFFFF ltac:(lia) ltac:(lia))) by lia. cbn [negb rd_mem rd_set_mem].
    split; [done|]. rewrite Hlo, uw_small by lia. rewrite (ld_bytes_copied m' _ _ (lo + off)) by (apply memcpy_upd; lia).
    by apply ld_bytes_copied.
Qed.

(** A disk of 8 bytes at 0x1000, and a transfer of 3 bytes at offset 2. *)
Definition ex_disk : rd_st :=
  (ramdisk_init 5 0x1000 8 (mk_rds (replicate RAMDISK_MAX zero_rd) (st_bytes 0x2000 [7; 8; 9] ∅))).2.

Lemma ramdisk_write_read_witness :
  let '(st, s') := ramdisk_write 5 2 0x2000 3 ex_disk in
  st = Nok /\ disk_at s' 5 0x1000 [0; 0; 7; 8; 9; 0; 0; 0] /\
  let '(st', s'') := ramdisk_read 5 2 0x3000 3 s' in
  st' = Nok /\ ld_bytes (rd_mem s'') 0x3000 3 = [7; 8; 9].
Proof.
  assert (Hok : rd_ok ex_disk) by (apply rd_ok_init; [done..|apply rd_ok_fresh]).
  assert (Hd : disk_at ex_disk 5 0x1000 (replicate 8 0)) by (do 2 eexists; by vm_compute).
  pose proof (ramdisk_write_read 5 0x1000 2 0x2000 3 _ ex_disk Hok Hd ltac:(lia) ltac:(lia) ltac:(lia)
    ltac:(right; simpl; lia)) as H.
  destruct (ramdisk_write 5 2 0x2000 3 ex_disk) as [st s']. destruct H as (Hok' & _ & H).
  assert (Hst : st = Nok) by (apply Hok'; simpl; lia). destruct (H Hst) as (Hd' & _ & Hr).
  split; [done|]. split; [exact Hd'|]. apply (Hr 0x3000); [lia..|]. right. simpl. lia.
Defined.
