(* ===== verification/FsCore.v ===== *)
(** * The registry of file systems: [drivers/filesystem/core.c]

    A table of [FILESYSTEM_MAX] drivers by name.  A name is the bytes of the C
    string, a null pointer is [None]; the drivers' operations act on a state
    [W] of their own and take the caller's parameters [U]. *)

From S2P Require Import Prelude Types.

(** [FILESYSTEM_MAX]: drivers/filesystem/core.h:11-11 *)
Definition FILESYSTEM_MAX : nat := 32.
(** [FILESYSTEM_NAME_MAX]: drivers/filesystem/core.h:12-12 *)
Definition FILESYSTEM_NAME_MAX : nat := 32.

Section core.
Context {W U : Type}.

(** [filesystem_ops_t]: drivers/filesystem/core.h:14-21 *)
Record filesystem_ops_t := mk_fs_ops {
  ops_mount : option (Z -> U -> ST W Nerror);
  ops_unmount : option (Z -> ST W Nerror);
  ops_format : option (Z -> U -> ST W Nerror);
}.

(** [filesystem_t]: drivers/filesystem/core.h:23-27 *)
Record filesystem_t := mk_fs { fs_name : list Z; fs_ops : filesystem_ops_t; fs_is_used : bool }.

Definition zero_ops : filesystem_ops_t := mk_fs_ops None None None.
Definition zero_fs : filesystem_t := mk_fs [] zero_ops false.

Abbreviation registry := (list filesystem_t).
Implicit Types (t : registry) (fs : filesystem_t).

(** [fs_find]: drivers/filesystem/core.c:9-27 *)
Definition fs_find (name : option (list Z)) t : option (nat * filesystem_t) :=
  match name with
  | None => None
  | Some name => list_find (fun fs => fs_is_used fs = true /\ fs_name fs = name) t
  end.

(** [filesystem_register]: drivers/filesystem/core.c:29-62 *)
Definition filesystem_register (name : option (list Z)) (ops : filesystem_ops_t) : ST registry Nerror := fun t =>
  match name with
  | None => (NinvalidArg, t)
  | Some n =>
      if (FILESYSTEM_NAME_MAX <=? length n)%nat then (Noverflow, t)
      else match fs_find (Some n) t with
      | Some _ => (NalreadyExists, t)
      | None =>
          match list_find (fun fs => fs_is_used fs = false) t with
          | Some (i, _) => (Nok, <[i := mk_fs n ops true]> t)
          | None => (NtooManyFileSystem, t)
          end
      end
  end.

(** [filesystem_unregister]: drivers/filesystem/core.c:64-74 *)
Definition filesystem_unregister (name : option (list Z)) : ST registry Nerror := fun t =>
  match fs_find name t with
  | None => (NnotFound, t)
  | Some (i, _) => (Nok, <[i := zero_fs]> t)
  end.

(** [filesystem_get]: drivers/filesystem/core.c:76-78 *)
Definition filesystem_get (name : option (list Z)) t : option (nat * filesystem_t) := fs_find name t.

(** [filesystem_mount]: drivers/filesystem/core.c:80-96 *)
Definition filesystem_mount (fsname : option (list Z)) (diskno : Z) (userdata : U) t : ST W Nerror := fun w =>
  match fs_find fsname t with
  | None => (NnotFound, w)
  | Some (_, fs) =>
      match ops_mount (fs_ops fs) with
      | None => (Nunsupported, w)
      | Some mount => mount diskno userdata w
      end
  end.

(** [filesystem_unmount]: drivers/filesystem/core.c:98-113 *)
Definition filesystem_unmount (fsname : option (list Z)) (diskno : Z) t : ST W Nerror := fun w =>
  match fs_find fsname t with
  | None => (NnotFound, w)
  | Some (_, fs) =>
      match ops_unmount (fs_ops fs) with
      | None => (Nunsupported, w)
      | Some unmount => unmount diskno w
      end
  end.

(** [filesystem_format]: drivers/filesystem/core.c:115-131 *)
Definition filesystem_format (fsname : option (list Z)) (diskno : Z) (userdata : U) t : ST W Nerror := fun w =>
  match fs_find fsname t with
  | None => (NnotFound, w)
  | Some (_, fs) =>
      match ops_format (fs_ops fs) with
      | None => (Nunsupported, w)
      | Some format => format diskno userdata w
      end
  end.

(** ** The map a table stands for *)

Definition fs_entries t : list (list Z * filesystem_ops_t) :=
  (fun fs => (fs_name fs, fs_ops fs)) <$> filter (fun fs => fs_is_used fs = true) t.
Definition registered t : gmap (list Z) filesystem_ops_t := list_to_map (fs_entries t).

(** A well-formed table: every name once, and short enough for its buffer. *)
Definition registry_ok t : Prop :=
  length t = FILESYSTEM_MAX /\ NoDup (fs_entries t).*1 /\
  Forall (fun e => (length e.1 < FILESYSTEM_NAME_MAX)%nat) (fs_entries t).

Lemma entries_insert t i old fs : t !! i = Some old ->
  exists rest,
    fs_entries (<[i := fs]> t) ≡ₚ (if fs_is_used fs then [(fs_name fs, fs_ops fs)] else []) ++ rest /\
    fs_entries t ≡ₚ (if fs_is_used old then [(fs_name old, fs_ops old)] else []) ++ rest.
Proof.
  intros Hi. exists (fs_entries (take i t ++ drop (S i) t)). unfold fs_entries.
  assert (Hl : (i < length t)%nat) by by eapply lookup_lt_Some.
  assert (Hgen : forall x, (fun fs => (fs_name fs, fs_ops fs)) <$>
      filter (fun fs => fs_is_used fs = true) (take i t ++ x :: drop (S i) t) ≡ₚ
    (if fs_is_used x then [(fs_name x, fs_ops x)] else []) ++
    ((fun fs => (fs_name fs, fs_ops fs)) <$> filter (fun fs => fs_is_used fs = true) (take i t ++ drop (S i) t))).
  { intros x. rewrite <- Permutation_middle, filter_cons.
    destruct (fs_is_used x) eqn:E; [by rewrite decide_True by done|by rewrite decide_False by congruence]. }
  split; [rewrite insert_take_drop by done; apply Hgen|].
  rewrite <- (take_drop_middle t i old Hi) at 1. apply Hgen.
Qed.

Lemma registered_lookup t n ops : registry_ok t ->
  registered t !! n = Some ops <->
  exists fs, fs ∈ t /\ fs_is_used fs = true /\ fs_name fs = n /\ fs_ops fs = ops.
Proof.
  intros (_ & Hnd & _). unfold registered. rewrite <- elem_of_list_to_map by done.
  unfold fs_entries. rewrite list_elem_of_fmap. split.
  - intros (fs & [= -> ->] & (Hu & Hi)%list_elem_of_filter). by exists fs.
  - intros (fs & Hi & Hu & <- & <-). exists fs. split; [done|]. by apply list_elem_of_filter.
Qed.

Lemma fs_find_lookup t n : registry_ok t ->
  (fun p => fs_ops p.2) <$> fs_find (Some n) t = registered t !! n.
Proof.
  intros Hok. destruct (fs_find (Some n) t) as [[i fs]|] eqn:E; simpl in *.
  - apply list_find_Some in E as (Hi & (Hu & Hn) & _). symmetry. apply registered_lookup; [done|].
    exists fs. split; [by eapply list_elem_of_lookup_2|done].
  - apply list_find_None in E. symmetry. apply eq_None_not_Some. intros [ops Ho].
    apply registered_lookup in Ho as (fs & Hi & Hu & Hn & _); [|done].
    rewrite Forall_forall in E. by apply (E fs Hi).
Qed.

Lemma free_slot t : registry_ok t ->
  list_find (fun fs => fs_is_used fs = false) t = None <-> size (registered t) = FILESYSTEM_MAX.
Proof.
  intros (Hl & Hnd & _). unfold registered. rewrite map_size_list_to_map by done.
  unfold fs_entries. rewrite length_fmap, <- Hl, list_find_None. split.
  - intros Ha. clear Hl Hnd. f_equal. induction Ha as [|fs t Hf _ IH]; [done|].
    rewrite filter_cons_True by by destruct (fs_is_used fs). by rewrite IH.
  - intros He. apply Forall_forall. intros fs Hi Hf.
    assert (length (filter (fun fs => fs_is_used fs = true) t) < length t)%nat; [|lia].
    apply (length_filter_lt _ _ fs); [done|congruence].
Qed.

(** The registry is a map of at most [FILESYSTEM_MAX] drivers by name.
    [filesystem_get] is the lookup; a registration fails exactly when the name
    is null, too long or taken or the table is full, and otherwise adds that
    one binding; [filesystem_unregister] deletes the binding and fails when
    there is none; mounting dispatches to the driver of that name.  The
    well-formedness of the table is preserved. *)
Theorem registry_is_map (t : registry) (name : option (list Z)) (ops : filesystem_ops_t) :
  registry_ok t ->
  let found n := registered t !! n in
  let bound : option filesystem_ops_t := name ≫= found in
  (fun p => fs_ops p.2) <$> filesystem_get name t = bound /\
  (let '(st, t') := filesystem_register name ops t in
   registry_ok t' /\
   st = (match name with
         | None => NinvalidArg
         | Some n =>
             if (FILESYSTEM_NAME_MAX <=? length n)%nat then Noverflow
             else if found n then NalreadyExists
             else if decide (size (registered t) = FILESYSTEM_MAX) then NtooManyFileSystem else Nok
         end) /\
   registered t' = match name, st with Some n, Nok => <[n := ops]> (registered t) | _, _ => registered t end) /\
  (let '(st, t') := filesystem_unregister name t in
   registry_ok t' /\ st = (if bound then Nok else NnotFound) /\
   registered t' = match name with Some n => delete n (registered t) | None => registered t end) /\
  (forall diskno u w, filesystem_mount name diskno u t w =
     match bound with
     | None => (NnotFound, w)
     | Some o => match ops_mount o with None => (Nunsupported, w) | Some f => f diskno u w end
     end).
Proof.
  intros Hok found bound. subst bound. destruct name as [n|]; cbn [mbind option_bind]; [|by split_and!].
  pose proof (fs_find_lookup t n Hok) as Hf. fold (found n) in Hf.
  split; [done|]. split; [|split].
  - unfold filesystem_register. destruct (FILESYSTEM_NAME_MAX <=? length n)%nat eqn:El; [exact (conj Hok (conj eq_refl eq_refl))|]. apply Nat.leb_gt in El.
    rewrite <- Hf. destruct (fs_find (Some n) t) as [[i fs]|] eqn:Ef; [exact (conj Hok (conj eq_refl eq_refl))|]. simpl in *.
    pose proof (free_slot t Hok) as Hs.
    destruct (list_find (fun fs => fs_is_used fs = false) t) as [[i old]|] eqn:Ei.
    + rewrite decide_False by (intros Hx; by apply Hs in Hx).
      apply list_find_Some in Ei as (Hi & Hu & _).
      destruct (entries_insert t i old (mk_fs n ops true) Hi) as (rest & Hn & Ho).
      simpl in Hn. rewrite Hu in Ho. simpl in Ho.
      assert (Hnd : NoDup (n :: (fs_entries t).*1)).
      { constructor; [|apply Hok]. intros Hin. apply not_elem_of_list_to_map in Hin; [done|].
        by symmetry. }
      assert (Hp : fs_entries (<[i:=mk_fs n ops true]> t) ≡ₚ (n, ops) :: fs_entries t)
        by by rewrite Hn, Ho.
      split; [|split; [done|]].
      * destruct Hok as (Hl & _ & Hlen). split; [by rewrite length_insert|]. rewrite Hp. simpl.
        split; [done|]. by constructor.
      * unfold registered. rewrite (list_to_map_proper _ ((n, ops) :: fs_entries t)); [done| |done].
        by rewrite Hp.
    + rewrite decide_True by by apply Hs. exact (conj Hok (conj eq_refl eq_refl)).
  - unfold filesystem_unregister. rewrite <- Hf.
    destruct (fs_find (Some n) t) as [[i fs]|] eqn:Ef; simpl in *.
    + apply list_find_Some in Ef as (Hi & (Hu & Hn) & _).
      destruct (entries_insert t i fs zero_fs Hi) as (rest & Hn' & Ho). rewrite Hu, Hn in Ho. simpl in *.
      destruct Hok as (Hl & Hnd & Hlen). rewrite Ho in Hnd, Hlen. simpl in Hnd.
      apply NoDup_cons in Hnd as [Hni Hnd']. apply Forall_cons in Hlen as [_ Hlen].
      split; [|split; [done|]].
      * split; [by rewrite length_insert|]. by rewrite Hn'.
      * unfold registered. rewrite (list_to_map_proper _ rest); [|by rewrite Hn'|done].
        rewrite (list_to_map_proper (fs_entries t) ((n, fs_ops fs) :: rest));
          [|rewrite Ho; simpl; by constructor|done]. simpl.
        rewrite delete_insert_id; [done|]. by apply not_elem_of_list_to_map_1.
    + split; [done|]. split; [done|]. by rewrite delete_id.
  - intros diskno u w. unfold filesystem_mount. rewrite <- Hf.
    by destruct (fs_find (Some n) t) as [[i fs]|].
Qed.

Lemma registry_fresh : registry_ok (replicate FILESYSTEM_MAX zero_fs).
Proof. split; [done|]. split; [constructor|constructor]. Qed.
End core.

(** Two registrations under one name in an empty registry: the second fails. *)
Lemma registry_is_map_witness :
  exists t : list (@filesystem_t unit unit), registry_ok t /\ size (registered t) = 1%nat /\
    (filesystem_register (Some [102; 97; 116]) zero_ops t).1 = NalreadyExists.
Proof.
  set (t0 := replicate FILESYSTEM_MAX (@zero_fs unit unit)).
  pose proof (registry_is_map t0 (Some [102; 97; 116]) zero_ops registry_fresh) as (_ & H & _ & _).
  destruct (filesystem_register _ _ t0) as [st t]. destruct H as (Hok & Hst & Hm).
  assert (Hst' : st = Nok) by (rewrite Hst; by vm_compute). rewrite Hst' in Hm.
  exists t. split; [exact Hok|]. rewrite Hm. split; [by vm_compute|].
  pose proof (registry_is_map t (Some [102; 97; 116]) zero_ops Hok) as (_ & H & _ & _).
  destruct (filesystem_register _ _ t) as [st2 t2]. destruct H as (_ & -> & _). rewrite Hm. by vm_compute.
Defined.
