(* ===== verification/Printk.v ===== *)
(** * The kernel log: [console/outputs/printk.c], [serial.c] and the font of
    [outputs_base.c]

    The console is the frame buffer, which is memory of a device and not
    shared with anything else here, and the serial port, which is the sequence
    of the writes to its I/O ports.  A character is its byte; a C string is
    the list of its bytes before the NUL. *)

From S2P Require Import Prelude Types Mem Memory Bytes.

(** ** The font

    The glyphs, 32 bytes each, two per row, and the routines that copy one into
    a frame buffer of 32-bit pixels. *)

(** [FONT_WIDTH]: nxkernel/console/outputs/outputs_base.h:12-12 *)
Definition FONT_WIDTH : Z := 16.
(** [FONT_HEIGHT]: nxkernel/console/outputs/outputs_base.h:13-13 *)
Definition FONT_HEIGHT : Z := 16.
(** [FONT_FIRST_CHAR]: nxkernel/console/outputs/outputs_base.h:16-16 *)
Definition FONT_FIRST_CHAR : Z := 32.
(** [FONT_LAST_CHAR]: nxkernel/console/outputs/outputs_base.h:17-17 *)
Definition FONT_LAST_CHAR : Z := 126.

(** [FONTS]: nxkernel/console/outputs/outputs_base.c:24-120 *)
Definition FONTS : list (list Z) := [
  [0;0;0;0;0;0;0;0;0;0;0;0;0;0;0;0;0;0;0;0;0;0;0;0;0;0;0;0;0;0;0;0];
  [0;0;0;0;0x7;0;0xF;0x80;0xF;0x80;0xF;0x80;0xF;0x80;0xF;0x80;0x7;0;0x7;0;0;0;0;0;0x7;0;0x7;0;0x7;0;0;0];
  [0;0;0xE;0x38;0xE;0x38;0xE;0x38;0xE;0x38;0x6;0x30;0;0;0;0;0;0;0;0;0;0;0;0;0;0;0;0;0;0;0;0];
  [0;0;0xC;0x30;0xC;0x30;0xC;0x30;0x7F;0xFE;0x7F;0xFE;0xC;0x30;0xC;0x30;0xC;0x30;0xC;0x30;0x7F;0xFE;0x7F;0xFE;0xC;0x30;0xC;0x30;0xC;0x30;0;0];
  [0;0;0x2;0x40;0x2;0x40;0xF;0xF8;0x1F;0xF8;0x1A;0x40;0x1A;0x40;0x1F;0xF0;0xF;0xF8;0x2;0x58;0x2;0x58;0x1F;0xF8;0x1F;0xF0;0x2;0x40;0x2;0x40;0;0];
  [0;0;0;0;0;0;0xE;0x10;0xE;0x30;0xE;0x70;0;0xE0;0x1;0xC0;0x3;0x80;0x7;0;0xE;0x70;0xC;0x70;0x8;0x70;0;0;0;0;0;0];
  [0;0;0;0;0xF;0;0x19;0x80;0x19;0x80;0x19;0x80;0xF;0;0xF;0x8;0xF;0x98;0x19;0xF8;0x18;0xF0;0x18;0xE0;0x19;0xF0;0xF;0x98;0;0;0;0];
  [0;0;0;0;0x7;0;0x7;0;0x7;0;0xE;0;0;0;0;0;0;0;0;0;0;0;0;0;0;0;0;0;0;0;0;0];
  [0;0;0;0;0;0xF0;0x1;0xC0;0x3;0x80;0x7;0;0xE;0;0xE;0;0xE;0;0xE;0;0x7;0;0x3;0x80;0x1;0xC0;0;0xF0;0;0;0;0];
  [0;0;0;0;0xF;0;0x3;0x80;0x1;0xC0;0;0xE0;0;0x70;0;0x70;0;0x70;0;0x70;0;0xE0;0x1;0xC0;0x3;0x80;0xF;0;0;0;0;0];
  [0;0;0;0;0x1;0x80;0x11;0x88;0x9;0x90;0x7;0xE0;0x7;0xE0;0x3F;0xFC;0x3F;0xFC;0x7;0xE0;0x7;0xE0;0x9;0x90;0x11;0x88;0x1;0x80;0;0;0;0];
  [0;0;0;0;0;0;0;0;0x1;0x80;0x1;0x80;0x1;0x80;0xF;0xF0;0xF;0xF0;0x1;0x80;0x1;0x80;0x1;0x80;0;0;0;0;0;0;0;0];
  [0;0;0;0;0;0;0;0;0;0;0;0;0;0;0;0;0;0;0;0;0;0;0x7;0;0x7;0;0x7;0;0xE;0;0;0];
  [0;0;0;0;0;0;0;0;0;0;0;0;0;0;0x1F;0xF8;0x1F;0xF8;0;0;0;0;0;0;0;0;0;0;0;0;0;0];
  [0;0;0;0;0;0;0;0;0;0;0;0;0;0;0;0;0;0;0;0;0;0;0x7;0;0x7;0;0x7;0;0;0;0;0];
  [0;0;0;0;0;0x2;0;0x6;0;0xE;0;0x1C;0;0x38;0;0x70;0;0xE0;0x1;0xC0;0x3;0x80;0x7;0;0xE;0;0x1C;0;0;0;0;0];
  [0;0;0;0;0xF;0xF0;0x1C;0x38;0x1C;0x78;0x1C;0xF8;0x1C;0xF8;0x1D;0xB8;0x1D;0xB8;0x1F;0x38;0x1F;0x38;0x1E;0x38;0x1C;0x38;0xF;0xF0;0;0;0;0];
  [0;0;0;0;0x1;0x80;0x1;0x80;0x3;0x80;0x1F;0x80;0x1F;0x80;0x3;0x80;0x3;0x80;0x3;0x80;0x3;0x80;0x3;0x80;0x3;0x80;0x1F;0xF0;0;0;0;0];
  [0;0;0;0;0xF;0xE0;0x1C;0x70;0x1C;0x38;0;0x38;0;0x70;0;0xE0;0x1;0xC0;0x3;0x80;0x7;0;0xE;0x38;0x1C;0x38;0x1F;0xF8;0;0;0;0];
  [0;0;0;0;0xF;0xE0;0x1C;0x70;0x1C;0x38;0;0x38;0;0x70;0x3;0xC0;0x3;0xC0;0;0x70;0;0x38;0x1C;0x38;0x1C;0x70;0xF;0xE0;0;0;0;0];
  [0;0;0;0;0;0xE0;0x1;0xE0;0x3;0xE0;0x6;0xE0;0xC;0xE0;0x18;0xE0;0x1F;0xF8;0x1F;0xF8;0;0xE0;0;0xE0;0;0xE0;0x3;0xF8;0;0;0;0];
  [0;0;0;0;0x1F;0xF8;0x1C;0;0x1C;0;0x1C;0;0x1C;0;0x1F;0xE0;0x1F;0xF0;0;0x78;0;0x38;0x1C;0x38;0x1C;0x70;0xF;0xE0;0;0;0;0];
  [0;0;0;0;0x3;0xE0;0x7;0;0xE;0;0x1C;0;0x1C;0;0x1F;0xF0;0x1F;0xF8;0x1C;0x38;0x1C;0x38;0x1C;0x38;0x1C;0x38;0xF;0xF0;0;0;0;0];
  [0;0;0;0;0x1F;0xFC;0x1C;0x1C;0x1C;0x1C;0x1C;0x1C;0;0x1C;0;0x38;0;0x70;0;0xE0;0x1;0xC0;0x3;0x80;0x3;0x80;0x3;0x80;0;0;0;0];
  [0;0;0;0;0xF;0xF0;0x1C;0x38;0x1C;0x38;0x1C;0x38;0x1F;0x38;0x7;0xE0;0x7;0xE0;0x1C;0xF8;0x1C;0x38;0x1C;0x38;0x1C;0x38;0xF;0xF0;0;0;0;0];
  [0;0;0;0;0xF;0xF0;0x1C;0x38;0x1C;0x38;0x1C;0x38;0x1C;0x38;0x1F;0xF8;0xF;0xF8;0;0x38;0;0x38;0;0x70;0;0xE0;0x7;0xC0;0;0;0;0];
  [0;0;0;0;0;0;0;0;0x3;0x80;0x3;0x80;0x3;0x80;0;0;0;0;0x3;0x80;0x3;0x80;0x3;0x80;0;0;0;0;0;0;0;0];
  [0;0;0;0;0;0;0;0;0x3;0x80;0x3;0x80;0x3;0x80;0;0;0;0;0x3;0x80;0x3;0x80;0x3;0x80;0x7;0;0;0;0;0;0;0];
  [0;0;0;0x70;0;0xE0;0x1;0xC0;0x3;0x80;0x7;0;0xE;0;0x1C;0;0x1C;0;0xE;0;0x7;0;0x3;0x80;0x1;0xC0;0;0xE0;0;0x70;0;0];
  [0;0;0;0;0;0;0;0;0;0;0x3F;0xFC;0x3F;0xFC;0;0;0;0;0x3F;0xFC;0x3F;0xFC;0;0;0;0;0;0;0;0;0;0];
  [0;0;0x1C;0;0xE;0;0x7;0;0x3;0x80;0x1;0xC0;0;0xE0;0;0x70;0;0x70;0;0xE0;0x1;0xC0;0x3;0x80;0x7;0;0xE;0;0x1C;0;0;0];
  [0;0;0x3;0xC0;0xF;0xF0;0x1E;0x78;0x18;0x38;0;0x38;0;0x70;0;0xE0;0x1;0xC0;0x1;0xC0;0;0;0;0;0x1;0xC0;0x1;0xC0;0x1;0xC0;0;0];
  [0;0;0xF;0xF8;0x1C;0x1C;0x1C;0x1C;0x1C;0x1C;0x1C;0x1C;0x1C;0xFC;0x1C;0xFC;0x1C;0xFC;0x1C;0xFC;0x1C;0;0x1C;0;0x1C;0;0x1F;0xF0;0x7;0xF8;0;0];
  [0;0;0;0;0x3;0xC0;0x7;0xE0;0xE;0x70;0x1C;0x38;0x1C;0x38;0x1C;0x38;0x1C;0x38;0x1F;0xF8;0x1C;0x38;0x1C;0x38;0x1C;0x38;0x1C;0x38;0;0;0;0];
  [0;0;0;0;0x1F;0xF0;0xE;0x38;0xE;0x38;0xE;0x38;0xE;0x38;0xF;0xF0;0xF;0xF0;0xE;0x38;0xE;0x38;0xE;0x38;0xE;0x38;0x1F;0xF0;0;0;0;0];
  [0;0;0;0;0x7;0xF0;0xE;0x38;0x1C;0x38;0x1C;0;0x1C;0;0x1C;0;0x1C;0;0x1C;0;0x1C;0;0x1C;0x38;0xE;0x38;0x7;0xF0;0;0;0;0];
  [0;0;0;0;0x1F;0xE0;0xE;0x70;0xE;0x38;0xE;0x38;0xE;0x38;0xE;0x38;0xE;0x38;0xE;0x38;0xE;0x38;0xE;0x38;0xE;0x70;0x1F;0xE0;0;0;0;0];
  [0;0;0;0;0x1F;0xF8;0xE;0x18;0xE;0x8;0xE;0;0xE;0x30;0xF;0xF0;0xF;0xF0;0xE;0x30;0xE;0;0xE;0x8;0xE;0x18;0x1F;0xF8;0;0;0;0];
  [0;0;0;0;0x1F;0xF8;0xE;0x18;0xE;0x8;0xE;0;0xE;0x30;0xF;0xF0;0xF;0xF0;0xE;0x30;0xE;0;0xE;0;0xE;0;0x1F;0;0;0;0;0];
  [0;0;0;0;0x7;0xF0;0xE;0x38;0x1C;0x38;0x1C;0x38;0x1C;0;0x1C;0;0x1C;0;0x1C;0xF8;0x1C;0x38;0x1C;0x38;0xE;0x38;0x7;0xF8;0;0;0;0];
  [0;0;0;0;0x1C;0x70;0x1C;0x70;0x1C;0x70;0x1C;0x70;0x1C;0x70;0x1F;0xF0;0x1F;0xF0;0x1C;0x70;0x1C;0x70;0x1C;0x70;0x1C;0x70;0x1C;0x70;0;0;0;0];
  [0;0;0;0;0xF;0xE0;0x3;0x80;0x3;0x80;0x3;0x80;0x3;0x80;0x3;0x80;0x3;0x80;0x3;0x80;0x3;0x80;0x3;0x80;0x3;0x80;0xF;0xE0;0;0;0;0];
  [0;0;0;0;0x1;0xFC;0;0x70;0;0x70;0;0x70;0;0x70;0;0x70;0;0x70;0x38;0x70;0x38;0x70;0x38;0x70;0x38;0x70;0xF;0xE0;0;0;0;0];
  [0;0;0;0;0x1E;0x38;0xE;0x38;0xE;0x70;0xE;0xE0;0xF;0xC0;0xF;0x80;0xF;0x80;0xF;0xC0;0xE;0xE0;0xE;0x70;0xE;0x38;0x1E;0x38;0;0;0;0];
  [0;0;0;0;0x1F;0;0xE;0;0xE;0;0xE;0;0xE;0;0xE;0;0xE;0;0xE;0;0xE;0x8;0xE;0x18;0xE;0x38;0x1F;0xF8;0;0;0;0];
  [0;0;0;0;0x1C;0x1C;0x1E;0x3C;0x1F;0x7C;0x1F;0xFC;0x1F;0xFC;0x1D;0xDC;0x1C;0x9C;0x1C;0x1C;0x1C;0x1C;0x1C;0x1C;0x1C;0x1C;0x1C;0x1C;0;0;0;0];
  [0;0;0;0;0x1C;0x1C;0x1C;0x1C;0x1E;0x1C;0x1F;0x1C;0x1F;0x9C;0x1D;0xDC;0x1C;0xFC;0x1C;0x7C;0x1C;0x3C;0x1C;0x1C;0x1C;0x1C;0x1C;0x1C;0;0;0;0];
  [0;0;0;0;0x3;0xE0;0x7;0xF0;0xE;0x38;0x1C;0x1C;0x1C;0x1C;0x1C;0x1C;0x1C;0x1C;0x1C;0x1C;0x1C;0x1C;0xE;0x38;0x7;0xF0;0x3;0xE0;0;0;0;0];
  [0;0;0;0;0x1F;0xF0;0xE;0x38;0xE;0x38;0xE;0x38;0xE;0x38;0xF;0xF0;0xF;0xF0;0xE;0;0xE;0;0xE;0;0xE;0;0x1F;0;0;0;0;0];
  [0;0;0;0;0x3;0xE0;0xF;0x78;0xE;0x38;0x1C;0x1C;0x1C;0x1C;0x1C;0x1C;0x1C;0x1C;0x1C;0x7C;0x1C;0xFC;0xF;0xF8;0xF;0xF8;0;0x38;0;0xFC;0;0];
  [0;0;0;0;0x1F;0xF0;0xE;0x38;0xE;0x38;0xE;0x38;0xE;0x38;0xF;0xF0;0xF;0xF0;0xE;0x70;0xE;0x38;0xE;0x38;0xE;0x38;0x1E;0x38;0;0;0;0];
  [0;0;0;0;0xF;0xF0;0x1C;0x38;0x1C;0x38;0x1C;0x38;0x1C;0;0xF;0xE0;0x7;0xF0;0;0x38;0x1C;0x38;0x1C;0x38;0x1C;0x38;0xF;0xF0;0;0;0;0];
  [0;0;0;0;0x1F;0xFC;0x19;0xCC;0x11;0xC4;0x1;0xC0;0x1;0xC0;0x1;0xC0;0x1;0xC0;0x1;0xC0;0x1;0xC0;0x1;0xC0;0x1;0xC0;0x7;0xF0;0;0;0;0];
  [0;0;0;0;0x1C;0x70;0x1C;0x70;0x1C;0x70;0x1C;0x70;0x1C;0x70;0x1C;0x70;0x1C;0x70;0x1C;0x70;0x1C;0x70;0x1C;0x70;0x1C;0x70;0xF;0xE0;0;0;0;0];
  [0;0;0;0;0x1C;0x70;0x1C;0x70;0x1C;0x70;0x1C;0x70;0x1C;0x70;0x1C;0x70;0x1C;0x70;0x1C;0x70;0x1C;0x70;0xE;0xE0;0x7;0xC0;0x3;0x80;0;0;0;0];
  [0;0;0;0;0x1C;0x1C;0x1C;0x1C;0x1C;0x1C;0x1C;0x1C;0x1C;0x1C;0x1C;0x9C;0x1C;0x9C;0x1C;0x9C;0xF;0xF8;0xF;0xF8;0x7;0x70;0x7;0x70;0;0;0;0];
  [0;0;0;0;0x1C;0x70;0x1C;0x70;0x1C;0x70;0xE;0xE0;0x7;0xC0;0x3;0x80;0x3;0x80;0x7;0xC0;0xE;0xE0;0x1C;0x70;0x1C;0x70;0x1C;0x70;0;0;0;0];
  [0;0;0;0;0x1C;0x70;0x1C;0x70;0x1C;0x70;0x1C;0x70;0x1C;0x70;0xE;0xE0;0x7;0xC0;0x3;0x80;0x3;0x80;0x3;0x80;0x3;0x80;0xF;0xE0;0;0;0;0];
  [0;0;0;0;0x1F;0xF8;0x1C;0x38;0x18;0x38;0x10;0x70;0;0xE0;0x1;0xC0;0x3;0x80;0x7;0;0xE;0x8;0x1C;0x18;0x1C;0x38;0x1F;0xF8;0;0;0;0];
  [0;0;0;0;0x7;0xF0;0x7;0;0x7;0;0x7;0;0x7;0;0x7;0;0x7;0;0x7;0;0x7;0;0x7;0;0x7;0;0x7;0xF0;0;0;0;0];
  [0;0;0;0;0x10;0;0x18;0;0x1C;0;0xE;0;0x7;0;0x3;0x80;0x1;0xC0;0;0xE0;0;0x70;0;0x38;0;0x1C;0;0x7;0;0;0;0];
  [0;0;0;0;0x7;0xF0;0;0x70;0;0x70;0;0x70;0;0x70;0;0x70;0;0x70;0;0x70;0;0x70;0;0x70;0;0x70;0x7;0xF0;0;0;0;0];
  [0;0;0x1;0x80;0x3;0xC0;0x7;0xE0;0xE;0x70;0x1C;0x38;0;0;0;0;0;0;0;0;0;0;0;0;0;0;0;0;0;0;0;0];
  [0;0;0;0;0;0;0;0;0;0;0;0;0;0;0;0;0;0;0;0;0;0;0;0;0;0;0;0;0x7F;0xFF;0x7F;0xFF];
  [0;0;0;0;0x1C;0;0x1C;0;0x7;0;0x7;0;0;0;0;0;0;0;0;0;0;0;0;0;0;0;0;0;0;0;0;0];
  [0;0;0;0;0;0;0;0;0;0;0;0;0xF;0xE0;0;0x70;0;0x70;0xF;0xF0;0x1C;0x70;0x1C;0x70;0x1C;0x70;0xF;0xD8;0;0;0;0];
  [0;0;0;0;0x1E;0;0xE;0;0xE;0;0xE;0;0xF;0xF0;0xE;0x38;0xE;0x38;0xE;0x38;0xE;0x38;0xE;0x38;0xE;0x38;0x1B;0xF0;0;0;0;0];
  [0;0;0;0;0;0;0;0;0;0;0;0;0xF;0xE0;0x1C;0x70;0x1C;0x70;0x1C;0;0x1C;0;0x1C;0x70;0x1C;0x70;0xF;0xE0;0;0;0;0];
  [0;0;0;0;0;0xF8;0;0x70;0;0x70;0;0x70;0xF;0xF0;0x1C;0x70;0x1C;0x70;0x1C;0x70;0x1C;0x70;0x1C;0x70;0x1C;0x70;0xF;0xD8;0;0;0;0];
  [0;0;0;0;0;0;0;0;0;0;0;0;0xF;0xE0;0x1C;0x70;0x1C;0x70;0x1F;0xF0;0x1C;0;0x1C;0x70;0x1C;0x70;0xF;0xE0;0;0;0;0];
  [0;0;0;0;0x3;0xE0;0x7;0x70;0x7;0x70;0x7;0;0x7;0;0x1F;0xE0;0x1F;0xE0;0x7;0;0x7;0;0x7;0;0x7;0;0x1F;0xC0;0;0;0;0];
  [0;0;0;0;0;0;0;0;0;0;0;0;0xF;0xD8;0x1C;0x70;0x1C;0x70;0x1C;0x70;0x1C;0x70;0xF;0xF0;0x7;0xF0;0;0x70;0x1C;0x70;0xF;0xE0];
  [0;0;0;0;0x1E;0;0xE;0;0xE;0;0xE;0;0xE;0xF0;0xF;0x38;0xF;0x38;0xE;0x38;0xE;0x38;0xE;0x38;0xE;0x38;0x1E;0x38;0;0;0;0];
  [0;0;0;0;0x1;0xC0;0x1;0xC0;0x1;0xC0;0;0;0xF;0xC0;0x1;0xC0;0x1;0xC0;0x1;0xC0;0x1;0xC0;0x1;0xC0;0x1;0xC0;0xF;0xF8;0;0;0;0];
  [0;0;0;0;0;0x70;0;0x70;0;0x70;0;0;0x3;0xF0;0;0x70;0;0x70;0;0x70;0;0x70;0;0x70;0;0x70;0x1C;0x70;0xC;0xF0;0x7;0xE0];
  [0;0;0;0;0x1E;0;0xE;0;0xE;0;0xE;0;0xE;0x38;0xE;0x70;0xE;0xE0;0xF;0xC0;0xE;0xE0;0xE;0x70;0xE;0x38;0x1E;0x38;0;0;0;0];
  [0;0;0;0;0xF;0xC0;0x1;0xC0;0x1;0xC0;0x1;0xC0;0x1;0xC0;0x1;0xC0;0x1;0xC0;0x1;0xC0;0x1;0xC0;0x1;0xC0;0x1;0xC0;0xF;0xF8;0;0;0;0];
  [0;0;0;0;0;0;0;0;0;0;0;0;0x1F;0xF8;0x1C;0x9C;0x1C;0x9C;0x1C;0x9C;0x1C;0x9C;0x1C;0x9C;0x1C;0x9C;0x1C;0x9C;0;0;0;0];
  [0;0;0;0;0;0;0;0;0;0;0;0;0x1F;0xE0;0x1C;0x70;0x1C;0x70;0x1C;0x70;0x1C;0x70;0x1C;0x70;0x1C;0x70;0x1C;0x70;0;0;0;0];
  [0;0;0;0;0;0;0;0;0;0;0;0;0xF;0xE0;0x1C;0x70;0x1C;0x70;0x1C;0x70;0x1C;0x70;0x1C;0x70;0x1C;0x70;0xF;0xE0;0;0;0;0];
  [0;0;0;0;0;0;0;0;0;0;0;0;0x1B;0xF0;0xE;0x38;0xE;0x38;0xE;0x38;0xE;0x38;0xE;0x38;0xF;0xF0;0xE;0;0xE;0;0x1F;0];
  [0;0;0;0;0;0;0;0;0;0;0;0;0x1F;0xB0;0x38;0xE0;0x38;0xE0;0x38;0xE0;0x38;0xE0;0x38;0xE0;0x1F;0xE0;0;0xE0;0;0xE0;0x1;0xF0];
  [0;0;0;0;0;0;0;0;0;0;0;0;0x1E;0xF0;0xF;0xF8;0xF;0x38;0xE;0;0xE;0;0xE;0;0xE;0;0x1F;0;0;0;0;0];
  [0;0;0;0;0;0;0;0;0;0;0;0;0xF;0xE0;0x1C;0x30;0x1C;0x30;0xF;0x80;0x3;0xE0;0x18;0x70;0x18;0x70;0xF;0xE0;0;0;0;0];
  [0;0;0;0;0;0;0x1;0;0x3;0;0x7;0;0x1F;0xF0;0x7;0;0x7;0;0x7;0;0x7;0;0x7;0x70;0x7;0x70;0x3;0xE0;0;0;0;0];
  [0;0;0;0;0;0;0;0;0;0;0;0;0x1C;0x70;0x1C;0x70;0x1C;0x70;0x1C;0x70;0x1C;0x70;0x1C;0x70;0x1C;0x70;0xF;0xD8;0;0;0;0];
  [0;0;0;0;0;0;0;0;0;0;0;0;0x1C;0x70;0x1C;0x70;0x1C;0x70;0x1C;0x70;0x1C;0x70;0xE;0xE0;0x7;0xC0;0x3;0x80;0;0;0;0];
  [0;0;0;0;0;0;0;0;0;0;0;0;0x1C;0x1C;0x1C;0x1C;0x1C;0x1C;0x1C;0x9C;0x1C;0x9C;0xF;0xF8;0x7;0x70;0x7;0x70;0;0;0;0];
  [0;0;0;0;0;0;0;0;0;0;0;0;0x1C;0xE0;0x1C;0xE0;0xF;0xC0;0x7;0x80;0x7;0x80;0xF;0xC0;0x1C;0xE0;0x1C;0xE0;0;0;0;0];
  [0;0;0;0;0;0;0;0;0;0;0;0;0xE;0x38;0xE;0x38;0xE;0x38;0xE;0x38;0xE;0x38;0x7;0xF0;0x3;0xE0;0;0xE0;0x1;0xC0;0x1F;0x80];
  [0;0;0;0;0;0;0;0;0;0;0;0;0x1F;0xE0;0x18;0xE0;0x11;0xC0;0x3;0x80;0x7;0;0xE;0x20;0x1C;0x60;0x1F;0xE0;0;0;0;0];
  [0;0;0;0;0x1;0xF8;0x3;0x80;0x3;0x80;0x3;0x80;0x7;0;0x1C;0;0x1C;0;0x7;0;0x3;0x80;0x3;0x80;0x3;0x80;0x1;0xF8;0;0;0;0];
  [0;0;0x1;0xC0;0x1;0xC0;0x1;0xC0;0x1;0xC0;0x1;0xC0;0x1;0xC0;0x1;0xC0;0x1;0xC0;0x1;0xC0;0x1;0xC0;0x1;0xC0;0x1;0xC0;0x1;0xC0;0x1;0xC0;0;0];
  [0;0;0;0;0x1F;0x80;0x1;0xC0;0x1;0xC0;0x1;0xC0;0;0xE0;0;0x38;0;0x38;0;0xE0;0x1;0xC0;0x1;0xC0;0x1;0xC0;0x1F;0x80;0;0;0;0];
  [0;0;0;0;0x1F;0x1C;0x3B;0x9C;0x39;0xDC;0x38;0xF8;0;0;0;0;0;0;0;0;0;0;0;0;0;0;0;0;0;0;0;0]].

(** [GetFont]: nxkernel/console/outputs/outputs_base.c:125-134 *)
Definition GetFont (c : Z) : list Z :=
  let uc := u8 c in
  if (uc <? FONT_FIRST_CHAR) || (FONT_LAST_CHAR <? uc) then nth 0 FONTS []
  else nth (Z.to_nat (uc - FONT_FIRST_CHAR)) FONTS [].

(** The 16 pixels of a row from its two bytes. *)
(** [line_buffer]: nxkernel/console/outputs/outputs_base.c:163-173 *)
Definition line_buffer (glyph : list Z) (row : nat) (fg bg : Z) : list Z :=
  let b0 := nth (row * 2) glyph 0 in
  let b1 := nth (row * 2 + 1) glyph 0 in
  ((fun bit => if tst b0 (Z.shiftr 0x80 bit) then fg else bg) <$> seqZ 0 8) ++
  ((fun bit => if tst b1 (Z.shiftr 0x80 bit) then fg else bg) <$> seqZ 0 8).

(** Stores of 32-bit words from [a] on. *)
Fixpoint st_words (a : Z) (ws : list Z) (m : mem) : mem :=
  match ws with [] => m | w :: ws => st_words (a + 4) ws (stn 4 a w m) end.

(** The address [&fb[i]] of an [u32] array. *)
Definition pixel_addr (fb i : Z) : Z := u64 (fb + 4 * i).

(** [draw_char_fast]: nxkernel/console/outputs/outputs_base.c:144-183 *)
Definition draw_char_fast (fb pixels_per_scanline x y c fg bg : Z) (m : mem) : Nerror * mem :=
  if (fb =? 0) || (pixels_per_scanline =? 0) then (NinvalidArg, m)
  else
    let glyph := GetFont c in
    (Nok, for_range 0 16 (fun row m =>
       st_words (pixel_addr fb (u64 (u32 (y + row) * pixels_per_scanline + x)))
         (line_buffer glyph (Z.to_nat row) fg bg) m) m).

(** [draw_char_bounded]: nxkernel/console/outputs/outputs_base.c:189-210 *)
Definition draw_char_bounded (fb pixels_per_scanline width height x y c fg bg : Z) (m : mem) : Nerror * mem :=
  if (fb =? 0) || (pixels_per_scanline =? 0) || (pixels_per_scanline <? width) then (NinvalidArg, m)
  else if (width <? x) || (height <? y) then (NinvalidArg, m)
  else if (u32 (width - x) <? FONT_WIDTH) || (u32 (height - y) <? FONT_HEIGHT) then (NinvalidArg, m)
  else draw_char_fast fb pixels_per_scanline x y c fg bg m.

(** ** The console *)

(** [FONT_W]: nxkernel/console/outputs/printk.h:14-14 *)
Definition FONT_W : Z := 16.
(** [FONT_H]: nxkernel/console/outputs/printk.h:15-15 *)
Definition FONT_H : Z := 16.
(** [CONSOLE_FG]: nxkernel/console/outputs/printk.c:35-35 *)
Definition CONSOLE_FG : Z := 0xFFFFFF.
(** [CONSOLE_BG]: nxkernel/console/outputs/printk.c:36-36 *)
Definition CONSOLE_BG : Z := 0x000000.
(** [CONSOLE_MAX_DIM]: nxkernel/console/outputs/printk.c:39-39 *)
Definition CONSOLE_MAX_DIM : Z := 16384.
(** [COM1_BASE]: nxkernel/console/outputs/serial.c:13-13 *)
Definition COM1_BASE : Z := 0x3F8.

(** The variables of both files, the frame buffer's memory, and the writes to
    I/O ports so far, the last first. *)
(** [g_fb]: nxkernel/console/outputs/printk.c:28-33 *)
Record console := mk_con {
  g_fb : Z;
  g_stride : Z;
  g_screen_width : Z;
  g_screen_height : Z;
  g_cursor_x : Z;
  g_cursor_y : Z;
  fb_mem : mem;
  g_serial_ready : bool;
  outb_log : list (Z * Z);
}.

Implicit Types (c : console).

Definition set_fb_mem (m : mem) c : console :=
  mk_con (g_fb c) (g_stride c) (g_screen_width c) (g_screen_height c) (g_cursor_x c) (g_cursor_y c) m
    (g_serial_ready c) (outb_log c).
Definition set_cursor (x y : Z) c : console :=
  mk_con (g_fb c) (g_stride c) (g_screen_width c) (g_screen_height c) x y (fb_mem c)
    (g_serial_ready c) (outb_log c).
Definition set_serial (ready : bool) c : console :=
  mk_con (g_fb c) (g_stride c) (g_screen_width c) (g_screen_height c) (g_cursor_x c) (g_cursor_y c) (fb_mem c)
    ready (outb_log c).
Definition outb (port v : Z) c : console :=
  mk_con (g_fb c) (g_stride c) (g_screen_width c) (g_screen_height c) (g_cursor_x c) (g_cursor_y c) (fb_mem c)
    (g_serial_ready c) ((port, u8 v) :: outb_log c).

(** ** The serial port *)

(** [probe]: what the loop-back test reads. *)
(** [serial_init]: nxkernel/console/outputs/serial.c:26-50 *)
Definition serial_init (probe : Z) c : Nerror * console :=
  let c := fold_left (fun c '(port, v) => outb port v c)
    [(COM1_BASE + 1, 0x00); (COM1_BASE + 3, 0x80); (COM1_BASE + 0, 0x01); (COM1_BASE + 1, 0x00);
     (COM1_BASE + 3, 0x03); (COM1_BASE + 2, 0xC7); (COM1_BASE + 4, 0x1E); (COM1_BASE + 0, 0xAE)] c in
  if negb (probe =? 0xAE) then (NdeviceMissing, set_serial false c)
  else (Nok, set_serial true (outb (COM1_BASE + 4) 0x0F c)).

(** [serial_available]: nxkernel/console/outputs/serial.c:52-55 *)
Definition serial_available c : bool := g_serial_ready c.

(** The wait for the transmitter reads a register and is bounded; the write
    follows it in any case. *)
(** [serial_putc]: nxkernel/console/outputs/serial.c:57-71 *)
Definition serial_putc (ch : Z) c : console :=
  if negb (g_serial_ready c) then c else outb (COM1_BASE + 0) ch c.

(** ** The frame buffer *)

(** The loops that fill rows [[lo, hi)] with the background. *)
(** [clear_rows]: nxkernel/console/outputs/printk.c:65-72 *)
Definition clear_rows (fb stride width lo hi : Z) (m : mem) : mem :=
  for_range lo hi (fun row m =>
    for_range 0 width (fun col m => stn 4 (pixel_addr fb (u64 (row * stride) + col)) CONSOLE_BG m) m) m.

(** [printk_init]: nxkernel/console/outputs/printk.c:41-74 *)
Definition printk_init (framebuffer pixels_per_scanline screen_width screen_height : Z) c : Nerror * console :=
  if (framebuffer =? 0) || (pixels_per_scanline =? 0) || (screen_width =? 0) || (screen_height =? 0)
  then (NinvalidArg, c)
  else if (CONSOLE_MAX_DIM <? screen_width) || (CONSOLE_MAX_DIM <? screen_height) then (NinvalidArg, c)
  else if (pixels_per_scanline <? screen_width) || (CONSOLE_MAX_DIM * 2 <? pixels_per_scanline)
  then (NinvalidArg, c)
  else if (screen_width <? FONT_W) || (screen_height <? FONT_H) then (NinvalidArg, c)
  else
    (Nok, mk_con framebuffer pixels_per_scanline screen_width screen_height 0 0
            (clear_rows framebuffer pixels_per_scanline screen_width 0 screen_height (fb_mem c))
            (g_serial_ready c) (outb_log c)).

(** [console_scroll]: nxkernel/console/outputs/printk.c:77-93 *)
Definition console_scroll c : console :=
  let rows_to_move := u64 (g_screen_height c - FONT_H) in
  let m := memmove (g_fb c) (pixel_addr (g_fb c) (u64 (FONT_H * g_stride c)))
             (u64 (rows_to_move * g_stride c * 4)) (fb_mem c) in
  set_fb_mem (clear_rows (g_fb c) (g_stride c) (g_screen_width c) rows_to_move (g_screen_height c) m) c.

(** The loop lowers the cursor until the row fits: [fuel] is more than the
    rows above it. *)
(** [console_newline]: nxkernel/console/outputs/printk.c:95-105 *)
Definition console_newline c : console :=
  let c := set_cursor 0 (u32 (g_cursor_y c + FONT_H)) c in
  while (S (Z.to_nat (g_cursor_y c)))
    (fun c => g_screen_height c <? u32 (g_cursor_y c + FONT_H))
    (fun c => let c := console_scroll c in set_cursor (g_cursor_x c) (u32 (g_cursor_y c - FONT_H)) c) c.

(** [fb_putc]: nxkernel/console/outputs/printk.c:108-139 *)
Definition fb_putc (ch : Z) c : console :=
  if g_fb c =? 0 then c
  else if ch =? 10 then console_newline c
  else if ch =? 13 then set_cursor 0 (g_cursor_y c) c
  else if ch =? 9 then
    let tab := FONT_W * 4 in
    let c := set_cursor (u32 (u32 (g_cursor_x c / tab + 1) * tab)) (g_cursor_y c) c in
    if g_screen_width c <? u32 (g_cursor_x c + FONT_W) then console_newline c else c
  else
    let c := if g_screen_width c <? u32 (g_cursor_x c + FONT_W) then console_newline c else c in
    let '(_, m) := draw_char_bounded (g_fb c) (g_stride c) (g_screen_width c) (g_screen_height c)
                     (g_cursor_x c) (g_cursor_y c) ch CONSOLE_FG CONSOLE_BG (fb_mem c) in
    let c := set_fb_mem m c in
    set_cursor (u32 (g_cursor_x c + FONT_W)) (g_cursor_y c) c.

(** [printk_putc]: nxkernel/console/outputs/printk.c:142-148 *)
Definition printk_putc (ch : Z) c : console :=
  let c := if ch =? 10 then serial_putc 13 c else c in
  fb_putc ch (serial_putc ch c).

Definition putchars (cs : list Z) c : console := fold_left (fun c ch => printk_putc ch c) cs c.

(** ** Formatting *)

(** "(null)" *)
Definition null_text : list Z := [40; 110; 117; 108; 108; 41].

(** [print_string]: nxkernel/console/outputs/printk.c:151-168 *)
Definition print_string (s : option (list Z)) (width : Z) c : console :=
  let s := match s with Some s => s | None => null_text end in
  let len := Z.of_nat (length s) in
  let c := putchars (replicate (Z.to_nat (width - len)) 32) c in
  putchars s c.

(** [digits[d]] *)
Definition digit_char (upper : bool) (d : Z) : Z :=
  if d <? 10 then 48 + d else (if upper then 65 else 97) + (d - 10).

(** The digits the loop of [print_number] stores in [tmp], the lowest first. *)
(** [number_digits]: nxkernel/console/outputs/printk.c:186-189 *)
Fixpoint number_digits (room : nat) (value base : Z) (upper : bool) : list Z :=
  match room with
  | O => []
  | S room =>
      if 0 <? value then digit_char upper (value mod base) :: number_digits room (value / base) base upper
      else []
  end.

(** [print_number]: nxkernel/console/outputs/printk.c:176-207 *)
Definition print_number (value base : Z) (upper : bool) (width : Z) (pad_zero neg : bool) c : console :=
  let tmp := if value =? 0 then [48] else number_digits 24 value base upper in
  let total := Z.of_nat (length tmp) + (if neg then 1 else 0) in
  let c := if neg && pad_zero then printk_putc 45 c else c in
  let c := putchars (replicate (Z.to_nat (width - total)) (if pad_zero then 48 else 32)) c in
  let c := if neg && negb pad_zero then printk_putc 45 c else c in
  putchars (rev tmp) c.

(** [print_unsigned]: nxkernel/console/outputs/printk.c:209-212 *)
Definition print_unsigned (value base : Z) (upper : bool) (width : Z) (pad_zero : bool) c : console :=
  print_number value base upper width pad_zero false c.

(** [print_signed]: nxkernel/console/outputs/printk.c:214-222 *)
Definition print_signed (value width : Z) (pad_zero : bool) c : console :=
  if value <? 0 then print_number (u64 (- u64 value)) 10 false width pad_zero true c
  else print_number (u64 value) 10 false width pad_zero false c.

(** An argument of a call: a value passed as a 64-bit word, or a string. *)
Inductive varg := ANum (z : Z) | AStr (s : option (list Z)).

(** The field width: at most 64. *)
(** [read_width]: nxkernel/console/outputs/printk.c:249-254 *)
Fixpoint read_width (format : list Z) (width : Z) : Z * list Z :=
  match format with
  | ch :: rest =>
      if (48 <=? ch) && (ch <=? 57) then
        let width := u32 (u32 (width * 10) + (ch - 48)) in
        read_width rest (if 64 <? width then 64 else width)
      else (width, format)
  | [] => (width, [])
  end.

(** [read_length]: nxkernel/console/outputs/printk.c:257-260 *)
Fixpoint read_length (format : list Z) (longness : Z) : Z * list Z :=
  match format with
  | ch :: rest => if (ch =? 108) || (ch =? 122) then read_length rest (u32 (longness + 1)) else (longness, format)
  | [] => (longness, [])
  end.

(** One conversion: the console and the arguments left, or [None] when the
    argument the conversion takes is missing or of the other kind, which C
    leaves undefined. *)
(** [convert]: nxkernel/console/outputs/printk.c:269-322 *)
Definition convert (spec longness width : Z) (pad_zero : bool) (args : list varg) c : option (console * list varg) :=
  let num (f : Z -> console) :=
    match args with ANum z :: args => Some (f z, args) | _ => None end in
  let signed z := if longness =? 0 then sw 32 z else sw 64 z in
  let unsigned z := if longness =? 0 then u32 z else u64 z in
  if spec =? 37 then Some (printk_putc 37 c, args)                                       (* % *)
  else if spec =? 99 then num (fun z => printk_putc (u8 z) c)                            (* c *)
  else if spec =? 115 then
    match args with AStr s :: args => Some (print_string s width c, args) | _ => None end (* s *)
  else if (spec =? 100) || (spec =? 105) then num (fun z => print_signed (signed z) width pad_zero c)
  else if spec =? 117 then num (fun z => print_unsigned (unsigned z) 10 false width pad_zero c)
  else if (spec =? 120) || (spec =? 88) then
    num (fun z => print_unsigned (unsigned z) 16 (spec =? 88) width pad_zero c)
  else if spec =? 112 then
    num (fun z => print_unsigned (u64 z) 16 false 16 true (printk_putc 120 (printk_putc 48 c)))
  else if spec =? 114 then
    num (fun z => print_unsigned (u64 (u32 z)) 16 false 8 true (printk_putc 120 (printk_putc 48 c)))
  else Some (printk_putc spec (printk_putc 37 c), args).

(** The loop, [fuel] being more than the characters left. *)
(** [vformat_loop]: nxkernel/console/outputs/printk.c:229-323 *)
Fixpoint vformat_loop (fuel : nat) (format : list Z) (args : list varg) c : option console :=
  match fuel, format with
  | O, _ | _, [] => Some c
  | S fuel, ch :: format =>
      if negb (ch =? 37) then vformat_loop fuel format args (printk_putc ch c)
      else
        let '(pad_zero, format) :=
          match format with z :: rest => if z =? 48 then (true, rest) else (false, format) | [] => (false, []) end in
        let '(width, format) := read_width format 0 in
        let '(longness, format) := read_length format 0 in
        match format with
        | [] => Some (printk_putc 37 c)
        | spec :: format =>
            match convert spec longness width pad_zero args c with
            | Some (c, args) => vformat_loop fuel format args c
            | None => None
            end
        end
  end.

(** [printk_vformat]: nxkernel/console/outputs/printk.c:224-326 *)
Definition printk_vformat (format : option (list Z)) (args : list varg) c : option (Nerror * console) :=
  match format with
  | None => Some (NinvalidArg, c)
  | Some format => pair Nok <$> vformat_loop (S (length format)) format args c
  end.

(** [printk]: nxkernel/console/outputs/printk.c:345-355 *)
Definition printk (format : option (list Z)) (args : list varg) c : option (Nerror * console) :=
  printk_vformat format args c.

(** What [printk_write] prints for a byte. *)
Definition shown (ch : Z) : Z :=
  if (ch =? 10) || (ch =? 13) || (ch =? 9) || ((0x20 <=? ch) && (ch <=? 0x7E)) then ch else 63.

(** For a buffer that is not null. *)
(** [printk_write]: nxkernel/console/outputs/printk.c:328-343 *)
Definition printk_write (buf : list Z) c : console := putchars (shown <$> buf) c.
