(* ===== verification/PrintkProps.v ===== *)
(** * The kernel log, specified

    Whatever is printed, the only memory that changes is the frame buffer, and
    numbers are printed so that they can be read back. *)

From S2P Require Import Prelude Types Mem Memory Bytes Printk.

(** ** The frame buffer *)

(** Only the bytes of [[lo, hi)] differ. *)
Definition confined (lo hi : Z) (m m' : mem) : Prop := forall a, ~ lo <= a < hi -> ld8 m' a = ld8 m a.

#[export] Instance confined_preorder lo hi : PreOrder (confined lo hi).
Proof. split; [by intros m a|]. intros m1 m2 m3 H1 H2 a Ha. by rewrite H2, H1. Qed.

Lemma confined_sub lo hi lo' hi' m m' : lo' <= lo -> hi <= hi' -> confined lo hi m m' -> confined lo' hi' m m'.
Proof. intros Hl Hh Hc a Ha. apply Hc. lia. Qed.

Lemma confined_stn n a v m : confined a (a + Z.of_nat n) m (stn n a v m).
Proof. intros b Hb. rewrite ld8_stn. case_if; [lia|done]. Qed.

Lemma confined_upd lo hi m m' f : mem_upd m m' lo hi f -> confined lo hi m m'.
Proof. intros Hu a Ha. rewrite Hu. case_if; [lia|done]. Qed.

Lemma confined_words a ws m : confined a (a + 4 * Z.of_nat (length ws)) m (st_words a ws m).
Proof.
  revert a m. induction ws as [|w ws IH]; intros a m; [by intros b|]. cbn [st_words length].
  transitivity (stn 4 a w m); [apply (confined_sub a (a + Z.of_nat 4)); [lia..|apply confined_stn]|].
  eapply confined_sub; [| |apply IH]; lia.
Qed.

Lemma for_range_ind {S} (I : S -> Prop) lo hi (b : Z -> S -> S) s :
  (forall i s, lo <= i < hi -> I s -> I (b i s)) -> I s -> I (for_range lo hi b s).
Proof.
  intros Hb Hs. unfold for_range.
  assert (Hi : Forall (fun i => lo <= i < hi) (seqZ lo (hi - lo))) by (apply Forall_seqZ; intros; lia).
  revert s Hs. induction Hi as [|i l Hi _ IH]; intros s Hs; [done|]. simpl. apply IH. by apply Hb.
Qed.

(** A console without a frame buffer, or with one of a size that [printk_init]
    accepts, inside the address space, and the cursor at a place for a row. *)
Definition con_ok c : Prop :=
  g_fb c = 0 \/
  (0 < g_fb c /\ FONT_W <= g_screen_width c <= g_stride c /\ g_stride c <= 2 * CONSOLE_MAX_DIM /\
   FONT_H <= g_screen_height c <= CONSOLE_MAX_DIM /\
   g_fb c + 4 * (g_stride c * g_screen_height c) < 2 ^ 64 /\
   0 <= g_cursor_x c <= g_screen_width c /\ 0 <= g_cursor_y c /\ g_cursor_y c + FONT_H <= g_screen_height c).

Definition fb_end c : Z := g_fb c + 4 * (g_stride c * g_screen_height c).

(** What printing does: the console stays well-formed, the same buffer, and
    no byte outside it changes. *)
Definition printed c c' : Prop :=
  g_fb c' = g_fb c /\ g_stride c' = g_stride c /\ g_screen_width c' = g_screen_width c /\
  g_screen_height c' = g_screen_height c /\ g_serial_ready c' = g_serial_ready c /\
  confined (g_fb c) (fb_end c) (fb_mem c) (fb_mem c').

#[export] Instance printed_preorder : PreOrder printed.
Proof.
  split; [intros c; do 5 (split; [done|]); reflexivity|]. intros c1 c2 c3 (Ef & Es & Ew & Eh & Er & HA) (? & ? & ? & ? & ? & HB).
  do 5 (split; [congruence|]). transitivity (fb_mem c2); [done|]. unfold fb_end in *. by rewrite Ef, Es, Eh in HB.
Qed.

Lemma row_bounds stride x y h n : 0 <= x -> 0 <= y < h -> x + n <= stride -> 0 <= n ->
  0 <= y * stride + x /\ y * stride + x + n <= stride * h.
Proof. intros. assert (0 <= y * stride <= (h - 1) * stride) by nia. nia. Qed.

Lemma pixel_addr_small fb i : 0 <= fb -> 0 <= i -> fb + 4 * i < 2 ^ 64 -> pixel_addr fb i = fb + 4 * i.
Proof. intros. apply uw_small. lia. Qed.

Lemma confined_draw fb stride w h x y ch m : 0 < fb -> w <= stride -> stride <= 2 ^ 32 -> h <= 2 ^ 31 -> w <= 2 ^ 31 ->
  0 <= x -> 0 <= y -> fb + 4 * (stride * h) < 2 ^ 64 ->
  confined fb (fb + 4 * (stride * h)) m (draw_char_bounded fb stride w h x y ch CONSOLE_FG CONSOLE_BG m).2.
Proof.
  intros Hfb Hw Hs Hh Hw2 Hx Hy He. unfold draw_char_bounded. case_if; [done|]. case_if; [done|].
  rewrite !uw_small by lia. unfold FONT_WIDTH, FONT_HEIGHT. case_if; [done|].
  unfold draw_char_fast. case_if; [done|]. cbn [snd].
  apply (for_range_ind (confined fb (fb + 4 * (stride * h)) m)); [|done]. intros row m' Hr Hm'.
  etrans; [exact Hm'|]. rewrite (uw_small 32) by lia.
  destruct (row_bounds stride x (y + row) h 16) as [Hlo Hhi]; [lia..|].
  rewrite (uw_small 64) by lia. rewrite pixel_addr_small by lia.
  eapply confined_sub; [| |apply confined_words].
  - lia.
  - unfold line_buffer. rewrite length_app, !length_fmap, !length_seqZ. simpl. lia.
Qed.

Lemma confined_rows fb stride w lo hi h m : 0 < fb -> 0 <= w <= stride -> 0 <= lo -> hi <= h ->
  fb + 4 * (stride * h) < 2 ^ 64 ->
  confined fb (fb + 4 * (stride * h)) m (clear_rows fb stride w lo hi m).
Proof.
  intros Hfb Hw Hlo Hh He. unfold clear_rows.
  apply (for_range_ind (confined fb (fb + 4 * (stride * h)) m)); [|done]. intros row m1 Hr Hm1.
  apply (for_range_ind (confined fb (fb + 4 * (stride * h)) m)); [|done]. intros col m2 Hc Hm2.
  etrans; [exact Hm2|]. destruct (row_bounds stride col row h 1) as [H1 H2]; [lia..|].
  assert (0 <= row * stride) by nia. rewrite uw_small by lia. rewrite pixel_addr_small by lia.
  eapply confined_sub; [| |apply confined_stn]; lia.
Qed.

Lemma init_ok fb stride w h c : 0 <= fb -> 0 <= stride -> 0 <= w -> 0 <= h -> fb + 4 * (stride * h) < 2 ^ 64 ->
  con_ok c -> con_ok (printk_init fb stride w h c).2.
Proof.
  intros Hfb Hs Hw Hh He Hok. unfold printk_init. case_if; [done|]. case_if; [done|]. case_if; [done|].
  unfold FONT_W, FONT_H in *. case_if; [done|]. right. cbn. unfold FONT_W, FONT_H, CONSOLE_MAX_DIM in *. lia.
Qed.

Lemma scroll_printed c : con_ok c -> g_fb c <> 0 -> printed c (console_scroll c).
Proof.
  intros [?|(Hfb & Hw & Hs & Hh & He & _)] Hne; [done|]. unfold FONT_W, FONT_H, CONSOLE_MAX_DIM in *.
  do 5 (split; [done|]). unfold console_scroll, fb_end, FONT_H. cbn [fb_mem set_fb_mem].
  assert (0 <= (g_screen_height c - 16) * g_stride c) by nia.
  assert (0 <= g_screen_height c * g_stride c < 2 ^ 62) by lia.
  rewrite !(uw_small 64) by lia. rewrite pixel_addr_small by lia.
  etrans; [|apply confined_rows; lia].
  eapply confined_sub; [| |eapply confined_upd, memmove_upd]; lia.
Qed.

(** A console operation that is safe to run. *)
Definition safe (f : console -> console) : Prop := forall c, con_ok c -> con_ok (f c) /\ printed c (f c).

Lemma safe_comp (f h : console -> console) : safe f -> safe h -> safe (fun c => h (f c)).
Proof.
  intros Hf Hh c Hok. destruct (Hf c Hok) as [Hok1 Hp1]. destruct (Hh _ Hok1) as [Hok2 Hp2].
  split; [done|]. by etrans.
Qed.

Lemma safe_id : safe (fun c => c).
Proof. by intros c. Qed.

Lemma newline_safe c : con_ok c -> g_fb c <> 0 -> con_ok (console_newline c) /\ printed c (console_newline c) /\
  g_cursor_x (console_newline c) = 0.
Proof.
  intros [?|(Hfb & Hw & Hs & Hh & He & Hx & Hy & Hyh)] Hne; [done|]. unfold console_newline.
  unfold FONT_W, FONT_H, CONSOLE_MAX_DIM in *. rewrite uw_small by lia. set (c1 := set_cursor 0 _ c).
  assert (Hok1 : con_ok (set_cursor 0 (g_cursor_y c) c))
    by (right; cbn; unfold FONT_W, FONT_H, CONSOLE_MAX_DIM; lia).
  assert (Hp1 : printed c c1) by done. cbn [while]. cbn [g_cursor_y c1 set_cursor g_screen_height].
  rewrite uw_small by lia. case_if.
  2:{ split; [|by split]. right. cbn. unfold FONT_W, FONT_H, CONSOLE_MAX_DIM. lia. }
  set (c2 := console_scroll c1). assert (Hp2 : printed c c2).
  { destruct (scroll_printed _ Hok1 Hne) as (? & ? & ? & ? & ? & Hm). by split_and!. }
  cbn [g_cursor_x set_cursor c1]. change (g_cursor_y c2) with (g_cursor_y c + 16).
  change (g_cursor_x c2) with 0. rewrite uw_small by lia.
  replace (g_cursor_y c + 16 - 16) with (g_cursor_y c) by lia.
  set (c3 := set_cursor 0 (g_cursor_y c) c2).
  assert (Hc3 : g_screen_height c <? u32 (g_cursor_y c3 + 16) = false).
  { change (g_cursor_y c3) with (g_cursor_y c). rewrite uw_small by lia. lia. }
  assert (Hw3 : forall n, while n (fun c => g_screen_height c <? u32 (g_cursor_y c + 16))
    (fun c => set_cursor (g_cursor_x (console_scroll c)) (u32 (g_cursor_y (console_scroll c) - 16)) (console_scroll c)) c3 = c3).
  { intros [|n]; [done|]. cbn [while]. change (g_screen_height c3) with (g_screen_height c). by rewrite Hc3. }
  rewrite Hw3. split; [|by split]. right. cbn. unfold FONT_W, FONT_H, CONSOLE_MAX_DIM. lia.
Qed.

(** Room for one more character in the row. *)
Lemma wrap_safe c : con_ok c -> g_fb c <> 0 ->
  let c' := if g_screen_width c <? u32 (g_cursor_x c + FONT_W) then console_newline c else c in
  con_ok c' /\ printed c c' /\ g_cursor_x c' + FONT_W <= g_screen_width c'.
Proof.
  intros Hok Hne. pose proof Hok as [?|(Hfb & Hw & Hs & Hh & He & Hx & Hy & Hyh)]; [done|].
  unfold FONT_W, FONT_H, CONSOLE_MAX_DIM in *. rewrite uw_small by lia. case_if; [|split_and!; [done..|lia]].
  destruct (newline_safe c Hok Hne) as (Hok' & Hp & Hx0). split; [done|]. split; [done|].
  destruct Hp as (_ & _ & Hpw & _). lia.
Qed.

Lemma fb_putc_safe ch : safe (fb_putc ch).
Proof.
  intros c Hok. unfold fb_putc. case_if; [by split|]. pose proof Hok as [?|(Hfb & Hw & Hs & Hh & He & Hx & Hy & Hyh)]; [done|].
  unfold FONT_W, FONT_H, CONSOLE_MAX_DIM in *.
  case_if; [by destruct (newline_safe c Hok) as (? & ? & _)|].
  case_if; [split; [|done]; right; cbn; unfold FONT_W, FONT_H, CONSOLE_MAX_DIM; lia|].
  case_if.
  - assert (0 <= g_cursor_x c / 64) by (apply Z.div_pos; lia).
    assert (g_cursor_x c / 64 * 64 <= g_cursor_x c) by (rewrite Z.mul_comm; apply Z.mul_div_le; lia).
    change (16 * 4) with 64. cbv zeta. rewrite (uw_small 32 (g_cursor_x c / 64 + 1)) by lia.
    rewrite (uw_small 32 ((g_cursor_x c / 64 + 1) * 64)) by lia.
    set (c1 := set_cursor _ (g_cursor_y c) c). cbn [g_screen_width g_cursor_x c1 set_cursor].
    rewrite (uw_small 32) by lia. case_if.
    + assert (Hc : console_newline c1 = console_newline c) by done. rewrite Hc.
      by destruct (newline_safe c Hok) as (? & ? & _).
    + split; [|done]. right. cbn. unfold FONT_W, FONT_H, CONSOLE_MAX_DIM. lia.
  - pose proof (wrap_safe c Hok ltac:(done)) as Hwrap. cbv zeta in Hwrap. unfold FONT_W in Hwrap.
    match goal with |- context [if ?b then console_newline c else c] => set (c1 := if b then console_newline c else c) in * end.
    clearbody c1. destruct Hwrap as (Hok1 & Hp1 & Hr1). pose proof Hp1 as (Hf1 & Hs1 & Hw1 & Hh1 & _).
    destruct Hok1 as [?|(Hfb1 & Hww & Hss & Hhh & Hee & Hxx & Hyy & Hyyh)]; [congruence|].
    unfold FONT_W, FONT_H, CONSOLE_MAX_DIM in *.
    pose proof (confined_draw (g_fb c1) (g_stride c1) (g_screen_width c1) (g_screen_height c1) (g_cursor_x c1)
      (g_cursor_y c1) ch (fb_mem c1) ltac:(lia) ltac:(lia) ltac:(lia) ltac:(lia) ltac:(lia) ltac:(lia) ltac:(lia) Hee) as Hd.
    destruct (draw_char_bounded _ _ _ _ _ _ _ _ _ _) as [st m]. cbn [snd] in Hd. cbn [set_fb_mem g_cursor_x g_cursor_y].
    rewrite uw_small by lia. split.
    + right. cbn. unfold FONT_W, FONT_H, CONSOLE_MAX_DIM. lia.
    + etrans; [exact Hp1|]. by split_and!.
Qed.

Lemma serial_safe ch : safe (serial_putc ch).
Proof. intros c Hok. unfold serial_putc. case_if; by split. Qed.

Lemma putc_safe ch : safe (printk_putc ch).
Proof.
  intros c Hok. unfold printk_putc.
  apply (safe_comp (fun c => if ch =? 10 then serial_putc 13 c else c) (fun c => fb_putc ch (serial_putc ch c))); [| |done].
  - case_if; [apply serial_safe|apply safe_id].
  - apply (safe_comp (serial_putc ch) (fb_putc ch)); [apply serial_safe|apply fb_putc_safe].
Qed.

Lemma putchars_safe cs : safe (putchars cs).
Proof.
  induction cs as [|ch cs IH]; [apply safe_id|]. change (safe (fun c => putchars cs (printk_putc ch c))).
  apply safe_comp; [apply putc_safe|done].
Qed.

Create HintDb console.
#[export] Hint Resolve safe_id putc_safe putchars_safe : console.

(** The text [print_number] prints. *)
Definition number_text (value base : Z) (upper : bool) (width : Z) (pad_zero neg : bool) : list Z :=
  let tmp := if value =? 0 then [48] else number_digits 24 value base upper in
  let total := Z.of_nat (length tmp) + (if neg then 1 else 0) in
  (if neg && pad_zero then [45] else []) ++
  replicate (Z.to_nat (width - total)) (if pad_zero then 48 else 32) ++
  (if neg && negb pad_zero then [45] else []) ++ rev tmp.

Lemma putchars_app a b c : putchars (a ++ b) c = putchars b (putchars a c).
Proof. apply fold_left_app. Qed.

Lemma print_number_text value base upper width pad_zero neg c :
  print_number value base upper width pad_zero neg c = putchars (number_text value base upper width pad_zero neg) c.
Proof. unfold print_number, number_text. rewrite !putchars_app. by destruct neg, pad_zero. Qed.

Lemma print_string_safe s width : safe (print_string s width).
Proof. apply (safe_comp (putchars _) (putchars _)); apply putchars_safe. Qed.

Lemma convert_safe spec longness width pad_zero args c c' args' : con_ok c ->
  convert spec longness width pad_zero args c = Some (c', args') -> con_ok c' /\ printed c c'.
Proof.
  intros Hok. unfold convert, print_unsigned, print_signed. repeat case_if;
    try (destruct args as [|[z|s] args]; try done); intros [= <- <-];
    rewrite ?print_number_text; try case_if; rewrite ?print_number_text;
    first [by apply putc_safe|by apply putchars_safe|by apply print_string_safe|idtac].
  all: first [by apply (safe_comp _ _ (putc_safe 48) (safe_comp _ _ (putc_safe 120) (putchars_safe _)))
             |by apply (safe_comp _ _ (putc_safe 37) (putc_safe _))].
Qed.

Lemma vformat_safe fuel format args c c' : con_ok c -> vformat_loop fuel format args c = Some c' ->
  con_ok c' /\ printed c c'.
Proof.
  revert format args c. induction fuel as [|n IH]; intros format args c Hok; cbn [vformat_loop]; [by intros [= <-]|].
  destruct format as [|ch format]; [by intros [= <-]|]. case_if.
  { intros Hf. destruct (putc_safe ch c Hok) as [Hok1 Hp1]. destruct (IH _ _ _ Hok1 Hf) as [? ?].
    split; [done|]. by etrans. }
  destruct (match format with z :: rest => _ | [] => _ end) as [pad_zero f1].
  destruct (read_width f1 0) as [width f2]. destruct (read_length f2 0) as [longness f3].
  destruct f3 as [|spec f3]; [intros [= <-]; by apply putc_safe|].
  destruct (convert _ _ _ _ _ _) as [[c1 args1]|] eqn:Ec; [|done]. intros Hf.
  destruct (convert_safe _ _ _ _ _ _ _ _ Hok Ec) as [Hok1 Hp1]. destruct (IH _ _ _ Hok1 Hf) as [? ?].
  split; [done|]. by etrans.
Qed.

(** C40: The kernel log never writes outside the frame buffer.  A frame buffer
    that [printk_init] accepts gives a well-formed console; from a well-formed
    console, whatever the format and its arguments are, and whatever bytes
    [printk_write] is given, every byte that printing changes is inside the
    frame buffer, and the console is well-formed again: the cursor stays on
    the screen, through tabs, line ends and scrolling. *)
Theorem log_stays_in_frame_buffer (c : console) : con_ok c ->
  (forall fb stride w h, 0 <= fb -> 0 <= stride -> 0 <= w -> 0 <= h -> fb + 4 * (stride * h) < 2 ^ 64 ->
     con_ok (printk_init fb stride w h c).2) /\
  (forall format args st c', printk_vformat format args c = Some (st, c') ->
     con_ok c' /\ confined (g_fb c) (fb_end c) (fb_mem c) (fb_mem c')) /\
  (forall buf, con_ok (printk_write buf c) /\
     confined (g_fb c) (fb_end c) (fb_mem c) (fb_mem (printk_write buf c))).
Proof.
  intros Hok. split; [intros; by apply init_ok|]. split.
  - intros [format|] args st c'; cbn [printk_vformat]; [|by intros [= <- <-]].
    destruct (vformat_loop _ _ _ _) as [c1|] eqn:E; [|done]. intros [= <- <-].
    by destruct (vformat_safe _ _ _ _ _ Hok E) as (? & _ & _ & _ & _ & _ & ?).
  - intros buf. by destruct (putchars_safe (shown <$> buf) c Hok) as (? & _ & _ & _ & _ & _ & ?).
Qed.

(** ** Numbers *)

(** Reading digits. *)
Definition digit_value (ch : Z) : Z := if ch <=? 57 then ch - 48 else if ch <=? 70 then ch - 55 else ch - 87.
Definition text_value (base : Z) (cs : list Z) : Z := fold_left (fun acc ch => acc * base + digit_value ch) cs 0.

Lemma digit_value_char upper d : 0 <= d < 16 -> digit_value (digit_char upper d) = d.
Proof. intros Hd. unfold digit_value, digit_char. destruct upper; repeat case_if; lia. Qed.

Lemma text_value_snoc base cs ch : text_value base (cs ++ [ch]) = text_value base cs * base + digit_value ch.
Proof. unfold text_value. by rewrite fold_left_app. Qed.

Lemma number_digits_value room value base upper : 2 <= base <= 16 -> 0 <= value < base ^ Z.of_nat room ->
  text_value base (rev (number_digits room value base upper)) = value /\
  (length (number_digits room value base upper) <= room)%nat.
Proof.
  intros Hb. revert value. induction room as [|n IH]; intros value Hv; cbn [number_digits].
  { change (base ^ Z.of_nat 0) with 1 in Hv. cbn. split; [|done]. unfold text_value. simpl. lia. }
  rewrite Nat2Z.inj_succ, Z.pow_succ_r in Hv by lia. case_if.
  - pose proof (Z.mod_pos_bound value base ltac:(lia)). pose proof (Z.div_mod value base ltac:(lia)).
    destruct (IH (value / base)) as [Hval Hlen].
    { split; [apply Z.div_pos; lia|]. apply Z.div_lt_upper_bound; lia. }
    cbn [rev length]. rewrite text_value_snoc, Hval, digit_value_char by lia. split; lia.
  - cbn. split; [|lia]. unfold text_value. simpl. lia.
Qed.

Lemma number_digits_short room value base upper k : 2 <= base -> 0 <= value < base ^ Z.of_nat k ->
  (length (number_digits room value base upper) <= k)%nat.
Proof.
  intros Hb. revert value k. induction room as [|n IH]; intros value k Hv; cbn [number_digits]; [simpl; lia|].
  case_if; [|simpl; lia]. destruct k as [|k]; [change (base ^ Z.of_nat 0) with 1 in Hv; lia|].
  rewrite Nat2Z.inj_succ, Z.pow_succ_r in Hv by lia. cbn [length].
  specialize (IH (value / base) k). assert (0 <= value / base < base ^ Z.of_nat k); [|specialize (IH H); lia].
  split; [apply Z.div_pos; lia|]. apply Z.div_lt_upper_bound; lia.
Qed.

(** A number is printed as the text that reads back as it: for every
    64-bit value and base from 10 to 16 the digits fit the local buffer - at
    most 20 of its 24 bytes -, their value is the number, and with the sign
    and the padding before them they fill the field width, or exceed it only
    when the number does not fit. *)
Theorem print_number_roundtrip (value base width : Z) (upper pad_zero neg : bool) (c : console) :
  0 <= value < 2 ^ 64 -> 10 <= base <= 16 -> 0 <= width ->
  exists sign pad ds,
    print_number value base upper width pad_zero neg c =
      putchars (if pad_zero then sign ++ pad ++ ds else pad ++ sign ++ ds) c /\
    sign = (if neg then [45] else []) /\ Forall (fun ch => ch = if pad_zero then 48 else 32) pad /\
    text_value base ds = value /\ (1 <= length ds <= 20)%nat /\
    Z.of_nat (length (sign ++ pad ++ ds)) = Z.max width (Z.of_nat (length (sign ++ ds))).
Proof.
  intros Hv Hb Hw. set (tmp := if value =? 0 then [48] else number_digits 24 value base upper).
  assert (H20 : 0 <= value < base ^ Z.of_nat 20).
  { split; [lia|]. assert (10 ^ 20 <= base ^ Z.of_nat 20) by (apply Z.pow_le_mono_l; lia). lia. }
  assert (Hval : text_value base (rev tmp) = value /\ (1 <= length tmp <= 20)%nat).
  { assert (H24 : base ^ Z.of_nat 20 <= base ^ Z.of_nat 24) by (apply Z.pow_le_mono_r; lia).
    clear Hv. unfold tmp. case_if; [subst; split; [done|simpl; lia]|]. split.
    - apply (number_digits_value 24); [lia|]. destruct H20. split; [done|by eapply Z.lt_le_trans].
    - split; [|by apply (number_digits_short 24 value base upper 20); [lia|]]. clear H24.
      assert (Hpos : 0 < value) by (clear -H20 E; lia). clear -Hpos. cbn [number_digits].
      rewrite (proj2 (Z.ltb_lt 0 value) Hpos). cbn [length]. apply le_n_S, Nat.le_0_l. }
  destruct Hval as [Hval Hlen].
  set (total := Z.of_nat (length tmp) + (if neg then 1 else 0)).
  exists (if neg then [45] else []), (replicate (Z.to_nat (width - total)) (if pad_zero then 48 else 32)), (rev tmp).
  split; [rewrite print_number_text; unfold number_text; fold tmp; fold total; by destruct neg, pad_zero|].
  split; [done|]. split; [by apply Forall_replicate|]. split; [done|]. split; [by rewrite length_rev|].
  rewrite !length_app, length_replicate, length_rev. unfold total. destruct neg; simpl; lia.
Qed.

(** ** Concrete runs *)

(** A screen of two columns and two rows of characters. *)
Definition ex_con : console := mk_con 0x1000 32 32 32 0 0 ∅ true [].

Lemma ex_con_ok : con_ok ex_con.
Proof. right. cbn. unfold FONT_W, FONT_H, CONSOLE_MAX_DIM. lia. Qed.

(** Two line ends and a tab scroll the screen; the byte after it is kept. *)
#[local] Opaque printk_putc print_unsigned print_signed.

Lemma log_stays_in_frame_buffer_witness :
  exists c', printk_vformat (Some [65; 10; 37; 100; 10; 9]) [ANum 7] ex_con = Some (Nok, c') /\
    ld8 (fb_mem c') (0x1000 + 4096) = ld8 (fb_mem ex_con) (0x1000 + 4096).
Proof.
  destruct (printk_vformat (Some [65; 10; 37; 100; 10; 9]) [ANum 7] ex_con) as [[st c']|] eqn:E.
  - assert (st = Nok) as ->.
    { unfold printk_vformat in E. destruct (vformat_loop _ _ _ _); [|done]. cbn [fmap option_fmap option_map] in E. congruence. }
    exists c'. split; [done|]. destruct (log_stays_in_frame_buffer ex_con ex_con_ok) as (_ & Hf & _).
    destruct (Hf _ _ _ _ E) as [_ Hc]. apply Hc.
    change (fb_end ex_con) with (0x1000 + 4096). change (g_fb ex_con) with 0x1000. lia.
  - exfalso. cbn in E. discriminate.
Defined.

Lemma print_number_roundtrip_witness :
  exists sign pad ds, print_number 1234 10 false 6 true true ex_con = putchars (sign ++ pad ++ ds) ex_con /\
    text_value 10 ds = 1234.
Proof.
  destruct (print_number_roundtrip 1234 10 6 false true true ex_con ltac:(lia) ltac:(lia) ltac:(lia))
    as (sign & pad & ds & E & _ & _ & Hv & _). exists sign, pad, ds. split; [exact E|exact Hv].
Defined.
