(* ===== verification/Timer.v ===== *)
(** * The timer: [kernel/timer/pit/pit_base.c]

    The counter of ticks and the frequency; the clock in nanoseconds.  The
    counter is the field [timer_tick] of [Process.psys], the frequency is
    passed here. *)

From S2P Require Import Prelude Types.

(** [PIT_BASE_FREQ]: nxkernel/kernel/timer/pit/pit_base.h:10-10 *)
Definition PIT_BASE_FREQ : Z := 1193182.

(** The divisor the two bytes written to the data port make. *)
(** [pit_set_frequency]: nxkernel/kernel/timer/pit/pit_base.c:30-37 *)
Definition pit_set_frequency (hz : Z) : list (Z * Z) :=
  let divisor := u32 (PIT_BASE_FREQ / hz) in
  [(0x43, 0x36); (0x40, u8 (Z.land divisor 0xFF)); (0x40, u8 (Z.land (Z.shiftr divisor 8) 0xFF))].

(** [timer_interrupt_handler]: nxkernel/kernel/timer/pit/pit_base.c:40-44 *)
Definition timer_interrupt_handler (timer_tick : Z) : Z := u64 (timer_tick + 1).

(** [timer_get_ns]: nxkernel/kernel/timer/pit/pit_base.c:77-90 *)
Definition timer_get_ns (g_timer_hz timer_tick : Z) : Z :=
  if g_timer_hz =? 0 then 0
  else
    let sec := timer_tick / g_timer_hz in
    let rem := timer_tick mod g_timer_hz in
    u64 (u64 (sec * 1000000000) + u64 (rem * 1000000000) / g_timer_hz).

(** The ticks of a sleep: [(ms * hz + 999) / 1000]. *)
(** [sleep_ticks]: nxkernel/kernel/syscall/syscall.c:80-80 *)
Definition sleep_ticks (ms hz : Z) : Z := u64 (u64 (ms * hz) + 999) / 1000.

(** The clock is exact: no product overflows before the time itself does. *)
Lemma timer_get_ns_exact hz tick : 0 < hz < 2 ^ 32 -> 0 <= tick < 2 ^ 64 ->
  tick * 1000000000 / hz < 2 ^ 64 -> timer_get_ns hz tick = tick * 1000000000 / hz.
Proof.
  intros Hh Ht Hlt. unfold timer_get_ns. rewrite (proj2 (Z.eqb_neq hz 0)) by lia. cbv zeta.
  pose proof (Z.mod_pos_bound tick hz ltac:(lia)) as Hm. pose proof (Z.div_mod tick hz ltac:(lia)) as Hd.
  assert (Hq : 0 <= tick / hz) by (apply Z.div_pos; lia).
  assert (Hsum : tick * 1000000000 / hz = tick / hz * 1000000000 + tick mod hz * 1000000000 / hz).
  { rewrite Hd at 1. replace ((hz * (tick / hz) + tick mod hz) * 1000000000)
      with (tick mod hz * 1000000000 + tick / hz * 1000000000 * hz) by ring.
    rewrite Z.div_add by lia. lia. }
  rewrite Hsum in *. assert (0 <= tick mod hz * 1000000000 / hz) by (apply Z.div_pos; lia).
  rewrite (uw_small 64 (tick mod hz * 1000000000)) by lia.
  rewrite (uw_small 64 (tick / hz * 1000000000)) by lia. apply uw_small. lia.
Qed.
