(* ===== verification/Pic.v ===== *)
(** * The interrupt controller: [drivers/pic/pic.c]

    The two 8259 controllers behind their ports.  What the driver does is the
    sequence of its port accesses, kept newest first; what a read gives is
    decided by the hardware, a function [dev] of the accesses so far. *)

From S2P Require Import Prelude.

(** An access to a port. *)
Inductive port_event := Out (port value : Z) | In (port : Z).

(** [PIC1]: drivers/pic/pic.c:21-21 *)
Definition PIC1 : Z := 0x20.
(** [PIC2]: drivers/pic/pic.c:22-22 *)
Definition PIC2 : Z := 0xA0.
(** [PIC1_CMD]: drivers/pic/pic.c:23-23 *)
Definition PIC1_CMD : Z := PIC1.
(** [PIC1_DATA]: drivers/pic/pic.c:24-24 *)
Definition PIC1_DATA : Z := PIC1 + 1.
(** [PIC2_CMD]: drivers/pic/pic.c:25-25 *)
Definition PIC2_CMD : Z := PIC2.
(** [PIC2_DATA]: drivers/pic/pic.c:26-26 *)
Definition PIC2_DATA : Z := PIC2 + 1.
(** [ICW1_INIT]: drivers/pic/pic.c:28-28 *)
Definition ICW1_INIT : Z := 0x10.
(** [ICW1_ICW4]: drivers/pic/pic.c:29-29 *)
Definition ICW1_ICW4 : Z := 0x01.
(** [ICW4_8086]: drivers/pic/pic.c:30-30 *)
Definition ICW4_8086 : Z := 0x01.
(** [PIC_EOI]: drivers/pic/pic.c:31-31 *)
Definition PIC_EOI : Z := 0x20.
(** [PIC_READ_IRR]: drivers/pic/pic.c:32-32 *)
Definition PIC_READ_IRR : Z := 0x0A.
(** [PIC_READ_ISR]: drivers/pic/pic.c:33-33 *)
Definition PIC_READ_ISR : Z := 0x0B.

(** The driver: its two offsets and its port accesses. *)
Record pic_st := mk_pic { g_pic_offset1 : Z; g_pic_offset2 : Z; events : list port_event }.

Section pic.
Context (dev : list port_event -> Z -> Z).
Implicit Types p : pic_st.

Definition add_event (e : port_event) p : pic_st := mk_pic (g_pic_offset1 p) (g_pic_offset2 p) (e :: events p).

(** [outb]: include/lowlevel.h:90-93 *)
Definition outb (port value : Z) p : pic_st := add_event (Out port (u8 value)) p.

(** A write to an unused port. *)
(** [io_wait]: include/lowlevel.h:106-109 *)
Definition io_wait p : pic_st := outb 0x80 0 p.

(** [inb]: include/lowlevel.h:69-74 *)
Definition inb (port : Z) p : Z * pic_st := (u8 (dev (events p) port), add_event (In port) p).

(** [pic_remap]: drivers/pic/pic.c:38-66 *)
Definition pic_remap (offset1 offset2 : Z) p : pic_st :=
  let p := mk_pic (u8 offset1) (u8 offset2) (events p) in
  let p := io_wait (outb PIC1_CMD (Z.lor ICW1_INIT ICW1_ICW4) p) in
  let p := io_wait (outb PIC2_CMD (Z.lor ICW1_INIT ICW1_ICW4) p) in
  let p := io_wait (outb PIC1_DATA (g_pic_offset1 p) p) in
  let p := io_wait (outb PIC2_DATA (g_pic_offset2 p) p) in
  let p := io_wait (outb PIC1_DATA 4 p) in
  let p := io_wait (outb PIC2_DATA 2 p) in
  let p := io_wait (outb PIC1_DATA ICW4_8086 p) in
  let p := io_wait (outb PIC2_DATA ICW4_8086 p) in
  outb PIC2_DATA 0xFF (outb PIC1_DATA 0xFF p).

(** [pic_send_eoi]: drivers/pic/pic.c:68-73 *)
Definition pic_send_eoi (irq : Z) p : pic_st :=
  let p := if 8 <=? irq then outb PIC2_CMD PIC_EOI p else p in
  outb PIC1_CMD PIC_EOI p.

(** [pic_disable]: drivers/pic/pic.c:75-80 *)
Definition pic_disable p : pic_st := outb PIC2_DATA 0xFF (outb PIC1_DATA 0xFF p).

(** [pic_get_reg]: drivers/pic/pic.c:82-95 *)
Definition pic_get_reg (ocw3 : Z) p : Z * pic_st :=
  let p := outb PIC2_CMD ocw3 (outb PIC1_CMD ocw3 p) in
  let '(master, p) := inb PIC1_CMD p in
  let '(slave, p) := inb PIC2_CMD p in
  (u16 (Z.lor (Z.shiftl slave 8) master), p).

(** [pic_get_irr]: drivers/pic/pic.c:97-100 *)
Definition pic_get_irr p : Z * pic_st := pic_get_reg PIC_READ_IRR p.

(** [pic_get_isr]: drivers/pic/pic.c:102-105 *)
Definition pic_get_isr p : Z * pic_st := pic_get_reg PIC_READ_ISR p.

(** [pic_is_spurious]: drivers/pic/pic.c:107-118 *)
Definition pic_is_spurious (irq : Z) p : bool * pic_st :=
  if negb (irq =? 7) && negb (irq =? 15) then (false, p)
  else
    let '(isr, p) := pic_get_isr p in
    (if tst isr (u16 (Z.shiftl 1 irq)) then false else true, p).

(** [pic_get_mask]: drivers/pic/pic.c:120-126 *)
Definition pic_get_mask p : Z * pic_st :=
  let '(master, p) := inb PIC1_DATA p in
  let '(slave, p) := inb PIC2_DATA p in
  (u16 (Z.lor (Z.shiftl slave 8) master), p).

(** [pic_set_mask]: drivers/pic/pic.c:128-145 *)
Definition pic_set_mask (irq : Z) p : pic_st :=
  if 16 <=? irq then p
  else
    let '(port, irq) := if irq <? 8 then (PIC1_DATA, irq) else (PIC2_DATA, u8 (irq - 8)) in
    let '(v, p) := inb port p in
    outb port (u8 (Z.lor v (Z.shiftl 1 irq))) p.

(** [pic_clear_mask]: drivers/pic/pic.c:147-166 *)
Definition pic_clear_mask (irq : Z) p : pic_st :=
  if 16 <=? irq then p
  else
    let '(port, irq, p) :=
      if irq <? 8 then (PIC1_DATA, irq, p)
      else
        let '(v, p) := inb PIC1_DATA p in
        (PIC2_DATA, u8 (irq - 8), outb PIC1_DATA (u8 (Z.land v (unot 32 (Z.shiftl 1 2)))) p) in
    let '(v, p) := inb port p in
    outb port (u8 (Z.land v (unot 32 (Z.shiftl 1 irq)))) p.

(** [pic_irq_to_vector]: drivers/pic/pic.c:168-174 *)
Definition pic_irq_to_vector (irq : Z) p : Z :=
  if irq <? 8 then u8 (g_pic_offset1 p + irq) else u8 (g_pic_offset2 p + (irq - 8)).
End pic.

(** ** The lines that are open *)

(** The last byte written to a port. *)
Fixpoint last_out (port : Z) (h : list port_event) : option Z :=
  match h with
  | [] => None
  | Out q v :: h => if q =? port then Some v else last_out port h
  | In _ :: h => last_out port h
  end.

(** The requests of the drivers, and the set of lines they ask for: a line of
    the second controller needs the cascade, line 2 of the first. *)
Inductive line_op := Mask (irq : Z) | Unmask (irq : Z).

Definition open_step (lines : gset Z) (o : line_op) : gset Z :=
  match o with
  | Mask n => if 16 <=? n then lines else lines ∖ {[n]}
  | Unmask n => if 16 <=? n then lines else if n <? 8 then lines ∪ {[n]} else lines ∪ {[2; n]}
  end.

Definition line_of (o : line_op) : Z := match o with Mask n | Unmask n => n end.

Section lines.
Context (dev : list port_event -> Z -> Z).
Implicit Types (p : pic_st) (S : gset Z).

Definition pic_step p (o : line_op) : pic_st :=
  match o with Mask n => pic_set_mask dev n p | Unmask n => pic_clear_mask dev n p end.

(** A controller's data port reads back the mask written last. *)
Context (Hdata : forall h port v, port = PIC1_DATA \/ port = PIC2_DATA -> last_out port h = Some v -> dev h port = v).

(** The mask [v] closes the lines [base ..] outside [S]. *)
Definition mask_of (base : Z) S (v : Z) : Prop :=
  0 <= v < 256 /\ forall n, 0 <= n < 8 -> Z.testbit v n = negb (bool_decide (base + n ∈ S)).

Definition rep p S : Prop :=
  (exists v, last_out PIC1_DATA (events p) = Some v /\ mask_of 0 S v) /\
  (exists v, last_out PIC2_DATA (events p) = Some v /\ mask_of 8 S v).

Lemma u8_mask base S v : (forall n, 0 <= n < 8 -> Z.testbit v n = negb (bool_decide (base + n ∈ S))) ->
  mask_of base S (u8 (u8 v)).
Proof.
  intros Hb. rewrite uw_idem by lia. split; [apply u8_range|]. intros n Hn. unfold uw.
  rewrite Z.mod_pow2_bits_low by lia. by apply Hb.
Qed.

Lemma bit_of n k : 0 <= n -> 0 <= k -> Z.testbit (Z.shiftl 1 n) k = (n =? k).
Proof.
  intros ? ?. rewrite Z.shiftl_spec by done. destruct (Z.eqb_spec n k) as [->|].
  - by rewrite Z.sub_diag.
  - destruct (Z.lt_ge_cases k n); [by rewrite Z.testbit_neg_r by lia|]. apply Z.bits_above_log2; [lia|]. simpl. lia.
Qed.

Lemma clear_bit n k : 0 <= n -> 0 <= k < 8 -> Z.testbit (unot 32 (Z.shiftl 1 n)) k = negb (n =? k).
Proof.
  intros ? ?. unfold unot, uw. rewrite Z.mod_pow2_bits_low, Z.lnot_spec by lia. by rewrite bit_of by lia.
Qed.

Lemma mask_step base S v n : mask_of base S v -> 0 <= n < 8 ->
  mask_of base (S ∖ {[base + n]}) (u8 (u8 (Z.lor v (Z.shiftl 1 n)))) /\
  mask_of base (S ∪ {[base + n]}) (u8 (u8 (Z.land v (unot 32 (Z.shiftl 1 n))))).
Proof.
  intros [_ Hv] Hn. split; apply u8_mask; intros k Hk.
  - rewrite Z.lor_spec, bit_of, Hv by lia. destruct (Z.eqb_spec n k) as [->|].
    + rewrite orb_true_r. symmetry. apply negb_true_iff, bool_decide_eq_false. set_solver.
    + rewrite orb_false_r. f_equal. apply bool_decide_ext. rewrite elem_of_difference, elem_of_singleton.
      split; [intros; split; [done|lia]|by intros [? _]].
  - rewrite Z.land_spec, clear_bit, Hv by lia. destruct (Z.eqb_spec n k) as [->|].
    + rewrite andb_false_r. symmetry. apply negb_false_iff, bool_decide_eq_true. set_solver.
    + rewrite andb_true_r. f_equal. apply bool_decide_ext. rewrite elem_of_union, elem_of_singleton.
      split; [by left|intros [?|?]; [done|lia]].
Qed.

(** Lines of the other controller do not matter. *)
Lemma mask_other base S S' v : mask_of base S v -> (forall n, base <= n < base + 8 -> n ∈ S <-> n ∈ S') -> mask_of base S' v.
Proof.
  intros [Hr Hv] Hs. split; [done|]. intros n Hn. rewrite Hv by done. f_equal. apply bool_decide_ext. apply Hs. lia.
Qed.

Lemma dev_reads h port v : port = PIC1_DATA \/ port = PIC2_DATA -> last_out port h = Some v -> 0 <= v < 256 ->
  u8 (dev h port) = v.
Proof. intros Hp Hl Hv. rewrite (Hdata h port v Hp Hl). by apply uw_small. Qed.

Lemma step_rep p S o : 0 <= line_of o -> rep p S -> rep (pic_step p o) (open_step S o).
Proof.
  intros Ho [(v1 & L1 & M1) (v2 & L2 & M2)]. pose proof (proj1 M1) as R1. pose proof (proj1 M2) as R2.
  pose proof (dev_reads _ PIC1_DATA v1 (or_introl eq_refl) L1 R1) as D1.
  pose proof (dev_reads _ PIC2_DATA v2 (or_intror eq_refl) L2 R2) as D2.
  destruct o as [n|n]; cbn [line_of pic_step open_step] in *; unfold pic_set_mask, pic_clear_mask; case_if.
  1,3: by split; eauto.
  - case_if; unfold inb; cbn [add_event events outb]; [rewrite D1|rewrite D2].
    + destruct (mask_step 0 S v1 n M1 ltac:(lia)) as [Hx _].
      split; eexists; (split; [reflexivity || exact L2|]); [exact Hx|]. apply (mask_other _ _ _ _ M2). set_solver by lia.
    + rewrite (uw_small 8 (n - 8)) by lia. destruct (mask_step 8 S v2 (n - 8) M2 ltac:(lia)) as [Hx _].
      replace (8 + (n - 8)) with n in Hx by lia.
      split; eexists; (split; [reflexivity || exact L1|]); [|exact Hx]. apply (mask_other _ _ _ _ M1). set_solver by lia.
  - case_if; unfold inb; cbn [add_event events outb].
    + rewrite D1. destruct (mask_step 0 S v1 n M1 ltac:(lia)) as [_ Hx].
      split; eexists; (split; [reflexivity || exact L2|]); [exact Hx|]. apply (mask_other _ _ _ _ M2). set_solver by lia.
    + rewrite D1. rewrite (dev_reads _ PIC2_DATA v2 (or_intror eq_refl)) by done.
      rewrite (uw_small 8 (n - 8)) by lia. destruct (mask_step 8 S v2 (n - 8) M2 ltac:(lia)) as [_ Hx].
      destruct (mask_step 0 S v1 2 M1 ltac:(lia)) as [_ Hy]. replace (8 + (n - 8)) with n in Hx by lia.
      split; eexists; (split; [reflexivity|]); [apply (mask_other _ _ _ _ Hy)|apply (mask_other _ _ _ _ Hx)]; set_solver by lia.
Qed.

Lemma remap_rep o1 o2 p : rep (pic_remap o1 o2 p) ∅.
Proof.
  assert (Hm : forall base, mask_of base ∅ 255).
  { intros base. split; [lia|]. intros n Hn. rewrite bool_decide_eq_false_2 by set_solver.
    change 255 with (Z.ones 8). rewrite Z.ones_spec_low by lia. done. }
  split; (eexists; split; [reflexivity|apply Hm]).
Qed.

Lemma combine_bits v1 v2 n : 0 <= v1 < 256 -> 0 <= v2 < 256 -> 0 <= n < 16 ->
  Z.testbit (u16 (Z.lor (Z.shiftl v2 8) v1)) n = if n <? 8 then Z.testbit v1 n else Z.testbit v2 (n - 8).
Proof.
  intros H1 H2 Hn. unfold uw. rewrite Z.mod_pow2_bits_low, Z.lor_spec, Z.shiftl_spec by lia. case_if.
  - by rewrite Z.testbit_neg_r by lia.
  - rewrite (testbit_above 8 v1) by lia. by rewrite orb_false_r.
Qed.

(** After the remapping every line is closed, and whatever lines the
    drivers then open and close, the mask the controllers hold is the set of
    lines asked for: [pic_get_mask] has a bit per closed line, and opening a
    line of the second controller opens the cascade. *)
Theorem pic_lines (o1 o2 : Z) (p : pic_st) (ops : list line_op) : Forall (fun o => 0 <= line_of o) ops ->
  let p' := fold_left pic_step ops (pic_remap o1 o2 p) in
  let lines := fold_left open_step ops ∅ in
  (forall n, 0 <= n < 16 -> Z.testbit (pic_get_mask dev p').1 n = negb (bool_decide (n ∈ lines))) /\
  ((exists n, 8 <= n < 16 /\ n ∈ fold_left open_step ops ∅) -> Forall (fun o => o <> Mask 2) ops -> 2 ∈ lines).
Proof.
  intros Hops p' lines. assert (Hr : rep p' lines).
  { unfold p', lines. generalize (remap_rep o1 o2 p). generalize (pic_remap o1 o2 p) as q. generalize (∅ : gset Z) as S.
    induction Hops as [|o ops Ho Hops IH]; intros S q Hq; [done|]. cbn [fold_left]. apply IH, step_rep; done. }
  split.
  - intros n Hn. destruct Hr as [(v1 & L1 & M1) (v2 & L2 & M2)]. unfold pic_get_mask, inb. cbn [add_event events].
    rewrite (dev_reads _ PIC1_DATA v1 (or_introl eq_refl) L1 (proj1 M1)).
    rewrite (dev_reads _ PIC2_DATA v2 (or_intror eq_refl)) by (exact L2 || exact (proj1 M2)).
    cbn [fst]. rewrite combine_bits by (apply M1 || apply M2 || lia). case_if.
    + rewrite (proj2 M1) by lia. by rewrite Z.add_0_l.
    + rewrite (proj2 M2) by lia. by replace (8 + (n - 8)) with n by lia.
  - unfold lines. clear -Hops. assert (Hg : forall S, ((exists n, 8 <= n < 16 /\ n ∈ S) -> 2 ∈ S) ->
      Forall (fun o => o <> Mask 2) ops -> (exists n, 8 <= n < 16 /\ n ∈ fold_left open_step ops S) -> 2 ∈ fold_left open_step ops S).
    { induction Hops as [|o ops Ho Hops IH]; intros S HS Hm Hex; [by apply HS|]. apply Forall_cons in Hm as [Hm1 Hm2].
      cbn [fold_left] in *. apply IH; [|done|done]. intros (n & Hn & Hin). destruct o as [k|k]; cbn [open_step] in *.
      - case_if; [apply HS; by exists n|]. apply elem_of_difference in Hin as [Hin _].
        apply elem_of_difference. split; [apply HS; by exists n|]. rewrite elem_of_singleton. intros <-. done.
      - repeat case_if; [apply HS; by exists n| |set_solver].
        apply elem_of_union in Hin as [Hin|Hin%elem_of_singleton]; [|lia]. apply elem_of_union. left. apply HS. by exists n. }
    intros Hex Hm. apply Hg; [|done|done]. intros (n & _ & Hin). set_solver.
Qed.
End lines.

(** Controllers that read back the last mask and hold no interrupt. *)
Definition ex_dev (h : list port_event) (port : Z) : Z := default 0 (last_out port h).

Lemma pic_lines_witness :
  Z.testbit (pic_get_mask ex_dev (fold_left (pic_step ex_dev) [Unmask 0; Unmask 12; Mask 0] (pic_remap 32 40 (mk_pic 0 0 [])))).1 12
  = false.
Proof.
  assert (Hd : forall h port v, port = PIC1_DATA \/ port = PIC2_DATA -> last_out port h = Some v -> ex_dev h port = v)
    by (intros h port v _ Hl; unfold ex_dev; by rewrite Hl).
  assert (Hops : Forall (fun o => 0 <= line_of o) [Unmask 0; Unmask 12; Mask 0]) by (repeat constructor; simpl; lia).
  assert (Hn : 0 <= 12 < 16) by lia.
  rewrite (proj1 (pic_lines ex_dev Hd 32 40 (mk_pic 0 0 []) _ Hops) 12 Hn). by vm_compute.
Defined.
