(* ===== verification/Gdt.v ===== *)
(** * Descriptor tables: [kernel/interrupt/gdt.c] and the tables of
    [kernel/interrupt/interrupt.c]

    The segment descriptors, the task state segment and the interrupt gates
    the kernel builds, and what the processor reads out of them. *)

From S2P Require Import Prelude Types.

(** [SEL_KERNEL_CODE]: include/interrupt.h:22-22 *)
Definition SEL_KERNEL_CODE : Z := 0x08.
(** [SEL_KERNEL_DATA]: include/interrupt.h:23-23 *)
Definition SEL_KERNEL_DATA : Z := 0x10.
(** [SEL_USER_CODE32]: include/interrupt.h:24-24 *)
Definition SEL_USER_CODE32 : Z := 0x1B.
(** [SEL_USER_DATA]: include/interrupt.h:25-25 *)
Definition SEL_USER_DATA : Z := 0x23.
(** [SEL_USER_CODE]: include/interrupt.h:26-26 *)
Definition SEL_USER_CODE : Z := 0x2B.
(** [SEL_TSS]: include/interrupt.h:27-27 *)
Definition SEL_TSS : Z := 0x30.
(** [VEC_NMI]: include/interrupt.h:44-44 *)
Definition VEC_NMI : Z := 2.
(** [VEC_DOUBLE_FAULT]: include/interrupt.h:50-50 *)
Definition VEC_DOUBLE_FAULT : Z := 8.
(** [VEC_PAGE_FAULT]: include/interrupt.h:55-55 *)
Definition VEC_PAGE_FAULT : Z := 14.
(** [VEC_MACHINE_CHECK]: include/interrupt.h:58-58 *)
Definition VEC_MACHINE_CHECK : Z := 18.
(** [VEC_IRQ_BASE]: include/interrupt.h:60-60 *)
Definition VEC_IRQ_BASE : Z := 0x20.
(** [VEC_IRQ_COUNT]: include/interrupt.h:61-61 *)
Definition VEC_IRQ_COUNT : Z := 16.
(** [VEC_SYSCALL]: include/interrupt.h:62-62 *)
Definition VEC_SYSCALL : Z := 0x80.
(** [VEC_COUNT]: include/interrupt.h:63-63 *)
Definition VEC_COUNT : Z := 256.
(** [IDT_INTERRUPT_GATE_KERNEL]: include/interrupt.h:87-87 *)
Definition IDT_INTERRUPT_GATE_KERNEL : Z := 0x8E.
(** [IDT_INTERRUPT_GATE_USER]: include/interrupt.h:88-88 *)
Definition IDT_INTERRUPT_GATE_USER : Z := 0xEE.

(** ** Interrupt gates *)

(** [idt_entry]: include/interrupt.h:73-81 *)
Record idt_entry := mk_gate {
  offset_low : Z;
  selector : Z;
  ist : Z;
  type_attr : Z;
  offset_mid : Z;
  offset_high : Z;
  zero64 : Z;
}.

(** For a table that is not null. *)
(** [idt_set_gate]: nxkernel/kernel/interrupt/interrupt.c:37-57 *)
Definition idt_set_gate (vec handler : Z) (idt : list idt_entry) (flags ist : Z) : list idt_entry :=
  if (vec <? 0) || (VEC_COUNT <=? vec) then idt
  else
    <[Z.to_nat vec := mk_gate (u16 (Z.land handler 0xFFFF)) SEL_KERNEL_CODE (u8 (Z.land ist 7)) flags
       (u16 (Z.land (Z.shiftr handler 16) 0xFFFF)) (u32 (Z.land (Z.shiftr handler 32) 0xFFFFFFFF)) 0]> idt.

(** What [interrupt_init] chooses for a vector. *)
(** [gate_flags]: nxkernel/kernel/interrupt/interrupt.c:72-77 *)
Definition gate_flags (v : Z) : Z := if v =? VEC_SYSCALL then IDT_INTERRUPT_GATE_USER else IDT_INTERRUPT_GATE_KERNEL.

(** [gate_ist]: nxkernel/kernel/interrupt/interrupt.c:80-85 *)
Definition gate_ist (v : Z) : Z :=
  if v =? VEC_DOUBLE_FAULT then 1 else if v =? VEC_NMI then 2 else if v =? VEC_MACHINE_CHECK then 3 else 0.

(** The two tables after the loop, and the operand of [lidt]: [isr_stub_table]
    is the table of entry stubs, [base] the address of [g_idt]; a handler is
    the address of its function, 0 for none. *)
(** [interrupt_init]: nxkernel/kernel/interrupt/interrupt.c:67-92 *)
Definition interrupt_init (isr_stub_table : Z -> Z) (base : Z) (tables : list idt_entry * list Z) :
  (list idt_entry * list Z) * (Z * Z) :=
  (for_range 0 VEC_COUNT (fun v '(idt, handlers) =>
     (idt_set_gate v (isr_stub_table v) idt (gate_flags v) (gate_ist v), <[Z.to_nat v := 0]> handlers)) tables,
   (u16 (16 * VEC_COUNT - 1), base)).

(** What the processor takes from a gate. *)
Definition gate_offset (e : idt_entry) : Z :=
  offset_low e + 2 ^ 16 * offset_mid e + 2 ^ 32 * offset_high e.
Definition gate_present (e : idt_entry) : bool := Z.testbit (type_attr e) 7.
Definition gate_dpl (e : idt_entry) : Z := Z.land (Z.shiftr (type_attr e) 5) 3.
Definition gate_type (e : idt_entry) : Z := Z.land (type_attr e) 15.

(** ** Segments *)

(** [GDT_KERNEL_CODE64]: nxkernel/kernel/interrupt/gdt.c:34-34 *)
Definition GDT_KERNEL_CODE64 : Z := 0x00AF9A000000FFFF.
(** [GDT_KERNEL_DATA]: nxkernel/kernel/interrupt/gdt.c:35-35 *)
Definition GDT_KERNEL_DATA : Z := 0x00CF92000000FFFF.
(** [GDT_USER_CODE64]: nxkernel/kernel/interrupt/gdt.c:36-36 *)
Definition GDT_USER_CODE64 : Z := 0x00AFFA000000FFFF.
(** [GDT_USER_CODE32]: nxkernel/kernel/interrupt/gdt.c:37-37 *)
Definition GDT_USER_CODE32 : Z := 0x00CFFA000000FFFF.
(** [GDT_USER_DATA]: nxkernel/kernel/interrupt/gdt.c:38-38 *)
Definition GDT_USER_DATA : Z := 0x00CFF2000000FFFF.

(** The fields the kernel sets: the entry stack, the three stacks for fatal
    exceptions and the end of the segment as the base of the port bitmap; the
    others are zero. *)
(** [tss64]: include/interrupt.h:92-108 *)
Record tss64 := mk_tss { rsp0 : Z; ist1 : Z; ist2 : Z; ist3 : Z; iomap_base : Z }.

(** [IST_STACK_SIZE]: nxkernel/kernel/interrupt/gdt.c:31-31 *)
Definition IST_STACK_SIZE : Z := 8192.

Definition sizeof_tss : Z := 104.

(** [gdt_set_tss]: nxkernel/kernel/interrupt/gdt.c:48-60 *)
Definition gdt_set_tss (index : nat) (base limit : Z) (gdt : list Z) : list Z :=
  let low := u64 (Z.land limit 0xFFFF) in
  let low := Z.lor low (u64 (Z.shiftl (Z.land base 0xFFFFFF) 16)) in
  let low := Z.lor low (Z.shiftl 0x89 40) in
  let low := Z.lor low (u64 (Z.shiftl (Z.land (Z.shiftr limit 16) 0xF) 48)) in
  let low := Z.lor low (u64 (Z.shiftl (Z.land (Z.shiftr base 24) 0xFF) 56)) in
  <[S index := Z.shiftr base 32]> (<[index := low]> gdt).

(** The tables and the operand of [lgdt]: [tss] is the address of [g_tss],
    [base] that of [g_gdt], the stacks those of the three arrays; the loads of
    the registers are left out. *)
(** [gdt_init, the tables]: nxkernel/kernel/interrupt/gdt.c:68-98 *)
Definition gdt_init (base tss df_stack nmi_stack mce_stack : Z) (gdt : list Z) : list Z * tss64 * (Z * Z) :=
  let gdt := <[0%nat := 0]> gdt in
  let gdt := <[1%nat := GDT_KERNEL_CODE64]> gdt in
  let gdt := <[2%nat := GDT_KERNEL_DATA]> gdt in
  let gdt := <[3%nat := GDT_USER_CODE32]> gdt in
  let gdt := <[4%nat := GDT_USER_DATA]> gdt in
  let gdt := <[5%nat := GDT_USER_CODE64]> gdt in
  (gdt_set_tss 6 tss (sizeof_tss - 1) gdt,
   mk_tss 0 (u64 (df_stack + IST_STACK_SIZE)) (u64 (nmi_stack + IST_STACK_SIZE)) (u64 (mce_stack + IST_STACK_SIZE))
     (u16 sizeof_tss), (u16 (8 * 8 - 1), base)).

(** The entry stack of both ways into the kernel; the second component is
    [g_cpu_local.kernel_rsp]. *)
(** [gdt_set_kernel_stack]: nxkernel/kernel/interrupt/gdt.c:62-66 *)
Definition gdt_set_kernel_stack (rsp : Z) (st : tss64 * Z) : tss64 * Z :=
  let '(t, _) := st in (mk_tss rsp (ist1 t) (ist2 t) (ist3 t) (iomap_base t), rsp).

(** What the processor takes from descriptors. *)
Definition desc_dpl (d : Z) : Z := Z.land (Z.shiftr d 45) 3.
Definition desc_present (d : Z) : bool := Z.testbit d 47.
Definition desc_code (d : Z) : bool := Z.testbit d 44 && Z.testbit d 43.
Definition desc_long (d : Z) : bool := Z.testbit d 53.
Definition desc_base (d : Z) : Z := Z.lor (Z.land (Z.shiftr d 16) 0xFFFFFF) (Z.shiftl (Z.land (Z.shiftr d 56) 0xFF) 24).
Definition desc_limit (d : Z) : Z := Z.lor (Z.land d 0xFFFF) (Z.shiftl (Z.land (Z.shiftr d 48) 0xF) 16).
Definition desc_type (d : Z) : Z := Z.land (Z.shiftr d 40) 15.

(** ** The gates *)

Lemma gate_roundtrip handler flags i : 0 <= handler < 2 ^ 64 ->
  let e := mk_gate (u16 (Z.land handler 0xFFFF)) SEL_KERNEL_CODE (u8 (Z.land i 7)) flags
       (u16 (Z.land (Z.shiftr handler 16) 0xFFFF)) (u32 (Z.land (Z.shiftr handler 32) 0xFFFFFFFF)) 0 in
  gate_offset e = handler.
Proof.
  intros Hh e. unfold gate_offset, e. cbn [offset_low offset_mid offset_high].
  change 0xFFFF with (2 ^ 16 - 1). change 0xFFFFFFFF with (2 ^ 32 - 1). rewrite !land_ones_mod by lia.
  unfold uw. rewrite !Z.mod_mod by lia. rewrite !Z.shiftr_div_pow2 by lia.
  pose proof (Z.div_mod handler (2 ^ 16) ltac:(lia)). pose proof (Z.div_mod (handler / 2 ^ 16) (2 ^ 16) ltac:(lia)) as Hd.
  rewrite Z.div_div in Hd by lia. change (2 ^ 16 * 2 ^ 16) with (2 ^ 32) in Hd.
  rewrite (Z.mod_small (handler / 2 ^ 32)); [lia|]. split; [apply Z.div_pos; lia|]. apply Z.div_lt_upper_bound; lia.
Qed.

(** Filling the tables, a vector at a time. *)
Lemma fill_gates stubs n tables : (n <= 256)%nat -> length tables.1 = 256%nat -> length tables.2 = 256%nat ->
  let '(idt, handlers) := fold_left (fun acc v => let '(idt, handlers) := acc in
     (idt_set_gate v (stubs v) idt (gate_flags v) (gate_ist v), <[Z.to_nat v := 0]> handlers))
     (seqZ 0 (Z.of_nat n)) tables in
  length idt = 256%nat /\ length handlers = 256%nat /\
  forall v, (v < n)%nat -> handlers !! v = Some 0 /\
    idt !! v = Some (mk_gate (u16 (Z.land (stubs (Z.of_nat v)) 0xFFFF)) SEL_KERNEL_CODE (u8 (Z.land (gate_ist (Z.of_nat v)) 7))
      (gate_flags (Z.of_nat v)) (u16 (Z.land (Z.shiftr (stubs (Z.of_nat v)) 16) 0xFFFF))
      (u32 (Z.land (Z.shiftr (stubs (Z.of_nat v)) 32) 0xFFFFFFFF)) 0).
Proof.
  intros Hn H1 H2. induction n as [|n IH].
  { cbn. destruct tables as [idt handlers]. split_and!; try done. intros v Hv. lia. }
  specialize (IH ltac:(lia)). rewrite seqZ_S, fold_left_app. cbn [fold_left].
  destruct (fold_left _ _ _) as [idt handlers]. destruct IH as (L1 & L2 & Hv).
  rewrite Z.add_0_l. unfold idt_set_gate, VEC_COUNT.
  case_if; [lia|]. rewrite !Nat2Z.id. rewrite !length_insert. split_and!; try done. intros v Hlt.
  destruct (decide (v = n)) as [->|Hne].
  - rewrite !list_lookup_insert_eq by lia. done.
  - rewrite !list_lookup_insert_ne by done. apply Hv. lia.
Qed.

(** *** Descriptors as numbers: a field above another *)

Lemma lor_high k a b : 0 <= k -> 0 <= a < 2 ^ k -> Z.lor a (Z.shiftl b k) = a + 2 ^ k * b.
Proof.
  intros Hk Ha. rewrite Z.shiftl_mul_pow2 by done.
  rewrite <- Z.lxor_lor, <- Z.add_nocarry_lxor; [lia| |];
  apply Z.bits_inj'; intros i Hi; rewrite Z.land_spec, Z.bits_0;
  (destruct (Z.lt_ge_cases i k); [by rewrite Z.mul_pow2_bits_low, andb_false_r by lia|by rewrite (testbit_above k a) by lia]).
Qed.

Lemma low_div k a b : 0 <= k -> 0 <= a < 2 ^ k -> (a + 2 ^ k * b) / 2 ^ k = b.
Proof. intros Hk Ha. rewrite Z.mul_comm, Z.div_add, Z.div_small by lia. lia. Qed.

Lemma low_mod k a b : 0 <= k -> 0 <= a < 2 ^ k -> (a + 2 ^ k * b) mod 2 ^ k = a.
Proof. intros Hk Ha. rewrite Z.mul_comm, Z.mod_add, Z.mod_small by lia. lia. Qed.

(** The first half of the descriptor of the task state segment, field by field. *)
Definition tss_low (l b h t : Z) : Z := l + 2 ^ 16 * (b + 2 ^ 24 * (0x89 + 2 ^ 8 * (h + 2 ^ 8 * t))).

Lemma set_tss_low base limit : 0 <= base < 2 ^ 64 -> 0 <= limit < 2 ^ 20 -> forall gdt index, (index < length gdt)%nat ->
  gdt_set_tss index base limit gdt !! index =
    Some (tss_low (limit mod 2 ^ 16) (base mod 2 ^ 24) (limit / 2 ^ 16) (base / 2 ^ 24 mod 2 ^ 8)).
Proof.
  intros Hb Hl gdt index Hi. unfold gdt_set_tss. rewrite list_lookup_insert_ne by lia.
  rewrite list_lookup_insert_eq by done. f_equal.
  change 0xFFFF with (2 ^ 16 - 1). change 0xFFFFFF with (2 ^ 24 - 1). change 0xF with (2 ^ 4 - 1). change 0xFF with (2 ^ 8 - 1).
  rewrite !land_ones_mod, !Z.shiftr_div_pow2 by lia.
  assert (Hh : 0 <= limit / 2 ^ 16 < 2 ^ 4) by (split; [apply Z.div_pos; lia|apply Z.div_lt_upper_bound; lia]).
  rewrite (Z.mod_small (limit / 2 ^ 16)) by lia.
  pose proof (Z.mod_pos_bound limit (2 ^ 16) ltac:(lia)) as B1. pose proof (Z.mod_pos_bound base (2 ^ 24) ltac:(lia)) as B2.
  pose proof (Z.mod_pos_bound (base / 2 ^ 24) (2 ^ 8) ltac:(lia)) as B3.
  set (l := limit mod 2 ^ 16) in *. set (b := base mod 2 ^ 24) in *. set (h := limit / 2 ^ 16) in *.
  set (t := base / 2 ^ 24 mod 2 ^ 8) in *. clearbody l b h t. unfold tss_low.
  rewrite (uw_small 64 l) by lia.
  assert (Hs : forall x k m, 0 <= x < 2 ^ m -> 0 <= k -> 0 <= m -> m + k <= 64 -> u64 (Z.shiftl x k) = Z.shiftl x k).
  { intros x k m Hx Hk Hm Hmk. apply uw_small. rewrite Z.shiftl_mul_pow2 by done.
    pose proof (Z.pow_le_mono_r 2 (m + k) 64 ltac:(lia) Hmk) as Hp. rewrite Z.pow_add_r in Hp by lia. nia. }
  rewrite (Hs b 16 24), (Hs h 48 4), (Hs t 56 8) by lia. rewrite (lor_high 16 l b), (lor_high 40 _ 0x89), (lor_high 48 _ h), (lor_high 56 _ t) by lia. lia.
Qed.

Lemma tss_low_fields l b h t : 0 <= l < 2 ^ 16 -> 0 <= b < 2 ^ 24 -> 0 <= h < 2 ^ 4 -> 0 <= t < 2 ^ 8 ->
  let d := tss_low l b h t in
  desc_base d = b + 2 ^ 24 * t /\ desc_limit d = l + 2 ^ 16 * h /\ desc_type d = 9 /\ desc_dpl d = 0 /\ desc_present d = true.
Proof.
  intros Hl Hb Hh Ht d.
  assert (D16 : d / 2 ^ 16 = b + 2 ^ 24 * (0x89 + 2 ^ 8 * (h + 2 ^ 8 * t))) by (unfold d, tss_low; by rewrite low_div).
  assert (D40 : d / 2 ^ 40 = 0x89 + 2 ^ 8 * (h + 2 ^ 8 * t)).
  { change (2 ^ 40) with (2 ^ 16 * 2 ^ 24). by rewrite <- Z.div_div, D16, low_div by lia. }
  assert (D48 : d / 2 ^ 48 = h + 2 ^ 8 * t).
  { change (2 ^ 48) with (2 ^ 40 * 2 ^ 8). by rewrite <- Z.div_div, D40, low_div by lia. }
  assert (D56 : d / 2 ^ 56 = t).
  { change (2 ^ 56) with (2 ^ 48 * 2 ^ 8). by rewrite <- Z.div_div, D48, low_div by lia. }
  unfold desc_base, desc_limit, desc_type, desc_dpl, desc_present.
  change 0xFFFF with (2 ^ 16 - 1). change 0xFFFFFF with (2 ^ 24 - 1). change 0xF with (2 ^ 4 - 1). change 0xFF with (2 ^ 8 - 1).
  change 3 with (2 ^ 2 - 1). change 15 with (2 ^ 4 - 1).
  rewrite !land_ones_mod, !Z.shiftr_div_pow2 by lia. rewrite D16, D40, D48, D56, low_mod by lia.
  rewrite (Z.mod_small t) by lia. split_and!.
  - by rewrite lor_high by lia.
  - assert (Hd : d mod 2 ^ 16 = l) by (unfold d, tss_low; by rewrite low_mod). rewrite Hd.
    replace (h + 2 ^ 8 * t) with (h + 2 ^ 4 * (2 ^ 4 * t)) by lia. rewrite low_mod by lia. by rewrite lor_high by lia.
  - replace (0x89 + 2 ^ 8 * (h + 2 ^ 8 * t)) with (9 + 2 ^ 4 * (8 + 2 ^ 4 * (h + 2 ^ 8 * t))) by lia. by rewrite low_mod by lia.
  - change (2 ^ 45) with (2 ^ 40 * 2 ^ 5). rewrite <- Z.div_div, D40 by lia.
    replace (0x89 + 2 ^ 8 * (h + 2 ^ 8 * t)) with (9 + 2 ^ 5 * (4 + 2 ^ 3 * (h + 2 ^ 8 * t))) by lia.
    rewrite low_div by lia. by replace (4 + 2 ^ 3 * (h + 2 ^ 8 * t)) with (0 + 2 ^ 2 * (1 + 2 * (h + 2 ^ 8 * t))) by lia;
    rewrite low_mod by lia.
  - rewrite Z.testbit_odd, Z.shiftr_div_pow2 by lia. change (2 ^ 47) with (2 ^ 40 * 2 ^ 7). rewrite <- Z.div_div, D40 by lia.
    replace (0x89 + 2 ^ 8 * (h + 2 ^ 8 * t)) with (9 + 2 ^ 7 * (1 + 2 * (h + 2 ^ 8 * t))) by lia. rewrite low_div by lia.
    by rewrite Z.odd_add_mul_2.
Qed.

(** After [interrupt_init] every vector enters the kernel at its own stub:
    the processor reads back from gate [v] the address of stub [v], the
    kernel's code segment and an interrupt gate that is present; a program
    may raise only the system-call vector, the three exceptions that may
    find a broken stack have a stack of their own, and no handler is
    registered. *)
Theorem gates_complete (stubs : Z -> Z) (base : Z) (idt0 : list idt_entry) (handlers0 : list Z) (v : Z) :
  length idt0 = 256%nat -> length handlers0 = 256%nat -> 0 <= v < VEC_COUNT -> 0 <= stubs v < 2 ^ 64 ->
  let '((idt, handlers), operand) := interrupt_init stubs base (idt0, handlers0) in
  operand = (4095, base) /\ handlers !! Z.to_nat v = Some 0 /\
  exists e, idt !! Z.to_nat v = Some e /\ gate_offset e = stubs v /\ selector e = SEL_KERNEL_CODE /\
    gate_present e = true /\ gate_type e = 14 /\
    (gate_dpl e = 3 <-> v = VEC_SYSCALL) /\ (gate_dpl e <> 3 -> gate_dpl e = 0) /\
    (ist e = 0 <-> v <> VEC_DOUBLE_FAULT /\ v <> VEC_NMI /\ v <> VEC_MACHINE_CHECK) /\
    (forall w e', 0 <= w < VEC_COUNT -> v <> w -> idt !! Z.to_nat w = Some e' -> ist e = ist e' -> ist e = 0).
Proof.
  intros H1 H2 Hv Hs. unfold interrupt_init, for_range.
  pose proof (fill_gates stubs 256 (idt0, handlers0) ltac:(lia) H1 H2) as Hf.
  change (Z.of_nat 256) with (VEC_COUNT - 0) in Hf. destruct (fold_left _ _ _) as [idt handlers].
  destruct Hf as (_ & _ & Hf). unfold VEC_COUNT in *.
  assert (Hist : forall w e', 0 <= w < 256 -> idt !! Z.to_nat w = Some e' -> ist e' = gate_ist w).
  { intros w e' Hw He. destruct (Hf (Z.to_nat w) ltac:(lia)) as [_ Hg]. rewrite Hg in He. injection He as <-.
    cbn. rewrite Z2Nat.id by lia. unfold gate_ist. by repeat case_if. }
  split; [done|]. destruct (Hf (Z.to_nat v) ltac:(lia)) as [Hh Hg]. split; [done|].
  rewrite Z2Nat.id in Hg by lia. eexists. split; [exact Hg|]. split; [by apply gate_roundtrip|]. split; [done|].
  pose proof (Hist v _ ltac:(lia) Hg) as Hi. cbn [ist] in Hi. unfold gate_present, gate_dpl, gate_type. cbn [type_attr ist].
  rewrite Hi. split_and!.
  - unfold gate_flags. by case_if.
  - unfold gate_flags. by case_if.
  - unfold gate_flags. case_if; split; done.
  - unfold gate_flags. case_if; [by intros []|done].
  - unfold gate_ist. repeat case_if; split; try done; try (intros (? & ? & ?); done); lia.
  - intros w e' Hw Hne He. rewrite (Hist w e' ltac:(lia) He). unfold gate_ist. repeat case_if; try done; congruence.
Qed.

(** The segments [gdt_init] builds are the ones the selectors name: each is
    present with the privilege of its selector, only the kernel's and the
    64-bit user code segments are 64-bit code, and the descriptor of the task
    state segment gives the processor back the address and the size of
    [g_tss], which denies programs every port. *)
Theorem segments_match_selectors (base tss df nmi mce : Z) (gdt0 : list Z) :
  length gdt0 = 8%nat -> 0 <= tss < 2 ^ 64 ->
  let '(gdt, t, operand) := gdt_init base tss df nmi mce gdt0 in
  operand = (63, base) /\ length gdt = 8%nat /\ gdt !! 0%nat = Some 0 /\
  (forall sel code long, (sel, code, long) ∈ [(SEL_KERNEL_CODE, true, true); (SEL_KERNEL_DATA, false, false);
     (SEL_USER_CODE32, true, false); (SEL_USER_DATA, false, false); (SEL_USER_CODE, true, true)] ->
   exists d, gdt !! Z.to_nat (sel / 8) = Some d /\ desc_present d = true /\ desc_dpl d = sel mod 4 /\
     desc_code d = code /\ desc_long d = long) /\
  (exists low, gdt !! Z.to_nat (SEL_TSS / 8) = Some low /\ desc_present low = true /\ desc_type low = 9 /\
     desc_dpl low = 0 /\ desc_limit low = sizeof_tss - 1 /\
     exists high, gdt !! S (Z.to_nat (SEL_TSS / 8)) = Some high /\ desc_base low + 2 ^ 32 * high = tss) /\
  iomap_base t = sizeof_tss.
Proof.
  intros Hl Ht. unfold gdt_init. set (segs := <[5%nat := GDT_USER_CODE64]> _).
  assert (Hls : length segs = 8%nat) by (unfold segs; by rewrite !length_insert).
  assert (Hseg : forall i, (i < 6)%nat -> gdt_set_tss 6 tss (sizeof_tss - 1) segs !! i = segs !! i).
  { intros i Hi. unfold gdt_set_tss. by rewrite !list_lookup_insert_ne by lia. }
  split; [done|]. split; [unfold gdt_set_tss; by rewrite !length_insert|]. split.
  { rewrite Hseg by lia. unfold segs. rewrite !list_lookup_insert_ne by done. apply list_lookup_insert_eq. lia. }
  split; [|split; [|done]].
  - intros sel code long Hin. rewrite !elem_of_cons, elem_of_nil in Hin.
    destruct_or! Hin; try done; injection Hin as -> -> ->; eexists; rewrite Hseg by (vm_compute; lia);
      (split; [unfold segs; rewrite ?list_lookup_insert_ne by done; apply list_lookup_insert_eq; rewrite ?length_insert; lia|by split_and!]).
  - change (Z.to_nat (SEL_TSS / 8)) with 6%nat. eexists. split; [apply set_tss_low; [done|done|lia]|].
    pose proof (Z.mod_pos_bound tss (2 ^ 24) ltac:(lia)) as B1. pose proof (Z.mod_pos_bound (tss / 2 ^ 24) (2 ^ 8) ltac:(lia)) as B2.
    destruct (tss_low_fields ((sizeof_tss - 1) mod 2 ^ 16) (tss mod 2 ^ 24) ((sizeof_tss - 1) / 2 ^ 16) (tss / 2 ^ 24 mod 2 ^ 8))
      as (D1 & D2 & D3 & D4 & D5); [done|done|done|done|].
    split_and!; [done|done|done|by rewrite D2|]. exists (Z.shiftr tss 32). rewrite D1. split.
    + unfold gdt_set_tss. apply list_lookup_insert_eq. rewrite length_insert. lia.
    + rewrite Z.shiftr_div_pow2 by lia. pose proof (Z.div_mod tss (2 ^ 24) ltac:(lia)).
      pose proof (Z.div_mod (tss / 2 ^ 24) (2 ^ 8) ltac:(lia)) as Hd. rewrite Z.div_div in Hd by lia.
      change (2 ^ 24 * 2 ^ 8) with (2 ^ 32) in Hd. lia.
Qed.

Lemma gates_complete_witness :
  exists e (idt : list idt_entry), idt !! 128%nat = Some e /\ gate_offset e = 0xFFFFFFFF80001400 /\ gate_dpl e = 3.
Proof.
  assert (Hl : length (replicate 256 (mk_gate 0 0 0 0 0 0 0)) = 256%nat) by by rewrite length_replicate.
  assert (Hh : length (replicate 256 0) = 256%nat) by by rewrite length_replicate.
  assert (Hv : 0 <= VEC_SYSCALL < VEC_COUNT) by done.
  assert (Hs : 0 <= (fun v => 0xFFFFFFFF80001000 + 8 * v) VEC_SYSCALL < 2 ^ 64) by done.
  pose proof (gates_complete (fun v => 0xFFFFFFFF80001000 + 8 * v) 0x5000 _ _ VEC_SYSCALL Hl Hh Hv Hs) as Hg.
  destruct (interrupt_init _ _ _) as [[idt handlers] operand]. destruct Hg as (_ & _ & e & He & Ho & _ & _ & _ & Hd & _).
  exists e, idt. split; [exact He|]. split; [exact Ho|by apply Hd].
Defined.

Lemma segments_match_selectors_witness :
  exists (gdt : list Z) d, gdt !! 5%nat = Some d /\ desc_dpl d = 3 /\ desc_long d = true.
Proof.
  assert (Hl : length (replicate 8 0) = 8%nat) by done. assert (Ht : 0 <= 0xFFFFFFFF80200000 < 2 ^ 64) by done.
  pose proof (segments_match_selectors 0x6000 0xFFFFFFFF80200000 0x1000 0x3000 0x5000 _ Hl Ht) as Hs.
  destruct (gdt_init _ _ _ _ _ _) as [[gdt t] operand]. destruct Hs as (_ & _ & _ & Hs & _).
  destruct (Hs SEL_USER_CODE true true) as (d & Hd & _ & Hp & _ & Hlong);
    [by rewrite !elem_of_cons; do 4 right; left|]. exists gdt, d. split; [exact Hd|]. split; [exact Hp|exact Hlong].
Defined.
