(* ===== verification/Vfs.v ===== *)
(** * The virtual file system: [drivers/filesystem/vfs.c]

    The four tables of the module are lists; a pointer to a slot is its index,
    [None] the null pointer.  A path is the bytes of the C string, [None] the
    null pointer; [cursor[0]] of the empty rest is the terminating 0.  A
    driver is a [vfs_ops_t], named by the type [T]; the private pointers it
    keeps in vnodes and handles have type [P], and its own state is [X].

    The lock [g_vfs_lock] has no counterpart (one flow of control); the
    superblock pointer, which nothing dereferences, is left out. *)

From S2P Require Import Prelude Types Bytes FileIO.

(** [VFS_MAX_DENTRIES]: drivers/filesystem/vfs.c:25-25 *)
Definition VFS_MAX_DENTRIES : nat := 64.
(** [VFS_MAX_VNODES]: drivers/filesystem/vfs.c:26-26 *)
Definition VFS_MAX_VNODES : nat := 128.
(** [VFS_MAX_HANDLES]: drivers/filesystem/vfs.c:27-27 *)
Definition VFS_MAX_HANDLES : nat := 64.
(** [VFS_MAX_NAMESPACES]: drivers/filesystem/vfs.c:28-28 *)
Definition VFS_MAX_NAMESPACES : nat := 16.
(** [VFS_NAME_MAX]: drivers/filesystem/vfs.c:29-29 *)
Definition VFS_NAME_MAX : nat := 255.

(** The characters the paths are made of. *)
Definition SLASH : Z := 47.
Definition COLON : Z := 58.

(** [*cursor]. *)
Definition char0 (s : list Z) : Z := match s with [] => 0 | c :: _ => c end.

(** ** Data *)

Section data.
Context {T P X : Type}.

(** [vnode]: drivers/filesystem/vfs.c:31-40 *)
Record vnode := mk_vnode {
  vn_inode_id : Z;
  vn_type : Z;
  vn_ops : option T;
  vn_refcnt : Z;
  vn_private : option P;
}.

(** [dentry]: drivers/filesystem/vfs.c:42-49 *)
Record dentry := mk_dentry {
  d_name : list Z;
  d_node : option nat;
  d_parent : option nat;
  d_first_child : option nat;
  d_next_sibling : option nat;
  d_refcnt : Z;
}.

(** [vfs_namespace_t]: drivers/filesystem/vfs.c:51-57 *)
Record vfs_namespace := mk_ns { ns_name : list Z; ns_root : nat; ns_cwd : nat; ns_in_use : bool }.

(** [handle]: drivers/filesystem/vfs.h:59-66 *)
Record handle_t := mk_hd {
  hd_vnode : option nat;
  hd_offset : Z;
  hd_flags : Z;
  hd_private : option P;
  hd_refcnt : Z;
}.

(** The module's variables, and the drivers' state. *)
(** [g_dentries]: drivers/filesystem/vfs.c:59-64 *)
Record vfs := mk_vfs {
  g_dentries : list dentry;
  g_handles : list handle_t;
  g_namespaces : list vfs_namespace;
  g_default_namespace : option nat;
  g_vnodes : list vnode;
  g_driver : X;
}.

(** An operation a driver does not have is the null pointer.  [op_read] stores
    bytes at the start of the buffer and sets [*bytes_read]; [op_open],
    [op_read], [op_write] and [op_close] may change the handle. *)
(** [vfs_ops_t]: drivers/filesystem/vfs.h:28-49 *)
Record vfs_ops_t := mk_ops {
  op_lookup : option (nat -> list Z -> ST vfs (res (option nat)));
  op_open : option (nat -> Z -> handle_t -> ST vfs (res unit * handle_t));
  op_read : option (handle_t -> Z -> ST vfs (Nerror * (list Z * Z) * handle_t));
  op_write : option (handle_t -> list Z -> ST vfs (res Z * handle_t));
  op_close : option (handle_t -> ST vfs (res unit * handle_t));
  op_stat : option (nat -> ST vfs (res vfs_stat_t));
  op_create : option (nat -> list Z -> Z -> ST vfs (res (option nat)));
  op_mkdir : option (nat -> list Z -> Z -> ST vfs (res (option nat)));
  op_unlink : option (nat -> list Z -> ST vfs (res unit));
  op_readdir : option (nat -> Z -> Z -> ST vfs (res (list Z * Z)));
  op_rename : option (nat -> list Z -> option nat -> list Z -> ST vfs (res unit));
}.

(** The fields [vfs_mount] reads. *)
(** [vfs_filesystem]: drivers/filesystem/vfs.h:51-57 *)
Record vfs_filesystem_t := mk_fsys { fsys_root : option nat; fsys_ops : option T }.

(** [memset(.., 0, ..)] of a slot. *)
Definition zero_vnode : vnode := mk_vnode 0 0 None 0 None.
Definition zero_dentry : dentry := mk_dentry [] None None None None 0.
Definition zero_hd : handle_t := mk_hd None 0 0 None 0.
Definition zero_ns : vfs_namespace := mk_ns [] 0 0 false.
End data.
Arguments vnode : clear implicits.
Arguments handle_t : clear implicits.
Arguments vfs : clear implicits.
Arguments vfs_ops_t : clear implicits.
Arguments vfs_filesystem_t : clear implicits.

(** The tables of the drivers. *)
Class VfsDrivers (T P X : Type) := { ops_table : T -> vfs_ops_t T P X }.

Section vfs.
Context {T P X : Type}.
Abbreviation vfs := (vfs T P X).
Abbreviation handle_t := (handle_t P).
Abbreviation vnode := (vnode T P).
Implicit Types (s : vfs) (d : dentry) (h : handle_t).

(** ** Access to the tables *)

Definition with_dentries x s : vfs :=
  mk_vfs x (g_handles s) (g_namespaces s) (g_default_namespace s) (g_vnodes s) (g_driver s).
Definition with_handles x s : vfs :=
  mk_vfs (g_dentries s) x (g_namespaces s) (g_default_namespace s) (g_vnodes s) (g_driver s).
Definition with_namespaces x s : vfs :=
  mk_vfs (g_dentries s) (g_handles s) x (g_default_namespace s) (g_vnodes s) (g_driver s).
Definition with_default x s : vfs :=
  mk_vfs (g_dentries s) (g_handles s) (g_namespaces s) x (g_vnodes s) (g_driver s).
Definition with_vnodes x s : vfs :=
  mk_vfs (g_dentries s) (g_handles s) (g_namespaces s) (g_default_namespace s) x (g_driver s).
Definition with_driver x s : vfs :=
  mk_vfs (g_dentries s) (g_handles s) (g_namespaces s) (g_default_namespace s) (g_vnodes s) x.

Definition dent (i : nat) s : dentry := default zero_dentry (g_dentries s !! i).
Definition vnod (i : nat) s : vnode := default zero_vnode (g_vnodes s !! i).
Definition nspc (i : nat) s : vfs_namespace := default zero_ns (g_namespaces s !! i).

Definition upd_dentry (i : nat) (f : dentry -> dentry) s : vfs := with_dentries (alter f i (g_dentries s)) s.
Definition upd_vnode (i : nat) (f : vnode -> vnode) s : vfs := with_vnodes (alter f i (g_vnodes s)) s.

Definition set_node (x : option nat) d : dentry :=
  mk_dentry (d_name d) x (d_parent d) (d_first_child d) (d_next_sibling d) (d_refcnt d).
Definition set_parent (x : option nat) d : dentry :=
  mk_dentry (d_name d) (d_node d) x (d_first_child d) (d_next_sibling d) (d_refcnt d).
Definition set_first_child (x : option nat) d : dentry :=
  mk_dentry (d_name d) (d_node d) (d_parent d) x (d_next_sibling d) (d_refcnt d).
Definition set_next_sibling (x : option nat) d : dentry :=
  mk_dentry (d_name d) (d_node d) (d_parent d) (d_first_child d) x (d_refcnt d).
Definition set_name (x : list Z) d : dentry :=
  mk_dentry x (d_node d) (d_parent d) (d_first_child d) (d_next_sibling d) (d_refcnt d).

(** ** Dentries *)

(** [alloc_dentry]: drivers/filesystem/vfs.c:66-85 *)
Definition alloc_dentry (name : list Z) (node parent : option nat) : ST vfs (option nat) := fun s =>
  match list_find (fun d => d_refcnt d = 0) (g_dentries s) with
  | None => (None, s)
  | Some (i, _) =>
      (Some i, with_dentries (<[i := mk_dentry (take VFS_NAME_MAX name) node parent None None 1]> (g_dentries s)) s)
  end.

(** [free_dentry]: drivers/filesystem/vfs.c:87-98 *)
Definition free_dentry (dentry_ : option nat) s : vfs :=
  match dentry_ with
  | None => s
  | Some i => upd_dentry i (fun d => mk_dentry (d_name d) None None None None 0) s
  end.

(** [attach_child]: drivers/filesystem/vfs.c:100-108 *)
Definition attach_child (parent child : option nat) s : vfs :=
  match parent, child with
  | Some p, Some c =>
      let s := upd_dentry c (set_next_sibling (d_first_child (dent p s))) s in
      upd_dentry p (set_first_child (Some c)) s
  | _, _ => s
  end.

(** The loop of [detach_child]. *)
(** [detach_loop]: drivers/filesystem/vfs.c:122-135 *)
Fixpoint detach_loop (fuel : nat) (parent child : nat) (current previous : option nat) s : vfs :=
  match fuel, current with
  | S fuel, Some c =>
      if (c =? child)%nat then
        let s := match previous with
                 | Some q => upd_dentry q (set_next_sibling (d_next_sibling (dent c s))) s
                 | None => upd_dentry parent (set_first_child (d_next_sibling (dent c s))) s
                 end in
        upd_dentry c (set_next_sibling None) s
      else detach_loop fuel parent child (d_next_sibling (dent c s)) (Some c) s
  | _, _ => s
  end.

(** [detach_child]: drivers/filesystem/vfs.c:110-136 *)
Definition detach_child (parent child : option nat) s : vfs :=
  match parent, child with
  | Some p, Some c => detach_loop VFS_MAX_DENTRIES p c (d_first_child (dent p s)) None s
  | _, _ => s
  end.

(** The loop of [find_child]. *)
(** [find_child_loop]: drivers/filesystem/vfs.c:147-152 *)
Fixpoint find_child_loop (fuel : nat) (child : option nat) (name : list Z) s : option nat :=
  match fuel, child with
  | S fuel, Some c =>
      if decide (d_name (dent c s) = name) then Some c
      else find_child_loop fuel (d_next_sibling (dent c s)) name s
  | _, _ => None
  end.

(** [find_child]: drivers/filesystem/vfs.c:138-155 *)
Definition find_child (parent : nat) (name : list Z) s : option nat :=
  find_child_loop VFS_MAX_DENTRIES (d_first_child (dent parent s)) name s.

(** ** Vnodes and handles *)

(** [alloc_vnode]: drivers/filesystem/vfs.c:157-172 *)
Definition alloc_vnode : ST vfs (option nat) := fun s =>
  match list_find (fun v => vn_refcnt v = 0) (g_vnodes s) with
  | None => (None, s)
  | Some (i, _) => (Some i, with_vnodes (<[i := mk_vnode 0 0 None 1 None]> (g_vnodes s)) s)
  end.

(** [free_vnode]: drivers/filesystem/vfs.c:174-184 *)
Definition free_vnode (vnode_ : option nat) s : vfs :=
  match vnode_ with
  | None => s
  | Some i => upd_vnode i (fun v => mk_vnode (vn_inode_id v) (vn_type v) None 0 None) s
  end.

(** [vfs_alloc_vnode]: drivers/filesystem/vfs.c:186-189 *)
Definition vfs_alloc_vnode : ST vfs (option nat) := alloc_vnode.

(** [vfs_init_vnode]: drivers/filesystem/vfs.c:191-209 *)
Definition vfs_init_vnode (vnode_ : option nat) (inode_id type : Z) (ops : option T) (fs_private : option P)
  : ST vfs (res unit) := fun s =>
  match vnode_, ops with
  | Some i, Some _ =>
      (Ok tt, upd_vnode i (fun v => mk_vnode inode_id type ops (vn_refcnt v) fs_private) s)
  | _, _ => (Err NinvalidArg, s)
  end.

(** [vfs_free_vnode]: drivers/filesystem/vfs.c:211-214 *)
Definition vfs_free_vnode (vnode_ : option nat) s : vfs := free_vnode vnode_ s.

(** [vfs_get_vnode_private]: drivers/filesystem/vfs.c:216-222 *)
Definition vfs_get_vnode_private (vnode_ : option nat) s : option P :=
  match vnode_ with None => None | Some i => vn_private (vnod i s) end.

(** [alloc_handle]: drivers/filesystem/vfs.c:224-239 *)
Definition alloc_handle : ST vfs (option nat) := fun s =>
  match list_find (fun h => hd_refcnt h = 0) (g_handles s) with
  | None => (None, s)
  | Some (i, _) => (Some i, with_handles (<[i := mk_hd None 0 0 None 1]> (g_handles s)) s)
  end.

(** On the handle it is given, a slot or a caller's copy. *)
(** [free_handle]: drivers/filesystem/vfs.c:241-252 *)
Definition free_handle h : handle_t := mk_hd None 0 0 None 0.

(** ** Paths *)

(** [is_empty_string]: drivers/filesystem/vfs.c:254-257 *)
Definition is_empty_string (string : option (list Z)) : bool :=
  match string with None => true | Some s => char0 s =? 0 end.

(** Storing [bs] at [off] in a buffer. *)
Definition buf_write (buf : list Z) (off : nat) (bs : list Z) : list Z :=
  take off buf ++ bs ++ drop (off + length bs) buf.

(** The C string a buffer holds: what precedes its first 0. *)
Fixpoint cstring (buf : list Z) : list Z :=
  match buf with [] => [] | c :: buf => if c =? 0 then [] else c :: cstring buf end.

(** [strchr(cursor, c)] as the bytes before and after the match. *)
Fixpoint split_at (c : Z) (s : list Z) : option (list Z * list Z) :=
  match s with
  | [] => None
  | x :: s => if x =? c then Some ([], s)
              else match split_at c s with Some (a, b) => Some (x :: a, b) | None => None end
  end.

(** The loop: [cursor], the buffer and [ns_len].  The results are the status,
    the buffer, and the local path when it was set. *)
(** [parse_ns_loop]: drivers/filesystem/vfs.c:281-330 *)
Fixpoint parse_ns_loop (fuel max_ns : nat) (cursor out_ns : list Z) (ns_len : nat)
  : Nerror * list Z * option (list Z) :=
  match fuel with
  | O => (Nok, out_ns, None)
  | S fuel =>
      if char0 cursor =? 0 then (Nok, out_ns, None)
      else match split_at COLON cursor with
      | None => (Nok, out_ns, None)
      | Some (segment, after) =>
          let segment_len := length segment in
          if (max_ns <=? ns_len + segment_len)%nat then (NpathTooLong, out_ns, None)
          else
            let sep := (0 <? ns_len)%nat in
            if sep && (max_ns <=? ns_len + 1)%nat then (NpathTooLong, out_ns, None)
            else
              let out_ns := if sep then buf_write out_ns ns_len [COLON] else out_ns in
              let ns_len := if sep then S ns_len else ns_len in
              if sep && (max_ns <=? ns_len + segment_len)%nat then (NpathTooLong, out_ns, None)
              else
                let out_ns := buf_write out_ns ns_len segment in
                let ns_len := (ns_len + segment_len)%nat in
                if char0 after =? SLASH then (Nok, buf_write out_ns ns_len [0], Some after)
                else parse_ns_loop fuel max_ns after out_ns ns_len
      end
  end.

(** [out_ns] is what the caller's buffer holds before the call; its length is
    [max_ns].  The results are the status, the buffer and the local path. *)
(** [parse_namespace_path]: drivers/filesystem/vfs.c:263-333 *)
Definition parse_namespace_path (path out_ns : list Z) : Nerror * list Z * list Z :=
  let max_ns := length out_ns in
  if (max_ns =? 0)%nat then (NinvalidArg, out_ns, path)
  else
    let out_ns := buf_write out_ns 0 [0] in
    if char0 path =? SLASH then (Nok, out_ns, path)
    else
      let '(st, out_ns, local) := parse_ns_loop (S (length path)) max_ns path out_ns 0 in
      (st, out_ns, default path local).

Fixpoint skip_slashes (s : list Z) : list Z :=
  match s with
  | [] => []
  | c :: s' => if c =? SLASH then skip_slashes s' else s
  end.

(** The copying loop; [len] bytes are already in [out_name]. *)
(** [take_segment]: drivers/filesystem/vfs.c:356-361 *)
Fixpoint take_segment (source : list Z) (len max_len : nat) : res (list Z * list Z) :=
  match source with
  | [] => Ok ([], [])
  | c :: source' =>
      if c =? SLASH then Ok ([], source)
      else if (max_len <=? len + 1)%nat then Err NpathTooLong
      else match take_segment source' (S len) max_len with
           | Ok (name, rest) => Ok (c :: name, rest)
           | Err e => Err e
           end
  end.

(** The name, and [*cursor] after the call. *)
(** [parse_segment]: drivers/filesystem/vfs.c:335-371 *)
Definition parse_segment (cursor : list Z) (max_len : nat) : res (list Z * list Z) :=
  if (max_len =? 0)%nat then Err NinvalidArg
  else
    let source := skip_slashes cursor in
    if char0 source =? 0 then Ok ([], source)
    else match take_segment source 0 max_len with
         | Ok (name, rest) => Ok (name, skip_slashes rest)
         | Err e => Err e
         end.

(** ** Namespaces *)

(** [find_namespace]: drivers/filesystem/vfs.c:373-388 *)
Definition find_namespace (name : list Z) s : option nat :=
  fst <$> list_find (fun n => ns_in_use n = true /\ ns_name n = name) (g_namespaces s).

(** [create_namespace]: drivers/filesystem/vfs.c:390-409 *)
Definition create_namespace (name : list Z) (root : nat) : ST vfs (option nat) := fun s =>
  match list_find (fun n => ns_in_use n = false) (g_namespaces s) with
  | None => (None, s)
  | Some (i, _) =>
      (Some i, with_namespaces (<[i := mk_ns (take VFS_NAME_MAX name) root root true]> (g_namespaces s)) s)
  end.

(** [get_namespace]: drivers/filesystem/vfs.c:411-437 *)
Definition get_namespace (name : list Z) (create : bool) : ST vfs (option nat) := fun s =>
  if is_empty_string (Some name) then (g_default_namespace s, s)
  else
    match find_namespace name s with
    | Some ns => (Some ns, s)
    | None =>
        if negb create then (None, s)
        else match alloc_dentry [] None None s with
        | (None, s) => (None, s)
        | (Some root, s) =>
            match create_namespace name root s with
            | (None, s) => (None, free_dentry (Some root) s)
            | (Some ns, s) => (Some ns, s)
            end
        end
    end.

(** [stack] is what the local buffer [namespace_name] holds before it is
    written. *)
Context (stack : list Z).

(** [resolve_namespace_path]: drivers/filesystem/vfs.c:439-459 *)
Definition resolve_namespace_path (path : list Z) (create_ns : bool) : ST vfs (res (nat * list Z)) := fun s =>
  let '(status, namespace_name, local_path) := parse_namespace_path path stack in
  if is_err status then (Err status, s)
  else match get_namespace (cstring namespace_name) create_ns s with
       | (None, s) => (Err NnotFound, s)
       | (Some ns, s) => (Ok (ns, local_path), s)
       end.

(** ** Walking a path *)

Context `{VfsDrivers T P X}.

(** [node->ops->op], when all three pointers are there. *)
Definition node_op {A} (op : vfs_ops_t T P X -> option A) (node : option nat) s : option (nat * A) :=
  n ← node; o ← vn_ops (vnod n s); f ← op (ops_table o); Some (n, f).

(** The dentry for [name] under [current]: the cached one, or a new one for
    what the driver finds; [missing] is the status when it cannot. *)
(** [walk_step]: drivers/filesystem/vfs.c:497-520 *)
Definition walk_step (missing : Nerror) (current : nat) (name : list Z) : ST vfs (res nat) := fun s =>
  match find_child current name s with
  | Some child => (Ok child, s)
  | None =>
      match node_op op_lookup (d_node (dent current s)) s with
      | None => (Err missing, s)
      | Some (n, lookup) =>
          match lookup n name s with
          | (Err e, s) => (Err e, s)
          | (Ok None, s) => (Err missing, s)
          | (Ok (Some v), s) =>
              match alloc_dentry name (Some v) (Some current) s with
              | (None, s) => (Err NoutOfMemory, vfs_free_vnode (Some v) s)
              | (Some child, s) => (Ok child, attach_child (Some current) (Some child) s)
              end
          end
      end
  end.

(** [resolve_loop]: drivers/filesystem/vfs.c:484-523 *)
Fixpoint resolve_loop (fuel : nat) (current : nat) (cursor : list Z) : ST vfs (res nat) := fun s =>
  match fuel with
  | O => (Ok current, s)
  | S fuel =>
      if char0 cursor =? 0 then (Ok current, s)
      else match parse_segment cursor (S VFS_NAME_MAX) with
      | Err e => (Err e, s)
      | Ok (name, cursor) =>
          if char0 name =? 0 then (Ok current, s)
          else (child <-? walk_step NfileNotFound current name ;; resolve_loop fuel child cursor) s
      end
  end.

Definition start_dentry (ns : nat) (path : list Z) s : nat :=
  if char0 path =? SLASH then ns_root (nspc ns s) else ns_cwd (nspc ns s).
Definition skip_slash (path : list Z) : list Z := if char0 path =? SLASH then tail path else path.

(** [resolve_path_internal_ns]: drivers/filesystem/vfs.c:465-527 *)
Definition resolve_path_internal_ns (ns : nat) (path : list Z) : ST vfs (res nat) := fun s =>
  resolve_loop (S (length path)) (start_dentry ns path s) (skip_slash path) s.

(** [path_len] is the length of the whole path: [cursor == path] says that
    nothing has been consumed. *)
(** [resolve_parent_loop]: drivers/filesystem/vfs.c:550-611 *)
Fixpoint resolve_parent_loop (fuel : nat) (path_len : nat) (current : nat) (cursor : list Z)
  : ST vfs (res (nat * list Z)) := fun s =>
  let at_end cursor :=
    if (length cursor =? path_len)%nat || (path_len =? 0)%nat then (Ok (current, []), s) else (Err NnotFound, s) in
  match fuel with
  | O => at_end cursor
  | S fuel =>
      if char0 cursor =? 0 then at_end cursor
      else match parse_segment cursor (S VFS_NAME_MAX) with
      | Err e => (Err e, s)
      | Ok (name, cursor) =>
          if char0 name =? 0 then at_end cursor
          else
            let next_cursor := skip_slashes cursor in
            if char0 next_cursor =? 0 then (Ok (current, take VFS_NAME_MAX name), s)
            else (child <-? walk_step NnotFound current name ;;
                  resolve_parent_loop fuel path_len child next_cursor) s
      end
  end.

(** [resolve_parent_ns]: drivers/filesystem/vfs.c:529-612 *)
Definition resolve_parent_ns (ns : nat) (path : list Z) : ST vfs (res (nat * list Z)) := fun s =>
  resolve_parent_loop (S (length path)) (length path) (start_dentry ns path s) (skip_slash path) s.

(** [resolve_path_internal]: drivers/filesystem/vfs.c:791-807 *)
Definition resolve_path_internal (path : list Z) : ST vfs (res nat) :=
  r <-? resolve_namespace_path path false ;;
  resolve_path_internal_ns r.1 r.2.

(** ** Mounting *)

(** [vfs_init]: drivers/filesystem/vfs.c:614-633 *)
Definition vfs_init : ST vfs Nerror := fun s =>
  let s := with_namespaces (replicate VFS_MAX_NAMESPACES zero_ns) s in
  match alloc_dentry [] None None s with
  | (None, s) => (NoutOfMemory, s)
  | (Some root, s) =>
      match create_namespace [] root s with
      | (None, s) => (NoutOfMemory, free_dentry (Some root) (with_default None s))
      | (Some ns, s) => (Nok, with_default (Some ns) s)
      end
  end.

(** [vfs_register_namespace]: drivers/filesystem/vfs.c:635-669 *)
Definition vfs_register_namespace (namespace_name source_path : option (list Z)) : ST vfs (res unit) :=
  match namespace_name, source_path with
  | Some name, Some source =>
      r <-? resolve_namespace_path source false ;;
      root <-? resolve_path_internal_ns r.1 r.2 ;;
      target_ns <-o{NtooManyFileSystem} get_namespace name true ;;
      fun s => (Ok tt, with_namespaces
        (alter (fun n => mk_ns (ns_name n) root root (ns_in_use n)) target_ns (g_namespaces s)) s)
  | _, _ => fail NinvalidArg
  end.

Definition is_root_path (local_path : list Z) : bool :=
  bool_decide (local_path = [SLASH]) || (char0 local_path =? 0).

(** [vfs_mount]: drivers/filesystem/vfs.c:671-736 *)
Definition vfs_mount (path : option (list Z)) (fs : option (vfs_filesystem_t T)) : ST vfs (res unit) :=
  match path, fs ≫= fsys_root, fs ≫= fsys_ops with
  | Some path, Some fs_root, Some _ =>
      if (length path =? 0)%nat then fail NinvalidArg
      else
        r <-? resolve_namespace_path path true ;;
        let '(ns, local_path) := r in
        if is_root_path local_path then fun s =>
          let root := ns_root (nspc ns s) in
          match d_node (dent root s) with
          | Some _ => (Err NalreadyExists, s)
          | None => (Ok tt, upd_dentry root (set_node (Some fs_root)) s)
          end
        else
          r <-? resolve_parent_ns ns local_path ;;
          let '(parent, mount_name) := r in
          if char0 mount_name =? 0 then fail NinvalidArg
          else fun s =>
            match find_child parent mount_name s with
            | Some existing =>
                match d_node (dent existing s) with
                | Some _ => (Err NalreadyExists, s)
                | None => (Ok tt, upd_dentry existing (set_node (Some fs_root)) s)
                end
            | None =>
                match alloc_dentry mount_name (Some fs_root) (Some parent) s with
                | (None, s) => (Err NoutOfMemory, s)
                | (Some existing, s) => (Ok tt, attach_child (Some parent) (Some existing) s)
                end
            end
  | _, _, _ => fail NinvalidArg
  end.

(** [vfs_unmount]: drivers/filesystem/vfs.c:738-789 *)
Definition vfs_unmount (path : option (list Z)) : ST vfs (res unit) :=
  match path with
  | None => fail NinvalidArg
  | Some path =>
      if (length path =? 0)%nat then fail NinvalidArg
      else
        r <-? resolve_namespace_path path false ;;
        let '(ns, local_path) := r in
        if is_root_path local_path then fun s =>
          let root := ns_root (nspc ns s) in
          match d_node (dent root s) with
          | None => (Err NnotFound, s)
          | Some _ => (Ok tt, upd_dentry root (set_node None) s)
          end
        else
          mount_point <-? resolve_path_internal_ns ns local_path ;;
          fun s =>
            match d_node (dent mount_point s) with
            | None => (Err NnotFound, s)
            | Some _ =>
                match d_parent (dent mount_point s) with
                | Some parent =>
                    (Ok tt, free_dentry (Some mount_point) (detach_child (Some parent) (Some mount_point) s))
                | None => (Ok tt, upd_dentry mount_point (set_node None) s)
                end
            end
  end.

(** ** Open files *)

(** A slot of [g_handles] is filled, the driver opens it, and the slot is
    given back: the caller gets a copy. *)
(** [open_slot]: drivers/filesystem/vfs.c:828-847 *)
Definition open_slot (vnode_ : nat) (op : nat -> Z -> handle_t -> ST vfs (res unit * handle_t))
    (flags offset : Z) : ST vfs (res handle_t) :=
  i <-o{NoutOfMemory} alloc_handle ;;
  fun s =>
    let h := mk_hd (Some vnode_) offset flags None 1 in
    let '((st, h), s) := op vnode_ flags h (with_handles (<[i := h]> (g_handles s)) s) in
    let s := with_handles (<[i := free_handle h]> (g_handles s)) s in
    match st with
    | Ok _ => (Ok h, s)
    | Err e => (Err e, s)
    end.

(** [vfs_open]: drivers/filesystem/vfs.c:809-848 *)
Definition vfs_open (path : option (list Z)) (flags : Z) : ST vfs (res handle_t) :=
  match path with
  | None => fail NinvalidArg
  | Some path =>
      target <-? resolve_path_internal path ;;
      fun s =>
        match node_op op_open (d_node (dent target s)) s with
        | None => (Err Nunsupported, s)
        | Some (n, open) => open_slot n open flags 0 s
        end
  end.

Definition advance (got : Z) h : handle_t :=
  mk_hd (hd_vnode h) (u64 (hd_offset h + got)) (hd_flags h) (hd_private h) (hd_refcnt h).

(** The status, the bytes stored in the buffer, [*bytes_read], and the handle. *)
(** [vfs_read]: drivers/filesystem/vfs.c:850-872 *)
Definition vfs_read (h : handle_t) (size : Z) : ST vfs (Nerror * (list Z * Z) * handle_t) := fun s =>
  match node_op op_read (hd_vnode h) s with
  | None => ((Nunsupported, ([], 0), h), s)
  | Some (_, read) =>
      let '((status, (bytes, bytes_read), h), s) := read h size s in
      if is_err status then ((status, (bytes, bytes_read), h), s)
      else ((Nok, (bytes, bytes_read), advance bytes_read h), s)
  end.

(** [vfs_write]: drivers/filesystem/vfs.c:874-895 *)
Definition vfs_write (h : handle_t) (buffer : list Z) : ST vfs (res Z * handle_t) := fun s =>
  match node_op op_write (hd_vnode h) s with
  | None => ((Err Nunsupported, h), s)
  | Some (_, write) =>
      match write h buffer s with
      | ((Err e, h), s) => ((Err e, h), s)
      | ((Ok bytes_written, h), s) => ((Ok bytes_written, advance bytes_written h), s)
      end
  end.

(** [vfs_close]: drivers/filesystem/vfs.c:897-916 *)
Definition vfs_close (h : handle_t) : ST vfs (res unit * handle_t) := fun s =>
  match node_op op_close (hd_vnode h) s with
  | None => ((Err Nunsupported, h), s)
  | Some (_, close) =>
      match close h s with
      | ((Err e, h), s) => ((Err e, h), s)
      | ((Ok _, h), s) => ((Ok tt, free_handle h), s)
      end
  end.

(** [vfs_fstat]: drivers/filesystem/vfs.c:918-930 *)
Definition vfs_fstat (h : handle_t) : ST vfs (res vfs_stat_t) := fun s =>
  match node_op op_stat (hd_vnode h) s with
  | None => (Err Nunsupported, s)
  | Some (n, stat) => stat n s
  end.

(** [vfs_reopen]: drivers/filesystem/vfs.c:932-961 *)
Definition vfs_reopen (src : handle_t) : ST vfs (res handle_t) := fun s =>
  match node_op op_open (hd_vnode src) s with
  | None => (Err NinvalidArg, s)
  | Some (n, open) => open_slot n open (hd_flags src) (hd_offset src) s
  end.

(** ** Changing the tree *)

(** What [vfs_create] and [vfs_mkdir] share: they differ in the driver's
    operation only. *)
(** [make_child]: drivers/filesystem/vfs.c:969-1034 *)
Definition make_child (op : vfs_ops_t T P X -> option (nat -> list Z -> Z -> ST vfs (res (option nat))))
    (path : option (list Z)) (mode : Z) : ST vfs (res unit) :=
  match path with
  | None => fail NinvalidArg
  | Some path =>
      if (length path =? 0)%nat then fail NinvalidArg
      else
        r <-? resolve_namespace_path path false ;;
        r <-? resolve_parent_ns r.1 r.2 ;;
        let '(parent, name) := r in
        if char0 name =? 0 then fail NinvalidArg
        else fun s =>
          match node_op op (d_node (dent parent s)) s with
          | None => (Err Nunsupported, s)
          | Some (n, create) =>
              let existing := find_child parent name s in
              if match existing with Some e => bool_decide (is_Some (d_node (dent e s))) | None => false end
              then (Err NalreadyExists, s)
              else match create n name mode s with
              | (Err e, s) => (Err e, s)
              | (Ok child, s) =>
                  match existing with
                  | Some e => (Ok tt, upd_dentry e (set_node child) s)
                  | None =>
                      match alloc_dentry name child (Some parent) s with
                      | (None, s) => (Err NoutOfMemory, vfs_free_vnode child s)
                      | (Some d, s) => (Ok tt, attach_child (Some parent) (Some d) s)
                      end
                  end
              end
          end
  end.

(** [vfs_create]: drivers/filesystem/vfs.c:969-1034 *)
Definition vfs_create (path : option (list Z)) (mode : Z) : ST vfs (res unit) := make_child op_create path mode.
(** [vfs_mkdir]: drivers/filesystem/vfs.c:1036-1101 *)
Definition vfs_mkdir (path : option (list Z)) (mode : Z) : ST vfs (res unit) := make_child op_mkdir path mode.

(** Dropping a cached child: it is detached, its vnode and itself freed. *)
(** [drop_child]: drivers/filesystem/vfs.c:1148-1155 *)
Definition drop_child (parent : nat) (existing : option nat) s : vfs :=
  match existing with
  | None => s
  | Some e =>
      let s := detach_child (Some parent) (Some e) s in
      let s := match d_node (dent e s) with Some v => vfs_free_vnode (Some v) s | None => s end in
      free_dentry (Some e) s
  end.

(** [vfs_unlink]: drivers/filesystem/vfs.c:1103-1159 *)
Definition vfs_unlink (path : option (list Z)) : ST vfs (res unit) :=
  match path with
  | None => fail NinvalidArg
  | Some path =>
      if (length path =? 0)%nat then fail NinvalidArg
      else
        r <-? resolve_namespace_path path false ;;
        r <-? resolve_parent_ns r.1 r.2 ;;
        let '(parent, name) := r in
        if char0 name =? 0 then fail NinvalidArg
        else fun s =>
          match node_op op_unlink (d_node (dent parent s)) s with
          | None => (Err Nunsupported, s)
          | Some (n, unlink) =>
              match unlink n name s with
              | (Err e, s) => (Err e, s)
              | (Ok _, s) => (Ok tt, drop_child parent (find_child parent name s) s)
              end
          end
  end.

(** [vfs_readdir]: drivers/filesystem/vfs.c:1161-1180 *)
Definition vfs_readdir (path : option (list Z)) (index name_out_max : Z) : ST vfs (res (list Z * Z)) :=
  match path with
  | None => fail NinvalidArg
  | Some path =>
      if name_out_max =? 0 then fail NinvalidArg
      else
        target <-? resolve_path_internal path ;;
        fun s =>
          match node_op op_readdir (d_node (dent target s)) s with
          | None => (Err Nunsupported, s)
          | Some (n, readdir) => readdir n index name_out_max s
          end
  end.

(** [walk] and its parents; true when one of them is [target]. *)
(** [walks_to]: drivers/filesystem/vfs.c:1247-1252 *)
Fixpoint walks_to (fuel : nat) (walk : option nat) (target : nat) s : bool :=
  match fuel, walk with
  | S fuel, Some w => if (w =? target)%nat then true else walks_to fuel (d_parent (dent w s)) target s
  | _, _ => false
  end.

(** [vfs_rename]: drivers/filesystem/vfs.c:1182-1283 *)
Definition vfs_rename (old_path new_path : option (list Z)) : ST vfs (res unit) :=
  match old_path, new_path with
  | Some old_path, Some new_path =>
      if (length old_path =? 0)%nat || (length new_path =? 0)%nat then fail NinvalidArg
      else
        old <-? resolve_namespace_path old_path false ;;
        new <-? resolve_namespace_path new_path false ;;
        if negb (old.1 =? new.1)%nat then fail Nunsupported
        else
          oldp <-? resolve_parent_ns old.1 old.2 ;;
          newp <-? resolve_parent_ns new.1 new.2 ;;
          let '(old_parent, old_name) := oldp in
          let '(new_parent, new_name) := newp in
          if (char0 old_name =? 0) || (char0 new_name =? 0) then fail NinvalidArg
          else fun s =>
            match node_op op_rename (d_node (dent old_parent s)) s with
            | None => (Err Nunsupported, s)
            | Some (on, rename) =>
                let existing_old := find_child old_parent old_name s in
                if match existing_old with
                   | Some e => walks_to VFS_MAX_DENTRIES (Some new_parent) e s | None => false end
                then (Err NinvalidArg, s)
                else match rename on old_name (d_node (dent new_parent s)) new_name s with
                | (Err e, s) => (Err e, s)
                | (Ok _, s) =>
                    let s := drop_child new_parent (find_child new_parent new_name s) s in
                    match existing_old with
                    | None => (Ok tt, s)
                    | Some e =>
                        let s := detach_child (Some old_parent) (Some e) s in
                        let s := upd_dentry e (fun d =>
                          set_parent (Some new_parent) (set_name (take VFS_NAME_MAX new_name) d)) s in
                        (Ok tt, attach_child (Some new_parent) (Some e) s)
                    end
                end
            end
  | _, _ => fail NinvalidArg
  end.
End vfs.
