(* ===== verification/VfsPath.v ===== *)
(** * Paths of the VFS

    What the two parsers of [vfs.c] do with a path: the components of a local
    path, the namespace part of "ns:/path", and the loops that walk a path as
    recursions over its components. *)

From S2P Require Import Prelude Types Bytes FileIO Vfs.

(** A C string has no zero byte. *)
Definition no_nul (s : list Z) : Prop := Forall (fun c => c <> 0) s.
(** A component of a path. *)
Definition component (n : list Z) : Prop := n <> [] /\ no_nul n /\ Forall (fun c => c <> SLASH) n.

(** The path "/n1/n2/...". *)
Definition path_of (names : list (list Z)) : list Z := mjoin ((fun n => SLASH :: n) <$> names).

(** The maximal runs of [s] without a slash, [cur] being the start of the
    first. *)
Fixpoint components_from (cur s : list Z) : list (list Z) :=
  match s with
  | [] => match cur with [] => [] | _ => [cur] end
  | c :: s =>
      if c =? SLASH then match cur with [] => components_from [] s | _ => cur :: components_from [] s end
      else components_from (cur ++ [c]) s
  end.
Definition components (s : list Z) : list (list Z) := components_from [] s.

Lemma char0_nonzero s : no_nul s -> (char0 s =? 0) = true <-> s = [].
Proof. intros Hn. destruct Hn as [|c s Hc Hs]; [done|]. simpl. split; [lia|done]. Qed.

Lemma skip_slashes_nul s : no_nul s -> no_nul (skip_slashes s).
Proof. induction 1 as [|c s Hc Hs IH]; simpl; [constructor|]. case_if; [done|by constructor]. Qed.

Lemma skip_slashes_length s : (length (skip_slashes s) <= length s)%nat.
Proof. induction s as [|c s IH]; simpl; [lia|]. case_if; simpl; lia. Qed.

Lemma components_skip s : components (skip_slashes s) = components s.
Proof. induction s as [|c s IH]; [done|]. simpl. destruct (c =? SLASH) eqn:E; [|done]. unfold components in *. simpl. by rewrite E. Qed.

Lemma skip_slashes_head s c s' : skip_slashes s = c :: s' -> c <> SLASH.
Proof. induction s as [|x s IH]; simpl; [done|]. case_if; [done|]. by intros [= <- <-]. Qed.

(** The copying loop stops at a slash or at the end, or finds the name too
    long. *)
Lemma take_segment_spec s len max : (len < max)%nat ->
  match take_segment s len max with
  | Ok (name, rest) => s = name ++ rest /\ Forall (fun c => c <> SLASH) name /\
      (len + length name < max)%nat /\ (rest = [] \/ char0 rest = SLASH)
  | Err e => e = NpathTooLong /\ exists name rest, s = name ++ rest /\
      Forall (fun c => c <> SLASH) name /\ (max <= len + length name)%nat
  end.
Proof.
  revert len. induction s as [|c s IH]; intros len Hl; cbn [take_segment].
  - split; [done|]. split; [constructor|]. split; [simpl; lia|by left].
  - destruct (c =? SLASH) eqn:Ec.
    + apply Z.eqb_eq in Ec. split; [done|]. split; [constructor|]. split; [simpl; lia|by right].
    + apply Z.eqb_neq in Ec. destruct (max <=? len + 1)%nat eqn:Em.
      * apply Nat.leb_le in Em. split; [done|]. exists [c], s. split; [done|]. split; [by repeat constructor|simpl; lia].
      * apply Nat.leb_gt in Em. specialize (IH (S len) ltac:(lia)).
        destruct (take_segment s (S len) max) as [[name rest]|e].
        -- destruct IH as (-> & Hf & Hlen & Hr). split; [done|]. split; [by constructor|]. split; [simpl; lia|done].
        -- destruct IH as (-> & name & rest & -> & Hf & Hlen). split; [done|]. exists (c :: name), rest.
           split; [done|]. split; [by constructor|simpl; lia].
Qed.

Lemma components_from_app cur name rest : Forall (fun c => c <> SLASH) name ->
  components_from cur (name ++ rest) = components_from (cur ++ name) rest.
Proof.
  intros Hf. revert cur. induction Hf as [|c name Hc Hf IH]; intros cur; simpl; [by rewrite app_nil_r|].
  rewrite (proj2 (Z.eqb_neq _ _) Hc), IH, <- app_assoc. done.
Qed.

(** A call of [parse_segment] takes the first component. *)
Lemma parse_segment_spec s max : no_nul s -> (0 < max)%nat ->
  match components s with
  | [] => parse_segment s max = Ok ([], [])
  | n :: ns =>
      component n /\
      if (length n <? max)%nat
      then exists rest, parse_segment s max = Ok (n, rest) /\ components rest = ns /\ no_nul rest /\
             (length rest < length s)%nat /\ skip_slashes rest = rest
      else parse_segment s max = Err NpathTooLong
  end.
Proof.
  intros Hn Hm. unfold parse_segment. rewrite (proj2 (Nat.eqb_neq _ _)) by lia.
  rewrite <- components_skip. pose proof (skip_slashes_length s) as Hsl.
  pose proof (skip_slashes_nul s Hn) as Hn'. pose proof (skip_slashes_head s) as Hh.
  destruct (skip_slashes s) as [|c s'] eqn:Es; [done|]. specialize (Hh c s' eq_refl).
  assert (Hc0 : c <> 0) by by inversion Hn'.
  cbn [char0]. rewrite (proj2 (Z.eqb_neq _ _) Hc0).
  pose proof (take_segment_spec (c :: s') 0 max Hm) as Ht.
  destruct (take_segment (c :: s') 0 max) as [[name rest]|e].
  - destruct Ht as (Hs & Hf & Hlen & Hr). rewrite Hs in *. unfold components.
    rewrite (components_from_app [] name rest Hf). simpl app.
    destruct name as [|c' name]; [by destruct Hr as [->|Hr]; [|destruct rest; simplify_eq/=]|].
    apply Forall_app in Hn' as [Hnn Hnr].
    assert (Hcomp : components_from (c' :: name) rest = (c' :: name) :: components (skip_slashes rest)).
    { destruct Hr as [->|Hr]; [done|]. destruct rest as [|x rest]; [done|]. simpl in Hr. subst x.
      rewrite components_skip. done. }
    rewrite Hcomp. split; [by split_and!|]. rewrite (proj2 (Nat.ltb_lt _ _)) by (simpl in *; lia).
    exists (skip_slashes rest). split; [done|]. split; [done|]. split; [by apply skip_slashes_nul|].
    pose proof (skip_slashes_length rest). rewrite length_app in Hsl. simpl in *. split; [lia|].
    clear. induction rest as [|x rest IH]; simpl; [done|]. destruct (x =? SLASH) eqn:E; [done|]. simpl. by rewrite E.
  - destruct Ht as (-> & name & rest & Hs & Hf & Hlen). rewrite Hs in *.
    unfold components. rewrite (components_from_app [] name rest Hf). simpl app.
    assert (Hgen : forall cur r, no_nul r -> component cur -> exists n ns, components_from cur r = n :: ns /\
      component n /\ (length cur <= length n)%nat).
    { intros cur r Hr. revert cur. induction Hr as [|x r Hx Hr IH]; intros cur Hc; simpl.
      - destruct cur; [by destruct Hc|]. by do 2 eexists.
      - destruct (x =? SLASH) eqn:Ex; [destruct cur; [by destruct Hc|]; by do 2 eexists|].
        apply Z.eqb_neq in Ex. destruct (IH (cur ++ [x])) as (n & ns & E & Hcn & Hl).
        + destruct Hc as (H1 & H2 & H3). split; [by destruct cur|]. split; apply Forall_app; split; try done; by repeat constructor.
        + rewrite length_app in Hl. simpl in Hl. exists n, ns. split; [done|]. split; [done|lia]. }
    apply Forall_app in Hn' as [Hnn Hnr].
    destruct (Hgen name rest Hnr) as (n & ns & -> & Hcn & Hl).
    { split; [destruct name; [simpl in *; lia|done]|done]. }
    split; [done|]. rewrite (proj2 (Nat.ltb_ge _ _)) by lia. done.
Qed.

Lemma components_path_of names : Forall component names -> components (path_of names) = names.
Proof.
  induction 1 as [|n names (Hn & _ & Hs) Hf IH]; [done|]. unfold path_of, components in *. simpl.
  rewrite components_from_app by done. simpl app.
  destruct n as [|c n]; [done|]. destruct names as [|m names]; [done|]. simpl in *. by rewrite <- IH.
Qed.

Lemma no_nul_path_of names : Forall component names -> no_nul (path_of names).
Proof.
  induction 1 as [|n names (Hn & Hz & Hs) Hf IH]; [constructor|]. unfold path_of in *. simpl.
  constructor; [done|]. by apply Forall_app.
Qed.

(** ** The namespace part *)

Lemma split_at_app c a b : Forall (fun x => x <> c) a -> split_at c (a ++ c :: b) = Some (a, b).
Proof.
  induction 1 as [|x a Hx Ha IH]; simpl; [by rewrite Z.eqb_refl|].
  by rewrite (proj2 (Z.eqb_neq _ _) Hx), IH.
Qed.

Lemma cstring_write buf n : no_nul n -> (length n < length buf)%nat ->
  cstring (buf_write (buf_write buf 0 n) (length n) [0]) = n.
Proof.
  intros Hn Hl. unfold buf_write. simpl. rewrite take_app_length. clear Hl.
  generalize (drop (length n + 1) (n ++ drop (length n) buf)) as rest. intros rest.
  induction Hn as [|c n Hc Hn IH]; [done|]. simpl. by rewrite (proj2 (Z.eqb_neq _ _) Hc), IH.
Qed.

(** A path "ns:/..." is split at the colon, whatever the buffer held. *)
Lemma parse_namespace_spec ns local buf : component ns -> Forall (fun c => c <> COLON) ns ->
  (length ns < length buf)%nat -> char0 local = SLASH ->
  exists buf', parse_namespace_path (ns ++ COLON :: local) buf = (Nok, buf', local) /\ cstring buf' = ns.
Proof.
  intros (Hne & Hz & Hs) Hc Hl Hloc. unfold parse_namespace_path.
  rewrite (proj2 (Nat.eqb_neq _ _)) by lia.
  assert (H0 : char0 (ns ++ COLON :: local) <> SLASH /\ char0 (ns ++ COLON :: local) <> 0).
  { destruct ns as [|c ns]; [done|]. simpl. split; [by inversion Hs|by inversion Hz]. }
  destruct H0 as [H1 H2]. rewrite (proj2 (Z.eqb_neq _ SLASH) H1). cbn [parse_ns_loop].
  rewrite (proj2 (Z.eqb_neq _ 0) H2), split_at_app by done. simpl plus.
  rewrite (proj2 (Nat.leb_gt _ _)) by lia. cbn [Nat.ltb Nat.leb andb]. rewrite Hloc, Z.eqb_refl.
  eexists. split; [reflexivity|]. apply cstring_write; [done|].
  destruct buf as [|x buf]; simpl in *; [lia|]. unfold buf_write. simpl. rewrite drop_0. simpl. lia.
Qed.

(** An absolute path, or a relative one without a colon, is local to the
    default namespace. *)
Lemma parse_local_spec local buf : (0 < length buf)%nat ->
  char0 local = SLASH \/ split_at COLON local = None ->
  exists buf', parse_namespace_path local buf = (Nok, buf', local) /\ cstring buf' = [].
Proof.
  intros Hl Hor. unfold parse_namespace_path. rewrite (proj2 (Nat.eqb_neq _ _)) by lia.
  exists (buf_write buf 0 [0]). split; [|done]. case_if; [done|].
  destruct Hor as [Ho|Ho]; [done|]. cbn [parse_ns_loop]. case_if; [done|]. by rewrite Ho.
Qed.

(** ** Walking *)

Section walk.
Context {T P X : Type} `{VfsDrivers T P X}.
Implicit Types (s : vfs T P X).

(** One component after the other. *)
Fixpoint walk (missing : Nerror) (names : list (list Z)) (current : nat) : ST (vfs T P X) (res nat) :=
  match names with
  | [] => ok current
  | n :: names =>
      if (VFS_NAME_MAX <? length n)%nat then fail NpathTooLong
      else child <-? walk_step missing current n ;; walk missing names child
  end.

Lemma resolve_loop_walk fuel current cursor s : no_nul cursor -> (length cursor < fuel)%nat ->
  resolve_loop fuel current cursor s = walk NfileNotFound (components cursor) current s.
Proof.
  revert current cursor s. induction fuel as [|fuel IH]; intros current cursor s Hn Hf; [lia|].
  cbn [resolve_loop]. pose proof (parse_segment_spec cursor (S VFS_NAME_MAX) Hn ltac:(lia)) as Hp.
  destruct (char0 cursor =? 0) eqn:E0.
  { apply char0_nonzero in E0; [|done]. by subst cursor. }
  destruct (components cursor) as [|n ns]; [by rewrite Hp|]. destruct Hp as [Hc Hp]. cbn [walk].
  destruct (VFS_NAME_MAX <? length n)%nat eqn:El.
  - apply Nat.ltb_lt in El. rewrite (proj2 (Nat.ltb_ge _ _)) in Hp by lia. by rewrite Hp.
  - apply Nat.ltb_ge in El. rewrite (proj2 (Nat.ltb_lt _ _)) in Hp by lia.
    destruct Hp as (rest & -> & <- & Hr & Hlen & _).
    assert (Hc0 : (char0 n =? 0) = false).
    { destruct Hc as (Hne & Hz & _). apply not_true_is_false. intros E. by apply char0_nonzero in E. }
    rewrite Hc0. unfold tryb. destruct (walk_step NfileNotFound current n s) as [[child|e] s']; [|done].
    apply IH; [done|lia].
Qed.

Lemma resolve_path_ns_walk ns path s : no_nul path ->
  resolve_path_internal_ns ns path s = walk NfileNotFound (components path) (start_dentry ns path s) s.
Proof.
  intros Hn. unfold resolve_path_internal_ns, skip_slash.
  destruct path as [|c path]; [done|]. inversion Hn; subst. cbn [char0 tail].
  destruct (c =? SLASH) eqn:E; rewrite resolve_loop_walk by (done || simpl; lia); [|done].
  unfold components. simpl. by rewrite E.
Qed.

(** The parent directory of the last component, and that component. *)
Fixpoint walk_parent (names : list (list Z)) (current : nat) : ST (vfs T P X) (res (nat * list Z)) :=
  match names with
  | [] => fail NnotFound
  | n :: names =>
      if (VFS_NAME_MAX <? length n)%nat then fail NpathTooLong
      else match names with
      | [] => ok (current, n)
      | _ => child <-? walk_step NnotFound current n ;; walk_parent names child
      end
  end.

Lemma resolve_parent_loop_walk fuel plen current cursor s : no_nul cursor -> (length cursor < fuel)%nat ->
  components cursor <> [] ->
  resolve_parent_loop fuel plen current cursor s = walk_parent (components cursor) current s.
Proof.
  revert current cursor s. induction fuel as [|fuel IH]; intros current cursor s Hn Hf Hne; [lia|].
  cbn [resolve_parent_loop]. pose proof (parse_segment_spec cursor (S VFS_NAME_MAX) Hn ltac:(lia)) as Hp.
  destruct (char0 cursor =? 0) eqn:E0.
  { apply char0_nonzero in E0; [|done]. by subst cursor. }
  destruct (components cursor) as [|n ns]; [done|]. destruct Hp as [Hc Hp]. cbn [walk_parent].
  destruct (VFS_NAME_MAX <? length n)%nat eqn:El.
  - apply Nat.ltb_lt in El. rewrite (proj2 (Nat.ltb_ge _ _)) in Hp by lia. by rewrite Hp.
  - apply Nat.ltb_ge in El. rewrite (proj2 (Nat.ltb_lt _ _)) in Hp by lia.
    destruct Hp as (rest & -> & <- & Hr & Hlen & Hsk).
    assert (Hc0 : (char0 n =? 0) = false).
    { destruct Hc as (Hnn & Hz & _). apply not_true_is_false. intros E. by apply char0_nonzero in E. }
    rewrite Hc0, Hsk. destruct (char0 rest =? 0) eqn:Er.
    + apply char0_nonzero in Er as ->; [|done]. simpl. by rewrite take_ge.
    + destruct rest as [|x rest]; [done|].
      assert (Hx : x <> SLASH) by (intros ->; simpl in Hsk; pose proof (skip_slashes_length rest); apply (f_equal length) in Hsk; simpl in Hsk; lia).
      assert (Hcr : components (x :: rest) <> []).
      { pose proof (parse_segment_spec (x :: rest) 1 Hr ltac:(lia)) as Hq. intros Hz. rewrite Hz in Hq.
        revert Hq. unfold parse_segment. simpl. rewrite (proj2 (Z.eqb_neq _ _) Hx). cbn [char0].
        simpl in Er. rewrite Er. cbn [take_segment]. by rewrite (proj2 (Z.eqb_neq _ _) Hx). }
      unfold tryb. destruct (walk_step NnotFound current n s) as [[child|e] s'] eqn:Ew.
      * rewrite IH by (done || lia). destruct (components (x :: rest)) as [|m ns]; [done|]. by rewrite Ew.
      * destruct (components (x :: rest)) as [|m ns]; [done|]. by rewrite Ew.
Qed.

(** "ns:/n1/.../nk", or "ns:/" for no component. *)
Definition full_path (ns : list Z) (names : list (list Z)) : list Z :=
  ns ++ COLON :: match names with [] => [SLASH] | _ => path_of names end.

Lemma resolve_full_path (stack ns : list Z) (names : list (list Z)) s :
  length stack = S VFS_NAME_MAX -> component ns -> Forall (fun c => c <> COLON) ns ->
  (length ns <= VFS_NAME_MAX)%nat -> Forall component names ->
  resolve_path_internal stack (full_path ns names) s =
  match find_namespace ns s with
  | None => (Err NnotFound, s)
  | Some k => walk NfileNotFound names (ns_root (nspc k s)) s
  end.
Proof.
  intros Hst Hc Hcol Hlen Hnames. unfold resolve_path_internal, full_path.
  set (local := match names with [] => [SLASH] | _ => path_of names end).
  assert (Hloc : char0 local = SLASH) by by destruct names.
  assert (Hcomp : components local = names) by (subst local; destruct names; [done|]; by apply components_path_of).
  assert (Hnul : no_nul local).
  { subst local. destruct names; [by repeat constructor|]. by apply no_nul_path_of. }
  destruct (parse_namespace_spec ns local stack Hc Hcol ltac:(lia) Hloc) as (buf & Hp & Hb).
  unfold tryb, resolve_namespace_path. rewrite Hp, Hb. change (is_err Nok) with false. cbv iota.
  unfold get_namespace, is_empty_string.
  assert (Hc0 : (char0 ns =? 0) = false).
  { destruct Hc as (Hnn & Hz & _). apply not_true_is_false. intros E. by apply char0_nonzero in E. }
  rewrite Hc0. destruct (find_namespace ns s) as [k|]; [|done]. cbn [fst snd].
  rewrite resolve_path_ns_walk by done. unfold start_dentry. by rewrite Hloc, Z.eqb_refl, Hcomp.
Qed.

(** C37: Paths round-trip: resolving the text "ns:/n1/.../nk" looks up the
    namespace [ns] and then walks exactly the components n1 ... nk from its
    root, whatever the local buffer held before; a namespace that is not
    registered gives [NnotFound].  Resolving the parent of "/n1/.../nk" walks
    the components before the last, and returns the last. *)
Theorem path_roundtrip (stack ns : list Z) (names : list (list Z)) s :
  length stack = S VFS_NAME_MAX -> component ns -> Forall (fun c => c <> COLON) ns ->
  (length ns <= VFS_NAME_MAX)%nat -> Forall component names ->
  resolve_path_internal stack (full_path ns names) s =
  (match find_namespace ns s with
   | None => (Err NnotFound, s)
   | Some k => walk NfileNotFound names (ns_root (nspc k s)) s
   end) /\
  (forall k, names <> [] ->
     resolve_parent_ns k (path_of names) s = walk_parent names (ns_root (nspc k s)) s).
Proof.
  intros Hst Hc Hcol Hlen Hnames. split; [by apply resolve_full_path|]. intros k Hne.
  pose proof (components_path_of names Hnames) as Hcomp. pose proof (no_nul_path_of names Hnames) as Hnul.
  assert (H0 : char0 (path_of names) = SLASH) by by destruct names.
  unfold resolve_parent_ns, start_dentry, skip_slash. rewrite H0, Z.eqb_refl.
  destruct (path_of names) as [|c l]; [done|]. simpl in H0. subst c.
  assert (Hl : components l = names) by (rewrite <- Hcomp; unfold components; simpl; done).
  cbn [tail]. inversion Hnul; subst. rewrite resolve_parent_loop_walk; [by rewrite Hl|done|simpl; lia|by rewrite Hl].
Qed.
End walk.
