(* ===== verification/VfsTree.v ===== *)
(** * The dentry cache of the VFS is transparent

    The dentry tree caches the answers of the drivers' lookups.  A driver's
    side of the contract is the class [DriverSpec]: what object a vnode stands
    for, what the children of an object are, and that [op_lookup] answers from
    them.  [tree_ok] says that every cached edge is such an answer; walking a
    path keeps it and ends at the object the path names, whatever was cached
    before. *)

From S2P Require Import Prelude Types FileIO Vfs VfsPath.

Section tables.
Context {T P X : Type}.
Implicit Types (s : vfs T P X).

(** The same vnodes and the same drivers. *)
Definition same_drv s s' : Prop := g_vnodes s' = g_vnodes s /\ g_driver s' = g_driver s.

(** The same dentries, namespaces and open handles. *)
Definition same_tree s s' : Prop :=
  g_dentries s' = g_dentries s /\ g_handles s' = g_handles s /\ g_namespaces s' = g_namespaces s /\
  g_default_namespace s' = g_default_namespace s.

#[export] Instance same_drv_equiv : Equivalence same_drv.
Proof.
  split; [done| |].
  - intros s s' [? ?]. by split.
  - intros s s' s'' [] []. split; congruence.
Qed.
#[export] Instance same_tree_equiv : Equivalence same_tree.
Proof.
  split; [done| |].
  - intros s s' (? & ? & ? & ?). by repeat split.
  - intros s s' s'' (? & ? & ? & ?) (? & ? & ? & ?). repeat split; congruence.
Qed.

Lemma same_drv_dentries s x : same_drv s (with_dentries x s).
Proof. done. Qed.

Lemma vnod_lookup s v vn : g_vnodes s !! v = Some vn -> vnod v s = vn.
Proof. unfold vnod. by intros ->. Qed.

Lemma node_op_some `{VfsDrivers T P X} {A} (op : vfs_ops_t T P X -> option A) v s :
  node_op op (Some v) s =
  match vn_ops (vnod v s) with
  | None => None
  | Some t => match op (ops_table t) with None => None | Some f => Some (v, f) end
  end.
Proof. unfold node_op. simpl. destruct (vn_ops (vnod v s)) as [t|]; simpl; [|done]. by destruct (op (ops_table t)). Qed.
End tables.

(** The objects of the file systems: what a vnode, or an open handle, stands
    for, and how many more files can be opened. *)
Class DriverObjects (T P X : Type) := {
  Node : Type;
  node_at : vfs T P X -> nat -> Node -> Prop;
  open_at : vfs T P X -> handle_t P -> Node -> Prop;
  open_room : vfs T P X -> nat;
}.

(** Vnodes and open handles keep their meaning. *)
Definition keeps {T P X : Type} `{DriverObjects T P X} (s s' : vfs T P X) : Prop :=
  (forall v nd, node_at s v nd -> node_at s' v nd) /\ (forall h nd, open_at s h nd -> open_at s' h nd).

#[export] Instance keeps_preorder {T P X : Type} `{DriverObjects T P X} : PreOrder (keeps (T := T) (P := P) (X := X)).
Proof.
  split; [by split|]. intros s s' s'' [Hn1 Ho1] [Hn2 Ho2]. split; auto.
Qed.

(** What a driver promises: [child_of] are the children of an object; [drv_ok]
    is the driver's invariant, [room] says how many more lookups have room in
    its tables and in the vnodes, and [reliable] that its disk never fails. *)
Class DriverSpec (T P X : Type) `{VfsDrivers T P X, DriverObjects T P X} := {
  child_of : Node -> list Z -> option Node;
  drv_ok : vfs T P X -> Prop;
  room : vfs T P X -> nat;
  reliable : Prop;
  drv_ok_same s s' : same_drv s s' -> drv_ok s -> drv_ok s';
  keeps_same s s' : same_drv s s' -> keeps s s';
  node_at_inj s v nd nd' : node_at s v nd -> node_at s v nd' -> nd = nd';
  room_same s s' : same_drv s s' -> room s' = room s /\ open_room s' = open_room s;
  lookup_spec s v nd name : drv_ok s -> node_at s v nd ->
    match node_op op_lookup (Some v) s with
    | None => child_of nd name = None
    | Some (n, f) => n = v /\ exists r s', f v name s = (r, s') /\ drv_ok s' /\ same_tree s s' /\ keeps s s' /\
        open_room s' = open_room s /\
        match r with
        | Ok None => False
        | Ok (Some v') => exists nd', child_of nd name = Some nd' /\ node_at s' v' nd' /\ (room s <= S (room s'))%nat /\
            drv_ok (vfs_free_vnode (Some v') s') /\ keeps s (vfs_free_vnode (Some v') s') /\
            open_room (vfs_free_vnode (Some v') s') = open_room s
        | Err e => is_err e = true /\ (reliable -> child_of nd name <> None -> room s = 0%nat)
        end
    end;
}.

Section tree.
Context {T P X : Type} `{DriverSpec T P X}.
Implicit Types (s : vfs T P X) (i j c : nat).

Definition used s i : Prop := exists d, g_dentries s !! i = Some d /\ d_refcnt d <> 0.

(** Dentry [i] stands for [nd]. *)
Definition denotes s i (nd : Node) : Prop := used s i /\ exists v, d_node (dent i s) = Some v /\ node_at s v nd.

(** The siblings from [o] on. *)
Fixpoint siblings s (o : option nat) (cs : list nat) : Prop :=
  match cs with
  | [] => o = None
  | c :: cs => o = Some c /\ siblings s (d_next_sibling (dent c s)) cs
  end.

(** The edge from [i] to its cached child [c] is an answer of the driver. *)
Definition edge_ok s i c : Prop :=
  used s c /\ d_parent (dent c s) = Some i /\
  exists nd nd', denotes s i nd /\ denotes s c nd' /\ child_of nd (d_name (dent c s)) = Some nd'.

Definition tree_ok s : Prop :=
  length (g_dentries s) = VFS_MAX_DENTRIES /\
  exists kids : nat -> list nat, forall i, used s i ->
    siblings s (d_first_child (dent i s)) (kids i) /\ NoDup (kids i) /\ Forall (edge_ok s i) (kids i).

Definition free_dentries s : nat := length (filter (fun d => d_refcnt d = 0) (g_dentries s)).

(** What walking keeps: namespaces, handles, what every dentry, vnode and open
    file stands for, and the room for more open files. *)
Definition walked s s' : Prop :=
  g_handles s' = g_handles s /\ g_namespaces s' = g_namespaces s /\ g_default_namespace s' = g_default_namespace s /\
  keeps s s' /\ open_room s' = open_room s /\
  (forall i, used s i -> used s' i) /\ (forall i nd, denotes s i nd -> denotes s' i nd).

#[export] Instance walked_preorder : PreOrder walked.
Proof.
  split; [done|]. intros s s' s'' (? & ? & ? & Hk1 & ? & Hu1 & Hd1) (? & ? & ? & Hk2 & ? & Hu2 & Hd2).
  split; [congruence|]. split; [congruence|]. split; [congruence|]. split; [by etrans|]. split; [congruence|]. split; auto.
Qed.

(** ** Looking for a child *)

Lemma find_child_loop_spec fuel o cs name s : siblings s o cs -> (length cs <= fuel)%nat ->
  match find_child_loop fuel o name s with
  | Some c => c ∈ cs /\ d_name (dent c s) = name
  | None => Forall (fun c => d_name (dent c s) <> name) cs
  end.
Proof.
  revert o cs. induction fuel as [|fuel IH]; intros o cs Hs Hl; simpl.
  - destruct cs; [constructor|simpl in Hl; lia].
  - destruct cs as [|c cs]; simpl in Hs; [by subst o|]. destruct Hs as [-> Hs].
    case_decide as Hd; [split; [by left|done]|].
    specialize (IH _ cs Hs ltac:(simpl in Hl; lia)).
    destruct (find_child_loop fuel _ name s); [|by constructor]. destruct IH. split; [by right|done].
Qed.

Lemma used_lt s i : used s i -> (i < length (g_dentries s))%nat.
Proof. intros (d & Hd & _). by eapply lookup_lt_Some. Qed.

(** A list of distinct numbers below [n] is no longer than [n]. *)
Lemma NoDup_bound (l : list nat) n : NoDup l -> Forall (fun c => (c < n)%nat) l -> (length l <= n)%nat.
Proof.
  intros Hnd Hf. rewrite <- (length_seq n 0). apply submseteq_length, NoDup_submseteq; [done|].
  intros x Hx. rewrite Forall_forall in Hf. apply elem_of_seq. specialize (Hf x Hx). lia.
Qed.

Lemma find_child_spec s i name : tree_ok s -> used s i ->
  match find_child i name s with
  | Some c => edge_ok s i c /\ d_name (dent c s) = name
  | None => True
  end.
Proof.
  intros (Hl & kids & Hk) Hi. destruct (Hk i Hi) as (Hs & Hnd & Hf). unfold find_child.
  assert (Hlen : (length (kids i) <= VFS_MAX_DENTRIES)%nat).
  { apply NoDup_bound; [done|]. eapply Forall_impl; [exact Hf|]. intros c (Hu & _). rewrite <- Hl. by apply used_lt. }
  pose proof (find_child_loop_spec VFS_MAX_DENTRIES _ _ name s Hs Hlen) as Hfc.
  destruct (find_child_loop _ _ name s) as [c|]; [|done]. destruct Hfc as [Hin Hn].
  rewrite Forall_forall in Hf. auto.
Qed.

(** ** A change that only adds *)

Lemma dent_eq s s' i : g_dentries s' = g_dentries s -> dent i s' = dent i s.
Proof. unfold dent. by intros ->. Qed.

Lemma used_eq s s' i : g_dentries s' = g_dentries s -> used s i -> used s' i.
Proof. unfold used. by intros ->. Qed.

Lemma denotes_mono s s' i nd : g_dentries s' = g_dentries s ->
  keeps s s' -> denotes s i nd -> denotes s' i nd.
Proof.
  intros Hd [Hn _] (Hu & v & Hv & Hnd). split; [by eapply used_eq|]. exists v.
  rewrite (dent_eq s s') by done. auto.
Qed.

Lemma siblings_eq s s' o cs : (forall c, c ∈ cs -> dent c s' = dent c s) -> siblings s o cs -> siblings s' o cs.
Proof.
  revert o. induction cs as [|c cs IH]; intros o He Hs; simpl in *; [done|].
  destruct Hs as [-> Hs]. split; [done|]. rewrite (He c) by by left. apply IH; [|done].
  intros c' Hc'. apply He. by right.
Qed.

Lemma tree_ok_mono s s' : g_dentries s' = g_dentries s ->
  keeps s s' -> tree_ok s -> tree_ok s'.
Proof.
  intros Hd Hn (Hl & kids & Hk). split; [by rewrite Hd|]. exists kids. intros i Hi.
  assert (Hi' : used s i) by (by apply (used_eq s' s)). destruct (Hk i Hi') as (Hs & Hnd & Hf).
  rewrite (dent_eq s s') by done. split; [|split; [done|]].
  - eapply siblings_eq; [|done]. intros c _. by apply dent_eq.
  - eapply Forall_impl; [exact Hf|]. intros c (Hu & Hp & nd & nd' & Hn1 & Hn2 & Hch).
    split; [by eapply used_eq|]. rewrite (dent_eq s s') by done. split; [done|].
    exists nd, nd'. split; [by eapply denotes_mono|]. split; [by eapply denotes_mono|done].
Qed.

Lemma free_dentries_eq s s' : g_dentries s' = g_dentries s -> free_dentries s' = free_dentries s.
Proof. unfold free_dentries. by intros ->. Qed.

(** ** Adding an edge *)

Definition added (i j : nat) (name : list Z) (v : nat) s : vfs T P X :=
  attach_child (Some i) (Some j)
    (with_dentries (<[j := mk_dentry (take VFS_NAME_MAX name) (Some v) (Some i) None None 1]> (g_dentries s)) s).

Lemma added_dent i j name v s k : (j < length (g_dentries s))%nat -> (i < length (g_dentries s))%nat -> i <> j ->
  dent k (added i j name v s) =
  if decide (k = j) then mk_dentry (take VFS_NAME_MAX name) (Some v) (Some i) None (d_first_child (dent i s)) 1
  else if decide (k = i) then set_first_child (Some j) (dent i s) else dent k s.
Proof.
  intros Hj Hi Hne. unfold added, attach_child, upd_dentry, dent. cbn [g_dentries with_dentries].
  rewrite (list_lookup_insert_ne _ j i) by done.
  destruct (decide (k = j)) as [->|Hkj].
  - rewrite list_lookup_alter_ne by done. rewrite list_lookup_alter_eq, list_lookup_insert_eq by done. done.
  - destruct (decide (k = i)) as [->|Hki].
    + rewrite list_lookup_alter_eq, list_lookup_alter_ne by done. rewrite list_lookup_insert_ne by done.
      destruct (lookup_lt_is_Some_2 (g_dentries s) i Hi) as [d ->]. done.
    + rewrite !list_lookup_alter_ne by done. by rewrite list_lookup_insert_ne by done.
Qed.

Lemma used_dent s k : used s k <-> (k < length (g_dentries s))%nat /\ d_refcnt (dent k s) <> 0.
Proof.
  unfold used, dent. split.
  - intros (d & Hd & Hr). rewrite Hd. split; [by eapply lookup_lt_Some|done].
  - intros [Hl Hr]. destruct (lookup_lt_is_Some_2 _ _ Hl) as [d Hd]. rewrite Hd in Hr. by exists d.
Qed.

Lemma length_added i j name v s : length (g_dentries (added i j name v s)) = length (g_dentries s).
Proof. unfold added, attach_child, upd_dentry. simpl. by rewrite !length_alter, length_insert. Qed.

Section add.
Context (s : vfs T P X) (i j v : nat) (name : list Z) (nd nd' : Node).
Context (Ht : tree_ok s) (Hi : denotes s i nd) (Hj : (j < length (g_dentries s))%nat) (Hfree : d_refcnt (dent j s) = 0).
Context (Hv : node_at s v nd') (Hch : child_of nd name = Some nd') (Hlen : (length name <= VFS_NAME_MAX)%nat).
Local Abbreviation s' := (added i j name v s).

Lemma added_ne : i <> j.
Proof. intros ->. destruct Hi as [Hu _]. apply used_dent in Hu as [_ Hu]. done. Qed.

Lemma added_dent' k : dent k s' =
  if decide (k = j) then mk_dentry name (Some v) (Some i) None (d_first_child (dent i s)) 1
  else if decide (k = i) then set_first_child (Some j) (dent i s) else dent k s.
Proof.
  rewrite added_dent; [by rewrite take_ge by done|done| |apply added_ne].
  apply used_lt. by destruct Hi.
Qed.

Lemma added_old k : used s k -> k <> j /\ d_node (dent k s') = d_node (dent k s) /\
  d_parent (dent k s') = d_parent (dent k s) /\ d_name (dent k s') = d_name (dent k s) /\
  d_next_sibling (dent k s') = d_next_sibling (dent k s) /\ d_refcnt (dent k s') = d_refcnt (dent k s).
Proof.
  intros Hu. assert (Hkj : k <> j) by (intros ->; apply used_dent in Hu as [_ Hu]; done).
  rewrite added_dent'. rewrite decide_False by done. split; [done|].
  case_decide; [subst k|]; by repeat split.
Qed.

Lemma added_used k : used s' k <-> used s k \/ k = j.
Proof.
  rewrite !used_dent, length_added, added_dent'. destruct (decide (k = j)) as [->|Hkj].
  - split; [by right|]. done.
  - destruct (decide (k = i)) as [->|]; simpl; tauto.
Qed.

Lemma added_same : same_drv s s'.
Proof. by split. Qed.

Lemma added_denotes k kd : denotes s k kd -> denotes s' k kd.
Proof.
  intros (Hu & u & Hn & Hd). destruct (added_old k Hu) as (_ & Hno & _).
  split; [apply added_used; by left|]. exists u. rewrite Hno. split; [done|]. by apply (keeps_same s s' added_same).
Qed.

Lemma added_new : denotes s' j nd'.
Proof.
  split; [apply added_used; by right|]. exists v. rewrite added_dent', decide_True by done.
  split; [done|]. by apply (keeps_same s s' added_same).
Qed.

Lemma added_edge k c : edge_ok s k c -> edge_ok s' k c.
Proof.
  intros (Hu & Hp & kd & cd & Hk1 & Hk2 & Hk3). destruct (added_old c Hu) as (_ & _ & Hpa & Hna & _).
  split; [apply added_used; by left|]. rewrite Hpa, Hna. split; [done|]. exists kd, cd.
  split; [by apply added_denotes|]. split; [by apply added_denotes|done].
Qed.

Lemma added_siblings o cs : Forall (used s) cs -> siblings s o cs -> siblings s' o cs.
Proof.
  intros Hf. revert o. induction Hf as [|c cs Hu Hf IH]; intros o Hs; simpl in *; [done|].
  destruct Hs as [-> Hs]. split; [done|]. destruct (added_old c Hu) as (_ & _ & _ & _ & -> & _). by apply IH.
Qed.

Lemma added_tree_ok : tree_ok s'.
Proof.
  destruct Ht as (Hl & kids & Hk). split; [by rewrite length_added|].
  exists (fun k => if decide (k = j) then [] else if decide (k = i) then j :: kids i else kids k).
  assert (Hiu : used s i) by by destruct Hi.
  intros k [Hu| ->]%added_used.
  - destruct (added_old k Hu) as (Hkj & _). rewrite (decide_False (P := k = j)) by done.
    destruct (Hk k Hu) as (Hs & Hnd & Hf). assert (Hfu : Forall (used s) (kids k)).
    { eapply Forall_impl; [exact Hf|]. intros c (Hc & _). done. }
    rewrite (added_dent' k), (decide_False (P := k = j)) by done. destruct (decide (k = i)) as [->|Hki].
    + split; [|split].
      * simpl. split; [done|]. rewrite added_dent', decide_True by done. simpl. by apply added_siblings.
      * apply NoDup_cons. split; [|done]. intros Hin. rewrite Forall_forall in Hfu.
        specialize (Hfu j Hin). apply used_dent in Hfu as [_ Hx]. done.
      * apply Forall_cons. split.
        -- split; [apply added_used; by right|]. rewrite added_dent', decide_True by done. split; [done|].
           exists nd, nd'. split; [by apply added_denotes|]. split; [apply added_new|done].
        -- eapply Forall_impl; [exact Hf|]. intros c. apply added_edge.
    + split; [by apply added_siblings|]. split; [done|]. eapply Forall_impl; [exact Hf|]. intros c. apply added_edge.
  - rewrite decide_True by done. rewrite added_dent', decide_True by done. simpl.
    split; [done|]. split; [constructor|constructor].
Qed.

Lemma added_walked : walked s s'.
Proof.
  split; [done|]. split; [done|]. split; [done|]. split; [apply keeps_same, added_same|].
  split; [apply room_same, added_same|]. split.
  - intros k Hu. apply added_used. by left.
  - apply added_denotes.
Qed.
End add.

(** A free slot may be filled with a dentry that has no parent and no child. *)
Lemma tree_ok_insert s s' j d : (j < length (g_dentries s))%nat -> d_refcnt (dent j s) = 0 ->
  g_dentries s' = <[j := d]> (g_dentries s) -> d_first_child d = None -> keeps s s' -> tree_ok s ->
  tree_ok s' /\ (forall k nd, denotes s k nd -> denotes s' k nd) /\ (forall k, used s k -> used s' k).
Proof.
  intros Hj Hfree Hd Hfc Hk (Hl & kids & Hkids).
  assert (Hne : forall k, used s k -> k <> j /\ dent k s' = dent k s).
  { intros k Hu. assert (k <> j) by (intros ->; apply used_dent in Hu as [_ Hu]; done). split; [done|].
    unfold dent. rewrite Hd. by rewrite list_lookup_insert_ne. }
  assert (Hdj : dent j s' = d) by (unfold dent; rewrite Hd; by rewrite list_lookup_insert_eq).
  assert (Hused : forall k, used s k -> used s' k).
  { intros k Hu. destruct (Hne k Hu) as [Hkj Heq]. apply used_dent. apply used_dent in Hu. rewrite Hd, length_insert, Heq. done. }
  assert (Hden : forall k nd, denotes s k nd -> denotes s' k nd).
  { intros k nd (Hu & v & Hv & Hn). split; [auto|]. exists v. destruct (Hne k Hu) as [_ ->]. split; [done|]. by apply Hk. }
  split; [|done]. split; [by rewrite Hd, length_insert|].
  exists (fun k => if decide (k = j) then [] else kids k). intros k Hu.
  destruct (decide (k = j)) as [->|Hkj]; [rewrite Hdj; split; [done|]; split; constructor|].
  assert (Hu0 : used s k).
  { apply used_dent. apply used_dent in Hu. unfold dent in *. rewrite Hd, length_insert, list_lookup_insert_ne in Hu by done. done. }
  destruct (Hkids k Hu0) as (Hs & Hnd & Hf). destruct (Hne k Hu0) as [_ ->]. split; [|split; [done|]].
  - eapply siblings_eq; [|exact Hs]. intros c Hc. rewrite Forall_forall in Hf. apply Hne. by apply (Hf c).
  - eapply Forall_impl; [exact Hf|]. intros c (Hc & Hp & nd & nd' & Hn1 & Hn2 & Hch).
    destruct (Hne c Hc) as [_ He]. split; [auto|]. rewrite He. split; [done|]. exists nd, nd'. auto.
Qed.

(** A dentry that stands for nothing has no cached children. *)
Lemma tree_ok_set_node s i v : tree_ok s -> used s i -> d_node (dent i s) = None ->
  tree_ok (upd_dentry i (set_node (Some v)) s) /\
  (forall k nd, denotes s k nd -> denotes (upd_dentry i (set_node (Some v)) s) k nd) /\
  (forall nd, node_at s v nd -> denotes (upd_dentry i (set_node (Some v)) s) i nd).
Proof.
  intros (Hl & kids & Hkids) Hi Hn. set (s' := upd_dentry i (set_node (Some v)) s).
  assert (Hk : keeps s s') by by apply keeps_same.
  assert (Hdi : dent i s' = set_node (Some v) (dent i s)).
  { unfold s', upd_dentry, dent. cbn. rewrite list_lookup_alter_eq. destruct Hi as (d & -> & _). done. }
  assert (Hd : forall k, k <> i -> dent k s' = dent k s).
  { intros k Hne. unfold s', upd_dentry, dent. cbn. by rewrite list_lookup_alter_ne. }
  assert (Hlen : length (g_dentries s') = length (g_dentries s)) by (unfold s', upd_dentry; cbn; by rewrite length_alter).
  assert (Hused : forall k, used s' k <-> used s k).
  { intros k. rewrite !used_dent, Hlen. destruct (decide (k = i)) as [->|Hne]; [by rewrite Hdi|by rewrite Hd]. }
  assert (Hden : forall k nd, denotes s k nd -> denotes s' k nd).
  { intros k nd (Hu & w & Hw & Hnd). assert (k <> i) by (intros ->; congruence).
    split; [by apply Hused|]. exists w. rewrite Hd by done. split; [done|]. by apply Hk. }
  split; [|split; [done|]].
  - split; [by rewrite Hlen|]. exists kids. intros k Hu. apply Hused in Hu. destruct (Hkids k Hu) as (Hs & Hnd & Hf).
    assert (Hedge : forall c, c ∈ kids k -> edge_ok s k c /\ c <> i).
    { intros c Hc. rewrite Forall_forall in Hf. pose proof (Hf c Hc) as He. split; [done|]. intros ->.
      destruct He as (_ & _ & nd & nd' & _ & (_ & w & Hw & _) & _). congruence. }
    assert (Hfc : d_first_child (dent k s') = d_first_child (dent k s)).
    { destruct (decide (k = i)) as [->|Hne]; [by rewrite Hdi|by rewrite Hd]. }
    rewrite Hfc. split; [|split; [done|]].
    + eapply siblings_eq; [|exact Hs]. intros c Hc. apply Hd. by apply Hedge.
    + apply Forall_forall. intros c Hc. destruct (Hedge c Hc) as ((Hcu & Hp & nd & nd' & Hn1 & Hn2 & Hch) & Hci).
      split; [by apply Hused|]. rewrite Hd by done. split; [done|]. exists nd, nd'. auto.
  - intros nd Hnd. split; [by apply Hused|]. exists v. rewrite Hdi. split; [done|]. by apply Hk.
Qed.

(** ** One step of a walk *)

Lemma alloc_dentry_spec name v i s :
  match alloc_dentry name (Some v) (Some i) s with
  | (Some j, s1) => (j < length (g_dentries s))%nat /\ d_refcnt (dent j s) = 0 /\
      attach_child (Some i) (Some j) s1 = added i j name v s /\
      free_dentries s = S (free_dentries (added i j name v s))
  | (None, s1) => s1 = s /\ free_dentries s = 0%nat
  end.
Proof.
  unfold alloc_dentry. destruct (list_find (fun d => d_refcnt d = 0) (g_dentries s)) as [[j d]|] eqn:E.
  - apply list_find_Some in E as (Hl & Hd & _). split; [by eapply lookup_lt_Some|].
    unfold dent. rewrite Hl. split; [done|]. split; [done|].
    unfold free_dentries, added, attach_child, upd_dentry. cbn [g_dentries with_dentries].
    rewrite !length_filter_alter by done. by apply (length_filter_insert _ _ _ d).
  - split; [done|]. by apply list_find_free.
Qed.

(** A step from [i] reaches the child of that name, or fails. *)
Definition step_result (nd : Node) (name : list Z) s (r : res nat) s' : Prop :=
  match r with
  | Ok j => exists nd', child_of nd name = Some nd' /\ denotes s' j nd' /\
      (room s <= S (room s') /\ free_dentries s <= S (free_dentries s'))%nat
  | Err e => is_err e = true /\
      (reliable -> child_of nd name <> None -> room s = 0%nat \/ free_dentries s = 0%nat)
  end.

Lemma walk_step_spec m i name nd s : is_err m = true -> tree_ok s -> drv_ok s -> denotes s i nd ->
  (length name <= VFS_NAME_MAX)%nat ->
  exists r s', walk_step m i name s = (r, s') /\ tree_ok s' /\ drv_ok s' /\ walked s s' /\ step_result nd name s r s'.
Proof.
  intros Hm Ht Hd Hi Hlen. unfold walk_step. pose proof Hi as (Hu & v & Hv & Hnd).
  pose proof (find_child_spec s i name Ht Hu) as Hf. destruct (find_child i name s) as [c|].
  { destruct Hf as ((_ & _ & nd1 & nd2 & (_ & v1 & Hv1 & Hn1) & Hc2 & Hch) & Hn). exists (Ok c), s.
    assert (v1 = v) as -> by congruence. rewrite (node_at_inj _ _ _ _ Hn1 Hnd), Hn in Hch.
    split; [done|]. split; [done|]. split; [done|]. split; [done|]. exists nd2. split; [done|]. split; [done|lia]. }
  rewrite Hv. pose proof (lookup_spec s v nd name Hd Hnd) as Hl.
  destruct (node_op op_lookup (Some v) s) as [[n f]|].
  2:{ exists (Err m), s. split; [done|]. split; [done|]. split; [done|]. split; [done|]. by split. }
  destruct Hl as (-> & r & s1 & E & Hd1 & Hst & Hkeep & Hor & Hr). rewrite E.
  assert (Ht1 : tree_ok s1) by (eapply tree_ok_mono; [apply Hst|done|done]).
  assert (Hw1 : walked s s1).
  { destruct Hst as (A & B & C & G). split; [done|]. split; [done|]. split; [done|]. split; [done|]. split; [done|]. split.
    - intros k. by apply used_eq.
    - intros k kd. by apply denotes_mono. }
  destruct r as [[v'|]|e]; [|done|].
  2:{ exists (Err e), s1. split; [done|]. split; [done|]. split; [done|]. split; [done|].
      destruct Hr as [He Hr]. split; [done|]. intros Hrel Hc. left. by apply Hr. }
  destruct Hr as (nd' & Hch & Hv' & Hroom & Hd2 & Hkeep2 & Hor2).
  pose proof (alloc_dentry_spec name v' i s1) as Ha.
  destruct (alloc_dentry name (Some v') (Some i) s1) as [[j|] s2].
  - destruct Ha as (Hj & Hfree & -> & Hfd). assert (Hi1 : denotes s1 i nd) by by apply Hw1.
    exists (Ok j), (added i j name v' s1). split; [done|].
    split; [by eapply added_tree_ok|]. split; [eapply drv_ok_same; [apply added_same|done]|].
    split; [etrans; [exact Hw1|]; by eapply added_walked|].
    exists nd'. split; [done|]. split; [by eapply added_new|].
    rewrite (proj1 (room_same s1 (added i j name v' s1) (added_same _ _ _ _ _))). destruct Hst as (A & _).
    rewrite <- (free_dentries_eq s s1) by done. lia.
  - destruct Ha as [-> Hfd]. eexists (Err NoutOfMemory), _. split; [reflexivity|].
    destruct Hst as (A & B & C & G).
    split; [eapply tree_ok_mono; [done|done|]; exact Ht|]. split; [done|]. split.
    + split; [done|]. split; [done|]. split; [done|]. split; [done|]. split; [done|]. split.
      * intros k. by apply used_eq.
      * intros k kd. by apply denotes_mono.
    + split; [done|]. intros _ _. right. by rewrite <- (free_dentries_eq s s1).
Qed.

(** ** Walking *)

(** The object a path names, from [nd]. *)
Fixpoint descend (nd : Node) (names : list (list Z)) : option Node :=
  match names with [] => Some nd | n :: names => c ← child_of nd n; descend c names end.

Definition walk_result (nd : Node) (names : list (list Z)) s (r : res nat) s' : Prop :=
  match r with
  | Ok j => exists nd', descend nd names = Some nd' /\ denotes s' j nd'
  | Err e => is_err e = true /\
      (reliable -> Forall (fun n => length n <= VFS_NAME_MAX)%nat names -> descend nd names <> None ->
       room s < length names \/ free_dentries s < length names)%nat
  end.

Lemma walk_spec m names i nd s : is_err m = true -> tree_ok s -> drv_ok s -> denotes s i nd ->
  exists r s', walk m names i s = (r, s') /\ tree_ok s' /\ drv_ok s' /\ walked s s' /\ walk_result nd names s r s'.
Proof.
  intros Hm. revert i nd s. induction names as [|n names IH]; intros i nd s Ht Hd Hi; cbn [walk].
  { exists (Ok i), s. split; [done|]. split; [done|]. split; [done|]. split; [done|]. by exists nd. }
  destruct (VFS_NAME_MAX <? length n)%nat eqn:El.
  { exists (Err NpathTooLong), s. split; [done|]. split; [done|]. split; [done|]. split; [done|]. split; [done|].
    intros _ Hf. apply Nat.ltb_lt in El. inversion Hf; subst. lia. }
  apply Nat.ltb_ge in El.
  destruct (walk_step_spec m i n nd s Hm Ht Hd Hi El) as (r & s1 & E & Ht1 & Hd1 & Hw1 & Hr).
  destruct r as [j|e].
  - destruct Hr as (nd1 & Hch & Hj & Hroom & Hfree). rewrite (tryb_ok _ _ _ _ _ E).
    destruct (IH j nd1 s1 Ht1 Hd1 Hj) as (r & s2 & E2 & Ht2 & Hd2 & Hw2 & Hr).
    exists r, s2. split; [done|]. split; [done|]. split; [done|]. split; [by etrans|].
    unfold walk_result in *. cbn [descend]. rewrite Hch. cbn [mbind option_bind]. destruct r as [k|e]; [done|].
    destruct Hr as [He Hr]. split; [done|]. intros Hrel Hf Hne. inversion Hf; subst. simpl length.
    destruct (Hr Hrel); [done|done|left; lia|right; lia].
  - destruct Hr as [He Hr]. rewrite (tryb_err _ _ _ _ _ E). exists (Err e), s1. split; [done|].
    split; [done|]. split; [done|]. split; [done|]. split; [done|]. intros Hrel _ Hne. cbn [descend] in Hne.
    simpl length. destruct (Hr Hrel) as [Hz|Hz]; [|left; lia|right; lia].
    intros Hc. rewrite Hc in Hne. done.
Qed.

(** C36: The dentry cache is transparent.  In a tree whose cached edges are
    answers of the driver, resolving "ns:/n1/.../nk" ends at a dentry that
    stands for the object reached by the children n1 ... nk of the namespace's
    root, whichever of them were cached; it keeps the tree, the driver and what
    every dentry stands for, and it can fail on a path that names an object
    only when the disk does, a name is too long, or there is no room left for
    the vnodes and dentries of the path. *)
Theorem resolve_refines (stack ns : list Z) (names : list (list Z)) (k : nat) (nd : Node) s :
  length stack = Datatypes.S VFS_NAME_MAX -> component ns -> Forall (fun x => x <> COLON) ns ->
  (length ns <= VFS_NAME_MAX)%nat -> Forall component names ->
  tree_ok s -> drv_ok s -> find_namespace ns s = Some k -> denotes s (ns_root (nspc k s)) nd ->
  exists r s', resolve_path_internal stack (full_path ns names) s = (r, s') /\
    tree_ok s' /\ drv_ok s' /\ walked s s' /\
    match r with
    | Ok j => exists nd', descend nd names = Some nd' /\ denotes s' j nd'
    | Err e => is_err e = true /\
        (reliable -> Forall (fun n => length n <= VFS_NAME_MAX)%nat names -> descend nd names <> None ->
         room s < length names \/ free_dentries s < length names)%nat
    end.
Proof.
  intros Hst Hc Hcol Hlen Hnames Ht Hd Hk Hroot. rewrite resolve_full_path, Hk by done.
  by apply walk_spec.
Qed.
End tree.
