(* ===== verification/Fat16.v ===== *)
(** * FAT16 on the disk: [drivers/filesystem/fat16/fat16.c], the parsing code

    What the driver reads from the disk and how it interprets it: the boot
    sector, the FAT and its cluster chains, directories and file contents.
    The operations below work on a device ([fat16_device_t]) and the state
    [D] of the disks, which only the device's read function touches.  The
    driver's tables and its operations under the VFS are in [Fat16Fs]. *)

From S2P Require Import Prelude Types Bytes.

(** [FAT16_ENTRY_SIZE]: drivers/filesystem/fat16/fat16.c:37-37 *)
Definition FAT16_ENTRY_SIZE : Z := 32.
(** [FAT16_NAME_LENGTH]: drivers/filesystem/fat16/fat16.c:38-38 *)
Definition FAT16_NAME_LENGTH : nat := 11.
(** [FAT16_SECTOR_SIZE]: drivers/filesystem/fat16/fat16.c:43-43 *)
Definition FAT16_SECTOR_SIZE : Z := 512.
(** [FAT16_ATTR_VOLUME_ID]: drivers/filesystem/fat16/fat16.c:48-48 *)
Definition FAT16_ATTR_VOLUME_ID : Z := 0x08.
(** [FAT16_ATTR_DIRECTORY]: drivers/filesystem/fat16/fat16.c:49-49 *)
Definition FAT16_ATTR_DIRECTORY : Z := 0x10.
(** [FAT16_ATTR_LONG_NAME]: drivers/filesystem/fat16/fat16.c:51-51 *)
Definition FAT16_ATTR_LONG_NAME : Z := 0x0F.
(** [FAT16_CLUSTER_BAD]: drivers/filesystem/fat16/fat16.c:53-53 *)
Definition FAT16_CLUSTER_BAD : Z := 0xFFF7.
(** [FAT16_CLUSTER_EOC]: drivers/filesystem/fat16/fat16.c:54-54 *)
Definition FAT16_CLUSTER_EOC : Z := 0xFFF8.
(** [FAT16_MIN_CLUSTERS]: drivers/filesystem/fat16/fat16.c:57-57 *)
Definition FAT16_MIN_CLUSTERS : Z := 4085.
(** [FAT16_MAX_CLUSTERS]: drivers/filesystem/fat16/fat16.c:58-58 *)
Definition FAT16_MAX_CLUSTERS : Z := 65524.

(** ** Structures on the disk *)

(** The fields the driver looks at. *)
(** [fat16_boot_sector_t]: drivers/filesystem/fat16/fat16.c:60-83 *)
Record fat16_boot_sector_t := mk_boot {
  BytesPerSector : Z;
  SectorsPerCluster : Z;
  ReservedSectorCount : Z;
  FATCount : Z;
  RootEntryCount : Z;
  TotalSectors16 : Z;
  FATSize16 : Z;
  TotalSectors32 : Z;
  Signature : Z;
}.

(** The 512 bytes read as one. *)
Definition boot_of (bs : list Z) : fat16_boot_sector_t :=
  mk_boot (field 11 2 bs) (field 13 1 bs) (field 14 2 bs) (field 16 1 bs) (field 17 2 bs)
    (field 19 2 bs) (field 22 2 bs) (field 32 4 bs) (field 510 2 bs).

(** [fat16_dir_entry_t]: drivers/filesystem/fat16/fat16.c:87-100 *)
Record fat16_dir_entry_t := mk_dirent {
  de_Name : list Z;
  de_Attr : Z;
  de_FirstClusterLow : Z;
  de_FileSize : Z;
}.

Definition dirent_of (bs : list Z) : fat16_dir_entry_t :=
  mk_dirent (slice 0 11 bs) (field 11 1 bs) (field 26 2 bs) (field 28 4 bs).

Definition zero_boot : fat16_boot_sector_t := mk_boot 0 0 0 0 0 0 0 0 0.

(** ** Names *)

(** [fat16_toupper]: drivers/filesystem/fat16/fat16.c:148-154 *)
Definition fat16_toupper (c : Z) : Z := if (97 <=? c) && (c <=? 122) then u8 (c - 32) else c.

(** The loop over the extension; [normalized] and [ext_len]. *)
(** [match_ext]: drivers/filesystem/fat16/fat16.c:400-407 *)
Fixpoint match_ext (cursor : list Z) (normalized : list Z) (ext_len : nat) : option (list Z) :=
  match cursor with
  | [] => Some normalized
  | c :: cursor =>
      if (c =? 46) || (3 <=? ext_len)%nat then None
      else match_ext cursor (<[(8 + ext_len)%nat := fat16_toupper c]> normalized) (S ext_len)
  end.

(** The loop over the name; [name_len] characters are stored.  The result is
    the normalised request, or [None] for a name that fits no entry. *)
(** [match_name]: drivers/filesystem/fat16/fat16.c:384-408 *)
Fixpoint match_name (cursor : list Z) (normalized : list Z) (name_len : nat) : option (list Z) :=
  let after :=
    if (name_len =? 0)%nat then None
    else match cursor with
         | c :: ext => if c =? 46 then match_ext ext normalized 0 else Some normalized
         | [] => Some normalized
         end in
  match cursor with
  | [] => after
  | c :: cursor =>
      if c =? 46 then after
      else if (8 <=? name_len)%nat then None
      else match_name cursor (<[name_len := fat16_toupper c]> normalized) (S name_len)
  end.

(** [fat16_name_matches]: drivers/filesystem/fat16/fat16.c:368-422 *)
Definition fat16_name_matches (entry_name request_name : list Z) : bool :=
  match match_name request_name (replicate FAT16_NAME_LENGTH 32) 0 with
  | None => false
  | Some normalized =>
      forallb (fun i => nth i normalized 0 =? fat16_toupper (nth i entry_name 0)) (seq 0 FAT16_NAME_LENGTH)
  end.

(** [fat16_is_eoc]: drivers/filesystem/fat16/fat16.c:156-159 *)
Definition fat16_is_eoc (cluster : Z) : bool := FAT16_CLUSTER_EOC <=? cluster.

(** ** Devices *)

(** The status of a transfer, and the bytes it stored at the start of the
    buffer: [size] of them on success. *)
(** [fat16_disk_read_fn]: drivers/filesystem/fat16/fat16.h:9-9 *)
Definition fat16_disk_read_fn (D : Type) : Type := Z -> Z -> Z -> ST D (Nerror * list Z).
(** [fat16_disk_write_fn]: drivers/filesystem/fat16/fat16.h:10-10 *)
Definition fat16_disk_write_fn (D : Type) : Type := Z -> Z -> list Z -> ST D Nerror.

Section fat16.
Context {D : Type}.

(** [info] is an address, 0 the null pointer. *)
(** [fat16_mount_params_t]: drivers/filesystem/fat16/fat16.h:12-17 *)
Record fat16_mount_params_t := mk_params {
  p_mount_path : option (list Z);
  p_info : Z;
  p_read : option (fat16_disk_read_fn D);
  p_write : option (fat16_disk_write_fn D);
}.

(** [fs] is in [Fat16Fs]. *)
(** [fat16_device_t]: drivers/filesystem/fat16/fat16.c:104-121 *)
Record fat16_device_t := mk_dev {
  dev_params : fat16_mount_params_t;
  dev_used : bool;
  dev_diskno : Z;
  dev_boot : fat16_boot_sector_t;
  dev_root_dir_sectors : Z;
  dev_first_fat_sector : Z;
  dev_first_root_dir_sector : Z;
  dev_first_data_sector : Z;
  dev_bytes_per_cluster : Z;
  dev_total_sectors : Z;
  dev_total_clusters : Z;
  dev_mount_path : list Z;
  dev_root_vnode : option nat;
  dev_read : option (fat16_disk_read_fn D);
  dev_write : option (fat16_disk_write_fn D);
}.

Implicit Types (dev : fat16_device_t).

(** [fat16_cluster_valid]: drivers/filesystem/fat16/fat16.c:162-165 *)
Definition fat16_cluster_valid dev (cluster : Z) : bool :=
  (2 <=? cluster) && (cluster <? u32 (dev_total_clusters dev + 2)).

(** ** Reading the disk *)

(** [fat16_read_raw]: drivers/filesystem/fat16/fat16.c:269-284 *)
Definition fat16_read_raw dev (offset size : Z) : ST D (Nerror * list Z) := fun d =>
  if size =? 0 then ((NinvalidArg, []), d)
  else match dev_read dev with
  | None => ((NinvalidArg, []), d)
  | Some read =>
      if p_info (dev_params dev) =? 0 then ((NinvalidArg, []), d)
      else read (dev_diskno dev) offset size d
  end.

(** A local buffer that is used only when the read has succeeded. *)
Definition read_local dev (offset size : Z) : ST D (res (list Z)) := fun d =>
  let '((status, bs), d) := fat16_read_raw dev offset size d in
  (if is_err status then Err status else Ok bs, d).

(** [fat16_read_sector]: drivers/filesystem/fat16/fat16.c:286-293 *)
Definition fat16_read_sector dev (sector : Z) : ST D (res (list Z)) :=
  read_local dev (sector * FAT16_SECTOR_SIZE) FAT16_SECTOR_SIZE.

(** [fat16_get_fat_entry]: drivers/filesystem/fat16/fat16.c:295-321 *)
Definition fat16_get_fat_entry dev (cluster : Z) : ST D (res Z) :=
  if negb (fat16_cluster_valid dev cluster) then fail NfileCorrupted
  else
    let fat_offset := u64 (dev_first_fat_sector dev * FAT16_SECTOR_SIZE + cluster * 2) in
    entry <-? read_local dev fat_offset 2 ;;
    ok (field 0 2 entry).

(** The loop of [fat16_get_nth_cluster], [n] links to follow. *)
(** [nth_cluster_loop]: drivers/filesystem/fat16/fat16.c:344-357 *)
Fixpoint nth_cluster_loop dev (n : nat) (cluster : Z) : ST D (res Z) :=
  match n with
  | O => ok cluster
  | S n =>
      next <-? fat16_get_fat_entry dev cluster ;;
      if fat16_is_eoc next then fail NnotFound
      else if (next =? FAT16_CLUSTER_BAD) || negb (fat16_cluster_valid dev next) then fail NfileCorrupted
      else nth_cluster_loop dev n next
  end.

(** [fat16_get_nth_cluster]: drivers/filesystem/fat16/fat16.c:327-362 *)
Definition fat16_get_nth_cluster dev (start_cluster index : Z) : ST D (res Z) :=
  if negb (fat16_cluster_valid dev start_cluster) || (dev_total_clusters dev <=? index)
  then fail NfileCorrupted
  else nth_cluster_loop dev (Z.to_nat index) start_cluster.

(** ** Directories *)

(** The entry found with its index, and [*out_end]. *)
(** [scan_loop]: drivers/filesystem/fat16/fat16.c:475-494 *)
Fixpoint scan_loop (n : nat) (j : Z) (buffer name : list Z) : res (fat16_dir_entry_t * Z) * bool :=
  match n with
  | O => (Err NfileNotFound, false)
  | S n =>
      let entry := dirent_of buffer in
      let continue_ := scan_loop n (j + 1) (drop (Z.to_nat FAT16_ENTRY_SIZE) buffer) name in
      if nth 0 (de_Name entry) 0 =? 0 then (Err NfileNotFound, true)
      else if nth 0 (de_Name entry) 0 =? 0xE5 then continue_
      else if Z.land (de_Attr entry) FAT16_ATTR_LONG_NAME =? FAT16_ATTR_LONG_NAME then continue_
      else if tst (de_Attr entry) FAT16_ATTR_VOLUME_ID then continue_
      else if fat16_name_matches (de_Name entry) name then (Ok (entry, j), false)
      else continue_
  end.

(** [fat16_scan_sector]: drivers/filesystem/fat16/fat16.c:462-497 *)
Definition fat16_scan_sector (sector_buffer name : list Z) : res (fat16_dir_entry_t * Z) * bool :=
  scan_loop (Z.to_nat (FAT16_SECTOR_SIZE / FAT16_ENTRY_SIZE)) 0 sector_buffer name.

(** The sectors [sector, sector + n): the status is that of the first read
    that fails or of the search; [None] means that all were read and searched
    in vain. [tag sector_idx index] is the inode number of a hit. *)
(** [scan_sectors]: drivers/filesystem/fat16/fat16.c:518-534 *)
Fixpoint scan_sectors dev (n : nat) (sector sector_idx : Z) (name : list Z) (tag : Z -> Z -> Z)
  : ST D (option (res (fat16_dir_entry_t * Z))) := fun d =>
  match n with
  | O => (None, d)
  | S n =>
      match fat16_read_sector dev (u32 (sector + sector_idx)) d with
      | (Err e, d) => (Some (Err e), d)
      | (Ok sector_buffer, d) =>
          match fat16_scan_sector sector_buffer name with
          | (Ok (entry, index), _) => (Some (Ok (entry, tag sector_idx index)), d)
          | (Err _, true) => (Some (Err NfileNotFound), d)
          | (Err _, false) => scan_sectors dev n sector (sector_idx + 1) name tag d
          end
      end
  end.

Definition inode_tag dev (high index : Z) : Z :=
  Z.lor (Z.lor (u64 (Z.shiftl (dev_diskno dev) 32)) (u64 (Z.shiftl high 16))) index.

(** The loop over the chain of a directory: [fuel] is [total_clusters]. *)
(** [scan_chain]: drivers/filesystem/fat16/fat16.c:542-582 *)
Fixpoint scan_chain dev (fuel : nat) (cluster : Z) (name : list Z) : ST D (res (fat16_dir_entry_t * Z)) := fun d =>
  match fuel with
  | O => (Err NfileCorrupted, d)
  | S fuel =>
      if negb (fat16_cluster_valid dev cluster) then (Err NfileCorrupted, d)
      else
        let spc := SectorsPerCluster (dev_boot dev) in
        let first := u32 (dev_first_data_sector dev + u32 (u32 (cluster - 2) * spc)) in
        match scan_sectors dev (Z.to_nat spc) first 0 name (fun _ index => inode_tag dev cluster index) d with
        | (Some r, d) => (r, d)
        | (None, d) =>
            (next <-? fat16_get_fat_entry dev cluster ;;
             if fat16_is_eoc next then fail NfileNotFound
             else if next =? FAT16_CLUSTER_BAD then fail NfileCorrupted
             else scan_chain dev fuel next name) d
        end
  end.

(** [fat16_find_entry_in_directory]: drivers/filesystem/fat16/fat16.c:499-586 *)
Definition fat16_find_entry_in_directory dev (start_cluster : Z) (root_directory : bool) (name : list Z)
  : ST D (res (fat16_dir_entry_t * Z)) := fun d =>
  if root_directory then
    match scan_sectors dev (Z.to_nat (dev_root_dir_sectors dev)) (dev_first_root_dir_sector dev) 0 name
            (inode_tag dev) d with
    | (Some r, d) => (r, d)
    | (None, d) => (Err NfileNotFound, d)
    end
  else scan_chain dev (Z.to_nat (dev_total_clusters dev)) start_cluster name d.

(** ** Files *)

(** The loop: [offset], what is left to read, and what is in the buffer. *)
(** [file_read_loop]: drivers/filesystem/fat16/fat16.c:718-750 *)
Fixpoint file_read_loop dev (first_cluster : Z) (fuel : nat) (offset left : Z) (acc : list Z)
  : ST D (Nerror * list Z) := fun d =>
  match fuel with
  | O => ((Nok, acc), d)
  | S fuel =>
      if left <=? 0 then ((Nok, acc), d)
      else
        let cluster_size := dev_bytes_per_cluster dev in
        let cluster_index := offset / cluster_size in
        let cluster_offset := u32 (offset mod cluster_size) in
        if dev_total_clusters dev <=? cluster_index then ((NfileCorrupted, acc), d)
        else match fat16_get_nth_cluster dev first_cluster (u32 cluster_index) d with
        | (Err e, d) => ((e, acc), d)
        | (Ok cluster, d) =>
            let cluster_byte_offset :=
              u64 (dev_first_data_sector dev * FAT16_SECTOR_SIZE
                   + u32 (cluster - 2) * cluster_size + cluster_offset) in
            let chunk := u32 (cluster_size - cluster_offset) in
            let chunk := if left <? chunk then left else chunk in
            let '((status, bs), d) := fat16_read_raw dev cluster_byte_offset chunk d in
            if is_err status then ((status, acc ++ bs), d)
            else file_read_loop dev first_cluster fuel (u64 (offset + chunk)) (left - chunk) (acc ++ bs) d
        end
  end.

(** ** The boot sector *)

(** The fields of the device [fat16_load_boot_sector] computes. *)
Definition set_geometry dev (boot : fat16_boot_sector_t)
    (total root_dir_sectors first_fat first_root first_data bpc clusters : Z) : fat16_device_t :=
  mk_dev (dev_params dev) (dev_used dev) (dev_diskno dev) boot (u32 root_dir_sectors) (u32 first_fat)
    (u32 first_root) (u32 first_data) (u32 bpc) (u32 total) (u32 clusters)
    (dev_mount_path dev) (dev_root_vnode dev) (dev_read dev) (dev_write dev).

Definition set_boot (b : fat16_boot_sector_t) dev : fat16_device_t :=
  mk_dev (dev_params dev) (dev_used dev) (dev_diskno dev) b (dev_root_dir_sectors dev)
    (dev_first_fat_sector dev) (dev_first_root_dir_sector dev) (dev_first_data_sector dev)
    (dev_bytes_per_cluster dev) (dev_total_sectors dev) (dev_total_clusters dev)
    (dev_mount_path dev) (dev_root_vnode dev) (dev_read dev) (dev_write dev).

(** The geometry of a volume, or why it is refused. *)
(** [check_boot]: drivers/filesystem/fat16/fat16.c:802-857 *)
Definition check_boot dev (boot : fat16_boot_sector_t) : res fat16_device_t :=
  if negb (Signature boot =? 0xAA55) then Err NbadFilesystem
  else if negb (BytesPerSector boot =? FAT16_SECTOR_SIZE) then Err Nunsupported
  else
    let spc := SectorsPerCluster boot in
    if (spc =? 0) || (128 <? spc) || negb (Z.land spc (u32 (spc - 1)) =? 0) then Err NbadFilesystem
    else if (ReservedSectorCount boot =? 0) || (FATCount boot =? 0) || (2 <? FATCount boot)
            || (FATSize16 boot =? 0) || (RootEntryCount boot =? 0) then Err NbadFilesystem
    else
      let total := if negb (TotalSectors16 boot =? 0) then TotalSectors16 boot else TotalSectors32 boot in
      if (total =? 0) || (0xFFFFFFFF <? total) then Err NbadFilesystem
      else
        let root_dir_sectors :=
          (RootEntryCount boot * FAT16_ENTRY_SIZE + FAT16_SECTOR_SIZE - 1) / FAT16_SECTOR_SIZE in
        let first_fat := ReservedSectorCount boot in
        let first_root := first_fat + FATCount boot * FATSize16 boot in
        let first_data := first_root + root_dir_sectors in
        if total <=? first_data then Err NbadFilesystem
        else
          let data_sectors := total - first_data in
          let clusters := data_sectors / spc in
          if (clusters <? FAT16_MIN_CLUSTERS) || (FAT16_MAX_CLUSTERS <? clusters) then Err NbadFilesystem
          else if FATSize16 boot * FAT16_SECTOR_SIZE <? (clusters + 2) * 2 then Err NbadFilesystem
          else Ok (set_geometry dev boot total root_dir_sectors first_fat first_root first_data
                     (FAT16_SECTOR_SIZE * spc) clusters).

(** The status, and the device. *)
(** [fat16_load_boot_sector]: drivers/filesystem/fat16/fat16.c:781-860 *)
Definition fat16_load_boot_sector dev : ST D (res unit * fat16_device_t) := fun d =>
  if p_info (dev_params dev) =? 0 then ((Err NinvalidArg, dev), d)
  else match read_local dev 0 512 d with
  | (Err e, d) => ((Err e, dev), d)
  | (Ok bs, d) =>
      match check_boot dev (boot_of bs) with
      | Err e => ((Err e, set_boot (boot_of bs) dev), d)
      | Ok dev => ((Ok tt, dev), d)
      end
  end.
End fat16.
Arguments fat16_mount_params_t : clear implicits.
Arguments fat16_device_t : clear implicits.
