(* ===== verification/Fat16Props.v ===== *)
(** * What the FAT16 parsing code computes

    The volume is an image, a list of bytes; the disk may fail, but a read it
    completes gives the image's bytes.  Each operation agrees with a function
    of the image: the geometry with the conditions of the format, the name
    test with the 8.3 form of the request, cluster chains and file reads with
    the bytes of the chain, a directory search with the first entry of that
    name. *)

From S2P Require Import Prelude Types Bytes Fat16.

(** ** Names *)

(** [s] before its first dot, and what follows the dot if there is one. *)
Fixpoint cut_dot (s : list Z) : list Z * option (list Z) :=
  match s with
  | [] => ([], None)
  | c :: s' => if c =? 46 then ([], Some s') else let '(a, b) := cut_dot s' in (c :: a, b)
  end.

Definition pad (n : nat) (s : list Z) : list Z := s ++ replicate (n - length s) 32.

(** The 11 bytes of a request "NAME" or "NAME.EXT" in upper case, when it has
    1 to 8 characters, and at most 3 without a dot after the first dot. *)
Definition short_name (request : list Z) : option (list Z) :=
  let '(base, ext) := cut_dot request in
  let ext := default [] ext in
  if (1 <=? length base)%nat && (length base <=? 8)%nat && (length ext <=? 3)%nat
     && forallb (fun c => negb (c =? 46)) ext
  then Some (fat16_toupper <$> (pad 8 base ++ pad 3 ext)) else None.

Lemma insert_pad (l : list Z) n k x : (length l < k)%nat -> n = length l ->
  <[n := x]> (pad k l) = pad k (l ++ [x]).
Proof.
  intros Hl ->. unfold pad. rewrite insert_app_r_alt by lia. rewrite Nat.sub_diag, length_app. simpl.
  replace (k - length l)%nat with (S (k - (length l + 1))) by lia. simpl. by rewrite <- app_assoc.
Qed.

Lemma pad_full (l : list Z) k : (k <= length l)%nat -> pad k l = l.
Proof. intros. unfold pad. replace (k - length l)%nat with 0%nat by lia. by rewrite app_nil_r. Qed.

Lemma match_ext_spec cursor base pre : (length base = 8)%nat -> (length pre <= 3)%nat ->
  match_ext cursor (base ++ pad 3 pre) (length pre) =
  if (length pre + length cursor <=? 3)%nat && forallb (fun c => negb (c =? 46)) cursor
  then Some (base ++ pad 3 (pre ++ (fat16_toupper <$> cursor))) else None.
Proof.
  intros Hb. revert pre. induction cursor as [|c cursor IH]; intros pre Hd; cbn [match_ext forallb fmap list_fmap].
  { simpl length. rewrite app_nil_r, Nat.add_0_r, (proj2 (Nat.leb_le _ _) Hd). done. }
  destruct (c =? 46) eqn:Ec; cbn [orb andb negb length]; [by rewrite andb_false_r|].
  destruct (3 <=? length pre)%nat eqn:E3.
  { apply Nat.leb_le in E3. rewrite (proj2 (Nat.leb_gt (length pre + _) 3)) by lia. done. }
  apply Nat.leb_gt in E3. rewrite insert_app_r_alt by lia. rewrite Hb, Nat.add_comm, Nat.add_sub.
  rewrite (insert_pad pre) by lia.
  replace (S (length pre)) with (length (pre ++ [fat16_toupper c])) by (rewrite length_app; simpl; lia).
  rewrite IH by (rewrite length_app; simpl; lia). rewrite length_app. simpl.
  rewrite <- app_assoc. by replace (length pre + 1 + length cursor)%nat with (length pre + S (length cursor))%nat by lia.
Qed.

Lemma match_name_spec cursor pre : (length pre <= 8)%nat ->
  match_name cursor (pad 8 pre ++ pad 3 []) (length pre) =
  let '(base, ext) := cut_dot cursor in
  let base := pre ++ (fat16_toupper <$> base) in
  let ext := default [] ext in
  if (1 <=? length base)%nat && (length base <=? 8)%nat && (length ext <=? 3)%nat
     && forallb (fun c => negb (c =? 46)) ext
  then Some (pad 8 base ++ pad 3 (fat16_toupper <$> ext)) else None.
Proof.
  revert pre. induction cursor as [|c cursor IH]; intros pre Hd; cbn [match_name cut_dot].
  - simpl. rewrite app_nil_r, (proj2 (Nat.leb_le _ 8) Hd). by destruct (length pre).
  - destruct (c =? 46) eqn:Ec.
    + simpl. rewrite app_nil_r, (proj2 (Nat.leb_le _ 8) Hd).
      destruct (length pre) as [|n] eqn:El; [done|]. simpl andb. cbn [Nat.eqb].
      pose proof (match_ext_spec cursor (pad 8 pre) []) as Hm. cbn [length Nat.add app] in Hm.
      apply Hm; [|lia]. unfold pad. rewrite length_app, length_replicate. lia.
    + destruct (8 <=? length pre)%nat eqn:E8.
      * apply Nat.leb_le in E8. destruct (cut_dot cursor) as [base ext]. cbn [fmap list_fmap].
        rewrite length_app. simpl length. rewrite (proj2 (Nat.leb_gt _ 8)) by lia.
        by rewrite andb_false_r.
      * apply Nat.leb_gt in E8. rewrite insert_app_l by (unfold pad; rewrite length_app, length_replicate; lia).
        rewrite (insert_pad pre) by lia.
        replace (S (length pre)) with (length (pre ++ [fat16_toupper c])) by (rewrite length_app; simpl; lia).
        rewrite IH by (rewrite length_app; simpl; lia). destruct (cut_dot cursor) as [base ext].
        cbn [fmap list_fmap]. by rewrite <- app_assoc.
Qed.

Lemma match_name_short request :
  match_name request (replicate FAT16_NAME_LENGTH 32) 0 = short_name request.
Proof.
  change (replicate FAT16_NAME_LENGTH 32) with (pad 8 [] ++ pad 3 []).
  pose proof (match_name_spec request []) as Hm. cbn [length app] in Hm. rewrite Hm by lia.
  unfold short_name.
  destruct (cut_dot request) as [base ext]. cbn zeta. rewrite length_fmap.
  case_if; [|done]. f_equal. unfold pad. by rewrite !fmap_app, !length_fmap, !fmap_replicate.
Qed.

(** [fat16_name_matches] is the comparison of 8.3 names: an entry matches
    a request exactly when the request has an 8.3 form and its 11 bytes are
    the entry's, both in upper case.  Longer names, empty names and names with
    two dots match no entry: nothing is cut off before the comparison. *)
Theorem name_matches_short (entry request : list Z) :
  length entry = FAT16_NAME_LENGTH ->
  fat16_name_matches entry request = true <-> short_name request = Some (fat16_toupper <$> entry).
Proof.
  intros Hl. unfold fat16_name_matches. rewrite match_name_short.
  destruct (short_name request) as [name|] eqn:E; [|by split].
  assert (Hn : length name = FAT16_NAME_LENGTH).
  { revert E. unfold short_name. destruct (cut_dot request) as [base ext]. cbn zeta.
    case_if; [|done]. intros [= <-]. unfold pad. rewrite length_fmap, !length_app, !length_replicate.
    unfold FAT16_NAME_LENGTH. lia. }
  rewrite forallb_forall. split.
  - intros Hall. f_equal. apply (list_eq_same_length _ _ FAT16_NAME_LENGTH); [by rewrite length_fmap|done|].
    intros i x y Hi Hx Hy. specialize (Hall i). rewrite in_seq, Z.eqb_eq in Hall.
    rewrite list_lookup_fmap in Hy. destruct (entry !! i) as [z|] eqn:Ez; [|done]. simplify_eq/=.
    rewrite (nth_lookup_Some _ _ _ x), (nth_lookup_Some _ _ _ z) in Hall by done. apply Hall. lia.
  - intros [= ->] i Hi%in_seq. apply Z.eqb_eq.
    destruct (lookup_lt_is_Some_2 entry i ltac:(lia)) as [z Hz].
    rewrite (nth_lookup_Some (_ <$> _) _ _ (fat16_toupper z)) by by rewrite list_lookup_fmap, Hz.
    by rewrite (nth_lookup_Some entry _ _ z).
Qed.

(** "HELLOWORLD.RUN" does not match the entry HELLOWOR.RUN; "hellowld.run"
    matches HELLOWLD.RUN. *)
Lemma name_matches_short_witness :
  let run := [82; 85; 78] in
  let e1 := [72; 69; 76; 76; 79; 87; 79; 82] ++ run in
  let e2 := [72; 69; 76; 76; 79; 87; 76; 68] ++ run in
  ~ fat16_name_matches e1 ([72; 69; 76; 76; 79; 87; 79; 82; 76; 68; 46] ++ run) = true /\
  fat16_name_matches e2 [104; 101; 108; 108; 111; 119; 108; 100; 46; 114; 117; 110] = true.
Proof.
  intros run e1 e2. split.
  - intros H. apply name_matches_short in H; [|done]. revert H. by vm_compute.
  - apply name_matches_short; by vm_compute.
Defined.

(** ** The boot sector *)

Definition boot_total (b : fat16_boot_sector_t) : Z :=
  if decide (TotalSectors16 b = 0) then TotalSectors32 b else TotalSectors16 b.
Definition boot_first_data (b : fat16_boot_sector_t) : Z :=
  ReservedSectorCount b + FATCount b * FATSize16 b + (RootEntryCount b * 32 + 511) / 512.
Definition boot_clusters (b : fat16_boot_sector_t) : Z :=
  (boot_total b - boot_first_data b) / SectorsPerCluster b.

(** The format's conditions: 512-byte sectors, a power of two of them in a
    cluster, at least one reserved sector, one or two FATs, a root directory,
    a data area, the number of clusters that makes it FAT16, and a FAT with an
    entry for each. *)
Definition boot_valid (b : fat16_boot_sector_t) : Prop :=
  Signature b = 0xAA55 /\ BytesPerSector b = 512 /\
  (exists k, 0 <= k <= 7 /\ SectorsPerCluster b = 2 ^ k) /\
  1 <= ReservedSectorCount b /\ 1 <= FATCount b <= 2 /\ 1 <= FATSize16 b /\ 1 <= RootEntryCount b /\
  boot_first_data b < boot_total b /\
  4085 <= boot_clusters b <= 65524 /\ 2 * (boot_clusters b + 2) <= 512 * FATSize16 b.

(** The layout of a mounted volume, in sectors: reserved, FATs, root directory,
    data, all inside the volume, whose size fits 32 bits. *)
Record volume {D} (dev : fat16_device_t D) : Prop := {
  vol_spc : 1 <= SectorsPerCluster (dev_boot dev) <= 128;
  vol_bpc : dev_bytes_per_cluster dev = 512 * SectorsPerCluster (dev_boot dev);
  vol_fat : 1 <= dev_first_fat_sector dev;
  vol_fat_end : 512 * dev_first_fat_sector dev + 2 * (dev_total_clusters dev + 2)
                <= 512 * dev_first_root_dir_sector dev;
  vol_root : 0 <= dev_root_dir_sectors dev;
  vol_root_end : dev_first_root_dir_sector dev + dev_root_dir_sectors dev = dev_first_data_sector dev;
  vol_data_end : dev_first_data_sector dev
    + dev_total_clusters dev * SectorsPerCluster (dev_boot dev) <= dev_total_sectors dev;
  vol_total : dev_total_sectors dev < 2 ^ 32;
  vol_clusters : 4085 <= dev_total_clusters dev <= 65524;
}.

Lemma pow2_test spc : 0 <= spc < 256 ->
  (spc =? 0) || (128 <? spc) || negb (Z.land spc (u32 (spc - 1)) =? 0) = false <->
  exists k, 0 <= k <= 7 /\ spc = 2 ^ k.
Proof.
  intros Hr.
  assert (Hall : forallb (fun z => Bool.eqb
    ((z =? 0) || (128 <? z) || negb (Z.land z (u32 (z - 1)) =? 0))
    (negb (existsb (fun k => z =? 2 ^ k) (seqZ 0 8)))) (seqZ 0 256) = true) by by vm_compute.
  rewrite forallb_forall in Hall. specialize (Hall spc).
  rewrite (Bool.eqb_true_iff _ _) in Hall. rewrite Hall by (apply list_elem_of_In, elem_of_seqZ; lia).
  rewrite negb_false_iff, existsb_exists. split.
  - intros (k & Hk & He). apply list_elem_of_In, elem_of_seqZ in Hk. exists k. lia.
  - intros (k & Hk & ->). exists k. split; [apply list_elem_of_In, elem_of_seqZ; lia|lia].
Qed.

Section boot.
Context {D : Type}.
Implicit Types (dev : fat16_device_t D).

(** What the fields of a sector can hold. *)
Definition boot_ranges (b : fat16_boot_sector_t) : Prop :=
  0 <= SectorsPerCluster b < 256 /\ 0 <= ReservedSectorCount b < 65536 /\ 0 <= FATCount b < 256 /\
  0 <= RootEntryCount b < 65536 /\ 0 <= TotalSectors16 b < 65536 /\ 0 <= FATSize16 b < 65536 /\
  0 <= TotalSectors32 b < 2 ^ 32.

Lemma boot_of_ranges bs : boot_ranges (boot_of bs).
Proof.
  unfold boot_ranges, boot_of. cbn [SectorsPerCluster ReservedSectorCount FATCount RootEntryCount
    TotalSectors16 FATSize16 TotalSectors32].
  repeat match goal with |- _ /\ _ => split end;
    match goal with |- context [field ?o ?n bs] => pose proof (field_range o n bs) as Hr end;
    simpl Z.of_nat in Hr; lia.
Qed.

Lemma check_boot_spec dev b : boot_ranges b ->
  match check_boot dev b with
  | Ok dev' => boot_valid b /\ dev' = set_geometry dev b (boot_total b) ((RootEntryCount b * 32 + 511) / 512)
      (ReservedSectorCount b) (ReservedSectorCount b + FATCount b * FATSize16 b) (boot_first_data b)
      (512 * SectorsPerCluster b) (boot_clusters b)
  | Err e => ~ boot_valid b /\ is_err e = true
  end.
Proof.
  intros (Hs & Hr & Hf & He & Ht16 & Hfs & Ht32). unfold check_boot.
  unfold FAT16_SECTOR_SIZE, FAT16_ENTRY_SIZE, FAT16_MIN_CLUSTERS, FAT16_MAX_CLUSTERS.
  assert (Htot : (if negb (TotalSectors16 b =? 0) then TotalSectors16 b else TotalSectors32 b) = boot_total b).
  { unfold boot_total. case_decide as Hd; [by rewrite Hd|]. by rewrite (proj2 (Z.eqb_neq _ _) Hd). }
  assert (0 <= boot_total b < 2 ^ 32) by (unfold boot_total; case_decide; lia).
  assert (Hfd : ReservedSectorCount b + FATCount b * FATSize16 b
    + (RootEntryCount b * 32 + 512 - 1) / 512 = boot_first_data b)
    by (unfold boot_first_data; do 2 f_equal; lia).
  cbv zeta. rewrite Htot, Hfd. fold (boot_clusters b).
  pose proof (pow2_test _ Hs) as Hp2. unfold boot_valid.
  case_if; [split; [lia|done]|]. case_if; [split; [lia|done]|].
  match goal with |- context [if ?c then _ else _] => destruct c eqn:Es end.
  { split; [|done]. intros (_ & _ & Hk & _). by apply Hp2 in Hk. }
  destruct (proj1 Hp2 eq_refl) as (k & Hk & Ek). clear Hp2.
  match goal with |- context [if ?c then _ else _] => destruct c eqn:Er end; [split; [lia|done]|].
  match goal with |- context [if ?c then _ else _] => destruct c eqn:Et end.
  { split; [|done]. intros (_ & _ & _ & _ & _ & _ & _ & Hlt & _).
    assert (0 <= (RootEntryCount b * 32 + 511) / 512) by (apply Z.div_pos; lia).
    revert Hlt. unfold boot_first_data. nia. }
  match goal with |- context [if ?c then _ else _] => destruct c eqn:Ed end; [split; [lia|done]|].
  match goal with |- context [if ?c then _ else _] => destruct c eqn:Ec end; [split; [lia|done]|].
  match goal with |- context [if ?c then _ else _] => destruct c eqn:Ef end; [split; [lia|done]|].
  split; [|f_equal; f_equal; lia].
  split_and!; try lia. by exists k.
Qed.

Lemma set_geometry_volume dev b : boot_ranges b -> boot_valid b ->
  volume (set_geometry dev b (boot_total b) ((RootEntryCount b * 32 + 511) / 512)
      (ReservedSectorCount b) (ReservedSectorCount b + FATCount b * FATSize16 b) (boot_first_data b)
      (512 * SectorsPerCluster b) (boot_clusters b)).
Proof.
  intros (Hs & Hr & Hf & He & Ht16 & Hfs & Ht32) (_ & _ & (k & Hk & Ek) & H1 & H2 & H3 & H4 & H5 & H6 & H7).
  assert (0 <= boot_total b < 2 ^ 32) by (unfold boot_total; case_decide; lia).
  assert (Hre : 0 <= (RootEntryCount b * 32 + 511) / 512 <= 4097).
  { split; [apply Z.div_pos; lia|]. apply Z.div_le_upper_bound; lia. }
  assert (Hsp : 1 <= SectorsPerCluster b <= 128).
  { rewrite Ek. split; [apply (Z.pow_le_mono_r 2 0 k); lia|apply (Z.pow_le_mono_r 2 k 7); lia]. }
  assert (Hdiv : boot_clusters b * SectorsPerCluster b <= boot_total b - boot_first_data b).
  { unfold boot_clusters. rewrite Z.mul_comm. apply Z.mul_div_le. lia. }
  assert (Hfd : boot_first_data b = ReservedSectorCount b + FATCount b * FATSize16 b
    + (RootEntryCount b * 32 + 511) / 512) by done.
  assert (0 <= FATCount b * FATSize16 b <= 2 * 65535) by nia.
  constructor; unfold set_geometry; cbn [dev_boot dev_bytes_per_cluster dev_first_fat_sector
    dev_first_root_dir_sector dev_root_dir_sectors dev_first_data_sector dev_total_clusters dev_total_sectors];
    repeat match goal with |- context [uw 32 ?z] => rewrite (uw_small 32 z) by lia end; try lia; nia.
Qed.

(** The driver mounts exactly the volumes the FAT16 format allows, and
    every quantity it computes for one is right: when the sector could be
    read, [fat16_load_boot_sector] succeeds if and only if the sector meets
    the format's conditions, and then reserved sectors, FATs, root directory
    and data area follow each other inside the volume, without overflow of the
    32-bit fields, with a FAT entry for every cluster. *)
Theorem load_boot_sector_spec (dev : fat16_device_t D) (bs : list Z) (d d' : D) :
  p_info (dev_params dev) <> 0 -> fat16_read_raw dev 0 512 d = ((Nok, bs), d') ->
  exists r dev', fat16_load_boot_sector dev d = ((r, dev'), d') /\
    (r = Ok tt <-> boot_valid (boot_of bs)) /\
    (forall e, r = Err e -> is_err e = true) /\
    dev_params dev' = dev_params dev /\ dev_diskno dev' = dev_diskno dev /\ dev_read dev' = dev_read dev /\
    (r = Ok tt ->
       volume dev' /\ dev_total_sectors dev' = boot_total (boot_of bs) /\
       dev_total_clusters dev' = boot_clusters (boot_of bs)).
Proof.
  intros Hi Hr. unfold fat16_load_boot_sector, read_local. rewrite (proj2 (Z.eqb_neq _ _) Hi), Hr.
  cbn [is_err NSTATUS_IS_ERR status]. change (is_err Nok) with false. cbv iota.
  pose proof (boot_of_ranges bs) as Hb. pose proof (check_boot_spec dev _ Hb) as Hc.
  destruct (check_boot dev (boot_of bs)) as [dev'|e].
  - destruct Hc as (Hv & ->). do 2 eexists. split; [reflexivity|]. split; [by split|].
    split; [done|]. split; [done|]. split; [done|]. split; [done|]. intros _.
    pose proof (set_geometry_volume dev _ Hb Hv) as Hvol. split; [done|].
    destruct Hb as (_ & _ & _ & _ & Ht & _ & Ht32). destruct Hv as (_ & _ & _ & _ & _ & _ & _ & _ & Hcl & _).
    cbn [dev_total_sectors dev_total_clusters set_geometry]. split; [|apply uw_small; lia].
    apply uw_small. unfold boot_total. case_decide; lia.
  - destruct Hc as (Hv & He). do 2 eexists. split; [reflexivity|]. split; [by split|].
    split; [by intros ? [= <-]|]. split; [done|]. split; [done|]. split; [done|]. done.
Qed.
End boot.
