(* ===== verification/Fat16Read.v ===== *)
(** * Reading files and directories of a FAT16 volume

    For a validated volume ([Fat16Props.volume]) on an image: cluster chains,
    the bytes of a file, and the search of a directory, as functions of the
    image; the driver's operations agree with them.  A disk may fail a read:
    "agrees" then allows an error, and nothing else.  No operation asks for a
    byte outside the image, since only reads inside it are described. *)

From S2P Require Import Prelude Types Bytes Fat16 Fat16Props.

Definition zslice (off n : Z) (l : list Z) : list Z := take (Z.to_nat n) (drop (Z.to_nat off) l).

(** The disk under [dev] holds the image [img] in the states [inv]: a read
    inside it keeps [inv], stores no more than was asked for, and if it
    succeeds stores the image's bytes; it succeeds if [reliable]. *)
Record on_image {D} (dev : fat16_device_t D) (img : list Z) (inv : D -> Prop) (reliable : Prop) : Prop := {
  oi_size : 512 * dev_total_sectors dev <= Z.of_nat (length img);
  oi_read d off n : inv d -> 0 <= off -> 0 < n -> off + n <= Z.of_nat (length img) ->
    exists st bs d', fat16_read_raw dev off n d = ((st, bs), d') /\ inv d' /\
      (length bs <= Z.to_nat n)%nat /\ (is_err st = false -> st = Nok /\ bs = zslice off n img) /\
      (reliable -> is_err st = false);
}.

(** The result of an operation on such a disk, against the intended one. *)
Definition agrees {A} (reliable : Prop) (r spec : res A) : Prop :=
  r = spec \/ (~ reliable /\ exists e, r = Err e /\ is_err e = true).

Lemma agrees_refl {A} rel (r : res A) : agrees rel r r.
Proof. by left. Qed.
#[export] Hint Resolve agrees_refl : nyx.

(** [c] yields a result that agrees with [spec] and keeps [inv]. *)
Definition runs {D A} (inv : D -> Prop) (rel : Prop) (c : ST D (res A)) (spec : res A) : Prop :=
  forall d, inv d -> exists r d', c d = (r, d') /\ inv d' /\ agrees rel r spec.

Lemma runs_ret {D A} (inv : D -> Prop) rel (r : res A) : runs inv rel (ret r) r.
Proof. intros d Hd. exists r, d. split; [done|]. split; [done|by left]. Qed.

Definition res_bind {A B} (r : res A) (k : A -> res B) : res B := match r with Ok a => k a | Err e => Err e end.

Lemma runs_bind {D A B} (inv : D -> Prop) rel (c : ST D (res A)) (k : A -> ST D (res B)) spec speck :
  runs inv rel c spec -> (forall a, spec = Ok a -> runs inv rel (k a) (speck a)) ->
  runs inv rel (tryb c k) (res_bind spec speck).
Proof.
  intros Hc Hk d Hd. destruct (Hc d Hd) as (r & d' & E & Hd' & [->|(Hn & e & -> & He)]).
  - destruct spec as [a|e]; simpl.
    + rewrite (tryb_ok _ _ _ _ _ E). by apply Hk.
    + rewrite (tryb_err _ _ _ _ _ E). exists (Err e), d'. split; [done|]. split; [done|by left].
  - rewrite (tryb_err _ _ _ _ _ E). exists (Err e), d'. split; [done|]. split; [done|]. right. eauto.
Qed.

Section image.
Context {D : Type} (dev : fat16_device_t D) (img : list Z) (inv : D -> Prop) (rel : Prop).
Context (Hvol : volume dev) (Hon : on_image dev img inv rel).
Local Abbreviation runs := (runs inv rel).

Lemma read_local_run off n : 0 <= off -> 0 < n -> off + n <= 512 * dev_total_sectors dev ->
  runs (read_local dev off n) (Ok (zslice off n img)).
Proof.
  intros Ho Hn Hs d Hd. pose proof (oi_size _ _ _ _ Hon).
  destruct (oi_read _ _ _ _ Hon d off n Hd Ho Hn ltac:(lia)) as (st & bs & d' & E & Hd' & _ & Hb & Hr).
  unfold read_local. rewrite E. destruct (is_err st) eqn:Es.
  - exists (Err st), d'. split; [done|]. split; [done|]. right. split; [|by exists st].
    intros Hrel. by specialize (Hr Hrel).
  - destruct (Hb eq_refl) as [_ ->]. eexists _, d'. split; [done|]. split; [done|by left].
Qed.

(** ** Cluster chains *)

(** The FAT entry of a cluster. *)
Definition fat_next (c : Z) : Z := field 0 2 (zslice (512 * dev_first_fat_sector dev + 2 * c) 2 img).

Lemma valid_range c : fat16_cluster_valid dev c = true <-> 2 <= c < dev_total_clusters dev + 2.
Proof.
  unfold fat16_cluster_valid. rewrite uw_small by (pose proof (vol_clusters _ Hvol); lia). lia.
Qed.

Lemma get_fat_entry_run c :
  runs (fat16_get_fat_entry dev c)
    (if fat16_cluster_valid dev c then Ok (fat_next c) else Err NfileCorrupted).
Proof.
  unfold fat16_get_fat_entry. destruct (fat16_cluster_valid dev c) eqn:Ev; [|apply runs_ret].
  apply valid_range in Ev. cbn [negb]. unfold FAT16_SECTOR_SIZE.
  destruct Hvol. rewrite uw_small by nia.
  replace (dev_first_fat_sector dev * 512 + c * 2) with (512 * dev_first_fat_sector dev + 2 * c) by lia.
  refine (runs_bind _ _ _ _ _ (fun e => Ok (field 0 2 e)) (read_local_run _ _ _ _ _) _); [nia..|].
  intros a _. apply runs_ret.
Qed.

(** The cluster [n] links after [c]. *)
Fixpoint follow (n : nat) (c : Z) : res Z :=
  match n with
  | O => Ok c
  | S n =>
      if fat16_is_eoc (fat_next c) then Err NnotFound
      else if (fat_next c =? FAT16_CLUSTER_BAD) || negb (fat16_cluster_valid dev (fat_next c))
      then Err NfileCorrupted
      else follow n (fat_next c)
  end.

Lemma nth_cluster_loop_run n c : fat16_cluster_valid dev c = true ->
  runs (nth_cluster_loop dev n c) (follow n c).
Proof.
  revert c. induction n as [|n IH]; intros c Hc; [apply runs_ret|]. cbn [nth_cluster_loop follow].
  pose proof (get_fat_entry_run c) as Hg. rewrite Hc in Hg.
  refine (runs_bind _ _ _ _ _ (fun next => if fat16_is_eoc next then Err NnotFound
    else if (next =? FAT16_CLUSTER_BAD) || negb (fat16_cluster_valid dev next)
    then Err NfileCorrupted else follow n next) Hg _).
  intros next _. case_if; [apply runs_ret|].
  destruct ((next =? _) || _) eqn:Eb; [apply runs_ret|]. bool_simpl. by apply IH.
Qed.

(** The [k]-th cluster of the chain that starts at [start], which cannot be
    longer than the volume. *)
Definition cluster_at (start k : Z) : res Z :=
  if negb (fat16_cluster_valid dev start) || (dev_total_clusters dev <=? k)
  then Err NfileCorrupted else follow (Z.to_nat k) start.

Lemma get_nth_cluster_run start k : runs (fat16_get_nth_cluster dev start k) (cluster_at start k).
Proof.
  unfold fat16_get_nth_cluster, cluster_at. destruct (_ || _) eqn:E; [apply runs_ret|].
  bool_simpl. by apply nth_cluster_loop_run.
Qed.

Lemma follow_valid n c c' : fat16_cluster_valid dev c = true -> follow n c = Ok c' ->
  fat16_cluster_valid dev c' = true.
Proof.
  revert c. induction n as [|n IH]; intros c Hc; cbn [follow]; [by intros [= <-]|].
  case_if; [done|]. destruct (_ || _) eqn:Eb; [done|]. bool_simpl. by apply IH.
Qed.

Lemma cluster_at_valid start k c : cluster_at start k = Ok c -> 2 <= c < dev_total_clusters dev + 2.
Proof.
  unfold cluster_at. destruct (_ || _) eqn:E; [done|]. bool_simpl.
  intros Hf. apply valid_range. by eapply follow_valid.
Qed.

(** ** Files *)

(** The byte at position [off] of the file whose chain starts at [start]. *)
Definition file_byte (start off : Z) : option Z :=
  match cluster_at start (off / dev_bytes_per_cluster dev) with
  | Ok c => img !! Z.to_nat (512 * dev_first_data_sector dev + (c - 2) * dev_bytes_per_cluster dev
                             + off mod dev_bytes_per_cluster dev)
  | Err _ => None
  end.

(** The [n] bytes from [off] on, when the chain reaches that far. *)
Definition file_bytes (start off n : Z) : option (list Z) := mapM (file_byte start) (seqZ off n).

Lemma file_bytes_app start off n k : 0 <= n -> 0 <= k ->
  file_bytes start off (n + k) =
  (a ← file_bytes start off n; b ← file_bytes start (off + n) k; Some (a ++ b)).
Proof.
  intros Hn Hk. unfold file_bytes. rewrite seqZ_app by done. generalize (seqZ (off + n) k) as l2.
  generalize (seqZ off n) as l1. intros l1 l2. induction l1 as [|x l1 IH]; simpl.
  - by destruct (mapM _ l2).
  - destruct (file_byte start x); simpl; [|done]. rewrite IH. destruct (mapM _ l1); simpl; [|done].
    by destruct (mapM _ l2).
Qed.

Lemma div_in_cluster b off i : 0 < b -> 0 <= i -> off mod b + i < b -> (off + i) / b = off / b /\
  (off + i) mod b = off mod b + i.
Proof.
  intros Hb Hi Hlt. pose proof (Z.div_mod off b ltac:(lia)) as Hd. pose proof (Z.mod_pos_bound off b Hb).
  assert ((off + i) / b = off / b) by (symmetry; apply (Z.div_unique _ _ _ (off mod b + i)); lia).
  split; [done|]. symmetry. apply (Z.mod_unique _ _ (off / b)); lia.
Qed.

Lemma mapM_zslice start off n base (c : Z) :
  0 <= off -> 0 < dev_bytes_per_cluster dev -> off mod dev_bytes_per_cluster dev + n <= dev_bytes_per_cluster dev ->
  cluster_at start (off / dev_bytes_per_cluster dev) = Ok c ->
  base = 512 * dev_first_data_sector dev + (c - 2) * dev_bytes_per_cluster dev
         + off mod dev_bytes_per_cluster dev ->
  0 <= base -> 0 <= n -> base + n <= Z.of_nat (length img) ->
  file_bytes start off n = Some (zslice base n img).
Proof.
  intros Ho Hb Hn Hc Hbase Hb0 Hn0 Hlen. unfold file_bytes. apply mapM_Some. unfold zslice.
  apply Forall2_same_length_lookup. split.
  { rewrite length_seqZ, length_take, length_drop. lia. }
  intros i x y Hx Hy. apply lookup_seqZ in Hx as [-> Hi]. apply lookup_take_Some in Hy as [Hy _].
  rewrite lookup_drop in Hy. unfold file_byte.
  destruct (div_in_cluster (dev_bytes_per_cluster dev) off (Z.of_nat i)) as [-> ->]; [lia..|].
  rewrite Hc. rewrite <- Hy. f_equal. subst base.
  pose proof (Z.mod_pos_bound off (dev_bytes_per_cluster dev) Hb). lia.
Qed.

Lemma data_in_image c o n : 2 <= c < dev_total_clusters dev + 2 -> 0 <= o -> 0 <= n ->
  o + n <= dev_bytes_per_cluster dev ->
  0 <= 512 * dev_first_data_sector dev + (c - 2) * dev_bytes_per_cluster dev + o /\
  512 * dev_first_data_sector dev + (c - 2) * dev_bytes_per_cluster dev + o + n
  <= 512 * dev_total_sectors dev.
Proof.
  intros Hc Ho Hn Hb. destruct Hvol as [Hs Hbpc Hf Hfe Hr Hre Hde Ht Hcl]. rewrite Hbpc in *.
  split; [|]; [|cut ((c - 2 + 1) * SectorsPerCluster (dev_boot dev)
    <= dev_total_clusters dev * SectorsPerCluster (dev_boot dev)); [lia|apply Z.mul_le_mono_nonneg_r; lia]].
  assert (0 <= (c - 2) * (512 * SectorsPerCluster (dev_boot dev))) by (apply Z.mul_nonneg_nonneg; lia). lia.
Qed.

Lemma file_bytes_split start off left k : 0 <= k <= left ->
  file_bytes start off left =
  (a ← file_bytes start off k; b ← file_bytes start (off + k) (left - k); Some (a ++ b)).
Proof. intros Hk. rewrite <- file_bytes_app by lia. f_equal. lia. Qed.

Lemma file_bytes_none start off left e : 1 <= left ->
  cluster_at start (off / dev_bytes_per_cluster dev) = Err e -> file_bytes start off left = None.
Proof.
  intros Hl He. rewrite (file_bytes_split start off left 1) by lia. unfold file_bytes.
  change (seqZ off 1) with [off]. simpl. unfold file_byte. by rewrite He.
Qed.

Lemma follow_err n c e : follow n c = Err e -> is_err e = true.
Proof.
  revert c. induction n as [|n IH]; intros c; cbn [follow]; [done|].
  case_if; [by intros [= <-]|]. case_if; [by intros [= <-]|]. apply IH.
Qed.

Lemma cluster_at_err start k e : cluster_at start k = Err e -> is_err e = true.
Proof. unfold cluster_at. case_if; [by intros [= <-]|]. apply follow_err. Qed.

(** What the loop of [fat16_file_read] leaves, from the position [off] with
    [left] bytes to go. *)
Definition read_result (start off left : Z) (acc : list Z) (st : Nerror) (bs : list Z) : Prop :=
  (Z.of_nat (length bs) <= Z.of_nat (length acc) + left) /\
  (is_err st = false -> st = Nok /\ exists new, file_bytes start off left = Some new /\ bs = acc ++ new) /\
  (rel -> is_Some (file_bytes start off left) -> is_err st = false).

Lemma file_read_loop_run start fuel off left acc d : inv d ->
  0 <= off -> 0 <= left -> off + left < 2 ^ 32 -> left < Z.of_nat fuel ->
  exists st bs d', file_read_loop dev start fuel off left acc d = ((st, bs), d') /\ inv d' /\
    read_result start off left acc st bs.
Proof.
  revert off left acc d. induction fuel as [|fuel IH]; intros off left acc d Hd Ho Hl Hlim Hf; [lia|].
  cbn [file_read_loop]. case_if.
  { assert (left = 0) as -> by lia. exists Nok, acc, d. split; [done|]. split; [done|].
    split; [lia|]. split; [|done]. intros _. split; [done|]. exists []. by rewrite app_nil_r. }
  set (b := dev_bytes_per_cluster dev) in *.
  assert (Hb : 0 < b < 2 ^ 17) by (subst b; destruct Hvol as [Hs ->]; lia).
  pose proof (Z.mod_pos_bound off b ltac:(lia)) as Hm.
  assert (Hq : 0 <= off / b <= off) by (split; [apply Z.div_pos; lia|apply Z.div_le_upper_bound; nia]).
  assert (Hfail : forall e n, is_err e = true -> file_bytes start off left = None \/ ~ rel ->
    Z.of_nat (length n) <= left -> read_result start off left acc e (acc ++ n)).
  { intros e n He Hor Hn. split; [rewrite length_app; lia|]. split; [by rewrite He|].
    intros Hr [x Hx]. destruct Hor; [congruence|done]. }
  pose proof (fun e => file_bytes_none start off left e ltac:(lia)) as Hnone. fold b in Hnone.
  destruct (dev_total_clusters dev <=? off / b) eqn:Et; bool_simpl.
  { exists NfileCorrupted, acc, d. split; [done|]. split; [done|]. rewrite <- (app_nil_r acc) at 2.
    apply Hfail; [done| |simpl; lia]. left. apply (Hnone NfileCorrupted). unfold cluster_at.
    rewrite (proj2 (Z.leb_le _ _) Et). by rewrite orb_true_r. }
  rewrite (uw_small 32 (off / b)) by lia.
  destruct (get_nth_cluster_run start (off / b) d Hd) as (r & d1 & E1 & Hd1 & Hr). rewrite E1.
  destruct r as [c|e].
  2:{ exists e, acc, d1. split; [done|]. split; [done|]. rewrite <- (app_nil_r acc) at 2.
      destruct Hr as [Hr|(Hn & e' & [= <-] & He)]; (apply Hfail; [| |simpl; lia]).
      - by eapply cluster_at_err.
      - left. by eapply Hnone.
      - done.
      - by right. }
  assert (Hc : cluster_at start (off / b) = Ok c) by (by destruct Hr as [<-|(_ & e & [=] & _)]).
  pose proof (cluster_at_valid _ _ _ Hc) as Hcv.
  set (chunk := if left <? u32 (b - u32 (off mod b)) then left else u32 (b - u32 (off mod b))).
  assert (Hchunk : 0 < chunk <= left /\ off mod b + chunk <= b).
  { subst chunk. rewrite !(uw_small 32) by (try rewrite (uw_small 32) by lia; lia). case_if; lia. }
  clearbody chunk. rewrite (uw_small 32 (off mod b)), (uw_small 32 (c - 2)) by (pose proof (vol_clusters _ Hvol); lia).
  destruct (data_in_image c (off mod b) chunk Hcv ltac:(lia) ltac:(lia) ltac:(lia)) as [Hd0 Hd2]. fold b in Hd0, Hd2.
  pose proof (oi_size _ _ _ _ Hon) as Hsz. pose proof (vol_total _ Hvol) as Htot.
  unfold FAT16_SECTOR_SIZE. rewrite (uw_small 64) by lia.
  replace (dev_first_data_sector dev * 512) with (512 * dev_first_data_sector dev) by lia.
  set (base := 512 * dev_first_data_sector dev + (c - 2) * b + off mod b) in *.
  destruct (oi_read _ _ _ _ Hon d1 base chunk Hd1 ltac:(lia) ltac:(lia) ltac:(lia))
    as (st & bs & d2 & E2 & Hd2' & Hlen & Hok & Hrel). rewrite E2.
  destruct (is_err st) eqn:Est.
  { exists st, (acc ++ bs), d2. split; [done|]. split; [done|]. apply Hfail; [done| |lia]. right.
    intros Hr'. specialize (Hrel Hr'). congruence. }
  destruct (Hok eq_refl) as [-> ->]. rewrite (uw_small 64) by lia.
  assert (Hfb : file_bytes start off chunk = Some (zslice base chunk img)) by (apply (mapM_zslice _ _ _ _ c); fold b; first [lia|exact Hc|reflexivity]).
  destruct (IH (off + chunk) (left - chunk) (acc ++ zslice base chunk img) d2 Hd2') as (st & bs & d3 & E3 & Hd3 & H1 & H2 & H3);
    [lia..|].
  exists st, bs, d3. split; [done|]. split; [done|]. rewrite length_app in H1.
  assert (Hlz : (length (zslice base chunk img) <= Z.to_nat chunk)%nat) by (unfold zslice; rewrite length_take; lia).
  split; [lia|]. rewrite (file_bytes_split start off left chunk) by lia. rewrite Hfb. cbn [mbind option_bind]. split.
  - intros Hst. destruct (H2 Hst) as (-> & new & Hnew & ->). split; [done|]. exists (zslice base chunk img ++ new).
    rewrite Hnew. by rewrite app_assoc.
  - intros Hr' [x Hx]. apply H3; [done|]. destruct (file_bytes start (off + chunk) (left - chunk)); [by eexists|done].
Qed.

(** ** Directories *)

Definition name0 (e : fat16_dir_entry_t) : Z := nth 0 (de_Name e) 0.

(** An entry a search looks at: not deleted, not a piece of a long name, not
    the volume label. *)
Definition live (e : fat16_dir_entry_t) : bool :=
  negb (name0 e =? 0xE5) && negb (Z.land (de_Attr e) 0x0F =? 0x0F) && negb (tst (de_Attr e) 0x08).

(** The first [n] entries in a run of bytes. *)
Fixpoint dir_entries (n : nat) (bs : list Z) : list fat16_dir_entry_t :=
  match n with O => [] | S n => dirent_of bs :: dir_entries n (drop 32 bs) end.

(** The entries before the end mark, an entry whose name starts with 0. *)
Fixpoint in_use (es : list fat16_dir_entry_t) : list fat16_dir_entry_t :=
  match es with [] => [] | e :: es => if name0 e =? 0 then [] else e :: in_use es end.

Definition ended (es : list fat16_dir_entry_t) : bool := existsb (fun e => name0 e =? 0) es.

(** The first live entry of that name, and its index. *)
Definition dir_lookup (es : list fat16_dir_entry_t) (name : list Z) : option (nat * fat16_dir_entry_t) :=
  list_find (fun e => live e && fat16_name_matches (de_Name e) name = true) (in_use es).

Definition shift (n : nat) (r : option (nat * fat16_dir_entry_t)) : option (nat * fat16_dir_entry_t) :=
  prod_map (Nat.add n) id <$> r.

Lemma in_use_app es1 es2 : in_use (es1 ++ es2) = in_use es1 ++ (if ended es1 then [] else in_use es2).
Proof.
  induction es1 as [|e es1 IH]; [done|]. simpl. destruct (name0 e =? 0); [done|]. simpl. by rewrite IH.
Qed.

Lemma ended_app es1 es2 : ended (es1 ++ es2) = ended es1 || ended es2.
Proof. apply existsb_app. Qed.

Lemma in_use_all es : ended es = false -> in_use es = es.
Proof. induction es as [|e es IH]; simpl; [done|]. destruct (name0 e =? 0); [done|]. intros H. by rewrite IH. Qed.

Lemma dir_lookup_app es1 es2 name :
  dir_lookup (es1 ++ es2) name =
  match dir_lookup es1 name with
  | Some r => Some r
  | None => if ended es1 then None else shift (length es1) (dir_lookup es2 name)
  end.
Proof.
  unfold dir_lookup. rewrite in_use_app.
  destruct (list_find _ (in_use es1)) as [[i x]|] eqn:E.
  - erewrite list_find_app_l by exact E. done.
  - rewrite list_find_app_r by done. destruct (ended es1) eqn:Ee; [done|].
    rewrite (in_use_all es1) by done. unfold shift. simpl.
    destruct (list_find _ (in_use es2)) as [[k y]|]; simpl; [by rewrite Nat.add_comm|done].
Qed.

Lemma scan_loop_spec n j bs name :
  scan_loop n j bs name =
  match dir_lookup (dir_entries n bs) name with
  | Some (k, e) => (Ok (e, j + Z.of_nat k), false)
  | None => (Err NfileNotFound, ended (dir_entries n bs))
  end.
Proof.
  revert j bs. induction n as [|n IH]; intros j bs; [done|].
  cbn [scan_loop]. change (dir_entries (S n) bs) with ([dirent_of bs] ++ dir_entries n (drop 32 bs)).
  rewrite dir_lookup_app. rewrite IH. change (Z.to_nat FAT16_ENTRY_SIZE) with 32%nat.
  set (x := dir_entries n (drop 32 bs)). set (d := dirent_of bs).
  change (ended ([d] ++ x)) with ((name0 d =? 0) || ended x).
  assert (Hd : ended [d] = (name0 d =? 0)) by apply orb_false_r. rewrite Hd.
  change (dir_lookup [d] name) with (list_find (fun e => live e && fat16_name_matches (de_Name e) name = true)
    (if name0 d =? 0 then [] else [d])). fold (name0 d).
  destruct (name0 d =? 0); [done|]. cbn [orb list_find].
  assert (Hskip : match dir_lookup x name with
      | Some (k, e) => (Ok (e, j + 1 + Z.of_nat k), false)
      | None => (Err NfileNotFound, ended x)
      end = match shift 1 (dir_lookup x name) with
      | Some (k, e) => (Ok (e, j + Z.of_nat k), false)
      | None => (Err NfileNotFound, ended x)
      end).
  { destruct (dir_lookup x name) as [[k e]|]; simpl; [|done]. do 3 f_equal. lia. }
  rewrite Hskip. unfold live, FAT16_ATTR_LONG_NAME, FAT16_ATTR_VOLUME_ID.
  destruct (name0 d =? 0xE5); cbn [negb andb]; [by rewrite decide_False by done|].
  destruct (Z.land (de_Attr d) 0x0F =? 0x0F); cbn [negb andb]; [by rewrite decide_False by done|].
  destruct (tst (de_Attr d) 0x08); cbn [negb andb]; [by rewrite decide_False by done|].
  destruct (fat16_name_matches (de_Name d) name).
  - rewrite decide_True by done. simpl. by rewrite Z.add_0_r.
  - by rewrite decide_False by done.
Qed.

Lemma length_dir_entries n bs : length (dir_entries n bs) = n.
Proof. revert bs. induction n; intros bs; simpl; auto. Qed.

Lemma dirent_take k bs : (32 <= k)%nat -> dirent_of (take k bs) = dirent_of bs.
Proof.
  intros Hk. unfold dirent_of, slice, field. 
  assert (Hf : forall o n, (o + n <= k)%nat -> take n (drop o (take k bs)) = take n (drop o bs)).
  { intros o n Ho. rewrite skipn_firstn_comm, take_take. f_equal. lia. }
  by rewrite !Hf by lia.
Qed.

Lemma dir_entries_take n k bs : (32 * n <= k)%nat -> dir_entries n (take k bs) = dir_entries n bs.
Proof.
  revert k bs. induction n as [|n IH]; intros k bs Hk; [done|]. simpl. f_equal.
  - apply dirent_take. lia.
  - rewrite skipn_firstn_comm. apply IH. lia.
Qed.

Lemma dir_entries_app n k bs : dir_entries (n + k) bs = dir_entries n bs ++ dir_entries k (drop (32 * n) bs).
Proof.
  revert bs. induction n as [|n IH]; intros bs; [by rewrite drop_0|]. simpl plus. cbn [dir_entries app].
  f_equal. rewrite IH. do 2 f_equal. rewrite drop_drop. f_equal. lia.
Qed.

(** The entries of the [n] sectors from [s] on. *)
Definition sector_entries (s n : Z) : list fat16_dir_entry_t :=
  dir_entries (Z.to_nat (16 * n)) (zslice (512 * s) (512 * n) img).

Lemma sector_entries_cons s n : 0 <= s -> 1 <= n ->
  sector_entries s n = dir_entries 16 (zslice (512 * s) 512 img) ++ sector_entries (s + 1) (n - 1).
Proof.
  intros Hs Hn. unfold sector_entries.
  replace (Z.to_nat (16 * n)) with (16 + Z.to_nat (16 * (n - 1)))%nat by lia.
  rewrite dir_entries_app. f_equal.
  - unfold zslice. rewrite <- (dir_entries_take 16 512 (take (Z.to_nat (512 * n)) _)) by lia.
    rewrite take_take. do 2 f_equal. lia.
  - f_equal. unfold zslice. rewrite skipn_firstn_comm, drop_drop. f_equal; [lia|]. f_equal. lia.
Qed.

(** The result of searching entries whose [k]-th has inode number [tag k]. *)
Definition search (es : list fat16_dir_entry_t) (name : list Z) (tag : Z -> Z)
  : option (res (fat16_dir_entry_t * Z)) :=
  match dir_lookup es name with
  | Some (k, e) => Some (Ok (e, tag (Z.of_nat k)))
  | None => if ended es then Some (Err NfileNotFound) else None
  end.

Lemma search_app es1 es2 name tag :
  search (es1 ++ es2) name tag =
  match search es1 name tag with
  | Some r => Some r
  | None => search es2 name (fun k => tag (Z.of_nat (length es1) + k))
  end.
Proof.
  unfold search. rewrite dir_lookup_app, ended_app.
  destruct (dir_lookup es1 name) as [[k e]|]; [done|]. destruct (ended es1); [done|]. cbn [orb].
  destruct (dir_lookup es2 name) as [[k e]|]; simpl; [|done]. by rewrite Nat2Z.inj_add.
Qed.

Lemma dir_lookup_lt es name k e : dir_lookup es name = Some (k, e) -> (k < length es)%nat.
Proof.
  unfold dir_lookup. intros (Hl & _)%list_find_Some. apply lookup_lt_Some in Hl.
  assert (length (in_use es) <= length es)%nat; [|lia]. clear. induction es; simpl; [lia|]. case_if; simpl; lia.
Qed.

Lemma search_ext es name tag tag' : (forall k, 0 <= k < Z.of_nat (length es) -> tag k = tag' k) ->
  search es name tag = search es name tag'.
Proof.
  intros He. unfold search. destruct (dir_lookup es name) as [[k e]|] eqn:E; [|done].
  apply dir_lookup_lt in E. do 3 f_equal. apply He. lia.
Qed.

(** [agrees] for an operation that may also have nothing to say yet. *)
Definition oagrees {A} (r spec : option (res A)) : Prop :=
  r = spec \/ (~ rel /\ exists e, r = Some (Err e) /\ is_err e = true).

Lemma scan_sectors_run n sector idx name tag d : inv d -> 0 <= sector -> 0 <= idx ->
  sector + idx + Z.of_nat n <= dev_total_sectors dev ->
  exists r d', scan_sectors dev n sector idx name tag d = (r, d') /\ inv d' /\
    oagrees r (search (sector_entries (sector + idx) (Z.of_nat n)) name (fun k => tag (idx + k / 16) (k mod 16))).
Proof.
  revert idx d. induction n as [|n IH]; intros idx d Hd Hs Hi Hlim.
  { exists None, d. split; [done|]. split; [done|by left]. }
  pose proof (vol_total _ Hvol). cbn [scan_sectors].
  rewrite (uw_small 32) by lia. unfold fat16_read_sector, FAT16_SECTOR_SIZE.
  replace ((sector + idx) * 512) with (512 * (sector + idx)) by lia.
  destruct (read_local_run (512 * (sector + idx)) 512 ltac:(lia) ltac:(lia) ltac:(lia) d Hd)
    as (r & d1 & E & Hd1 & Hr). rewrite E.
  destruct Hr as [->|(Hn & e & -> & He)].
  2:{ exists (Some (Err e)), d1. split; [done|]. split; [done|]. right. eauto. }
  rewrite (sector_entries_cons (sector + idx) (Z.of_nat (S n))) by lia. rewrite search_app.
  unfold fat16_scan_sector. rewrite scan_loop_spec.
  change (Z.to_nat (FAT16_SECTOR_SIZE / FAT16_ENTRY_SIZE)) with 16%nat. set (es := dir_entries 16 _).
  assert (Hes : length es = 16%nat) by apply length_dir_entries.
  unfold search at 1. destruct (dir_lookup es name) as [[k e]|] eqn:El.
  { eexists _, d1. split; [reflexivity|]. split; [done|]. left. apply dir_lookup_lt in El.
    rewrite Z.div_small, Z.mod_small by lia. do 4 f_equal; lia. }
  destruct (ended es) eqn:Ee.
  { eexists _, d1. split; [reflexivity|]. split; [done|]. by left. }
  destruct (IH (idx + 1) d1 Hd1) as (r & d2 & E2 & Hd2 & Hr); [lia..|].
  exists r, d2. split; [done|]. split; [done|].
  replace (Z.of_nat (S n) - 1) with (Z.of_nat n) by lia. rewrite <- Z.add_assoc.
  erewrite search_ext; [exact Hr|]. intros k Hk. cbv beta. rewrite Hes.
  replace (Z.of_nat 16 + k) with (k + 1 * 16) by lia. rewrite Z.div_add, Z.mod_add by lia. f_equal. lia.
Qed.

(** The entries of a cluster of a directory. *)
Definition cluster_entries (c : Z) : list fat16_dir_entry_t :=
  sector_entries (dev_first_data_sector dev + (c - 2) * SectorsPerCluster (dev_boot dev))
    (SectorsPerCluster (dev_boot dev)).

Lemma cluster_in_volume c : 2 <= c < dev_total_clusters dev + 2 ->
  0 <= (c - 2) * SectorsPerCluster (dev_boot dev) /\
  0 <= dev_first_data_sector dev + (c - 2) * SectorsPerCluster (dev_boot dev) /\
  dev_first_data_sector dev + (c - 2) * SectorsPerCluster (dev_boot dev) + SectorsPerCluster (dev_boot dev)
  <= dev_total_sectors dev.
Proof.
  intros Hc. destruct Hvol as [Hs Hbpc Hf Hfe Hr Hre Hde Ht Hcl].
  assert (0 <= (c - 2) * SectorsPerCluster (dev_boot dev)) by (apply Z.mul_nonneg_nonneg; lia).
  assert ((c - 2 + 1) * SectorsPerCluster (dev_boot dev)
    <= dev_total_clusters dev * SectorsPerCluster (dev_boot dev)) by (apply Z.mul_le_mono_nonneg_r; lia).
  lia.
Qed.

(** A search of the clusters from [c] on, at most [n] of them. *)
Fixpoint chain_search (n : nat) (c : Z) (name : list Z) : res (fat16_dir_entry_t * Z) :=
  match n with
  | O => Err NfileCorrupted
  | S n =>
      if negb (fat16_cluster_valid dev c) then Err NfileCorrupted
      else match search (cluster_entries c) name (fun k => inode_tag dev c (k mod 16)) with
      | Some r => r
      | None =>
          if fat16_is_eoc (fat_next c) then Err NfileNotFound
          else if fat_next c =? FAT16_CLUSTER_BAD then Err NfileCorrupted
          else chain_search n (fat_next c) name
      end
  end.

Lemma scan_chain_run n c name : runs (scan_chain dev n c name) (chain_search n c name).
Proof.
  revert c. induction n as [|n IH]; intros c d Hd; [by apply runs_ret|]. cbn [scan_chain chain_search].
  destruct (fat16_cluster_valid dev c) eqn:Ev; cbn [negb]; [|by apply runs_ret].
  pose proof (proj1 (valid_range c) Ev) as Hc. pose proof (cluster_in_volume c Hc) as (Hm & H0 & Hlim).
  pose proof Hvol as [Hs _ Hf Hfe Hr0 Hre _ Ht Hcl].
  rewrite (uw_small 32 (c - 2)), (uw_small 32 (_ * _)), (uw_small 32 (_ + _)) by lia.
  destruct (scan_sectors_run (Z.to_nat (SectorsPerCluster (dev_boot dev)))
    (dev_first_data_sector dev + (c - 2) * SectorsPerCluster (dev_boot dev)) 0 name
    (fun _ index => inode_tag dev c index) d Hd) as (r & d1 & E & Hd1 & Hr); [lia..|].
  rewrite E. rewrite Z.add_0_r, Z2Nat.id in Hr by lia. fold (cluster_entries c) in Hr.
  destruct Hr as [->|(Hn & e & -> & He)].
  2:{ exists (Err e), d1. split; [done|]. split; [done|]. right. eauto. }
  destruct (search _ name _) as [r|]; [by apply runs_ret|].
  pose proof (get_fat_entry_run c) as Hg. rewrite Ev in Hg.
  refine (runs_bind _ _ _ _ _ (fun next => if fat16_is_eoc next then Err NfileNotFound
    else if next =? FAT16_CLUSTER_BAD then Err NfileCorrupted else chain_search n next name) Hg _ d1 Hd1).
  intros next _. case_if; [apply runs_ret|]. case_if; [apply runs_ret|]. apply IH.
Qed.

(** What [fat16_find_entry_in_directory] looks for. *)
Definition dir_search (start : Z) (root : bool) (name : list Z) : res (fat16_dir_entry_t * Z) :=
  if root then
    default (Err NfileNotFound)
      (search (sector_entries (dev_first_root_dir_sector dev) (dev_root_dir_sectors dev)) name
         (fun k => inode_tag dev (k / 16) (k mod 16)))
  else chain_search (Z.to_nat (dev_total_clusters dev)) start name.

Lemma find_entry_run start root name :
  runs (fat16_find_entry_in_directory dev start root name) (dir_search start root name).
Proof.
  intros d Hd. unfold fat16_find_entry_in_directory, dir_search. destruct root; [|by apply scan_chain_run].
  pose proof Hvol as [Hs Hb Hf Hfe Hr0 Hre Hde Ht Hcl].
  assert (0 <= dev_total_clusters dev * SectorsPerCluster (dev_boot dev)) by (apply Z.mul_nonneg_nonneg; lia).
  destruct (scan_sectors_run (Z.to_nat (dev_root_dir_sectors dev)) (dev_first_root_dir_sector dev) 0 name
    (inode_tag dev) d Hd) as (r & d1 & E & Hd1 & Hr); [lia..|].
  rewrite E. rewrite Z.add_0_r, Z2Nat.id in Hr by lia.
  destruct Hr as [->|(Hn & e & -> & He)].
  - unfold search. destruct (dir_lookup _ name) as [[k e]|]; [by apply runs_ret|].
    destruct (ended _); by apply runs_ret.
  - exists (Err e), d1. split; [done|]. split; [done|]. right. eauto.
Qed.

(** A chain of directory clusters from [c] to its end mark. *)
Fixpoint dir_chain (c : Z) (cs : list Z) : Prop :=
  fat16_cluster_valid dev c = true /\
  match cs with
  | [] => fat16_is_eoc (fat_next c) = true
  | c' :: cs => fat_next c = c' /\ fat16_is_eoc c' = false /\ c' <> FAT16_CLUSTER_BAD /\ dir_chain c' cs
  end.

Lemma length_cluster_entries c : length (cluster_entries c) = Z.to_nat (16 * SectorsPerCluster (dev_boot dev)).
Proof. apply length_dir_entries. Qed.

(** Searching the clusters of a chain is searching their entries in order; the
    inode number of a hit names its cluster, and its index in a sector. *)
Lemma chain_search_complete n c cs name : dir_chain c cs -> (length cs < n)%nat ->
  chain_search n c name =
  default (Err NfileNotFound) (search (mjoin (cluster_entries <$> c :: cs)) name
    (fun k => inode_tag dev (nth (Z.to_nat (k / (16 * SectorsPerCluster (dev_boot dev)))) (c :: cs) 0) (k mod 16))).
Proof.
  set (w := 16 * SectorsPerCluster (dev_boot dev)).
  assert (Hw : 0 < w) by (subst w; pose proof (vol_spc _ Hvol); lia).
  revert c cs. induction n as [|n IH]; intros c cs Hc Hn; [lia|]. cbn [chain_search fmap list_fmap mjoin list_join].
  assert (Hv : fat16_cluster_valid dev c = true) by by destruct cs; apply Hc.
  rewrite Hv. cbn [negb]. rewrite search_app.
  rewrite (search_ext (cluster_entries c) name (fun k => inode_tag dev c (k mod 16))
    (fun k => inode_tag dev (nth (Z.to_nat (k / w)) (c :: cs) 0) (k mod 16))).
  2:{ intros k Hk. rewrite length_cluster_entries in Hk. fold w in Hk. rewrite Z.div_small by lia. done. }
  destruct (search (cluster_entries c) name _) as [r|]; [done|].
  destruct cs as [|c' cs].
  - destruct Hc as [_ ->]. done.
  - destruct Hc as (_ & Hnext & He & Hb & Hc). rewrite Hnext, He, (proj2 (Z.eqb_neq _ _) Hb).
    rewrite (IH c' cs Hc) by (simpl in Hn; lia). cbn [fmap list_fmap mjoin list_join]. f_equal. apply search_ext.
    intros k Hk. rewrite length_cluster_entries. fold w. f_equal.
    + replace (Z.of_nat (Z.to_nat w) + k) with (k + 1 * w) by lia. rewrite Z.div_add by lia.
      assert (0 <= k / w) by (apply Z.div_pos; lia).
      by replace (Z.to_nat (k / w + 1)) with (S (Z.to_nat (k / w))) by lia.
    + rewrite Z2Nat.id by lia. replace (w + k) with (k + SectorsPerCluster (dev_boot dev) * 16) by (subst w; lia).
      by rewrite Z.mod_add by lia.
Qed.

Lemma chain_search_cyclic n c name : fat16_cluster_valid dev c = true ->
  (forall i, (i <= n)%nat -> exists ci, follow i c = Ok ci /\
     dir_lookup (cluster_entries ci) name = None /\ ended (cluster_entries ci) = false) ->
  chain_search n c name = Err NfileCorrupted.
Proof.
  revert c. induction n as [|n IH]; intros c Hv Hall; [done|]. cbn [chain_search]. rewrite Hv. cbn [negb].
  destruct (Hall 0%nat) as (c0 & [= <-] & Hl & He); [lia|]. unfold search. rewrite Hl, He.
  destruct (Hall 1%nat) as (c1 & H1 & _); [lia|]. cbn [follow] in H1.
  destruct (fat16_is_eoc _) eqn:Ee; [done|]. destruct (fat_next c =? FAT16_CLUSTER_BAD) eqn:Eb; [done|].
  cbn [orb] in H1. destruct (fat16_cluster_valid dev (fat_next c)) eqn:Ev; [|done].
  apply IH; [done|]. intros i Hi. destruct (Hall (S i)) as (ci & Hf & Hr); [lia|].
  exists ci. cbn [follow] in Hf. rewrite Ee, Eb, Ev in Hf. done.
Qed.

(** C38: A directory search returns the first entry of that name.  In the root
    directory and in a directory whose cluster chain reaches its end mark, it
    is the first live entry before the end mark of the directory that matches,
    with an inode number made of its place, or [NfileNotFound]; a chain that
    never ends (the FAT has a cycle) is reported as [NfileCorrupted] after as
    many clusters as the volume has, so the search always returns.  A read
    that fails ends it with that error. *)
Theorem directory_search (start : Z) (root : bool) (name : list Z) (d : D) :
  inv d -> fat16_cluster_valid dev start = true ->
  let spc := SectorsPerCluster (dev_boot dev) in
  exists r d', fat16_find_entry_in_directory dev start root name d = (r, d') /\ inv d' /\
    (root = true ->
       agrees rel r (match dir_lookup (sector_entries (dev_first_root_dir_sector dev) (dev_root_dir_sectors dev)) name with
                     | Some (k, e) => Ok (e, inode_tag dev (Z.of_nat k / 16) (Z.of_nat k mod 16))
                     | None => Err NfileNotFound
                     end)) /\
    (forall cs, root = false -> dir_chain start cs -> Z.of_nat (length cs) < dev_total_clusters dev ->
       agrees rel r (match dir_lookup (mjoin (cluster_entries <$> start :: cs)) name with
                     | Some (k, e) => Ok (e, inode_tag dev (nth (k / Z.to_nat (16 * spc)) (start :: cs) 0) (Z.of_nat k mod 16))
                     | None => Err NfileNotFound
                     end)) /\
    (root = false ->
     (forall i, Z.of_nat i <= dev_total_clusters dev -> exists ci, follow i start = Ok ci /\
        dir_lookup (cluster_entries ci) name = None /\ ended (cluster_entries ci) = false) ->
     agrees rel r (Err NfileCorrupted)).
Proof.
  intros Hd Hv spc. destruct (find_entry_run start root name d Hd) as (r & d' & E & Hd' & Hr).
  exists r, d'. split; [exact E|]. split; [exact Hd'|]. split; [|split].
  - intros ->. revert Hr. unfold dir_search, search.
    destruct (dir_lookup _ name) as [[k e]|]; [done|]. by destruct (ended _).
  - intros cs -> Hc Hlen. revert Hr. unfold dir_search.
    rewrite (chain_search_complete _ _ cs) by (done || lia). unfold search.
    destruct (dir_lookup _ name) as [[k e]|]; [|by destruct (ended _)]. cbn [default].
    pose proof (vol_spc _ Hvol). fold spc in H |- *.
    rewrite <- (Z2Nat.id (16 * spc)) at 1 by lia. by rewrite <- Nat2Z.inj_div, Nat2Z.id.
  - intros -> Hall. revert Hr. unfold dir_search. rewrite chain_search_cyclic; [done|done|].
    intros i Hi. pose proof (vol_clusters _ Hvol). apply Hall. lia.
Qed.
End image.
