(* ===== verification/Fat16Fs.v ===== *)
(** * The FAT16 driver under the VFS: [drivers/filesystem/fat16/fat16.c]

    The driver's tables, its operations on vnodes and handles, and mounting.
    Its state is the [X] of [Vfs]; a device is its index in [g_devices], a
    private pointer says which table it points into.  The field [fs] of a
    device is built by [fat16_mount_internal] and read by the [vfs_mount] it
    calls, so it is an argument of that call. *)

From S2P Require Import Prelude Types Mem Memory Bytes FileIO Ramdisk FsCore Vfs Fat16.

(** [FAT16_MAX_DEVICES]: drivers/filesystem/fat16/fat16.c:39-39 *)
Definition FAT16_MAX_DEVICES : nat := 8.
(** [FAT16_MAX_VNODE_DATA]: drivers/filesystem/fat16/fat16.c:40-40 *)
Definition FAT16_MAX_VNODE_DATA : nat := 128.
(** [FAT16_MAX_HANDLES]: drivers/filesystem/fat16/fat16.c:41-41 *)
Definition FAT16_MAX_HANDLES : nat := 64.

(** The two tables of operations, [g_fat16_file_ops] and [g_fat16_dir_ops]. *)
(** [fat16_tbl]: drivers/filesystem/fat16/fat16.c:145-146 *)
Inductive fat16_tbl := FileOps | DirOps.

(** A [fat16_vnode_data_t *] points into [g_vnode_data] or [g_handle_slots]. *)
Inductive fat16_ptr := VnodeData (i : nat) | HandleData (i : nat).

(** [fat16_vnode_data_t]: drivers/filesystem/fat16/fat16.c:123-129 *)
Record fat16_vnode_data_t := mk_vd {
  vd_dev : option nat;
  vd_is_directory : bool;
  vd_first_cluster : Z;
  vd_size : Z;
  vd_inode_id : Z;
}.

(** [fat16_vnode_slot_t]: drivers/filesystem/fat16/fat16.c:131-134 *)
Record fat16_slot_t := mk_slot { sl_in_use : bool; sl_entry : fat16_vnode_data_t }.

Definition zero_vd : fat16_vnode_data_t := mk_vd None false 0 0 0.
Definition zero_slot : fat16_slot_t := mk_slot false zero_vd.

(** The RAM disk driver's read, the default of a mount. *)
Class RamdiskIO (D : Type) := { rd_read : fat16_disk_read_fn D }.

(** The one of [Ramdisk], storing into a buffer at [buf]. *)
Definition ramdisk_io (buf : Z) : RamdiskIO rd_st := {|
  rd_read diskno offset size s :=
    let '(st, s) := ramdisk_read diskno offset buf size s in
    ((st, if is_err st then [] else ld_bytes (rd_mem s) buf size), s)
|}.

Section driver.
Context {D : Type} `{RamdiskIO D}.
Abbreviation device := (fat16_device_t D).

(** The driver's variables, and the disks. *)
(** [g_devices]: drivers/filesystem/fat16/fat16.c:141-143 *)
Record fat16_st := mk_fat {
  g_devices : list device;
  g_vnode_data : list fat16_slot_t;
  g_handle_slots : list fat16_slot_t;
  fat_disk : D;
}.

Abbreviation vfs := (vfs fat16_tbl fat16_ptr fat16_st).
Abbreviation handle_t := (handle_t fat16_ptr).
Implicit Types (x : fat16_st) (s : vfs) (dev : device).

Definition zero_params : fat16_mount_params_t D := mk_params None 0 None None.
Definition zero_dev : device := mk_dev zero_params false 0 zero_boot 0 0 0 0 0 0 0 [] None None None.

Definition with_devices d x : fat16_st := mk_fat d (g_vnode_data x) (g_handle_slots x) (fat_disk x).
Definition with_vnode_data v x : fat16_st := mk_fat (g_devices x) v (g_handle_slots x) (fat_disk x).
Definition with_handle_slots h x : fat16_st := mk_fat (g_devices x) (g_vnode_data x) h (fat_disk x).
Definition with_disk d x : fat16_st := mk_fat (g_devices x) (g_vnode_data x) (g_handle_slots x) d.

Definition on_driver (f : fat16_st -> fat16_st) s : vfs := with_driver (f (g_driver s)) s.
Definition on_disk {A} (c : ST D A) : ST vfs A := fun s =>
  let '(a, d) := c (fat_disk (g_driver s)) in (a, on_driver (with_disk d) s).
Definition device_ (i : nat) s : device := default zero_dev (g_devices (g_driver s) !! i).
Definition set_device (i : nat) dev s : vfs := on_driver (fun x => with_devices (<[i := dev]> (g_devices x)) x) s.

(** What a private pointer points to. *)
Definition data_of (p : fat16_ptr) s : fat16_vnode_data_t :=
  match p with
  | VnodeData i => sl_entry (default zero_slot (g_vnode_data (g_driver s) !! i))
  | HandleData i => sl_entry (default zero_slot (g_handle_slots (g_driver s) !! i))
  end.

(** ** Tables *)

(** [fat16_find_device]: drivers/filesystem/fat16/fat16.c:167-177 *)
Definition fat16_find_device (diskno : Z) s : option nat :=
  fst <$> list_find (fun dev => dev_used dev && (dev_diskno dev =? diskno) = true) (g_devices (g_driver s)).

Definition set_used (used : bool) (diskno : Z) (path : list Z) (root : option nat)
    (read : option (fat16_disk_read_fn D)) (write : option (fat16_disk_write_fn D)) dev : device :=
  mk_dev (dev_params dev) used diskno (dev_boot dev) (dev_root_dir_sectors dev) (dev_first_fat_sector dev)
    (dev_first_root_dir_sector dev) (dev_first_data_sector dev) (dev_bytes_per_cluster dev)
    (dev_total_sectors dev) (dev_total_clusters dev) path root read write.

(** [fat16_alloc_device]: drivers/filesystem/fat16/fat16.c:179-192 *)
Definition fat16_alloc_device (diskno : Z) : ST vfs (option nat) := fun s =>
  match list_find (fun dev => dev_used dev = false) (g_devices (g_driver s)) with
  | None => (None, s)
  | Some (i, _) => (Some i, set_device i (set_used true diskno [] None None None zero_dev) s)
  end.

(** [fat16_free_device]: drivers/filesystem/fat16/fat16.c:194-205 *)
Definition fat16_free_device (i : nat) s : vfs :=
  set_device i (set_used false 0 [] None None None (device_ i s)) s.

(** A free slot of a table of private data, marked and cleared. *)
Definition alloc_slot (l : list fat16_slot_t) : option (nat * list fat16_slot_t) :=
  match list_find (fun sl => sl_in_use sl = false) l with
  | None => None
  | Some (i, _) => Some (i, <[i := mk_slot true zero_vd]> l)
  end.

(** [fat16_alloc_vnode_data]: drivers/filesystem/fat16/fat16.c:207-219 *)
Definition fat16_alloc_vnode_data : ST vfs (option fat16_ptr) := fun s =>
  match alloc_slot (g_vnode_data (g_driver s)) with
  | None => (None, s)
  | Some (i, l) => (Some (VnodeData i), on_driver (with_vnode_data l) s)
  end.

(** [fat16_free_vnode_data]: drivers/filesystem/fat16/fat16.c:221-236 *)
Definition fat16_free_vnode_data (data : option fat16_ptr) s : vfs :=
  match data with
  | Some (VnodeData i) => on_driver (fun x => with_vnode_data (<[i := zero_slot]> (g_vnode_data x)) x) s
  | _ => s
  end.

(** [fat16_alloc_handle_data]: drivers/filesystem/fat16/fat16.c:238-250 *)
Definition fat16_alloc_handle_data : ST vfs (option fat16_ptr) := fun s =>
  match alloc_slot (g_handle_slots (g_driver s)) with
  | None => (None, s)
  | Some (i, l) => (Some (HandleData i), on_driver (with_handle_slots l) s)
  end.

(** [fat16_free_handle_data]: drivers/filesystem/fat16/fat16.c:252-267 *)
Definition fat16_free_handle_data (data : option fat16_ptr) s : vfs :=
  match data with
  | Some (HandleData i) => on_driver (fun x => with_handle_slots (<[i := zero_slot]> (g_handle_slots x)) x) s
  | _ => s
  end.

(** [*data = vd], for a pointer an allocation returned. *)
Definition store_data (p : fat16_ptr) (vd : fat16_vnode_data_t) s : vfs :=
  match p with
  | VnodeData i => on_driver (fun x => with_vnode_data
      (alter (fun sl => mk_slot (sl_in_use sl) vd) i (g_vnode_data x)) x) s
  | HandleData i => on_driver (fun x => with_handle_slots
      (alter (fun sl => mk_slot (sl_in_use sl) vd) i (g_handle_slots x)) x) s
  end.

(** ** Operations *)

(** [fat16_fill_vnode]: drivers/filesystem/fat16/fat16.c:424-459 *)
Definition fat16_fill_vnode (node : nat) (dev : nat) (is_directory : bool)
    (first_cluster size inode_id : Z) : ST vfs (res unit) :=
  vnode_data <-o{NoutOfMemory} fat16_alloc_vnode_data ;;
  fun s =>
    let s := store_data vnode_data (mk_vd (Some dev) is_directory first_cluster size inode_id) s in
    let ops := if is_directory then DirOps else FileOps in
    match vfs_init_vnode (Some node) inode_id (if is_directory then 2 else 1) (Some ops) (Some vnode_data) s with
    | (Ok _, s) => (Ok tt, s)
    | (Err e, s) => (Err e, fat16_free_vnode_data (Some vnode_data) s)
    end.

(** [fat16_lookup]: drivers/filesystem/fat16/fat16.c:588-629 *)
Definition fat16_lookup (dir : nat) (name : list Z) : ST vfs (res (option nat)) := fun s =>
  match vfs_get_vnode_private (Some dir) s with
  | None => (Err NinvalidArg, s)
  | Some p =>
      let parent := data_of p s in
      match vd_dev parent with
      | None => (Err NinvalidArg, s)
      | Some dv =>
          if negb (vd_is_directory parent) then (Err NinvalidArg, s)
          else
            let root_directory := vd_first_cluster parent =? 0 in
            (found <-? on_disk (fat16_find_entry_in_directory (device_ dv s) (vd_first_cluster parent)
                                  root_directory name) ;;
             let '(entry, inode) := found in
             vnode <-o{NoutOfMemory} vfs_alloc_vnode ;;
             fun s =>
               match fat16_fill_vnode vnode dv (tst (de_Attr entry) FAT16_ATTR_DIRECTORY)
                       (de_FirstClusterLow entry) (de_FileSize entry) inode s with
               | (Err e, s) => (Err e, vfs_free_vnode (Some vnode) s)
               | (Ok _, s) => (Ok (Some vnode), s)
               end) s
      end
  end.

(** [fat16_stat]: drivers/filesystem/fat16/fat16.c:632-648 *)
Definition fat16_stat (vnode : nat) : ST vfs (res vfs_stat_t) := fun s =>
  match vfs_get_vnode_private (Some vnode) s with
  | None => (Err NinvalidArg, s)
  | Some p =>
      let data := data_of p s in
      (Ok (mk_stat (if vd_is_directory data then 0 else vd_size data)
                   (if vd_is_directory data then 2 else 1)), s)
  end.

(** [fat16_dir_open]: drivers/filesystem/fat16/fat16.c:650-656 *)
Definition fat16_dir_open (vnode : nat) (flags : Z) (h : handle_t) : ST vfs (res unit * handle_t) :=
  ret (Err Nunsupported, h).

Definition set_private (p : option fat16_ptr) (h : handle_t) : handle_t :=
  mk_hd (hd_vnode h) (hd_offset h) (hd_flags h) p (hd_refcnt h).

(** [fat16_file_open]: drivers/filesystem/fat16/fat16.c:658-682 *)
Definition fat16_file_open (vnode : nat) (flags : Z) (h : handle_t) : ST vfs (res unit * handle_t) := fun s =>
  match vfs_get_vnode_private (Some vnode) s with
  | None => ((Err NinvalidArg, h), s)
  | Some p =>
      if vd_is_directory (data_of p s) then ((Err NinvalidArg, h), s)
      else match fat16_alloc_handle_data s with
      | (None, s) => ((Err NoutOfMemory, h), s)
      | (Some hp, s) => ((Ok tt, set_private (Some hp) h), store_data hp (data_of p s) s)
      end
  end.

(** [fat16_file_read]: drivers/filesystem/fat16/fat16.c:688-754 *)
Definition fat16_file_read (h : handle_t) (size : Z) : ST vfs (Nerror * (list Z * Z) * handle_t) := fun s =>
  match hd_private h with
  | None => ((NinvalidArg, ([], 0), h), s)
  | Some p =>
      let file_data := data_of p s in
      if vd_is_directory file_data then ((NinvalidArg, ([], 0), h), s)
      else match vd_dev file_data with
      | None => ((NinvalidArg, ([], 0), h), s)
      | Some dv =>
          let offset := hd_offset h in
          if vd_size file_data <=? offset then ((Nok, ([], 0), h), s)
          else
            let remaining := vd_size file_data - offset in
            let to_read := if size <? remaining then size else remaining in
            let '((status, bytes), s) :=
              on_disk (file_read_loop (device_ dv s) (vd_first_cluster file_data) (S (Z.to_nat to_read))
                         offset to_read []) s in
            if is_err status then ((status, (bytes, 0), h), s) else ((Nok, (bytes, to_read), h), s)
      end
  end.

(** [fat16_file_write]: drivers/filesystem/fat16/fat16.c:756-763 *)
Definition fat16_file_write (h : handle_t) (buffer : list Z) : ST vfs (res Z * handle_t) :=
  ret (Err NreadOnly, h).

(** [fat16_file_close]: drivers/filesystem/fat16/fat16.c:765-776 *)
Definition fat16_file_close (h : handle_t) : ST vfs (res unit * handle_t) := fun s =>
  match hd_private h with
  | None => ((Ok tt, h), s)
  | Some p => ((Ok tt, set_private None h), fat16_free_handle_data (Some p) s)
  end.

(** The tables [fat16_register] fills. *)
Definition fat16_ops (t : fat16_tbl) : vfs_ops_t fat16_tbl fat16_ptr fat16_st :=
  match t with
  | DirOps => mk_ops (Some fat16_lookup) (Some fat16_dir_open) None None None (Some fat16_stat)
                None None None None None
  | FileOps => mk_ops None (Some fat16_file_open) (Some fat16_file_read) (Some fat16_file_write)
                 (Some fat16_file_close) (Some fat16_stat) None None None None None
  end.

#[export] Instance fat16_drivers : VfsDrivers fat16_tbl fat16_ptr fat16_st := { ops_table := fat16_ops }.

(** ** Mounting *)

(** [stack]: the local buffer of [resolve_namespace_path], see [Vfs]. *)
Context (stack : list Z).

Definition set_root_vnode (v : option nat) dev : device :=
  set_used (dev_used dev) (dev_diskno dev) (dev_mount_path dev) v (dev_read dev) (dev_write dev) dev.

(** [fat16_mount_internal]: drivers/filesystem/fat16/fat16.c:862-910 *)
Definition fat16_mount_internal (i : nat) : ST vfs (res unit) := fun s =>
  let dev := device_ i s in
  if p_info (dev_params dev) =? 0 then (Err NinvalidArg, s)
  else
    let dev := match dev_read dev with
               | Some _ => dev
               | None => set_used (dev_used dev) (dev_diskno dev) (dev_mount_path dev) (dev_root_vnode dev)
                           (Some rd_read) (dev_write dev) dev
               end in
    let '((status, dev), s) := on_disk (fat16_load_boot_sector dev) s in
    let s := set_device i dev s in
    match status with
    | Err e => (Err e, s)
    | Ok _ =>
        (root <-o{NoutOfMemory} vfs_alloc_vnode ;;
         fun s =>
           match fat16_fill_vnode root i true 0 0 (Z.lor (u64 (Z.shiftl (dev_diskno dev) 32)) 1) s with
           | (Err e, s) => (Err e, vfs_free_vnode (Some root) s)
           | (Ok _, s) =>
               let s := set_device i (set_root_vnode (Some root) dev) s in
               match vfs_mount stack (Some (dev_mount_path dev)) (Some (mk_fsys (Some root) (Some DirOps))) s with
               | (Ok _, s) => (Ok tt, s)
               | (Err e, s) =>
                   let s := fat16_free_vnode_data (vfs_get_vnode_private (Some root) s) s in
                   let s := vfs_free_vnode (Some root) s in
                   (Err e, set_device i (set_root_vnode None (device_ i s)) s)
               end
           end) s
    end.

Definition set_params (p : fat16_mount_params_t D) (path : list Z) dev : device :=
  mk_dev p (dev_used dev) (dev_diskno dev) (dev_boot dev) (dev_root_dir_sectors dev) (dev_first_fat_sector dev)
    (dev_first_root_dir_sector dev) (dev_first_data_sector dev) (dev_bytes_per_cluster dev)
    (dev_total_sectors dev) (dev_total_clusters dev) path (dev_root_vnode dev)
    (Some (default rd_read (p_read p))) (p_write p).

(** [fat16_mount]: drivers/filesystem/fat16/fat16.c:912-958 *)
Definition fat16_mount (diskno : Z) (userdata : option (fat16_mount_params_t D)) : ST vfs (res unit) := fun s =>
  match userdata with
  | None => (Err NinvalidArg, s)
  | Some params =>
      if p_info params =? 0 then (Err NinvalidArg, s)
      else match fat16_find_device diskno s with
      | Some _ => (Err NalreadyExists, s)
      | None =>
          (i <-o{NtooManyFileSystem} fat16_alloc_device diskno ;;
           fun s =>
             let s := set_device i (set_params params [] (device_ i s)) s in
             let path := match p_mount_path params with Some path => path | None => [SLASH] end in
             if (256 <=? length path)%nat then (Err NpathTooLong, fat16_free_device i s)
             else
               let s := set_device i (set_params params path (device_ i s)) s in
               match fat16_mount_internal i s with
               | (Ok _, s) => (Ok tt, s)
               | (Err e, s) => (Err e, fat16_free_device i s)
               end) s
      end
  end.

(** [fat16_unmount]: drivers/filesystem/fat16/fat16.c:960-980 *)
Definition fat16_unmount (diskno : Z) : ST vfs (res unit) := fun s =>
  match fat16_find_device diskno s with
  | None => (Err NnotFound, s)
  | Some i =>
      let path := dev_mount_path (device_ i s) in
      let s := if negb (char0 path =? 0) then (vfs_unmount stack (Some path) s).2 else s in
      let s := match dev_root_vnode (device_ i s) with
               | None => s
               | Some root =>
                   let s := fat16_free_vnode_data (vfs_get_vnode_private (Some root) s) s in
                   let s := vfs_free_vnode (Some root) s in
                   set_device i (set_root_vnode None (device_ i s)) s
               end in
      (Ok tt, fat16_free_device i s)
  end.

Definition status_of {A} (c : ST vfs (res A)) : ST vfs Nerror := fun s => let '(r, s) := c s in (res_status r, s).

(** [fat16_register]: drivers/filesystem/fat16/fat16.c:982-1008 *)
Definition fat16_register
  : ST (list (@filesystem_t vfs (option (fat16_mount_params_t D)))) Nerror :=
  filesystem_register (Some [102; 97; 116; 49; 54])
    (mk_fs_ops (Some (fun k u => status_of (fat16_mount k u))) (Some (fun k => status_of (fat16_unmount k))) None).
End driver.
Arguments fat16_st : clear implicits.
