(* ===== verification/Fat16Vfs.v ===== *)
(** * FAT16 volumes under the VFS

    The FAT16 driver keeps the contract of [VfsTree.DriverSpec]: its lookups
    answer from the directories of the mounted images.  The second half is the
    driver's operations on open files, and the way from a path to the bytes of
    the file it names. *)

From S2P Require Import Prelude Types Bytes FileIO Vfs VfsPath VfsTree Fat16 Fat16Props Fat16Read Fat16Fs.

(** An object of a volume: its device, and what a [fat16_vnode_data_t] says. *)
Record fat_node := mk_fat_node { fn_dev : nat; fn_dir : bool; fn_first : Z; fn_size : Z; fn_inode : Z }.

Definition vd_of (nd : fat_node) : fat16_vnode_data_t :=
  mk_vd (Some (fn_dev nd)) (fn_dir nd) (fn_first nd) (fn_size nd) (fn_inode nd).

Lemma vd_of_inj nd nd' : vd_of nd = vd_of nd' -> nd = nd'.
Proof. destruct nd, nd'. by intros [= -> -> -> -> ->]. Qed.

Section volumes.
Context {D : Type} `{RamdiskIO D}.
(** The mounted devices with their images, the disks' states, and whether
    reads may fail. *)
Context (mounted : nat -> option (fat16_device_t D * list Z)) (inv : D -> Prop) (rel : Prop).
Context (Hmounted : forall i dev img, mounted i = Some (dev, img) -> volume dev /\ on_image dev img inv rel).
Abbreviation vfs := (vfs fat16_tbl fat16_ptr (fat16_st D)).
Implicit Types (s : vfs) (nd : fat_node).

Definition fat_ok s : Prop :=
  inv (fat_disk (g_driver s)) /\
  forall i dev img, mounted i = Some (dev, img) -> g_devices (g_driver s) !! i = Some dev /\ dev_used dev = true.

Definition fat_node_at s (v : nat) nd : Prop :=
  is_Some (mounted (fn_dev nd)) /\
  exists vn p, g_vnodes s !! v = Some vn /\ vn_refcnt vn <> 0 /\
    vn_ops vn = Some (if fn_dir nd then DirOps else FileOps) /\ vn_private vn = Some (VnodeData p) /\
    g_vnode_data (g_driver s) !! p = Some (mk_slot true (vd_of nd)).

(** The handle [h] is open on the file [nd]. *)
Definition file_at s (h : handle_t fat16_ptr) nd : Prop :=
  fn_dir nd = false /\
  exists v q, hd_vnode h = Some v /\ fat_node_at s v nd /\ hd_private h = Some (HandleData q) /\
    g_handle_slots (g_driver s) !! q = Some (mk_slot true (vd_of nd)).

Definition free_slots s : nat := length (filter (fun sl => sl_in_use sl = false) (g_handle_slots (g_driver s))).

#[local] Instance fat16_objects : DriverObjects fat16_tbl fat16_ptr (fat16_st D) :=
  { Node := fat_node; node_at := fat_node_at; open_at := file_at; open_room := free_slots }.

Definition fat_child nd (name : list Z) : option fat_node :=
  if fn_dir nd then
    match mounted (fn_dev nd) with
    | None => None
    | Some (dev, img) =>
        match dir_search dev img (fn_first nd) (fn_first nd =? 0) name with
        | Ok (e, ino) => Some (mk_fat_node (fn_dev nd) (tst (de_Attr e) FAT16_ATTR_DIRECTORY)
                                 (de_FirstClusterLow e) (de_FileSize e) ino)
        | Err _ => None
        end
    end
  else None.

Definition free_vnodes s : nat := length (filter (fun v => vn_refcnt v = 0) (g_vnodes s)).
Definition free_data s : nat := length (filter (fun sl => sl_in_use sl = false) (g_vnode_data (g_driver s))).
Definition fat_room s : nat := Nat.min (free_vnodes s) (free_data s).

Lemma fat_ok_driver s s' : g_devices (g_driver s') = g_devices (g_driver s) ->
  inv (fat_disk (g_driver s')) -> fat_ok s -> fat_ok s'.
Proof. intros Hd Hi [_ Hm]. split; [done|]. intros i dev img Hx. rewrite Hd. eauto. Qed.

(** A vnode keeps its meaning when its slot and its private data are kept. *)
Lemma fat_node_at_keep s s' v nd :
  (forall u vn, g_vnodes s !! u = Some vn -> vn_refcnt vn <> 0 -> g_vnodes s' !! u = Some vn) ->
  (forall p sl, g_vnode_data (g_driver s) !! p = Some sl -> sl_in_use sl = true ->
     g_vnode_data (g_driver s') !! p = Some sl) ->
  fat_node_at s v nd -> fat_node_at s' v nd.
Proof.
  intros Hv Hp (Hm & vn & p & H1 & H2 & H3 & H4 & H5). split; [done|]. exists vn, p.
  split; [by apply Hv|]. split; [done|]. split; [done|]. split; [done|]. by apply Hp.
Qed.

(** Everything keeps its meaning when used vnodes and private data are kept. *)
Lemma fat_keeps s s' :
  (forall u vn, g_vnodes s !! u = Some vn -> vn_refcnt vn <> 0 -> g_vnodes s' !! u = Some vn) ->
  (forall p sl, g_vnode_data (g_driver s) !! p = Some sl -> sl_in_use sl = true ->
     g_vnode_data (g_driver s') !! p = Some sl) ->
  (forall q sl, g_handle_slots (g_driver s) !! q = Some sl -> sl_in_use sl = true ->
     g_handle_slots (g_driver s') !! q = Some sl) ->
  keeps s s'.
Proof.
  intros Hv Hp Hq. split; [intros v nd; by apply fat_node_at_keep|].
  intros h nd (Hdir & v & q & H1 & H2 & H3 & H4). split; [done|]. exists v, q.
  split; [done|]. split; [by eapply fat_node_at_keep|]. split; [done|]. by apply Hq.
Qed.

(** ** Allocation *)

Lemma alloc_vnode_spec s :
  match alloc_vnode s with
  | (Some v, s1) => s1 = with_vnodes (<[v := mk_vnode 0 0 None 1 None]> (g_vnodes s)) s /\
      (exists vn, g_vnodes s !! v = Some vn /\ vn_refcnt vn = 0) /\ free_vnodes s = S (free_vnodes s1)
  | (None, s1) => s1 = s /\ free_vnodes s = 0%nat
  end.
Proof.
  unfold alloc_vnode. destruct (list_find (fun v => vn_refcnt v = 0) (g_vnodes s)) as [[v vn]|] eqn:E.
  - apply list_find_Some in E as (Hl & Hr & _). split; [done|]. split; [by exists vn|].
    unfold free_vnodes. simpl. by apply (length_filter_insert _ _ _ vn).
  - split; [done|]. by apply list_find_free.
Qed.

Lemma alloc_slot_spec l :
  match alloc_slot l with
  | Some (p, l') => l' = <[p := mk_slot true zero_vd]> l /\
      (exists sl, l !! p = Some sl /\ sl_in_use sl = false) /\
      length (filter (fun sl => sl_in_use sl = false) l) =
      S (length (filter (fun sl => sl_in_use sl = false) l'))
  | None => length (filter (fun sl => sl_in_use sl = false) l) = 0%nat
  end.
Proof.
  unfold alloc_slot. destruct (list_find (fun sl => sl_in_use sl = false) l) as [[p sl]|] eqn:E.
  - apply list_find_Some in E as (Hl & Hr & _). split; [done|]. split; [by exists sl|].
    by apply (length_filter_insert _ _ _ sl).
  - by apply list_find_free.
Qed.

(** Filling a fresh vnode: it stands for the object, or there was no room. *)
Lemma fill_vnode_spec s v i (dir : bool) first size ino vn :
  g_vnodes s !! v = Some vn -> vn_refcnt vn = 1 -> is_Some (mounted i) ->
  let nd := mk_fat_node i dir first size ino in
  exists r s', fat16_fill_vnode v i dir first size ino s = (r, s') /\ same_tree s s' /\
    g_devices (g_driver s') = g_devices (g_driver s) /\ fat_disk (g_driver s') = fat_disk (g_driver s) /\
    g_handle_slots (g_driver s') = g_handle_slots (g_driver s) /\
    match r with
    | Ok _ => fat_node_at s' v nd /\ free_vnodes s' = free_vnodes s /\ free_data s = S (free_data s') /\
        (forall u vn, u <> v -> g_vnodes s !! u = Some vn -> g_vnodes s' !! u = Some vn) /\
        (forall p sl, g_vnode_data (g_driver s) !! p = Some sl -> sl_in_use sl = true ->
           g_vnode_data (g_driver s') !! p = Some sl)
    | Err e => e = NoutOfMemory /\ s' = s /\ free_data s = 0%nat
    end.
Proof.
  intros Hv Hr Hm nd. unfold fat16_fill_vnode, tryo, fat16_alloc_vnode_data.
  pose proof (alloc_slot_spec (g_vnode_data (g_driver s))) as Ha.
  destruct (alloc_slot _) as [[p l']|].
  2:{ exists (Err NoutOfMemory), s. by repeat split. }
  destruct Ha as (-> & (sl & Hsl & Hfree) & Hcount). eexists (Ok tt), _. split; [reflexivity|].
  assert (Hp : (p < length (g_vnode_data (g_driver s)))%nat) by by eapply lookup_lt_Some.
  split; [by repeat split|]. split; [done|]. split; [done|]. split; [done|]. split; [|split; [|split; [|split]]].
  - split; [done|]. eexists _, p. split; [|split; [|split; [|split]]]; cycle 4.
    + cbn. rewrite list_lookup_alter_eq, list_lookup_insert_eq by done. done.
    + cbn. rewrite list_lookup_alter_eq, Hv. done.
    + simpl. lia.
    + by destruct dir.
    + done.
  - unfold free_vnodes. cbn. by apply length_filter_alter.
  - unfold free_data. cbn. rewrite length_filter_alter by done. done.
  - intros u un Hne Hu. cbn. by rewrite list_lookup_alter_ne.
  - intros q ql Hq Hu. cbn. assert (Hne : q <> p) by (intros ->; congruence).
    rewrite list_lookup_alter_ne, list_lookup_insert_ne by done. done.
Qed.

(** ** Lookups *)

Lemma dir_search_err (dev : fat16_device_t D) img start root name e : dir_search dev img start root name = Err e -> is_err e = true.
Proof.
  unfold dir_search, search. destruct root.
  - destruct (dir_lookup _ name) as [[]|]; simpl; [done|]. case_if; simpl; by intros [= <-].
  - generalize (Z.to_nat (dev_total_clusters dev)) as n. intros n. revert start.
    induction n as [|n IH]; intros start; cbn [chain_search]; [by intros [= <-]|].
    case_if; [by intros [= <-]|]. unfold search. destruct (dir_lookup _ name) as [[]|]; [done|].
    case_if; [by intros [= <-]|]. case_if; [by intros [= <-]|]. case_if; [by intros [= <-]|]. apply IH.
Qed.

Lemma data_of_lookup s p b vd : g_vnode_data (g_driver s) !! p = Some (mk_slot b vd) -> data_of (VnodeData p) s = vd.
Proof. unfold data_of. by intros ->. Qed.

Lemma device_at s i dev img : fat_ok s -> mounted i = Some (dev, img) -> device_ i s = dev.
Proof. intros [_ Hm] Hi. unfold device_. by rewrite (proj1 (Hm i dev img Hi)). Qed.

Lemma on_disk_run {A} (c : ST D (res A)) spec s : fat_ok s -> runs inv rel c spec ->
  exists r d', on_disk c s = (r, on_driver (with_disk d') s) /\ fat_ok (on_driver (with_disk d') s) /\
    agrees rel r spec.
Proof.
  intros Hok Hc. destruct (Hc (fat_disk (g_driver s)) (proj1 Hok)) as (r & d' & E & Hd & Hr).
  exists r, d'. unfold on_disk. rewrite E. split; [done|]. split; [|done]. by apply (fat_ok_driver s).
Qed.

(** What a lookup in the directory [nd] gives. *)
Definition lookup_result s nd name (r : res (option nat)) s' : Prop :=
  match r with
  | Ok None => False
  | Ok (Some v') => exists nd', fat_child nd name = Some nd' /\ fat_node_at s' v' nd' /\ (fat_room s <= S (fat_room s'))%nat /\
      fat_ok (vfs_free_vnode (Some v') s') /\ keeps s (vfs_free_vnode (Some v') s') /\
      free_slots (vfs_free_vnode (Some v') s') = free_slots s
  | Err e => is_err e = true /\ (rel -> fat_child nd name <> None -> fat_room s = 0%nat)
  end.

(** A found entry gets a vnode. *)
Definition finish_lookup (i : nat) (entry : fat16_dir_entry_t) (inode : Z) : ST vfs (res (option nat)) :=
  vnode <-o{NoutOfMemory} vfs_alloc_vnode ;;
  fun s =>
    match fat16_fill_vnode vnode i (tst (de_Attr entry) FAT16_ATTR_DIRECTORY)
            (de_FirstClusterLow entry) (de_FileSize entry) inode s with
    | (Err e, s) => (Err e, vfs_free_vnode (Some vnode) s)
    | (Ok _, s) => (Ok (Some vnode), s)
    end.

Lemma free_vnode_lookup_ne s v u : u <> v -> g_vnodes (vfs_free_vnode (Some v) s) !! u = g_vnodes s !! u.
Proof. intros Hne. cbn. by rewrite list_lookup_alter_ne. Qed.

Lemma finish_lookup_spec s nd i e ino name : fat_ok s -> is_Some (mounted i) ->
  fat_child nd name = Some (mk_fat_node i (tst (de_Attr e) FAT16_ATTR_DIRECTORY)
                              (de_FirstClusterLow e) (de_FileSize e) ino) ->
  exists r s', finish_lookup i e ino s = (r, s') /\ fat_ok s' /\ same_tree s s' /\
    keeps s s' /\ free_slots s' = free_slots s /\ lookup_result s nd name r s'.
Proof.
  intros Hok Hm Hch. unfold finish_lookup, tryo, vfs_alloc_vnode.
  pose proof (alloc_vnode_spec s) as Ha. destruct (alloc_vnode s) as [[v|] s1].
  2:{ destruct Ha as [-> Hz]. exists (Err NoutOfMemory), s. split; [done|]. split; [done|]. split; [done|].
      split; [done|]. split; [done|]. split; [done|]. unfold fat_room. lia. }
  destruct Ha as (-> & (vn & Hv & Hr0) & Hcount).
  set (s1 := with_vnodes _ s) in *. assert (Hlt : (v < length (g_vnodes s))%nat) by by eapply lookup_lt_Some.
  assert (Hv1 : g_vnodes s1 !! v = Some (mk_vnode 0 0 None 1 None)) by (cbn; by rewrite list_lookup_insert_eq).
  assert (Hkeep : forall s2, (forall u vn, u <> v -> g_vnodes s !! u = Some vn -> g_vnodes s2 !! u = Some vn) ->
    (forall p sl, g_vnode_data (g_driver s) !! p = Some sl -> sl_in_use sl = true ->
       g_vnode_data (g_driver s2) !! p = Some sl) ->
    g_handle_slots (g_driver s2) = g_handle_slots (g_driver s) -> keeps s s2).
  { intros s2 H1 H2 H3. apply fat_keeps; [|done|by rewrite H3]. intros w wn Hw Hwr. apply H1; [|done]. congruence. }
  assert (Hs1 : forall u un, u <> v -> g_vnodes s !! u = Some un -> g_vnodes s1 !! u = Some un)
    by (intros u un Hne Hu; cbn; by rewrite list_lookup_insert_ne).
  destruct (fill_vnode_spec s1 v i (tst (de_Attr e) FAT16_ATTR_DIRECTORY) (de_FirstClusterLow e)
    (de_FileSize e) ino _ Hv1 eq_refl Hm) as (r & s2 & E & Hst & Hdev & Hdisk & Hslots & Hr).
  rewrite E. assert (Hfs : free_slots s2 = free_slots s) by (unfold free_slots; by rewrite Hslots).
  destruct r as [[]|er].
  - destruct Hr as (Hnode & Hfv & Hfd & Hvk & Hpk). eexists (Ok (Some v)), s2.
    assert (Hok2 : fat_ok s2) by (apply (fat_ok_driver s); [done| |done]; rewrite Hdisk; apply Hok).
    split; [done|]. split; [done|]. split; [done|]. split.
    + apply Hkeep; [|done|done]. intros u un Hne Hu. apply Hvk; [done|]. by apply Hs1.
    + split; [done|]. eexists. split; [exact Hch|]. split; [done|]. split.
      { unfold fat_room. rewrite Hfv. change (free_data s) with (free_data s1). lia. }
      split; [by apply (fat_ok_driver s2); [| apply Hok2|]|].
      split; [|done]. apply Hkeep; [|done|done]. intros u un Hne Hu. rewrite free_vnode_lookup_ne by done.
      apply Hvk; [done|]. by apply Hs1.
  - destruct Hr as (-> & -> & Hz). eexists (Err NoutOfMemory), _. split; [reflexivity|].
    split; [by apply (fat_ok_driver s); [| apply Hok|]|]. split; [done|]. split.
    + apply Hkeep; [|done|done]. intros u un Hne Hu. rewrite free_vnode_lookup_ne by done. by apply Hs1.
    + split; [done|]. split; [done|]. intros _ _. unfold fat_room. change (free_data s) with (free_data s1). lia.
Qed.

Lemma fat16_lookup_spec s v nd name : fat_ok s -> fat_node_at s v nd ->
  match node_op op_lookup (Some v) s with
  | None => fat_child nd name = None
  | Some (n, f) => n = v /\ exists r s', f v name s = (r, s') /\ fat_ok s' /\ same_tree s s' /\
      keeps s s' /\ free_slots s' = free_slots s /\ lookup_result s nd name r s'
  end.
Proof.
  intros Hok (Hm & vn & p & Hv & Hr & Hops & Hpriv & Hdata).
  rewrite node_op_some, (vnod_lookup _ _ _ Hv), Hops. cbn [ops_table fat16_drivers].
  destruct (fn_dir nd) eqn:Ed; cbn [fat16_ops op_lookup].
  2:{ unfold fat_child. by rewrite Ed. }
  split; [done|]. unfold fat16_lookup, vfs_get_vnode_private.
  rewrite (vnod_lookup _ _ _ Hv), Hpriv, (data_of_lookup _ _ _ _ Hdata). cbn [vd_of vd_dev vd_is_directory vd_first_cluster].
  rewrite Ed. cbn [negb].
  destruct Hm as [[dev img] Hm]. destruct (Hmounted _ _ _ Hm) as [Hvol Hon].
  rewrite (device_at s _ dev img) by done.
  destruct (on_disk_run _ _ s Hok (find_entry_run dev img inv rel Hvol Hon (fn_first nd) (fn_first nd =? 0) name))
    as (r & d' & E & Hok1 & Hagree).
  set (s1 := on_driver (with_disk d') s) in *.
  assert (Hk1 : keeps s s1) by by apply fat_keeps.
  destruct r as [[e ino]|e].
  - assert (Hds : dir_search dev img (fn_first nd) (fn_first nd =? 0) name = Ok (e, ino))
      by (by destruct Hagree as [<-|(_ & x & [=] & _)]).
    rewrite (tryb_ok _ _ _ _ _ E).
    assert (Hch : fat_child nd name = Some (mk_fat_node (fn_dev nd) (tst (de_Attr e) FAT16_ATTR_DIRECTORY)
        (de_FirstClusterLow e) (de_FileSize e) ino)) by (unfold fat_child; by rewrite Ed, Hm, Hds).
    destruct (finish_lookup_spec s1 nd (fn_dev nd) e ino name Hok1 ltac:(by eexists) Hch)
      as (r & s2 & E2 & Hok2 & Hst & Hk2 & Hfs & Hr2).
    exists r, s2. split; [exact E2|]. split; [done|]. split; [by etrans|]. split; [by etrans|]. split; [done|].
    unfold lookup_result in *. destruct r as [[v'|]|e']; [|done|done].
    destruct Hr2 as (nd' & Hx1 & Hx2 & Hx3 & Hx4 & Hx5 & Hx6). exists nd'. split; [done|]. split; [done|]. split; [done|].
    split; [done|]. split; [by etrans|done].
  - rewrite (tryb_err _ _ _ _ _ E). exists (Err e), s1. split; [done|]. split; [done|]. split; [done|].
    split; [done|]. split; [done|]. destruct Hagree as [Hs|(Hn & x & [= <-] & He)]; [|by split].
    symmetry in Hs. split; [by eapply dir_search_err|]. intros _ Hne. exfalso. apply Hne.
    unfold fat_child. by rewrite Ed, Hm, Hs.
Qed.

#[local] Instance fat16_spec : DriverSpec fat16_tbl fat16_ptr (fat16_st D).
Proof.
  refine {| child_of := (fat_child : Node -> _ -> option Node); drv_ok := fat_ok; room := fat_room; reliable := rel |}.
  - intros s s' [Hv Hx]. unfold fat_ok. by rewrite Hx.
  - intros s s' [Hv Hx]. apply fat_keeps; [by rewrite Hv|by rewrite Hx|by rewrite Hx].
  - intros s v nd nd' (_ & vn & p & H1 & _ & _ & H2 & H3) (_ & vn' & p' & H1' & _ & _ & H2' & H3').
    apply vd_of_inj. congruence.
  - intros s s' [Hv Hx]. unfold fat_room, free_vnodes, free_data, open_room, fat16_objects, free_slots. by rewrite Hv, Hx.
  - exact fat16_lookup_spec.
Defined.

(** ** Open files *)

(** The volume of an object, and the bytes of its chain. *)
Definition node_bytes nd (off n : Z) : option (list Z) :=
  '(dev, img) ← mounted (fn_dev nd); file_bytes dev img (fn_first nd) off n.

(** The chain of the file [nd] is long enough, and holds [d]. *)
Definition node_data nd (d : list Z) : Prop :=
  Z.of_nat (length d) = fn_size nd /\ node_bytes nd 0 (fn_size nd) = Some d.

Lemma node_bytes_length nd off n b : node_bytes nd off n = Some b -> length b = Z.to_nat n.
Proof.
  unfold node_bytes. destruct (mounted (fn_dev nd)) as [[dev img]|]; simpl; [|done].
  intros Hb%mapM_Some%Forall2_length. by rewrite length_seqZ in Hb.
Qed.

Lemma node_bytes_sub nd n d off k : node_bytes nd 0 n = Some d -> 0 <= off -> 0 <= k -> off + k <= n ->
  node_bytes nd off k = Some (zslice off k d).
Proof.
  unfold node_bytes. destruct (mounted (fn_dev nd)) as [[dev img]|]; simpl; [|done].
  intros Hd Ho Hk Hn. unfold file_bytes in *. apply mapM_Some in Hd. apply mapM_Some.
  pose proof (Forall2_length _ _ _ Hd) as Hl. rewrite length_seqZ in Hl. unfold zslice.
  apply Forall2_same_length_lookup. split; [rewrite length_seqZ, length_take, length_drop; lia|].
  intros i x y Hx Hy. apply lookup_seqZ in Hx as [-> Hi]. apply lookup_take_Some in Hy as [Hy _].
  rewrite lookup_drop in Hy.
  refine (Forall2_lookup_lr (fun x y => file_byte dev img (fn_first nd) x = Some y) _ _ _ _ _ Hd _ Hy).
  rewrite lookup_seqZ_lt by lia. f_equal. lia.
Qed.

(** What a read of [n] bytes at [off] transfers. *)
Definition transfer nd (off n : Z) : Z := Z.max 0 (Z.min n (fn_size nd - off)).

Lemma file_data_slot s q nd : g_handle_slots (g_driver s) !! q = Some (mk_slot true (vd_of nd)) ->
  data_of (HandleData q) s = vd_of nd.
Proof. unfold data_of. by intros ->. Qed.

Lemma file_read_run s h nd n : fat_ok s -> file_at s h nd -> 0 <= fn_size nd < 2 ^ 32 ->
  0 <= hd_offset h -> 0 <= n ->
  let len := transfer nd (hd_offset h) n in
  exists st bs got d', fat16_file_read h n s = (((st, (bs, got)), h), on_driver (with_disk d') s) /\
    fat_ok (on_driver (with_disk d') s) /\ Z.of_nat (length bs) <= len /\
    (if is_err st then got = 0
     else st = Nok /\ got = len /\ node_bytes nd (hd_offset h) len = Some bs) /\
    (rel -> is_Some (node_bytes nd (hd_offset h) len) -> is_err st = false).
Proof.
  intros Hok (Hdir & v & q & Hv & Hnode & Hp & Hq) Hsz Ho Hn len.
  unfold fat16_file_read. rewrite Hp, (file_data_slot _ _ _ Hq).
  cbn [vd_of vd_is_directory vd_dev vd_size vd_first_cluster]. rewrite Hdir.
  destruct Hnode as ([[dev img] Hm] & _). destruct (Hmounted _ _ _ Hm) as [Hvol Hon].
  assert (Hnb : forall k, node_bytes nd (hd_offset h) k = file_bytes dev img (fn_first nd) (hd_offset h) k)
    by (intros k; unfold node_bytes; by rewrite Hm).
  assert (Hsame : s = on_driver (with_disk (fat_disk (g_driver s))) s) by (by destruct s as [? ? ? ? ? []]).
  destruct (fn_size nd <=? hd_offset h) eqn:E; bool_simpl.
  { assert (Hlen : len = 0) by (subst len; unfold transfer; lia).
    exists Nok, [], 0, (fat_disk (g_driver s)). rewrite <- Hsame. split; [done|]. split; [done|].
    rewrite Hlen. split; [simpl; lia|]. split; [|done]. rewrite Hnb. done. }
  rewrite (device_at s _ dev img) by done.
  set (k := if n <? fn_size nd - hd_offset h then n else fn_size nd - hd_offset h).
  assert (Hk : k = len /\ 0 <= k <= fn_size nd - hd_offset h).
  { subst k len. unfold transfer. case_if; lia. }
  clearbody k. destruct Hk as [-> Hk]. clearbody len. unfold on_disk.
  destruct (file_read_loop_run dev img inv rel Hvol Hon (fn_first nd) (S (Z.to_nat len)) (hd_offset h) len []
    (fat_disk (g_driver s)) (proj1 Hok) ltac:(lia) ltac:(lia) ltac:(lia) ltac:(lia))
    as (st & bs & d' & E2 & Hd' & H1 & H2 & H3).
  rewrite E2. exists st, bs, (if is_err st then 0 else len), d'.
  assert (Hok' : fat_ok (on_driver (with_disk d') s)) by by apply (fat_ok_driver s).
  rewrite Hnb. destruct (is_err st) eqn:Es.
  - split; [done|]. split; [done|]. split; [simpl in H1; lia|]. split; [done|]. exact H3.
  - destruct (H2 eq_refl) as (-> & new & Hnew & ->). split; [done|]. split; [done|]. split; [simpl in H1 |- *; lia|].
    split; [done|]. exact H3.
Qed.

Lemma file_op s h nd {A} (op : vfs_ops_t fat16_tbl fat16_ptr (fat16_st D) -> option A) : file_at s h nd ->
  exists v, hd_vnode h = Some v /\ node_op op (hd_vnode h) s =
    match op (fat16_ops FileOps) with None => None | Some f => Some (v, f) end.
Proof.
  intros (Hdir & v & q & Hv & (_ & vn & p & Hl & _ & Hops & _) & _). exists v. split; [done|].
  rewrite Hv, node_op_some, (vnod_lookup _ _ _ Hl), Hops, Hdir. done.
Qed.

Lemma file_at_keep s s' h h' nd : g_vnodes s' = g_vnodes s -> g_vnode_data (g_driver s') = g_vnode_data (g_driver s) ->
  g_handle_slots (g_driver s') = g_handle_slots (g_driver s) ->
  hd_vnode h' = hd_vnode h -> hd_private h' = hd_private h -> file_at s h nd -> file_at s' h' nd.
Proof.
  intros H1 H2 H3 H4 H5 (Hdir & v & q & Hv & Hnode & Hp & Hq). split; [done|]. exists v, q.
  rewrite H3, H4, H5. split; [done|]. split; [|done]. unfold fat_node_at in *. by rewrite H1, H2.
Qed.

Lemma vfs_read_run s h nd n : fat_ok s -> file_at s h nd -> 0 <= fn_size nd < 2 ^ 32 ->
  0 <= hd_offset h < 2 ^ 64 -> 0 <= n ->
  let len := transfer nd (hd_offset h) n in
  exists st bs got h' s', vfs_read h n s = (((st, (bs, got)), h'), s') /\ fat_ok s' /\ file_at s' h' nd /\
    same_tree s s' /\ Z.of_nat (length bs) <= len /\ hd_offset h' = hd_offset h + got /\
    (if is_err st then got = 0
     else st = Nok /\ got = len /\ node_bytes nd (hd_offset h) len = Some bs) /\
    (rel -> is_Some (node_bytes nd (hd_offset h) len) -> is_err st = false).
Proof.
  intros Hok Hf Hsz Ho Hn len. unfold vfs_read.
  destruct (file_op s h nd op_read Hf) as (v & Hv & Hop). rewrite Hop. cbn [fat16_ops op_read].
  destruct (file_read_run s h nd n Hok Hf Hsz ltac:(lia) Hn) as (st & bs & got & d' & E & Hok' & Hlen & Hr & Hrel).
  rewrite E. fold len in Hlen, Hr, Hrel.
  assert (0 <= len < 2 ^ 32) by (subst len; unfold transfer; lia).
  destruct (is_err st) eqn:Es.
  - exists st, bs, got, h, (on_driver (with_disk d') s). split; [done|]. split; [done|].
    split; [by apply (file_at_keep s _ h)|]. split; [done|]. split; [done|]. subst got.
    split; [lia|]. rewrite Es. by split.
  - destruct Hr as (-> & -> & Hb).
    eexists Nok, bs, len, (advance len h), (on_driver (with_disk d') s). split; [done|]. split; [done|].
    split; [by apply (file_at_keep s _ h)|]. split; [done|]. split; [done|]. split; [cbn; rewrite uw_small; [done|]; subst len; unfold transfer; lia|].
    by split.
Qed.

(** ** Opening *)

Definition free_handles s : nat := length (filter (fun h => hd_refcnt h = 0) (g_handles s)).

Definition open_result s nd (flags off : Z) (r : res (handle_t fat16_ptr)) s' : Prop :=
  match r with
  | Ok h => file_at s' h nd /\ hd_offset h = off /\ hd_flags h = flags
  | Err e => is_err e = true /\ (fn_dir nd = false -> free_handles s = 0%nat \/ free_slots s = 0%nat)
  end.

(** The driver opens a file by copying its data to a slot of its own. *)
Lemma driver_open_spec s nd v flags off : fat_node_at s v nd ->
  match node_op op_open (Some v) s with
  | None => False
  | Some (n, f) => n = v /\ forall s1, keeps s s1 -> free_slots s1 = free_slots s ->
      exists r h s2, f v flags (mk_hd (Some v) off flags None 1) s1 = ((r, h), s2) /\ same_tree s1 s2 /\
        g_devices (g_driver s2) = g_devices (g_driver s1) /\ fat_disk (g_driver s2) = fat_disk (g_driver s1) /\
        g_vnodes s2 = g_vnodes s1 /\ keeps s1 s2 /\
        match r with
        | Ok _ => file_at s2 h nd /\ hd_offset h = off /\ hd_flags h = flags
        | Err e => is_err e = true /\ (fn_dir nd = false -> free_slots s = 0%nat)
        end
  end.
Proof.
  intros (Hm & vn & p & Hv & Hr & Hops & Hpriv & Hdata). rewrite node_op_some, (vnod_lookup _ _ _ Hv), Hops.
  cbn [ops_table fat16_drivers]. destruct (fn_dir nd) eqn:Ed; cbn [fat16_ops op_open]; (split; [done|]);
    intros s1 [Hk Hko] Hfs.
  { eexists (Err Nunsupported), _, s1. split; [reflexivity|]. split; [done|]. split; [done|]. split; [done|].
    split; [done|]. split; [done|]. by split. }
  destruct (Hk v nd) as (_ & vn1 & p1 & Hv1 & Hr1 & Hops1 & Hpriv1 & Hdata1).
  { split; [done|]. exists vn, p. rewrite Ed. done. }
  unfold fat16_file_open, vfs_get_vnode_private. rewrite (vnod_lookup _ _ _ Hv1), Hpriv1, (data_of_lookup _ _ _ _ Hdata1).
  cbn [vd_of vd_is_directory]. rewrite Ed. unfold fat16_alloc_handle_data.
  pose proof (alloc_slot_spec (g_handle_slots (g_driver s1))) as Ha.
  destruct (alloc_slot _) as [[q l']|].
  2:{ eexists (Err NoutOfMemory), _, s1. split; [reflexivity|]. split; [done|]. split; [done|]. split; [done|].
      split; [done|]. split; [done|]. split; [done|]. intros _. unfold free_slots in *. congruence. }
  destruct Ha as (-> & (sl & Hsl & Hfree) & Hcount).
  assert (Hq : (q < length (g_handle_slots (g_driver s1)))%nat) by by eapply lookup_lt_Some.
  eexists (Ok tt), _, _. split; [reflexivity|]. split; [by repeat split|]. split; [done|]. split; [done|].
  split; [done|].
  match goal with |- keeps _ ?x /\ _ => set (s2 := x) end.
  assert (Hkeep : keeps s1 s2).
  { apply fat_keeps; [done|done|]. intros q' sl' Hq' Hu. assert (q' <> q) by (intros ->; congruence). cbn.
    by rewrite list_lookup_alter_ne, list_lookup_insert_ne. }
  split; [done|]. split; [|done]. split; [done|]. exists v, q. split; [done|]. split; [|split; [done|]].
  - apply Hkeep. by apply Hk; split; [|exists vn, p; rewrite Ed].
  - cbn. rewrite list_lookup_alter_eq, list_lookup_insert_eq by done. cbn.
    by rewrite Hdata1.
Qed.

Lemma open_slot_spec s nd v flags off f : fat_ok s -> fat_node_at s v nd -> node_op op_open (Some v) s = Some (v, f) ->
  exists r s', open_slot v f flags off s = (r, s') /\ fat_ok s' /\ g_dentries s' = g_dentries s /\
    g_namespaces s' = g_namespaces s /\ keeps s s' /\ open_result s nd flags off r s'.
Proof.
  intros Hok Hnode Hop. pose proof (driver_open_spec s nd v flags off Hnode) as Hd. rewrite Hop in Hd.
  destruct Hd as [_ Hd]. unfold open_slot, tryo, alloc_handle.
  destruct (list_find (fun h => hd_refcnt h = 0) (g_handles s)) as [[i h0]|] eqn:Ef.
  2:{ exists (Err NoutOfMemory), s. split; [done|]. split; [done|]. split; [done|]. split; [done|].
      split; [done|]. split; [done|]. intros _. left. by apply list_find_free. }
  cbv zeta. match goal with |- context [f v flags ?h ?x] => set (s1 := x) end.
  assert (Hk1 : keeps s s1) by by apply keeps_same.
  destruct (Hd s1 Hk1 eq_refl) as (r & h & s2 & E & (Hde & _ & Hns & _) & Hdev & Hdisk & Hvn & Hk2 & Hr). rewrite E.
  set (s3 := with_handles (<[i:=free_handle h]> (g_handles s2)) s2).
  assert (Hk3 : keeps s s3) by (etrans; [exact Hk1|]; etrans; [exact Hk2|]; by apply keeps_same).
  assert (Hok3 : fat_ok s3) by (apply (fat_ok_driver s); [done| |done]; cbn; rewrite Hdisk; apply Hok).
  destruct r as [[]|e].
  - exists (Ok h), s3. split; [done|]. split; [done|]. split; [by cbn; rewrite Hde|]. split; [by cbn; rewrite Hns|].
    split; [done|]. destruct Hr as (Hf & Ho & Hfl). split; [|done].
    assert (Hk23 : keeps s2 s3) by by apply keeps_same. exact (proj2 Hk23 h nd Hf).
  - exists (Err e), s3. split; [done|]. split; [done|]. split; [by cbn; rewrite Hde|]. split; [by cbn; rewrite Hns|].
    split; [done|]. destruct Hr as [He Hr]. split; [done|]. intros Hdir. right. auto.
Qed.

(** C34: Opening a path opens the file it names.  With a tree that agrees with
    the mounted volumes, [vfs_open "ns:/n1/.../nk"] succeeds only when the
    directories of the image, searched from the namespace's root, lead to a
    regular file of that path, and the handle is then at the start of that
    file; every other open file keeps its meaning.  When the path does name a
    file, it can fail only for a disk error, a name too long or a full table. *)
Theorem open_reaches_file (stack ns : list Z) (names : list (list Z)) (flags : Z) (k : nat) (root : fat_node) s :
  length stack = S VFS_NAME_MAX -> component ns -> Forall (fun c => c <> COLON) ns ->
  (length ns <= VFS_NAME_MAX)%nat -> Forall component names ->
  tree_ok s -> fat_ok s -> find_namespace ns s = Some k -> denotes s (ns_root (nspc k s)) root ->
  exists r s', vfs_open stack (Some (full_path ns names)) flags s = (r, s') /\
    tree_ok s' /\ fat_ok s' /\ g_namespaces s' = g_namespaces s /\
    (forall h nd, file_at s h nd -> file_at s' h nd) /\
    match r with
    | Ok h => exists nd, descend root names = Some nd /\ file_at s' h nd /\ hd_offset h = 0 /\ hd_flags h = flags
    | Err e => is_err e = true /\
        (rel -> Forall (fun n => length n <= VFS_NAME_MAX)%nat names ->
         forall nd, descend root names = Some nd -> fn_dir nd = false ->
         (fat_room s < length names \/ free_dentries s < length names \/ free_handles s = 0 \/ free_slots s = 0)%nat)
    end.
Proof.
  intros Hst Hc Hcol Hlen Hnames Ht Hok Hk Hroot. unfold vfs_open.
  pose proof (resolve_full_path stack ns names s Hst Hc Hcol Hlen Hnames) as Er. rewrite Hk in Er.
  destruct (@walk_spec _ _ _ _ fat16_objects fat16_spec NfileNotFound names (ns_root (nspc k s)) root s eq_refl Ht Hok Hroot)
    as (r & s1 & E1 & Ht1 & Hok1 & Hw & Hr). rewrite E1 in Er. destruct Hw as (Hh & Hn & Hd & Hk1 & Hor & Hu & Hden).
  destruct r as [j|e].
  2:{ rewrite (tryb_err _ _ _ _ _ Er). exists (Err e), s1. split; [done|]. split; [done|]. split; [done|].
      split; [done|]. split; [apply Hk1|]. destruct Hr as [He Hr]. split; [done|]. intros Hrel Hf nd Hnd _.
      destruct (Hr Hrel Hf) as [?|?]; [congruence|by left|by right; left]. }
  destruct Hr as (nd & Hdesc & Hj). rewrite (tryb_ok _ _ _ _ _ Er). pose proof Hj as (_ & v & Hv & Hnode).
  pose proof (driver_open_spec s1 nd v flags 0 Hnode) as Hop. rewrite Hv.
  destruct (node_op op_open (Some v) s1) as [[n f]|] eqn:Eop; [|done]. destruct Hop as [-> _].
  destruct (open_slot_spec s1 nd v flags 0 f Hok1 Hnode Eop) as (r & s2 & E2 & Hok2 & Hde & Hns & Hk2 & Hr).
  exists r, s2. split; [exact E2|]. split; [by eapply tree_ok_mono|]. split; [done|]. split; [congruence|].
  split; [intros h hd Hf; by apply Hk2, Hk1|]. destruct r as [h|e].
  - destruct Hr as (Hf & Ho & Hfl). by exists nd.
  - destruct Hr as [He Hr]. split; [done|]. intros _ _ nd' Hnd' Hdir.
    assert (nd' = nd) as -> by congruence. destruct (Hr Hdir) as [Hz|Hz].
    + right. right. left. unfold free_handles in *. congruence.
    + right. right. right. change (free_slots s1 = free_slots s) in Hor. congruence.
Qed.

(** C35: Reading an open file gives its bytes.  [vfs_read] on a handle of a file
    transfers the bytes of the cluster chain from the handle's position on, as
    many as were asked for and the size of the file allows, advances the
    position by that number, and moves nothing but the position; at or past the
    end it transfers none.  On an error the position stays.  It succeeds when
    the chain is long enough and the disk does not fail, and never stores more
    than the number of bytes asked for. *)
Theorem vfs_read_exact (h : handle_t fat16_ptr) (nd : fat_node) (n : Z) s :
  fat_ok s -> file_at s h nd -> 0 <= fn_size nd < 2 ^ 32 -> 0 <= hd_offset h < 2 ^ 64 -> 0 <= n ->
  let len := Z.max 0 (Z.min n (fn_size nd - hd_offset h)) in
  exists st bs got h' s', vfs_read h n s = (((st, (bs, got)), h'), s') /\ fat_ok s' /\ file_at s' h' nd /\
    same_tree s s' /\ Z.of_nat (length bs) <= n /\ hd_offset h' = hd_offset h + got /\
    (if is_err st then got = 0
     else st = Nok /\ got = len /\ node_bytes nd (hd_offset h) len = Some bs) /\
    (rel -> is_Some (node_bytes nd (hd_offset h) len) -> is_err st = false).
Proof.
  intros Hok Hf Hsz Ho Hn len.
  destruct (vfs_read_run s h nd n Hok Hf Hsz Ho Hn) as (st & bs & got & h' & s' & E & H1 & H2 & H3 & H4 & H5).
  exists st, bs, got, h', s'. split; [exact E|]. split; [done|]. split; [done|]. split; [done|].
  split; [|exact H5]. revert H4. unfold transfer. lia.
Qed.
End volumes.
