(* ===== verification/Fat16Mount.v ===== *)
(** * Mounting a FAT16 volume

    From a VFS whose tree agrees with the mounted volumes, a successful mount
    at the root of a new namespace gives one whose tree agrees with them and
    the new volume; a failed one leaves them as they were. *)

From S2P Require Import Prelude Types Bytes FileIO Vfs VfsPath VfsTree Fat16 Fat16Props Fat16Read Fat16Fs Fat16Vfs.

Lemma list_alter_insert {A} (f : A -> A) (l : list A) i x : alter f i (<[i := x]> l) = <[i := f x]> l.
Proof. revert i. induction l as [|y l IH]; intros [|i]; [done..|]. cbn. f_equal. apply IH. Qed.

Section mount.
Context {D : Type} `{RamdiskIO D}.
Context (inv : D -> Prop) (rel : Prop).
Abbreviation vfs := (vfs fat16_tbl fat16_ptr (fat16_st D)).
Abbreviation device := (fat16_device_t D).
Abbreviation volumes := (nat -> option (device * list Z)).
Implicit Types (s : vfs) (mounted : volumes).

Definition volumes_ok mounted : Prop :=
  forall i dev img, mounted i = Some (dev, img) -> volume dev /\ on_image dev img inv rel.

(** The tree of [VfsTree] over these volumes. *)
Definition fat_spec mounted (Hm : volumes_ok mounted) := fat16_spec mounted inv rel Hm.
Definition fat_tree mounted s : Prop :=
  forall Hm : volumes_ok mounted, @tree_ok _ _ _ _ (fat16_objects mounted) (fat_spec mounted Hm) s.
Definition fat_denotes mounted s i nd : Prop := @denotes _ _ _ (fat16_objects mounted) s i nd.

(** A read function that has the image [img] on disk [diskno]. *)
Definition raw_image (read : fat16_disk_read_fn D) (diskno : Z) (img : list Z) : Prop :=
  forall d off n, inv d -> 0 <= off -> 0 < n -> off + n <= Z.of_nat (length img) ->
  exists st bs d', read diskno off n d = ((st, bs), d') /\ inv d' /\
    (length bs <= Z.to_nat n)%nat /\ (is_err st = false -> st = Nok /\ bs = zslice off n img) /\
    (rel -> is_err st = false).

Lemma raw_on_image dev read img : raw_image read (dev_diskno dev) img -> dev_read dev = Some read ->
  p_info (dev_params dev) <> 0 -> 512 * dev_total_sectors dev <= Z.of_nat (length img) ->
  on_image dev img inv rel.
Proof.
  intros Hr Hd Hi Hs. split; [done|]. intros d off n Hd' Ho Hn Hl.
  destruct (Hr d off n Hd' Ho Hn Hl) as (st & bs & d' & E & Hrest). exists st, bs, d'. split; [|done].
  unfold fat16_read_raw. rewrite (proj2 (Z.eqb_neq n 0)), Hd, (proj2 (Z.eqb_neq _ 0) Hi) by lia. done.
Qed.

(** One more volume. *)
Definition with_volume mounted (i : nat) (dev : device) (img : list Z) : volumes :=
  fun k => if decide (k = i) then Some (dev, img) else mounted k.

Lemma volumes_ok_add mounted i dev img : volumes_ok mounted -> volume dev -> on_image dev img inv rel ->
  volumes_ok (with_volume mounted i dev img).
Proof.
  intros Hm Hv Ho k dev' img'. unfold with_volume. case_decide; [by intros [= <- <-]|]. apply Hm.
Qed.

Lemma node_at_add mounted i dev img s v nd : fat_node_at mounted s v nd ->
  fat_node_at (with_volume mounted i dev img) s v nd.
Proof. intros (Hm & Hrest). split; [|done]. unfold with_volume. by case_decide. Qed.

Lemma fat_tree_add mounted i dev img s : volumes_ok mounted -> mounted i = None -> fat_tree mounted s ->
  fat_tree (with_volume mounted i dev img) s.
Proof.
  intros Hm Hi Ht Hm'. destruct (Ht Hm) as (Hl & kids & Hk). split; [done|]. exists kids. intros k Hu.
  destruct (Hk k Hu) as (Hs & Hnd & Hf). split; [done|]. split; [done|].
  assert (Hden : forall k nd, fat_denotes mounted s k nd -> fat_denotes (with_volume mounted i dev img) s k nd).
  { intros j nd (Hju & v & Hv & Hn). split; [done|]. exists v. split; [done|]. by apply node_at_add. }
  eapply Forall_impl; [exact Hf|]. intros c (Hc & Hp & nd & nd' & H1 & H2 & Hch). split; [done|]. split; [done|].
  exists nd, nd'. split; [by apply Hden|]. split; [by apply Hden|].
  destruct H1 as (_ & v & _ & (Hmn & _)). change (fat_child (with_volume mounted i dev img) nd (d_name (dent c s)) = Some nd').
  change (fat_child mounted nd (d_name (dent c s)) = Some nd') in Hch. revert Hch. unfold fat_child, with_volume.
  case_decide as Hx; [|done]. rewrite Hx, Hi in Hmn. by destruct Hmn.
Qed.

(** ** The device *)

Lemma alloc_device_spec diskno s :
  match fat16_alloc_device diskno s with
  | (Some i, s1) => s1 = set_device i (set_used true diskno [] None None None zero_dev) s /\
      exists dev, g_devices (g_driver s) !! i = Some dev /\ dev_used dev = false
  | (None, s1) => s1 = s /\ Forall (fun dev => dev_used dev = true) (g_devices (g_driver s))
  end.
Proof.
  unfold fat16_alloc_device. destruct (list_find (fun dev => dev_used dev = false) _) as [[i dev]|] eqn:E.
  - apply list_find_Some in E as (Hl & Hu & _). split; [done|]. by exists dev.
  - apply list_find_None in E. split; [done|]. eapply Forall_impl; [exact E|]. intros dev Hx. by apply not_false_iff_true.
Qed.

(** A change of one unused device and of the disk. *)
Record dev_change (i : nat) s s' : Prop := {
  dc_tree : same_tree s s';
  dc_vnodes : g_vnodes s' = g_vnodes s;
  dc_data : g_vnode_data (g_driver s') = g_vnode_data (g_driver s);
  dc_slots : g_handle_slots (g_driver s') = g_handle_slots (g_driver s);
  dc_len : length (g_devices (g_driver s')) = length (g_devices (g_driver s));
  dc_devices k : k <> i -> g_devices (g_driver s') !! k = g_devices (g_driver s) !! k;
  dc_disk : inv (fat_disk (g_driver s)) -> inv (fat_disk (g_driver s'));
}.

#[local] Instance dev_change_preorder i : PreOrder (dev_change i).
Proof.
  split; [by split|]. intros s s' s'' [] []. split; try congruence; [by transitivity s'| |auto].
  intros k Hk. rewrite dc_devices1, dc_devices0 by done. done.
Qed.

Lemma set_device_change i dev s : dev_change i s (set_device i dev s).
Proof.
  split; try done; cbn; [by rewrite length_insert|]. intros k Hk. by rewrite list_lookup_insert_ne.
Qed.

Lemma disk_change i d s : (inv (fat_disk (g_driver s)) -> inv d) -> dev_change i s (on_driver (with_disk d) s).
Proof. intros Hd. by split. Qed.

Lemma dev_change_keeps mounted i s s' : dev_change i s s' -> @keeps _ _ _ (fat16_objects mounted) s s'.
Proof. intros []. apply fat_keeps; [by rewrite dc_vnodes0|by rewrite dc_data0|by rewrite dc_slots0]. Qed.

Lemma dev_change_ok mounted i s s' : mounted i = None -> dev_change i s s' -> fat_ok mounted inv s -> fat_ok mounted inv s'.
Proof.
  intros Hi [] [Hd Hm]. split; [auto|]. intros k dev img Hk. rewrite dc_devices0 by (intros ->; congruence). eauto.
Qed.

Lemma dev_change_tree mounted i s s' : dev_change i s s' -> fat_tree mounted s -> fat_tree mounted s'.
Proof.
  intros Hc Ht Hm. pose proof (dc_tree _ _ _ Hc) as (Hd & _).
  eapply (@tree_ok_mono _ _ _ _ (fat16_objects mounted) (fat_spec mounted Hm) s s'); [done| |by apply Ht].
  by eapply dev_change_keeps.
Qed.

Lemma device_set i dev s : (i < length (g_devices (g_driver s)))%nat -> device_ i (set_device i dev s) = dev.
Proof. intros Hl. unfold device_. cbn. by rewrite list_lookup_insert_eq. Qed.

(** Loading the boot sector of an image. *)
Lemma load_boot_run dev read img d : inv d -> raw_image read (dev_diskno dev) img -> dev_read dev = Some read ->
  p_info (dev_params dev) <> 0 -> 512 <= Z.of_nat (length img) ->
  let b := boot_of (zslice 0 512 img) in
  exists r dev' d', fat16_load_boot_sector dev d = ((r, dev'), d') /\ inv d' /\
    dev_mount_path dev' = dev_mount_path dev /\ dev_diskno dev' = dev_diskno dev /\ dev_used dev' = dev_used dev /\
    match r with
    | Ok _ => boot_valid b /\ volume dev' /\ dev_total_sectors dev' = boot_total b /\ dev_read dev' = Some read /\
        dev_params dev' = dev_params dev
    | Err e => is_err e = true /\ (rel -> ~ boot_valid b)
    end.
Proof.
  intros Hd Hr Hrd Hi Hl b. destruct (Hr d 0 512 Hd ltac:(lia) ltac:(lia) ltac:(lia)) as (st & bs & d' & E & Hd' & _ & Hb & Hrel).
  assert (Eraw : fat16_read_raw dev 0 512 d = ((st, bs), d')).
  { unfold fat16_read_raw. cbn [Z.eqb]. by rewrite Hrd, (proj2 (Z.eqb_neq _ 0) Hi). }
  unfold fat16_load_boot_sector, read_local. rewrite (proj2 (Z.eqb_neq _ 0) Hi), Eraw.
  destruct (is_err st) eqn:Es.
  { exists (Err st), dev, d'. split; [done|]. split; [done|]. split; [done|]. split; [done|]. split; [done|].
    split; [done|]. intros Hrel'. specialize (Hrel Hrel'). congruence. }
  destruct (Hb eq_refl) as [-> ->]. fold b. pose proof (boot_of_ranges (zslice 0 512 img)) as Hbr. fold b in Hbr.
  pose proof (check_boot_spec dev b Hbr) as Hc. destruct (check_boot dev b) as [dev'|e].
  - destruct Hc as (Hv & ->). do 3 eexists. split; [reflexivity|]. split; [done|]. split; [done|]. split; [done|].
    split; [done|]. split; [done|]. split; [by apply set_geometry_volume|].
    split; [|done]. cbn [dev_total_sectors set_geometry]. apply uw_small.
    destruct Hbr as (_ & _ & _ & _ & Ht & _ & Ht32). unfold boot_total. case_decide; lia.
  - destruct Hc as (Hv & He). exists (Err e), (set_boot b dev), d'. split; [done|]. split; [done|]. split; [done|].
    split; [done|]. split; [done|]. by split.
Qed.

(** ** The namespace *)

Definition free_namespaces s : nat := length (filter (fun n => ns_in_use n = false) (g_namespaces s)).

Lemma find_namespace_none ns s k n : find_namespace ns s = None -> g_namespaces s !! k = Some n ->
  ~ (ns_in_use n = true /\ ns_name n = ns).
Proof.
  unfold find_namespace. intros Hf Hk. destruct (list_find _ _) as [[]|] eqn:E in Hf; [done|].
  apply list_find_None in E. rewrite Forall_forall in E. apply E. by eapply list_elem_of_lookup_2.
Qed.

(** What a change of the name space does to the tree of [mounted]. *)
Definition tree_kept mounted s s' : Prop :=
  fat_tree mounted s' /\ forall i ud, fat_denotes mounted s i ud -> fat_denotes mounted s' i ud.

Lemma insert_dentry_kept mounted s s' j d : volumes_ok mounted -> fat_tree mounted s ->
  g_dentries s !! j = Some d -> d_refcnt d = 0 -> same_drv s s' ->
  (exists x, g_dentries s' = <[j := x]> (g_dentries s) /\ d_first_child x = None) -> tree_kept mounted s s'.
Proof.
  intros Hm Ht Hj Hd Hs (x & Hx & Hfc). pose (SP := fat_spec mounted Hm).
  assert (Hk : @keeps _ _ _ (fat16_objects mounted) s s') by (by apply (@keeps_same _ _ _ _ (fat16_objects mounted) SP)).
  destruct (@tree_ok_insert _ _ _ _ (fat16_objects mounted) SP s s' j x) as (Ht1 & Hden1 & _);
    [by eapply lookup_lt_Some|unfold dent; by rewrite Hj|done|done|done|exact (Ht Hm)|].
  split; [intros Hm'; exact Ht1|exact Hden1].
Qed.

(** [vfs_mount] at the root of a new namespace: a new dentry for the root. *)
Lemma vfs_mount_root stack ns v s :
  length stack = S VFS_NAME_MAX -> component ns -> Forall (fun c => c <> COLON) ns ->
  (length ns <= VFS_NAME_MAX)%nat -> find_namespace ns s = None ->
  exists r s', vfs_mount stack (Some (full_path ns [])) (Some (mk_fsys (Some v) (Some DirOps))) s = (r, s') /\
    g_vnodes s' = g_vnodes s /\ g_driver s' = g_driver s /\
    match r with
    | Ok _ => forall mounted nd, volumes_ok mounted -> fat_tree mounted s -> fat_node_at mounted s v nd ->
        tree_kept mounted s s' /\
        exists k, find_namespace ns s' = Some k /\ fat_denotes mounted s' (ns_root (nspc k s')) nd
    | Err e => is_err e = true /\ (free_dentries s = 0%nat \/ free_namespaces s = 0%nat) /\
        forall mounted, volumes_ok mounted -> fat_tree mounted s -> tree_kept mounted s s'
    end.
Proof.
  intros Hst Hc Hcol Hlen Hns. unfold vfs_mount. cbn [mbind option_bind fsys_root fsys_ops].
  assert (Hfull : (length (full_path ns []) =? 0)%nat = false).
  { unfold full_path. rewrite length_app. simpl. apply Nat.eqb_neq. lia. }
  rewrite Hfull. unfold full_path.
  destruct (parse_namespace_spec ns [SLASH] stack Hc Hcol ltac:(lia) eq_refl) as (buf & Hp & Hb).
  unfold tryb, resolve_namespace_path. rewrite Hp, Hb. change (is_err Nok) with false. cbv iota.
  unfold get_namespace, is_empty_string.
  assert (Hc0 : (char0 ns =? 0) = false).
  { destruct Hc as (Hnn & Hz & _). apply not_true_is_false. intros E. by apply char0_nonzero in E. }
  rewrite Hc0, Hns. cbn [negb]. unfold alloc_dentry.
  destruct (list_find (fun d => d_refcnt d = 0) (g_dentries s)) as [[j d0]|] eqn:Ef.
  2:{ exists (Err NnotFound), s. split; [done|]. split; [done|]. split; [done|]. split; [done|].
      split; [left; by apply list_find_free|done]. }
  apply list_find_Some in Ef as (Hj & Hjf & _).
  set (s1 := with_dentries (<[j:=_]> (g_dentries s)) s).
  assert (Hjl : (j < length (g_dentries s))%nat) by by eapply lookup_lt_Some.
  unfold create_namespace. change (g_namespaces s1) with (g_namespaces s).
  destruct (list_find (fun n => ns_in_use n = false) (g_namespaces s)) as [[k n0]|] eqn:En.
  - apply list_find_Some in En as (Hk & Hku & _).
    assert (Hkl : (k < length (g_namespaces s))%nat) by by eapply lookup_lt_Some.
    set (s2 := with_namespaces _ s1). cbn [fst snd].
    assert (Hroot : ns_root (nspc k s2) = j) by (unfold nspc; cbn; by rewrite list_lookup_insert_eq).
    cbv beta iota zeta. change (is_root_path [SLASH]) with true. cbv beta iota zeta. rewrite Hroot.
    assert (Hj2 : dent j s2 = mk_dentry [] None None None None 1).
    { unfold dent. cbn. rewrite list_lookup_insert_eq by done. done. }
    rewrite Hj2. cbn [d_node].
    eexists (Ok tt), _. split; [reflexivity|]. split; [done|]. split; [done|].
    intros mounted nd Hm Ht Hnode. pose (SP := fat_spec mounted Hm).
    destruct (insert_dentry_kept mounted s s2 j d0 Hm Ht Hj Hjf ltac:(done) ltac:(by eexists)) as [Ht2 Hden2].
    assert (Hju : used s2 j) by (apply used_dent; rewrite Hj2; split; [cbn; by rewrite length_insert|done]).
    destruct (@tree_ok_set_node _ _ _ _ (fat16_objects mounted) SP s2 j v (Ht2 Hm) Hju ltac:(by rewrite Hj2)) as (Ht3 & Hden3 & Hroot3).
    split; [split; [intros Hm'; exact Ht3|intros i ud Hi; apply Hden3; by apply Hden2]|].
    exists k. split.
    + unfold find_namespace. cbn.
      match goal with |- context [list_find ?P ?l] =>
        assert (El : list_find P l = Some (k, mk_ns (take VFS_NAME_MAX ns) j j true)) end.
      { apply list_find_Some. split; [by rewrite list_lookup_insert_eq|]. split; [by rewrite take_ge|].
        intros i y Hi Hik. rewrite list_lookup_insert_ne in Hi by lia. by eapply find_namespace_none. }
      by rewrite El.
    + change (fat_denotes mounted (upd_dentry j (set_node (Some v)) s2) (ns_root (nspc k s2)) nd). rewrite Hroot.
      apply Hroot3. exact Hnode.
  - eexists (Err NnotFound), _. split; [reflexivity|]. split; [done|]. split; [done|]. split; [done|].
    split; [right; by apply list_find_free|]. intros mounted Hm Ht.
    eapply (insert_dentry_kept mounted s _ j d0 Hm Ht Hj Hjf); [done|].
    exists (mk_dentry [] None None None None 0). split; [|done].
    unfold free_dentry, upd_dentry. cbn. by rewrite list_alter_insert.
Qed.

(** Giving up a vnode of a volume that is not mounted. *)
Lemma drop_root_keeps mounted i s v p nd vn dev : mounted i = None -> fn_dev nd = i ->
  g_vnodes s !! v = Some vn -> vn_private vn = Some (VnodeData p) ->
  g_vnode_data (g_driver s) !! p = Some (mk_slot true (vd_of nd)) ->
  @keeps _ _ _ (fat16_objects mounted) s
    (set_device i dev (vfs_free_vnode (Some v) (fat16_free_vnode_data (Some (VnodeData p)) s))).
Proof.
  intros Hi Hnd Hv Hp Hd.
  assert (Hno : forall u ud, fat_node_at mounted s u ud -> u <> v /\ fn_dev ud <> i).
  { intros u ud (Hm & un & q & Hu & _ & _ & Hpu & Hdu). assert (fn_dev ud <> i) by (intros Hx; rewrite Hx, Hi in Hm; by destruct Hm).
    split; [|done]. intros ->. assert (un = vn) as -> by congruence. rewrite Hp in Hpu. injection Hpu as ->.
    assert (Hx : vd_of nd = vd_of ud) by congruence. apply vd_of_inj in Hx as ->. done. }
  assert (Hn : forall u ud, fat_node_at mounted s u ud -> fat_node_at mounted
    (set_device i dev (vfs_free_vnode (Some v) (fat16_free_vnode_data (Some (VnodeData p)) s))) u ud).
  { intros u ud Hu. destruct (Hno u ud Hu) as [Huv Hud]. destruct Hu as (Hm & un & q & Hu & Hr & Hops & Hpu & Hdu).
    split; [done|]. exists un, q. split; [cbn; by rewrite list_lookup_alter_ne|]. split; [done|]. split; [done|].
    split; [done|]. cbn. rewrite list_lookup_insert_ne; [done|]. intros ->.
    assert (Hx : vd_of nd = vd_of ud) by congruence. apply vd_of_inj in Hx as ->. done. }
  split; [exact Hn|]. intros h ud (Hdir & w & q & H1 & H2 & H3 & H4). split; [done|]. exists w, q.
  split; [done|]. split; [by apply Hn|done].
Qed.

(** ** What a step keeps of the volumes mounted so far *)

Definition kept mounted s s' : Prop :=
  (fat_tree mounted s -> fat_tree mounted s') /\ (fat_ok mounted inv s -> fat_ok mounted inv s') /\
  (forall j ud, fat_denotes mounted s j ud -> fat_denotes mounted s' j ud).

#[local] Instance kept_preorder mounted : PreOrder (kept mounted).
Proof. split; [by split|]. intros s s' s'' (? & ? & ?) (? & ? & ?). split; [auto|]. split; auto. Qed.

Lemma kept_keeps mounted s s' : same_tree s s' -> @keeps _ _ _ (fat16_objects mounted) s s' ->
  (fat_ok mounted inv s -> fat_ok mounted inv s') -> kept mounted s s'.
Proof.
  intros (Hd & _) Hk Hok. split; [|split; [done|]].
  - intros Ht Hm. by apply (@tree_ok_mono _ _ _ _ (fat16_objects mounted) (fat_spec mounted Hm) s s').
  - intros j ud. by apply (@denotes_mono _ _ _ (fat16_objects mounted)).
Qed.

Lemma fat_ok_same mounted s s' : g_devices (g_driver s') = g_devices (g_driver s) ->
  fat_disk (g_driver s') = fat_disk (g_driver s) -> fat_ok mounted inv s -> fat_ok mounted inv s'.
Proof. intros Hd Hk Hok. apply (fat_ok_driver _ _ s); [done| |done]. rewrite Hk. apply Hok. Qed.

Lemma dev_change_kept mounted i s s' : mounted i = None -> dev_change i s s' -> kept mounted s s'.
Proof.
  intros Hi Hc. apply kept_keeps; [by eapply dc_tree|by eapply dev_change_keeps|by eapply dev_change_ok].
Qed.

Lemma alloc_vnode_kept mounted s v vn x : g_vnodes s !! v = Some vn -> vn_refcnt vn = 0 ->
  kept mounted s (with_vnodes (<[v := x]> (g_vnodes s)) s).
Proof.
  intros Hv Hr. apply kept_keeps; [done| |by apply fat_ok_same].
  apply fat_keeps; [|done|done]. intros u un Hu Hur. cbn. rewrite list_lookup_insert_ne; [done|]. congruence.
Qed.

(** Vnodes that stand for nothing may change. *)
Lemma blank_node_keeps mounted s s' v vn : g_vnodes s !! v = Some vn -> vn_ops vn = None ->
  (forall u un, u <> v -> g_vnodes s !! u = Some un -> g_vnodes s' !! u = Some un) ->
  (forall p sl, g_vnode_data (g_driver s) !! p = Some sl -> sl_in_use sl = true ->
     g_vnode_data (g_driver s') !! p = Some sl) ->
  g_handle_slots (g_driver s') = g_handle_slots (g_driver s) ->
  @keeps _ _ _ (fat16_objects mounted) s s'.
Proof.
  intros Hv Ho Hvk Hpk Hs.
  assert (Hn : forall u ud, fat_node_at mounted s u ud -> fat_node_at mounted s' u ud).
  { intros u ud (Hm & un & p & Hu & Hr & Hops & Hp & Hd). split; [done|]. exists un, p.
    split; [|split; [done|]; split; [done|]; split; [done|]; by apply Hpk]. apply Hvk; [|done]. intros ->. congruence. }
  split; [exact Hn|]. intros h ud (Hdir & w & q & H1 & H2 & H3 & H4). split; [done|]. exists w, q.
  rewrite Hs. split; [done|]. split; [by apply Hn|done].
Qed.

(** A vnode freed before it stands for anything. *)
Lemma free_blank_kept mounted s v vn : g_vnodes s !! v = Some vn -> vn_ops vn = None -> kept mounted s (vfs_free_vnode (Some v) s).
Proof.
  intros Hv Ho. apply kept_keeps; [done| |by apply fat_ok_same].
  eapply blank_node_keeps; [done|done| |done|done]. intros u un Hne Hu. by rewrite free_vnode_lookup_ne.
Qed.

(** The directory at the root of the volume of device [i]. *)
Definition root_node (i : nat) (dev : device) : fat_node :=
  mk_fat_node i true 0 0 (Z.lor (u64 (Z.shiftl (dev_diskno dev) 32)) 1).

(** The vnode for the root of a volume. *)
Definition make_root (i : nat) (dev : device) : ST vfs (res nat) :=
  root <-o{NoutOfMemory} vfs_alloc_vnode ;;
  fun s =>
    match fat16_fill_vnode root i true 0 0 (Z.lor (u64 (Z.shiftl (dev_diskno dev) 32)) 1) s with
    | (Err e, s) => (Err e, vfs_free_vnode (Some root) s)
    | (Ok _, s) => (Ok root, s)
    end.

Lemma make_root_run mounted i dev img s : mounted i = None ->
  exists r s', make_root i dev s = (r, s') /\ kept mounted s s' /\ same_tree s s' /\
    g_devices (g_driver s') = g_devices (g_driver s) /\
    match r with
    | Ok v => fat_node_at (with_volume mounted i dev img) s' v (root_node i dev)
    | Err e => is_err e = true /\ fat_room s = 0%nat
    end.
Proof.
  intros Hi. unfold make_root, tryo, vfs_alloc_vnode.
  pose proof (alloc_vnode_spec s) as Ha. destruct (alloc_vnode s) as [[v|] s1].
  2:{ destruct Ha as [-> Hz]. exists (Err NoutOfMemory), s. split; [done|]. split; [done|]. split; [done|].
      split; [done|]. split; [done|]. unfold fat_room. lia. }
  destruct Ha as (-> & (vn & Hv & Hr0) & _). set (s1 := with_vnodes _ s).
  assert (Hk1 : kept mounted s s1) by by eapply alloc_vnode_kept.
  assert (Hv1 : g_vnodes s1 !! v = Some (mk_vnode 0 0 None 1 None))
    by (cbn; apply list_lookup_insert_eq; by eapply lookup_lt_Some).
  assert (Hm : is_Some (with_volume mounted i dev img i)) by (unfold with_volume; by rewrite decide_True).
  destruct (fill_vnode_spec _ s1 v i true 0 0 (Z.lor (u64 (Z.shiftl (dev_diskno dev) 32)) 1) _ Hv1 eq_refl Hm)
    as (r & s2 & E & Hst & Hdev & Hdisk & Hslots & Hr).
  rewrite E. destruct r as [[]|e].
  - destruct Hr as (Hnode & _ & _ & Hvk & Hpk). exists (Ok v), s2. split; [done|].
    split; [|split; [exact Hst|split; [exact Hdev|exact Hnode]]].
    transitivity s1; [done|]. apply kept_keeps; [done| |].
    + by eapply blank_node_keeps.
    + by apply fat_ok_same.
  - destruct Hr as (-> & -> & Hz). exists (Err NoutOfMemory), (vfs_free_vnode (Some v) s1). split; [done|].
    split; [transitivity s1; [done|]; by eapply free_blank_kept|]. split; [done|]. split; [done|]. split; [done|].
    unfold fat_room. change (free_data s1) with (free_data s) in Hz. lia.
Qed.

Lemma set_root_vnode_volume v (dev : device) : volume dev -> volume (set_root_vnode v dev).
Proof. intros []. by split. Qed.

(** Taking back the root of a volume that could not be mounted. *)
Lemma drop_root_kept mounted i s v nd dev0 img0 dev : mounted i = None -> fn_dev nd = i ->
  fat_node_at (with_volume mounted i dev0 img0) s v nd ->
  kept mounted s (set_device i dev (vfs_free_vnode (Some v)
    (fat16_free_vnode_data (vfs_get_vnode_private (Some v) s) s))).
Proof.
  intros Hi Hnd (_ & vn & p & Hv & _ & _ & Hp & Hd).
  assert (Hg : vfs_get_vnode_private (Some v) s = Some (VnodeData p)).
  { unfold vfs_get_vnode_private. cbn. by rewrite (vnod_lookup s v vn Hv). }
  rewrite Hg. apply kept_keeps; [done|by eapply drop_root_keeps|].
  intros Hok. eapply (dev_change_ok mounted i); [done|apply set_device_change|]. by apply (fat_ok_same mounted s).
Qed.

(** What [fat16_mount] promises, from [s]: the volume is there, or the error
    says why not. *)
Definition mount_result mounted (i : nat) (img : list Z) (ns : list Z) (dev : device) (full : Prop)
  s (r : res unit) s' : Prop :=
  match r with
  | Ok _ => exists dev' k, boot_valid (boot_of (zslice 0 512 img)) /\
      let mounted' := with_volume mounted i dev' img in
      volumes_ok mounted' /\ fat_tree mounted' s' /\ fat_ok mounted' inv s' /\
      find_namespace ns s' = Some k /\ fat_denotes mounted' s' (ns_root (nspc k s')) (root_node i dev) /\
      forall j ud, fat_denotes mounted s j ud -> fat_denotes mounted' s' j ud
  | Err e => is_err e = true /\ kept mounted s s' /\
      (rel -> boot_valid (boot_of (zslice 0 512 img)) -> full)
  end.

Lemma mount_result_from mounted i img ns dev dev' (full full' : Prop) s0 s r s' : kept mounted s0 s ->
  dev_diskno dev' = dev_diskno dev -> (full' -> full) ->
  mount_result mounted i img ns dev' full' s r s' -> mount_result mounted i img ns dev full s0 r s'.
Proof.
  intros Hk Hd Hf. destruct r as [[]|e]; cbn.
  - intros (dev1 & k & Hb & Hv & Ht & Ho & Hn & Hr & Hden). exists dev1, k. do 5 (split; [done|]).
    split; [unfold root_node in *; by rewrite <- Hd|]. intros j ud Hj. apply Hden. by apply Hk.
  - intros (He & Hk' & Hfull). split; [done|]. split; [by etrans|]. auto.
Qed.

Lemma denotes_add mounted i (dev : device) img s j ud : fat_denotes mounted s j ud ->
  fat_denotes (with_volume mounted i dev img) s j ud.
Proof. intros (Hu & v & Hv & Hn). split; [done|]. exists v. split; [done|]. by apply node_at_add. Qed.

(** Hanging the root [v] of a checked volume into the name space. *)
Lemma mount_root_run stack mounted i img ns v dev s :
  length stack = S VFS_NAME_MAX -> component ns -> Forall (fun c => c <> COLON) ns ->
  (length ns <= VFS_NAME_MAX)%nat -> find_namespace ns s = None ->
  volumes_ok mounted -> mounted i = None -> fat_tree mounted s -> fat_ok mounted inv s ->
  volume dev -> on_image dev img inv rel -> dev_used dev = true -> dev_mount_path dev = full_path ns [] ->
  boot_valid (boot_of (zslice 0 512 img)) ->
  g_devices (g_driver s) !! i = Some dev ->
  fat_node_at (with_volume mounted i dev img) s v (root_node i dev) ->
  exists r s',
    match vfs_mount stack (Some (dev_mount_path dev)) (Some (mk_fsys (Some v) (Some DirOps))) s with
    | (Ok _, s) => (Ok tt, s)
    | (Err e, s) =>
        let s := fat16_free_vnode_data (vfs_get_vnode_private (Some v) s) s in
        let s := vfs_free_vnode (Some v) s in
        (Err e, set_device i (set_root_vnode None (device_ i s)) s)
    end = (r, s') /\
    mount_result mounted i img ns dev (free_dentries s = 0%nat \/ free_namespaces s = 0%nat) s r s'.
Proof.
  intros Hst Hc Hcol Hlen Hns Hm Hi Ht Hok Hvol Hon Hu Hpath Hbv Hdev Hnode. rewrite Hpath.
  destruct (vfs_mount_root stack ns v s Hst Hc Hcol Hlen Hns) as (r & s1 & E & Hvn & Hdr & Hr).
  rewrite E. destruct r as [[]|e].
  - exists (Ok tt), s1. split; [done|]. set (mounted' := with_volume mounted i dev img).
    assert (Hm' : volumes_ok mounted') by by apply volumes_ok_add.
    destruct (Hr mounted' (root_node i dev) Hm') as ((Ht1 & Hden1) & k & Hk & Hroot);
      [by apply fat_tree_add|done|].
    exists dev, k. split; [done|]. split; [done|]. split; [done|]. split; [|split; [done|split; [done|]]].
    + split; [rewrite Hdr; apply Hok|]. intros j dev' img' Hj. rewrite Hdr. revert Hj. unfold mounted', with_volume.
      case_decide as Hji; [intros [= <- <-]; by rewrite Hji|]. apply Hok.
    + intros j ud Hj. apply Hden1. by apply denotes_add.
  - destruct Hr as (He & Hfree & Hr). eexists (Err e), _. split; [done|]. split; [done|]. split.
    + transitivity s1.
      { split; [intros _; by apply Hr|]. split; [|by apply Hr]. apply fat_ok_same; by rewrite Hdr. }
      eapply (drop_root_kept mounted i s1 v (root_node i dev)); [done|done|].
      destruct Hnode as (Hmn & vn & p & Hnode). split; [exact Hmn|]. exists vn, p. by rewrite Hvn, Hdr.
    + done.
Qed.

(** [fat16_mount_internal] as its parts. *)
Lemma mount_internal_parts stack i s read : p_info (dev_params (device_ i s)) <> 0 -> dev_read (device_ i s) = Some read ->
  fat16_mount_internal stack i s =
  (let '((status, dev), s) := on_disk (fat16_load_boot_sector (device_ i s)) s in
   let s := set_device i dev s in
   match status with
   | Err e => (Err e, s)
   | Ok _ =>
       match make_root i dev s with
       | (Err e, s) => (Err e, s)
       | (Ok root, s) =>
           let s := set_device i (set_root_vnode (Some root) dev) s in
           match vfs_mount stack (Some (dev_mount_path dev)) (Some (mk_fsys (Some root) (Some DirOps))) s with
           | (Ok _, s) => (Ok tt, s)
           | (Err e, s) =>
               let s := fat16_free_vnode_data (vfs_get_vnode_private (Some root) s) s in
               let s := vfs_free_vnode (Some root) s in
               (Err e, set_device i (set_root_vnode None (device_ i s)) s)
           end
       end
   end).
Proof.
  intros Hi Hr. unfold fat16_mount_internal. rewrite (proj2 (Z.eqb_neq _ 0) Hi), Hr.
  destruct (on_disk _ s) as [[[r|e] dev] s1]; [|done]. unfold make_root, tryo.
  destruct (vfs_alloc_vnode _) as [[root|] s2]; [|done].
  destruct (fat16_fill_vnode _ _ _ _ _ _ s2) as [[[]|e] s3]; [|done]. done.
Qed.

(** ** [fat16_mount] *)

Section mounting.
Context (stack ns : list Z) (mounted : volumes) (img : list Z).
Context (Hst : length stack = S VFS_NAME_MAX) (Hc : component ns) (Hcol : Forall (fun c => c <> COLON) ns)
        (Hlen : (length ns <= 253)%nat) (Hm : volumes_ok mounted).
Let b := boot_of (zslice 0 512 img).
Context (Hsz : 512 <= Z.of_nat (length img)) (Htot : 512 * boot_total b <= Z.of_nat (length img)).

Lemma mount_internal_run i read s : find_namespace ns s = None -> mounted i = None ->
  fat_tree mounted s -> fat_ok mounted inv s -> (i < length (g_devices (g_driver s)))%nat ->
  let dev := device_ i s in
  dev_used dev = true -> p_info (dev_params dev) <> 0 -> dev_read dev = Some read ->
  raw_image read (dev_diskno dev) img -> dev_mount_path dev = full_path ns [] ->
  exists r s', fat16_mount_internal stack i s = (r, s') /\
    mount_result mounted i img ns dev (fat_room s = 0%nat \/ free_dentries s = 0%nat \/ free_namespaces s = 0%nat) s r s'.
Proof.
  intros Hns Hi Ht Hok Hil dev Hu Hinfo Hread Hraw Hpath.
  rewrite (mount_internal_parts stack i s read Hinfo Hread). fold dev. unfold on_disk.
  destruct (load_boot_run dev read img (fat_disk (g_driver s)) (proj1 Hok) Hraw Hread Hinfo Hsz)
    as (r & dev1 & d' & E & Hd' & Hp1 & Hn1 & Hu1 & Hr). rewrite E.
  set (s1 := set_device i dev1 (on_driver (with_disk d') s)).
  assert (Hc1 : dev_change i s s1) by (etrans; [by apply (disk_change i d')|apply set_device_change]).
  assert (Hk1 : kept mounted s s1) by by eapply dev_change_kept.
  destruct r as [[]|e].
  2:{ destruct Hr as (He & Hb). exists (Err e), s1. split; [done|]. split; [done|]. split; [done|].
      intros Hrel Hbv. by destruct (Hb Hrel). }
  destruct Hr as (Hbv & Hvol & Htd & Hrd & Hpar).
  assert (Hon : on_image dev1 img inv rel).
  { apply (raw_on_image dev1 read); [by rewrite Hn1|done|by rewrite Hpar|by rewrite Htd]. }
  destruct (make_root_run mounted i (set_root_vnode None dev1) img s1 Hi) as (r & s2 & E2 & Hk2 & Hst2 & Hdev2 & Hr).
  change (make_root i (set_root_vnode None dev1)) with (make_root i dev1) in E2. rewrite E2.
  destruct r as [v|e].
  2:{ exists (Err e), s2. split; [done|]. destruct Hr as (He & Hroom). split; [done|].
      split; [by etrans|]. intros _ _. left. exact Hroom. }
  set (dev2 := set_root_vnode (Some v) dev1). set (s3 := set_device i dev2 s2).
  assert (Hk3 : kept mounted s s3).
  { transitivity s1; [done|]. transitivity s2; [done|]. eapply dev_change_kept; [done|apply set_device_change]. }
  assert (Hil2 : (i < length (g_devices (g_driver s2)))%nat) by (rewrite Hdev2; cbn; by rewrite length_insert).
  destruct Hst2 as (Hsd & Hsh & Hsn & Hsdn).
  assert (Hnode : fat_node_at (with_volume mounted i dev2 img) s3 v (root_node i dev2)).
  { destruct Hr as (_ & Hrest). split; [|exact Hrest]. unfold with_volume. by rewrite decide_True. }
  edestruct (mount_root_run stack mounted i img ns v dev2 s3) as (r & s' & E' & Hres);
    [done|done|done|unfold VFS_NAME_MAX; lia| |done|done|by apply Hk3|by apply Hk3|by apply set_root_vnode_volume| | | |done| |exact Hnode|].
  - revert Hns. unfold find_namespace. change (g_namespaces s3) with (g_namespaces s2). by rewrite Hsn.
  - apply (raw_on_image dev2 read); [by cbn; rewrite Hn1|done|by cbn; rewrite Hpar|by cbn; rewrite Htd].
  - cbn. by rewrite Hu1.
  - cbn. by rewrite Hp1.
  - cbn. by apply list_lookup_insert_eq.
  - exists r, s'. split; [exact E'|]. eapply mount_result_from; [exact Hk3|exact Hn1| |exact Hres].
    unfold free_dentries, free_namespaces. change (g_namespaces s3) with (g_namespaces s2).
    change (g_dentries s3) with (g_dentries s2). rewrite Hsd, Hsn. tauto.
Qed.

(** What stands in the way of mounting a valid volume. *)
Definition no_mount_room (diskno : Z) s : Prop :=
  fat16_find_device diskno s <> None \/
  Forall (fun dev => dev_used dev = true) (g_devices (g_driver s)) \/
  fat_room s = 0%nat \/ free_dentries s = 0%nat \/ free_namespaces s = 0%nat.

(** C33: From a VFS whose dentry tree agrees with the FAT16 volumes mounted so
    far, [fat16_mount] of a disk image at the root of the new namespace [ns]
    either succeeds, and then the boot sector was valid, the namespace's root
    stands for the root directory of the new volume, everything that was
    reachable stands for what it stood for, and the tree agrees with the old
    volumes and the new one; or it fails with an error and leaves the old
    volumes as they were.  With a disk that can be read and a valid boot
    sector it fails only if the disk is mounted already or a table is full. *)
Theorem mount_volume diskno params s : find_namespace ns s = None ->
  fat_tree mounted s -> fat_ok mounted inv s ->
  p_info params <> 0 -> p_mount_path params = Some (full_path ns []) ->
  raw_image (default rd_read (p_read params)) diskno img ->
  exists r s', fat16_mount stack diskno (Some params) s = (r, s') /\
    match r with
    | Ok _ => exists i dev' k, mounted i = None /\ boot_valid b /\
        let mounted' := with_volume mounted i dev' img in
        volumes_ok mounted' /\ fat_tree mounted' s' /\ fat_ok mounted' inv s' /\
        find_namespace ns s' = Some k /\
        fat_denotes mounted' s' (ns_root (nspc k s'))
          (mk_fat_node i true 0 0 (Z.lor (u64 (Z.shiftl diskno 32)) 1)) /\
        forall j nd, fat_denotes mounted s j nd -> fat_denotes mounted' s' j nd
    | Err e => is_err e = true /\ fat_tree mounted s' /\ fat_ok mounted inv s' /\
        (forall j nd, fat_denotes mounted s j nd -> fat_denotes mounted s' j nd) /\
        (rel -> boot_valid b -> no_mount_room diskno s)
    end.
Proof.
  intros Hns Ht Hok Hinfo Hpath Hraw.
  unfold fat16_mount. rewrite (proj2 (Z.eqb_neq _ 0) Hinfo).
  destruct (fat16_find_device diskno s) as [i0|] eqn:Ef.
  { eexists _, s. split; [done|]. cbn. split; [done|]. split; [done|]. split; [done|]. split; [done|].
    intros _ _. left. congruence. }
  unfold tryo. pose proof (alloc_device_spec diskno s) as Ha.
  destruct (fat16_alloc_device diskno s) as [[i|] s1].
  2:{ destruct Ha as [-> Hfull]. eexists _, s. split; [done|]. cbn. repeat (split; [done|]). intros _ _. right. by left. }
  destruct Ha as (-> & dev0 & Hd0 & Hfree0).
  assert (Hil : (i < length (g_devices (g_driver s)))%nat) by by eapply lookup_lt_Some.
  assert (Hi : mounted i = None).
  { destruct (mounted i) as [[dev1 img1]|] eqn:Em; [|done]. destruct (proj2 Hok i dev1 img1 Em). congruence. }
  rewrite Hpath, (proj2 (Nat.leb_gt _ _)) by (unfold full_path; rewrite length_app; simpl; lia).
  rewrite !device_set by (cbn; by rewrite ?length_insert).
  set (s1 := set_device i _ s). set (s2 := set_device i _ s1).
  set (dev := set_params params (full_path ns []) _). set (s3 := set_device i dev s2).
  assert (Hc3 : dev_change i s s3) by (repeat (etrans; [|apply set_device_change]); done).
  assert (Hk3 : kept mounted s s3) by by eapply dev_change_kept.
  assert (Hdev : device_ i s3 = dev) by (unfold s3; rewrite device_set; [done|cbn; by rewrite !length_insert]).
  destruct (mount_internal_run i (default rd_read (p_read params)) s3) as (r & s' & E & Hr);
    [done|done|by apply Hk3|by apply Hk3|cbn; by rewrite !length_insert|by rewrite Hdev..|].
  rewrite Hdev in Hr. rewrite E. destruct r as [[]|e].
  - eexists _, s'. split; [reflexivity|]. cbn in Hr. destruct Hr as (dev' & k & Hb & Hv & Ht' & Ho & Hk & Hroot & Hden).
    exists i, dev', k. do 6 (split; [done|]). split; [exact Hroot|]. intros j nd Hj. apply Hden. by apply Hk3.
  - eexists _, _. split; [reflexivity|]. cbn in Hr. destruct Hr as (He & Hk & Hfull). split; [done|].
    assert (Hkf : kept mounted s (fat16_free_device i s')).
    { etrans; [exact Hk3|]. etrans; [exact Hk|]. eapply dev_change_kept; [done|apply set_device_change]. }
    split; [by apply Hkf|]. split; [by apply Hkf|]. split; [apply Hkf|].
    intros Hrel Hb. right. right. by apply Hfull.
Qed.
End mounting.
End mount.
