(* ===== verification/FsExamples.v ===== *)
(** * A volume on a RAM disk

    A RAM disk keeps the reading contract that mounting asks for, and a small
    FAT16 volume on one: the concrete runs of the theorems about paths, the
    directory search, mounting, opening and reading. *)

From S2P Require Import Prelude Types Mem Memory Bytes Ramdisk Vfs VfsPath VfsTree Fat16 Fat16Props Fat16Read Fat16Fs Fat16Vfs Fat16Mount.

(** ** RAM disks as disks with an image *)

Section ramdisk.
Context (k lo size buf : Z) (table : list ramdisk_t) (m0 : mem) (i : nat) (rd : ramdisk_t).
Context (Hfind : ramdisk_find k (mk_rds table m0) = Some (i, rd)) (Hlo : rd_offset rd = lo) (Hsz : rd_size rd = size).
Context (Hlo0 : 0 <= lo) (Hsz0 : 0 <= size) (Hend : lo + size < 2 ^ 64).
Context (Hbuf : 0 < buf) (Hbe : buf + size < 2 ^ 64) (Hdj : disjoint_from buf size lo size).

Definition same_disk (s : rd_st) : Prop :=
  g_ramdisks s = table /\ forall a, lo <= a < lo + size -> ld8 (rd_mem s) a = ld8 m0 a.

Lemma ramdisk_raw_image : raw_image same_disk True (@rd_read _ (ramdisk_io buf)) k (ld_bytes m0 lo size).
Proof.
  intros d off n [Ht Hm] Ho Hn Hl. rewrite length_ld_bytes in Hl. unfold disjoint_from in Hdj.
  assert (Hf : ramdisk_find k d = Some (i, rd)) by (unfold ramdisk_find in *; cbn in Hfind; by rewrite Ht).
  unfold rd_read, ramdisk_io, ramdisk_read. rewrite Hf, Hlo, Hsz.
  rewrite (proj2 (Z.eqb_neq buf 0)), (proj2 (Z.eqb_neq n 0)) by lia. cbn [orb].
  rewrite (proj2 (range_within_spec off n size ltac:(lia) ltac:(lia))) by lia.
  rewrite (proj2 (range_within_spec buf n 0xFFFFFFFFFFFFFFFF ltac:(lia) ltac:(lia))) by lia. cbn [negb].
  rewrite uw_small by lia. set (m' := memcpy _ _ _ _).
  assert (Hc : mem_upd (rd_mem d) m' buf (buf + n) (copied buf (lo + off) (rd_mem d))) by (apply memcpy_upd; lia).
  change (is_err Nok) with false. cbn [rd_mem rd_set_mem].
  do 3 eexists. split; [reflexivity|]. split; [split; [exact Ht|]|split; [rewrite length_ld_bytes; lia|split; [|done]]].
  - intros a Ha. cbn [rd_mem rd_set_mem]. rewrite Hc. case_if; [lia|]. by apply Hm.
  - intros _. split; [done|]. unfold zslice. rewrite ld_bytes_slice by lia.
    rewrite (ld_bytes_copied _ _ _ _ _ Hc). apply ld_bytes_ext. intros b Hb. apply Hm. lia.
Qed.
End ramdisk.

Lemma ld_bytes_lookup m a n off : 0 <= off < n -> ld_bytes m a n !! Z.to_nat off = Some (ld8 m (a + off)).
Proof.
  intros. unfold ld_bytes. rewrite list_lookup_fmap, lookup_seqZ_lt by lia. simpl. by rewrite Z2Nat.id by lia.
Qed.

(** ** The volume

    Disk 5 at 0x100000, 4103 sectors: the boot sector, a FAT of 16 sectors
    with the chain of cluster 2 ending there, one sector of root directory with
    the entry HELLO.TXT, and "Hello" in the first data sector. *)

Definition LO : Z := 0x100000.
Definition SIZE : Z := 2100736.
Definition BUF : Z := 0x1000000.

Definition ex_mem : mem :=
  st_bytes (LO + 11) [0; 2; 1; 1; 0; 1; 16; 0; 7; 16; 0; 16; 0]
    (st_bytes (LO + 510) [0x55; 0xAA]
      (st_bytes (LO + 516) [0xFF; 0xFF]
        (st_bytes (LO + 8704) [72; 69; 76; 76; 79; 32; 32; 32; 84; 88; 84; 0x20]
          (st_bytes (LO + 8730) [2; 0; 5; 0; 0; 0]
            (st_bytes (LO + 9216) [72; 101; 108; 108; 111] ∅))))).

Definition ex_img : list Z := ld_bytes ex_mem LO SIZE.
Definition ex_disks : list ramdisk_t := mk_rd 5 LO SIZE true :: replicate 15 zero_rd.
Definition ex_rd : rd_st := mk_rds ex_disks ex_mem.
Definition ex_same : rd_st -> Prop := same_disk LO SIZE ex_disks ex_mem.
#[local] Instance ex_io : RamdiskIO rd_st := ramdisk_io BUF.

Lemma ex_length : Z.of_nat (length ex_img) = SIZE.
Proof. unfold ex_img. rewrite length_ld_bytes. by apply Z2Nat.id. Qed.

Lemma ex_slice off n : 0 <= off -> 0 <= n -> off + n <= SIZE -> zslice off n ex_img = ld_bytes ex_mem (LO + off) n.
Proof. intros. unfold zslice, ex_img. by apply ld_bytes_slice. Qed.

Lemma ex_lookup off : 0 <= off < SIZE -> ex_img !! Z.to_nat off = Some (ld8 ex_mem (LO + off)).
Proof. apply ld_bytes_lookup. Qed.

Lemma ex_raw : raw_image ex_same True rd_read 5 ex_img.
Proof.
  apply (ramdisk_raw_image 5 LO SIZE BUF ex_disks ex_mem 0 (mk_rd 5 LO SIZE true));
    [reflexivity|reflexivity|reflexivity|unfold LO, SIZE, BUF, disjoint_from; lia..].
Qed.

Lemma ex_same_rd : ex_same ex_rd.
Proof. done. Qed.

Definition ex_boot : fat16_boot_sector_t := mk_boot 512 1 1 1 16 4103 16 0 0xAA55.

Lemma ex_boot_of : boot_of (zslice 0 512 ex_img) = ex_boot.
Proof. rewrite ex_slice by done. by vm_compute. Qed.

Lemma ex_boot_valid : boot_valid ex_boot.
Proof. unfold boot_valid. split_and!; try done. by exists 0. Qed.

(** ** The mounted volume *)

Definition ex_params : fat16_mount_params_t rd_st := mk_params (Some [100; 58; 47]) 1 None None.
Definition ex_dev : fat16_device_t rd_st :=
  mk_dev ex_params true 5 ex_boot 1 1 17 18 512 4103 4085 [100; 58; 47] (Some 0%nat) (Some rd_read) None.

Lemma ex_volume : volume ex_dev.
Proof. by split. Qed.

Lemma ex_on_image : on_image ex_dev ex_img ex_same True.
Proof. apply (raw_on_image _ _ _ rd_read); [exact ex_raw|reflexivity|discriminate|by rewrite ex_length]. Qed.

Definition ex_mounted : nat -> option (fat16_device_t rd_st * list Z) := with_volume (fun _ => None) 0 ex_dev ex_img.

Lemma ex_volumes : volumes_ok ex_same True ex_mounted.
Proof. apply volumes_ok_add; [done|exact ex_volume|exact ex_on_image]. Qed.

(** HELLO.TXT *)
Definition ex_name : list Z := [72; 69; 76; 76; 79; 46; 84; 88; 84].
Definition ex_entry : fat16_dir_entry_t := mk_dirent [72; 69; 76; 76; 79; 32; 32; 32; 84; 88; 84] 0x20 2 5.
Definition ex_root : fat_node := mk_fat_node 0 true 0 0 (5 * 2 ^ 32 + 1).
Definition ex_file : fat_node := mk_fat_node 0 false 2 5 (5 * 2 ^ 32).

Lemma ex_root_lookup : dir_lookup (sector_entries ex_img 17 1) ex_name = Some (0%nat, ex_entry).
Proof. unfold sector_entries. rewrite ex_slice by done. by vm_compute. Qed.

Lemma ex_child : fat_child ex_mounted ex_root ex_name = Some ex_file.
Proof.
  unfold fat_child, ex_mounted, with_volume. cbn [fn_dir ex_root fn_dev fn_first]. rewrite decide_True by done.
  unfold dir_search. cbn [Z.eqb]. cbv iota.
  change (dev_first_root_dir_sector ex_dev) with 17. change (dev_root_dir_sectors ex_dev) with 1.
  unfold search. rewrite ex_root_lookup. reflexivity.
Qed.

Lemma directory_search_witness :
  exists d', fat16_find_entry_in_directory ex_dev 2 true ex_name ex_rd = (Ok (ex_entry, 5 * 2 ^ 32), d') /\ ex_same d'.
Proof.
  destruct (directory_search ex_dev ex_img ex_same True ex_volume ex_on_image 2 true ex_name ex_rd ex_same_rd eq_refl)
    as (r & d' & E & Hd & Hr & _). exists d'. split; [|exact Hd]. specialize (Hr eq_refl).
  change (dev_first_root_dir_sector ex_dev) with 17 in Hr. change (dev_root_dir_sectors ex_dev) with 1 in Hr.
  rewrite ex_root_lookup in Hr. destruct Hr as [->|[Hr _]]; [exact E|by destruct (Hr I)].
Defined.

(** The VFS with namespace "d" on it, and the one with its file open. *)
Definition ex_s1 (vnodes : list (vnode fat16_tbl fat16_ptr)) (data handles : list fat16_slot_t) : vfs fat16_tbl fat16_ptr (fat16_st rd_st) :=
  mk_vfs (mk_dentry [] None None None None 1 :: mk_dentry [] (Some 0%nat) None None None 1 :: replicate 62 zero_dentry)
    (replicate VFS_MAX_HANDLES zero_hd)
    (mk_ns [] 0 0 true :: mk_ns [100] 1 1 true :: replicate 14 zero_ns) (Some 0%nat)
    (mk_vnode (5 * 2 ^ 32 + 1) 2 (Some DirOps) 1 (Some (VnodeData 0)) :: vnodes)
    (mk_fat (ex_dev :: replicate 7 zero_dev) (mk_slot true (vd_of ex_root) :: data) handles ex_rd).
Definition ex_mnt := ex_s1 (replicate 127 zero_vnode) (replicate 127 zero_slot) (replicate FAT16_MAX_HANDLES zero_slot).
Definition ex_open :=
  ex_s1 (mk_vnode (5 * 2 ^ 32) 1 (Some FileOps) 2 (Some (VnodeData 1)) :: replicate 126 zero_vnode)
    (mk_slot true (vd_of ex_file) :: replicate 126 zero_slot)
    (mk_slot true (vd_of ex_file) :: replicate 63 zero_slot).
Definition ex_stack : list Z := replicate 256 0.

Lemma ex_s1_ok v p h : fat_ok ex_mounted ex_same (ex_s1 v p h).
Proof.
  split; [exact ex_same_rd|]. intros i dev img. unfold ex_mounted, with_volume. case_decide; [|done].
  intros [= <- <-]. by subst i.
Qed.

Lemma ex_root_at v p h : fat_denotes ex_mounted (ex_s1 v p h) 1 ex_root.
Proof.
  split; [by eexists|]. exists 0%nat. split; [done|]. split; [by eexists|]. by do 2 eexists.
Qed.

Lemma ex_component : component [100] /\ Forall (fun c => c <> COLON) [100].
Proof. split; [split; [done|split; by repeat constructor]|by repeat constructor]. Qed.

Lemma ex_name_component : Forall component [ex_name].
Proof. constructor; [|done]. split; [done|split; by repeat constructor]. Qed.

(** A tree in which nothing is cached. *)
Lemma leafless mounted s : length (g_dentries s) = VFS_MAX_DENTRIES ->
  Forall (fun d => d_first_child d = None) (g_dentries s) -> fat_tree ex_same True mounted s.
Proof.
  intros Hl Hf Hm. split; [done|]. exists (fun _ => []). intros i (d & Hd & _).
  split; [|by split; constructor]. simpl. unfold dent. rewrite Hd. simpl.
  rewrite Forall_lookup in Hf. by eapply Hf.
Qed.

Lemma ex_mnt_tree : fat_tree ex_same True ex_mounted ex_mnt.
Proof. apply leafless; [reflexivity|]. repeat constructor. Qed.

Lemma ex_mnt_ns : find_namespace [100] ex_mnt = Some 1%nat.
Proof. reflexivity. Qed.
Lemma ex_mnt_root : ns_root (nspc 1 ex_mnt) = 1%nat.
Proof. reflexivity. Qed.

Lemma path_roundtrip_witness :
  resolve_path_internal ex_stack (full_path [100] [ex_name]) ex_mnt = walk NfileNotFound [ex_name] 1%nat ex_mnt.
Proof.
  destruct ex_component as [Hc Hcol].
  destruct (path_roundtrip ex_stack [100] [ex_name] ex_mnt eq_refl Hc Hcol ltac:(by apply Nat.leb_le) ex_name_component) as [E _].
  rewrite ex_mnt_ns in E. cbv iota in E. rewrite ex_mnt_root in E. exact E.
Defined.

Definition ex_spec := fat_spec ex_same True ex_mounted ex_volumes.

Lemma ex_descend : @descend _ _ _ _ (fat16_objects ex_mounted) ex_spec ex_root [ex_name] = Some ex_file.
Proof.
  cbn [descend]. change (fat_child ex_mounted ex_root ex_name ≫= (fun c => Some c) = Some ex_file). by rewrite ex_child.
Qed.

Lemma ex_short : Forall (fun n : list Z => length n <= VFS_NAME_MAX)%nat [ex_name].
Proof. constructor; [by apply Nat.leb_le|done]. Qed.

Lemma ex_rooms : ((fat_room ex_mnt < 1 \/ free_dentries ex_mnt < 1 \/ free_handles ex_mnt = 0 \/ free_slots ex_mnt = 0)%nat) -> False.
Proof.
  change (fat_room ex_mnt) with 127%nat. change (free_dentries ex_mnt) with 62%nat.
  change (free_handles ex_mnt) with 64%nat. change (free_slots ex_mnt) with 64%nat. lia.
Qed.

Lemma resolve_refines_witness :
  exists j s', resolve_path_internal ex_stack (full_path [100] [ex_name]) ex_mnt = (Ok j, s') /\
    fat_denotes ex_mounted s' j ex_file.
Proof.
  destruct ex_component as [Hc Hcol].
  destruct (@resolve_refines _ _ _ _ (fat16_objects ex_mounted) ex_spec ex_stack [100] [ex_name] 1 ex_root ex_mnt
    eq_refl Hc Hcol ltac:(by apply Nat.leb_le) ex_name_component (ex_mnt_tree ex_volumes) (ex_s1_ok _ _ _) eq_refl
    (ex_root_at _ _ _)) as (r & s' & E & _ & _ & _ & Hr).
  destruct r as [j|e].
  - destruct Hr as (nd & Hnd & Hden). rewrite ex_descend in Hnd. injection Hnd as <-. exists j, s'. split; [exact E|exact Hden].
  - destruct Hr as [_ Hr]. destruct ex_rooms. rewrite ex_descend in Hr.
    destruct (Hr I ex_short) as [H|H]; [done|left; exact H|right; left; exact H].
Defined.

Lemma open_reaches_file_witness :
  exists h s', vfs_open ex_stack (Some (full_path [100] [ex_name])) 1 ex_mnt = (Ok h, s') /\
    file_at ex_mounted s' h ex_file /\ hd_offset h = 0.
Proof.
  destruct ex_component as [Hc Hcol].
  destruct (open_reaches_file ex_mounted ex_same True ex_volumes ex_stack [100] [ex_name] 1 1 ex_root ex_mnt
    eq_refl Hc Hcol ltac:(by apply Nat.leb_le) ex_name_component (ex_mnt_tree ex_volumes) (ex_s1_ok _ _ _) eq_refl
    (ex_root_at _ _ _)) as (r & s' & E & _ & _ & _ & _ & Hr).
  destruct r as [h|e].
  - destruct Hr as (nd & Hnd & Hf & Ho & _). pose proof ex_descend as Hd. unfold ex_spec, fat_spec in Hd.
    rewrite Hd in Hnd. injection Hnd as <-. exists h, s'. by split_and!.
  - destruct Hr as [_ Hr]. destruct ex_rooms. exact (Hr I ex_short _ ex_descend eq_refl).
Defined.

(** ** Reading the open file from its second byte on *)

Definition ex_handle : handle_t fat16_ptr := mk_hd (Some 1%nat) 1 1 (Some (HandleData 0)) 1.

Lemma ex_file_at : file_at ex_mounted ex_open ex_handle ex_file.
Proof.
  split; [done|]. exists 1%nat, 0%nat. split; [done|]. split; [|done]. split; [by eexists|]. by do 2 eexists.
Qed.

Lemma ex_data : node_bytes ex_mounted ex_file 1 4 = Some [101; 108; 108; 111].
Proof.
  unfold node_bytes, ex_mounted, with_volume. cbn [fn_dev ex_file fn_first]. rewrite decide_True by done.
  cbn [mbind option_bind]. unfold file_bytes.
  assert (Hb : forall off, 0 <= off < 512 -> file_byte ex_dev ex_img 2 off = Some (ld8 ex_mem (LO + (9216 + off)))).
  { intros off Ho. unfold file_byte. change (dev_bytes_per_cluster ex_dev) with 512.
    rewrite Z.div_small, Z.mod_small by lia. cbn [cluster_at follow]. change (cluster_at ex_dev ex_img 2 0) with (Ok 2).
    cbv iota. change (512 * dev_first_data_sector ex_dev + (2 - 2) * 512 + off) with (9216 + off).
    apply ex_lookup. unfold SIZE. lia. }
  change (seqZ 1 4) with [1; 2; 3; 4]. cbn [mapM]. rewrite !Hb by lia. by vm_compute.
Qed.

Lemma vfs_read_exact_witness :
  exists h' s', vfs_read ex_handle 10 ex_open = (((Nok, ([101; 108; 108; 111], 4)), h'), s') /\ hd_offset h' = 5.
Proof.
  destruct (vfs_read_exact ex_mounted ex_same True ex_volumes ex_handle ex_file 10 ex_open (ex_s1_ok _ _ _) ex_file_at
    ltac:(done) ltac:(done) ltac:(done)) as (st & bs & got & h' & s' & E & _ & _ & _ & _ & Ho & Hr & Hrel).
  change (Z.max 0 (Z.min 10 (fn_size ex_file - hd_offset ex_handle))) with 4 in *.
  change (hd_offset ex_handle) with 1 in *. rewrite ex_data in *. rewrite (Hrel I ltac:(by eexists)) in Hr.
  destruct Hr as (-> & -> & [= <-]). exists h', s'. split; [exact E|exact Ho].
Defined.

(** ** Reading the boot sector *)

Definition ex_new_dev : fat16_device_t rd_st :=
  mk_dev ex_params true 5 zero_boot 0 0 0 0 0 0 0 [100; 58; 47] None (Some rd_read) None.

Lemma load_boot_sector_spec_witness :
  exists dev' d', fat16_load_boot_sector ex_new_dev ex_rd = ((Ok tt, dev'), d') /\
    volume dev' /\ dev_total_sectors dev' = 4103 /\ dev_total_clusters dev' = 4085.
Proof.
  destruct (ex_raw ex_rd 0 512 ex_same_rd ltac:(lia) ltac:(lia)) as (st & bs & d' & E & _ & _ & Hb & Hr);
    [by rewrite ex_length|].
  destruct (Hb (Hr I)) as [-> ->].
  destruct (load_boot_sector_spec ex_new_dev (zslice 0 512 ex_img) ex_rd d' ltac:(done) E)
    as (r & dev' & El & Hv & _ & _ & _ & _ & Hok).
  rewrite ex_boot_of in *. assert (r = Ok tt) as -> by apply Hv, ex_boot_valid.
  exists dev', d'. split; [exact El|]. exact (Hok eq_refl).
Defined.

(** ** Mounting it *)

Definition ex_blank : vfs fat16_tbl fat16_ptr (fat16_st rd_st) :=
  mk_vfs (replicate VFS_MAX_DENTRIES zero_dentry) (replicate VFS_MAX_HANDLES zero_hd) [] None
    (replicate VFS_MAX_VNODES zero_vnode)
    (mk_fat (replicate FAT16_MAX_DEVICES zero_dev) (replicate FAT16_MAX_VNODE_DATA zero_slot)
       (replicate FAT16_MAX_HANDLES zero_slot) ex_rd).
Definition ex_s0 : vfs fat16_tbl fat16_ptr (fat16_st rd_st) := (vfs_init ex_blank).2.
Definition ex_none : nat -> option (fat16_device_t rd_st * list Z) := fun _ => None.

Lemma ex_s0_ns : find_namespace [100] ex_s0 = None.
Proof. reflexivity. Qed.
Lemma ex_s0_tree : fat_tree ex_same True ex_none ex_s0.
Proof. apply leafless; [reflexivity|]. repeat constructor. Qed.
Lemma ex_s0_ok : fat_ok ex_none ex_same ex_s0.
Proof. split; [exact ex_same_rd|discriminate]. Qed.
Lemma ex_s0_room : ~ no_mount_room 5 ex_s0.
Proof.
  intros [Hx|[Hx|[Hx|[Hx|Hx]]]]; [by apply Hx|by inversion Hx|by vm_compute in Hx..].
Qed.

Lemma mount_volume_witness :
  exists i dev' k s', fat16_mount ex_stack 5 (Some ex_params) ex_s0 = (Ok tt, s') /\
    find_namespace [100] s' = Some k /\
    fat_denotes (with_volume ex_none i dev' ex_img) s' (ns_root (nspc k s')) (mk_fat_node i true 0 0 (5 * 2 ^ 32 + 1)).
Proof.
  destruct ex_component as [Hc Hcol].
  destruct (mount_volume ex_same True ex_stack [100] ex_none ex_img eq_refl Hc Hcol ltac:(simpl; lia) ltac:(done)
    ltac:(by rewrite ex_length) ltac:(by rewrite ex_boot_of, ex_length) 5 ex_params ex_s0)
    as (r & s' & E & Hr); [exact ex_s0_ns|exact ex_s0_tree|exact ex_s0_ok|discriminate|reflexivity|exact ex_raw|].
  destruct r as [[]|e].
  - destruct Hr as (i & dev' & k & _ & _ & _ & _ & _ & Hk & Hroot & _). exists i, dev', k, s'. split; [exact E|]. split; [exact Hk|exact Hroot].
  - destruct Hr as (_ & _ & _ & _ & Hfull). exfalso. rewrite ex_boot_of in Hfull.
    destruct (ex_s0_room (Hfull I ex_boot_valid)).
Defined.
