(* ===== verification/Owned.v ===== *)
(** * An address space and the frames around it

    [own h s G l]: of a fixed pool of frames, the kernel holds [h], the space
    [G] has its tables and its mapped frames, and [l] is free.  One lemma per
    operation a loader uses, each saying which memory it leaves alone. *)

From S2P Require Import Prelude Types Mem Memory FrameAlloc Paging PagingSpec AddrSpace SpaceLife.

Section owned.
Context {S : Type} `{FrameAllocatorLaws S}.
Context (g : paging_globals) (root : Z).
Context (pool : list Z) (Hnd : NoDup pool) (Hok : Forall frame_ok pool).
Implicit Types (s : S) (G : space) (h l : list Z).
Let as_ := mk_as (phys_to_virt root).

Definition own h s G l : Prop :=
  sys s G l /\ tabs G !! [] = Some root /\ h ++ tab_frames G ++ leaf_frames G ++ l ≡ₚ pool.

(** Memory in the frames [h] and in the mapped frames of [G] is the same. *)
Definition keeps h G s s' : Prop :=
  forall q, q ∈ h ++ leaf_frames G -> frame_agree (fa_mem s') (fa_mem s) q.

#[export] Instance keeps_preorder h G : PreOrder (keeps h G).
Proof.
  split; unfold keeps.
  - intros s q _. by intros a.
  - intros s1 s2 s3 H1 H2 q Hq a Ha. by rewrite H2, H1.
Qed.

Lemma keeps_sub h h' G G' s s' :
  h' ++ leaf_frames G' ⊆ h ++ leaf_frames G -> keeps h G s s' -> keeps h' G' s s'.
Proof. intros Hs Hk q Hq. by apply Hk, Hs. Qed.

Lemma keeps_drop h q G s s' : keeps (q :: h) G s s' -> keeps h G s s'.
Proof. apply keeps_sub. intros r Hr. by right. Qed.

Lemma keeps_leaves h G G' s s' : leaf_frames G' ⊆ leaf_frames G -> keeps h G s s' -> keeps h G' s s'.
Proof. intros Hs. apply keeps_sub. intros r. rewrite !elem_of_app. intros [?|?]; auto. Qed.

Lemma own_intro h s G l : fa_rep s l -> as_inv (fa_mem s) G -> tab_frames G ## l ->
  tabs G !! [] = Some root -> h ++ tab_frames G ++ leaf_frames G ++ l ≡ₚ pool -> own h s G l.
Proof. intros A B C D E. by split; [split|]. Qed.

Lemma own_perm h h' s G l : h ≡ₚ h' -> own h s G l -> own h' s G l.
Proof. intros Hp (A & B & C). split; [done|split; [done|]]. by rewrite <- Hp. Qed.

Lemma own_in h s G l q : own h s G l -> q ∈ h ++ leaf_frames G ->
  frame_ok q /\ q ∉ tab_frames G /\ q ∉ l.
Proof.
  intros (_ & _ & Hp) Hq. pose proof Hnd as Hn. rewrite <- Hp in Hn.
  split; [rewrite Forall_forall in Hok; apply Hok; rewrite <- Hp; rewrite !elem_of_app in *; tauto|].
  apply NoDup_app in Hn as (_ & Hd1 & (_ & Hd2 & (_ & Hd3 & _)%NoDup_app)%NoDup_app).
  rewrite elem_of_app in Hq. destruct Hq as [Hq|Hq].
  - specialize (Hd1 _ Hq). rewrite !elem_of_app in Hd1. tauto.
  - split; [|by apply Hd3]. intros Ht. apply (Hd2 q Ht). rewrite elem_of_app. by left.
Qed.

Lemma own_free_ok h s G l q : own h s G l -> q ∈ l ->
  frame_ok q /\ q ∉ tab_frames G /\ q ∉ h ++ leaf_frames G.
Proof.
  intros Ho Hq. pose proof Ho as (_ & _ & Hp).
  split; [rewrite Forall_forall in Hok; apply Hok; rewrite <- Hp; rewrite !elem_of_app; tauto|].
  split; [|intros Hl; by apply (own_in h s G l q Ho Hl)].
  destruct Ho as ((_ & _ & Hd) & _). intros Ht. by apply (Hd q).
Qed.

(** A change inside [q] leaves the other frames alone. *)
Lemma keeps_outside h s s' G l q : own h s G l -> frame_ok q -> q ∉ h ++ leaf_frames G ->
  (forall a, ~ in_frame q a -> ld8 (fa_mem s') a = ld8 (fa_mem s) a) -> keeps h G s s'.
Proof.
  intros Ho Hq Hn Hm r Hr. destruct (own_in h s G l r Ho Hr) as (Hrok & _).
  apply (frame_agree_outside _ _ r q); [done|done| |done]. intros ->. by apply Hn.
Qed.

Lemma own_alloc h s G p l : own h s G (p :: l) ->
  exists s', fa_alloc s = (Ok p, s') /\ own (p :: h) s' G l /\ keeps h G s s' /\
    frame_ok p /\ (forall a, in_frame p a -> ld8 (fa_mem s') a = 0).
Proof.
  intros Ho. destruct (own_free_ok h s G _ p Ho ltac:(by left)) as (Hpok & Hpt & Hph).
  pose proof Ho as ((Hr & Hinv & Hd) & Hroot & Hp).
  destruct (fa_alloc_cons s p l Hr) as (s' & E & Hr' & Hm). exists s'.
  pose proof (mem_upd_outside _ _ _ _ Hm) as Hout.
  split; [done|]. split; [|split; [|split; [done|]]].
  - apply own_intro; [done| | |done|].
    + by apply (as_inv_outside (fa_mem s) _ G p).
    + intros r Hr0 Hrl. apply (Hd r Hr0). by right.
    + rewrite <- Hp. solve_Permutation.
  - by apply (keeps_outside h s s' G (p :: l) p).
  - intros a Ha. rewrite Hm. unfold in_frame in Ha. case_if; [done|lia].
Qed.

Lemma own_alloc_nil h s G : own h s G [] -> fa_alloc s = (Err NoutOfMemory, s).
Proof. intros ((Hr & _) & _). by apply fa_alloc_nil. Qed.

Lemma own_free h s G p l : own (p :: h) s G l ->
  exists s', fa_free p s = (Nok, s') /\ own h s' G (p :: l) /\ keeps h G s s'.
Proof.
  intros Ho. destruct (own_in _ _ _ _ p Ho ltac:(by left)) as (Hpok & Hpt & Hpl).
  pose proof Ho as ((Hr & Hinv & Hd) & Hroot & Hp).
  destruct (fa_free_ok s p l Hr Hpok Hpl) as (s' & E & Hr' & Hm). exists s'.
  assert (Hph : p ∉ h ++ leaf_frames G).
  { pose proof Hnd as Hn. rewrite <- Hp in Hn. simpl in Hn. apply NoDup_cons in Hn as [Hn _].
    rewrite !elem_of_app in *. tauto. }
  split; [done|]. split.
  - apply own_intro; [done| | |done|].
    + by apply (as_inv_outside (fa_mem s) _ G p).
    + intros r Hr0 [-> | Hrl]%elem_of_cons; [done|]. by apply (Hd r Hr0).
    + rewrite <- Hp. solve_Permutation.
  - intros r Hr0. destruct (own_in (p :: h) s G l r Ho) as (Hrok & _); [by right|].
    apply (frame_agree_outside _ _ r p); [done..| |done]. by intros ->.
Qed.

(** Mapping a held frame: the space takes it, or the frame stays held. *)
Lemma own_map h s G l p v flags : own (p :: h) s G l -> upage v -> word flags -> wx_ok g flags ->
  exists r s' G' l', paging_map_page g (Some as_) p v flags s = (r, s') /\
    keeps (p :: h) G s s' /\ tabs G ⊆ tabs G' /\
    match r with
    | Ok _ => own h s' G' l' /\ leaves G !! path v = None /\
        leaves G' = <[path v := leaf_of g p flags]> (leaves G)
    | Err e => own (p :: h) s' G' l' /\ leaves G' = leaves G /\
        (e = NoutOfMemory /\ l' = [] \/ e = NalreadyExists /\ is_Some (leaves G !! path v))
    end.
Proof.
  intros Ho Hv Hf Hwx. destruct (own_in _ _ _ _ p Ho ltac:(by left)) as (Hpok & Hpt & Hpl).
  pose proof Ho as (Hsys & Hroot & Hp). pose proof (frame_phys_ok p Hpok) as Hpp.
  destruct (map_page_run g s G l root p v flags Hsys Hroot Hpp Hv Hf Hwx)
    as (r & s' & G' & l' & E & Hs' & Ht & Hpm & Hm & Hcase).
  exists r, s', G', l'. split; [done|]. split; [|split; [done|]].
  - intros q Hq. destruct (own_in _ _ _ _ q Ho Hq) as (Hqok & Hqt & Hql). intros a Ha.
    apply Hm. intros t Htt Hta.
    assert (t = q) as ->.
    { destruct Hs' as (_ & Hinv' & _). pose proof Htt as [π Hπ]%elem_of_tab_frames.
      destruct (ai_tab _ _ Hinv' π t Hπ). by apply (in_frame_inj t q a). }
    assert (Hin : q ∈ tab_frames G' ++ l') by (rewrite elem_of_app; by left).
    rewrite Hpm, elem_of_app in Hin. tauto.
  - assert (Hroot' : tabs G' !! [] = Some root) by by eapply lookup_weaken.
    destruct r as [[]|e].
    + destruct Hcase as [Hn Hl]. split; [|split; [done|done]]. split; [done|split; [done|]].
      rewrite (leaf_frames_eq (set_leaf (path v) (Some (leaf_of g p flags)) G) G') by done.
      rewrite leaf_frames_insert, leaf_of_addr by done.
      assert (Hc : h ++ tab_frames G' ++ (p :: leaf_frames G) ++ l'
        ≡ₚ (p :: h) ++ leaf_frames G ++ tab_frames G' ++ l') by solve_Permutation.
      rewrite Hc, Hpm, <- Hp. solve_Permutation.
    + assert (Hl : leaves G' = leaves G) by (destruct e; tauto).
      split; [|split; [done|destruct e; tauto]]. split; [done|split; [done|]].
      rewrite (leaf_frames_eq G G' Hl).
      assert (Hc : (p :: h) ++ tab_frames G' ++ leaf_frames G ++ l'
        ≡ₚ (p :: h) ++ leaf_frames G ++ tab_frames G' ++ l') by solve_Permutation.
      rewrite Hc, Hpm, <- Hp. solve_Permutation.
Qed.

(** Unmapping a page gives its frame back. *)
Lemma own_unmap_free h s G l v e : own h s G l -> upage v -> leaves G !! path v = Some e ->
  let q := Z.land e ENTRY_ADDR_MASK in
  exists s', paging_unmap_free_page (Some as_) v s = (Nok, s') /\
    own h s' (set_leaf (path v) None G) (q :: l) /\ keeps h (set_leaf (path v) None G) s s'.
Proof.
  intros Ho Hv He q. pose proof (leaf_frames_delete G _ _ He) as Hl. fold q in Hl.
  assert (Hq : q ∈ h ++ leaf_frames G) by (rewrite Hl, elem_of_app; right; by left).
  destruct (own_in h s G l q Ho Hq) as (Hqok & Hqt & Hql).
  pose proof Ho as (Hsys & Hroot & Hp).
  pose proof (unmap_free_page_run s G l root v Hsys Hroot Hv) as Hrun. rewrite He in Hrun.
  destruct (Hrun Hqok Hqt Hql) as (s' & E & Hs' & Hm). exists s'. split; [done|]. split; [split; [done|split; [done|]]|].
  - change (tab_frames (set_leaf (path v) None G)) with (tab_frames G). rewrite <- Hp, Hl.
    solve_Permutation.
  - intros r Hr.
    assert (Hr' : r ∈ h ++ leaf_frames G).
    { rewrite Hl. rewrite elem_of_app in *. rewrite elem_of_cons. tauto. }
    destruct (own_in h s G l r Ho Hr') as (Hrok & Hrt & _). intros a Ha. apply Hm.
    assert (Hrq : r <> q).
    { intros ->. pose proof Hnd as Hn. rewrite <- Hp, Hl in Hn.
      assert (Hn' : NoDup (q :: (h ++ leaf_frames (set_leaf (path v) None G)) ++ tab_frames G ++ l))
        by (eapply NoDup_Permutation_proper; [|exact Hn]; solve_Permutation).
      apply NoDup_cons in Hn' as [Hn' _]. apply Hn'. rewrite elem_of_app. by left. }
    intros t [-> | Ht]%elem_of_cons Hta.
    + apply Hrq. by apply (in_frame_inj r q a).
    + apply Hrt. pose proof Ht as [π Hπ]%elem_of_tab_frames. destruct Hsys as (_ & Hinv & _).
      destruct (ai_tab _ _ Hinv π t Hπ). by rewrite (in_frame_inj r t a).
Qed.

Lemma own_unmapped s G l h v : own h s G l -> upage v -> leaves G !! path v = None ->
  paging_unmap_free_page (Some as_) v s = (NinvalidArg, s).
Proof.
  intros (Hsys & Hroot & _) Hv He. pose proof (unmap_free_page_run s G l root v Hsys Hroot Hv) as Hr.
  by rewrite He in Hr.
Qed.

(** The kernel writes in a frame it holds. *)
Lemma own_store h s G l p m : own (p :: h) s G l ->
  (forall a, ~ in_frame p a -> ld8 m a = ld8 (fa_mem s) a) ->
  own (p :: h) (fa_set_mem m s) G l /\ keeps h G s (fa_set_mem m s).
Proof.
  intros Ho Hm. destruct (own_in _ _ _ _ p Ho ltac:(by left)) as (Hpok & Hpt & Hpl).
  pose proof Ho as ((Hr & Hinv & Hd) & Hroot & Hp).
  split; [apply own_intro; [| |done|done|done]|].
  - apply fa_set_mem_rep; [done|]. intros q a Hq Ha. apply Hm. intros Hb. apply Hpl.
    destruct (fa_rep_ok s l Hr) as [_ Hlok]. rewrite Forall_forall in Hlok.
    by rewrite (in_frame_inj p q a) by auto.
  - rewrite fa_mem_set. by apply (as_inv_outside (fa_mem s) _ G p).
  - intros q Hq a Ha. rewrite fa_mem_set. apply Hm. intros Hb.
    destruct (own_in (p :: h) s G l q Ho ltac:(by right)) as (Hqok & _).
    assert (p = q) as -> by by apply (in_frame_inj p q a).
    pose proof Hnd as Hn. rewrite <- Hp in Hn. simpl in Hn. apply NoDup_cons in Hn as [Hn _].
    rewrite !elem_of_app in *. tauto.
Qed.

Lemma leaf_in_frames G ρ e : leaves G !! ρ = Some e -> Z.land e ENTRY_ADDR_MASK ∈ leaf_frames G.
Proof.
  intros He. unfold leaf_frames. apply list_elem_of_fmap. exists (ρ, e).
  split; [done|]. by apply elem_of_map_to_list.
Qed.

(** The page [v] is mapped with [flags], and its bytes are [c 0], [c 1], ... *)
Definition page_holds (flags : Z) (c : Z -> Z) s G v : Prop :=
  exists q, leaves G !! path v = Some (leaf_of g q flags) /\ frame_ok q /\
    forall a, in_frame q a -> ld8 (fa_mem s) a = c (a - phys_to_virt q).

(** It survives what keeps its frame and its mapping. *)
Lemma page_holds_keep flags c s s' G G' h v : page_holds flags c s G v -> keeps h G s s' ->
  leaves G' !! path v = leaves G !! path v -> page_holds flags c s' G' v.
Proof.
  intros (q & Hl & Hq & Hz) Hk He. exists q. split; [by rewrite He|]. split; [done|].
  intros a Ha. rewrite (Hk q); [by apply Hz| |done]. rewrite elem_of_app. right.
  rewrite <- (leaf_of_addr g q flags) by by apply frame_phys_ok. by eapply leaf_in_frames.
Qed.

Lemma leaf_frames_sub G G' : leaves G ⊆ leaves G' -> leaf_frames G ⊆ leaf_frames G'.
Proof.
  intros Hs q. unfold leaf_frames at 1. rewrite list_elem_of_fmap.
  intros ([ρ e] & -> & Hin%elem_of_map_to_list). apply (leaf_in_frames G' ρ). by eapply lookup_weaken.
Qed.

Lemma page_holds_mono flags c s s' G G' h v : page_holds flags c s G v -> keeps h G s s' ->
  leaves G ⊆ leaves G' -> page_holds flags c s' G' v.
Proof.
  intros Hp Hk Hs. apply (page_holds_keep flags c s s' G G' h v Hp Hk).
  destruct Hp as (q & Hl & _). rewrite Hl. by eapply lookup_weaken.
Qed.

(** What a held frame contained when it was mapped. *)
Lemma page_holds_map flags c s s' G G' h q v : frame_ok q ->
  (forall a, in_frame q a -> ld8 (fa_mem s) a = c (a - phys_to_virt q)) ->
  keeps (q :: h) G s s' -> leaves G' = <[path v := leaf_of g q flags]> (leaves G) ->
  page_holds flags c s' G' v.
Proof.
  intros Hq Hz Hk Hl. exists q. split; [rewrite Hl; apply lookup_insert_eq|]. split; [done|].
  intros a Ha. rewrite (Hk q); [by apply Hz|by left|done].
Qed.

(** What the processor reads there. *)
Lemma page_holds_read flags c s G l h v i : own h s G l -> upage v -> page_holds flags c s G v ->
  0 <= i < PAGE_SIZE ->
  exists pa, hw_translate (fa_mem s) (pml4 as_) (v + i) = Some pa /\
    ld8 (fa_mem s) (phys_to_virt pa) = c i.
Proof.
  intros (Hsys & Hroot & _) [Hv Mv] (q & Hl & Hq & Hc) Hi.
  assert (Hvi : (v + i) mod PAGE_SIZE = i).
  { rewrite <- Zplus_mod_idemp_l, Mv. by apply Z.mod_small. }
  assert (Hvt : v + i < USER_SPACE_END).
  { change USER_SPACE_END with (34359738368 * 4096) in *. unfold PAGE_SIZE in *.
    pose proof (Z.div_mod v 4096). lia. }
  unfold hw_translate. cbn [pml4 as_]. rewrite (hw_leaf_spec s G l root (v + i) Hsys Hroot) by lia.
  rewrite <- path_page_of. unfold page_of. rewrite Hvi, Z.add_simpl_r, Hl.
  exists (q + i). split.
  { change ((fun e => Z.land e ENTRY_ADDR_MASK + i) <$> Some (leaf_of g q flags)
      = Some (q + i)). csimpl. by rewrite leaf_of_addr by by apply frame_phys_ok. }
  replace (phys_to_virt (q + i)) with (phys_to_virt q + i).
  - rewrite Hc by by apply in_frame_off. f_equal. lia.
  - destruct Hq as (? & ? & ?). rewrite !phys_to_virt_eq; [lia|unfold PAGE_SIZE in *; lia..].
Qed.

(** The end of the space: every frame it had is free again. *)
Lemma own_destroy h s G l : own h s G l ->
  exists s' l', paging_addrspace_destroy as_ s = (mk_as 0, s') /\ fa_rep s' l' /\ h ++ l' ≡ₚ pool.
Proof.
  intros (Hsys & Hroot & Hp). pose proof Hnd as Hnd'.
  rewrite <- Hp in Hnd'. apply NoDup_app in Hnd' as (_ & _ & Hnd').
  assert (Hall : Forall frame_ok ((nodes 4 G []).*2)).
  { destruct Hsys as (_ & Hinv & _). rewrite (nodes_frames _ _ Hinv).
    rewrite <- Hp, !Forall_app in Hok. rewrite Forall_app. tauto. }
  destruct (destroy_run s G l Hsys Hall root Hroot Hnd') as (s' & l' & E' & Hr' & Hp' & _).
  exists s', l'. split; [done|]. split; [done|]. by rewrite Hp'.
Qed.

(** Its beginning. *)
Lemma own_create s l : fa_rep s (root :: l) -> g_pml4 g <> 0 -> pool = root :: l ->
  exists s', paging_addrspace_create g s = (Ok as_, s') /\ own [] s' (space0 root) l.
Proof.
  intros Hr Hg Hp. destruct (create_run g s root l Hr Hg) as (s' & E & Hs' & _).
  exists s'. split; [done|]. split; [done|]. split; [by apply lookup_singleton_eq|].
  unfold tab_frames, leaf_frames. simpl. by rewrite map_to_list_singleton, map_to_list_empty, Hp.
Qed.
End owned.
