(* ===== verification/Umem.v ===== *)
(** * The heap of a process: [nxkernel/kernel/process/umem.c]

    [umem_brk] moves the end of the heap.  The process is a value; its heap
    pages live in its address space, over the frame allocator.  The page
    loops run over [steps]: their bounds are below [2^47 + 2^29], so the
    additions of the C loops do not overflow. *)

From S2P Require Import Prelude Types Mem Memory FrameAlloc Paging PagingSpec AddrSpace SpaceLife Handles Process Owned.

(** [NX_HEAP_GROW_MAX_PER_CALL]: include/nyx_abi.h:109-109 *)
Definition NX_HEAP_GROW_MAX_PER_CALL : Z := 256 * 1024 * 1024.
(** [NX_HEAP_MAX_TOTAL]: include/nyx_abi.h:110-110 *)
Definition NX_HEAP_MAX_TOTAL : Z := 512 * 1024 * 1024.
(** [NX_USER_STACK_SIZE]: nxkernel/kernel/process/umem.h:28-28 *)
Definition NX_USER_STACK_SIZE : Z := 64 * 1024.
(** [NX_USER_STACK_TOP]: nxkernel/kernel/process/umem.h:29-29 *)
Definition NX_USER_STACK_TOP : Z := 0x00007FF800000000.
(** [NX_USER_STACK_BASE]: nxkernel/kernel/process/umem.h:30-30 *)
Definition NX_USER_STACK_BASE : Z := NX_USER_STACK_TOP - NX_USER_STACK_SIZE.
(** [NX_USER_STACK_GUARD]: nxkernel/kernel/process/umem.h:31-31 *)
Definition NX_USER_STACK_GUARD : Z := NX_USER_STACK_BASE - 4096.
(** [NX_USER_STACK_INIT]: nxkernel/kernel/process/umem.h:32-32 *)
Definition NX_USER_STACK_INIT : Z := 48.

(** [align_up]: nxkernel/kernel/process/umem.c:9-12 *)
Definition align_up (v a : Z) : Z := Z.land (u64 (u64 (v + a) - 1)) (unot 64 (u64 (a - 1))).

(** The flags of heap and stack pages. *)
Definition USER_DATA_FLAGS : Z := Z.lor (Z.lor PAGE_USER PAGE_RW) PAGE_NX.

Section umem.
Context {S F : Type} `{FrameAllocator S}.
Context (g : paging_globals).

(** [for (page = ...) (void)paging_unmap_free_page(as, page);] *)
Definition unmap_pages (as_ : addr_space_t) (pages : list Z) (s : S) : S :=
  fold_left (fun s page => (paging_unmap_free_page (Some as_) page s).2) pages s.

(** [rollback_pages]: nxkernel/kernel/process/umem.c:15-21 *)
Definition rollback_pages (as_ : addr_space_t) (from_page to_page : Z) (s : S) : S :=
  unmap_pages as_ (steps from_page to_page PAGE_SIZE) s.

(** The loop of a growth, [first] being where it began. *)
(** [grow_pages]: nxkernel/kernel/process/umem.c:60-77 *)
Fixpoint grow_pages (as_ : addr_space_t) (first : Z) (pages : list Z) : ST S Nerror :=
  match pages with
  | [] => ret Nok
  | page :: pages => fun s =>
      match fa_alloc s with
      | (Err status, s) => (status, rollback_pages as_ first page s)
      | (Ok phys, s) =>
          match paging_map_page g (Some as_) phys page USER_DATA_FLAGS s with
          | (Err status, s) => (status, rollback_pages as_ first page (free_frame phys s))
          | (Ok _, s) => grow_pages as_ first pages s
          end
      end
  end.

(** [umem_brk]: nxkernel/kernel/process/umem.c:23-101 *)
Definition umem_brk (p : process_t F) (increment : Z) : ST S (res Z * process_t F) := fun s =>
  if pml4 (addrspace p) =? 0 then ((Err Npermission, p), s)
  else
    let old_brk := heap_brk p in
    if increment =? 0 then ((Ok old_brk, p), s)
    else if 0 <? increment then
      let inc := u64 increment in
      if NX_HEAP_GROW_MAX_PER_CALL <? inc then ((Err NinvalidArg, p), s)
      else
        let new_brk := u64 (old_brk + inc) in
        if NX_HEAP_MAX_TOTAL <? u64 (new_brk - heap_start p) then ((Err NoutOfMemory, p), s)
        else if NX_USER_STACK_GUARD <=? new_brk then ((Err NoutOfMemory, p), s)
        else
          let first := align_up old_brk PAGE_SIZE in
          let last := align_up new_brk PAGE_SIZE in
          let '(status, s) := grow_pages (addrspace p) first (steps first last PAGE_SIZE) s in
          if is_err status then ((Err status, p), s)
          else ((Ok new_brk, set_heap_brk new_brk p), s)
    else if increment =? - 2 ^ 63 then ((Err NinvalidArg, p), s)
    else
      let dec := u64 (- increment) in
      if u64 (old_brk - heap_start p) <? dec then ((Err NinvalidArg, p), s)
      else
        let new_brk := u64 (old_brk - dec) in
        let first := align_up new_brk PAGE_SIZE in
        let last := align_up old_brk PAGE_SIZE in
        let s := unmap_pages (addrspace p) (steps first last PAGE_SIZE) s in
        ((Ok new_brk, set_heap_brk new_brk p), s).
End umem.

(** ** Pages and their paths *)

Lemma umem_align_up_page v : 0 <= v < 2 ^ 63 -> align_up v PAGE_SIZE = v + 4095 - (v + 4095) mod 4096.
Proof.
  intros Hv. unfold align_up, PAGE_SIZE. rewrite (uw_small 64 (v + 4096)) by lia.
  rewrite (uw_small 64) by lia. change (u64 (4096 - 1)) with 4095.
  rewrite land_unot_page by lia. f_equal; [lia|]. f_equal. lia.
Qed.

Lemma align_up_bounds v : 0 <= v < 2 ^ 63 ->
  v <= align_up v PAGE_SIZE < v + 4096 /\ align_up v PAGE_SIZE mod 4096 = 0.
Proof.
  intros Hv. rewrite umem_align_up_page by done. pose proof (Z.mod_pos_bound (v + 4095) 4096 ltac:(lia)).
  split; [lia|]. rewrite Zminus_mod_idemp_r. replace (v + 4095 - (v + 4095)) with 0 by lia. done.
Qed.

Lemma align_up_mono v w : 0 <= v <= w -> w < 2 ^ 63 -> align_up v PAGE_SIZE <= align_up w PAGE_SIZE.
Proof.
  intros Hv Hw. destruct (align_up_bounds v) as [B1 M1]; [lia|].
  destruct (align_up_bounds w) as [B2 M2]; [lia|].
  pose proof (Z.div_mod (align_up v PAGE_SIZE) 4096). pose proof (Z.div_mod (align_up w PAGE_SIZE) 4096). lia.
Qed.

Lemma elem_of_pages v lo hi : lo mod 4096 = 0 ->
  v ∈ steps lo hi PAGE_SIZE <-> lo <= v < hi /\ v mod PAGE_SIZE = 0.
Proof.
  intros Hlo. unfold PAGE_SIZE. rewrite elem_of_steps by lia. split; intros [Hv Hm]; (split; [done|]).
  - pose proof (Z.div_mod (v - lo) 4096). pose proof (Z.div_mod lo 4096).
    replace v with ((v - lo) / 4096 * 4096 + lo / 4096 * 4096) by lia.
    rewrite <- Z.mul_add_distr_r. apply Z.mod_mul. lia.
  - pose proof (Z.div_mod v 4096). pose proof (Z.div_mod lo 4096).
    replace (v - lo) with ((v / 4096 - lo / 4096) * 4096) by lia. apply Z.mod_mul. lia.
Qed.

Lemma upath_inj v w : upage v -> upage w -> path v = path w -> v = w.
Proof.
  intros [Hv Mv] [Hw Mw] Hp. unfold PAGE_SIZE in *.
  assert (page_of v = page_of w) by (apply path_inj; [lia..|done]). unfold page_of, PAGE_SIZE in *. lia.
Qed.
