(* ===== verification/UmemProps.v ===== *)
(** * The heap of a process, specified

    [heap_inv]: the heap of a process is the pages from its start, rounded
    up, to its end, rounded up; all are mapped, and nothing is mapped between
    them and the guard page of the stack.  [brk_refines] is the specification
    of [umem_brk] on the finite map of the address space. *)

From S2P Require Import Prelude Types Mem Memory FrameAlloc Paging PagingSpec AddrSpace SpaceLife Handles Process Owned Umem.

#[local] Opaque paging_unmap_free_page paging_map_page.

Record heap_inv (G : space) (start brk : Z) : Prop := {
  hi_start : 0 < start <= brk;
  hi_brk : brk < NX_USER_STACK_GUARD;
  hi_mapped v : upage v -> align_up start PAGE_SIZE <= v < align_up brk PAGE_SIZE ->
    is_Some (leaves G !! path v);
  hi_room v : upage v -> align_up brk PAGE_SIZE <= v < NX_USER_STACK_GUARD ->
    leaves G !! path v = None;
}.

(** The space without the pages [vs]. *)
Definition clear_pages (vs : list Z) (G : space) : space :=
  fold_left (fun G v => set_leaf (path v) None G) vs G.

Lemma leaves_cleared_ne ρ ρ' G : ρ <> ρ' -> leaves (set_leaf ρ None G) !! ρ' = leaves G !! ρ'.
Proof. apply lookup_delete_ne. Qed.

Lemma tabs_clear vs G : tabs (clear_pages vs G) = tabs G.
Proof. revert G. induction vs as [|v vs IH]; intros G; [done|]. simpl. by rewrite IH. Qed.

Lemma leaves_clear vs G ρ :
  leaves (clear_pages vs G) !! ρ = if decide (ρ ∈ path <$> vs) then None else leaves G !! ρ.
Proof.
  revert G. induction vs as [|v vs IH]; intros G; [done|]. csimpl. rewrite IH.
  destruct (decide (ρ ∈ path <$> vs)) as [Hi|Hi].
  - rewrite decide_True; [done|by right].
  - destruct (decide (ρ = path v)) as [-> | Hne].
    + rewrite decide_True by by left. apply lookup_delete_eq.
    + rewrite decide_False by (rewrite elem_of_cons; tauto). apply leaves_cleared_ne. congruence.
Qed.

Lemma leaf_frames_clear vs G : leaf_frames (clear_pages vs G) ⊆ leaf_frames G.
Proof.
  intros q. unfold leaf_frames. rewrite !list_elem_of_fmap. intros ([ρ e] & -> & Hin).
  exists (ρ, e). split; [done|]. rewrite elem_of_map_to_list in *. rewrite leaves_clear in Hin.
  by destruct (decide _).
Qed.

Section umem.
Context {S F : Type} `{FrameAllocatorLaws S}.
Context (g : paging_globals) (root : Z).
Context (pool : list Z) (Hnd : NoDup pool) (Hok : Forall frame_ok pool).
Implicit Types (s : S) (G : space) (h l : list Z) (p : process_t F).
Let as_ := mk_as (phys_to_virt root).
Local Abbreviation own := (own root pool).

(** A run of unmappings of mapped pages. *)
Lemma unmap_pages_run vs s h G l : own h s G l -> NoDup vs -> Forall upage vs ->
  (forall v, v ∈ vs -> is_Some (leaves G !! path v)) ->
  exists s' l', unmap_pages as_ vs s = s' /\ own h s' (clear_pages vs G) l' /\
    keeps h (clear_pages vs G) s s'.
Proof.
  revert s G l. induction vs as [|v vs IH]; intros s G l Ho Hn Hup Hm.
  { by exists s, l. }
  apply NoDup_cons in Hn as [Hv Hn]. apply Forall_cons in Hup as [Huv Hup].
  destruct (Hm v) as [e He]; [by left|].
  destruct (own_unmap_free root pool Hnd Hok h s G l v e Ho Huv He) as (s1 & E1 & Ho1 & Hk1).
  destruct (IH s1 _ _ Ho1 Hn Hup) as (s' & l' & E' & Ho' & Hk').
  { intros w Hw. rewrite leaves_cleared_ne; [by apply Hm; right|]. intros Heq.
    rewrite Forall_forall in Hup. by rewrite (upath_inj v w) in Hv by auto. }
  exists s', l'. split_and!; [|done|].
  - unfold unmap_pages. simpl. fold as_ in E1. by rewrite E1.
  - transitivity s1; [|done]. apply (keeps_leaves h (set_leaf (path v) None G)); [|done].
    apply (leaf_frames_clear vs).
Qed.

(** The leaf a growth puts at a page, with a frame full of zeros. *)
Definition zero_page s G v : Prop := page_holds g USER_DATA_FLAGS (fun _ => 0) s G v.

(** [G] is [G0] with zero pages at [vs]. *)
Definition grown G0 s0 (vs : list Z) s G : Prop :=
  keeps [] G0 s0 s /\ tabs G0 ⊆ tabs G /\ (forall v, v ∈ vs -> zero_page s G v) /\
  (forall ρ, ρ ∉ path <$> vs -> leaves G !! ρ = leaves G0 !! ρ).

Lemma USER_DATA_wx : word USER_DATA_FLAGS /\ wx_ok g USER_DATA_FLAGS.
Proof. split; [unfold word|intros _ _]; by vm_compute. Qed.

Lemma grow_step G0 s0 vs v s G G' s1 s' q :
  grown G0 s0 vs s G -> keeps [] G s s1 -> keeps [q] G s1 s' -> frame_ok q ->
  (forall a, in_frame q a -> ld8 (fa_mem s1) a = 0) ->
  (forall w, w ∈ vs -> path w <> path v) ->
  leaves G !! path v = None -> tabs G ⊆ tabs G' ->
  leaves G' = <[path v := leaf_of g q USER_DATA_FLAGS]> (leaves G) ->
  leaf_frames G0 ⊆ leaf_frames G ->
  grown G0 s0 (vs ++ [v]) s' G'.
Proof.
  intros (Hk & Ht & Hz & Ho) Hk1 Hk2 Hq Hz1 Hne Hn Ht' Hl Hsub.
  assert (Hks : keeps [] G s s').
  { transitivity s1; [done|]. by apply (keeps_drop [] q). }
  split_and!.
  - transitivity s; [done|]. by apply (keeps_leaves [] G).
  - by transitivity (tabs G).
  - intros w [Hw | ->%list_elem_of_singleton]%elem_of_app.
    + apply (page_holds_keep g _ _ s s' G G' [] w (Hz w Hw) Hks).
      rewrite Hl. apply lookup_insert_ne. by apply not_eq_sym, Hne.
    + by apply (page_holds_map g _ _ s1 s' G G' [] q).
  - intros ρ Hρ. rewrite fmap_app, not_elem_of_app in Hρ. destruct Hρ as [H1 H2].
    rewrite Hl, lookup_insert_ne; [by apply Ho|]. intros <-. apply H2. by left.
Qed.

(** The frames of what was mapped before are still there. *)
Lemma grown_frames G0 s0 vs s G : grown G0 s0 vs s G ->
  (forall v, v ∈ vs -> leaves G0 !! path v = None) -> leaf_frames G0 ⊆ leaf_frames G.
Proof.
  intros (_ & _ & _ & Ho) Hn q. unfold leaf_frames at 1. rewrite list_elem_of_fmap.
  intros ([ρ e] & -> & Hin%elem_of_map_to_list). apply (leaf_in_frames G ρ). rewrite Ho; [done|].
  intros (v & -> & Hv)%list_elem_of_fmap. rewrite Hn in Hin by done. done.
Qed.

(** Undoing a growth gives the old mappings back. *)
Lemma rollback_run G0 s0 vs s G l : own [] s G l -> grown G0 s0 vs s G ->
  NoDup vs -> Forall upage vs -> (forall v, v ∈ vs -> leaves G0 !! path v = None) ->
  exists s' G' l', unmap_pages as_ vs s = s' /\ own [] s' G' l' /\ keeps [] G0 s0 s' /\
    tabs G0 ⊆ tabs G' /\ leaves G' = leaves G0.
Proof.
  intros Ho Hg Hn Hup Hz0. pose proof Hg as (Hk & Ht & Hz & Hout).
  destruct (unmap_pages_run vs s [] G l Ho Hn Hup) as (s' & l' & E & Ho' & Hk').
  { intros v Hv. destruct (Hz v Hv) as (q & Hq & _). by rewrite Hq. }
  assert (Hl : leaves (clear_pages vs G) = leaves G0).
  { apply map_eq. intros ρ. rewrite leaves_clear. destruct (decide _) as [Hi|Hi].
    - apply list_elem_of_fmap in Hi as (v & -> & Hv). by rewrite Hz0.
    - by rewrite Hout. }
  exists s', (clear_pages vs G), l'. split_and!; [done..| | |done].
  - transitivity s; [done|]. apply (keeps_leaves [] (clear_pages vs G)); [|done].
    by rewrite (leaf_frames_eq (clear_pages vs G) G0).
  - by rewrite tabs_clear.
Qed.

(** The loop: every page, or nothing when the frames run out. *)
Lemma grow_pages_run G0 s0 first last pages done_ s G l :
  steps first last PAGE_SIZE = done_ ++ pages ->
  own [] s G l -> grown G0 s0 done_ s G -> Forall upage (done_ ++ pages) ->
  (forall v, v ∈ done_ ++ pages -> leaves G0 !! path v = None) ->
  exists e s' G' l', grow_pages g as_ first pages s = (e, s') /\ own [] s' G' l' /\
    match e with
    | Nok => grown G0 s0 (done_ ++ pages) s' G'
    | NoutOfMemory => keeps [] G0 s0 s' /\ tabs G0 ⊆ tabs G' /\ leaves G' = leaves G0
    | _ => False
    end.
Proof.
  revert done_ s G l. induction pages as [|v pages IH]; intros vs s G l Hst Ho Hg Hup Hz0.
  { exists Nok, s, G, l. rewrite app_nil_r. done. }
  assert (Hn : NoDup (vs ++ v :: pages)) by (rewrite <- Hst; by apply NoDup_steps).
  assert (Hroll : forall s G l, own [] s G l -> grown G0 s0 vs s G ->
    exists s' G' l', rollback_pages as_ first v s = s' /\ own [] s' G' l' /\ keeps [] G0 s0 s' /\
      tabs G0 ⊆ tabs G' /\ leaves G' = leaves G0).
  { intros s1 G1 l1 Ho1 Hg1. unfold rollback_pages.
    rewrite (steps_split first last PAGE_SIZE vs v pages) by done.
    apply NoDup_app in Hn as (Hn & _). apply Forall_app in Hup as [Hup _].
    apply (rollback_run G0 s0 vs s1 G1 l1); [done..|].
    intros w Hw. apply Hz0. rewrite elem_of_app. by left. }
  assert (Huv : upage v).
  { rewrite Forall_forall in Hup. apply Hup. rewrite elem_of_app. right. by left. }
  pose proof (grown_frames G0 s0 vs s G Hg) as Hsub.
  assert (Hvs0 : forall w, w ∈ vs -> leaves G0 !! path w = None)
    by (intros; apply Hz0; rewrite elem_of_app; by left). specialize (Hsub Hvs0).
  destruct l as [|q l].
  { simpl. rewrite (own_alloc_nil root pool [] s G Ho).
    destruct (Hroll s G [] Ho Hg) as (s' & G' & l' & <- & Ho' & Hr').
    by exists NoutOfMemory, (rollback_pages as_ first v s), G', l'. }
  destruct (own_alloc root pool Hnd Hok [] s G q l Ho) as (s1 & E1 & Ho1 & Hk1 & Hq & Hz).
  destruct (own_map g root pool Hnd Hok [] s1 G l q v USER_DATA_FLAGS Ho1 Huv
    (proj1 USER_DATA_wx) (proj2 USER_DATA_wx)) as (r & s2 & G2 & l2 & E2 & Hk2 & Ht2 & Hr).
  simpl. rewrite E1. fold as_ in E2. rewrite E2.
  assert (Hvn : leaves G !! path v = None).
  { destruct Hg as (_ & _ & _ & Hout). rewrite Hout; [apply Hz0; rewrite elem_of_app; right; by left|].
    intros (w & Hw & Hwi)%list_elem_of_fmap. apply NoDup_app in Hn as (_ & Hn & _).
    apply (Hn w Hwi). rewrite <- (upath_inj v w); [by left|done| |done].
    rewrite Forall_forall in Hup. apply Hup. rewrite elem_of_app. by left. }
  destruct r as [[]|e].
  - destruct Hr as (Ho2 & _ & Hl2).
    assert (Hg2 : grown G0 s0 (vs ++ [v]) s2 G2).
    { apply (grow_step G0 s0 vs v s G G2 s1 s2 q); try done. intros w Hw Heq.
      apply NoDup_app in Hn as (_ & Hn & _). apply (Hn w Hw).
      rewrite (upath_inj w v); [by left| |done|done].
      rewrite Forall_forall in Hup. apply Hup. rewrite elem_of_app. by left. }
    rewrite cons_middle, app_assoc in Hst, Hup, Hz0 |- *. by apply (IH _ s2 G2 l2).
  - destruct Hr as (Ho2 & Hl2 & Hcase). destruct Hcase as [[-> ->]|[_ [x Hx]]]; [|congruence].
    destruct (own_free root pool Hnd Hok [] s2 G2 q [] Ho2) as (s3 & E3 & Ho3 & Hk3).
    assert (Hg3 : grown G0 s0 vs s3 G2).
    { destruct Hg as (A & B & C & D).
      assert (Hks : keeps [] G s s3).
      { transitivity s1; [done|]. transitivity s2; [by apply (keeps_drop [] q)|].
        apply (keeps_leaves [] G2); [|done]. by rewrite (leaf_frames_eq G G2). }
      split_and!.
      - transitivity s; [done|]. by apply (keeps_leaves [] G).
      - by transitivity (tabs G).
      - intros w Hw. apply (page_holds_keep g _ _ s s3 G G2 [] w (C w Hw) Hks). by rewrite Hl2.
      - intros ρ Hρ. rewrite Hl2. by apply D. }
    unfold free_frame. rewrite E3. simpl.
    destruct (Hroll s3 G2 [q] Ho3 Hg3) as (s' & G' & l' & <- & Ho' & Hr').
    by exists NoutOfMemory, (rollback_pages as_ first v s3), G', l'.
Qed.

Lemma align_up_top x : 0 <= x < NX_USER_STACK_GUARD -> align_up x PAGE_SIZE <= NX_USER_STACK_GUARD.
Proof.
  intros Hx. assert (E : align_up NX_USER_STACK_GUARD PAGE_SIZE = NX_USER_STACK_GUARD) by done.
  rewrite <- E. apply align_up_mono; [lia|]. by vm_compute.
Qed.

(** The pages between two ends of the heap. *)
Lemma heap_pages a b v : 0 < a -> a <= b -> b < NX_USER_STACK_GUARD ->
  v ∈ steps (align_up a PAGE_SIZE) (align_up b PAGE_SIZE) PAGE_SIZE <->
  upage v /\ align_up a PAGE_SIZE <= v < align_up b PAGE_SIZE.
Proof.
  intros Ha Hab Hb. assert (Hg : NX_USER_STACK_GUARD < USER_SPACE_END) by by vm_compute.
  assert (Hg' : USER_SPACE_END < 2 ^ 63) by by vm_compute.
  destruct (align_up_bounds a) as [B1 M1]; [lia|]. pose proof (align_up_top b ltac:(lia)).
  rewrite elem_of_pages by done. unfold upage. lia.
Qed.

Lemma heap_pages_up a b : 0 < a -> a <= b -> b < NX_USER_STACK_GUARD ->
  Forall upage (steps (align_up a PAGE_SIZE) (align_up b PAGE_SIZE) PAGE_SIZE).
Proof. intros. apply Forall_forall. intros v Hv. by apply heap_pages in Hv as [? _]. Qed.

(** What [umem_brk] promises when the heap is to end at [b]. *)
Definition brk_moved p b s G s' G' : Prop :=
  let lo := align_up (heap_brk p) PAGE_SIZE in let hi := align_up b PAGE_SIZE in
  (forall v, upage v -> lo <= v < hi -> zero_page s' G' v) /\
  (forall ρ, (forall v, upage v -> Z.min lo hi <= v < Z.max lo hi -> ρ <> path v) ->
     leaves G' !! ρ = leaves G !! ρ) /\
  keeps [] (clear_pages (steps hi lo PAGE_SIZE) G) s s'.

Lemma grow_run s G l p b : own [] s G l -> heap_inv G (heap_start p) (heap_brk p) ->
  heap_brk p <= b < NX_USER_STACK_GUARD ->
  let first := align_up (heap_brk p) PAGE_SIZE in let last := align_up b PAGE_SIZE in
  exists e s' G' l', grow_pages g as_ first (steps first last PAGE_SIZE) s = (e, s') /\
    own [] s' G' l' /\
    match e with
    | Nok => heap_inv G' (heap_start p) b /\ brk_moved p b s G s' G'
    | NoutOfMemory => leaves G' = leaves G /\ keeps [] G s s'
    | _ => False
    end.
Proof.
  intros Ho [Hs Hb Hm Hr] Hbb first last.
  assert (Hg' : NX_USER_STACK_GUARD < 2 ^ 63) by by vm_compute.
  pose proof (align_up_top b ltac:(lia)) as Htop.
  pose proof (align_up_mono (heap_brk p) b ltac:(lia) ltac:(lia)) as Hmono.
  assert (Hpg : forall v, v ∈ steps first last PAGE_SIZE <-> upage v /\ first <= v < last)
    by (intros; apply heap_pages; lia).
  destruct (grow_pages_run G s first last (steps first last PAGE_SIZE) [] s G l)
    as (e & s' & G' & l' & E & Ho' & He); [done|done| | | |].
  - split_and!; [reflexivity|done| |done]. intros v Hv. by apply elem_of_nil in Hv.
  - by apply heap_pages_up; lia.
  - intros v [Hv Hvr]%Hpg. apply Hr; [done|]. unfold first, last in Hvr. lia.
  - exists e, s', G', l'. split; [done|]. split; [done|]. destruct e; try done; [|by destruct He as (?&?&?)].
    simpl in He. destruct He as (Hk & _ & Hz & Hout). split; [split|split_and!].
    + lia.
    + lia.
    + intros v Hv Hvr. destruct (decide (v < first)) as [Hlt|Hge].
      * rewrite Hout; [apply Hm; [done|unfold first in Hlt; lia]|].
        intros (w & Hw & [Hwu Hwr]%Hpg)%list_elem_of_fmap.
        rewrite (upath_inj v w) in Hlt by done. lia.
      * destruct (Hz v) as (q & Hq & _); [|by rewrite Hq]. apply Hpg. split; [done|]. unfold last. lia.
    + intros v Hv Hvr. rewrite Hout; [apply Hr; [done|lia]|].
      intros (w & Hw & [Hwu Hwr]%Hpg)%list_elem_of_fmap.
      rewrite (upath_inj v w) in Hvr by done. unfold last in Hwr. lia.
    + intros v Hv Hvr. apply Hz, Hpg. done.
    + intros ρ Hρ. apply Hout. intros (v & -> & [Hvu Hvr]%Hpg)%list_elem_of_fmap.
      apply (Hρ v Hvu); [|done]. unfold first, last in Hvr. lia.
    + apply (keeps_leaves [] G); [|done]. apply leaf_frames_clear.
Qed.

Lemma shrink_run s G l p b : own [] s G l -> heap_inv G (heap_start p) (heap_brk p) ->
  heap_start p <= b <= heap_brk p ->
  let first := align_up b PAGE_SIZE in let last := align_up (heap_brk p) PAGE_SIZE in
  exists s' G' l', unmap_pages as_ (steps first last PAGE_SIZE) s = s' /\ own [] s' G' l' /\
    heap_inv G' (heap_start p) b /\ brk_moved p b s G s' G'.
Proof.
  intros Ho [Hs Hb Hm Hr] Hbb first last.
  assert (Hg' : NX_USER_STACK_GUARD < 2 ^ 63) by by vm_compute.
  pose proof (align_up_top (heap_brk p) ltac:(lia)) as Htop.
  pose proof (align_up_mono b (heap_brk p) ltac:(lia) ltac:(lia)) as Hmono.
  pose proof (align_up_mono (heap_start p) b ltac:(lia) ltac:(lia)) as Hmono'.
  assert (Hpg : forall v, v ∈ steps first last PAGE_SIZE <-> upage v /\ first <= v < last)
    by (intros; apply heap_pages; lia).
  set (vs := steps first last PAGE_SIZE) in *.
  destruct (unmap_pages_run vs s [] G l) as (s' & l' & E & Ho' & Hk); [done|by apply NoDup_steps| | |].
  - by apply heap_pages_up; lia.
  - intros v [Hv Hvr]%Hpg. apply Hm; [done|]. unfold first, last in Hvr. lia.
  - exists s', (clear_pages vs G), l'. split; [done|]. split; [done|].
    assert (Hout : forall v, upage v -> ~ (first <= v < last) ->
      leaves (clear_pages vs G) !! path v = leaves G !! path v).
    { intros v Hv Hn. rewrite leaves_clear, decide_False; [done|].
      intros (w & Hw & [Hwu Hwr]%Hpg)%list_elem_of_fmap. by rewrite (upath_inj v w) in Hn. }
    split; [split|split_and!].
    + lia.
    + lia.
    + intros v Hv Hvr. rewrite Hout by (unfold first, last; lia || done). apply Hm; [done|lia].
    + intros v Hv Hvr. destruct (decide (v < last)) as [Hlt|Hge].
      * rewrite leaves_clear, decide_True; [done|]. apply list_elem_of_fmap. exists v.
        split; [done|]. apply Hpg. split; [done|]. unfold first. lia.
      * rewrite Hout by (done || lia). apply Hr; [done|]. unfold last in Hge. lia.
    + intros v Hv Hvr. exfalso. unfold first, last in *. lia.
    + intros ρ Hρ. rewrite leaves_clear, decide_False; [done|].
      intros (v & -> & [Hvu Hvr]%Hpg)%list_elem_of_fmap.
      apply (Hρ v Hvu); [|done]. unfold first, last in Hvr. lia.
    + done.
Qed.

(** What an outcome [r] of [umem_brk p increment] may come with. *)
Definition brk_result p (increment : Z) s G (r : res Z) p' s' G' : Prop :=
  match r with
  | Ok b => p' = set_heap_brk b p /\ b = heap_brk p + increment /\
      (0 < increment -> b - heap_start p <= NX_HEAP_MAX_TOTAL) /\ brk_moved p b s G s' G'
  | Err NinvalidArg => p' = p /\ s' = s /\ G' = G /\
      (NX_HEAP_GROW_MAX_PER_CALL < increment \/ heap_brk p + increment < heap_start p)
  | Err NoutOfMemory => p' = p /\ 0 < increment /\ leaves G' = leaves G /\ keeps [] G s s'
  | Err _ => False
  end.

Lemma brk_grow s G l p b : own [] s G l -> heap_inv G (heap_start p) (heap_brk p) ->
  heap_brk p < b < NX_USER_STACK_GUARD -> b - heap_start p <= NX_HEAP_MAX_TOTAL ->
  exists r p' s' G' l',
    (let first := align_up (heap_brk p) PAGE_SIZE in
     let last := align_up b PAGE_SIZE in
     let '(status, s') := grow_pages g as_ first (steps first last PAGE_SIZE) s in
     if is_err status then ((Err status, p), s') else ((Ok b, set_heap_brk b p), s'))
      = ((r, p'), s') /\
    own [] s' G' l' /\ heap_inv G' (heap_start p') (heap_brk p') /\
    brk_result p (b - heap_brk p) s G r p' s' G'.
Proof.
  intros Ho Hi Hb Hmax. destruct (grow_run s G l p b Ho Hi) as (e & s' & G' & l' & E & Ho' & He); [lia|].
  cbv zeta. rewrite E. destruct e; try done.
  - exists (Ok b), (set_heap_brk b p), s', G', l'. destruct He as [Hh Hmv].
    split; [done|]. split; [done|]. split; [exact Hh|]. split; [done|]. split; [lia|]. done.
  - exists (Err NoutOfMemory), p, s', G', l'. destruct He as [Hl Hk]. split; [done|]. split; [done|].
    split; [|split; [done|split; [lia|done]]]. destruct Hi as [A B C D]. by split; rewrite ?Hl.
Qed.

Lemma brk_shrink s G l p b : own [] s G l -> heap_inv G (heap_start p) (heap_brk p) ->
  heap_start p <= b < heap_brk p ->
  exists r p' s' G' l',
    ((Ok b, set_heap_brk b p),
     unmap_pages as_ (steps (align_up b PAGE_SIZE) (align_up (heap_brk p) PAGE_SIZE) PAGE_SIZE) s)
      = ((r, p'), s') /\
    own [] s' G' l' /\ heap_inv G' (heap_start p') (heap_brk p') /\
    brk_result p (b - heap_brk p) s G r p' s' G'.
Proof.
  intros Ho Hi Hb. destruct (shrink_run s G l p b Ho Hi) as (s' & G' & l' & E & Ho' & Hh & Hmv); [lia|].
  rewrite E. exists (Ok b), (set_heap_brk b p), s', G', l'. split; [done|]. split; [done|].
  split; [exact Hh|]. split; [done|]. split; [lia|]. split; [lia|done].
Qed.

(** C27: [umem_brk] moves the end of the heap by exactly the increment, or
    leaves the process as it is: it never reaches below the start of the heap,
    above the limits or into the stack guard.  A growth maps every new page, to
    zeros, and a shrinking unmaps and frees every page given up; no other
    mapping changes, no byte of another mapped page changes, and when the
    frames run out the mappings and the bytes are those from before. *)
Theorem umem_brk_spec s G l p (increment : Z) :
  own [] s G l -> addrspace p = as_ -> heap_inv G (heap_start p) (heap_brk p) ->
  - 2 ^ 63 <= increment < 2 ^ 63 ->
  exists r p' s' G' l', umem_brk g p increment s = ((r, p'), s') /\ own [] s' G' l' /\
    heap_inv G' (heap_start p') (heap_brk p') /\ brk_result p increment s G r p' s' G'.
Proof.
  intros Ho Has Hi Hinc. pose proof Hi as [Hs Hb _ _].
  assert (Hg' : NX_USER_STACK_GUARD < 2 ^ 47) by by vm_compute.
  assert (Hkeep : forall r, brk_result p increment s G r p s G -> exists r' p' s' G' l',
    ((r, p), s) = ((r', p'), s') /\ own [] s' G' l' /\ heap_inv G' (heap_start p') (heap_brk p') /\
    brk_result p increment s G r' p' s' G') by (intros r Hr; by exists r, p, s, G, l).
  unfold umem_brk. rewrite Has. destruct Ho as (Hsys & Hroot & Hp).
  cbn [pml4 as_]. rewrite (root_nonzero s G l root Hsys Hroot).
  assert (Ho : own [] s G l) by (split; [done|split; done]). clear Hsys Hroot Hp.
  case_if; [|case_if; [|case_if; [|]]].
  - subst. apply Hkeep. split; [by destruct p|]. split; [lia|]. split; [lia|]. split_and!; [|done|reflexivity].
    intros v Hv Hvr. exfalso. lia.
  - rewrite (uw_small 64 increment) by lia. case_if; [apply Hkeep; simpl; auto with lia|].
    assert (Hlim : NX_HEAP_GROW_MAX_PER_CALL < 2 ^ 47) by by vm_compute.
    rewrite (uw_small 64 (heap_brk p + increment)) by lia.
    rewrite (uw_small 64 (_ - heap_start p)) by lia.
    case_if; [apply Hkeep; split; [done|]; split; [lia|]; by split|].
    case_if; [apply Hkeep; split; [done|]; split; [lia|]; by split|].
    pose proof (brk_grow s G l p (heap_brk p + increment) Ho Hi ltac:(lia) ltac:(lia)) as Hr.
    replace (heap_brk p + increment - heap_brk p) with increment in Hr by lia. exact Hr.
  - apply Hkeep. simpl. split_and!; try done. right. lia.
  - rewrite (uw_small 64 (- increment)) by lia. rewrite (uw_small 64 (_ - heap_start p)) by lia.
    case_if; [apply Hkeep; simpl; split_and!; try done; right; lia|].
    rewrite (uw_small 64 (heap_brk p - - increment)) by lia.
    pose proof (brk_shrink s G l p (heap_brk p - - increment) Ho Hi ltac:(lia)) as Hr.
    replace (heap_brk p - - increment - heap_brk p) with increment in Hr by lia. exact Hr.
Qed.
End umem.
