(* ===== verification/Elf.v ===== *)
(** * The program loader: [nxkernel/kernel/process/elf.c]

    The loader reads an open file through [FileIO], allocates frames and maps
    them.  Its state is the frames and memory, the layer of files, and the
    handle it was given ([handle_t *file]). *)

From S2P Require Import Prelude Types Mem Memory Bytes FrameAlloc Paging Handles FileIO.

(** [ELF_MAGIC]: nxkernel/kernel/process/elf.c:15-15 *)
Definition ELF_MAGIC : Z := 0x464C457F.
(** [ET_EXEC]: nxkernel/kernel/process/elf.c:16-16 *)
Definition ET_EXEC : Z := 2.
(** [EM_X86_64]: nxkernel/kernel/process/elf.c:17-17 *)
Definition EM_X86_64 : Z := 62.
(** [PT_LOAD]: nxkernel/kernel/process/elf.c:18-18 *)
Definition PT_LOAD : Z := 1.
(** [PF_X]: nxkernel/kernel/process/elf.c:19-19 *)
Definition PF_X : Z := 1.
(** [PF_W]: nxkernel/kernel/process/elf.c:20-20 *)
Definition PF_W : Z := 2.
(** [ELFCLASS64]: nxkernel/kernel/process/elf.c:22-22 *)
Definition ELFCLASS64 : Z := 2.
(** [ELFDATA2LSB]: nxkernel/kernel/process/elf.c:23-23 *)
Definition ELFDATA2LSB : Z := 1.
(** [ELF_MAX_PHNUM]: nxkernel/kernel/process/elf.c:25-25 *)
Definition ELF_MAX_PHNUM : Z := 32.
(** [NX_ELF_MAX_FILE]: nxkernel/kernel/process/elf.c:29-29 *)
Definition NX_ELF_MAX_FILE : Z := 64 * 1024 * 1024.
(** [NX_USER_ELF_MIN_VADDR]: nxkernel/kernel/process/elf.c:34-34 *)
Definition NX_USER_ELF_MIN_VADDR : Z := 0x10000.
(** [NX_USER_ELF_MAX_VADDR]: nxkernel/kernel/process/elf.c:35-35 *)
Definition NX_USER_ELF_MAX_VADDR : Z := 0x0000700000000000.

(** The fields of the file header the loader looks at. *)
(** [elf64_header_t]: nxkernel/kernel/process/elf.c:37-66 *)
Record elf64_header_t := mk_ehdr {
  e_magic : Z;
  e_class : Z;
  e_data : Z;
  e_type : Z;
  e_machine : Z;
  e_entry : Z;
  e_phoff : Z;
  e_phentsize : Z;
  e_phnum : Z;
}.

(** [elf64_phdr_t]: nxkernel/kernel/process/elf.c:68-81 *)
Record elf64_phdr_t := mk_phdr {
  p_type : Z;
  p_flags : Z;
  p_offset : Z;
  p_vaddr : Z;
  p_paddr : Z;
  p_filesz : Z;
  p_memsz : Z;
  p_align : Z;
}.

(** Their sizes, and the bytes read as one. *)
Definition sizeof_ehdr : nat := 64.
Definition sizeof_phdr : nat := 56.

Definition ehdr_of (bs : list Z) : elf64_header_t :=
  mk_ehdr (field 0 4 bs) (field 4 1 bs) (field 5 1 bs) (field 16 2 bs) (field 18 2 bs)
    (field 24 8 bs) (field 32 8 bs) (field 54 2 bs) (field 56 2 bs).

Definition phdr_of (bs : list Z) : elf64_phdr_t :=
  mk_phdr (field 0 4 bs) (field 4 4 bs) (field 8 8 bs) (field 16 8 bs) (field 24 8 bs)
    (field 32 8 bs) (field 40 8 bs) (field 48 8 bs).

Definition phdrs_of (n : nat) (bs : list Z) : list elf64_phdr_t :=
  (fun i => phdr_of (slice (sizeof_phdr * i) sizeof_phdr bs)) <$> seq 0 n.

(** [align_up]: nxkernel/kernel/process/elf.c:86-89 *)
Definition align_up (v a : Z) : Z := Z.land (u64 (u64 (v + a) - 1)) (unot 64 (u64 (a - 1))).

(** What [elf_load] works on. *)
Record loader (S V F : Type) := mk_loader { ld_fa : S; ld_vfs : V; ld_file : F }.
#[global] Arguments mk_loader {S V F}.
#[global] Arguments ld_fa {S V F}.
#[global] Arguments ld_vfs {S V F}.
#[global] Arguments ld_file {S V F}.

Section elf.
Context {S V F : Type} `{FrameAllocator S} `{FileIO V F}.
Context (g : paging_globals) (as_ : addr_space_t).
Implicit Types (t : loader S V F).

(** A part of the state at a time. *)
Definition on_fa {A} (c : ST S A) : ST (loader S V F) A := fun t =>
  let '(a, s) := c (ld_fa t) in (a, mk_loader s (ld_vfs t) (ld_file t)).
Definition on_file {A} (c : ST (F * V) A) : ST (loader S V F) A := fun t =>
  let '(a, (f, v)) := c (ld_file t, ld_vfs t) in (a, mk_loader (ld_fa t) v f).

(** The status, and the bytes stored at the start of the buffer. *)
(** [read_exact]: nxkernel/kernel/process/elf.c:92-105 *)
Definition read_exact (offset len : Z) : ST (F * V) (Nerror * list Z) := fun '(f, v) =>
  let '((status, bs), fv) := file_read len (file_set_offset offset f, v) in
  if is_err status then ((status, bs), fv)
  else if negb (Z.of_nat (length bs) =? len) then ((NfileCorrupted, bs), fv)
  else ((Nok, bs), fv).

(** [segment_flags]: nxkernel/kernel/process/elf.c:121-127 *)
Definition segment_flags (ph : elf64_phdr_t) : Z :=
  let flags := PAGE_USER in
  let flags := if tst (p_flags ph) PF_W then Z.lor flags PAGE_RW else flags in
  if negb (tst (p_flags ph) PF_X) then Z.lor flags PAGE_NX else flags.

(** The part of the file that goes to the page at [seg_off] of the segment. *)
(** [segment_copy_len]: nxkernel/kernel/process/elf.c:132-143 *)
Definition segment_copy_len (ph : elf64_phdr_t) (seg_off : Z) : Z :=
  if seg_off <? p_filesz ph then
    let remain := u64 (p_filesz ph - seg_off) in
    if remain <? PAGE_SIZE then remain else PAGE_SIZE
  else 0.

(** The bytes a read stores go to the frame even when the read fails. *)
(** [load_page]: nxkernel/kernel/process/elf.c:129-160 *)
Definition load_page (ph : elf64_phdr_t) (page : Z) : ST (loader S V F) (res unit) :=
  phys <-? on_fa fa_alloc ;;
  let seg_off := u64 (page - p_vaddr ph) in
  let copy_len := segment_copy_len ph seg_off in
  r <- on_file (if 0 <? copy_len then read_exact (u64 (p_offset ph + seg_off)) copy_len
                else ret (Nok, [])) ;;
  let '(status, bs) := r in
  on_fa (modify (fun s => fa_set_mem (st_bytes (phys_to_virt phys) bs (fa_mem s)) s)) ;;;
  if is_err status then on_fa (fa_free phys) ;;; fail status
  else
    r <- on_fa (paging_map_page g (Some as_) phys page (segment_flags ph)) ;;
    match r with
    | Err status => on_fa (fa_free phys) ;;; fail status
    | Ok _ => ok tt
    end.

Fixpoint load_pages (ph : elf64_phdr_t) (pages : list Z) : ST (loader S V F) (res unit) :=
  match pages with
  | [] => ok tt
  | page :: pages => _ <-? load_page ph page ;; load_pages ph pages
  end.

(** [load_segment]: nxkernel/kernel/process/elf.c:118-163 *)
Definition load_segment (ph : elf64_phdr_t) : ST (loader S V F) (res unit) :=
  let vaddr_end := align_up (u64 (p_vaddr ph + p_memsz ph)) PAGE_SIZE in
  load_pages ph (steps (p_vaddr ph) vaddr_end PAGE_SIZE).

(** The tests on a segment to load. *)
(** [phdr_ok]: nxkernel/kernel/process/elf.c:215-224 *)
Definition phdr_ok (file_size : Z) (ph : elf64_phdr_t) : bool :=
  negb ((p_memsz ph =? 0) || (p_memsz ph <? p_filesz ph)) &&
  negb ((file_size <? p_offset ph) || (u64 (file_size - p_offset ph) <? p_filesz ph)) &&
  (Z.land (p_vaddr ph) (PAGE_SIZE - 1) =? 0) &&
  negb ((p_vaddr ph <? NX_USER_ELF_MIN_VADDR) || (NX_USER_ELF_MAX_VADDR <=? p_vaddr ph)) &&
  negb (u64 (NX_USER_ELF_MAX_VADDR - p_vaddr ph) <? p_memsz ph).

(** The first loop of [elf_load]: [None] for a malformed header. *)
(** [check_phdrs]: nxkernel/kernel/process/elf.c:208-235 *)
Fixpoint check_phdrs (file_size entry : Z) (phs : list elf64_phdr_t)
    (image_end : Z) (entry_ok any_load : bool) : option (Z * bool * bool) :=
  match phs with
  | [] => Some (image_end, entry_ok, any_load)
  | ph :: phs =>
      if negb (p_type ph =? PT_LOAD) then check_phdrs file_size entry phs image_end entry_ok any_load
      else if negb (phdr_ok file_size ph) then None
      else
        let seg_end := align_up (u64 (p_vaddr ph + p_memsz ph)) PAGE_SIZE in
        let image_end := if image_end <? seg_end then seg_end else image_end in
        let entry_ok :=
          if tst (p_flags ph) PF_X && (p_vaddr ph <=? entry) &&
             (u64 (entry - p_vaddr ph) <? p_memsz ph) then true else entry_ok in
        check_phdrs file_size entry phs image_end entry_ok true
  end.

(** The second one. *)
(** [load_phdrs]: nxkernel/kernel/process/elf.c:240-247 *)
Fixpoint load_phdrs (phs : list elf64_phdr_t) : ST (loader S V F) (res unit) :=
  match phs with
  | [] => ok tt
  | ph :: phs =>
      if negb (p_type ph =? PT_LOAD) then load_phdrs phs
      else _ <-? load_segment ph ;; load_phdrs phs
  end.

(** A read into a local structure. *)
Definition read_struct (offset len : Z) : ST (loader S V F) (res (list Z)) :=
  r <- on_file (read_exact offset len) ;; if is_err r.1 then fail r.1 else ok r.2.

(** [elf_load]: nxkernel/kernel/process/elf.c:165-252 *)
Definition elf_load : ST (loader S V F) (res (Z * Z)) :=
  if pml4 as_ =? 0 then fail NinvalidArg
  else
    st <-? on_file (fun '(f, v) => let '(r, v) := file_stat f v in (r, (f, v))) ;;
    let file_size := st_size st in
    if (file_size =? 0) || (NX_ELF_MAX_FILE <? file_size) then fail NinvalidFormat
    else
      bs <-? read_struct 0 (Z.of_nat sizeof_ehdr) ;;
      let hdr := ehdr_of bs in
      if negb (e_magic hdr =? ELF_MAGIC) || negb (e_class hdr =? ELFCLASS64) ||
         negb (e_data hdr =? ELFDATA2LSB) || negb (e_type hdr =? ET_EXEC) ||
         negb (e_machine hdr =? EM_X86_64) then fail Nunsupported
      else if negb (e_phentsize hdr =? Z.of_nat sizeof_phdr) || (e_phnum hdr =? 0) ||
         (ELF_MAX_PHNUM <? e_phnum hdr) then fail NinvalidFormat
      else if (file_size <? e_phoff hdr) ||
         (u64 (file_size - e_phoff hdr) <? e_phnum hdr * Z.of_nat sizeof_phdr) then fail NinvalidFormat
      else
        bs <-? read_struct (e_phoff hdr) (e_phnum hdr * Z.of_nat sizeof_phdr) ;;
        let phdrs := phdrs_of (Z.to_nat (e_phnum hdr)) bs in
        match check_phdrs file_size (e_entry hdr) phdrs 0 false false with
        | None => fail NinvalidFormat
        | Some (image_end, entry_ok, any_load) =>
            if negb any_load || negb entry_ok then fail NinvalidFormat
            else _ <-? load_phdrs phdrs ;; ok (e_entry hdr, image_end)
        end.
End elf.
