(* ===== verification/ElfProps.v ===== *)
(** * The program loader, specified

    [load_page_run], [load_pages_run], [load_phdrs_run] follow the loader from
    one page to the whole image, over any layer of files that stays within
    the buffer it is given; [image] says what a loaded program looks like. *)

From S2P Require Import Prelude Types Mem Memory Bytes FrameAlloc Paging PagingSpec AddrSpace SpaceLife Handles FileIO Owned Umem Elf.

#[local] Opaque paging_map_page.

(** The byte of the segment at offset [i]: from the file, then zeros. *)
Definition seg_byte (d : list Z) (ph : elf64_phdr_t) (i : Z) : Z :=
  if i <? p_filesz ph then default 0 (d !! Z.to_nat (p_offset ph + i)) mod 256 else 0.

(** The pages of a segment. *)
Definition seg_end (ph : elf64_phdr_t) : Z := Elf.align_up (u64 (p_vaddr ph + p_memsz ph)) PAGE_SIZE.
Definition seg_pages (ph : elf64_phdr_t) : list Z := steps (p_vaddr ph) (seg_end ph) PAGE_SIZE.

(** What the tests of [elf_load] leave. *)
Record seg_ok (size : Z) (ph : elf64_phdr_t) : Prop := {
  so_sizes : 0 <= p_filesz ph <= p_memsz ph /\ 0 < p_memsz ph;
  so_file : 0 <= p_offset ph /\ p_offset ph + p_filesz ph <= size;
  so_aligned : p_vaddr ph mod PAGE_SIZE = 0;
  so_range : NX_USER_ELF_MIN_VADDR <= p_vaddr ph /\ p_vaddr ph + p_memsz ph <= NX_USER_ELF_MAX_VADDR;
}.

Definition phdr_word (ph : elf64_phdr_t) : Prop :=
  word (p_offset ph) /\ word (p_vaddr ph) /\ word (p_filesz ph) /\ word (p_memsz ph).

Lemma phdr_of_word bs : phdr_word (phdr_of bs).
Proof. split_and!; apply (field_range _ 8). Qed.

Lemma phdr_ok_spec size ph : 0 <= size < 2 ^ 63 -> phdr_word ph ->
  phdr_ok size ph = true -> seg_ok size ph.
Proof.
  intros Hsz (Ho & Hv & Hf & Hm). unfold phdr_ok, word in *. intros H.
  assert (Hmax : NX_USER_ELF_MAX_VADDR < 2 ^ 63) by by vm_compute. bool_simpl.
  assert (Hz : u64 (size - p_offset ph) = size - p_offset ph) by (apply uw_small; lia).
  assert (Hx : u64 (NX_USER_ELF_MAX_VADDR - p_vaddr ph) = NX_USER_ELF_MAX_VADDR - p_vaddr ph)
    by (apply uw_small; lia).
  rewrite Hz in *. rewrite Hx in *. split; [lia|lia| |lia].
  change PAGE_SIZE with (2 ^ 12) in *. rewrite land_ones_mod in * by lia. done.
Qed.

Section bounds.
Context (size : Z) (ph : elf64_phdr_t) (Hph : seg_ok size ph).

Lemma seg_end_bounds : p_vaddr ph + p_memsz ph <= seg_end ph <= NX_USER_ELF_MAX_VADDR.
Proof.
  destruct Hph as [A B C [D E]]. unfold seg_end. change Elf.align_up with Umem.align_up.
  assert (Hmax : NX_USER_ELF_MAX_VADDR < 2 ^ 63) by by vm_compute.
  assert (Hmin : 0 < NX_USER_ELF_MIN_VADDR) by by vm_compute.
  rewrite uw_small by lia. split; [apply align_up_bounds; lia|].
  assert (Ea : Umem.align_up NX_USER_ELF_MAX_VADDR PAGE_SIZE = NX_USER_ELF_MAX_VADDR) by done.
  rewrite <- Ea. apply align_up_mono; lia.
Qed.

Lemma seg_pages_spec v : v ∈ seg_pages ph <-> p_vaddr ph <= v < seg_end ph /\ v mod PAGE_SIZE = 0.
Proof. apply elem_of_pages. by destruct Hph. Qed.

Lemma seg_pages_upage : Forall upage (seg_pages ph).
Proof.
  apply Forall_forall. intros v [Hv Hm]%seg_pages_spec. pose proof seg_end_bounds.
  destruct Hph as [_ _ _ [D _]]. assert (0 < NX_USER_ELF_MIN_VADDR) by by vm_compute.
  assert (NX_USER_ELF_MAX_VADDR < USER_SPACE_END) by by vm_compute. split; [lia|done].
Qed.

(** Every byte of the segment is in one of its pages. *)
Lemma seg_page_of v : p_vaddr ph <= v < seg_end ph -> page_of v ∈ seg_pages ph.
Proof.
  intros Hv. apply seg_pages_spec. destruct Hph as [_ _ C [D _]].
  unfold page_of, PAGE_SIZE in *. pose proof (Z.mod_pos_bound v 4096). split; [split|].
  - pose proof (Z.div_mod v 4096). pose proof (Z.div_mod (p_vaddr ph) 4096). lia.
  - lia.
  - rewrite Zminus_mod_idemp_r. by rewrite Z.sub_diag.
Qed.

Lemma copy_len_range page : page ∈ seg_pages ph ->
  let n := segment_copy_len ph (u64 (page - p_vaddr ph)) in
  p_filesz ph < 2 ^ 63 -> size < 2 ^ 63 -> 0 <= n <= PAGE_SIZE /\
  (forall i, 0 <= i < PAGE_SIZE -> (i < n <-> page - p_vaddr ph + i < p_filesz ph)) /\
  (0 < n -> u64 (p_offset ph + u64 (page - p_vaddr ph)) = p_offset ph + (page - p_vaddr ph)).
Proof.
  intros [Hp Hm]%seg_pages_spec n. destruct Hph as [A B C [D E]]. pose proof seg_end_bounds.
  assert (Hmax : NX_USER_ELF_MAX_VADDR < 2 ^ 63) by by vm_compute.
  assert (Hmin : 0 < NX_USER_ELF_MIN_VADDR) by by vm_compute.
  subst n. unfold segment_copy_len, PAGE_SIZE in *. rewrite (uw_small 64 (page - p_vaddr ph)) by lia.
  case_if; [rewrite (uw_small 64 (p_filesz ph - _)) by lia; case_if|].
  - split; [lia|]. split; [intros; lia|]. intros _. apply uw_small. lia.
  - split; [lia|]. split; [intros; lia|]. intros _. apply uw_small. lia.
  - split; [lia|]. split; [intros; lia|]. lia.
Qed.
End bounds.

(** What the loader relies on to be safe: a read stores no more bytes than
    asked for, and a size is not negative. *)
Class FileIOSafe (V F : Type) `{FileIO V F} := {
  file_read_length n fv st bs fv' : 0 <= n -> file_read n fv = ((st, bs), fv') ->
    (length bs <= Z.to_nat n)%nat;
  file_stat_size f v st v' : file_stat f v = (Ok st, v') -> 0 <= st_size st;
  file_stat_err f v e v' : file_stat f v = (Err e, v') -> is_err e = true;
}.

Section load.
Context {S V F : Type} `{FrameAllocatorLaws S} `{FileIOSafe V F}.
Context (g : paging_globals) (root : Z).
Context (pool : list Z) (Hnd : NoDup pool) (Hok : Forall frame_ok pool).
Implicit Types (s : S) (G : space) (l : list Z) (t : loader S V F) (ph : elf64_phdr_t).
Let as_ := mk_as (phys_to_virt root).
Local Abbreviation own := (own root pool).

Lemma read_exact_length off n fv st bs fv' : 0 <= n ->
  read_exact off n fv = ((st, bs), fv') ->
  (length bs <= Z.to_nat n)%nat /\ (is_err st = false -> st = Nok /\ length bs = Z.to_nat n).
Proof.
  intros Hn. unfold read_exact. destruct fv as [f v].
  destruct (file_read n (file_set_offset off f, v)) as [[st0 bs0] fv0] eqn:E.
  pose proof (file_read_length n _ _ _ _ Hn E) as Hl.
  case_if; [|case_if]; intros [= <- <- <-]; (split; [done|]).
  - intros He. congruence.
  - done.
  - intros _. split; [done|lia].
Qed.

(** The flags of a segment are a word. *)
Lemma segment_flags_word ph : word (segment_flags ph).
Proof. unfold segment_flags, word. by repeat case_if. Qed.

(** Mapping a held frame, whatever the flags: a writable and executable
    segment is refused. *)
Lemma own_map_any s G l p v flags : own [p] s G l -> upage v -> word flags ->
  exists r s' G' l', paging_map_page g (Some as_) p v flags s = (r, s') /\
    keeps [p] G s s' /\ tabs G ⊆ tabs G' /\
    match r with
    | Ok _ => own [] s' G' l' /\ leaves G !! path v = None /\ wx_ok g flags /\
        leaves G' = <[path v := leaf_of g p flags]> (leaves G)
    | Err e => own [p] s' G' l' /\ leaves G' = leaves G /\ is_err e = true
    end.
Proof.
  intros Ho Hv Hf. destruct (decide (wx_ok g flags)) as [Hw|Hw].
  - destruct (own_map g root pool Hnd Hok [] s G l p v flags Ho Hv Hf Hw)
      as (r & s' & G' & l' & E & Hk & Ht & Hr). exists r, s', G', l'.
    split; [exact E|]. split; [done|]. split; [done|]. destruct r as [[]|e]; [tauto|].
    destruct Hr as (A & B & C). split; [done|]. split; [done|]. by destruct C as [[-> _]|[-> _]].
  - destruct (own_in root pool Hnd Hok [p] s G l p Ho ltac:(by left)) as (Hp & _).
    pose proof Ho as (Hsys & Hroot & _). pose proof (frame_phys_ok p Hp) as Hpp.
    pose proof (map_page_guards g s root p v flags (root_nonzero _ _ _ _ Hsys Hroot)) as Hg.
    cbv zeta in Hg. rewrite decide_True, decide_False in Hg by done.
    exists (Err Npermission), s, G, l. split; [|split; [reflexivity|done]]. apply Hg.
    + destruct Hpp. unfold word. lia.
    + destruct Hv as [Hv _]. unfold word. assert (USER_SPACE_END < 2 ^ 64) by by vm_compute. lia.
Qed.

(** The file part of [load_page]. *)
Definition page_read ph page : ST (F * V) (Nerror * list Z) :=
  let seg_off := u64 (page - p_vaddr ph) in
  let n := segment_copy_len ph seg_off in
  if 0 <? n then read_exact (u64 (p_offset ph + seg_off)) n else ret (Nok, []).

Definition fv t : F * V := (ld_file t, ld_vfs t).

(** One page: either it is mapped with the bytes read, or nothing changes in
    the mappings and the frame is free again. *)
Lemma load_page_run size ph page t G l : own [] (ld_fa t) G l -> seg_ok size ph ->
  p_filesz ph < 2 ^ 63 -> size < 2 ^ 63 -> page ∈ seg_pages ph ->
  exists r t' G' l', load_page g as_ ph page t = (r, t') /\ own [] (ld_fa t') G' l' /\
    keeps [] G (ld_fa t) (ld_fa t') /\ tabs G ⊆ tabs G' /\
    (fv t' = fv t \/ fv t' = (page_read ph page (fv t)).2) /\
    match r with
    | Ok _ => exists bs, (page_read ph page (fv t)).1 = (Nok, bs) /\ fv t' = (page_read ph page (fv t)).2 /\
        wx_ok g (segment_flags ph) /\ leaves G !! path page = None /\
        page_holds g (segment_flags ph) (fun i => default 0 (bs !! Z.to_nat i) mod 256) (ld_fa t') G' page /\
        (exists e, leaves G' = <[path page := e]> (leaves G))
    | Err e => is_err e = true /\ leaves G' = leaves G
    end.
Proof.
  intros Ho Hph Hf1 Hf2 Hpg. pose proof (seg_pages_upage size ph Hph) as Hup.
  rewrite Forall_forall in Hup. specialize (Hup page Hpg).
  destruct (copy_len_range size ph Hph page Hpg Hf1 Hf2) as (Hn & _).
  unfold load_page, page_read. cbv zeta. set (n := segment_copy_len ph _) in *.
  set (rd := if 0 <? n then _ else _).
  destruct l as [|q l].
  { unfold tryb, on_fa. rewrite (own_alloc_nil root pool [] (ld_fa t) G Ho).
    exists (Err NoutOfMemory), (mk_loader (ld_fa t) (ld_vfs t) (ld_file t)), G, [].
    split; [done|]. split; [done|]. split; [reflexivity|]. split; [done|]. split; [by left|done]. }
  destruct (own_alloc root pool Hnd Hok [] (ld_fa t) G q l Ho) as (s1 & E1 & Ho1 & Hk1 & Hq & Hz).
  unfold tryb at 1, on_fa at 1. rewrite E1. rewrite bind_eq. unfold on_file at 1. cbn [ld_file ld_vfs].
  fold (fv t). destruct (rd (fv t)) as [[st bs] [f2 v2]] eqn:Erd. simpl.
  assert (Hst : (length bs <= Z.to_nat n)%nat /\ (is_err st = false -> st = Nok)).
  { subst rd. case_if_in Erd.
    - destruct (read_exact_length _ _ _ _ _ _ (proj1 Hn) Erd) as [A B]. split; [done|]. by intros C; destruct (B C).
    - unfold ret in Erd. injection Erd as [= <- <- _ _]. split; [simpl; lia|done]. }
  destruct Hst as [Hlen Hst].
  set (m2 := st_bytes (phys_to_virt q) bs (fa_mem s1)).
  assert (Hm2 : forall a, in_frame q a ->
    ld8 m2 a = default 0 (bs !! Z.to_nat (a - phys_to_virt q)) mod 256).
  { intros a Ha. unfold m2. rewrite ld8_st_bytes. case_if; [done|].
    rewrite Hz by done. rewrite lookup_ge_None_2; [done|]. unfold in_frame in Ha. lia. }
  destruct (own_store root pool Hnd Hok [] s1 G l q m2 Ho1) as [Ho2 Hk2].
  { intros a Ha. unfold m2. rewrite ld8_st_bytes. case_if; [|done]. exfalso. apply Ha.
    unfold in_frame. lia. }
  rewrite bind_eq. unfold on_fa at 1, modify. cbn [ld_fa ld_vfs ld_file]. fold m2.
  set (s2 := fa_set_mem m2 s1) in *.
  assert (Hfree : forall s G' l', own [q] s G' l' -> keeps [] G' s (fa_free q s).2 /\
    own [] (fa_free q s).2 G' (q :: l')).
  { intros s G' l' Hs. destruct (own_free root pool Hnd Hok [] s G' q l' Hs) as (s' & -> & Ho' & Hk').
    done. }
  assert (Hfail : forall e G' l' s, own [q] s G' l' -> leaves G' = leaves G -> keeps [] G s2 s ->
    tabs G ⊆ tabs G' -> is_err e = true -> exists (r : res ()) t' G' l',
    (on_fa (fa_free q) ;;; fail e) (mk_loader s v2 f2) = (r, t') /\ own [] (ld_fa t') G' l' /\
    keeps [] G (ld_fa t) (ld_fa t') /\ tabs G ⊆ tabs G' /\
    (fv t' = fv t \/ fv t' = (f2, v2)) /\ r = Err e /\ leaves G' = leaves G).
  { intros e G' l' s Hs Hl Hk Ht He. destruct (Hfree s G' l' Hs) as [Hkf Hof].
    eexists (Err e), (mk_loader (fa_free q s).2 v2 f2), G', _.
    split; [unfold on_fa, bind, fail, ret; cbn [ld_fa ld_vfs ld_file]; by destruct (fa_free q s)|].
    split; [exact Hof|]. split; [|split; [done|split; [by right|done]]].
    transitivity s1; [done|]. transitivity s2; [done|]. transitivity s; [done|].
    apply (keeps_leaves [] G'); [by rewrite (leaf_frames_eq G' G)|done]. }
  destruct (is_err st) eqn:Est.
  - destruct (Hfail st G l s2 Ho2 eq_refl) as (r & t' & G' & l' & E & A & B & C & D & -> & F0);
      [reflexivity|done|done|]. exists (Err st), t', G', l'. by split_and!.
  - specialize (Hst eq_refl) as ->.
    destruct (own_map_any s2 G l q page (segment_flags ph) Ho2 Hup (segment_flags_word ph))
      as (r & s3 & G3 & l3 & E3 & Hk3 & Ht3 & Hr). fold as_ in E3.
    rewrite bind_eq. unfold on_fa at 1. cbn [ld_fa ld_vfs ld_file]. rewrite E3.
    destruct r as [[]|e].
    + destruct Hr as (Ho3 & Hn3 & Hw & Hl3). exists (Ok tt), (mk_loader s3 v2 f2), G3, l3.
      split; [done|]. split; [done|]. split; [|split; [done|split; [by right|]]].
      * transitivity s1; [done|]. transitivity s2; [done|]. by apply (keeps_drop [] q).
      * exists bs. split; [done|]. split; [done|]. split; [done|]. split; [done|]. split; [|by eexists].
        apply (page_holds_map g _ _ s2 s3 G G3 [] q); [done| |done|done].
        intros a Ha. unfold s2. rewrite fa_mem_set. by apply Hm2.
    + destruct Hr as (Ho3 & Hl3 & He).
      destruct (Hfail e G3 l3 s3 Ho3 Hl3) as (r & t' & G' & l' & E & A & B & C & D & -> & F0);
        [by apply (keeps_drop [] q)|done|done|]. exists (Err e), t', G', l'. by split_and!.
Qed.

(** The rest is relative to what the reads preserve ([P]) and, when [K] holds,
    to what they answer: [c ph i] is the byte the file has for the segment
    [ph] at offset [i]. *)
Section runs.
Context (size : Z) (P : F * V -> Prop) (K : Prop) (c : elf64_phdr_t -> Z -> Z).
Definition good_seg ph : Prop := seg_ok size ph /\ p_filesz ph < 2 ^ 63 /\ size < 2 ^ 63.
Context (Hread : forall ph page x, good_seg ph -> page ∈ seg_pages ph -> P x ->
  P (page_read ph page x).2 /\
  (K -> forall bs, (page_read ph page x).1 = (Nok, bs) ->
   forall i, 0 <= i < PAGE_SIZE ->
     default 0 (bs !! Z.to_nat i) mod 256 = c ph (page - p_vaddr ph + i))).

Definition page_loaded ph s G page : Prop :=
  wx_ok g (segment_flags ph) /\
  (exists q, leaves G !! path page = Some (leaf_of g q (segment_flags ph)) /\ frame_ok q) /\
  (K -> page_holds g (segment_flags ph) (fun i => c ph (page - p_vaddr ph + i)) s G page).

Lemma page_loaded_mono ph s s' G G' page : page_loaded ph s G page -> keeps [] G s s' ->
  leaves G ⊆ leaves G' -> page_loaded ph s' G' page.
Proof.
  intros (A & (q & He & Hq) & C) Hk Hs. split; [done|].
  split; [exists q; split; [by eapply lookup_weaken|done]|].
  intros k. apply (page_holds_mono g _ _ s s' G G' [] page (C k) Hk Hs).
Qed.

(** The common part of every step. *)
Definition loaded t G t' G' l' : Prop :=
  own [] (ld_fa t') G' l' /\ keeps [] G (ld_fa t) (ld_fa t') /\ tabs G ⊆ tabs G' /\
  leaves G ⊆ leaves G' /\ P (fv t').

Lemma loaded_trans t1 G1 t2 G2 l2 t3 G3 l3 :
  loaded t1 G1 t2 G2 l2 -> loaded t2 G2 t3 G3 l3 -> loaded t1 G1 t3 G3 l3.
Proof.
  intros (A1 & B1 & C1 & D1 & E1) (A2 & B2 & C2 & D2 & E2). split; [done|].
  split; [|split; [by transitivity (tabs G2)|split; [by transitivity (leaves G2)|done]]].
  transitivity (ld_fa t2); [done|]. by apply (keeps_leaves [] G2); [apply leaf_frames_sub|].
Qed.

Lemma load_page_loaded ph page t G l : good_seg ph -> page ∈ seg_pages ph ->
  own [] (ld_fa t) G l -> P (fv t) ->
  exists r t' G' l', load_page g as_ ph page t = (r, t') /\ loaded t G t' G' l' /\
    match r with
    | Ok _ => page_loaded ph (ld_fa t') G' page /\
        (forall ρ, ρ <> path page -> leaves G' !! ρ = leaves G !! ρ)
    | Err e => is_err e = true
    end.
Proof.
  intros Hg Hpg Ho Hp. pose proof Hg as (Hph & Hf1 & Hf2). destruct (Hread ph page (fv t) Hg Hpg Hp) as [HP HK].
  destruct (load_page_run size ph page t G l Ho Hph Hf1 Hf2 Hpg)
    as (r & t' & G' & l' & E & Ho' & Hk & Ht & Hfv & Hr).
  exists r, t', G', l'. split; [done|].
  assert (HP' : P (fv t')) by (destruct Hfv as [-> | ->]; done).
  destruct r as [[]|e].
  - destruct Hr as (bs & Hbs & _ & Hw & Hn & Hh & e & Hl). split.
    + split; [done|]. split; [done|]. split; [done|]. split; [|done]. rewrite Hl. by apply insert_subseteq.
    + split; [|intros ρ Hρ; rewrite Hl; apply lookup_insert_ne; congruence].
      split; [done|]. split; [destruct Hh as (q & A & B & _); by exists q|]. intros k.
      destruct Hh as (q & A & B & C). exists q. split; [done|]. split; [done|].
      intros a Ha. rewrite C by done. apply (HK k bs Hbs). unfold in_frame in Ha. lia.
  - destruct Hr as [He Hl]. split; [|done]. split; [done|]. split; [done|]. split; [done|].
    split; [by rewrite Hl|done].
Qed.

Lemma load_pages_run ph pages t G l : good_seg ph -> pages ⊆ seg_pages ph ->
  own [] (ld_fa t) G l -> P (fv t) ->
  exists r t' G' l', load_pages g as_ ph pages t = (r, t') /\ loaded t G t' G' l' /\
    match r with
    | Ok _ => (forall page, page ∈ pages -> page_loaded ph (ld_fa t') G' page) /\
        (forall ρ, ρ ∉ path <$> pages -> leaves G' !! ρ = leaves G !! ρ)
    | Err e => is_err e = true
    end.
Proof.
  intros Hg. revert t G l. induction pages as [|page pages IH]; intros t G l Hsub Ho Hp.
  { exists (Ok tt), t, G, l. split; [done|]. split; [by split_and!|]. split; [|done].
    intros page Hin. by apply elem_of_nil in Hin. }
  destruct (load_page_loaded ph page t G l Hg) as (r & t1 & G1 & l1 & E1 & HL1 & Hr1);
    [apply Hsub; by left|done|done|].
  simpl. destruct r as [[]|e].
  2:{ exists (Err e), t1, G1, l1. split; [by apply tryb_err|done]. }
  rewrite (tryb_ok _ _ _ _ _ E1). destruct HL1 as (Ho1 & HL1').
  destruct (IH t1 G1 l1) as (r & t2 & G2 & l2 & E2 & HL2 & Hr2);
    [intros x Hx; apply Hsub; by right|done|by destruct HL1' as (_ & _ & _ & ?)|].
  exists r, t2, G2, l2. split; [done|]. split; [by apply (loaded_trans t G t1 G1 l1)|].
  destruct r as [[]|e]; [|done]. destruct Hr1 as [Hl1 Hout1], Hr2 as [Hl2 Hout2]. split.
  - intros x [-> | Hx]%elem_of_cons; [|by apply Hl2]. destruct HL2 as (_ & Hk & _ & Hs & _).
    by apply (page_loaded_mono ph (ld_fa t1) _ G1).
  - intros ρ Hρ. csimpl in Hρ. apply not_elem_of_cons in Hρ as [Hρ1 Hρ2].
    rewrite Hout2 by done. by apply Hout1.
Qed.

(** The segments to load. *)
Definition loads (phs : list elf64_phdr_t) : list elf64_phdr_t := filter (fun ph => p_type ph = PT_LOAD) phs.

Lemma load_phdrs_run phs t G l : Forall good_seg (loads phs) ->
  own [] (ld_fa t) G l -> P (fv t) ->
  exists r t' G' l', load_phdrs g as_ phs t = (r, t') /\ loaded t G t' G' l' /\
    match r with
    | Ok _ => (forall ph page, ph ∈ loads phs -> page ∈ seg_pages ph -> page_loaded ph (ld_fa t') G' page) /\
        (forall ρ, (forall ph page, ph ∈ loads phs -> page ∈ seg_pages ph -> ρ <> path page) ->
           leaves G' !! ρ = leaves G !! ρ)
    | Err e => is_err e = true
    end.
Proof.
  revert t G l. induction phs as [|ph phs IH]; intros t G l Hall Ho Hp.
  { exists (Ok tt), t, G, l. split; [done|]. split; [by split_and!|]. split; [|done].
    intros ph page Hin. by apply elem_of_nil in Hin. }
  simpl. unfold loads in *. rewrite filter_cons in *. destruct (p_type ph =? PT_LOAD) eqn:Et; bool_simpl.
  2:{ rewrite decide_False in * by done. by apply (IH t G l). }
  rewrite decide_True in * by done. apply Forall_cons in Hall as [Hg Hall]. simpl.
  destruct (load_pages_run ph (seg_pages ph) t G l Hg) as (r & t1 & G1 & l1 & E1 & HL1 & Hr1); [done..|].
  change (load_pages g as_ ph (seg_pages ph) t) with (load_segment g as_ ph t) in E1.
  destruct r as [[]|e].
  2:{ exists (Err e), t1, G1, l1. split; [by apply tryb_err|done]. }
  rewrite (tryb_ok _ _ _ _ _ E1). destruct HL1 as (Ho1 & HL1').
  destruct (IH t1 G1 l1 Hall Ho1) as (r & t2 & G2 & l2 & E2 & HL2 & Hr2);
    [by destruct HL1' as (_ & _ & _ & ?)|].
  exists r, t2, G2, l2. split; [done|]. split; [by apply (loaded_trans t G t1 G1 l1)|].
  destruct r as [[]|e]; [|done]. destruct Hr1 as [Hl1 Hout1], Hr2 as [Hl2 Hout2]. split.
  - intros x page [-> | Hx]%elem_of_cons Hpg; [|by apply Hl2]. destruct HL2 as (_ & Hk & _ & Hs & _).
    apply (page_loaded_mono ph (ld_fa t1) _ G1); auto.
  - intros ρ Hρ. rewrite Hout2; [apply Hout1|].
    + intros (page & -> & Hpg)%list_elem_of_fmap. apply (Hρ ph page); [by left|done|done].
    + intros x page Hx. apply Hρ. by right.
Qed.
End runs.

(** ** The whole file *)

(** The tests of the first loop. *)
Lemma check_phdrs_spec size entry phs ie eo al ie' eo' al' : 0 <= size < 2 ^ 63 ->
  Forall phdr_word phs ->
  check_phdrs size entry phs ie eo al = Some (ie', eo', al') ->
  Forall (seg_ok size) (loads phs) /\ ie <= ie' /\ (ie' = ie \/ exists ph, ph ∈ loads phs /\ ie' = seg_end ph) /\
  Forall (fun ph => seg_end ph <= ie') (loads phs) /\
  (eo' = true -> eo = true \/ exists ph, ph ∈ loads phs /\ tst (p_flags ph) PF_X = true /\
     p_vaddr ph <= entry /\ u64 (entry - p_vaddr ph) < p_memsz ph).
Proof.
  intros Hsz. revert ie eo al. induction phs as [|ph phs IH]; intros ie eo al Hw; simpl.
  { intros [= <- <- <-]. split_and!; [done|lia|by left|done|by left]. }
  apply Forall_cons in Hw as [Hw1 Hw]. unfold loads. rewrite filter_cons.
  destruct (p_type ph =? PT_LOAD) eqn:Et; bool_simpl; simpl.
  2:{ rewrite decide_False by done. by apply IH. }
  rewrite decide_True by done. destruct (phdr_ok size ph) eqn:Eok; [|done]. simpl.
  intros E. fold (seg_end ph) in E. apply (IH _ _ _ Hw) in E as (A & B & C & D & X).
  split; [constructor; [by apply phdr_ok_spec|done]|].
  assert (Hle : ie <= ie' /\ seg_end ph <= ie') by (case_if_in B; lia).
  split; [lia|]. split; [|split; [constructor; [lia|done]|]].
  - destruct C as [-> | (x & Hx & ->)]; [|right; exists x; split; [by right|done]].
    case_if; [right; exists ph; split; [by left|done]|by left].
  - intros He. destruct (X He) as [Hh|(x & Hx & Hy)]; [|right; exists x; split; [by right|done]].
    case_if_in Hh; [|by left]. right. exists ph. split; [by left|]. split; [done|]. split; [lia|done].
Qed.

Section whole.
Context (P : F * V -> Prop) (K : Prop) (d : list Z).
Context (Hread : forall off n x, 0 <= off < 2 ^ 64 -> 0 <= n < 2 ^ 64 -> P x ->
  P (read_exact off n x).2 /\
  (K -> forall bs, (read_exact off n x).1 = (Nok, bs) ->
     bs = take (Z.to_nat n) (drop (Z.to_nat off) d))).
Context (Hstat : forall f v r v', P (f, v) -> file_stat f v = (r, v') -> P (f, v') /\
  (K -> forall st, r = Ok st -> st_size st = Z.of_nat (length d)) /\
  (forall e, r = Err e -> is_err e = true)).

Lemma page_read_whole size ph page x : good_seg size ph -> page ∈ seg_pages ph -> P x ->
  P (page_read ph page x).2 /\
  (K -> forall bs, (page_read ph page x).1 = (Nok, bs) ->
   forall i, 0 <= i < PAGE_SIZE ->
     default 0 (bs !! Z.to_nat i) mod 256 = seg_byte d ph (page - p_vaddr ph + i)).
Proof.
  intros (Hph & Hf1 & Hf2) Hpg Hp. destruct (copy_len_range size ph Hph page Hpg Hf1 Hf2) as (Hn & Hi & Hoff).
  unfold page_read. cbv zeta. set (n := segment_copy_len ph _) in *. unfold seg_byte. case_if.
  - rewrite Hoff by done. assert (Hps : PAGE_SIZE < 2 ^ 64) by done.
    apply (seg_pages_spec size ph Hph) in Hpg as [Hpg _]. destruct Hph as [A B C D].
    pose proof (proj1 (Hi 0 ltac:(done)) ltac:(lia)).
    destruct (Hread (p_offset ph + (page - p_vaddr ph)) n x) as [HP HK]; [lia|lia|done|].
    split; [done|]. intros k bs Hbs i Hib. rewrite (HK k bs Hbs). specialize (Hi i Hib).
    rewrite lookup_take, lookup_drop. case_if.
    + rewrite decide_True by lia. do 3 f_equal. lia.
    + rewrite decide_False by lia. done.
  - split; [done|]. intros _ bs [= <-] i Hib. specialize (Hi i Hib). case_if; [lia|done].
Qed.

(** The headers, as the bytes of the file have them. *)
Definition file_hdr : elf64_header_t := ehdr_of (take sizeof_ehdr d).
Definition file_phdrs : list elf64_phdr_t :=
  phdrs_of (Z.to_nat (e_phnum file_hdr))
    (take (Z.to_nat (e_phnum file_hdr * Z.of_nat sizeof_phdr)) (drop (Z.to_nat (e_phoff file_hdr)) d)).

(** The entry point lies in an executable segment, the end of the image is
    the end of its last page. *)
Definition image_ok (size : Z) (hdr : elf64_header_t) (phs : list elf64_phdr_t) (iend : Z) : Prop :=
  Forall (good_seg size) (loads phs) /\ Forall (fun ph => seg_end ph <= iend) (loads phs) /\
  (exists ph, ph ∈ loads phs /\ iend = seg_end ph) /\
  (exists ph, ph ∈ loads phs /\ tst (p_flags ph) PF_X = true /\
     p_vaddr ph <= e_entry hdr < p_vaddr ph + p_memsz ph).

Lemma phdrs_of_word n bs : Forall phdr_word (phdrs_of n bs).
Proof. apply Forall_fmap, Forall_forall. intros i _. apply phdr_of_word. Qed.

Lemma read_struct_run off n t : 0 <= off < 2 ^ 64 -> 0 <= n < 2 ^ 64 -> P (fv t) ->
  exists r t', read_struct off n t = (r, t') /\ ld_fa t' = ld_fa t /\ P (fv t') /\
    match r with
    | Ok bs => K -> bs = take (Z.to_nat n) (drop (Z.to_nat off) d)
    | Err e => is_err e = true
    end.
Proof.
  intros Ho Hn Hp. destruct (Hread off n (fv t) Ho Hn Hp) as [HP HK].
  unfold read_struct, bind, on_file. fold (fv t).
  destruct (read_exact off n (fv t)) as [[st bs] [f2 v2]] eqn:E. simpl in *.
  destruct (read_exact_length off n (fv t) st bs _ ltac:(lia) E) as [_ Hst].
  destruct (is_err st) eqn:Est.
  - by exists (Err st), (mk_loader (ld_fa t) v2 f2).
  - exists (Ok bs), (mk_loader (ld_fa t) v2 f2). split; [done|]. split; [done|]. split; [done|].
    intros k. apply HK; [done|]. by destruct (Hst eq_refl) as [-> _].
Qed.

Lemma seg_ok_good size ph : seg_ok size ph -> size < 2 ^ 63 -> good_seg size ph.
Proof.
  intros Hs Hsz. pose proof Hs as [A B C D]. split; [done|]. split; [|done].
  assert (NX_USER_ELF_MAX_VADDR < 2 ^ 63) by by vm_compute.
  assert (0 < NX_USER_ELF_MIN_VADDR) by by vm_compute. lia.
Qed.

(** The outcome of [elf_load]. *)
Definition load_result (r : res (Z * Z)) t t' G' (G : space) : Prop :=
  match r with
  | Ok (entry, iend) => exists size hdr phs,
      (K -> size = Z.of_nat (length d) /\ hdr = file_hdr /\ phs = file_phdrs) /\
      entry = e_entry hdr /\ image_ok size hdr phs iend /\
      (forall ph page, ph ∈ loads phs -> page ∈ seg_pages ph ->
         page_loaded K (seg_byte d) ph (ld_fa t') G' page) /\
      (forall ρ, (forall ph page, ph ∈ loads phs -> page ∈ seg_pages ph -> ρ <> path page) ->
         leaves G' !! ρ = leaves G !! ρ)
  | Err e => is_err e = true
  end.

Lemma loaded_refl t t' G l : own [] (ld_fa t) G l -> ld_fa t' = ld_fa t -> P (fv t') -> loaded P t G t' G l.
Proof. intros Ho E Hp. rewrite <- E in Ho. split; [done|]. split; [by rewrite E|]. by split_and!. Qed.

Lemma load_image_run t0 t G l size hdr phs iend eo al :
  0 <= size < 2 ^ 63 -> Forall phdr_word phs -> word (e_entry hdr) ->
  (K -> size = Z.of_nat (length d) /\ hdr = file_hdr /\ phs = file_phdrs) ->
  check_phdrs size (e_entry hdr) phs 0 false false = Some (iend, eo, al) ->
  own [] (ld_fa t) G l -> ld_fa t = ld_fa t0 -> P (fv t) ->
  exists r t' G' l',
    (if negb al || negb eo then fail NinvalidFormat
     else _ <-? load_phdrs g as_ phs ;; ok (e_entry hdr, iend)) t = (r, t') /\
    loaded P t0 G t' G' l' /\ load_result r t t' G' G.
Proof.
  intros Hsz Hw Hen HK Ec Ho E0 Hp.
  assert (Hl0 : forall t' G' l', loaded P t G t' G' l' -> loaded P t0 G t' G' l')
    by (intros t' G' l'; unfold loaded; by rewrite E0).
  destruct (check_phdrs_spec size (e_entry hdr) phs _ _ _ _ _ _ Hsz Hw Ec) as (A & B & C & D & X).
  assert (Hall : Forall (good_seg size) (loads phs)).
  { eapply Forall_impl; [exact A|]. intros ph Hph. apply seg_ok_good; [done|lia]. }
  destruct (negb al || negb eo) eqn:Eb.
  { exists (Err NinvalidFormat), t, G, l. split; [done|]. split; [|done]. by apply Hl0, loaded_refl. }
  bool_simpl. subst eo.
  destruct (load_phdrs_run size P K (seg_byte d) (page_read_whole size) phs t G l Hall Ho Hp)
    as (r & t2 & G2 & l2 & E2 & HL & Hr).
  destruct r as [[]|e].
  2:{ exists (Err e), t2, G2, l2. split; [by apply tryb_err|]. by split; [apply Hl0|]. }
  rewrite (tryb_ok _ _ _ _ _ E2). exists (Ok (e_entry hdr, iend)), t2, G2, l2. split; [done|].
  split; [by apply Hl0|]. destruct Hr as [Hpages Hout]. exists size, hdr, phs. split; [done|].
  split; [done|]. split; [|by split]. destruct (X eq_refl) as [|(ph & Hin & Hx & Hv & He)]; [done|].
  rewrite Forall_forall in Hall. pose proof (Hall ph Hin) as ([S1 S2 S3 [S4 S5]] & _ & _).
  assert (0 < NX_USER_ELF_MIN_VADDR) by by vm_compute.
  split; [by apply Forall_forall|]. split; [done|]. split.
  - destruct C as [-> | C]; [|done]. exfalso. rewrite Forall_forall in D.
    specialize (D ph Hin). pose proof (seg_end_bounds size ph (proj1 (Hall ph Hin))). lia.
  - exists ph. split; [done|]. split; [done|]. rewrite uw_small in He by (unfold word in Hen; lia). lia.
Qed.

Lemma elf_load_run t G l : own [] (ld_fa t) G l -> P (fv t) ->
  exists r t' G' l', elf_load g as_ t = (r, t') /\ loaded P t G t' G' l' /\ load_result r t t' G' G.
Proof.
  intros Ho Hp. unfold elf_load. destruct Ho as (Hsys & Hroot & Hpm).
  change (pml4 as_) with (phys_to_virt root). rewrite (root_nonzero _ G l root Hsys Hroot).
  assert (Ho : own [] (ld_fa t) G l) by (split; [done|by split]). clear Hsys Hroot Hpm.
  assert (Hfail : forall (e : Nerror) t', ld_fa t' = ld_fa t -> P (fv t') -> is_err e = true ->
    exists r t'' G' l', (Err e, t') = (r, t'') /\ loaded P t G t'' G' l' /\ load_result r t t'' G' G).
  { intros e t' E HP He. exists (Err e), t', G, l. split; [done|]. split; [by apply loaded_refl|done]. }
  unfold tryb at 1, on_file. destruct (file_stat (ld_file t) (ld_vfs t)) as [rst v1] eqn:Es.
  destruct (Hstat _ _ _ _ Hp Es) as (Hp1 & HK1 & He1).
  set (t1 := mk_loader (ld_fa t) v1 (ld_file t)).
  destruct rst as [st|e]; [|by apply Hfail, He1].
  pose proof (file_stat_size _ _ _ _ Es) as Hsz0.
  case_if; [by apply Hfail|]. bool_simpl.
  assert (Hmax : NX_ELF_MAX_FILE < 2 ^ 63) by by vm_compute.
  destruct (read_struct_run 0 (Z.of_nat sizeof_ehdr) t1) as (r1 & t2 & E2 & Hf2 & Hp2 & Hr1); [lia|done|done|].
  destruct r1 as [bs|e]; [|rewrite (tryb_err _ _ _ _ _ E2); by apply Hfail].
  rewrite (tryb_ok _ _ _ _ _ E2).
  case_if; [by apply Hfail|]. case_if; [by apply Hfail|]. case_if; [by apply Hfail|].
  assert (Hoff : 0 <= e_phoff (ehdr_of bs)) by apply (field_range 32 8 bs).
  assert (Hnum : 0 <= e_phnum (ehdr_of bs) < 256 ^ Z.of_nat 2) by apply (field_range 56 2 bs).
  destruct (read_struct_run (e_phoff (ehdr_of bs)) (e_phnum (ehdr_of bs) * Z.of_nat sizeof_phdr) t2)
    as (r2 & t3 & E3 & Hf3 & Hp3 & Hr2); [lia|unfold sizeof_phdr; simpl in *; lia|done|].
  assert (Hf3' : ld_fa t3 = ld_fa t) by by rewrite Hf3, Hf2.
  destruct r2 as [bs2|e]; [|rewrite (tryb_err _ _ _ _ _ E3); by apply Hfail].
  rewrite (tryb_ok _ _ _ _ _ E3).
  destruct (check_phdrs _ _ _ _ _ _) as [[[iend eo] al]|] eqn:Ec; [|by apply Hfail].
  assert (Ho3 : own [] (ld_fa t3) G l) by by rewrite Hf3'.
  destruct (load_image_run t t3 G l (st_size st) (ehdr_of bs)
    (phdrs_of (Z.to_nat (e_phnum (ehdr_of bs))) bs2) iend eo al ltac:(lia) (phdrs_of_word _ _) (field_range 24 8 bs)) as (r & t' & G' & l' & E & HL & Hr); [|done..|].
  - intros k. split; [by apply HK1|]. rewrite (Hr1 k) in *. split; [done|].
    unfold file_phdrs. f_equal. by apply Hr2.
  - exists r, t', G', l'. split; [exact E|]. split; [done|]. destruct r as [[]|]; exact Hr.
Qed.
End whole.
End load.

(** ** With a file that holds [d] *)

Section data.
Context {S V F : Type} `{FrameAllocatorLaws S} `{FileIOSafe V F} `{!FileIOLaws V F}.
Context (g : paging_globals) (root : Z).
Context (pool : list Z) (Hnd : NoDup pool) (Hok : Forall frame_ok pool).
Let as_ := mk_as (phys_to_virt root).
Local Abbreviation own := (own root pool).

Lemma read_exact_data d off n (x : F * V) : 0 <= off < 2 ^ 64 -> 0 <= n < 2 ^ 64 ->
  file_data x.2 x.1 d ->
  file_data (read_exact off n x).2.2 (read_exact off n x).2.1 d /\
  (True -> forall bs, (read_exact off n x).1 = (Nok, bs) ->
     bs = take (Z.to_nat n) (drop (Z.to_nat off) d)).
Proof.
  intros Ho Hn Hd. destruct x as [f v]. simpl in Hd. unfold read_exact.
  pose proof (file_data_offset v f d off Hd) as Hd1.
  destruct (file_data_read v (file_set_offset off f) d n Hd1)
    as (st & bs & f' & v' & E & Hd' & Hl & _ & Hr & _); [by rewrite file_offset_set|done|].
  rewrite E. rewrite file_offset_set in Hr. destruct (is_err st) eqn:Est.
  - split; [done|]. intros _ b [= -> ->]. done.
  - destruct (Hr eq_refl) as [-> ->]. case_if.
    + split; [done|]. intros _ b [=].
    + split; [done|]. intros _ b [= <-]. done.
Qed.

Lemma file_stat_data d f v r v' : file_data v f d -> file_stat f v = (r, v') ->
  file_data v' f d /\
  (True -> forall st, r = Ok st -> st_size st = Z.of_nat (length d)) /\
  (forall e, r = Err e -> is_err e = true).
Proof.
  intros Hd E. destruct (file_data_size v f d Hd) as (r' & v'' & E' & Hd' & Hr).
  rewrite E in E'. injection E' as [= <- <-]. split; [done|]. destruct r as [st|e].
  - split; [by intros _ st' [= <-]|done].
  - split; [done|]. by intros e' [= <-].
Qed.

(** The permissions of a page of a segment. *)
Definition seg_perms (ph : elf64_phdr_t) (e : Z) : Prop :=
  tst e PAGE_USER = true /\ tst e PAGE_RW = tst (p_flags ph) PF_W /\
  (g_nx_supported g = true -> tst e PAGE_NX = negb (tst (p_flags ph) PF_X)) /\
  (g_nx_supported g = true -> tst e PAGE_RW = true -> tst e PAGE_NX = true).

Lemma seg_perms_leaf ph q : phys_ok q -> wx_ok g (segment_flags ph) ->
  seg_perms ph (leaf_of g q (segment_flags ph)).
Proof.
  intros Hq Hw. destruct (leaf_of_wx g q _ Hq Hw) as [A B].
  split; [done|]. split; [|split; [|done]].
  - rewrite leaf_of_rw by done. unfold segment_flags.
    by destruct (g_nx_supported g), (tst (p_flags ph) PF_W), (tst (p_flags ph) PF_X).
  - intros Hg. rewrite leaf_of_nx by done. unfold segment_flags.
    by destruct (tst (p_flags ph) PF_W), (tst (p_flags ph) PF_X).
Qed.

(** C26: [elf_load], on any file that answers reads from its contents [d],
    either fails or builds exactly the image [d] describes: the entry point is
    the one of the header and lies in an executable segment, every segment is
    within the user range, each of its bytes up to the end of its last page
    reads through the page tables as the byte of the file, or zero past
    [p_filesz], with the permissions of the segment and, where the
    processor has the no-execute bit, never both writable and executable, and
    nothing else is mapped.  What was mapped before, and
    its contents, is as it was. *)
Theorem elf_load_image (t : loader S V F) (G : space) (l d : list Z) :
  own [] (ld_fa t) G l -> file_data (ld_vfs t) (ld_file t) d ->
  exists r t' G' l', elf_load g as_ t = (r, t') /\ own [] (ld_fa t') G' l' /\
    leaves G ⊆ leaves G' /\ keeps [] G (ld_fa t) (ld_fa t') /\
    match r with
    | Err e => is_err e = true
    | Ok (entry, iend) =>
        entry = e_entry (file_hdr d) /\
        image_ok (Z.of_nat (length d)) (file_hdr d) (file_phdrs d) iend /\
        (forall ph v, ph ∈ loads (file_phdrs d) -> p_vaddr ph <= v < seg_end ph ->
           exists e pa, hw_leaf (fa_mem (ld_fa t')) (pml4 as_) v = Some e /\ seg_perms ph e /\
             hw_translate (fa_mem (ld_fa t')) (pml4 as_) v = Some pa /\
             ld8 (fa_mem (ld_fa t')) (phys_to_virt pa) = seg_byte d ph (v - p_vaddr ph)) /\
        (forall ρ, (forall ph page, ph ∈ loads (file_phdrs d) -> page ∈ seg_pages ph -> ρ <> path page) ->
           leaves G' !! ρ = leaves G !! ρ)
    end.
Proof.
  intros Ho Hd.
  destruct (elf_load_run g root pool Hnd Hok (fun x => file_data x.2 x.1 d) True d
    (read_exact_data d) (file_stat_data d) t G l Ho Hd)
    as (r & t' & G' & l' & E & (Ho' & Hk & _ & Hs & _) & Hr).
  exists r, t', G', l'. split; [done|]. split; [done|]. split; [done|]. split; [done|].
  destruct r as [[entry iend]|e]; [|done].
  destruct Hr as (size & hdr & phs & HK & -> & Himg & Hpages & Hout).
  destruct (HK I) as (-> & -> & ->). split; [done|]. split; [done|]. split; [|done].
  intros ph v Hin Hv. destruct Himg as (Hall & _). rewrite Forall_forall in Hall.
  destruct (Hall ph Hin) as (Hph & _).
  pose proof (seg_page_of _ ph Hph v Hv) as Hpg.
  destruct (Hpages ph _ Hin Hpg) as (Hw & _ & Hh). specialize (Hh I).
  pose proof (seg_pages_upage _ ph Hph) as Hup. rewrite Forall_forall in Hup. specialize (Hup _ Hpg).
  pose proof (Z.mod_pos_bound v PAGE_SIZE ltac:(done)) as Hm.
  assert (Ev : v = page_of v + v mod PAGE_SIZE) by (unfold page_of; lia).
  destruct (page_holds_read g root pool _ _ _ G' l' [] _ _ Ho' Hup Hh Hm) as (pa & Hpa & Hb).
  rewrite <- Ev in Hpa. pose proof Hh as (q & Hl & Hq & _).
  exists (leaf_of g q (segment_flags ph)), pa. split; [|split; [|split; [done|]]].
  - destruct Ho' as (Hsys & Hroot & _). cbn [pml4 as_].
    pose proof (seg_end_bounds _ ph Hph). destruct Hph as [_ _ _ [D _]].
    assert (0 < NX_USER_ELF_MIN_VADDR) by by vm_compute.
    assert (NX_USER_ELF_MAX_VADDR < USER_SPACE_END) by by vm_compute.
    rewrite (hw_leaf_spec _ G' l' root v Hsys Hroot) by lia. by rewrite <- path_page_of.
  - apply seg_perms_leaf; [by apply frame_phys_ok|done].
  - rewrite Hb. f_equal. unfold page_of. lia.
Qed.
End data.
