(* ===== verification/VfsFiles.v ===== *)
(** * The VFS as the layer of open files

    The instance of [FileIO] the loader and the system calls run on: the
    operations of [vfs.c] on handles.  Over FAT16 volumes it has the laws
    [FileIOSafe] and [FileIOLaws], so the theorems of the loader and of the
    system calls hold for programs and files on mounted volumes. *)

From S2P Require Import Prelude Types Bytes Handles FileIO Vfs VfsPath VfsTree Fat16 Fat16Props Fat16Read Fat16Fs Fat16Vfs ElfProps.

Section files.
Context {T P X : Type} `{VfsDrivers T P X} (stack : list Z).

Definition vfs_layer : FileLayer (vfs T P X) (handle_t P) := {|
  file_zero := zero_hd;
  file_close h v := (vfs_close h v).2;
|}.

(** A buffer of [n] bytes receives at most [n]; the size is a 64-bit field. *)
Definition vfs_files : FileIO (vfs T P X) (handle_t P) := {|
  file_layer := vfs_layer;
  file_offset := hd_offset;
  file_set_offset off h := mk_hd (hd_vnode h) off (hd_flags h) (hd_private h) (hd_refcnt h);
  file_open path flags := vfs_open stack (Some path) flags;
  file_read n hv :=
    let '(((st, (bs, got)), h), v) := vfs_read hv.1 n hv.2 in
    ((st, take (Z.to_nat n) (if is_err st then bs else take (Z.to_nat got) bs)), (h, v));
  file_write bs hv := let '((r, h), v) := vfs_write hv.1 bs hv.2 in (r, (h, v));
  file_stat h v :=
    let '(r, v) := vfs_fstat h v in
    (match r with Ok st => Ok (mk_stat (u64 (st_size st)) (st_type st)) | Err e => Err e end, v);
  file_reopen := vfs_reopen;
|}.
End files.

Section fat16_files.
Context {D : Type} `{RamdiskIO D} (stack : list Z).
Context (mounted : nat -> option (fat16_device_t D * list Z)) (inv : D -> Prop) (rel : Prop).
Context (Hmounted : forall i dev img, mounted i = Some (dev, img) -> volume dev /\ on_image dev img inv rel).
Abbreviation vfs := (vfs fat16_tbl fat16_ptr (fat16_st D)).
Implicit Types (s : vfs) (h : handle_t fat16_ptr).

#[local] Instance fat16_files : FileIO vfs (handle_t fat16_ptr) := vfs_files stack.

Lemma fat16_fstat_cases h s r s' : vfs_fstat h s = (r, s') ->
  match r with Err e => is_err e = true | Ok _ => True end.
Proof.
  unfold vfs_fstat, node_op. destruct (hd_vnode h) as [v|]; simpl; [|by intros [= <- _]].
  destruct (vn_ops (vnod v s)) as [[|]|]; simpl; [| |by intros [= <- _]];
    unfold fat16_stat; destruct (vfs_get_vnode_private _ _); by intros [= <- _].
Qed.

#[local] Instance fat16_files_safe : FileIOSafe vfs (handle_t fat16_ptr).
Proof.
  split.
  - intros n [h s] st bs hv' Hn. cbn. destruct (vfs_read h n s) as [[[st0 [bs0 got]] h'] s'].
    intros [= <- <- <-]. rewrite length_take. lia.
  - intros h s st s'. cbn. destruct (vfs_fstat h s) as [[st0|e] s0]; [|done]. intros [= <- _]. apply u64_range.
  - intros h s e s'. cbn. destruct (vfs_fstat h s) as [[st0|e0] s0] eqn:E; [done|]. intros [= <- _].
    exact (fat16_fstat_cases _ _ _ _ E).
Qed.

(** The handle is open on a file with the data [d]. *)
Definition fat16_holds s h (d : list Z) : Prop :=
  fat_ok mounted inv s /\ exists nd, file_at mounted s h nd /\ 0 <= fn_size nd < 2 ^ 32 /\ node_data mounted nd d.

Lemma fat16_stat_run s h nd : file_at mounted s h nd ->
  vfs_fstat h s = (Ok (mk_stat (fn_size nd) 1), s).
Proof.
  intros Hf. unfold vfs_fstat. destruct (file_op mounted s h nd op_stat Hf) as (v & Hv & ->).
  cbn [fat16_ops op_stat]. destruct Hf as (Hdir & v' & q & Hv' & (_ & vn & p & Hl & _ & _ & Hp & Hd) & _).
  assert (v' = v) as -> by congruence. unfold fat16_stat, vfs_get_vnode_private.
  rewrite (vnod_lookup _ _ _ Hl), Hp, (data_of_lookup _ _ _ _ Hd). cbn [vd_of vd_is_directory vd_size]. by rewrite Hdir.
Qed.

(** The bytes a transfer of [len] bytes moves. *)
Lemma holds_slice nd d off n len b : node_data mounted nd d -> 0 <= off -> 0 <= n ->
  (len = 0 /\ fn_size nd <= off \/ len = 0 /\ n = 0 \/ 0 < len /\ len = Z.min n (fn_size nd - off)) ->
  node_bytes mounted nd off len = Some b ->
  take (Z.to_nat n) (take (Z.to_nat len) b) = take (Z.to_nat n) (drop (Z.to_nat off) d).
Proof.
  intros [Hl Hd] Ho Hn Hcase Hb. rewrite take_take.
  destruct Hcase as [[-> Hc]|[[-> ->]|[Hc Heq]]].
  - rewrite Nat.min_0_r, (drop_ge d) by lia. by rewrite take_nil.
  - by rewrite Nat.min_0_r.
  - rewrite (node_bytes_sub mounted nd (fn_size nd) d) in Hb by (done || lia). injection Hb as <-.
    unfold zslice. rewrite take_take. destruct (decide (n <= fn_size nd - off)).
    + f_equal. lia.
    + rewrite !take_ge by (rewrite length_drop; lia). done.
Qed.

Lemma holds_some nd d n off len : node_data mounted nd d -> 0 <= off ->
  (len = 0 /\ fn_size nd <= off \/ len = 0 /\ n = 0 \/ 0 < len /\ len = Z.min n (fn_size nd - off)) ->
  is_Some (node_bytes mounted nd off len).
Proof.
  intros [Hl Hd] Ho Hcase. destruct (decide (len = 0)) as [->|].
  - unfold node_bytes in *. destruct (mounted (fn_dev nd)) as [[dev img]|]; [by eexists|done].
  - rewrite (node_bytes_sub mounted nd (fn_size nd) d) by (done || lia). by eexists.
Qed.

#[local] Instance fat16_files_laws : FileIOLaws vfs (handle_t fat16_ptr).
Proof.
  refine {| file_data := fat16_holds; file_reliable := rel |}.
  - intros s h d off (Hok & nd & Hf & Hr & Hd). split; [done|]. exists nd. split; [|done].
    by apply (file_at_keep mounted s s h).
  - done.
  - intros s h d (Hok & nd & Hf & Hr & Hd). do 2 eexists. cbn. rewrite (fat16_stat_run s h nd Hf).
    split; [reflexivity|]. split; [split; [done|by exists nd]|]. cbn. rewrite uw_small by lia. by destruct Hd.
  - intros s h d n (Hok & nd & Hf & Hr & Hd) Ho Hn. change (0 <= hd_offset h < 2 ^ 64) in Ho.
    destruct (vfs_read_run mounted inv rel Hmounted s h nd n Hok Hf Hr Ho ltac:(lia))
      as (st & bs & got & h' & s' & E & Hok' & Hf' & _ & Hlen & Hoff & Hres & Hrel).
    set (len := transfer nd (hd_offset h) n) in *.
    assert (Hcase : len = 0 /\ fn_size nd <= hd_offset h \/ len = 0 /\ n = 0 \/
      0 < len /\ len = Z.min n (fn_size nd - hd_offset h)) by (subst len; unfold transfer; lia).
    assert (Hlen0 : 0 <= len <= n) by lia. clearbody len. cbn. rewrite E. do 4 eexists. split; [reflexivity|].
    split; [split; [done|by exists nd]|]. split; [rewrite length_take; lia|].
    change (file_offset h') with (hd_offset h'). change (file_offset h) with (hd_offset h). rewrite Hoff. split; [|split].
    + destruct (is_err st); [lia|]. destruct Hres as (_ & -> & Hb). pose proof (node_bytes_length _ _ _ _ _ Hb) as Hbl.
      rewrite !length_take. lia.
    + intros He. rewrite He in Hres |- *. destruct Hres as (-> & -> & Hb). split; [done|].
      eapply holds_slice; [exact Hd|lia|lia|exact Hcase|exact Hb].
    + intros Hr'. apply Hrel; [done|]. eapply holds_some; [exact Hd|lia|exact Hcase].
Qed.
End fat16_files.
