(* ===== verification/Spawn.v ===== *)
(** * Starting a program: [nxkernel/kernel/process/spawn.c]

    [process_spawn] opens the file, makes an address space, loads the image,
    maps the stack and creates the process; a failure at any point destroys
    the space. *)

From S2P Require Import Prelude Types Mem Memory FrameAlloc Paging Handles Process FileIO Umem Elf.

Section spawn.
Context {S V F : Type} `{FrameAllocator S} `{FileIO V F}.
Context (g : proc_globals).

(** The loop of [map_user_stack]: the frame of the topmost page. *)
(** [map_stack_pages]: nxkernel/kernel/process/spawn.c:24-41 *)
Fixpoint map_stack_pages (as_ : addr_space_t) (pages : list Z) (top_phys : Z) : ST S (res Z) :=
  match pages with
  | [] => ok top_phys
  | page :: pages =>
      phys <-? fa_alloc ;;
      r <- paging_map_page (pg_paging g) (Some as_) phys page USER_DATA_FLAGS ;;
      match r with
      | Err status => fa_free phys ;;; fail status
      | Ok _ =>
          map_stack_pages as_ pages
            (if page + PAGE_SIZE =? NX_USER_STACK_TOP then phys else top_phys)
      end
  end.

(** [map_user_stack]: nxkernel/kernel/process/spawn.c:19-48 *)
Definition map_user_stack (as_ : addr_space_t) : ST S (res unit) :=
  top_phys <-? map_stack_pages as_ (steps NX_USER_STACK_BASE NX_USER_STACK_TOP PAGE_SIZE) 0 ;;
  modify (fun s => fa_set_mem
    (memset (phys_to_virt top_phys + (PAGE_SIZE - NX_USER_STACK_INIT)) 0 NX_USER_STACK_INIT (fa_mem s)) s) ;;;
  ok tt.

(** [process_spawn]: nxkernel/kernel/process/spawn.c:50-91 *)
Definition process_spawn (path : list Z) (s : psys S V F) : res Z * psys S V F :=
  match file_open path 1 (ps_vfs s) with
  | (Err status, v) => (Err status, with_vfs v s)
  | (Ok file, v) =>
      match paging_addrspace_create (pg_paging g) (ps_fa s) with
      | (Err status, fa) => (Err status, with_vfs (file_close file v) (with_fa fa s))
      | (Ok as_, fa) =>
          let '(r, t) := elf_load (pg_paging g) as_ (mk_loader fa v file) in
          let s := with_vfs (file_close (ld_file t) (ld_vfs t)) s in
          let destroy fa := (paging_addrspace_destroy as_ fa).2 in
          match r with
          | Err status => (Err status, with_fa (destroy (ld_fa t)) s)
          | Ok (entry, image_end) =>
              match map_user_stack as_ (ld_fa t) with
              | (Err status, fa) => (Err status, with_fa (destroy fa) s)
              | (Ok _, fa) =>
                  match process_create_user g as_ entry (NX_USER_STACK_TOP - NX_USER_STACK_INIT)
                          image_end (with_fa fa s) with
                  | (Err status, s) => (Err status, with_fa (destroy (ps_fa s)) s)
                  | (Ok pid, s) => (Ok pid, s)
                  end
              end
          end
      end
  end.
End spawn.
