(* ===== verification/SpawnProps.v ===== *)
(** * Starting a program, specified

    A failed start gives back every frame and leaves the processes alone; a
    successful one makes a process whose space holds the image, an empty heap
    after it and a zeroed stack under an unmapped guard page. *)

From S2P Require Import Prelude Types Mem Memory Bytes FrameAlloc Paging PagingSpec AddrSpace SpaceLife Handles Process ProcessInv ProcessProps FileIO Owned Umem UmemProps Elf ElfProps Spawn.

#[local] Opaque paging_map_page paging_unmap_free_page.

Section stack.
Context {S : Type} `{FrameAllocatorLaws S}.
Context (g : proc_globals) (root : Z).
Context (pool : list Z) (Hnd : NoDup pool) (Hok : Forall frame_ok pool).
Let as_ := mk_as (phys_to_virt root).
Local Abbreviation own := (own root pool).
Local Abbreviation pg := (pg_paging g).

(** Memory changes outside the frames. *)
Lemma own_elsewhere h (s : S) G l m : own h s G l ->
  (forall a, a < KERNEL_VMA_BASE -> ld8 m a = ld8 (fa_mem s) a) ->
  own h (fa_set_mem m s) G l /\ keeps h G s (fa_set_mem m s).
Proof.
  intros Ho Hm. pose proof Ho as ((Hr & Hinv & Hd) & Hroot & Hp).
  assert (Hf : forall q a, frame_ok q -> in_frame q a -> ld8 m a = ld8 (fa_mem s) a).
  { intros q a Hq Ha. apply Hm. unfold in_frame in Ha. rewrite frame_virt in Ha by done.
    destruct Hq as (_ & _ & Hq). unfold PHYS_LIMIT in Hq. lia. }
  split; [apply own_intro; [| |done|done|done]|].
  - apply fa_set_mem_rep; [done|]. intros q a Hq Ha. apply (Hf q); [|done].
    destruct (fa_rep_ok s l Hr) as [_ Hlok]. rewrite Forall_forall in Hlok. auto.
  - rewrite fa_mem_set. apply (as_inv_ext (fa_mem s)); [|done]. intros q Hq a Ha. symmetry.
    apply (Hf q); [|done]. apply elem_of_tab_frames in Hq as [π Hπ]. by destruct (ai_tab _ _ Hinv π q Hπ).
  - intros q Hq a Ha. rewrite fa_mem_set. apply (Hf q); [|done].
    by destruct (own_in root pool Hnd Hok h s G l q Ho Hq).
Qed.

Definition TOP_PAGE : Z := NX_USER_STACK_TOP - PAGE_SIZE.

Lemma map_stack_pages_run G0 s0 vs pages top s G l :
  NoDup (vs ++ pages) -> Forall upage (vs ++ pages) ->
  own [] s G l -> grown pg G0 s0 vs s G ->
  (forall v, v ∈ vs ++ pages -> leaves G0 !! path v = None) ->
  (TOP_PAGE ∈ vs -> leaves G !! path TOP_PAGE = Some (leaf_of pg top USER_DATA_FLAGS) /\ frame_ok top) ->
  exists r s' G' l', map_stack_pages g as_ pages top s = (r, s') /\ own [] s' G' l' /\
    match r with
    | Ok top' => grown pg G0 s0 (vs ++ pages) s' G' /\
        (TOP_PAGE ∈ vs ++ pages ->
           leaves G' !! path TOP_PAGE = Some (leaf_of pg top' USER_DATA_FLAGS) /\ frame_ok top')
    | Err e => is_err e = true
    end.
Proof.
  revert vs top s G l. induction pages as [|v pages IH]; intros vs top s G l Hn Hup Ho Hg Hz0 Ht.
  { rewrite app_nil_r in *. by exists (Ok top), s, G, l. }
  assert (Hvs0 : forall w, w ∈ vs -> leaves G0 !! path w = None)
    by (intros; apply Hz0; rewrite elem_of_app; by left).
  pose proof (grown_frames pg G0 s0 vs s G Hg Hvs0) as Hsub.
  rewrite Forall_forall in Hup. pose proof (Hup v ltac:(rewrite elem_of_app; right; by left)) as Huv.
  assert (Hne : forall w, w ∈ vs -> path w <> path v).
  { intros w Hw Heq. apply NoDup_app in Hn as (_ & Hn & _). apply (Hn w Hw).
    rewrite (upath_inj w v); [by left| |done|done]. apply Hup. rewrite elem_of_app. by left. }
  simpl. destruct l as [|q l].
  { rewrite (tryb_err _ _ _ _ _ (own_alloc_nil root pool [] s G Ho)).
    by exists (Err NoutOfMemory), s, G, []. }
  destruct (own_alloc root pool Hnd Hok [] s G q l Ho) as (s1 & E1 & Ho1 & Hk1 & Hq & Hz).
  rewrite (tryb_ok _ _ _ _ _ E1).
  destruct (own_map pg root pool Hnd Hok [] s1 G l q v USER_DATA_FLAGS Ho1 Huv
    (proj1 (USER_DATA_wx pg)) (proj2 (USER_DATA_wx pg))) as (r & s2 & G2 & l2 & E2 & Hk2 & Ht2 & Hr).
  fold as_ in E2. rewrite (bind_run _ _ _ _ _ E2). destruct r as [[]|e].
  - destruct Hr as (Ho2 & Hvn & Hl2).
    assert (Hg2 : grown pg G0 s0 (vs ++ [v]) s2 G2) by by apply (grow_step pg G0 s0 vs v s G G2 s1 s2 q).
    rewrite cons_middle, app_assoc in Hn, Hup, Hz0 |- *. apply (IH _ _ s2 G2 l2); [done| |done|done|done|].
    { by apply Forall_forall. }
    intros Hin. apply elem_of_app in Hin as [Hin | <-%list_elem_of_singleton].
    + assert (Hneq : v <> TOP_PAGE) by (intros ->; by apply (Hne TOP_PAGE)).
      unfold TOP_PAGE in Hneq. case_if; [lia|]. rewrite Hl2, lookup_insert_ne; [by apply Ht|].
      apply not_eq_sym. by apply Hne.
    + rewrite Hl2, lookup_insert_eq. unfold TOP_PAGE. case_if; [done|lia].
  - destruct Hr as (Ho2 & Hl2 & Hcase).
    destruct (own_free root pool Hnd Hok [] s2 G2 q l2 Ho2) as (s3 & E3 & Ho3 & Hk3).
    rewrite (bind_run _ _ _ _ _ E3). exists (Err e), s3, G2, (q :: l2). split; [done|]. split; [done|].
    by destruct Hcase as [[-> _]|[-> _]].
Qed.

Lemma stack_pages v : v ∈ steps NX_USER_STACK_BASE NX_USER_STACK_TOP PAGE_SIZE <->
  upage v /\ NX_USER_STACK_BASE <= v < NX_USER_STACK_TOP.
Proof.
  rewrite elem_of_pages by done. assert (NX_USER_STACK_TOP < USER_SPACE_END) by by vm_compute.
  assert (0 < NX_USER_STACK_BASE) by by vm_compute. unfold upage. split; intros; split; try tauto; try lia.
Qed.

Lemma map_user_stack_run s G l : own [] s G l ->
  (forall v, upage v -> NX_USER_STACK_BASE <= v < NX_USER_STACK_TOP -> leaves G !! path v = None) ->
  exists r s' G' l', map_user_stack g as_ s = (r, s') /\ own [] s' G' l' /\
    match r with
    | Ok _ => grown pg G s (steps NX_USER_STACK_BASE NX_USER_STACK_TOP PAGE_SIZE) s' G'
    | Err e => is_err e = true
    end.
Proof.
  intros Ho Hfree. set (pages := steps NX_USER_STACK_BASE NX_USER_STACK_TOP PAGE_SIZE).
  destruct (map_stack_pages_run G s [] pages 0 s G l) as (r & s1 & G1 & l1 & E1 & Ho1 & Hr).
  - by apply NoDup_steps.
  - apply Forall_forall. intros v Hv. by apply stack_pages in Hv as [? _].
  - done.
  - split; [reflexivity|]. split; [done|]. split; [|done]. intros v Hv. by apply elem_of_nil in Hv.
  - intros v [Hu Hv]%stack_pages. by apply Hfree.
  - intros Hv. by apply elem_of_nil in Hv.
  - unfold map_user_stack. fold pages. destruct r as [top|e].
    2:{ rewrite (tryb_err _ _ _ _ _ E1). by exists (Err e), s1, G1, l1. }
    rewrite (tryb_ok _ _ _ _ _ E1). destruct Hr as [Hg Htop].
    destruct Htop as [Hl Htok].
    { simpl. unfold pages. rewrite stack_pages. split; [split|]; by vm_compute. }
    assert (Hz : forall a, in_frame top a -> ld8 (fa_mem s1) a = 0).
    { destruct Hg as (_ & _ & Hz & _). destruct (Hz TOP_PAGE) as (q & Hq & Hqok & Hqz).
      { simpl. unfold pages. rewrite stack_pages. split; [split|]; by vm_compute. }
      rewrite Hl in Hq. injection Hq as Hq.
      assert (top = q) as ->; [|done].
      rewrite <- (leaf_of_addr pg top USER_DATA_FLAGS) by by apply frame_phys_ok.
      rewrite Hq. apply leaf_of_addr. by apply frame_phys_ok. }
    set (m := memset (phys_to_virt top + (PAGE_SIZE - NX_USER_STACK_INIT)) 0 NX_USER_STACK_INIT (fa_mem s1)). assert (Hm : forall a, ld8 m a = ld8 (fa_mem s1) a).
    { intros a. unfold m. rewrite memset_upd by done. case_if; [|done]. rewrite Hz; [done|].
      unfold in_frame. assert (NX_USER_STACK_INIT = 48) by done. unfold PAGE_SIZE in *. lia. }
    destruct (own_elsewhere [] s1 G1 l1 m Ho1) as [Ho2 Hk2]; [by intros; apply Hm|].
    exists (Ok tt), (fa_set_mem m s1), G1, l1. split; [done|]. split; [done|].
    destruct Hg as (A & B & C & D). split; [|split; [done|split; [|done]]].
    + intros q Hq a Ha. rewrite fa_mem_set, Hm. by apply (A q).
    + intros v Hv. apply (page_holds_keep pg _ _ s1 _ G1 G1 [] v); [by apply C|done|done].
Qed.
End stack.

(** ** The whole start *)

(** The space of a new program: an executable entry point, nothing mapped
    from [iend] to the stack, and a stack of zeros. *)
Record program_space (g : proc_globals) (G : space) (entry iend : Z) : Prop := {
  ps_end : 0 < iend <= NX_USER_ELF_MAX_VADDR;
  ps_entry : exists e, leaves G !! path entry = Some e /\ 0 < entry < iend /\ tst e PAGE_USER = true /\
    (g_nx_supported (pg_paging g) = true -> tst e PAGE_NX = false);
  ps_gap v : upage v -> iend <= v < NX_USER_STACK_BASE -> leaves G !! path v = None;
}.

Lemma program_heap g G entry iend : program_space g G entry iend -> iend mod PAGE_SIZE = 0 ->
  heap_inv G iend iend.
Proof.
  intros [A _ C] Hm. assert (NX_USER_ELF_MAX_VADDR < NX_USER_STACK_GUARD) by by vm_compute.
  assert (NX_USER_STACK_GUARD < NX_USER_STACK_BASE) by by vm_compute.
  assert (NX_USER_STACK_GUARD < 2 ^ 63) by by vm_compute.
  destruct (align_up_bounds iend) as [B _]; [lia|]. split; [lia|lia| |].
  - intros v Hv Hr. lia.
  - intros v Hv Hr. apply C; [done|lia].
Qed.

Section spawn.
Context {S V F : Type} `{FrameAllocatorLaws S} `{FileIOSafe V F}.
Context (g : proc_globals).
Implicit Types (s : psys S V F).
Local Abbreviation pg := (pg_paging g).

Lemma reap_loop_none fuel s p prev : (forall i, ~ reapable s i) -> process_reap_loop fuel p prev s = s.
Proof.
  intros Hn. revert p prev. induction fuel as [|fuel IH]; intros p prev; [done|].
  destruct p as [i|]; [|done]. simpl. destruct (g_procs s !! i) as [q|] eqn:Hi; [|done].
  rewrite (reapable_bool s i q Hi), bool_decide_false by done. apply IH.
Qed.

Lemma none_reapable s : Forall (fun p => state p <> PROCESS_TERMINATED) (g_procs s) ->
  forall i, ~ reapable s i.
Proof.
  intros Hall i. unfold reapable. destruct (g_procs s !! i) as [p|] eqn:Hp; [|by intros []].
  intros (Ht & _). rewrite Forall_forall in Hall. apply (Hall p); [|exact Ht]. by eapply list_elem_of_lookup_2.
Qed.

(** Loading and mapping the stack, in a fresh space. *)
Lemma load_fresh root pool (t : loader S V F) l : NoDup pool -> Forall frame_ok pool ->
  own root pool [] (ld_fa t) (space0 root) l ->
  exists r t' G' l', elf_load pg (mk_as (phys_to_virt root)) t = (r, t') /\
    own root pool [] (ld_fa t') G' l' /\
    match r with
    | Ok (entry, iend) => program_space g G' entry iend /\ iend mod PAGE_SIZE = 0 /\
        (forall v, upage v -> NX_USER_STACK_BASE <= v < NX_USER_STACK_TOP -> leaves G' !! path v = None)
    | Err e => is_err e = true
    end.
Proof.
  intros Hnd Hok Ho.
  destruct (elf_load_run pg root pool Hnd Hok (fun _ => True) False [] ltac:(done)) with (t := t)
    (G := space0 root) (l := l) as (r & t' & G' & l' & E & (Ho' & _) & Hr); [|done|done|].
  { intros f v r v' _ Es. split; [done|]. split; [done|]. intros e ->. by eapply file_stat_err. }
  exists r, t', G', l'. split; [done|]. split; [done|]. destruct r as [[entry iend]|e]; [|done].
  destruct Hr as (size & hdr & phs & _ & -> & (Hall & Hend & (phe & Hine & ->) & (phx & Hinx & Hx & Hentry)) & Hpages & Hout).
  rewrite Forall_forall in Hall, Hend.
  assert (0 < NX_USER_ELF_MIN_VADDR) by by vm_compute.
  assert (NX_USER_ELF_MAX_VADDR < NX_USER_STACK_BASE) by by vm_compute.
  assert (Habove : forall v, upage v -> seg_end phe <= v -> leaves G' !! path v = None).
  { intros v Hv Hge. rewrite Hout; [done|]. intros ph page Hph Hpg Heq.
    destruct (Hall ph Hph) as (Hs & _). pose proof (seg_pages_upage _ ph Hs) as Hup.
    rewrite Forall_forall in Hup. rewrite (upath_inj v page) in Hge by auto.
    apply (seg_pages_spec _ ph Hs) in Hpg as [Hpg _]. specialize (Hend ph Hph). simpl in Hend. lia. }
  destruct (Hall phe Hine) as (Hse & _). pose proof (seg_end_bounds _ phe Hse) as Be.
  destruct (Hall phx Hinx) as (Hsx & _). pose proof (seg_end_bounds _ phx Hsx) as Bx.
  pose proof Hse as [E1 E2 E3 [E4 E5]]. pose proof Hsx as [X1 X2 X3 [X4 X5]].
  specialize (Hend phx Hinx) as Hex. simpl in Hex. split; [split|split].
  - lia.
  - pose proof (seg_page_of _ phx Hsx (e_entry hdr) ltac:(lia)) as Hpg.
    destruct (Hpages phx _ Hinx Hpg) as (Hw & (q & He & Hq) & _). rewrite path_page_of in He.
    destruct (seg_perms_leaf pg phx q (frame_phys_ok q Hq) Hw) as (P1 & _ & P3 & _).
    exists (leaf_of pg q (segment_flags phx)). split; [done|]. split; [lia|]. split; [done|].
    intros Hnx. by rewrite P3, Hx by done.
  - intros v Hv Hr. apply Habove; [done|lia].
  - unfold seg_end. change Elf.align_up with Umem.align_up. assert (2 ^ 47 < 2 ^ 63) by lia.
    assert (NX_USER_ELF_MAX_VADDR < 2 ^ 47) by by vm_compute.
    rewrite uw_small by lia. apply align_up_bounds. lia.
  - intros v Hv Hr. apply Habove; [done|lia].
Qed.

(** A stack in the kernel image is outside every frame. *)
Lemma install_fa slot arg entry as_ uentry ustack heap s h :
  process_list s = Some h -> KERNEL_VMA_BASE <= g_kstacks g ->
  exists m, ps_fa (install_process g slot arg entry as_ uentry ustack heap s) = fa_set_mem m (ps_fa s) /\
    forall a, a < KERNEL_VMA_BASE -> ld8 m a = ld8 (fa_mem (ps_fa s)) a.
Proof.
  intros Hh Hk. unfold install_process, push_frame. cbn [process_list upd with_procs with_next_pid with_fa].
  rewrite Hh. eexists. split; [reflexivity|]. intros a Ha.
  set (top := g_kstacks g + PROCESS_KSTACK_SIZE * Z.of_nat slot + PROCESS_KSTACK_SIZE).
  assert (Hs : PROCESS_KSTACK_SIZE = 16384) by done.
  assert (Ht : KERNEL_VMA_BASE + 16384 <= top) by (unfold top; rewrite Hs; lia).
  rewrite !ld8_stn. rewrite memset_upd by done. by repeat (case_if; [lia|]).
Qed.

Lemma create_user_fa as_ entry ustack heap s r s' : proc_inv g s -> KERNEL_VMA_BASE <= g_kstacks g ->
  (forall i, ~ reapable s i) -> pml4 as_ <> 0 ->
  process_create_user g as_ entry ustack heap s = (r, s') ->
  match r with
  | Ok _ => exists m, ps_fa s' = fa_set_mem m (ps_fa s) /\
      forall a, a < KERNEL_VMA_BASE -> ld8 m a = ld8 (fa_mem (ps_fa s)) a
  | Err e => s' = s
  end.
Proof.
  intros Hinv Hk Hre Has. unfold process_create_user. rewrite (proj2 (Z.eqb_neq _ _) Has).
  destruct (inv_list g s Hinv) as [h Hh]. rewrite Hh. unfold process_reap. rewrite reap_loop_none by done.
  destruct (find_slot s) as [slot|]; intros [= <- <-]; [|done]. by apply (install_fa slot _ _ _ _ _ _ s h).
Qed.

Lemma proc_inv_with_fa s fa : proc_inv g s -> proc_inv g (with_fa fa s).
Proof. intros (l & c & p & A & B & C & D & E). exists l, c, p. split; [done|]. split; [by destruct B|done]. Qed.
Lemma proc_inv_with_vfs s v : proc_inv g s -> proc_inv g (with_vfs v s).
Proof. intros (l & c & p & A & B & C & D & E). exists l, c, p. split; [done|]. split; [by destruct B|done]. Qed.

(** The state after a failure: only the frames and the files were used. *)
Definition only_freed s s' (pool : list Z) : Prop :=
  exists v fa l', s' = with_vfs v (with_fa fa s) /\ fa_rep fa l' /\ l' ≡ₚ pool.

Lemma destroyed root pool fa G l v s : NoDup pool -> Forall frame_ok pool ->
  own root pool [] fa G l ->
  only_freed s (with_fa (paging_addrspace_destroy (mk_as (phys_to_virt root)) fa).2 (with_vfs v s)) pool.
Proof.
  intros Hnd Hok Ho. destruct (own_destroy root pool Hnd Hok [] fa G l Ho) as (fa' & l' & -> & Hr & Hp).
  by exists v, fa', l'.
Qed.

(** What a successful start leaves. *)
Definition spawned s s' (pool : list Z) (x : Z) : Prop :=
  proc_inv g s' /\ x = g_next_pid s /\
  exists root slot p G l,
    find_pid PROCESS_MAX (g_procs s') (process_list s') x = Some slot /\ g_procs s' !! slot = Some p /\
    state p = PROCESS_READY /\ addrspace p = mk_as (phys_to_virt root) /\
    own root pool [] (ps_fa s') G l /\
    program_space g G (user_entry p) (heap_start p) /\ heap_inv G (heap_start p) (heap_brk p) /\
    heap_brk p = heap_start p /\ user_stack_top p = NX_USER_STACK_TOP - NX_USER_STACK_INIT /\
    (forall v, upage v -> NX_USER_STACK_BASE <= v < NX_USER_STACK_TOP -> zero_page pg (ps_fa s') G v).

(** From the loaded image on. *)
Lemma spawn_finish root pool s fa G l entry iend v :
  proc_inv g s -> g_next_pid s + 1 < 2 ^ 32 -> (forall i, ~ reapable s i) ->
  KERNEL_VMA_BASE <= g_kstacks g -> NoDup pool -> Forall frame_ok pool ->
  own root pool [] fa G l -> program_space g G entry iend -> iend mod PAGE_SIZE = 0 ->
  (forall v, upage v -> NX_USER_STACK_BASE <= v < NX_USER_STACK_TOP -> leaves G !! path v = None) ->
  let as_ := mk_as (phys_to_virt root) in
  match map_user_stack g as_ fa with
  | (Err status, fa) => is_err status = true /\
      only_freed s (with_fa (paging_addrspace_destroy as_ fa).2 (with_vfs v s)) pool
  | (Ok _, fa) =>
      match process_create_user g as_ entry (NX_USER_STACK_TOP - NX_USER_STACK_INIT) iend
              (with_fa fa (with_vfs v s)) with
      | (Err status, s1) => is_err status = true /\
          only_freed s (with_fa (paging_addrspace_destroy as_ (ps_fa s1)).2 s1) pool
      | (Ok x, s1) => spawned s s1 pool x
      end
  end.
Proof.
  intros Hinv Hnp Hre Hk Hnd Hok Ho Hps Hal Hst as_.
  destruct (map_user_stack_run g root pool Hnd Hok fa G l Ho Hst) as (r & fa2 & G2 & l2 & E2 & Ho2 & Hr2).
  fold as_ in E2. rewrite E2. destruct r as [[]|e].
  2:{ split; [done|]. by apply (destroyed root pool fa2 G2 l2). }
  set (s1 := with_fa fa2 (with_vfs v s)).
  assert (Hinv1 : proc_inv g s1) by by apply proc_inv_with_fa, proc_inv_with_vfs.
  assert (Has : pml4 as_ <> 0).
  { destruct Ho2 as (Hsys & Hroot & _). pose proof (root_nonzero _ G2 l2 root Hsys Hroot) as Hz.
    bool_simpl. exact Hz. }
  pose proof (create_user_spec g s1 as_ entry (NX_USER_STACK_TOP - NX_USER_STACK_INIT) iend Hinv1 Hnp Has) as Hc.
  destruct (process_create_user g as_ entry _ iend s1) as [r s2] eqn:E3.
  pose proof (create_user_fa as_ entry _ iend s1 r s2 Hinv1 Hk Hre Has E3) as Hfa.
  destruct r as [x|e].
  2:{ destruct Hc as (-> & _). rewrite Hfa. split; [done|]. unfold s1. by apply (destroyed root pool fa2 G2 l2). }
  destruct Hc as (Hi & -> & _ & _ & slot & p & Hf & Hp & Hfresh). destruct Hfa as (m & Hm1 & Hm2).
  destruct Hfresh as (_ & F2 & _ & F4 & _ & _ & F7 & F8 & F9 & F10 & _).
  destruct (own_elsewhere root pool Hnd Hok [] fa2 G2 l2 m Ho2 Hm2) as [Ho3 Hk3].
  change (ps_fa s1) with fa2 in Hm1. rewrite <- Hm1 in Ho3, Hk3.
  destruct Hr2 as (_ & _ & Hz & Hout).
  assert (Hps2 : program_space g G2 entry iend).
  { destruct Hps as [A (e & B & B1 & B2) C]. 
    assert (Hno : forall w, ~ (NX_USER_STACK_BASE <= page_of w < NX_USER_STACK_TOP) -> 0 <= w < USER_SPACE_END ->
      leaves G2 !! path w = leaves G !! path w).
    { intros w Hw Hr. apply Hout. intros (u & Hu & [Hup Hur]%stack_pages)%list_elem_of_fmap.
      apply Hw. rewrite (path_inj w u) by (destruct Hup; (lia || done)).
      rewrite (page_of_aligned u u); [done|by destruct Hup|unfold PAGE_SIZE; lia]. }
    assert (NX_USER_ELF_MAX_VADDR < NX_USER_STACK_BASE) by by vm_compute.
    assert (NX_USER_STACK_BASE < USER_SPACE_END) by by vm_compute.
    split; [done| |].
    - exists e. split; [|by split]. rewrite Hno; [done| |lia]. unfold page_of. pose proof (Z.mod_pos_bound entry PAGE_SIZE ltac:(done)). lia.
    - intros w Hw Hr. rewrite Hno; [by apply C| |lia]. rewrite (page_of_aligned w w); [lia|by destruct Hw|unfold PAGE_SIZE; lia]. }
  split; [done|]. split; [done|]. exists root, slot, p, G2, l2.
  rewrite F7, F8, F9, F10. split; [done|]. split; [done|]. split; [done|]. split; [done|].
  split; [done|]. split; [done|]. split; [by eapply program_heap|]. split; [done|]. split; [done|].
  intros w Hw Hr. apply (page_holds_keep pg _ _ fa2 _ G2 G2 [] w); [|done|done].
  apply Hz. by apply stack_pages.
Qed.

End spawn.
