(* ===== verification/Uaccess.v ===== *)
(** * Access to user memory: [nxkernel/kernel/syscall/uaccess.c]

    A kernel buffer is the list of its bytes.  [nx_uaccess_copy] is one
    [rep movsb]: it moves byte after byte through the page tables, and a page
    fault - a byte with no translation - ends it with -1, the bytes before
    it moved. *)

From S2P Require Import Prelude Types Mem FrameAlloc Paging AddrSpace Handles Process.

(** The registers [uaccess_fixup] looks at. *)
Record fault_frame := mk_fault { ff_cs : Z; ff_rip : Z }.

Section uaccess.
Context {S V F : Type} `{FrameAllocator S} `{FileLayer V F}.
Implicit Types (s : psys S V F).

(** The byte at a user address, as the processor finds it. *)
Definition user_ld (t : Z) (st : S) (a : Z) : option Z :=
  pa ← hw_translate (fa_mem st) t a; Some (ld8 (fa_mem st) (phys_to_virt pa)).

(** [rep movsb] out of user memory: all the bytes, or the ones before a fault. *)
Fixpoint uaccess_read (n : nat) (t a : Z) (st : S) : bool * list Z :=
  match n with
  | O => (true, [])
  | Datatypes.S n =>
      match user_ld t st a with
      | None => (false, [])
      | Some b => let '(done_, bs) := uaccess_read n t (a + 1) st in (done_, b :: bs)
      end
  end.

(** [rep movsb] into user memory. *)
Fixpoint uaccess_write (t a : Z) (bs : list Z) (st : S) : bool * S :=
  match bs with
  | [] => (true, st)
  | b :: bs =>
      match hw_translate (fa_mem st) t a with
      | None => (false, st)
      | Some pa => uaccess_write t (a + 1) bs (fa_set_mem (st8 (phys_to_virt pa) b (fa_mem st)) st)
      end
  end.

(** [current_process]. *)
Definition cur s : option (process_t F) := current_process s ≫= fun i => g_procs s !! i.

(** The bytes at the start of [dst] afterwards. *)
(** [copy_from_user]: nxkernel/kernel/syscall/uaccess.c:14-30 *)
Definition copy_from_user (user_src len : Z) s : Nerror * list Z :=
  if len =? 0 then (Nok, [])
  else match cur s with
  | None => (NnotInitialized, [])
  | Some p =>
      if negb (paging_is_user_range (fa_mem (ps_fa s)) (Some (addrspace p)) user_src len false)
      then (NinvalidPointer, [])
      else
        let '(done_, bs) := uaccess_read (Z.to_nat len) (pml4 (addrspace p)) user_src (ps_fa s) in
        if negb done_ then (NinvalidPointer, bs) else (Nok, bs)
  end.

(** [copy_to_user]: nxkernel/kernel/syscall/uaccess.c:32-48 *)
Definition copy_to_user (user_dst : Z) (src : list Z) : ST (psys S V F) Nerror := fun s =>
  let len := Z.of_nat (length src) in
  if len =? 0 then (Nok, s)
  else match cur s with
  | None => (NnotInitialized, s)
  | Some p =>
      if negb (paging_is_user_range (fa_mem (ps_fa s)) (Some (addrspace p)) user_dst len true)
      then (NinvalidPointer, s)
      else
        let '(done_, st) := uaccess_write (pml4 (addrspace p)) user_dst src (ps_fa s) in
        if negb done_ then (NinvalidPointer, with_fa st s) else (Nok, with_fa st s)
  end.

(** The loop of [copy_string_from_user], from index [i] on, [n] turns left. *)
(** [copy_string_loop]: nxkernel/kernel/syscall/uaccess.c:58-71 *)
Fixpoint copy_string_loop (n : nat) (user_src : Z) (i : nat) (dst : list Z) s : option Nerror * list Z :=
  match n with
  | O => (None, dst)
  | Datatypes.S n =>
      let addr := u64 (user_src + Z.of_nat i) in
      if addr <? user_src then (Some NinvalidPointer, dst)
      else
        let '(status, bs) := copy_from_user addr 1 s in
        let dst := match bs with b :: _ => <[i := b]> dst | [] => dst end in
        if is_err status then (Some status, dst)
        else if bool_decide (dst !! i = Some 0) then (Some Nok, dst)
        else copy_string_loop n user_src (Datatypes.S i) dst s
  end.

(** [dst] is the buffer of [max] bytes, whatever it held. *)
(** [copy_string_from_user]: nxkernel/kernel/syscall/uaccess.c:50-77 *)
Definition copy_string_from_user (dst : list Z) (user_src : Z) s : Nerror * list Z :=
  let max := length dst in
  if (max =? 0)%nat then (NinvalidArg, dst)
  else if user_src =? 0 then (NinvalidPointer, dst)
  else
    match copy_string_loop max user_src 0 dst s with
    | (Some status, dst) => (status, dst)
    | (None, dst) => (NpathTooLong, <[(max - 1)%nat := 0]> dst)
    end.
End uaccess.

(** The frame after a repair, or [None] for a fault that is not ours:
    [insn] and [fault] are the addresses of the two labels. *)
(** [uaccess_fixup]: nxkernel/kernel/syscall/uaccess.c:79-92 *)
Definition uaccess_fixup (insn fault cr2 : Z) (frame : fault_frame) : option fault_frame :=
  if negb (Z.land (ff_cs frame) 3 =? 0) then None
  else if negb (ff_rip frame =? insn) then None
  else if USER_SPACE_END <=? cr2 then None
  else Some (mk_fault (ff_cs frame) fault).
