(* ===== verification/UaccessProps.v ===== *)
(** * Access to user memory, specified

    The bytes of user space seen through the page tables, and what the three
    copies do to them. *)

From S2P Require Import Prelude Types Mem FrameAlloc Paging PagingSpec AddrSpace SpaceLife Handles Process Owned Uaccess.

Lemma NoDup_fmap_eq {A B} (f : A -> B) (l : list A) x y :
  NoDup (f <$> l) -> x ∈ l -> y ∈ l -> f x = f y -> x = y.
Proof.
  intros Hn [i Hi]%list_elem_of_lookup [j Hj]%list_elem_of_lookup Hf.
  assert (i = j) as ->; [|congruence].
  apply (NoDup_lookup (f <$> l) i j (f x)); [done|by rewrite list_lookup_fmap, Hi|].
  by rewrite list_lookup_fmap, Hj, Hf.
Qed.

Section uaccess.
Context {S V F : Type} `{FrameAllocatorLaws S} `{FileLayer V F}.
Context (root : Z) (pool : list Z) (Hnd : NoDup pool) (Hok : Forall frame_ok pool).
Implicit Types (st : S) (s : psys S V F) (G : space) (l : list Z).
Let as_ := mk_as (phys_to_virt root).
Local Abbreviation own := (own root pool).
Local Abbreviation T := (phys_to_virt root).

(** Where the byte [a] of a page with entry [e] is. *)
Definition byte_addr (e a : Z) : Z := phys_to_virt (Z.land e ENTRY_ADDR_MASK) + a mod PAGE_SIZE.

Lemma byte_in_frame e a : in_frame (Z.land e ENTRY_ADDR_MASK) (byte_addr e a).
Proof. apply in_frame_off. by apply Z.mod_pos_bound. Qed.

Lemma mapped_translate h st G l a e : own h st G l -> 0 <= a < USER_SPACE_END ->
  leaves G !! path a = Some e ->
  exists pa, hw_translate (fa_mem st) T a = Some pa /\ phys_to_virt pa = byte_addr e a.
Proof.
  intros Ho Ha He. destruct (own_in root pool Hnd Hok h st G l (Z.land e ENTRY_ADDR_MASK) Ho) as (Hq & _).
  { rewrite elem_of_app. right. by eapply leaf_in_frames. }
  destruct Ho as (Hsys & Hroot & _). unfold hw_translate.
  rewrite (hw_leaf_spec st G l root a Hsys Hroot Ha), He.
  exists (Z.land e ENTRY_ADDR_MASK + a mod PAGE_SIZE). split; [done|]. unfold byte_addr.
  pose proof (Z.mod_pos_bound a PAGE_SIZE ltac:(done)). destruct Hq as (? & ? & ?).
  rewrite !phys_to_virt_eq; [lia|unfold PAGE_SIZE in *; lia..].
Qed.

Lemma unmapped_ld h st G l a : own h st G l -> 0 <= a < USER_SPACE_END ->
  leaves G !! path a = None -> user_ld T st a = None.
Proof.
  intros (Hsys & Hroot & _) Ha He. unfold user_ld, hw_translate.
  by rewrite (hw_leaf_spec st G l root a Hsys Hroot Ha), He.
Qed.

Lemma mapped_ld h st G l a e : own h st G l -> 0 <= a < USER_SPACE_END ->
  leaves G !! path a = Some e -> user_ld T st a = Some (ld8 (fa_mem st) (byte_addr e a)).
Proof.
  intros Ho Ha He. destruct (mapped_translate h st G l a e Ho Ha He) as (pa & E & <-).
  unfold user_ld. by rewrite E.
Qed.

(** Different addresses are different bytes of memory. *)
Lemma byte_addr_inj h st G l a b e f : own h st G l -> 0 <= a < USER_SPACE_END -> 0 <= b < USER_SPACE_END ->
  leaves G !! path a = Some e -> leaves G !! path b = Some f ->
  byte_addr e a = byte_addr f b -> a = b.
Proof.
  intros Ho Ha Hb He Hf Heq.
  assert (Hfr : forall x y, leaves G !! path x = Some y -> frame_ok (Z.land y ENTRY_ADDR_MASK)).
  { intros x y Hy. apply (own_in root pool Hnd Hok h st G l (Z.land y ENTRY_ADDR_MASK) Ho).
    rewrite elem_of_app. right. by eapply leaf_in_frames. }
  assert (Hq : Z.land e ENTRY_ADDR_MASK = Z.land f ENTRY_ADDR_MASK).
  { apply (in_frame_inj _ _ (byte_addr e a)); [by eapply Hfr..|apply byte_in_frame|].
    rewrite Heq. apply byte_in_frame. }
  assert (Hpath : path a = path b).
  { destruct Ho as (_ & _ & Hp). pose proof Hnd as Hn. rewrite <- Hp in Hn.
    apply NoDup_app in Hn as (_ & _ & (_ & _ & (Hn & _)%NoDup_app)%NoDup_app).
    assert (Hx : (path a, e) = (path b, f)).
    { apply (NoDup_fmap_eq _ _ _ _ Hn); [by apply elem_of_map_to_list..|done]. }
    exact (f_equal fst Hx). }
  apply path_inj in Hpath; [|done..].
  unfold byte_addr in Heq. rewrite Hq in Heq. unfold page_of in Hpath. lia.
Qed.

Lemma user_ok_leaf G a w : user_ok G a w = true -> exists e, leaves G !! path a = Some e.
Proof. unfold user_ok. destruct (leaves G !! path a) as [e|]; [by exists e|done]. Qed.

(** Reading a mapped range. *)
Lemma uaccess_read_run h st G l n a : own h st G l -> 0 <= a -> a + Z.of_nat n <= USER_SPACE_END ->
  (forall b, a <= b < a + Z.of_nat n -> user_ok G b false = true) ->
  exists bs, uaccess_read n T a st = (true, bs) /\ length bs = n /\
    forall i, (i < n)%nat -> user_ld T st (a + Z.of_nat i) = bs !! i.
Proof.
  intros Ho. revert a. induction n as [|n IH]; intros a Ha He Hm.
  { exists []. split; [done|]. split; [done|]. intros i Hi. lia. }
  destruct (user_ok_leaf G a false) as [e Hl]; [apply Hm; lia|].
  destruct (IH (a + 1)) as (bs & E & Hlen & Hbs); [lia|lia|intros b Hb; apply Hm; lia|].
  simpl. rewrite (mapped_ld h st G l a e Ho) by (done || lia). rewrite E.
  eexists. split; [done|]. split; [simpl; lia|]. intros [|i] Hi.
  - rewrite Z.add_0_r. by apply (mapped_ld h st G l a e Ho); [lia|].
  - rewrite Nat2Z.inj_succ. replace (a + Z.succ (Z.of_nat i)) with (a + 1 + Z.of_nat i) by lia.
    apply Hbs. lia.
Qed.

(** Storing one byte of user space. *)
Lemma user_store h st G l a e b : own h st G l -> 0 <= a < USER_SPACE_END ->
  leaves G !! path a = Some e ->
  let st' := fa_set_mem (st8 (byte_addr e a) b (fa_mem st)) st in
  own h st' G l /\
  forall c, 0 <= c < USER_SPACE_END ->
    user_ld T st' c = if c =? a then Some (b mod 256) else user_ld T st c.
Proof.
  intros Ho Ha He st'. pose proof Ho as (Hsys & Hroot & Hp).
  assert (Hin : Z.land e ENTRY_ADDR_MASK ∈ h ++ leaf_frames G)
    by (rewrite elem_of_app; right; by eapply leaf_in_frames).
  destruct (own_in root pool Hnd Hok h st G l _ Ho Hin) as (Hq & Ht & Hl).
  assert (Ho' : own h st' G l).
  { split; [|done]. apply (sys_store st G l (Z.land e ENTRY_ADDR_MASK)); [done..|apply byte_in_frame]. }
  split; [done|]. intros c Hc. destruct (leaves G !! path c) as [f|] eqn:Hf.
  - rewrite (mapped_ld h st' G l c f Ho' Hc Hf), (mapped_ld h st G l c f Ho Hc Hf).
    unfold st'. rewrite fa_mem_set, ld8_st8. case_if.
    + rewrite (byte_addr_inj h st G l c a f e Ho) by (done || lia). by rewrite Z.eqb_refl.
    + case_if; [|done]. subst c. rewrite He in Hf. injection Hf as ->. done.
  - rewrite (unmapped_ld h st' G l c Ho' Hc Hf), (unmapped_ld h st G l c Ho Hc Hf).
    case_if; [|done]. subst c. by rewrite He in Hf.
Qed.

(** Writing a mapped range. *)
Lemma uaccess_write_run h G l bs a st : own h st G l -> 0 <= a ->
  a + Z.of_nat (length bs) <= USER_SPACE_END ->
  (forall b, a <= b < a + Z.of_nat (length bs) -> user_ok G b true = true) ->
  exists st', uaccess_write T a bs st = (true, st') /\ own h st' G l /\
    forall c, 0 <= c < USER_SPACE_END -> user_ld T st' c =
      if (a <=? c) && (c <? a + Z.of_nat (length bs))
      then (fun b => b mod 256) <$> bs !! Z.to_nat (c - a) else user_ld T st c.
Proof.
  revert a st. induction bs as [|b bs IH]; intros a st Ho Ha He Hm.
  { exists st. split; [done|]. split; [done|]. intros c Hc. simpl. case_if; [lia|done]. }
  simpl in He, Hm. destruct (user_ok_leaf G a true) as [e Hl]; [apply Hm; lia|].
  destruct (mapped_translate h st G l a e Ho) as (pa & E1 & E2); [lia|done|].
  destruct (user_store h st G l a e b Ho) as [Ho1 Hst]; [lia|done|].
  destruct (IH (a + 1) _ Ho1) as (st' & E & Ho' & Hst'); [lia|lia|intros c Hc; apply Hm; lia|].
  simpl. rewrite E1, E2. exists st'. split; [done|]. split; [done|]. intros c Hc.
  rewrite Hst' by done. rewrite Hst by done. repeat case_if; try lia.
  - replace (Z.to_nat (c - a)) with (Datatypes.S (Z.to_nat (c - (a + 1)))) by lia. done.
  - subst c. by rewrite Z.sub_diag.
  - done.
Qed.

Context (s : psys S V F) (p : process_t F) (G : space) (l h : list Z).
Context (Hown : own h (ps_fa s) G l) (Hcur : cur s = Some p) (Has : addrspace p = as_).

(** What user code may do with a range. *)
Definition user_range (a n : Z) (w : bool) : Prop :=
  a + n <= USER_SPACE_END /\ forall b, a <= b < a + n -> user_ok G b w = true.

Lemma range_check a n w : word a -> word n -> n <> 0 ->
  paging_is_user_range (fa_mem (ps_fa s)) (Some (addrspace p)) a n w = true <-> user_range a n w.
Proof.
  intros Ha Hn Hz. rewrite Has. destruct Hown as (Hsys & Hroot & _). unfold as_, user_range.
  rewrite (is_user_range_spec (ps_fa s) G l root a n w Hsys Hroot Ha Hn). tauto.
Qed.

(** [copy_from_user] succeeds exactly when the whole range is user
    memory, and then yields the bytes the process sees there; otherwise it
    answers [NinvalidPointer] and has read nothing. *)
Theorem copy_from_user_spec (a n : Z) : word a -> word n ->
  (copy_from_user a n s).1 = Nok /\ length (copy_from_user a n s).2 = Z.to_nat n /\
    (n = 0 \/ user_range a n false) /\
    (forall i, (i < Z.to_nat n)%nat -> user_ld T (ps_fa s) (a + Z.of_nat i) = (copy_from_user a n s).2 !! i) \/
  copy_from_user a n s = (NinvalidPointer, []) /\ n <> 0 /\ ~ user_range a n false.
Proof.
  intros Ha Hn. unfold copy_from_user. case_if.
  { subst. left. split; [done|]. split; [done|]. split; [by left|]. intros i Hi. simpl in Hi. lia. }
  rewrite Hcur. pose proof (range_check a n false Ha Hn ltac:(lia)) as Hr.
  destruct (paging_is_user_range _ _ _ _ _) eqn:Ec; simpl.
  - left. destruct (proj1 Hr eq_refl) as [Hr1 Hr2]. unfold word in *.
    destruct (uaccess_read_run h (ps_fa s) G l (Z.to_nat n) a Hown) as (bs & Er & Hl & Hbs);
      [lia|lia|intros b Hb; apply Hr2; lia|].
    rewrite Has. cbn [pml4 as_]. rewrite Er. simpl. split; [done|]. split; [done|].
    split; [right; by split|done].
  - right. split; [done|]. split; [lia|]. intros Hu. by apply Hr in Hu.
Qed.

Lemma copy_to_user_run (a : Z) (src : list Z) : word a -> word (Z.of_nat (length src)) ->
  let n := Z.of_nat (length src) in
  (exists fa, copy_to_user a src s = (Nok, with_fa fa s) /\ own h fa G l /\
    (n = 0 \/ user_range a n true) /\
    forall c, 0 <= c < USER_SPACE_END -> user_ld T fa c =
      if (a <=? c) && (c <? a + n) then (fun b => b mod 256) <$> src !! Z.to_nat (c - a)
      else user_ld T (ps_fa s) c) \/
  copy_to_user a src s = (NinvalidPointer, s) /\ n <> 0 /\ ~ user_range a n true.
Proof.
  intros Ha Hn n. unfold copy_to_user. fold n. case_if.
  { left. exists (ps_fa s). split; [by destruct s|]. split; [done|]. split; [by left|].
    intros c Hc. case_if; [lia|done]. }
  rewrite Hcur. pose proof (range_check a n true Ha Hn ltac:(lia)) as Hr.
  destruct (paging_is_user_range _ _ _ _ _) eqn:Ec; simpl.
  - left. destruct (proj1 Hr eq_refl) as [Hr1 Hr2]. unfold word in *.
    destruct (uaccess_write_run h G l src a (ps_fa s) Hown) as (fa & Er & Ho & Hld);
      [lia|done|intros b Hb; apply Hr2; done|].
    rewrite Has. cbn [pml4 as_]. rewrite Er. exists fa. simpl. split; [done|]. split; [done|].
    split; [right; by split|done].
  - right. split; [done|]. split; [lia|]. intros Hu. by apply Hr in Hu.
Qed.

(** C32: [copy_to_user] succeeds exactly when the whole range is writable user
    memory; then the process sees the bytes there, every other byte of its
    space as before, and its mappings and the frames are untouched.
    Otherwise it answers [NinvalidPointer] and changes nothing. *)
Theorem copy_to_user_spec (a : Z) (src : list Z) : word a -> word (Z.of_nat (length src)) ->
  let n := Z.of_nat (length src) in
  (exists fa, copy_to_user a src s = (Nok, with_fa fa s) /\ own h fa G l /\
    (n = 0 \/ user_range a n true) /\
    forall c, 0 <= c < USER_SPACE_END -> user_ld T fa c =
      if (a <=? c) && (c <? a + n) then (fun b => b mod 256) <$> src !! Z.to_nat (c - a)
      else user_ld T (ps_fa s) c) \/
  copy_to_user a src s = (NinvalidPointer, s) /\ n <> 0 /\ ~ user_range a n true.
Proof. apply copy_to_user_run. Qed.

#[local] Opaque paging_is_user_range.

(** One byte. *)
Lemma copy_byte a : word a ->
  (exists b, copy_from_user a 1 s = (Nok, [b]) /\ user_ld T (ps_fa s) a = Some b) \/
  copy_from_user a 1 s = (NinvalidPointer, []) /\ ~ user_range a 1 false.
Proof.
  intros Ha. assert (Hn : word 1) by (unfold word; lia). unfold copy_from_user. simpl.
  rewrite Hcur. pose proof (range_check a 1 false Ha Hn ltac:(lia)) as Hr.
  destruct (paging_is_user_range _ _ _ _ _) eqn:Ec; simpl.
  - left. destruct (proj1 Hr eq_refl) as [Hr1 Hr2]. unfold word in *.
    destruct (user_ok_leaf G a false) as [e He]; [apply Hr2; lia|].
    rewrite Has. cbn [pml4 as_]. rewrite (mapped_ld h (ps_fa s) G l a e Hown) by (done || lia).
    by exists (ld8 (fa_mem (ps_fa s)) (byte_addr e a)).
  - right. split; [done|]. intros Hu. by apply Hr in Hu.
Qed.

Definition user_char (a : Z) (b : Z) : Prop := b <> 0 /\ user_ld T (ps_fa s) a = Some b.

(** What the loop found, having copied the characters before [i]. *)
Definition string_found (src : Z) (max : nat) (r : option Nerror) (dst : list Z) : Prop :=
  match r with
  | Some Nok => exists n, (n < max)%nat /\ dst !! n = Some 0 /\ user_ld T (ps_fa s) (src + Z.of_nat n) = Some 0 /\
      forall j, (j < n)%nat -> exists b, dst !! j = Some b /\ user_char (src + Z.of_nat j) b
  | Some NinvalidPointer => exists n, (n < max)%nat /\ ~ user_range (src + Z.of_nat n) 1 false /\
      forall j, (j < n)%nat -> exists b, user_char (src + Z.of_nat j) b
  | None => forall j, (j < max)%nat -> exists b, user_char (src + Z.of_nat j) b
  | _ => False
  end.

Lemma copy_string_loop_spec n src i dst : word src ->
  (i + n = length dst)%nat -> Z.of_nat (length dst) < 2 ^ 64 ->
  (forall j, (j < i)%nat -> exists b, dst !! j = Some b /\ user_char (src + Z.of_nat j) b) ->
  let r := copy_string_loop n src i dst s in
  length r.2 = length dst /\ string_found src (length dst) r.1 r.2.
Proof.
  intros Hsrc. revert i dst. induction n as [|n IH]; intros i dst Hlen Hmax Hpre.
  { simpl. split; [done|]. intros j Hj. destruct (Hpre j) as (b & _ & Hb); [lia|]. by exists b. }
  assert (Hpre' : forall j, (j < i)%nat -> exists b, user_char (src + Z.of_nat j) b)
    by (intros j Hj; destruct (Hpre j Hj) as (b & _ & Hb); by exists b).
  assert (Hw : u64 (src + Z.of_nat i) = src + Z.of_nat i \/
    u64 (src + Z.of_nat i) < src /\ 2 ^ 64 <= src + Z.of_nat i).
  { unfold word in Hsrc. destruct (Z.lt_ge_cases (src + Z.of_nat i) (2 ^ 64)) as [Hlt|Hge].
    - left. apply uw_small. lia.
    - right. split; [|done]. assert (Hx : u64 (src + Z.of_nat i) = src + Z.of_nat i - 2 ^ 64)
        by (symmetry; apply (Z.mod_unique_pos _ _ 1); lia). lia. }
  assert (Hue : USER_SPACE_END < 2 ^ 63) by by vm_compute.
  simpl. case_if.
  { split; [done|]. exists i. split; [lia|]. split; [|done]. intros [Hx _]. lia. }
  destruct Hw as [Hw|Hw]; [|lia].
  destruct (copy_byte (u64 (src + Z.of_nat i)) (u64_range _)) as [(b & -> & Hb)|[-> Hb]].
  - rewrite Hw in *. simpl. case_bool_decide as Hz.
    + split; [simpl; by rewrite length_insert|]. rewrite list_lookup_insert_eq in Hz by lia.
      injection Hz as ->. exists i. split; [lia|]. split; [by apply list_lookup_insert_eq; lia|].
      split; [done|]. intros j Hj. destruct (Hpre j Hj) as (c & Hc & Hu).
      exists c. simpl. by rewrite list_lookup_insert_ne by lia.
    + rewrite list_lookup_insert_eq in Hz by lia.
      destruct (IH (Datatypes.S i) (<[i := b]> dst)) as [H3 H4]; [rewrite length_insert; lia|by rewrite length_insert| |].
      { intros j Hj. destruct (decide (j = i)) as [->|].
        - exists b. rewrite list_lookup_insert_eq by lia. split; [done|]. split; [congruence|done].
        - destruct (Hpre j ltac:(lia)) as (c & Hc & Hu). exists c. by rewrite list_lookup_insert_ne by lia. }
      rewrite length_insert in H3, H4. done.
  - simpl. split; [done|]. exists i. split; [lia|]. split; [|done].
    by rewrite <- Hw.
Qed.

(** [copy_string_from_user] ends with a NUL-terminated buffer exactly
    when the process has a NUL within the length of the buffer, and then the
    buffer starts with its string; it answers [NpathTooLong], the buffer
    terminated, when no byte up to that length is NUL, and [NinvalidPointer]
    for the null pointer and when a byte before the NUL is not user memory. *)
Theorem copy_string_spec (dst : list Z) (src : Z) : word src -> Z.of_nat (length dst) < 2 ^ 64 ->
  let '(status, dst') := copy_string_from_user dst src s in
  length dst' = length dst /\
  match status with
  | NinvalidArg => dst = []
  | NpathTooLong => last dst' = Some 0 /\ string_found src (length dst) None dst'
  | NinvalidPointer => src = 0 \/ string_found src (length dst) (Some NinvalidPointer) dst'
  | Nok => src <> 0 /\ string_found src (length dst) (Some Nok) dst'
  | _ => False
  end.
Proof.
  intros Hsrc Hmax. unfold copy_string_from_user. destruct (length dst =? 0)%nat eqn:E0.
  { apply Nat.eqb_eq in E0. split; [done|]. by destruct dst. }
  apply Nat.eqb_neq in E0. case_if; [split; [done|by left]|].
  destruct (copy_string_loop_spec (length dst) src 0 dst Hsrc) as [Hl Hf]; [done|done|intros j Hj; lia|].
  destruct (copy_string_loop (length dst) src 0 dst s) as [[st|] dst'] eqn:El; simpl in *.
  - split; [done|]. destruct st; try done. by right.
  - rewrite length_insert. split; [done|]. split; [|done].
    rewrite last_lookup, length_insert, Hl. replace (pred (length dst)) with (length dst - 1)%nat by lia.
    apply list_lookup_insert_eq. lia.
Qed.
End uaccess.
