(* ===== verification/Syscall.v ===== *)
(** * System calls: [nxkernel/kernel/syscall/syscall.c]

    A handler takes the six argument words of the trap and gives the 64-bit
    value of [rax], or does not return because the processor went to another
    process or the kernel panicked.  The program's memory is reached through
    [Uaccess] only, files through [FileIO]. *)

From S2P Require Import Prelude Types Mem Memory Bytes BootInfo FrameAlloc Paging Handles Process FileIO Printk Timer Umem Elf Spawn Uaccess.

(** ** The numbers of the interface *)

(** [NX_SYS_GET_VERSION]: include/nyx_abi.h:22-22 *)
Definition NX_SYS_GET_VERSION : Z := 2.
(** [NX_SYS_GET_TIME]: include/nyx_abi.h:23-23 *)
Definition NX_SYS_GET_TIME : Z := 3.
(** [NX_SYS_SLEEP]: include/nyx_abi.h:24-24 *)
Definition NX_SYS_SLEEP : Z := 4.
(** [NX_SYS_YIELD]: include/nyx_abi.h:25-25 *)
Definition NX_SYS_YIELD : Z := 5.
(** [NX_SYS_SYSINFO]: include/nyx_abi.h:26-26 *)
Definition NX_SYS_SYSINFO : Z := 7.
(** [NX_SYS_OPEN]: include/nyx_abi.h:28-28 *)
Definition NX_SYS_OPEN : Z := 32.
(** [NX_SYS_CLOSE]: include/nyx_abi.h:29-29 *)
Definition NX_SYS_CLOSE : Z := 33.
(** [NX_SYS_READ]: include/nyx_abi.h:30-30 *)
Definition NX_SYS_READ : Z := 34.
(** [NX_SYS_WRITE]: include/nyx_abi.h:31-31 *)
Definition NX_SYS_WRITE : Z := 35.
(** [NX_SYS_SEEK]: include/nyx_abi.h:32-32 *)
Definition NX_SYS_SEEK : Z := 36.
(** [NX_SYS_STAT]: include/nyx_abi.h:33-33 *)
Definition NX_SYS_STAT : Z := 37.
(** [NX_SYS_DUPLICATE_HANDLE]: include/nyx_abi.h:34-34 *)
Definition NX_SYS_DUPLICATE_HANDLE : Z := 41.
(** [NX_SYS_PROCESS_CREATE]: include/nyx_abi.h:43-43 *)
Definition NX_SYS_PROCESS_CREATE : Z := 64.
(** [NX_SYS_PROCESS_EXIT]: include/nyx_abi.h:44-44 *)
Definition NX_SYS_PROCESS_EXIT : Z := 65.
(** [NX_SYS_PROCESS_INFO]: include/nyx_abi.h:45-45 *)
Definition NX_SYS_PROCESS_INFO : Z := 68.
(** [NX_SYS_VIRTUAL_ALLOC]: include/nyx_abi.h:55-55 *)
Definition NX_SYS_VIRTUAL_ALLOC : Z := 96.
(** [NX_SYS_KERNEL_PRINT]: include/nyx_abi.h:57-57 *)
Definition NX_SYS_KERNEL_PRINT : Z := 771.
(** [NX_SYS_DEBUG_NOP]: include/nyx_abi.h:58-58 *)
Definition NX_SYS_DEBUG_NOP : Z := 777.
(** [NX_ABI_MAJOR]: include/nyx_abi.h:62-62 *)
Definition NX_ABI_MAJOR : Z := 1.
(** [NX_ABI_MINOR]: include/nyx_abi.h:63-63 *)
Definition NX_ABI_MINOR : Z := 1.
(** [NX_SEEK_SET]: include/nyx_abi.h:86-86 *)
Definition NX_SEEK_SET : Z := 0.
(** [NX_SEEK_CUR]: include/nyx_abi.h:87-87 *)
Definition NX_SEEK_CUR : Z := 1.
(** [NX_SEEK_END]: include/nyx_abi.h:88-88 *)
Definition NX_SEEK_END : Z := 2.
(** [NX_CLOCK_MONOTONIC]: include/nyx_abi.h:91-91 *)
Definition NX_CLOCK_MONOTONIC : Z := 0.
(** [NX_IO_MAX]: include/nyx_abi.h:102-102 *)
Definition NX_IO_MAX : Z := 0x100000.
(** [NX_SLEEP_MAX_MS]: include/nyx_abi.h:104-104 *)
Definition NX_SLEEP_MAX_MS : Z := 3600000.
(** [NX_PID_SELF]: include/nyx_abi.h:105-105 *)
Definition NX_PID_SELF : Z := 0xFFFFFFFF.
(** [NX_TYPE_FILE]: include/nyx_abi.h:115-115 *)
Definition NX_TYPE_FILE : Z := 1.
(** [NX_TYPE_DIR]: include/nyx_abi.h:116-116 *)
Definition NX_TYPE_DIR : Z := 2.
(** [NX_TYPE_CONSOLE]: include/nyx_abi.h:117-117 *)
Definition NX_TYPE_CONSOLE : Z := 3.
(** [NX_ABI_VERSION]: include/nyx_abi.h:65-65 *)
Definition NX_ABI_VERSION : Z :=
  Z.lor (Z.lor (Z.shiftl NX_ABI_MAJOR 32) (Z.shiftl NX_ABI_MINOR 16)) 0.
(** [NX_PATH_MAX]: include/nyx_abi.h:101-101 *)
Definition NX_PATH_MAX : nat := 256.
(** [SYSCALL_STRING_MAX]: nxkernel/kernel/syscall/syscall.h:21-21 *)
Definition SYSCALL_STRING_MAX : nat := 256.
(** [IO_CHUNK]: nxkernel/kernel/syscall/syscall.c:40-40 *)
Definition IO_CHUNK : Z := 512.

(** The value of [rax], or why there is none. *)
Inductive sysret : Type :=
| SysRet (r : Z)
| SysAway
| SysPanic (e : Nerror).

(** [(i64)status]: the sign extension of the 32-bit code is the same number. *)
Definition err_ret (e : Nerror) : Z := status e.

Definition of_outcome (o : outcome) : sysret :=
  match o with Returned e => SysRet (err_ret e) | Away => SysAway | Panicked e => SysPanic e end.

(** The bytes of a C string buffer before its first NUL. *)
Fixpoint c_string (buf : list Z) : list Z :=
  match buf with
  | [] => []
  | b :: buf => if b =? 0 then [] else b :: c_string buf
  end.

(** The little-endian bytes of an [n]-byte field. *)
Fixpoint le_bytes (n : nat) (v : Z) : list Z :=
  match n with O => [] | S n => v mod 256 :: le_bytes n (v / 256) end.

(** The kernel below the handlers: processes with frames and files, the log,
    and the frequency of the timer. *)
Record ksys (S V F : Type) := mk_ksys { k_ps : psys S V F; k_con : console; g_timer_hz : Z }.
#[global] Arguments mk_ksys {S V F}.
#[global] Arguments k_ps {S V F}.
#[global] Arguments k_con {S V F}.
#[global] Arguments g_timer_hz {S V F}.

Section syscall.
Context {S V F : Type} `{FrameAllocator S} `{FileIO V F}.
Context (g : proc_globals) (info : option NTBLI).
(** The local buffers that receive strings, before. *)
Context (path_buffer string_buffer : list Z).
Implicit Types (k : ksys S V F) (s : psys S V F) (a : list Z).

Definition with_ps s k : ksys S V F := mk_ksys s (k_con k) (g_timer_hz k).
Definition with_con c k : ksys S V F := mk_ksys (k_ps k) c (g_timer_hz k).
Definition arg (i : nat) a : Z := nth i a 0.

(** A handler on the processes alone. *)
Definition lift (c : psys S V F -> Z * psys S V F) k : sysret * ksys S V F :=
  let '(r, s) := c (k_ps k) in (SysRet r, with_ps s k).

(** [cur_handles]: nxkernel/kernel/syscall/syscall.c:45-48 *)
Definition cur_handles s : option (nx_handle_table_t F) := handles <$> cur s.

(** A store through [table]. *)
Definition set_cur_handles (t : nx_handle_table_t F) s : psys S V F :=
  match current_process s with Some i => upd i (set_handles t) s | None => s end.

(** [slot->file = f] *)
Definition set_file (i : nat) (f : F) s : psys S V F :=
  match cur_handles s with
  | Some t => set_cur_handles (alter (fun slot =>
      mk_handle (h_type slot) (h_rights slot) (h_generation slot) (console_fd slot) f) i t) s
  | None => s
  end.

Definition cur_slot (i : nat) s : option (nx_handle_t F) := cur_handles s ≫= fun t => t !! i.

(** ** Core *)

(** [sys_get_version]: nxkernel/kernel/syscall/syscall.c:54-58 *)
Definition sys_get_version a k : sysret * ksys S V F := (SysRet NX_ABI_VERSION, k).

(** [sys_get_time]: nxkernel/kernel/syscall/syscall.c:61-67 *)
Definition sys_get_time a k : sysret * ksys S V F :=
  if negb (arg 0 a =? NX_CLOCK_MONOTONIC) then (SysRet (err_ret Nunsupported), k)
  else (SysRet (i64 (timer_get_ns (g_timer_hz k) (timer_tick (k_ps k)))), k).

(** [sys_sleep]: nxkernel/kernel/syscall/syscall.c:70-82 *)
Definition sys_sleep a k : sysret * ksys S V F :=
  if NX_SLEEP_MAX_MS <? arg 0 a then (SysRet (err_ret NinvalidArg), k)
  else if g_timer_hz k =? 0 then (SysRet (err_ret Nunsupported), k)
  else
    let '(o, s) := process_sleep_ticks g (sleep_ticks (arg 0 a) (g_timer_hz k)) (k_ps k) in
    (of_outcome o, with_ps s k).

(** [sys_yield]: nxkernel/kernel/syscall/syscall.c:84-89 *)
Definition sys_yield a k : sysret * ksys S V F :=
  match schedule g (k_ps k) with
  | (Returned _, s) => (SysRet 0, with_ps s k)
  | (o, s) => (of_outcome o, with_ps s k)
  end.

(** [struct nx_sysinfo]: its 48 bytes. *)
(** [nx_sysinfo]: include/nyx_abi.h:128-138 *)
Definition nx_sysinfo (timer_hz ram_bytes uptime_ns count : Z) : list Z :=
  le_bytes 4 NX_ABI_MAJOR ++ le_bytes 4 NX_ABI_MINOR ++ le_bytes 4 PAGE_SIZE ++ le_bytes 4 timer_hz ++
  le_bytes 8 ram_bytes ++ le_bytes 8 uptime_ns ++ le_bytes 4 count ++ le_bytes 4 0 ++ le_bytes 8 0.

(** [sys_sysinfo]: nxkernel/kernel/syscall/syscall.c:92-107 *)
Definition sys_sysinfo a k : sysret * ksys S V F :=
  let si := nx_sysinfo (g_timer_hz k) (match info with Some info => memory_size info | None => 0 end)
              (timer_get_ns (g_timer_hz k) (timer_tick (k_ps k))) (process_count (k_ps k)) in
  let '(st, s) := copy_to_user (arg 0 a) si (k_ps k) in
  (SysRet (err_ret st), with_ps s k).

(** ** Handles *)

(** [sys_open]: nxkernel/kernel/syscall/syscall.c:114-167 *)
Definition sys_open a : ksys S V F -> sysret * ksys S V F := lift (fun s =>
  let flags := arg 1 a in
  match cur_handles s with
  | None => (err_ret NnotInitialized, s)
  | Some table =>
      if negb (Z.land flags (unot 64 NX_O_MASK) =? 0) || (flags =? 0) then (err_ret NinvalidArg, s)
      else
        let '(status, path) := copy_string_from_user path_buffer (arg 0 a) s in
        if is_err status then (err_ret status, s)
        else match file_open (c_string path) (u32 flags) (ps_vfs s) with
        | (Err e, v) => (err_ret e, with_vfs v s)
        | (Ok file, v) =>
            let '(status, (file, v)) :=
              if tst flags NX_O_WRITE then
                let '(r, fv) := file_write [] (file, v) in (res_status r, fv)
              else (Nok, (file, v)) in
            if is_err status then (err_ret status, with_vfs (file_close file v) s)
            else
              let rights := Z.lor (Z.lor NX_RIGHT_SEEK NX_RIGHT_STAT) NX_RIGHT_DUP in
              let rights := if tst flags NX_O_READ then Z.lor rights NX_RIGHT_READ else rights in
              let rights := if tst flags NX_O_WRITE then Z.lor rights NX_RIGHT_WRITE else rights in
              let s := with_vfs v s in
              match nx_handle_alloc table NX_HANDLE_FILE rights with
              | (Err e, _) => (err_ret e, with_vfs (file_close file (ps_vfs s)) s)
              | (Ok (handle, i), table) => (i64 handle, set_file i file (set_cur_handles table s))
              end
        end
  end).

(** [sys_close]: nxkernel/kernel/syscall/syscall.c:170-177 *)
Definition sys_close a : ksys S V F -> sysret * ksys S V F := lift (fun s =>
  match cur_handles s with
  | None => (err_ret NnotInitialized, s)
  | Some table =>
      let '(st, (table, v)) := nx_handle_close (arg 0 a) (table, ps_vfs s) in
      (err_ret st, set_cur_handles table (with_vfs v s))
  end).

(** A transfer that stops after [total] bytes with the status [e]. *)
Definition stopped (total : Z) (e : Nerror) : Z := if total =? 0 then err_ret e else i64 total.

(** The loop of [sys_read] on slot [i]; [fuel] is more than the chunks left. *)
(** [read_loop]: nxkernel/kernel/syscall/syscall.c:205-226 *)
Fixpoint read_loop (fuel : nat) (i : nat) (buf len total : Z) s : Z * psys S V F :=
  match fuel, cur_slot i s with
  | O, _ | _, None => (i64 total, s)
  | Datatypes.S fuel, Some slot =>
      if negb (total <? len) then (i64 total, s)
      else
        let want := if len - total <? IO_CHUNK then len - total else IO_CHUNK in
        let '((status, chunk), (f, v)) := file_read want (h_file slot, ps_vfs s) in
        let s := set_file i f (with_vfs v s) in
        let got := Z.of_nat (length chunk) in
        if is_err status then (stopped total status, s)
        else if got =? 0 then (i64 total, s)
        else
          let '(status, s) := copy_to_user (u64 (buf + total)) chunk s in
          if is_err status then
            (stopped total status, set_file i (file_set_offset (u64 (file_offset f - got)) f) s)
          else
            let total := u64 (total + got) in
            if got <? want then (i64 total, s) else read_loop fuel i buf len total s
  end.

(** What [sys_read] and [sys_write] limit the length to. *)
Definition io_len (len : Z) : Z := if NX_IO_MAX <? len then NX_IO_MAX else len.
Definition io_fuel : nat := Z.to_nat (NX_IO_MAX / IO_CHUNK + 1).

(** [sys_read]: nxkernel/kernel/syscall/syscall.c:180-227 *)
Definition sys_read a : ksys S V F -> sysret * ksys S V F := lift (fun s =>
  match cur_handles s with
  | None => (err_ret NnotInitialized, s)
  | Some table =>
      match nx_handle_lookup table (arg 0 a) NX_RIGHT_READ with
      | Err e => (err_ret e, s)
      | Ok i =>
          if arg 2 a =? 0 then (0, s)
          else match table !! i with
          | None => (err_ret NinvalidArg, s)
          | Some slot =>
              if negb (h_type slot =? NX_HANDLE_FILE) then (err_ret Nunsupported, s)
              else read_loop io_fuel i (arg 1 a) (io_len (arg 2 a)) 0 s
          end
      end
  end).

(** [write_loop]: nxkernel/kernel/syscall/syscall.c:252-276 *)
Fixpoint write_loop (fuel : nat) (i : nat) (buf len total : Z) k : Z * ksys S V F :=
  match fuel, cur_slot i (k_ps k) with
  | O, _ | _, None => (i64 total, k)
  | Datatypes.S fuel, Some slot =>
      if negb (total <? len) then (i64 total, k)
      else
        let n := if len - total <? IO_CHUNK then len - total else IO_CHUNK in
        let '(status, chunk) := copy_from_user (u64 (buf + total)) n (k_ps k) in
        if is_err status then (stopped total status, k)
        else if h_type slot =? NX_HANDLE_CONSOLE then
          write_loop fuel i buf len (u64 (total + n)) (with_con (printk_write chunk (k_con k)) k)
        else
          let '(r, (f, v)) := file_write chunk (h_file slot, ps_vfs (k_ps k)) in
          let k := with_ps (set_file i f (with_vfs v (k_ps k))) k in
          match r with
          | Err e => (stopped total e, k)
          | Ok written =>
              if written <? n then (i64 (u64 (total + written)), k)
              else write_loop fuel i buf len (u64 (total + n)) k
          end
  end.

(** [sys_write]: nxkernel/kernel/syscall/syscall.c:230-277 *)
Definition sys_write a k : sysret * ksys S V F :=
  match cur_handles (k_ps k) with
  | None => (SysRet (err_ret NnotInitialized), k)
  | Some table =>
      match nx_handle_lookup table (arg 0 a) NX_RIGHT_WRITE with
      | Err e => (SysRet (err_ret e), k)
      | Ok i =>
          if arg 2 a =? 0 then (SysRet 0, k)
          else
            let '(r, k) := write_loop io_fuel i (arg 1 a) (io_len (arg 2 a)) 0 k in (SysRet r, k)
      end
  end.

(** The place [whence] names, in the open file of slot [i]. *)
(** [seek_base]: nxkernel/kernel/syscall/syscall.c:299-314 *)
Definition seek_base (whence : Z) (f : F) (v : V) : res Z * V :=
  if whence =? NX_SEEK_SET then (Ok 0, v)
  else if whence =? NX_SEEK_CUR then (Ok (i64 (file_offset f)), v)
  else if whence =? NX_SEEK_END then
    match file_stat f v with
    | (Err e, v) => (Err e, v)
    | (Ok st, v) => (Ok (i64 (st_size st)), v)
    end
  else (Err NinvalidArg, v).

(** [sys_seek]: nxkernel/kernel/syscall/syscall.c:280-328 *)
Definition sys_seek a : ksys S V F -> sysret * ksys S V F := lift (fun s =>
  let offset := i64 (arg 1 a) in
  match cur_handles s with
  | None => (err_ret NnotInitialized, s)
  | Some table =>
      match nx_handle_lookup table (arg 0 a) NX_RIGHT_SEEK with
      | Err e => (err_ret e, s)
      | Ok i =>
          match table !! i with
          | None => (err_ret NinvalidArg, s)
          | Some slot =>
              if negb (h_type slot =? NX_HANDLE_FILE) then (err_ret Nunsupported, s)
              else match seek_base (arg 2 a) (h_file slot) (ps_vfs s) with
              | (Err e, v) => (err_ret e, with_vfs v s)
              | (Ok base, v) =>
                  let s := with_vfs v s in
                  if (base <? 0) || (0x3FFFFFFFFFFFFFFF <? base) then (err_ret Noverflow, s)
                  else if (0x3FFFFFFFFFFFFFFF <? offset) || (offset <? - 0x3FFFFFFFFFFFFFFF)
                  then (err_ret NinvalidArg, s)
                  else
                    let target := i64 (base + offset) in
                    if target <? 0 then (err_ret NinvalidArg, s)
                    else (target, set_file i (file_set_offset (u64 target) (h_file slot)) s)
              end
          end
      end
  end).

(** [struct nx_stat]: its 32 bytes. *)
(** [nx_stat]: include/nyx_abi.h:120-125 *)
Definition nx_stat (size type rights : Z) : list Z :=
  le_bytes 8 size ++ le_bytes 4 type ++ le_bytes 4 rights ++ le_bytes 8 0 ++ le_bytes 8 0.

(** [sys_stat]: nxkernel/kernel/syscall/syscall.c:331-361 *)
Definition sys_stat a : ksys S V F -> sysret * ksys S V F := lift (fun s =>
  match cur_handles s with
  | None => (err_ret NnotInitialized, s)
  | Some table =>
      match nx_handle_lookup table (arg 0 a) NX_RIGHT_STAT with
      | Err e => (err_ret e, s)
      | Ok i =>
          match table !! i with
          | None => (err_ret NinvalidArg, s)
          | Some slot =>
              if h_type slot =? NX_HANDLE_CONSOLE then
                let '(st, s) := copy_to_user (arg 1 a) (nx_stat 0 NX_TYPE_CONSOLE (h_rights slot)) s in
                (err_ret st, s)
              else match file_stat (h_file slot) (ps_vfs s) with
              | (Err e, v) => (err_ret e, with_vfs v s)
              | (Ok vs, v) =>
                  let type := if st_type vs =? 2 then NX_TYPE_DIR else NX_TYPE_FILE in
                  let '(st, s) := copy_to_user (arg 1 a) (nx_stat (st_size vs) type (h_rights slot)) (with_vfs v s) in
                  (err_ret st, s)
              end
          end
      end
  end).

(** [sys_duplicate_handle]: nxkernel/kernel/syscall/syscall.c:364-398 *)
Definition sys_duplicate_handle a : ksys S V F -> sysret * ksys S V F := lift (fun s =>
  let mask := arg 1 a in
  match cur_handles s with
  | None => (err_ret NnotInitialized, s)
  | Some table =>
      if negb (Z.land mask (unot 64 NX_RIGHT_ALL) =? 0) then (err_ret NinvalidArg, s)
      else match nx_handle_lookup table (arg 0 a) NX_RIGHT_DUP with
      | Err e => (err_ret e, s)
      | Ok i =>
          match table !! i with
          | None => (err_ret NinvalidArg, s)
          | Some slot =>
              match nx_handle_alloc table (h_type slot) (Z.land (h_rights slot) (u32 mask)) with
              | (Err e, _) => (err_ret e, s)
              | (Ok (handle, j), table) =>
                  if h_type slot =? NX_HANDLE_CONSOLE then
                    (i64 handle, set_cur_handles (alter (fun dup =>
                       mk_handle (h_type dup) (h_rights dup) (h_generation dup) (console_fd slot) (h_file dup)) j table) s)
                  else match file_reopen (h_file slot) (ps_vfs s) with
                  | (Err e, v) => (err_ret e, set_cur_handles (nx_handle_discard j table) (with_vfs v s))
                  | (Ok f, v) => (i64 handle, set_file j f (set_cur_handles table (with_vfs v s)))
                  end
              end
          end
      end
  end).

(** ** Processes *)

(** [sys_process_create]: nxkernel/kernel/syscall/syscall.c:405-419 *)
Definition sys_process_create a : ksys S V F -> sysret * ksys S V F := lift (fun s =>
  let '(status, path) := copy_string_from_user path_buffer (arg 0 a) s in
  if is_err status then (err_ret status, s)
  else match process_spawn g (c_string path) s with
  | (Err e, s) => (err_ret e, s)
  | (Ok pid, s) => (pid, s)
  end).

(** [sys_virtual_alloc]: nxkernel/kernel/syscall/syscall.c:422-435 *)
Definition sys_virtual_alloc a : ksys S V F -> sysret * ksys S V F := lift (fun s =>
  match current_process s ≫= fun c => pair c <$> g_procs s !! c with
  | None => (err_ret NnotInitialized, s)
  | Some (c, p) =>
      let '((r, p'), fa) := umem_brk (pg_paging g) p (i64 (arg 0 a)) (ps_fa s) in
      let s := upd c (fun _ => p') (with_fa fa s) in
      (match r with Ok brk => i64 brk | Err e => err_ret e end, s)
  end).

(** [sys_process_exit]: nxkernel/kernel/syscall/syscall.c:438-441 *)
Definition sys_process_exit a k : sysret * ksys S V F :=
  let '(o, s) := process_exit_with_code g (i32 (Z.land (arg 0 a) 0xFFFFFFFF)) (k_ps k) in
  (of_outcome o, with_ps s k).

(** The number of a state. *)
Definition state_number (st : process_state_t) : Z :=
  match st with PROCESS_READY => 0 | PROCESS_RUNNING => 1 | PROCESS_BLOCKED => 2 | PROCESS_TERMINATED => 3 end.

(** [struct nx_procinfo]: its 32 bytes. *)
(** [nx_procinfo]: include/nyx_abi.h:141-147 *)
Definition nx_procinfo (pid state count : Z) : list Z :=
  le_bytes 4 pid ++ le_bytes 4 state ++ le_bytes 4 count ++ le_bytes 4 0 ++ le_bytes 8 0 ++ le_bytes 8 0.

(** [sys_process_info]: nxkernel/kernel/syscall/syscall.c:444-462 *)
Definition sys_process_info a : ksys S V F -> sysret * ksys S V F := lift (fun s =>
  match cur s with
  | None => (err_ret NnotInitialized, s)
  | Some self =>
      if negb (arg 0 a =? NX_PID_SELF) && negb (arg 0 a =? pid self) then (err_ret Npermission, s)
      else
        let pi := nx_procinfo (pid self) (state_number (state self)) (Z.of_nat (nx_handles_count (handles self))) in
        let '(st, s) := copy_to_user (arg 1 a) pi s in (err_ret st, s)
  end).

(** ** Debug *)

(** [sys_kernel_print]: nxkernel/kernel/syscall/syscall.c:469-479 *)
Definition sys_kernel_print a k : sysret * ksys S V F :=
  let '(status, buffer) := copy_string_from_user string_buffer (arg 0 a) (k_ps k) in
  if is_err status then (SysRet (err_ret status), k)
  else (SysRet 0, with_con (printk_write (c_string buffer) (k_con k)) k).

(** [sys_debug_nop]: nxkernel/kernel/syscall/syscall.c:481-485 *)
Definition sys_debug_nop a k : sysret * ksys S V F := (SysRet 0, k).

(** ** Dispatch *)

Definition syscall_fn : Type := list Z -> ksys S V F -> sysret * ksys S V F.

(** [g_syscalls]: nxkernel/kernel/syscall/syscall.c:496-519 *)
Definition g_syscalls : list (Z * syscall_fn) := [
  (NX_SYS_GET_VERSION, sys_get_version);
  (NX_SYS_GET_TIME, sys_get_time);
  (NX_SYS_SLEEP, sys_sleep);
  (NX_SYS_YIELD, sys_yield);
  (NX_SYS_SYSINFO, sys_sysinfo);
  (NX_SYS_OPEN, sys_open);
  (NX_SYS_CLOSE, sys_close);
  (NX_SYS_READ, sys_read);
  (NX_SYS_WRITE, sys_write);
  (NX_SYS_SEEK, sys_seek);
  (NX_SYS_STAT, sys_stat);
  (NX_SYS_DUPLICATE_HANDLE, sys_duplicate_handle);
  (NX_SYS_PROCESS_CREATE, sys_process_create);
  (NX_SYS_PROCESS_EXIT, sys_process_exit);
  (NX_SYS_PROCESS_INFO, sys_process_info);
  (NX_SYS_VIRTUAL_ALLOC, sys_virtual_alloc);
  (NX_SYS_KERNEL_PRINT, sys_kernel_print);
  (NX_SYS_DEBUG_NOP, sys_debug_nop)].

(** The first entry with the number. *)
(** [find_syscall]: nxkernel/kernel/syscall/syscall.c:542-545 *)
Fixpoint find_syscall (nr : Z) (l : list (Z * syscall_fn)) : option syscall_fn :=
  match l with
  | [] => None
  | (n, fn) :: l => if n =? nr then Some fn else find_syscall nr l
  end.

(** [args]: the six words. *)
(** [syscall_dispatch]: nxkernel/kernel/syscall/syscall.c:523-548 *)
Definition syscall_dispatch (syscall_nr : Z) (args : list Z) k : sysret * ksys S V F :=
  match find_syscall syscall_nr g_syscalls with
  | Some fn => fn args k
  | None => (SysRet (err_ret NsyscallFailed), k)
  end.

(** The registers of the frame: [rax], then the six of the arguments. *)
(** [syscall_handle]: nxkernel/kernel/syscall/syscall.c:550-564 *)
Definition syscall_handle (rax : Z) (args : list Z) k : option Z * ksys S V F :=
  match syscall_dispatch rax args k with
  | (SysRet r, k) => (Some (u64 r), k)
  | (_, k) => (None, k)
  end.

(** [syscall_bad_return]: nxkernel/kernel/syscall/syscall.c:609-613 *)
Definition syscall_bad_return k : sysret * ksys S V F :=
  let text := [115; 121; 115; 99; 97; 108; 108; 58; 32; 105; 110; 118; 97; 108; 105; 100; 32; 114; 101; 116; 117; 114; 110;
               32; 97; 100; 100; 114; 101; 115; 115; 44; 32; 116; 101; 114; 109; 105; 110; 97; 116; 105; 110; 103; 32; 112;
               114; 111; 99; 101; 115; 115; 10] in
  let k := match printk (Some text) [] (k_con k) with Some (_, c) => with_con c k | None => k end in
  let '(o, s) := process_exit_with_code g (-1) (k_ps k) in
  (of_outcome o, with_ps s k).
End syscall.

(** The writes to model-specific registers, given what [cpuid] says: its
    largest extended leaf and the features in [edx] of leaf 0x80000001. *)
(** [syscall_init]: nxkernel/kernel/syscall/syscall.c:583-607 *)
Definition syscall_init (max_leaf features efer entry cpu_local : Z) : Nerror * list (Z * Z) :=
  if max_leaf <? 0x80000001 then (NdeviceMissing, [])
  else if negb (tst features (Z.shiftl 1 11)) then (NdeviceMissing, [])
  else (Nok,
    [(0xC0000080, Z.lor efer 1);
     (0xC0000081, Z.lor (Z.shiftl 0x18 48) (Z.shiftl 0x08 32));
     (0xC0000082, entry);
     (0xC0000084, Z.lor (Z.lor (Z.lor (Z.lor 0x200 0x100) 0x400) 0x40000) 0x4000);
     (0xC0000101, 0);
     (0xC0000102, cpu_local)]).
