(* ===== verification/SyscallProps.v ===== *)
(** * System calls, specified

    Whatever a program asks for, the processes stay in order and the log stays
    in its frame buffer. *)

From S2P Require Import Prelude Types Mem Memory Bytes BootInfo FrameAlloc Paging PagingSpec AddrSpace SpaceLife Handles Process ProcessInv ProcessProps FileIO Printk PrintkProps Timer Owned Umem UmemProps Elf ElfProps Spawn SpawnProps Uaccess UaccessProps Syscall.

Lemma alter_ext_at {A} (f h : A -> A) (l : list A) i : (forall x, l !! i = Some x -> f x = h x) -> alter f i l = alter h i l.
Proof.
  intros He. apply list_eq. intros j. rewrite !lookup_alter_cases. case_decide; [subst|done].
  destruct (l !! j) as [x|] eqn:E; [|done]. simpl. f_equal. by apply He.
Qed.

Section invariant.
Context {S V F : Type} `{FrameAllocator S} `{FileIO V F}.
Context (g : proc_globals) (info : option NTBLI) (path_buffer string_buffer : list Z).
Implicit Types (k : ksys S V F) (s : psys S V F) (a : list Z).

(** Work that leaves the processes in order and takes no pid. *)
Definition quiet s s' : Prop := proc_inv g s -> proc_inv g s' /\ g_next_pid s' = g_next_pid s.

#[local] Instance quiet_preorder : PreOrder quiet.
Proof.
  split; [by intros s|]. intros s s1 s2 H1 H2 Hi. destruct (H1 Hi) as [Hi1 E1]. destruct (H2 Hi1) as [Hi2 E2].
  split; [done|]. by rewrite E2.
Qed.

Lemma quiet_vfs v s : quiet s (with_vfs v s).
Proof. intros Hi. split; [by apply proc_inv_with_vfs|done]. Qed.

Lemma quiet_fa fa s : quiet s (with_fa fa s).
Proof. intros Hi. split; [by apply proc_inv_with_fa|done]. Qed.

Lemma quiet_upd i f s : same_id f -> (forall p, state (f p) = state p /\ addrspace (f p) = addrspace p) ->
  quiet s (upd i f s).
Proof.
  intros Hf Hs Hi. split; [|done]. pose proof (work_inv g s i f (ps_fa s) (ps_vfs s) Hf Hs Hi) as Hw.
  by destruct s.
Qed.

Lemma quiet_handles t s : quiet s (set_cur_handles t s).
Proof. unfold set_cur_handles. destruct (current_process s); [|done]. by apply quiet_upd. Qed.

Lemma quiet_file i f s : quiet s (set_file i f s).
Proof. unfold set_file. destruct (cur_handles s); [|done]. apply quiet_handles. Qed.

Lemma quiet_copy (x : Z) src s : quiet s (copy_to_user x src s).2.
Proof.
  unfold copy_to_user. case_if; [done|]. destruct (cur s) as [p|]; [|done]. case_if; [done|].
  destruct (uaccess_write _ _ _ _) as [b fa]. case_if; apply quiet_fa.
Qed.

Lemma quiet_copy' (x : Z) src s st s' s0 : copy_to_user x src s = (st, s') -> quiet s0 s -> quiet s0 s'.
Proof. intros E Hq. etrans; [exact Hq|]. pose proof (quiet_copy x src s) as Hc. by rewrite E in Hc. Qed.

(** One more step of quiet work. *)
Ltac quiet_step :=
  match goal with
  | |- quiet ?s ?s => done
  | |- quiet _ (with_vfs _ _) => etrans; [|apply quiet_vfs]
  | |- quiet _ (with_fa _ _) => etrans; [|apply quiet_fa]
  | |- quiet _ (set_file _ _ _) => etrans; [|apply quiet_file]
  | |- quiet _ (set_cur_handles _ _) => etrans; [|apply quiet_handles]
  | E : copy_to_user _ _ ?s = (_, ?s') |- quiet _ ?s' => apply (quiet_copy' _ _ _ _ _ _ E)
  | |- quiet _ (match ?x with _ => _ end).2 => destruct x eqn:?
  | |- quiet _ (_, _).2 => cbn [snd]
  | |- quiet _ (k_ps (_, _).2) => cbn [snd k_ps with_ps with_con]
  end.
Ltac quiet := repeat quiet_step.

Lemma read_loop_quiet fuel i buf len total s : quiet s (read_loop fuel i buf len total s).2.
Proof.
  revert total s. induction fuel as [|n IH]; intros total s; cbn [read_loop]; [by destruct (cur_slot i s)|].
  destruct (cur_slot i s) as [slot|]; [|done]. case_if; [done|].
  destruct (file_read _ _) as [[st chunk] [f v]]. case_if; [by quiet|]. case_if; [by quiet|].
  destruct (copy_to_user _ _ _) as [st2 s2] eqn:E2. case_if; [by quiet|]. case_if; [by quiet|].
  etrans; [|apply IH]. by quiet.
Qed.

Lemma write_loop_quiet fuel i buf len total k : quiet (k_ps k) (k_ps (write_loop fuel i buf len total k).2).
Proof.
  revert total k. induction fuel as [|n IH]; intros total k; cbn [write_loop]; [by destruct (cur_slot i (k_ps k))|].
  destruct (cur_slot i (k_ps k)) as [slot|]; [|done]. case_if; [done|].
  destruct (copy_from_user _ _ _) as [st chunk]. case_if; [done|]. case_if; [apply (IH _ (with_con _ k))|].
  destruct (file_write _ _) as [[w|e] [f v]]; [|by quiet]. case_if; [by quiet|].
  etrans; [|apply IH]. cbn [k_ps with_ps]. by quiet.
Qed.

Lemma brk_quiet s c p inc r p' fa : current_process s = Some c -> g_procs s !! c = Some p ->
  umem_brk (pg_paging g) p inc (ps_fa s) = ((r, p'), fa) -> quiet s (upd c (fun _ => p') (with_fa fa s)).
Proof.
  intros Hc Hp E. assert (Hb : exists b, p' = set_heap_brk b p).
  { revert E. unfold umem_brk. repeat case_if; try (intros [= _ <- _]; by exists (heap_brk p); destruct p).
    - destruct (grow_pages _ _ _ _ _) as [st t]. case_if; intros [= _ <- _]; [by exists (heap_brk p); destruct p|by eexists].
    - intros [= _ <- _]. by eexists. }
  destruct Hb as [b ->]. assert (Hu : upd c (fun _ => set_heap_brk b p) (with_fa fa s) = upd c (set_heap_brk b) (with_fa fa s)).
  { unfold upd, with_procs. cbn. f_equal. apply alter_ext_at. intros q Hq. congruence. }
  rewrite Hu. etrans; [apply quiet_fa|]. by apply quiet_upd.
Qed.

(** What a call does to the processes: it keeps them in order and takes at
    most one pid. *)
Definition orderly s s' : Prop :=
  proc_inv g s -> g_next_pid s + 1 < 2 ^ 32 -> proc_inv g s' /\ g_next_pid s <= g_next_pid s' <= g_next_pid s + 1.

Lemma quiet_orderly s s' : quiet s s' -> orderly s s'.
Proof. intros Hq Hi _. destruct (Hq Hi) as [Hi' ->]. split; [done|lia]. Qed.

Lemma spawn_orderly path s : orderly s (process_spawn g path s).2.
Proof.
  intros Hi Hn.
  assert (Hq : forall s', quiet s s' -> proc_inv g s' /\ g_next_pid s <= g_next_pid s' <= g_next_pid s + 1)
    by (intros s' Hq; destruct (Hq Hi) as [? ->]; split; [done|lia]).
  unfold process_spawn. destruct (file_open _ _ _) as [[file|e] v]; [|apply Hq; by quiet].
  destruct (paging_addrspace_create _ _) as [[as_|e] fa]; [|apply Hq; by quiet].
  destruct (elf_load _ _ _) as [[[entry image_end]|e] t]; [|apply Hq; by quiet].
  destruct (map_user_stack _ _ _) as [[[]|e] fa3]; [|apply Hq; by quiet].
  match goal with |- context [process_create_user _ _ _ _ _ ?s1] => set (s1' := s1) end.
  assert (Hq1 : quiet s s1') by (unfold s1'; by quiet). destruct (Hq1 Hi) as [Hi1 Hn1].
  destruct (process_create_user _ _ _ _ _ _) as [[pid_|e] s2] eqn:E;
    destruct (create_user_run g _ _ _ _ _ _ _ Hi1 ltac:(lia) E) as [Hi2 Hn2]; cbn [snd].
  - split; [done|lia].
  - destruct (quiet_fa ((paging_addrspace_destroy as_ (ps_fa s2)).2) s2 Hi2) as [? ->]. split; [done|lia].
Qed.

Lemma lift_orderly c k : orderly (k_ps k) (c (k_ps k)).2 -> orderly (k_ps k) (k_ps (lift c k).2).
Proof. unfold lift. by destruct (c (k_ps k)). Qed.

Lemma lift_quiet c k : quiet (k_ps k) (c (k_ps k)).2 -> orderly (k_ps k) (k_ps (lift c k).2).
Proof. intros Hq. by apply lift_orderly, quiet_orderly. Qed.

(** The handlers that work on handles, files and memory only. *)
Lemma open_orderly a k : orderly (k_ps k) (k_ps (sys_open path_buffer a k).2).
Proof. apply lift_quiet. cbv zeta. by quiet. Qed.

Lemma close_orderly a k : orderly (k_ps k) (k_ps (sys_close a k).2).
Proof. apply lift_quiet. cbv zeta. by quiet. Qed.

Lemma read_orderly a k : orderly (k_ps k) (k_ps (sys_read a k).2).
Proof. apply lift_quiet. cbv zeta. quiet. apply read_loop_quiet. Qed.

Lemma write_orderly a k : orderly (k_ps k) (k_ps (sys_write a k).2).
Proof.
  apply quiet_orderly. unfold sys_write. destruct (cur_handles _) as [table|]; [|done].
  destruct (nx_handle_lookup _ _ _) as [i|e]; [|done]. case_if; [done|].
  pose proof (write_loop_quiet io_fuel i (arg 1 a) (io_len (arg 2 a)) 0 k) as Hq. by destruct (write_loop _ _ _ _ _ _).
Qed.

Lemma seek_orderly a k : orderly (k_ps k) (k_ps (sys_seek a k).2).
Proof. apply lift_quiet. cbv zeta. by quiet. Qed.

Lemma stat_orderly a k : orderly (k_ps k) (k_ps (sys_stat a k).2).
Proof. apply lift_quiet. cbv zeta. by quiet. Qed.

Lemma duplicate_orderly a k : orderly (k_ps k) (k_ps (sys_duplicate_handle a k).2).
Proof. apply lift_quiet. cbv zeta. by quiet. Qed.

Lemma info_orderly a k : orderly (k_ps k) (k_ps (sys_process_info a k).2).
Proof. apply lift_quiet. cbv zeta. by quiet. Qed.

Lemma sysinfo_orderly a k : orderly (k_ps k) (k_ps (sys_sysinfo info a k).2).
Proof.
  apply quiet_orderly. unfold sys_sysinfo. destruct (copy_to_user _ _ _) as [st s] eqn:E. by quiet.
Qed.

Lemma virtual_alloc_orderly a k : orderly (k_ps k) (k_ps (sys_virtual_alloc g a k).2).
Proof.
  apply lift_quiet. destruct (current_process (k_ps k)) as [c|] eqn:Ec; [|done]. cbn [mbind option_bind].
  destruct (g_procs (k_ps k) !! c) as [p|] eqn:Ep; [|done]. cbn [fmap option_fmap option_map].
  destruct (umem_brk _ _ _ _) as [[r p'] fa] eqn:E. by eapply brk_quiet.
Qed.

(** The handlers that switch, end or make processes. *)
Lemma create_orderly a k : orderly (k_ps k) (k_ps (sys_process_create g path_buffer a k).2).
Proof.
  apply lift_orderly. destruct (copy_string_from_user _ _ _) as [st path].
  case_if; [by apply quiet_orderly|]. pose proof (spawn_orderly (c_string path) (k_ps k)) as Hs.
  by destruct (process_spawn _ _ _) as [[|] ?].
Qed.

Lemma exit_orderly a k : orderly (k_ps k) (k_ps (sys_process_exit g a k).2).
Proof.
  intros Hi _. unfold sys_process_exit. destruct (process_exit_with_code _ _ _) as [o s] eqn:E.
  destruct (exit_inv g _ _ _ _ Hi E) as [? Hn]. cbn. rewrite Hn. split; [done|lia].
Qed.

Lemma sleep_orderly a k : orderly (k_ps k) (k_ps (sys_sleep g a k).2).
Proof.
  intros Hi _. unfold sys_sleep. case_if; [split; [done|cbn; lia]|]. case_if; [split; [done|cbn; lia]|].
  destruct (process_sleep_ticks _ _ _) as [o s] eqn:Es.
  destruct (sleep_inv g _ _ _ _ Hi Es) as [? Hn]. cbn. rewrite Hn. split; [done|lia].
Qed.

Lemma yield_orderly a k : orderly (k_ps k) (k_ps (sys_yield g a k).2).
Proof.
  intros Hi _. unfold sys_yield. destruct (schedule _ _) as [o s] eqn:E.
  destruct (schedule_inv g _ _ _ Hi E) as [? Hn]. destruct o; cbn; (split; [done|lia]).
Qed.

Lemma print_orderly a k : orderly (k_ps k) (k_ps (sys_kernel_print string_buffer a k).2).
Proof.
  apply quiet_orderly. unfold sys_kernel_print. destruct (copy_string_from_user _ _ _) as [st b]. by case_if.
Qed.

Lemma dispatch_orderly nr a k : orderly (k_ps k) (k_ps (syscall_dispatch g info path_buffer string_buffer nr a k).2).
Proof.
  unfold syscall_dispatch. cbn [find_syscall g_syscalls].
  repeat match goal with |- context [if ?n =? nr then _ else _] => destruct (n =? nr) end;
    first [by apply quiet_orderly|apply sleep_orderly|apply yield_orderly|apply sysinfo_orderly|apply open_orderly
          |apply close_orderly|apply read_orderly|apply write_orderly|apply seek_orderly|apply stat_orderly
          |apply duplicate_orderly|apply create_orderly|apply exit_orderly|apply info_orderly
          |apply virtual_alloc_orderly|apply print_orderly|idtac].
  - unfold sys_get_time. by case_if; apply quiet_orderly.
Qed.

(** *** No panic *)

Definition no_panic (r : sysret) : Prop := forall e, r <> SysPanic e.

Lemma schedule_outcome s o s' : proc_inv g s -> schedule g s = (o, s') -> no_panic (of_outcome o).
Proof.
  intros (l & c & p & Hsh & Hru & Hc & _) E. apply list_elem_of_split in Hc as (b & a & ->).
  pose proof (schedule_run g s c a b Hsh Hru) as Hs.
  destruct (first_runnable s (a ++ b)) as [n|].
  - destruct Hs as (q & _ & _ & _ & E' & _). rewrite E' in E. by injection E as [= <- _].
  - rewrite Hs in E. by injection E as [= <- _].
Qed.

Lemma lift_no_panic c k : no_panic (lift c k).1.
Proof. unfold lift. by destruct (c (k_ps k)). Qed.

Lemma sleep_no_panic a k : proc_inv g (k_ps k) -> no_panic (sys_sleep g a k).1.
Proof.
  intros (l & c & pc & Hsh & Hru & Hc & Hpc & Hstc). unfold sys_sleep. case_if; [done|]. case_if; [done|].
  destruct (process_sleep_ticks _ _ _) as [o s] eqn:Es. cbn [fst]. revert Es.
  unfold process_sleep_ticks. rewrite (ru_cur _ _ _ Hru). cbn [mbind option_bind]. rewrite Hpc.
  cbn [fmap option_fmap option_map]. case_if; [by intros [= <- _]|].
  set (w := u64 _). fold (dozing (k_ps k) c w).
  destruct (dozing_away g (k_ps k) l c w Hsh Hru Hc) as (s2 & E2 & _).
  { rewrite (slot_pid (k_ps k) l _ c pc Hsh Hc Hpc). done. }
  rewrite E2. by intros [= <- _].
Qed.

Lemma exit_no_panic a k p : proc_inv g (k_ps k) -> cur (k_ps k) = Some p -> pid p <> 0 ->
  no_panic (sys_process_exit g a k).1.
Proof.
  intros Hi Hc Hp. unfold sys_process_exit. unfold cur in Hc.
  destruct (current_process (k_ps k)) as [c|] eqn:Ec; [|done]. cbn [mbind option_bind] in Hc.
  destruct (exit_away g (k_ps k) c p (i32 (Z.land (arg 0 a) 0xFFFFFFFF)) Hi Ec Hc Hp) as (s' & -> & _). done.
Qed.

Lemma dispatch_no_panic nr a k p : proc_inv g (k_ps k) -> cur (k_ps k) = Some p -> pid p <> 0 ->
  no_panic (syscall_dispatch g info path_buffer string_buffer nr a k).1.
Proof.
  intros Hi Hc Hp. unfold syscall_dispatch. cbn [find_syscall g_syscalls].
  repeat match goal with |- context [if ?n =? nr then _ else _] => destruct (n =? nr) end;
    first [apply lift_no_panic|by apply sleep_no_panic|by eapply exit_no_panic|done|idtac].
  - unfold sys_get_time. by case_if.
  - unfold sys_yield. destruct (schedule _ _) as [o s] eqn:E. pose proof (schedule_outcome _ _ _ Hi E). by destruct o.
  - unfold sys_sysinfo. by destruct (copy_to_user _ _ _).
  - unfold sys_write. destruct (cur_handles _); [|done]. destruct (nx_handle_lookup _ _ _); [|done].
    case_if; [done|]. by destruct (write_loop _ _ _ _ _ _).
  - unfold sys_kernel_print. destruct (copy_string_from_user _ _ _). by case_if.
Qed.

(** *** The log *)

Definition logged k k' : Prop := con_ok (k_con k) -> con_ok (k_con k') /\ printed (k_con k) (k_con k').

Lemma lift_logged c k : logged k (lift c k).2.
Proof. unfold lift. by destruct (c (k_ps k)). Qed.

Lemma write_loop_logged fuel i buf len total k : logged k (write_loop fuel i buf len total k).2.
Proof.
  revert total k. induction fuel as [|n IH]; intros total k; cbn [write_loop]; [by destruct (cur_slot i (k_ps k))|].
  destruct (cur_slot i (k_ps k)) as [slot|]; [|done]. case_if; [done|].
  destruct (copy_from_user _ _ _) as [st chunk]. case_if; [done|]. case_if.
  - intros Hok. destruct (putchars_safe (shown <$> chunk) (k_con k) Hok) as [Hok1 Hp1].
    destruct (IH (u64 (total + (if len - total <? IO_CHUNK then len - total else IO_CHUNK)))
      (with_con (printk_write chunk (k_con k)) k) Hok1) as [Hok2 Hp2].
    split; [done|]. etrans; [exact Hp1|exact Hp2].
  - destruct (file_write _ _) as [[w|e] [f v]]; [|done]. case_if; [done|]. apply (IH _ (with_ps _ k)).
Qed.

Lemma dispatch_logged nr a k : logged k (syscall_dispatch g info path_buffer string_buffer nr a k).2.
Proof.
  unfold syscall_dispatch. cbn [find_syscall g_syscalls].
  repeat match goal with |- context [if ?n =? nr then _ else _] => destruct (n =? nr) end;
    first [apply lift_logged|done|idtac].
  - unfold sys_get_time. by case_if.
  - unfold sys_sleep. case_if; [done|]. case_if; [done|]. by destruct (process_sleep_ticks _ _ _).
  - unfold sys_yield. by destruct (schedule _ _) as [[] s].
  - unfold sys_sysinfo. by destruct (copy_to_user _ _ _).
  - unfold sys_write. destruct (cur_handles _); [|done]. destruct (nx_handle_lookup _ _ _) as [i|]; [|done].
    case_if; [done|]. pose proof (write_loop_logged io_fuel i (arg 1 a) (io_len (arg 2 a)) 0 k) as Hl.
    by destruct (write_loop _ _ _ _ _ _).
  - unfold sys_process_exit. by destruct (process_exit_with_code _ _ _).
  - unfold sys_kernel_print. destruct (copy_string_from_user _ _ _) as [st b]. case_if; [done|].
    intros Hok. apply (putchars_safe (shown <$> c_string b) (k_con k) Hok).
Qed.

(** C28: No system call can bring the kernel out of order.  Whatever number and
    arguments a program passes, after the call the processes satisfy their
    invariant and at most one pid was given out; a call of a process other
    than idle never panics; the log wrote nothing outside the frame buffer;
    and a number that is not in the table is answered with [NsyscallFailed]
    and changes nothing. *)
Theorem syscalls_keep_order (nr : Z) (a : list Z) (k : ksys S V F) :
  proc_inv g (k_ps k) -> g_next_pid (k_ps k) + 1 < 2 ^ 32 -> con_ok (k_con k) ->
  let '(r, k') := syscall_dispatch g info path_buffer string_buffer nr a k in
  proc_inv g (k_ps k') /\ g_next_pid (k_ps k) <= g_next_pid (k_ps k') <= g_next_pid (k_ps k) + 1 /\
  (forall p, cur (k_ps k) = Some p -> pid p <> 0 -> no_panic r) /\
  con_ok (k_con k') /\ confined (g_fb (k_con k)) (fb_end (k_con k)) (fb_mem (k_con k)) (fb_mem (k_con k')) /\
  (nr ∉ (@g_syscalls S V F _ _ g info path_buffer string_buffer).*1 -> r = SysRet (err_ret NsyscallFailed) /\ k' = k).
Proof.
  intros Hi Hn Hc. pose proof (dispatch_orderly nr a k Hi Hn) as Ho.
  pose proof (fun p => dispatch_no_panic nr a k p Hi) as Hp. pose proof (dispatch_logged nr a k Hc) as Hl.
  assert (Hu : nr ∉ (@g_syscalls S V F _ _ g info path_buffer string_buffer).*1 ->
    syscall_dispatch g info path_buffer string_buffer nr a k = (SysRet (err_ret NsyscallFailed), k)).
  { intros Hnr. unfold syscall_dispatch. generalize dependent (@g_syscalls S V F _ _ g info path_buffer string_buffer).
    clear. intros t Hnr. induction t as [|[n fn] t IH]; [done|]. cbn [find_syscall]. simpl in Hnr.
    rewrite not_elem_of_cons in Hnr. destruct Hnr as [Hne Hnr]. case_if; [congruence|]. by apply IH. }
  destruct (syscall_dispatch _ _ _ _ _ _ _) as [r k']. cbn [fst snd] in *. destruct Ho as [Ho1 Ho2].
  destruct Hl as (Hl1 & _ & _ & _ & _ & _ & Hl2). do 5 (split; [done|]). intros Hnr. by injection (Hu Hnr) as [= -> ->].
Qed.
End invariant.
