(* ===== verification/SyscallFiles.v ===== *)
(** * Reading files through system calls, specified

    What [sys_read] does to the memory of the program and to its open file:
    the composition of the handle table, the layer of files and the copy to
    user memory. *)

From S2P Require Import Prelude Types Mem FrameAlloc Paging PagingSpec AddrSpace SpaceLife Handles Process ProcessInv ProcessProps FileIO Owned ElfProps Uaccess UaccessProps Syscall SyscallProps.

(** ** Stores through the table of the caller *)

Section files.
Context {S V F : Type} `{FrameAllocatorLaws S} `{FileIO V F}.
Implicit Types (s : psys S V F).

Lemma cur_with_fa fa s : cur (with_fa fa s) = cur s.
Proof. done. Qed.

Lemma set_file_fa i f fa s : set_file i f (with_fa fa s) = with_fa fa (set_file i f s).
Proof. unfold set_file. change (cur_handles (with_fa fa s)) with (cur_handles s). destruct (cur_handles s); [|done].
  unfold set_cur_handles. cbn [current_process with_fa]. by destruct (current_process s). Qed.

Lemma set_file_vfs i f v s : set_file i f (with_vfs v s) = with_vfs v (set_file i f s).
Proof. unfold set_file. change (cur_handles (with_vfs v s)) with (cur_handles s). destruct (cur_handles s); [|done].
  unfold set_cur_handles. cbn [current_process with_vfs]. by destruct (current_process s). Qed.

(** The slot with another open file. *)
Definition put_file (f : F) (slot : nx_handle_t F) : nx_handle_t F :=
  mk_handle (h_type slot) (h_rights slot) (h_generation slot) (console_fd slot) f.

(** The caller after a store of its file [i]. *)
Definition put_handles i f (p : process_t F) : process_t F := set_handles (alter (put_file f) i (handles p)) p.

Lemma set_file_upd i f s c p : current_process s = Some c -> g_procs s !! c = Some p ->
  set_file i f s = upd c (put_handles i f) s.
Proof.
  intros Hc Hp. unfold set_file, cur_handles, cur. rewrite Hc. cbn [mbind option_bind]. rewrite Hp.
  cbn [fmap option_fmap option_map]. unfold set_cur_handles. rewrite Hc. unfold upd, with_procs. f_equal.
  apply alter_ext_at. intros q Hq. assert (q = p) as -> by congruence. done.
Qed.

Lemma cur_set_file i f s p : cur s = Some p -> cur (set_file i f s) = Some (put_handles i f p).
Proof.
  unfold cur. intros Hc. destruct (current_process s) as [c|] eqn:Ec; [|done]. cbn [mbind option_bind] in Hc.
  rewrite (set_file_upd i f s c p Ec Hc). cbn [current_process upd with_procs g_procs]. rewrite Ec.
  cbn [mbind option_bind]. by rewrite list_lookup_alter_eq, Hc.
Qed.

Lemma set_file_twice i f f' s p : cur s = Some p -> set_file i f (set_file i f' s) = set_file i f s.
Proof.
  intros Hp. pose proof Hp as Hc. unfold cur in Hc. destruct (current_process s) as [c|] eqn:Ec; [|done].
  cbn [mbind option_bind] in Hc. pose proof (cur_set_file i f' s p Hp) as Hc'. unfold cur in Hc'.
  rewrite (set_file_upd i f' s c p Ec Hc) in *. cbn [current_process upd with_procs] in Hc'. rewrite Ec in Hc'.
  cbn [mbind option_bind] in Hc'. rewrite (set_file_upd i f (upd c _ s) c _ Ec Hc').
  rewrite (set_file_upd i f s c p Ec Hc). unfold upd, with_procs. cbn. f_equal.
  apply list_eq. intros j. rewrite !lookup_alter_cases. case_decide; [|done]. subst j.
  rewrite Hc. cbn [fmap option_fmap option_map]. f_equal. unfold put_handles. cbn.
  assert (Hl : alter (put_file f) i (alter (put_file f') i (handles p)) = alter (put_file f) i (handles p)).
  { apply list_eq. intros k. rewrite !lookup_alter_cases. case_decide; [|done]. by destruct (handles p !! k). }
  by rewrite Hl.
Qed.

Lemma cur_slot_set_file i f s p slot : cur s = Some p -> handles p !! i = Some slot ->
  cur_slot i (set_file i f s) = Some (put_file f slot).
Proof.
  intros Hp Hs. unfold cur_slot, cur_handles. rewrite (cur_set_file i f s p Hp). cbn.
  by rewrite list_lookup_alter_eq, Hs.
Qed.

Lemma set_file_same i s p slot : cur s = Some p -> handles p !! i = Some slot ->
  set_file i (h_file slot) s = s.
Proof.
  intros Hp Hs. pose proof Hp as Hc. unfold cur in Hc. destruct (current_process s) as [c|] eqn:Ec; [|done].
  cbn [mbind option_bind] in Hc. rewrite (set_file_upd i _ s c p Ec Hc). unfold upd.
  assert (Hl : alter (put_handles i (h_file slot)) c (g_procs s) = g_procs s).
  { apply list_eq. intros j. rewrite lookup_alter_cases. case_decide; [|done]. subst j. rewrite Hc.
    cbn [fmap option_fmap option_map]. f_equal. unfold put_handles, set_handles.
    assert (Hh : alter (put_file (h_file slot)) i (handles p) = handles p).
    { apply list_eq. intros j. rewrite lookup_alter_cases. case_decide; [|done]. subst j. rewrite Hs.
      cbn. f_equal. by destruct slot. }
    rewrite Hh. by destruct p. }
  rewrite Hl. by destruct s.
Qed.
End files.

(** ** [sys_read] *)

Section reading.
Context {S V F : Type} `{FrameAllocatorLaws S} `{FileIOLaws V F}.
Context (root : Z) (pool : list Z) (Hnd : NoDup pool) (Hok : Forall frame_ok pool).
Context (s0 : psys S V F) (p : process_t F) (G : space) (l h : list Z).
Context (Hown : Owned.own root pool h (ps_fa s0) G l) (Hcur : cur s0 = Some p)
  (Has : addrspace p = mk_as (phys_to_virt root)).
Context (i : nat) (slot : nx_handle_t F) (Hslot : handles p !! i = Some slot).
Context (d : list Z) (off buf len : Z) (Hoff : 0 <= off < 2 ^ 63) (Hbuf : word buf) (Hlen : 0 <= len <= NX_IO_MAX).
Local Abbreviation own := (Owned.own root pool).
Local Abbreviation T := (phys_to_virt root).
Local Abbreviation user_range := (user_range G).

(** The system during a read: only memory, files and the slot differ. *)
Definition at_ (fa : S) (v : V) (f : F) : psys S V F := set_file i f (with_vfs v (with_fa fa s0)).

Lemma at_cur fa v f : cur (at_ fa v f) = Some (put_handles i f p).
Proof. unfold at_. by apply cur_set_file. Qed.

Lemma at_fa fa v f : ps_fa (at_ fa v f) = fa.
Proof. unfold at_. by rewrite set_file_vfs, set_file_fa. Qed.

Lemma at_vfs fa v f : ps_vfs (at_ fa v f) = v.
Proof. unfold at_. by rewrite set_file_vfs. Qed.

Lemma at_slot fa v f : cur_slot i (at_ fa v f) = Some (put_file f slot).
Proof. unfold at_. by apply (cur_slot_set_file i f _ p slot). Qed.

Lemma at_file fa v f v' f' : set_file i f' (with_vfs v' (at_ fa v f)) = at_ fa v' f'.
Proof. unfold at_. rewrite <- set_file_vfs. by rewrite (set_file_twice i f' f _ p). Qed.

Lemma at_file_only fa v f f' : set_file i f' (at_ fa v f) = at_ fa v f'.
Proof.
  rewrite <- (at_file fa v f v f'). f_equal. transitivity (with_vfs (ps_vfs (at_ fa v f)) (at_ fa v f)).
  - by destruct (at_ fa v f).
  - by rewrite at_vfs.
Qed.

Lemma at_with_fa fa v f fa' : with_fa fa' (at_ fa v f) = at_ fa' v f.
Proof. unfold at_. by rewrite <- set_file_fa. Qed.

(** User memory of the caller once [t] bytes of the file are stored. *)
Definition received (t : Z) (fa : S) : Prop := own h fa G l /\
  forall c, 0 <= c < USER_SPACE_END -> user_ld T fa c =
    if (buf <=? c) && (c <? buf + t) then (fun b => b mod 256) <$> d !! Z.to_nat (off + (c - buf))
    else user_ld T (ps_fa s0) c.

(** A read of [t] bytes that ended with the value [r]. *)
Definition read_done (t r : Z) (s : psys S V F) : Prop := exists fa v f,
  s = at_ fa v f /\ file_data v f d /\ file_offset f = off + t /\ received t fa /\
  (t = 0 \/ buf + t <= USER_SPACE_END) /\
  (r = t \/ t = 0 /\ exists e, is_err e = true /\ r = err_ret e) /\
  (file_reliable -> user_range buf len true -> r = t /\ t = len `min` (Z.of_nat (length d) - off) `max` 0).

Lemma small_word z : 0 <= z <= USER_SPACE_END -> word z.
Proof. unfold word. assert (USER_SPACE_END < 2 ^ 64) by by vm_compute. lia. Qed.

(** One chunk arrives in user memory. *)
Lemma received_chunk t chunk fa v f : received t fa -> 0 <= t ->
  (t = 0 \/ buf + t <= USER_SPACE_END) -> Z.of_nat (length chunk) <= NX_IO_MAX -> chunk <> [] ->
  (forall j, (j < length chunk)%nat -> chunk !! j = d !! Z.to_nat (off + t + Z.of_nat j)) ->
  let n := Z.of_nat (length chunk) in
  (exists fa', copy_to_user (u64 (buf + t)) chunk (at_ fa v f) = (Nok, at_ fa' v f) /\
    received (t + n) fa' /\ buf + t + n <= USER_SPACE_END) \/
  copy_to_user (u64 (buf + t)) chunk (at_ fa v f) = (NinvalidPointer, at_ fa v f) /\
    ~ user_range (buf + t) n true.
Proof.
  intros [Ho Hr] Ht Hb Hn Hne Hc n. assert (Hw : word (buf + t)).
  { destruct Hb as [->|Hb]; [by rewrite Z.add_0_r|]. apply small_word. unfold word in Hbuf. lia. }
  assert (Hpos : 0 < n) by (unfold n; destruct chunk; simpl; [done|lia]).
  rewrite (uw_small 64) by exact Hw.
  assert (Hwn : word n) by (unfold word, n in *; unfold NX_IO_MAX in Hn; lia).
  assert (Ho' : own h (ps_fa (at_ fa v f)) G l) by by rewrite at_fa.
  destruct (copy_to_user_run root pool Hnd Hok (at_ fa v f) (put_handles i f p) G l h Ho' (at_cur fa v f) Has
    (buf + t) chunk Hw Hwn) as [(fa' & E & Ho1 & [Hz|Hu] & Hld)|(E & _ & Hu)]; [lia| |right; done].
  left. exists fa'. rewrite at_with_fa in E. destruct Hu as [Hu _]. split; [done|]. split; [|done].
  split; [done|]. intros c Hcr. rewrite (Hld c Hcr), at_fa. case_if.
  - case_if; [|lia]. rewrite Hc by lia. do 2 f_equal. lia.
  - rewrite (Hr c Hcr). repeat case_if; try lia; done.
Qed.

Local Abbreviation size := (Z.of_nat (length d)).

(** Where a transfer may stand. *)
Definition reading (t : Z) (fa : S) (v : V) (f : F) : Prop :=
  received t fa /\ file_data v f d /\ file_offset f = off + t /\ 0 <= t <= len /\
  (t = 0 \/ buf + t <= USER_SPACE_END) /\ (t = 0 \/ off + t <= size).

Definition read_total : Z := len `min` (size - off) `max` 0.

Lemma reading_small t fa v f : reading t fa v f -> i64 t = t /\ u64 t = t /\ 0 <= off + t < 2 ^ 64.
Proof.
  intros (_ & _ & _ & Ht & _). assert (NX_IO_MAX < 2 ^ 62) by by vm_compute.
  split; [apply sw_small; lia|]. split; [apply uw_small; lia|lia].
Qed.

Lemma reading_stop t fa v f r : reading t fa v f ->
  (r = t \/ t = 0 /\ exists e, is_err e = true /\ r = err_ret e) ->
  (file_reliable -> user_range buf len true -> r = t /\ t = read_total) ->
  0 <= t <= read_total /\ read_done t r (at_ fa v f).
Proof.
  intros (Hr & Hd & Ho & Ht & Hb & Hs) Hx Hy. unfold read_total. split; [lia|]. by exists fa, v, f.
Qed.

Lemma reading_fails t fa v f e : reading t fa v f -> is_err e = true -> ~ (file_reliable /\ user_range buf len true) ->
  0 <= t <= read_total /\ read_done t (stopped t e) (at_ fa v f).
Proof.
  intros Hr He Hn. apply reading_stop; [done| |tauto]. unfold stopped. case_if.
  - right. split; [done|]. by exists e.
  - left. by apply (reading_small t fa v f).
Qed.

(** The chunk a read yields lies in the file. *)
Lemma chunk_of want t (chunk : list Z) : 0 <= off + t -> chunk = take (Z.to_nat want) (drop (Z.to_nat (off + t)) d) ->
  Z.of_nat (length chunk) = want `min` (size - (off + t)) `max` 0 /\
  forall j, (j < length chunk)%nat -> chunk !! j = d !! Z.to_nat (off + t + Z.of_nat j).
Proof.
  intros Hz ->. split; [rewrite length_take, length_drop; lia|]. intros j Hj. rewrite length_take, length_drop in Hj.
  rewrite lookup_take_lt by lia. rewrite lookup_drop. f_equal. lia.
Qed.

Lemma read_loop_run fuel : forall t fa v f, reading t fa v f -> len - t <= Z.of_nat fuel * IO_CHUNK ->
  let '(r, s) := read_loop fuel i buf len t (at_ fa v f) in
  exists t', 0 <= t' <= read_total /\ read_done t' r s.
Proof.
  induction fuel as [|fuel IH]; intros t fa v f Hrd Hf; pose proof (reading_small _ _ _ _ Hrd) as (Hi & Hu & Hw);
    pose proof Hrd as (Hr & Hd & Ho & Ht & Hb & Hs).
  { simpl. exists t. apply reading_stop; [done|by left|]. intros _ _. unfold read_total. lia. }
  cbn [read_loop]. rewrite at_slot, at_vfs. cbn [h_file put_file]. case_if.
  { rewrite Hi. exists t. apply reading_stop; [done|by left|]. intros _ _. unfold read_total. lia. }
  set (want := if _ <? _ then _ else _). assert (Hwant : want = (len - t) `min` IO_CHUNK) by (unfold want; case_if; lia).
  clearbody want. destruct (file_data_read v f d want Hd) as (st & chunk & f' & v' & E1 & Hd' & Hle & Ho' & Hex & Hrel);
    [lia|unfold IO_CHUNK in *; lia|]. rewrite E1, at_file. case_if.
  { exists t. apply (reading_fails _ _ _ _ st); [|done|intros [Hx _]; pose proof (Hrel Hx); congruence].
    split_and!; try done; lia. }
  destruct (Hex eq_refl) as [-> Hch]. rewrite Ho in Hch. destruct (chunk_of want t chunk ltac:(lia) Hch) as [Hn Hj].
  assert (Hmax : IO_CHUNK = 512) by done. assert (Hmax' : NX_IO_MAX = 0x100000) by done.
  case_if.
  { rewrite Hi. exists t. apply reading_stop; [split_and!; try done; lia|by left|].
    intros _ _. unfold read_total. lia. }
  destruct (received_chunk t chunk fa v' f' Hr) as [(fa' & E3 & Hr' & Hb')|(E3 & Hnu)];
    [lia|done|lia|by intros ->|done| |]; rewrite E3;
    [change (is_err Nok) with false|change (is_err NinvalidPointer) with true]; cbv iota.
  - assert (Hrd' : reading (t + Z.of_nat (length chunk)) fa' v' f') by (split_and!; try done; lia).
    destruct (reading_small _ _ _ _ Hrd') as (Hi' & Hu' & _). rewrite Hu'. case_if; [|apply IH; [done|lia]].
    rewrite Hi'. eexists. apply reading_stop; [done|by left|]. intros _ _. unfold read_total. lia.
  - rewrite at_file_only.
    exists t. apply reading_fails; [|done|].
    + split_and!; try done; [by apply file_data_offset|rewrite file_offset_set|lia..].
      rewrite uw_small; [lia|]. simpl in Ho'. lia.
    + intros [_ [Hx Hy]]. apply Hnu. split; [lia|]. intros b Hbb. apply Hy. lia.
Qed.

(** C29: A read through a valid handle of an open file holding the bytes [d]
    transfers [t] bytes, no more than asked for, than [NX_IO_MAX] and than the
    file has left.  The program then sees those bytes of the file at its
    buffer and everything else in its memory as before, its mappings and the
    frames are untouched, and the position of the file is past exactly the
    bytes transferred.  The value is [t], or an error when nothing was
    transferred; when the buffer is writable and the files do not fail, all
    that can be read is. *)
Theorem sys_read_spec (a : list Z) (k : ksys S V F) :
  k_ps k = s0 -> arg 1 a = buf -> io_len (arg 2 a) = len ->
  nx_handle_lookup (handles p) (arg 0 a) NX_RIGHT_READ = Ok i -> h_type slot = NX_HANDLE_FILE ->
  file_data (ps_vfs s0) (h_file slot) d -> file_offset (h_file slot) = off ->
  let '(r, k') := sys_read a k in
  exists t v, r = SysRet v /\ k_con k' = k_con k /\ g_timer_hz k' = g_timer_hz k /\
    0 <= t <= read_total /\ read_done t v (k_ps k').
Proof.
  intros Hk Ha Hl Hh Ht Hd Ho. assert (Hs0 : s0 = at_ (ps_fa s0) (ps_vfs s0) (h_file slot)).
  { unfold at_. transitivity (set_file i (h_file slot) s0); [by rewrite (set_file_same i s0 p slot)|].
    f_equal. by destruct s0. }
  assert (Hr : reading 0 (ps_fa s0) (ps_vfs s0) (h_file slot)).
  { split_and!; try done; [|lia|lia|by left|by left]. split; [done|]. intros c _. case_if; [lia|done]. }
  unfold sys_read, lift. rewrite Hk. unfold cur_handles at 1. rewrite Hcur. cbn [fmap option_fmap option_map].
  rewrite Hh, Hslot, Ht, Ha, Hl. case_if.
  - exists 0, 0. split_and!; try done; [unfold read_total; lia|]. change (k_ps (with_ps s0 k)) with s0. replace s0 with (at_ (ps_fa s0) (ps_vfs s0) (h_file slot)) by done.
    apply (reading_stop 0); [done|by left|]. intros _ _. unfold io_len in Hl. unfold read_total.
    rewrite E in Hl. simpl in Hl. lia.
  - change (negb (NX_HANDLE_FILE =? NX_HANDLE_FILE)) with false. cbv iota.
    pose proof (read_loop_run io_fuel 0 (ps_fa s0) (ps_vfs s0) (h_file slot) Hr) as Hrun. rewrite <- Hs0 in Hrun.
    destruct (read_loop _ _ _ _ _ _) as [r s]. destruct Hrun as (t & H1' & H2').
    + rewrite Z.sub_0_r. transitivity NX_IO_MAX; [lia|by vm_compute].
    + exists t, r. split_and!; try done; lia.
Qed.
End reading.
