(* ===== verification/Interrupt.v ===== *)
(** * Interrupts and exceptions: [kernel/interrupt/interrupt.c]

    The dispatcher every vector reaches, with the diagnostics and the panic.
    A handler is the address of its function; what a registered one does is
    the argument [call].  The entry stubs, which build the frame and return
    through it, are assembly and not modelled. *)

From Stdlib Require Import String Ascii.
From stdpp Require Import list.
From S2P Require Import Prelude Types Mem BootInfo FrameAlloc Paging Handles Process FileIO Printk Timer Pic Gdt Uaccess Syscall.

(** The bytes of a string literal; [nl] is the newline. *)
Fixpoint text (s : string) : list Z :=
  match s with
  | EmptyString => []
  | String a s => Z.of_N (N_of_ascii a) :: text s
  end.
Definition nl : list Z := [10].

(** [trap_frame]: include/interrupt.h:120-130 *)
Record trap_frame := mk_frame {
  r15 : Z; r14 : Z; r13 : Z; r12 : Z; r11 : Z; r10 : Z; r9 : Z; r8 : Z;
  rbp : Z; rdi : Z; rsi : Z; rdx : Z; rcx : Z; rbx : Z; rax : Z;
  vector : Z;
  error_code : Z;
  rip : Z;
  cs : Z;
  rflags : Z;
  rsp : Z;
  ss : Z;
}.

Definition set_rax (v : Z) (f : trap_frame) : trap_frame :=
  mk_frame (r15 f) (r14 f) (r13 f) (r12 f) (r11 f) (r10 f) (r9 f) (r8 f) (rbp f) (rdi f) (rsi f) (rdx f) (rcx f)
    (rbx f) v (vector f) (error_code f) (rip f) (cs f) (rflags f) (rsp f) (ss f).
Definition set_rip (v : Z) (f : trap_frame) : trap_frame :=
  mk_frame (r15 f) (r14 f) (r13 f) (r12 f) (r11 f) (r10 f) (r9 f) (r8 f) (rbp f) (rdi f) (rsi f) (rdx f) (rcx f)
    (rbx f) (rax f) (vector f) (error_code f) v (cs f) (rflags f) (rsp f) (ss f).

(** [exception_name]: nxkernel/kernel/interrupt/interrupt.c:120-143 *)
Definition exception_name (vector : Z) : list Z :=
  if vector =? 0 then text "#DE Divide Error"
  else if vector =? 1 then text "#DB Debug"
  else if vector =? VEC_NMI then text "NMI"
  else if vector =? 3 then text "#BP Breakpoint"
  else if vector =? 4 then text "#OF Overflow"
  else if vector =? 5 then text "#BR Bound Range Exceeded"
  else if vector =? 6 then text "#UD Invalid Opcode"
  else if vector =? 7 then text "#NM Device Not Available"
  else if vector =? VEC_DOUBLE_FAULT then text "#DF Double Fault"
  else if vector =? 10 then text "#TS Invalid TSS"
  else if vector =? 11 then text "#NP Segment Not Present"
  else if vector =? 12 then text "#SS Stack-Segment Fault"
  else if vector =? 13 then text "#GP General Protection"
  else if vector =? VEC_PAGE_FAULT then text "#PF Page Fault"
  else if vector =? 16 then text "#MF x87 Floating-Point"
  else if vector =? 17 then text "#AC Alignment Check"
  else if vector =? VEC_MACHINE_CHECK then text "#MC Machine Check"
  else if vector =? 19 then text "#XM SIMD Floating-Point"
  else text "Reserved/Unknown exception".

(** A call of [printk] whose result is not looked at.  [printk] is undefined
    when the arguments do not fit the format; [messages_fit] shows that the
    calls below are not. *)
Definition say (format : list Z) (args : list varg) (c : console) : console :=
  match printk (Some format) args c with Some (_, c) => c | None => c end.

Definition num (f : trap_frame -> Z) (fr : trap_frame) : varg := ANum (f fr).

(** The lines of [dump_frame], each with its arguments. *)
(** [dump_lines]: nxkernel/kernel/interrupt/interrupt.c:147-173 *)
Definition dump_lines (cr2 cr3 : Z) (f : trap_frame) : list (list Z * list varg) :=
  [((text "vector=%lu (%s) error=0x%lx" ++ nl)%list, [ANum (vector f); AStr (Some (exception_name (vector f))); ANum (error_code f)]);
   ((text "RIP=%p CS=0x%lx RFLAGS=0x%lx" ++ nl)%list, [ANum (rip f); ANum (cs f); ANum (rflags f)]);
   ((text "RSP=%p SS=0x%lx CR2=%p CR3=%p" ++ nl)%list, [ANum (rsp f); ANum (ss f); ANum cr2; ANum cr3]);
   ((text "RAX=%016lx RBX=%016lx RCX=%016lx" ++ nl)%list, [ANum (rax f); ANum (rbx f); ANum (rcx f)]);
   ((text "RDX=%016lx RSI=%016lx RDI=%016lx" ++ nl)%list, [ANum (rdx f); ANum (rsi f); ANum (rdi f)]);
   ((text "RBP=%016lx R8 =%016lx R9 =%016lx" ++ nl)%list, [ANum (rbp f); ANum (r8 f); ANum (r9 f)]);
   ((text "R10=%016lx R11=%016lx R12=%016lx" ++ nl)%list, [ANum (r10 f); ANum (r11 f); ANum (r12 f)]);
   ((text "R13=%016lx R14=%016lx R15=%016lx" ++ nl)%list, [ANum (r13 f); ANum (r14 f); ANum (r15 f)])] ++
  (if vector f =? VEC_PAGE_FAULT then
     [((text "#PF: %s, %s, %s%s" ++ nl)%list,
       [AStr (Some (if tst (error_code f) 1 then text "protection violation" else text "page not present"));
        AStr (Some (if tst (error_code f) 2 then text "write" else text "read"));
        AStr (Some (if tst (error_code f) 4 then text "user-mode" else text "supervisor-mode"));
        AStr (Some (if tst (error_code f) 16 then text ", instruction fetch" else []))])]
   else []).

Definition say_all (lines : list (list Z * list varg)) (c : console) : console :=
  fold_left (fun c '(format, args) => say format args c) lines c.

(** [dump_frame]: nxkernel/kernel/interrupt/interrupt.c:145-174 *)
Definition dump_frame (cr2 cr3 : Z) (f : trap_frame) (c : console) : console := say_all (dump_lines cr2 cr3 f) c.

(** What [kernel_panic_simple] prints before it halts. *)
(** [panic_lines]: nxkernel/kernel/error_handling/panic.c:19-25 *)
Definition panic_lines (message : option (list Z)) (error : Nerror) : list (list Z * list varg) :=
  [(nl, []);
   ((text "=========================================" ++ nl)%list, []);
   ((text "             KERNEL PANIC!" ++ nl)%list, []);
   ((text "=========================================" ++ nl)%list, []);
   ((text "%s" ++ nl)%list, [AStr (Some (match message with Some m => m | None => text "(no message)" end))]);
   ((text "status: %r" ++ nl)%list, [ANum (status error)]);
   ((text "System halted." ++ nl)%list, [])].

(** It does not return. *)
(** [kernel_panic_simple]: nxkernel/kernel/error_handling/panic.c:16-32 *)
Definition kernel_panic_simple (message : option (list Z)) (error : Nerror) (c : console) : outcome * console :=
  (Panicked error, say_all (panic_lines message error) c).

(** The kernel with the interrupt controller and the registered handlers. *)
Record isys (S V F : Type) := mk_isys { i_k : ksys S V F; i_pic : pic_st; g_handlers : list Z }.
#[global] Arguments mk_isys {S V F}.
#[global] Arguments i_k {S V F}.
#[global] Arguments i_pic {S V F}.
#[global] Arguments g_handlers {S V F}.

Section interrupt.
Context {S V F : Type} `{FrameAllocator S} `{FileIO V F}.
Context (g : proc_globals) (info : option NTBLI) (path_buffer string_buffer : list Z).
(** The hardware behind the ports, and the two labels of [nx_uaccess_copy]. *)
Context (dev : list port_event -> Z -> Z) (insn fault : Z).
(** What the function at an address does. *)
Context (call : Z -> trap_frame * ksys S V F -> trap_frame * ksys S V F).
Implicit Types (st : isys S V F) (f : trap_frame).

Definition with_k k st : isys S V F := mk_isys k (i_pic st) (g_handlers st).
Definition with_pic p st : isys S V F := mk_isys (i_k st) p (g_handlers st).
Definition log (format : list Z) (args : list varg) st : isys S V F :=
  with_k (with_con (say format args (k_con (i_k st))) (i_k st)) st.

(** [interrupt_register_handler]: nxkernel/kernel/interrupt/interrupt.c:98-105 *)
Definition interrupt_register_handler (vector handler : Z) st : Nerror * isys S V F :=
  if VEC_COUNT <=? vector then (NinvalidArg, st)
  else (Nok, mk_isys (i_k st) (i_pic st) (<[Z.to_nat vector := handler]> (g_handlers st))).

(** [irq_register_handler]: nxkernel/kernel/interrupt/interrupt.c:107-114 *)
Definition irq_register_handler (irq handler : Z) st : Nerror * isys S V F :=
  if VEC_IRQ_COUNT <=? irq then (NinvalidArg, st)
  else (Nok, mk_isys (i_k st) (i_pic st) (<[Z.to_nat (VEC_IRQ_BASE + irq) := handler]> (g_handlers st))).

(** The panic, from here. *)
Definition panic (message : list Z) (error : Nerror) st : outcome * isys S V F :=
  let '(o, c) := kernel_panic_simple (Some message) error (k_con (i_k st)) in (o, with_k (with_con c (i_k st)) st).

(** A call of a registered handler. *)
Definition call_handler (handler : Z) f st : trap_frame * isys S V F :=
  let '(f, k) := call handler (f, i_k st) in (f, with_k k st).

(** [cr2] is the address of the last page fault. *)
(** [exception_default]: nxkernel/kernel/interrupt/interrupt.c:177-194 *)
Definition exception_default (cr2 : Z) f st : outcome * (trap_frame * isys S V F) :=
  match if vector f =? VEC_PAGE_FAULT then uaccess_fixup insn fault cr2 (mk_fault (cs f) (rip f)) else None with
  | Some r => (Returned Nok, (set_rip (ff_rip r) f, st))
  | None =>
      let dump st := with_k (with_con (dump_frame cr2 (cr3 (k_ps (i_k st))) f (k_con (i_k st))) (i_k st)) st in
      let fatal st :=
        let st := dump (log (nl ++ text "*** KERNEL EXCEPTION ***" ++ nl) [] st) in
        let '(o, st) := panic (text "Unhandled CPU exception in kernel mode") NkernelFault st in (o, (f, st)) in
      if Z.land (cs f) 3 =? 3 then
        let st := dump (log (nl ++ text "User-mode fault, terminating process:" ++ nl) [] st) in
        match process_exit_with_code g (-1) (k_ps (i_k st)) with
        | (Returned _, s) => fatal (with_k (with_ps s (i_k st)) st)
        | (o, s) => (o, (f, with_k (with_ps s (i_k st)) st))
        end
      else fatal st
  end.

(** On the registers of the frame. *)
(** [syscall_handle]: nxkernel/kernel/syscall/syscall.c:550-564 *)
Definition handle_syscall f st : outcome * (trap_frame * isys S V F) :=
  match syscall_dispatch g info path_buffer string_buffer (rax f) [rdi f; rsi f; rdx f; r10 f; r8 f; r9 f] (i_k st) with
  | (SysRet r, k) => (Returned Nok, (set_rax (u64 r) f, with_k k st))
  | (SysAway, k) => (Away, (f, with_k k st))
  | (SysPanic e, k) => (Panicked e, (f, with_k k st))
  end.

(** The handler registered for a vector, 0 for none. *)
Definition handler_of (v : Z) st : Z := default 0 (g_handlers st !! Z.to_nat v).

(** [Returned]: the interrupted code goes on with the frame. *)
(** [interrupt_dispatch]: nxkernel/kernel/interrupt/interrupt.c:200-248 *)
Definition interrupt_dispatch (cr2 : Z) f st : outcome * (trap_frame * isys S V F) :=
  let v := vector f in
  if VEC_COUNT <=? v then
    let '(o, st) := panic (text "Corrupted trap frame (bad vector)") NkernelFault st in (o, (f, st))
  else if (VEC_IRQ_BASE <=? v) && (v <? VEC_IRQ_BASE + VEC_IRQ_COUNT) then
    let irq := u8 (v - VEC_IRQ_BASE) in
    let '(spurious, p) := pic_is_spurious dev irq (i_pic st) in
    let st := with_pic p st in
    if spurious then
      (Returned Nok, (f, if irq =? 15 then with_pic (pic_send_eoi 2 (i_pic st)) st else st))
    else
      let '(f, st) := if negb (handler_of v st =? 0) then call_handler (handler_of v st) f st else (f, st) in
      (Returned Nok, (f, with_pic (pic_send_eoi irq (i_pic st)) st))
  else if v =? VEC_SYSCALL then handle_syscall f st
  else if negb (handler_of v st =? 0) then
    let '(f, st) := call_handler (handler_of v st) f st in (Returned Nok, (f, st))
  else if v <? 32 then exception_default cr2 f st
  else (Returned Nok, (f, log (text "Ignoring unexpected interrupt vector %lu" ++ nl) [ANum v] st)).
End interrupt.

Section timer.
Context {S V F : Type}.
Context (dev : list port_event -> Z -> Z).
Implicit Types st : isys S V F.

Definition with_tick (t : Z) (s : psys S V F) : psys S V F :=
  mk_psys (g_procs s) (process_list s) (current_process s) (g_next_pid s) (g_last_exit_code s) (cr3 s) (tss_rsp0 s)
    (cpu_rsp s) t (ps_fa s) (ps_vfs s).

(** The handler as [call] runs it: the counter moves, the frame stays. *)
Definition run_timer_handler (fk : trap_frame * ksys S V F) : trap_frame * ksys S V F :=
  let '(f, k) := fk in
  (f, mk_ksys (with_tick (timer_interrupt_handler (timer_tick (k_ps k))) (k_ps k)) (k_con k) (g_timer_hz k)).

(** [PIT_IRQ]: nxkernel/kernel/timer/pit/pit_base.c:25-25 *)
Definition PIT_IRQ : Z := 0.

(** [handler] is the address of [timer_interrupt_handler]. *)
(** [timer_init]: nxkernel/kernel/timer/pit/pit_base.c:46-65 *)
Definition timer_init (frequency_hz handler : Z) st : Nerror * isys S V F :=
  if (frequency_hz <? 19) || (PIT_BASE_FREQ <? frequency_hz) then (NinvalidArg, st)
  else
    let k := mk_ksys (with_tick 0 (k_ps (i_k st))) (k_con (i_k st)) frequency_hz in
    let '(status, st) := irq_register_handler PIT_IRQ handler (mk_isys k (i_pic st) (g_handlers st)) in
    if is_err status then (status, st)
    else
      let p := fold_left (fun p '(port, v) => outb port v p) (pit_set_frequency frequency_hz) (i_pic st) in
      (Nok, mk_isys (i_k st) (pic_clear_mask dev PIT_IRQ p) (g_handlers st)).

(** [timer_get_tick]: nxkernel/kernel/timer/pit/pit_base.c:67-70 *)
Definition timer_get_tick (k : ksys S V F) : Z := timer_tick (k_ps k).

(** [timer_get_hz]: nxkernel/kernel/timer/pit/pit_base.c:72-75 *)
Definition timer_get_hz (k : ksys S V F) : Z := g_timer_hz k.

(** The ticks [sleep_ms] waits for, [None] when it returns at once: [rflags]
    are the processor's flags; the wait itself is the interrupts'. *)
(** [sleep_ms, the ticks]: nxkernel/kernel/timer/pit/pit_base.c:92-103 *)
Definition sleep_ms_ticks (ms rflags : Z) (k : ksys S V F) : option Z :=
  if (g_timer_hz k =? 0) || negb (tst rflags 0x200) then None
  else
    let ms := if 31536000000 <? ms then 31536000000 else ms in
    Some (u64 (u64 (ms * g_timer_hz k) + 999) / 1000).
End timer.
