(* ===== verification/InterruptProps.v ===== *)
(** * Interrupts and exceptions, specified

    A program cannot bring the kernel down by any interrupt, the processes and
    the log stay in order, and the interrupt controllers get the
    acknowledgements they wait for. *)

From Stdlib Require Import String.
From stdpp Require Import list.
From S2P Require Import Prelude Types Mem Memory BootInfo FrameAlloc Paging Handles Process ProcessInv ProcessProps FileIO Printk PrintkProps Timer Pic Gdt Uaccess Syscall SyscallProps Interrupt.

#[global] Instance port_event_eq_dec : EqDecision port_event.
Proof. solve_decision. Defined.

(** ** The messages *)

Definition fits (line : list Z * list varg) : Prop := forall c, exists c', printk (Some line.1) line.2 c = Some (Nok, c').

(** Every call of [printk] passes what its format asks for. *)
Lemma messages_fit cr2 cr3 f message error :
  Forall fits (dump_lines cr2 cr3 f ++ panic_lines message error) /\
  fits (nl ++ text "*** KERNEL EXCEPTION ***" ++ nl, [])%list /\
  fits (nl ++ text "User-mode fault, terminating process:" ++ nl, [])%list /\
  fits (text "Ignoring unexpected interrupt vector %lu" ++ nl, [ANum (vector f)])%list.
Proof.
  split; [|split_and!; intros c; eexists; reflexivity].
  apply Forall_app. split; [unfold dump_lines; apply Forall_app; split|]; [|case_if|].
  all: repeat (apply Forall_cons; split); try apply Forall_nil_2; intros c; eexists; reflexivity.
Qed.

Lemma say_safe format args : safe (say format args).
Proof.
  intros c Hok. unfold say, printk, printk_vformat. destruct (vformat_loop _ _ _ _) eqn:E; [|by split].
  cbn. by eapply vformat_safe.
Qed.

Lemma say_all_safe lines : safe (say_all lines).
Proof.
  induction lines as [|[format args] lines IH]; [apply safe_id|].
  change (safe (fun c => say_all lines (say format args c))). apply safe_comp; [apply say_safe|done].
Qed.

Lemma dump_safe cr2 r f : safe (dump_frame cr2 r f).
Proof. apply say_all_safe. Qed.

(** ** Dispatching *)

#[local] Opaque say say_all text dump_frame.

Section dispatch.
Context {S V F : Type} `{FrameAllocator S} `{FileIO V F}.
Context (g : proc_globals) (info : option NTBLI) (path_buffer string_buffer : list Z).
Context (dev : list port_event -> Z -> Z) (insn fault : Z).
Context (call : Z -> trap_frame * ksys S V F -> trap_frame * ksys S V F).
Implicit Types (st : isys S V F) (f : trap_frame) (k : ksys S V F).
Local Abbreviation dispatch := (interrupt_dispatch g info path_buffer string_buffer dev insn fault call).
Local Abbreviation exception := (exception_default g insn fault).

(** What a registered handler may do: keep the processes and the log in
    order, and start none. *)
Definition handler_ok (h : Z -> trap_frame * ksys S V F -> trap_frame * ksys S V F) : Prop := forall a f k,
  let k' := (h a (f, k)).2 in
  (proc_inv g (k_ps k) -> proc_inv g (k_ps k') /\ g_next_pid (k_ps k') = g_next_pid (k_ps k)) /\ logged k k'.

Context (Hcall : handler_ok call).

(** In order, and the log where it was. *)
Definition in_order st st' : Prop := orderly g (k_ps (i_k st)) (k_ps (i_k st')) /\ logged (i_k st) (i_k st').

Lemma in_order_refl st : in_order st st.
Proof. split; [|done]. intros Hi _. split; [done|lia]. Qed.

Lemma log_steps st c' : safe (fun _ => c') \/ (con_ok (k_con (i_k st)) -> con_ok c' /\ printed (k_con (i_k st)) c') ->
  in_order st (with_k (with_con c' (i_k st)) st).
Proof.
  intros Hc. split; [intros Hi _; split; [done|cbn; lia]|]. intros Hok. cbn. destruct Hc as [Hs|Hs]; [by apply Hs|by apply Hs].
Qed.

Lemma printing lines st : in_order st (with_k (with_con (say_all lines (k_con (i_k st))) (i_k st)) st).
Proof. apply log_steps. right. apply say_all_safe. Qed.

Lemma logging format args st : in_order st (log format args st).
Proof. apply log_steps. right. apply say_safe. Qed.

(** Steps of which all but the last leave the processes alone. *)
Lemma in_order_trans st st1 st2 : k_ps (i_k st1) = k_ps (i_k st) -> in_order st st1 -> in_order st1 st2 -> in_order st st2.
Proof.
  intros Ek [_ Hl1] [Ho2 Hl2]. rewrite Ek in Ho2. split; [exact Ho2|]. intros Hok.
  destruct (Hl1 Hok) as [Hok1 Hp1]. destruct (Hl2 Hok1) as [Hok2 Hp2]. split; [done|]. by etrans.
Qed.

(** The states the messages lead to. *)
Definition dumped cr2 f st : isys S V F :=
  with_k (with_con (dump_frame cr2 (cr3 (k_ps (i_k st))) f (k_con (i_k st))) (i_k st)) st.
Definition panicked (m : list Z) (e : Nerror) st : isys S V F :=
  with_k (with_con (say_all (panic_lines (Some m) e) (k_con (i_k st))) (i_k st)) st.
Definition blamed cr2 f st : isys S V F :=
  dumped cr2 f (log (nl ++ text "User-mode fault, terminating process:" ++ nl)%list [] st).

Lemma panic_run m e st : panic m e st = (Panicked e, panicked m e st) /\ in_order st (panicked m e st).
Proof. split; [reflexivity|]. apply printing. Qed.

Lemma dumped_order cr2 f st : in_order st (dumped cr2 f st).
Proof. apply log_steps. right. apply dump_safe. Qed.

Lemma dumped_ps cr2 f st : k_ps (i_k (dumped cr2 f st)) = k_ps (i_k st).
Proof. reflexivity. Qed.

Lemma log_ps format args st : k_ps (i_k (log format args st)) = k_ps (i_k st).
Proof. reflexivity. Qed.

Lemma log_then format args st st' : in_order (log format args st) st' -> in_order st st'.
Proof. apply in_order_trans; [apply log_ps|apply logging]. Qed.

Lemma dumped_then cr2 f st st' : in_order (dumped cr2 f st) st' -> in_order st st'.
Proof. apply in_order_trans; [apply dumped_ps|apply dumped_order]. Qed.

Lemma blamed_order cr2 f st : in_order st (blamed cr2 f st).
Proof.
  unfold blamed. generalize (nl ++ text "User-mode fault, terminating process:" ++ nl)%list as m. intros m.
  apply (log_then m [] st), dumped_order.
Qed.

(** The end of a fatal exception, from any state. *)
Definition fatal cr2 f st : outcome * (trap_frame * isys S V F) :=
  let st := dumped cr2 f (log (nl ++ text "*** KERNEL EXCEPTION ***" ++ nl)%list [] st) in
  let '(o, st) := panic (text "Unhandled CPU exception in kernel mode") NkernelFault st in (o, (f, st)).

Lemma fatal_run cr2 f st : exists st', fatal cr2 f st = (Panicked NkernelFault, (f, st')) /\
  k_ps (i_k st') = k_ps (i_k st) /\ in_order st st'.
Proof.
  unfold fatal. generalize (nl ++ text "*** KERNEL EXCEPTION ***" ++ nl)%list as m.
  generalize (text "Unhandled CPU exception in kernel mode") as m'. intros m' m.
  destruct (panic_run m' NkernelFault (dumped cr2 f (log m [] st))) as [-> Hp].
  eexists. split; [reflexivity|]. split; [reflexivity|]. apply (log_then m [] st), (dumped_then cr2 f (log m [] st)), Hp.
Qed.

(** In user mode a fault is no repair of ours. *)
Lemma user_no_fixup cr2 f : Z.land (cs f) 3 = 3 -> uaccess_fixup insn fault cr2 (mk_fault (cs f) (rip f)) = None.
Proof. intros Hu. unfold uaccess_fixup. cbn [ff_cs]. by rewrite Hu. Qed.

Lemma exception_unfold cr2 f st : exception cr2 f st =
  match if vector f =? VEC_PAGE_FAULT then uaccess_fixup insn fault cr2 (mk_fault (cs f) (rip f)) else None with
  | Some r => (Returned Nok, (set_rip (ff_rip r) f, st))
  | None =>
      if Z.land (cs f) 3 =? 3 then
        match process_exit_with_code g (-1) (k_ps (i_k st)) with
        | (Returned _, s) => fatal cr2 f (with_k (with_ps s (i_k (blamed cr2 f st))) (blamed cr2 f st))
        | (o, s) => (o, (f, with_k (with_ps s (i_k (blamed cr2 f st))) (blamed cr2 f st)))
        end
      else fatal cr2 f st
  end.
Proof. reflexivity. Qed.

Lemma exception_user cr2 f st p : proc_inv g (k_ps (i_k st)) -> cur (k_ps (i_k st)) = Some p -> pid p <> 0 ->
  Z.land (cs f) 3 = 3 -> exists s', process_exit_with_code g (-1) (k_ps (i_k st)) = (Away, s') /\
    exception cr2 f st = (Away, (f, with_k (with_ps s' (i_k (blamed cr2 f st))) (blamed cr2 f st))).
Proof.
  intros Hi Hc Hp Hu. pose proof Hc as Hc'. unfold cur in Hc'.
  destruct (current_process (k_ps (i_k st))) as [c|] eqn:Ec; [|done]. cbn [mbind option_bind] in Hc'.
  destruct (exit_away g (k_ps (i_k st)) c p (-1) Hi Ec Hc' Hp) as (s' & E & _). exists s'. split; [done|].
  rewrite exception_unfold, (user_no_fixup cr2 f Hu), Hu, E. by destruct (vector f =? VEC_PAGE_FAULT).
Qed.

(** Putting the processes aside. *)
Lemma in_order_ps s st st1 : in_order st st1 -> orderly g (k_ps (i_k st)) s ->
  in_order st (with_k (with_ps s (i_k st1)) st1).
Proof. intros [_ Hl] Ho. by split. Qed.

Lemma exception_order cr2 f st : in_order st (exception cr2 f st).2.2.
Proof.
  rewrite exception_unfold. case_match; [apply in_order_refl|].
  destruct (Z.land (cs f) 3 =? 3); [|destruct (fatal_run cr2 f st) as (st' & -> & _ & Ho); exact Ho].
  destruct (process_exit_with_code g (-1) (k_ps (i_k st))) as [o s] eqn:E.
  assert (Ho : in_order st (with_k (with_ps s (i_k (blamed cr2 f st))) (blamed cr2 f st))).
  { apply in_order_ps; [apply blamed_order|]. intros Hi _. destruct (exit_inv g _ _ _ _ Hi E) as [Hi' Hn]. split; [done|lia]. }
  revert Ho. generalize (with_k (with_ps s (i_k (blamed cr2 f st))) (blamed cr2 f st)) as st1. intros st1 Ho.
  destruct o; [|exact Ho|exact Ho]. destruct (fatal_run cr2 f st1) as (st' & -> & Ek & [_ Hl]). cbn [snd].
  destruct Ho as [Ho1 Ho2]. split; [rewrite Ek; exact Ho1|]. intros Hok. destruct (Ho2 Hok) as [Hok1 Hp1].
  destruct (Hl Hok1) as [Hok2 Hp2]. split; [exact Hok2|]. by transitivity (k_con (i_k st1)).
Qed.

Lemma handler_order a f st : in_order st (call_handler call a f st).2.
Proof.
  unfold call_handler. destruct (Hcall a f (i_k st)) as [Hp Hl]. destruct (call a (f, i_k st)) as [f' k].
  split; [|exact Hl]. intros Hi _. destruct (Hp Hi) as [Hi' Hn]. cbn [snd with_k i_k] in *. split; [done|lia].
Qed.

Lemma syscall_order f st : in_order st (handle_syscall g info path_buffer string_buffer f st).2.2.
Proof.
  unfold handle_syscall.
  pose proof (dispatch_orderly g info path_buffer string_buffer (rax f) [rdi f; rsi f; rdx f; r10 f; r8 f; r9 f] (i_k st)) as Ho.
  pose proof (dispatch_logged g info path_buffer string_buffer (rax f) [rdi f; rsi f; rdx f; r10 f; r8 f; r9 f] (i_k st)) as Hl.
  destruct (syscall_dispatch _ _ _ _ _ _ _) as [[r| |e] k]; by split.
Qed.

Lemma dispatch_order cr2 f st : in_order st (dispatch cr2 f st).2.2.
Proof.
  unfold interrupt_dispatch. case_if.
  { destruct (panic_run (text "Corrupted trap frame (bad vector)") NkernelFault st) as [-> Ho]. exact Ho. }
  case_if.
  { destruct (pic_is_spurious _ _ _) as [[] p]; [case_if; exact (in_order_refl st)|]. case_if; [|exact (in_order_refl st)].
    pose proof (handler_order (handler_of (vector f) (with_pic p st)) f (with_pic p st)) as Ho.
    destruct (call_handler _ _ _ _) as [f' st']. exact Ho. }
  case_if; [apply syscall_order|]. case_if.
  { pose proof (handler_order (handler_of (vector f) st) f st) as Ho. destruct (call_handler _ _ _ _) as [f' st']. exact Ho. }
  case_if; [apply exception_order|]. generalize (text "Ignoring unexpected interrupt vector %lu" ++ nl)%list as m. intros m. apply logging.
Qed.

Lemma interrupt_no_panic cr2 f st p e : proc_inv g (k_ps (i_k st)) -> cur (k_ps (i_k st)) = Some p -> pid p <> 0 ->
  Z.land (cs f) 3 = 3 -> vector f < VEC_COUNT -> (dispatch cr2 f st).1 <> Panicked e.
Proof.
  intros Hi Hc Hp Hu Hv. unfold interrupt_dispatch. case_if; [lia|]. case_if.
  { destruct (pic_is_spurious _ _ _) as [[] q]; [done|]. case_if; [|done]. by destruct (call_handler _ _ _ _). }
  case_if.
  { unfold handle_syscall.
    pose proof (dispatch_no_panic g info path_buffer string_buffer (rax f) [rdi f; rsi f; rdx f; r10 f; r8 f; r9 f] (i_k st) p Hi Hc Hp) as Hn.
    destruct (syscall_dispatch _ _ _ _ _ _ _) as [[r| |e'] k]; try done. by destruct (Hn e'). }
  case_if; [by destruct (call_handler _ _ _ _)|]. case_if; [|done].
  destruct (exception_user cr2 f st p Hi Hc Hp Hu) as (s' & _ & ->). done.
Qed.

(** An exception that no handler takes. *)
Definition unhandled f st : Prop := 0 <= vector f < 32 /\ handler_of (vector f) st = 0.

Lemma dispatch_exception cr2 f st : unhandled f st -> dispatch cr2 f st = exception cr2 f st.
Proof.
  intros [Hv Hh]. unfold interrupt_dispatch, VEC_COUNT, VEC_IRQ_BASE, VEC_SYSCALL. repeat (case_if; [lia|]). case_if; [reflexivity|lia].
Qed.

(** C30: No interrupt that arrives while a program runs can bring the kernel
    down, whatever the program did: the processes and the log stay in order and
    there is no panic.  An exception no handler takes ends that program, with
    exit code -1 and its files closed, and no other: the process that has the
    processor next was ready or had slept long enough, every other process is
    exactly as it was, and no frame changes hands.  In the kernel an exception
    that no handler takes is fatal and changes no process, except a page fault
    of the copy routine on a user address, which goes on at the routine's error
    exit.  Handlers that drivers register are code of their own, a parameter
    here; they are assumed to keep the processes and the log in order and to
    start no process ([handler_ok]).  Fewer than 2^32 - 1 processes have been
    made. *)
Theorem interrupts_contained (cr2 : Z) (f : trap_frame) (st : isys S V F) :
  proc_inv g (k_ps (i_k st)) -> g_next_pid (k_ps (i_k st)) + 1 < 2 ^ 32 -> con_ok (k_con (i_k st)) ->
  let '(o, (f', st')) := dispatch cr2 f st in
  proc_inv g (k_ps (i_k st')) /\ con_ok (k_con (i_k st')) /\
  confined (g_fb (k_con (i_k st))) (fb_end (k_con (i_k st))) (fb_mem (k_con (i_k st))) (fb_mem (k_con (i_k st'))) /\
  (forall c p, current_process (k_ps (i_k st)) = Some c -> g_procs (k_ps (i_k st)) !! c = Some p -> pid p <> 0 ->
   Z.land (cs f) 3 = 3 -> vector f < VEC_COUNT ->
   (forall e, o <> Panicked e) /\
   (unhandled f st -> o = Away /\ current_process (k_ps (i_k st')) <> Some c /\
                      process_get_exit_code (pid p) (k_ps (i_k st')) = Ok (-1) /\
                      ps_vfs (k_ps (i_k st')) = (nx_handles_close_all (handles p, ps_vfs (k_ps (i_k st)))).2 /\
                      others_kept (k_ps (i_k st)) (k_ps (i_k st')) c)) /\
  (Z.land (cs f) 3 <> 3 -> unhandled f st -> k_ps (i_k st') = k_ps (i_k st) /\
   (if bool_decide (vector f = VEC_PAGE_FAULT /\ Z.land (cs f) 3 = 0 /\ rip f = insn /\ cr2 < USER_SPACE_END)
    then o = Returned Nok /\ f' = set_rip fault f else o = Panicked NkernelFault)).
Proof.
  intros Hi Hn Hcon. pose proof (dispatch_order cr2 f st) as [Ho Hl]. destruct (Ho Hi Hn) as [Hi' _].
  destruct (Hl Hcon) as (Hcon' & _ & _ & _ & _ & _ & Hconf). pose proof (dispatch_exception cr2 f st) as He.
  pose proof (fun p e => interrupt_no_panic cr2 f st p e Hi) as Hnp.
  destruct (dispatch cr2 f st) as [o [f' st']]. cbn [fst snd] in *. split; [done|]. split; [done|]. split; [done|].
  split.
  - intros c p Hc Hp Hpid Hu Hv. assert (Hcp : cur (k_ps (i_k st)) = Some p) by (unfold cur; by rewrite Hc).
    split; [by intros e; apply (Hnp p)|]. intros Hun. specialize (He Hun).
    destruct (exception_user cr2 f st p Hi Hcp Hpid Hu) as (s' & Ee & E). rewrite E in He. injection He as -> -> ->.
    split; [done|]. destruct (exit_away g _ c p (-1) Hi Hc Hp Hpid) as (s2 & E2 & _ & H1' & H2' & _ & H3' & H4').
    rewrite Ee in E2. injection E2 as <-. split; [exact H1'|]. split; [exact H2'|]. split; [exact H3'|exact H4'].
  - intros Hu Hun. specialize (He Hun). rewrite exception_unfold in He. rewrite (proj2 (Z.eqb_neq _ _) Hu) in He.
    unfold uaccess_fixup in He. cbn [ff_cs ff_rip] in He. destruct (fatal_run cr2 f st) as (st1 & Ef & Ek & _).
    rewrite Ef in He.
    destruct (bool_decide_reflect (vector f = VEC_PAGE_FAULT /\ Z.land (cs f) 3 = 0 /\ rip f = insn /\ cr2 < USER_SPACE_END))
      as [(Hx & Hy & Hz & Hw)|Hno].
    + rewrite (proj2 (Z.eqb_eq _ _) Hx), (proj2 (Z.eqb_eq _ _) Hy), (proj2 (Z.eqb_eq _ _) Hz), (proj2 (Z.leb_gt _ _) Hw) in He.
      cbn in He. by injection He as -> -> ->.
    + assert (He' : (o, (f', st')) = (Panicked NkernelFault, (f, st1))).
      { destruct (Z.eqb_spec (vector f) VEC_PAGE_FAULT) as [Hx|]; [|exact He].
        destruct (Z.eqb_spec (Z.land (cs f) 3) 0) as [Hy|]; [|exact He]. cbn [negb] in He.
        destruct (Z.eqb_spec (rip f) insn) as [Hz|]; [|exact He]. cbn [negb] in He.
        destruct (Z.leb_spec USER_SPACE_END cr2); [exact He|]. destruct Hno. by split_and!. }
      injection He' as -> -> ->. by split.
Qed.

(** The acknowledgements a controller has had. *)
Definition eois (port : Z) (st : isys S V F) : nat :=
  length (filter (fun e => e = Out port PIC_EOI) (events (i_pic st))).

(** A handler has no access to the controllers. *)
Lemma handler_pic a f st : i_pic (call_handler call a f st).2 = i_pic st.
Proof. unfold call_handler. by destruct (call a (f, i_k st)). Qed.

Lemma spurious_eois irq st port : eois port (with_pic (pic_is_spurious dev irq (i_pic st)).2 st) = eois port st.
Proof.
  unfold pic_is_spurious. case_if; [done|]. unfold pic_get_isr, pic_get_reg, inb, eois. cbn -[u8 filter].
  rewrite !filter_cons. repeat (case_decide; [discriminate|]); done.
Qed.

Lemma sent_eois irq st port : port = PIC1_CMD \/ port = PIC2_CMD -> 0 <= irq < 16 ->
  eois port (with_pic (pic_send_eoi irq (i_pic st)) st) =
    (eois port st + (if ((port =? PIC2_CMD) && (irq <? 8))%Z then 0 else 1))%nat.
Proof.
  intros Hp Hi. unfold pic_send_eoi, eois. destruct (Z.leb_spec 8 irq); cbn -[u8 filter]; rewrite !filter_cons;
    destruct Hp as [-> | ->]; (destruct (Z.ltb_spec irq 8); [try lia|try lia]);
    repeat case_decide; try discriminate; simpl; lia || congruence || done.
Qed.

(** Every hardware interrupt is acknowledged exactly where the controllers
    wait for it: once at the first, and once at the second for its own lines;
    a spurious line 7 is not acknowledged and a spurious line 15 at the first
    only.  The interrupted code goes on, and the registered handler, if any,
    ran once unless the interrupt was spurious. *)
Theorem irq_acknowledged (cr2 : Z) (f : trap_frame) (st : isys S V F) (irq : Z) :
  0 <= irq < 16 -> vector f = VEC_IRQ_BASE + irq ->
  let spurious := (pic_is_spurious dev irq (i_pic st)).1 in
  let handler := handler_of (vector f) st in
  let '(o, (f', st')) := dispatch cr2 f st in
  o = Returned Nok /\
  eois PIC1_CMD st' = (eois PIC1_CMD st + (if spurious && (irq =? 7)%Z then 0 else 1))%nat /\
  eois PIC2_CMD st' = (eois PIC2_CMD st + (if spurious || (irq <? 8)%Z then 0 else 1))%nat /\
  (f', i_k st') = (if spurious || (handler =? 0) then (f, i_k st) else call handler (f, i_k st)).
Proof.
  intros Hi Hv spurious handler. unfold interrupt_dispatch, VEC_COUNT, VEC_IRQ_COUNT. rewrite Hv. unfold VEC_IRQ_BASE in *.
  case_if; [lia|]. case_if; [|lia]. replace (32 + irq - 32) with irq by lia. rewrite (uw_small 8 irq) by lia.
  pose proof (spurious_eois irq st) as Hsp. assert (Hsp' : spurious = true -> irq = 7 \/ irq = 15).
  { unfold spurious, pic_is_spurious. case_if; [done|]. intros _. lia. }
  unfold spurious in *. clear spurious. destruct (pic_is_spurious dev irq (i_pic st)) as [[] p]; cbn [fst snd] in *.
  - specialize (Hsp' eq_refl). split; [done|]. cbn [orb andb]. case_if.
    + rewrite !(sent_eois 2) by lia. rewrite !Hsp. subst irq. split_and!; [done|done|done].
    + assert (irq = 7) as -> by lia. rewrite !Hsp. split_and!; [done|done|done].
  - change (handler_of (32 + irq) (with_pic p st)) with (handler_of (32 + irq) st). unfold handler in *. rewrite Hv. clear handler.
    set (a := handler_of (32 + irq) st) in *. clearbody a.
    assert (Hpic : i_pic (if negb (a =? 0) then call_handler call a f (with_pic p st) else (f, with_pic p st)).2 = p).
    { case_if; [apply handler_pic|done]. }
    assert (Hk : ((if negb (a =? 0) then call_handler call a f (with_pic p st) else (f, with_pic p st)).1,
      i_k (if negb (a =? 0) then call_handler call a f (with_pic p st) else (f, with_pic p st)).2) =
      if a =? 0 then (f, i_k st) else call a (f, i_k st)).
    { destruct (a =? 0); [done|]. cbn [negb]. unfold call_handler. cbn [with_pic i_k]. by destruct (call a (f, i_k st)). }
    destruct (if negb (a =? 0) then _ else _) as [f' st1]. cbn [fst snd] in Hpic, Hk. split; [done|].
    rewrite !sent_eois by lia. unfold eois in *. rewrite Hpic. cbn [with_pic i_pic] in Hsp. rewrite !Hsp.
    split_and!; [done|done|exact Hk].
Qed.
End dispatch.
