(* ===== verification/Devices.v ===== *)
(** * Devices: drawing, the keyboard and the ATA disk

    [nxkernel/graphics/graphics_base.c] in the Module [Graphics],
    [nxkernel/console/inputs/inputs_base.c] in [Keyboard] and
    [drivers/ata/ata.c] in [Ata].  What a port read gives is decided by the
    hardware, a function [dev] of the accesses so far, as in the file Pic. *)

From S2P Require Import Prelude Types Loops Mem BootInfo Pic Printk.

Module Graphics.
Implicit Types (info : NTBLI) (m : mem).

(** [fb_usable]: nxkernel/graphics/graphics_base.c:10-22 *)
Definition fb_usable (info : option NTBLI) : bool :=
  match info with
  | None => false
  | Some info =>
      if framebuffer_base info =? 0 then false
      else if negb (pixel_format info =? NTBLI_PIXEL_RGB) && negb (pixel_format info =? NTBLI_PIXEL_BGR) then false
      else if pixels_per_scan_line info <? width info then false
      else u64 (u64 (pixels_per_scan_line info * height info) * 4) <=? framebuffer_size info
  end.

(** [draw_pixel]: nxkernel/graphics/graphics_base.c:24-35 *)
Definition draw_pixel (info : option NTBLI) (x y color : Z) m : mem :=
  match info with
  | Some i =>
      if negb (fb_usable info) then m
      else if (x <? 0) || (y <? 0) || (width i <=? u32 x) || (height i <=? u32 y) then m
      else stn 4 (pixel_addr (framebuffer_base i) (u64 (u64 (u32 y * pixels_per_scan_line i) + u32 x))) color m
  | None => m
  end.

(** [iabs32]: nxkernel/graphics/graphics_base.c:37-40 *)
Definition iabs32 (v : Z) : Z := if v <? 0 then i32 (- v) else v.

(** One round at a point with its error term; the loop ends when the point is
    the last. *)
(** [draw_line_plus, a round]: nxkernel/graphics/graphics_base.c:50-70 *)
Definition line_step (info : option NTBLI) (x1 y1 color dx sx dy sy : Z) (p : Z * Z * Z) : ST mem (Z * Z * Z + unit) := fun m =>
  let '(x0, y0, err) := p in
  let m := draw_pixel info x0 y0 color m in
  if (x0 =? x1) && (y0 =? y1) then (inr tt, m)
  else
    let e2 := i32 (2 * err) in
    let '(err, x0) := if dy <=? e2 then (i32 (err + dy), i32 (x0 + sx)) else (err, x0) in
    let '(err, y0) := if e2 <=? dx then (i32 (err + dx), i32 (y0 + sy)) else (err, y0) in
    (inl (x0, y0, err), m).

(** [draw_line_plus]: nxkernel/graphics/graphics_base.c:42-71 *)
Definition draw_line_plus (info : option NTBLI) (x0 y0 x1 y1 color : Z) : ST mem unit :=
  let dx := iabs32 (i32 (x1 - x0)) in
  let sx := if x0 <? x1 then 1 else -1 in
  let dy := i32 (- iabs32 (i32 (y1 - y0))) in
  let sy := if y0 <? y1 then 1 else -1 in
  let err := i32 (dx + dy) in
  run tt (line_step info x1 y1 color dx sx dy sy) (x0, y0, err).

(** [draw_hline_fast]: nxkernel/graphics/graphics_base.c:73-100 *)
Definition draw_hline_fast (info : option NTBLI) (x y length color : Z) m : mem :=
  match info with
  | Some i =>
      if negb (fb_usable info) || (length <=? 0) then m
      else if (y <? 0) || (height i <=? u32 y) then m
      else
        let end_ := i32 (x + length) in
        if end_ <? x then m
        else
          let x := if x <? 0 then 0 else x in
          let end_ := if i32 (width i) <? end_ then i32 (width i) else end_ in
          if end_ <=? x then m
          else for_range x end_ (fun j m => stn 4 (pixel_addr (framebuffer_base i) (u64 (u64 (u32 y * pixels_per_scan_line i) + j))) color m) m
  | None => m
  end.
(** ** Drawing *)

(** A frame buffer that is memory: its fields fit their types and its bytes the
    address space. *)
Record screen_ok (i : NTBLI) : Prop := {
  fo_base : 0 <= framebuffer_base i /\ 0 <= framebuffer_size i /\ framebuffer_base i + framebuffer_size i <= 2 ^ 64;
  fo_dims : 0 <= width i < 2 ^ 32 /\ 0 <= height i < 2 ^ 32 /\ 0 <= pixels_per_scan_line i;
  fo_area : pixels_per_scan_line i * height i < 2 ^ 62;
}.

(** The memory after the points [pts] were drawn. *)
Definition plot i color (pts : list (Z * Z)) m : mem := fold_left (fun m '(x, y) => draw_pixel (Some i) x y color m) pts m.

Lemma plot_app i color p1 p2 m : plot i color (p1 ++ p2) m = plot i color p2 (plot i color p1 m).
Proof. apply fold_left_app. Qed.

Lemma usable_area i : screen_ok i -> fb_usable (Some i) = true -> framebuffer_base i <> 0 /\ width i <= pixels_per_scan_line i /\
  4 * (pixels_per_scan_line i * height i) <= framebuffer_size i.
Proof.
  intros [_ (Hw & Hh & Hs) Ha] Hu. unfold fb_usable in Hu. repeat case_if_in Hu; try done.
  rewrite (uw_small 64 (pixels_per_scan_line i * height i)) in Hu by nia. rewrite uw_small in Hu by nia. lia.
Qed.

(** A pixel is four bytes of the frame buffer, or nothing. *)
Lemma draw_pixel_spec i x y color m : screen_ok i -> - 2 ^ 31 <= x < 2 ^ 31 -> - 2 ^ 31 <= y < 2 ^ 31 ->
  draw_pixel (Some i) x y color m =
    if fb_usable (Some i) && (0 <=? x) && (x <? width i) && (0 <=? y) && (y <? height i)
    then stn 4 (framebuffer_base i + 4 * (y * pixels_per_scan_line i + x)) color m else m.
Proof.
  intros Hf Hx Hy. unfold draw_pixel. destruct (fb_usable (Some i)) eqn:Hu; [|done]. cbn [negb andb].
  destruct (usable_area i Hf Hu) as (Hb & Hw & Hsz). destruct Hf as [Hbase (Hw0 & Hh0 & Hs) Ha].
  destruct (Z.ltb_spec x 0); [by rewrite (proj2 (Z.leb_gt 0 x)) by lia|]. destruct (Z.ltb_spec y 0); [by rewrite (proj2 (Z.leb_gt 0 y)), andb_false_r, orb_true_r by lia|].
  cbn [orb]. rewrite !(uw_small 32) by lia. rewrite (proj2 (Z.leb_le 0 x)), (proj2 (Z.leb_le 0 y)) by lia. cbn [andb].
  destruct (Z.leb_spec (width i) x); [by rewrite (proj2 (Z.ltb_ge x _)) by lia|]. rewrite (proj2 (Z.ltb_lt x (width i))) by lia. cbn [orb andb].
  destruct (Z.leb_spec (height i) y); [by rewrite (proj2 (Z.ltb_ge y _)) by lia|]. rewrite (proj2 (Z.ltb_lt y (height i))) by lia.
  assert (Hi : y * pixels_per_scan_line i + x < pixels_per_scan_line i * height i) by nia.
  unfold pixel_addr. rewrite (uw_small 64 (y * _)), (uw_small 64 (_ + x)), uw_small by nia. done.
Qed.

Definition outside_frame (i : NTBLI) (m m' : mem) : Prop :=
  forall a, ~ (framebuffer_base i <= a < framebuffer_base i + framebuffer_size i) -> ld8 m' a = ld8 m a.

Lemma stn_in_frame i k x y color m : screen_ok i -> fb_usable (Some i) = true -> 0 <= x < width i -> 0 <= y < height i -> k = y * pixels_per_scan_line i + x ->
  outside_frame i m (stn 4 (framebuffer_base i + 4 * k) color m).
Proof.
  intros Hf Hu Hx Hy -> a Ha. destruct (usable_area i Hf Hu) as (_ & Hw & Hsz). rewrite ld8_stn. case_if; [|done]. exfalso.
  assert (Hi : y * pixels_per_scan_line i + x + 1 <= pixels_per_scan_line i * height i) by nia. destruct Hf as [_ (_ & _ & Hs) _]. nia.
Qed.

Lemma draw_pixel_outside i x y color m : screen_ok i -> - 2 ^ 31 <= x < 2 ^ 31 -> - 2 ^ 31 <= y < 2 ^ 31 -> outside_frame i m (draw_pixel (Some i) x y color m).
Proof.
  intros Hf Hx Hy. rewrite draw_pixel_spec by done. destruct (_ && _) eqn:E; [|by intros ??]. bool_simpl. by apply (stn_in_frame i _ x y).
Qed.

Lemma plot_outside i color pts m : screen_ok i -> Forall (fun p => - 2 ^ 31 <= p.1 < 2 ^ 31 /\ - 2 ^ 31 <= p.2 < 2 ^ 31) pts -> outside_frame i m (plot i color pts m).
Proof.
  intros Hf Hp. revert m. induction Hp as [|[x y] pts [Hx Hy] _ IH]; intros m; [by intros ??|]. intros a Ha. unfold plot. cbn [fold_left].
  etrans; [apply (IH _ a Ha)|]. by apply draw_pixel_outside.
Qed.

Lemma draw_hline_outside i x y length color m : screen_ok i -> width i < 2 ^ 31 -> - 2 ^ 31 <= x < 2 ^ 31 -> - 2 ^ 31 <= y < 2 ^ 31 -> - 2 ^ 31 <= length < 2 ^ 31 ->
  outside_frame i m (draw_hline_fast (Some i) x y length color m).
Proof.
  intros Hf Hw31 Hx Hy Hl. unfold draw_hline_fast. destruct (fb_usable (Some i)) eqn:Hu; [|by intros ??]. cbn [negb orb].
  destruct (usable_area i Hf Hu) as (Hb & Hw & Hsz). pose proof Hf as [Hbase (Hw0 & Hh0 & Hs) Ha].
  case_if; [by intros ??|]. case_if; [by intros ??|]. cbv zeta. case_if; [by intros ??|]. rewrite (sw_small 32 (width i)) by lia.
  set (x' := if x <? 0 then 0 else x). set (e := if width i <? _ then _ else _). case_if; [by intros ??|].
  assert (Hx' : 0 <= x') by (unfold x'; case_if; lia). assert (He : e <= width i) by (unfold e; case_if; lia). rewrite (uw_small 32 y) in * by lia.
  apply (for_range_rule (fun _ m' => outside_frame i m m')); [lia|by intros ??|]. intros j m1 Hj H1 a Ha'. rewrite <- (H1 a Ha').
  assert (Hi : y * pixels_per_scan_line i + j < pixels_per_scan_line i * height i) by nia.
  unfold pixel_addr. rewrite (uw_small 64 (y * _)), (uw_small 64 (_ + j)), uw_small by nia. by apply (stn_in_frame i _ j y); try lia.
Qed.

(** ** The line

    After [a] steps along x and [b] along y, of [dx] and [dy]: the distance from
    the ideal line, and the steps the code makes from it. *)

Definition off_line (dx dy a b : Z) : Z := b * dx - a * dy.
Definition step_x (dx dy a b : Z) : bool := - dy <=? 2 * (off_line dx dy a b + dx - dy).
Definition step_y (dx dy a b : Z) : bool := 2 * (off_line dx dy a b + dx - dy) <=? dx.

(** The longer axis steps every time, and the distance stays within half a
    pixel of the other. *)
Definition on_line (dx dy a b : Z) : Prop := 0 <= a <= dx /\ 0 <= b <= dy /\ 2 * Z.abs (off_line dx dy a b) <= Z.max dx dy.

Definition major (dx dy a b : Z) : Z := if dy <=? dx then a else b.

Lemma off_line_steps dx dy a b (p q : bool) :
  off_line dx dy (a + Z.b2z p) (b + Z.b2z q) = off_line dx dy a b + (if q then dx else 0) - (if p then dy else 0).
Proof. unfold off_line. destruct p, q; cbn [Z.b2z]; ring. Qed.

Lemma on_line_end dx dy a b : on_line dx dy a b -> major dx dy a b = Z.max dx dy -> a = dx /\ b = dy.
Proof.
  unfold on_line, major, off_line. intros (Ha & Hb & Hd) Hm. destruct (Z.leb_spec dy dx).
  - assert (a = dx) as -> by lia. split; [done|]. destruct (Z.eq_dec dx 0); [lia|]. nia.
  - assert (b = dy) as -> by lia. split; [|done]. nia.
Qed.

Lemma on_line_step dx dy a b : 0 <= dx -> 0 <= dy -> on_line dx dy a b -> ~ (a = dx /\ b = dy) ->
  let a' := a + Z.b2z (step_x dx dy a b) in let b' := b + Z.b2z (step_y dx dy a b) in
  on_line dx dy a' b' /\ major dx dy a' b' = major dx dy a b + 1 /\ major dx dy a b < Z.max dx dy.
Proof.
  intros Hdx Hdy Hl Hne. assert (Hm : major dx dy a b < Z.max dx dy).
  { destruct (Z.lt_ge_cases (major dx dy a b) (Z.max dx dy)) as [|Hge]; [done|]. exfalso. apply Hne, on_line_end; [done|].
    destruct Hl as (Ha & Hb & _). unfold major in *. case_if; lia. }
  cbv zeta. split; [|split; [|exact Hm]].
  - destruct Hl as (Ha & Hb & Hd). unfold on_line. rewrite off_line_steps. unfold step_x, step_y, major in *. revert Hm Hd. set (D := off_line dx dy a b). intros Hm Hd.
    assert (HD : D = b * dx - a * dy) by reflexivity. clearbody D.
    destruct (Z.leb_spec dy dx), (Z.leb_spec (- dy) (2 * (D + dx - dy))), (Z.leb_spec (2 * (D + dx - dy)) dx); cbn [Z.b2z]; (split; [|split]); try lia; try nia.
  - destruct Hl as (Ha & Hb & Hd). unfold major, step_x, step_y in *. destruct (Z.leb_spec dy dx).
    + rewrite (proj2 (Z.leb_le _ _)) by lia. done.
    + rewrite (proj2 (Z.leb_le (2 * _) dx)) by lia. done.
Qed.

Section line.
Context (x0 y0 x1 y1 : Z).
Context (Hx0 : - 2 ^ 31 <= x0 < 2 ^ 31) (Hx1 : - 2 ^ 31 <= x1 < 2 ^ 31) (Hy0 : - 2 ^ 31 <= y0 < 2 ^ 31) (Hy1 : - 2 ^ 31 <= y1 < 2 ^ 31).
Context (Hwide : Z.abs (x1 - x0) <= 2 ^ 29) (Hhigh : Z.abs (y1 - y0) <= 2 ^ 29).

Definition toward (p q : Z) : Z := if p <? q then 1 else -1.

(** The points of a line: one for each step of the longer axis, each within half
    a pixel of the ideal line. *)
Definition point_of (a b : Z) : Z * Z := (x0 + toward x0 x1 * a, y0 + toward y0 y1 * b).
Definition point_at (k : Z) (p : Z * Z) : Prop := exists a b, p = point_of a b /\ on_line (Z.abs (x1 - x0)) (Z.abs (y1 - y0)) a b /\
  major (Z.abs (x1 - x0)) (Z.abs (y1 - y0)) a b = k.
Definition digital_line (n : Z) (pts : list (Z * Z)) : Prop := Z.of_nat (length pts) = n /\
  forall k p, pts !! k = Some p -> point_at (Z.of_nat k) p.

Let dx := Z.abs (x1 - x0).
Let dy := Z.abs (y1 - y0).

Lemma point_range a b : on_line dx dy a b -> - 2 ^ 31 <= (point_of a b).1 < 2 ^ 31 /\ - 2 ^ 31 <= (point_of a b).2 < 2 ^ 31.
Proof. intros (Ha & Hb & _). unfold point_of, toward, dx, dy in *. cbn [fst snd]. repeat case_if; lia. Qed.

Lemma point_last a b : on_line dx dy a b -> point_of a b = (x1, y1) <-> a = dx /\ b = dy.
Proof.
  intros (Ha & Hb & _). unfold point_of, toward, dx, dy in *. split.
  - intros [= H1 H2]. repeat case_if_in H1; repeat case_if_in H2; lia.
  - intros [-> ->]. f_equal; case_if; lia.
Qed.

Lemma line_end_unique n pts p : digital_line (n + 1) pts -> n = Z.max dx dy -> last pts = Some p -> p = (x1, y1).
Proof.
  intros (Hn & Hp) -> Hl. rewrite last_lookup in Hl. destruct (Hp _ _ Hl) as (a & b & -> & Ho & Hm). apply point_last; [done|].
  apply on_line_end; [done|]. fold dx dy in Hm. rewrite Hm. lia.
Qed.

(** One round of the loop is one step. *)
Lemma line_step_spec i color a b m : on_line dx dy a b ->
  line_step (Some i) x1 y1 color dx (toward x0 x1) (- dy) (toward y0 y1) (point_of a b, off_line dx dy a b + dx - dy) m =
    let m' := draw_pixel (Some i) (point_of a b).1 (point_of a b).2 color m in
    if decide (a = dx /\ b = dy) then (inr tt, m')
    else let a' := a + Z.b2z (step_x dx dy a b) in let b' := b + Z.b2z (step_y dx dy a b) in
      (inl (point_of a' b', off_line dx dy a' b' + dx - dy), m').
Proof.
  intros Ho. destruct (point_range a b Ho) as [Hrx Hry]. pose proof (point_last a b Ho) as Hlast. unfold line_step.
  destruct (point_of a b) as [x y] eqn:Ep. cbn [fst snd] in *. cbv zeta.
  assert (Hend : (x =? x1) && (y =? y1) = bool_decide (a = dx /\ b = dy)).
  { apply eq_bool_prop_intro. rewrite bool_decide_spec, <- Hlast, Is_true_true, andb_true_iff, !Z.eqb_eq. split; [by intros [-> ->]|by intros [= -> ->]]. }
  rewrite Hend. case_bool_decide as E; [by rewrite decide_True|]. rewrite decide_False by done.
  assert (Hdx : 0 <= dx <= 2 ^ 29) by (clear -Hwide; unfold dx; lia). assert (Hdy : 0 <= dy <= 2 ^ 29) by (clear -Hhigh; unfold dy; lia).
  destruct (on_line_step dx dy a b) as (Ho' & _ & _); [apply Hdx|apply Hdy|done|done|]. cbv zeta in Ho'.
  destruct (point_range _ _ Ho') as [Hrx' Hry']. destruct Ho as (_ & _ & Hd). destruct Ho' as (_ & _ & Hd').
  clear Hlast Hend. unfold point_of in *. injection Ep as <- <-. cbn [fst snd] in *. rewrite off_line_steps in Hd' |- *.
  unfold step_x, step_y in *. set (D := off_line dx dy a b) in *. clearbody D. clearbody dx dy. clear Hx0 Hx1 Hy0 Hy1 Hwide Hhigh E.
  set (tx := toward x0 x1) in *. set (ty := toward y0 y1) in *. clearbody tx ty. rewrite (sw_small 32 (2 * _)) by (clear -Hd Hdx Hdy; lia).
  destruct (Z.leb_spec (- dy) (2 * (D + dx - dy))), (Z.leb_spec (2 * (D + dx - dy)) dx); cbn [Z.b2z] in *;
    rewrite ?Z.mul_add_distr_l, ?Z.mul_1_r, ?Z.mul_0_r, ?Z.add_0_r, ?Z.add_assoc in *; try (rewrite (sw_small 32 (D + dx - dy + - dy)) by lia); rewrite ?sw_small by lia; repeat f_equal; lia.
Qed.

Lemma iabs_small p q : Z.abs (q - p) <= 2 ^ 29 -> iabs32 (i32 (q - p)) = Z.abs (q - p).
Proof. intros Hp. rewrite (sw_small 32) by lia. unfold iabs32. case_if; [rewrite sw_small|]; lia. Qed.

Lemma draw_line_run i color m : exists pts, (draw_line_plus (Some i) x0 y0 x1 y1 color m).2 = plot i color pts m /\
  digital_line (Z.max dx dy + 1) pts.
Proof.
  unfold draw_line_plus. cbv zeta. rewrite !iabs_small by done. fold dx dy. fold (toward x0 x1) (toward y0 y1).
  assert (Hdx : 0 <= dx <= 2 ^ 29) by (clear -Hwide; unfold dx; lia). assert (Hdy : 0 <= dy <= 2 ^ 29) by (clear -Hhigh; unfold dy; lia).
  rewrite (sw_small 32 (- dy)), (sw_small 32 (dx + - dy)) by lia.
  set (I := fun (n : Z) (p : Z * Z * Z) m' => exists a b pts, p = (point_of a b, off_line dx dy a b + dx - dy) /\ on_line dx dy a b /\
    n = Z.max dx dy - major dx dy a b /\ m' = plot i color pts m /\ digital_line (major dx dy a b) pts).
  assert (Hw : wp (run tt (line_step (Some i) x1 y1 color dx (toward x0 x1) (- dy) (toward y0 y1)) (x0, y0, dx + - dy))
    (fun _ m' => exists pts, m' = plot i color pts m /\ digital_line (Z.max dx dy + 1) pts) m).
  2: { destruct (wp_run _ _ _ Hw) as (r & m' & -> & pts & -> & Hp). by exists pts. }
  apply (wp_loop _ _ I _ (Z.max dx dy)); [|lia|].
  - exists 0, 0, []. assert (Hm : major dx dy 0 0 = 0) by (unfold major; by case_if). rewrite Hm. split; [|split; [|split; [lia|split; [done|]]]].
    + unfold point_of, off_line. by rewrite !Z.mul_0_r, !Z.add_0_r.
    + unfold on_line, off_line. lia.
    + split; [done|]. intros k p Hk. by rewrite lookup_nil in Hk.
  - intros n p m1 (a & b & pts & -> & Ho & -> & -> & Hlen & Hpts). unfold wp. rewrite line_step_spec by done. cbv zeta.
    set (pts' := pts ++ [point_of a b]). assert (Hm : draw_pixel (Some i) (point_of a b).1 (point_of a b).2 color (plot i color pts m) = plot i color pts' m).
    { unfold pts'. rewrite plot_app. unfold plot at 2. cbn [fold_left]. by destruct (point_of a b). }
    assert (Hpts' : digital_line (major dx dy a b + 1) pts').
    { split; [unfold pts'; rewrite length_app; cbn [length]; lia|]. intros k p Hk. unfold pts' in Hk. apply lookup_app_Some in Hk as [Hk|[Hle Hk]]; [by apply Hpts|].
      apply list_lookup_singleton_Some in Hk as [Hk <-]. exists a, b. split; [done|]. split; [exact Ho|]. fold dx dy. lia. }
    rewrite Hm. case_decide as E.
    + exists pts'. split; [done|]. replace (Z.max dx dy) with (major dx dy a b); [done|]. destruct E as [-> ->]. unfold major. case_if; lia.
    + destruct (on_line_step dx dy a b) as (Ho' & Hmaj & Hlt); [lia|lia|done|done|]. cbv zeta in Ho', Hmaj.
      eexists. split; [eexists _, _, pts'; split; [reflexivity|]; split; [exact Ho'|]; split; [reflexivity|]; split; [done|]; by rewrite Hmaj|]. rewrite Hmaj. lia.
Qed.

Lemma digital_line_points n pts : digital_line n pts -> Forall (fun p => - 2 ^ 31 <= p.1 < 2 ^ 31 /\ - 2 ^ 31 <= p.2 < 2 ^ 31) pts.
Proof.
  intros [_ Hp]. apply Forall_lookup. intros k p Hk. destruct (Hp k p Hk) as (a & b & -> & Ho & _). destruct (point_range a b Ho). lia.
Qed.

(** C31: the line drawing routine ends, after as many steps as the longer of the
    line's two extents, and what it has drawn is the line: from the first point
    to the last, one pixel for each step along the longer axis, none farther
    than half a pixel from the ideal line; and no byte outside the frame buffer
    has changed, though the points may lie off the screen, anywhere that 32-bit
    coordinates reach.  The two points are at most 2^29 apart along each axis,
    so that the error term does not overflow, and the frame buffer is memory
    whose scan lines have fewer than 2^62 pixels in all: beyond that the test of
    the size wraps ([usable_wraps]). *)
Theorem line_is_drawn i color m : screen_ok i ->
  let m' := (draw_line_plus (Some i) x0 y0 x1 y1 color m).2 in
  outside_frame i m m' /\
  exists pts, m' = plot i color pts m /\ digital_line (Z.max (Z.abs (x1 - x0)) (Z.abs (y1 - y0)) + 1) pts /\
    head pts = Some (x0, y0) /\ last pts = Some (x1, y1).
Proof.
  intros Hf. cbv zeta. destruct (draw_line_run i color m) as (pts & -> & Hp). split; [apply plot_outside; [done|by eapply digital_line_points]|].
  exists pts. split; [done|]. split; [exact Hp|]. pose proof (proj1 Hp) as Hlen. split.
  - destruct pts as [|p pts]; [cbn in Hlen; lia|]. cbn [head]. destruct (proj2 Hp 0%nat p eq_refl) as (a & b & -> & (Ha & Hb & Hd) & Hm). fold dx dy in Ha, Hb, Hd, Hm.
    assert (a = 0 /\ b = 0) as [-> ->]; [|unfold point_of; by rewrite !Z.mul_0_r, !Z.add_0_r].
    unfold major, off_line in *. clearbody dx dy. destruct (Z.leb_spec dy dx); nia.
  - destruct (last pts) as [p|] eqn:El; [|apply last_None in El; subst pts; cbn in Hlen; lia]. f_equal. by apply (line_end_unique (Z.max dx dy) pts).
Qed.
End line.

(** A buffer of no bytes is taken for one of 2^31 by 2^31 pixels. *)
Example usable_wraps : fb_usable (Some (mk_NTBLI 0 0 0 0 0 0 0x1000 0 8 (2 ^ 31) (2 ^ 31) 0 0 0 0 0 0)) = true.
Proof. vm_compute. reflexivity. Qed.

(** A screen of 8 by 8 pixels, and a line that leaves it. *)
Definition ex_screen : NTBLI := mk_NTBLI 0 0 0 0 0 0 0x1000 256 8 8 8 0 0 0 0 0 0.

Lemma line_is_drawn_witness :
  let m' := (draw_line_plus (Some ex_screen) (-1) 0 5 3 0xFF ∅).2 in
  outside_frame ex_screen ∅ m' /\
  exists pts, m' = plot ex_screen 0xFF pts ∅ /\ digital_line (-1) 0 5 3 7 pts /\ head pts = Some (-1, 0) /\ last pts = Some (5, 3).
Proof.
  apply (line_is_drawn (-1) 0 5 3); [lia..|]. split; vm_compute; repeat split; congruence.
Defined.

Example line_pixels :
  let m := (draw_line_plus (Some ex_screen) (-1) 0 5 3 0xFF ∅).2 in
  map (fun p => ldn 4 m (0x1000 + 4 * (p.2 * 8 + p.1))) [(0, 0); (0, 1); (1, 1); (2, 1); (2, 2); (5, 3); (6, 3)] = [0; 0xFF; 0xFF; 0; 0xFF; 0xFF; 0].
Proof. vm_compute. reflexivity. Qed.
End Graphics.

Module Keyboard.

(** [normal]: nxkernel/console/inputs/inputs_base.c:33-39 *)
Definition normal : list Z :=
  [0; 27; 49; 50; 51; 52; 53; 54; 55; 56; 57; 48; 45; 61; 8;
   9; 113; 119; 101; 114; 116; 121; 117; 105; 111; 112; 91; 93; 10;
   0; 97; 115; 100; 102; 103; 104; 106; 107; 108; 59; 39; 96;
   0; 92; 122; 120; 99; 118; 98; 110; 109; 44; 46; 47;
   0; 42; 0; 32] ++ replicate 70 0.

(** [shifted]: nxkernel/console/inputs/inputs_base.c:41-47 *)
Definition shifted : list Z :=
  [0; 27; 33; 64; 35; 36; 37; 94; 38; 42; 40; 41; 95; 43; 8;
   9; 81; 87; 69; 82; 84; 89; 85; 73; 79; 80; 123; 125; 10;
   0; 65; 83; 68; 70; 71; 72; 74; 75; 76; 58; 34; 126;
   0; 124; 90; 88; 67; 86; 66; 78; 77; 60; 62; 63;
   0; 42; 0; 32] ++ replicate 70 0.

(** The file's variables and the port accesses so far. *)
(** [shift_l]: nxkernel/console/inputs/inputs_base.c:24-27 *)
Record kb_st := mk_kb { shift_l : Z; shift_r : Z; caps_lock : Z; extended : Z; kb_events : list port_event }.

Section keyboard.
Context (dev : list port_event -> Z -> Z).
Implicit Types k : kb_st.

Definition kb_inb (port : Z) k : Z * kb_st :=
  (u8 (dev (kb_events k) port), mk_kb (shift_l k) (shift_r k) (caps_lock k) (extended k) (In port :: kb_events k)).

(** Waiting for the next interrupt between the rounds has no effect here; a
    keyboard that stays silent is not read for ever, the model then gives 0. *)
(** [get_scancode]: nxkernel/console/inputs/inputs_base.c:52-69 *)
Definition get_scancode : ST kb_st Z :=
  run 0 (fun (_ : unit) k =>
    let '(st, k) := kb_inb 0x64 k in
    if tst st 1 then let '(sc, k) := kb_inb 0x60 k in (inr sc, k) else (inl tt, k)) tt.

(** [translate]: nxkernel/console/inputs/inputs_base.c:75-93 *)
Definition translate (sc : Z) k : Z :=
  if 128 <=? sc then 0
  else
    let shift := negb (shift_l k =? 0) || negb (shift_r k =? 0) in
    let c := nth (Z.to_nat sc) (if shift then shifted else normal) 0 in
    if negb (caps_lock k =? 0) && (97 <=? c) && (c <=? 122) then u8 (c - 32)
    else if negb (caps_lock k =? 0) && (65 <=? c) && (c <=? 90) then u8 (c + 32)
    else c.

Definition set_shift_l v k : kb_st := mk_kb v (shift_r k) (caps_lock k) (extended k) (kb_events k).
Definition set_shift_r v k : kb_st := mk_kb (shift_l k) v (caps_lock k) (extended k) (kb_events k).
Definition set_caps v k : kb_st := mk_kb (shift_l k) (shift_r k) v (extended k) (kb_events k).
Definition set_extended v k : kb_st := mk_kb (shift_l k) (shift_r k) (caps_lock k) v (kb_events k).

(** What one scan code does: the character, 0 for none. *)
(** [get_char, a round]: nxkernel/console/inputs/inputs_base.c:105-138 *)
Definition key (sc : Z) k : Z * kb_st :=
  if sc =? 0xE0 then (0, set_extended 1 k)
  else if tst sc 0x80 then
    let key := Z.land sc 0x7F in
    let k :=
      if extended k =? 0 then
        let k := if key =? 42 then set_shift_l 0 k else k in
        if key =? 54 then set_shift_r 0 k else k
      else k in
    (0, set_extended 0 k)
  else if (extended k =? 0) && (sc =? 42) then (0, set_shift_l 1 k)
  else if (extended k =? 0) && (sc =? 54) then (0, set_shift_r 1 k)
  else if (extended k =? 0) && (sc =? 58) then (0, set_caps (Z.lxor (caps_lock k) 1) k)
  else
    let c := if negb (extended k =? 0) then 0 else translate sc k in
    (c, set_extended 0 k).

(** [get_char]: nxkernel/console/inputs/inputs_base.c:99-140 *)
Definition get_char : ST kb_st Z :=
  run 0 (fun (_ : unit) k =>
    let '(sc, k) := get_scancode k in
    let '(c, k) := key sc k in
    (if c =? 0 then inl tt else inr c, k)) tt.

(** ** The keys *)

(** Every character is ASCII, and a key that is no character is silent. *)
Lemma translate_ascii sc k : 0 <= sc -> 0 <= translate sc k < 128.
Proof.
  intros Hsc. unfold translate. destruct (Z.leb_spec 128 sc) as [|Hlt]; [lia|]. cbv zeta.
  assert (Ht : forall l : list Z, forallb (fun c => (0 <=? c) && (c <? 128)) l = true -> 0 <= nth (Z.to_nat sc) l 0 < 128).
  { intros l Hl. destruct (nth_in_or_default (Z.to_nat sc) l 0) as [Hin| ->]; [|lia].
    rewrite forallb_forall in Hl. specialize (Hl _ Hin). lia. }
  assert (Hc : 0 <= nth (Z.to_nat sc) (if negb (shift_l k =? 0) || negb (shift_r k =? 0) then shifted else normal) 0 < 128)
    by (case_if; apply Ht; reflexivity).
  revert Hc. generalize (nth (Z.to_nat sc) (if negb (shift_l k =? 0) || negb (shift_r k =? 0) then shifted else normal) 0). intros c Hc.
  case_if; [rewrite uw_small by lia; lia|]. case_if; [rewrite uw_small by lia; lia|]. lia.
Qed.

(** The two tables are tables of the 128 scan codes. *)
Lemma tables_complete : length normal = 128%nat /\ length shifted = 128%nat.
Proof. split; reflexivity. Qed.

Definition flag (b : Z) : Prop := b = 0 \/ b = 1.
Definition flags_ok k : Prop := flag (shift_l k) /\ flag (shift_r k) /\ flag (caps_lock k) /\ flag (extended k).

(** The modifiers stay flags, and only the release of a key of the plain set
    or a press of it changes them. *)
Lemma key_flags sc k : flags_ok k -> flags_ok (key sc k).2 /\ kb_events (key sc k).2 = kb_events k /\
  (extended k <> 0 -> let k' := (key sc k).2 in shift_l k' = shift_l k /\ shift_r k' = shift_r k /\ caps_lock k' = caps_lock k).
Proof.
  intros (Hl & Hr & Hc & He). unfold key, set_shift_l, set_shift_r, set_caps, set_extended, flags_ok.
  assert (Hx : flag (Z.lxor (caps_lock k) 1)) by (destruct Hc as [-> | ->]; [by right|by left]).
  assert (H0 : flag 0) by by left. assert (H1 : flag 1) by by right.
  destruct (sc =? 0xE0); [split_and!; done|]. destruct (tst sc 0x80).
  - destruct (Z.eqb_spec (extended k) 0); repeat case_if; cbn [snd shift_l shift_r caps_lock extended kb_events]; split_and!; done.
  - destruct (Z.eqb_spec (extended k) 0); cbn [andb negb]; repeat case_if; cbn [snd shift_l shift_r caps_lock extended kb_events]; split_and!; done.
Qed.
End keyboard.
End Keyboard.

Module Ata.

(** [ATA_DATA]: drivers/ata/ata.h:10-10 *)
Definition ATA_DATA : Z := 0x1F0.
(** [ATA_SECTOR_COUNT]: drivers/ata/ata.h:13-13 *)
Definition ATA_SECTOR_COUNT : Z := 0x1F2.
(** [ATA_LBA_LOW]: drivers/ata/ata.h:14-14 *)
Definition ATA_LBA_LOW : Z := 0x1F3.
(** [ATA_LBA_MID]: drivers/ata/ata.h:15-15 *)
Definition ATA_LBA_MID : Z := 0x1F4.
(** [ATA_LBA_HIGH]: drivers/ata/ata.h:16-16 *)
Definition ATA_LBA_HIGH : Z := 0x1F5.
(** [ATA_DRIVE_HEAD]: drivers/ata/ata.h:17-17 *)
Definition ATA_DRIVE_HEAD : Z := 0x1F6.
(** [ATA_COMMAND]: drivers/ata/ata.h:18-18 *)
Definition ATA_COMMAND : Z := 0x1F7.
(** [ATA_STATUS]: drivers/ata/ata.h:19-19 *)
Definition ATA_STATUS : Z := 0x1F7.
(** [ATA_CMD_READ_SECTORS]: drivers/ata/ata.h:22-22 *)
Definition ATA_CMD_READ_SECTORS : Z := 0x20.
(** [ATA_CMD_WRITE_SECTORS]: drivers/ata/ata.h:23-23 *)
Definition ATA_CMD_WRITE_SECTORS : Z := 0x30.
(** [ATA_CMD_CACHE_FLUSH]: drivers/ata/ata.h:24-24 *)
Definition ATA_CMD_CACHE_FLUSH : Z := 0xE7.
(** [ATA_STATUS_BSY]: drivers/ata/ata.h:28-28 *)
Definition ATA_STATUS_BSY : Z := 0x80.
(** [ATA_STATUS_RDY]: drivers/ata/ata.h:29-29 *)
Definition ATA_STATUS_RDY : Z := 0x40.
(** [ATA_STATUS_DF]: drivers/ata/ata.h:30-30 *)
Definition ATA_STATUS_DF : Z := 0x20.
(** [ATA_STATUS_DRQ]: drivers/ata/ata.h:31-31 *)
Definition ATA_STATUS_DRQ : Z := 0x08.
(** [ATA_STATUS_ERR]: drivers/ata/ata.h:32-32 *)
Definition ATA_STATUS_ERR : Z := 0x01.
(** [ATA_LBA28_LIMIT]: drivers/ata/ata.h:35-35 *)
Definition ATA_LBA28_LIMIT : Z := 0x10000000.
(** [ATA_SPIN_LIMIT]: drivers/ata/ata.c:19-19 *)
Definition ATA_SPIN_LIMIT : Z := 1000000.

(** The port accesses so far and memory. *)
Record ata_st := mk_ata { at_events : list port_event; at_mem : mem }.

Section ata.
Context (dev : list port_event -> Z -> Z).
Implicit Types s : ata_st.

Definition outb (port value : Z) s : ata_st := mk_ata (Out port (u8 value) :: at_events s) (at_mem s).
(** [outw]: include/lowlevel.h:95-98 *)
Definition outw (port value : Z) s : ata_st := mk_ata (Out port (u16 value) :: at_events s) (at_mem s).
Definition inb (port : Z) s : Z * ata_st := (u8 (dev (at_events s) port), mk_ata (In port :: at_events s) (at_mem s)).
(** [inw]: include/lowlevel.h:76-81 *)
Definition inw (port : Z) s : Z * ata_st := (u16 (dev (at_events s) port), mk_ata (In port :: at_events s) (at_mem s)).

(** [ata_delay_400ns]: drivers/ata/ata.c:22-28 *)
Definition ata_delay_400ns s : ata_st :=
  let s := (inb ATA_STATUS s).2 in
  let s := (inb ATA_STATUS s).2 in
  let s := (inb ATA_STATUS s).2 in
  (inb ATA_STATUS s).2.

(** The shape of the waits: [ready] reads an answer off the status. *)
(** [ATA_SPIN_LIMIT, the loops]: drivers/ata/ata.c:36-45 *)
Definition spin (ready : Z -> option Nerror) : ST ata_st Nerror :=
  run Ntimeout (fun n s =>
    if n <? ATA_SPIN_LIMIT then
      let '(status, s) := inb ATA_STATUS s in
      match ready status with Some r => (inr r, s) | None => (inl (n + 1), s) end
    else (inr Ntimeout, s)) 0.

(** [ata_wait_ready]: drivers/ata/ata.c:31-46 *)
Definition ata_wait_ready : ST ata_st Nerror := spin (fun status =>
  if status =? 0xFF then Some NdeviceMissing
  else if negb (tst status ATA_STATUS_BSY) && tst status ATA_STATUS_RDY then Some Nok else None).

(** [ata_wait_drq]: drivers/ata/ata.c:49-64 *)
Definition ata_wait_drq : ST ata_st Nerror := spin (fun status =>
  if tst status (Z.lor ATA_STATUS_ERR ATA_STATUS_DF) then Some Nio
  else if negb (tst status ATA_STATUS_BSY) && tst status ATA_STATUS_DRQ then Some Nok else None).

(** [ata_wait_not_busy]: drivers/ata/ata.c:67-77 *)
Definition ata_wait_not_busy : ST ata_st Nerror := spin (fun status =>
  if negb (tst status ATA_STATUS_BSY) then Some Nok else None).

(** [ata_select_drive]: drivers/ata/ata.c:80-86 *)
Definition ata_select_drive (lba : Z) s : ata_st :=
  let drive := u8 (Z.lor 0xE0 (Z.land (Z.shiftr lba 24) 0x0F)) in
  ata_delay_400ns (outb ATA_DRIVE_HEAD drive s).

(** [ata_setup_transfer]: drivers/ata/ata.c:88-95 *)
Definition ata_setup_transfer (lba : Z) s : ata_st :=
  let s := ata_select_drive lba s in
  let s := outb ATA_SECTOR_COUNT 1 s in
  let s := outb ATA_LBA_LOW (Z.land lba 0xFF) s in
  let s := outb ATA_LBA_MID (Z.land (Z.shiftr lba 8) 0xFF) s in
  outb ATA_LBA_HIGH (Z.land (Z.shiftr lba 16) 0xFF) s.

(** [buf[i] = inw(ATA_DATA)] *)
Definition read_word (buffer i : Z) s : ata_st :=
  let '(w, s) := inw ATA_DATA s in mk_ata (at_events s) (stn 2 (buffer + 2 * i) w (at_mem s)).

(** [ata_read_sector]: drivers/ata/ata.c:97-125 *)
Definition ata_read_sector (lba buffer : Z) : ST ata_st Nerror := fun s =>
  if (buffer =? 0) || negb (Z.land buffer 1 =? 0) then (NinvalidArg, s)
  else if ATA_LBA28_LIMIT <=? lba then (NinvalidArg, s)
  else
    let s := ata_delay_400ns (outb ATA_COMMAND ATA_CMD_READ_SECTORS (ata_setup_transfer lba s)) in
    let '(status, s) := ata_wait_ready s in
    if is_err status then (status, s)
    else
      let '(status, s) := ata_wait_drq s in
      if is_err status then (status, s)
      else (Nok, for_range 0 256 (read_word buffer) s).

(** [ata_write_sector]: drivers/ata/ata.c:127-166 *)
Definition ata_write_sector (lba buffer : Z) : ST ata_st Nerror := fun s =>
  if (buffer =? 0) || negb (Z.land buffer 1 =? 0) then (NinvalidArg, s)
  else if ATA_LBA28_LIMIT <=? lba then (NinvalidArg, s)
  else
    let s := ata_delay_400ns (outb ATA_COMMAND ATA_CMD_WRITE_SECTORS (ata_setup_transfer lba s)) in
    let '(status, s) := ata_wait_ready s in
    if is_err status then (status, s)
    else
      let '(status, s) := ata_wait_drq s in
      if is_err status then (status, s)
      else
        let s := for_range 0 256 (fun i s => outw ATA_DATA (ldn 2 (at_mem s) (buffer + 2 * i)) s) s in
        let s := ata_delay_400ns (outb ATA_COMMAND ATA_CMD_CACHE_FLUSH s) in
        let '(status, s) := ata_wait_not_busy s in
        if is_err status then (status, s)
        else
          let '(st, s) := inb ATA_STATUS s in
          if tst st (Z.lor ATA_STATUS_ERR ATA_STATUS_DF) then (Nio, s) else (Nok, s).

(** ** What the drive is told

    The writes to ports in a history, the first one first. *)
Definition outs s : list (Z * Z) :=
  omap (fun e => match e with Out port v => Some (port, v) | In _ => None end) (rev (at_events s)).

(** Selecting a sector, and a command. *)
Definition setup_outs (lba cmd : Z) : list (Z * Z) :=
  [(ATA_DRIVE_HEAD, 0xE0 + lba / 2 ^ 24); (ATA_SECTOR_COUNT, 1); (ATA_LBA_LOW, lba mod 256); (ATA_LBA_MID, lba / 256 mod 256);
   (ATA_LBA_HIGH, lba / 65536 mod 256); (ATA_COMMAND, cmd)].

Lemma outs_out port v es m : outs (mk_ata (Out port v :: es) m) = outs (mk_ata es m) ++ [(port, v)].
Proof. unfold outs. cbn [at_events rev]. by rewrite omap_app. Qed.
Lemma outs_in port es m : outs (mk_ata (In port :: es) m) = outs (mk_ata es m).
Proof. unfold outs. cbn [at_events rev]. by rewrite omap_app, app_nil_r. Qed.

Lemma delay_outs s : outs (ata_delay_400ns s) = outs s /\ at_mem (ata_delay_400ns s) = at_mem s.
Proof. unfold ata_delay_400ns, inb. cbn [at_events at_mem snd]. rewrite !outs_in. by destruct s. Qed.

Lemma outb_outs port v s : 0 <= v < 256 -> outs (outb port v s) = outs s ++ [(port, v)].
Proof. intros Hv. unfold outb. rewrite outs_out, uw_small by lia. by destruct s. Qed.
Lemma outb_mem port v s : at_mem (outb port v s) = at_mem s.
Proof. done. Qed.

(** The waits read the status and nothing else, a bounded number of times. *)
Lemma spin_spec ready s : wp (spin ready) (fun st s' => outs s' = outs s /\ at_mem s' = at_mem s /\
  (length (at_events s') <= length (at_events s) + Z.to_nat ATA_SPIN_LIMIT)%nat) s.
Proof.
  unfold spin. apply (wp_loop _ _ (fun k n s' => outs s' = outs s /\ at_mem s' = at_mem s /\ 0 <= n <= ATA_SPIN_LIMIT /\ k = ATA_SPIN_LIMIT - n /\
    length (at_events s') = (length (at_events s) + Z.to_nat n)%nat) _ ATA_SPIN_LIMIT); [split_and!; try done; lia|done|].
  intros k n s1 (Ho & Hm & Hn & -> & Hl). unfold wp. case_if; [|split_and!; try done; lia]. unfold inb.
  destruct (ready _) as [r|].
  - rewrite outs_in. cbn [at_events at_mem length]. destruct s1. split_and!; try done. lia.
  - exists (ATA_SPIN_LIMIT - (n + 1)). split; [|lia]. rewrite outs_in. cbn [at_events at_mem length]. destruct s1. cbn [at_events at_mem] in *. split_and!; try done; lia.
Qed.

Lemma command_spec lba cmd s : 0 <= lba < ATA_LBA28_LIMIT -> 0 <= cmd < 256 ->
  let s' := ata_delay_400ns (outb ATA_COMMAND cmd (ata_setup_transfer lba s)) in
  outs s' = outs s ++ setup_outs lba cmd /\ at_mem s' = at_mem s.
Proof.
  intros Hl Hc. cbv zeta. unfold ATA_LBA28_LIMIT in Hl.
  assert (Hb : forall k, 0 <= k -> Z.land (Z.shiftr lba k) 0xFF = lba / 2 ^ k mod 256) by (intros k Hk; by rewrite Z.shiftr_div_pow2, (land_ones_mod _ 8) by lia).
  assert (Hm : forall v, 0 <= v mod 256 < 256) by (intros v; apply Z.mod_pos_bound; lia).
  assert (Hhead : u8 (Z.lor 0xE0 (Z.land (Z.shiftr lba 24) 0x0F)) = 0xE0 + lba / 2 ^ 24).
  { rewrite Z.shiftr_div_pow2, (land_ones_mod _ 4) by lia. assert (Hd : 0 <= lba / 2 ^ 24 < 16) by (split; [apply Z.div_pos; lia|apply Z.div_lt_upper_bound; lia]).
    rewrite (Z.mod_small _ (2 ^ 4)) by done. generalize dependent (lba / 2 ^ 24). intros h Hh.
    assert (h = 0 \/ h = 1 \/ h = 2 \/ h = 3 \/ h = 4 \/ h = 5 \/ h = 6 \/ h = 7 \/ h = 8 \/ h = 9 \/ h = 10 \/ h = 11 \/ h = 12 \/ h = 13 \/ h = 14 \/ h = 15) as Hc' by lia.
    by repeat destruct Hc' as [-> | Hc']; subst. }
  destruct (delay_outs (outb ATA_COMMAND cmd (ata_setup_transfer lba s))) as [-> ->]. unfold ata_setup_transfer, ata_select_drive. cbv zeta. rewrite Hhead.
  replace (Z.land lba 0xFF) with (lba mod 256) by (change 0xFF with (2 ^ 8 - 1); by rewrite land_ones_mod). rewrite !Hb by lia. change (2 ^ 8) with 256. change (2 ^ 16) with 65536.
  assert (Hd : 0 <= 0xE0 + lba / 2 ^ 24 < 256) by (assert (0 <= lba / 2 ^ 24 < 16) by (split; [apply Z.div_pos; lia|apply Z.div_lt_upper_bound; lia]); lia).
  rewrite !outb_mem. do 5 (rewrite outb_outs by first [exact Hc|apply Hm|lia]).
  destruct (delay_outs (outb ATA_DRIVE_HEAD (0xE0 + lba / 2 ^ 24) s)) as [-> ->]. rewrite (outb_outs _ _ _ Hd), outb_mem.
  split; [|done]. by rewrite <- !app_assoc.
Qed.
Definition good_args (lba buffer : Z) : Prop := 0 <= lba < ATA_LBA28_LIMIT /\ buffer <> 0 /\ Z.land buffer 1 = 0.

Lemma args_guard {A} lba buffer (x y : A) : good_args lba buffer ->
  (if (buffer =? 0) || negb (Z.land buffer 1 =? 0) then x else if ATA_LBA28_LIMIT <=? lba then x else y) = y.
Proof. intros (Hl & Hb & He). rewrite He, (proj2 (Z.eqb_neq _ _) Hb), (proj2 (Z.leb_gt _ _)) by lia. reflexivity. Qed.

(** Arguments that are not good are refused before anything is said. *)
Lemma ata_bad_args lba buffer s : 0 <= lba -> ~ good_args lba buffer ->
  ata_read_sector lba buffer s = (NinvalidArg, s) /\ ata_write_sector lba buffer s = (NinvalidArg, s).
Proof.
  intros Hl Hn. unfold ata_read_sector, ata_write_sector. destruct ((_ || _)) eqn:E1; [done|].
  destruct (Z.leb_spec ATA_LBA28_LIMIT lba); [done|]. destruct Hn. apply orb_false_elim in E1 as [E1 E2]. apply Z.eqb_neq in E1.
  apply negb_false_iff, Z.eqb_eq in E2. split; [lia|done].
Qed.

(** The words of a sector in memory, and what sends them. *)
Definition words_at (m : mem) (buffer n : Z) : list Z := map (fun i => ldn 2 m (buffer + 2 * i)) (seqZ 0 n).
Definition data_outs (m : mem) (buffer n : Z) : list (Z * Z) := map (fun w => (ATA_DATA, w)) (words_at m buffer n).

Lemma send_words buffer s :
  let s' := for_range 0 256 (fun i s => outw ATA_DATA (ldn 2 (at_mem s) (buffer + 2 * i)) s) s in
  outs s' = outs s ++ data_outs (at_mem s) buffer 256 /\ at_mem s' = at_mem s.
Proof.
  cbv zeta. apply (for_range_rule (fun j s' => outs s' = outs s ++ data_outs (at_mem s) buffer j /\ at_mem s' = at_mem s)); [lia| |].
  - unfold data_outs, words_at. cbn [seqZ map]. by rewrite app_nil_r.
  - intros j s1 Hj [Ho Hm]. unfold outw. rewrite outs_out, Hm. cbn [at_mem]. split; [|done].
    replace (outs (mk_ata (at_events s1) (at_mem s))) with (outs s1) by (destruct s1; done). rewrite Ho, <- app_assoc. f_equal.
    unfold data_outs, words_at. rewrite (seqZ_app 0 j 1), !map_app by lia. rewrite Z.add_0_l. change (seqZ j 1) with [j]. cbn [map]. do 3 f_equal. apply uw_small, (ldn_range 2).
Qed.

(** Sending a command and waiting for the drive to ask for data. *)
Lemma request_spec lba cmd (k : ST ata_st Nerror) s (Q : Nerror -> ata_st -> Prop) : 0 <= lba < ATA_LBA28_LIMIT -> 0 <= cmd < 256 ->
  (forall st s', is_err st = true -> outs s' = outs s ++ setup_outs lba cmd -> at_mem s' = at_mem s -> Q st s') ->
  (forall s', outs s' = outs s ++ setup_outs lba cmd -> at_mem s' = at_mem s -> wp k Q s') ->
  wp (fun s => let s := ata_delay_400ns (outb ATA_COMMAND cmd (ata_setup_transfer lba s)) in
    let '(status, s) := ata_wait_ready s in
    if is_err status then (status, s)
    else let '(status, s) := ata_wait_drq s in if is_err status then (status, s) else k s) Q s.
Proof.
  intros Hl Hc Herr Hk. unfold wp at 1. destruct (command_spec lba cmd s Hl Hc) as [Ho Hm]. cbv zeta. set (s1 := ata_delay_400ns _) in *. clearbody s1.
  pose proof (spin_spec (fun status => if status =? 0xFF then Some NdeviceMissing
    else if negb (tst status ATA_STATUS_BSY) && tst status ATA_STATUS_RDY then Some Nok else None) s1) as H1.
  unfold ata_wait_ready. unfold wp in H1. destruct (spin _ s1) as [st2 s2]. destruct H1 as (Ho2 & Hm2 & _). rewrite Ho in Ho2. rewrite Hm in Hm2.
  destruct (is_err st2) eqn:E2; [by apply Herr|].
  pose proof (spin_spec (fun status => if tst status (Z.lor ATA_STATUS_ERR ATA_STATUS_DF) then Some Nio
    else if negb (tst status ATA_STATUS_BSY) && tst status ATA_STATUS_DRQ then Some Nok else None) s2) as H2.
  unfold ata_wait_drq. unfold wp in H2. destruct (spin _ s2) as [st3 s3]. destruct H2 as (Ho3 & Hm3 & _). rewrite Ho2 in Ho3. rewrite Hm2 in Hm3.
  destruct (is_err st3) eqn:E3; [by apply Herr|]. by apply Hk.
Qed.

(** The write sends the 256 words of the buffer to the sector the four
    address bytes name, then flushes the drive's cache; success means all of
    it was sent and the drive reports neither error nor fault. *)
Lemma ata_write_run lba buffer s : good_args lba buffer ->
  wp (ata_write_sector lba buffer) (fun st s' => at_mem s' = at_mem s /\ exists rest,
    outs s' = outs s ++ setup_outs lba ATA_CMD_WRITE_SECTORS ++ rest /\
    (rest = [] /\ is_err st = true \/ rest = data_outs (at_mem s) buffer 256 ++ [(ATA_COMMAND, ATA_CMD_CACHE_FLUSH)])) s.
Proof.
  intros Hg. unfold ata_write_sector, wp. rewrite args_guard by exact Hg. destruct Hg as (Hl & _).
  apply (request_spec lba ATA_CMD_WRITE_SECTORS (fun s =>
    let s := for_range 0 256 (fun i s => outw ATA_DATA (ldn 2 (at_mem s) (buffer + 2 * i)) s) s in
    let s := ata_delay_400ns (outb ATA_COMMAND ATA_CMD_CACHE_FLUSH s) in
    let '(status, s) := ata_wait_not_busy s in
    if is_err status then (status, s)
    else let '(st, s) := inb ATA_STATUS s in if tst st (Z.lor ATA_STATUS_ERR ATA_STATUS_DF) then (Nio, s) else (Nok, s))); [exact Hl|easy| |].
  - intros st s' He Ho Hm. split; [exact Hm|]. exists []. rewrite app_nil_r. split; [exact Ho|by left].
  - intros s1 Ho Hm. unfold wp. destruct (send_words buffer s1) as [Ho2 Hm2]. set (s2 := for_range _ _ _ _) in *. clearbody s2.
    destruct (delay_outs (outb ATA_COMMAND ATA_CMD_CACHE_FLUSH s2)) as [Ho3 Hm3]. rewrite outb_outs in Ho3 by easy. rewrite outb_mem in Hm3.
    set (s3 := ata_delay_400ns _) in *. clearbody s3. cbv zeta.
    pose proof (spin_spec (fun status => if negb (tst status ATA_STATUS_BSY) then Some Nok else None) s3) as H4. unfold ata_wait_not_busy.
    unfold wp in H4. destruct (spin _ s3) as [st4 s4]. destruct H4 as (Ho4 & Hm4 & _).
    assert (Hall : outs s4 = outs s ++ setup_outs lba ATA_CMD_WRITE_SECTORS ++ data_outs (at_mem s) buffer 256 ++ [(ATA_COMMAND, ATA_CMD_CACHE_FLUSH)])
      by (rewrite Ho4, Ho3, Ho2, Ho, Hm, <- !app_assoc; reflexivity).
    assert (Hmm : at_mem s4 = at_mem s) by congruence.
    destruct (is_err st4); [|unfold inb; destruct (tst _ _)]; (split; [exact Hmm|]); eexists; (split; [|by right]); [exact Hall|rewrite outs_in..]; destruct s4; exact Hall.
Qed.

(** The words the drive gives: what it answers to read [i] of the data port. *)
Definition given (es : list port_event) (i : nat) : Z := u16 (dev (replicate i (In ATA_DATA) ++ es) ATA_DATA).

Lemma receive_words buffer s :
  let s' := for_range 0 256 (read_word buffer) s in
  at_events s' = replicate 256 (In ATA_DATA) ++ at_events s /\
  (forall i, (i < 256)%nat -> ldn 2 (at_mem s') (buffer + 2 * Z.of_nat i) = given (at_events s) i) /\
  (forall a, ~ (buffer <= a < buffer + 512) -> ld8 (at_mem s') a = ld8 (at_mem s) a).
Proof.
  cbv zeta. change 256%nat with (Z.to_nat 256).
  apply (for_range_rule (fun j s' => at_events s' = replicate (Z.to_nat j) (In ATA_DATA) ++ at_events s /\
    (forall i, (i < Z.to_nat j)%nat -> ldn 2 (at_mem s') (buffer + 2 * Z.of_nat i) = given (at_events s) i) /\
    (forall a, ~ (buffer <= a < buffer + 512) -> ld8 (at_mem s') a = ld8 (at_mem s) a))); [lia|split_and!; [done|lia|done]|].
  intros j s1 Hj (He & Hw & Ho). unfold read_word, inw. cbn [at_events at_mem]. replace (Z.to_nat (j + 1)) with (Datatypes.S (Z.to_nat j)) by lia. split_and!.
  - by rewrite He.
  - intros i Hi. destruct (decide (i = Z.to_nat j)) as [->|].
    + rewrite Z2Nat.id by lia. rewrite (ldn_stn_same 2). rewrite He. unfold given. apply (uw_small 16), uw_range. lia.
    + rewrite (ldn_stn_other 2 2) by lia. apply Hw. lia.
  - intros a Ha. rewrite ld8_stn. case_if; [lia|by apply Ho].
Qed.

(** The read fills the buffer with the words the drive gives, in order, and
    nothing else; on failure memory is as it was. *)
Lemma ata_read_run lba buffer s : good_args lba buffer ->
  wp (ata_read_sector lba buffer) (fun st s' => outs s' = outs s ++ setup_outs lba ATA_CMD_READ_SECTORS /\
    (is_err st = true /\ at_mem s' = at_mem s \/ st = Nok /\ exists es, at_events s' = replicate 256 (In ATA_DATA) ++ es /\
      (forall i, (i < 256)%nat -> ldn 2 (at_mem s') (buffer + 2 * Z.of_nat i) = given es i) /\
      (forall a, ~ (buffer <= a < buffer + 512) -> ld8 (at_mem s') a = ld8 (at_mem s) a))) s.
Proof.
  intros Hg. unfold ata_read_sector, wp. rewrite args_guard by exact Hg. destruct Hg as (Hl & _).
  apply (request_spec lba ATA_CMD_READ_SECTORS (fun s => (Nok, for_range 0 256 (read_word buffer) s))); [exact Hl|easy| |].
  - intros st s' He Ho Hm. split; [exact Ho|by left].
  - intros s1 Ho Hm. unfold wp. destruct (receive_words buffer s1) as (He & Hw & Hout). set (s2 := for_range _ _ _ _) in *. clearbody s2. split.
    + rewrite <- Ho. unfold outs. rewrite He, rev_app_distr, omap_app.
      assert (Hn : forall n, omap (fun e => match e with Out port v => Some (port, v) | In _ => None end) (rev (replicate n (In ATA_DATA))) = []).
      { induction n as [|n IH]; [done|]. cbn [replicate rev]. rewrite omap_app, IH. done. }
      rewrite Hn. apply app_nil_r.
    + right. split; [done|]. exists (at_events s1). split; [exact He|]. split; [exact Hw|]. rewrite <- Hm. exact Hout.
Qed.
End ata.
End Ata.
