(* ===== verification/Start.v ===== *)
(** * The start of the kernel: [nxkernel/kernel/kernel.c]

    The first half of [kernel_main]: the boot information of either loader, the
    processor's tables, the kernel's page tables and the frame allocator, one
    after the other on the same memory.  Before [paging_enable] the loader's
    tables map the low addresses, at which its structures are read; what a
    record at such an address holds is what memory holds there. *)

From Stdlib Require Import String.
From S2P Require Import Prelude Types Loops Mem Memory BootInfo FrameAlloc Pfa Multiboot MultibootProps Paging PagingSpec AddrSpace Process Printk Pic Gdt Syscall Interrupt PagingBoot.

(** [BOOT_KIND_UEFI]: nxkernel/kernel/boot/multiboot2.h:13-13 *)
Definition BOOT_KIND_UEFI : Z := 1.
(** [BOOT_KIND_MULTIBOOT2]: nxkernel/kernel/boot/multiboot2.h:14-14 *)
Definition BOOT_KIND_MULTIBOOT2 : Z := 2.
(** [MEMMAP_STORE_SIZE]: nxkernel/kernel/kernel.c:52-52 *)
Definition MEMMAP_STORE_SIZE : Z := 65536.

(** The processor's tables, with [g_cpu_local.kernel_rsp], the operands of
    [lgdt] and [lidt], and the model-specific registers written so far. *)
Record cpu_tables := mk_tables {
  t_gdt : list Z;
  t_tss : tss64;
  t_kernel_rsp : Z;
  t_idt : list idt_entry * list Z;
  t_operands : list (Z * Z);
  t_msrs : list (Z * Z);
  t_pic : pic_st;
}.

(** Addresses the linker chooses. *)
Record addresses := mk_addresses {
  a_gdt : Z; a_tss : Z; a_df_stack : Z; a_nmi_stack : Z; a_mce_stack : Z; a_idt : Z; a_isr_stub : Z -> Z;
  a_syscall_entry : Z; a_cpu_local : Z; boot_stack_top : Z; g_memmap_store : Z;
}.

(** The variables of the file, and the parts it starts; memory is the one of
    [kn_paging]. *)
(** [g_boot_info]: nxkernel/kernel/kernel.c:48-49 *)
Record kernel_st := mk_kernel {
  g_boot_info : NTBLI;
  g_boot_info_valid : bool;
  kn_paging : boot;
  kn_cpu : cpu;
  kn_tables : cpu_tables;
  kn_pfa : pfa_st;
  kn_con : console;
}.

Implicit Types (k : kernel_st) (i : NTBLI).

Definition with_info i k : kernel_st := mk_kernel i (g_boot_info_valid k) (kn_paging k) (kn_cpu k) (kn_tables k) (kn_pfa k) (kn_con k).
Definition with_paging b k : kernel_st := mk_kernel (g_boot_info k) (g_boot_info_valid k) b (kn_cpu k) (kn_tables k) (kn_pfa k) (kn_con k).
Definition with_cpu c k : kernel_st := mk_kernel (g_boot_info k) (g_boot_info_valid k) (kn_paging k) c (kn_tables k) (kn_pfa k) (kn_con k).
Definition with_cpu_tables t k : kernel_st := mk_kernel (g_boot_info k) (g_boot_info_valid k) (kn_paging k) (kn_cpu k) t (kn_pfa k) (kn_con k).
Definition with_pfa f k : kernel_st := mk_kernel (g_boot_info k) (g_boot_info_valid k) (kn_paging k) (kn_cpu k) (kn_tables k) f (kn_con k).
Definition with_kcon c k : kernel_st := mk_kernel (g_boot_info k) (g_boot_info_valid k) (kn_paging k) (kn_cpu k) (kn_tables k) (kn_pfa k) c.
Definition set_valid k : kernel_st := mk_kernel (g_boot_info k) true (kn_paging k) (kn_cpu k) (kn_tables k) (kn_pfa k) (kn_con k).
Definition kmem k : mem := b_mem (kn_paging k).
Definition with_kmem m k : kernel_st := with_paging (with_bmem m (kn_paging k)) k.

(** The record at an address: its fields at their offsets. *)
(** [NTBLI]: include/types.h:197-227 *)
Definition ld_NTBLI (m : mem) (a : Z) : NTBLI :=
  mk_NTBLI (ld32 m a) (ld32 m (a + 4)) (ld32 m (a + 8)) (ld64 m (a + 16)) (ld64 m (a + 24)) (ld64 m (a + 32)) (ld64 m (a + 40))
    (ld64 m (a + 48)) (ld32 m (a + 56)) (ld32 m (a + 60)) (ld32 m (a + 64)) (ld32 m (a + 68)) (ld64 m (a + 72)) (ld64 m (a + 80))
    (ld64 m (a + 88)) (ld32 m (a + 96)) (ld64 m (a + 104)).

Section start.
Context (cpuid_count : Z -> Z -> Z * Z * Z * Z) (y : symbols) (ad : addresses) (serial_probe : Z).

(** [get_kernel_info]: nxkernel/kernel/kernel.c:65-68 *)
Definition get_kernel_info k : option NTBLI := if g_boot_info_valid k then Some (g_boot_info k) else None.

(** It does not return. *)
(** [fatal]: nxkernel/kernel/kernel.c:71-75 *)
Definition fatal (error : Nerror) (message : list Z) k : res unit * kernel_st :=
  (Err error, with_kcon (kernel_panic_simple (Some message) error
    (say ((text "Kernel error: %s : %r") ++ nl)%list [AStr (Some message); ANum (status error)] (kn_con k))).2 k).

(** [boot_info_sanitize_initrd]: nxkernel/kernel/kernel.c:78-93 *)
Definition boot_info_sanitize_initrd i : NTBLI :=
  if (initrd_base i =? 0) && (initrd_size i =? 0) then i
  else
    let end_ := u64 (initrd_base i + initrd_size i) in
    if (initrd_base i =? 0) || (initrd_size i =? 0) || (end_ <? initrd_base i) ||
       (negb (memory_size i =? 0) && (memory_size i <? end_))
    then set_initrd 0 0 i else i.

(** [boot_info_from_uefi]: nxkernel/kernel/kernel.c:96-125 *)
Definition boot_info_from_uefi (in_ : Z) : ST kernel_st Nerror := fun k =>
  let m := kmem k in
  if in_ =? 0 then (NnullPointer, k)
  else if negb (Z.land in_ 7 =? 0) then (NinvalidPointer, k)
  else if negb (magic (ld_NTBLI m in_) =? NTBLI_MAGIC) then (NinvalidFormat, k)
  else if negb (version (ld_NTBLI m in_) =? NTBLI_VERSION) then (Nunsupported, k)
  else if negb (ntbli_size (ld_NTBLI m in_) =? sizeof_NTBLI) then (NinvalidFormat, k)
  else
    let i := ld_NTBLI m in_ in
    if negb (memmap_base i =? 0) && negb (memmap_size i =? 0) && (memmap_size i <=? MEMMAP_STORE_SIZE) then
      (Nok, with_kmem (memcpy (g_memmap_store ad) (memmap_base i) (memmap_size i) m)
              (with_info (set_memmap (g_memmap_store ad) (memmap_size i) (memmap_desc_size i) (memmap_desc_version i) i) k))
    else (Nok, with_info (set_memmap 0 0 (memmap_desc_size i) (memmap_desc_version i) i) k).

(** [boot_info_relocate]: nxkernel/kernel/kernel.c:128-136 *)
Definition boot_info_relocate i : NTBLI :=
  let i := if negb (initrd_base i =? 0) then set_initrd (phys_to_virt (initrd_base i)) (initrd_size i) i else i in
  let i := if negb (framebuffer_base i =? 0)
           then set_framebuffer (phys_to_virt (framebuffer_base i)) (framebuffer_size i) (width i) (height i) (pixels_per_scan_line i) (pixel_format i) i
           else i in
  if negb (Rsdp i =? 0) then set_Rsdp (phys_to_virt (Rsdp i)) i else i.

(** [console_init_from_boot_info]: nxkernel/kernel/kernel.c:139-172 *)
Definition console_init_from_boot_info i (c : console) : console :=
  if framebuffer_base i =? 0 then say ((text "No framebuffer: using serial console only") ++ nl)%list [] c
  else if negb (pixel_format i =? NTBLI_PIXEL_RGB) && negb (pixel_format i =? NTBLI_PIXEL_BGR) then
    say ((text "Unsupported pixel format %u: framebuffer console disabled") ++ nl)%list [ANum (pixel_format i)] c
  else if negb (Z.land (framebuffer_base i) 3 =? 0) then say ((text "Misaligned framebuffer: framebuffer console disabled") ++ nl)%list [] c
  else
    let needed := u64 (u64 (pixels_per_scan_line i * height i) * 4) in
    if framebuffer_size i <? needed then say ((text "Framebuffer size mismatch: framebuffer console disabled") ++ nl)%list [] c
    else
      let '(st, c) := printk_init (framebuffer_base i) (pixels_per_scan_line i) (width i) (height i) c in
      if is_err st then say ((text "Framebuffer console init failed (%r): serial only") ++ nl)%list [ANum (status st)] c else c.

(** The boot information, from either loader. *)
(** [kernel_main, step 2]: nxkernel/kernel/kernel.c:425-437 *)
Definition start_info (boot_kind boot_info_phys : Z) : ST kernel_st (res unit) := fun k =>
  let '(st, k) :=
    if boot_kind =? BOOT_KIND_UEFI then boot_info_from_uefi boot_info_phys k
    else if boot_kind =? BOOT_KIND_MULTIBOOT2 then
      let '(st, (i, m)) := multiboot2_to_ntbli boot_info_phys (g_memmap_store ad) MEMMAP_STORE_SIZE (g_boot_info k, kmem k) in
      (st, with_kmem m (with_info i k))
    else (Nunsupported, k) in
  if is_err st then
    (Err st, with_kcon (kernel_panic_simple (Some (text "Invalid boot info")) st
      (say ((text "Invalid boot info (kind %u): %r") ++ nl)%list [ANum boot_kind; ANum (status st)] (kn_con k))).2 k)
  else (Ok tt, set_valid (with_info (boot_info_sanitize_initrd (g_boot_info k)) k)).

(** The processor's tables; a write to a model-specific register other than
    [EFER] is recorded. *)
(** [kernel_main, step 3]: nxkernel/kernel/kernel.c:440-446 *)
Definition start_cpu k : kernel_st :=
  let t := kn_tables k in
  let '(gdt, tss, lgdt) := gdt_init (a_gdt ad) (a_tss ad) (a_df_stack ad) (a_nmi_stack ad) (a_mce_stack ad) (t_gdt t) in
  let '(tss, rsp) := gdt_set_kernel_stack (boot_stack_top ad) (tss, t_kernel_rsp t) in
  let '(idt, lidt) := interrupt_init (a_isr_stub ad) (a_idt ad) (t_idt t) in
  let pic := pic_remap VEC_IRQ_BASE (VEC_IRQ_BASE + 8) (t_pic t) in
  let '(max_leaf, _, _, _) := cpuid_count 0x80000000 0 in
  let '(_, _, _, features) := cpuid_count 0x80000001 0 in
  let '(st, msrs) := syscall_init max_leaf features (msr_efer (kn_cpu k)) (a_syscall_entry ad) (a_cpu_local ad) in
  let efer := fold_left (fun efer '(msr, v) => if msr =? 0xC0000080 then v else efer) msrs (msr_efer (kn_cpu k)) in
  let k := with_cpu_tables (mk_tables gdt tss rsp idt [lgdt; lidt] msrs pic) k in
  let k := with_cpu (mk_cpu efer (cr0 (kn_cpu k)) (cr4 (kn_cpu k)) (cr3 (kn_cpu k))) k in
  if is_err st then with_kcon (say ((text "syscall/sysret unavailable (%r): int 0x80 only") ++ nl)%list [ANum (status st)] (kn_con k)) k else k.

(** The kernel's own tables. *)
(** [kernel_main, step 4]: nxkernel/kernel/kernel.c:449-453 *)
Definition start_paging : ST kernel_st (res unit) := fun k =>
  match paging_init cpuid_count y (Some (g_boot_info k)) (kn_paging k) with
  | (Err st, b) => fatal st (text "Paging init failed") (with_paging b k)
  | (Ok _, b) =>
      let k := with_cpu (paging_enable b (kn_cpu k)) (with_paging b k) in
      (Ok tt, with_info (boot_info_relocate (g_boot_info k)) k)
  end.

(** The ranges the frame allocator is given. *)
(** [kernel_main, step 4.5]: nxkernel/kernel/kernel.c:460-466 *)
Definition start_ranges (b : boot) i : pfa_ranges :=
  let initrd_phys_start := if negb (initrd_base i =? 0) then virt_to_phys (initrd_base i) else 0 in
  mk_ranges (boot_start y) (Z.land (u64 (u64 (kernel_end y - KERNEL_VMA_BASE) + (PAGE_SIZE - 1))) (unot 64 (PAGE_SIZE - 1)))
    initrd_phys_start (if negb (initrd_base i =? 0) then u64 (initrd_phys_start + initrd_size i) else 0) (paging_hhdm_limit b).

(** [kernel_main, step 4.5]: nxkernel/kernel/kernel.c:460-469 *)
Definition start_frames : ST kernel_st (res unit) := fun k =>
  let '(st, f) := pfa_init (Some (g_boot_info k)) (start_ranges (kn_paging k) (g_boot_info k)) (pfa_set_mem (kmem k) (kn_pfa k)) in
  let k := with_pfa f (with_kmem (pfa_mem f) k) in
  if is_err st then fatal st (text "Physical frame allocator init failed") k else (Ok tt, k).

(** All of it; the interrupt flag is not modelled. *)
(** [kernel_main, to the frame allocator]: nxkernel/kernel/kernel.c:415-469 *)
Definition start_memory (boot_kind boot_info_phys : Z) : ST kernel_st (res unit) := fun k =>
  (_ <-? start_info boot_kind boot_info_phys ;;
   fun k =>
     (_ <-? start_paging ;;
      start_frames) (start_cpu k)) (with_kcon (serial_init serial_probe (kn_con k)).2 k).
End start.

(** ** The frame allocator writes below the image *)

Lemma push_high p s a : frame_ok p -> KERNEL_VMA_BASE <= a -> ld8 (pfa_mem (push_free_locked p s)) a = ld8 (pfa_mem s) a.
Proof.
  intros Hp Ha. unfold push_free_locked. cbn [pfa_mem]. rewrite (frame_virt p Hp), ld8_stn. case_if; [|done].
  destruct Hp as (_ & _ & Hp). unfold PAGE_SIZE, PHYS_LIMIT, KERNEL_VMA_BASE, HHDM_BASE in *. lia.
Qed.

Lemma push_all_high ps s a : Forall frame_ok ps -> KERNEL_VMA_BASE <= a ->
  ld8 (pfa_mem (fold_left (fun s p => push_free_locked p s) ps s)) a = ld8 (pfa_mem s) a.
Proof.
  intros Hp Ha. revert s. induction Hp as [|p ps Hp _ IH]; intros s; [done|]. cbn [fold_left]. by rewrite IH, push_high.
Qed.

Lemma pfa_init_high i r s st s' a : 0 <= hhdm_limit r <= PHYS_LIMIT -> KERNEL_VMA_BASE <= a -> pfa_init (Some i) r s = (st, s') ->
  ld8 (pfa_mem s') a = ld8 (pfa_mem s) a.
Proof.
  intros Hlim Ha. unfold pfa_init. case_if; [by intros [= _ <-]|]. intros [= _ <-]. cbn [pfa_mem].
  assert (Hl : forall idx s, ld8 (pfa_mem (pfa_init_loop i r idx s)) a = ld8 (pfa_mem s) a).
  { induction idx as [|j idx IH]; intros s1; cbn [pfa_init_loop]; [done|]. destruct (ntbli_memmap_at (pfa_mem s1) i j) as [d|] eqn:Ed; [|done].
    rewrite IH. apply push_all_high; [|done]. apply Forall_forall. intros p Hp. apply desc_frames_spec in Hp; [|by eapply memmap_at_ok|done].
    eapply usable_frame_ok, Hp. lia. }
  by rewrite Hl.
Qed.

(** ** The whole start *)

(** The fields of the memory map survive what is done to the others. *)
Lemma memmap_at_fields m i i' j : memmap_base i' = memmap_base i -> memmap_size i' = memmap_size i -> memmap_desc_size i' = memmap_desc_size i ->
  ntbli_memmap_at m i' j = ntbli_memmap_at m i j.
Proof. intros H1 H2 H3. unfold ntbli_memmap_at, no_memmap. by rewrite H1, H2, H3. Qed.

Definition same_map i i' : Prop := memmap_base i' = memmap_base i /\ memmap_size i' = memmap_size i /\ memmap_desc_size i' = memmap_desc_size i.

Lemma sanitize_fields i : same_map i (boot_info_sanitize_initrd i) /\ framebuffer_base (boot_info_sanitize_initrd i) = framebuffer_base i /\
  framebuffer_size (boot_info_sanitize_initrd i) = framebuffer_size i.
Proof. unfold boot_info_sanitize_initrd. by repeat case_if. Qed.

Lemma relocate_fields i : same_map i (boot_info_relocate i) /\ initrd_base (boot_info_relocate i) = (if initrd_base i =? 0 then 0 else phys_to_virt (initrd_base i)) /\
  initrd_size (boot_info_relocate i) = initrd_size i.
Proof. unfold boot_info_relocate. destruct (Z.eqb_spec (initrd_base i) 0); repeat case_if; done. Qed.

Lemma cpu_nx_any cpuid s s' : cpu_nx cpuid s = cpu_nx cpuid s'.
Proof. unfold cpu_nx, detect_cpu_features. by repeat case_match. Qed.

(** The ranges the allocator is given cover the image and the initial RAM disk. *)
Lemma start_ranges_spec y L b i : laid_out y L -> 0 <= initrd_base i -> 0 <= initrd_size i -> initrd_base i + initrd_size i < PHYS_LIMIT ->
  (initrd_base i = 0 -> initrd_size i = 0) ->
  let r := start_ranges y b (boot_info_relocate i) in
  hhdm_limit r = paging_hhdm_limit b /\ kernel_phys_start r = boot_start y /\
  kernel_phys_end r = align_up (u64 (kernel_end y - KERNEL_VMA_BASE)) PAGE_SIZE /\
  (forall a, initrd_base i <= a < initrd_base i + initrd_size i -> initrd_phys_start r <= a < initrd_phys_end r).
Proof.
  intros Hl Hb Hs Hlim Hz. destruct (relocate_fields i) as (_ & Hib & His). unfold start_ranges. cbn. split; [done|]. split; [done|]. split.
  - pose proof Hl as [_ _ _ [_ ->] _ _ Hsm]. assert (Hk : u64 (vpage (l_end L) - KERNEL_VMA_BASE) = l_end L * PAGE_SIZE).
    { unfold vpage, PAGE_SIZE. rewrite uw_small; destruct Hl; lia. }
    rewrite Hk. unfold align_up, PAGE_SIZE. rewrite (uw_small 64 (4096 - 1)) by done. do 2 f_equal. rewrite uw_small; destruct Hl; lia.
  - intros a Ha. rewrite Hib, His. destruct (Z.eqb_spec (initrd_base i) 0) as [E|E]; [lia|].
    assert (Hne : phys_to_virt (initrd_base i) <> 0) by (rewrite phys_to_virt_eq by lia; unfold HHDM_BASE; lia).
    rewrite (proj2 (Z.eqb_neq _ 0) Hne). cbn [negb]. rewrite virt_to_phys_to_virt by lia.
    rewrite uw_small by (unfold PHYS_LIMIT, KERNEL_VMA_BASE, HHDM_BASE in Hlim; lia). lia.
Qed.

(** The copy of the memory map is in the image, apart from the tables. *)
Definition store_ok (y : symbols) (store : Z) : Prop := KERNEL_VMA_BASE <= store /\ store + MEMMAP_STORE_SIZE <= 2 ^ 64 /\
  (store + MEMMAP_STORE_SIZE <= g_pool y \/ g_pool y + PAGING_POOL_PAGES * 4096 <= store).

(** The frame buffer, if there is one, is where the kernel's tables reach it:
    within 512 GiB, and of at most 64 GiB. *)
Record frame_buffer_ok i : Prop := {
  mo_fb : 0 <= framebuffer_base i < 2 ^ 64;
  mo_fb_end : fb_end i <= 2 ^ 39 /\ fb_end i - framebuffer_base i <= 2 ^ 36;
}.

Section run.
Context (cpuid_count : Z -> Z -> Z * Z * Z * Z) (y : symbols) (L : layout) (ad : addresses) (probe : Z).
Context (Hpool : pool_ok y) (Hlay : laid_out y L).

(** A record whose memory map is outside the pool, and RAM disk low. *)
Record info_placed i : Prop := {
  ip_size : 0 <= memmap_size i;
  ip_high : KERNEL_VMA_BASE <= memmap_base i;
  ip_apart : memmap_base i + memmap_size i <= g_pool y \/ g_pool y + PAGING_POOL_PAGES * 4096 <= memmap_base i;
  ip_initrd : 0 <= initrd_base i /\ 0 <= initrd_size i /\ initrd_base i + initrd_size i < PHYS_LIMIT /\ (initrd_base i = 0 -> initrd_size i = 0);
}.

(** The frames at the end: of the memory map, outside image and RAM disk, and
    mapped. *)
Definition frame_ready (b : boot) i0 (m0 : mem) nx k p : Prop :=
  (exists r j d, 0 <= hhdm_limit r <= PHYS_LIMIT /\ 0 <= j /\ ntbli_memmap_at m0 i0 j = Some d /\ usable r d p) /\
  (forall a, p <= a < p + PAGE_SIZE -> ~ boot_start y <= a < align_up (u64 (kernel_end y - KERNEL_VMA_BASE)) PAGE_SIZE) /\
  (forall a, p <= a < p + PAGE_SIZE -> ~ initrd_base i0 <= a < initrd_base i0 + initrd_size i0) /\
  forall o, 0 <= o < PAGE_SIZE -> kernel_translate (kmem k) (b_pml4 b) (phys_to_virt p + o) = Some (mk_access (p + o) true (negb nx) false).

(** The last two steps, from a checked record. *)
Lemma start_tables_run k : let i := g_boot_info k in info_placed i -> frame_buffer_ok i ->
  (forall r, 0 <= hhdm_limit r <= PHYS_LIMIT -> memmap_disjoint (kmem k) i r) -> g_initialized (kn_pfa k) = false ->
  exists k' l, (_ <-? start_paging cpuid_count y ;; start_frames y) k = (Ok tt, k') /\ pfa_rep (kn_pfa k') l /\ pfa_mem (kn_pfa k') = kmem k' /\
    cr3 (kn_cpu k') = paging_kernel_cr3 (kn_paging k') /\
    HHDM_MIN_LIMIT <= paging_hhdm_limit (kn_paging k') /\
    (forall a, KERNEL_VMA_BASE <= a -> ~ (g_pool y <= a < g_pool y + PAGING_POOL_PAGES * 4096) -> ld8 (kmem k') a = ld8 (kmem k) a) /\
    (forall p, p ∈ l <-> exists j d, 0 <= j < ntbli_memmap_count i /\ ntbli_memmap_at (kmem k) i j = Some d /\
       usable (start_ranges y (kn_paging k') (boot_info_relocate i)) d p) /\
    forall p, p ∈ l -> frame_ready (kn_paging k') i (kmem k) (cpu_nx cpuid_count (kn_paging k)) k' p.
Proof.
  intros i [Is Ih Ia (Ib & Iz & Il & I0)] [Mf Me] Md Hini.
  assert (Hbi : boot_info_ok y i) by (split; [exact Mf|exact Me|exact Is|intros a Ha; lia]).
  destruct (kernel_space_run cpuid_count y L i (kn_paging k) Hpool Hlay Hbi) as (b & E & El & _ & Ho & Hm).
  unfold tryb, start_paging. fold i. rewrite E. cbv zeta. cbn [g_boot_info with_cpu with_paging].
  destruct (direct_limit_spec i (b_mem (kn_paging k))) as (Hlim & _). rewrite <- El in Hlim. pose proof (proj1 Hlim) as Hmin. unfold HHDM_MIN_LIMIT in Hlim.
  destruct (start_ranges_spec y L b i Hlay Ib Iz Il I0) as (R1 & R2 & R3 & R4). set (r := start_ranges y b (boot_info_relocate i)) in *.
  assert (Hrl : 0 <= hhdm_limit r <= PHYS_LIMIT) by (rewrite R1; unfold HHDM_MAX_LIMIT, PHYS_LIMIT, KERNEL_VMA_BASE, HHDM_BASE in *; lia).
  destruct (relocate_fields i) as ((F1 & F2 & F3) & _). set (i2 := boot_info_relocate i) in *.
  assert (Hat : forall j, 0 <= j -> ntbli_memmap_at (b_mem b) i2 j = ntbli_memmap_at (kmem k) i j).
  { intros j Hj. rewrite (memmap_at_fields _ i i2) by done. apply ntbli_memmap_at_ext; [done|done|]. intros a Ha. apply Ho. lia. }
  destruct (pfa_init_run i2 r (pfa_set_mem (b_mem b) (kn_pfa k))) as (f & l & Ef & Hrep & _ & Hl); [done|exact Hrl|by rewrite F2| | |].
  { intros j d p a _ _ Hu Ha Hf. unfold in_frame in Hf. assert (Hok : frame_ok p) by (eapply usable_frame_ok, Hu; lia).
    rewrite (frame_virt p Hok) in Hf. destruct Hok as (_ & _ & Hok). unfold PAGE_SIZE, PHYS_LIMIT in *. rewrite F1 in Ha. lia. }
  { intros j j' d d' p Hj Hj' Hne. cbn [pfa_mem pfa_set_mem]. rewrite !Hat by done. by apply (Md r). }
  unfold start_frames. cbn [g_boot_info kn_paging kn_pfa kn_cpu with_info with_cpu with_paging].
  change (pfa_init _ _ _) with (pfa_init (Some i2) r (pfa_set_mem (b_mem b) (kn_pfa k))). rewrite Ef.
  change (is_err Nok) with false. cbn iota. eexists _, l. split; [reflexivity|]. cbn [kn_pfa kn_cpu kn_paging with_pfa with_kmem with_info with_paging with_cpu].
  assert (Hhigh : forall a, KERNEL_VMA_BASE <= a -> ld8 (pfa_mem f) a = ld8 (b_mem b) a) by (intros a Ha; exact (pfa_init_high i2 r _ Nok f a Hrl Ha Ef)).
  split; [exact Hrep|]. split; [done|]. split; [done|]. split; [exact Hmin|]. split; [intros a Ha Hn; cbn; by rewrite Hhigh, Ho|].
  assert (Hc2 : ntbli_memmap_count i2 = ntbli_memmap_count i) by (unfold ntbli_memmap_count, no_memmap; by rewrite F1, F2, F3).
  rewrite Hc2 in Hl. split.
  { intros p. rewrite Hl. cbn [pfa_mem pfa_set_mem]. split; intros (j & d & Hj & Hd & Hu); exists j, d; (split; [exact Hj|split; [|exact Hu]]).
    - by rewrite <- Hat by lia.
    - by rewrite Hat by lia. }
  intros p Hp. apply Hl in Hp. destruct Hp as (j & d & Hj & Hd & Hu). rewrite Hat in Hd by lia. split; [exists r, j, d; split_and!; try done; lia|].
  pose proof Hu as (_ & _ & _ & _ & _ & _ & _ & _ & Hk & Hi). rewrite R2, R3 in Hk. split; [exact Hk|].
  split; [intros a Ha Hin; by apply (Hi a Ha), R4|]. intros o Hoo.
  destruct (frame_mapped L i (cpu_nx cpuid_count (kn_paging k)) (direct_limit i (b_mem (kn_paging k))) y r d p o Hlay) as [Hc Hmap];
    [rewrite <- El; lia|by rewrite R1, El|exact R2|exact R3|exact Hu|exact Hoo|].
  rewrite <- Hmap. apply (Hm (pfa_mem f)); [|exact Hc]. intros a Ha. apply Hhigh. destruct Hpool. lia.
Qed.
End run.

Lemma start_cpu_fields cpuid ad k : kn_paging (start_cpu cpuid ad k) = kn_paging k /\ g_boot_info (start_cpu cpuid ad k) = g_boot_info k /\
  kn_pfa (start_cpu cpuid ad k) = kn_pfa k.
Proof.
  unfold start_cpu. cbv zeta. destruct (gdt_init _ _ _ _ _ _) as [[gdt tss] lgdt]. destruct (gdt_set_kernel_stack _ _) as [tss' rsp].
  destruct (interrupt_init _ _ _) as [idt lidt]. destruct (cpuid 0x80000000 0) as [[[? ?] ?] ?]. destruct (cpuid 0x80000001 0) as [[[? ?] ?] ?].
  destruct (syscall_init _ _ _ _ _) as [st msrs]. by case_if.
Qed.

(** A converted record, once the RAM disk is checked. *)
Lemma converted_placed y mbi total store m0 i m : store_ok y store -> info_ok mbi total store MEMMAP_STORE_SIZE m0 i m -> memmap_base i = store ->
  info_placed y (boot_info_sanitize_initrd i).
Proof.
  intros (S1 & S2 & S3) [_ Hmap Hrd _ _] Hb. destruct (sanitize_fields i) as ((F1 & F2 & _) & _). unfold MEMMAP_STORE_SIZE in *.
  destruct Hmap as [Hz|(_ & _ & count & Hsz & [Hc _] & _)]; [unfold KERNEL_VMA_BASE in *; lia|]. unfold sizeof_memdesc in *.
  change (65536 / 40) with 1638 in Hc. split; rewrite ?F1, ?F2; [lia|lia|lia|].
  unfold boot_info_sanitize_initrd, PHYS_LIMIT, KERNEL_VMA_BASE, HHDM_BASE. cbv zeta. repeat case_if; cbn [initrd_base initrd_size set_initrd]; lia.
Qed.

(** C1: Started by a Multiboot2 loader, the kernel reaches the point where it
    can give out memory, and all of that memory is safe to use.  Let the
    conversion accept the loader's structure; let no two of the regions it
    reports as available overlap (the code relies on it without a test), let the
    frame buffer, if there is one, end below 512 GiB and take at most 64 GiB, and
    let the linker have placed the image, the pool of page tables and the copy of
    the memory map as its script says.  Then the start succeeds up to the frame
    allocator: the free list holds the usable frames of the memory map, all of
    them, and every frame on it lies in a region the loader reported as
    available, touches neither the kernel image nor the initial RAM disk, and is
    mapped, at [phys_to_virt] of its address, by the tables the processor was
    given, even after the free list has been written through them: writable, out
    of the reach of user programs, and not executable where the processor has
    the no-execute bit.  Frames, tables and boot information are built by three
    components on one memory; none disturbs another. *)
Theorem boot_memory_ready cpuid_count y L ad probe mbi k i m :
  pool_ok y -> laid_out y L -> store_ok y (g_memmap_store ad) -> 0 <= mbi -> g_initialized (kn_pfa k) = false ->
  multiboot2_to_ntbli mbi (g_memmap_store ad) MEMMAP_STORE_SIZE (g_boot_info k, kmem k) = (Nok, (i, m)) ->
  entries_disjoint mbi (rd32 (kmem k) mbi) (kmem k) -> frame_buffer_ok i ->
  exists k' l, start_memory cpuid_count y ad probe BOOT_KIND_MULTIBOOT2 mbi k = (Ok tt, k') /\
    pfa_rep (kn_pfa k') l /\ pfa_mem (kn_pfa k') = kmem k' /\ cr3 (kn_cpu k') = paging_kernel_cr3 (kn_paging k') /\
    HHDM_MIN_LIMIT <= paging_hhdm_limit (kn_paging k') /\
    (forall p, p ∈ l <-> exists j d, 0 <= j < ntbli_memmap_count i /\ ntbli_memmap_at m i j = Some d /\
       usable (start_ranges y (kn_paging k') (boot_info_relocate (boot_info_sanitize_initrd i))) d p) /\
    forall p, p ∈ l ->
      (exists e, map_entry mbi (rd32 (kmem k) mbi) (kmem k) e /\ rd32 (kmem k) (e + 16) = MB2_MEM_AVAILABLE /\
         rd64 (kmem k) e <= p /\ p + PAGE_SIZE <= rd64 (kmem k) e + rd64 (kmem k) (e + 8)) /\
      (forall a, p <= a < p + PAGE_SIZE -> ~ boot_start y <= a < align_up (u64 (kernel_end y - KERNEL_VMA_BASE)) PAGE_SIZE) /\
      (let i' := boot_info_sanitize_initrd i in forall a, p <= a < p + PAGE_SIZE -> ~ initrd_base i' <= a < initrd_base i' + initrd_size i') /\
      forall o, 0 <= o < PAGE_SIZE ->
        kernel_translate (kmem k') (b_pml4 (kn_paging k')) (phys_to_virt p + o) =
          Some (mk_access (p + o) true (negb (cpu_nx cpuid_count (kn_paging k))) false).
Proof.
  intros Hpool Hlay Hst Hmbi Hini Hmb Hdj [Mf Me]. set (store := g_memmap_store ad) in *. pose proof Hst as (S1 & S2 & _).
  assert (Hlow : mbi < 2 ^ 32).
  { destruct (Z.lt_ge_cases mbi (2 ^ 32)) as [|Hge]; [done|]. revert Hmb. unfold multiboot2_to_ntbli. case_if; [done|].
    rewrite (proj2 (Z.leb_le 0x100000000 mbi)) by lia. by rewrite orb_true_r. }
  pose proof (multiboot_run mbi store MEMMAP_STORE_SIZE (g_boot_info k) (kmem k) ltac:(unfold MEMMAP_STORE_SIZE; lia)) as Hs.
  cbv zeta in Hs. pose proof (ld32_range (kmem k) mbi) as Ht. rewrite Hmb in Hs. destruct Hs as (_ & Hs); [unfold rd32, KERNEL_VMA_BASE in *; lia|].
  destruct (Hs eq_refl) as (Hok & Hbase & _ & Hsrc). destruct (sanitize_fields i) as ((F1 & F2 & F3) & G1 & G2).
  set (i' := boot_info_sanitize_initrd i) in *. set (k0 := with_kcon (serial_init probe (kn_con k)).2 k).
  set (k1 := set_valid (with_info i' (with_kmem m (with_info i k0)))).
  assert (E1 : start_info ad BOOT_KIND_MULTIBOOT2 mbi k0 = (Ok tt, k1)).
  { unfold start_info. change (BOOT_KIND_MULTIBOOT2 =? BOOT_KIND_UEFI) with false. cbn iota. change (BOOT_KIND_MULTIBOOT2 =? BOOT_KIND_MULTIBOOT2) with true.
    cbn iota. change (g_boot_info k0, kmem k0) with (g_boot_info k, kmem k). fold store. rewrite Hmb. done. }
  destruct (start_cpu_fields cpuid_count ad k1) as (C1 & C2 & C3). set (k2 := start_cpu cpuid_count ad k1) in *.
  assert (Em : kmem k2 = m) by (unfold kmem; by rewrite C1).
  destruct (start_tables_run cpuid_count y L Hpool Hlay k2) as (k' & l & E & Hrep & Hpm & Hcr & Hmin & _ & Hex & Hl).
  - rewrite C2. by apply (converted_placed y mbi (rd32 (kmem k) mbi) store (kmem k) i m).
  - rewrite C2. split; cbn [g_boot_info k1 set_valid with_info]; [by rewrite G1|unfold fb_end; by rewrite G1, G2].
  - rewrite C2, Em. change (g_boot_info k1) with i'. intros r Hr a b d e p Ha Hb. rewrite !(memmap_at_fields _ i i') by done.
    by apply (stored_disjoint mbi (rd32 (kmem k) mbi) store MEMMAP_STORE_SIZE (kmem k) i m Hok r Hr Hdj).
  - by rewrite C3.
  - exists k', l. split; [unfold start_memory; fold k0; unfold tryb at 1; by rewrite E1|]. split; [exact Hrep|]. split; [exact Hpm|]. split; [exact Hcr|]. split; [exact Hmin|]. split.
    { intros p. rewrite Hex, C2, Em. change (g_boot_info k1) with i'. unfold ntbli_memmap_count, no_memmap. rewrite F1, F2, F3. setoid_rewrite (memmap_at_fields m i i'); done. }
    intros p Hp. destruct (Hl p Hp) as ((r & j & d & Hr & Hj & Hd & Hu) & Hk & Hi & Hx). rewrite C2, Em in *.
    split; [|split; [exact Hk|split; [exact Hi|by rewrite (cpu_nx_any _ (kn_paging k) (kn_paging k2))]]].
    change (g_boot_info k1) with i' in Hd. rewrite (memmap_at_fields _ i i') in Hd by done.
    apply (Hsrc r j d p Hr Hj Hd). apply desc_frames_spec; [by eapply memmap_at_ok|exact Hr|exact Hu].
Qed.

(** *** A start *)

(** One available region from five megabytes on; the map's copy is in the image,
    after the pool. *)
Definition ex_info_at : Z := 0x10000.
Definition ex_loader_mem : mem :=
  foldr (fun '(n, a, v) m => stn n (ex_info_at + a) v m) ∅
    [(4%nat, 0, 56); (4%nat, 8, MB2_TAG_MMAP); (4%nat, 12, 40); (4%nat, 16, 24);
     (8%nat, 24, 0x500000); (8%nat, 32, 0x200000); (4%nat, 40, MB2_MEM_AVAILABLE); (4%nat, 52, 8)].
Definition ex_addresses : addresses := mk_addresses 0 0 0 0 0 0 (fun _ => 0) 0 0 0 (vpage 0x350).
Definition ex_kernel : kernel_st :=
  mk_kernel mb2_start false (mk_boot ex_loader_mem 0 0 0 0 false false 0 []) (mk_cpu 0 0 0 0)
    (mk_tables (replicate 8 0) (mk_tss 0 0 0 0 0) 0 ([], []) [] [] (mk_pic 0 0 [])) (mk_pfa ∅ 0 0 false) (mk_con 0 0 0 0 0 0 ∅ false []).
Definition ex_converted := multiboot2_to_ntbli ex_info_at (g_memmap_store ex_addresses) MEMMAP_STORE_SIZE (g_boot_info ex_kernel, kmem ex_kernel).

Lemma ex_frame_buffer_ok : frame_buffer_ok ex_converted.2.1.
Proof.
  assert (Hf : framebuffer_base ex_converted.2.1 = 0) by (vm_compute; reflexivity). assert (He : fb_end ex_converted.2.1 = 0) by (vm_compute; reflexivity).
  revert Hf He. generalize ex_converted.2.1. intros i Hf He. split; lia.
Qed.

(** Its structure has one entry, so none overlaps another. *)
Lemma ex_tags off : tag_at ex_info_at 56 ex_loader_mem off -> off = 8 \/ off = 48.
Proof.
  induction 1 as [|off Ht [->| ->] Hoff Hne Hs]; [by left|right; by vm_compute|].
  by destruct Hne; vm_compute.
Qed.

Lemma ex_entry e : map_entry ex_info_at 56 ex_loader_mem e -> e = ex_info_at + 24.
Proof.
  intros (off & j & Ht & Hm & Hs & He & Hj & ->). apply ex_tags in Ht as [->| ->].
  - change (rd32 ex_loader_mem (ex_info_at + 8 + 4)) with 40 in Hj. change (rd32 ex_loader_mem (ex_info_at + 8 + 8)) with 24 in *.
    change ((40 - 16) / 24) with 1 in Hj. lia.
  - by vm_compute in Hm.
Qed.

Lemma ex_entries_disjoint : entries_disjoint ex_info_at 56 ex_loader_mem.
Proof. intros e e' ->%ex_entry ->%ex_entry. done. Qed.

Lemma boot_memory_ready_witness :
  exists k' l, start_memory ex_cpuid ex_symbols ex_addresses 0 BOOT_KIND_MULTIBOOT2 ex_info_at ex_kernel = (Ok tt, k') /\
    pfa_rep (kn_pfa k') l /\ 0x500000 ∈ l /\
    kernel_translate (kmem k') (b_pml4 (kn_paging k')) (phys_to_virt 0x500000 + 8) = Some (mk_access 0x500008 true false false).
Proof.
  assert (Ec : ex_converted.1 = Nok) by (vm_compute; reflexivity).
  assert (Hc : ntbli_memmap_count ex_converted.2.1 = 1) by (vm_compute; reflexivity).
  assert (Hd : ntbli_memmap_at ex_converted.2.2 ex_converted.2.1 0 = Some (mk_memdesc NTBLI_MEM_CONVENTIONAL 0 0x500000 0 0x200 0)) by (vm_compute; reflexivity).
  assert (Hr : initrd_base (boot_info_relocate (boot_info_sanitize_initrd ex_converted.2.1)) = 0) by (vm_compute; reflexivity).
  pose proof ex_frame_buffer_ok as Hmo. destruct ex_converted as [st [i m]] eqn:Ex. cbn [fst snd] in *. subst st.
  destruct (boot_memory_ready ex_cpuid ex_symbols ex_layout ex_addresses 0 ex_info_at ex_kernel i m) as (k' & l & E & Hrep & _ & _ & Hmin & Hex & Hl);
    [exact ex_pool_placed|exact ex_laid_out| |done|reflexivity|exact Ex|exact ex_entries_disjoint|exact Hmo|].
  { unfold store_ok, MEMMAP_STORE_SIZE, PAGING_POOL_PAGES. cbn [g_memmap_store ex_addresses g_pool ex_symbols]. unfold vpage, KERNEL_VMA_BASE, PAGE_SIZE. lia. }
  exists k', l. split; [exact E|]. split; [exact Hrep|]. assert (Hp : 0x500000 ∈ l).
  { apply Hex. exists 0, (mk_memdesc NTBLI_MEM_CONVENTIONAL 0 0x500000 0 0x200 0). split; [rewrite Hc; lia|]. split; [exact Hd|].
    unfold usable, start_ranges. rewrite Hr. cbn [Z.eqb negb md_type md_num_pages md_phys_start hhdm_limit kernel_phys_start kernel_phys_end initrd_phys_start initrd_phys_end].
    change (Z.land _ _) with 0x400000. change (boot_start ex_symbols) with 0x100000. unfold HHDM_MIN_LIMIT in Hmin. unfold PAGE_SIZE, PFA_LOW_RESERVED. repeat split; lia. }
  split; [exact Hp|]. destruct (Hl _ Hp) as (_ & _ & _ & Hx). exact (Hx 8 ltac:(unfold PAGE_SIZE; lia)).
Defined.
