(* ===== verification/LoaderExamples.v ===== *)
(** * A program started over the frame allocator

    A one-segment program in a file layer that keeps a single file in
    memory, over the frames of [Pfa]. *)

From S2P Require Import Prelude Types Mem Memory Bytes FrameAlloc Pfa Paging PagingSpec AddrSpace SpaceLife Handles Process ProcessInv ProcessProps ProcessExamples FileIO Owned Umem UmemProps Elf ElfProps Spawn SpawnProps Uaccess UaccessProps Printk PrintkProps Timer Pic Gdt Syscall SyscallProps SyscallFiles Interrupt InterruptProps.

(** The file layer: the state is the file, a handle its position. *)
#[local] Instance one_file_layer : FileLayer (list Z) Z := { file_zero := 0; file_close _ v := v }.
#[local] Instance one_file : FileIO (list Z) Z := {
  file_layer := one_file_layer;
  file_offset f := f;
  file_set_offset off _ := off;
  file_open _ _ v := (Ok 0, v);
  file_read n '(f, v) :=
    let bs := take (Z.to_nat n) (drop (Z.to_nat f) v) in
    ((Nok, bs), (f + Z.of_nat (length bs), v));
  file_write _ fv := (Err NreadOnly, fv);
  file_stat _ v := (Ok (mk_stat (Z.of_nat (length v)) 1), v);
  file_reopen f v := (Ok f, v);
}.

#[local] Instance one_file_safe : FileIOSafe (list Z) Z.
Proof.
  split.
  - intros n [f v] st bs fv' Hn. simpl. intros [= _ <- _]. rewrite length_take. lia.
  - intros f v st v'. simpl. intros [= <- _]. simpl. lia.
  - intros f v e v'. simpl. done.
Qed.

#[local] Instance one_file_laws : FileIOLaws (list Z) Z.
Proof.
  refine {| file_data v _ d := v = d; file_reliable := True |}.
  - done.
  - done.
  - intros v f d ->. by eexists _, _.
  - intros v f d n -> Hf Hn. eexists _, _, _, _. split; [reflexivity|]. split; [done|].
    split; [rewrite length_take; lia|]. done.
Defined.

(** Little-endian bytes of a number. *)
Fixpoint bytes_le (n : nat) (v : Z) : list Z :=
  match n with O => [] | Datatypes.S n => v mod 256 :: bytes_le n (v / 256) end.

(** One executable segment of four bytes at 64 KiB. *)
Definition ex_elf : list Z :=
  bytes_le 4 ELF_MAGIC ++ [2; 1; 1; 0; 0] ++ replicate 7 0 ++ bytes_le 2 2 ++ bytes_le 2 62 ++ bytes_le 4 1 ++
  bytes_le 8 0x10000 ++ bytes_le 8 64 ++ bytes_le 8 0 ++ bytes_le 4 0 ++ bytes_le 2 64 ++ bytes_le 2 56 ++
  bytes_le 2 1 ++ bytes_le 2 0 ++ bytes_le 2 0 ++ bytes_le 2 0 ++
  bytes_le 4 1 ++ bytes_le 4 5 ++ bytes_le 8 120 ++ bytes_le 8 0x10000 ++ bytes_le 8 0x10000 ++
  bytes_le 8 4 ++ bytes_le 8 6 ++ bytes_le 8 4096 ++ [0xEB; 0xFE; 0x90; 0x90].

Definition ex_pool : list Z := steps 0x10000 0x2C000 4096.
Definition ex_t0 : pfa_st :=
  fold_left (fun s p => push_free_locked p s) (rev ex_pool) (mk_pfa ∅ 0 0 true).

Lemma ex_t0_rep : fa_rep ex_t0 ex_pool.
Proof.
  destruct (push_frames_rep (rev ex_pool) (mk_pfa ∅ 0 0 true) []) as [Hr _].
  - by split_and!; try apply NoDup_nil_2.
  - by apply (bool_decide_unpack _); vm_compute.
  - by apply (bool_decide_unpack _); vm_compute.
  - intros x _ Hx. by apply elem_of_nil in Hx.
  - unfold ex_t0. rewrite app_nil_r, rev_involutive in Hr. exact Hr.
Qed.

Lemma ex_pool_ok : NoDup ex_pool /\ Forall frame_ok ex_pool.
Proof. split; apply (bool_decide_unpack _); by vm_compute. Qed.

Lemma ex_pool_eq : ex_pool = ex_root :: tail ex_pool.
Proof. done. Qed.

(** A fresh space. *)
Lemma ex_fresh : exists s1 : pfa_st, own ex_root ex_pool [] s1 (space0 ex_root) (tail ex_pool).
Proof.
  destruct (own_create ex_g ex_root ex_pool ex_t0 (tail ex_pool)) as (s1 & _ & Ho); [|done|done|].
  - rewrite <- ex_pool_eq. exact ex_t0_rep.
  - by exists s1.
Qed.

Definition ex_proc : process_t Z :=
  mk_process 1 PROCESS_RUNNING 0 0 0 0 ex_as 0x10000 NX_USER_STACK_TOP 0x20000 0x20000 0 0 0 0 [] true None.

Lemma ex_heap : heap_inv (space0 ex_root) 0x20000 0x20000.
Proof. split; [lia|by vm_compute|intros v Hv Hr; lia|intros v Hv Hr; apply lookup_empty]. Qed.

Lemma umem_brk_spec_witness :
  exists (s1 s' : pfa_st) r p', umem_brk ex_g ex_proc 5000 s1 = ((r, p'), s') /\
    (forall b, r = Ok b -> b = 0x20000 + 5000) /\ heap_start p' <= heap_brk p'.
Proof.
  destruct ex_fresh as (s1 & Ho). destruct ex_pool_ok as [Hnd Hok].
  destruct (umem_brk_spec ex_g ex_root ex_pool Hnd Hok s1 (space0 ex_root) (tail ex_pool) ex_proc 5000)
    as (r & p' & s' & G' & l' & E & _ & Hi & Hr); [exact Ho|reflexivity|exact ex_heap|lia|].
  exists s1, s', r, p'. split; [exact E|]. split; [|destruct Hi as [[_ Hle] _ _ _]; exact Hle]. intros b ->. by destruct Hr as (_ & -> & _).
Defined.

(** The loader on this file succeeds. *)
Lemma ex_load_ok :
  exists s1 : pfa_st, own ex_root ex_pool [] s1 (space0 ex_root) (tail ex_pool) /\
    (elf_load ex_g ex_as (mk_loader s1 ex_elf 0)).1 = Ok (0x10000, 0x11000).
Proof.
  destruct (own_create ex_g ex_root ex_pool ex_t0 (tail ex_pool)) as (s1 & E & Ho); [|done|done|].
  { rewrite <- ex_pool_eq. exact ex_t0_rep. }
  exists s1. split; [exact Ho|].
  assert (Es : s1 = (paging_addrspace_create ex_g ex_t0).2) by by rewrite E. rewrite Es. by vm_compute.
Qed.

Lemma elf_load_image_witness :
  exists (s1 : pfa_st) t' pa, elf_load ex_g ex_as (mk_loader s1 ex_elf 0) = (Ok (0x10000, 0x11000), t') /\
    hw_translate (fa_mem (ld_fa t')) (phys_to_virt ex_root) 0x10001 = Some pa /\
    ld8 (fa_mem (ld_fa t')) (phys_to_virt pa) = 0xFE.
Proof.
  destruct ex_load_ok as (s1 & Ho & Er). destruct ex_pool_ok as [Hnd Hok].
  destruct (elf_load_image ex_g ex_root ex_pool Hnd Hok (mk_loader s1 ex_elf 0) (space0 ex_root)
    (tail ex_pool) ex_elf) as (r & t' & G' & l' & E & _ & _ & _ & Hr); [exact Ho|reflexivity|].
  fold ex_as in E. rewrite E in Er. simpl in Er. subst r. destruct Hr as (_ & _ & Hb & _).
  assert (Hin : phdr_of (take 56 (drop 64 ex_elf)) ∈ loads (file_phdrs ex_elf)) by (vm_compute; by left).
  assert (Hv : 0x10000 <= 0x10001 < 0x11000) by lia.
  destruct (Hb _ 0x10001 Hin Hv) as (e & pa & _ & _ & Hpa & Hld). exists s1, t', pa.
  split; [exact E|]. split; [exact Hpa|]. rewrite Hld. by vm_compute.
Defined.

(** The start of the program, after [process_init]. *)
Definition ex_lg : proc_globals := mk_proc_globals (KERNEL_VMA_BASE + 0x300000) 0x111 0x222 ex_g.
Definition ex_q0 : psys pfa_st (list Z) Z :=
  mk_psys (replicate PROCESS_MAX zero_process) None None 1 0 (paging_kernel_cr3 ex_lg) 0 0 0 ex_t0 ex_elf.
Definition ex_q1 := (process_init ex_q0).2.

Lemma ex_started : exists q1 : psys pfa_st (list Z) Z, proc_inv ex_lg q1 /\ g_next_pid q1 = 1 /\
  (forall i, ~ reapable q1 i) /\ fa_rep (ps_fa q1) ex_pool /\ (process_spawn ex_lg [47] q1).1 = Ok 1.
Proof.
  exists ex_q1. assert (E : process_init ex_q0 = (Nok, ex_q1)) by (unfold ex_q1; apply pair_fst; by vm_compute).
  destruct (init_inv ex_lg ex_q0 ex_q1 eq_refl eq_refl eq_refl E) as [Hi Hn].
  split; [exact Hi|]. split; [by vm_compute|]. split; [|split; [exact ex_t0_rep|by vm_compute]].
  apply none_reapable. assert (Hall : bool_decide (Forall (fun p => state p <> PROCESS_TERMINATED)
    (g_procs ex_q1)) = true) by by vm_compute. exact (bool_decide_eq_true_1 _ Hall).
Qed.


(** User memory: a page of data in a space of its own. *)
Lemma ex_mapped : exists (s3 : pfa_st) G l, own ex_root ex_pool [] s3 G l /\
  user_ok G ex_v true = true /\ user_ok G (ex_v + 1) true = true.
Proof.
  destruct ex_pool_ok as [Hnd Hok].
  destruct (own_create ex_g ex_root ex_pool ex_t0 (tail ex_pool)) as (s1 & E1 & Ho); [|done|done|].
  { rewrite <- ex_pool_eq. exact ex_t0_rep. }
  assert (El : tail ex_pool = 0x11000 :: tail (tail ex_pool)) by done. rewrite El in Ho.
  destruct (own_alloc ex_root ex_pool Hnd Hok [] s1 _ _ _ Ho) as (s2 & E2 & Ho2 & _).
  assert (Hup : upage ex_v) by done. assert (Hf : word USER_DATA_FLAGS) by done.
  assert (Hwx : wx_ok ex_g USER_DATA_FLAGS) by done.
  destruct (own_map ex_g ex_root ex_pool Hnd Hok [] s2 _ _ 0x11000 ex_v USER_DATA_FLAGS Ho2 Hup Hf Hwx)
    as (r & s3 & G & l & E3 & _ & _ & Hr).
  assert (Er : r = Ok tt).
  { assert (Es1 : s1 = (paging_addrspace_create ex_g ex_t0).2) by by rewrite E1.
    assert (Es2 : s2 = (fa_alloc s1).2) by by rewrite E2.
    assert (Es3 : r = (paging_map_page ex_g (Some (mk_as (phys_to_virt ex_root))) 0x11000 ex_v
      USER_DATA_FLAGS s2).1) by by rewrite E3.
    rewrite Es3, Es2, Es1. by vm_compute. }
  subst r. destruct Hr as (Ho3 & _ & Hl). exists s3, G, l. split; [exact Ho3|].
  assert (Hp : path (ex_v + 1) = path ex_v) by done.
  unfold user_ok. rewrite Hp, Hl, lookup_insert_eq. done.
Qed.

(** A system whose current process is in that space. *)
Definition ex_user (s3 : pfa_st) : psys pfa_st (list Z) Z :=
  mk_psys [ex_proc] (Some 0%nat) (Some 0%nat) 2 0 0 0 0 0 s3 [].

Lemma ex_user_range s3 G l : own ex_root ex_pool [] s3 G l ->
  user_ok G ex_v true = true -> user_ok G (ex_v + 1) true = true ->
  user_range G ex_v 2 true /\ user_range G ex_v 2 false.
Proof.
  intros Ho H1 H2. assert (He : ex_v + 2 <= USER_SPACE_END) by by vm_compute.
  assert (Hf : forall a, user_ok G a true = true -> user_ok G a false = true).
  { intros a. unfold user_ok. destruct (leaves G !! path a); [|done]. by destruct (tst _ PAGE_USER). }
  split; (split; [exact He|]); intros b Hb; assert (Hc : b = ex_v \/ b = ex_v + 1) by lia.
  - by destruct Hc as [-> | ->].
  - by destruct Hc as [-> | ->]; apply Hf.
Qed.

Lemma copy_to_user_spec_witness :
  exists s3 fa, copy_to_user ex_v [72; 105] (ex_user s3) = (Nok, with_fa fa (ex_user s3)) /\
    user_ld (phys_to_virt ex_root) fa (ex_v + 1) = Some 105.
Proof.
  destruct ex_mapped as (s3 & G & l & Ho & H1 & H2). destruct ex_pool_ok as [Hnd Hok].
  assert (Ha : word ex_v) by done. assert (Hn : word (Z.of_nat (length [72; 105]))) by done.
  destruct (ex_user_range s3 G l Ho H1 H2) as [Hr _].
  destruct (copy_to_user_spec ex_root ex_pool Hnd Hok (ex_user s3) ex_proc G l [] Ho eq_refl eq_refl
    ex_v [72; 105] Ha Hn) as [(fa & E & _ & _ & Hld)|(_ & _ & Hno)]; [|by destruct Hno].
  exists s3, fa. split; [exact E|]. assert (Hc : 0 <= ex_v + 1 < USER_SPACE_END) by done.
  rewrite (Hld (ex_v + 1) Hc). by vm_compute.
Defined.

Lemma copy_from_user_spec_witness :
  exists s3, (copy_from_user ex_v 2 (ex_user s3)).1 = Nok /\
    length (copy_from_user ex_v 2 (ex_user s3)).2 = 2%nat.
Proof.
  destruct ex_mapped as (s3 & G & l & Ho & H1 & H2). destruct ex_pool_ok as [Hnd Hok].
  assert (Ha : word ex_v) by done. assert (Hn : word 2) by done.
  destruct (ex_user_range s3 G l Ho H1 H2) as [_ Hr].
  destruct (copy_from_user_spec ex_root ex_pool Hnd Hok (ex_user s3) ex_proc G l [] Ho eq_refl eq_refl
    ex_v 2 Ha Hn) as [(E & Hl & _)|(_ & _ & Hno)]; [|by destruct Hno].
  exists s3. split; [exact E|exact Hl].
Defined.

Lemma copy_string_spec_witness :
  exists s3, length (copy_string_from_user [0; 0] ex_v (ex_user s3)).2 = 2%nat.
Proof.
  destruct ex_mapped as (s3 & G & l & Ho & H1 & H2). destruct ex_pool_ok as [Hnd Hok].
  assert (Ha : word ex_v) by done. assert (Hn : Z.of_nat (length [0; 0]) < 2 ^ 64) by done.
  pose proof (copy_string_spec ex_root ex_pool Hnd Hok (ex_user s3) ex_proc G l [] Ho eq_refl eq_refl
    [0; 0] ex_v Ha Hn) as Hs.
  exists s3. destruct (copy_string_from_user [0; 0] ex_v (ex_user s3)) as [st dst']. exact (proj1 Hs).
Defined.

(** A program with one open file reads two bytes of it. *)
Definition ex_slot : nx_handle_t Z := mk_handle NX_HANDLE_FILE NX_RIGHT_READ 1 0 0.
Definition ex_reader : process_t Z :=
  mk_process 1 PROCESS_RUNNING 0 0 0 0 ex_as 0x10000 NX_USER_STACK_TOP 0x20000 0x20000 0 0 0 0 [ex_slot] true None.
Definition ex_rd (s3 : pfa_st) : psys pfa_st (list Z) Z :=
  mk_psys [ex_reader] (Some 0%nat) (Some 0%nat) 2 0 0 0 0 0 s3 [72; 105; 33].
Definition ex_args : list Z := [make_handle 1 0; ex_v; 2].

Lemma sys_read_spec_witness :
  exists s3 k', sys_read ex_args (mk_ksys (ex_rd s3) ex_con 100) = (SysRet 2, k') /\
    user_ld  (phys_to_virt ex_root) (ps_fa (k_ps k')) (ex_v + 1) = Some 105.
Proof.
  destruct ex_mapped as (s3 & G & l & Ho & H1 & H2). destruct ex_pool_ok as [Hnd Hok].
  destruct (ex_user_range s3 G l Ho H1 H2) as [Hr _].
  assert (Hoff : 0 <= 0 < 2 ^ 63) by done. assert (Hv : word ex_v) by done.
  assert (Hl : 0 <= 2 <= NX_IO_MAX) by done.
  pose proof (sys_read_spec ex_root ex_pool Hnd Hok (ex_rd s3) ex_reader G l [] Ho eq_refl eq_refl 0 ex_slot eq_refl
    [72; 105; 33] 0 ex_v 2 Hoff Hv Hl ex_args (mk_ksys (ex_rd s3) ex_con 100) eq_refl eq_refl eq_refl eq_refl eq_refl
    eq_refl eq_refl) as Hs.
  destruct (sys_read ex_args (mk_ksys (ex_rd s3) ex_con 100)) as [r k'] eqn:Er.
  destruct Hs as (t & v & -> & _ & _ & _ & (fa & w & f & Ek & _ & _ & [_ Hm] & _ & _ & Hall)).
  destruct (Hall I Hr) as [-> ->]. exists s3, k'. split; [exact Er|].
  assert (Ef : ps_fa (k_ps k') = fa). { rewrite Ek. unfold at_. rewrite set_file_vfs, set_file_fa. reflexivity. }
  assert (Hc : 0 <= ex_v + 1 < USER_SPACE_END) by done. rewrite Ef, (Hm (ex_v + 1) Hc). by vm_compute.
Defined.

(** A number that is no call. *)
Lemma syscalls_keep_order_witness :
  exists q1 : psys pfa_st (list Z) Z, proc_inv ex_lg q1 /\
    (forall k : ksys pfa_st (list Z) Z, k = mk_ksys q1 ex_con 100 ->
     syscall_dispatch ex_lg None [0] [0] 99 [] k = (SysRet (err_ret NsyscallFailed), k)).
Proof.
  destruct ex_started as (q1 & Hi & Hn & _). exists q1. split; [exact Hi|]. intros k ->.
  assert (Hlt : g_next_pid q1 + 1 < 2 ^ 32) by lia.
  pose proof (syscalls_keep_order ex_lg None [0] [0] 99 [] (mk_ksys q1 ex_con 100) Hi Hlt ex_con_ok) as Hs.
  destruct (syscall_dispatch ex_lg None [0] [0] 99 [] (mk_ksys q1 ex_con 100)) as [r k'].
  destruct Hs as (_ & _ & _ & _ & _ & Hu). destruct Hu as [-> ->]; [|done].
  cbn [g_syscalls fmap list_fmap fst]. apply (bool_decide_unpack _). by vm_compute.
Defined.

(** A thread of pid 1 is running. *)
Definition ex_q2 := (process_create ex_lg 0x4000 7 ex_q1).2.
Definition ex_q3 := (schedule ex_lg ex_q2).2.

Lemma ex_running : exists q3 : psys pfa_st (list Z) Z, proc_inv ex_lg q3 /\ g_next_pid q3 = 2 /\
  current_process q3 = Some 1%nat /\ (exists q, g_procs q3 !! 1%nat = Some q /\ pid q = 1).
Proof.
  assert (E1 : process_init ex_q0 = (Nok, ex_q1)) by (unfold ex_q1; apply pair_fst; by vm_compute).
  assert (E2 : process_create ex_lg 0x4000 7 ex_q1 = (Nok, ex_q2)) by (unfold ex_q2; apply pair_fst; by vm_compute).
  assert (E3 : schedule ex_lg ex_q2 = (Away, ex_q3)) by (unfold ex_q3; apply pair_fst; by vm_compute).
  destruct (init_inv ex_lg ex_q0 ex_q1 eq_refl eq_refl eq_refl E1) as [I1 N1].
  assert (Hn : g_next_pid ex_q1 + 1 < 2 ^ 32) by (rewrite N1; lia).
  destruct (proc_create_run ex_lg ex_q1 _ _ _ ex_q2 I1 Hn E2) as [I2 N2].
  destruct (schedule_inv ex_lg ex_q2 _ ex_q3 I2 E3) as [I3 _].
  exists ex_q3. split; [exact I3|]. split; [by vm_compute|]. split; [by vm_compute|].
  eexists. split; [by vm_compute|]. by vm_compute.
Qed.

(** Every registered handler is the timer's. *)
Definition ex_call : Z -> trap_frame * ksys pfa_st (list Z) Z -> trap_frame * ksys pfa_st (list Z) Z :=
  fun _ => run_timer_handler.

Lemma ex_call_ok : handler_ok ex_lg ex_call.
Proof.
  intros a f k. cbn zeta. split; [|by destruct k]. intros (l & c & p & Hsh & Hru & Hc & Hp & Hst). destruct k as [s con hz].
  split; [|done]. exists l, c, p. cbn [ex_call run_timer_handler snd k_ps] in *. split; [exact Hsh|].
  split; [|by split_and!]. destruct Hru as [R1 R2 R3 R4]. by split.
Qed.

Definition ex_frame (v c : Z) : trap_frame := mk_frame 0 0 0 0 0 0 0 0 0 0 0 0 0 0 0 v 0 0x10002 c 0x202 0x7FFFF000 0x23.

(** A division by zero of a program. *)
Lemma interrupts_contained_witness :
  exists (q3 : psys pfa_st (list Z) Z) k f', interrupt_dispatch ex_lg None [0] [0] ex_dev 0xFFFFFFFF80001000 0xFFFFFFFF80001008 ex_call 0
    (ex_frame 0 SEL_USER_CODE) (mk_isys (mk_ksys q3 ex_con 100) (mk_pic 32 40 []) (replicate 256 0)) = (Away, (f', k)) /\
    process_get_exit_code 1 (k_ps (i_k k)) = Ok (-1).
Proof.
  destruct ex_running as (q3 & Hi & Hn & Hc & (q & Hq & Hpid)).
  assert (Hlt : g_next_pid q3 + 1 < 2 ^ 32) by (rewrite Hn; lia). assert (Hne : pid q <> 0) by (rewrite Hpid; lia).
  pose proof (interrupts_contained ex_lg None [0] [0] ex_dev 0xFFFFFFFF80001000 0xFFFFFFFF80001008 ex_call ex_call_ok 0
    (ex_frame 0 SEL_USER_CODE) (mk_isys (mk_ksys q3 ex_con 100) (mk_pic 32 40 []) (replicate 256 0)) Hi Hlt ex_con_ok) as Hs.
  destruct (interrupt_dispatch _ _ _ _ _ _ _ _ _ _ _) as [o [f' k]] eqn:Ed. destruct Hs as (_ & _ & _ & Hu & _).
  assert (Hcs : Z.land (cs (ex_frame 0 SEL_USER_CODE)) 3 = 3) by done.
  assert (Hv : vector (ex_frame 0 SEL_USER_CODE) < VEC_COUNT) by done.
  destruct (Hu 1%nat q Hc Hq Hne Hcs Hv) as [_ Hun]. destruct Hun as (-> & _ & He & _); [split; [done|by vm_compute]|].
  exists q3, k, f'. split; [exact Ed|]. rewrite Hpid in He. exact He.
Defined.

(** A tick of the timer. *)
Lemma irq_acknowledged_witness :
  exists (q3 : psys pfa_st (list Z) Z) k f', interrupt_dispatch ex_lg None [0] [0] ex_dev 0 0 ex_call 0
    (ex_frame VEC_IRQ_BASE SEL_USER_CODE) (mk_isys (mk_ksys q3 ex_con 100) (mk_pic 32 40 []) (replicate 256 0x5000)) =
      (Returned Nok, (f', k)) /\ eois PIC1_CMD k = 1%nat.
Proof.
  destruct ex_running as (q3 & _). assert (Hirq : 0 <= 0 < 16) by lia.
  pose proof (irq_acknowledged ex_lg None [0] [0] ex_dev 0 0 ex_call 0 (ex_frame VEC_IRQ_BASE SEL_USER_CODE)
    (mk_isys (mk_ksys q3 ex_con 100) (mk_pic 32 40 []) (replicate 256 0x5000)) 0 Hirq eq_refl) as Hs.
  destruct (interrupt_dispatch _ _ _ _ _ _ _ _ _ _ _) as [o [f' k]] eqn:Ed. destruct Hs as (-> & He & _).
  exists q3, k, f'. split; [exact Ed|exact He].
Defined.
