(* ===== verification/NyfsDisk.v ===== *)
(** * The NYFS on-disk format: [drivers/filesystem/nyfs/nyfs_disk.h]

    The packed structures, each a record with its bytes and the record of given
    bytes; a char or reserved array is the list of its bytes.  Then the two
    checksums of the driver: the CRC over metadata and the hash of names. *)

From S2P Require Import Prelude Types Bytes.

(** ** Constants *)

(** [NYFS_BLKNO_NONE]: drivers/filesystem/nyfs/nyfs_disk.h:49-49 *)
Definition NYFS_BLKNO_NONE : Z := 0.
(** [NYFS_INO_NONE]: drivers/filesystem/nyfs/nyfs_disk.h:50-50 *)
Definition NYFS_INO_NONE : Z := 0.
(** [NYFS_ROOT_INO]: drivers/filesystem/nyfs/nyfs_disk.h:51-51 *)
Definition NYFS_ROOT_INO : Z := 1.
(** [NYFS_MAGIC]: drivers/filesystem/nyfs/nyfs_disk.h:58-58 *)
Definition NYFS_MAGIC : Z := 0x53465949.
(** [NYFS_VERSION]: drivers/filesystem/nyfs/nyfs_disk.h:59-59 *)
Definition NYFS_VERSION : Z := 1.
(** [NYFS_DIRHASH_MAGIC]: drivers/filesystem/nyfs/nyfs_disk.h:62-62 *)
Definition NYFS_DIRHASH_MAGIC : Z := 0x48524944.
(** [NYFS_EXTENT_MAGIC]: drivers/filesystem/nyfs/nyfs_disk.h:65-65 *)
Definition NYFS_EXTENT_MAGIC : Z := 0x42545845.
(** [NYFS_BLOCK_SIZE_SHIFT_MIN]: drivers/filesystem/nyfs/nyfs_disk.h:74-74 *)
Definition NYFS_BLOCK_SIZE_SHIFT_MIN : Z := 9.
(** [NYFS_BLOCK_SIZE_SHIFT_MAX]: drivers/filesystem/nyfs/nyfs_disk.h:75-75 *)
Definition NYFS_BLOCK_SIZE_SHIFT_MAX : Z := 16.
(** [NYFS_ALLOC_BITMAP]: drivers/filesystem/nyfs/nyfs_disk.h:84-84 *)
Definition NYFS_ALLOC_BITMAP : Z := 0.
(** [NYFS_NAME_MAX]: drivers/filesystem/nyfs/nyfs_disk.h:346-346 *)
Definition NYFS_NAME_MAX : Z := 255.
(** [NYFS_ACL_INLINE_COUNT]: drivers/filesystem/nyfs/nyfs_disk.h:211-211 *)
Definition NYFS_ACL_INLINE_COUNT : Z := 4.
(** [NYFS_INO_TYPE_FILE]: drivers/filesystem/nyfs/nyfs_disk.h:217-217 *)
Definition NYFS_INO_TYPE_FILE : Z := 1.
(** [NYFS_INO_TYPE_DIR]: drivers/filesystem/nyfs/nyfs_disk.h:218-218 *)
Definition NYFS_INO_TYPE_DIR : Z := 2.

(** ** The superblock *)

(** [nyfs_superblock_t]: drivers/filesystem/nyfs/nyfs_disk.h:90-136 *)
Record nyfs_superblock_t := mk_sb {
  sb_magic : Z; sb_version : Z; sb_superblock_size : Z;
  sb_block_size_shift : Z; sb_alloc_algorithm : Z; sb_reserved0 : list Z;
  sb_label : list Z;
  sb_total_blocks : Z; sb_free_blocks : Z;
  sb_inode_table_start : Z; sb_inode_count : Z; sb_free_inode_count : Z;
  sb_alloc_meta_start : Z; sb_alloc_meta_blocks : Z; sb_inode_bitmap_start : Z;
  sb_journal_start : Z; sb_journal_blocks : Z; sb_journal_version : Z;
  sb_reserved1 : Z; sb_reserved2 : Z;
  sb_mount_count : Z; sb_last_mount_time_ns : Z; sb_last_write_time_ns : Z;
  sb_checksum : Z; sb_reserved3 : list Z;
}.
Definition SB_SIZE : Z := 256.

Definition sb_bytes (s : nyfs_superblock_t) : list Z :=
  le_bytes 4 (sb_magic s) ++ le_bytes 4 (sb_version s) ++ le_bytes 4 (sb_superblock_size s) ++
  le_bytes 1 (sb_block_size_shift s) ++ le_bytes 1 (sb_alloc_algorithm s) ++ sb_reserved0 s ++ sb_label s ++
  le_bytes 8 (sb_total_blocks s) ++ le_bytes 8 (sb_free_blocks s) ++
  le_bytes 8 (sb_inode_table_start s) ++ le_bytes 8 (sb_inode_count s) ++ le_bytes 8 (sb_free_inode_count s) ++
  le_bytes 8 (sb_alloc_meta_start s) ++ le_bytes 8 (sb_alloc_meta_blocks s) ++ le_bytes 8 (sb_inode_bitmap_start s) ++
  le_bytes 8 (sb_journal_start s) ++ le_bytes 8 (sb_journal_blocks s) ++ le_bytes 2 (sb_journal_version s) ++
  le_bytes 2 (sb_reserved1 s) ++ le_bytes 4 (sb_reserved2 s) ++
  le_bytes 8 (sb_mount_count s) ++ le_bytes 8 (sb_last_mount_time_ns s) ++ le_bytes 8 (sb_last_write_time_ns s) ++
  le_bytes 4 (sb_checksum s) ++ sb_reserved3 s.

Definition sb_of (bs : list Z) : nyfs_superblock_t :=
  mk_sb (field 0 4 bs) (field 4 4 bs) (field 8 4 bs) (field 12 1 bs) (field 13 1 bs) (slice 14 2 bs) (slice 16 32 bs)
    (field 48 8 bs) (field 56 8 bs) (field 64 8 bs) (field 72 8 bs) (field 80 8 bs) (field 88 8 bs) (field 96 8 bs)
    (field 104 8 bs) (field 112 8 bs) (field 120 8 bs) (field 128 2 bs) (field 130 2 bs) (field 132 4 bs)
    (field 136 8 bs) (field 144 8 bs) (field 152 8 bs) (field 160 4 bs) (slice 164 92 bs).

Definition zero_sb : nyfs_superblock_t :=
  mk_sb 0 0 0 0 0 (replicate 2 0) (replicate 32 0) 0 0 0 0 0 0 0 0 0 0 0 0 0 0 0 0 0 (replicate 92 0).

(** The fields the driver changes on their own. *)
Definition set_sb_counts (blocks inodes : Z) (s : nyfs_superblock_t) : nyfs_superblock_t :=
  mk_sb (sb_magic s) (sb_version s) (sb_superblock_size s) (sb_block_size_shift s) (sb_alloc_algorithm s)
    (sb_reserved0 s) (sb_label s) (sb_total_blocks s) blocks (sb_inode_table_start s) (sb_inode_count s) inodes
    (sb_alloc_meta_start s) (sb_alloc_meta_blocks s) (sb_inode_bitmap_start s) (sb_journal_start s)
    (sb_journal_blocks s) (sb_journal_version s) (sb_reserved1 s) (sb_reserved2 s) (sb_mount_count s)
    (sb_last_mount_time_ns s) (sb_last_write_time_ns s) (sb_checksum s) (sb_reserved3 s).
Definition set_sb_checksum (c : Z) (s : nyfs_superblock_t) : nyfs_superblock_t :=
  mk_sb (sb_magic s) (sb_version s) (sb_superblock_size s) (sb_block_size_shift s) (sb_alloc_algorithm s)
    (sb_reserved0 s) (sb_label s) (sb_total_blocks s) (sb_free_blocks s) (sb_inode_table_start s) (sb_inode_count s)
    (sb_free_inode_count s) (sb_alloc_meta_start s) (sb_alloc_meta_blocks s) (sb_inode_bitmap_start s)
    (sb_journal_start s) (sb_journal_blocks s) (sb_journal_version s) (sb_reserved1 s) (sb_reserved2 s)
    (sb_mount_count s) (sb_last_mount_time_ns s) (sb_last_write_time_ns s) c (sb_reserved3 s).

(** ** Access control entries *)

(** [nyfs_ace_t]: drivers/filesystem/nyfs/nyfs_disk.h:199-205 *)
Record nyfs_ace_t := mk_ace { ace_id : Z; ace_access_mask : Z; ace_type : Z; ace_flags : Z; ace_reserved : Z }.
Definition ACE_SIZE : Z := 12.

Definition ace_bytes (a : nyfs_ace_t) : list Z :=
  le_bytes 4 (ace_id a) ++ le_bytes 4 (ace_access_mask a) ++ le_bytes 1 (ace_type a) ++ le_bytes 1 (ace_flags a) ++
  le_bytes 2 (ace_reserved a).
Definition ace_of (bs : list Z) : nyfs_ace_t :=
  mk_ace (field 0 4 bs) (field 4 4 bs) (field 8 1 bs) (field 9 1 bs) (field 10 2 bs).
Definition zero_ace : nyfs_ace_t := mk_ace 0 0 0 0 0.

(** An array of [n] structures of [size] bytes. *)
Fixpoint array_of {A} (size : nat) (f : list Z -> A) (n : nat) (bs : list Z) : list A :=
  match n with
  | O => []
  | S n => f (take size bs) :: array_of size f n (drop size bs)
  end.

(** ** Inodes *)

(** [nyfs_inode_t]: drivers/filesystem/nyfs/nyfs_disk.h:226-272 *)
Record nyfs_inode_t := mk_inode {
  in_ino : Z; in_type : Z; in_unix_mode : Z; in_uid : Z; in_gid : Z; in_link_count : Z;
  in_ace_count : Z; in_reserved0 : Z; in_ace : list nyfs_ace_t;
  in_acl_overflow_block : Z; in_acl_overflow_count : Z; in_reserved1 : Z;
  in_size : Z; in_data_extent_root : Z; in_data_extent_depth : Z; in_reserved2 : list Z;
  in_dir_hash_root : Z; in_dir_entry_count : Z;
  in_ctime : Z; in_mtime : Z; in_atime : Z; in_last_txn_id : Z;
  in_checksum : Z; in_reserved3 : list Z;
}.
Definition INODE_SIZE : Z := 256.

Definition inode_bytes (i : nyfs_inode_t) : list Z :=
  le_bytes 8 (in_ino i) ++ le_bytes 2 (in_type i) ++ le_bytes 2 (in_unix_mode i) ++ le_bytes 4 (in_uid i) ++
  le_bytes 4 (in_gid i) ++ le_bytes 4 (in_link_count i) ++ le_bytes 2 (in_ace_count i) ++ le_bytes 2 (in_reserved0 i) ++
  (in_ace i ≫= ace_bytes) ++ le_bytes 8 (in_acl_overflow_block i) ++ le_bytes 4 (in_acl_overflow_count i) ++
  le_bytes 4 (in_reserved1 i) ++ le_bytes 8 (in_size i) ++ le_bytes 8 (in_data_extent_root i) ++
  le_bytes 1 (in_data_extent_depth i) ++ in_reserved2 i ++ le_bytes 8 (in_dir_hash_root i) ++
  le_bytes 8 (in_dir_entry_count i) ++ le_bytes 8 (in_ctime i) ++ le_bytes 8 (in_mtime i) ++ le_bytes 8 (in_atime i) ++
  le_bytes 8 (in_last_txn_id i) ++ le_bytes 4 (in_checksum i) ++ in_reserved3 i.

Definition inode_of (bs : list Z) : nyfs_inode_t :=
  mk_inode (field 0 8 bs) (field 8 2 bs) (field 10 2 bs) (field 12 4 bs) (field 16 4 bs) (field 20 4 bs)
    (field 24 2 bs) (field 26 2 bs) (array_of 12 ace_of 4 (drop 28 bs)) (field 76 8 bs) (field 84 4 bs) (field 88 4 bs)
    (field 92 8 bs) (field 100 8 bs) (field 108 1 bs) (slice 109 7 bs) (field 116 8 bs) (field 124 8 bs)
    (field 132 8 bs) (field 140 8 bs) (field 148 8 bs) (field 156 8 bs) (field 164 4 bs) (slice 168 88 bs).

Definition zero_inode : nyfs_inode_t :=
  mk_inode 0 0 0 0 0 0 0 0 (replicate 4 zero_ace) 0 0 0 0 0 0 (replicate 7 0) 0 0 0 0 0 0 0 (replicate 88 0).

(** The groups of fields the driver changes. *)
Definition set_in_stamp (ino checksum : Z) (i : nyfs_inode_t) : nyfs_inode_t :=
  mk_inode ino (in_type i) (in_unix_mode i) (in_uid i) (in_gid i) (in_link_count i) (in_ace_count i) (in_reserved0 i)
    (in_ace i) (in_acl_overflow_block i) (in_acl_overflow_count i) (in_reserved1 i) (in_size i) (in_data_extent_root i)
    (in_data_extent_depth i) (in_reserved2 i) (in_dir_hash_root i) (in_dir_entry_count i) (in_ctime i) (in_mtime i)
    (in_atime i) (in_last_txn_id i) checksum (in_reserved3 i).
Definition set_in_owner (ino type mode uid gid links : Z) (i : nyfs_inode_t) : nyfs_inode_t :=
  mk_inode ino type mode uid gid links (in_ace_count i) (in_reserved0 i)
    (in_ace i) (in_acl_overflow_block i) (in_acl_overflow_count i) (in_reserved1 i) (in_size i) (in_data_extent_root i)
    (in_data_extent_depth i) (in_reserved2 i) (in_dir_hash_root i) (in_dir_entry_count i) (in_ctime i) (in_mtime i)
    (in_atime i) (in_last_txn_id i) (in_checksum i) (in_reserved3 i).
Definition set_in_acl (count : Z) (ace : list nyfs_ace_t) (block over : Z) (i : nyfs_inode_t) : nyfs_inode_t :=
  mk_inode (in_ino i) (in_type i) (in_unix_mode i) (in_uid i) (in_gid i) (in_link_count i) count (in_reserved0 i)
    ace block over (in_reserved1 i) (in_size i) (in_data_extent_root i)
    (in_data_extent_depth i) (in_reserved2 i) (in_dir_hash_root i) (in_dir_entry_count i) (in_ctime i) (in_mtime i)
    (in_atime i) (in_last_txn_id i) (in_checksum i) (in_reserved3 i).
Definition set_in_data (size root : Z) (i : nyfs_inode_t) : nyfs_inode_t :=
  mk_inode (in_ino i) (in_type i) (in_unix_mode i) (in_uid i) (in_gid i) (in_link_count i) (in_ace_count i)
    (in_reserved0 i) (in_ace i) (in_acl_overflow_block i) (in_acl_overflow_count i) (in_reserved1 i) size root
    (in_data_extent_depth i) (in_reserved2 i) (in_dir_hash_root i) (in_dir_entry_count i) (in_ctime i) (in_mtime i)
    (in_atime i) (in_last_txn_id i) (in_checksum i) (in_reserved3 i).
Definition set_in_dir (root entries : Z) (i : nyfs_inode_t) : nyfs_inode_t :=
  mk_inode (in_ino i) (in_type i) (in_unix_mode i) (in_uid i) (in_gid i) (in_link_count i) (in_ace_count i)
    (in_reserved0 i) (in_ace i) (in_acl_overflow_block i) (in_acl_overflow_count i) (in_reserved1 i) (in_size i)
    (in_data_extent_root i) (in_data_extent_depth i) (in_reserved2 i) root entries (in_ctime i) (in_mtime i)
    (in_atime i) (in_last_txn_id i) (in_checksum i) (in_reserved3 i).

(** ** Extents and directories *)

(** [nyfs_extent_t]: drivers/filesystem/nyfs/nyfs_disk.h:280-283 *)
Record nyfs_extent_t := mk_ext { ext_start_block : Z; ext_length : Z }.
Definition EXTENT_SIZE : Z := 16.
Definition ext_bytes (e : nyfs_extent_t) : list Z := le_bytes 8 (ext_start_block e) ++ le_bytes 8 (ext_length e).
Definition ext_of (bs : list Z) : nyfs_extent_t := mk_ext (field 0 8 bs) (field 8 8 bs).

(** [nyfs_extent_block_header_t]: drivers/filesystem/nyfs/nyfs_disk.h:287-294 *)
Record nyfs_extent_block_header_t := mk_ehdr { eh_magic : Z; eh_extent_count : Z; eh_next_block : Z }.
Definition EHDR_SIZE : Z := 16.
Definition ehdr_bytes (h : nyfs_extent_block_header_t) : list Z :=
  le_bytes 4 (eh_magic h) ++ le_bytes 4 (eh_extent_count h) ++ le_bytes 8 (eh_next_block h).
Definition ehdr_of (bs : list Z) : nyfs_extent_block_header_t := mk_ehdr (field 0 4 bs) (field 4 4 bs) (field 8 8 bs).

(** [nyfs_dirhash_header_t]: drivers/filesystem/nyfs/nyfs_disk.h:307-315 *)
Record nyfs_dirhash_header_t := mk_dhdr {
  dh_magic : Z; dh_bucket_count : Z; dh_entry_count : Z; dh_free_offset : Z; dh_checksum : Z; dh_reserved0 : Z;
}.
Definition DHDR_SIZE : Z := 32.
Definition dhdr_bytes (h : nyfs_dirhash_header_t) : list Z :=
  le_bytes 4 (dh_magic h) ++ le_bytes 4 (dh_bucket_count h) ++ le_bytes 8 (dh_entry_count h) ++
  le_bytes 8 (dh_free_offset h) ++ le_bytes 4 (dh_checksum h) ++ le_bytes 4 (dh_reserved0 h).
Definition dhdr_of (bs : list Z) : nyfs_dirhash_header_t :=
  mk_dhdr (field 0 4 bs) (field 4 4 bs) (field 8 8 bs) (field 16 8 bs) (field 24 4 bs) (field 28 4 bs).
Definition set_dh (entries free : Z) (h : nyfs_dirhash_header_t) : nyfs_dirhash_header_t :=
  mk_dhdr (dh_magic h) (dh_bucket_count h) entries free (dh_checksum h) (dh_reserved0 h).

(** [nyfs_dirent_t]: drivers/filesystem/nyfs/nyfs_disk.h:329-341 *)
Record nyfs_dirent_t := mk_de {
  de_ino : Z; de_next_offset : Z; de_name_hash : Z; de_name_len : Z; de_file_type : Z; de_reserved0 : Z;
}.
Definition DIRENT_SIZE : Z := 24.
Definition de_bytes (d : nyfs_dirent_t) : list Z :=
  le_bytes 8 (de_ino d) ++ le_bytes 8 (de_next_offset d) ++ le_bytes 4 (de_name_hash d) ++
  le_bytes 2 (de_name_len d) ++ le_bytes 1 (de_file_type d) ++ le_bytes 1 (de_reserved0 d).
Definition de_of (bs : list Z) : nyfs_dirent_t :=
  mk_de (field 0 8 bs) (field 8 8 bs) (field 16 4 bs) (field 20 2 bs) (field 22 1 bs) (field 23 1 bs).

(** ** Checksums *)

(** One bit of the inner loop. *)
(** [crc_bit]: drivers/filesystem/nyfs/nyfs.c:244-245 *)
Definition crc_bit (crc : Z) : Z :=
  let mask := u32 (0 - Z.land crc 1) in
  Z.lxor (Z.shiftr crc 1) (Z.land 0xEDB88320 mask).

(** [crc_byte]: drivers/filesystem/nyfs/nyfs.c:242-246 *)
Definition crc_byte (crc b : Z) : Z := Nat.iter 8 crc_bit (Z.lxor crc b).

(** [nyfs_crc32]: drivers/filesystem/nyfs/nyfs.c:233-249 *)
Definition nyfs_crc32 (data : list Z) : Z := Z.lxor (fold_left crc_byte data 0xFFFFFFFF) 0xFFFFFFFF.

(** [nyfs_hash_name]: drivers/filesystem/nyfs/nyfs.c:251-261 *)
Definition nyfs_hash_name (name : list Z) : Z :=
  fold_left (fun h c => u32 (Z.lxor h (u8 c) * 16777619)) name 2166136261.
