(* ===== verification/Nyfs.v ===== *)
(** * NYFS volumes: [drivers/filesystem/nyfs/nyfs.c], the storage layer

    Raw reads and writes of a volume's disk, the two bitmap allocators, the
    inode table, and the byte streams made of extents.  The state is a volume
    and the disks; the lock of a volume has no counterpart (one flow of
    control), and a pointer to a volume is never null here.  A loop that only
    the disk's contents bound is a [run] of [Loops]: its [hang] status is
    [Ntimeout], which the driver never answers. *)

From S2P Require Import Prelude Types Loops Bytes NyfsDisk.

(** [NYFS_MAX_EXTENTS_PER_BLOCK]: drivers/filesystem/nyfs/nyfs.c:60-60 *)
Definition NYFS_MAX_EXTENTS_PER_BLOCK : Z := 128.
(** [NYFS_DIRHASH_DEFAULT_BUCKETS]: drivers/filesystem/nyfs/nyfs.c:54-54 *)
Definition NYFS_DIRHASH_DEFAULT_BUCKETS : Z := 16.
(** [NYFS_MAX_TOTAL_ACES]: drivers/filesystem/nyfs/nyfs.c:64-64 *)
Definition NYFS_MAX_TOTAL_ACES : Z := 64.

(** A read gives the status and the bytes it stored at the start of the
    buffer.  The parameter [info] is the transfer functions' own. *)
(** [nyfs_disk_read_fn]: drivers/filesystem/nyfs/nyfs.h:22-22 *)
Definition nyfs_disk_read_fn (D : Type) : Type := Z -> Z -> Z -> ST D (Nerror * list Z).
(** [nyfs_disk_write_fn]: drivers/filesystem/nyfs/nyfs.h:23-23 *)
Definition nyfs_disk_write_fn (D : Type) : Type := Z -> Z -> list Z -> ST D Nerror.

Section volume.
Context {D : Type}.

(** The field [fs] is built by [nyfs_mount] for the [vfs_mount] it calls. *)
(** [nyfs_volume_t]: drivers/filesystem/nyfs/nyfs.c:66-78 *)
Record nyfs_volume_t := mk_vol {
  vol_used : bool;
  vol_diskno : Z;
  vol_read : option (nyfs_disk_read_fn D);
  vol_write : option (nyfs_disk_write_fn D);
  vol_sb : nyfs_superblock_t;
  vol_block_size : Z;
  vol_mount_path : list Z;
  vol_root_vnode : option nat;
}.

(** A volume and the disks. *)
Record nst := mk_nst { n_vol : nyfs_volume_t; n_disk : D }.
Implicit Types (v : nyfs_volume_t) (s : nst).

Definition set_sb (sb : nyfs_superblock_t) v : nyfs_volume_t :=
  mk_vol (vol_used v) (vol_diskno v) (vol_read v) (vol_write v) sb (vol_block_size v) (vol_mount_path v) (vol_root_vnode v).
Definition with_sb (sb : nyfs_superblock_t) s : nst := mk_nst (set_sb sb (n_vol s)) (n_disk s).
Definition sb s : nyfs_superblock_t := vol_sb (n_vol s).
Definition bsize s : Z := vol_block_size (n_vol s).

(** The byte offset [k] bytes into block [b]. *)
Definition at_block (b k : Z) s : Z := u64 (b * bsize s + k).

(** [(void)c;] and [status = c; if (NSTATUS_IS_ERR(status)) { cleanup; return
    status; }]. *)
Definition void {A} (c : ST nst A) s : nst := (c s).2.
Definition or_else {A B} (c : ST nst (res A)) (cleanup : nst -> nst) (k : A -> ST nst (res B)) : ST nst (res B) := fun s =>
  match c s with
  | (Ok a, s) => k a s
  | (Err e, s) => (Err e, cleanup s)
  end.

(** In the body of a loop: an error leaves the function. *)
Definition stepb {A B C} (c : ST nst (res A)) (k : A -> ST nst (C + res B)) : ST nst (C + res B) := fun s =>
  match c s with
  | (Ok a, s) => k a s
  | (Err e, s) => (inr (Err e), s)
  end.
Local Notation "x <-! c ;; k" := (stepb c (fun x => k)) (at level 100, c at next level, right associativity).
Definition hung {A} : res A := Err Ntimeout.

(** ** The disk *)

(** [nyfs_raw_read]: drivers/filesystem/nyfs/nyfs.c:208-214 *)
Definition nyfs_raw_read (offset size : Z) : ST nst (Nerror * list Z) := fun s =>
  match vol_read (n_vol s) with
  | None => ((NinvalidArg, []), s)
  | Some read => let '(r, d) := read (vol_diskno (n_vol s)) offset size (n_disk s) in (r, mk_nst (n_vol s) d)
  end.

(** [nyfs_raw_write]: drivers/filesystem/nyfs/nyfs.c:216-225 *)
Definition nyfs_raw_write (offset : Z) (buffer : list Z) : ST nst (res unit) := fun s =>
  match vol_write (n_vol s) with
  | None => (Err NreadOnly, s)
  | Some write =>
      let '(status, d) := write (vol_diskno (n_vol s)) offset buffer (n_disk s) in
      (if is_err status then Err status else Ok tt, mk_nst (n_vol s) d)
  end.

(** A read into a local buffer that is used only when it has succeeded. *)
Definition read_local (offset size : Z) : ST nst (res (list Z)) := fun s =>
  let '((status, bs), s) := nyfs_raw_read offset size s in
  (if is_err status then Err status else Ok bs, s).

(** ** The allocators *)

Definition bit_offset (region_start_block bit_index : Z) s : Z := at_block region_start_block (bit_index / 8) s.

(** [nyfs_bitmap_get]: drivers/filesystem/nyfs/nyfs.c:267-280 *)
Definition nyfs_bitmap_get (region_start_block bit_index : Z) : ST nst (res bool) := fun s =>
  (byte <-? read_local (bit_offset region_start_block bit_index s) 1 ;;
   ok (tst (field 0 1 byte) (u8 (Z.shiftl 1 (bit_index mod 8))))) s.

(** [nyfs_bitmap_put]: drivers/filesystem/nyfs/nyfs.c:282-301 *)
Definition nyfs_bitmap_put (region_start_block bit_index : Z) (value : bool) : ST nst (res unit) := fun s =>
  let byte_offset := bit_offset region_start_block bit_index s in
  (byte <-? read_local byte_offset 1 ;;
   let mask := u8 (Z.shiftl 1 (bit_index mod 8)) in
   let byte := if value then Z.lor (field 0 1 byte) mask else Z.land (field 0 1 byte) (unot 8 mask) in
   nyfs_raw_write byte_offset [byte]) s.

(** [nyfs_flush_superblock]: drivers/filesystem/nyfs/nyfs.c:303-308 *)
Definition nyfs_flush_superblock : ST nst (res unit) := fun s =>
  let sb0 := set_sb_checksum 0 (sb s) in
  let sb1 := set_sb_checksum (nyfs_crc32 (sb_bytes sb0)) sb0 in
  nyfs_raw_write 0 (sb_bytes sb1) (with_sb sb1 s).

(** The counters of free blocks and inodes change by [b] and [i]. *)
Definition add_counts (b i : Z) s : nst :=
  with_sb (set_sb_counts (u64 (sb_free_blocks (sb s) + b)) (u64 (sb_free_inode_count (sb s) + i)) (sb s)) s.

(** One round of the search for a free bit in [region]. *)
(** [alloc_round]: drivers/filesystem/nyfs/nyfs.c:321-346 *)
Definition alloc_round (region : Z) (counts : nst -> nst) (i : Z) : ST nst (Z + res Z) :=
  taken <-! nyfs_bitmap_get region i ;;
  if (taken : bool) then ret (inl (i + 1))
  else
    _ <-! nyfs_bitmap_put region i true ;;
    fun s => (_ <-! nyfs_flush_superblock ;; ret (inr (Ok i))) (counts s).

(** [nyfs_alloc_block]: drivers/filesystem/nyfs/nyfs.c:310-351 *)
Definition nyfs_alloc_block : ST nst (res Z) := fun s =>
  run hung (fun i =>
    if i <? sb_total_blocks (sb s) then alloc_round (sb_alloc_meta_start (sb s)) (add_counts (-1) 0) i
    else ret (inr (Err NdiskFull))) 0 s.

(** [nyfs_free_block]: drivers/filesystem/nyfs/nyfs.c:353-369 *)
Definition nyfs_free_block (blkno : Z) : ST nst (res unit) := fun s =>
  (_ <-? nyfs_bitmap_put (sb_alloc_meta_start (sb s)) blkno false ;;
   fun s => nyfs_flush_superblock (add_counts 1 0 s)) s.

(** [nyfs_alloc_inode]: drivers/filesystem/nyfs/nyfs.c:371-412 *)
Definition nyfs_alloc_inode : ST nst (res Z) := fun s =>
  run hung (fun i =>
    if i <? sb_inode_count (sb s) then alloc_round (sb_inode_bitmap_start (sb s)) (add_counts 0 (-1)) i
    else ret (inr (Err NoutOfMemory))) 0 s.

(** The guard of the functions that take an inode number. *)
Definition bad_ino (ino : Z) s : bool := (ino =? NYFS_INO_NONE) || (sb_inode_count (sb s) <=? ino).

(** [nyfs_free_inode]: drivers/filesystem/nyfs/nyfs.c:414-430 *)
Definition nyfs_free_inode (ino : Z) : ST nst (res unit) := fun s =>
  if bad_ino ino s then (Err NinvalidArg, s)
  else (_ <-? nyfs_bitmap_put (sb_inode_bitmap_start (sb s)) ino false ;;
        fun s => nyfs_flush_superblock (add_counts 0 1 s)) s.

(** ** Inodes *)

Definition inode_offset (ino : Z) s : Z := at_block (sb_inode_table_start (sb s)) (u64 (ino * INODE_SIZE)) s.
Definition inode_crc (i : nyfs_inode_t) : Z := nyfs_crc32 (inode_bytes (set_in_stamp (in_ino i) 0 i)).

(** [nyfs_read_inode]: drivers/filesystem/nyfs/nyfs.c:436-466 *)
Definition nyfs_read_inode (ino : Z) : ST nst (res nyfs_inode_t) := fun s =>
  if bad_ino ino s then (Err NinvalidArg, s)
  else
    (bs <-? read_local (inode_offset ino s) INODE_SIZE ;;
     let out := inode_of bs in
     if negb (in_ino out =? ino) then fail Ncorrupted
     else if negb (inode_crc out =? in_checksum out) then fail Ncorrupted
     else ok out) s.

(** The inode as it is stored, number and checksum set. *)
Definition stamped (ino : Z) (i : nyfs_inode_t) : nyfs_inode_t :=
  set_in_stamp ino (inode_crc (set_in_stamp ino 0 i)) i.

(** [nyfs_write_inode]: drivers/filesystem/nyfs/nyfs.c:468-482 *)
Definition nyfs_write_inode (ino : Z) (i : nyfs_inode_t) : ST nst (res unit) := fun s =>
  if bad_ino ino s then (Err NinvalidArg, s)
  else nyfs_raw_write (inode_offset ino s) (inode_bytes (stamped ino i)) s.

(** ** Extent streams *)

(** The header of an extent block, checked. *)
(** [nyfs_extent_resolve, the header]: drivers/filesystem/nyfs/nyfs.c:503-509 *)
Definition read_ehdr (cur : Z) : ST nst (res nyfs_extent_block_header_t) := fun s =>
  (bs <-? read_local (at_block cur 0 s) EHDR_SIZE ;;
   let hdr := ehdr_of bs in
   if negb (eh_magic hdr =? NYFS_EXTENT_MAGIC) || (NYFS_MAX_EXTENTS_PER_BLOCK <? eh_extent_count hdr) then fail Ncorrupted
   else ok hdr) s.

(** Its extents. *)
(** [nyfs_extent_resolve, the extents]: drivers/filesystem/nyfs/nyfs.c:511-517 *)
Definition read_extents (cur count : Z) : ST nst (res (list nyfs_extent_t)) := fun s =>
  if 0 <? count then
    (bs <-? read_local (at_block cur EHDR_SIZE s) (count * EXTENT_SIZE) ;;
     ok (array_of 16 ext_of (Z.to_nat count) bs)) s
  else (Ok [], s).

(** The loop over the extents of one block: the new [base], or the block. *)
(** [resolve_in]: drivers/filesystem/nyfs/nyfs.c:519-525 *)
Fixpoint resolve_in (extents : list nyfs_extent_t) (base logical_block : Z) : Z + Z :=
  match extents with
  | [] => inl base
  | e :: extents =>
      if (base <=? logical_block) && (logical_block <? u64 (base + ext_length e))
      then inr (u64 (ext_start_block e + u64 (logical_block - base)))
      else resolve_in extents (u64 (base + ext_length e)) logical_block
  end.

(** [nyfs_extent_resolve]: drivers/filesystem/nyfs/nyfs.c:489-531 *)
Definition nyfs_extent_resolve (root logical_block : Z) : ST nst (res Z) :=
  run hung (fun '(cur, base) =>
    if cur =? NYFS_BLKNO_NONE then ret (inr (Err NnotFound))
    else
      hdr <-! read_ehdr cur ;;
      extents <-! read_extents cur (eh_extent_count hdr) ;;
      match resolve_in extents base logical_block with
      | inr out_block => ret (inr (Ok out_block))
      | inl base => ret (inl (eh_next_block hdr, base))
      end) (root, 0).

(** [nyfs_extent_total_blocks]: drivers/filesystem/nyfs/nyfs.c:533-571 *)
Definition nyfs_extent_total_blocks (root : Z) : ST nst (res Z) :=
  run hung (fun '(cur, total) =>
    if cur =? NYFS_BLKNO_NONE then ret (inr (Ok total))
    else
      hdr <-! read_ehdr cur ;;
      extents <-! read_extents cur (eh_extent_count hdr) ;;
      let total := fold_left (fun t e => u64 (t + ext_length e)) extents total in
      ret (inl (eh_next_block hdr, total))) (root, 0).

(** The blocks of one extent. *)
(** [free_extent_blocks]: drivers/filesystem/nyfs/nyfs.c:606-613 *)
Definition free_extent_blocks (e : nyfs_extent_t) : ST nst (res unit) :=
  run hung (fun j =>
    if j <? ext_length e then _ <-! nyfs_free_block (u64 (ext_start_block e + j)) ;; ret (inl (j + 1))
    else ret (inr (Ok tt))) 0.

(** [free_extents]: drivers/filesystem/nyfs/nyfs.c:605-614 *)
Fixpoint free_extents (extents : list nyfs_extent_t) : ST nst (res unit) :=
  match extents with
  | [] => ok tt
  | e :: extents => _ <-? free_extent_blocks e ;; free_extents extents
  end.

(** [nyfs_free_extent_chain]: drivers/filesystem/nyfs/nyfs.c:577-627 *)
Definition nyfs_free_extent_chain (root : Z) : ST nst (res unit) :=
  run hung (fun cur =>
    if cur =? NYFS_BLKNO_NONE then ret (inr (Ok tt))
    else
      hdr <-! read_ehdr cur ;;
      extents <-! read_extents cur (eh_extent_count hdr) ;;
      _ <-! free_extents extents ;;
      _ <-! nyfs_free_block cur ;;
      ret (inl (eh_next_block hdr))) root.

(** A new extent block with the one extent [[data, data + 1)]; on a failure
    both blocks are given back. *)
(** [new_extent_block]: drivers/filesystem/nyfs/nyfs.c:644-671 *)
Definition new_extent_block (new_data_block : Z) : ST nst (res Z) :=
  or_else nyfs_alloc_block (void (nyfs_free_block new_data_block)) (fun new_extent_blk =>
  or_else (fun s =>
    (_ <-? nyfs_raw_write (at_block new_extent_blk 0 s) (ehdr_bytes (mk_ehdr NYFS_EXTENT_MAGIC 1 NYFS_BLKNO_NONE)) ;;
     nyfs_raw_write (at_block new_extent_blk EHDR_SIZE s) (ext_bytes (mk_ext new_data_block 1))) s)
    (fun s => void (nyfs_free_block new_extent_blk) (void (nyfs_free_block new_data_block) s))
    (fun _ => ok new_extent_blk)).

(** The walk to the last extent block. *)
(** [last_extent_block]: drivers/filesystem/nyfs/nyfs.c:674-688 *)
Definition last_extent_block (root : Z) : ST nst (res (Z * nyfs_extent_block_header_t)) :=
  run hung (fun cur =>
    hdr <-! read_ehdr cur ;;
    if eh_next_block hdr =? NYFS_BLKNO_NONE then ret (inr (Ok (cur, hdr))) else ret (inl (eh_next_block hdr))) root.

Definition extent_at (cur i : Z) s : Z := at_block cur (EHDR_SIZE + i * EXTENT_SIZE) s.

(** The result is [*root] afterwards; a failure leaves it. *)
(** [nyfs_extent_append_one]: drivers/filesystem/nyfs/nyfs.c:631-762 *)
Definition nyfs_extent_append_one (root : Z) : ST nst (res Z) :=
  new_data_block <-? nyfs_alloc_block ;;
  if root =? NYFS_BLKNO_NONE then new_extent_block new_data_block
  else
    let give_back := void (nyfs_free_block new_data_block) in
    or_else (last_extent_block root) give_back (fun '(last, hdr) =>
    let count := eh_extent_count hdr in
    or_else (read_extents last count) give_back (fun extents =>
    let e := nth (Z.to_nat (count - 1)) extents (mk_ext 0 0) in
    if (0 <? count) && (u64 (ext_start_block e + ext_length e) =? new_data_block) then fun s =>
      (_ <-? nyfs_raw_write (extent_at last (count - 1) s) (ext_bytes (mk_ext (ext_start_block e) (u64 (ext_length e + 1)))) ;;
       ok root) s
    else fun s =>
      if (count <? NYFS_MAX_EXTENTS_PER_BLOCK) && ((count + 1) * EXTENT_SIZE + EHDR_SIZE <=? bsize s) then
        or_else (nyfs_raw_write (extent_at last count s) (ext_bytes (mk_ext new_data_block 1))) give_back (fun _ =>
          _ <-? nyfs_raw_write (at_block last 0 s) (ehdr_bytes (mk_ehdr (eh_magic hdr) (count + 1) (eh_next_block hdr))) ;;
          ok root) s
      else
        (new_extent_blk <-? new_extent_block new_data_block ;;
         _ <-? nyfs_raw_write (at_block last 0 s) (ehdr_bytes (mk_ehdr (eh_magic hdr) count new_extent_blk)) ;;
         ok root) s)).

(** The part of [[stream_offset + done, ..)] that lies in one block: the block,
    the offset in it and the length. *)
(** [stream_chunk]: drivers/filesystem/nyfs/nyfs.c:778-786 *)
Definition stream_chunk (bs stream_offset done size : Z) : Z * Z * Z :=
  let abs_offset := u64 (stream_offset + done) in
  let logical_block := abs_offset / bs in
  let intra := abs_offset mod bs in
  let chunk := bs - intra in
  (logical_block, intra, if size - done <? chunk then size - done else chunk).

(** The status, the bytes stored in the buffer, and [*out_read], which is set
    on success only. *)
(** [nyfs_extent_read_at]: drivers/filesystem/nyfs/nyfs.c:764-807 *)
Definition nyfs_extent_read_at (root stream_offset size : Z) : ST nst (Nerror * list Z * Z) :=
  run (Ntimeout, [], 0) (fun '(done, dst) s =>
    if done <? size then
      let '(logical_block, intra, chunk) := stream_chunk (bsize s) stream_offset done size in
      match nyfs_extent_resolve root logical_block s with
      | (Err NnotFound, s) => (inr (Nok, dst, done), s)
      | (Err e, s) => (inr (e, dst, 0), s)
      | (Ok actual, s) =>
          let '((status, bs), s) := nyfs_raw_read (at_block actual intra s) chunk s in
          if is_err status then (inr (status, dst ++ bs, 0), s)
          else (inl (done + chunk, dst ++ bs), s)
      end
    else (inr (Nok, dst, done), s)) (0, []).

(** [while (have_blocks < needed_blocks)]; the root survives a failure. *)
(** [grow_stream]: drivers/filesystem/nyfs/nyfs.c:834-840 *)
Definition grow_stream (root have_blocks needed_blocks : Z) : ST nst (res unit * Z) :=
  run (hung, root) (fun '(root, have_blocks) s =>
    if have_blocks <? needed_blocks then
      match nyfs_extent_append_one root s with
      | (Ok root, s) => (inl (root, have_blocks + 1), s)
      | (Err e, s) => (inr (Err e, root), s)
      end
    else (inr (Ok tt, root), s)) (root, have_blocks).

(** [store_stream]: drivers/filesystem/nyfs/nyfs.c:842-867 *)
Definition store_stream (root stream_offset : Z) (buffer : list Z) : ST nst (res Z) :=
  let size := Z.of_nat (length buffer) in
  run hung (fun done =>
    if done <? size then fun s =>
      let '(logical_block, intra, chunk) := stream_chunk (bsize s) stream_offset done size in
      (actual <-! nyfs_extent_resolve root logical_block ;;
       fun s =>
         (_ <-! nyfs_raw_write (at_block actual intra s) (take (Z.to_nat chunk) (drop (Z.to_nat done) buffer)) ;;
          ret (inl (done + chunk))) s) s
    else ret (inr (Ok done))) 0.

(** [*out_written], and [*root] afterwards. *)
(** [nyfs_extent_write_at]: drivers/filesystem/nyfs/nyfs.c:809-871 *)
Definition nyfs_extent_write_at (root stream_offset : Z) (buffer : list Z) : ST nst (res Z * Z) := fun s =>
  let size := Z.of_nat (length buffer) in
  if size =? 0 then ((Ok 0, root), s)
  else
    let needed_blocks := u64 (stream_offset + size + bsize s - 1) / bsize s in
    match nyfs_extent_total_blocks root s with
    | (Err e, s) => ((Err e, root), s)
    | (Ok have_blocks, s) =>
        match grow_stream root have_blocks needed_blocks s with
        | ((Err e, root), s) => ((Err e, root), s)
        | ((Ok _, root), s) => let '(r, s) := store_stream root stream_offset buffer s in ((r, root), s)
        end
    end.

(** A read into a local buffer, whose bytes past what the read stored are
    [stack]'s; the status has been checked, the count [got] is the caller's
    to check. *)
Definition read_stream (stack : list Z) (root off n : Z) : ST nst (res (list Z * Z)) := fun s =>
  let '((status, bs, got), s) := nyfs_extent_read_at root off n s in
  (if is_err status then Err status else Ok (take (Z.to_nat n) (bs ++ drop (length bs) stack), got), s).
End volume.
Arguments nyfs_volume_t : clear implicits.
Arguments nst : clear implicits.

