(* ===== verification/NyfsAcl.v ===== *)
(** * Permissions of NYFS: [drivers/filesystem/nyfs/nyfs.c]

    The caller's identity, the access control entries of an inode, the one
    function that decides an access, and the entries a new inode inherits. *)

From S2P Require Import Prelude Types Loops Bytes Process NyfsDisk Nyfs.

(** ** Constants of [nyfs_disk.h] *)

(** [NYFS_MODE_IRUSR]: drivers/filesystem/nyfs/nyfs_disk.h:149-149 *)
Definition NYFS_MODE_IRUSR : Z := 0x0100.
(** [NYFS_MODE_IWUSR]: drivers/filesystem/nyfs/nyfs_disk.h:150-150 *)
Definition NYFS_MODE_IWUSR : Z := 0x0080.
(** [NYFS_MODE_IXUSR]: drivers/filesystem/nyfs/nyfs_disk.h:151-151 *)
Definition NYFS_MODE_IXUSR : Z := 0x0040.
(** [NYFS_MODE_IRGRP]: drivers/filesystem/nyfs/nyfs_disk.h:152-152 *)
Definition NYFS_MODE_IRGRP : Z := 0x0020.
(** [NYFS_MODE_IWGRP]: drivers/filesystem/nyfs/nyfs_disk.h:153-153 *)
Definition NYFS_MODE_IWGRP : Z := 0x0010.
(** [NYFS_MODE_IXGRP]: drivers/filesystem/nyfs/nyfs_disk.h:154-154 *)
Definition NYFS_MODE_IXGRP : Z := 0x0008.
(** [NYFS_MODE_IROTH]: drivers/filesystem/nyfs/nyfs_disk.h:155-155 *)
Definition NYFS_MODE_IROTH : Z := 0x0004.
(** [NYFS_MODE_IWOTH]: drivers/filesystem/nyfs/nyfs_disk.h:156-156 *)
Definition NYFS_MODE_IWOTH : Z := 0x0002.
(** [NYFS_MODE_IXOTH]: drivers/filesystem/nyfs/nyfs_disk.h:157-157 *)
Definition NYFS_MODE_IXOTH : Z := 0x0001.
(** [NYFS_ACE_READ_DATA]: drivers/filesystem/nyfs/nyfs_disk.h:165-165 *)
Definition NYFS_ACE_READ_DATA : Z := 0x00000001.
(** [NYFS_ACE_WRITE_DATA]: drivers/filesystem/nyfs/nyfs_disk.h:166-166 *)
Definition NYFS_ACE_WRITE_DATA : Z := 0x00000002.
(** [NYFS_ACE_APPEND_DATA]: drivers/filesystem/nyfs/nyfs_disk.h:167-167 *)
Definition NYFS_ACE_APPEND_DATA : Z := 0x00000004.
(** [NYFS_ACE_DELETE_CHILD]: drivers/filesystem/nyfs/nyfs_disk.h:168-168 *)
Definition NYFS_ACE_DELETE_CHILD : Z := 0x00000008.
(** [NYFS_ACE_EXECUTE]: drivers/filesystem/nyfs/nyfs_disk.h:169-169 *)
Definition NYFS_ACE_EXECUTE : Z := 0x00000010.
(** [NYFS_ACE_TYPE_ALLOW]: drivers/filesystem/nyfs/nyfs_disk.h:186-186 *)
Definition NYFS_ACE_TYPE_ALLOW : Z := 0.
(** [NYFS_ACE_TYPE_DENY]: drivers/filesystem/nyfs/nyfs_disk.h:187-187 *)
Definition NYFS_ACE_TYPE_DENY : Z := 1.
(** [NYFS_ACE_FLAG_GROUP]: drivers/filesystem/nyfs/nyfs_disk.h:189-189 *)
Definition NYFS_ACE_FLAG_GROUP : Z := 0x01.
(** [NYFS_ACE_FLAG_INHERIT_FILE]: drivers/filesystem/nyfs/nyfs_disk.h:190-190 *)
Definition NYFS_ACE_FLAG_INHERIT_FILE : Z := 0x02.
(** [NYFS_ACE_FLAG_INHERIT_DIR]: drivers/filesystem/nyfs/nyfs_disk.h:191-191 *)
Definition NYFS_ACE_FLAG_INHERIT_DIR : Z := 0x04.
(** [NYFS_ACE_FLAG_INHERIT_ONLY]: drivers/filesystem/nyfs/nyfs_disk.h:192-192 *)
Definition NYFS_ACE_FLAG_INHERIT_ONLY : Z := 0x08.
(** [NYFS_ACE_FLAG_NO_PROPAGATE]: drivers/filesystem/nyfs/nyfs_disk.h:193-193 *)
Definition NYFS_ACE_FLAG_NO_PROPAGATE : Z := 0x10.
(** [NYFS_ID_EVERYONE]: drivers/filesystem/nyfs/nyfs_disk.h:197-197 *)
Definition NYFS_ID_EVERYONE : Z := 0xFFFFFFFF.

(** ** Who asks *)

(** [nyfs_cred_t]: drivers/filesystem/nyfs/nyfs.h:49-52 *)
Record nyfs_cred_t := mk_cred { cred_uid : Z; cred_gid : Z }.

(** [nyfs_current_cred]: drivers/filesystem/nyfs/nyfs.c:877-886 *)
Definition nyfs_current_cred {F} (current_process : option (process_t F)) : nyfs_cred_t :=
  match current_process with
  | Some p => mk_cred (uid p) (gid p)
  | None => mk_cred 0 0
  end.

(** [nyfs_ace_id_matches]: drivers/filesystem/nyfs/nyfs.c:888-897 *)
Definition nyfs_ace_id_matches (ace : nyfs_ace_t) (cred : nyfs_cred_t) : bool :=
  if ace_id ace =? NYFS_ID_EVERYONE then true
  else if tst (ace_flags ace) NYFS_ACE_FLAG_GROUP then ace_id ace =? cred_gid cred
  else ace_id ace =? cred_uid cred.

(** ** The decision *)

(** The rights three mode bits give. *)
(** [mode_bits]: drivers/filesystem/nyfs/nyfs.c:951-953 *)
Definition mode_bits (mode r w x : Z) : Z :=
  Z.lor (Z.lor (if tst mode r then NYFS_ACE_READ_DATA else 0)
               (if tst mode w then Z.lor NYFS_ACE_WRITE_DATA NYFS_ACE_APPEND_DATA else 0))
        (if tst mode x then NYFS_ACE_EXECUTE else 0).

(** [unix_bits]: drivers/filesystem/nyfs/nyfs.c:947-962 *)
Definition unix_bits (inode : nyfs_inode_t) (cred : nyfs_cred_t) : Z :=
  let mode := in_unix_mode inode in
  if cred_uid cred =? in_uid inode then mode_bits mode NYFS_MODE_IRUSR NYFS_MODE_IWUSR NYFS_MODE_IXUSR
  else if cred_gid cred =? in_gid inode then mode_bits mode NYFS_MODE_IRGRP NYFS_MODE_IWGRP NYFS_MODE_IXGRP
  else mode_bits mode NYFS_MODE_IROTH NYFS_MODE_IWOTH NYFS_MODE_IXOTH.

(** The two loops over the entries. *)
(** [denied]: drivers/filesystem/nyfs/nyfs.c:982-991 *)
Fixpoint denied (aces : list nyfs_ace_t) (cred : nyfs_cred_t) (requested_mask : Z) : bool :=
  match aces with
  | [] => false
  | a :: aces =>
      if tst (ace_flags a) NYFS_ACE_FLAG_INHERIT_ONLY then denied aces cred requested_mask
      else if (ace_type a =? NYFS_ACE_TYPE_DENY) && nyfs_ace_id_matches a cred && tst (ace_access_mask a) requested_mask
      then true
      else denied aces cred requested_mask
  end.

(** [grant]: drivers/filesystem/nyfs/nyfs.c:993-1001 *)
Fixpoint grant (aces : list nyfs_ace_t) (cred : nyfs_cred_t) (granted : Z) : Z :=
  match aces with
  | [] => granted
  | a :: aces =>
      if tst (ace_flags a) NYFS_ACE_FLAG_INHERIT_ONLY then grant aces cred granted
      else if (ace_type a =? NYFS_ACE_TYPE_ALLOW) && nyfs_ace_id_matches a cred
      then grant aces cred (Z.lor granted (ace_access_mask a))
      else grant aces cred granted
  end.

Section acl.
Context {D : Type}.
Abbreviation nst := (nst D).
Implicit Types (s : nst) (inode : nyfs_inode_t) (cred : nyfs_cred_t).

(** [nyfs_gather_aces]: drivers/filesystem/nyfs/nyfs.c:899-932 *)
Definition nyfs_gather_aces inode (max_out : Z) : ST nst (res (list nyfs_ace_t)) := fun s =>
  let n := in_ace_count inode in
  let n := if NYFS_ACL_INLINE_COUNT <? n then NYFS_ACL_INLINE_COUNT else n in
  let n := if max_out <? n then max_out else n in
  let out := take (Z.to_nat n) (in_ace inode) in
  if negb (in_acl_overflow_block inode =? NYFS_BLKNO_NONE) && (0 <? in_acl_overflow_count inode) && (n <? max_out) then
    let extra := in_acl_overflow_count inode in
    let room := max_out - n in
    let extra := if room <? extra then room else extra in
    (bs <-? read_local (at_block (in_acl_overflow_block inode) 0 s) (extra * ACE_SIZE) ;;
     ok (out ++ array_of 12 ace_of (Z.to_nat extra) bs)) s
  else (Ok out, s).

(** [nyfs_check_access]: drivers/filesystem/nyfs/nyfs.c:934-1005 *)
Definition nyfs_check_access inode cred (requested_mask : Z) : ST nst (res unit) :=
  if cred_uid cred =? 0 then ok tt
  else if (in_ace_count inode =? 0) && (in_acl_overflow_count inode =? 0) then
    if Z.land requested_mask (unix_bits inode cred) =? requested_mask then ok tt else fail Npermission
  else
    aces <-? nyfs_gather_aces inode NYFS_MAX_TOTAL_ACES ;;
    if denied aces cred requested_mask then fail Npermission
    else if Z.land requested_mask (grant aces cred 0) =? requested_mask then ok tt else fail Npermission.

(** ** Inheritance *)

Definition set_ace_flags (f : Z) (a : nyfs_ace_t) : nyfs_ace_t :=
  mk_ace (ace_id a) (ace_access_mask a) (ace_type a) f (ace_reserved a).

(** The copy of one entry of the parent. *)
(** [inherit_ace]: drivers/filesystem/nyfs/nyfs.c:1047-1053 *)
Definition inherit_ace (a : nyfs_ace_t) : nyfs_ace_t :=
  let f := Z.land (ace_flags a) (unot 8 NYFS_ACE_FLAG_INHERIT_ONLY) in
  let f := if tst (ace_flags a) NYFS_ACE_FLAG_NO_PROPAGATE
           then Z.land f (unot 8 (Z.lor (Z.lor NYFS_ACE_FLAG_INHERIT_FILE NYFS_ACE_FLAG_INHERIT_DIR)
                                        NYFS_ACE_FLAG_NO_PROPAGATE))
           else f in
  set_ace_flags f a.

(** The parent has at most [NYFS_MAX_TOTAL_ACES] entries, so the copy never
    runs out of room. *)
(** [inherited]: drivers/filesystem/nyfs/nyfs.c:1036-1057 *)
Definition inherited (parent_aces : list nyfs_ace_t) (need_flag : Z) : list nyfs_ace_t :=
  take (Z.to_nat NYFS_MAX_TOTAL_ACES)
    (inherit_ace <$> filter (fun a => tst (ace_flags a) need_flag = true) parent_aces).

(** The first [length new] entries of an inode's array. *)
Definition put_aces (new old : list nyfs_ace_t) : list nyfs_ace_t := new ++ drop (length new) old.

(** The child is changed on the way, also when the function fails. *)
(** [nyfs_inherit_acl]: drivers/filesystem/nyfs/nyfs.c:1018-1105 *)
Definition nyfs_inherit_acl (parent child : nyfs_inode_t) (child_is_dir : bool) : ST nst (res unit * nyfs_inode_t) := fun s =>
  let need_flag := if child_is_dir then NYFS_ACE_FLAG_INHERIT_DIR else NYFS_ACE_FLAG_INHERIT_FILE in
  match nyfs_gather_aces parent NYFS_MAX_TOTAL_ACES s with
  | (Err e, s) => ((Err e, child), s)
  | (Ok parent_aces, s) =>
      let inh := inherited parent_aces need_flag in
      let count := Z.of_nat (length inh) in
      if count =? 0 then ((Ok tt, child), s)
      else if count <=? NYFS_ACL_INLINE_COUNT then
        ((Ok tt, set_in_acl count (put_aces inh (in_ace child)) NYFS_BLKNO_NONE 0 child), s)
      else
        let overflow_count := count - NYFS_ACL_INLINE_COUNT in
        if bsize s <? overflow_count * ACE_SIZE then ((Err Noverflow, child), s)
        else
          let child := set_in_acl NYFS_ACL_INLINE_COUNT (put_aces (take 4 inh) (in_ace child))
                         (in_acl_overflow_block child) (in_acl_overflow_count child) child in
          match nyfs_alloc_block s with
          | (Err e, s) => ((Err e, child), s)
          | (Ok overflow_block, s) =>
              match nyfs_raw_write (at_block overflow_block 0 s) (drop 4 inh ≫= ace_bytes) s with
              | (Err e, s) => ((Err e, child), void (nyfs_free_block overflow_block) s)
              | (Ok _, s) => ((Ok tt, set_in_acl (in_ace_count child) (in_ace child) overflow_block overflow_count child), s)
              end
          end
  end.
End acl.

(** ** The decision, right by right

    A right is a bit of the mask.  Without access control entries the mode
    bits of the owner, of the group or of the others give it; with them, an
    entry for the caller must allow it and none deny it. *)

Definition mode_shift (inode : nyfs_inode_t) (cred : nyfs_cred_t) : Z :=
  if cred_uid cred =? in_uid inode then 6 else if cred_gid cred =? in_gid inode then 3 else 0.
Definition mode_gives (mode shift right : Z) : bool :=
  if right =? 0 then Z.testbit mode (shift + 2)
  else if (right =? 1) || (right =? 2) then Z.testbit mode (shift + 1)
  else if right =? 4 then Z.testbit mode shift
  else false.

(** The entry is for the caller, and not for children only. *)
Definition applies (cred : nyfs_cred_t) (a : nyfs_ace_t) : Prop :=
  Z.testbit (ace_flags a) 3 = false /\
  (ace_id a = NYFS_ID_EVERYONE \/ ace_id a = if Z.testbit (ace_flags a) 0 then cred_gid cred else cred_uid cred).
Definition acl_gives (aces : list nyfs_ace_t) (cred : nyfs_cred_t) (right : Z) : Prop :=
  (exists a, a ∈ aces /\ applies cred a /\ ace_type a = NYFS_ACE_TYPE_ALLOW /\ Z.testbit (ace_access_mask a) right = true) /\
  ~ exists a, a ∈ aces /\ applies cred a /\ ace_type a = NYFS_ACE_TYPE_DENY /\ Z.testbit (ace_access_mask a) right = true.

Lemma mode_bits_testbit mode r w x i : 0 <= r -> 0 <= w -> 0 <= x -> 0 <= i ->
  Z.testbit (mode_bits mode (2 ^ r) (2 ^ w) (2 ^ x)) i =
    if i =? 0 then Z.testbit mode r else if (i =? 1) || (i =? 2) then Z.testbit mode w
    else if i =? 4 then Z.testbit mode x else false.
Proof.
  intros Hr Hw Hx Hi. unfold mode_bits. rewrite !tst_bit by done. rewrite !Z.lor_spec.
  unfold NYFS_ACE_READ_DATA, NYFS_ACE_WRITE_DATA, NYFS_ACE_APPEND_DATA, NYFS_ACE_EXECUTE.
  change (Z.lor 2 4) with 6. assert (Hz : Z.testbit 0 i = false) by apply Z.bits_0.
  destruct (decide (i < 5)) as [Hlt|Hge].
  - assert (H : i = 0 \/ i = 1 \/ i = 2 \/ i = 3 \/ i = 4) by lia.
    destruct H as [->|[->|[->|[->| ->]]]], (Z.testbit mode r), (Z.testbit mode w), (Z.testbit mode x); reflexivity.
  - assert (Hs : forall v, 0 <= v < 2 ^ 5 -> Z.testbit v i = false) by (intros v Hv; by apply (testbit_above 5); lia).
    rewrite (proj2 (Z.eqb_neq i 0)), (proj2 (Z.eqb_neq i 1)), (proj2 (Z.eqb_neq i 2)), (proj2 (Z.eqb_neq i 4)) by lia.
    destruct (Z.testbit mode r), (Z.testbit mode w), (Z.testbit mode x); rewrite ?(Hs 1), ?(Hs 6), ?(Hs 16), ?Hz by lia; done.
Qed.

Lemma unix_bits_testbit inode cred i : 0 <= i -> Z.testbit (unix_bits inode cred) i = mode_gives (in_unix_mode inode) (mode_shift inode cred) i.
Proof.
  intros Hi. unfold unix_bits, mode_gives, mode_shift.
  destruct (_ =? in_uid inode); [|destruct (_ =? in_gid inode)];
    [apply (mode_bits_testbit _ 8 7 6)|apply (mode_bits_testbit _ 5 4 3)|apply (mode_bits_testbit _ 2 1 0)]; lia.
Qed.

(** Asking for a mask is asking for each of its bits. *)
Lemma mask_within m g : 0 <= m -> (Z.land m g =? m) = true <-> forall i, 0 <= i -> Z.testbit m i = true -> Z.testbit g i = true.
Proof.
  intros Hm. rewrite Z.eqb_eq. split.
  - intros E i Hi Ht. rewrite <- E, Z.land_spec in Ht. by apply andb_prop in Ht as [_ ?].
  - intros H. apply Z.bits_inj'. intros i Hi. rewrite Z.land_spec. specialize (H i Hi). destruct (Z.testbit m i); [by rewrite H|done].
Qed.

Lemma tst_exists x m : 0 <= m -> tst x m = true <-> exists i, 0 <= i /\ Z.testbit x i = true /\ Z.testbit m i = true.
Proof.
  intros Hm. unfold tst. rewrite negb_true_iff, Z.eqb_neq. split.
  - intros Hne. assert (Hx : 0 <= Z.land x m) by (apply Z.land_nonneg; by right).
    pose proof (Z.bit_log2 (Z.land x m) ltac:(lia)) as Hb. rewrite Z.land_spec in Hb. apply andb_prop in Hb as [Hb1 Hb2].
    exists (Z.log2 (Z.land x m)). split; [apply Z.log2_nonneg|done].
  - intros (i & Hi & H1 & H2) E. apply (f_equal (fun z => Z.testbit z i)) in E. by rewrite Z.land_spec, H1, H2, Z.bits_0 in E.
Qed.

Lemma applies_eq cred a : negb (tst (ace_flags a) NYFS_ACE_FLAG_INHERIT_ONLY) && nyfs_ace_id_matches a cred = true <-> applies cred a.
Proof.
  unfold applies, nyfs_ace_id_matches. change NYFS_ACE_FLAG_INHERIT_ONLY with (2 ^ 3). change NYFS_ACE_FLAG_GROUP with (2 ^ 0).
  rewrite !tst_bit by lia. destruct (Z.testbit (ace_flags a) 3); cbn [negb andb]; [by split; [|intros [? _]]|].
  destruct (ace_id a =? NYFS_ID_EVERYONE) eqn:E; bool_simpl.
  - split; [intros _; split; [done|by left]|done].
  - destruct (Z.testbit (ace_flags a) 0); rewrite Z.eqb_eq; (split; [intros H; split; [done|by right]|intros (_ & [H|H]); [done|done]]).
Qed.

Lemma denied_spec aces cred m : 0 <= m -> denied aces cred m = true <->
  exists a i, a ∈ aces /\ applies cred a /\ ace_type a = NYFS_ACE_TYPE_DENY /\ 0 <= i /\ Z.testbit (ace_access_mask a) i = true /\ Z.testbit m i = true.
Proof.
  intros Hm. induction aces as [|a aces IH]; cbn [denied].
  { split; [done|]. intros (a & i & []%not_elem_of_nil & _). }
  pose proof (applies_eq cred a) as Ha. pose proof (tst_exists (ace_access_mask a) m Hm) as Ht.
  assert (Hstep : (if tst (ace_flags a) NYFS_ACE_FLAG_INHERIT_ONLY then denied aces cred m
    else if (ace_type a =? NYFS_ACE_TYPE_DENY) && nyfs_ace_id_matches a cred && tst (ace_access_mask a) m then true else denied aces cred m) = true <->
    (applies cred a /\ ace_type a = NYFS_ACE_TYPE_DENY /\ tst (ace_access_mask a) m = true) \/ denied aces cred m = true).
  { rewrite <- Ha, <- Z.eqb_eq. destruct (tst (ace_flags a) _), (ace_type a =? _), (nyfs_ace_id_matches a cred), (tst (ace_access_mask a) m); cbn [negb andb]; intuition congruence. }
  rewrite Hstep, IH, Ht. split.
  - intros [(H1 & H2 & i & H3)|(b & i & Hb & H)]; [exists a, i; split; [left|tauto]|exists b, i; split; [by right|done]].
  - intros (b & i & [->|Hb]%elem_of_cons & H1 & H2 & H3); [left; split; [done|]; split; [done|]; by exists i|right; exists b, i; split; [done|]; split; [done|]; by split].
Qed.

Lemma grant_spec aces cred g i : 0 <= i -> Z.testbit (grant aces cred g) i = true <->
  Z.testbit g i = true \/ exists a, a ∈ aces /\ applies cred a /\ ace_type a = NYFS_ACE_TYPE_ALLOW /\ Z.testbit (ace_access_mask a) i = true.
Proof.
  intros Hi. revert g. induction aces as [|a aces IH]; intros g; cbn [grant].
  { split; [by left|]. intros [?|(a & []%not_elem_of_nil & _)]. done. }
  pose proof (applies_eq cred a) as Ha.
  assert (Hstep : Z.testbit (grant (a :: aces) cred g) i = true <->
    (applies cred a /\ ace_type a = NYFS_ACE_TYPE_ALLOW /\ Z.testbit (ace_access_mask a) i = true) \/ Z.testbit (grant aces cred g) i = true).
  { cbn [grant]. rewrite <- Ha, <- Z.eqb_eq. destruct (tst (ace_flags a) _), (ace_type a =? _), (nyfs_ace_id_matches a cred); cbn [negb andb];
      rewrite ?IH, ?Z.lor_spec, ?orb_true_iff; intuition congruence. }
  cbn [grant] in Hstep. rewrite Hstep, IH. split.
  - intros [(H1 & H2 & H3)|[H|(b & Hb & H)]]; [right; exists a; split; [left|done]|by left|right; exists b; split; [by right|done]].
  - intros [H|(b & [->|Hb]%elem_of_cons & H)]; [right; by left|by left|right; right; by exists b].
Qed.

Section decision.
Context {D : Type}.
Implicit Types (s : nst D) (inode : nyfs_inode_t) (cred : nyfs_cred_t).

(** C20: [nyfs_check_access] grants a request exactly if the caller is root, or
    each right asked for is given - by the mode bits of the caller's class for
    an inode without entries, and otherwise by the entries that apply to the
    caller, where one that denies a right outweighs all that allow it; a
    refusal is [Npermission], and looking changes nothing but what reading the
    entries changes. *)
Theorem access_decision inode cred mask s aces s' : 0 <= mask -> nyfs_gather_aces inode NYFS_MAX_TOTAL_ACES s = (Ok aces, s') ->
  exists r s2, nyfs_check_access inode cred mask s = (r, s2) /\ (r = Ok tt \/ r = Err Npermission) /\ (s2 = s \/ s2 = s') /\
    (r = Ok tt <-> cred_uid cred = 0 \/ forall right, 0 <= right -> Z.testbit mask right = true ->
      if (in_ace_count inode =? 0) && (in_acl_overflow_count inode =? 0)
      then mode_gives (in_unix_mode inode) (mode_shift inode cred) right = true
      else acl_gives aces cred right).
Proof.
  intros Hm Hg. unfold nyfs_check_access. destruct (cred_uid cred =? 0) eqn:Eu; bool_simpl.
  { eexists _, _. split; [done|]. split; [by left|]. split; [by left|]. split; [by left|done]. }
  destruct ((in_ace_count inode =? 0) && (in_acl_overflow_count inode =? 0)).
  - pose proof (mask_within mask (unix_bits inode cred) Hm) as Hw.
    destruct (Z.land mask (unix_bits inode cred) =? mask); (eexists _, _; split; [done|]; split; [auto|]; split; [by left|]).
    + split; [intros _; right|done]. intros i Hi Ht. rewrite <- unix_bits_testbit by done. by apply Hw.
    + split; [done|]. intros [?|H]; [done|]. exfalso. destruct Hw as [_ Hw]. discriminate Hw. intros i Hi Ht. rewrite unix_bits_testbit by done. by apply H.
  - unfold tryb. rewrite Hg. pose proof (denied_spec aces cred mask Hm) as Hd. destruct (denied aces cred mask).
    + eexists _, _. split; [done|]. split; [by right|]. split; [by right|]. split; [done|]. intros [?|H]; [done|]. exfalso.
      destruct Hd as [(a & i & Ha & Hap & Hty & Hi & H1 & H2) _]; [done|]. destruct (H i Hi H2) as [_ Hno]. apply Hno. by exists a.
    + pose proof (mask_within mask (grant aces cred 0) Hm) as Hw.
      assert (Hgr : forall i, 0 <= i -> Z.testbit mask i = true -> Z.testbit (grant aces cred 0) i = true <-> acl_gives aces cred i).
      { intros i Hi Ht. rewrite grant_spec by done. rewrite Z.bits_0. split.
        - intros [?|Ha]; [done|]. split; [exact Ha|]. intros (a & Hin & Hap & Hty & Hb). discriminate (proj2 Hd). by exists a, i.
        - intros [Ha _]. by right. }
      destruct (Z.land mask (grant aces cred 0) =? mask); (eexists _, _; split; [done|]; split; [auto|]; split; [by right|]).
      * split; [intros _; right|done]. intros i Hi Ht. apply Hgr; [done..|]. by apply Hw.
      * split; [done|]. intros [?|H]; [done|]. exfalso. discriminate (proj2 Hw). intros i Hi Ht. by apply Hgr, H.
Qed.
End decision.

(** A caller of the group whose name is on a denying entry for the group. *)
Definition ex_acl : list nyfs_ace_t :=
  [mk_ace 7 2 NYFS_ACE_TYPE_DENY NYFS_ACE_FLAG_GROUP 0; mk_ace NYFS_ID_EVERYONE 3 NYFS_ACE_TYPE_ALLOW 0 0].
Definition ex_acl_inode : nyfs_inode_t := set_in_acl 2 (ex_acl ++ replicate 2 zero_ace) NYFS_BLKNO_NONE 0 zero_inode.
Definition ex_nst : nst unit := mk_nst (mk_vol true 0 None None zero_sb 512 [] None) tt.

Lemma access_decision_witness : exists r s2,
  nyfs_check_access ex_acl_inode (mk_cred 5 7) NYFS_ACE_WRITE_DATA ex_nst = (r, s2) /\ (r = Ok tt \/ r = Err Npermission) /\ (s2 = ex_nst \/ s2 = ex_nst) /\
    (r = Ok tt <-> 5 = 0 \/ forall right, 0 <= right -> Z.testbit NYFS_ACE_WRITE_DATA right = true -> acl_gives ex_acl (mk_cred 5 7) right).
Proof. exact (access_decision ex_acl_inode (mk_cred 5 7) NYFS_ACE_WRITE_DATA ex_nst ex_acl ex_nst ltac:(done) eq_refl). Defined.
