(* ===== verification/NyfsDir.v ===== *)
(** * Directories of NYFS: [drivers/filesystem/nyfs/nyfs.c]

    The hash table in a directory's stream: a header, the bucket array, and
    the entries, linked from the buckets by offsets in the stream.  [stack] is
    what the local buffers hold before a read fills them: of the counts the
    reads give, the driver checks those of the header and of the entries, not
    those of the bucket and of the name. *)

From S2P Require Import Prelude Types Loops Bytes NyfsDisk Nyfs.

Section dir.
Context {D : Type} (stack : list Z).
Abbreviation nst := (nst D).
Implicit Types (s : nst) (dir : nyfs_inode_t) (name : list Z).
Local Notation "x <-! c ;; k" := (stepb c (fun x => k)) (at level 100, c at next level, right associativity).

(** [namelen == 0 || namelen > NYFS_NAME_MAX]. *)
Definition bad_name name : bool := (length name =? 0)%nat || (NYFS_NAME_MAX <? Z.of_nat (length name)).

(** The header, checked. *)
(** [nyfs_dirhash_lookup, the header]: drivers/filesystem/nyfs/nyfs.c:1170-1176 *)
Definition read_dhdr (root : Z) : ST nst (res nyfs_dirhash_header_t) :=
  r <-? read_stream stack root 0 DHDR_SIZE ;;
  let '(bs, got) := r in
  let hdr := dhdr_of bs in
  if negb (got =? DHDR_SIZE) || negb (dh_magic hdr =? NYFS_DIRHASH_MAGIC) || (dh_bucket_count hdr =? 0)
  then fail Ncorrupted else ok hdr.

Definition bucket_slot (hdr : nyfs_dirhash_header_t) (hash : Z) : Z := DHDR_SIZE + (hash mod dh_bucket_count hdr) * 8.

(** A bucket, the count unchecked. *)
Definition read_bucket (root off : Z) : ST nst (res Z) :=
  r <-? read_stream stack root off 8 ;; ok (field 0 8 r.1).

(** An entry. *)
(** [nyfs_dirhash_lookup, the entry]: drivers/filesystem/nyfs/nyfs.c:1191-1197 *)
Definition read_dirent (root cur : Z) : ST nst (res nyfs_dirent_t) :=
  r <-? read_stream stack root cur DIRENT_SIZE ;;
  if negb (r.2 =? DIRENT_SIZE) then fail Ncorrupted else ok (de_of r.1).

(** Whether the entry at [cur] has the name: hash and length first, then the
    bytes. *)
(** [entry_is]: drivers/filesystem/nyfs/nyfs.c:1199-1208 *)
Definition entry_is (root cur : Z) (de : nyfs_dirent_t) name (hash : Z) : ST nst (res bool) :=
  if (de_name_hash de =? hash) && (de_name_len de =? Z.of_nat (length name)) then
    r <-? read_stream stack root (u64 (cur + DIRENT_SIZE)) (Z.of_nat (length name)) ;;
    ok (bool_decide (r.1 = name))
  else ok false.

(** The number and the type of the entry. *)
(** [nyfs_dirhash_lookup]: drivers/filesystem/nyfs/nyfs.c:1150-1219 *)
Definition nyfs_dirhash_lookup dir name : ST nst (res (Z * Z)) :=
  let root := in_dir_hash_root dir in
  if root =? NYFS_BLKNO_NONE then fail NnotFound
  else if bad_name name then fail NinvalidArg
  else
    hdr <-? read_dhdr root ;;
    let hash := nyfs_hash_name name in
    bucket_off <-? read_bucket root (bucket_slot hdr hash) ;;
    run hung (fun cur =>
      if cur =? 0 then ret (inr (Err NnotFound))
      else
        de <-! read_dirent root cur ;;
        found <-! entry_is root cur de name hash ;;
        if (found : bool) then ret (inr (Ok (de_ino de, de_file_type de)))
        else ret (inl (de_next_offset de))) bucket_off.

(** A write to the stream of [dir], whose root it may change, also when it
    fails. *)
Definition dir_write dir (off : Z) (buffer : list Z) (k : nyfs_inode_t -> ST nst (res unit * nyfs_inode_t))
  : ST nst (res unit * nyfs_inode_t) := fun s =>
  let '((r, root), s) := nyfs_extent_write_at (in_dir_hash_root dir) off buffer s in
  let dir := set_in_dir root (in_dir_entry_count dir) dir in
  match r with
  | Err e => ((Err e, dir), s)
  | Ok _ => k dir s
  end.

Definition set_entries (n : Z) dir : nyfs_inode_t := set_in_dir (in_dir_hash_root dir) n dir.

(** [nyfs_dirhash_create]: drivers/filesystem/nyfs/nyfs.c:1111-1148 *)
Definition nyfs_dirhash_create dir : ST nst (res unit * nyfs_inode_t) :=
  let hdr := mk_dhdr NYFS_DIRHASH_MAGIC NYFS_DIRHASH_DEFAULT_BUCKETS 0 (DHDR_SIZE + NYFS_DIRHASH_DEFAULT_BUCKETS * 8) 0 0 in
  let buckets := replicate (Z.to_nat (NYFS_DIRHASH_DEFAULT_BUCKETS * 8)) 0 in
  dir_write (set_in_dir NYFS_BLKNO_NONE (in_dir_entry_count dir) dir) 0 (dhdr_bytes hdr) (fun dir =>
  dir_write dir DHDR_SIZE buckets (fun dir => ret (Ok tt, set_entries 0 dir))).

(** The part of [nyfs_dirhash_insert] after the table is there. *)
(** [insert_entry]: drivers/filesystem/nyfs/nyfs.c:1248-1301 *)
Definition insert_entry dir name (ino file_type : Z) : ST nst (res unit * nyfs_inode_t) := fun s =>
  let root := in_dir_hash_root dir in
  let hash := nyfs_hash_name name in
  match (hdr <-? read_dhdr root ;;
         old_head <-? read_bucket root (bucket_slot hdr hash) ;;
         ok (hdr, old_head)) s with
  | (Err e, s) => ((Err e, dir), s)
  | (Ok (hdr, old_head), s) =>
      let namelen := Z.of_nat (length name) in
      let de := mk_de ino old_head hash (u16 namelen) (u8 file_type) 0 in
      let record_offset := dh_free_offset hdr in
      let record_size := Z.land (DIRENT_SIZE + namelen + 7) (unot 64 7) in
      let hdr' := set_dh (u64 (dh_entry_count hdr + 1)) (u64 (record_offset + record_size)) hdr in
      dir_write dir record_offset (de_bytes de) (fun dir =>
      dir_write dir (u64 (record_offset + DIRENT_SIZE)) name (fun dir =>
      dir_write dir (bucket_slot hdr hash) (le_bytes 8 record_offset) (fun dir =>
      dir_write dir 0 (dhdr_bytes hdr') (fun dir =>
      ret (Ok tt, set_entries (dh_entry_count hdr') dir))))) s
  end.

(** [nyfs_dirhash_insert]: drivers/filesystem/nyfs/nyfs.c:1221-1305 *)
Definition nyfs_dirhash_insert dir name (ino file_type : Z) : ST nst (res unit * nyfs_inode_t) := fun s =>
  if bad_name name then ((Err NinvalidArg, dir), s)
  else if in_dir_hash_root dir =? NYFS_BLKNO_NONE then
    match nyfs_dirhash_create dir s with
    | ((Err e, dir), s) => ((Err e, dir), s)
    | ((Ok _, dir), s) => insert_entry dir name ino file_type s
    end
  else insert_entry dir name ino file_type s.

(** The walk to the entry: where the link to it is, and where it leads. *)
(** [find_link]: drivers/filesystem/nyfs/nyfs.c:1345-1405 *)
Definition find_link (root slot : Z) name (hash : Z) (first : Z) : ST nst (res (Z * Z)) :=
  run hung (fun '(prev_offset, cur) =>
    if cur =? 0 then ret (inr (Err NnotFound))
    else
      de <-! read_dirent root cur ;;
      found <-! entry_is root cur de name hash ;;
      if (found : bool)
      then ret (inr (Ok (if prev_offset =? 0 then slot else u64 (prev_offset + 8), de_next_offset de)))
      else ret (inl (cur, de_next_offset de))) (0, first).

(** [nyfs_dirhash_remove]: drivers/filesystem/nyfs/nyfs.c:1311-1408 *)
Definition nyfs_dirhash_remove dir name : ST nst (res unit * nyfs_inode_t) := fun s =>
  let root := in_dir_hash_root dir in
  if root =? NYFS_BLKNO_NONE then ((Err NnotFound, dir), s)
  else if bad_name name then ((Err NinvalidArg, dir), s)
  else
    let hash := nyfs_hash_name name in
    match (hdr <-? read_dhdr root ;;
           first <-? read_bucket root (bucket_slot hdr hash) ;;
           link <-? find_link root (bucket_slot hdr hash) name hash first ;;
           ok (hdr, link)) s with
    | (Err e, s) => ((Err e, dir), s)
    | (Ok (hdr, (link, next)), s) =>
        let hdr' := set_dh (u64 (dh_entry_count hdr - 1)) (dh_free_offset hdr) hdr in
        dir_write dir link (le_bytes 8 next) (fun dir =>
        dir_write dir 0 (dhdr_bytes hdr') (fun dir =>
        ret (Ok tt, set_entries (dh_entry_count hdr') dir))) s
    end.

(** ** Listing *)

(** The walk along one bucket: [seen] entries before it.  An entry found is
    the result; otherwise the new count. *)
(** [readdir_bucket]: drivers/filesystem/nyfs/nyfs.c:2013-2044 *)
Definition readdir_bucket (root index name_out_max seen first : Z) : ST nst (res (Z + list Z * Z)) :=
  run hung (fun '(seen, cur) =>
    if cur =? 0 then ret (inr (Ok (inl seen)))
    else
      de <-! read_dirent root cur ;;
      if seen =? index then
        let copy_len := if name_out_max <=? de_name_len de then name_out_max - 1 else de_name_len de in
        r <-! read_stream stack root (u64 (cur + DIRENT_SIZE)) copy_len ;;
        ret (inr (Ok (inr (r.1, de_file_type de))))
      else ret (inl (u64 (seen + 1), de_next_offset de))) (seen, first).

(** The name - what the caller's buffer holds before the terminator - and the
    type of entry [index] in the order of the buckets. *)
(** [readdir_table]: drivers/filesystem/nyfs/nyfs.c:1993-2048 *)
Definition readdir_table (root index name_out_max : Z) : ST nst (res (list Z * Z)) :=
  hdr <-? read_dhdr root ;;
  run hung (fun '(b, seen) =>
    if b <? dh_bucket_count hdr then
      bucket_off <-! read_bucket root (DHDR_SIZE + b * 8) ;;
      r <-! readdir_bucket root index name_out_max seen bucket_off ;;
      match r with
      | inr entry => ret (inr (Ok entry))
      | inl seen => ret (inl (b + 1, seen))
      end
    else ret (inr (Err NnotFound))) (0, 0).
End dir.
