(* ===== verification/NyfsNodes.v ===== *)
(** * Operations of NYFS on inodes and directories: [drivers/filesystem/nyfs/nyfs.c]

    What create, mkdir, unlink, rename and write do to the volume, once the
    directory's inode is read and the access is checked, and format.  The
    vnodes and handles around them are in [NyfsFs]. *)

From S2P Require Import Prelude Types Loops Bytes NyfsDisk Nyfs NyfsAcl NyfsDir.

Section nodes.
Context {D : Type} (stack : list Z).
Abbreviation nst := (nst D).
Implicit Types (s : nst) (dir : nyfs_inode_t) (name : list Z).

(** The stream of inode [ino] is written, then the inode with its new root and
    size. *)
(** [nyfs_write, the stream]: drivers/filesystem/nyfs/nyfs.c:1590-1613 *)
Definition write_file (ino offset : Z) (buffer : list Z) : ST nst (res Z) :=
  inode <-? nyfs_read_inode ino ;;
  w <- nyfs_extent_write_at (in_data_extent_root inode) offset buffer ;;
  match w with
  | (Err e, _) => fail e
  | (Ok written, root) =>
      let end_ := u64 (offset + written) in
      let size := if in_size inode <? end_ then end_ else in_size inode in
      _ <-? nyfs_write_inode ino (set_in_data size root inode) ;; ok written
  end.

(** A pair result whose failure frees the new inode. *)
Definition or_free {A B} (new_ino : Z) (c : ST nst (res unit * A)) (k : A -> ST nst (res B)) : ST nst (res B) := fun s =>
  match c s with
  | ((Ok _, a), s) => k a s
  | ((Err e, _), s) => (Err e, void (nyfs_free_inode new_ino) s)
  end.

(** The inode of a new file or directory, before its access control entries. *)
(** [new_inode]: drivers/filesystem/nyfs/nyfs.c:1813-1819 *)
Definition new_inode (ino type mode : Z) (cred : nyfs_cred_t) : nyfs_inode_t :=
  set_in_owner ino type (u16 (Z.land mode 0x0FFF)) (cred_uid cred) (cred_gid cred) 1 zero_inode.

(** What [nyfs_create] and [nyfs_mkdir] share; a directory also gets its hash
    table.  The result is the new number. *)
(** [nyfs_mkdir, the node]: drivers/filesystem/nyfs/nyfs.c:1800-1848 *)
Definition make_node (dir_ino : Z) dir name (mode : Z) (cred : nyfs_cred_t) (is_dir : bool) : ST nst (res Z) := fun s =>
  let type := if is_dir then NYFS_INO_TYPE_DIR else NYFS_INO_TYPE_FILE in
  match nyfs_dirhash_lookup stack dir name s with
  | (Ok _, s) => (Err NalreadyExists, s)
  | (Err NnotFound, s) =>
      (new_ino <-? nyfs_alloc_inode ;;
       or_free new_ino (nyfs_inherit_acl dir (new_inode new_ino type mode cred) is_dir) (fun inode =>
       or_free new_ino (if is_dir then nyfs_dirhash_create inode else ret (Ok tt, inode)) (fun inode =>
       or_else (nyfs_write_inode new_ino inode) (void (nyfs_free_inode new_ino)) (fun _ =>
       or_free new_ino (nyfs_dirhash_insert stack dir name new_ino type) (fun dir =>
       _ <-? nyfs_write_inode dir_ino dir ;;
       ok new_ino))))) s
  | (Err e, s) => (Err e, s)
  end.

(** The blocks and the number of an inode without links. *)
(** [nyfs_unlink, the release]: drivers/filesystem/nyfs/nyfs.c:1940-1950 *)
Definition release_node (ino : Z) (i : nyfs_inode_t) s : nst :=
  if in_link_count i =? 0 then
    let s := if in_type i =? NYFS_INO_TYPE_DIR then void (nyfs_free_extent_chain (in_dir_hash_root i)) s else s in
    let s := void (nyfs_free_extent_chain (in_data_extent_root i)) s in
    void (nyfs_free_inode ino) s
  else void (nyfs_write_inode ino i) s.

(** [nyfs_unlink, the node]: drivers/filesystem/nyfs/nyfs.c:1910-1952 *)
Definition unlink_node (dir_ino : Z) dir name : ST nst (res unit) :=
  target <-? nyfs_dirhash_lookup stack dir name ;;
  let target_ino := target.1 in
  target_inode <-? nyfs_read_inode target_ino ;;
  if (in_type target_inode =? NYFS_INO_TYPE_DIR) && (0 <? in_dir_entry_count target_inode) then fail Nbusy
  else
    r <- nyfs_dirhash_remove stack dir name ;;
    match r with
    | (Err e, _) => fail e
    | (Ok _, dir) =>
        _ <-? nyfs_write_inode dir_ino dir ;;
        let links := in_link_count target_inode in
        let target_inode :=
          set_in_owner (in_ino target_inode) (in_type target_inode) (in_unix_mode target_inode) (in_uid target_inode)
            (in_gid target_inode) (if 0 <? links then links - 1 else links) target_inode in
        fun s => (Ok tt, release_node target_ino target_inode s)
    end.

(** From the lookups on; [new_dir] is the other directory's inode, [None] for
    the same directory. *)
(** [nyfs_rename, the entry]: drivers/filesystem/nyfs/nyfs.c:2115-2166 *)
Definition rename_node (old_ino new_ino : Z) (old_dir : nyfs_inode_t) (new_dir : option nyfs_inode_t)
    (old_name new_name : list Z) : ST nst (res unit) :=
  moved <-? nyfs_dirhash_lookup stack old_dir old_name ;;
  let '(moved_ino, moved_type) := moved in
  if bool_decide (new_dir = None) && bool_decide (old_name = new_name) then ok tt
  else if (moved_type =? 2) && (moved_ino =? new_ino) then fail NinvalidArg
  else
    r <- nyfs_dirhash_lookup stack (default old_dir new_dir) new_name ;;
    match r with
    | Ok _ => fail NalreadyExists
    | Err NnotFound =>
        r <- nyfs_dirhash_remove stack old_dir old_name ;;
        match r with
        | (Err e, _) => fail e
        | (Ok _, old_dir) =>
            r <- nyfs_dirhash_insert stack (default old_dir new_dir) new_name moved_ino moved_type ;;
            match r with
            | (Err e, dir) => fun s =>
                let old_dir := match new_dir with None => dir | Some _ => old_dir end in
                let '((_, old_dir), s) := nyfs_dirhash_insert stack old_dir old_name moved_ino moved_type s in
                (Err e, void (nyfs_write_inode old_ino old_dir) s)
            | (Ok _, dir) =>
                match new_dir with
                | None => nyfs_write_inode old_ino dir
                | Some _ => _ <-? nyfs_write_inode old_ino old_dir ;; nyfs_write_inode new_ino dir
                end
            end
        end
    | Err e => fail e
    end.
End nodes.
