(* ===== verification/NyfsFormat.v ===== *)
(** * Making a NYFS volume: [nyfs_format] of [drivers/filesystem/nyfs/nyfs.c]

    The layout is computed from the parameters; then a temporary volume, in no
    table, is filled with the functions of the storage layer. *)

From S2P Require Import Prelude Types Loops Bytes NyfsDisk Nyfs NyfsAcl NyfsDir.

(** The parameters [format] looks at. *)
Record format_params (D : Type) := mk_fparams {
  fp_read : option (nyfs_disk_read_fn D);
  fp_write : option (nyfs_disk_write_fn D);
  fp_total_blocks : Z;
  fp_inode_count : Z;
  fp_block_size_shift : Z;
}.
Arguments mk_fparams {D}.
Arguments fp_read {D}.
Arguments fp_write {D}.
Arguments fp_total_blocks {D}.
Arguments fp_inode_count {D}.
Arguments fp_block_size_shift {D}.

(** How many blocks of [bs] bytes hold [bytes], at least one. *)
(** [blocks_for]: drivers/filesystem/nyfs/nyfs.c:2357-2360 *)
Definition blocks_for (bs bytes : Z) : Z :=
  let blocks := u64 (bytes + bs - 1) / bs in
  if blocks =? 0 then 1 else blocks.

(** [fl_clear] blocks, from block 1 on, are the two bitmaps. *)
Record format_layout := mk_flayout { fl_sb : nyfs_superblock_t; fl_clear : Z; fl_first_data : Z }.

(** [format_layout_of]: drivers/filesystem/nyfs/nyfs.c:2348-2397 *)
Definition format_layout_of (bs total_blocks inode_count shift : Z) : res format_layout :=
  let inode_count :=
    if inode_count =? 0 then let n := total_blocks / 8 in if n <? 16 then 16 else n else inode_count in
  let inode_bitmap_blocks := blocks_for bs (u64 (inode_count + 7) / 8) in
  let block_bitmap_blocks := blocks_for bs (u64 (total_blocks + 7) / 8) in
  let inode_table_blocks := blocks_for bs (u64 (inode_count * INODE_SIZE)) in
  let inode_bitmap_start := 1 in
  let alloc_meta_start := u64 (inode_bitmap_start + inode_bitmap_blocks) in
  let inode_table_start := u64 (alloc_meta_start + block_bitmap_blocks) in
  let first_data_block := u64 (inode_table_start + inode_table_blocks) in
  if total_blocks <=? first_data_block then Err NinvalidArg
  else
    Ok (mk_flayout
      (mk_sb NYFS_MAGIC NYFS_VERSION SB_SIZE shift NYFS_ALLOC_BITMAP (replicate 2 0) (replicate 32 0)
         total_blocks (total_blocks - first_data_block) inode_table_start inode_count inode_count
         alloc_meta_start block_bitmap_blocks inode_bitmap_start 0 0 0 0 0 0 0 0 0 (replicate 92 0))
      (u64 (inode_bitmap_blocks + block_bitmap_blocks)) first_data_block).

(** The root directory before its hash table. *)
(** [root_inode]: drivers/filesystem/nyfs/nyfs.c:2458-2466 *)
Definition root_inode : nyfs_inode_t :=
  set_in_owner NYFS_ROOT_INO NYFS_INO_TYPE_DIR
    (u16 (Z.lor NYFS_MODE_IRUSR (Z.lor NYFS_MODE_IWUSR (Z.lor NYFS_MODE_IXUSR
      (Z.lor NYFS_MODE_IRGRP (Z.lor NYFS_MODE_IXGRP (Z.lor NYFS_MODE_IROTH NYFS_MODE_IXOTH))))))) 0 0 1 zero_inode.

Section format.
Context {D : Type}.
Abbreviation nst := (nst D).
Local Notation "x <-! c ;; k" := (stepb c (fun x => k)) (at level 100, c at next level, right associativity).

(** [for (i = 0; i < n; i++)] with a body that may fail. *)
Definition for_each (n : Z) (body : Z -> ST nst (res unit)) : ST nst (res unit) :=
  run hung (fun i => if i <? n then _ <-! body i ;; ret (inl (i + 1)) else ret (inr (Ok tt))) 0.

(** The inode bitmap and the block bitmap, byte by byte. *)
(** [clear_bitmaps]: drivers/filesystem/nyfs/nyfs.c:2408-2420 *)
Definition clear_bitmaps (start blocks : Z) : ST nst (res unit) :=
  for_each blocks (fun i s =>
    for_each (bsize s) (fun b s => nyfs_raw_write (u64 (u64 (start + i) * bsize s + b)) [0] s) s).

(** From the first write of the superblock on, the volume's [vol_sb] being the
    new superblock. *)
(** [nyfs_format, the writes]: drivers/filesystem/nyfs/nyfs.c:2401-2481 *)
Definition format_volume (l : format_layout) : ST nst (res unit) :=
  let bitmap := sb_inode_bitmap_start (fl_sb l) in
  _ <-? nyfs_flush_superblock ;;
  _ <-? clear_bitmaps bitmap (fl_clear l) ;;
  _ <-? for_each (fl_first_data l) (fun i => nyfs_bitmap_put (sb_alloc_meta_start (fl_sb l)) i true) ;;
  _ <-? nyfs_bitmap_put bitmap 0 true ;;
  fun s =>
    (_ <-? nyfs_flush_superblock ;;
     root_ino <-? nyfs_alloc_inode ;;
     if negb (root_ino =? NYFS_ROOT_INO) then fail Ncorrupted
     else
       r <- nyfs_dirhash_create root_inode ;;
       match r with
       | (Err e, _) => fail e
       | (Ok _, root) =>
           _ <-? nyfs_write_inode NYFS_ROOT_INO root ;;
           nyfs_flush_superblock
       end) (add_counts 0 (-1) s).

(** [nyfs_format, the parameters]: drivers/filesystem/nyfs/nyfs.c:2328-2346 *)
Definition format_disk (diskno : Z) (p : format_params D) : ST D (res unit) := fun d =>
  match fp_read p, fp_write p with
  | Some _, Some _ =>
      let shift := fp_block_size_shift p in
      if (shift <? NYFS_BLOCK_SIZE_SHIFT_MIN) || (NYFS_BLOCK_SIZE_SHIFT_MAX <? shift) then (Err NinvalidArg, d)
      else if fp_total_blocks p <? 64 then (Err NinvalidArg, d)
      else
        let bs := Z.shiftl 1 shift in
        match format_layout_of bs (fp_total_blocks p) (fp_inode_count p) shift with
        | Err e => (Err e, d)
        | Ok l =>
            let '(r, s) := format_volume l (mk_nst (mk_vol false diskno (fp_read p) (fp_write p) (fl_sb l) bs [] None) d) in
            (r, n_disk s)
        end
  | _, _ => (Err NinvalidArg, d)
  end.
End format.
