(* ===== verification/NyfsFs.v ===== *)
(** * The NYFS driver under the VFS: [drivers/filesystem/nyfs/nyfs.c]

    The driver's tables, its operations on vnodes and handles, mounting and
    formatting.  A volume pointer is its index in [g_volumes]; the process
    whose identity decides the accesses is [current_process]. *)

From S2P Require Import Prelude Types Loops Bytes Process FileIO FsCore Vfs NyfsDisk Nyfs NyfsAcl NyfsDir NyfsNodes NyfsFormat.

(** [NYFS_MAX_VOLUMES]: drivers/filesystem/nyfs/nyfs.c:51-51 *)
Definition NYFS_MAX_VOLUMES : nat := 8.
(** [NYFS_MAX_VNODE_DATA]: drivers/filesystem/nyfs/nyfs.c:52-52 *)
Definition NYFS_MAX_VNODE_DATA : nat := 256.
(** [NYFS_MAX_HANDLES]: drivers/filesystem/nyfs/nyfs.c:53-53 *)
Definition NYFS_MAX_HANDLES : nat := 128.

(** The one table of operations. *)
(** [g_nyfs_ops]: drivers/filesystem/nyfs/nyfs.c:98-98 *)
Inductive nyfs_tbl := NyfsOps.

(** A [nyfs_vnode_data_t *] points into [g_vnode_data] or [g_handle_slots]. *)
Inductive nyfs_ptr := NVnodeData (i : nat) | NHandleData (i : nat).

(** [nyfs_vnode_data_t]: drivers/filesystem/nyfs/nyfs.c:80-83 *)
Record nyfs_vnode_data_t := mk_nd { nd_vol : option nat; nd_ino : Z }.
(** [nyfs_vnode_slot_t]: drivers/filesystem/nyfs/nyfs.c:85-88 *)
Record nyfs_slot_t := mk_nslot { nsl_in_use : bool; nsl_entry : nyfs_vnode_data_t }.
Definition zero_nd : nyfs_vnode_data_t := mk_nd None 0.
Definition zero_nslot : nyfs_slot_t := mk_nslot false zero_nd.

(** The parameter [info] is the transfer functions' own. *)
(** [nyfs_mount_params_t]: drivers/filesystem/nyfs/nyfs.h:32-40 *)
Record nyfs_mount_params_t (D : Type) := mk_nparams {
  np_mount_path : option (list Z);
  np_read : option (nyfs_disk_read_fn D);
  np_write : option (nyfs_disk_write_fn D);
  np_total_blocks : Z;
  np_inode_count : Z;
  np_block_size_shift : Z;
}.
Arguments mk_nparams {D}.
Arguments np_mount_path {D}.
Arguments np_read {D}.
Arguments np_write {D}.
Arguments np_total_blocks {D}.
Arguments np_inode_count {D}.
Arguments np_block_size_shift {D}.

(** The driver's variables, and the disks. *)
(** [g_volumes]: drivers/filesystem/nyfs/nyfs.c:95-97 *)
Record nyfs_st (D : Type) := mk_nyfs {
  g_volumes : list (nyfs_volume_t D);
  g_nyfs_vnode_data : list nyfs_slot_t;
  g_nyfs_handle_slots : list nyfs_slot_t;
  nyfs_disk : D;
}.
Arguments mk_nyfs {D}.
Arguments g_volumes {D}.
Arguments g_nyfs_vnode_data {D}.
Arguments g_nyfs_handle_slots {D}.
Arguments nyfs_disk {D}.

Section driver.
Context {D F : Type} (current_process : option (process_t F)) (stack : list Z).
Abbreviation volume := (nyfs_volume_t D).
Abbreviation nst := (nst D).
Abbreviation vfs := (vfs nyfs_tbl nyfs_ptr (nyfs_st D)).
Abbreviation handle_t := (handle_t nyfs_ptr).
Implicit Types (x : nyfs_st D) (s : vfs) (v : volume).

Definition zero_vol : volume := mk_vol false 0 None None zero_sb 0 [] None.

Definition with_volumes l x : nyfs_st D := mk_nyfs l (g_nyfs_vnode_data x) (g_nyfs_handle_slots x) (nyfs_disk x).
Definition with_nvnode_data l x : nyfs_st D := mk_nyfs (g_volumes x) l (g_nyfs_handle_slots x) (nyfs_disk x).
Definition with_nhandle_slots l x : nyfs_st D := mk_nyfs (g_volumes x) (g_nyfs_vnode_data x) l (nyfs_disk x).
Definition with_ndisk d x : nyfs_st D := mk_nyfs (g_volumes x) (g_nyfs_vnode_data x) (g_nyfs_handle_slots x) d.

Definition on_nyfs (f : nyfs_st D -> nyfs_st D) s : vfs := with_driver (f (g_driver s)) s.
Definition volume_ (i : nat) s : volume := default zero_vol (g_volumes (g_driver s) !! i).
Definition set_volume (i : nat) v s : vfs := on_nyfs (fun x => with_volumes (<[i := v]> (g_volumes x)) x) s.

(** A function of the storage layer on volume [i]. *)
Definition on_volume {A} (i : nat) (c : ST nst A) : ST vfs A := fun s =>
  let '(a, n) := c (mk_nst (volume_ i s) (nyfs_disk (g_driver s))) in
  (a, set_volume i (n_vol n) (on_nyfs (with_ndisk (n_disk n)) s)).

(** What a private pointer points to. *)
Definition ndata_of (p : nyfs_ptr) s : nyfs_vnode_data_t :=
  match p with
  | NVnodeData i => nsl_entry (default zero_nslot (g_nyfs_vnode_data (g_driver s) !! i))
  | NHandleData i => nsl_entry (default zero_nslot (g_nyfs_handle_slots (g_driver s) !! i))
  end.

(** ** Tables *)

(** [nyfs_find_volume]: drivers/filesystem/nyfs/nyfs.c:104-114 *)
Definition nyfs_find_volume (diskno : Z) s : option nat :=
  fst <$> list_find (fun v => vol_used v && (vol_diskno v =? diskno) = true) (g_volumes (g_driver s)).

(** [nyfs_alloc_volume]: drivers/filesystem/nyfs/nyfs.c:116-129 *)
Definition nyfs_alloc_volume (diskno : Z) : ST vfs (option nat) := fun s =>
  match list_find (fun v => vol_used v = false) (g_volumes (g_driver s)) with
  | None => (None, s)
  | Some (i, _) => (Some i, set_volume i (mk_vol true diskno None None zero_sb 0 [] None) s)
  end.

(** [nyfs_free_volume]: drivers/filesystem/nyfs/nyfs.c:131-142 *)
Definition nyfs_free_volume (i : nat) s : vfs :=
  let v := volume_ i s in
  set_volume i (mk_vol false 0 None None (vol_sb v) (vol_block_size v) [] None) s.

(** A free slot of a table of private data, marked and cleared. *)
Definition nalloc_slot (l : list nyfs_slot_t) : option (nat * list nyfs_slot_t) :=
  match list_find (fun sl => nsl_in_use sl = false) l with
  | None => None
  | Some (i, _) => Some (i, <[i := mk_nslot true zero_nd]> l)
  end.

(** [nyfs_alloc_vnode_data]: drivers/filesystem/nyfs/nyfs.c:144-156 *)
Definition nyfs_alloc_vnode_data : ST vfs (option nyfs_ptr) := fun s =>
  match nalloc_slot (g_nyfs_vnode_data (g_driver s)) with
  | None => (None, s)
  | Some (i, l) => (Some (NVnodeData i), on_nyfs (with_nvnode_data l) s)
  end.

(** [nyfs_free_vnode_data]: drivers/filesystem/nyfs/nyfs.c:158-172 *)
Definition nyfs_free_vnode_data (data : option nyfs_ptr) s : vfs :=
  match data with
  | Some (NVnodeData i) => on_nyfs (fun x => with_nvnode_data (<[i := zero_nslot]> (g_nyfs_vnode_data x)) x) s
  | _ => s
  end.

(** [nyfs_alloc_handle_data]: drivers/filesystem/nyfs/nyfs.c:174-186 *)
Definition nyfs_alloc_handle_data : ST vfs (option nyfs_ptr) := fun s =>
  match nalloc_slot (g_nyfs_handle_slots (g_driver s)) with
  | None => (None, s)
  | Some (i, l) => (Some (NHandleData i), on_nyfs (with_nhandle_slots l) s)
  end.

(** [nyfs_free_handle_data]: drivers/filesystem/nyfs/nyfs.c:188-202 *)
Definition nyfs_free_handle_data (data : option nyfs_ptr) s : vfs :=
  match data with
  | Some (NHandleData i) => on_nyfs (fun x => with_nhandle_slots (<[i := zero_nslot]> (g_nyfs_handle_slots x)) x) s
  | _ => s
  end.

(** The two fields of what an allocation returned. *)
Definition nstore (p : nyfs_ptr) (d : nyfs_vnode_data_t) s : vfs :=
  match p with
  | NVnodeData i => on_nyfs (fun x => with_nvnode_data
      (alter (fun sl => mk_nslot (nsl_in_use sl) d) i (g_nyfs_vnode_data x)) x) s
  | NHandleData i => on_nyfs (fun x => with_nhandle_slots
      (alter (fun sl => mk_nslot (nsl_in_use sl) d) i (g_nyfs_handle_slots x)) x) s
  end.

Definition cred : nyfs_cred_t := nyfs_current_cred current_process.

(** ** Reaching a directory and making a vnode *)

(** What the operations on a directory begin with: the volume and the number
    of the directory, its inode, and the check of the access.  [writing] says
    that the volume must be writable. *)
(** [nyfs_lookup, the directory]: drivers/filesystem/nyfs/nyfs.c:1430-1447 *)
Definition enter_dir (dir : nat) (writing : bool) (mask : Z) : ST vfs (res (nat * Z * nyfs_inode_t)) := fun s =>
  match vfs_get_vnode_private (Some dir) s with
  | None => (Err NinvalidArg, s)
  | Some p =>
      let dirdata := ndata_of p s in
      match nd_vol dirdata with
      | None => (Err NinvalidArg, s)
      | Some vol =>
          if writing && bool_decide (vol_write (volume_ vol s) = None) then (Err NreadOnly, s)
          else
            (dir_inode <-? on_volume vol (nyfs_read_inode (nd_ino dirdata)) ;;
             if negb (in_type dir_inode =? NYFS_INO_TYPE_DIR) then fail Nunsupported
             else
               _ <-? on_volume vol (nyfs_check_access dir_inode cred mask) ;;
               ok (vol, nd_ino dirdata, dir_inode)) s
      end
  end.

(** A vnode for inode [ino] of a volume. *)
(** [nyfs_lookup, the vnode]: drivers/filesystem/nyfs/nyfs.c:1459-1480 *)
Definition make_vnode (vol : nat) (ino type : Z) : ST vfs (res nat) :=
  child <-o{NoutOfMemory} vfs_alloc_vnode ;;
  fun s =>
    match nyfs_alloc_vnode_data s with
    | (None, s) => (Err NoutOfMemory, vfs_free_vnode (Some child) s)
    | (Some childdata, s) =>
        let s := nstore childdata (mk_nd (Some vol) ino) s in
        match vfs_init_vnode (Some child) ino type (Some NyfsOps) (Some childdata) s with
        | (Err e, s) => (Err e, vfs_free_vnode (Some child) (nyfs_free_vnode_data (Some childdata) s))
        | (Ok _, s) => (Ok child, s)
        end
    end.

(** ** Operations *)

(** [nyfs_lookup]: drivers/filesystem/nyfs/nyfs.c:1414-1482 *)
Definition nyfs_lookup (dir : nat) (name : list Z) : ST vfs (res (option nat)) :=
  r <-? enter_dir dir false NYFS_ACE_EXECUTE ;;
  let '(vol, _, dir_inode) := r in
  child <-? on_volume vol (nyfs_dirhash_lookup stack dir_inode name) ;;
  child_inode <-? on_volume vol (nyfs_read_inode child.1) ;;
  v <-? make_vnode vol child.1 (if in_type child_inode =? NYFS_INO_TYPE_DIR then 2 else 1) ;;
  ok (Some v).

Definition set_nprivate (p : option nyfs_ptr) (h : handle_t) : handle_t :=
  mk_hd (hd_vnode h) (hd_offset h) (hd_flags h) p (hd_refcnt h).

(** [nyfs_open]: drivers/filesystem/nyfs/nyfs.c:1484-1534 *)
Definition nyfs_open (vnode : nat) (flags : Z) (h : handle_t) : ST vfs (res unit * handle_t) := fun s =>
  match vfs_get_vnode_private (Some vnode) s with
  | None => ((Err NinvalidArg, h), s)
  | Some p =>
      let data := ndata_of p s in
      match nd_vol data with
      | None => ((Err NinvalidArg, h), s)
      | Some vol =>
          let requested := Z.lor (if tst flags NX_O_READ then NYFS_ACE_READ_DATA else 0)
                                 (if tst flags NX_O_WRITE then NYFS_ACE_WRITE_DATA else 0) in
          match (inode <-? on_volume vol (nyfs_read_inode (nd_ino data)) ;;
                 on_volume vol (nyfs_check_access inode cred requested)) s with
          | (Err e, s) => ((Err e, h), s)
          | (Ok _, s) =>
              if tst flags NX_O_WRITE && bool_decide (vol_write (volume_ vol s) = None) then ((Err NreadOnly, h), s)
              else match nyfs_alloc_handle_data s with
              | (None, s) => ((Err NoutOfMemory, h), s)
              | (Some hp, s) => ((Ok tt, set_nprivate (Some hp) h), nstore hp (mk_nd (Some vol) (nd_ino data)) s)
              end
          end
      end
  end.

(** [nyfs_read]: drivers/filesystem/nyfs/nyfs.c:1536-1567 *)
Definition nyfs_read (h : handle_t) (size : Z) : ST vfs (Nerror * (list Z * Z) * handle_t) := fun s =>
  match hd_private h with
  | None => ((NinvalidArg, ([], 0), h), s)
  | Some p =>
      let hdata := ndata_of p s in
      match nd_vol hdata with
      | None => ((NinvalidArg, ([], 0), h), s)
      | Some vol =>
          match on_volume vol (nyfs_read_inode (nd_ino hdata)) s with
          | (Err e, s) => ((e, ([], 0), h), s)
          | (Ok inode, s) =>
              if in_size inode <=? hd_offset h then ((Nok, ([], 0), h), s)
              else
                let avail := in_size inode - hd_offset h in
                let to_read := if size <? avail then size else avail in
                let '((status, bytes, got), s) :=
                  on_volume vol (nyfs_extent_read_at (in_data_extent_root inode) (hd_offset h) to_read) s in
                ((status, (bytes, got), h), s)
          end
      end
  end.

(** [nyfs_write]: drivers/filesystem/nyfs/nyfs.c:1569-1613 *)
Definition nyfs_write (h : handle_t) (buffer : list Z) : ST vfs (res Z * handle_t) := fun s =>
  match hd_private h with
  | None => ((Err NinvalidArg, h), s)
  | Some p =>
      let hdata := ndata_of p s in
      match nd_vol hdata with
      | None => ((Err NinvalidArg, h), s)
      | Some vol =>
          if bool_decide (vol_write (volume_ vol s) = None) then ((Err NreadOnly, h), s)
          else let '(r, s) := on_volume vol (write_file (nd_ino hdata) (hd_offset h) buffer) s in ((r, h), s)
      end
  end.

(** [nyfs_close]: drivers/filesystem/nyfs/nyfs.c:1615-1623 *)
Definition nyfs_close (h : handle_t) : ST vfs (res unit * handle_t) := fun s =>
  ((Ok tt, set_nprivate None h), nyfs_free_handle_data (hd_private h) s).

(** [nyfs_stat]: drivers/filesystem/nyfs/nyfs.c:1625-1649 *)
Definition nyfs_stat (vnode : nat) : ST vfs (res vfs_stat_t) := fun s =>
  match vfs_get_vnode_private (Some vnode) s with
  | None => (Err NinvalidArg, s)
  | Some p =>
      let data := ndata_of p s in
      match nd_vol data with
      | None => (Err NinvalidArg, s)
      | Some vol =>
          (inode <-? on_volume vol (nyfs_read_inode (nd_ino data)) ;;
           ok (mk_stat (in_size inode) (if in_type inode =? NYFS_INO_TYPE_DIR then 2 else 1))) s
      end
  end.

(** What [nyfs_create] and [nyfs_mkdir] share. *)
(** [nyfs_create, the frame]: drivers/filesystem/nyfs/nyfs.c:1668-1688 *)
Definition nyfs_make (is_dir : bool) (dir : nat) (name : list Z) (mode : Z) : ST vfs (res (option nat)) :=
  r <-? enter_dir dir true NYFS_ACE_WRITE_DATA ;;
  let '(vol, dir_ino, dir_inode) := r in
  new_ino <-? on_volume vol (make_node stack dir_ino dir_inode name mode cred is_dir) ;;
  v <-? make_vnode vol new_ino (if is_dir then 2 else 1) ;;
  ok (Some v).

(** [nyfs_create]: drivers/filesystem/nyfs/nyfs.c:1651-1759 *)
Definition nyfs_create : nat -> list Z -> Z -> ST vfs (res (option nat)) := nyfs_make false.
(** [nyfs_mkdir]: drivers/filesystem/nyfs/nyfs.c:1761-1872 *)
Definition nyfs_mkdir : nat -> list Z -> Z -> ST vfs (res (option nat)) := nyfs_make true.

(** [nyfs_unlink]: drivers/filesystem/nyfs/nyfs.c:1874-1953 *)
Definition nyfs_unlink (dir : nat) (name : list Z) : ST vfs (res unit) :=
  r <-? enter_dir dir true NYFS_ACE_DELETE_CHILD ;;
  let '(vol, dir_ino, dir_inode) := r in
  on_volume vol (unlink_node stack dir_ino dir_inode name).

(** [nyfs_readdir]: drivers/filesystem/nyfs/nyfs.c:1955-2048 *)
Definition nyfs_readdir (dir : nat) (index name_out_max : Z) : ST vfs (res (list Z * Z)) :=
  if name_out_max =? 0 then fail NinvalidArg
  else
    r <-? enter_dir dir false NYFS_ACE_READ_DATA ;;
    let '(vol, _, dir_inode) := r in
    if in_dir_hash_root dir_inode =? NYFS_BLKNO_NONE then fail NnotFound
    else on_volume vol (readdir_table stack (in_dir_hash_root dir_inode) index name_out_max).

(** The inode of a directory of volume [vol]. *)
Definition read_dir_inode (vol : nat) (ino : Z) : ST vfs (res nyfs_inode_t) :=
  inode <-? on_volume vol (nyfs_read_inode ino) ;;
  if negb (in_type inode =? NYFS_INO_TYPE_DIR) then fail Nunsupported else ok inode.

(** [nyfs_rename]: drivers/filesystem/nyfs/nyfs.c:2050-2166 *)
Definition nyfs_rename (old_dir : nat) (old_name : list Z) (new_dir : option nat) (new_name : list Z) : ST vfs (res unit) := fun s =>
  match new_dir with
  | None => (Err NinvalidArg, s)
  | Some new_dir =>
      let private d := (fun p => ndata_of p s) <$> vfs_get_vnode_private (Some d) s in
      match private old_dir, private new_dir with
      | Some (mk_nd (Some vol) old_ino), Some (mk_nd (Some vol') new_ino) =>
          if negb (vol =? vol')%nat then (Err Nunsupported, s)
          else if bool_decide (vol_write (volume_ vol s) = None) then (Err NreadOnly, s)
          else
            (old <-? read_dir_inode vol old_ino ;;
             new <-? (if old_ino =? new_ino then ok None
                      else new <-? read_dir_inode vol new_ino ;; ok (Some new)) ;;
             _ <-? on_volume vol (nyfs_check_access old cred NYFS_ACE_DELETE_CHILD) ;;
             _ <-? on_volume vol (nyfs_check_access (default old new) cred NYFS_ACE_WRITE_DATA) ;;
             on_volume vol (rename_node stack old_ino new_ino old new old_name new_name)) s
      | _, _ => (Err NinvalidArg, s)
      end
  end.

(** The table [nyfs_register] fills. *)
(** [nyfs_ops]: drivers/filesystem/nyfs/nyfs.c:2489-2499 *)
Definition nyfs_ops (t : nyfs_tbl) : vfs_ops_t nyfs_tbl nyfs_ptr (nyfs_st D) :=
  mk_ops (Some nyfs_lookup) (Some nyfs_open) (Some nyfs_read) (Some nyfs_write) (Some nyfs_close) (Some nyfs_stat)
    (Some nyfs_create) (Some nyfs_mkdir) (Some nyfs_unlink) (Some nyfs_readdir) (Some nyfs_rename).

#[local] Instance nyfs_drivers : VfsDrivers nyfs_tbl nyfs_ptr (nyfs_st D) := { ops_table := nyfs_ops }.

(** ** Mounting *)

(** [ns_stack]: the local buffer of [resolve_namespace_path], see [Vfs]. *)
Context (ns_stack : list Z).

(** The superblock a mount accepts, with the status of a refusal. *)
(** [check_superblock]: drivers/filesystem/nyfs/nyfs.c:2209-2227 *)
Definition check_superblock (sb : nyfs_superblock_t) : res unit :=
  if negb (sb_magic sb =? NYFS_MAGIC) || negb (sb_superblock_size sb =? SB_SIZE) || negb (sb_version sb =? NYFS_VERSION)
  then Err NbadFilesystem
  else if (sb_block_size_shift sb <? NYFS_BLOCK_SIZE_SHIFT_MIN) || (NYFS_BLOCK_SIZE_SHIFT_MAX <? sb_block_size_shift sb)
  then Err NbadFilesystem
  else if negb (nyfs_crc32 (sb_bytes (set_sb_checksum 0 sb)) =? sb_checksum sb) then Err Ncorrupted
  else Ok tt.

(** The volume's superblock is read and checked, and its block size set. *)
(** [nyfs_mount, the superblock]: drivers/filesystem/nyfs/nyfs.c:2203-2229 *)
Definition load_superblock : ST nst (res unit) :=
  bs <-? read_local 0 SB_SIZE ;;
  let sb := sb_of bs in
  fun n =>
    let n := with_sb sb n in
    match check_superblock sb with
    | Err e => (Err e, n)
    | Ok _ =>
        let v := n_vol n in
        (Ok tt, mk_nst (mk_vol (vol_used v) (vol_diskno v) (vol_read v) (vol_write v) (vol_sb v)
                         (Z.shiftl 1 (sb_block_size_shift sb)) (vol_mount_path v) (vol_root_vnode v)) (n_disk n))
    end.

Definition set_io (read : option (nyfs_disk_read_fn D)) (write : option (nyfs_disk_write_fn D)) v : volume :=
  mk_vol (vol_used v) (vol_diskno v) read write (vol_sb v) (vol_block_size v) (vol_mount_path v) (vol_root_vnode v).
Definition set_place (path : list Z) (root : option nat) v : volume :=
  mk_vol (vol_used v) (vol_diskno v) (vol_read v) (vol_write v) (vol_sb v) (vol_block_size v) path root.

(** [nyfs_mount]: drivers/filesystem/nyfs/nyfs.c:2172-2284 *)
Definition nyfs_mount (diskno : Z) (userdata : option (nyfs_mount_params_t D)) : ST vfs (res unit) := fun s =>
  match userdata with
  | None => (Err NinvalidArg, s)
  | Some params =>
      if bool_decide (np_read params = None) then (Err NinvalidArg, s)
      else match nyfs_find_volume diskno s with
      | Some _ => (Err NalreadyExists, s)
      | None =>
          match nyfs_alloc_volume diskno s with
          | (None, s) => (Err NtooManyFileSystem, s)
          | (Some vol, s) =>
              let s := set_volume vol (set_io (np_read params) (np_write params) (volume_ vol s)) s in
              let path := match np_mount_path params with Some path => path | None => [SLASH] end in
              let refuse e s := (Err e, nyfs_free_volume vol s) in
              match on_volume vol load_superblock s with
              | (Err e, s) => refuse e s
              | (Ok _, s) =>
                  if (256 <=? length path)%nat then refuse NpathTooLong s
                  else
                    let s := set_volume vol (set_place path None (volume_ vol s)) s in
                    match make_vnode vol NYFS_ROOT_INO 2 s with
                    | (Err e, s) => refuse e s
                    | (Ok root, s) =>
                        let s := set_volume vol (set_place path (Some root) (volume_ vol s)) s in
                        match vfs_mount ns_stack (Some path) (Some (mk_fsys (Some root) (Some NyfsOps))) s with
                        | (Ok _, s) => (Ok tt, s)
                        | (Err e, s) =>
                            let s := nyfs_free_vnode_data (vfs_get_vnode_private (Some root) s) s in
                            refuse e (vfs_free_vnode (Some root) s)
                        end
                    end
              end
          end
      end
  end.

(** [nyfs_unmount]: drivers/filesystem/nyfs/nyfs.c:2286-2306 *)
Definition nyfs_unmount (diskno : Z) : ST vfs (res unit) := fun s =>
  match nyfs_find_volume diskno s with
  | None => (Err NnotFound, s)
  | Some vol =>
      let path := vol_mount_path (volume_ vol s) in
      let s := if negb (char0 path =? 0) then (vfs_unmount ns_stack (Some path) s).2 else s in
      let s := match vol_root_vnode (volume_ vol s) with
               | None => s
               | Some root =>
                   let s := nyfs_free_vnode_data (vfs_get_vnode_private (Some root) s) s in
                   vfs_free_vnode (Some root) s
               end in
      (Ok tt, nyfs_free_volume vol s)
  end.

(** [nyfs_format, the entry]: drivers/filesystem/nyfs/nyfs.c:2308-2346 *)
Definition nyfs_format (diskno : Z) (userdata : option (nyfs_mount_params_t D)) : ST vfs (res unit) := fun s =>
  match userdata with
  | None => (Err NinvalidArg, s)
  | Some p =>
      let fp := mk_fparams (np_read p) (np_write p) (np_total_blocks p) (np_inode_count p) (np_block_size_shift p) in
      let '(r, d) := format_disk diskno fp (nyfs_disk (g_driver s)) in
      (r, on_nyfs (with_ndisk d) s)
  end.

Definition nstatus_of {A} (c : ST vfs (res A)) : ST vfs Nerror := fun s => let '(r, s) := c s in (res_status r, s).

(** [nyfs_register]: drivers/filesystem/nyfs/nyfs.c:2484-2506 *)
Definition nyfs_register : ST (list (@filesystem_t vfs (option (nyfs_mount_params_t D)))) Nerror :=
  filesystem_register (Some [110; 121; 102; 115])
    (mk_fs_ops (Some (fun k u => nstatus_of (nyfs_mount k u))) (Some (fun k => nstatus_of (nyfs_unmount k)))
       (Some (fun k u => nstatus_of (nyfs_format k u)))).
End driver.
