(* ===== verification/NyfsImage.v ===== *)
(** * Structures of NYFS and their bytes

    Each packed structure is the one its bytes encode, and the bytes determine
    it; a checksum tells a structure from one with a damaged byte. *)

From S2P Require Import Prelude Types Bytes NyfsDisk Nyfs.

Lemma ext_of_bytes e : 0 <= ext_start_block e < 2 ^ 64 -> 0 <= ext_length e < 2 ^ 64 -> ext_of (ext_bytes e) = e.
Proof.
  destruct e as [a b]. cbn [ext_start_block ext_length]. intros Ha Hb. unfold ext_of, ext_bytes. cbn [ext_start_block ext_length].
  f_equal; decode_field; by apply le_bytes_small.
Qed.

Lemma ehdr_of_bytes h :
  0 <= eh_magic h < 2 ^ 32 -> 0 <= eh_extent_count h < 2 ^ 32 -> 0 <= eh_next_block h < 2 ^ 64 ->
  ehdr_of (ehdr_bytes h) = h.
Proof.
  destruct h as [a b c]. cbn [eh_magic eh_extent_count eh_next_block]. intros Ha Hb Hc. unfold ehdr_of, ehdr_bytes. cbn [eh_magic eh_extent_count eh_next_block].
  f_equal; decode_field; by apply le_bytes_small.
Qed.

Lemma dhdr_of_bytes h :
  0 <= dh_magic h < 2 ^ 32 -> 0 <= dh_bucket_count h < 2 ^ 32 -> 0 <= dh_entry_count h < 2 ^ 64 ->
  0 <= dh_free_offset h < 2 ^ 64 -> 0 <= dh_checksum h < 2 ^ 32 -> 0 <= dh_reserved0 h < 2 ^ 32 ->
  dhdr_of (dhdr_bytes h) = h.
Proof.
  destruct h as [a b c d e f]. cbn [dh_magic dh_bucket_count dh_entry_count dh_free_offset dh_checksum dh_reserved0]. intros. unfold dhdr_of, dhdr_bytes.
  cbn [dh_magic dh_bucket_count dh_entry_count dh_free_offset dh_checksum dh_reserved0].
  f_equal; decode_field; by apply le_bytes_small.
Qed.

Lemma de_of_bytes d :
  0 <= de_ino d < 2 ^ 64 -> 0 <= de_next_offset d < 2 ^ 64 -> 0 <= de_name_hash d < 2 ^ 32 ->
  0 <= de_name_len d < 2 ^ 16 -> 0 <= de_file_type d < 2 ^ 8 -> 0 <= de_reserved0 d < 2 ^ 8 ->
  de_of (de_bytes d) = d.
Proof.
  destruct d as [a b c d e f]. cbn [de_ino de_next_offset de_name_hash de_name_len de_file_type de_reserved0]. intros. unfold de_of, de_bytes.
  cbn [de_ino de_next_offset de_name_hash de_name_len de_file_type de_reserved0].
  f_equal; decode_field; by apply le_bytes_small.
Qed.

Definition ace_ok (a : nyfs_ace_t) : Prop :=
  0 <= ace_id a < 2 ^ 32 /\ 0 <= ace_access_mask a < 2 ^ 32 /\ 0 <= ace_type a < 2 ^ 8 /\ 0 <= ace_flags a < 2 ^ 8 /\
  0 <= ace_reserved a < 2 ^ 16.

Lemma ace_of_bytes a : ace_ok a -> ace_of (ace_bytes a) = a.
Proof.
  destruct a as [a b c d e]. unfold ace_ok. cbn [ace_id ace_access_mask ace_type ace_flags ace_reserved]. intros (?&?&?&?&?). unfold ace_of, ace_bytes.
  cbn [ace_id ace_access_mask ace_type ace_flags ace_reserved].
  f_equal; decode_field; by apply le_bytes_small.
Qed.

Lemma length_ace_bytes a : length (ace_bytes a) = 12%nat.
Proof. unfold ace_bytes. by rewrite !length_app, !length_le_bytes. Qed.

Lemma length_aces l : length (l ≫= ace_bytes) = (12 * length l)%nat.
Proof.
  induction l as [|a l IH]; [done|]. change ((a :: l) ≫= ace_bytes) with (ace_bytes a ++ (l ≫= ace_bytes)).
  rewrite length_app, length_ace_bytes, IH. cbn [length]. lia.
Qed.

Lemma array_of_aces n l b : length l = n -> Forall ace_ok l -> array_of 12 ace_of n ((l ≫= ace_bytes) ++ b) = l.
Proof.
  intros <-. induction 1 as [|a l Ha _ IH]; [done|].
  change ((a :: l) ≫= ace_bytes) with (ace_bytes a ++ (l ≫= ace_bytes)). rewrite <- app_assoc. cbn [length array_of].
  rewrite take_app_length', drop_app_length' by by rewrite length_ace_bytes. by rewrite ace_of_bytes, IH.
Qed.

(** What the C type of an inode guarantees. *)
Definition inode_wf (i : nyfs_inode_t) : Prop :=
  0 <= in_ino i < 2 ^ 64 /\ 0 <= in_type i < 2 ^ 16 /\ 0 <= in_unix_mode i < 2 ^ 16 /\ 0 <= in_uid i < 2 ^ 32 /\
  0 <= in_gid i < 2 ^ 32 /\ 0 <= in_link_count i < 2 ^ 32 /\ 0 <= in_ace_count i < 2 ^ 16 /\ 0 <= in_reserved0 i < 2 ^ 16 /\
  length (in_ace i) = 4%nat /\ Forall ace_ok (in_ace i) /\ 0 <= in_acl_overflow_block i < 2 ^ 64 /\
  0 <= in_acl_overflow_count i < 2 ^ 32 /\ 0 <= in_reserved1 i < 2 ^ 32 /\ 0 <= in_size i < 2 ^ 64 /\
  0 <= in_data_extent_root i < 2 ^ 64 /\ 0 <= in_data_extent_depth i < 2 ^ 8 /\ length (in_reserved2 i) = 7%nat /\
  0 <= in_dir_hash_root i < 2 ^ 64 /\ 0 <= in_dir_entry_count i < 2 ^ 64 /\ 0 <= in_ctime i < 2 ^ 64 /\
  0 <= in_mtime i < 2 ^ 64 /\ 0 <= in_atime i < 2 ^ 64 /\ 0 <= in_last_txn_id i < 2 ^ 64 /\
  0 <= in_checksum i < 2 ^ 32 /\ length (in_reserved3 i) = 88%nat.

Lemma length_inode_bytes i : length (in_ace i) = 4%nat -> length (in_reserved2 i) = 7%nat ->
  length (in_reserved3 i) = 88%nat -> length (inode_bytes i) = 256%nat.
Proof.
  intros H4 H7 H88. unfold inode_bytes. rewrite !length_app, !length_le_bytes, length_aces, H4, H7, H88. done.
Qed.

Lemma inode_of_bytes i : inode_wf i -> inode_of (inode_bytes i) = i.
Proof.
  destruct i as [f1 f2 f3 f4 f5 f6 f7 f8 f9 f10 f11 f12 f13 f14 f15 f16 f17 f18 f19 f20 f21 f22 f23 f24].
  unfold inode_wf. cbn [in_ino in_type in_unix_mode in_uid in_gid in_link_count in_ace_count in_reserved0 in_ace
    in_acl_overflow_block in_acl_overflow_count in_reserved1 in_size in_data_extent_root in_data_extent_depth
    in_reserved2 in_dir_hash_root in_dir_entry_count in_ctime in_mtime in_atime in_last_txn_id in_checksum in_reserved3].
  intros Hwf. assert (H7 : length f16 = 7%nat) by apply Hwf. decompose [and] Hwf. clear Hwf. unfold inode_of, inode_bytes.
  cbn [in_ino in_type in_unix_mode in_uid in_gid in_link_count in_ace_count in_reserved0 in_ace
    in_acl_overflow_block in_acl_overflow_count in_reserved1 in_size in_data_extent_root in_data_extent_depth
    in_reserved2 in_dir_hash_root in_dir_entry_count in_ctime in_mtime in_atime in_last_txn_id in_checksum in_reserved3].
  assert (Ha : length (f9 ≫= ace_bytes) = 48%nat) by (rewrite length_aces; lia).
  f_equal.
  9: { do 8 (rewrite drop_app_ge by (rewrite length_le_bytes; lia); rewrite length_le_bytes; cbn [Nat.sub]).
       rewrite drop_0. by apply array_of_aces. }
  all: rewrite ?field_slice.
  all: repeat (rewrite slice_skip by (rewrite ?length_le_bytes, ?Ha, ?H7; lia); rewrite ?length_le_bytes, ?Ha, ?H7; cbn [Nat.sub]).
  all: first [rewrite slice_here by (rewrite ?length_le_bytes; done) | rewrite slice_all by done].
  all: first [by apply le_bytes_small | done].
Qed.

(** ** Bytes decoded and encoded again *)

Lemma ace_bytes_of bs : is_bytes bs -> length bs = 12%nat -> ace_bytes (ace_of bs) = bs.
Proof.
  intros Hb Hl. unfold ace_bytes, ace_of. cbn [ace_id ace_access_mask ace_type ace_flags ace_reserved].
  rewrite !le_bytes_field by (done || lia).
  rewrite (slice_join 9 1 2), (slice_join 8 1 3), (slice_join 4 4 4), (slice_join 0 4 8). by apply slice_whole.
Qed.

Lemma aces_bytes_of n bs : is_bytes bs -> (12 * n <= length bs)%nat -> array_of 12 ace_of n bs ≫= ace_bytes = take (12 * n) bs.
Proof.
  revert bs. induction n as [|n IH]; intros bs Hb Hl; [done|]. cbn [array_of].
  change ((ace_of (take 12 bs) :: array_of 12 ace_of n (drop 12 bs)) ≫= ace_bytes)
    with (ace_bytes (ace_of (take 12 bs)) ++ (array_of 12 ace_of n (drop 12 bs) ≫= ace_bytes)).
  rewrite ace_bytes_of by (by apply Forall_take || (rewrite length_take; lia)).
  rewrite IH by (by apply Forall_drop || (rewrite length_drop; lia)).
  replace (12 * S n)%nat with (12 + 12 * n)%nat by lia. by rewrite take_take_drop.
Qed.

(** The checksum is the bytes 164 to 168. *)
Lemma inode_bytes_of c bs : is_bytes bs -> length bs = 256%nat ->
  inode_bytes (set_in_stamp (in_ino (inode_of bs)) c (inode_of bs)) = slice 0 164 bs ++ le_bytes 4 c ++ slice 168 88 bs.
Proof.
  intros Hb Hl. unfold inode_bytes, set_in_stamp, inode_of.
  cbn [in_ino in_type in_unix_mode in_uid in_gid in_link_count in_ace_count in_reserved0 in_ace
    in_acl_overflow_block in_acl_overflow_count in_reserved1 in_size in_data_extent_root in_data_extent_depth
    in_reserved2 in_dir_hash_root in_dir_entry_count in_ctime in_mtime in_atime in_last_txn_id in_checksum in_reserved3].
  rewrite aces_bytes_of by (by apply Forall_drop || (rewrite length_drop; lia)).
  change (take (12 * 4) (drop 28 bs)) with (slice 28 48 bs).
  rewrite !le_bytes_field by (done || lia). rewrite !app_assoc. do 2 f_equal. rewrite <- !app_assoc.
  rewrite (slice_join 148 8 8), (slice_join 140 8 16), (slice_join 132 8 24), (slice_join 124 8 32), (slice_join 116 8 40),
    (slice_join 109 7 48), (slice_join 108 1 55), (slice_join 100 8 56), (slice_join 92 8 64), (slice_join 88 4 72),
    (slice_join 84 4 76), (slice_join 76 8 80), (slice_join 28 48 88), (slice_join 26 2 136), (slice_join 24 2 138),
    (slice_join 20 4 140), (slice_join 16 4 144), (slice_join 12 4 148), (slice_join 10 2 152), (slice_join 8 2 154),
    (slice_join 0 8 156). done.
Qed.

Lemma inode_crc_of bs : is_bytes bs -> length bs = 256%nat ->
  Nyfs.inode_crc (inode_of bs) = nyfs_crc32 (slice 0 164 bs ++ le_bytes 4 0 ++ slice 168 88 bs).
Proof. intros. unfold Nyfs.inode_crc. by rewrite inode_bytes_of. Qed.

(** ** The superblock *)

(** What the C type of a superblock guarantees. *)
Definition sb_wf (s : nyfs_superblock_t) : Prop :=
  0 <= sb_magic s < 2 ^ 32 /\ 0 <= sb_version s < 2 ^ 32 /\ 0 <= sb_superblock_size s < 2 ^ 32 /\
  0 <= sb_block_size_shift s < 2 ^ 8 /\ 0 <= sb_alloc_algorithm s < 2 ^ 8 /\ length (sb_reserved0 s) = 2%nat /\
  length (sb_label s) = 32%nat /\ 0 <= sb_total_blocks s < 2 ^ 64 /\ 0 <= sb_free_blocks s < 2 ^ 64 /\
  0 <= sb_inode_table_start s < 2 ^ 64 /\ 0 <= sb_inode_count s < 2 ^ 64 /\ 0 <= sb_free_inode_count s < 2 ^ 64 /\
  0 <= sb_alloc_meta_start s < 2 ^ 64 /\ 0 <= sb_alloc_meta_blocks s < 2 ^ 64 /\ 0 <= sb_inode_bitmap_start s < 2 ^ 64 /\
  0 <= sb_journal_start s < 2 ^ 64 /\ 0 <= sb_journal_blocks s < 2 ^ 64 /\ 0 <= sb_journal_version s < 2 ^ 16 /\
  0 <= sb_reserved1 s < 2 ^ 16 /\ 0 <= sb_reserved2 s < 2 ^ 32 /\ 0 <= sb_mount_count s < 2 ^ 64 /\
  0 <= sb_last_mount_time_ns s < 2 ^ 64 /\ 0 <= sb_last_write_time_ns s < 2 ^ 64 /\ 0 <= sb_checksum s < 2 ^ 32 /\
  length (sb_reserved3 s) = 92%nat.

Lemma length_sb_bytes s : length (sb_reserved0 s) = 2%nat -> length (sb_label s) = 32%nat ->
  length (sb_reserved3 s) = 92%nat -> length (sb_bytes s) = 256%nat.
Proof. intros H1 H2 H3. unfold sb_bytes. by rewrite !length_app, !length_le_bytes, H1, H2, H3. Qed.

Lemma sb_of_bytes s : sb_wf s -> sb_of (sb_bytes s) = s.
Proof.
  destruct s as [f1 f2 f3 f4 f5 f6 f7 f8 f9 f10 f11 f12 f13 f14 f15 f16 f17 f18 f19 f20 f21 f22 f23 f24 f25].
  unfold sb_wf. cbn [sb_magic sb_version sb_superblock_size sb_block_size_shift sb_alloc_algorithm sb_reserved0 sb_label
    sb_total_blocks sb_free_blocks sb_inode_table_start sb_inode_count sb_free_inode_count sb_alloc_meta_start
    sb_alloc_meta_blocks sb_inode_bitmap_start sb_journal_start sb_journal_blocks sb_journal_version sb_reserved1
    sb_reserved2 sb_mount_count sb_last_mount_time_ns sb_last_write_time_ns sb_checksum sb_reserved3].
  intros Hwf. assert (H2 : length f6 = 2%nat) by apply Hwf. assert (H32 : length f7 = 32%nat) by apply Hwf.
  decompose [and] Hwf. clear Hwf. unfold sb_of, sb_bytes.
  cbn [sb_magic sb_version sb_superblock_size sb_block_size_shift sb_alloc_algorithm sb_reserved0 sb_label
    sb_total_blocks sb_free_blocks sb_inode_table_start sb_inode_count sb_free_inode_count sb_alloc_meta_start
    sb_alloc_meta_blocks sb_inode_bitmap_start sb_journal_start sb_journal_blocks sb_journal_version sb_reserved1
    sb_reserved2 sb_mount_count sb_last_mount_time_ns sb_last_write_time_ns sb_checksum sb_reserved3].
  f_equal.
  all: rewrite ?field_slice.
  all: repeat (rewrite slice_skip by (rewrite ?length_le_bytes, ?H2, ?H32; lia); rewrite ?length_le_bytes, ?H2, ?H32; cbn [Nat.sub]).
  all: first [rewrite slice_here by (rewrite ?length_le_bytes; done) | rewrite slice_all by done].
  all: first [by apply le_bytes_small | done].
Qed.

(** ** The checksum

    One step of the CRC is a bijection on 32-bit words: its top bit says
    whether the polynomial was added.  A word exclusive-or'ed in above the low
    bit passes through a step as its shift, so [n] bytes act as one word of
    [8 n] bits on the state before them. *)

Definition CRC_POLY : Z := 0xEDB88320.

Lemma crc_bit_eq c : crc_bit c = Z.lxor (Z.shiftr c 1) (if Z.odd c then CRC_POLY else 0).
Proof.
  unfold crc_bit. replace (Z.land c 1) with (Z.b2z (Z.odd c)); [by destruct (Z.odd c)|].
  rewrite <- Z.bit0_odd. change 1 with (Z.ones 1). rewrite Z.land_ones by lia. change (2 ^ 1) with 2. by rewrite <- Z.bit0_mod.
Qed.

Lemma lxor_range w a b : 0 <= w -> 0 <= a < 2 ^ w -> 0 <= b < 2 ^ w -> 0 <= Z.lxor a b < 2 ^ w.
Proof.
  intros Hw Ha Hb. apply range_of_bits; [done|apply Z.lxor_nonneg; lia|].
  intros i Hi. by rewrite Z.lxor_spec, !(testbit_above w) by lia.
Qed.

Lemma shiftr1_range w c : 0 <= w -> 0 <= c < 2 ^ (w + 1) -> 0 <= Z.shiftr c 1 < 2 ^ w.
Proof.
  intros Hw Hc. rewrite Z.shiftr_div_pow2 by lia. rewrite Z.pow_add_r in Hc by lia.
  split; [apply Z.div_pos; lia|apply Z.div_lt_upper_bound; lia].
Qed.

Lemma crc_bit_range c : 0 <= c < 2 ^ 32 -> 0 <= crc_bit c < 2 ^ 32.
Proof.
  intros Hc. rewrite crc_bit_eq. apply lxor_range; [lia|apply shiftr1_range; lia|].
  unfold CRC_POLY. case_if; lia.
Qed.

Lemma crc_bit_top c : 0 <= c < 2 ^ 32 -> Z.testbit (crc_bit c) 31 = Z.odd c.
Proof.
  intros Hc. rewrite crc_bit_eq, Z.lxor_spec, Z.shiftr_spec by lia.
  rewrite (testbit_above 32 c) by lia. by destruct (Z.odd c).
Qed.

Lemma crc_bit_inj a b : 0 <= a < 2 ^ 32 -> 0 <= b < 2 ^ 32 -> crc_bit a = crc_bit b -> a = b.
Proof.
  intros Ha Hb He. assert (Ho : Z.odd a = Z.odd b) by by rewrite <- !crc_bit_top, He by done.
  rewrite !crc_bit_eq, Ho in He. apply (f_equal (fun x => Z.lxor x (if Z.odd b then CRC_POLY else 0))) in He.
  rewrite !Z.lxor_assoc, !Z.lxor_nilpotent, !Z.lxor_0_r, !Z.shiftr_div_pow2 in He by lia.
  rewrite (Z.div_mod a (2 ^ 1)), (Z.div_mod b (2 ^ 1)), He by lia. f_equal. change (2 ^ 1) with 2.
  by rewrite <- !Z.bit0_mod, !Z.bit0_odd, Ho.
Qed.

(** A step on a word and an even one. *)
Lemma crc_bit_lxor u w : crc_bit (Z.lxor u (2 * w)) = Z.lxor (crc_bit u) w.
Proof.
  rewrite !crc_bit_eq, Z.shiftr_lxor. replace (Z.shiftr (2 * w) 1) with w.
  2: { rewrite Z.shiftr_div_pow2 by lia. change (2 ^ 1) with 2. by rewrite Z.mul_comm, Z.div_mul by lia. }
  replace (Z.odd (Z.lxor u (2 * w))) with (Z.odd u).
  - rewrite !Z.lxor_assoc. f_equal. apply Z.lxor_comm.
  - by rewrite <- !Z.bit0_odd, Z.lxor_spec, Z.testbit_even_0, xorb_false_r.
Qed.

#[local] Opaque crc_bit.

Lemma crc_bits_range n c : 0 <= c < 2 ^ 32 -> 0 <= Nat.iter n crc_bit c < 2 ^ 32.
Proof. intros Hc. induction n as [|n IH]; [done|]. by apply crc_bit_range. Qed.

Lemma crc_bits_inj n a b : 0 <= a < 2 ^ 32 -> 0 <= b < 2 ^ 32 -> Nat.iter n crc_bit a = Nat.iter n crc_bit b -> a = b.
Proof.
  intros Ha Hb. induction n as [|n IH]; [done|]. intros He. apply IH.
  by apply crc_bit_inj; [apply crc_bits_range..|].
Qed.

Lemma crc_bits_lxor n u w : Nat.iter n crc_bit (Z.lxor u (2 ^ Z.of_nat n * w)) = Z.lxor (Nat.iter n crc_bit u) w.
Proof.
  revert w. induction n as [|n IH]; intros w; [by rewrite Z.mul_1_l|].
  rewrite Nat2Z.inj_succ, Z.pow_succ_r by lia. simpl. replace (2 * 2 ^ Z.of_nat n * w) with (2 ^ Z.of_nat n * (2 * w)) by lia.
  by rewrite IH, crc_bit_lxor.
Qed.

Lemma crc_byte_eq c b : crc_byte c b = Nat.iter 8 crc_bit (Z.lxor c b).
Proof. reflexivity. Qed.

#[local] Opaque crc_byte.

Lemma fold_left_step {A B} (f : A -> B -> A) b l a : fold_left f (b :: l) a = fold_left f l (f a b).
Proof. reflexivity. Qed.

Lemma crc_byte_lxor c b w : Z.lxor (crc_byte c b) w = Nat.iter 8 crc_bit (Z.lxor (Z.lxor c b) (2 ^ 8 * w)).
Proof. rewrite crc_byte_eq. symmetry. exact (crc_bits_lxor 8 _ _). Qed.

Lemma lxor_concat b w : 0 <= b < 256 -> b + 256 * w = Z.lxor b (2 ^ 8 * w).
Proof.
  intros Hb. rewrite <- Z.add_nocarry_lxor; [lia|]. apply Z.bits_inj'. intros i Hi.
  rewrite Z.land_spec, Z.bits_0. destruct (Z.lt_ge_cases i 8).
  - by rewrite Z.mul_comm, Z.mul_pow2_bits_low, andb_false_r by lia.
  - by rewrite (testbit_above 8 b) by lia.
Qed.

Lemma crc_bytes_word bs c : is_bytes bs ->
  fold_left crc_byte bs c = Nat.iter (8 * length bs) crc_bit (Z.lxor c (le bs)).
Proof.
  intros Hbs. revert c. induction Hbs as [|b bs Hb _ IH]; intros c; [simpl; by rewrite Z.lxor_0_r|].
  rewrite fold_left_step, IH. cbn [le length]. rewrite (Z.mod_small b), crc_byte_lxor, lxor_concat by done.
  rewrite <- Z.lxor_assoc. replace (8 * S (length bs))%nat with (8 * length bs + 8)%nat by lia.
  by rewrite Nat.iter_add.
Qed.

Lemma crc_byte_range c b : 0 <= c < 2 ^ 32 -> 0 <= b < 256 -> 0 <= crc_byte c b < 2 ^ 32.
Proof. intros. rewrite crc_byte_eq. apply crc_bits_range. apply lxor_range; lia. Qed.

Lemma crc_byte_inj a b x : 0 <= a < 2 ^ 32 -> 0 <= b < 2 ^ 32 -> 0 <= x < 256 ->
  crc_byte a x = crc_byte b x -> a = b.
Proof.
  intros Ha Hb Hx He. rewrite !crc_byte_eq in He. apply crc_bits_inj in He; [|apply lxor_range; lia..].
  apply (f_equal (fun y => Z.lxor y x)) in He. by rewrite !Z.lxor_assoc, !Z.lxor_nilpotent, !Z.lxor_0_r in He.
Qed.

Lemma crc_fold_range bs c : is_bytes bs -> 0 <= c < 2 ^ 32 -> 0 <= fold_left crc_byte bs c < 2 ^ 32.
Proof. intros Hb. revert c. induction Hb as [|b bs Hb _ IH]; intros c Hc; [done|]. rewrite fold_left_step. apply IH. by apply crc_byte_range. Qed.

Lemma crc_fold_inj bs a b : is_bytes bs -> 0 <= a < 2 ^ 32 -> 0 <= b < 2 ^ 32 ->
  fold_left crc_byte bs a = fold_left crc_byte bs b -> a = b.
Proof.
  intros Hb. revert a b. induction Hb as [|x bs Hx _ IH]; intros a b Ha Hb' He; [done|]. rewrite !fold_left_step in He.
  apply IH in He; [|by apply crc_byte_range..]. apply crc_byte_inj in He; [done|done|done|done].
Qed.

Lemma nyfs_crc32_range bs : is_bytes bs -> 0 <= nyfs_crc32 bs < 2 ^ 32.
Proof. intros. apply lxor_range; [lia|apply crc_fold_range; [done|lia]|lia]. Qed.

Lemma crc_burst a xs ys b : is_bytes a -> is_bytes xs -> is_bytes ys -> is_bytes b ->
  length xs = length ys -> (length xs <= 4)%nat ->
  nyfs_crc32 (a ++ xs ++ b) = nyfs_crc32 (a ++ ys ++ b) -> xs = ys.
Proof.
  intros Ha Hx Hy Hb Hl H4 He. unfold nyfs_crc32 in He.
  apply (f_equal (fun y => Z.lxor y 0xFFFFFFFF)) in He. rewrite !Z.lxor_assoc, !Z.lxor_nilpotent, !Z.lxor_0_r in He.
  rewrite !fold_left_app in He. set (c := fold_left crc_byte a _) in He.
  assert (Hc : 0 <= c < 2 ^ 32) by (apply crc_fold_range; [done|lia]).
  apply crc_fold_inj in He; [|done|by apply crc_fold_range..].
  rewrite !crc_bytes_word, Hl in He by done.
  assert (Hle : forall zs, (length zs <= 4)%nat -> 0 <= le zs < 2 ^ 32).
  { intros zs Hz. pose proof (le_range zs). assert (256 ^ Z.of_nat (length zs) <= 256 ^ 4) by (apply Z.pow_le_mono_r; lia). lia. }
  apply crc_bits_inj in He; [|apply lxor_range; [lia|done|apply Hle; lia]..].
  apply (f_equal (Z.lxor c)) in He. rewrite <- !Z.lxor_assoc, !Z.lxor_nilpotent, !Z.lxor_0_l in He.
  rewrite <- (le_bytes_le xs), <- (le_bytes_le ys), Hl, He by done. done.
Qed.
