(* ===== verification/NyfsIo.v ===== *)
(** * Reasoning about a NYFS volume

    The rules of [wp] for the driver's combinators.  A disk is a function from
    byte offsets to bytes, of which the transfers of a reliable disk
    ([disk_laws]) read and replace ranges; two states are the same disk when
    the functions agree below the size.  On it the raw transfers, the bitmaps
    and the superblock. *)

From S2P Require Import Prelude Types Loops Bytes NyfsDisk NyfsImage Nyfs.

(** ** Rules for the volume's own combinators *)

Section wp_nyfs.
Context {D : Type}.
Abbreviation nst := (nst D).
Implicit Types s : nst.

Lemma wp_stepb {A B C} (c : ST nst (res A)) (k : A -> ST nst (C + res B)) Q s :
  wp c (fun r s' => match r with Ok a => wp (k a) Q s' | Err e => Q (inr (Err e)) s' end) s -> wp (stepb c k) Q s.
Proof. unfold wp, stepb. by destruct (c s) as [[a|e] s']. Qed.

Lemma wp_stepb_ok {A B C} (c : ST nst (res A)) (k : A -> ST nst (C + res B)) (P : A -> nst -> Prop) Q s :
  wp c (fun r s' => exists a, r = Ok a /\ P a s') s -> (forall a s', P a s' -> wp (k a) Q s') -> wp (stepb c k) Q s.
Proof. intros H Hk. apply wp_stepb. eapply wp_mono; [exact H|]. intros r s' (a & -> & Hp). by apply Hk. Qed.

Lemma wp_or_else {A B} (c : ST nst (res A)) cleanup (k : A -> ST nst (res B)) Q s :
  wp c (fun r s' => match r with Ok a => wp (k a) Q s' | Err e => Q (Err e) (cleanup s') end) s ->
  wp (or_else c cleanup k) Q s.
Proof. unfold wp, or_else. by destruct (c s) as [[a|e] s']. Qed.

Lemma wp_void {A} (c : ST nst A) (P : nst -> Prop) s : wp c (fun _ => P) s -> P (void c s).
Proof. unfold wp, void. by destruct (c s). Qed.
End wp_nyfs.

(** ** Bytes of a disk *)

Definition bytes_at (f : Z -> Z) (off n : Z) : list Z := f <$> seqZ off n.
Definition patch (f : Z -> Z) (off : Z) (bs : list Z) (a : Z) : Z :=
  if (off <=? a) && (a <? off + Z.of_nat (length bs)) then nth (Z.to_nat (a - off)) bs 0 else f a.

Lemma length_bytes_at f off n : length (bytes_at f off n) = Z.to_nat n.
Proof. unfold bytes_at. by rewrite length_fmap, length_seqZ. Qed.

Lemma bytes_at_ext f g off n : (forall a, off <= a < off + n -> f a = g a) -> bytes_at f off n = bytes_at g off n.
Proof. intros H. unfold bytes_at. apply list_fmap_ext. intros i x Hx%lookup_seqZ. apply H. lia. Qed.

Lemma bytes_at_app f off n m : 0 <= n -> 0 <= m -> bytes_at f off (n + m) = bytes_at f off n ++ bytes_at f (off + n) m.
Proof. intros. unfold bytes_at. by rewrite seqZ_app, fmap_app. Qed.

Lemma bytes_at_slice f off n k m : 0 <= k -> 0 <= m -> k + m <= n ->
  take (Z.to_nat m) (drop (Z.to_nat k) (bytes_at f off n)) = bytes_at f (off + k) m.
Proof.
  intros. replace n with (k + (m + (n - k - m))) by lia. rewrite !bytes_at_app by lia.
  rewrite drop_app_length' by (rewrite length_bytes_at; lia). by rewrite take_app_length' by (rewrite length_bytes_at; lia).
Qed.

Lemma bytes_at_lookup f off n i : 0 <= i < n -> bytes_at f off n !! Z.to_nat i = Some (f (off + i)).
Proof. intros. unfold bytes_at. rewrite list_lookup_fmap, lookup_seqZ_lt by lia. simpl. by rewrite Z2Nat.id by lia. Qed.

Lemma bytes_at_one f off : bytes_at f off 1 = [f off].
Proof. done. Qed.

Lemma is_bytes_bytes_at f off n : (forall a, 0 <= f a < 256) -> is_bytes (bytes_at f off n).
Proof. intros Hf. apply Forall_forall. intros x (a & -> & _)%list_elem_of_fmap. apply Hf. Qed.

Lemma bytes_at_patch f off bs : bytes_at (patch f off bs) off (Z.of_nat (length bs)) = bs.
Proof.
  apply list_eq. intros i. destruct (decide (i < length bs)%nat) as [Hi|Hi].
  - rewrite <- (Nat2Z.id i) at 1. rewrite bytes_at_lookup by lia. unfold patch. case_if; [|lia].
    replace (Z.to_nat (off + Z.of_nat i - off)) with i by lia.
    destruct (lookup_lt_is_Some_2 bs i Hi) as [x Hx]. rewrite Hx. f_equal. by apply nth_lookup_Some.
  - rewrite !lookup_ge_None_2; [done|lia|rewrite length_bytes_at; lia].
Qed.

Lemma patch_other f off bs a : a < off \/ off + Z.of_nat (length bs) <= a -> patch f off bs a = f a.
Proof. intros. unfold patch. case_if; [lia|done]. Qed.

Lemma bytes_at_patch_other f off bs a n : a + n <= off \/ off + Z.of_nat (length bs) <= a ->
  bytes_at (patch f off bs) a n = bytes_at f a n.
Proof. intros. apply bytes_at_ext. intros. apply patch_other. lia. Qed.

(** ** Reliable disks *)

(** Every transfer inside the [size] bytes of disk [k] succeeds: a read gives
    the bytes there, a write replaces them, and nothing else of the disk
    changes. *)
Record disk_laws {D : Type} (read : nyfs_disk_read_fn D) (write : nyfs_disk_write_fn D) (k size : Z)
    (img : D -> Z -> Z) : Prop := {
  dl_size : 0 <= size < 2 ^ 63;
  dl_byte d a : 0 <= img d a < 256;
  dl_read d off n : 0 <= off -> 0 < n -> off + n <= size ->
    exists d', read k off n d = ((Nok, bytes_at (img d) off n), d') /\ forall a, 0 <= a < size -> img d' a = img d a;
  dl_write d off bs : is_bytes bs -> bs <> [] -> 0 <= off -> off + Z.of_nat (length bs) <= size ->
    exists d', write k off bs d = (Nok, d') /\ forall a, 0 <= a < size -> img d' a = patch (img d) off bs a;
}.

Section disk.
Context {D : Type} (read : nyfs_disk_read_fn D) (write : nyfs_disk_write_fn D) (k size : Z) (img : D -> Z -> Z).
Context (HD : disk_laws read write k size img).
Abbreviation nst := (nst D).
Implicit Types s : nst.

(** The volume is on this disk. *)
Definition on_disk s : Prop :=
  vol_read (n_vol s) = Some read /\ vol_write (n_vol s) = Some write /\ vol_diskno (n_vol s) = k.
Definition bytes_of s : Z -> Z := img (n_disk s).
(** The disk of [s'] is that of [s], except where [P] holds. *)
Definition unchanged (P : Z -> Prop) s s' : Prop := forall a, 0 <= a < size -> ~ P a -> bytes_of s' a = bytes_of s a.

Lemma bytes_of_range s a : 0 <= bytes_of s a < 256.
Proof. apply (dl_byte _ _ _ _ _ HD). Qed.

Lemma raw_read_spec off n s : on_disk s -> 0 <= off -> 0 < n -> off + n <= size ->
  wp (nyfs_raw_read off n) (fun r s' =>
    r = (Nok, bytes_at (bytes_of s) off n) /\ n_vol s' = n_vol s /\ unchanged (fun _ => False) s s') s.
Proof.
  intros (Hr & _ & Hk) Ho Hn Hl. unfold wp, nyfs_raw_read. rewrite Hr, Hk.
  destruct (dl_read _ _ _ _ _ HD (n_disk s) off n Ho Hn Hl) as (d' & -> & Hd). split_and!; [done..|].
  intros a Ha _. by apply Hd.
Qed.

Lemma read_local_spec off n s : on_disk s -> 0 <= off -> 0 < n -> off + n <= size ->
  wp (read_local off n) (fun r s' =>
    r = Ok (bytes_at (bytes_of s) off n) /\ n_vol s' = n_vol s /\ unchanged (fun _ => False) s s') s.
Proof.
  intros Ho H1 H2 H3. pose proof (raw_read_spec off n s Ho H1 H2 H3) as H. unfold wp, read_local in *.
  destruct (nyfs_raw_read off n s) as [[st bs] s']. destruct H as ([= -> ->] & Hv & Hu). by change (is_err Nok) with false.
Qed.

Lemma raw_write_spec off bs s : on_disk s -> is_bytes bs -> bs <> [] -> 0 <= off -> off + Z.of_nat (length bs) <= size ->
  wp (nyfs_raw_write off bs) (fun r s' =>
    r = Ok tt /\ n_vol s' = n_vol s /\ forall a, 0 <= a < size -> bytes_of s' a = patch (bytes_of s) off bs a) s.
Proof.
  intros (_ & Hw & Hk) Hb Hn Ho Hl. unfold wp, nyfs_raw_write. rewrite Hw, Hk.
  destruct (dl_write _ _ _ _ _ HD (n_disk s) off bs Hb Hn Ho Hl) as (d' & -> & Hd). by split_and!.
Qed.

Lemma unchanged_trans P s s' s'' : unchanged P s s' -> unchanged P s' s'' -> unchanged P s s''.
Proof. intros H H' a Ha Hp. by rewrite H', H. Qed.
Lemma unchanged_mono (P Q : Z -> Prop) s s' : (forall a, P a -> Q a) -> unchanged P s s' -> unchanged Q s s'.
Proof. intros Hpq H a Ha Hq. apply H; auto. Qed.
Lemma unchanged_refl P s : unchanged P s s.
Proof. done. Qed.
Lemma unchanged_bytes P s s' off n : unchanged P s s' -> 0 <= off -> off + n <= size ->
  (forall a, off <= a < off + n -> ~ P a) -> bytes_at (bytes_of s') off n = bytes_at (bytes_of s) off n.
Proof. intros H Ho Hl Hp. apply bytes_at_ext. intros a Ha. apply H; [lia|]. by apply Hp. Qed.

(** ** Bitmaps *)

Definition bit_of s (region i : Z) : bool := Z.testbit (bytes_of s (region * bsize s + i / 8)) (i mod 8).
Definition bit_in s (region i : Z) : Prop :=
  0 <= region /\ 0 <= i /\ 0 <= bsize s /\ region * bsize s + i / 8 < size.

Lemma bit_offset_in s region i : bit_in s region i -> bit_offset region i s = region * bsize s + i / 8.
Proof.
  intros (Hr & Hi & Hb & Hl). unfold bit_offset, at_block. apply uw_small.
  pose proof (dl_size _ _ _ _ _ HD). assert (0 <= i / 8) by (apply Z.div_pos; lia). nia.
Qed.

Lemma bit_mask i : 0 <= i -> u8 (Z.shiftl 1 (i mod 8)) = 2 ^ (i mod 8).
Proof.
  intros Hi. pose proof (Z.mod_pos_bound i 8 ltac:(lia)). rewrite Z.shiftl_1_l. apply uw_small.
  assert (2 ^ (i mod 8) <= 2 ^ 7) by (apply Z.pow_le_mono_r; lia). pose proof (Z.pow_pos_nonneg 2 (i mod 8)). lia.
Qed.

Lemma bitmap_get_spec region i s : on_disk s -> bit_in s region i ->
  wp (nyfs_bitmap_get region i) (fun r s' =>
    r = Ok (bit_of s region i) /\ n_vol s' = n_vol s /\ unchanged (fun _ => False) s s') s.
Proof.
  intros Ho Hi. unfold nyfs_bitmap_get. unfold wp at 1. rewrite bit_offset_in by done.
  apply (wp_tryb (read_local _ _)).
  assert (0 <= i / 8) by (apply Z.div_pos; [apply Hi|lia]).
  assert (0 <= region * bsize s) by (destruct Hi as (? & ? & ? & ?); nia).
  eapply wp_mono; [apply read_local_spec; [done|lia|lia|destruct Hi as (? & ? & ? & ?); lia]|].
  intros r s' (-> & Hv & Hu). apply wp_ret. split; [|done]. f_equal. rewrite bytes_at_one, bit_mask by apply Hi.
  unfold field. simpl. rewrite Z.add_0_r, Z.mod_small by apply bytes_of_range. apply tst_bit. apply Z.mod_pos_bound. lia.
Qed.

Definition put_bit (b i : Z) (v : bool) : Z := if v then Z.lor b (2 ^ (i mod 8)) else Z.land b (unot 8 (2 ^ (i mod 8))).

Lemma put_bit_range b i v : 0 <= b < 256 -> 0 <= put_bit b i v < 256.
Proof.
  intros Hb. pose proof (Z.mod_pos_bound i 8 ltac:(lia)).
  assert (2 ^ (i mod 8) <= 2 ^ 7) by (apply Z.pow_le_mono_r; lia). pose proof (Z.pow_pos_nonneg 2 (i mod 8)).
  unfold put_bit. destruct v; [apply (lor_range 8); lia|]. rewrite land_unot by lia.
  apply (range_of_bits 8); [lia|apply Z.ldiff_nonneg; lia|].
  intros j Hj. by rewrite Z.ldiff_spec, (testbit_above 8 b) by lia.
Qed.

Lemma testbit_put_bit b i v j : 0 <= b < 256 -> 0 <= j -> Z.testbit (put_bit b i v) j = if j =? i mod 8 then v else Z.testbit b j.
Proof.
  intros Hb Hj. pose proof (Z.mod_pos_bound i 8 ltac:(lia)). unfold put_bit.
  destruct v; [rewrite Z.lor_spec|rewrite land_unot, Z.ldiff_spec by lia]; rewrite Z.pow2_bits_eqb by lia;
    rewrite (Z.eqb_sym (i mod 8)); destruct (j =? i mod 8); cbn [negb]; by rewrite ?orb_true_r, ?orb_false_r, ?andb_false_r, ?andb_true_r.
Qed.

(** The byte of bit [i] changes, and in it the bit. *)
Lemma bitmap_put_spec region i v s : on_disk s -> bit_in s region i ->
  wp (nyfs_bitmap_put region i v) (fun r s' =>
    r = Ok tt /\ n_vol s' = n_vol s /\
    unchanged (fun a => a = region * bsize s + i / 8) s s' /\
    forall j, bit_in s region j -> bit_of s' region j = if j =? i then v else bit_of s region j) s.
Proof.
  intros Ho Hi. unfold nyfs_bitmap_put. unfold wp at 1. rewrite bit_offset_in by done.
  set (off := region * bsize s + i / 8).
  apply (wp_tryb (read_local _ _)).
  assert (0 <= i / 8) by (apply Z.div_pos; [apply Hi|lia]).
  assert (Hoff : 0 <= off < size) by (destruct Hi as (? & ? & ? & ?); unfold off; nia).
  eapply wp_mono; [apply (read_local_spec off 1); [done|lia..]|].
  intros r s1 (-> & Hv1 & Hu1). rewrite bytes_at_one, bit_mask by apply Hi. unfold field. cbn [drop take le].
  rewrite Z.mul_0_r, Z.add_0_r, Z.mod_small by apply bytes_of_range. fold (put_bit (bytes_of s off) i v).
  pose proof (put_bit_range _ i v (bytes_of_range s off)) as Hpr.
  eapply wp_mono; [apply (raw_write_spec off [_])|]; [unfold on_disk; by rewrite Hv1|by apply Forall_singleton|done|lia|simpl; lia|].
  intros r s2 (-> & Hv2 & Hw). rewrite Hv1 in Hv2. split_and!; [done..| |].
  - intros a Ha Hn. rewrite Hw, patch_other by (simpl; lia). apply Hu1; [done|tauto].
  - intros j Hj. unfold bit_of. unfold bsize at 1. rewrite Hv2. fold (bsize s).
    assert (Hj8 : 0 <= j / 8) by (apply Z.div_pos; [apply Hj|lia]).
    rewrite Hw by (destruct Hj as (? & ? & ? & ?); nia). unfold patch. cbn [length].
    pose proof (Z.div_mod i 8 ltac:(lia)). pose proof (Z.div_mod j 8 ltac:(lia)).
    case_if.
    + assert (E' : j / 8 = i / 8) by (unfold off in *; lia). replace (region * bsize s + j / 8) with off by (unfold off; lia).
      rewrite Z.sub_diag. simpl nth. rewrite testbit_put_bit by (apply bytes_of_range || apply Z.mod_pos_bound; lia).
      destruct (j =? i) eqn:Eji; bool_simpl; [subst; by rewrite Z.eqb_refl|].
      rewrite (proj2 (Z.eqb_neq _ _)) by lia. done.
    + rewrite Hu1 by (destruct Hj as (? & ? & ? & ?); nia || tauto).
      destruct (j =? i) eqn:Eji; bool_simpl; [|done]. subst j. unfold off in *. lia.
Qed.
End disk.
