(* ===== verification/NyfsAlloc.v ===== *)
(** * The allocators of NYFS

    The invariant of a mounted volume - its layout, the superblock on the disk
    and the reserved bits - and what the two bitmap allocators do to it: they
    are the operations of a set of free numbers. *)

From S2P Require Import Prelude Types Loops Bytes NyfsDisk NyfsImage Nyfs NyfsIo.

Section alloc.
Context {D : Type} (read : nyfs_disk_read_fn D) (write : nyfs_disk_write_fn D) (k size : Z) (img : D -> Z -> Z).
Context (HD : disk_laws read write k size img).
Abbreviation nst := (nst D).
Abbreviation on_disk := (on_disk read write k).
Abbreviation bytes_of := (bytes_of img).
Abbreviation unchanged := (unchanged size img).
Abbreviation bit_of := (bit_of img).
Abbreviation bit_in := (bit_in size).
Implicit Types s : nst.

(** ** The superblock *)

(** The counters and the checksum are all that changes in a volume. *)
Definition counts_set (b i c : Z) s s' : Prop :=
  n_vol s' = set_sb (set_sb_checksum c (set_sb_counts b i (sb s))) (n_vol s).
Definition vol_same s s' : Prop := exists b i c, counts_set b i c s s'.

(** The superblock's arrays hold bytes, so its encoding does. *)
Definition sb_ok (b : nyfs_superblock_t) : Prop :=
  sb_wf b /\ is_bytes (sb_reserved0 b) /\ is_bytes (sb_label b) /\ is_bytes (sb_reserved3 b).

(** The superblock on the disk is the volume's, with the right checksum. *)
Definition sb_stored s : Prop :=
  bytes_at (bytes_of s) 0 SB_SIZE = sb_bytes (sb s) /\
  sb_checksum (sb s) = nyfs_crc32 (sb_bytes (set_sb_checksum 0 (sb s))).

Lemma is_bytes_app a b : is_bytes a -> is_bytes b -> is_bytes (a ++ b).
Proof. apply Forall_app_2. Qed.

Lemma is_bytes_sb b : sb_ok b -> is_bytes (sb_bytes b).
Proof. intros (_ & H1 & H2 & H3). unfold sb_bytes. repeat apply is_bytes_app; try apply is_bytes_le_bytes; done. Qed.

Lemma sb_ok_counts b i x : 0 <= b < 2 ^ 64 -> 0 <= i < 2 ^ 64 -> sb_ok x -> sb_ok (set_sb_counts b i x).
Proof. destruct x. unfold sb_ok, sb_wf. cbn. intros ? ? (Hw & ? & ? & ?). decompose [and] Hw. split_and!; first [done|lia]. Qed.
Lemma sb_ok_checksum c x : 0 <= c < 2 ^ 32 -> sb_ok x -> sb_ok (set_sb_checksum c x).
Proof. destruct x. unfold sb_ok, sb_wf. cbn. intros ? (Hw & ? & ? & ?). decompose [and] Hw. split_and!; first [done|lia]. Qed.

Lemma length_sb b : sb_ok b -> length (sb_bytes b) = 256%nat.
Proof. intros (Hw & _). unfold sb_wf in Hw. decompose [and] Hw. by apply length_sb_bytes. Qed.

Lemma flush_spec s : on_disk s -> sb_ok (sb s) -> SB_SIZE <= size ->
  wp nyfs_flush_superblock (fun r s' =>
    r = Ok tt /\ (exists c, counts_set (sb_free_blocks (sb s)) (sb_free_inode_count (sb s)) c s s') /\
    sb_ok (sb s') /\ sb_stored s' /\ unchanged (fun a => a < SB_SIZE) s s') s.
Proof.
  intros Ho Hs Hz. unfold nyfs_flush_superblock. unfold wp at 1.
  set (sb0 := set_sb_checksum 0 (sb s)). set (sb1 := set_sb_checksum _ sb0).
  assert (Hs0 : sb_ok sb0) by (apply sb_ok_checksum; [lia|done]).
  assert (Hs1 : sb_ok sb1) by (apply sb_ok_checksum; [apply nyfs_crc32_range, is_bytes_sb; done|done]).
  change (wp (nyfs_raw_write 0 (sb_bytes sb1)) (fun r s' =>
    r = Ok tt /\ (exists c, counts_set (sb_free_blocks (sb s)) (sb_free_inode_count (sb s)) c s s') /\
    sb_ok (sb s') /\ sb_stored s' /\ unchanged (fun a => a < SB_SIZE) s s') (with_sb sb1 s)).
  eapply wp_mono; [apply (raw_write_spec _ _ _ _ _ HD); [done|by apply is_bytes_sb| |lia|rewrite length_sb by done; exact Hz]|].
  { intros E. apply (f_equal length) in E. by rewrite length_sb in E. }
  intros r s' (-> & Hv & Hw). assert (Hsb : sb s' = sb1) by (unfold sb; by rewrite Hv).
  split; [done|]. split.
  { exists (sb_checksum sb1). unfold counts_set. rewrite Hv. unfold with_sb. cbn [n_vol].
    unfold sb1, sb0. by destruct (sb s). }
  rewrite Hsb. split; [done|]. split.
  - unfold sb_stored. rewrite Hsb. split; [|by unfold sb1, sb0; destruct (sb s)].
    rewrite <- (bytes_at_patch (bytes_of (with_sb sb1 s)) 0 (sb_bytes sb1)). rewrite length_sb by done.
    apply bytes_at_ext. intros a Ha. apply Hw. unfold SB_SIZE in *. lia.
  - intros a Ha Hn. rewrite Hw by done. apply patch_other. rewrite length_sb by done. unfold SB_SIZE in *. lia.
Qed.

(** ** Taking and giving back a bit *)

(** Bit [i] of [region] has become [v], the counters have moved by [db] and
    [di], and the superblock is on the disk. *)
Definition marked (region i : Z) (v : bool) (db di : Z) s s' : Prop :=
  (exists c, counts_set (u64 (sb_free_blocks (sb s) + db)) (u64 (sb_free_inode_count (sb s) + di)) c s s') /\
  sb_ok (sb s') /\ sb_stored s' /\
  unchanged (fun a => a < SB_SIZE \/ a = region * bsize s + i / 8) s s' /\
  forall j, bit_in s region j -> SB_SIZE <= region * bsize s + j / 8 ->
    bit_of s' region j = if j =? i then v else bit_of s region j.

Lemma counted_flush_spec db di s : on_disk s -> sb_ok (sb s) -> SB_SIZE <= size ->
  wp (fun s => nyfs_flush_superblock (add_counts db di s)) (fun r s' =>
    r = Ok tt /\
    (exists c, counts_set (u64 (sb_free_blocks (sb s) + db)) (u64 (sb_free_inode_count (sb s) + di)) c s s') /\
    sb_ok (sb s') /\ sb_stored s' /\ unchanged (fun a => a < SB_SIZE) s s') s.
Proof.
  intros Ho Hs Hz. pose proof (flush_spec (add_counts db di s) Ho) as H. unfold wp in *.
  destruct (nyfs_flush_superblock (add_counts db di s)) as [r s']. apply H; [|done].
  apply sb_ok_counts; [apply u64_range..|done].
Qed.

Lemma marked_flushed region i v db di s s1 s2 : bit_in s region i ->
  n_vol s1 = n_vol s -> unchanged (fun a => a = region * bsize s + i / 8) s s1 ->
  (forall j, bit_in s region j -> bit_of s1 region j = if j =? i then v else bit_of s region j) ->
  (exists c, counts_set (u64 (sb_free_blocks (sb s1) + db)) (u64 (sb_free_inode_count (sb s1) + di)) c s1 s2) ->
  sb_ok (sb s2) -> sb_stored s2 -> unchanged (fun a => a < SB_SIZE) s1 s2 ->
  marked region i v db di s s2.
Proof.
  intros Hi Hv Hu Hb [c Hc] Hs Hst Hu2. unfold counts_set, sb in Hc. rewrite Hv in Hc.
  split; [by exists c|]. split; [done|]. split; [done|]. split.
  - intros a Ha Hn. rewrite Hu2, Hu by (done || lia). done.
  - intros j Hj Hj2. rewrite <- Hb by done. unfold NyfsIo.bit_of, bsize. rewrite Hc, Hv. cbn [set_sb vol_block_size].
    destruct Hj as (? & ? & ? & ?). assert (0 <= j / 8) by (apply Z.div_pos; lia).
    rewrite Hu2; [done|unfold bsize in *; nia|unfold bsize in *; lia].
Qed.

Lemma put_flush_spec region i v db di s : on_disk s -> sb_ok (sb s) -> SB_SIZE <= size -> bit_in s region i ->
  wp (_ <-? nyfs_bitmap_put region i v ;; (fun s => nyfs_flush_superblock (add_counts db di s)))
    (fun r s' => r = Ok tt /\ marked region i v db di s s') s.
Proof.
  intros Ho Hs Hz Hi. apply wp_tryb. eapply wp_mono; [by apply (bitmap_put_spec _ _ _ _ _ HD)|].
  intros r s1 (-> & Hv & Hu & Hb).
  eapply wp_mono; [apply counted_flush_spec; [unfold NyfsIo.on_disk; by rewrite Hv|unfold sb; by rewrite Hv|done]|].
  intros r s2 (-> & Hc & Hs2 & Hst & Hu2). split; [done|]. by eapply marked_flushed.
Qed.

(** The search for a clear bit, as both allocators write it. *)
Lemma alloc_bit_spec region limit db di e s : on_disk s -> sb_ok (sb s) -> SB_SIZE <= size -> limit < 2 ^ 64 ->
  (forall i, 0 <= i < limit -> bit_in s region i) ->
  wp (run hung (fun i => if i <? limit then alloc_round region (add_counts db di) i else ret (inr (Err e))) 0)
    (fun r s' => match r with
     | Ok i => 0 <= i < limit /\ bit_of s region i = false /\ (forall j, 0 <= j < i -> bit_of s region j = true) /\
         exists s0, n_vol s0 = n_vol s /\ unchanged (fun _ => False) s s0 /\ marked region i true db di s0 s'
     | Err e' => e' = e /\ (forall j, 0 <= j < limit -> bit_of s region j = true) /\
         n_vol s' = n_vol s /\ unchanged (fun _ => False) s s'
     end) s.
Proof.
  intros Ho Hs Hz Hl Hin.
  apply (wp_loop _ _ (fun n i s' => 0 <= i /\ n = Z.max 0 (limit - i) /\ (forall j, 0 <= j < i -> j < limit -> bit_of s region j = true) /\
    n_vol s' = n_vol s /\ unchanged (fun _ => False) s s') _ (Z.max 0 limit)); [| lia|].
  { split; [lia|]. split; [lia|]. split; [lia|]. by split. }
  intros n i s1 (Hi & -> & Hset & Hv & Hu).
  assert (Hbit : forall j, 0 <= j < limit -> bit_of s1 region j = bit_of s region j).
  { intros j Hj. unfold NyfsIo.bit_of, bsize. rewrite Hv. destruct (Hin j Hj) as (? & ? & ? & ?).
    assert (0 <= j / 8) by (apply Z.div_pos; lia). rewrite Hu; [done|unfold bsize in *; nia|tauto]. }
  case_if; [|apply wp_ret; split; [done|]; split; [|done]; intros j Hj; apply Hset; lia].
  assert (Hin1 : bit_in s1 region i) by (unfold NyfsIo.bit_in, bsize; rewrite Hv; apply Hin; lia).
  apply wp_stepb. eapply wp_mono; [apply (bitmap_get_spec _ _ _ _ _ HD); [unfold NyfsIo.on_disk; by rewrite Hv|done]|].
  intros r s2 (-> & Hv2 & Hu2). destruct (bit_of s1 region i) eqn:Eb.
  - apply wp_ret. exists (Z.max 0 (limit - (i + 1))). split; [|lia]. split; [lia|]. split; [done|]. split.
    + intros j Hj Hjl. destruct (decide (j = i)) as [->|]; [by rewrite <- Hbit by lia|apply Hset; lia].
    + split; [congruence|]. by eapply unchanged_trans.
  - assert (Ho2 : on_disk s2) by (unfold NyfsIo.on_disk; rewrite Hv2, Hv; exact Ho).
    assert (Hin2 : bit_in s2 region i) by (unfold NyfsIo.bit_in, bsize in *; by rewrite Hv2).
    apply wp_stepb. eapply wp_mono; [by apply (bitmap_put_spec _ _ _ _ _ HD)|].
    intros r s3 (-> & Hv3 & Hu3 & Hb3). unfold wp at 1.
    apply (wp_stepb nyfs_flush_superblock).
    pose proof (counted_flush_spec db di s3) as Hf. unfold wp in Hf. unfold wp at 1.
    destruct (nyfs_flush_superblock (add_counts db di s3)) as [r s4].
    destruct Hf as (-> & Hc & Hs4 & Hst & Hu4); [unfold NyfsIo.on_disk; rewrite Hv3; exact Ho2|unfold sb; by rewrite Hv3, Hv2, Hv|done|].
    apply wp_ret. split; [lia|]. rewrite <- Hbit by lia. split; [done|]. split; [intros j Hj; apply Hset; lia|].
    exists s2. split; [congruence|]. split; [by eapply unchanged_trans|]. by eapply marked_flushed.
Qed.

(** ** Volumes *)

(** The layout: the superblock in block 0, then the inode bitmap, the block
    bitmap, the inode table, and the data blocks from [fd] on. *)
Definition geo_ok (fd bs : Z) (b : nyfs_superblock_t) : Prop :=
  512 <= bs <= 65536 /\ 1 <= sb_inode_bitmap_start b /\ 2 <= sb_inode_count b /\
  sb_inode_bitmap_start b * bs + (sb_inode_count b + 7) / 8 <= sb_alloc_meta_start b * bs /\
  sb_alloc_meta_start b * bs + (sb_total_blocks b + 7) / 8 <= sb_inode_table_start b * bs /\
  sb_inode_table_start b * bs + sb_inode_count b * INODE_SIZE <= fd * bs /\
  fd <= sb_total_blocks b /\ sb_total_blocks b * bs <= size.

Definition total s : Z := sb_total_blocks (sb s).
Definition inodes s : Z := sb_inode_count (sb s).
Definition used s (b : Z) : bool := bit_of s (sb_alloc_meta_start (sb s)) b.
Definition iused s (i : Z) : bool := bit_of s (sb_inode_bitmap_start (sb s)) i.
(** The counters of free blocks and free inodes. *)
Definition counts s : Z * Z := (sb_free_blocks (sb s), sb_free_inode_count (sb s)).

(** A volume in order: the disk, the layout, the superblock stored, and the
    blocks of the metadata and the number 0 reserved. *)
Definition vol_ok (fd : Z) s : Prop :=
  on_disk s /\ geo_ok fd (bsize s) (sb s) /\ sb_ok (sb s) /\ sb_stored s /\
  (forall b, 0 <= b < fd -> used s b = true) /\ iused s 0 = true.

(** The bytes of the two bitmaps. *)
Definition in_bitmap s (a : Z) : Prop :=
  sb_alloc_meta_start (sb s) * bsize s <= a < sb_inode_table_start (sb s) * bsize s.
Definition in_ibitmap s (a : Z) : Prop :=
  sb_inode_bitmap_start (sb s) * bsize s <= a < sb_alloc_meta_start (sb s) * bsize s.
Definition in_table s (a : Z) : Prop :=
  sb_inode_table_start (sb s) * bsize s <= a < sb_inode_table_start (sb s) * bsize s + inodes s * INODE_SIZE.

(** What a mount checks besides the checksum. *)
Definition sb_ident (b : nyfs_superblock_t) : Z * Z * Z * Z :=
  (sb_magic b, sb_version b, sb_superblock_size b, sb_block_size_shift b).

(** The parts of a volume that no operation changes. *)
Definition same_layout s s' : Prop :=
  vol_read (n_vol s') = vol_read (n_vol s) /\ vol_write (n_vol s') = vol_write (n_vol s) /\
  vol_diskno (n_vol s') = vol_diskno (n_vol s) /\ bsize s' = bsize s /\ total s' = total s /\ inodes s' = inodes s /\
  sb_alloc_meta_start (sb s') = sb_alloc_meta_start (sb s) /\
  sb_inode_bitmap_start (sb s') = sb_inode_bitmap_start (sb s) /\
  sb_inode_table_start (sb s') = sb_inode_table_start (sb s) /\ sb_ident (sb s') = sb_ident (sb s).

Lemma same_layout_refl s : same_layout s s.
Proof. by split_and!. Qed.
Lemma same_layout_trans s1 s2 s3 : same_layout s1 s2 -> same_layout s2 s3 -> same_layout s1 s3.
Proof. unfold same_layout. intros H1 H2. decompose [and] H1. decompose [and] H2. split_and!; congruence. Qed.
Lemma same_layout_vol s s' : n_vol s' = n_vol s -> same_layout s s'.
Proof. unfold same_layout, bsize, total, inodes, sb. by intros ->. Qed.
Lemma same_layout_counts b i c s s' : counts_set b i c s s' -> same_layout s s'.
Proof. unfold counts_set, same_layout, bsize, total, inodes, sb. by intros ->. Qed.
Lemma same_layout_sym s s' : same_layout s s' -> same_layout s' s.
Proof. unfold same_layout. intros H. decompose [and] H. by split_and!. Qed.

(** The layout as inequalities between byte offsets. *)
Lemma geo_order fd bs b : geo_ok fd bs b -> 0 <= sb_total_blocks b ->
  bs <= sb_inode_bitmap_start b * bs /\ 0 <= sb_inode_bitmap_start b /\
  sb_inode_bitmap_start b * bs + (sb_inode_count b + 7) / 8 <= sb_alloc_meta_start b * bs /\ 0 <= sb_alloc_meta_start b /\
  sb_alloc_meta_start b * bs + (sb_total_blocks b + 7) / 8 <= sb_inode_table_start b * bs /\ 0 <= sb_inode_table_start b /\
  sb_inode_table_start b * bs + sb_inode_count b * 256 <= fd * bs /\ 0 <= fd /\ fd * bs <= sb_total_blocks b * bs /\
  0 <= (sb_inode_count b + 7) / 8 /\ 0 <= (sb_total_blocks b + 7) / 8.
Proof.
  unfold geo_ok, INODE_SIZE. intros Hg Ht. decompose [and] Hg.
  assert (0 <= (sb_inode_count b + 7) / 8) by (apply Z.div_pos; lia).
  assert (0 <= (sb_total_blocks b + 7) / 8) by (apply Z.div_pos; lia).
  assert (bs <= sb_inode_bitmap_start b * bs) by nia.
  assert (0 <= sb_alloc_meta_start b) by nia. assert (0 <= sb_inode_table_start b) by nia.
  assert (0 <= fd) by nia. assert (fd * bs <= sb_total_blocks b * bs) by nia. lia.
Qed.

Lemma div8_lt i n : 0 <= i < n -> 0 <= i / 8 < (n + 7) / 8.
Proof.
  intros Hi. split; [apply Z.div_pos; lia|]. apply Z.div_lt_upper_bound; [lia|].
  pose proof (Z.div_mod (n + 7) 8 ltac:(lia)). pose proof (Z.mod_pos_bound (n + 7) 8 ltac:(lia)). lia.
Qed.

Lemma geo_block_in s fd b : geo_ok fd (bsize s) (sb s) -> 0 <= b < total s ->
  bit_in s (sb_alloc_meta_start (sb s)) b /\ in_bitmap s (sb_alloc_meta_start (sb s) * bsize s + b / 8) /\
  SB_SIZE <= sb_alloc_meta_start (sb s) * bsize s + b / 8.
Proof.
  unfold total. intros Hg Hb. pose proof (geo_order _ _ _ Hg ltac:(lia)) as Ho. pose proof (div8_lt _ _ Hb).
  unfold geo_ok in Hg. unfold NyfsIo.bit_in, in_bitmap, SB_SIZE. lia.
Qed.

Lemma geo_inode_in s fd i : geo_ok fd (bsize s) (sb s) -> 0 <= total s -> 0 <= i < inodes s ->
  bit_in s (sb_inode_bitmap_start (sb s)) i /\ in_ibitmap s (sb_inode_bitmap_start (sb s) * bsize s + i / 8) /\
  SB_SIZE <= sb_inode_bitmap_start (sb s) * bsize s + i / 8.
Proof.
  unfold inodes, total. intros Hg Ht Hb. pose proof (geo_order _ _ _ Hg ltac:(lia)) as Ho. pose proof (div8_lt _ _ Hb).
  unfold geo_ok in Hg. unfold NyfsIo.bit_in, in_ibitmap, SB_SIZE. lia.
Qed.

Lemma sb_ok_total b : sb_ok b -> 0 <= sb_total_blocks b < 2 ^ 64.
Proof. intros (Hw & _). apply Hw. Qed.
Lemma sb_ok_inodes b : sb_ok b -> 0 <= sb_inode_count b < 2 ^ 64.
Proof. intros (Hw & _). apply Hw. Qed.

(** What a change outside the bitmaps and the superblock keeps. *)
Lemma used_unchanged P fd s s' : vol_ok fd s -> same_layout s s' -> unchanged P s s' ->
  (forall a, in_bitmap s a -> ~ P a) -> forall b, 0 <= b < total s -> used s' b = used s b.
Proof.
  intros (_ & Hg & _) (_ & _ & _ & Hb & _ & _ & Ha & _) Hu Hp b Hl. unfold used, NyfsIo.bit_of. rewrite Ha, Hb.
  destruct (geo_block_in s fd b Hg Hl) as ((? & ? & ? & ?) & Hin & ?). unfold SB_SIZE in *.
  rewrite Hu; [done|lia|by apply Hp].
Qed.
Lemma iused_unchanged P fd s s' : vol_ok fd s -> same_layout s s' -> unchanged P s s' ->
  (forall a, in_ibitmap s a -> ~ P a) -> forall i, 0 <= i < inodes s -> iused s' i = iused s i.
Proof.
  intros (_ & Hg & Hs & _) (_ & _ & _ & Hb & _ & _ & _ & Ha & _) Hu Hp b Hl. unfold iused, NyfsIo.bit_of. rewrite Ha, Hb.
  destruct (geo_inode_in s fd b Hg (proj1 (sb_ok_total _ Hs)) Hl) as ((? & ? & ? & ?) & Hin & ?). unfold SB_SIZE in *.
  rewrite Hu; [done|lia|by apply Hp].
Qed.

Lemma geo_ok_layout fd s s' : same_layout s s' -> geo_ok fd (bsize s) (sb s) -> geo_ok fd (bsize s') (sb s').
Proof.
  unfold same_layout, geo_ok, total, inodes. intros (_ & _ & _ & -> & Ht & Hi & Ha & Hb & Hc & _) Hg.
  by rewrite Ht, Hi, Ha, Hb, Hc.
Qed.
Lemma on_disk_layout s s' : same_layout s s' -> on_disk s -> on_disk s'.
Proof. unfold same_layout, NyfsIo.on_disk. intros (-> & -> & -> & _). done. Qed.

(** A write of data, or of an inode, keeps the volume in order. *)
Lemma vol_ok_write P fd s s' : vol_ok fd s -> n_vol s' = n_vol s -> unchanged P s s' ->
  (forall a, P a -> SB_SIZE <= a /\ ~ in_bitmap s a /\ ~ in_ibitmap s a) -> vol_ok fd s'.
Proof.
  intros Hok Hv Hu Hp. pose proof (same_layout_vol s s' Hv) as Hl. pose proof Hok as (Ho & Hg & Hs & (Hst & Hck) & Hm & H0).
  assert (Hsb : sb s' = sb s) by (unfold sb; by rewrite Hv).
  assert (Hbs : bsize s' = bsize s) by (unfold bsize; by rewrite Hv).
  split; [by eapply on_disk_layout|]. split; [by eapply geo_ok_layout|]. rewrite !Hsb. split; [done|]. split; [|split].
  - split; rewrite Hsb; [|done]. rewrite <- Hst. unfold SB_SIZE in *.
    eapply (unchanged_bytes _ _ P); [exact Hu|lia| |intros a Ha Hpa; apply Hp in Hpa; lia].
    pose proof (geo_order _ _ _ Hg (proj1 (sb_ok_total _ Hs))). unfold geo_ok in Hg. lia.
  - intros b Hb. rewrite <- (Hm b Hb). assert (b < total s) by (unfold total, geo_ok in *; lia).
    eapply used_unchanged; [done..| |lia]. intros a Ha Hpa. by apply Hp in Hpa as (_ & Hn & _).
  - rewrite <- H0. eapply iused_unchanged; [done..| |unfold inodes, geo_ok in *; lia].
    intros a Ha Hpa. by apply Hp in Hpa as (_ & _ & Hn).
Qed.

(** ** The two allocators *)

(** From [s] to [s'] the volume stays in order, and only the superblock and the
    bytes of [region] change. *)
Definition alloc_frame (fd : Z) (region : Z -> Prop) s s' : Prop :=
  vol_ok fd s' /\ same_layout s s' /\ unchanged (fun a => a < SB_SIZE \/ region a) s s'.

Lemma marked_layout region i v db di s s' : marked region i v db di s s' -> same_layout s s'.
Proof. intros ([c Hc] & _). by eapply same_layout_counts. Qed.

Lemma marked_same region i v db di s s0 s' : n_vol s0 = n_vol s -> unchanged (fun _ => False) s s0 ->
  marked region i v db di s0 s' -> 0 <= bsize s -> 0 <= region ->
  marked region i v db di s s'.
Proof.
  unfold marked, counts_set, sb, bsize. intros Hv Hu (Hc & Hs & Hst & Hun & Hb) Hbs Hr. rewrite Hv in *.
  split; [done|]. split; [done|]. split; [done|]. split.
  - intros a Ha Hn. rewrite Hun by done. apply Hu; [done|tauto].
  - intros j Hj Hj2. rewrite Hb by (done || (unfold NyfsIo.bit_in, bsize in *; by rewrite Hv)). case_if; [done|].
    unfold NyfsIo.bit_of, bsize. rewrite Hv. destruct Hj as (? & ? & ? & ?). unfold SB_SIZE, bsize in *.
    rewrite Hu; [done|lia|tauto].
Qed.

Lemma marked_counts region i v db di s s' : marked region i v db di s s' ->
  counts s' = (u64 (sb_free_blocks (sb s) + db), u64 (sb_free_inode_count (sb s) + di)).
Proof. intros ([c Hc] & _). unfold counts, sb at 1 2. rewrite Hc. cbn [set_sb vol_sb]. by destruct (sb s). Qed.

Lemma u64_add_0 b : sb_ok b -> u64 (sb_free_blocks b + 0) = sb_free_blocks b /\
  u64 (sb_free_inode_count b + 0) = sb_free_inode_count b.
Proof. intros (Hw & _). unfold sb_wf in Hw. decompose [and] Hw. rewrite !Z.add_0_r. split; by apply uw_small. Qed.

Lemma marked_block fd b v db s s' : vol_ok fd s -> fd <= b < total s ->
  marked (sb_alloc_meta_start (sb s)) b v db 0 s s' ->
  alloc_frame fd (in_bitmap s) s s' /\ counts s' = (u64 (sb_free_blocks (sb s) + db), sb_free_inode_count (sb s)) /\
  forall j, 0 <= j < total s -> used s' j = if j =? b then v else used s j.
Proof.
  intros Hok Hb Hm. pose proof (marked_layout _ _ _ _ _ _ _ Hm) as Hl. pose proof Hm as Hm0. destruct Hm as ([c Hc] & Hs' & Hst & Hu & Hbit).
  pose proof Hok as (Ho & Hg & Hs & _ & Hmeta & H0). pose proof (geo_order _ _ _ Hg (proj1 (sb_ok_total _ Hs))) as Hord.
  assert (Hfd : 0 <= fd) by lia.
  destruct (geo_block_in s fd b Hg ltac:(lia)) as (Hin & Hreg & _).
  assert (Hu' : unchanged (fun a => a < SB_SIZE \/ in_bitmap s a) s s').
  { eapply unchanged_mono; [|exact Hu]. intros a [?| ->]; [by left|by right]. }
  assert (Hused : forall j, 0 <= j < total s -> used s' j = if j =? b then v else used s j).
  { intros j Hj. unfold used. destruct Hl as (_ & _ & _ & _ & _ & _ & Ha & _). rewrite Ha.
    destruct (geo_block_in s fd j Hg Hj) as (? & _ & ?). by apply Hbit. }
  split; [|split; [|done]].
  - split; [|by split]. split; [by eapply on_disk_layout|]. split; [by eapply geo_ok_layout|].
    split; [done|]. split; [done|]. split.
    + intros j Hj. rewrite Hused by lia. case_if; [lia|by apply Hmeta].
    + rewrite <- H0. eapply iused_unchanged; [exact Hok|exact Hl|exact Hu'| |unfold inodes, geo_ok in *; lia].
      intros a Ha [Hx|Hx]; unfold in_ibitmap, in_bitmap, SB_SIZE, geo_ok in *; lia.
  - rewrite (marked_counts _ _ _ _ _ _ _ Hm0). by rewrite (proj2 (u64_add_0 _ Hs)).
Qed.

Lemma marked_inode fd i v di s s' : vol_ok fd s -> 0 < i < inodes s ->
  marked (sb_inode_bitmap_start (sb s)) i v 0 di s s' ->
  alloc_frame fd (in_ibitmap s) s s' /\ counts s' = (sb_free_blocks (sb s), u64 (sb_free_inode_count (sb s) + di)) /\
  forall j, 0 <= j < inodes s -> iused s' j = if j =? i then v else iused s j.
Proof.
  intros Hok Hi Hm. pose proof (marked_layout _ _ _ _ _ _ _ Hm) as Hl. pose proof Hm as Hm0. destruct Hm as ([c Hc] & Hs' & Hst & Hu & Hbit).
  pose proof Hok as (Ho & Hg & Hs & _ & Hmeta & H0). pose proof (sb_ok_total _ Hs) as Ht.
  pose proof (geo_order _ _ _ Hg (proj1 Ht)) as Hord.
  destruct (geo_inode_in s fd i Hg (proj1 Ht) ltac:(lia)) as (Hin & Hreg & _).
  assert (Hu' : unchanged (fun a => a < SB_SIZE \/ in_ibitmap s a) s s').
  { eapply unchanged_mono; [|exact Hu]. intros a [?| ->]; [by left|by right]. }
  assert (Hused : forall j, 0 <= j < inodes s -> iused s' j = if j =? i then v else iused s j).
  { intros j Hj. unfold iused. destruct Hl as (_ & _ & _ & _ & _ & _ & _ & Ha & _). rewrite Ha.
    destruct (geo_inode_in s fd j Hg (proj1 Ht) Hj) as (? & _ & ?). by apply Hbit. }
  split; [|split; [|done]].
  - split; [|by split]. split; [by eapply on_disk_layout|]. split; [by eapply geo_ok_layout|].
    split; [done|]. split; [done|]. split.
    + intros j Hj. rewrite <- (Hmeta j Hj). eapply used_unchanged; [exact Hok|exact Hl|exact Hu'| |].
      * intros a Ha [Hx|Hx]; unfold in_ibitmap, in_bitmap, SB_SIZE, geo_ok in *; lia.
      * unfold total, geo_ok in *. lia.
    + rewrite Hused by lia. case_if; [lia|done].
  - rewrite (marked_counts _ _ _ _ _ _ _ Hm0). by rewrite (proj1 (u64_add_0 _ Hs)).
Qed.

Lemma vol_ok_size fd s : vol_ok fd s -> SB_SIZE <= size.
Proof.
  intros (_ & Hg & Hs & _). pose proof (geo_order _ _ _ Hg (proj1 (sb_ok_total _ Hs))). unfold geo_ok, SB_SIZE in *. lia.
Qed.

(** The state after a search in vain. *)
Definition untouched s s' : Prop := n_vol s' = n_vol s /\ unchanged (fun _ => False) s s'.

Lemma alloc_block_spec fd s : vol_ok fd s ->
  wp nyfs_alloc_block (fun r s' => match r with
    | Ok b => fd <= b < total s /\ used s b = false /\ (forall j, 0 <= j < b -> used s j = true) /\
        alloc_frame fd (in_bitmap s) s s' /\ counts s' = (u64 (sb_free_blocks (sb s) - 1), sb_free_inode_count (sb s)) /\
        forall j, 0 <= j < total s -> used s' j = if j =? b then true else used s j
    | Err e => e = NdiskFull /\ (forall j, 0 <= j < total s -> used s j = true) /\ untouched s s'
    end) s.
Proof.
  intros Hok. pose proof Hok as (Ho & Hg & Hs & Hst & Hmeta & H0). pose proof (sb_ok_total _ Hs) as Ht.
  pose proof (geo_order _ _ _ Hg (proj1 Ht)) as Hord.
  unfold nyfs_alloc_block. unfold wp at 1.
  eapply (wp_mono (run hung _ 0)).
  { apply (alloc_bit_spec (sb_alloc_meta_start (sb s)) (sb_total_blocks (sb s)) (-1) 0 NdiskFull s Ho Hs (vol_ok_size _ _ Hok)); [lia|].
    intros i Hi. by apply (geo_block_in s fd). }
  intros [b|e] s'; [|done]. intros (Hb & Hf & Hall & s0 & Hv & Hu & Hm).
  assert (Hbfd : fd <= b).
  { destruct (Z.le_gt_cases fd b) as [|Hlt]; [done|]. specialize (Hmeta b ltac:(lia)). unfold used in Hmeta. congruence. }
  eapply marked_same in Hm; [|exact Hv|exact Hu|unfold geo_ok in Hg; lia|lia].
  destruct (marked_block fd b true (-1) s s' Hok ltac:(unfold total; lia) Hm) as (Hfr & Hc & Hus).
  split; [unfold total; lia|]. by split_and!.
Qed.

Lemma free_block_spec fd b s : vol_ok fd s -> fd <= b < total s ->
  wp (nyfs_free_block b) (fun r s' =>
    r = Ok tt /\ alloc_frame fd (in_bitmap s) s s' /\ counts s' = (u64 (sb_free_blocks (sb s) + 1), sb_free_inode_count (sb s)) /\
    forall j, 0 <= j < total s -> used s' j = if j =? b then false else used s j) s.
Proof.
  intros Hok Hb. pose proof Hok as (Ho & Hg & Hs & _). pose proof (geo_order _ _ _ Hg (proj1 (sb_ok_total _ Hs))) as Hord.
  unfold nyfs_free_block. unfold wp at 1.
  eapply (wp_mono (tryb _ _)); [apply put_flush_spec; [done..|by eapply vol_ok_size|apply (geo_block_in s fd); [done|lia]]|].
  intros r s' (-> & Hm). split; [done|]. by eapply marked_block.
Qed.

Lemma alloc_inode_spec fd s : vol_ok fd s ->
  wp nyfs_alloc_inode (fun r s' => match r with
    | Ok i => 0 < i < inodes s /\ iused s i = false /\ (forall j, 0 <= j < i -> iused s j = true) /\
        alloc_frame fd (in_ibitmap s) s s' /\ counts s' = (sb_free_blocks (sb s), u64 (sb_free_inode_count (sb s) - 1)) /\
        forall j, 0 <= j < inodes s -> iused s' j = if j =? i then true else iused s j
    | Err e => e = NoutOfMemory /\ (forall j, 0 <= j < inodes s -> iused s j = true) /\ untouched s s'
    end) s.
Proof.
  intros Hok. pose proof Hok as (Ho & Hg & Hs & Hst & Hmeta & H0). pose proof (sb_ok_total _ Hs) as Ht.
  pose proof (geo_order _ _ _ Hg (proj1 Ht)) as Hord.
  unfold nyfs_alloc_inode. unfold wp at 1.
  eapply (wp_mono (run hung _ 0)).
  { apply (alloc_bit_spec (sb_inode_bitmap_start (sb s)) (sb_inode_count (sb s)) 0 (-1) NoutOfMemory s Ho Hs (vol_ok_size _ _ Hok));
      [apply sb_ok_inodes; done|]. intros i Hi. apply (geo_inode_in s fd); [done|apply Ht|done]. }
  intros [i|e] s'; [|done]. intros (Hi & Hf & Hall & s0 & Hv & Hu & Hm).
  assert (Hi0 : i <> 0) by (intros ->; unfold iused in H0; congruence).
  eapply marked_same in Hm; [|exact Hv|exact Hu|unfold geo_ok in Hg; lia|lia].
  destruct (marked_inode fd i true (-1) s s' Hok ltac:(unfold inodes; lia) Hm) as (Hfr & Hc & Hus).
  split; [unfold inodes; lia|]. by split_and!.
Qed.

Lemma free_inode_spec fd i s : vol_ok fd s -> 0 <= i ->
  wp (nyfs_free_inode i) (fun r s' =>
    if decide (0 < i < inodes s) then
      r = Ok tt /\ alloc_frame fd (in_ibitmap s) s s' /\
      counts s' = (sb_free_blocks (sb s), u64 (sb_free_inode_count (sb s) + 1)) /\
      forall j, 0 <= j < inodes s -> iused s' j = if j =? i then false else iused s j
    else r = Err NinvalidArg /\ s' = s) s.
Proof.
  intros Hok Hi0. pose proof Hok as (Ho & Hg & Hs & _). unfold nyfs_free_inode, bad_ino, NYFS_INO_NONE. unfold wp at 1.
  case_decide as Hi.
  - rewrite (proj2 (orb_false_iff _ _)) by (unfold inodes in Hi; lia).
    eapply (wp_mono (tryb _ _)); [apply put_flush_spec; [done..|by eapply vol_ok_size|]|].
    { apply (geo_inode_in s fd); [done|apply (sb_ok_total _ Hs)|lia]. }
    intros r s' (-> & Hm). split; [done|]. by eapply marked_inode.
  - case_if; [done|]. unfold inodes in Hi. lia.
Qed.
End alloc.
