(* ===== verification/NyfsFree.v ===== *)
(** * The free blocks and inodes of a NYFS volume

    The two bitmaps as sets: allocation takes the least element, a release adds
    one, and the counters of the superblock are the sizes.  [changes] is the
    frame of the operations on blocks: what they leave alone. *)

From S2P Require Import Prelude Types Loops Bytes NyfsDisk NyfsImage Nyfs NyfsIo NyfsAlloc.

Section free.
Context {D : Type} (read : nyfs_disk_read_fn D) (write : nyfs_disk_write_fn D) (k size : Z) (img : D -> Z -> Z).
Context (HD : disk_laws read write k size img).
Abbreviation nst := (nst D).
Abbreviation vol_ok := (vol_ok read write k size img).
Abbreviation bytes_of := (bytes_of img).
Abbreviation unchanged := (unchanged size img).
Abbreviation used := (used img).
Abbreviation iused := (iused img).
Abbreviation untouched := (untouched size img).
Abbreviation alloc_frame := (alloc_frame read write k size img).
Implicit Types s : nst.

(** ** The sets *)

Definition clear_bits (f : Z -> bool) (n : Z) : gset Z := list_to_set (filter (fun b => f b = false) (seqZ 0 n)).
Definition free_blocks s : gset Z := clear_bits (used s) (total s).
Definition free_inodes s : gset Z := clear_bits (iused s) (inodes s).

(** The superblock counts them. *)
Definition counted s : Prop :=
  counts s = (Z.of_nat (base.size (free_blocks s)), Z.of_nat (base.size (free_inodes s))).

Lemma elem_of_clear_bits f n b : b ∈ clear_bits f n <-> 0 <= b < n /\ f b = false.
Proof. unfold clear_bits. rewrite elem_of_list_to_set, list_elem_of_filter, elem_of_seqZ. intuition lia. Qed.

Lemma clear_bits_ext f g n : (forall b, 0 <= b < n -> g b = f b) -> clear_bits g n = clear_bits f n.
Proof. intros H. apply set_eq. intros b. rewrite !elem_of_clear_bits. split; intros [Hb ?]; (split; [done|]); specialize (H b Hb); congruence. Qed.

Lemma clear_bits_take f g n b : 0 <= b < n -> (forall j, 0 <= j < n -> g j = if j =? b then true else f j) ->
  clear_bits g n = clear_bits f n ∖ {[b]}.
Proof.
  intros Hb H. apply set_eq. intros j. rewrite elem_of_difference, !elem_of_clear_bits, elem_of_singleton.
  split; [intros [Hj Hg]|intros [[Hj Hf] Hne]]; specialize (H j Hj); destruct (Z.eqb_spec j b); try congruence; intuition congruence.
Qed.

Lemma clear_bits_give f g n b : 0 <= b < n -> (forall j, 0 <= j < n -> g j = if j =? b then false else f j) ->
  clear_bits g n = {[b]} ∪ clear_bits f n.
Proof.
  intros Hb H. apply set_eq. intros j. rewrite elem_of_union, !elem_of_clear_bits, elem_of_singleton.
  split; [intros [Hj Hg]|intros [->|[Hj Hf]]].
  - specialize (H j Hj). destruct (Z.eqb_spec j b); [by left|right]. split; [done|congruence].
  - specialize (H b Hb). rewrite Z.eqb_refl in H. by split.
  - specialize (H j Hj). split; [done|]. rewrite H. by destruct (j =? b).
Qed.

Lemma size_clear_bits f n : Z.of_nat (base.size (clear_bits f n)) <= Z.max 0 n.
Proof.
  unfold clear_bits. rewrite size_list_to_set by apply NoDup_filter, NoDup_seqZ.
  pose proof (length_filter (fun b => f b = false) (seqZ 0 n)). rewrite length_seqZ in *. lia.
Qed.

Lemma free_blocks_spec s b : b ∈ free_blocks s <-> 0 <= b < total s /\ used s b = false.
Proof. apply elem_of_clear_bits. Qed.
Lemma free_inodes_spec s i : i ∈ free_inodes s <-> 0 <= i < inodes s /\ iused s i = false.
Proof. apply elem_of_clear_bits. Qed.

Lemma layout_total s s' : same_layout s s' -> total s' = total s.
Proof. unfold same_layout. intros H. by decompose [and] H. Qed.
Lemma layout_inodes s s' : same_layout s s' -> inodes s' = inodes s.
Proof. unfold same_layout. intros H. by decompose [and] H. Qed.
Lemma layout_bsize s s' : same_layout s s' -> bsize s' = bsize s.
Proof. unfold same_layout. intros H. by decompose [and] H. Qed.

Lemma vol_ok_total fd s : vol_ok fd s -> 0 <= total s < 2 ^ 64.
Proof. intros Hok. apply sb_ok_total, Hok. Qed.
Lemma vol_ok_inodes fd s : vol_ok fd s -> 0 <= inodes s < 2 ^ 64.
Proof. intros Hok. apply sb_ok_inodes, Hok. Qed.

(** ** Counters *)

Lemma size_taken (X : gset Z) b n : b ∈ X -> Z.of_nat (base.size X) <= n -> n < 2 ^ 64 ->
  u64 (Z.of_nat (base.size X) - 1) = Z.of_nat (base.size (X ∖ {[b]})).
Proof.
  intros Hb Hn Hm. rewrite size_difference by set_solver. rewrite size_singleton.
  assert (base.size X <> 0%nat) by (intros H0%size_empty_inv; set_solver). rewrite uw_small; lia.
Qed.

Lemma size_given (X : gset Z) b n : b ∉ X -> Z.of_nat (base.size ({[b]} ∪ X)) <= n -> n < 2 ^ 64 ->
  u64 (Z.of_nat (base.size X) + 1) = Z.of_nat (base.size ({[b]} ∪ X)).
Proof. intros Hb Hn Hm. rewrite size_union in * by set_solver. rewrite size_singleton in *. rewrite uw_small; lia. Qed.

Lemma size_free_blocks fd s : vol_ok fd s -> Z.of_nat (base.size (free_blocks s)) <= total s.
Proof. intros Hok. pose proof (vol_ok_total _ _ Hok). pose proof (size_clear_bits (used s) (total s)). unfold free_blocks. lia. Qed.
Lemma size_free_inodes fd s : vol_ok fd s -> Z.of_nat (base.size (free_inodes s)) <= inodes s.
Proof. intros Hok. pose proof (vol_ok_inodes _ _ Hok). pose proof (size_clear_bits (iused s) (inodes s)). unfold free_inodes. lia. Qed.

(** ** Frames *)

Definition in_blocks (bs : Z) (B : list Z) (a : Z) : Prop := exists b, b ∈ B /\ b * bs <= a < b * bs + bs.
(** The superblock and the block bitmap. *)
Definition in_meta s (a : Z) : Prop := a < SB_SIZE \/ in_bitmap s a.

(** The volume stays in order with its layout, its inodes and its counters;
    on the disk only the superblock, the block bitmap and the blocks [B]
    change. *)
Definition changes (fd : Z) (B : list Z) s s' : Prop :=
  vol_ok fd s' /\ same_layout s s' /\ free_inodes s' = free_inodes s /\ (counted s -> counted s') /\
  unchanged (fun a => in_meta s a \/ in_blocks (bsize s) B a) s s'.

Lemma in_meta_layout s s' a : same_layout s s' -> in_meta s' a <-> in_meta s a.
Proof. unfold same_layout, in_meta, in_bitmap. intros H. decompose [and] H. repeat match goal with H : _ = _ |- _ => rewrite H; clear H end. done. Qed.

Lemma changes_refl fd B s : vol_ok fd s -> changes fd B s s.
Proof. intros. split; [done|]. split; [apply same_layout_refl|]. split_and!; done. Qed.

Lemma changes_trans fd B s1 s2 s3 : changes fd B s1 s2 -> changes fd B s2 s3 -> changes fd B s1 s3.
Proof.
  intros (_ & Hl & Hi & Hc & Hu) (Hok & Hl' & Hi' & Hc' & Hu'). split; [done|].
  split; [by eapply same_layout_trans|]. split; [congruence|]. split; [auto|].
  eapply unchanged_trans; [exact Hu|]. eapply unchanged_mono; [|exact Hu']. intros a. cbn beta.
  by rewrite (in_meta_layout _ _ _ Hl), (layout_bsize _ _ Hl).
Qed.

Lemma changes_mono fd B B' s s' : changes fd B s s' -> B ⊆ B' -> changes fd B' s s'.
Proof.
  intros (Hok & Hl & Hi & Hc & Hu) Hb. split_and!; [done..|]. eapply unchanged_mono; [|exact Hu].
  intros a [?|(b & ? & ?)]; [by left|right; exists b; auto].
Qed.

Lemma changes_vol_ok fd B s s' : changes fd B s s' -> vol_ok fd s'.
Proof. by intros []. Qed.
Lemma changes_layout fd B s s' : changes fd B s s' -> same_layout s s'.
Proof. by intros (_ & ? & _). Qed.
Lemma changes_bytes fd B s s' off n : changes fd B s s' -> 0 <= off -> off + n <= size ->
  (forall a, off <= a < off + n -> ~ in_meta s a /\ ~ in_blocks (bsize s) B a) ->
  bytes_at (bytes_of s') off n = bytes_at (bytes_of s) off n.
Proof.
  intros (_ & _ & _ & _ & Hu) Ho Hl Hp. eapply unchanged_bytes; [exact Hu|done..|].
  intros a Ha. destruct (Hp a Ha). tauto.
Qed.

Lemma free_inodes_unchanged P fd s s' : vol_ok fd s -> same_layout s s' -> unchanged P s s' ->
  (forall a, in_ibitmap s a -> ~ P a) -> free_inodes s' = free_inodes s.
Proof.
  intros Hok Hl Hu Hp. unfold free_inodes. rewrite (layout_inodes _ _ Hl). apply clear_bits_ext. by eapply iused_unchanged.
Qed.
Lemma free_blocks_unchanged P fd s s' : vol_ok fd s -> same_layout s s' -> unchanged P s s' ->
  (forall a, in_bitmap s a -> ~ P a) -> free_blocks s' = free_blocks s.
Proof.
  intros Hok Hl Hu Hp. unfold free_blocks. rewrite (layout_total _ _ Hl). apply clear_bits_ext. by eapply used_unchanged.
Qed.

Lemma meta_not_ibitmap fd s a : vol_ok fd s -> in_ibitmap s a -> ~ in_meta s a.
Proof.
  intros (_ & Hg & Hs & _) Hi. pose proof (geo_order _ _ _ _ Hg (proj1 (sb_ok_total _ Hs))).
  unfold geo_ok, in_ibitmap, in_meta, in_bitmap, SB_SIZE in *. lia.
Qed.
Lemma blocks_not_meta fd B s a : vol_ok fd s -> Forall (fun b => fd <= b < total s) B -> in_blocks (bsize s) B a ->
  ~ in_meta s a /\ ~ in_ibitmap s a /\ SB_SIZE <= a.
Proof.
  intros (_ & Hg & Hs & _) HB (b & Hb & Ha). rewrite Forall_forall in HB. specialize (HB b Hb).
  pose proof (geo_order _ _ _ _ Hg (proj1 (sb_ok_total _ Hs))).
  assert (fd * bsize s <= b * bsize s) by (unfold geo_ok in *; nia).
  unfold geo_ok, in_ibitmap, in_meta, in_bitmap, SB_SIZE in *. lia.
Qed.

(** ** The allocators *)

Lemma changes_untouched fd B s s' : vol_ok fd s -> untouched s s' -> changes fd B s s' /\ free_blocks s' = free_blocks s.
Proof.
  intros Hok [Hv Hu]. assert (Hl : same_layout s s') by by apply same_layout_vol.
  assert (Hok' : vol_ok fd s') by by eapply vol_ok_write.
  assert (Hfi : free_inodes s' = free_inodes s) by (eapply free_inodes_unchanged; [done..|tauto]).
  assert (Hfb : free_blocks s' = free_blocks s) by (eapply free_blocks_unchanged; [done..|tauto]).
  split; [|done]. split_and!; [done..| |].
  - unfold counted. rewrite Hfi, Hfb. unfold counts, sb. by rewrite Hv.
  - eapply unchanged_mono; [|exact Hu]. by intros a [].
Qed.

(** A block becomes used or free, the counter with it. *)
Lemma changes_alloc fd B s s' (X : gset Z) : vol_ok fd s -> alloc_frame fd (in_bitmap s) s s' -> free_blocks s' = X ->
  (counted s -> counts s' = (Z.of_nat (base.size X), sb_free_inode_count (sb s))) -> changes fd B s s'.
Proof.
  intros Hok (Hok' & Hl & Hu) HX Hc.
  assert (Hfi : free_inodes s' = free_inodes s).
  { eapply free_inodes_unchanged; [done..|]. intros a Hi Hp. by apply (meta_not_ibitmap fd s a Hok Hi). }
  split_and!; [done..| |].
  - intros Hcnt. unfold counted. rewrite HX, Hfi, Hc by done. f_equal.
    unfold counted, counts in Hcnt. by injection Hcnt.
  - eapply unchanged_mono; [|exact Hu]. intros a Ha. by left.
Qed.

Lemma alloc_block_set fd s : vol_ok fd s ->
  wp nyfs_alloc_block (fun r s' => changes fd [] s s' /\ match r with
    | Ok b => fd <= b /\ b ∈ free_blocks s /\ (forall j, j ∈ free_blocks s -> b <= j) /\ free_blocks s' = free_blocks s ∖ {[b]}
    | Err e => e = NdiskFull /\ free_blocks s = ∅ /\ free_blocks s' = ∅
    end) s.
Proof.
  intros Hok. eapply wp_mono; [by apply (alloc_block_spec _ _ _ _ _ HD fd)|]. intros [b|e] s'.
  - intros (Hb & Hf & Hleast & Hfr & Hc & Hu). pose proof Hfr as (_ & Hl & _).
    pose proof (vol_ok_total _ _ Hok). pose proof Hok as (_ & Hg & Hs & _).
    pose proof (geo_order _ _ _ _ Hg (proj1 (sb_ok_total _ Hs))) as Hord.
    assert (Hin : b ∈ free_blocks s) by (apply free_blocks_spec; split; [lia|done]).
    assert (HX : free_blocks s' = free_blocks s ∖ {[b]}).
    { unfold free_blocks. rewrite (layout_total _ _ Hl). apply clear_bits_take; [lia|done]. }
    split.
    + eapply changes_alloc; [done..|]. intros Hcnt. rewrite Hc. f_equal. unfold counted, counts in Hcnt.
      injection Hcnt as -> _. eapply size_taken; [done|by apply (size_free_blocks fd)|lia].
    + split_and!; [lia|done| |done]. intros j [Hj Hu0]%free_blocks_spec.
      destruct (Z.lt_ge_cases j b); [|done]. rewrite Hleast in Hu0 by lia. done.
  - intros (-> & Hall & Hun). destruct (changes_untouched fd [] s s' Hok Hun) as [Hch Hfb].
    assert (He : free_blocks s = ∅).
    { apply set_eq. intros b. rewrite free_blocks_spec. split; [intros [Hb Hu]; rewrite Hall in Hu by done; done|set_solver]. }
    split; [done|]. split_and!; [done..|]. by rewrite Hfb.
Qed.

Lemma free_block_set fd b s : vol_ok fd s -> fd <= b < total s -> b ∉ free_blocks s ->
  wp (nyfs_free_block b) (fun r s' => r = Ok tt /\ changes fd [] s s' /\ free_blocks s' = {[b]} ∪ free_blocks s) s.
Proof.
  intros Hok Hb Hnin. eapply wp_mono; [by apply (free_block_spec _ _ _ _ _ HD fd)|]. intros r s' (-> & Hfr & Hc & Hu).
  pose proof Hfr as (Hok' & Hl & _). pose proof (vol_ok_total _ _ Hok). pose proof Hok as (_ & Hg & Hs & _).
  pose proof (geo_order _ _ _ _ Hg (proj1 (sb_ok_total _ Hs))) as Hord.
  assert (HX : free_blocks s' = {[b]} ∪ free_blocks s).
  { unfold free_blocks. rewrite (layout_total _ _ Hl). apply clear_bits_give; [lia|done]. }
  split; [done|]. split; [|done]. eapply changes_alloc; [done..|]. intros Hcnt. rewrite Hc. f_equal.
  unfold counted, counts in Hcnt. injection Hcnt as -> _. eapply size_given; [done| |].
  - rewrite <- HX. by apply (size_free_blocks fd).
  - rewrite (layout_total _ _ Hl). lia.
Qed.

(** The same for inodes: only the superblock and the inode bitmap change. *)
Definition ichanges (fd : Z) s s' : Prop :=
  vol_ok fd s' /\ same_layout s s' /\ free_blocks s' = free_blocks s /\ (counted s -> counted s') /\
  unchanged (fun a => a < SB_SIZE \/ in_ibitmap s a) s s'.

Lemma ichanges_alloc fd s s' (X : gset Z) : vol_ok fd s -> alloc_frame fd (in_ibitmap s) s s' -> free_inodes s' = X ->
  (counted s -> counts s' = (sb_free_blocks (sb s), Z.of_nat (base.size X))) -> ichanges fd s s'.
Proof.
  intros Hok (Hok' & Hl & Hu) HX Hc.
  assert (Hfb : free_blocks s' = free_blocks s).
  { eapply free_blocks_unchanged; [done..|]. intros a Hi [Ha|Ha].
    - destruct Hok as (_ & Hg & Hs & _). pose proof (geo_order _ _ _ _ Hg (proj1 (sb_ok_total _ Hs))).
      unfold in_bitmap, SB_SIZE, geo_ok in *. lia.
    - apply (meta_not_ibitmap fd s a Hok Ha). by right. }
  split_and!; [done..| |done]. intros Hcnt. unfold counted. rewrite HX, Hfb, Hc by done. f_equal.
  unfold counted, counts in Hcnt. by injection Hcnt.
Qed.

Lemma alloc_inode_set fd s : vol_ok fd s ->
  wp nyfs_alloc_inode (fun r s' => ichanges fd s s' /\ match r with
    | Ok i => i ∈ free_inodes s /\ (forall j, j ∈ free_inodes s -> i <= j) /\ free_inodes s' = free_inodes s ∖ {[i]}
    | Err e => e = NoutOfMemory /\ free_inodes s = ∅ /\ free_inodes s' = ∅
    end) s.
Proof.
  intros Hok. eapply wp_mono; [by apply (alloc_inode_spec _ _ _ _ _ HD fd)|]. intros [i|e] s'.
  - intros (Hi & Hf & Hleast & Hfr & Hc & Hu). pose proof Hfr as (_ & Hl & _). pose proof (vol_ok_inodes _ _ Hok).
    assert (Hin : i ∈ free_inodes s) by (apply free_inodes_spec; split; [lia|done]).
    assert (HX : free_inodes s' = free_inodes s ∖ {[i]}).
    { unfold free_inodes. rewrite (layout_inodes _ _ Hl). apply clear_bits_take; [lia|done]. }
    split; [|split_and!; [done| |done]].
    + eapply ichanges_alloc; [done..|]. intros Hcnt. rewrite Hc. f_equal. unfold counted, counts in Hcnt.
      injection Hcnt as _ ->. eapply size_taken; [done|by apply (size_free_inodes fd)|lia].
    + intros j [Hj Hu0]%free_inodes_spec. destruct (Z.lt_ge_cases j i); [|done]. rewrite Hleast in Hu0 by lia. done.
  - intros (-> & Hall & Hun).
    assert (He : free_inodes s = ∅).
    { apply set_eq. intros b. rewrite free_inodes_spec. split; [intros [Hb Hu]; rewrite Hall in Hu by done; done|set_solver]. }
    destruct (changes_untouched fd [] s s' Hok Hun) as [(Hok' & Hl & Hfi & Hcn & _) Hfb].
    split; [|split_and!; [done..|congruence]]. split_and!; [done..|]. eapply unchanged_mono; [|apply Hun]. by intros a [].
Qed.

Lemma free_inode_set fd i s : vol_ok fd s -> 0 < i < inodes s -> i ∉ free_inodes s ->
  wp (nyfs_free_inode i) (fun r s' => r = Ok tt /\ ichanges fd s s' /\ free_inodes s' = {[i]} ∪ free_inodes s) s.
Proof.
  intros Hok Hi Hnin. eapply wp_mono; [apply (free_inode_spec _ _ _ _ _ HD fd); [done|lia]|]. intros r s'. cbn beta.
  rewrite decide_True by done. intros (-> & Hfr & Hc & Hu).
  pose proof Hfr as (Hok' & Hl & _). pose proof (vol_ok_inodes _ _ Hok).
  assert (HX : free_inodes s' = {[i]} ∪ free_inodes s).
  { unfold free_inodes. rewrite (layout_inodes _ _ Hl). apply clear_bits_give; [lia|done]. }
  split; [done|]. split; [|done]. eapply ichanges_alloc; [done..|]. intros Hcnt. rewrite Hc. f_equal.
  unfold counted, counts in Hcnt. injection Hcnt as _ ->. eapply size_given; [done| |].
  - rewrite <- HX. by apply (size_free_inodes fd).
  - rewrite (layout_inodes _ _ Hl). lia.
Qed.

(** ** Metadata only *)

(** Nothing at or after the first data block has changed. *)
Definition low (fd : Z) s s' : Prop :=
  vol_ok fd s' /\ same_layout s s' /\ unchanged (fun a => a < fd * bsize s) s s'.

Lemma low_trans fd s1 s2 s3 : low fd s1 s2 -> low fd s2 s3 -> low fd s1 s3.
Proof.
  intros (_ & Hl & Hu) (Hok & Hl' & Hu'). split; [done|]. split; [by eapply same_layout_trans|].
  eapply unchanged_trans; [exact Hu|]. by rewrite <- (layout_bsize _ _ Hl).
Qed.

Lemma changes_low fd s s' : vol_ok fd s -> changes fd [] s s' -> low fd s s'.
Proof.
  intros (_ & Hg & Hs & _) (Hok & Hl & _ & _ & Hu). split; [done|]. split; [done|]. eapply unchanged_mono; [|exact Hu].
  pose proof (geo_order _ _ _ _ Hg (proj1 (sb_ok_total _ Hs))). unfold geo_ok, in_meta, in_bitmap, SB_SIZE in *.
  intros a [Ha|(b & ?%not_elem_of_nil & _)]; [lia|done].
Qed.

Lemma ichanges_low fd s s' : vol_ok fd s -> ichanges fd s s' -> low fd s s'.
Proof.
  intros (_ & Hg & Hs & _) (Hok & Hl & _ & _ & Hu). split; [done|]. split; [done|]. eapply unchanged_mono; [|exact Hu].
  pose proof (geo_order _ _ _ _ Hg (proj1 (sb_ok_total _ Hs))). unfold geo_ok, in_ibitmap, SB_SIZE in *. intros a. lia.
Qed.

(** Writing the superblock changes nothing else. *)
Lemma flush_set fd s : vol_ok fd s ->
  wp nyfs_flush_superblock (fun r s' => r = Ok tt /\ changes fd [] s s' /\ free_blocks s' = free_blocks s) s.
Proof.
  intros Hok. pose proof Hok as (Ho & Hg & Hs & Hst & Hm & H0).
  pose proof (geo_order _ _ _ _ Hg (proj1 (sb_ok_total _ Hs))) as Hord.
  eapply wp_mono; [apply (flush_spec _ _ _ _ _ HD); [done|done|by eapply vol_ok_size]|].
  intros r s' (-> & [c Hc] & Hs' & Hst' & Hu).
  assert (Hl : same_layout s s') by by eapply same_layout_counts.
  assert (Hnot : forall a, in_bitmap s a \/ in_ibitmap s a -> ~ a < SB_SIZE).
  { intros a. unfold in_bitmap, in_ibitmap, SB_SIZE, geo_ok in *. lia. }
  assert (Hfb : free_blocks s' = free_blocks s) by (eapply free_blocks_unchanged; [done..|intros a ?; apply Hnot; by left]).
  assert (Hfi : free_inodes s' = free_inodes s) by (eapply free_inodes_unchanged; [done..|intros a ?; apply Hnot; by right]).
  split; [done|]. split; [|done]. split.
  { split; [by eapply on_disk_layout|]. split; [by eapply geo_ok_layout|]. split; [done|]. split; [done|]. split.
    - intros b Hb. rewrite <- (Hm b Hb). eapply used_unchanged; [done..|intros a ?; apply Hnot; by left|]. unfold total, geo_ok in *. lia.
    - rewrite <- H0. eapply iused_unchanged; [done..|intros a ?; apply Hnot; by right|]. unfold inodes, geo_ok in *. lia. }
  split; [done|]. split; [done|]. split.
  - intros Hcnt. unfold counted in *. rewrite Hfb, Hfi, <- Hcnt. unfold counts, sb at 1 2. rewrite Hc. cbn [set_sb vol_sb]. by destruct (sb s).
  - eapply unchanged_mono; [|exact Hu]. intros a ?. left. by left.
Qed.

(** C18: the block allocator of NYFS is a set of free blocks.
    [nyfs_alloc_block] takes out its least member, and fails with [NdiskFull]
    only if it is empty; [nyfs_free_block] puts a block in use back.  The
    bitmap and the counters of the superblock say the same set before and
    after, and no other byte of the disk, inode or layout changes. *)
Theorem blocks_are_a_set fd s : vol_ok fd s ->
  wp nyfs_alloc_block (fun r s' => changes fd [] s s' /\ match r with
    | Ok b => fd <= b /\ b ∈ free_blocks s /\ (forall j, j ∈ free_blocks s -> b <= j) /\ free_blocks s' = free_blocks s ∖ {[b]}
    | Err e => e = NdiskFull /\ free_blocks s = ∅ /\ free_blocks s' = ∅
    end) s /\
  forall b, fd <= b < total s -> b ∉ free_blocks s ->
    wp (nyfs_free_block b) (fun r s' => r = Ok tt /\ changes fd [] s s' /\ free_blocks s' = {[b]} ∪ free_blocks s) s.
Proof. intros Hok. split; [by apply alloc_block_set|]. intros b Hb Hf. by apply free_block_set. Qed.
End free.
