(* ===== verification/NyfsInodes.v ===== *)
(** * The inode table of NYFS

    Reading and writing inodes on a volume in order: what is written is read
    back, other inodes are not touched, and a damaged inode is refused. *)

From S2P Require Import Prelude Types Loops Bytes NyfsDisk Nyfs NyfsImage NyfsIo NyfsAlloc.

(** The inode a record of the table holds, or why it is refused. *)
Definition decode_inode (ino : Z) (bs : list Z) : res nyfs_inode_t :=
  let i := inode_of bs in
  if negb (in_ino i =? ino) then Err Ncorrupted
  else if negb (inode_crc i =? in_checksum i) then Err Ncorrupted
  else Ok i.

(** What the C types of an inode guarantee, its arrays included. *)
Definition inode_ok (i : nyfs_inode_t) : Prop := inode_wf i /\ is_bytes (in_reserved2 i) /\ is_bytes (in_reserved3 i).

Lemma inode_ok_stamp ino c i : 0 <= ino < 2 ^ 64 -> 0 <= c < 2 ^ 32 -> inode_ok i -> inode_ok (set_in_stamp ino c i).
Proof.
  destruct i. unfold inode_ok, inode_wf. cbn. intros ? ? (Hw & ? & ?). decompose [and] Hw. split_and!; first [done|lia].
Qed.

Lemma is_bytes_aces l : is_bytes (l ≫= ace_bytes).
Proof.
  induction l as [|a l IH]; [constructor|]. change ((a :: l) ≫= ace_bytes) with (ace_bytes a ++ (l ≫= ace_bytes)).
  apply is_bytes_app; [|done]. unfold ace_bytes. repeat apply is_bytes_app; apply is_bytes_le_bytes.
Qed.

Lemma is_bytes_inode i : inode_ok i -> is_bytes (inode_bytes i).
Proof.
  intros (_ & H1 & H2). unfold inode_bytes.
  repeat apply is_bytes_app; first [apply is_bytes_le_bytes|apply is_bytes_aces|done].
Qed.

Lemma length_inode i : inode_ok i -> length (inode_bytes i) = 256%nat.
Proof. intros (Hw & _). unfold inode_wf in Hw. decompose [and] Hw. by apply length_inode_bytes. Qed.

Lemma stamped_ok ino i : 0 <= ino < 2 ^ 64 -> inode_ok i -> inode_ok (stamped ino i).
Proof.
  intros Hi Hok. apply inode_ok_stamp; [done| |done]. apply nyfs_crc32_range, is_bytes_inode.
  destruct (set_in_stamp ino 0 i) eqn:E. rewrite <- E. apply inode_ok_stamp; [|lia|apply inode_ok_stamp; [done|lia|done]].
  by destruct i.
Qed.

(** A stamped inode is accepted. *)
Lemma decode_stamped ino i : 0 <= ino < 2 ^ 64 -> inode_ok i -> decode_inode ino (inode_bytes (stamped ino i)) = Ok (stamped ino i).
Proof.
  intros Hi Hok. unfold decode_inode. rewrite inode_of_bytes by by apply stamped_ok. cbn zeta.
  replace (in_ino (stamped ino i)) with ino by by destruct i. rewrite Z.eqb_refl. cbn [negb].
  replace (inode_crc (stamped ino i)) with (in_checksum (stamped ino i)); [by rewrite Z.eqb_refl|].
  by destruct i.
Qed.

(** What [decode_inode] compares: the checksum of the bytes around it, and its
    own bytes. *)
Definition record_crc (bs : list Z) : Z := nyfs_crc32 (slice 0 164 bs ++ le_bytes 4 0 ++ slice 168 88 bs).

Section damage.
Context (pre xs ys post : list Z).
Context (Hpre : is_bytes pre) (Hxs : is_bytes xs) (Hys : is_bytes ys) (Hpost : is_bytes post).
Context (Hl : length xs = length ys) (H4 : (length xs <= 4)%nat) (Hlen : (length pre + length xs + length post = 256)%nat).
Abbreviation X := (pre ++ xs ++ post).
Abbreviation Y := (pre ++ ys ++ post).

Lemma damage_before : (length pre + length xs <= 164)%nat ->
  record_crc X = field 164 4 X -> record_crc Y = field 164 4 Y -> xs = ys.
Proof.
  intros Hs HX HY. assert (He : record_crc X = record_crc Y).
  { rewrite HX, HY, !field_slice, !slice_after by lia. by rewrite Hl. }
  unfold record_crc in He. rewrite !(slice_around 0 164), !(slice_after 168 88), <- Hl, drop_0 in He by lia. rewrite <- !app_assoc in He.
  apply crc_burst in He; [done|done|done|done| |done|done].
  repeat apply is_bytes_app; [by apply Forall_take|apply is_bytes_le_bytes|by apply is_bytes_slice].
Qed.

Lemma damage_inside : (164 <= length pre)%nat -> (length pre + length xs <= 168)%nat ->
  record_crc X = field 164 4 X -> record_crc Y = field 164 4 Y -> xs = ys.
Proof.
  intros Hs1 Hs2 HX HY. assert (He : field 164 4 X = field 164 4 Y).
  { rewrite <- HX, <- HY. unfold record_crc. rewrite !(slice_before 0 164), !(slice_after 168 88) by lia. by rewrite Hl. }
  apply (f_equal (le_bytes 4)) in He. rewrite !le_bytes_field in He by (by repeat apply is_bytes_app || (rewrite !length_app; lia)).
  rewrite !slice_around in He by lia. apply app_inv_head in He. by apply app_inj_1 in He as [? _].
Qed.

Lemma damage_after : (168 <= length pre)%nat ->
  record_crc X = field 164 4 X -> record_crc Y = field 164 4 Y -> xs = ys.
Proof.
  intros Hs HX HY. assert (He : record_crc X = record_crc Y).
  { by rewrite HX, HY, !field_slice, !slice_before by lia. }
  unfold record_crc in He. rewrite !(slice_before 0 164), !(slice_around 168 88), <- Hl in He by lia.
  rewrite !(app_assoc (le_bytes 4 0) (drop 168 pre)), !(app_assoc (slice 0 164 pre) (le_bytes 4 0 ++ drop 168 pre)) in He.
  apply crc_burst in He; [done| |done|done|by apply Forall_take|done|done].
  repeat apply is_bytes_app; [by apply is_bytes_slice|apply is_bytes_le_bytes|by apply Forall_drop].
Qed.
End damage.

(** A record with a burst of damage in at most four adjacent bytes, on one side
    of the checksum or in it, is refused. *)
Lemma decode_damaged ino i pre xs ys post : 0 <= ino < 2 ^ 64 -> inode_ok i ->
  inode_bytes (stamped ino i) = pre ++ xs ++ post -> is_bytes ys -> length xs = length ys -> (length xs <= 4)%nat -> xs <> ys ->
  (length pre + length xs <= 164 \/ 164 <= length pre /\ length pre + length xs <= 168 \/ 168 <= length pre)%nat ->
  decode_inode ino (pre ++ ys ++ post) = Err Ncorrupted.
Proof.
  intros Hi Hok E Hys Hl H4 Hne Hside. pose proof (stamped_ok ino i Hi Hok) as Hst.
  pose proof (length_inode _ Hst) as H256. pose proof (is_bytes_inode _ Hst) as Hb. rewrite E in H256, Hb.
  pose proof Hb as HbX. unfold is_bytes in Hb. rewrite !Forall_app in Hb. destruct Hb as (Hpre & Hxs & Hpost).
  assert (HbY : is_bytes (pre ++ ys ++ post)) by (apply is_bytes_app; [exact Hpre|by apply is_bytes_app]).
  rewrite !length_app in H256. unfold decode_inode. cbn zeta. case_if; [done|]. case_if; [done|]. exfalso. apply Hne.
  assert (HX : record_crc (pre ++ xs ++ post) = field 164 4 (pre ++ xs ++ post)).
  { unfold record_crc. rewrite <- inode_crc_of by (done || (rewrite !length_app; lia)).
    change (field 164 4 ?b) with (in_checksum (inode_of b)). rewrite <- E, inode_of_bytes by apply Hst. by destruct i. }
  rewrite inode_crc_of in E1 by (done || (rewrite !length_app; lia)).
  change (in_checksum (inode_of ?b)) with (field 164 4 b) in E1.
  destruct Hside as [?|[[? ?]|?]]; [apply (damage_before pre xs ys post)|apply (damage_inside pre xs ys post)|apply (damage_after pre xs ys post)]; (done || lia).
Qed.

Section table.
Context {D : Type} (read : nyfs_disk_read_fn D) (write : nyfs_disk_write_fn D) (k size : Z) (img : D -> Z -> Z).
Context (HD : disk_laws read write k size img).
Abbreviation nst := (nst D).
Abbreviation vol_ok := (vol_ok read write k size img).
Abbreviation bytes_of := (bytes_of img).
Abbreviation untouched := (untouched size img).
Implicit Types s : nst.

(** Where inode [ino] is, and what the table says it is. *)
Definition inode_slot s (ino : Z) : Z := sb_inode_table_start (sb s) * bsize s + ino * INODE_SIZE.
Definition inode_at s (ino : Z) : res nyfs_inode_t :=
  if decide (0 < ino < inodes s) then decode_inode ino (bytes_at (bytes_of s) (inode_slot s ino) INODE_SIZE)
  else Err NinvalidArg.

Lemma slot_range fd ino s : vol_ok fd s -> 0 <= ino < inodes s ->
  512 <= inode_slot s ino /\ inode_slot s ino + 256 <= fd * bsize s /\ fd * bsize s <= size /\
  sb_inode_table_start (sb s) * bsize s <= inode_slot s ino.
Proof.
  intros (_ & Hg & Hs & _) Hi. pose proof (geo_order _ _ _ _ Hg (proj1 (sb_ok_total _ Hs))).
  unfold geo_ok, inodes, inode_slot, INODE_SIZE in *. nia.
Qed.

Lemma inode_offset_eq fd ino s : vol_ok fd s -> 0 <= ino < inodes s -> inode_offset ino s = inode_slot s ino.
Proof.
  intros Hok Hi. pose proof (slot_range _ _ _ Hok Hi). pose proof (dl_size _ _ _ _ _ HD).
  unfold inode_offset, at_block, inode_slot, INODE_SIZE in *.
  destruct Hok as (_ & Hg & Hs & _). pose proof (geo_order _ _ _ _ Hg (proj1 (sb_ok_total _ Hs))).
  unfold geo_ok in Hg. rewrite (uw_small 64 (ino * 256)) by lia. apply uw_small. lia.
Qed.

Lemma bad_ino_eq ino s : 0 <= ino -> bad_ino ino s = negb (bool_decide (0 < ino < inodes s)).
Proof.
  intros Hi. unfold bad_ino, inodes, NYFS_INO_NONE. case_bool_decide; cbn [negb]; lia.
Qed.

Lemma read_inode_spec fd ino s : vol_ok fd s -> 0 <= ino ->
  wp (nyfs_read_inode ino) (fun r s' => r = inode_at s ino /\ untouched s s') s.
Proof.
  intros Hok Hi. unfold nyfs_read_inode. unfold wp at 1. rewrite bad_ino_eq by done. unfold inode_at.
  case_bool_decide as Hd; [rewrite decide_True by done|rewrite decide_False by done]; cbn [negb].
  2: { by split; [|split]. }
  pose proof (slot_range _ _ _ Hok (conj Hi (proj2 Hd))). rewrite (inode_offset_eq fd) by (done || lia).
  apply (wp_tryb (read_local _ _)). eapply wp_mono; [apply (read_local_spec _ _ _ _ _ HD); [apply Hok|unfold INODE_SIZE; lia..]|].
  intros r s' (-> & Hv & Hu). unfold decode_inode. cbn zeta. case_if; [by split|]. by case_if; split.
Qed.

Lemma write_inode_spec fd ino i s : vol_ok fd s -> 0 < ino < inodes s -> inode_ok i ->
  wp (nyfs_write_inode ino i) (fun r s' => r = Ok tt /\ vol_ok fd s' /\ n_vol s' = n_vol s /\
    forall a, 0 <= a < size -> bytes_of s' a = patch (bytes_of s) (inode_slot s ino) (inode_bytes (stamped ino i)) a) s.
Proof.
  intros Hok Hi Hin. unfold nyfs_write_inode. unfold wp at 1. rewrite bad_ino_eq, bool_decide_true by lia. cbn [negb].
  pose proof (slot_range fd ino s Hok ltac:(lia)). rewrite (inode_offset_eq fd) by (done || lia).
  assert (Hsz : inodes s < 2 ^ 64) by (apply sb_ok_inodes, Hok).
  assert (Hst : inode_ok (stamped ino i)) by (apply stamped_ok; [lia|done]).
  eapply (wp_mono (nyfs_raw_write _ _)); [apply (raw_write_spec _ _ _ _ _ HD);
    [apply Hok|by apply is_bytes_inode| |lia|rewrite length_inode by done; lia]|].
  { intros E. apply (f_equal length) in E. by rewrite length_inode in E. }
  intros r s' (-> & Hv & Hw). split; [done|]. split; [|by split].
  eapply (vol_ok_write _ _ _ _ _ (fun a => inode_slot s ino <= a < inode_slot s ino + 256)); [done|done|..].
  - intros a Ha Hn. rewrite Hw by done. apply patch_other. rewrite length_inode by done. lia.
  - intros a Ha. unfold SB_SIZE, in_bitmap, in_ibitmap. split; [lia|]. destruct Hok as (_ & Hg & Hs & _).
    pose proof (geo_order _ _ _ _ Hg (proj1 (sb_ok_total _ Hs))). unfold geo_ok in Hg. lia.
Qed.

(** Inodes that a change of the disk does not reach. *)
Lemma inode_at_unchanged P fd s s' ino : vol_ok fd s -> same_layout s s' -> unchanged size img P s s' ->
  (forall a, inode_slot s ino <= a < inode_slot s ino + INODE_SIZE -> ~ P a) -> 0 <= ino -> inode_at s' ino = inode_at s ino.
Proof.
  intros Hok Hl Hu Hp Hi. unfold inode_at, inode_slot in *. destruct Hl as (_ & _ & _ & Hb & _ & -> & _ & _ & Ht & _). rewrite Hb, Ht.
  case_decide; [|done]. f_equal. pose proof (slot_range fd ino s Hok ltac:(lia)). unfold inode_slot, INODE_SIZE in *.
  eapply (unchanged_bytes _ _ P); [exact Hu|lia|lia|exact Hp].
Qed.

Lemma write_read_inode fd ino i s : vol_ok fd s -> 0 < ino < inodes s -> inode_ok i ->
  wp (nyfs_write_inode ino i) (fun r s' => r = Ok tt /\ vol_ok fd s' /\ n_vol s' = n_vol s /\
    unchanged size img (fun a => inode_slot s ino <= a < inode_slot s ino + INODE_SIZE) s s' /\
    forall j, 0 <= j -> inode_at s' j = if j =? ino then Ok (stamped ino i) else inode_at s j) s.
Proof.
  intros Hok Hi Hin. assert (Hsz : inodes s < 2 ^ 64) by (apply sb_ok_inodes, Hok).
  assert (Hlen : length (inode_bytes (stamped ino i)) = 256%nat) by (apply length_inode, stamped_ok; [lia|done]).
  eapply wp_mono; [by apply (write_inode_spec fd)|]. intros r s' (-> & Hok' & Hv & Hw).
  assert (Hu : unchanged size img (fun a => inode_slot s ino <= a < inode_slot s ino + INODE_SIZE) s s').
  { intros a Ha Hn. rewrite Hw by done. apply patch_other. rewrite Hlen. unfold INODE_SIZE in Hn. lia. }
  split; [done|]. split; [done|]. split; [done|]. split; [done|]. intros j Hj.
  pose proof (same_layout_vol _ _ Hv) as Hl. destruct (j =? ino) eqn:E; bool_simpl; [subst j|].
  - unfold inode_at, inode_slot, inodes, bsize, sb. rewrite Hv. fold (sb s) (bsize s) (inodes s) (inode_slot s ino).
    rewrite decide_True by done. rewrite <- (decode_stamped ino i) by (done || lia). f_equal.
    rewrite <- (bytes_at_patch (bytes_of s) (inode_slot s ino) (inode_bytes (stamped ino i))). rewrite Hlen.
    pose proof (slot_range fd ino s Hok ltac:(lia)). apply bytes_at_ext. intros a Ha. apply Hw. unfold INODE_SIZE in Ha. lia.
  - destruct (decide (j < inodes s)) as [Hlt|Hge].
    + eapply inode_at_unchanged; [exact Hok|exact Hl|exact Hu| |done]. unfold inode_slot, INODE_SIZE. lia.
    + unfold inode_at, inodes, sb. rewrite Hv. fold (sb s) (inodes s). by rewrite !decide_False by lia.
Qed.

(** An inode that is written is read back as it was, with its number and
    checksum filled in, and every other inode is read as before. *)
Theorem inode_roundtrip fd ino i j s : vol_ok fd s -> 0 < ino < inodes s -> inode_ok i -> 0 <= j ->
  wp (r <- nyfs_write_inode ino i ;; x <- nyfs_read_inode j ;; ret (r, x)) (fun p s' => p.1 = Ok tt /\
    p.2 = (if j =? ino then Ok (stamped ino i) else inode_at s j) /\ vol_ok fd s') s.
Proof.
  intros Hok Hi Hin Hj. apply wp_bind. eapply wp_mono; [by apply (write_read_inode fd)|]. intros r s1 (-> & Hok1 & _ & _ & Hat).
  apply wp_bind. eapply wp_mono; [by apply (read_inode_spec fd)|]. intros x s2 (-> & Hv & Hu). apply wp_ret. split; [done|].
  split; [by apply Hat|]. eapply (vol_ok_write _ _ _ _ _ (fun _ => False)); [exact Hok1|exact Hv|exact Hu|]. tauto.
Qed.

(** C19: an inode whose record on the disk differs from what was written in at
    most four adjacent bytes, on one side of the checksum or in it, is refused
    with [Ncorrupted]. *)
Theorem damaged_inode_refused fd ino i pre xs ys post s : vol_ok fd s -> 0 < ino < inodes s -> inode_ok i ->
  inode_bytes (stamped ino i) = pre ++ xs ++ post -> is_bytes ys -> length xs = length ys -> (length xs <= 4)%nat -> xs <> ys ->
  (length pre + length xs <= 164 \/ 164 <= length pre /\ length pre + length xs <= 168 \/ 168 <= length pre)%nat ->
  bytes_at (bytes_of s) (inode_slot s ino) INODE_SIZE = pre ++ ys ++ post ->
  wp (nyfs_read_inode ino) (fun r s' => r = Err Ncorrupted /\ untouched s s') s.
Proof.
  intros Hok Hi Hin E Hys Hl H4 Hne Hside Hd. eapply wp_mono; [apply (read_inode_spec fd); [done|lia]|]. intros r s' (-> & Hun). split; [|done].
  unfold inode_at. rewrite decide_True by done. rewrite Hd. pose proof (sb_ok_inodes (sb s)) as Hb.
  eapply decode_damaged; try done. split; [lia|]. pose proof Hok as (_ & _ & Hs & _). specialize (Hb Hs). unfold inodes in Hi. lia.
Qed.
End table.
