(* ===== verification/NyfsStream.v ===== *)
(** * Extent streams of NYFS: representation and reading

    A stream is a chain of extent blocks, each with a list of extents; its data
    blocks are those of the extents in order.  In a volume in order, finding
    the block of a position, counting the blocks and reading are functions of
    that list of blocks. *)

From S2P Require Import Prelude Types Loops Bytes NyfsDisk Nyfs NyfsImage NyfsIo NyfsAlloc NyfsFree NyfsInodes.

(** ** Chains *)

Abbreviation chain := (list (Z * list nyfs_extent_t)).

Definition chain_head (ch : chain) : Z := match ch with [] => NYFS_BLKNO_NONE | (c, _) :: _ => c end.
Definition ext_blocks (es : list nyfs_extent_t) : list Z := es ≫= fun e => seqZ (ext_start_block e) (ext_length e).
Definition data_blocks (ch : chain) : list Z := ch ≫= fun p => ext_blocks p.2.
Definition own (ch : chain) : list Z := ch.*1 ++ data_blocks ch.

Lemma ext_blocks_app a b : ext_blocks (a ++ b) = ext_blocks a ++ ext_blocks b.
Proof. apply bind_app. Qed.
Lemma data_blocks_app a b : data_blocks (a ++ b) = data_blocks a ++ data_blocks b.
Proof. apply bind_app. Qed.
Lemma data_blocks_cons c es ch : data_blocks ((c, es) :: ch) = ext_blocks es ++ data_blocks ch.
Proof. done. Qed.
Lemma ext_blocks_cons e es : ext_blocks (e :: es) = seqZ (ext_start_block e) (ext_length e) ++ ext_blocks es.
Proof. done. Qed.

(** The bytes of an extent block. *)
Definition ext_block_bytes (next : Z) (es : list nyfs_extent_t) : list Z :=
  ehdr_bytes (mk_ehdr NYFS_EXTENT_MAGIC (Z.of_nat (length es)) next) ++ (es ≫= ext_bytes).

Fixpoint chain_on (f : Z -> Z) (bs : Z) (ch : chain) : Prop :=
  match ch with
  | [] => True
  | (c, es) :: ch =>
      bytes_at f (c * bs) (16 + 16 * Z.of_nat (length es)) = ext_block_bytes (chain_head ch) es /\ chain_on f bs ch
  end.

Definition ext_ok (e : nyfs_extent_t) : Prop := 0 <= ext_start_block e < 2 ^ 64 /\ 0 < ext_length e < 2 ^ 64.
Definition exts_ok (bs : Z) (es : list nyfs_extent_t) : Prop :=
  Forall ext_ok es /\ (length es <= 128)%nat /\ 16 + 16 * Z.of_nat (length es) <= bs.

Lemma length_ext_bytes e : length (ext_bytes e) = 16%nat.
Proof. unfold ext_bytes. by rewrite length_app, !length_le_bytes. Qed.
Lemma length_exts es : length (es ≫= ext_bytes) = (16 * length es)%nat.
Proof.
  induction es as [|e es IH]; [done|]. change ((e :: es) ≫= ext_bytes) with (ext_bytes e ++ (es ≫= ext_bytes)).
  rewrite length_app, length_ext_bytes, IH. cbn [length]. lia.
Qed.
Lemma length_ehdr h : length (ehdr_bytes h) = 16%nat.
Proof. unfold ehdr_bytes. by rewrite !length_app, !length_le_bytes. Qed.
Lemma is_bytes_ext e : is_bytes (ext_bytes e).
Proof. apply is_bytes_app; apply is_bytes_le_bytes. Qed.
Lemma is_bytes_ehdr h : is_bytes (ehdr_bytes h).
Proof. repeat apply is_bytes_app; apply is_bytes_le_bytes. Qed.

Lemma array_of_exts es n b : length es = n -> Forall ext_ok es -> array_of 16 ext_of n ((es ≫= ext_bytes) ++ b) = es.
Proof.
  intros <-. induction 1 as [|e es (? & ?) _ IH]; [done|].
  change ((e :: es) ≫= ext_bytes) with (ext_bytes e ++ (es ≫= ext_bytes)). rewrite <- app_assoc. cbn [length array_of].
  rewrite take_app_length', drop_app_length' by by rewrite length_ext_bytes. by rewrite ext_of_bytes, IH by lia.
Qed.

(** The search in one block: positions count blocks. *)
Lemma resolve_in_spec es base lb : Forall ext_ok es -> 0 <= base <= lb -> lb < 2 ^ 64 ->
  base + Z.of_nat (length (ext_blocks es)) < 2 ^ 64 -> Forall (fun b => 0 <= b < 2 ^ 64) (ext_blocks es) ->
  resolve_in es base lb =
    match ext_blocks es !! Z.to_nat (lb - base) with
    | Some b => inr b
    | None => inl (base + Z.of_nat (length (ext_blocks es)))
    end.
Proof.
  intros Hes. revert base. induction Hes as [|e es (Hs & Hl) _ IH]; intros base Hb Hlb Ht Hall.
  { simpl. by rewrite Z.add_0_r. }
  rewrite ext_blocks_cons in *. rewrite length_app, length_seqZ in *. apply Forall_app in Hall as [Ha1 Ha2]. cbn [resolve_in].
  rewrite (uw_small 64 (base + ext_length e)) by lia.
  destruct (Z.lt_ge_cases lb (base + ext_length e)) as [Hlt|Hge].
  - rewrite (proj2 (Z.leb_le base lb)), (proj2 (Z.ltb_lt lb _)) by lia. cbn [andb].
    rewrite lookup_app_l by (rewrite length_seqZ; lia). rewrite lookup_seqZ_lt by lia. rewrite Z2Nat.id by lia.
    rewrite (uw_small 64 (lb - base)) by lia. f_equal. apply uw_small.
    rewrite Forall_forall in Ha1. apply Ha1. apply elem_of_seqZ. lia.
  - rewrite (proj2 (Z.ltb_ge lb _)) by lia. rewrite andb_false_r. rewrite IH by (done || lia).
    rewrite lookup_app_r by (rewrite length_seqZ; lia). rewrite length_seqZ.
    replace (Z.to_nat (lb - base) - Z.to_nat (ext_length e))%nat with (Z.to_nat (lb - (base + ext_length e))) by lia.
    destruct (_ !! _); [done|]. f_equal. lia.
Qed.

(** ** Streams of a volume *)

Section stream.
Context {D : Type} (read : nyfs_disk_read_fn D) (write : nyfs_disk_write_fn D) (k size : Z) (img : D -> Z -> Z).
Context (HD : disk_laws read write k size img).
Abbreviation nst := (nst D).
Abbreviation vol_ok := (vol_ok read write k size img).
Abbreviation bytes_of := (bytes_of img).
Abbreviation untouched := (untouched size img).
Abbreviation unchanged := (unchanged size img).
Abbreviation free_blocks := (free_blocks img).
Abbreviation changes := (changes read write k size img).
Implicit Types (s : nst) (ch : chain).

(** The stream at [root] is the chain [ch]: its blocks are data blocks of the
    volume, taken, and all different. *)
Definition stream_ok (fd : Z) s (root : Z) ch : Prop :=
  root = chain_head ch /\ chain_on (bytes_of s) (bsize s) ch /\ Forall (fun p => exts_ok (bsize s) p.2) ch /\
  NoDup (own ch) /\ forall b, b ∈ own ch -> fd <= b < total s /\ b ∉ free_blocks s.

(** The bytes of a stream with the data blocks [l]. *)
Definition view s (l : list Z) (o : Z) : Z := bytes_of s (nth (Z.to_nat (o / bsize s)) l 0 * bsize s + o mod bsize s).
Definition stream_len s ch : Z := Z.of_nat (length (data_blocks ch)) * bsize s.

Lemma vol_ok_facts fd s : vol_ok fd s ->
  512 <= bsize s <= 65536 /\ 1 <= fd <= total s /\ total s * bsize s <= size /\ 0 <= size < 2 ^ 63.
Proof.
  intros (_ & Hg & Hs & _). pose proof (geo_order _ _ _ _ Hg (proj1 (sb_ok_total _ Hs))). pose proof (dl_size _ _ _ _ _ HD).
  unfold geo_ok, total in *. assert (1 <= fd) by nia. lia.
Qed.

Lemma block_range fd s b : vol_ok fd s -> fd <= b < total s ->
  512 <= b * bsize s /\ b * bsize s + bsize s <= size /\ fd * bsize s <= b * bsize s.
Proof. intros Hok Hb. pose proof (vol_ok_facts _ _ Hok). nia. Qed.

Lemma at_block_eq fd s b o : vol_ok fd s -> fd <= b < total s -> 0 <= o <= bsize s -> at_block b o s = b * bsize s + o.
Proof. intros Hok Hb Ho. pose proof (block_range _ _ _ Hok Hb). pose proof (vol_ok_facts _ _ Hok). apply uw_small. lia. Qed.

(** A stream has no more blocks than the volume. *)
Lemma own_bound fd s root ch : vol_ok fd s -> stream_ok fd s root ch -> Z.of_nat (length (own ch)) <= total s - fd.
Proof.
  intros Hok (_ & _ & _ & Hnd & Hin). pose proof (vol_ok_facts _ _ Hok).
  cut (length (own ch) <= length (seqZ fd (total s - fd)))%nat; [rewrite length_seqZ; lia|].
  apply submseteq_length, NoDup_submseteq; [done|]. intros b Hb. apply elem_of_seqZ. destruct (Hin b Hb). lia.
Qed.

Lemma untouched_stream s s' : untouched s s' -> bsize s' = bsize s /\ total s' = total s.
Proof. intros [Hv _]. unfold bsize, total, sb. by rewrite Hv. Qed.

Lemma untouched_trans s s' s'' : untouched s s' -> untouched s' s'' -> untouched s s''.
Proof. intros [Hv Hu] [Hv' Hu']. split; [congruence|]. by eapply unchanged_trans. Qed.
Lemma untouched_refl s : untouched s s.
Proof. by split. Qed.
Lemma untouched_vol_ok fd s s' : vol_ok fd s -> untouched s s' -> vol_ok fd s'.
Proof. intros Hok [Hv Hu]. by eapply vol_ok_write. Qed.

(** Reading the extent block [c] of a chain. *)
Lemma read_block_spec fd s c es next : vol_ok fd s -> fd <= c < total s -> exts_ok (bsize s) es -> 0 <= next < 2 ^ 64 ->
  bytes_at (bytes_of s) (c * bsize s) (16 + 16 * Z.of_nat (length es)) = ext_block_bytes next es ->
  wp (read_ehdr c) (fun r s' => r = Ok (mk_ehdr NYFS_EXTENT_MAGIC (Z.of_nat (length es)) next) /\ untouched s s') s /\
  wp (read_extents c (Z.of_nat (length es))) (fun r s' => r = Ok es /\ untouched s s') s.
Proof.
  intros Hok Hc (Hes & H128 & Hbs) Hn Hb. pose proof (vol_ok_facts _ _ Hok). pose proof (block_range _ _ _ Hok Hc).
  unfold ext_block_bytes in Hb. rewrite bytes_at_app in Hb by lia. apply app_inj_1 in Hb as [Hh He]; [|by rewrite length_bytes_at, length_ehdr].
  split.
  - unfold read_ehdr. unfold wp at 1. rewrite (at_block_eq fd) by (done || lia). rewrite Z.add_0_r.
    apply (wp_tryb (read_local _ _)). eapply wp_mono; [apply (read_local_spec _ _ _ _ _ HD); [apply Hok|unfold EHDR_SIZE; lia..]|].
    intros r s' (-> & Hv & Hu). unfold EHDR_SIZE. rewrite Hh, ehdr_of_bytes by (cbn; unfold NYFS_EXTENT_MAGIC; lia). cbn [eh_magic eh_extent_count].
    rewrite Z.eqb_refl. cbn [negb orb]. unfold NYFS_MAX_EXTENTS_PER_BLOCK. case_if; [lia|]. by split.
  - unfold read_extents. unfold wp at 1. case_if.
    + rewrite (at_block_eq fd) by (done || unfold EHDR_SIZE; lia).
      apply (wp_tryb (read_local _ _)). eapply wp_mono; [apply (read_local_spec _ _ _ _ _ HD); [apply Hok|unfold EHDR_SIZE, EXTENT_SIZE; lia..]|].
      intros r s' (-> & Hv & Hu). apply wp_ret. split; [|by split]. f_equal. unfold EHDR_SIZE, EXTENT_SIZE.
      rewrite (Z.mul_comm _ 16), He, <- (app_nil_r (es ≫= _)). apply array_of_exts; [lia|done].
    + split; [|by split]. destruct es; [done|]. cbn [length] in *. lia.
Qed.

(** What a chain says of one of its blocks. *)
Lemma chain_on_app f bs pre ch : chain_on f bs (pre ++ ch) -> chain_on f bs ch.
Proof. induction pre as [|[c es] pre IH]; [done|]. intros (_ & H). by apply IH. Qed.

Lemma chain_elem fd s root pre c es ch : vol_ok fd s -> stream_ok fd s root (pre ++ (c, es) :: ch) ->
  fd <= c < total s /\ exts_ok (bsize s) es /\ 0 <= chain_head ch < 2 ^ 64 /\
  bytes_at (bytes_of s) (c * bsize s) (16 + 16 * Z.of_nat (length es)) = ext_block_bytes (chain_head ch) es.
Proof.
  intros Hok (_ & Hch & Hes & _ & Hin). pose proof (vol_ok_facts _ _ Hok).
  assert (Hbs : total s < 2 ^ 64) by (unfold total; apply sb_ok_total, Hok).
  apply chain_on_app in Hch. cbn [chain_on] in Hch. apply Forall_app in Hes as [_ Hes]. apply Forall_cons in Hes as [Hes _].
  split; [|split; [exact Hes|split; [|apply Hch]]].
  - apply Hin. unfold own. rewrite fmap_app. set_solver.
  - destruct ch as [|[c' es'] ch]; [cbn; unfold NYFS_BLKNO_NONE; lia|]. cbn [chain_head].
    assert (fd <= c' < total s); [|lia]. apply Hin. unfold own. rewrite fmap_app. set_solver.
Qed.

Lemma data_in_range fd s root ch : vol_ok fd s -> stream_ok fd s root ch -> Forall (fun b => fd <= b < total s) (data_blocks ch).
Proof. intros Hok (_ & _ & _ & _ & Hin). apply Forall_forall. intros b Hb. apply Hin. unfold own. set_solver. Qed.

(** [nyfs_extent_resolve] is the lookup in the list of data blocks. *)
Lemma resolve_spec fd s root ch lb : vol_ok fd s -> stream_ok fd s root ch -> 0 <= lb < 2 ^ 64 ->
  wp (nyfs_extent_resolve root lb) (fun r s' =>
    r = match data_blocks ch !! Z.to_nat lb with Some b => Ok b | None => Err NnotFound end /\ untouched s s') s.
Proof.
  intros Hok Hst Hlb. pose proof (own_bound _ _ _ _ Hok Hst) as Hob. pose proof (vol_ok_facts _ _ Hok) as Hf.
  pose proof (data_in_range _ _ _ _ Hok Hst) as Hdr. assert (Hts : total s < 2 ^ 64) by (unfold total; apply sb_ok_total, Hok).
  unfold own in Hob. rewrite length_app, length_fmap in Hob.
  apply (wp_loop _ _ (fun n '(cur, base) s' => exists pre ch', ch = pre ++ ch' /\ n = Z.of_nat (length ch') /\ cur = chain_head ch' /\
    base = Z.of_nat (length (data_blocks pre)) /\ base <= lb /\ untouched s s') _ (Z.of_nat (length ch))).
  { exists [], ch. destruct Hst as (-> & _). split_and!; (done || lia). }
  { lia. }
  intros n [cur base] s1 (pre & ch' & -> & -> & -> & -> & Hbl & Hun).
  destruct ch' as [|[c es] ch']; cbn [chain_head].
  - change (NYFS_BLKNO_NONE =? NYFS_BLKNO_NONE) with true. cbn iota. apply wp_ret. split; [|done].
    rewrite app_nil_r. by rewrite lookup_ge_None_2 by lia.
  - destruct (chain_elem fd s root pre c es ch' Hok Hst) as (Hc & Hes & Hnx & Hb).
    assert (Hok1 : vol_ok fd s1) by by eapply untouched_vol_ok.
    destruct (untouched_stream s s1 Hun) as [Hbs Htt].
    assert (Hb1 : bytes_at (bytes_of s1) (c * bsize s1) (16 + 16 * Z.of_nat (length es)) = ext_block_bytes (chain_head ch') es).
    { rewrite <- Hb, Hbs. pose proof (block_range _ _ _ Hok Hc). destruct Hes as (_ & _ & ?).
      eapply (unchanged_bytes _ _ (fun _ => False)); [apply Hun|lia|lia|tauto]. }
    destruct (read_block_spec fd s1 c es (chain_head ch') Hok1 ltac:(lia) ltac:(by rewrite Hbs) Hnx Hb1) as [Hr1 Hr2].
    unfold NYFS_BLKNO_NONE. rewrite (proj2 (Z.eqb_neq c 0)) by lia. apply wp_stepb. eapply wp_mono; [exact Hr1|].
    intros r s2 (-> & Hun2). cbn [eh_extent_count eh_next_block].
    assert (Hok2 : vol_ok fd s2) by by eapply untouched_vol_ok.
    destruct (untouched_stream s1 s2 Hun2) as [Hbs2 Htt2].
    assert (Hb2 : bytes_at (bytes_of s2) (c * bsize s2) (16 + 16 * Z.of_nat (length es)) = ext_block_bytes (chain_head ch') es).
    { rewrite <- Hb1, Hbs2. pose proof (block_range _ _ _ Hok Hc). destruct Hes as (_ & _ & ?). rewrite Hbs.
      eapply (unchanged_bytes _ _ (fun _ => False)); [apply Hun2|lia|lia|tauto]. }
    destruct (read_block_spec fd s2 c es (chain_head ch') Hok2 ltac:(lia) ltac:(by rewrite Hbs2, Hbs) Hnx Hb2) as [_ Hr3].
    apply wp_stepb. eapply wp_mono; [exact Hr3|]. intros r s3 (-> & Hun3).
    rewrite data_blocks_app, data_blocks_cons in *. rewrite !length_app in Hob. apply Forall_app in Hdr as [_ Hdr].
    apply Forall_app in Hdr as [Hdr _]. rewrite resolve_in_spec; [|apply Hes|lia|lia|lia|].
    2: { eapply Forall_impl; [exact Hdr|]. simpl. lia. }
    rewrite lookup_app_r by lia. replace (Z.to_nat lb - length (data_blocks pre))%nat with (Z.to_nat (lb - Z.of_nat (length (data_blocks pre)))) by lia.
    assert (Hun' : untouched s s3) by (eapply untouched_trans; [exact Hun|]; by eapply untouched_trans).
    destruct (ext_blocks es !! _) as [b|] eqn:E.
    + apply wp_ret. split; [|done]. rewrite (lookup_app_l_Some _ _ _ _ E). done.
    + apply wp_ret. exists (Z.of_nat (length ch')). split; [|cbn [length]; lia]. apply lookup_ge_None_1 in E.
      exists (pre ++ [(c, es)]), ch'. rewrite <- app_assoc, data_blocks_app, data_blocks_cons. cbn [data_blocks mbind list_bind].
      rewrite app_nil_r, length_app. split_and!; (done || lia).
Qed.
End stream.
