(* ===== verification/NyfsGrow.v ===== *)
(** * Growing and releasing NYFS streams

    [nyfs_extent_append_one] adds one data block at the end of a stream, in
    the last extent, in a new extent or in a new extent block, or finds the
    volume full and gives back what it took; [nyfs_free_extent_chain] gives
    back all blocks of a stream. *)

From S2P Require Import Prelude Types Loops Bytes NyfsDisk Nyfs NyfsImage NyfsIo NyfsAlloc NyfsFree NyfsInodes NyfsStream.

Lemma in_blocks_div bs b a : 0 < bs -> b * bs <= a < b * bs + bs -> a / bs = b.
Proof. intros Hb Ha. symmetry. apply (Z.div_unique a bs b (a - b * bs)); lia. Qed.

Lemma in_blocks_same bs b B a : 0 < bs -> b * bs <= a < b * bs + bs -> in_blocks bs B a -> b ∈ B.
Proof. intros Hbs Ha (c & Hc & Hac). by rewrite <- (in_blocks_div bs b a), (in_blocks_div bs c a). Qed.

Lemma chain_on_ext f g bs ch : Forall (fun p => exts_ok bs p.2) ch -> (forall a, in_blocks bs ch.*1 a -> g a = f a) ->
  chain_on f bs ch -> chain_on g bs ch.
Proof.
  induction ch as [|[c es] ch IH]; [done|]. intros [(_ & _ & Hb) Hes]%Forall_cons Hfg [Hc Hch]. split.
  - rewrite <- Hc. apply bytes_at_ext. intros a Ha. apply Hfg. exists c. simpl in *. split; [set_solver|lia].
  - apply IH; [done| |done]. intros a (b & Hin & Ha). apply Hfg. exists b. split; [set_solver|done].
Qed.

(** The last block of a chain gets other extents, and more blocks behind it. *)
Lemma chain_on_last f g bs pre c es es' tl : (forall a, in_blocks bs pre.*1 a -> g a = f a) ->
  Forall (fun p => exts_ok bs p.2) pre ->
  bytes_at g (c * bs) (16 + 16 * Z.of_nat (length es')) = ext_block_bytes (chain_head tl) es' -> chain_on g bs tl ->
  chain_on f bs (pre ++ [(c, es)]) -> chain_on g bs (pre ++ (c, es') :: tl).
Proof.
  intros Hfg Hes Hb Htl. induction pre as [|[c1 es1] pre IH]; [by intros _|].
  apply Forall_cons in Hes as [(_ & _ & Hb1) Hes]. intros [Hc1 Hch]. split.
  - transitivity (ext_block_bytes (chain_head (pre ++ [(c, es)])) es1); [|by destruct pre].
    rewrite <- Hc1. apply bytes_at_ext. intros a Ha. apply Hfg. exists c1. simpl in *. split; [set_solver|lia].
  - apply IH; [|done..]. intros a (b & Hin & Ha). apply Hfg. exists b. split; [set_solver|done].
Qed.

Lemma own_last pre c es es' b : ext_blocks es' = ext_blocks es ++ [b] ->
  own (pre ++ [(c, es')]) ≡ₚ own (pre ++ [(c, es)]) ++ [b] /\
  data_blocks (pre ++ [(c, es')]) = data_blocks (pre ++ [(c, es)]) ++ [b].
Proof.
  intros He. assert (Hd : data_blocks (pre ++ [(c, es')]) = data_blocks (pre ++ [(c, es)]) ++ [b]).
  { rewrite !data_blocks_app, !data_blocks_cons, He. cbn [data_blocks mbind list_bind]. by rewrite !app_nil_r, app_assoc. }
  split; [|done]. unfold own. by rewrite Hd, !fmap_app, !app_assoc.
Qed.

Lemma ext_blocks_extended es0 e b : 0 <= ext_length e -> ext_start_block e + ext_length e = b ->
  ext_blocks (es0 ++ [mk_ext (ext_start_block e) (ext_length e + 1)]) = ext_blocks (es0 ++ [e]) ++ [b].
Proof.
  intros Hl <-. rewrite !ext_blocks_app, !ext_blocks_cons. cbn [ext_start_block ext_length ext_blocks mbind list_bind].
  rewrite !app_nil_r, seqZ_app, <- app_assoc by lia. done.
Qed.
Lemma ext_blocks_added es b : ext_blocks (es ++ [mk_ext b 1]) = ext_blocks es ++ [b].
Proof. by rewrite ext_blocks_app, ext_blocks_cons. Qed.

(** The number of extents an extent block has room for. *)
Definition block_extents (bs : Z) : Z := Z.min NYFS_MAX_EXTENTS_PER_BLOCK ((bs - EHDR_SIZE) / EXTENT_SIZE).

Lemma block_extents_range bs : 512 <= bs -> 31 <= block_extents bs <= 128.
Proof. unfold block_extents, NYFS_MAX_EXTENTS_PER_BLOCK, EHDR_SIZE, EXTENT_SIZE. intros. Z.to_euclidean_division_equations. lia. Qed.
Lemma block_extents_le bs n : n <= block_extents bs <-> n <= 128 /\ 16 + 16 * n <= bs.
Proof. unfold block_extents, NYFS_MAX_EXTENTS_PER_BLOCK, EHDR_SIZE, EXTENT_SIZE. Z.to_euclidean_division_equations. lia. Qed.

Section grow.
Context {D : Type} (read : nyfs_disk_read_fn D) (write : nyfs_disk_write_fn D) (k size : Z) (img : D -> Z -> Z).
Context (HD : disk_laws read write k size img).
Abbreviation nst := (nst D).
Abbreviation vol_ok := (vol_ok read write k size img).
Abbreviation bytes_of := (bytes_of img).
Abbreviation untouched := (untouched size img).
Abbreviation unchanged := (unchanged size img).
Abbreviation free_blocks := (free_blocks img).
Abbreviation changes := (changes read write k size img).
Abbreviation stream_ok := (stream_ok img).
Implicit Types (s : nst) (ch : chain).

(** ** Frames of streams *)

(** A stream survives what happens elsewhere. *)
Lemma stream_unchanged P fd s s' root ch : vol_ok fd s -> stream_ok fd s root ch -> same_layout s s' -> unchanged P s s' ->
  (forall a, in_blocks (bsize s) ch.*1 a -> ~ P a) -> (forall b, b ∈ own ch -> b ∉ free_blocks s') -> stream_ok fd s' root ch.
Proof.
  intros Hok (Hr & Hch & Hes & Hnd & Hin) Hl Hu HP Hf. pose proof (vol_ok_facts _ _ _ _ _ HD _ _ Hok) as Hvf.
  unfold NyfsStream.stream_ok. rewrite (layout_bsize _ _ Hl), (layout_total _ _ Hl). split; [done|]. split; [|split; [done|split; [done|]]].
  - eapply chain_on_ext; [exact Hes| |exact Hch]. intros a Ha. apply Hu; [|by apply HP].
    destruct Ha as (b & Hb & Ha). assert (Hd : fd <= b < total s) by (apply Hin; unfold own; set_solver).
    pose proof (block_range _ _ _ _ _ HD _ _ _ Hok Hd). lia.
  - intros b Hb. split; [apply Hin, Hb|by apply Hf].
Qed.

Lemma in_blocks_disjoint fd s l B a : vol_ok fd s -> Forall (fun b => fd <= b < total s) l -> (forall b, b ∈ l -> b ∉ B) ->
  in_blocks (bsize s) l a -> ~ (in_meta s a \/ in_blocks (bsize s) B a).
Proof.
  intros Hok Hl HB Ha. pose proof (blocks_not_meta _ _ _ _ _ fd _ s a Hok Hl Ha) as (Hnm & _ & _).
  pose proof (vol_ok_facts _ _ _ _ _ HD _ _ Hok). destruct Ha as (b & Hb & Ha). intros [?|Hbl]; [done|].
  apply (HB b Hb). apply (in_blocks_same (bsize s) b B a); [lia|exact Ha|exact Hbl].
Qed.

Lemma stream_frame fd s s' B root ch : vol_ok fd s -> stream_ok fd s root ch -> changes fd B s s' ->
  (forall b, b ∈ ch.*1 -> b ∉ B) -> (forall b, b ∈ own ch -> b ∉ free_blocks s') -> stream_ok fd s' root ch.
Proof.
  intros Hok Hst Hc HB Hf. pose proof Hc as (_ & Hl & _ & _ & Hu).
  eapply stream_unchanged; [exact Hok|exact Hst|exact Hl|exact Hu| |exact Hf].
  intros a. eapply in_blocks_disjoint; [exact Hok| |exact HB]. destruct Hst as (_ & _ & _ & _ & Hin).
  apply Forall_forall. intros b Hb. apply Hin. unfold own. set_solver.
Qed.

(** Writing inside a data block. *)
Lemma write_block_spec fd b o bs s : vol_ok fd s -> fd <= b < total s -> 0 <= o -> o + Z.of_nat (length bs) <= bsize s ->
  is_bytes bs -> bs <> [] ->
  wp (nyfs_raw_write (at_block b o s) bs) (fun r s' => r = Ok tt /\ n_vol s' = n_vol s /\ changes fd [b] s s' /\
    free_blocks s' = free_blocks s /\
    forall a, 0 <= a < size -> bytes_of s' a = patch (bytes_of s) (b * bsize s + o) bs a) s.
Proof.
  intros Hok Hb Ho Hl Hbs Hne. rewrite (at_block_eq _ _ _ _ _ HD fd) by (done || lia).
  pose proof (block_range _ _ _ _ _ HD _ _ _ Hok Hb). pose proof (vol_ok_facts _ _ _ _ _ HD _ _ Hok).
  eapply wp_mono; [apply (raw_write_spec _ _ _ _ _ HD); [apply Hok|done|done|lia|lia]|].
  intros r s' (-> & Hv & Hw).
  assert (Hu : unchanged (fun a => in_blocks (bsize s) [b] a) s s').
  { intros a Ha Hn. rewrite Hw by done. apply patch_other. destruct (decide (a < b * bsize s + o)); [by left|right].
    apply Z.le_ngt. intros Hlt. apply Hn. exists b. split; [set_solver|lia]. }
  assert (Hm : forall a, in_blocks (bsize s) [b] a -> ~ in_meta s a /\ ~ in_ibitmap s a /\ SB_SIZE <= a).
  { intros a Ha. eapply (blocks_not_meta _ _ _ _ _ fd [b] s a Hok); [by apply Forall_singleton|done]. }
  assert (Hlay : same_layout s s') by by apply same_layout_vol.
  assert (Hfb : free_blocks s' = free_blocks s).
  { eapply free_blocks_unchanged; [exact Hok|done|exact Hu|]. intros a Hi Hbl. apply Hm in Hbl as (Hnm & _). apply Hnm. by right. }
  assert (Hfi : free_inodes img s' = free_inodes img s).
  { eapply free_inodes_unchanged; [exact Hok|done|exact Hu|]. intros a Hi Hbl. by apply Hm in Hbl as (_ & Hni & _). }
  split; [done|]. split; [done|]. split; [|done]. split.
  { eapply vol_ok_write; [exact Hok|done|exact Hu|]. intros a Ha. apply Hm in Ha as (Hnm & Hni & ?).
    split; [done|]. split; [|done]. intros Hx. apply Hnm. by right. }
  split; [done|]. split; [done|]. split.
  - unfold counted. rewrite Hfb, Hfi. unfold counts, sb. by rewrite Hv.
  - eapply unchanged_mono; [|exact Hu]. by right.
Qed.

Lemma changes_vol_facts fd B s s' : changes fd B s s' -> bsize s' = bsize s /\ total s' = total s /\ vol_ok fd s'.
Proof. intros (Hok & Hl & _). split; [by apply layout_bsize|]. split; [by apply layout_total|done]. Qed.

Lemma stream_untouched fd s s' root ch : vol_ok fd s -> stream_ok fd s root ch -> untouched s s' ->
  vol_ok fd s' /\ stream_ok fd s' root ch /\ free_blocks s' = free_blocks s /\ bsize s' = bsize s /\ total s' = total s.
Proof.
  intros Hok Hst Hun. destruct (changes_untouched _ _ _ _ _ fd [] s s' Hok Hun) as [Hc Hf].
  pose proof (changes_vol_facts _ _ _ _ Hc) as (Hb & Ht & Hok'). split; [done|]. split; [|done].
  eapply stream_frame; [exact Hok|exact Hst|exact Hc|set_solver|]. intros b Hb'. rewrite Hf. by apply Hst.
Qed.

Lemma read_elem_spec fd s root pre c es ch : vol_ok fd s -> stream_ok fd s root (pre ++ (c, es) :: ch) ->
  wp (read_ehdr c) (fun r s' => r = Ok (mk_ehdr NYFS_EXTENT_MAGIC (Z.of_nat (length es)) (chain_head ch)) /\ untouched s s') s /\
  wp (read_extents c (Z.of_nat (length es))) (fun r s' => r = Ok es /\ untouched s s') s.
Proof.
  intros Hok Hst. destruct (chain_elem _ _ _ _ _ HD fd s root pre c es ch Hok Hst) as (Hc & Hes & Hn & Hb).
  by apply (read_block_spec _ _ _ _ _ HD fd).
Qed.

(** ** Appending *)

Lemma last_extent_block_spec fd s root pre c es : vol_ok fd s -> stream_ok fd s root (pre ++ [(c, es)]) ->
  wp (last_extent_block root) (fun r s' =>
    r = Ok (c, mk_ehdr NYFS_EXTENT_MAGIC (Z.of_nat (length es)) NYFS_BLKNO_NONE) /\ untouched s s') s.
Proof.
  intros Hok Hst. pose proof (own_bound _ _ _ _ _ HD _ _ _ _ Hok Hst) as Hob. pose proof (vol_ok_facts _ _ _ _ _ HD _ _ Hok).
  assert (Htt : total s < 2 ^ 64) by by eapply vol_ok_total.
  apply (wp_loop _ _ (fun n cur s' => exists p q, pre ++ [(c, es)] = p ++ q /\ n = Z.of_nat (length q) /\ cur = chain_head q /\
    q <> [] /\ untouched s s') _ (Z.of_nat (length (pre ++ [(c, es)])))).
  { exists [], (pre ++ [(c, es)]). destruct Hst as (-> & _). split_and!; try done. by destruct pre. }
  { unfold own in Hob. rewrite !length_app, length_fmap, !length_app in Hob. rewrite length_app. lia. }
  intros n cur s1 (p & q & Hpq & -> & -> & Hq & Hun).
  destruct (stream_untouched _ _ _ _ _ Hok Hst Hun) as (Hok1 & Hst1 & _).
  destruct q as [|[c1 es1] q]; [done|]. cbn [chain_head]. rewrite Hpq in Hst1.
  destruct (read_elem_spec _ _ _ _ _ _ _ Hok1 Hst1) as [Hr _].
  apply wp_stepb. eapply wp_mono; [exact Hr|]. intros r s2 (-> & Hun2). cbn [eh_next_block].
  assert (Hun' : untouched s s2) by by eapply untouched_trans.
  destruct q as [|[c2 es2] q].
  - cbn [chain_head]. change (NYFS_BLKNO_NONE =? NYFS_BLKNO_NONE) with true. cbn iota. apply wp_ret. split; [|done].
    apply app_inj_tail in Hpq as [_ [= <- <-]]. done.
  - destruct (chain_elem _ _ _ _ _ HD fd s1 root (p ++ [(c1, es1)]) c2 es2 q Hok1) as (Hc2 & _); [by rewrite <- app_assoc|].
    cbn [chain_head]. unfold NYFS_BLKNO_NONE. rewrite (proj2 (Z.eqb_neq c2 0)) by (pose proof (vol_ok_facts _ _ _ _ _ HD _ _ Hok1); lia).
    apply wp_ret. exists (Z.of_nat (length ((c2, es2) :: q))). split; [|cbn [length]; lia].
    exists (p ++ [(c1, es1)]), ((c2, es2) :: q). split; [by rewrite <- app_assoc|]. by split_and!.
Qed.

Lemma ext_block_split f o next es : bytes_at f o (16 + 16 * Z.of_nat (length es)) = ext_block_bytes next es <->
  bytes_at f o 16 = ehdr_bytes (mk_ehdr NYFS_EXTENT_MAGIC (Z.of_nat (length es)) next) /\
  bytes_at f (o + 16) (16 * Z.of_nat (length es)) = (es ≫= ext_bytes).
Proof.
  unfold ext_block_bytes. rewrite bytes_at_app by lia. split.
  - intros H. apply app_inj_1 in H; [done|by rewrite length_bytes_at, length_ehdr].
  - by intros [-> ->].
Qed.

(** The block given to a stream, and one more for its extent. *)
Lemma new_extent_block_spec fd b s : vol_ok fd s -> fd <= b < total s -> b ∉ free_blocks s ->
  wp (new_extent_block b) (fun r s' => match r with
    | Ok c => fd <= c < total s /\ c ∈ free_blocks s /\ changes fd [c] s s' /\ free_blocks s' = free_blocks s ∖ {[c]} /\
        bytes_at (bytes_of s') (c * bsize s) (16 + 16 * 1) = ext_block_bytes 0 [mk_ext b 1]
    | Err e => e = NdiskFull /\ free_blocks s = ∅ /\ changes fd [] s s' /\ free_blocks s' = {[b]}
    end) s.
Proof.
  intros Hok Hb Hnf. pose proof (vol_ok_facts _ _ _ _ _ HD _ _ Hok) as Hvf.
  apply wp_or_else. eapply wp_mono; [by apply (alloc_block_set _ _ _ _ _ HD fd)|]. intros [c|e] s1.
  2: { intros [Hc (-> & He & He1)]. destruct (changes_vol_facts _ _ _ _ Hc) as (_ & Ht & Hok1). apply wp_void.
       eapply wp_mono; [apply (free_block_set _ _ _ _ _ HD fd); [done|by rewrite Ht|set_solver]|].
       intros r s2 (-> & Hc2 & Hf2). split; [done|]. split; [done|]. split; [by eapply changes_trans|]. rewrite Hf2, He1. set_solver. }
  intros [Hc (Hcfd & Hcf & _ & Hf1)]. destruct (changes_vol_facts _ _ _ _ Hc) as (Hbs & Ht & Hok1).
  assert (Hct : fd <= c < total s) by (apply free_blocks_spec in Hcf; lia).
  assert (Htt : total s < 2 ^ 64) by by eapply vol_ok_total.
  apply wp_or_else. apply (wp_tryb (nyfs_raw_write _ _)).
  eapply wp_mono; [apply (write_block_spec fd); [done|lia|lia|rewrite length_ehdr; lia|apply is_bytes_ehdr|]|].
  { intros E. apply (f_equal length) in E. by rewrite length_ehdr in E. }
  intros r s2 (-> & _ & Hc2 & Hf2 & Hw2). destruct (changes_vol_facts _ _ _ _ Hc2) as (Hbs2 & Ht2 & Hok2).
  replace (at_block c EHDR_SIZE s1) with (at_block c 16 s2) by (unfold at_block, EHDR_SIZE; by rewrite Hbs2).
  eapply wp_mono; [apply (write_block_spec fd); [done|lia|lia|rewrite length_ext_bytes; lia|apply is_bytes_ext|]|].
  { intros E. apply (f_equal length) in E. by rewrite length_ext_bytes in E. }
  intros r s3 (-> & _ & Hc3 & Hf3 & Hw3). apply wp_ret. split; [done|]. split; [done|]. split.
  { eapply changes_trans; [eapply changes_mono; [exact Hc|set_solver]|]. eapply changes_trans; [exact Hc2|exact Hc3]. }
  split; [congruence|]. pose proof (block_range _ _ _ _ _ HD _ _ _ Hok Hct).
  apply (ext_block_split _ _ 0 [mk_ext b 1]). cbn [length mbind list_bind]. rewrite app_nil_r, Hbs2, Hbs in *. split.
  - transitivity (bytes_at (bytes_of s2) (c * bsize s) 16).
    + apply bytes_at_ext. intros a Ha. rewrite Hw3 by lia. apply patch_other. lia.
    + rewrite Z.add_0_r in Hw2. rewrite <- (bytes_at_patch (bytes_of s1) (c * bsize s) (ehdr_bytes _)).
      rewrite length_ehdr. apply bytes_at_ext. intros a Ha. by rewrite Hw2 by lia.
  - rewrite <- (bytes_at_patch (bytes_of s2) (c * bsize s + 16) (ext_bytes _)). rewrite length_ext_bytes.
    apply bytes_at_ext. intros a Ha. by rewrite Hw3 by lia.
Qed.

(** The extents that an extent block still has room for, and what the blocks
    [N] taken for the data blocks [bl] are: beside each data block at most one
    extent block, and no more of them than full ones.  An extent block pays for
    itself with the room it brings. *)
Definition spare s ch : Z :=
  match last ch with
  | Some (_, es) => Z.min (block_extents (bsize s) - 1) (block_extents (bsize s) - Z.of_nat (length es))
  | None => 0
  end.
Definition paid s ch ch' (N bl : list Z) : Prop := (length N <= 2 * length bl)%nat /\
  block_extents (bsize s) * (Z.of_nat (length N) - Z.of_nat (length bl)) + spare s ch <= Z.of_nat (length bl) + spare s ch'.

Lemma spare_bsize s s' ch : bsize s' = bsize s -> spare s' ch = spare s ch.
Proof. unfold spare. by intros ->. Qed.

Lemma paid_refl s ch : paid s ch ch [] [].
Proof. split; cbn [length]; lia. Qed.

Lemma paid_trans s s' c1 c2 c3 N1 N2 l1 l2 : bsize s' = bsize s -> paid s c1 c2 N1 l1 -> paid s' c2 c3 N2 l2 -> paid s c1 c3 (N1 ++ N2) (l1 ++ l2).
Proof. intros Hb [H1 H2] [H3 H4]. rewrite !(spare_bsize s s'), Hb in H4 by done. split; rewrite !length_app; lia. Qed.

(** From [s] to [s'] the stream [ch] has become [ch'], with the data blocks
    [bl] at its end; what it has taken was free. *)
Definition grown (fd : Z) s ch s' (root' : Z) ch' (bl : list Z) : Prop :=
  exists N, stream_ok fd s' root' ch' /\ data_blocks ch' = data_blocks ch ++ bl /\ own ch' ≡ₚ own ch ++ N /\
    (forall b, b ∈ N -> b ∈ free_blocks s) /\ free_blocks s' = free_blocks s ∖ list_to_set N /\
    ch.*1 ⊆ ch'.*1 /\ changes fd ch'.*1 s s' /\ paid s ch ch' N bl /\
    (ch <> [] -> root' = chain_head ch).

Lemma grown_intro fd s root ch s' ch' bl N : vol_ok fd s -> stream_ok fd s root ch ->
  changes fd ch'.*1 s s' -> free_blocks s' = free_blocks s ∖ list_to_set N -> NoDup N ->
  (forall b, b ∈ N -> fd <= b /\ b ∈ free_blocks s) -> own ch' ≡ₚ own ch ++ N -> data_blocks ch' = data_blocks ch ++ bl ->
  ch.*1 ⊆ ch'.*1 -> chain_on (bytes_of s') (bsize s) ch' -> Forall (fun p => exts_ok (bsize s) p.2) ch' -> paid s ch ch' N bl ->
  (ch <> [] -> chain_head ch' = chain_head ch) -> grown fd s ch s' (chain_head ch') ch' bl.
Proof.
  intros Hok (Hr & _ & _ & Hnd & Hin) Hc Hf HndN HN Hown Hd Hsub Hch Hes Hbl Hroot.
  destruct (changes_vol_facts _ _ _ _ Hc) as (Hbs & Ht & Hok').
  exists N. split; [|split_and!; try done; intros b Hb; by apply HN]. unfold NyfsStream.stream_ok. rewrite Hbs, Ht. split_and!; [done..| |].
  - rewrite Hown. apply NoDup_app. split; [done|]. split; [|done]. intros b Hb Hb'. by apply (Hin b), (HN b).
  - intros b. rewrite Hown, elem_of_app. rewrite Hf. intros [Hb|Hb].
    + destruct (Hin b Hb). set_solver.
    + destruct (HN b Hb) as [? Hb2]. pose proof Hb2 as Hb3. apply free_blocks_spec in Hb3. split; [lia|set_solver].
Qed.

Section last.
Context (fd : Z) (s : nst) (root c : Z) (pre : chain) (es : list nyfs_extent_t).
Context (Hok : vol_ok fd s) (Hst : stream_ok fd s root (pre ++ [(c, es)])).

Lemma last_facts : fd <= c < total s /\ exts_ok (bsize s) es /\ c ∉ pre.*1 /\ Forall (fun p => exts_ok (bsize s) p.2) pre /\
  bytes_at (bytes_of s) (c * bsize s) (16 + 16 * Z.of_nat (length es)) = ext_block_bytes 0 es.
Proof.
  destruct (chain_elem _ _ _ _ _ HD fd s root pre c es [] Hok Hst) as (Hc & Hes & _ & Hb). split; [done|]. split; [done|].
  destruct Hst as (_ & _ & Hf & Hnd & _). apply Forall_app in Hf as [Hf _]. split; [|by split].
  unfold own in Hnd. rewrite fmap_app in Hnd. apply NoDup_app in Hnd as [Hnd _]. apply NoDup_app in Hnd as (_ & Hd & _).
  intros Hin. apply (Hd c Hin). set_solver.
Qed.

Lemma pre_unchanged B s' : changes fd B s s' -> (forall b, b ∈ pre.*1 -> b ∉ B) ->
  forall a, in_blocks (bsize s) pre.*1 a -> bytes_of s' a = bytes_of s a.
Proof.
  intros Hc HB a Ha. destruct Hc as (_ & _ & _ & _ & Hu).
  assert (Hd : Forall (fun b => fd <= b < total s) pre.*1).
  { apply Forall_forall. intros b Hb. destruct Hst as (_ & _ & _ & _ & Hin). apply Hin. unfold own. rewrite fmap_app. set_solver. }
  apply Hu; [|by eapply in_blocks_disjoint]. destruct Ha as (b & Hb & Ha). rewrite Forall_forall in Hd.
  pose proof (block_range _ _ _ _ _ HD _ _ _ Hok (Hd b Hb)). lia.
Qed.

(** The last extent is overwritten. *)
Lemma extend_last_spec es0 e e' : es = es0 ++ [e] ->
  wp (nyfs_raw_write (extent_at c (Z.of_nat (length es0)) s) (ext_bytes e')) (fun r s' => r = Ok tt /\ changes fd [c] s s' /\
    free_blocks s' = free_blocks s /\ chain_on (bytes_of s') (bsize s) (pre ++ [(c, es0 ++ [e'])])) s.
Proof.
  intros He. destruct last_facts as (Hc & (_ & _ & Hbs) & Hpre & Hesp & Hb).
  pose proof (block_range _ _ _ _ _ HD _ _ _ Hok Hc). rewrite He, length_app in Hbs. cbn [length] in Hbs.
  unfold extent_at, EHDR_SIZE, EXTENT_SIZE.
  eapply wp_mono; [apply (write_block_spec fd); [done|done|lia|rewrite length_ext_bytes; lia|apply is_bytes_ext|]|].
  { intros E. apply (f_equal length) in E. by rewrite length_ext_bytes in E. }
  intros r s' (-> & _ & Hch & Hf & Hw). split_and!; [done..|].
  eapply chain_on_last; [by apply (pre_unchanged [c]); [done|set_solver]|done| |done|apply Hst].
  change (chain_head []) with 0. rewrite He in Hb. apply ext_block_split in Hb as [Hb1 Hb2]. apply ext_block_split. rewrite !length_app in *. cbn [length] in *.
  rewrite Nat2Z.inj_add in *. split.
  - rewrite <- Hb1. apply bytes_at_ext. intros a Ha. rewrite Hw by lia. apply patch_other. lia.
  - rewrite Z.mul_add_distr_l, bytes_at_app, !bind_app in * by lia. cbn [mbind list_bind] in *. rewrite !app_nil_r in *.
    apply app_inj_1 in Hb2 as [Hb2 _]; [|rewrite length_bytes_at, length_exts; lia]. f_equal.
    + rewrite <- Hb2. apply bytes_at_ext. intros a Ha. rewrite Hw by lia. apply patch_other. lia.
    + rewrite <- (bytes_at_patch (bytes_of s) (c * bsize s + (16 + Z.of_nat (length es0) * 16)) (ext_bytes e')), length_ext_bytes.
      replace (c * bsize s + 16 + 16 * Z.of_nat (length es0)) with (c * bsize s + (16 + Z.of_nat (length es0) * 16)) by lia.
      apply bytes_at_ext. intros a Ha. by rewrite Hw by lia.
Qed.

(** The header gets another link, or a count that covers what is there. *)
Lemma write_header_spec es' tl s1 : bsize s1 = bsize s -> total s1 = total s -> vol_ok fd s1 ->
  16 + 16 * Z.of_nat (length es') <= bsize s ->
  bytes_at (bytes_of s1) (c * bsize s + 16) (16 * Z.of_nat (length es')) = (es' ≫= ext_bytes) ->
  wp (nyfs_raw_write (at_block c 0 s1) (ehdr_bytes (mk_ehdr NYFS_EXTENT_MAGIC (Z.of_nat (length es')) (chain_head tl))))
    (fun r s' => r = Ok tt /\ changes fd [c] s1 s' /\ free_blocks s' = free_blocks s1 /\
      bytes_at (bytes_of s') (c * bsize s) (16 + 16 * Z.of_nat (length es')) = ext_block_bytes (chain_head tl) es') s1.
Proof.
  intros Hbs1 Ht1 Hok1 Hbs He. destruct last_facts as (Hc & _). pose proof (block_range _ _ _ _ _ HD _ _ _ Hok Hc).
  eapply wp_mono; [apply (write_block_spec fd); [done|lia|lia|rewrite length_ehdr; lia|apply is_bytes_ehdr|]|].
  { intros E. apply (f_equal length) in E. by rewrite length_ehdr in E. }
  rewrite Hbs1, Z.add_0_r. intros r s' (-> & _ & Hch & Hf & Hw). split_and!; [done..|]. apply ext_block_split. split.
  - rewrite <- (bytes_at_patch (bytes_of s1) (c * bsize s) (ehdr_bytes (mk_ehdr NYFS_EXTENT_MAGIC (Z.of_nat (length es')) (chain_head tl)))), length_ehdr.
    apply bytes_at_ext. intros a Ha. by rewrite Hw by lia.
  - rewrite <- He. apply bytes_at_ext. intros a Ha. rewrite Hw by lia. apply patch_other. rewrite length_ehdr. lia.
Qed.

(** Block [b], already taken, has become the last of the stream. *)
Definition appended (b : Z) s' ch' : Prop :=
  exists N, changes fd ch'.*1 s s' /\ free_blocks s' = free_blocks s ∖ list_to_set N /\ (NoDup N /\ (length N <= 1)%nat) /\
    (forall x, x ∈ N -> fd <= x /\ x ∈ free_blocks s) /\ own ch' ≡ₚ (own (pre ++ [(c, es)]) ++ [b]) ++ N /\
    data_blocks ch' = data_blocks (pre ++ [(c, es)]) ++ [b] /\ (pre ++ [(c, es)]).*1 ⊆ ch'.*1 /\ chain_head ch' = root /\
    chain_on (bytes_of s') (bsize s) ch' /\ Forall (fun p => exts_ok (bsize s) p.2) ch' /\ paid s (pre ++ [(c, es)]) ch' (b :: N) [b].

Lemma root_head es' tl : chain_head (pre ++ (c, es') :: tl) = root.
Proof. destruct Hst as (-> & _). by destruct pre as [|[] ?]. Qed.

(** The same blocks, the last one with the extents [es']. *)
Lemma appended_same b s' es' : changes fd [c] s s' -> free_blocks s' = free_blocks s ->
  ext_blocks es' = ext_blocks es ++ [b] -> exts_ok (bsize s) es' -> (length es' <= Datatypes.S (length es))%nat ->
  chain_on (bytes_of s') (bsize s) (pre ++ [(c, es')]) -> appended b s' (pre ++ [(c, es')]).
Proof.
  intros Hc Hf He Heo Hlen Hch. destruct (own_last pre c es es' b He) as [Hown Hd]. destruct last_facts as (_ & _ & _ & Hes & _).
  exists []. rewrite !fmap_app in *. cbn [fmap list_fmap fst] in *. split; [eapply changes_mono; [exact Hc|set_solver]|].
  split; [rewrite Hf; set_solver|]. split; [split; [constructor|cbn; lia]|]. split; [set_solver|]. rewrite app_nil_r.
  split_and!; [done..|apply root_head|done|apply Forall_app; split; [done|by apply Forall_singleton]|].
  split; [cbn [length]; lia|]. unfold spare. rewrite !last_snoc. cbn [length]. lia.
Qed.

Lemma extend_case es0 e b : es = es0 ++ [e] -> ext_start_block e + ext_length e = b -> fd <= b < total s ->
  wp (nyfs_raw_write (extent_at c (Z.of_nat (length es0)) s) (ext_bytes (mk_ext (ext_start_block e) (u64 (ext_length e + 1)))))
    (fun r s' => r = Ok tt /\ exists ch', appended b s' ch') s.
Proof.
  intros He Heb Hb. destruct last_facts as (_ & (Heo & H128 & Hbs) & _). pose proof (vol_ok_total _ _ _ _ _ _ _ Hok).
  assert (Hek : ext_ok e) by (rewrite Forall_forall in Heo; apply Heo; rewrite He; set_solver).
  destruct Hek as [Hek1 Hek2]. rewrite uw_small by lia.
  eapply wp_mono; [by apply (extend_last_spec es0 e)|]. intros r s' (-> & Hc & Hf & Hch). split; [done|].
  eexists. apply appended_same; [done..| | | |exact Hch].
  - rewrite He. apply ext_blocks_extended; [lia|done].
  - rewrite He in *. rewrite length_app in *. split; [|rewrite length_app; by split]. apply Forall_app in Heo as [Heo _].
    apply Forall_app. split; [done|]. apply Forall_singleton. split; cbn; lia.
  - rewrite He, !length_app. cbn [length]. lia.
Qed.

Lemma room_case b gb : fd <= b < total s -> (length es < 128)%nat -> 16 + 16 * (Z.of_nat (length es) + 1) <= bsize s ->
  wp (or_else (nyfs_raw_write (extent_at c (Z.of_nat (length es)) s) (ext_bytes (mk_ext b 1))) gb (fun _ =>
      _ <-? nyfs_raw_write (at_block c 0 s) (ehdr_bytes (mk_ehdr NYFS_EXTENT_MAGIC (Z.of_nat (length es) + 1) NYFS_BLKNO_NONE)) ;;
      ok root)) (fun r s' => r = Ok root /\ exists ch', appended b s' ch') s.
Proof.
  intros Hb H128 Hbs. destruct last_facts as (Hc & (Heo & _ & Hbs0) & Hpre & Hes & Hby). pose proof (vol_ok_total _ _ _ _ _ _ _ Hok).
  pose proof (vol_ok_facts _ _ _ _ _ HD _ _ Hok). pose proof (block_range _ _ _ _ _ HD _ _ _ Hok Hc).
  apply wp_or_else. unfold extent_at, EHDR_SIZE, EXTENT_SIZE.
  eapply wp_mono; [apply (write_block_spec fd); [done|done|lia|rewrite length_ext_bytes; lia|apply is_bytes_ext|]|].
  { intros E. apply (f_equal length) in E. by rewrite length_ext_bytes in E. }
  intros r s1 (-> & _ & Hc1 & Hf1 & Hw1). destruct (changes_vol_facts _ _ _ _ Hc1) as (Hbs1 & Ht1 & Hok1).
  apply wp_tryb. replace (at_block c 0 s) with (at_block c 0 s1) by (unfold at_block; by rewrite Hbs1).
  replace (Z.of_nat (length es) + 1) with (Z.of_nat (length (es ++ [mk_ext b 1]))) by (rewrite length_app; cbn [length]; lia).
  eapply wp_mono; [apply (write_header_spec (es ++ [mk_ext b 1]) []); [done|done|done|rewrite length_app; cbn [length]; lia|]|].
  { apply ext_block_split in Hby as [_ Hby]. rewrite length_app, bind_app, Nat2Z.inj_add, Z.mul_add_distr_l, bytes_at_app by lia.
    cbn [length mbind list_bind]. rewrite app_nil_r. f_equal.
    - rewrite <- Hby. apply bytes_at_ext. intros a Ha. rewrite Hw1 by lia. apply patch_other. lia.
    - rewrite <- (bytes_at_patch (bytes_of s) (c * bsize s + (16 + Z.of_nat (length es) * 16)) (ext_bytes (mk_ext b 1))), length_ext_bytes.
      replace (c * bsize s + 16 + 16 * Z.of_nat (length es)) with (c * bsize s + (16 + Z.of_nat (length es) * 16)) by lia.
      apply bytes_at_ext. intros a Ha. by rewrite Hw1 by lia. }
  intros r s2 (-> & Hc2 & Hf2 & Hb2). apply wp_ret. split; [done|]. eexists.
  assert (Hc' : changes fd [c] s s2) by by eapply changes_trans.
  apply appended_same; [exact Hc'|congruence|apply ext_blocks_added| |rewrite length_app; cbn [length]; lia|].
  - split; [|rewrite length_app; cbn [length]; lia]. apply Forall_app. split; [done|]. apply Forall_singleton. split; cbn; lia.
  - eapply chain_on_last; [apply (pre_unchanged [c]); [done|set_solver]|done|exact Hb2|done|apply Hst].
Qed.

Lemma own_new_block b c' :
  own (pre ++ [(c, es); (c', [mk_ext b 1])]) ≡ₚ (own (pre ++ [(c, es)]) ++ [b]) ++ [c'] /\
  data_blocks (pre ++ [(c, es); (c', [mk_ext b 1])]) = data_blocks (pre ++ [(c, es)]) ++ [b].
Proof.
  assert (Hd : data_blocks (pre ++ [(c, es); (c', [mk_ext b 1])]) = data_blocks (pre ++ [(c, es)]) ++ [b]).
  { rewrite !data_blocks_app, !data_blocks_cons. cbn [data_blocks mbind list_bind]. rewrite !app_nil_r, app_assoc. done. }
  split; [|done]. unfold own. rewrite Hd, !fmap_app. cbn [fmap list_fmap fst].
  change [c; c'] with ([c] ++ [c']). rewrite <- !app_assoc. do 2 apply Permutation_app_head.
  etrans; [apply Permutation_app_comm|]. by rewrite <- app_assoc.
Qed.

Lemma block_case b : fd <= b < total s -> b ∉ free_blocks s -> spare s (pre ++ [(c, es)]) = 0 ->
  wp (new_extent_blk <-? new_extent_block b ;;
      _ <-? nyfs_raw_write (at_block c 0 s) (ehdr_bytes (mk_ehdr NYFS_EXTENT_MAGIC (Z.of_nat (length es)) new_extent_blk)) ;;
      ok root) (fun r s' => match r with
    | Ok root' => root' = root /\ exists ch', appended b s' ch'
    | Err e => e = NdiskFull /\ free_blocks s = ∅ /\ changes fd [] s s' /\ free_blocks s' = {[b]}
    end) s.
Proof.
  intros Hb Hbf Hsp. destruct last_facts as (Hc & Heok & Hpre & Hes & Hby). pose proof Heok as (Heo & _ & Hbs0).
  pose proof (vol_ok_facts _ _ _ _ _ HD _ _ Hok) as Hvf. pose proof (block_range _ _ _ _ _ HD _ _ _ Hok Hc).
  apply wp_tryb. eapply wp_mono; [by apply (new_extent_block_spec fd)|]. intros [c'|e] s1; [|done].
  intros (Hct & Hcf & Hc1 & Hf1 & Hb1). destruct (changes_vol_facts _ _ _ _ Hc1) as (Hbs1 & Ht1 & Hok1).
  assert (Hown : forall x, x ∈ own (pre ++ [(c, es)]) -> x ∉ free_blocks s) by apply Hst.
  assert (Hcc : c <> c'). { intros <-. apply (Hown c); [|done]. unfold own. rewrite fmap_app. set_solver. }
  apply wp_tryb. replace (at_block c 0 s) with (at_block c 0 s1) by (unfold at_block; by rewrite Hbs1).
  assert (Hun1 : forall a n, c * bsize s <= a -> 0 <= n -> a + n <= c * bsize s + bsize s ->
    bytes_at (bytes_of s1) a n = bytes_at (bytes_of s) a n).
  { intros a n Ha Hn Hl. eapply changes_bytes; [exact Hc1|lia|lia|]. intros x Hx. split.
    - apply (blocks_not_meta _ _ _ _ _ fd [c] s x Hok); [by apply Forall_singleton|]. exists c. split; [set_solver|lia].
    - intros Hbl. apply Hcc. apply (in_blocks_same (bsize s) c [c'] x) in Hbl; [set_solver|lia|lia]. }
  eapply wp_mono; [apply (write_header_spec es [(c', [mk_ext b 1])]); [done|done|done|done|]|].
  { apply ext_block_split in Hby as [_ Hby]. rewrite <- Hby. apply Hun1; lia. }
  intros r s2 (-> & Hc2 & Hf2 & Hb2). apply wp_ret. split; [done|].
  exists (pre ++ [(c, es); (c', [mk_ext b 1])]), [c']. destruct (own_new_block b c') as [Hperm Hd].
  assert (Hsub : [c; c'] ⊆ (pre ++ [(c, es); (c', [mk_ext b 1])]).*1) by (rewrite fmap_app; set_solver).
  assert (Hc12 : changes fd [c; c'] s s2).
  { eapply changes_trans; [eapply changes_mono; [exact Hc1|set_solver]|]. eapply changes_mono; [exact Hc2|set_solver]. }
  split; [by eapply changes_mono|]. split; [rewrite Hf2, Hf1; set_solver|]. split; [split; [apply NoDup_singleton|done]|].
  split; [intros x ->%list_elem_of_singleton; split; [lia|done]|]. split; [done|]. split; [done|].
  split; [rewrite !fmap_app; set_solver|]. split; [apply root_head|]. split.
  - eapply chain_on_last; [apply (pre_unchanged [c; c']); [done|]|done|exact Hb2| |apply Hst].
    + intros x Hx. intros [->|[->|[]%not_elem_of_nil]%elem_of_cons]%elem_of_cons; [done|].
      apply (Hown c'); [|done]. unfold own. rewrite fmap_app. set_solver.
    + split; [|done]. change (chain_head []) with 0. rewrite <- Hb1. pose proof (block_range _ _ _ _ _ HD _ _ _ Hok Hct). cbn [length].
      eapply changes_bytes; [exact Hc2|lia|lia|]. rewrite Hbs1. intros x Hx. split.
      * apply (blocks_not_meta _ _ _ _ _ fd [c'] s1 x Hok1); [apply Forall_singleton; lia|]. exists c'. split; [set_solver|lia].
      * intros Hbl. apply Hcc. apply (in_blocks_same (bsize s) c' [c] x) in Hbl; [set_solver|lia|lia].
  - split; [apply Forall_app; split; [done|]; pose proof (vol_ok_total _ _ _ _ _ _ _ Hok); apply Forall_cons; split; [done|];
      apply Forall_singleton; split; [apply Forall_singleton; split; cbn; lia|cbn [length snd]; lia]|]. split; [cbn [length]; lia|].
    rewrite Hsp. unfold spare. change (pre ++ [(c, es); (c', [mk_ext b 1])]) with (pre ++ [(c, es)] ++ [(c', [mk_ext b 1])]). rewrite app_assoc, last_snoc.
    cbn [length]. lia.
Qed.
End last.

(** No room for one more block: none is free, or the only one is needed for
    the extent block. *)
Definition short s ch : Prop :=
  base.size (free_blocks s) = 0%nat \/ base.size (free_blocks s) = 1%nat /\ spare s ch = 0.

(** What an attempt in vain leaves: everything as it was, the volume full. *)
Definition append_failed (fd : Z) s root ch (e : Nerror) s' : Prop :=
  e = NdiskFull /\ short s ch /\ stream_ok fd s' root ch /\ free_blocks s' = free_blocks s /\
  changes fd [] s s'.

Lemma changes_nil_frame fd s s' root ch : vol_ok fd s -> stream_ok fd s root ch -> changes fd [] s s' ->
  free_blocks s' ⊆ free_blocks s -> stream_ok fd s' root ch.
Proof.
  intros Hok Hst Hc Hf. eapply stream_frame; [exact Hok|exact Hst|exact Hc|set_solver|].
  intros b Hb. destruct Hst as (_ & _ & _ & _ & Hin). specialize (Hin b Hb). set_solver.
Qed.

(** The cases for a stream that has blocks, once [b] is taken. *)
Lemma append_last_spec fd s root pre c es b : vol_ok fd s -> stream_ok fd s root (pre ++ [(c, es)]) ->
  fd <= b < total s -> b ∉ free_blocks s ->
  wp (or_else (last_extent_block root) (void (nyfs_free_block b)) (fun '(last, hdr) =>
    let count := eh_extent_count hdr in
    or_else (read_extents last count) (void (nyfs_free_block b)) (fun extents =>
    let e := nth (Z.to_nat (count - 1)) extents (mk_ext 0 0) in
    if (0 <? count) && (u64 (ext_start_block e + ext_length e) =? b) then fun s =>
      (_ <-? nyfs_raw_write (extent_at last (count - 1) s) (ext_bytes (mk_ext (ext_start_block e) (u64 (ext_length e + 1)))) ;;
       ok root) s
    else fun s =>
      if (count <? NYFS_MAX_EXTENTS_PER_BLOCK) && ((count + 1) * EXTENT_SIZE + EHDR_SIZE <=? bsize s) then
        or_else (nyfs_raw_write (extent_at last count s) (ext_bytes (mk_ext b 1))) (void (nyfs_free_block b)) (fun _ =>
          _ <-? nyfs_raw_write (at_block last 0 s) (ehdr_bytes (mk_ehdr (eh_magic hdr) (count + 1) (eh_next_block hdr))) ;;
          ok root) s
      else
        (new_extent_blk <-? new_extent_block b ;;
         _ <-? nyfs_raw_write (at_block last 0 s) (ehdr_bytes (mk_ehdr (eh_magic hdr) count new_extent_blk)) ;;
         ok root) s)))
   (fun r s' => exists s0, untouched s s0 /\ match r with
    | Ok root' => root' = root /\ exists ch', appended fd s0 root c pre es b s' ch'
    | Err e => e = NdiskFull /\ free_blocks s0 = ∅ /\ changes fd [] s0 s' /\ free_blocks s' = {[b]} /\ spare s (pre ++ [(c, es)]) = 0
    end) s.
Proof.
  intros Hok Hst Hb Hbf. pose proof (vol_ok_facts _ _ _ _ _ HD _ _ Hok) as Hvf.
  apply wp_or_else. eapply wp_mono; [by apply (last_extent_block_spec fd s root pre c es)|]. intros r s1 (-> & Hun1).
  destruct (stream_untouched _ _ _ _ _ Hok Hst Hun1) as (Hok1 & Hst1 & Hf1 & Hbs1 & Ht1). cbn zeta. cbn [eh_extent_count eh_magic eh_next_block].
  apply wp_or_else. eapply wp_mono; [by apply (read_elem_spec fd s1 root pre c es [])|]. intros r s2 (-> & Hun2).
  destruct (stream_untouched _ _ _ _ _ Hok1 Hst1 Hun2) as (Hok2 & Hst2 & Hf2 & Hbs2 & Ht2).
  assert (Hun : untouched s s2) by by eapply untouched_trans.
  assert (Hb2 : fd <= b < total s2) by congruence. assert (Hbf2 : b ∉ free_blocks s2) by congruence.
  destruct (last_facts _ _ _ _ _ _ Hok2 Hst2) as (Hc & (Heo & _ & Hes) & _).
  case_if.
  - destruct es as [|e es0 _] using rev_ind; [done|]. rewrite length_app in *. cbn [length] in *.
    replace (Z.of_nat (length es0 + 1) - 1) with (Z.of_nat (length es0)) in * by lia. rewrite Nat2Z.id in *.
    rewrite app_nth2, Nat.sub_diag in * by lia. cbn [nth] in *.
    assert (He : ext_start_block e + ext_length e = b).
    { apply Forall_app in Heo as [_ [[He1 He2] _]%Forall_cons]. rewrite uw_small in *; [done|].
      pose proof (data_in_range _ _ _ _ _ HD _ _ _ _ Hok2 Hst2) as Hdr. rewrite data_blocks_app, data_blocks_cons, ext_blocks_app, ext_blocks_cons in Hdr.
      rewrite !Forall_app in Hdr. destruct Hdr as (_ & (_ & Hdr & _) & _). rewrite Forall_forall in Hdr.
      specialize (Hdr (ext_start_block e + ext_length e - 1)). rewrite elem_of_seqZ in Hdr.
      pose proof (vol_ok_total _ _ _ _ _ _ _ Hok2). lia. }
    unfold wp at 1. apply (wp_tryb (nyfs_raw_write _ _)).
    eapply wp_mono; [by apply (extend_case fd s2 root c pre (es0 ++ [e]) Hok2 Hst2 es0 e b)|].
    intros r s3 (-> & Ha). apply wp_ret. by exists s2.
  - unfold wp at 1. case_if.
    + eapply (wp_mono (or_else _ _ _)); [apply (room_case fd s2 root c pre es Hok2 Hst2 b); [done| |]|].
      * unfold NYFS_MAX_EXTENTS_PER_BLOCK in *. lia.
      * unfold EXTENT_SIZE, EHDR_SIZE in *. lia.
      * intros r s3 (-> & Ha). by exists s2.
    + assert (Hsp : spare s (pre ++ [(c, es)]) = 0).
      { unfold spare. rewrite last_snoc, <- Hbs1, <- Hbs2. destruct (last_facts _ _ _ _ _ _ Hok2 Hst2) as (_ & (_ & H128 & _) & _).
        pose proof (block_extents_range (bsize s2)). pose proof (block_extents_le (bsize s2) (Z.of_nat (length es))).
        pose proof (block_extents_le (bsize s2) (Z.of_nat (length es) + 1)). unfold NYFS_MAX_EXTENTS_PER_BLOCK, EXTENT_SIZE, EHDR_SIZE in *. lia. }
      eapply (wp_mono (tryb _ _)); [apply (block_case fd s2 root c pre es Hok2 Hst2 b); [done..|by rewrite (spare_bsize s) by congruence]|].
      intros [r|e] s3 Ha; exists s2; split; [done..|]. by destruct Ha as (? & ? & ? & ?).
Qed.

Lemma appended_grown fd s s1 s0 root pre c es b s' ch' : vol_ok fd s -> stream_ok fd s root (pre ++ [(c, es)]) ->
  changes fd [] s s1 -> free_blocks s1 = free_blocks s ∖ {[b]} -> fd <= b -> b ∈ free_blocks s -> untouched s1 s0 ->
  appended fd s0 root c pre es b s' ch' -> grown fd s (pre ++ [(c, es)]) s' root ch' [b].
Proof.
  intros Hok Hst Hc1 Hf1 Hbfd Hb Hun (N & Hc & Hf & [Hnd HN1] & HN & Hown & Hd & Hsub & Hhd & Hch & Hes & Hpd1 & Hpd2).
  destruct (changes_vol_facts _ _ _ _ Hc1) as (Hbs1 & Ht1 & Hok1).
  destruct (changes_untouched _ _ _ _ _ fd [] s1 s0 Hok1 Hun) as [Hc0 Hf0].
  destruct (changes_vol_facts _ _ _ _ Hc0) as (Hbs0 & Ht0 & Hok0).
  rewrite <- Hhd. eapply (grown_intro fd s root _ s' ch' [b] (b :: N)); [exact Hok|exact Hst| | | | | |exact Hd|exact Hsub| | | |].
  - eapply changes_trans; [|exact Hc]. eapply changes_trans; eapply changes_mono; [exact Hc1| |exact Hc0|]; set_solver.
  - rewrite Hf, Hf0, Hf1. set_solver.
  - constructor; [|done]. intros Hin. apply HN in Hin as [_ Hin]. set_solver.
  - intros x [->|Hx]%elem_of_cons; [done|]. apply HN in Hx as [? Hx]. split; [done|]. set_solver.
  - rewrite Hown, <- app_assoc. done.
  - by rewrite Hbs0, Hbs1 in Hch.
  - by rewrite Hbs0, Hbs1 in Hes.
  - split; [exact Hpd1|]. rewrite !(spare_bsize s s0), Hbs0, Hbs1 in Hpd2 by congruence. exact Hpd2.
  - intros _. rewrite Hhd. apply Hst.
Qed.

(** One block more, or the volume is full and all is as before. *)
Lemma append_one_spec fd s root ch : vol_ok fd s -> stream_ok fd s root ch ->
  wp (nyfs_extent_append_one root) (fun r s' => match r with
    | Ok root' => exists ch' b, grown fd s ch s' root' ch' [b]
    | Err e => append_failed fd s root ch e s'
    end) s.
Proof.
  intros Hok Hst. pose proof (vol_ok_facts _ _ _ _ _ HD _ _ Hok) as Hvf.
  apply wp_tryb. eapply wp_mono; [by apply (alloc_block_set _ _ _ _ _ HD fd)|]. intros [b|e] s1.
  2: { intros (Hc & -> & He & He1). split; [done|]. split; [left; by rewrite He, size_empty|]. split; [|split; [by rewrite He, He1|done]]. apply (changes_nil_frame fd s); [done..|]. by rewrite He, He1. }
  intros (Hc & Hbfd & Hb & _ & Hf1). destruct (changes_vol_facts _ _ _ _ Hc) as (Hbs1 & Ht1 & Hok1).
  assert (Hst1 : stream_ok fd s1 root ch) by (apply (changes_nil_frame fd s); [done..|set_solver]).
  assert (Hb1 : fd <= b < total s1) by (apply free_blocks_spec in Hb; lia). assert (Hbf : b ∉ free_blocks s1) by set_solver.
  assert (Hback : forall s', free_blocks s1 = ∅ -> free_blocks s' = {[b]} -> free_blocks s' = free_blocks s).
  { intros s' He ->. rewrite Hf1 in He. apply set_eq. intros x. split; [set_solver|]. intros Hx.
    destruct (decide (x = b)); set_solver. }
  destruct ch as [|[c es] pre _] using rev_ind.
  - destruct Hst as (-> & Hst). cbn [chain_head]. change (NYFS_BLKNO_NONE =? NYFS_BLKNO_NONE) with true. cbn iota.
    eapply wp_mono; [by apply (new_extent_block_spec fd)|]. intros [c|e] s2.
    + intros (Hct & Hcf & Hc2 & Hf2 & Hb2). exists [(c, [mk_ext b 1])], b.
      eapply (grown_intro fd s 0 [] s2 [(c, [mk_ext b 1])] [b] [b; c]); [exact Hok|by split| | | | | |reflexivity| | | | |done].
      * eapply changes_trans; [eapply changes_mono; [exact Hc|set_solver]|exact Hc2].
      * rewrite Hf2, Hf1. set_solver.
      * constructor; [|apply NoDup_singleton]. intros ->%list_elem_of_singleton. done.
      * intros x [->|[->|[]%not_elem_of_nil]%elem_of_cons]%elem_of_cons; [done|]. split; [lia|set_solver].
      * apply (perm_swap b c []).
      * apply list_subseteq_nil.
      * split; [|done]. rewrite Hbs1 in Hb2. exact Hb2.
      * pose proof (vol_ok_total _ _ _ _ _ _ _ Hok). apply Forall_singleton. split; [apply Forall_singleton; split; cbn; lia|]. cbn. lia.
      * split; [cbn [length]; lia|]. unfold spare. cbn [last length]. lia.
    + intros (-> & He & Hc2 & Hf2). assert (Hc' : changes fd [] s s2) by by eapply changes_trans.
      split; [done|]. split; [right; rewrite <- (Hback s2), Hf2, size_singleton by done; by split|]. split; [|split; [by apply Hback|done]]. apply (changes_nil_frame fd s); [done|by split|done|].
      by rewrite (Hback s2).
  - assert (Hroot : root <> 0).
    { destruct Hst as (-> & _ & _ & _ & Hin). assert (Hhd : exists x, chain_head (pre ++ [(c, es)]) = x /\ x ∈ own (pre ++ [(c, es)])).
      { destruct pre as [|[c' es'] pre]; eexists; (split; [reflexivity|]); unfold own; cbn; set_solver. }
      destruct Hhd as (x & -> & Hx). destruct (Hin x Hx). lia. }
    unfold NYFS_BLKNO_NONE. rewrite (proj2 (Z.eqb_neq root 0)) by done.
    eapply wp_mono; [by apply (append_last_spec fd s1 root pre c es b)|]. intros [root'|e] s2 (s0 & Hun & H).
    + destruct H as (-> & ch' & Ha). exists ch', b. by eapply appended_grown.
    + destruct H as (-> & He & Hc2 & Hf2 & Hsp).
      destruct (changes_untouched _ _ _ _ _ fd [] s1 s0 Hok1 Hun) as [Hc0 Hf0].
      assert (Hc' : changes fd [] s s2) by (eapply changes_trans; [|exact Hc2]; by eapply changes_trans).
      assert (Hfs : free_blocks s2 = free_blocks s) by (apply Hback; congruence).
      split; [done|]. split; [right; rewrite <- Hfs, Hf2, size_singleton, (spare_bsize s1) by congruence; by split|]. split; [|done]. apply (changes_nil_frame fd s); [done..|]. by rewrite Hfs.
Qed.
End grow.

(** ** Giving a stream back

    [nyfs_free_extent_chain] gives back the blocks of a stream, those of the
    chain and those of the data, and no others. *)

Section release.
Context {D : Type} (read : nyfs_disk_read_fn D) (write : nyfs_disk_write_fn D) (k size : Z) (img : D -> Z -> Z).
Context (HD : disk_laws read write k size img).
Abbreviation nst := (nst D).
Abbreviation vol_ok := (vol_ok read write k size img).
Abbreviation untouched := (untouched size img).
Abbreviation free_blocks := (free_blocks img).
Abbreviation changes := (changes read write k size img).
Abbreviation stream_ok := (stream_ok img).
Implicit Types (s : nst) (ch : chain).

(** Blocks in use, and blocks given back. *)
Definition taken (fd : Z) s (l : list Z) : Prop := NoDup l /\ forall b, b ∈ l -> fd <= b < total s /\ b ∉ free_blocks s.
Definition given (fd : Z) (l : list Z) s s' : Prop :=
  vol_ok fd s /\ changes fd [] s s' /\ free_blocks s' = list_to_set l ∪ free_blocks s.

Lemma given_untouched fd s s' : vol_ok fd s -> untouched s s' -> given fd [] s s'.
Proof. intros Hok Hun. destruct (changes_untouched _ _ _ _ _ fd [] s s' Hok Hun) as [Hc Hf]. split; [done|]. split; [done|]. rewrite Hf. set_solver. Qed.

Lemma given_trans fd l1 l2 s1 s2 s3 : given fd l1 s1 s2 -> given fd l2 s2 s3 -> given fd (l1 ++ l2) s1 s3.
Proof.
  intros (Hok & Hc1 & Hf1) (_ & Hc2 & Hf2). split; [done|]. split; [by eapply changes_trans|]. rewrite Hf2, Hf1, list_to_set_app_L. set_solver.
Qed.

Lemma taken_given fd s s' l1 l2 : taken fd s (l1 ++ l2) -> given fd l1 s s' -> taken fd s' l2.
Proof.
  intros [Hnd Hin] (_ & (_ & Hl & _) & Hf). apply NoDup_app in Hnd as (_ & Hd & Hnd). split; [done|]. intros b Hb.
  rewrite (layout_total _ _ Hl), Hf, elem_of_union, elem_of_list_to_set. destruct (Hin b ltac:(set_solver)) as [Hr Hn].
  split; [done|]. intros [H|H]; [by apply (Hd b)|done].
Qed.

Lemma taken_app fd s l1 l2 : taken fd s (l1 ++ l2) -> taken fd s l1.
Proof. intros [Hnd Hin]. apply NoDup_app in Hnd as (Hnd & _). split; [done|]. set_solver. Qed.

Lemma free_one fd s b : vol_ok fd s -> taken fd s [b] -> wp (nyfs_free_block b) (fun r s' => r = Ok tt /\ given fd [b] s s') s.
Proof.
  intros Hok [_ Hin]. destruct (Hin b ltac:(set_solver)) as [Hr Hn].
  eapply wp_mono; [by apply (free_block_set _ _ _ _ _ HD fd)|]. intros r s' (-> & Hc & Hf). split; [done|]. split; [done|]. split; [done|].
  rewrite Hf. set_solver.
Qed.

Lemma given_ok fd l s s' : given fd l s s' -> vol_ok fd s'.
Proof. intros (_ & Hc & _). by eapply changes_vol_ok. Qed.

Lemma free_extent_blocks_spec fd s e : vol_ok fd s -> ext_ok e -> taken fd s (seqZ (ext_start_block e) (ext_length e)) ->
  wp (free_extent_blocks e) (fun r s' => r = Ok tt /\ given fd (seqZ (ext_start_block e) (ext_length e)) s s') s.
Proof.
  intros Hok (Hs & Hl) Ht. pose proof (vol_ok_total _ _ _ _ _ _ _ Hok).
  apply (wp_loop _ _ (fun n j s' => n = ext_length e - j /\ 0 <= j <= ext_length e /\ given fd (seqZ (ext_start_block e) j) s s')
    _ (ext_length e)); [|lia|].
  { split; [lia|]. split; [lia|]. by apply given_untouched. }
  intros n j s1 (-> & Hj & Hg). case_if.
  - replace (ext_length e) with (j + (1 + (ext_length e - j - 1))) in Ht by lia. rewrite seqZ_app in Ht by lia.
    pose proof (taken_given _ _ _ _ _ Ht Hg) as Ht1. rewrite seqZ_app in Ht1 by lia.
    pose proof (taken_app _ _ _ _ Ht1) as Hb.
    assert (E1 : seqZ (ext_start_block e + j) 1 = [ext_start_block e + j]) by (rewrite seqZ_cons, seqZ_nil by lia; done).
    rewrite E1 in Hb. destruct Hb as [Hnd Hin]. destruct (Hin _ ltac:(left)) as [Hr _].
    assert (Htot : total s1 = total s) by (destruct Hg as (_ & (_ & Hly & _) & _); by apply layout_total). pose proof (vol_ok_facts _ _ _ _ _ HD _ _ Hok).
    rewrite uw_small by lia. apply wp_stepb. eapply wp_mono; [apply (free_one fd s1); [by eapply given_ok|by split]|].
    intros r s2 (-> & Hg2). apply wp_ret. exists (ext_length e - (j + 1)). split; [|lia]. split; [lia|]. split; [lia|].
    rewrite seqZ_app, E1 by lia. by eapply given_trans.
  - apply wp_ret. split; [done|]. by replace (ext_length e) with j by lia.
Qed.

Lemma free_extents_spec fd es s : vol_ok fd s -> Forall ext_ok es -> taken fd s (ext_blocks es) ->
  wp (free_extents es) (fun r s' => r = Ok tt /\ given fd (ext_blocks es) s s') s.
Proof.
  intros Hok Hes. revert s Hok. induction Hes as [|e es He _ IH]; intros s Hok Ht.
  - split; [done|]. by apply given_untouched.
  - rewrite ext_blocks_cons in *. cbn [free_extents]. apply wp_tryb.
    eapply wp_mono; [apply (free_extent_blocks_spec fd s e Hok He); by eapply taken_app|]. intros r s1 (-> & Hg1).
    eapply wp_mono; [apply IH; [by eapply given_ok|by eapply taken_given]|]. intros r s2 (-> & Hg2). split; [done|]. by eapply given_trans.
Qed.

Lemma stream_tail fd s root c es ch : stream_ok fd s root ((c, es) :: ch) -> stream_ok fd s (chain_head ch) ch.
Proof.
  intros (_ & Hch & Hes & Hnd & Hin). apply Forall_cons in Hes as [_ Hes]. destruct Hch as [_ Hch].
  split; [done|]. split; [done|]. split; [done|]. unfold own in *. rewrite data_blocks_cons, fmap_cons in *. cbn [fst] in *. split.
  - apply NoDup_cons in Hnd as [_ Hnd]. rewrite (Permutation_app_swap_app _ (ext_blocks es)) in Hnd. by apply NoDup_app in Hnd as (_ & _ & ?).
  - intros b Hb. apply Hin. set_solver.
Qed.

Lemma stream_taken fd s root ch : stream_ok fd s root ch -> taken fd s (own ch).
Proof. intros (_ & _ & _ & Hnd & Hin). by split. Qed.

Lemma free_chain_spec fd s root ch : vol_ok fd s -> stream_ok fd s root ch ->
  wp (nyfs_free_extent_chain root) (fun r s' => exists l, r = Ok tt /\ l ≡ₚ own ch /\ given fd l s s') s.
Proof.
  intros Hok Hst. pose proof (own_bound _ _ _ _ _ HD _ _ _ _ Hok Hst) as Hob. pose proof (vol_ok_total _ _ _ _ _ _ _ Hok).
  pose proof (vol_ok_facts _ _ _ _ _ HD _ _ Hok).
  unfold own in Hob. rewrite length_app, length_fmap in Hob.
  apply (wp_loop _ _ (fun n cur s' => exists ch' l, n = Z.of_nat (length ch') /\ l ++ own ch' ≡ₚ own ch /\ stream_ok fd s' cur ch' /\ given fd l s s')
    _ (Z.of_nat (length ch))); [|lia|].
  { exists ch, []. split_and!; try done. by apply given_untouched. }
  intros n cur s1 (ch1 & l & -> & Hperm & Hst1 & Hg). pose proof (given_ok _ _ _ _ Hg) as Hok1. pose proof Hst1 as (-> & _).
  destruct ch1 as [|[c es] ch1].
  { rewrite app_nil_r in Hperm. apply wp_ret. by exists l. }
  cbn [chain_head]. destruct (chain_elem _ _ _ _ _ HD fd s1 _ [] c es ch1 Hok1 Hst1) as (Hc & (Hes & _) & _).
  destruct (read_elem_spec _ _ _ _ _ HD fd s1 _ [] c es ch1 Hok1 Hst1) as [Hr _].
  unfold NYFS_BLKNO_NONE. rewrite (proj2 (Z.eqb_neq c 0)) by (pose proof (vol_ok_facts _ _ _ _ _ HD _ _ Hok1); lia).
  apply wp_stepb. eapply wp_mono; [exact Hr|]. intros r s2 (-> & Hun2). cbn [eh_extent_count eh_next_block].
  destruct (stream_untouched _ _ _ _ _ HD _ _ _ _ _ Hok1 Hst1 Hun2) as (Hok2 & Hst2 & _).
  destruct (read_elem_spec _ _ _ _ _ HD fd s2 _ [] c es ch1 Hok2 Hst2) as [_ Hr2].
  apply wp_stepb. eapply wp_mono; [exact Hr2|]. intros r s3 (-> & Hun3).
  destruct (stream_untouched _ _ _ _ _ HD _ _ _ _ _ Hok2 Hst2 Hun3) as (Hok3 & Hst3 & _).
  assert (Hown : own ((c, es) :: ch1) ≡ₚ ext_blocks es ++ [c] ++ own ch1).
  { unfold own. rewrite data_blocks_cons, fmap_cons. cbn [fst]. rewrite (Permutation_app_swap_app (c :: ch1.*1)). cbn. by rewrite Permutation_middle. }
  pose proof (stream_taken _ _ _ _ Hst3) as Ht3.
  assert (Ht3' : taken fd s3 (ext_blocks es ++ [c] ++ own ch1)).
  { destruct (stream_taken _ _ _ _ Hst3) as [Hnd Hin]. split; [by rewrite <- Hown|]. intros b Hb. apply Hin. by rewrite Hown. }
  apply wp_stepb. eapply wp_mono; [apply (free_extents_spec fd es s3 Hok3 Hes); by eapply taken_app|]. intros r s4 (-> & Hg4).
  pose proof (taken_given _ _ _ _ _ Ht3' Hg4) as Ht4. apply wp_stepb.
  eapply wp_mono; [apply (free_one fd s4); [by eapply given_ok|by eapply taken_app]|]. intros r s5 (-> & Hg5). apply wp_ret.
  exists (Z.of_nat (length ch1)). split; [|cbn [length]; lia]. exists ch1, (l ++ (([] ++ []) ++ (ext_blocks es ++ [c]))).
  split; [done|]. split; [rewrite <- Hperm, Hown; by rewrite <- !app_assoc|].
  assert (Hg35 : given fd (ext_blocks es ++ [c]) s3 s5) by by eapply given_trans. split.
  - rewrite app_assoc in Ht3'. destruct (taken_given _ _ _ _ _ Ht3' Hg35) as [_ Hin5]. destruct Hg35 as (_ & Hc35 & _).
    eapply (stream_frame _ _ _ _ _ HD); [exact Hok3|by eapply stream_tail|exact Hc35|set_solver|]. intros b Hb. by apply Hin5.
  - eapply given_trans; [exact Hg|]. eapply given_trans; [|exact Hg35]. eapply given_trans; by apply given_untouched.
Qed.
End release.
