(* ===== verification/NyfsReadWrite.v ===== *)
(** * Reading and writing NYFS streams

    A stream is an array of bytes, one block after the other: reading gives a
    part of it, cut at its end; writing first grows it as far as the write
    reaches, then replaces the bytes.  Other streams keep their contents. *)

From S2P Require Import Prelude Types Loops Bytes NyfsDisk Nyfs NyfsImage NyfsIo NyfsAlloc NyfsFree NyfsInodes NyfsStream NyfsGrow.

Lemma patch_app f off a b o : patch (patch f off a) (off + Z.of_nat (length a)) b o = patch f off (a ++ b) o.
Proof.
  unfold patch. rewrite length_app. case_if.
  - rewrite (proj2 (Z.leb_le off o)), (proj2 (Z.ltb_lt o _)) by lia. cbn [andb]. rewrite app_nth2 by lia. f_equal. lia.
  - destruct ((off <=? o) && (o <? off + Z.of_nat (length a))) eqn:E1; bool_simpl.
    + rewrite (proj2 (Z.leb_le off o)), (proj2 (Z.ltb_lt o (off + Z.of_nat (length a + length b)))) by lia. cbn [andb].
      rewrite app_nth1 by lia. done.
    + destruct ((off <=? o) && (o <? off + Z.of_nat (length a + length b))) eqn:E2; bool_simpl; [lia|done].
Qed.

Lemma patch_nil f off o : patch f off [] o = f o.
Proof. unfold patch. cbn [length]. case_if; [lia|done]. Qed.

Lemma patch_ext f g off bs o : (~ (off <= o < off + Z.of_nat (length bs)) -> f o = g o) -> patch f off bs o = patch g off bs o.
Proof. intros H. unfold patch. case_if; [done|]. apply H. lia. Qed.

Lemma size_difference_list (X : gset Z) (N : list Z) : (base.size X <= base.size (X ∖ list_to_set N) + length N)%nat.
Proof.
  assert (Hs : (base.size (list_to_set N : gset Z) <= length N)%nat).
  { induction N as [|x N IH]; [done|]. rewrite list_to_set_cons. rewrite size_union_alt, size_singleton. cbn [length].
    pose proof (subseteq_size (list_to_set N ∖ {[x]}) (list_to_set N : gset Z) ltac:(set_solver)). lia. }
  assert (Hsub : X ⊆ X ∖ list_to_set N ∪ list_to_set N) by (intros x Hx; destruct (decide (x ∈ (list_to_set N : gset Z))); set_solver).
  apply subseteq_size in Hsub. rewrite size_union_alt in Hsub.
  pose proof (subseteq_size (list_to_set N ∖ (X ∖ list_to_set N)) (list_to_set N : gset Z) ltac:(set_solver)). lia.
Qed.

Section rw.
Context {D : Type} (read : nyfs_disk_read_fn D) (write : nyfs_disk_write_fn D) (k size : Z) (img : D -> Z -> Z).
Context (HD : disk_laws read write k size img).
Abbreviation nst := (nst D).
Abbreviation vol_ok := (vol_ok read write k size img).
Abbreviation bytes_of := (bytes_of img).
Abbreviation untouched := (untouched size img).
Abbreviation unchanged := (unchanged size img).
Abbreviation free_blocks := (free_blocks img).
Abbreviation changes := (changes read write k size img).
Abbreviation stream_ok := (stream_ok img).
Abbreviation grown := (grown read write k size img).
Abbreviation view := (view img).
Abbreviation short := (short img).
Implicit Types (s : nst) (ch : chain).

(** ** The number of blocks *)

Lemma sum_lengths es t : Forall ext_ok es -> 0 <= t -> t + Z.of_nat (length (ext_blocks es)) < 2 ^ 64 ->
  fold_left (fun t e => u64 (t + ext_length e)) es t = t + Z.of_nat (length (ext_blocks es)).
Proof.
  intros Hes. revert t. induction Hes as [|e es (_ & He) _ IH]; intros t Ht Hl; [cbn; lia|].
  rewrite ext_blocks_cons, length_app, length_seqZ in *. cbn [fold_left]. rewrite uw_small by lia. rewrite IH by lia. lia.
Qed.

Lemma total_blocks_spec fd s root ch : vol_ok fd s -> stream_ok fd s root ch ->
  wp (nyfs_extent_total_blocks root) (fun r s' => r = Ok (Z.of_nat (length (data_blocks ch))) /\ untouched s s') s.
Proof.
  intros Hok Hst. pose proof (own_bound _ _ _ _ _ HD _ _ _ _ Hok Hst) as Hob. pose proof (vol_ok_facts _ _ _ _ _ HD _ _ Hok) as Hvf.
  pose proof (vol_ok_total _ _ _ _ _ _ _ Hok) as Htt. unfold own in Hob. rewrite length_app, length_fmap in Hob.
  apply (wp_loop _ _ (fun n '(cur, t) s' => exists pre ch', ch = pre ++ ch' /\ n = Z.of_nat (length ch') /\ cur = chain_head ch' /\
    t = Z.of_nat (length (data_blocks pre)) /\ untouched s s') _ (Z.of_nat (length ch))); [|lia|].
  { exists [], ch. destruct Hst as (-> & _). by split_and!. }
  intros n [cur t] s1 (pre & ch' & -> & -> & -> & -> & Hun).
  destruct (stream_untouched _ _ _ _ _ HD _ _ _ _ _ Hok Hst Hun) as (Hok1 & Hst1 & _).
  destruct ch' as [|[c es] ch']; cbn [chain_head].
  { change (NYFS_BLKNO_NONE =? NYFS_BLKNO_NONE) with true. cbn iota. apply wp_ret. by rewrite app_nil_r. }
  destruct (chain_elem _ _ _ _ _ HD fd s1 root pre c es ch' Hok1 Hst1) as (Hc & (Hes & _) & _).
  destruct (read_elem_spec _ _ _ _ _ HD fd s1 root pre c es ch' Hok1 Hst1) as [Hr _].
  unfold NYFS_BLKNO_NONE. rewrite (proj2 (Z.eqb_neq c 0)) by (pose proof (vol_ok_facts _ _ _ _ _ HD _ _ Hok1); lia).
  apply wp_stepb. eapply wp_mono; [exact Hr|]. intros r s2 (-> & Hun2). cbn [eh_extent_count eh_next_block].
  destruct (stream_untouched _ _ _ _ _ HD _ _ _ _ _ Hok1 Hst1 Hun2) as (Hok2 & Hst2 & _).
  destruct (read_elem_spec _ _ _ _ _ HD fd s2 root pre c es ch' Hok2 Hst2) as [_ Hr2].
  apply wp_stepb. eapply wp_mono; [exact Hr2|]. intros r s3 (-> & Hun3).
  apply wp_ret. exists (Z.of_nat (length ch')). split; [|cbn [length]; lia]. exists (pre ++ [(c, es)]), ch'.
  rewrite data_blocks_app, data_blocks_cons, !length_app in Hob. rewrite <- app_assoc.
  split; [done|]. split; [done|]. split; [done|]. split.
  - rewrite sum_lengths by (done || lia). rewrite data_blocks_app, data_blocks_cons, app_nil_r, length_app. lia.
  - eapply untouched_trans; [exact Hun|]. by eapply untouched_trans.
Qed.

(** ** Reading *)

Lemma view_block s (l : list Z) (o n : Z) b : 0 < bsize s -> 0 <= o -> l !! Z.to_nat (o / bsize s) = Some b ->
  o mod bsize s + n <= bsize s -> bytes_at (view s l) o n = bytes_at (bytes_of s) (b * bsize s + o mod bsize s) n.
Proof.
  intros Hbs Ho Hb Hn. unfold bytes_at. destruct (Z.le_gt_cases n 0); [by rewrite !seqZ_nil by lia|].
  apply list_eq. intros i. rewrite !list_lookup_fmap. destruct (decide (Z.of_nat i < n)).
  2: { by rewrite !lookup_seqZ_ge by lia. }
  rewrite !lookup_seqZ_lt by lia. cbn [fmap option_fmap option_map]. f_equal. unfold NyfsStream.view.
  pose proof (Z.div_mod o (bsize s) ltac:(lia)). pose proof (Z.mod_pos_bound o (bsize s) ltac:(lia)).
  rewrite <- (Z.div_unique (o + Z.of_nat i) (bsize s) (o / bsize s) (o mod bsize s + Z.of_nat i)) by lia.
  rewrite <- (Z.mod_unique (o + Z.of_nat i) (bsize s) (o / bsize s) (o mod bsize s + Z.of_nat i)) by lia.
  rewrite (nth_lookup_Some _ _ _ _ Hb). f_equal. lia.
Qed.

(** How much of [[off, off + n)] a stream has. *)
Definition avail s ch (off n : Z) : Z := Z.max 0 (Z.min n (stream_len s ch - off)).

Lemma chunk_range bs off done n : 0 < bs -> 0 <= off -> 0 <= done < n -> off + n < 2 ^ 64 ->
  let '(lb, intra, chunk) := stream_chunk bs off done n in
  lb = (off + done) / bs /\ intra = (off + done) mod bs /\ 0 < chunk <= n - done /\ 0 <= intra /\ intra + chunk <= bs /\ 0 <= lb < 2 ^ 64.
Proof.
  intros Hbs Ho Hd Hn. unfold stream_chunk. rewrite (uw_small 64) by lia.
  pose proof (Z.mod_pos_bound (off + done) bs Hbs). assert (0 <= (off + done) / bs) by (apply Z.div_pos; lia).
  assert ((off + done) / bs <= off + done) by (apply Z.div_le_upper_bound; nia). case_if; lia.
Qed.

Lemma read_at_spec fd s root ch off n : vol_ok fd s -> stream_ok fd s root ch -> 0 <= off -> 0 <= n -> off + n < 2 ^ 64 ->
  wp (nyfs_extent_read_at root off n) (fun r s' =>
    r = (Nok, bytes_at (view s (data_blocks ch)) off (avail s ch off n), avail s ch off n) /\ untouched s s') s.
Proof.
  intros Hok Hst Ho Hn Hlim. pose proof (vol_ok_facts _ _ _ _ _ HD _ _ Hok) as Hvf.
  pose proof (data_in_range _ _ _ _ _ HD _ _ _ _ Hok Hst) as Hdr.
  apply (wp_loop _ _ (fun m '(done, dst) s' => m = n - done /\ 0 <= done <= n /\ done <= Z.max 0 (stream_len s ch - off) /\
    dst = bytes_at (view s (data_blocks ch)) off done /\ untouched s s') _ n); [|lia|].
  { split_and!; try done; lia. }
  intros m [done dst] s1 (-> & Hd & Hdl & -> & Hun).
  destruct (stream_untouched _ _ _ _ _ HD _ _ _ _ _ Hok Hst Hun) as (Hok1 & Hst1 & _ & Hbs1 & Ht1).
  unfold wp at 1. case_if.
  2: { assert (done = n) by lia. subst done. unfold avail. replace (Z.max 0 (Z.min n (stream_len s ch - off))) with n by lia. done. }
  rewrite Hbs1. pose proof (chunk_range (bsize s) off done n ltac:(lia) Ho ltac:(lia) Hlim) as Hchunk.
  destruct (stream_chunk (bsize s) off done n) as [[lb intra] chunk]. destruct Hchunk as (-> & -> & Hc & Hi & Hic & Hlb).
  destruct (wp_run _ _ _ (resolve_spec _ _ _ _ _ HD fd s1 root ch _ Hok1 Hst1 Hlb)) as (r & s2 & -> & -> & Hun2).
  destruct (stream_untouched _ _ _ _ _ HD _ _ _ _ _ Hok1 Hst1 Hun2) as (Hok2 & Hst2 & _ & Hbs2 & Ht2).
  assert (Hun02 : untouched s s2) by by eapply untouched_trans.
  pose proof (Z.div_mod (off + done) (bsize s) ltac:(lia)).
  destruct (data_blocks ch !! _) as [b|] eqn:El.
  - assert (Hb : fd <= b < total s) by (rewrite Forall_forall in Hdr; by eapply Hdr, list_elem_of_lookup_2).
    pose proof (block_range _ _ _ _ _ HD _ _ _ Hok Hb) as Hbr.
    rewrite (at_block_eq _ _ _ _ _ HD fd s2 b) by (done || lia). rewrite Hbs2, Hbs1.
    destruct (wp_run _ _ _ (raw_read_spec _ _ _ _ _ HD (b * bsize s + (off + done) mod bsize s) chunk s2 (proj1 Hok2) ltac:(lia) ltac:(lia) ltac:(lia)))
      as (r & s3 & -> & -> & Hv & Hu). cbn [is_err].
    exists (n - (done + chunk)). split; [|lia]. split; [done|]. split; [lia|]. apply lookup_lt_Some in El as Ell.
    assert (((off + done) / bsize s + 1) * bsize s <= Z.of_nat (length (data_blocks ch)) * bsize s)
      by (apply Z.mul_le_mono_nonneg_r; lia).
    unfold stream_len. split; [lia|]. split; [|eapply untouched_trans; [exact Hun02|by split]].
    rewrite bytes_at_app by lia. f_equal. rewrite (view_block s _ _ _ b) by (done || lia).
    destruct Hun02 as [_ Hu02]. eapply (unchanged_bytes _ _ (fun _ => False)); [exact Hu02|lia|lia|tauto].
  - apply lookup_ge_None_1 in El. split; [|done]. unfold avail, stream_len in *.
    assert (Z.of_nat (length (data_blocks ch)) * bsize s <= (off + done) / bsize s * bsize s) by (apply Z.mul_le_mono_nonneg_r; lia).
    replace (Z.max 0 (Z.min n (Z.of_nat (length (data_blocks ch)) * bsize s - off))) with done by lia. done.
Qed.

(** ** Growing *)

Lemma grown_refl fd s root ch : vol_ok fd s -> stream_ok fd s root ch -> grown fd s ch s root ch [].
Proof.
  intros Hok Hst. exists []. split; [done|]. split; [by rewrite app_nil_r|]. split; [by rewrite app_nil_r|].
  split; [by intros b ?%not_elem_of_nil|]. split; [by rewrite list_to_set_nil, difference_empty_L|]. split; [done|]. split; [by apply changes_refl|]. split; [apply paid_refl|]. intros _. apply Hst.
Qed.

Lemma grown_trans fd s1 s2 s3 r2 r3 c1 c2 c3 l1 l2 : grown fd s1 c1 s2 r2 c2 l1 -> grown fd s2 c2 s3 r3 c3 l2 ->
  grown fd s1 c1 s3 r3 c3 (l1 ++ l2).
Proof.
  intros (N1 & Hst1 & Hd1 & Ho1 & Hn1 & Hf1 & Hs1 & Hc1 & He1 & Hr1) (N2 & Hst & Hd2 & Ho2 & Hn2 & Hf2 & Hs2 & Hc2 & He2 & Hr2).
  exists (N1 ++ N2). split; [done|]. split; [by rewrite Hd2, Hd1, app_assoc|]. split; [by rewrite Ho2, Ho1, app_assoc|].
  split.
  { intros b [Hb|Hb]%elem_of_app; [by apply Hn1|]. apply Hn2 in Hb. rewrite Hf1 in Hb. by apply elem_of_difference in Hb as [? _]. }
  split; [by rewrite Hf2, Hf1, list_to_set_app_L, difference_difference_l_L|]. split; [by etrans|].
  split; [eapply changes_trans; [eapply changes_mono; [exact Hc1|done]|exact Hc2]|].
  split; [eapply paid_trans; [|exact He1|exact He2]; apply (changes_vol_facts _ _ _ _ _ _ _ _ _ Hc1)|]. intros Hne.
  assert (Hne2 : c2 <> []) by (intros ->; destruct c1 as [|[c es] ?]; [done|]; specialize (Hs1 c ltac:(left)); set_solver).
  rewrite Hr2 by done. rewrite <- Hr1 by done. symmetry. apply Hst1.
Qed.

Lemma grown_facts fd s ch s' root' ch' bl : grown fd s ch s' root' ch' bl ->
  vol_ok fd s' /\ stream_ok fd s' root' ch' /\ bsize s' = bsize s /\ total s' = total s /\ data_blocks ch' = data_blocks ch ++ bl.
Proof.
  intros (N & Hst & Hd & _ & _ & _ & _ & Hc & _). destruct (changes_vol_facts _ _ _ _ _ _ _ _ _ Hc) as (? & ? & ?). by split_and!.
Qed.

Lemma grow_stream_spec fd s root ch need : vol_ok fd s -> stream_ok fd s root ch -> need < 2 ^ 64 ->
  wp (grow_stream root (Z.of_nat (length (data_blocks ch))) need) (fun r s' => exists ch' bl, grown fd s ch s' r.2 ch' bl /\
    match r.1 with
    | Ok _ => Z.of_nat (length (data_blocks ch')) = Z.max need (Z.of_nat (length (data_blocks ch)))
    | Err e => e = NdiskFull /\ short s' ch' /\ Z.of_nat (length (data_blocks ch')) < need
    end) s.
Proof.
  intros Hok Hst Hneed.
  apply (wp_loop _ _ (fun m '(root', have) s' => exists ch' bl, m = Z.max 0 (need - have) /\ have = Z.of_nat (length (data_blocks ch')) /\
    have <= Z.max need (Z.of_nat (length (data_blocks ch))) /\ Z.of_nat (length (data_blocks ch)) <= have /\
    grown fd s ch s' root' ch' bl) _ (Z.max 0 (need - Z.of_nat (length (data_blocks ch))))); [|lia|].
  { exists ch, []. split_and!; [done..|lia|lia|by apply grown_refl]. }
  intros m [root' have] s1 (ch1 & bl & -> & Hh & Hle & Hge & Hg). destruct (grown_facts _ _ _ _ _ _ _ Hg) as (Hok1 & Hst1 & _).
  unfold wp at 1. case_if.
  - destruct (wp_run _ _ _ (append_one_spec _ _ _ _ _ HD fd s1 root' ch1 Hok1 Hst1)) as ([root2|e] & s2 & -> & H2).
    + destruct H2 as (ch2 & b & Hg2). pose proof (grown_trans _ _ _ _ _ _ _ _ _ _ _ Hg Hg2) as Hg3.
      destruct (grown_facts _ _ _ _ _ _ _ Hg2) as (_ & _ & _ & _ & Hd2).
      exists (Z.max 0 (need - (have + 1))). split; [|lia]. exists ch2, (bl ++ [b]). rewrite Hd2, length_app. cbn [length]. split_and!; [done|lia..|done].
    + destruct H2 as (-> & Hsz & Hst2 & Hf2 & Hc2). exists ch1, bl. split; [|split; [done|split; [|lia]]].
      2: { unfold NyfsGrow.short in *. rewrite Hf2, (spare_bsize s1); [done|]. apply (changes_vol_facts _ _ _ _ _ _ _ _ _ Hc2). }
      rewrite <- (app_nil_r bl). eapply grown_trans; [exact Hg|].
      exists []. rewrite !app_nil_r. split; [done|]. split; [done|]. split; [done|]. split; [by intros b ?%not_elem_of_nil|].
      split; [by rewrite list_to_set_nil, difference_empty_L|]. split; [done|]. split; [eapply changes_mono; [exact Hc2|apply list_subseteq_nil]|]. split; [apply paid_refl|]. intros _. apply Hst1.
  - exists ch1, bl. split; [done|]. cbn [fst]. lia.
Qed.

(** ** Storing *)

(** The data blocks are different, so a position is in one of them only. *)
Lemma view_patch s s' (l : list Z) b o bs x : 0 < bsize s -> bsize s' = bsize s -> 0 <= o -> NoDup l ->
  l !! Z.to_nat (o / bsize s) = Some b -> o mod bsize s + Z.of_nat (length bs) <= bsize s ->
  (forall a, 0 <= a < size -> bytes_of s' a = patch (bytes_of s) (b * bsize s + o mod bsize s) bs a) ->
  Forall (fun b => 0 <= b /\ b * bsize s + bsize s <= size) l -> 0 <= x < Z.of_nat (length l) * bsize s ->
  view s' l x = patch (view s l) o bs x.
Proof.
  intros Hbs Hbs' Ho Hnd Hb Hl Hw Hr Hx. unfold NyfsStream.view. rewrite Hbs'.
  pose proof (Z.div_mod o (bsize s) ltac:(lia)). pose proof (Z.mod_pos_bound o (bsize s) ltac:(lia)).
  pose proof (Z.div_mod x (bsize s) ltac:(lia)). pose proof (Z.mod_pos_bound x (bsize s) ltac:(lia)).
  assert (Hxd : 0 <= x / bsize s < Z.of_nat (length l)) by (split; [apply Z.div_pos; lia|apply Z.div_lt_upper_bound; lia]).
  assert (Hod : 0 <= o / bsize s) by (apply Z.div_pos; lia).
  destruct (lookup_lt_is_Some_2 l (Z.to_nat (x / bsize s)) ltac:(lia)) as [c Hc].
  assert (Hcr : 0 <= c /\ c * bsize s + bsize s <= size) by (rewrite Forall_forall in Hr; by eapply Hr, list_elem_of_lookup_2).
  assert (Hbr : 0 <= b /\ b * bsize s + bsize s <= size) by (rewrite Forall_forall in Hr; by eapply Hr, list_elem_of_lookup_2).
  rewrite (nth_lookup_Some _ _ _ _ Hc), Hw by nia.
  unfold patch at 1 2. rewrite (nth_lookup_Some _ _ _ _ Hc).
  destruct (Z.eq_dec (x / bsize s) (o / bsize s)) as [Heq|Hne].
  - assert (c = b) as -> by (rewrite Heq in Hc; congruence). rewrite Heq in *.
    destruct ((b * bsize s + o mod bsize s <=? _) && _) eqn:E1; bool_simpl;
      destruct ((o <=? x) && _) eqn:E2; bool_simpl; first [done|lia|f_equal; lia].
  - assert (Hcb : c <> b). { intros ->. pose proof (NoDup_lookup _ _ _ _ Hnd Hc Hb). lia. }
    assert (Hout : forall bb cc : Z, bb <> cc -> bb * bsize s + bsize s <= cc * bsize s \/ cc * bsize s + bsize s <= bb * bsize s).
    { intros bb cc Hbc. assert (bb + 1 <= cc \/ cc + 1 <= bb) as [?|?] by lia; [left|right]; nia. }
    pose proof (Hout _ _ Hcb). pose proof (Hout _ _ Hne).
    destruct ((b * bsize s + o mod bsize s <=? _) && _) eqn:E1; bool_simpl; [lia|].
    destruct ((o <=? x) && _) eqn:E2; bool_simpl; [lia|done].
Qed.

(** The contents survive what happens to other blocks. *)
Lemma view_same P fd s s' (l : list Z) x : vol_ok fd s -> same_layout s s' -> unchanged P s s' ->
  Forall (fun b => fd <= b < total s) l -> (forall a, in_blocks (bsize s) l a -> ~ P a) ->
  0 <= x < Z.of_nat (length l) * bsize s -> view s' l x = view s l x.
Proof.
  intros Hok Hl Hu Hr HP Hx. pose proof (vol_ok_facts _ _ _ _ _ HD _ _ Hok) as Hvf. unfold NyfsStream.view. rewrite (layout_bsize _ _ Hl).
  pose proof (Z.mod_pos_bound x (bsize s) ltac:(lia)).
  assert (Hxd : 0 <= x / bsize s < Z.of_nat (length l)) by (split; [apply Z.div_pos; lia|apply Z.div_lt_upper_bound; lia]).
  destruct (lookup_lt_is_Some_2 l (Z.to_nat (x / bsize s)) ltac:(lia)) as [c Hcl]. rewrite (nth_lookup_Some _ _ _ _ Hcl).
  apply list_elem_of_lookup_2 in Hcl. rewrite Forall_forall in Hr. pose proof (block_range _ _ _ _ _ HD _ _ _ Hok (Hr c Hcl)).
  apply Hu; [lia|]. apply HP. exists c. split; [done|lia].
Qed.

Lemma view_unchanged fd s s' B (l : list Z) x : vol_ok fd s -> changes fd B s s' -> Forall (fun b => fd <= b < total s) l ->
  (forall b, b ∈ l -> b ∉ B) -> 0 <= x < Z.of_nat (length l) * bsize s -> view s' l x = view s l x.
Proof.
  intros Hok (_ & Hl & _ & _ & Hu) Hr HB Hx. eapply view_same; [exact Hok|exact Hl|exact Hu|exact Hr| |exact Hx].
  intros a. by eapply in_blocks_disjoint.
Qed.

(** Streams and their bytes do not depend on the metadata. *)
Lemma low_stream fd s s' root ch : vol_ok fd s -> stream_ok fd s root ch -> low read write k size img fd s s' ->
  free_blocks s' ⊆ free_blocks s ->
  stream_ok fd s' root ch /\ forall x, 0 <= x < stream_len s ch -> view s' (data_blocks ch) x = view s (data_blocks ch) x.
Proof.
  intros Hok Hst (_ & Hl & Hu) Hf.
  assert (Hhigh : forall l a, Forall (fun b => fd <= b < total s) l -> in_blocks (bsize s) l a -> ~ a < fd * bsize s).
  { intros l a Hr (b & Hb & Ha). rewrite Forall_forall in Hr. pose proof (block_range _ _ _ _ _ HD _ _ _ Hok (Hr b Hb)). lia. }
  pose proof Hst as (_ & _ & _ & _ & Hin). split.
  - eapply stream_unchanged; [done|exact Hok|exact Hst|exact Hl|exact Hu| |].
    + intros a. apply Hhigh. apply Forall_forall. intros b Hb. apply Hin. unfold own. set_solver.
    + intros b Hb. destruct (Hin b Hb). set_solver.
  - intros x Hx. assert (Hr : Forall (fun b => fd <= b < total s) (data_blocks ch)) by by eapply (data_in_range _ _ _ _ _ HD).
    eapply view_same; [exact Hok|exact Hl|exact Hu|exact Hr| |exact Hx]. intros a. by apply Hhigh.
Qed.

Lemma stream_data_own fd s root ch b : stream_ok fd s root ch -> b ∈ data_blocks ch -> b ∉ ch.*1.
Proof.
  intros (_ & _ & _ & Hnd & _) Hb Hb'. unfold own in Hnd. apply NoDup_app in Hnd as (_ & Hd & _). by apply (Hd b).
Qed.
Lemma data_NoDup fd s root ch : stream_ok fd s root ch -> NoDup (data_blocks ch).
Proof. intros (_ & _ & _ & Hnd & _). unfold own in Hnd. by apply NoDup_app in Hnd as (_ & _ & ?). Qed.

Lemma data_in_disk fd s root ch : vol_ok fd s -> stream_ok fd s root ch ->
  Forall (fun b => 0 <= b /\ b * bsize s + bsize s <= size) (data_blocks ch).
Proof.
  intros Hok Hst. pose proof (vol_ok_facts _ _ _ _ _ HD _ _ Hok). eapply Forall_impl; [by apply (data_in_range _ _ _ _ _ HD fd s root)|].
  intros b Hb. pose proof (block_range _ _ _ _ _ HD _ _ _ Hok Hb). cbn beta in *. lia.
Qed.

Lemma store_stream_spec fd s root ch off buf : vol_ok fd s -> stream_ok fd s root ch -> 0 <= off ->
  off + Z.of_nat (length buf) <= stream_len s ch -> is_bytes buf ->
  wp (store_stream root off buf) (fun r s' => r = Ok (Z.of_nat (length buf)) /\ changes fd (data_blocks ch) s s' /\
    free_blocks s' = free_blocks s /\ stream_ok fd s' root ch /\
    forall x, 0 <= x < stream_len s ch -> view s' (data_blocks ch) x = patch (view s (data_blocks ch)) off buf x) s.
Proof.
  intros Hok Hst Ho Hl Hb. pose proof (vol_ok_facts _ _ _ _ _ HD _ _ Hok) as Hvf. set (n := Z.of_nat (length buf)) in *.
  pose proof (own_bound _ _ _ _ _ HD _ _ _ _ Hok Hst) as Hob. unfold own in Hob. rewrite length_app in Hob. unfold stream_len in *.
  assert (Hlen : Z.of_nat (length (data_blocks ch)) * bsize s <= size) by nia.
  apply (wp_loop _ _ (fun m done s' => m = n - done /\ 0 <= done <= n /\ changes fd (data_blocks ch) s s' /\
    free_blocks s' = free_blocks s /\ stream_ok fd s' root ch /\ forall x, 0 <= x < Z.of_nat (length (data_blocks ch)) * bsize s ->
      view s' (data_blocks ch) x = patch (view s (data_blocks ch)) off (take (Z.to_nat done) buf) x) _ n); [|lia|].
  { split; [lia|]. split; [lia|]. split; [by apply changes_refl|]. split; [done|]. split; [done|]. intros x _. by rewrite take_0, patch_nil. }
  intros m done s1 (-> & Hd & Hc1 & Hf1 & Hst1 & Hv1). destruct (changes_vol_facts _ _ _ _ _ _ _ _ _ Hc1) as (Hbs1 & Ht1 & Hok1).
  fold n. case_if.
  2: { apply wp_ret. assert (done = n) by lia. subst done. rewrite take_ge in Hv1 by lia. by split_and!. }
  unfold wp at 1. rewrite Hbs1. pose proof (chunk_range (bsize s) off done n ltac:(lia) Ho ltac:(lia) ltac:(lia)) as Hck.
  destruct (stream_chunk (bsize s) off done n) as [[lb intra] chunk]. destruct Hck as (-> & -> & Hc & Hi & Hic & Hlb).
  apply (wp_stepb (nyfs_extent_resolve root _)). eapply wp_mono; [apply (resolve_spec _ _ _ _ _ HD fd s1 root ch); [exact Hok1|exact Hst1|exact Hlb]|].
  intros r s2 (-> & Hun2). destruct (stream_untouched _ _ _ _ _ HD _ _ _ _ _ Hok1 Hst1 Hun2) as (Hok2 & Hst2 & Hf2 & Hbs2 & Ht2).
  assert (Hlt : (off + done) / bsize s < Z.of_nat (length (data_blocks ch))) by (apply Z.div_lt_upper_bound; lia).
  destruct (lookup_lt_is_Some_2 (data_blocks ch) (Z.to_nat ((off + done) / bsize s)) ltac:(lia)) as [b Hbl]. rewrite Hbl.
  set (part := take (Z.to_nat chunk) (drop (Z.to_nat done) buf)).
  assert (Hpl : Z.of_nat (length part) = chunk) by (unfold part; rewrite length_take, length_drop; lia).
  assert (Hbr : fd <= b < total s2).
  { pose proof (data_in_range _ _ _ _ _ HD _ _ _ _ Hok2 Hst2) as Hdr. rewrite Forall_forall in Hdr. by eapply Hdr, list_elem_of_lookup_2. }
  unfold wp at 1. apply (wp_stepb (nyfs_raw_write _ _)).
  eapply wp_mono; [apply (write_block_spec _ _ _ _ _ HD fd b ((off + done) mod bsize s) part s2); [done|done|lia|lia| |]|].
  { by apply Forall_take, Forall_drop. }
  { intros Hp. rewrite Hp in Hpl. cbn in Hpl. lia. }
  intros r s3 (-> & _ & Hc3 & Hf3 & Hw3). apply wp_ret. exists (n - (done + chunk)). split; [|lia]. split; [done|]. split; [lia|].
  assert (Hbd : b ∈ data_blocks ch) by by eapply list_elem_of_lookup_2.
  split.
  { eapply changes_trans; [exact Hc1|]. eapply changes_trans; [apply (changes_untouched _ _ _ _ _ fd _ s1 s2 Hok1 Hun2)|].
    eapply changes_mono; [exact Hc3|set_solver]. }
  split; [congruence|]. split.
  { eapply stream_frame; [done|exact Hok2|exact Hst2|exact Hc3| |intros x Hx; rewrite Hf3; by apply Hst2].
    intros x Hx ->%list_elem_of_singleton. by apply (stream_data_own _ _ _ _ b Hst2). }
  intros x Hx. rewrite (view_patch s2 s3 _ b (off + done) part x); rewrite ?Hbs2, ?Hbs1; try (done || lia).
  - rewrite Z2Nat.inj_add by lia. rewrite <- take_take_drop, <- patch_app. fold part.
    replace (off + Z.of_nat (length (take (Z.to_nat done) buf))) with (off + done) by (rewrite length_take; lia).
    apply patch_ext. intros _. rewrite <- Hv1 by done.
    destruct (changes_untouched _ _ _ _ _ fd [] s1 s2 Hok1 Hun2) as [Hc2 _].
    eapply view_unchanged; [exact Hok1|exact Hc2|by eapply (data_in_range _ _ _ _ _ HD)|set_solver|by rewrite Hbs1].
  - rewrite (proj1 (changes_vol_facts _ _ _ _ _ _ _ _ _ Hc3)). congruence.
  - by eapply data_NoDup.
  - intros a Ha. rewrite Hw3 by done. by rewrite Hbs2, Hbs1.
  - pose proof (data_in_disk fd s2 root ch Hok2 Hst2) as Hdd. by rewrite Hbs2, Hbs1 in Hdd.
Qed.

(** ** Writing *)

(** As [grown], but the data blocks too may have changed. *)
Definition written (fd : Z) s ch s' (root' : Z) ch' : Prop :=
  exists N bl, stream_ok fd s' root' ch' /\ data_blocks ch' = data_blocks ch ++ bl /\ own ch' ≡ₚ own ch ++ N /\
    (forall b, b ∈ N -> b ∈ free_blocks s) /\ free_blocks s' = free_blocks s ∖ list_to_set N /\ changes fd (own ch') s s' /\
    paid s ch ch' N bl /\ (ch <> [] -> root' = chain_head ch).

Lemma grown_written fd s ch s1 root' ch' bl s' : grown fd s ch s1 root' ch' bl -> changes fd (data_blocks ch') s1 s' ->
  free_blocks s' = free_blocks s1 -> stream_ok fd s' root' ch' -> written fd s ch s' root' ch'.
Proof.
  intros (N & _ & Hd & Ho & HN & Hf & _ & Hc & He & Hr) Hc' Hf' Hst. exists N, bl. split_and!; try done; [congruence|].
  eapply changes_trans; eapply changes_mono; [exact Hc| |exact Hc'|]; unfold own; set_solver.
Qed.

Lemma grown_view fd s ch s' root' ch' bl x : vol_ok fd s -> grown fd s ch s' root' ch' bl -> 0 <= x < stream_len s ch' ->
  view s' (data_blocks ch') x = view s (data_blocks ch') x.
Proof.
  intros Hok (N & Hst & Hd & Ho & HN & Hf & _ & Hc & _) Hx. destruct (changes_vol_facts _ _ _ _ _ _ _ _ _ Hc) as (_ & Ht & Hok').
  eapply view_unchanged; [exact Hok|exact Hc| | |exact Hx].
  - rewrite <- Ht. by eapply (data_in_range _ _ _ _ _ HD).
  - intros b Hb. by eapply stream_data_own.
Qed.

Lemma write_at_spec fd s root ch off buf : vol_ok fd s -> stream_ok fd s root ch -> 0 <= off ->
  off + Z.of_nat (length buf) + bsize s <= 2 ^ 64 -> is_bytes buf ->
  wp (nyfs_extent_write_at root off buf) (fun r s' => exists ch', written fd s ch s' r.2 ch' /\
    match r.1 with
    | Ok n => n = Z.of_nat (length buf) /\
        Z.of_nat (length (data_blocks ch')) =
          (if decide (buf = []) then Z.of_nat (length (data_blocks ch))
           else Z.max ((off + Z.of_nat (length buf) + bsize s - 1) / bsize s) (Z.of_nat (length (data_blocks ch)))) /\
        forall x, 0 <= x < stream_len s ch' -> view s' (data_blocks ch') x = patch (view s (data_blocks ch')) off buf x
    | Err e => e = NdiskFull /\ short s' ch' /\
        Z.of_nat (length (data_blocks ch')) < (off + Z.of_nat (length buf) + bsize s - 1) / bsize s /\
        forall x, 0 <= x < stream_len s ch' -> view s' (data_blocks ch') x = view s (data_blocks ch') x
    end) s.
Proof.
  intros Hok Hst Ho Hlim Hb. pose proof (vol_ok_facts _ _ _ _ _ HD _ _ Hok) as Hvf. set (n := Z.of_nat (length buf)) in *.
  unfold nyfs_extent_write_at. unfold wp at 1. fold n. case_if.
  { assert (Hnil : buf = []) by (destruct buf; cbn in *; [done|lia]). exists ch. cbn [fst snd]. split.
    - eapply grown_written; [by apply grown_refl|by apply changes_refl|done|done].
    - rewrite decide_True by done. split_and!; [lia|done|]. intros x _. by rewrite Hnil, patch_nil. }
  assert (Hne : buf <> []) by (intros ->; cbn in *; lia).
  rewrite (uw_small 64 (off + n + bsize s - 1)) by lia.
  assert (Hneed : 0 <= (off + n + bsize s - 1) / bsize s < 2 ^ 64).
  { split; [apply Z.div_pos; lia|]. apply Z.div_lt_upper_bound; nia. }
  set (need := (off + n + bsize s - 1) / bsize s) in *.
  destruct (wp_run _ _ _ (total_blocks_spec fd s root ch Hok Hst)) as (r & s1 & -> & -> & Hun1).
  destruct (stream_untouched _ _ _ _ _ HD _ _ _ _ _ Hok Hst Hun1) as (Hok1 & Hst1 & Hf1 & Hbs1 & Ht1).
  assert (Hg1 : grown fd s ch s1 root ch []).
  { exists []. rewrite !app_nil_r. split_and!; try done; [by intros b ?%not_elem_of_nil|by rewrite list_to_set_nil, difference_empty_L| |apply paid_refl|].
    - by apply (changes_untouched _ _ _ _ _ fd).
    - intros _. apply Hst. }
  destruct (wp_run _ _ _ (grow_stream_spec fd s1 root ch need Hok1 Hst1 ltac:(lia))) as ([r root'] & s2 & -> & ch' & bl & Hg2 & Hr).
  cbn [fst snd] in *. pose proof (grown_trans _ _ _ _ _ _ _ _ _ _ _ Hg1 Hg2) as Hg.
  destruct (grown_facts _ _ _ _ _ _ _ Hg) as (Hok2 & Hst2 & Hbs2 & Ht2 & Hd2). destruct r as [[]|e].
  - assert (Hlen : off + n <= stream_len s2 ch').
    { unfold stream_len. rewrite Hbs2, Hr. pose proof (Z.div_mod (off + n + bsize s - 1) (bsize s) ltac:(lia)) as Hdm.
      pose proof (Z.mod_pos_bound (off + n + bsize s - 1) (bsize s) ltac:(lia)). fold need in Hdm.
      assert (need * bsize s <= Z.max need (Z.of_nat (length (data_blocks ch))) * bsize s) by (apply Z.mul_le_mono_nonneg_r; lia). lia. }
    destruct (wp_run _ _ _ (store_stream_spec fd s2 root' ch' off buf Hok2 Hst2 Ho Hlen Hb)) as (r & s3 & -> & -> & Hc3 & Hf3 & Hst3 & Hv3).
    exists ch'. cbn [fst snd]. split; [by eapply grown_written|]. rewrite decide_False by done. split; [done|]. split; [done|].
    assert (Hsl : stream_len s2 ch' = stream_len s ch') by (unfold stream_len; by rewrite Hbs2).
    intros x Hx. rewrite Hv3 by (by rewrite Hsl). apply patch_ext. intros _. by eapply grown_view.
  - exists ch'. cbn [fst snd]. split.
    + eapply grown_written; [exact Hg|by apply changes_refl|done|done].
    + destruct Hr as (-> & Hsz & Hlt). split_and!; [done..|]. intros x Hx. by eapply grown_view.
Qed.

(** Streams that share no block with the one written keep their blocks and
    their bytes. *)
Lemma other_stream fd s ch s' root' ch' root2 ch2 root : vol_ok fd s -> stream_ok fd s root ch -> written fd s ch s' root' ch' ->
  stream_ok fd s root2 ch2 -> (forall b, b ∈ own ch2 -> b ∉ own ch) ->
  stream_ok fd s' root2 ch2 /\ (forall b, b ∈ own ch2 -> b ∉ own ch') /\
  forall x, 0 <= x < stream_len s ch2 -> view s' (data_blocks ch2) x = view s (data_blocks ch2) x.
Proof.
  intros Hok Hst (N & bl & Hst' & Hd & Ho & HN & Hf & Hc & _) Hst2 Hdis.
  assert (Hd2 : forall b, b ∈ own ch2 -> b ∉ own ch').
  { intros b Hb. rewrite Ho. intros [?|Hn]%elem_of_app; [by apply (Hdis b)|]. apply HN in Hn.
    destruct Hst2 as (_ & _ & _ & _ & Hin). by destruct (Hin b Hb). }
  split; [|split; [done|]].
  - eapply stream_frame; [done|exact Hok|exact Hst2|exact Hc| |].
    + intros b Hb. apply Hd2. unfold own. set_solver.
    + intros b Hb. rewrite Hf. destruct Hst2 as (_ & _ & _ & _ & Hin). destruct (Hin b Hb). set_solver.
  - intros x Hx. eapply view_unchanged; [exact Hok|exact Hc|by eapply (data_in_range _ _ _ _ _ HD)| |exact Hx].
    intros b Hb. apply Hd2. unfold own. set_solver.
Qed.

Lemma written_trans fd s1 s2 s3 r2 r3 c1 c2 c3 : written fd s1 c1 s2 r2 c2 -> written fd s2 c2 s3 r3 c3 ->
  written fd s1 c1 s3 r3 c3.
Proof.
  intros (N1 & l1 & Hst1 & Hd1 & Ho1 & Hn1 & Hf1 & Hc1 & He1 & Hr1) (N2 & l2 & Hst & Hd2 & Ho2 & Hn2 & Hf2 & Hc2 & He2 & Hr2).
  exists (N1 ++ N2), (l1 ++ l2). split; [done|]. split; [by rewrite Hd2, Hd1, app_assoc|].
  split; [by rewrite Ho2, Ho1, app_assoc|]. split.
  { intros b [Hb|Hb]%elem_of_app; [by apply Hn1|]. apply Hn2 in Hb. rewrite Hf1 in Hb. by apply elem_of_difference in Hb as [? _]. }
  split; [by rewrite Hf2, Hf1, list_to_set_app_L, difference_difference_l_L|]. split.
  - eapply changes_trans; [eapply changes_mono; [exact Hc1|]|exact Hc2]. intros b Hb. rewrite Ho2. set_solver.
  - split; [eapply paid_trans; [|exact He1|exact He2]; apply (changes_vol_facts _ _ _ _ _ _ _ _ _ Hc1)|]. intros Hne.
    assert (Hne2 : c2 <> []).
    { intros ->. destruct c1 as [|[c es] ?]; [done|]. cbn in Ho1. by apply Permutation_nil_cons in Ho1. }
    rewrite Hr2 by done. rewrite <- Hr1 by done. symmetry. apply Hst1.
Qed.

Lemma written_untouched fd s s' root ch : vol_ok fd s -> stream_ok fd s root ch -> untouched s s' -> written fd s ch s' root ch.
Proof.
  intros Hok Hst Hun. destruct (stream_untouched _ _ _ _ _ HD _ _ _ _ _ Hok Hst Hun) as (Hok1 & Hst1 & Hf1 & _).
  exists [], []. rewrite !app_nil_r. split_and!; try done; [by intros b ?%not_elem_of_nil|by rewrite list_to_set_nil, difference_empty_L| |apply paid_refl|].
  - by apply (changes_untouched _ _ _ _ _ fd).
  - intros _. apply Hst.
Qed.

Lemma written_facts fd s ch s' root' ch' : written fd s ch s' root' ch' ->
  vol_ok fd s' /\ stream_ok fd s' root' ch' /\ bsize s' = bsize s /\ total s' = total s /\
  (length (data_blocks ch) <= length (data_blocks ch'))%nat.
Proof.
  intros (N & bl & Hst & Hd & _ & _ & _ & Hc & _). destruct (changes_vol_facts _ _ _ _ _ _ _ _ _ Hc) as (? & ? & ?).
  split_and!; try done. rewrite Hd, length_app. lia.
Qed.

(** A write whose blocks are there cannot fail. *)
Lemma write_at_inside fd s root ch off buf : vol_ok fd s -> stream_ok fd s root ch -> 0 <= off ->
  off + Z.of_nat (length buf) <= stream_len s ch -> is_bytes buf ->
  wp (nyfs_extent_write_at root off buf) (fun r s' => r.1 = Ok (Z.of_nat (length buf)) /\ exists ch', written fd s ch s' r.2 ch' /\
    stream_len s' ch' = stream_len s ch /\
    forall x, 0 <= x < stream_len s ch' -> view s' (data_blocks ch') x = patch (view s (data_blocks ch')) off buf x) s.
Proof.
  intros Hok Hst Ho Hl Hb. pose proof (vol_ok_facts _ _ _ _ _ HD _ _ Hok) as Hvf.
  pose proof (own_bound _ _ _ _ _ HD _ _ _ _ Hok Hst) as Hob. unfold own in Hob. rewrite length_app in Hob.
  unfold stream_len in *. assert (Z.of_nat (length (data_blocks ch)) * bsize s <= size) by nia.
  eapply wp_mono; [apply (write_at_spec fd s root ch off buf); [done|done|done|lia|done]|].
  intros [r root'] s' (ch' & Hw & Hr). cbn [fst snd] in *. destruct (written_facts _ _ _ _ _ _ Hw) as (_ & _ & Hbs & _ & Hlen).
  assert (Hneed : (off + Z.of_nat (length buf) + bsize s - 1) / bsize s <= Z.of_nat (length (data_blocks ch))).
  { apply Z.lt_succ_r, Z.div_lt_upper_bound; lia. }
  destruct r as [m|e].
  - destruct Hr as (-> & Hn & Hv). split; [done|]. exists ch'. split; [done|]. split; [|done]. rewrite Hbs. f_equal.
    rewrite Hn. case_decide; [done|]. lia.
  - destruct Hr as (_ & _ & Hlt & _). lia.
Qed.

(** ** One write, by its effect on the bytes *)

Lemma view_prefix s (l bl : list Z) x : 0 < bsize s -> 0 <= x < Z.of_nat (length l) * bsize s -> view s (l ++ bl) x = view s l x.
Proof.
  intros Hb Hx. unfold NyfsStream.view. rewrite app_nth1; [done|].
  assert (0 <= x / bsize s < Z.of_nat (length l)) by (split; [apply Z.div_pos; lia|apply Z.div_lt_upper_bound; lia]). lia.
Qed.

(** The write of [buf] at [off] has gone through. *)
Definition wstep (fd : Z) s ch s' (root' : Z) ch' (off : Z) (buf : list Z) : Prop :=
  written fd s ch s' root' ch' /\ stream_len s ch <= stream_len s' ch' /\ off + Z.of_nat (length buf) <= stream_len s' ch' /\
  (forall x, off <= x < off + Z.of_nat (length buf) -> view s' (data_blocks ch') x = nth (Z.to_nat (x - off)) buf 0) /\
  (forall x, 0 <= x < stream_len s ch -> ~ (off <= x < off + Z.of_nat (length buf)) ->
     view s' (data_blocks ch') x = view s (data_blocks ch) x).

(** It has not: the volume is full, and the stream as it was, or longer. *)
Definition wfailed (fd : Z) s ch s' (root' : Z) ch' (end_ : Z) (e : Nerror) : Prop :=
  e = NdiskFull /\ stream_len s' ch' < end_ /\ short s' ch' /\ written fd s ch s' root' ch' /\ stream_len s ch <= stream_len s' ch' /\
  forall x, 0 <= x < stream_len s ch -> view s' (data_blocks ch') x = view s (data_blocks ch) x.

Lemma write_step_short fd s root ch off buf : vol_ok fd s -> stream_ok fd s root ch -> 0 <= off ->
  off + Z.of_nat (length buf) + bsize s <= 2 ^ 64 -> is_bytes buf -> buf <> [] ->
  wp (nyfs_extent_write_at root off buf) (fun r s' => exists ch', match r.1 with
    | Ok n => n = Z.of_nat (length buf) /\ wstep fd s ch s' r.2 ch' off buf /\
        stream_len s' ch' < Z.max (stream_len s ch) (off + Z.of_nat (length buf)) + bsize s
    | Err e => wfailed fd s ch s' r.2 ch' (off + Z.of_nat (length buf)) e
    end) s.
Proof.
  intros Hok Hst Ho Hlim Hb Hne. pose proof (vol_ok_facts _ _ _ _ _ HD _ _ Hok) as Hvf.
  eapply wp_mono; [by apply (write_at_spec fd s root ch off buf)|]. intros [r root'] s' (ch' & Hw & Hr). exists ch'. cbn [fst snd] in *.
  destruct (written_facts _ _ _ _ _ _ Hw) as (_ & _ & Hbs & _ & Hlen).
  assert (Hsl : stream_len s ch <= stream_len s' ch').
  { unfold stream_len. rewrite Hbs. apply Z.mul_le_mono_nonneg_r; lia. }
  assert (Hpre : forall x, 0 <= x < stream_len s ch -> view s (data_blocks ch') x = view s (data_blocks ch) x).
  { intros x Hx. destruct Hw as (N & bl & _ & -> & _). apply view_prefix; [lia|exact Hx]. }
  assert (Hsl' : stream_len s' ch' = stream_len s ch') by (unfold stream_len; by rewrite Hbs).
  destruct r as [n|e].
  - destruct Hr as (-> & Hn & Hv). split; [done|]. rewrite decide_False in Hn by done.
    assert (Hshort : stream_len s' ch' < Z.max (stream_len s ch) (off + Z.of_nat (length buf)) + bsize s).
    { unfold stream_len. rewrite Hbs, Hn. pose proof (Z.mul_div_le (off + Z.of_nat (length buf) + bsize s - 1) (bsize s) ltac:(lia)) as Hdm.
      rewrite <- Z.mul_max_distr_nonneg_r by lia. lia. }
    assert (Hfit : off + Z.of_nat (length buf) <= stream_len s' ch').
    { unfold stream_len. rewrite Hn, Hbs. set (need := (off + Z.of_nat (length buf) + bsize s - 1) / bsize s).
      pose proof (Z.div_mod (off + Z.of_nat (length buf) + bsize s - 1) (bsize s) ltac:(lia)) as Hdm. fold need in Hdm.
      pose proof (Z.mod_pos_bound (off + Z.of_nat (length buf) + bsize s - 1) (bsize s) ltac:(lia)).
      assert (need * bsize s <= Z.max need (Z.of_nat (length (data_blocks ch))) * bsize s) by (apply Z.mul_le_mono_nonneg_r; lia). lia. }
    split; [|done]. split; [done|]. split; [done|]. split; [done|]. split.
    + intros x Hx. rewrite Hv by lia. unfold patch. case_if; [done|lia].
    + intros x Hx Hout. rewrite Hv by lia. rewrite patch_other by lia. by apply Hpre.
  - destruct Hr as (-> & Hsz & Hlt & Hv). split_and!; [done| |done..|].
    + unfold stream_len. rewrite Hbs. set (need := (off + Z.of_nat (length buf) + bsize s - 1) / bsize s) in *.
      pose proof (Z.div_mod (off + Z.of_nat (length buf) + bsize s - 1) (bsize s) ltac:(lia)) as Hdm. fold need in Hdm.
      pose proof (Z.mod_pos_bound (off + Z.of_nat (length buf) + bsize s - 1) (bsize s) ltac:(lia)).
      assert (Z.of_nat (length (data_blocks ch')) * bsize s <= (need - 1) * bsize s) by (apply Z.mul_le_mono_nonneg_r; lia). lia.
    + intros x Hx. rewrite Hv by lia. by apply Hpre.
Qed.

Lemma write_step fd s root ch off buf : vol_ok fd s -> stream_ok fd s root ch -> 0 <= off ->
  off + Z.of_nat (length buf) + bsize s <= 2 ^ 64 -> is_bytes buf -> buf <> [] ->
  wp (nyfs_extent_write_at root off buf) (fun r s' => exists ch', match r.1 with
    | Ok n => n = Z.of_nat (length buf) /\ wstep fd s ch s' r.2 ch' off buf
    | Err e => wfailed fd s ch s' r.2 ch' (off + Z.of_nat (length buf)) e
    end) s.
Proof.
  intros Hok Hst Ho Hlim Hb Hne. eapply wp_mono; [by apply (write_step_short fd s root ch off buf)|].
  intros [[n|e] root'] s' (ch' & H); exists ch'; cbn [fst snd] in *; [|done]. by destruct H as (? & ? & _).
Qed.

Lemma wstep_in fd s ch s' root' ch' off buf : wstep fd s ch s' root' ch' off buf ->
  bytes_at (view s' (data_blocks ch')) off (Z.of_nat (length buf)) = buf.
Proof.
  intros (_ & _ & _ & Hv & _). rewrite <- (bytes_at_patch (view s' (data_blocks ch')) off buf) at 2.
  apply bytes_at_ext. intros x Hx. rewrite Hv by lia. unfold patch. case_if; [done|lia].
Qed.
Lemma wstep_out fd s ch s' root' ch' off buf a n : wstep fd s ch s' root' ch' off buf -> 0 <= a -> a + n <= stream_len s ch ->
  a + n <= off \/ off + Z.of_nat (length buf) <= a ->
  bytes_at (view s' (data_blocks ch')) a n = bytes_at (view s (data_blocks ch)) a n.
Proof. intros (_ & _ & _ & _ & Hv) Ha Hn Hd. apply bytes_at_ext. intros x Hx. apply Hv; lia. Qed.

Lemma stream_len_bound fd s root ch : vol_ok fd s -> stream_ok fd s root ch -> 0 <= stream_len s ch <= size.
Proof.
  intros Hok Hst. pose proof (vol_ok_facts _ _ _ _ _ HD _ _ Hok) as Hvf.
  pose proof (own_bound _ _ _ _ _ HD _ _ _ _ Hok Hst) as Hob. unfold own in Hob. rewrite length_app in Hob. unfold stream_len. nia.
Qed.

(** ** How many blocks a write takes *)

Lemma written_size fd s ch s' root' ch' : written fd s ch s' root' ch' ->
  Z.of_nat (base.size (free_blocks s)) * bsize s <= Z.of_nat (base.size (free_blocks s')) * bsize s + 2 * (stream_len s' ch' - stream_len s ch).
Proof.
  intros Hw. destruct (written_facts _ _ _ _ _ _ Hw) as (Hok' & _ & Hbs & _). destruct Hw as (N & bl & _ & Hd & _ & _ & Hf & _ & [HN _] & _).
  pose proof (vol_ok_facts _ _ _ _ _ HD _ _ Hok') as Hvf. rewrite Hbs in Hvf.
  pose proof (size_difference_list (free_blocks s) N) as Hs. rewrite <- Hf in Hs. unfold stream_len. rewrite Hbs, Hd, length_app.
  assert (Z.of_nat (base.size (free_blocks s)) <= Z.of_nat (base.size (free_blocks s')) + 2 * Z.of_nat (length bl)) by lia. nia.
Qed.

Lemma written_same_size fd s ch s' root' ch' : written fd s ch s' root' ch' -> stream_len s' ch' < stream_len s ch + bsize s ->
  free_blocks s' = free_blocks s.
Proof.
  intros Hw Hlt. destruct (written_facts _ _ _ _ _ _ Hw) as (Hok' & _ & Hbs & _). destruct Hw as (N & bl & _ & Hd & _ & _ & Hf & _ & [HN _] & _).
  pose proof (vol_ok_facts _ _ _ _ _ HD _ _ Hok') as Hvf. rewrite Hbs in Hvf. unfold stream_len in Hlt. rewrite Hbs, Hd, length_app in Hlt.
  destruct bl; [|cbn [length] in Hlt; nia]. destruct N; [|cbn in HN; lia]. rewrite Hf. set_solver.
Qed.

Lemma short_le s ch : short s ch -> (base.size (free_blocks s) <= 1)%nat.
Proof. intros [?|[? _]]; lia. Qed.

(** A write that stops half-way: there were fewer free blocks than the data
    blocks it lacks need, with the extent blocks to list them. *)
Definition div_up (unit n : Z) : Z := (n + unit - 1) / unit.
Definition needed (bs new : Z) : Z := new + div_up (block_extents bs) new.

Lemma needed_mono bs m n : 512 <= bs -> m <= n -> needed bs m <= needed bs n.
Proof.
  intros Hb Hm. pose proof (block_extents_range bs Hb). unfold needed, div_up.
  enough ((m + block_extents bs - 1) / block_extents bs <= (n + block_extents bs - 1) / block_extents bs) by lia. apply Z.div_le_mono; lia.
Qed.

Lemma failed_needed fd s root ch s' root' ch' end_ e have : stream_ok fd s root ch -> wfailed fd s ch s' root' ch' end_ e ->
  have <= Z.of_nat (length (data_blocks ch)) -> Z.of_nat (base.size (free_blocks s)) < needed (bsize s) (div_up (bsize s) end_ - have).
Proof.
  intros (_ & _ & Hes & _) (_ & Hend & Hsh & Hw & _) Hhave. destruct (written_facts _ _ _ _ _ _ Hw) as (Hok' & _ & Hbs & _).
  destruct Hw as (N & bl & _ & Hd & _ & _ & Hf & _ & [_ HN] & _). pose proof (vol_ok_facts _ _ _ _ _ HD _ _ Hok') as Hvf. rewrite Hbs in Hvf.
  pose proof (block_extents_range (bsize s) ltac:(lia)) as Hcap. unfold stream_len in Hend. rewrite Hbs, Hd, length_app in Hend.
  assert (Hlt : Z.of_nat (length (data_blocks ch)) + Z.of_nat (length bl) + 1 <= div_up (bsize s) end_).
  { unfold div_up. apply Z.div_le_lower_bound; nia. }
  eapply Z.lt_le_trans; [|apply (needed_mono _ (Z.of_nat (length bl) + 1)); lia].
  pose proof (size_difference_list (free_blocks s) N) as Hsz. rewrite <- Hf in Hsz.
  assert (Hsp : 0 <= spare s ch /\ spare s ch' < block_extents (bsize s)).
  { unfold spare. split; [|destruct (last ch') as [[? ?]|]; lia]. destruct (last ch) as [[c es]|] eqn:El; [|lia].
    apply last_Some in El as [pre ->]. apply Forall_app in Hes as [_ [(_ & ? & ?) _]%Forall_cons]. cbn [snd] in *.
    pose proof (proj2 (block_extents_le (bsize s) (Z.of_nat (length es)))). lia. }
  unfold needed, div_up. set (cap := block_extents (bsize s)) in *. clearbody cap.
  replace (Z.of_nat (length bl) + 1 + cap - 1) with (Z.of_nat (length bl) + 1 * cap) by lia. rewrite Z.div_add by lia.
  set (m := Z.of_nat (length bl)) in *. pose proof (Z.div_mod m cap ltac:(lia)). pose proof (Z.mod_pos_bound m cap ltac:(lia)).
  unfold NyfsGrow.short in Hsh. rewrite (spare_bsize s) in Hsh by done. destruct Hsh as [Hz|[Hz Hs0]]; nia.
Qed.
End rw.
