(* ===== verification/NyfsDirs.v ===== *)
(** * NYFS directories as finite maps

    What the hash table of a directory's stream stands for: a list of entries
    for each bucket, the chains and the header on the disk, and the map from
    names to inode numbers and types. *)

From S2P Require Import Prelude Types Loops Bytes NyfsDisk NyfsImage Nyfs NyfsIo.

(** ** Entries *)

Record dentry := mk_entry { e_name : list Z; e_ino : Z; e_type : Z }.
Definition name_len (e : dentry) : Z := Z.of_nat (length (e_name e)).
Definition entry_ok (e : dentry) : Prop :=
  1 <= name_len e <= NYFS_NAME_MAX /\ is_bytes (e_name e) /\ 0 <= e_ino e < 2 ^ 64 /\ 0 <= e_type e < 256.

(** Entries with their offsets in the stream. *)
Abbreviation located := (Z * dentry)%type.
Definition entry_end (p : located) : Z := p.1 + DIRENT_SIZE + name_len p.2.
Definition first_off (l : list located) : Z := match l with [] => 0 | p :: _ => p.1 end.

Definition entry_de (next : Z) (e : dentry) : nyfs_dirent_t :=
  mk_de (e_ino e) next (nyfs_hash_name (e_name e)) (name_len e) (e_type e) 0.

(** The record at [o]. *)
Definition stored (f : Z -> Z) (o next : Z) (e : dentry) : Prop :=
  bytes_at f o DIRENT_SIZE = de_bytes (entry_de next e) /\ bytes_at f (o + DIRENT_SIZE) (name_len e) = e_name e.

Fixpoint linked (f : Z -> Z) (l : list located) : Prop :=
  match l with
  | [] => True
  | (o, e) :: l => stored f o (first_off l) e /\ linked f l
  end.

Lemma is_bytes_app' a b : is_bytes a -> is_bytes b -> is_bytes (a ++ b).
Proof. apply Forall_app_2. Qed.
Lemma is_bytes_de d : is_bytes (de_bytes d).
Proof. unfold de_bytes. repeat apply is_bytes_app'; apply is_bytes_le_bytes. Qed.
Lemma is_bytes_dhdr h : is_bytes (dhdr_bytes h).
Proof. unfold dhdr_bytes. repeat apply is_bytes_app'; apply is_bytes_le_bytes. Qed.
Lemma le_bytes_ne n z : (0 < n)%nat -> le_bytes n z <> [].
Proof. destruct n; [lia|done]. Qed.
Lemma de_bytes_ne d : de_bytes d <> [].
Proof. done. Qed.
Lemma dhdr_bytes_ne h : dhdr_bytes h <> [].
Proof. done. Qed.

(** ** Tables *)

Definition bucket_of (tbl : list (list located)) (name : list Z) : Z := nyfs_hash_name name mod Z.of_nat (length tbl).
Definition table_end (tbl : list (list located)) : Z := DHDR_SIZE + 8 * Z.of_nat (length tbl).
Definition table_header (tbl : list (list located)) (fr : Z) : nyfs_dirhash_header_t :=
  mk_dhdr NYFS_DIRHASH_MAGIC (Z.of_nat (length tbl)) (Z.of_nat (length (concat tbl))) fr 0 0.

(** The [L] bytes [f] of a stream hold the table [tbl], with [fr] the offset of
    the next record. *)
Record dir_rep (f : Z -> Z) (L : Z) (tbl : list (list located)) (fr : Z) : Prop := {
  dr_header : bytes_at f 0 DHDR_SIZE = dhdr_bytes (table_header tbl fr);
  dr_size : 0 < Z.of_nat (length tbl) < 2 ^ 32 /\ table_end tbl <= L < 2 ^ 63 /\ table_end tbl <= fr <= L + 7;
  dr_bucket b l : tbl !! b = Some l ->
    bytes_at f (DHDR_SIZE + 8 * Z.of_nat b) 8 = le_bytes 8 (first_off l) /\ linked f l /\
    Forall (fun p => bucket_of tbl (e_name p.2) = Z.of_nat b) l;
  dr_entry p : p ∈ concat tbl -> entry_ok p.2 /\ table_end tbl <= p.1 /\ entry_end p <= fr /\ entry_end p <= L;
  dr_disjoint p q : p ∈ concat tbl -> q ∈ concat tbl -> p = q \/ entry_end p <= q.1 \/ entry_end q <= p.1;
  dr_names : NoDup ((fun p => e_name p.2) <$> concat tbl);
}.

Definition dir_map (tbl : list (list located)) : gmap (list Z) (Z * Z) :=
  list_to_map ((fun p => (e_name p.2, (e_ino p.2, e_type p.2))) <$> concat tbl).

(** ** The table as a list *)

Lemma concat_bucket {A} (tbl : list (list A)) b l : tbl !! b = Some l ->
  exists rest, concat tbl ≡ₚ l ++ rest /\ forall l', concat (<[b := l']> tbl) ≡ₚ l' ++ rest.
Proof.
  revert b. induction tbl as [|l0 tbl IH]; intros b; [done|]. destruct b as [|b]; cbn.
  - intros [= ->]. by exists (concat tbl).
  - intros Hb. destruct (IH b Hb) as (rest & H1 & H2). exists (l0 ++ rest). split.
    + rewrite H1, !app_assoc. by rewrite (Permutation_app_comm l0 l).
    + intros l'. rewrite H2, !app_assoc. by rewrite (Permutation_app_comm l0 l').
Qed.

Lemma elem_of_concat {A} (tbl : list (list A)) b l x : tbl !! b = Some l -> x ∈ l -> x ∈ concat tbl.
Proof. intros Hb Hx. destruct (concat_bucket tbl b l Hb) as (rest & -> & _). set_solver. Qed.

Lemma concat_elem {A} (tbl : list (list A)) x : x ∈ concat tbl -> exists b l, tbl !! b = Some l /\ x ∈ l.
Proof.
  induction tbl as [|l tbl IH]; cbn; [set_solver|]. intros [Hx|Hx]%elem_of_app; [by exists 0%nat, l|].
  destruct (IH Hx) as (b & l' & Hb & ?). by exists (S b), l'.
Qed.

Lemma dir_map_some tbl p : NoDup ((fun p => e_name p.2) <$> concat tbl) -> p ∈ concat tbl ->
  dir_map tbl !! e_name p.2 = Some (e_ino p.2, e_type p.2).
Proof.
  intros Hnd Hp. apply elem_of_list_to_map.
  - by rewrite <- list_fmap_compose.
  - apply list_elem_of_fmap. by exists p.
Qed.

Lemma dir_map_none tbl name : (forall p, p ∈ concat tbl -> e_name p.2 <> name) -> dir_map tbl !! name = None.
Proof.
  intros H. apply not_elem_of_list_to_map_1. rewrite <- list_fmap_compose. intros (p & -> & Hp)%list_elem_of_fmap. by apply (H p).
Qed.

Lemma dir_map_none_inv tbl name p : NoDup ((fun p => e_name p.2) <$> concat tbl) -> dir_map tbl !! name = None ->
  p ∈ concat tbl -> e_name p.2 <> name.
Proof. intros Hnd Hn Hp <-. by rewrite dir_map_some in Hn. Qed.

Lemma dir_map_insert tbl b l o e : tbl !! b = Some l -> NoDup ((fun p => e_name p.2) <$> concat tbl) ->
  dir_map tbl !! e_name e = None ->
  dir_map (<[b := (o, e) :: l]> tbl) = <[e_name e := (e_ino e, e_type e)]> (dir_map tbl) /\
  NoDup ((fun p => e_name p.2) <$> concat (<[b := (o, e) :: l]> tbl)).
Proof.
  intros Hb Hnd Hn. destruct (concat_bucket tbl b l Hb) as (rest & H1 & H2).
  assert (Hperm : concat (<[b := (o, e) :: l]> tbl) ≡ₚ (o, e) :: concat tbl) by by rewrite H2, H1.
  assert (Hnd' : NoDup ((fun p => e_name p.2) <$> concat (<[b := (o, e) :: l]> tbl))).
  { rewrite Hperm. cbn. constructor; [|done]. intros (p & Hp & Hin)%list_elem_of_fmap.
    by apply (dir_map_none_inv tbl (e_name e) p Hnd Hn Hin). }
  split; [|done]. unfold dir_map.
  rewrite (list_to_map_proper _ ((fun p => (e_name p.2, (e_ino p.2, e_type p.2))) <$> (o, e) :: concat tbl)); [done| |by rewrite Hperm].
  by rewrite <- list_fmap_compose.
Qed.

Lemma dir_map_remove tbl b l1 o e l2 : tbl !! b = Some (l1 ++ (o, e) :: l2) -> NoDup ((fun p => e_name p.2) <$> concat tbl) ->
  dir_map (<[b := l1 ++ l2]> tbl) = delete (e_name e) (dir_map tbl) /\
  NoDup ((fun p => e_name p.2) <$> concat (<[b := l1 ++ l2]> tbl)).
Proof.
  intros Hb Hnd. destruct (concat_bucket tbl b _ Hb) as (rest & H1 & H2).
  assert (Hperm : concat tbl ≡ₚ (o, e) :: concat (<[b := l1 ++ l2]> tbl)).
  { by rewrite H2, H1, <- Permutation_middle. }
  assert (Hnd0 := Hnd). rewrite Hperm in Hnd0. cbn in Hnd0. apply NoDup_cons in Hnd0 as [Hnin Hnd'].
  split; [|done]. unfold dir_map at 2.
  rewrite (list_to_map_proper _ ((fun p => (e_name p.2, (e_ino p.2, e_type p.2))) <$> (o, e) :: concat (<[b := l1 ++ l2]> tbl)));
    [|by rewrite <- list_fmap_compose|by rewrite Hperm].
  cbn [fmap list_fmap list_to_map foldr]. cbn. rewrite delete_insert_id; [done|].
  apply not_elem_of_list_to_map_1. by rewrite <- list_fmap_compose.
Qed.

(** ** What keeps a table, and what changes it *)

Lemma stored_ext f g o next e : stored f o next e -> (forall x, o <= x < entry_end (o, e) -> g x = f x) -> stored g o next e.
Proof.
  intros [H1 H2] Hfg. unfold entry_end, DIRENT_SIZE in *. cbn [fst snd] in *. unfold name_len in *. split.
  - rewrite <- H1. apply bytes_at_ext. intros. apply Hfg. unfold DIRENT_SIZE in *. lia.
  - rewrite <- H2. apply bytes_at_ext. intros. apply Hfg. unfold DIRENT_SIZE, name_len in *. lia.
Qed.

Lemma entries_linked_ext f g l : linked f l -> (forall p, p ∈ l -> forall x, p.1 <= x < entry_end p -> g x = f x) -> linked g l.
Proof.
  induction l as [|[o e] l IH]; [done|]. intros [H1 H2] Hfg. split.
  - eapply stored_ext; [exact H1|]. intros x Hx. apply (Hfg (o, e)); [set_solver|done].
  - apply IH; [done|]. intros p Hp. apply Hfg. set_solver.
Qed.

(** The link field of a record. *)
Lemma stored_relink f g o next next' e : stored f o next e ->
  (forall x, o <= x < entry_end (o, e) -> x < o + 8 \/ o + 16 <= x -> g x = f x) ->
  bytes_at g (o + 8) 8 = le_bytes 8 next' -> stored g o next' e.
Proof.
  intros [H1 H2] Hfg Hn. unfold entry_end, DIRENT_SIZE in *. cbn [fst snd] in *. split.
  - assert (Hsplit : forall h, bytes_at h o 24 = bytes_at h o 8 ++ bytes_at h (o + 8) 8 ++ bytes_at h (o + 16) 8).
    { intros h. change 24 with (8 + (8 + 8)). rewrite !bytes_at_app by lia. by rewrite <- Z.add_assoc. }
    rewrite Hsplit in *. unfold de_bytes, entry_de in *.
    cbn [de_ino de_next_offset de_name_hash de_name_len de_file_type de_reserved0] in *.
    apply app_inj_1 in H1 as [Ha H1]; [|by rewrite length_bytes_at, length_le_bytes].
    apply app_inj_1 in H1 as [_ Hc]; [|by rewrite length_bytes_at, length_le_bytes]. rewrite Hn. f_equal; [|f_equal].
    + rewrite <- Ha. apply bytes_at_ext. intros. apply Hfg; unfold name_len in *; lia.
    + rewrite <- Hc. apply bytes_at_ext. intros. apply Hfg; unfold name_len in *; lia.
  - rewrite <- H2. apply bytes_at_ext. intros. apply Hfg; lia.
Qed.

Lemma linked_app f l1 l2 : linked f (l1 ++ l2) -> linked f l2.
Proof. induction l1 as [|[o e] l1 IH]; [done|]. intros [_ H]. by apply IH. Qed.

(** A chain whose first part ends in another link. *)
Lemma linked_relink f g l1 o e l2 l2' : linked f (l1 ++ (o, e) :: l2) -> linked g l2' ->
  stored g o (first_off l2') e -> (forall p, p ∈ l1 -> forall x, p.1 <= x < entry_end p -> g x = f x) ->
  linked g (l1 ++ (o, e) :: l2').
Proof.
  induction l1 as [|[o1 e1] l1 IH]; cbn [app linked].
  - by intros [_ _].
  - intros [H1 H2] Hl Hs Hfg. split.
    + replace (first_off (l1 ++ (o, e) :: l2')) with (first_off (l1 ++ (o, e) :: l2)) by by destruct l1.
      eapply stored_ext; [exact H1|]. intros x Hx. apply (Hfg (o1, e1)); [set_solver|done].
    + apply IH; [done..|]. intros p Hp. apply Hfg. set_solver.
Qed.

Lemma dir_rep_ext f g L L' tbl fr : dir_rep f L tbl fr -> L <= L' < 2 ^ 63 ->
  (forall x, 0 <= x < L -> x < fr -> g x = f x) -> dir_rep g L' tbl fr.
Proof.
  intros [Hh Hs Hb He Hd Hn] HL Hfg. unfold table_end, DHDR_SIZE in *. split; try done.
  - rewrite <- Hh. apply bytes_at_ext. intros. apply Hfg; unfold DHDR_SIZE in *; lia.
  - unfold table_end, DHDR_SIZE. lia.
  - intros b l Hl. destruct (Hb b l Hl) as (H1 & H2 & H3). apply lookup_lt_Some in Hl as Hlt. split; [|split; [|done]].
    + rewrite <- H1. apply bytes_at_ext. intros. apply Hfg; unfold DHDR_SIZE in *; lia.
    + eapply entries_linked_ext; [exact H2|]. intros p Hp x Hx.
      destruct (He p (elem_of_concat _ _ _ _ Hl Hp)) as (_ & ? & ? & ?). apply Hfg; lia.
  - intros p Hp. destruct (He p Hp) as (? & ? & ? & ?). unfold table_end, DHDR_SIZE in *. split_and!; try done; lia.
Qed.

Lemma bucket_lookup f L tbl fr name : dir_rep f L tbl fr -> exists l, tbl !! Z.to_nat (bucket_of tbl name) = Some l.
Proof.
  intros [_ Hs _ _ _ _]. apply lookup_lt_is_Some_2. pose proof (Z.mod_pos_bound (nyfs_hash_name name) (Z.of_nat (length tbl)) ltac:(lia)).
  unfold bucket_of. lia.
Qed.

Lemma bucket_range tbl name : 0 < Z.of_nat (length tbl) -> 0 <= bucket_of tbl name < Z.of_nat (length tbl).
Proof. intros. by apply Z.mod_pos_bound. Qed.

(** A new record at the end and at the head of its bucket. *)
Lemma dir_rep_insert f g L L' tbl fr fr' e l : dir_rep f L tbl fr -> L <= L' < 2 ^ 63 -> entry_ok e ->
  tbl !! Z.to_nat (bucket_of tbl (e_name e)) = Some l -> dir_map tbl !! e_name e = None ->
  entry_end (fr, e) <= fr' <= L' + 7 -> entry_end (fr, e) <= L' ->
  bytes_at g 0 DHDR_SIZE = dhdr_bytes (mk_dhdr NYFS_DIRHASH_MAGIC (Z.of_nat (length tbl)) (Z.of_nat (length (concat tbl)) + 1) fr' 0 0) ->
  bytes_at g (DHDR_SIZE + 8 * bucket_of tbl (e_name e)) 8 = le_bytes 8 fr -> stored g fr (first_off l) e ->
  (forall x, DHDR_SIZE <= x < L -> x < DHDR_SIZE + 8 * bucket_of tbl (e_name e) \/ DHDR_SIZE + 8 * bucket_of tbl (e_name e) + 8 <= x ->
     x < fr \/ entry_end (fr, e) <= x -> g x = f x) ->
  dir_rep g L' (<[Z.to_nat (bucket_of tbl (e_name e)) := (fr, e) :: l]> tbl) fr'.
Proof.
  intros Hrep HL Hek Hl Hnone Hfr' HeL Hhdr Hslot Hst Hfg. pose proof Hrep as [Hh Hs Hb He Hd Hn].
  pose proof (bucket_range tbl (e_name e) ltac:(lia)) as Hbr. set (b := bucket_of tbl (e_name e)) in *.
  destruct (concat_bucket tbl _ l Hl) as (rest & H1 & H2).
  assert (Hperm : concat (<[Z.to_nat b := (fr, e) :: l]> tbl) ≡ₚ (fr, e) :: concat tbl) by by rewrite H2, H1.
  assert (Hold : forall p, p ∈ concat tbl -> forall x, p.1 <= x < entry_end p -> g x = f x).
  { intros p Hp x Hx. destruct (He p Hp) as (_ & ? & ? & ?). unfold table_end in *. apply Hfg; unfold DHDR_SIZE in *; lia. }
  assert (Hbk : forall n, bucket_of (<[Z.to_nat b := (fr, e) :: l]> tbl) n = bucket_of tbl n) by (intros n; unfold bucket_of; by rewrite length_insert).
  split.
  - unfold table_header. rewrite length_insert, Hperm. cbn [length]. rewrite Hhdr. do 2 f_equal. lia.
  - rewrite length_insert. unfold table_end, entry_end, DIRENT_SIZE, name_len in *. rewrite length_insert. cbn [fst snd] in *. lia.
  - intros b' l' Hl'. apply list_lookup_insert_Some in Hl' as [(<- & <- & _)|[Hne Hl']].
    + destruct (Hb _ _ Hl) as (Hb1 & Hb2 & Hb3). split; [rewrite Z2Nat.id by lia; exact Hslot|]. split.
      * split; [exact Hst|]. eapply entries_linked_ext; [exact Hb2|]. intros p Hp. apply Hold. by eapply elem_of_concat.
      * constructor; [rewrite Hbk; cbn; lia|]. eapply Forall_impl; [exact Hb3|]. intros p Hp. by rewrite Hbk.
    + destruct (Hb _ _ Hl') as (Hb1 & Hb2 & Hb3). apply lookup_lt_Some in Hl' as Hlt. split; [|split].
      * rewrite <- Hb1. apply bytes_at_ext. intros x Hx. unfold table_end, DHDR_SIZE in *. apply Hfg; lia.
      * eapply entries_linked_ext; [exact Hb2|]. intros p Hp. apply Hold. by eapply elem_of_concat.
      * eapply Forall_impl; [exact Hb3|]. intros p Hp. by rewrite Hbk.
  - intros p. rewrite Hperm. unfold table_end. rewrite length_insert. intros [->|Hp]%elem_of_cons.
    + unfold table_end in *. cbn [fst snd]. split_and!; try done; lia.
    + destruct (He p Hp) as (? & ? & ? & ?). unfold table_end, entry_end, DIRENT_SIZE, name_len in *. cbn [fst snd] in *. split_and!; try done; lia.
  - intros p q. rewrite Hperm. intros [->|Hp]%elem_of_cons [->|Hq]%elem_of_cons.
    + by left.
    + right. right. destruct (He q Hq) as (? & ? & ? & ?). cbn. lia.
    + right. left. destruct (He p Hp) as (? & ? & ? & ?). cbn. lia.
    + by apply Hd.
  - apply (dir_map_insert tbl (Z.to_nat b) l fr e Hl Hn Hnone).
Qed.

(** Where the link to the entry after [l1] is. *)
Definition link_after (b : Z) (l1 : list located) : Z :=
  match last l1 with None => DHDR_SIZE + 8 * b | Some p => p.1 + 8 end.

Lemma dir_rep_remove f g L tbl fr b l1 o e l2 : dir_rep f L tbl fr -> tbl !! b = Some (l1 ++ (o, e) :: l2) ->
  bytes_at g 0 DHDR_SIZE = dhdr_bytes (mk_dhdr NYFS_DIRHASH_MAGIC (Z.of_nat (length tbl)) (Z.of_nat (length (concat tbl)) - 1) fr 0 0) ->
  bytes_at g (link_after (Z.of_nat b) l1) 8 = le_bytes 8 (first_off l2) ->
  (forall x, DHDR_SIZE <= x < L -> x < link_after (Z.of_nat b) l1 \/ link_after (Z.of_nat b) l1 + 8 <= x -> g x = f x) ->
  dir_rep g L (<[b := l1 ++ l2]> tbl) fr.
Proof.
  intros Hrep Hl Hhdr Hlink Hfg. pose proof Hrep as [Hh Hs Hb He Hd Hn]. apply lookup_lt_Some in Hl as Hblt.
  destruct (concat_bucket tbl _ _ Hl) as (rest & H1 & H2).
  assert (Hperm : concat tbl ≡ₚ (o, e) :: concat (<[b := l1 ++ l2]> tbl)) by by rewrite H2, H1, <- Permutation_middle.
  assert (Hbk : forall n, bucket_of (<[b := l1 ++ l2]> tbl) n = bucket_of tbl n) by (intros n; unfold bucket_of; by rewrite length_insert).
  destruct (Hb _ _ Hl) as (Hb1 & Hb2 & Hb3). unfold table_end, DHDR_SIZE in *.
  assert (Hlk : last l1 = None /\ l1 = [] /\ link_after (Z.of_nat b) l1 = 32 + 8 * Z.of_nat b \/
    exists l1' p, l1 = l1' ++ [p] /\ link_after (Z.of_nat b) l1 = p.1 + 8).
  { unfold link_after. destruct l1 as [|p l1' _] using rev_ind; [by left|]. right. exists l1', p. by rewrite last_snoc. }
  (* an entry that is not the last of [l1] keeps its bytes *)
  assert (Hold : forall p, p ∈ concat tbl -> last l1 <> Some p -> forall x, p.1 <= x < entry_end p -> g x = f x).
  { intros p Hp Hne x Hx. destruct (He p Hp) as (_ & ? & ? & ?). apply Hfg; [lia|].
    destruct Hlk as [(_ & _ & ->)|(l1' & q & -> & ->)]; [lia|]. rewrite last_snoc in Hne.
    assert (Hq : q ∈ concat tbl) by (eapply elem_of_concat; [exact Hl|set_solver]).
    destruct (He q Hq) as (_ & ? & ? & ?). unfold entry_end, DIRENT_SIZE, name_len in *.
    destruct (Hd p q Hp Hq) as [->|[?|?]]; [done|lia|lia]. }
  assert (Hne : forall b' l' p, b' <> b -> tbl !! b' = Some l' -> p ∈ l' -> last l1 <> Some p).
  { intros b' l' p Hbb Hl' Hp Hlast. assert (Hp1 : p ∈ l1) by by apply last_Some_elem_of.
    destruct (Hb _ _ Hl') as (_ & _ & Hf'). rewrite Forall_forall in Hf', Hb3.
    specialize (Hf' p Hp). specialize (Hb3 p ltac:(set_solver)). cbn beta in *. lia. }
  split.
  - unfold table_header. rewrite length_insert. rewrite Hperm in Hhdr. cbn [length] in Hhdr.
    replace (Z.of_nat (S (length (concat (<[b:=l1 ++ l2]> tbl)))) - 1) with (Z.of_nat (length (concat (<[b:=l1 ++ l2]> tbl)))) in Hhdr by lia. done.
  - unfold table_end, DHDR_SIZE. by rewrite length_insert.
  - intros b' l' Hl'. apply list_lookup_insert_Some in Hl' as [(<- & <- & _)|[Hbb Hl']].
    + split; [|split].
      * destruct Hlk as [(_ & -> & Hk)|(l1' & p & -> & Hk)]; [by rewrite Hk in Hlink|].
        replace (first_off ((l1' ++ [p]) ++ l2)) with (first_off ((l1' ++ [p]) ++ (o, e) :: l2)) by by destruct l1'.
        rewrite <- Hb1. apply bytes_at_ext. intros x Hx. unfold DHDR_SIZE in *. rewrite Hk in Hfg.
        assert (Hp : p ∈ concat tbl) by (eapply elem_of_concat; [exact Hl|set_solver]). destruct (He p Hp) as (_ & ? & ? & ?). apply Hfg; lia.
      * assert (Hl2 : linked g l2).
        { eapply entries_linked_ext; [apply (linked_app f (l1 ++ [(o, e)])); rewrite <- app_assoc; exact Hb2|].
          intros p Hp. assert (Hpin : p ∈ concat tbl) by (eapply elem_of_concat; [exact Hl|set_solver]).
          apply Hold; [done|]. intros Hlast. apply last_Some_elem_of in Hlast.
          rewrite H1 in Hn. rewrite !fmap_app in Hn. apply NoDup_app in Hn as [Hn _]. apply NoDup_app in Hn as (_ & Hn & _).
          apply (Hn (e_name p.2)); [by apply (list_elem_of_fmap_2 (fun p : located => e_name p.2))|].
          cbn. apply elem_of_cons. right. by apply (list_elem_of_fmap_2 (fun p : located => e_name p.2)). }
        destruct Hlk as [(_ & -> & _)|(l1' & [po pe] & -> & Hk)]; [done|]. rewrite Hk in *. cbn [fst] in *.
        rewrite <- app_assoc in *. cbn [app] in *.
        eapply linked_relink; [exact Hb2|exact Hl2| |].
        -- apply linked_app in Hb2 as [Hb2 _]. eapply stored_relink; [exact Hb2| |exact Hlink].
           intros x Hx Hout. assert (Hp : (po, pe) ∈ concat tbl).
           { eapply elem_of_concat; [exact Hl|]. apply elem_of_app. right. by left. }
           destruct (He _ Hp) as (_ & ? & ? & ?). cbn [fst] in *. apply Hfg; lia.
        -- intros p Hp. apply Hold; [eapply elem_of_concat; [exact Hl|set_solver]|]. rewrite last_snoc. intros [= <-].
           rewrite H1, !fmap_app in Hn. apply NoDup_app in Hn as [Hn _]. apply NoDup_app in Hn as (_ & Hn & _).
           apply (Hn (e_name pe)); [by apply (list_elem_of_fmap_2 (fun p : located => e_name p.2) _ (po, pe))|]. cbn. set_solver.
      * apply Forall_app in Hb3 as [Hb3 Hb4]. apply Forall_cons in Hb4 as [_ Hb4].
        apply Forall_app. split; (eapply Forall_impl; [eassumption|]; intros p Hp; by rewrite Hbk).
    + destruct (Hb _ _ Hl') as (Hc1 & Hc2 & Hc3). apply lookup_lt_Some in Hl' as Hlt. split; [|split].
      * rewrite <- Hc1. apply bytes_at_ext. intros x Hx. unfold DHDR_SIZE in *. apply Hfg; [lia|].
        destruct Hlk as [(_ & _ & ->)|(l1' & q & -> & ->)]; [lia|].
        assert (Hq : q ∈ concat tbl) by (eapply elem_of_concat; [exact Hl|set_solver]). destruct (He q Hq) as (_ & ? & _). lia.
      * eapply entries_linked_ext; [exact Hc2|]. intros p Hp. apply Hold; [by eapply elem_of_concat|by eapply Hne].
      * eapply Forall_impl; [exact Hc3|]. intros p Hp. by rewrite Hbk.
  - intros p Hp. unfold table_end. rewrite length_insert. apply He. rewrite Hperm. by apply elem_of_cons; right.
  - intros p q Hp Hq. apply Hd; rewrite Hperm; by apply elem_of_cons; right.
  - apply (dir_map_remove tbl b l1 o e l2 Hl Hn).
Qed.
