(* ===== verification/NyfsDirOps.v ===== *)
(** * The directory operations of NYFS

    Lookup, insertion and removal in the table of a directory's stream are
    those of the finite map it stands for ([NyfsDirs]). *)

From S2P Require Import Prelude Types Loops Bytes NyfsDisk NyfsDir Nyfs NyfsImage NyfsIo NyfsAlloc NyfsFree NyfsInodes NyfsStream NyfsGrow NyfsReadWrite NyfsDirs.

Lemma hash_range name : 0 <= nyfs_hash_name name < 2 ^ 32.
Proof.
  unfold nyfs_hash_name. assert (H : forall l h, 0 <= h < 2 ^ 32 ->
    0 <= fold_left (fun h c => u32 (Z.lxor h (u8 c) * 16777619)) l h < 2 ^ 32).
  { induction l as [|c l IH]; intros h Hh; [done|]. cbn. apply IH. apply u32_range. }
  apply H. lia.
Qed.

Lemma first_off_zero f L tbl fr b l1 l2 : dir_rep f L tbl fr -> tbl !! b = Some (l1 ++ l2) -> first_off l2 = 0 <-> l2 = [].
Proof.
  intros [_ _ _ He _ _] Hb. destruct l2 as [|p l2]; [done|]. split; [|done]. cbn. intros H0.
  destruct (He p) as (_ & Hp & _); [eapply elem_of_concat; [exact Hb|set_solver]|]. unfold table_end, DHDR_SIZE in Hp. lia.
Qed.

Lemma dir_count f L tbl fr : dir_rep f L tbl fr -> Z.of_nat (length (concat tbl)) <= L.
Proof.
  intros [_ Hs _ He Hd Hn]. assert (Hnd : NoDup (concat tbl)) by by eapply NoDup_fmap_1.
  assert (Hoff : NoDup ((concat tbl).*1)).
  { apply NoDup_fmap_2_strong; [|done]. intros p q Hp Hq Heq. destruct (Hd p q Hp Hq) as [?|Hdis]; [done|].
    unfold entry_end, DIRENT_SIZE, name_len in *. lia. }
  rewrite <- (length_fmap fst). cut (length (concat tbl).*1 <= length (seqZ 0 L))%nat; [rewrite length_seqZ; unfold table_end, DHDR_SIZE in *; lia|].
  apply submseteq_length, NoDup_submseteq; [done|]. intros o (p & -> & Hp)%list_elem_of_fmap. apply elem_of_seqZ.
  destruct (He p Hp) as (_ & ? & _ & ?). unfold table_end, entry_end, DHDR_SIZE, DIRENT_SIZE, name_len in *. lia.
Qed.

Lemma bucket_length {A} (tbl : list (list A)) b l : tbl !! b = Some l -> (length l <= length (concat tbl))%nat.
Proof. intros Hb. destruct (concat_bucket tbl b l Hb) as (rest & -> & _). rewrite length_app. lia. Qed.

(** The bucket of a name decides. *)
Lemma dir_map_bucket f L tbl fr name l : dir_rep f L tbl fr -> tbl !! Z.to_nat (bucket_of tbl name) = Some l ->
  Forall (fun p => e_name p.2 <> name) l -> dir_map tbl !! name = None.
Proof.
  intros [_ Hs Hb _ _ _] Hl Hne. apply dir_map_none. intros p Hp Hpn. destruct (concat_elem tbl p Hp) as (b & l' & Hl' & Hin).
  destruct (Hb b l' Hl') as (_ & _ & Hf). rewrite Forall_forall in Hf, Hne. specialize (Hf p Hin). cbn in Hf. rewrite Hpn in Hf.
  replace b with (Z.to_nat (bucket_of tbl name)) in Hl' by lia. rewrite Hl in Hl'. injection Hl' as <-. by apply (Hne p).
Qed.

(** The table of a new directory. *)
Abbreviation no_entries := (replicate 16 (@nil located)).

Section dirops.
Context (stack : list Z).
Context {D : Type} (read : nyfs_disk_read_fn D) (write : nyfs_disk_write_fn D) (k size : Z) (img : D -> Z -> Z).
Context (HD : disk_laws read write k size img).
Abbreviation nst := (nst D).
Abbreviation vol_ok := (vol_ok read write k size img).
Abbreviation untouched := (untouched size img).
Abbreviation stream_ok := (stream_ok img).
Abbreviation view := (view img).
Abbreviation changes := (changes read write k size img).
Abbreviation written := (written read write k size img).
Abbreviation free_blocks := (free_blocks img).
Implicit Types (s : nst) (ch : chain) (tbl : list (list located)).

(** The stream at [root] holds the table. *)
Definition dir_at (fd : Z) s (root : Z) ch tbl (fr : Z) : Prop :=
  stream_ok fd s root ch /\ dir_rep (view s (data_blocks ch)) (stream_len s ch) tbl fr.

Lemma dir_untouched fd s s' root ch tbl fr : vol_ok fd s -> dir_at fd s root ch tbl fr -> untouched s s' ->
  vol_ok fd s' /\ dir_at fd s' root ch tbl fr /\ stream_len s' ch = stream_len s ch /\
  forall x, 0 <= x < stream_len s ch -> view s' (data_blocks ch) x = view s (data_blocks ch) x.
Proof.
  intros Hok [Hst Hr] Hun. destruct (stream_untouched _ _ _ _ _ HD _ _ _ _ _ Hok Hst Hun) as (Hok' & Hst' & _ & Hbs & _).
  destruct (changes_untouched _ _ _ _ _ fd [] s s' Hok Hun) as [Hc _].
  assert (Hv : forall x, 0 <= x < stream_len s ch -> view s' (data_blocks ch) x = view s (data_blocks ch) x).
  { intros x Hx. eapply (view_unchanged _ _ _ _ _ HD); [exact Hok|exact Hc|by eapply (data_in_range _ _ _ _ _ HD)|set_solver|exact Hx]. }
  assert (Hl : stream_len s' ch = stream_len s ch) by (unfold stream_len; by rewrite Hbs).
  split; [done|]. split; [|done]. split; [done|]. rewrite Hl. eapply dir_rep_ext; [exact Hr| |intros x Hx _; by apply Hv]. destruct Hr as [_ Hs _ _ _ _]. lia.
Qed.

Lemma read_inside fd s root ch off n : vol_ok fd s -> stream_ok fd s root ch -> 0 <= off -> 0 <= n ->
  off + n <= stream_len s ch -> stream_len s ch < 2 ^ 63 ->
  wp (read_stream stack root off n) (fun r s' => r = Ok (bytes_at (view s (data_blocks ch)) off n, n) /\ untouched s s') s.
Proof.
  intros Hok Hst Ho Hn Hl HL. unfold wp, read_stream.
  destruct (wp_run _ _ _ (read_at_spec _ _ _ _ _ HD fd s root ch off n Hok Hst Ho Hn ltac:(lia))) as (r & s' & -> & -> & Hun).
  unfold avail. replace (Z.max 0 (Z.min n (stream_len s ch - off))) with n by lia. change (is_err Nok) with false. split; [|done].
  do 2 f_equal. by rewrite take_app_length' by by rewrite length_bytes_at.
Qed.

Section at_dir.
Context (fd : Z) (s : nst) (root : Z) (ch : chain) (tbl : list (list located)) (fr : Z).
Context (Hok : vol_ok fd s) (Hdir : dir_at fd s root ch tbl fr).
Abbreviation L := (stream_len s ch).
Abbreviation f := (view s (data_blocks ch)).

Lemma dir_root : root <> 0.
Proof.
  destruct Hdir as [Hst Hr]. destruct Hr as [_ Hs _ _ _ _]. destruct Hst as (-> & _ & _ & _ & Hin).
  destruct ch as [|[c es] q]; [unfold stream_len, table_end, DHDR_SIZE in Hs; cbn in Hs; lia|]. cbn [chain_head].
  pose proof (vol_ok_facts _ _ _ _ _ HD _ _ Hok). destruct (Hin c); [unfold own; cbn; set_solver|]. lia.
Qed.

Lemma dir_limits : 0 < Z.of_nat (length tbl) < 2 ^ 32 /\ 32 + 8 * Z.of_nat (length tbl) <= L < 2 ^ 63 /\
  32 + 8 * Z.of_nat (length tbl) <= fr <= L + 7.
Proof. destruct Hdir as [_ [_ Hs _ _ _ _]]. unfold table_end, DHDR_SIZE in Hs. lia. Qed.

Lemma read_dhdr_spec : wp (read_dhdr stack root) (fun r s' => r = Ok (table_header tbl fr) /\ untouched s s') s.
Proof.
  pose proof dir_limits as Hlim. destruct Hdir as [Hst Hr]. unfold read_dhdr. apply wp_tryb.
  eapply wp_mono; [apply (read_inside fd s root ch 0 DHDR_SIZE); [done|done|lia|unfold DHDR_SIZE; lia|unfold DHDR_SIZE; lia|lia]|].
  intros r s' (-> & Hun). cbn [fst snd]. rewrite (dr_header _ _ _ _ Hr). pose proof (dir_count _ _ _ _ Hr).
  rewrite dhdr_of_bytes by (unfold table_header, NYFS_DIRHASH_MAGIC; cbn; lia). cbn [dh_magic dh_bucket_count table_header].
  rewrite !Z.eqb_refl. rewrite (proj2 (Z.eqb_neq (Z.of_nat (length tbl)) 0)) by lia. cbn [negb orb]. by apply wp_ret.
Qed.

Lemma read_bucket_spec name l : tbl !! Z.to_nat (bucket_of tbl name) = Some l ->
  wp (read_bucket stack root (DHDR_SIZE + bucket_of tbl name * 8)) (fun r s' => r = Ok (first_off l) /\ untouched s s') s.
Proof.
  intros Hl. pose proof dir_limits as Hlim. destruct Hdir as [Hst Hr]. pose proof (bucket_range tbl name ltac:(lia)) as Hb.
  unfold read_bucket, DHDR_SIZE. apply wp_tryb. eapply wp_mono; [apply (read_inside fd s root ch _ 8); [done|done|lia..]|].
  intros r s' (-> & Hun). apply wp_ret. split; [|done]. f_equal. cbn [fst].
  destruct (dr_bucket _ _ _ _ Hr _ _ Hl) as (H1 & _). rewrite Z2Nat.id in H1 by lia. unfold DHDR_SIZE in H1.
  replace (32 + bucket_of tbl name * 8) with (32 + 8 * bucket_of tbl name) by lia. rewrite H1. unfold field.
  rewrite drop_0, take_ge by by rewrite length_le_bytes. apply le_bytes_small.
  destruct l as [|p l]; [cbn; lia|]. cbn [first_off]. destruct (dr_entry _ _ _ _ Hr p) as (_ & H2 & _ & H3).
  { eapply elem_of_concat; [exact Hl|set_solver]. }
  unfold table_end, entry_end, DHDR_SIZE, DIRENT_SIZE, name_len in *. change (256 ^ Z.of_nat 8) with (2 ^ 64). lia.
Qed.

Section at_entry.
Context (b : nat) (l1 l2 : list located) (o : Z) (e : dentry) (Hb : tbl !! b = Some (l1 ++ (o, e) :: l2)).

Lemma entry_facts : entry_ok e /\ 32 <= o /\ o + 24 + name_len e <= L /\ stored f o (first_off l2) e /\ 0 <= first_off l2 < 2 ^ 63.
Proof.
  pose proof dir_limits as Hlim. destruct Hdir as [_ Hr].
  assert (Hin : (o, e) ∈ concat tbl) by (eapply elem_of_concat; [exact Hb|set_solver]).
  destruct (dr_entry _ _ _ _ Hr _ Hin) as (He & H2 & _ & H3). destruct (dr_bucket _ _ _ _ Hr _ _ Hb) as (_ & Hlk & _).
  apply linked_app in Hlk as [Hlk _]. unfold table_end, entry_end, DHDR_SIZE, DIRENT_SIZE in *. cbn [fst snd] in *.
  split; [done|]. split; [lia|]. split; [lia|]. split; [done|]. destruct l2 as [|p l2']; [cbn; lia|]. cbn [first_off].
  destruct (dr_entry _ _ _ _ Hr p) as (_ & H4 & _ & H5). { eapply elem_of_concat; [exact Hb|set_solver]. }
  unfold table_end, entry_end, DHDR_SIZE, DIRENT_SIZE, name_len in *. lia.
Qed.

Lemma read_dirent_spec : wp (read_dirent stack root o) (fun r s' => r = Ok (entry_de (first_off l2) e) /\ untouched s s') s.
Proof.
  pose proof entry_facts as ((Hn1 & Hn2 & Hino & Hty) & Ho & Hl & [Hs1 _] & Hf). pose proof dir_limits as Hlim. destruct Hdir as [Hst Hr].
  unfold read_dirent. apply wp_tryb. unfold NYFS_NAME_MAX in *.
  eapply wp_mono; [apply (read_inside fd s root ch o DIRENT_SIZE); [done|done|lia|unfold DIRENT_SIZE; lia|unfold DIRENT_SIZE; lia|lia]|].
  intros r s' (-> & Hun). cbn [fst snd]. rewrite Z.eqb_refl. cbn [negb]. apply wp_ret. split; [|done]. f_equal. rewrite Hs1.
  pose proof (hash_range (e_name e)). apply de_of_bytes; unfold entry_de; cbn; lia.
Qed.

Lemma entry_is_spec name : 1 <= Z.of_nat (length name) <= NYFS_NAME_MAX ->
  wp (entry_is stack root o (entry_de (first_off l2) e) name (nyfs_hash_name name)) (fun r s' =>
    r = Ok (bool_decide (e_name e = name)) /\ untouched s s') s.
Proof.
  intros Hname. pose proof entry_facts as ((Hn1 & Hn2 & Hino & Hty) & Ho & Hl & [_ Hs2] & Hf). pose proof dir_limits as Hlim.
  destruct Hdir as [Hst Hr]. unfold entry_is, entry_de. cbn [de_name_hash de_name_len]. case_if.
  - rewrite uw_small by (unfold DIRENT_SIZE; lia). apply wp_tryb.
    eapply wp_mono; [apply (read_inside fd s root ch); [done|done|unfold DIRENT_SIZE; lia|lia|unfold DIRENT_SIZE; lia|lia]|].
    intros r s' (-> & Hun). apply wp_ret. split; [|done]. cbn [fst]. rewrite <- H0, Hs2. done.
  - apply wp_ret. split; [|by split]. f_equal. symmetry. apply bool_decide_eq_false. intros <-.
    unfold name_len in *. rewrite !Z.eqb_refl in *. done.
Qed.
End at_entry.
End at_dir.

(** ** Lookup *)

Lemma bad_name_spec name : bad_name name = negb (bool_decide (1 <= Z.of_nat (length name) <= NYFS_NAME_MAX)).
Proof. unfold bad_name, NYFS_NAME_MAX. case_bool_decide; destruct name; cbn [length Nat.eqb orb negb] in *; lia. Qed.

Lemma split_at_name (l : list located) name :
  Forall (fun p => e_name p.2 <> name) l \/
  exists l1 o e l2, l = l1 ++ (o, e) :: l2 /\ e_name e = name /\ Forall (fun p => e_name p.2 <> name) l1.
Proof.
  induction l as [|[o e] l IH]; [by left|]. destruct (decide (e_name e = name)).
  - right. by exists [], o, e, l.
  - destruct IH as [?|(l1 & o' & e' & l2 & -> & ? & ?)]; [left; by constructor|]. right. exists ((o, e) :: l1), o', e', l2.
    split_and!; [done..|by constructor].
Qed.

(** The walk along a bucket stops at the entry with the name, or at the end. *)
Lemma walk_entry fd s s1 root ch tbl fr name b l1 o e l2 : vol_ok fd s -> dir_at fd s root ch tbl fr -> untouched s s1 ->
  tbl !! b = Some (l1 ++ (o, e) :: l2) -> 1 <= Z.of_nat (length name) <= NYFS_NAME_MAX ->
  o <> 0 /\
  wp (read_dirent stack root o) (fun r s' => r = Ok (entry_de (first_off l2) e) /\ untouched s s' /\
    wp (entry_is stack root o (entry_de (first_off l2) e) name (nyfs_hash_name name))
      (fun r s' => r = Ok (bool_decide (e_name e = name)) /\ untouched s s') s') s1.
Proof.
  intros Hok Hd Hun Hb Hn. destruct (dir_untouched _ _ _ _ _ _ _ Hok Hd Hun) as (Hok1 & Hd1 & _).
  destruct (entry_facts fd s root ch tbl fr Hok Hd b l1 l2 o e Hb) as (_ & Ho & _). split; [lia|].
  eapply wp_mono; [by apply (read_dirent_spec fd s1 root ch tbl fr Hok1 Hd1 b l1 l2 o e)|]. intros r s2 (-> & Hun2).
  assert (Hun' : untouched s s2) by by eapply untouched_trans. split; [done|]. split; [done|].
  destruct (dir_untouched _ _ _ _ _ _ _ Hok Hd Hun') as (Hok2 & Hd2 & _).
  eapply wp_mono; [by apply (entry_is_spec fd s2 root ch tbl fr Hok2 Hd2 b l1 l2 o e)|]. intros r s3 (-> & Hun3).
  split; [done|]. by eapply untouched_trans.
Qed.

Lemma lookup_spec fd s dir ch tbl fr name : vol_ok fd s -> dir_at fd s (in_dir_hash_root dir) ch tbl fr ->
  1 <= Z.of_nat (length name) <= NYFS_NAME_MAX ->
  wp (nyfs_dirhash_lookup stack dir name) (fun r s' =>
    r = match dir_map tbl !! name with Some x => Ok x | None => Err NnotFound end /\ untouched s s') s.
Proof.
  intros Hok Hd Hn. set (root := in_dir_hash_root dir) in *. unfold nyfs_dirhash_lookup. fold root.
  pose proof (dir_root fd s root ch tbl fr Hok Hd) as Hroot. unfold NYFS_BLKNO_NONE.
  rewrite (proj2 (Z.eqb_neq root 0)), bad_name_spec, bool_decide_true by done. cbn [negb].
  pose proof (dir_limits fd s root ch tbl fr Hd) as Hlim. pose proof Hd as [Hst Hr]. pose proof (dir_count _ _ _ _ Hr) as Hcnt.
  apply wp_tryb. eapply wp_mono; [by apply (read_dhdr_spec fd s root ch tbl fr)|]. intros r s1 (-> & Hun1).
  destruct (dir_untouched _ _ _ _ _ _ _ Hok Hd Hun1) as (Hok1 & Hd1 & _).
  destruct (bucket_lookup _ _ _ _ name Hr) as [l Hl]. pose proof (bucket_length _ _ _ Hl) as Hll.
  apply wp_tryb. unfold bucket_slot, table_header. cbn [dh_bucket_count]. fold (bucket_of tbl name).
  eapply wp_mono; [by apply (read_bucket_spec fd s1 root ch tbl fr Hok1 Hd1 name l)|]. intros r s2 (-> & Hun2).
  apply (wp_loop _ _ (fun n cur s' => exists l1 l2, l = l1 ++ l2 /\ n = Z.of_nat (length l2) /\ cur = first_off l2 /\
    Forall (fun p => e_name p.2 <> name) l1 /\ untouched s s') _ (Z.of_nat (length l))); [|lia|].
  { exists [], l. split_and!; [done..|]. by eapply untouched_trans. }
  intros n cur s3 (l1 & l2 & -> & -> & -> & Hne & Hun3). destruct l2 as [|[o e] l2].
  - cbn [first_off]. rewrite Z.eqb_refl. apply wp_ret. split; [|done]. rewrite app_nil_r in Hl. by rewrite (dir_map_bucket _ _ _ _ _ _ Hr Hl).
  - destruct (walk_entry fd s s3 root ch tbl fr name _ l1 o e l2 Hok Hd Hun3 Hl Hn) as [Ho Hw]. cbn [first_off fst].
    rewrite (proj2 (Z.eqb_neq o 0)) by done. apply wp_stepb. eapply wp_mono; [exact Hw|]. intros r s4 (-> & Hun4 & Hw2).
    apply wp_stepb. eapply wp_mono; [exact Hw2|]. intros r s5 (-> & Hun5). case_bool_decide as He.
    + apply wp_ret. split; [|done]. destruct Hr as [_ _ _ _ _ Hnd].
      pose proof (dir_map_some tbl (o, e) Hnd ltac:(eapply elem_of_concat; [exact Hl|set_solver])) as Hm. cbn [snd] in Hm.
      by rewrite <- He, Hm.
    + apply wp_ret. exists (Z.of_nat (length l2)). split; [|cbn [length]; lia]. exists (l1 ++ [(o, e)]), l2.
      rewrite <- app_assoc. split_and!; try done. apply Forall_app. split; [done|]. by apply Forall_singleton.
Qed.

(** The walk of a removal. *)
Lemma find_link_spec fd s root ch tbl fr name l s1 : vol_ok fd s -> dir_at fd s root ch tbl fr -> untouched s s1 ->
  1 <= Z.of_nat (length name) <= NYFS_NAME_MAX -> tbl !! Z.to_nat (bucket_of tbl name) = Some l ->
  wp (find_link stack root (DHDR_SIZE + bucket_of tbl name * 8) name (nyfs_hash_name name) (first_off l)) (fun r s' =>
    untouched s s' /\ match r with
    | Ok (link, next) => exists l1 o e l2, l = l1 ++ (o, e) :: l2 /\ e_name e = name /\
        link = link_after (bucket_of tbl name) l1 /\ next = first_off l2
    | Err e => e = NnotFound /\ dir_map tbl !! name = None
    end) s1.
Proof.
  intros Hok Hd Hun1 Hn Hl. pose proof (dir_limits fd s root ch tbl fr Hd) as Hlim. pose proof Hd as [Hst Hr].
  pose proof (dir_count _ _ _ _ Hr) as Hcnt. pose proof (bucket_length _ _ _ Hl) as Hll.
  apply (wp_loop _ _ (fun n '(prev, cur) s' => exists l1 l2, l = l1 ++ l2 /\ n = Z.of_nat (length l2) /\ cur = first_off l2 /\
    prev = match last l1 with None => 0 | Some p => p.1 end /\
    Forall (fun p => e_name p.2 <> name) l1 /\ untouched s s') _ (Z.of_nat (length l))); [|lia|].
  { exists [], l. by split_and!. }
  intros n [prev cur] s3 (l1 & l2 & -> & -> & -> & -> & Hne & Hun3). destruct l2 as [|[o e] l2].
  - cbn [first_off]. rewrite Z.eqb_refl. apply wp_ret. split; [done|]. rewrite app_nil_r in Hl. by rewrite (dir_map_bucket _ _ _ _ _ _ Hr Hl).
  - destruct (walk_entry fd s s3 root ch tbl fr name _ l1 o e l2 Hok Hd Hun3 Hl Hn) as [Ho Hw]. cbn [first_off fst].
    rewrite (proj2 (Z.eqb_neq o 0)) by done. apply wp_stepb. eapply wp_mono; [exact Hw|]. intros r s4 (-> & Hun4 & Hw2).
    apply wp_stepb. eapply wp_mono; [exact Hw2|]. intros r s5 (-> & Hun5). case_bool_decide as He.
    + apply wp_ret. split; [done|]. exists l1, o, e, l2. split; [done|]. split; [done|]. split; [|done]. unfold link_after.
      destruct l1 as [|p l1' _] using rev_ind; [cbn; lia|]. rewrite last_snoc.
      destruct (dr_entry _ _ _ _ Hr p) as (_ & H1 & _ & H2); [eapply elem_of_concat; [exact Hl|set_solver]|].
      unfold table_end, entry_end, DHDR_SIZE, DIRENT_SIZE, name_len in *. rewrite (proj2 (Z.eqb_neq p.1 0)) by lia. apply uw_small. lia.
    + apply wp_ret. exists (Z.of_nat (length l2)). split; [|cbn [length]; lia]. exists (l1 ++ [(o, e)]), l2.
      rewrite <- app_assoc, last_snoc. split_and!; try done. apply Forall_app. split; [done|]. by apply Forall_singleton.
Qed.

(** ** Insertion *)

Lemma dir_write_rule (Q : res unit * nyfs_inode_t -> nst -> Prop) dir off buf kont s :
  wp (nyfs_extent_write_at (in_dir_hash_root dir) off buf) (fun r s' =>
    let dir' := set_in_dir r.2 (in_dir_entry_count dir) dir in
    match r.1 with Ok _ => wp (kont dir') Q s' | Err e => Q (Err e, dir') s' end) s ->
  wp (dir_write dir off buf kont) Q s.
Proof. unfold wp, dir_write. by destruct (nyfs_extent_write_at _ off buf s) as [[[n|e] root] s']. Qed.

Lemma set_in_dir_twice r1 n1 r2 n2 dir : set_in_dir r2 n2 (set_in_dir r1 n1 dir) = set_in_dir r2 n2 dir.
Proof. by destruct dir. Qed.

(** What [nyfs_dirhash_insert] leaves: the name added, or nothing changed. *)
Definition inserted (fd : Z) s dir ch tbl (name : list Z) (ino ty : Z) (r : res unit * nyfs_inode_t) s' : Prop :=
  exists ch' tbl' fr', written fd s ch s' (in_dir_hash_root r.2) ch' /\ dir_at fd s' (in_dir_hash_root r.2) ch' tbl' fr' /\
    match r.1 with
    | Ok _ => dir_map tbl' = <[name := (ino, ty)]> (dir_map tbl) /\ length tbl' = length tbl /\
        Z.of_nat (length (concat tbl')) = Z.of_nat (length (concat tbl)) + 1 /\
        r.2 = set_in_dir (in_dir_hash_root r.2) (Z.of_nat (length (concat tbl'))) dir
    | Err e => e = NdiskFull /\ (base.size (free_blocks s) <= 1)%nat /\ tbl' = tbl /\
        r.2 = set_in_dir (in_dir_hash_root r.2) (in_dir_entry_count dir) dir
    end.

Lemma record_size_spec n : 0 <= n <= 255 ->
  DIRENT_SIZE + n <= Z.land (DIRENT_SIZE + n + 7) (unot 64 7) <= DIRENT_SIZE + n + 7.
Proof.
  intros Hn. unfold DIRENT_SIZE. change (unot 64 7) with (unot 64 (2 ^ 3 - 1)). rewrite (align_down_pow2 64 (24 + n + 7) 3) by lia. pose proof (Z.mod_pos_bound (24 + n + 7) 8 ltac:(lia)).
  change (2 ^ 3) with 8. lia.
Qed.

(** A write beyond the records in use keeps the table, if it fails. *)
Lemma dir_failed fd s s' root ch ch' tbl fr root' en e : vol_ok fd s -> dir_at fd s root ch tbl fr ->
  wfailed read write k size img fd s ch s' root' ch' en e -> dir_at fd s' root' ch' tbl fr.
Proof.
  intros Hok [_ Hr] (_ & _ & _ & Hw & Hl & Hv). destruct (written_facts _ _ _ _ _ _ _ _ _ _ _ Hw) as (Hok' & Hst' & _). split; [done|].
  pose proof (stream_len_bound _ _ _ _ _ HD _ _ _ _ Hok' Hst'). pose proof (dl_size _ _ _ _ _ HD).
  eapply dir_rep_ext; [exact Hr|lia|]. intros x Hx _. by apply Hv.
Qed.

Lemma dir_wstep fd s s' root ch ch' tbl fr root' off buf : vol_ok fd s -> dir_at fd s root ch tbl fr -> fr <= off ->
  wstep read write k size img fd s ch s' root' ch' off buf -> dir_at fd s' root' ch' tbl fr.
Proof.
  intros Hok [_ Hr] Hf (Hw & Hl & _ & _ & Hv). destruct (written_facts _ _ _ _ _ _ _ _ _ _ _ Hw) as (Hok' & Hst' & _). split; [done|].
  pose proof (stream_len_bound _ _ _ _ _ HD _ _ _ _ Hok' Hst'). pose proof (dl_size _ _ _ _ _ HD).
  eapply dir_rep_ext; [exact Hr|lia|]. intros x Hx Hxf. apply Hv; lia.
Qed.

Abbreviation wstep := (wstep read write k size img).

Lemma insert_rep fd s s1 s2 s3 s4 root r1 r2 r3 r4 ch c1 c2 c3 c4 tbl fr fr' e l : vol_ok fd s -> dir_at fd s root ch tbl fr ->
  entry_ok e -> tbl !! Z.to_nat (bucket_of tbl (e_name e)) = Some l -> dir_map tbl !! e_name e = None ->
  DIRENT_SIZE + name_len e <= fr' - fr <= DIRENT_SIZE + name_len e + 7 ->
  wstep fd s ch s1 r1 c1 fr (de_bytes (entry_de (first_off l) e)) ->
  wstep fd s1 c1 s2 r2 c2 (fr + DIRENT_SIZE) (e_name e) ->
  wstep fd s2 c2 s3 r3 c3 (DHDR_SIZE + bucket_of tbl (e_name e) * 8) (le_bytes 8 fr) ->
  wstep fd s3 c3 s4 r4 c4 0
    (dhdr_bytes (mk_dhdr NYFS_DIRHASH_MAGIC (Z.of_nat (length tbl)) (Z.of_nat (length (concat tbl)) + 1) fr' 0 0)) ->
  dir_at fd s4 r4 c4 (<[Z.to_nat (bucket_of tbl (e_name e)) := (fr, e) :: l]> tbl) fr'.
Proof.
  intros Hok Hd He Hl Hnone Hfr' W1 W2 W3 W4. pose proof (dir_limits fd s root ch tbl fr Hd) as Hlim. pose proof Hd as [Hst Hr].
  pose proof (bucket_range tbl (e_name e) ltac:(lia)) as Hb. set (b := bucket_of tbl (e_name e)) in *.
  assert (Hld : Z.of_nat (length (de_bytes (entry_de (first_off l) e))) = 24) by (unfold de_bytes; by rewrite !length_app, !length_le_bytes).
  assert (Hlh : forall h, Z.of_nat (length (dhdr_bytes h)) = 32) by (intros h; unfold dhdr_bytes; by rewrite !length_app, !length_le_bytes).
  pose proof (wstep_in _ _ _ _ _ _ _ _ _ _ _ _ _ W1) as I1. pose proof (wstep_in _ _ _ _ _ _ _ _ _ _ _ _ _ W2) as I2.
  pose proof (wstep_in _ _ _ _ _ _ _ _ _ _ _ _ _ W3) as I3. pose proof (wstep_in _ _ _ _ _ _ _ _ _ _ _ _ _ W4) as I4.
  rewrite Hld in I1. rewrite length_le_bytes in I3. rewrite Hlh in I4.
  destruct W4 as (Hw4 & Hl4 & Hf4 & _ & O4). rewrite Hlh in O4.
  destruct (written_facts _ _ _ _ _ _ _ _ _ _ _ Hw4) as (Hok4 & Hst4 & _). split; [done|].
  pose proof (stream_len_bound _ _ _ _ _ HD _ _ _ _ Hok4 Hst4). pose proof (dl_size _ _ _ _ _ HD).
  destruct W1 as (_ & Hl1 & Hf1 & _ & O1). destruct W2 as (_ & Hl2 & Hf2 & _ & O2). destruct W3 as (_ & Hl3 & Hf3 & _ & O3).
  rewrite Hld in O1, Hf1. rewrite length_le_bytes in O3, Hf3. unfold entry_end, DIRENT_SIZE, DHDR_SIZE, name_len in *.
  eapply dir_rep_insert; [exact Hr|lia|done|exact Hl|done|unfold entry_end, DIRENT_SIZE, name_len; cbn [fst snd]; lia..| | | |].
  - exact I4.
  - transitivity (bytes_at (view s3 (data_blocks c3)) (DHDR_SIZE + 8 * b) 8); unfold DHDR_SIZE.
    + apply bytes_at_ext. intros x Hx. apply O4; unfold DHDR_SIZE in *; lia.
    + rewrite <- I3. replace (32 + 8 * b) with (32 + b * 8) by lia. done.
  - split; unfold DIRENT_SIZE, name_len.
    + rewrite <- I1. apply bytes_at_ext. intros x Hx. by rewrite O4, O3, O2 by lia.
    + transitivity (bytes_at (view s2 (data_blocks c2)) (fr + 24) (Z.of_nat (length (e_name e)))); [|exact I2].
      apply bytes_at_ext. intros x Hx. by rewrite O4, O3 by lia.
  - unfold entry_end, DIRENT_SIZE, DHDR_SIZE, name_len. cbn [fst snd]. intros x Hx Hs Hn. by rewrite O4, O3, O2, O1 by lia.
Qed.

Lemma table_insert tbl b l x : tbl !! b = Some l -> length (<[b := x :: l]> tbl) = length tbl /\
  Z.of_nat (length (concat (<[b := x :: l]> tbl))) = Z.of_nat (length (concat tbl)) + 1.
Proof.
  intros Hl. split; [by rewrite length_insert|]. destruct (concat_bucket tbl b l Hl) as (rest & H1 & H2).
  rewrite H2, H1, !length_app. cbn [length]. lia.
Qed.

(** The four writes of an insertion. *)
Definition insert_writes (hdr : nyfs_dirhash_header_t) (slot : Z) (dir : nyfs_inode_t) (de : nyfs_dirent_t) (fr : Z) (name : list Z) :=
  dir_write (D := D) dir fr (de_bytes de) (fun dir =>
  dir_write dir (u64 (fr + DIRENT_SIZE)) name (fun dir =>
  dir_write dir slot (le_bytes 8 fr) (fun dir =>
  dir_write dir 0 (dhdr_bytes hdr) (fun dir =>
  ret (Ok tt, set_entries (dh_entry_count hdr) dir))))).

Lemma insert_writes_spec fd s dir ch tbl fr fr' name ino ty l : vol_ok fd s -> dir_at fd s (in_dir_hash_root dir) ch tbl fr ->
  entry_ok (mk_entry name ino ty) -> dir_map tbl !! name = None -> tbl !! Z.to_nat (bucket_of tbl name) = Some l ->
  DIRENT_SIZE + Z.of_nat (length name) <= fr' - fr <= DIRENT_SIZE + Z.of_nat (length name) + 7 ->
  wp (insert_writes (mk_dhdr NYFS_DIRHASH_MAGIC (Z.of_nat (length tbl)) (Z.of_nat (length (concat tbl)) + 1) fr' 0 0)
        (DHDR_SIZE + bucket_of tbl name * 8) dir (entry_de (first_off l) (mk_entry name ino ty)) fr name)
     (inserted fd s dir ch tbl name ino ty) s.
Proof.
  intros Hok Hd He Hnone Hl Hfr'. set (e := mk_entry name ino ty) in *.
  pose proof (dir_limits _ _ _ _ _ _ Hd) as Hlim. pose proof Hd as [Hst Hr].
  pose proof (dl_size _ _ _ _ _ HD) as Hsz. pose proof (stream_len_bound _ _ _ _ _ HD _ _ _ _ Hok Hst) as HL.
  pose proof (vol_ok_facts _ _ _ _ _ HD _ _ Hok) as Hvf. pose proof (bucket_range tbl name ltac:(lia)) as Hb.
  assert (Hne : 1 <= Z.of_nat (length name) <= 255) by apply He.
  assert (Hld : Z.of_nat (length (de_bytes (entry_de (first_off l) e))) = 24) by (unfold de_bytes; by rewrite !length_app, !length_le_bytes).
  assert (Hlh : forall h, Z.of_nat (length (dhdr_bytes h)) = 32) by (intros h; unfold dhdr_bytes; by rewrite !length_app, !length_le_bytes).
  unfold insert_writes, DIRENT_SIZE, DHDR_SIZE in *. rewrite (uw_small 64 (fr + 24)) by lia.
  pose proof (le_bytes_ne 8 fr ltac:(lia)) as Hne8.
  apply dir_write_rule. eapply wp_mono; [apply (write_step _ _ _ _ _ HD fd s _ ch); [done|done|lia|rewrite Hld; lia|apply is_bytes_de|apply de_bytes_ne]|].
  intros [[n1|e1] root1] s1 (c1 & H1); cbn [fst snd] in *.
  2: { exists c1, tbl, fr. pose proof H1 as (-> & Hlt1 & Hsz1%short_le & Hw1 & _). split; [done|]. split; [by eapply dir_failed|].
       rewrite (written_same_size _ _ _ _ _ HD _ _ _ _ _ _ Hw1) in Hsz1 by lia. by split_and!. }
  destruct H1 as (_ & W1). pose proof (dir_wstep _ _ _ _ _ _ _ _ _ _ _ Hok Hd ltac:(done) W1) as Hd1.
  pose proof W1 as (Hw1 & _). destruct (written_facts _ _ _ _ _ _ _ _ _ _ _ Hw1) as (Hok1 & Hst1 & Hbs1 & _).
  apply dir_write_rule. eapply wp_mono; [apply (write_step _ _ _ _ _ HD fd s1 _ c1); [done|done|lia|lia|apply He|intros ->; cbn in Hne; lia]|].
  intros [[n2|e2] root2] s2 (c2 & H2); cbn [fst snd] in *; rewrite set_in_dir_twice.
  2: { exists c2, tbl, fr. pose proof H2 as (-> & Hlt2 & Hsz2%short_le & Hw2 & _).
       assert (Hw02 : written fd s ch s2 root2 c2) by by eapply written_trans. split; [done|].
       split; [by eapply (dir_failed fd s1)|]. rewrite (written_same_size _ _ _ _ _ HD _ _ _ _ _ _ Hw02) in Hsz2 by lia. by split_and!. }
  destruct H2 as (_ & W2). pose proof W2 as (Hw2 & Hl2 & _). destruct (written_facts _ _ _ _ _ _ _ _ _ _ _ Hw2) as (Hok2 & Hst2 & Hbs2 & _).
  pose proof W1 as (_ & Hl1 & _).
  apply dir_write_rule. eapply wp_mono; [apply (write_step _ _ _ _ _ HD fd s2 _ c2); [done|done|lia|rewrite length_le_bytes; lia|apply is_bytes_le_bytes|done]|].
  intros [[n3|e3] root3] s3 (c3 & H3); cbn [fst snd] in *; rewrite set_in_dir_twice.
  2: { exfalso. destruct H3 as (_ & Hlt & _ & _ & Hge & _). rewrite length_le_bytes in Hlt. lia. }
  destruct H3 as (_ & W3). pose proof W3 as (Hw3 & Hl3 & _). destruct (written_facts _ _ _ _ _ _ _ _ _ _ _ Hw3) as (Hok3 & Hst3 & Hbs3 & _).
  apply dir_write_rule. eapply wp_mono; [apply (write_step _ _ _ _ _ HD fd s3 _ c3); [done|done|lia|rewrite Hlh; lia|apply is_bytes_dhdr|apply dhdr_bytes_ne]|].
  intros [[n4|e4] root4] s4 (c4 & H4); cbn [fst snd] in *; rewrite set_in_dir_twice.
  2: { exfalso. destruct H4 as (_ & Hlt & _ & _ & Hge & _). rewrite Hlh in Hlt. lia. }
  destruct H4 as (_ & W4). pose proof W4 as (Hw4 & _). apply wp_ret.
  destruct (table_insert tbl _ l (fr, e) Hl) as [Hlen Hcnt].
  exists c4, (<[Z.to_nat (bucket_of tbl name) := (fr, e) :: l]> tbl), fr'. split.
  { apply (written_trans _ _ _ _ _ HD fd s s3 s4 root3 _ ch c3 c4); [|exact Hw4].
    apply (written_trans _ _ _ _ _ HD fd s s2 s3 root2 _ ch c2 c3); [|exact Hw3]. by eapply written_trans. }
  split; [by eapply (insert_rep fd s s1 s2 s3 s4 _ _ _ _ _ ch c1 c2 c3 c4 tbl fr fr' e l)|]. cbn [fst snd].
  split; [apply (dir_map_insert tbl _ l fr e Hl); [apply (dr_names _ _ _ _ Hr)|done]|]. split; [done|]. split; [done|].
  unfold set_entries. cbn [dh_entry_count]. rewrite Hcnt. by destruct dir.
Qed.

Lemma insert_entry_spec fd s dir ch tbl fr name ino ty : vol_ok fd s -> dir_at fd s (in_dir_hash_root dir) ch tbl fr ->
  entry_ok (mk_entry name ino ty) -> dir_map tbl !! name = None ->
  wp (insert_entry stack dir name ino ty) (inserted fd s dir ch tbl name ino ty) s.
Proof.
  intros Hok Hd He Hnone. set (root := in_dir_hash_root dir) in *.
  pose proof (dir_limits _ _ _ _ _ _ Hd) as Hlim. pose proof Hd as [Hst Hr]. pose proof (dir_count _ _ _ _ Hr) as Hcnt.
  pose proof (dl_size _ _ _ _ _ HD) as Hsz. pose proof (stream_len_bound _ _ _ _ _ HD _ _ _ _ Hok Hst) as HL.
  destruct (bucket_lookup _ _ _ _ name Hr) as [l Hl]. assert (Hne : 1 <= Z.of_nat (length name) <= 255) by apply He.
  unfold insert_entry. fold root. unfold wp at 1.
  assert (Hread : wp (hdr <-? read_dhdr stack root ;; old_head <-? read_bucket stack root (bucket_slot hdr (nyfs_hash_name name)) ;; ok (hdr, old_head))
    (fun r s' => r = Ok (table_header tbl fr, first_off l) /\ untouched s s') s).
  { apply wp_tryb. eapply wp_mono; [by apply (read_dhdr_spec fd s root ch tbl fr)|]. intros r s1 (-> & Hun1).
    destruct (dir_untouched _ _ _ _ _ _ _ Hok Hd Hun1) as (Hok1 & Hd1 & _). apply wp_tryb.
    unfold bucket_slot, table_header. cbn [dh_bucket_count]. fold (bucket_of tbl name).
    eapply wp_mono; [by apply (read_bucket_spec fd s1 root ch tbl fr Hok1 Hd1 name l)|]. intros r s2 (-> & Hun2). apply wp_ret.
    split; [done|]. by eapply untouched_trans. }
  destruct (wp_run _ _ _ Hread) as (r & s0 & -> & -> & Hun). destruct (dir_untouched _ _ _ _ _ _ _ Hok Hd Hun) as (Hok0 & Hd0 & _).
  pose proof (record_size_spec (Z.of_nat (length name)) ltac:(lia)) as Hrs. set (rs := Z.land _ _) in *. cbn zeta.
  cbn [table_header dh_free_offset dh_entry_count]. unfold set_dh. cbn [table_header dh_magic dh_bucket_count dh_checksum dh_reserved0].
  unfold DIRENT_SIZE in *. rewrite (uw_small 64 (Z.of_nat (length (concat tbl)) + 1)), (uw_small 64 (fr + rs)), (uw_small 16), (uw_small 8) by (lia || apply He).
  eapply (wp_mono (insert_writes _ _ _ _ _ _) _ _ s0);
    [apply (insert_writes_spec fd s0 dir ch tbl fr (fr + rs) name ino ty l Hok0 Hd0 He Hnone Hl); unfold DIRENT_SIZE; lia|].
  intros r s4 (ch' & tbl' & fr' & Hw & Hd' & Hrest). exists ch', tbl', fr'.
  destruct (stream_untouched _ _ _ _ _ HD _ _ _ _ _ Hok Hst Hun) as (_ & _ & Hfr & _). rewrite Hfr in Hrest. split; [|done].
  eapply written_trans; [done| |exact Hw]. by eapply written_untouched.
Qed.

(** ** A new table *)


Lemma dir_rep_empty f L : 160 <= L < 2 ^ 63 -> bytes_at f 0 32 = dhdr_bytes (mk_dhdr NYFS_DIRHASH_MAGIC 16 0 160 0 0) ->
  bytes_at f 32 128 = replicate 128 0 -> dir_rep f L no_entries 160.
Proof.
  intros HL Hh Hz. assert (Hc : concat no_entries = []) by done. split.
  - exact Hh.
  - unfold table_end, DHDR_SIZE. rewrite length_replicate. lia.
  - intros b l [-> Hb]%lookup_replicate. split; [|split; [done|constructor]]. unfold DHDR_SIZE.
    rewrite <- (bytes_at_slice f 32 128 (8 * Z.of_nat b) 8), Hz by lia. rewrite drop_replicate, take_replicate.
    replace (_ `min` _)%nat with 8%nat by lia. done.
  - rewrite Hc. set_solver.
  - rewrite Hc. set_solver.
  - rewrite Hc. constructor.
Qed.

Lemma stream_nil fd s : stream_ok fd s NYFS_BLKNO_NONE [].
Proof. split; [done|]. split; [done|]. split; [constructor|]. split; [constructor|]. cbn. set_solver. Qed.

Lemma dirhash_create_spec fd s dir : vol_ok fd s ->
  wp (nyfs_dirhash_create dir) (fun r s' => exists ch', written fd s [] s' (in_dir_hash_root r.2) ch' /\
    match r.1 with
    | Ok _ => dir_at fd s' (in_dir_hash_root r.2) ch' no_entries 160 /\ r.2 = set_in_dir (in_dir_hash_root r.2) 0 dir /\
        stream_len s' ch' = bsize s
    | Err e => e = NdiskFull /\ (base.size (free_blocks s) <= 1)%nat /\ ch' = [] /\
        r.2 = set_in_dir NYFS_BLKNO_NONE (in_dir_entry_count dir) dir
    end) s.
Proof.
  intros Hok. pose proof (vol_ok_facts _ _ _ _ _ HD _ _ Hok) as Hvf.
  assert (Hlh : forall h, Z.of_nat (length (dhdr_bytes h)) = 32) by (intros h; unfold dhdr_bytes; by rewrite !length_app, !length_le_bytes).
  unfold nyfs_dirhash_create, NYFS_DIRHASH_DEFAULT_BUCKETS, DHDR_SIZE.
  apply dir_write_rule. eapply wp_mono; [apply (write_step_short _ _ _ _ _ HD fd s _ []); [done|apply stream_nil|lia|rewrite Hlh; lia|apply is_bytes_dhdr|done]|].
  intros [[n1|e1] root1] s1 (c1 & H1); cbn [fst snd] in *; rewrite set_in_dir_twice.
  2: { exists c1. destruct H1 as (-> & Hlt & Hsz%short_le & Hw & _). split; [done|]. split; [done|]. rewrite Hlh in Hlt.
       rewrite (written_same_size _ _ _ _ _ HD _ _ _ _ _ _ Hw) in Hsz by (change (stream_len s []) with 0; lia). split; [done|].
       destruct (written_facts _ _ _ _ _ _ _ _ _ _ _ Hw) as (_ & Hst1 & Hbs1 & _). destruct Hw as (N & bl & _ & Hd & Hown & _ & _ & _ & [HN _] & _).
       assert (Hnil : data_blocks c1 = []).
       { unfold stream_len in Hlt. rewrite Hbs1 in Hlt. destruct (data_blocks c1); [done|]. cbn [length] in Hlt. nia. }
       rewrite Hnil in Hd. cbn in Hd. subst bl. destruct N as [|x N]; [|cbn in HN; lia]. cbn in Hown.
       assert (Hc1 : c1 = []) by (destruct c1 as [|[]]; [done|]; by apply Permutation_nil_r in Hown). split; [done|].
       destruct Hst1 as (-> & _). by rewrite Hc1. }
  destruct H1 as (_ & W1 & Hshort1). pose proof W1 as (Hw1 & _ & Hf1 & _). destruct (written_facts _ _ _ _ _ _ _ _ _ _ _ Hw1) as (Hok1 & Hst1 & Hbs1 & _).
  assert (HL1 : 160 <= stream_len s1 c1).
  { rewrite Hlh in Hf1. unfold stream_len in *. rewrite Hbs1 in *. destruct (data_blocks c1); cbn [length] in *; nia. }
  apply dir_write_rule. eapply wp_mono; [apply (write_step_short _ _ _ _ _ HD fd s1 _ c1); [done|done|lia|rewrite length_replicate; lia| |done]|].
  { by apply Forall_replicate. }
  intros [[n2|e2] root2] s2 (c2 & H2); cbn [fst snd] in *; rewrite set_in_dir_twice.
  2: { exfalso. destruct H2 as (_ & Hlt & _ & _ & Hge & _). rewrite length_replicate in Hlt. lia. }
  destruct H2 as (_ & W2 & Hshort2). pose proof W2 as (Hw2 & Hl2 & _). destruct (written_facts _ _ _ _ _ _ _ _ _ _ _ Hw2) as (Hok2 & Hst2 & Hbs2 & _).
  apply wp_ret. exists c2. cbn [fst snd]. split; [by eapply written_trans|]. split; [|split; [by destruct dir|]].
  2: { rewrite Hlh in Hshort1. rewrite length_replicate in Hshort2. change (stream_len s []) with 0 in Hshort1. unfold stream_len in *. rewrite Hbs2, Hbs1 in *.
       set (x1 := Z.of_nat (length (data_blocks c1))) in *. set (x2 := Z.of_nat (length (data_blocks c2))) in *.
       assert (Hx1 : x1 = 1) by (clear -HL1 Hshort1 Hvf; nia). rewrite Hx1 in *. assert (x2 = 1); [|lia]. clear -Hl2 Hshort2 Hvf. nia. }
  split; [done|].
  pose proof (stream_len_bound _ _ _ _ _ HD _ _ _ _ Hok2 Hst2). pose proof (dl_size _ _ _ _ _ HD).
  pose proof (wstep_in _ _ _ _ _ _ _ _ _ _ _ _ _ W1) as I1. pose proof (wstep_in _ _ _ _ _ _ _ _ _ _ _ _ _ W2) as I2.
  rewrite Hlh in I1. apply dir_rep_empty; [lia| |exact I2]. change 160 with (32 + 16 * 8). rewrite <- I1. eapply (wstep_out _ _ _ _ _ _ _ _ _ _ _ _ _ 0 32 W2); lia.
Qed.

(** Insertion into a directory that may have no table yet. *)
Lemma dirhash_insert_spec fd s dir ch tbl fr name ino ty : vol_ok fd s -> dir_at fd s (in_dir_hash_root dir) ch tbl fr ->
  entry_ok (mk_entry name ino ty) -> dir_map tbl !! name = None ->
  wp (nyfs_dirhash_insert stack dir name ino ty) (inserted fd s dir ch tbl name ino ty) s.
Proof.
  intros Hok Hd He Hnone. unfold nyfs_dirhash_insert. unfold wp at 1.
  assert (Hne : 1 <= Z.of_nat (length name) <= NYFS_NAME_MAX) by (destruct He as [H _]; exact H).
  rewrite bad_name_spec, bool_decide_true by exact Hne. cbn [negb]. unfold NYFS_BLKNO_NONE.
  rewrite (proj2 (Z.eqb_neq _ 0)) by by eapply dir_root.
  exact (insert_entry_spec fd s dir ch tbl fr name ino ty Hok Hd He Hnone).
Qed.

(** ** Removal *)

(** The two writes of a removal. *)
Lemma remove_writes_spec fd s dir ch tbl fr name l1 o e l2 : vol_ok fd s -> dir_at fd s (in_dir_hash_root dir) ch tbl fr ->
  tbl !! Z.to_nat (bucket_of tbl name) = Some (l1 ++ (o, e) :: l2) -> e_name e = name ->
  let hdr := mk_dhdr NYFS_DIRHASH_MAGIC (Z.of_nat (length tbl)) (Z.of_nat (length (concat tbl)) - 1) fr 0 0 in
  wp (dir_write dir (link_after (bucket_of tbl name) l1) (le_bytes 8 (first_off l2)) (fun dir =>
      dir_write dir 0 (dhdr_bytes hdr) (fun dir => ret (Ok tt, set_entries (dh_entry_count hdr) dir))))
    (fun r s' => r.1 = Ok tt /\ exists ch', written fd s ch s' (in_dir_hash_root r.2) ch' /\
      dir_at fd s' (in_dir_hash_root r.2) ch' (<[Z.to_nat (bucket_of tbl name) := l1 ++ l2]> tbl) fr /\
      r.2 = set_in_dir (in_dir_hash_root r.2) (Z.of_nat (length (concat tbl)) - 1) dir /\ free_blocks s' = free_blocks s) s.
Proof.
  intros Hok Hd Hl He hdr. pose proof (dir_limits _ _ _ _ _ _ Hd) as Hlim. pose proof Hd as [Hst Hr].
  pose proof (dl_size _ _ _ _ _ HD) as Hsz. pose proof (stream_len_bound _ _ _ _ _ HD _ _ _ _ Hok Hst) as HL.
  pose proof (vol_ok_facts _ _ _ _ _ HD _ _ Hok) as Hvf. pose proof (bucket_range tbl name ltac:(lia)) as Hb.
  assert (Hlh : Z.of_nat (length (dhdr_bytes hdr)) = 32) by (unfold dhdr_bytes; by rewrite !length_app, !length_le_bytes).
  set (link := link_after (bucket_of tbl name) l1).
  assert (Hlink : 32 <= link /\ link + 8 <= stream_len s ch).
  { unfold link, link_after. destruct l1 as [|p l1' _] using rev_ind; [cbn; unfold DHDR_SIZE; lia|]. rewrite last_snoc.
    destruct (dr_entry _ _ _ _ Hr p) as (_ & H1 & _ & H2); [eapply elem_of_concat; [exact Hl|set_solver]|].
    unfold table_end, entry_end, DHDR_SIZE, DIRENT_SIZE, name_len in *. lia. }
  apply dir_write_rule. eapply wp_mono; [apply (write_step_short _ _ _ _ _ HD fd s _ ch); [done|done|lia|rewrite length_le_bytes; lia|apply is_bytes_le_bytes|by apply le_bytes_ne; lia]|].
  intros [[n1|e1] root1] s1 (c1 & H1); cbn [fst snd] in *.
  2: { exfalso. destruct H1 as (_ & Hlt & _ & _ & Hge & _). rewrite length_le_bytes in Hlt. lia. }
  destruct H1 as (_ & W1 & S1). pose proof W1 as (Hw1 & Hl1 & _ & _ & O1). destruct (written_facts _ _ _ _ _ _ _ _ _ _ _ Hw1) as (Hok1 & Hst1 & Hbs1 & _).
  rewrite length_le_bytes in S1. assert (Hf1 : free_blocks s1 = free_blocks s) by (eapply (written_same_size _ _ _ _ _ HD); [exact Hw1|lia]).
  apply dir_write_rule. eapply wp_mono; [apply (write_step_short _ _ _ _ _ HD fd s1 _ c1); [done|done|lia|rewrite Hlh; lia|apply is_bytes_dhdr|apply dhdr_bytes_ne]|].
  intros [[n2|e2] root2] s2 (c2 & H2); cbn [fst snd] in *; rewrite set_in_dir_twice.
  2: { exfalso. destruct H2 as (_ & Hlt & _ & _ & Hge & _). rewrite Hlh in Hlt. lia. }
  destruct H2 as (_ & W2 & S2). pose proof W2 as (Hw2 & Hl2 & _ & _ & O2). destruct (written_facts _ _ _ _ _ _ _ _ _ _ _ Hw2) as (Hok2 & Hst2 & _).
  rewrite Hlh, Hbs1 in S2. assert (Hf2 : free_blocks s2 = free_blocks s1) by (eapply (written_same_size _ _ _ _ _ HD); [exact Hw2|rewrite Hbs1; lia]).
  apply wp_ret. split; [done|]. exists c2. cbn [fst snd]. split; [by eapply written_trans|]. split; [|split; [by destruct dir|congruence]]. split; [done|].
  pose proof (stream_len_bound _ _ _ _ _ HD _ _ _ _ Hok2 Hst2).
  pose proof (wstep_in _ _ _ _ _ _ _ _ _ _ _ _ _ W1) as I1. pose proof (wstep_in _ _ _ _ _ _ _ _ _ _ _ _ _ W2) as I2.
  rewrite length_le_bytes in I1, O1. rewrite Hlh in I2, O2.
  eapply dir_rep_ext; [|split; [transitivity (stream_len s1 c1); [exact Hl1|exact Hl2]|lia]|reflexivity].
  eapply dir_rep_remove; [exact Hr|exact Hl|exact I2| |]; rewrite Z2Nat.id by lia; fold link.
  - rewrite <- I1. apply bytes_at_ext. intros x Hx. apply O2; lia.
  - unfold DHDR_SIZE. intros x Hx Hout. by rewrite O2, O1 by lia.
Qed.

Lemma table_remove tbl b l1 p l2 : tbl !! b = Some (l1 ++ p :: l2) -> length (<[b := l1 ++ l2]> tbl) = length tbl /\
  Z.of_nat (length (concat (<[b := l1 ++ l2]> tbl))) = Z.of_nat (length (concat tbl)) - 1.
Proof.
  intros Hl. split; [by rewrite length_insert|]. destruct (concat_bucket tbl b _ Hl) as (rest & H1 & H2).
  rewrite H2, H1, !length_app. cbn [length]. lia.
Qed.

Lemma dirhash_remove_spec fd s dir ch tbl fr name : vol_ok fd s -> dir_at fd s (in_dir_hash_root dir) ch tbl fr ->
  1 <= Z.of_nat (length name) <= NYFS_NAME_MAX ->
  wp (nyfs_dirhash_remove stack dir name) (fun r s' => exists ch' tbl',
    written fd s ch s' (in_dir_hash_root r.2) ch' /\ dir_at fd s' (in_dir_hash_root r.2) ch' tbl' fr /\
    match r.1 with
    | Ok _ => is_Some (dir_map tbl !! name) /\ dir_map tbl' = delete name (dir_map tbl) /\ length tbl' = length tbl /\
        Z.of_nat (length (concat tbl')) = Z.of_nat (length (concat tbl)) - 1 /\
        r.2 = set_in_dir (in_dir_hash_root r.2) (Z.of_nat (length (concat tbl'))) dir /\ free_blocks s' = free_blocks s
    | Err e => e = NnotFound /\ dir_map tbl !! name = None /\ tbl' = tbl /\ r.2 = dir
    end) s.
Proof.
  intros Hok Hd Hn. set (root := in_dir_hash_root dir) in *. pose proof (dir_root fd s root ch tbl fr Hok Hd) as Hroot.
  pose proof (dir_limits _ _ _ _ _ _ Hd) as Hlim. pose proof Hd as [Hst Hr]. pose proof (dir_count _ _ _ _ Hr) as Hcnt.
  pose proof (dl_size _ _ _ _ _ HD) as Hsz. pose proof (stream_len_bound _ _ _ _ _ HD _ _ _ _ Hok Hst) as HL.
  unfold nyfs_dirhash_remove. fold root. unfold wp at 1, NYFS_BLKNO_NONE.
  rewrite (proj2 (Z.eqb_neq root 0)), bad_name_spec, bool_decide_true by done. cbn [negb].
  destruct (bucket_lookup _ _ _ _ name Hr) as [l Hl].
  assert (Hread : wp (hdr <-? read_dhdr stack root ;; first <-? read_bucket stack root (bucket_slot hdr (nyfs_hash_name name)) ;;
      link <-? find_link stack root (bucket_slot hdr (nyfs_hash_name name)) name (nyfs_hash_name name) first ;; ok (hdr, link))
    (fun r s' => untouched s s' /\ match r with
      | Ok (hdr, (link, next)) => hdr = table_header tbl fr /\ exists l1 o e l2, l = l1 ++ (o, e) :: l2 /\ e_name e = name /\
        link = link_after (bucket_of tbl name) l1 /\ next = first_off l2
      | Err e => e = NnotFound /\ dir_map tbl !! name = None end) s).
  { apply wp_tryb. eapply wp_mono; [by apply (read_dhdr_spec fd s root ch tbl fr)|]. intros r s1 (-> & Hun1).
    destruct (dir_untouched _ _ _ _ _ _ _ Hok Hd Hun1) as (Hok1 & Hd1 & _). apply wp_tryb.
    unfold bucket_slot, table_header. cbn [dh_bucket_count]. fold (bucket_of tbl name).
    eapply wp_mono; [by apply (read_bucket_spec fd s1 root ch tbl fr Hok1 Hd1 name l)|]. intros r s2 (-> & Hun2).
    apply wp_tryb. eapply wp_mono; [apply (find_link_spec fd s root ch tbl fr name l s2); [done|done|by eapply untouched_trans|done|done]|].
    intros [[link next]|e] s3 [Hun3 H3]; [apply wp_ret; by split|by split]. }
  destruct (wp_run _ _ _ Hread) as (r & s0 & -> & Hun & Hres). destruct (dir_untouched _ _ _ _ _ _ _ Hok Hd Hun) as (Hok0 & Hd0 & Hl0 & Hv0).
  pose proof (written_untouched _ _ _ _ _ HD _ _ _ _ _ Hok Hst Hun) as Hw0.
  destruct r as [[hdr [link next]]|e].
  2: { exists ch, tbl. cbn [fst snd]. split; [done|]. split; [done|]. by destruct Hres as [-> ->]. }
  destruct Hres as (-> & l1 & o & e & l2 & -> & He & -> & ->). cbn zeta. unfold set_dh. cbn [table_header dh_entry_count dh_magic dh_bucket_count dh_free_offset dh_checksum dh_reserved0].
  destruct (concat_bucket tbl _ _ Hl) as (rest & Hperm & _).
  assert (Hpos : 0 < Z.of_nat (length (concat tbl))) by (rewrite Hperm, !length_app; cbn [length]; lia).
  rewrite (uw_small 64) by lia.
  eapply (wp_mono (dir_write _ _ _ _) _ _ s0); [exact (remove_writes_spec fd s0 dir ch tbl fr name l1 o e l2 Hok0 Hd0 Hl He)|].
  intros [r dir'] s2 (Hr1 & ch' & Hw & Hd' & Hdir' & Hfb). cbn [fst snd] in *. subst r.
  destruct (table_remove _ _ _ _ _ Hl) as [Hlen Hc]. pose proof (dr_names _ _ _ _ Hr) as Hnd.
  exists ch', (<[Z.to_nat (bucket_of tbl name) := l1 ++ l2]> tbl). split; [by eapply written_trans|]. split; [done|]. split.
  - rewrite <- He. pose proof (dir_map_some tbl (o, e) Hnd ltac:(eapply elem_of_concat; [exact Hl|set_solver])) as Hm. cbn [snd] in Hm. by rewrite Hm.
  - rewrite Hc. split; [|split_and!; try done; rewrite Hfb; by apply (changes_untouched _ _ _ _ _ fd [] s s0 Hok Hun)]. rewrite (proj1 (dir_map_remove _ _ _ _ _ _ Hl Hnd)). by rewrite He.
Qed.

(** The directory with the inode [dir] is the map [m]. *)
Definition dir_is (fd : Z) s (dir : nyfs_inode_t) (m : gmap (list Z) (Z * Z)) : Prop :=
  vol_ok fd s /\ exists ch tbl fr, dir_at fd s (in_dir_hash_root dir) ch tbl fr /\ dir_map tbl = m.

(** C17: a directory - the hash table in its stream - is a finite map from
    names to numbers and types.  The lookup of a name of 1 to 255 bytes is the
    lookup in the map; the insertion of a new one adds it, or finds at most one
    free block and leaves the map as it is; the removal deletes it, or says
    [NnotFound] if it is not there. *)
Theorem directory_is_map fd s dir m name : dir_is fd s dir m -> 1 <= Z.of_nat (length name) <= NYFS_NAME_MAX ->
  wp (nyfs_dirhash_lookup stack dir name) (fun r s' =>
    r = match m !! name with Some x => Ok x | None => Err NnotFound end /\ dir_is fd s' dir m) s /\
  (forall ino ty, entry_ok (mk_entry name ino ty) -> m !! name = None ->
    wp (nyfs_dirhash_insert stack dir name ino ty) (fun r s' => match r.1 with
      | Ok _ => dir_is fd s' r.2 (<[name := (ino, ty)]> m)
      | Err e => e = NdiskFull /\ (base.size (free_blocks s) <= 1)%nat /\ dir_is fd s' r.2 m
      end) s) /\
  wp (nyfs_dirhash_remove stack dir name) (fun r s' => match r.1 with
    | Ok _ => is_Some (m !! name) /\ dir_is fd s' r.2 (delete name m)
    | Err e => e = NnotFound /\ m !! name = None /\ dir_is fd s' r.2 m
    end) s.
Proof.
  intros (Hok & ch & tbl & fr & Hd & <-) Hn. split; [|split].
  - eapply wp_mono; [by apply (lookup_spec fd s dir ch tbl fr)|]. intros r s' (-> & Hun). split; [done|].
    destruct (dir_untouched _ _ _ _ _ _ _ Hok Hd Hun) as (Hok' & Hd' & _). split; [done|]. by exists ch, tbl, fr.
  - intros ino ty He Hnone. eapply wp_mono; [by apply (dirhash_insert_spec fd s dir ch tbl fr)|].
    intros [[[]|e] dir'] s' (ch' & tbl' & fr' & Hw & Hd' & H); cbn [fst snd] in *; destruct (written_facts _ _ _ _ _ _ _ _ _ _ _ Hw) as (Hok' & _).
    + destruct H as (<- & _). split; [done|]. by exists ch', tbl', fr'.
    + destruct H as (-> & Hf & -> & _). split; [done|]. split; [done|]. split; [done|]. by exists ch', tbl, fr'.
  - eapply wp_mono; [by apply (dirhash_remove_spec fd s dir ch tbl fr)|].
    intros [[[]|e] dir'] s' (ch' & tbl' & Hw & Hd' & H); cbn [fst snd] in *; destruct (written_facts _ _ _ _ _ _ _ _ _ _ _ Hw) as (Hok' & _).
    + destruct H as (Hs & <- & _). split; [done|]. split; [done|]. by exists ch', tbl', fr.
    + destruct H as (-> & Hnone & -> & ->). split; [done|]. split; [done|]. split; [done|]. by exists ch', tbl, fr.
Qed.
End dirops.
