(* ===== verification/NyfsTree.v ===== *)
(** * NYFS as a map of nodes

    What a volume is to its users: inode numbers with an owner and either the
    bytes of a file or the entries of a directory.  [holds] relates it to the
    blocks; each operation on files and directories is an update of the map. *)

From S2P Require Import Prelude Types Loops Bytes NyfsDisk Nyfs NyfsAcl NyfsDir NyfsNodes NyfsImage NyfsIo NyfsAlloc NyfsFree NyfsInodes NyfsStream NyfsGrow NyfsReadWrite NyfsDirs NyfsDirOps.

(** ** The inode table

    What the operations on blocks and on inode numbers keep of the table, and
    what writing an inode keeps of everything else. *)

Section table.
Context {D : Type} (read : nyfs_disk_read_fn D) (write : nyfs_disk_write_fn D) (k size : Z) (img : D -> Z -> Z).
Context (HD : disk_laws read write k size img).
Abbreviation nst := (nst D).
Abbreviation vol_ok := (vol_ok read write k size img).
Abbreviation untouched := (untouched size img).
Abbreviation unchanged := (unchanged size img).
Abbreviation free_blocks := (free_blocks img).
Abbreviation free_inodes := (free_inodes img).
Abbreviation counted := (counted img).
Abbreviation changes := (changes read write k size img).
Abbreviation ichanges := (ichanges read write k size img).
Abbreviation low := (low read write k size img).
Abbreviation stream_ok := (stream_ok img).
Abbreviation written := (written read write k size img).
Abbreviation view := (view img).
Abbreviation inode_at := (inode_at img).
Implicit Types (s : nst) (ch : chain).

Lemma changes_inode_at fd B s s' j : vol_ok fd s -> changes fd B s s' -> Forall (fun b => fd <= b < total s) B -> 0 <= j ->
  inode_at s' j = inode_at s j.
Proof.
  intros Hok (_ & Hl & _ & _ & Hu) HB Hj. destruct (decide (j < inodes s)) as [Hji|Hji].
  - eapply inode_at_unchanged; [exact Hok|exact Hl|exact Hu| |done].
    pose proof (slot_range _ _ _ _ _ fd j s Hok ltac:(lia)) as Hs. intros a Ha [Hm|Hb].
    + unfold in_meta, in_bitmap, SB_SIZE in *. lia.
    + destruct Hb as (b & Hb & Hba). rewrite Forall_forall in HB. pose proof (block_range _ _ _ _ _ HD _ _ _ Hok (HB b Hb)).
      unfold INODE_SIZE in *. lia.
  - unfold NyfsInodes.inode_at. rewrite (layout_inodes _ _ Hl). by rewrite !decide_False by lia.
Qed.

Lemma ichanges_inode_at fd s s' j : vol_ok fd s -> ichanges fd s s' -> 0 <= j -> inode_at s' j = inode_at s j.
Proof.
  intros Hok (_ & Hl & _ & _ & Hu) Hj. destruct (decide (j < inodes s)) as [Hji|Hji].
  - eapply inode_at_unchanged; [exact Hok|exact Hl|exact Hu| |done].
    pose proof (slot_range _ _ _ _ _ fd j s Hok ltac:(lia)) as Hs. pose proof Hok as (_ & Hg & Hsb & _).
    pose proof (geo_order _ _ _ _ Hg (proj1 (sb_ok_total _ Hsb))). intros a Ha [Hm|Hb].
    + unfold SB_SIZE in *. lia.
    + unfold in_ibitmap, geo_ok in *. lia.
  - unfold NyfsInodes.inode_at. rewrite (layout_inodes _ _ Hl). by rewrite !decide_False by lia.
Qed.

(** Writing an inode: the table, and nothing else. *)
Lemma write_inode_low fd ino i s : vol_ok fd s -> 0 < ino < inodes s -> inode_ok i ->
  wp (nyfs_write_inode ino i) (fun r s' => r = Ok tt /\ low fd s s' /\ free_blocks s' = free_blocks s /\
    free_inodes s' = free_inodes s /\ (counted s -> counted s') /\
    forall j, 0 <= j -> inode_at s' j = if j =? ino then Ok (stamped ino i) else inode_at s j) s.
Proof.
  intros Hok Hi Hin. eapply wp_mono; [by apply (write_read_inode _ _ _ _ _ HD fd)|]. intros r s' (-> & Hok' & Hv & Hu & Hat).
  assert (Hl : same_layout s s') by by apply same_layout_vol.
  pose proof (slot_range _ _ _ _ _ fd ino s Hok ltac:(lia)) as Hs. unfold INODE_SIZE in *. pose proof Hok as (_ & Hg & Hsb & _).
  pose proof (geo_order _ _ _ _ Hg (proj1 (sb_ok_total _ Hsb))) as Hord.
  assert (Hfb : free_blocks s' = free_blocks s).
  { eapply free_blocks_unchanged; [exact Hok|exact Hl|exact Hu|]. unfold in_bitmap. intros a Ha ?. lia. }
  assert (Hfi : free_inodes s' = free_inodes s).
  { eapply free_inodes_unchanged; [exact Hok|exact Hl|exact Hu|]. unfold in_ibitmap, geo_ok in *. intros a Ha ?. lia. }
  split; [done|]. split; [|split; [done|split; [done|split; [|done]]]].
  - split; [done|]. split; [done|]. eapply unchanged_mono; [|exact Hu]. intros a Ha. cbn in *. lia.
  - unfold counted. rewrite Hfb, Hfi. unfold counts, sb. by rewrite Hv.
Qed.
End table.

(** ** Nodes *)

(** The entries of a directory give a number and a type. *)
Inductive body := File (contents : list Z) | Dir (entries : gmap (list Z) (Z * Z)).
(** Uid, gid and mode. *)
Record node := mk_node { n_owner : Z * Z * Z; n_body : body }.

Definition body_type (b : body) : Z := match b with File _ => NYFS_INO_TYPE_FILE | Dir _ => NYFS_INO_TYPE_DIR end.
Definition body_root (b : body) (i : nyfs_inode_t) : Z := match b with File _ => in_data_extent_root i | Dir _ => in_dir_hash_root i end.
Definition inode_owner (i : nyfs_inode_t) : Z * Z * Z := (in_uid i, in_gid i, in_unix_mode i).

(** No access control entries, and one link. *)
Definition plain (i : nyfs_inode_t) : Prop :=
  in_ace_count i = 0 /\ in_acl_overflow_block i = NYFS_BLKNO_NONE /\ in_acl_overflow_count i = 0 /\ in_link_count i = 1.

(** A node, the inode that is in the table for it, and its stream. *)
Abbreviation stored_node := (node * (nyfs_inode_t * chain))%type.

(** What a write does to a file: [take] and [drop] of the bytes around it. *)
Definition splice (off : Z) (buf c : list Z) : list Z := take (Z.to_nat off) c ++ buf ++ drop (Z.to_nat off + length buf) c.

(** The blocks a file of bytes [c] may lack for a write, the worst scattered. *)
Definition write_needs (bs : Z) (c : list Z) (off : Z) (buf : list Z) : Z :=
  needed bs (div_up bs (off + Z.of_nat (length buf)) - div_up bs (Z.of_nat (length c))).

Lemma inode_ok_data n root i : inode_ok i -> 0 <= n < 2 ^ 64 -> 0 <= root < 2 ^ 64 -> inode_ok (set_in_data n root i).
Proof. destruct i. unfold inode_ok, inode_wf. cbn. intros (Hw & ? & ?) ? ?. decompose [and] Hw. split_and!; first [done|lia]. Qed.
Lemma inode_ok_dir n root i : inode_ok i -> 0 <= n < 2 ^ 64 -> 0 <= root < 2 ^ 64 -> inode_ok (set_in_dir root n i).
Proof. destruct i. unfold inode_ok, inode_wf. cbn. intros (Hw & ? & ?) ? ?. decompose [and] Hw. split_and!; first [done|lia]. Qed.
Lemma inode_size_range i : inode_ok i -> 0 <= in_size i < 2 ^ 64.
Proof. intros (Hw & _). unfold inode_wf in Hw. tauto. Qed.

Section tree.
Context {D : Type} (stack : list Z) (read : nyfs_disk_read_fn D) (write : nyfs_disk_write_fn D) (k size : Z) (img : D -> Z -> Z).
Context (HD : disk_laws read write k size img).
Abbreviation nst := (nst D).
Abbreviation vol_ok := (vol_ok read write k size img).
Abbreviation untouched := (untouched size img).
Abbreviation free_blocks := (free_blocks img).
Abbreviation free_inodes := (free_inodes img).
Abbreviation counted := (counted img).
Abbreviation changes := (changes read write k size img).
Abbreviation ichanges := (ichanges read write k size img).
Abbreviation low := (low read write k size img).
Abbreviation stream_ok := (stream_ok img).
Abbreviation dir_at := (dir_at img).
Abbreviation written := (written read write k size img).
Abbreviation view := (view img).
Abbreviation inode_at := (inode_at img).
Implicit Types (s : nst) (ch : chain) (b : body) (q : stored_node) (Q : gmap Z stored_node) (M : gmap Z node).

(** ** The relation *)

Definition body_in s (i : nyfs_inode_t) ch b : Prop :=
  match b with
  | File c => in_size i <= stream_len s ch /\ c = bytes_at (view s (data_blocks ch)) 0 (in_size i)
  | Dir m => in_data_extent_root i = NYFS_BLKNO_NONE /\ exists tbl fr,
      dir_rep (view s (data_blocks ch)) (stream_len s ch) tbl fr /\ dir_map tbl = m /\ in_dir_entry_count i = Z.of_nat (length (concat tbl))
  end.

(** The inode and the stream of a node. *)
Definition stored_at (fd : Z) s (i : nyfs_inode_t) ch (n : node) : Prop :=
  inode_ok i /\ plain i /\ in_type i = body_type (n_body n) /\ inode_owner i = n_owner n /\
  stream_ok fd s (body_root (n_body n) i) ch /\ body_in s i ch (n_body n).

Definition node_at (fd : Z) s (ino : Z) q : Prop :=
  0 < ino < inodes s /\ ino ∉ free_inodes s /\ inode_at s ino = Ok q.2.1 /\ stored_at fd s q.2.1 q.2.2 q.1.

Definition apart (l1 l2 : list Z) : Prop := forall x : Z, x ∈ l1 -> x ∉ l2.

(** Each node is one, and no two share a block. *)
Definition nodes_at (fd : Z) s Q : Prop :=
  vol_ok fd s /\ counted s /\ (forall ino q, Q !! ino = Some q -> node_at fd s ino q) /\
  forall i j p q, Q !! i = Some p -> Q !! j = Some q -> i <> j -> apart (own p.2.2) (own q.2.2).

Definition holds (fd : Z) s M : Prop := exists Q, nodes_at fd s Q /\ M = fst <$> Q.

Lemma nodes_subset fd s Q Q' : nodes_at fd s Q -> Q' ⊆ Q -> nodes_at fd s Q'.
Proof.
  intros (Hok & Hcnt & HQ & Hd) Hs. split; [done|]. split; [done|]. split.
  - intros ino q Hq. apply HQ. by eapply lookup_weaken.
  - intros i j p q Hp Hq. apply Hd; by eapply lookup_weaken.
Qed.

Lemma nodes_single fd s ino q : vol_ok fd s -> counted s -> node_at fd s ino q -> nodes_at fd s {[ino := q]}.
Proof.
  intros Hok Hcnt Hq. split; [done|]. split; [done|]. split; [by intros j p [<- <-]%lookup_singleton_Some|].
  by intros j1 j2 p1 p2 [<- _]%lookup_singleton_Some [<- _]%lookup_singleton_Some ?.
Qed.

(** ** What leaves a node alone *)

(** The stream [ch] at [root] is kept. *)
Definition kept (fd : Z) s s' (root : Z) ch : Prop :=
  stream_ok fd s' root ch /\ forall x, 0 <= x < stream_len s ch -> view s' (data_blocks ch) x = view s (data_blocks ch) x.

Lemma body_kept s s' i ch ch' b : inode_ok i -> stream_len s ch <= stream_len s' ch' < 2 ^ 63 ->
  (forall x, 0 <= x < stream_len s ch -> view s' (data_blocks ch') x = view s (data_blocks ch) x) ->
  body_in s i ch b -> body_in s' i ch' b.
Proof.
  intros Hi Hl Hv. pose proof (inode_size_range _ Hi). destruct b as [c|m]; cbn.
  - intros (Hsz & ->). split; [lia|]. symmetry. apply bytes_at_ext. intros x Hx. apply Hv. lia.
  - intros (Hr & tbl & fr & Hrep & Hm & Hc). split; [done|]. exists tbl, fr. split; [|done].
    eapply dir_rep_ext; [exact Hrep|done|]. intros x Hx _. by apply Hv.
Qed.

Lemma node_kept fd s s' ino q : vol_ok fd s -> same_layout s s' -> node_at fd s ino q -> inode_at s' ino = inode_at s ino ->
  ino ∉ free_inodes s' -> kept fd s s' (body_root (n_body q.1) q.2.1) q.2.2 -> node_at fd s' ino q.
Proof.
  intros Hok Hl (Hi & _ & Hat & Hio & Hp & Ht & Ho & Hst & Hb) He Hf [Hst' Hv].
  split; [by rewrite (layout_inodes _ _ Hl)|]. split; [done|]. split; [congruence|]. do 5 (split; [done|]).
  pose proof (stream_len_bound _ _ _ _ _ HD _ _ _ _ Hok Hst). pose proof (dl_size _ _ _ _ _ HD).
  eapply body_kept; [done| |exact Hv|done]. unfold stream_len in *. rewrite (layout_bsize _ _ Hl). lia.
Qed.

Lemma kept_untouched fd s s' root ch : vol_ok fd s -> stream_ok fd s root ch -> untouched s s' -> kept fd s s' root ch.
Proof.
  intros Hok Hst Hun. destruct (changes_untouched _ _ _ _ _ fd [] s s' Hok Hun) as [Hc _].
  destruct (stream_untouched _ _ _ _ _ HD _ _ _ _ _ Hok Hst Hun) as (_ & Hst' & _). split; [done|]. intros x Hx.
  eapply (view_unchanged _ _ _ _ _ HD); [exact Hok|exact Hc|by eapply (data_in_range _ _ _ _ _ HD)|set_solver|exact Hx].
Qed.

Lemma nodes_untouched fd s s' Q : nodes_at fd s Q -> untouched s s' -> nodes_at fd s' Q.
Proof.
  intros (Hok & Hcnt & HQ & Hdis) Hun. destruct (changes_untouched _ _ _ _ _ fd [] s s' Hok Hun) as [Hc Hfr].
  pose proof Hc as (Hok' & Hl & Hfi & Hcnt' & _). split; [done|]. split; [by apply Hcnt'|]. split; [|done]. intros ino q Hq.
  pose proof (HQ _ _ Hq) as Hn. pose proof Hn as (Hi & Hf & _ & _ & _ & _ & _ & Hst & _). eapply node_kept; [exact Hok|exact Hl|exact Hn| |by rewrite Hfi|].
  - eapply changes_inode_at; [exact HD|exact Hok|exact Hc|constructor|lia].
  - by apply kept_untouched.
Qed.

(** The metadata changes: the node's inode is the same, and still in use. *)
Lemma node_low fd s s' ino q : vol_ok fd s -> node_at fd s ino q -> low fd s s' -> free_blocks s' = free_blocks s ->
  inode_at s' ino = inode_at s ino -> ino ∉ free_inodes s' -> node_at fd s' ino q.
Proof.
  intros Hok Hn Hlow Hfr Hat Hf. pose proof Hlow as (_ & Hl & _). pose proof Hn as (_ & _ & _ & _ & _ & _ & _ & Hst & _).
  eapply node_kept; [exact Hok|exact Hl|exact Hn|done|done|].
  destruct (low_stream _ _ _ _ _ HD _ _ _ _ _ Hok Hst Hlow ltac:(by rewrite Hfr)) as [Hst' Hv']. by split.
Qed.

(** An operation on inode numbers. *)
Lemma nodes_ichanges fd s s' Q : nodes_at fd s Q -> ichanges fd s s' -> (forall ino q, Q !! ino = Some q -> ino ∉ free_inodes s') ->
  nodes_at fd s' Q.
Proof.
  intros (Hok & Hcnt & HQ & Hdis) Hc Hf. pose proof Hc as (Hok' & _ & Hfr & Hcnt' & _). split; [done|]. split; [by apply Hcnt'|].
  split; [|done]. intros ino q Hq. pose proof (HQ _ _ Hq) as Hn. pose proof Hn as (Hi & _).
  eapply node_low; [exact Hok|exact Hn|by apply ichanges_low|exact Hfr| |by eapply Hf]. eapply ichanges_inode_at; [exact Hok|exact Hc|lia].
Qed.

(** ** Writing the stream of one node *)

Lemma nodes_insert fd s s' Q ino q : nodes_at fd s Q -> vol_ok fd s' -> counted s' -> node_at fd s' ino q ->
  (forall j p, j <> ino -> Q !! j = Some p -> node_at fd s' j p /\ apart (own p.2.2) (own q.2.2)) -> nodes_at fd s' (<[ino := q]> Q).
Proof.
  intros (_ & _ & _ & Hdis) Hok Hcnt Hnew Hold. split; [done|]. split; [done|]. split.
  - intros j p. rewrite lookup_insert_Some. intros [(<- & <-)|(Hj & Hp)]; [done|]. by eapply Hold.
  - intros j1 j2 p1 p2. rewrite !lookup_insert_Some. intros [(<- & <-)|(Hj1 & Hp1)] [(<- & <-)|(Hj2 & Hp2)] Hne x Hx.
    + done.
    + intros Hx2. destruct (Hold _ _ (not_eq_sym Hj2) Hp2) as [_ Hd]. by apply (Hd x).
    + by apply (Hold _ _ (not_eq_sym Hj1) Hp1).
    + by eapply (Hdis j1 j2).
Qed.

(** The other nodes: none of them has a block of [ch]. *)
Definition others_apart Q (ino : Z) ch : Prop := forall j q, j <> ino -> Q !! j = Some q -> apart (own q.2.2) (own ch).

Lemma others_written fd s s2 Q ino root ch r' ch' j q : nodes_at fd s Q -> stream_ok fd s root ch -> others_apart Q ino ch ->
  written fd s ch s2 r' ch' -> j <> ino -> Q !! j = Some q -> node_at fd s2 j q /\ apart (own q.2.2) (own ch').
Proof.
  intros (Hok & Hcnt & HQ & _) Hst Hoth Hw Hj Hq.
  pose proof Hw as (N & bl & Hst2 & _ & _ & _ & _ & Hc & _). pose proof Hc as (_ & Hl2 & Hfi & _).
  pose proof (HQ _ _ Hq) as Hn. pose proof Hn as (Hjr & Hjf & _ & _ & _ & _ & _ & Hstj & _).
  destruct (other_stream _ _ _ _ _ HD _ _ _ _ _ _ _ _ root Hok Hst Hw Hstj (Hoth _ _ Hj Hq)) as (Hstj2 & Hd2 & Hvj).
  split; [|exact Hd2]. eapply node_kept; [exact Hok|exact Hl2|exact Hn| |by rewrite Hfi|by split].
  eapply changes_inode_at; [exact HD|exact Hok|exact Hc| |lia]. apply Forall_forall. intros x Hx.
  rewrite <- (layout_total _ _ Hl2). by apply Hst2.
Qed.

Lemma stored_stamped fd s ino i ch n : 0 <= ino < 2 ^ 64 -> stored_at fd s i ch n -> stored_at fd s (stamped ino i) ch n.
Proof.
  intros Hi (Hok & Hp & Ht & Ho & Hst & Hb). split; [by apply stamped_ok|]. destruct i. unfold plain, inode_owner in *. cbn in *.
  split; [exact Hp|]. split; [exact Ht|]. split; [exact Ho|]. by destruct (n_body n).
Qed.

Lemma stored_low fd s s' i ch n : vol_ok fd s -> low fd s s' -> free_blocks s' = free_blocks s -> stored_at fd s i ch n -> stored_at fd s' i ch n.
Proof.
  intros Hok Hlow Hfr (Hio & Hp & Ht & Ho & Hst & Hb). pose proof Hlow as (_ & Hl & _).
  destruct (low_stream _ _ _ _ _ HD _ _ _ _ _ Hok Hst Hlow ltac:(by rewrite Hfr)) as [Hst' Hv']. do 4 (split; [done|]). split; [done|].
  pose proof (stream_len_bound _ _ _ _ _ HD _ _ _ _ Hok Hst). pose proof (dl_size _ _ _ _ _ HD).
  eapply body_kept; [done| |exact Hv'|done]. unfold stream_len in *. rewrite (layout_bsize _ _ Hl). lia.
Qed.

(** The inode [i'] of the node whose stream has become [ch'] is written. *)
Lemma store_inode fd s s2 Q ino n root ch r' ch' i' : nodes_at fd s Q -> stream_ok fd s root ch -> others_apart Q ino ch ->
  written fd s ch s2 r' ch' -> 0 < ino < inodes s -> ino ∉ free_inodes s -> stored_at fd s2 i' ch' n ->
  wp (nyfs_write_inode ino i') (fun r s' => r = Ok tt /\ nodes_at fd s' (<[ino := (n, (stamped ino i', ch'))]> Q) /\
    free_blocks s' = free_blocks s2 /\ bsize s' = bsize s2) s2.
Proof.
  intros HQ Hst Hoth Hw Hino Hf Hnew. pose proof HQ as (Hok & Hcnt & _).
  pose proof Hw as (N & bl & _ & _ & _ & _ & _ & Hc & _). pose proof Hc as (Hok2 & Hl2 & Hfi2 & Hcnt2 & _).
  eapply wp_mono; [apply (write_inode_low _ _ _ _ _ HD fd ino i' s2); [done|by rewrite (layout_inodes _ _ Hl2)|apply Hnew]|].
  intros r s3 (-> & Hlow & Hf3 & Hfi3 & Hcnt3 & Hat3). pose proof Hlow as (Hok3 & Hl3 & _). split; [done|].
  pose proof (vol_ok_inodes _ _ _ _ _ _ _ Hok). split; [|split; [done|by apply layout_bsize]]. apply (nodes_insert fd s); [done|done|auto| |].
  - split; [by rewrite (layout_inodes _ _ Hl3), (layout_inodes _ _ Hl2)|]. split; [by rewrite Hfi3, Hfi2|].
    split; [by rewrite Hat3, Z.eqb_refl by lia|]. apply stored_stamped; [lia|]. by apply (stored_low fd s2).
  - intros j q Hj Hq. destruct (others_written _ _ _ _ _ _ _ _ _ _ _ HQ Hst Hoth Hw Hj Hq) as [Hn Hd]. split; [|done].
    pose proof Hn as (Hjr & Hjf & _). apply (node_low fd s2); [done|done|done|done| |by rewrite Hfi3].
    rewrite Hat3 by lia. by rewrite (proj2 (Z.eqb_neq j ino)).
Qed.

(** The stream of a node has grown, and its inode is as it was: without a
    stream before, the new blocks are in no node. *)
Lemma nodes_grown fd s s2 Q ino n i ch root' ch' : nodes_at fd s Q -> Q !! ino = Some (n, (i, ch)) -> written fd s ch s2 root' ch' ->
  stream_len s ch <= stream_len s2 ch' ->
  (forall x, 0 <= x < stream_len s ch -> view s2 (data_blocks ch') x = view s (data_blocks ch) x) ->
  exists ch2, nodes_at fd s2 (<[ino := (n, (i, ch2))]> Q).
Proof.
  intros HQ Hq Hw Hle Hv. pose proof HQ as (Hok & Hcnt & HQs & Hdis).
  destruct (HQs _ _ Hq) as (Hino & Hf & Hat & Hio & Hp & Ht & Ho & Hst & Hb). cbn [fst snd] in *.
  pose proof Hw as (N & bl & Hst2 & _ & _ & _ & _ & Hc & _ & Hroot). pose proof Hc as (Hok2 & Hl2 & Hfi2 & Hcnt2 & _).
  set (ch2 := if decide (ch = []) then [] else ch'). exists ch2.
  assert (Hnil : ch = [] -> stream_len s ch = 0) by (intros ->; done).
  assert (Hst' : stream_ok fd s2 (body_root (n_body n) i) ch2).
  { pose proof Hst as (Hh & _). rewrite Hh. unfold ch2. case_decide as E; [|by rewrite <- Hroot]. rewrite E. by apply (stream_nil _ _ _ _ _ HD). }
  pose proof (stream_len_bound _ _ _ _ _ HD _ _ _ _ Hok2 Hst'). pose proof (dl_size _ _ _ _ _ HD).
  apply (nodes_insert fd s); [done|done|auto| |].
  - split; [by rewrite (layout_inodes _ _ Hl2)|]. split; [by rewrite Hfi2|]. cbn [fst snd]. split.
    + rewrite <- Hat. eapply changes_inode_at; [exact HD|exact Hok|exact Hc| |lia]. apply Forall_forall. intros x Hx.
      rewrite <- (layout_total _ _ Hl2). by apply Hst2.
    + do 4 (split; [done|]). split; [done|]. apply (body_kept s s2 i ch); [done| | |done].
      2: { intros x Hx. unfold ch2. case_decide; [rewrite Hnil in Hx by done; lia|by apply Hv]. }
      unfold ch2 in *. case_decide; [rewrite Hnil by done; lia|lia].
  - intros j q Hj Hqj. destruct (others_written fd s s2 Q ino _ ch root' ch' j q HQ Hst) as [Hn Hd]; [|done..|].
    + intros j' q' Hj' Hq'. by apply (Hdis _ _ _ _ Hq' Hq Hj').
    + split; [done|]. cbn [snd]. unfold ch2. case_decide; [intros x _ []%not_elem_of_nil|done].
Qed.

Lemma chain_head_range fd s root ch : vol_ok fd s -> stream_ok fd s root ch -> 0 <= root < 2 ^ 64.
Proof.
  intros Hok (-> & _ & _ & _ & Hin). pose proof (vol_ok_facts _ _ _ _ _ HD _ _ Hok). pose proof (vol_ok_total _ _ _ _ _ _ _ Hok).
  destruct ch as [|[c es] ch]; [cbn; unfold NYFS_BLKNO_NONE; lia|]. destruct (Hin c ltac:(left)). cbn. lia.
Qed.

Lemma nodes_others fd s Q ino q : nodes_at fd s Q -> Q !! ino = Some q -> others_apart Q ino q.2.2.
Proof. intros (_ & _ & _ & Hdis) Hq j p Hj Hp. by apply (Hdis _ _ _ _ Hp Hq Hj). Qed.

(** ** Files *)

(** Bytes between the old end and the offset are whatever the blocks hold. *)
Lemma splice_view fd s s' root' i ch ch' off buf n : wstep read write k size img fd s ch s' root' ch' off buf ->
  0 <= off -> 0 <= in_size i <= stream_len s ch -> n = Z.max (in_size i) (off + Z.of_nat (length buf)) ->
  exists gap, Z.of_nat (length gap) = Z.max 0 (off - in_size i) /\
    bytes_at (view s' (data_blocks ch')) 0 n = splice off buf (bytes_at (view s (data_blocks ch)) 0 (in_size i) ++ gap).
Proof.
  intros Hw Ho Hsz ->. pose proof (wstep_in _ _ _ _ _ _ _ _ _ _ _ _ _ Hw) as Hin. set (m := Z.of_nat (length buf)) in *.
  exists (bytes_at (view s' (data_blocks ch')) (in_size i) (Z.max 0 (off - in_size i))). split; [rewrite length_bytes_at; lia|].
  replace (Z.max (in_size i) (off + m)) with (off + (m + Z.max 0 (in_size i - (off + m)))) by lia.
  rewrite !bytes_at_app, Z.add_0_l, Hin by lia. unfold splice. destruct (Z.le_gt_cases off (in_size i)) as [Hle|Hgt].
  - replace (Z.max 0 (off - in_size i)) with 0 by lia. change (bytes_at _ (in_size i) 0) with (@nil Z). rewrite app_nil_r. f_equal; [|f_equal].
    + rewrite (wstep_out _ _ _ _ _ _ _ _ _ _ _ _ _ 0 off Hw) by lia.
      replace (in_size i) with (off + (in_size i - off)) by lia. rewrite bytes_at_app, take_app_length'; [done|rewrite length_bytes_at; lia|lia..].
    + destruct (Z.le_gt_cases (in_size i) (off + m)) as [Hle'|Hgt'].
      * replace (Z.max 0 (in_size i - (off + m))) with 0 by lia. rewrite drop_ge; [done|]. rewrite length_bytes_at. lia.
      * replace (Z.max 0 (in_size i - (off + m))) with (in_size i - (off + m)) by lia.
        rewrite (wstep_out _ _ _ _ _ _ _ _ _ _ _ _ _ (off + m) (in_size i - (off + m)) Hw) by lia.
        replace (in_size i) with ((off + m) + (in_size i - (off + m))) at 2 by lia.
        rewrite bytes_at_app, drop_app_length'; [done|rewrite length_bytes_at; lia|lia..].
  - replace (Z.max 0 (in_size i - (off + m))) with 0 by lia. replace (Z.max 0 (off - in_size i)) with (off - in_size i) by lia.
    rewrite <- (wstep_out _ _ _ _ _ _ _ _ _ _ _ _ _ 0 (in_size i) Hw) by lia.
    rewrite <- (Z.add_0_l (in_size i)) at 2. rewrite <- bytes_at_app by lia. replace (in_size i + (off - in_size i)) with off by lia.
    rewrite take_ge by (rewrite length_bytes_at; lia). rewrite drop_ge by (rewrite length_app, !length_bytes_at; lia).
    done.
Qed.

(** The map after an update of one node. *)
Lemma holds_insert fd s Q ino n p : nodes_at fd s (<[ino := (n, p)]> Q) -> holds fd s (<[ino := n]> (fst <$> Q)).
Proof. intros H. eexists. split; [exact H|]. by rewrite fmap_insert. Qed.
Lemma holds_same fd s Q ino n p p' : Q !! ino = Some (n, p) -> nodes_at fd s (<[ino := (n, p')]> Q) -> holds fd s (fst <$> Q).
Proof. intros Hq H%holds_insert. by rewrite insert_id in H by (by rewrite lookup_fmap, Hq). Qed.

Lemma write_file_spec fd s M ino o c off buf : holds fd s M -> M !! ino = Some (mk_node o (File c)) -> is_bytes buf -> buf <> [] ->
  0 <= off -> off + Z.of_nat (length buf) + bsize s <= 2 ^ 64 ->
  wp (write_file ino off buf) (fun r s' => match r with
    | Ok n => n = Z.of_nat (length buf) /\ exists gap, Z.of_nat (length gap) = Z.max 0 (off - Z.of_nat (length c)) /\
        holds fd s' (<[ino := mk_node o (File (splice off buf (c ++ gap)))]> M)
    | Err e => e = NdiskFull /\ Z.of_nat (base.size (free_blocks s)) < write_needs (bsize s) c off buf /\ holds fd s' M
    end) s.
Proof.
  intros (Q & HQ & ->) Hc Hb Hne Ho Hlim. rewrite lookup_fmap in Hc. destruct (Q !! ino) as [[n [i ch]]|] eqn:Hq; [|done]. cbn in Hc.
  injection Hc as ->. pose proof HQ as (Hok & _ & HQs & _). destruct (HQs _ _ Hq) as (Hino & _ & Hat & _). cbn [fst snd] in Hat.
  unfold write_file. apply wp_tryb. eapply wp_mono; [apply (read_inode_spec _ _ _ _ _ HD fd); [done|lia]|].
  intros r s1 (-> & Hun). rewrite Hat. pose proof (nodes_untouched _ _ _ _ HQ Hun) as HQ1. pose proof HQ1 as (Hok1 & _ & HQs1 & _).
  destruct (HQs1 _ _ Hq) as (Hino1 & Hf1 & _ & Hii & Hp & Ht & How & Hst & Hsz & Hcc). cbn [fst snd body_root n_body n_owner] in *. subst c.
  pose proof (inode_size_range _ Hii) as Hsr. pose proof (stream_len_bound _ _ _ _ _ HD _ _ _ _ Hok1 Hst) as Hslb.
  pose proof (vol_ok_facts _ _ _ _ _ HD _ _ Hok1) as Hvf. destruct (untouched_stream _ _ _ _ Hun) as [Hbs _].
  apply wp_bind. eapply wp_mono; [apply (write_step _ _ _ _ _ HD fd s1 _ ch off buf); [done..|lia|by rewrite Hbs|done|done]|].
  intros [[n|e] root'] s2; cbn [fst snd]; intros (ch' & Hw).
  - destruct Hw as (-> & Hw). pose proof Hw as (Hwr & Hle & Hend & _). destruct (written_facts _ _ _ _ _ _ _ _ _ _ _ Hwr) as (Hok2 & Hst2 & _).
    pose proof (stream_len_bound _ _ _ _ _ HD _ _ _ _ Hok2 Hst2). cbn zeta. rewrite (uw_small 64) by lia. set (n := Z.of_nat (length buf)) in *.
    replace (if in_size i <? off + n then off + n else in_size i) with (Z.max (in_size i) (off + n)) by (case_if; lia).
    apply wp_tryb. eapply wp_mono; [eapply (store_inode fd s1 s2 Q ino
      (mk_node o (File (bytes_at (view s2 (data_blocks ch')) 0 (Z.max (in_size i) (off + n))))) _ ch root' ch'); [exact HQ1|exact Hst| |exact Hwr|exact Hino1|exact Hf1|]|].
    + exact (nodes_others _ _ _ _ _ HQ1 Hq).
    + split; [apply inode_ok_data; [done|lia|by eapply chain_head_range]|]. destruct i; cbn in *. do 4 (split; [done|]). split; [lia|reflexivity].
    + intros r s3 (-> & HQ3 & _). apply wp_ret. split; [done|]. apply holds_insert in HQ3.
      destruct (splice_view fd s1 s2 root' i ch ch' off buf _ Hw Ho ltac:(lia) eq_refl) as (gap & Hgap & Hb').
      exists gap. rewrite length_bytes_at. split; [lia|]. fold n in Hb'. by rewrite Hb' in HQ3.
  - apply wp_ret. destruct Hw as (-> & Hlt & Hfew & Hwr & Hle & Hv). split; [done|]. split.
    { destruct (changes_untouched _ _ _ _ _ fd [] s s1 Hok Hun) as [_ Hfr]. rewrite <- Hfr, <- Hbs.
      unfold write_needs. rewrite length_bytes_at. eapply (failed_needed _ _ _ _ _ HD); [exact Hst|by split_and!|].
      unfold div_up. apply Z.lt_succ_r, Z.div_lt_upper_bound; [lia|]. unfold stream_len in Hsz. lia. }
    destruct (nodes_grown _ _ _ _ _ _ _ _ _ _ HQ1 Hq Hwr Hle Hv) as [ch2 H2]. by eapply holds_same.
Qed.

(** ** Reading a file *)

Lemma holds_untouched fd s s' M : holds fd s M -> untouched s s' -> holds fd s' M.
Proof. intros (Q & HQ & ->) Hun. exists Q. split; [by eapply nodes_untouched|done]. Qed.

Lemma open_file_spec fd s M ino o c : holds fd s M -> M !! ino = Some (mk_node o (File c)) ->
  wp (nyfs_read_inode ino) (fun r s' => exists i, r = Ok i /\ in_size i = Z.of_nat (length c) /\ holds fd s' M /\
    forall off n, 0 <= off -> 0 <= n -> off + n <= Z.of_nat (length c) ->
      wp (nyfs_extent_read_at (in_data_extent_root i) off n) (fun r s'' =>
        r = (Nok, take (Z.to_nat n) (drop (Z.to_nat off) c), n) /\ holds fd s'' M) s') s.
Proof.
  intros HM Hc. pose proof HM as (Q & HQ & ->). rewrite lookup_fmap in Hc. destruct (Q !! ino) as [[nd [i ch]]|] eqn:Hq; [|done]. cbn in Hc.
  injection Hc as ->. pose proof HQ as (Hok & _ & HQs & _). destruct (HQs _ _ Hq) as (Hino & _ & Hat & _). cbn [fst snd] in Hat.
  eapply wp_mono; [apply (read_inode_spec _ _ _ _ _ HD fd); [done|lia]|]. intros r s1 (-> & Hun). exists i. split; [done|].
  pose proof (nodes_untouched _ _ _ _ HQ Hun) as (Hok1 & _ & HQs1 & _). pose proof (holds_untouched _ _ _ _ HM Hun) as HM1.
  destruct (HQs1 _ _ Hq) as (_ & _ & _ & Hii & _ & _ & _ & Hst & Hsz & Hcc). cbn [fst snd body_root n_body] in *. subst c.
  pose proof (inode_size_range _ Hii) as Hsr. rewrite length_bytes_at. split; [lia|]. split; [done|]. intros off n Ho Hn Hlim.
  eapply wp_mono; [apply (read_at_spec _ _ _ _ _ HD fd s1 _ ch); [done..|lia]|].
  intros r s2 (-> & Hun2). split; [|by eapply holds_untouched]. unfold avail. replace (Z.max 0 (Z.min n (stream_len s1 ch - off))) with n by lia.
  do 2 f_equal. by rewrite bytes_at_slice by lia.
Qed.
End tree.
