(* ===== verification/NyfsTreeOps.v ===== *)
(** * Making and removing NYFS nodes

    [make_node] and [unlink_node] on the map of nodes: a name that is new in
    its directory and a node that no name led to; a name taken away and, with
    it, the node, its number and its blocks. *)

From S2P Require Import Prelude Types Loops Bytes NyfsDisk Nyfs NyfsAcl NyfsDir NyfsNodes NyfsImage NyfsIo NyfsAlloc NyfsFree NyfsInodes NyfsStream NyfsGrow NyfsReadWrite NyfsDirs NyfsDirOps NyfsTree.

Section ops.
Context {D : Type} (stack : list Z) (read : nyfs_disk_read_fn D) (write : nyfs_disk_write_fn D) (k size : Z) (img : D -> Z -> Z).
Context (HD : disk_laws read write k size img).
Abbreviation nst := (nst D).
Abbreviation vol_ok := (vol_ok read write k size img).
Abbreviation untouched := (untouched size img).
Abbreviation free_blocks := (free_blocks img).
Abbreviation free_inodes := (free_inodes img).
Abbreviation stream_ok := (stream_ok img).
Abbreviation dir_at := (dir_at img).
Abbreviation written := (written read write k size img).
Abbreviation view := (view img).
Abbreviation inode_at := (inode_at img).
Abbreviation stored_at := (stored_at img).
Abbreviation node_at := (node_at img).
Abbreviation nodes_at := (nodes_at read write k size img).
Abbreviation given := (given read write k size img).
Abbreviation holds := (holds read write k size img).
Implicit Types (s : nst) (ch : chain) (b : body) (q : stored_node) (Q : gmap Z stored_node) (M : gmap Z node).

(** ** Directories among the nodes *)

Lemma stored_dir fd s i ch o m : stored_at fd s i ch (mk_node o (Dir m)) ->
  exists tbl fr, dir_at fd s (in_dir_hash_root i) ch tbl fr /\ dir_map tbl = m /\ in_dir_entry_count i = Z.of_nat (length (concat tbl)).
Proof. intros (_ & _ & _ & _ & Hst & _ & tbl & fr & Hr & Hm & Hc). exists tbl, fr. by split_and!. Qed.

Lemma dir_stored fd s i root ch tbl fr o m : inode_ok i -> plain i -> in_type i = NYFS_INO_TYPE_DIR -> inode_owner i = o ->
  in_data_extent_root i = NYFS_BLKNO_NONE -> dir_at fd s root ch tbl fr -> dir_map tbl = m -> 0 <= root < 2 ^ 64 ->
  Z.of_nat (length (concat tbl)) < 2 ^ 64 ->
  stored_at fd s (set_in_dir root (Z.of_nat (length (concat tbl))) i) ch (mk_node o (Dir m)).
Proof.
  intros Hio Hp Ht Ho Hd [Hst Hr] Hm Hroot Hn. split; [apply inode_ok_dir; [done|lia|done]|]. destruct i. unfold plain, inode_owner in *. cbn in *.
  do 4 (split; [done|]). split; [done|]. by exists tbl, fr.
Qed.

(** A stored inode gives its directory back. *)
Lemma stored_dir_facts fd s i ch o m : stored_at fd s i ch (mk_node o (Dir m)) ->
  inode_ok i /\ plain i /\ in_type i = NYFS_INO_TYPE_DIR /\ inode_owner i = o /\ in_data_extent_root i = NYFS_BLKNO_NONE /\
  stream_ok fd s (in_dir_hash_root i) ch.
Proof. intros (Hio & Hp & Ht & Ho & Hst & Hd & _). by split_and!. Qed.

Lemma entries_bound fd s root ch tbl fr : vol_ok fd s -> dir_at fd s root ch tbl fr -> Z.of_nat (length (concat tbl)) < 2 ^ 63.
Proof.
  intros Hok [Hst Hr]. pose proof (dir_count _ _ _ _ Hr). pose proof (stream_len_bound _ _ _ _ _ HD _ _ _ _ Hok Hst).
  pose proof (dl_size _ _ _ _ _ HD). lia.
Qed.

(** What a failed insertion leaves of the directory, whose inode is not
    written. *)
Lemma nodes_restored fd s s2 Q ino n i ch root' ch' : nodes_at fd s Q -> Q !! ino = Some (n, (i, ch)) -> written fd s ch s2 root' ch' ->
  stored_at fd s2 i ch' n -> nodes_at fd s2 (<[ino := (n, (i, ch'))]> Q).
Proof.
  intros HQ Hq Hw Hs. pose proof HQ as (Hok & Hcnt & HQs & Hdis). destruct (HQs _ _ Hq) as (Hino & Hf & Hat & Hst0). cbn [fst snd] in *.
  pose proof Hw as (N & bl & Hst2 & _ & _ & _ & _ & Hc & _). pose proof Hc as (Hok2 & Hl2 & Hfi2 & Hcnt2 & _).
  pose proof Hst0 as (_ & _ & _ & _ & Hst & _).
  apply (nodes_insert read write k size img fd s); [done|done|auto| |].
  - split; [by rewrite (layout_inodes _ _ Hl2)|]. split; [by rewrite Hfi2|]. cbn [fst snd]. split; [|done]. rewrite <- Hat.
    eapply changes_inode_at; [exact HD|exact Hok|exact Hc| |lia]. apply Forall_forall. intros x Hx. rewrite <- (layout_total _ _ Hl2). by apply Hst2.
  - intros j q Hj Hqj. apply (others_written _ _ _ _ _ HD fd s s2 Q ino _ ch root' ch' j q HQ Hst); [|done..].
    exact (nodes_others _ _ _ _ _ _ _ _ _ _ HQ Hq).
Qed.

(** A stream of no node is written. *)
Lemma nodes_rest fd s s2 Q ino root ch r' ch' : nodes_at fd s Q -> Q !! ino = None -> stream_ok fd s root ch ->
  others_apart Q ino ch -> written fd s ch s2 r' ch' -> nodes_at fd s2 Q.
Proof.
  intros HQ Hq Hst Hoth Hw. pose proof HQ as (_ & Hcnt & _ & Hdis). pose proof Hw as (N & bl & _ & _ & _ & _ & _ & (Hok2 & _ & _ & Hcnt2 & _) & _).
  split; [done|]. split; [auto|]. split; [|exact Hdis]. intros j q Hj.
  apply (others_written _ _ _ _ _ HD fd s s2 Q ino root ch r' ch' j q HQ Hst Hoth Hw); [congruence|done].
Qed.

Lemma others_nil Q ino : others_apart Q ino [].
Proof. intros j q _ _ x _ []%not_elem_of_nil. Qed.

Lemma free_inode_pos fd s i : vol_ok fd s -> i ∈ free_inodes s -> 0 < i < inodes s.
Proof.
  intros (_ & _ & _ & _ & _ & H0) [Hi Hu]%free_inodes_spec. destruct (decide (i = 0)) as [->|]; [congruence|lia].
Qed.

(** ** The new inode *)

Lemma inherit_plain (parent child : nyfs_inode_t) is_dir s : plain parent -> nyfs_inherit_acl parent child is_dir s = ((Ok tt, child), s).
Proof.
  intros (Hn & Hb & Hc & _). unfold nyfs_inherit_acl, nyfs_gather_aces. rewrite Hn, Hb, Hc. cbn. by destruct is_dir.
Qed.

Lemma new_inode_ok ino type mode cred : 0 <= ino < 2 ^ 64 -> 0 <= type < 2 ^ 16 -> 0 <= cred_uid cred < 2 ^ 32 -> 0 <= cred_gid cred < 2 ^ 32 ->
  inode_ok (new_inode ino type mode cred).
Proof.
  intros Hi Ht Hu Hg. pose proof (uw_range 16 (Z.land mode 0x0FFF) ltac:(lia)). unfold inode_ok, inode_wf, new_inode, is_bytes, ace_ok. cbn.
  split_and!; try lia; try done; repeat (constructor; [cbn; lia|]); constructor.
Qed.

Definition new_body (is_dir : bool) : body := if is_dir then Dir ∅ else File [].
Definition new_owner (mode : Z) (cred : nyfs_cred_t) : Z * Z * Z := (cred_uid cred, cred_gid cred, u16 (Z.land mode 0x0FFF)).

Lemma make_body_spec fd s ino mode cred (is_dir : bool) : vol_ok fd s -> 0 <= ino < 2 ^ 64 -> 0 <= cred_uid cred < 2 ^ 32 -> 0 <= cred_gid cred < 2 ^ 32 ->
  let inode := new_inode ino (if is_dir then NYFS_INO_TYPE_DIR else NYFS_INO_TYPE_FILE) mode cred in
  wp (if is_dir then nyfs_dirhash_create inode else ret (Ok tt, inode)) (fun r s' => exists root' ch', written fd s [] s' root' ch' /\
    match r.1 with
    | Ok _ => stored_at fd s' r.2 ch' (mk_node (new_owner mode cred) (new_body is_dir)) /\
        (base.size (free_blocks s) <= base.size (free_blocks s') + if is_dir then 2 else 0)%nat
    | Err e => e = NdiskFull /\ (base.size (free_blocks s) <= 1)%nat
    end) s.
Proof.
  intros Hok Hi Hu Hg inode. assert (Hio : inode_ok inode) by (apply new_inode_ok; [done|destruct is_dir; done|done..]). destruct is_dir.
  - eapply wp_mono; [by apply (dirhash_create_spec _ _ _ _ _ HD fd)|]. intros [[[]|e] i'] s2 (ch' & Hw & H); cbn [fst snd] in *; exists (in_dir_hash_root i'), ch'.
    + destruct H as (Hd & -> & Hlen). split; [done|]. pose proof (written_size _ _ _ _ _ HD _ _ _ _ _ _ Hw) as Hws. rewrite Hlen in Hws.
      change (stream_len s []) with 0 in Hws. pose proof (vol_ok_facts _ _ _ _ _ HD _ _ Hok) as Hvf. destruct (written_facts _ _ _ _ _ _ _ _ _ _ _ Hw) as (Hok2 & Hst2 & _).
      split; [|nia]. change 0 with (Z.of_nat (length (concat no_entries))). apply (dir_stored fd s2 inode _ ch' no_entries 160); try done.
      by eapply (chain_head_range _ _ _ _ _ HD).
    + by destruct H as (-> & ? & _).
  - apply wp_ret. exists NYFS_BLKNO_NONE, []. pose proof (stream_nil _ _ _ _ _ HD fd s) as Hnil.
    split; [eapply (written_untouched _ _ _ _ _ HD); [done|done|by apply untouched_refl]|]. split; [|lia]. split; [done|]. split; [done|]. split; [done|].
    split; [done|]. split; [exact Hnil|]. split; [cbn; unfold stream_len; cbn; lia|done].
Qed.

Lemma wp_or_free {A B} new_ino (c : ST nst (res unit * A)) (kont : A -> ST nst (res B)) P s :
  wp c (fun r s' => match r.1 with Ok _ => wp (kont r.2) P s' | Err e => P (Err e) (void (nyfs_free_inode new_ino) s') end) s ->
  wp (or_free new_ino c kont) P s.
Proof. unfold wp, or_free. by destruct (c s) as [[[[]|e] a] s']. Qed.

(** A number goes back: it is no node's. *)
Lemma free_new fd s Q i : nodes_at fd s Q -> Q !! i = None -> 0 < i < inodes s -> i ∉ free_inodes s ->
  nodes_at fd (void (nyfs_free_inode i) s) Q.
Proof.
  intros HQ Hq Hi Hf. pose proof HQ as (Hok & _ & HQs & _). apply wp_void.
  eapply wp_mono; [by apply (free_inode_set _ _ _ _ _ HD fd)|]. intros r s' (_ & Hc & Hfi).
  eapply (nodes_ichanges _ _ _ _ _ HD); [exact HQ|exact Hc|]. intros j q Hj. rewrite Hfi. destruct (HQs _ _ Hj) as (_ & Hn & _).
  assert (j <> i) by congruence. set_solver.
Qed.

(** ** A name in a directory *)

Lemma dir_update fd s s2 dir dir' root' ch ch' o m m' tbl' fr' : vol_ok fd s -> stored_at fd s dir ch (mk_node o (Dir m)) ->
  written fd s ch s2 root' ch' -> dir_at fd s2 root' ch' tbl' fr' -> dir_map tbl' = m' ->
  dir' = set_in_dir root' (Z.of_nat (length (concat tbl'))) dir -> stored_at fd s2 dir' ch' (mk_node o (Dir m')).
Proof.
  intros Hok Hs Hw Hd Hm ->. destruct (stored_dir_facts _ _ _ _ _ _ Hs) as (Hio & Hp & Ht & Ho & Hr & _).
  destruct (written_facts _ _ _ _ _ _ _ _ _ _ _ Hw) as (Hok2 & Hst2 & _). pose proof (entries_bound _ _ _ _ _ _ Hok2 Hd).
  apply (dir_stored fd s2 dir root' ch' tbl' fr'); try done; [by eapply (chain_head_range _ _ _ _ _ HD)|lia].
Qed.

(** The root of a directory does not change, for it has a first block. *)
Lemma dir_same_root fd s s2 root root' ch ch' tbl fr : vol_ok fd s -> dir_at fd s root ch tbl fr -> written fd s ch s2 root' ch' -> root' = root.
Proof.
  intros Hok Hd Hw. pose proof (dir_root _ _ _ _ _ HD _ _ _ _ _ _ Hok Hd) as Hr. destruct Hd as [(Hh & _) _].
  destruct Hw as (N & bl & _ & _ & _ & _ & _ & _ & _ & Hroot). rewrite Hh in *. apply Hroot. by intros ->.
Qed.

Lemma link_node fd s Q d dir ch o m name ino ty : nodes_at fd s Q -> Q !! d = Some (mk_node o (Dir m), (dir, ch)) -> m !! name = None ->
  entry_ok (mk_entry name ino ty) ->
  wp (nyfs_dirhash_insert stack dir name ino ty) (fun r s' => exists ch', match r.1 with
    | Ok _ => (exists root', written fd s ch s' root' ch') /\ stored_at fd s' r.2 ch' (mk_node o (Dir (<[name := (ino, ty)]> m)))
    | Err e => e = NdiskFull /\ (base.size (free_blocks s) <= 1)%nat /\
        nodes_at fd s' (<[d := (mk_node o (Dir m), (dir, ch'))]> Q)
    end) s.
Proof.
  intros HQ Hq Hnone He. pose proof HQ as (Hok & _ & HQs & _). destruct (HQs _ _ Hq) as (_ & _ & _ & Hs). cbn [fst snd] in Hs.
  destruct (stored_dir _ _ _ _ _ _ Hs) as (tbl & fr & Hd & <- & Hcount).
  eapply wp_mono; [by apply (dirhash_insert_spec _ _ _ _ _ _ HD fd s dir ch tbl fr)|].
  intros [[[]|e] dir'] s2 (ch' & tbl' & fr' & Hw & Hd' & H); cbn [fst snd] in *; exists ch'.
  - destruct H as (Hm & _ & Hcount' & Hdir'). split; [by eexists|]. by eapply dir_update.
  - destruct H as (-> & Hfew & -> & Hdir'). split; [done|]. split; [done|]. eapply nodes_restored; [exact HQ|exact Hq|exact Hw|].
    pose proof (dir_same_root _ _ _ _ _ _ _ _ _ Hok Hd Hw) as Hroot.
    replace dir with (set_in_dir (in_dir_hash_root dir') (Z.of_nat (length (concat tbl))) dir); [by eapply dir_update|].
    rewrite <- Hcount, Hroot. by destruct dir.
Qed.

(** The directory's inode is written after a change of its stream. *)
Lemma store_dir fd s s2 Q d dir ch (q : node) root' ch' dir' n : nodes_at fd s Q -> Q !! d = Some (q, (dir, ch)) -> written fd s ch s2 root' ch' ->
  stored_at fd s2 dir' ch' n ->
  wp (nyfs_write_inode d dir') (fun r s' => r = Ok tt /\ nodes_at fd s' (<[d := (n, (stamped d dir', ch'))]> Q) /\
    free_blocks s' = free_blocks s2 /\ bsize s' = bsize s2) s2.
Proof.
  intros HQ Hq Hw Hs. pose proof HQ as (Hok & _ & HQs & _). destruct (HQs _ _ Hq) as (Hd & Hf & _ & _ & _ & _ & _ & Hst & _). cbn [fst snd] in *.
  eapply (store_inode _ _ _ _ _ HD); [exact HQ|exact Hst| |exact Hw|done|done|exact Hs]. exact (nodes_others _ _ _ _ _ _ _ _ _ _ HQ Hq).
Qed.

(** ** Making a node *)

(** From the number on: it is free no more, and no node's yet. *)
Lemma place_node fd s Q d dir ch o m name mode cred (is_dir : bool) i : nodes_at fd s Q -> Q !! d = Some (mk_node o (Dir m), (dir, ch)) ->
  m !! name = None -> 1 <= Z.of_nat (length name) <= NYFS_NAME_MAX -> is_bytes name -> 0 <= cred_uid cred < 2 ^ 32 -> 0 <= cred_gid cred < 2 ^ 32 ->
  0 < i < inodes s -> i ∉ free_inodes s -> Q !! i = None ->
  let type := if is_dir then NYFS_INO_TYPE_DIR else NYFS_INO_TYPE_FILE in
  let new := mk_node (new_owner mode cred) (new_body is_dir) in
  wp (or_free i (nyfs_inherit_acl dir (new_inode i type mode cred) is_dir) (fun inode =>
      or_free i (if is_dir then nyfs_dirhash_create inode else ret (Ok tt, inode)) (fun inode =>
      or_else (nyfs_write_inode i inode) (void (nyfs_free_inode i)) (fun _ =>
      or_free i (nyfs_dirhash_insert stack dir name i type) (fun dir =>
      _ <-? nyfs_write_inode d dir ;; ok i))))) (fun r s' => match r with
    | Ok j => j = i /\ holds fd s' (<[d := mk_node o (Dir (<[name := (i, type)]> m))]> (<[i := new]> (fst <$> Q)))
    | Err e => e = NdiskFull /\ (base.size (free_blocks s) <= if is_dir then 3 else 1)%nat /\ holds fd s' (fst <$> Q)
    end) s.
Proof.
  intros HQ Hq Hnone Hlen Hname Hu Hg Hi Hf Hfresh type new. pose proof HQ as (Hok & _ & HQs & _). pose proof (vol_ok_inodes _ _ _ _ _ _ _ Hok) as Hib.
  destruct (HQs _ _ Hq) as (_ & _ & _ & _ & Hplain & _). cbn [fst snd] in Hplain.
  apply wp_or_free. unfold wp at 1. rewrite inherit_plain by done. cbn [fst snd]. apply wp_or_free.
  eapply wp_mono; [apply (make_body_spec fd s i mode cred is_dir Hok); [lia|done|done]|]. intros [[[]|e] inode] s2; cbn [fst snd]; intros (root' & ch' & Hw & Hs).
  2: { destruct Hs as [-> Hfew]. split; [done|]. split; [destruct is_dir; lia|]. exists Q. split; [|done]. pose proof Hw as (N & bl & _ & _ & _ & _ & _ & (_ & Hl2 & Hfi2 & _) & _).
       apply free_new; [|done|by rewrite (layout_inodes _ _ Hl2)|by rewrite Hfi2].
       eapply nodes_rest; [exact HQ|exact Hfresh|by apply (stream_nil _ _ _ _ _ HD)|by apply others_nil|exact Hw]. }
  destruct Hs as [Hs Hfile]. apply wp_or_else. eapply wp_mono; [eapply (store_inode _ _ _ _ _ HD fd s s2 Q i new NYFS_BLKNO_NONE []);
    [exact HQ|by apply (stream_nil _ _ _ _ _ HD)|by apply others_nil|exact Hw|done|done|exact Hs]|].
  intros r s3 (-> & HQ3 & Hf3 & _). apply wp_or_free. assert (Hne : d <> i) by congruence. assert (Hq3 : <[i:=(new, (stamped i inode, ch'))]> Q !! d = Some (mk_node o (Dir m), (dir, ch))) by by rewrite lookup_insert_ne.
  assert (He : entry_ok (mk_entry name i type)) by (split; [exact Hlen|split; [exact Hname|cbn; split; [lia|by destruct is_dir]]]).
  eapply wp_mono; [by apply (link_node fd s3 _ d dir ch o m name i type HQ3 Hq3 Hnone)|]. intros [[[]|e] dir'] s4; cbn [fst snd]; intros (ch4 & H).
  - destruct H as [(root4 & Hw4) Hs4]. apply wp_tryb. eapply wp_mono; [by eapply (store_dir fd s3 s4)|]. intros r s5 (-> & HQ5 & _). apply wp_ret. split; [done|].
    apply holds_insert in HQ5. by rewrite fmap_insert in HQ5.
  - destruct H as (-> & Hfew & HQ4). split; [done|]. split; [rewrite Hf3 in Hfew; destruct is_dir; lia|]. exists (<[d := (mk_node o (Dir m), (dir, ch4))]> Q). split.
    + pose proof HQ4 as (_ & _ & HQs4 & _). destruct (HQs4 i (new, (stamped i inode, ch'))) as (Hi4 & Hf4 & _); [by rewrite lookup_insert_ne, lookup_insert_eq|].
      apply free_new; [|by rewrite lookup_insert_ne|done|done]. eapply nodes_subset; [exact HQ4|]. apply insert_mono. by apply insert_subseteq.
    + by rewrite fmap_insert, insert_id by (by rewrite lookup_fmap, Hq).
Qed.

Lemma make_node_spec fd s M d o m dir name mode cred (is_dir : bool) : holds fd s M -> M !! d = Some (mk_node o (Dir m)) -> inode_at s d = Ok dir ->
  1 <= Z.of_nat (length name) <= NYFS_NAME_MAX -> is_bytes name -> 0 <= cred_uid cred < 2 ^ 32 -> 0 <= cred_gid cred < 2 ^ 32 ->
  let type := if is_dir then NYFS_INO_TYPE_DIR else NYFS_INO_TYPE_FILE in
  wp (make_node stack d dir name mode cred is_dir) (fun r s' => match r with
    | Ok i => m !! name = None /\ M !! i = None /\ i ∈ free_inodes s /\
        holds fd s' (<[d := mk_node o (Dir (<[name := (i, type)]> m))]> (<[i := mk_node (new_owner mode cred) (new_body is_dir)]> M))
    | Err e => holds fd s' M /\ (e = NalreadyExists /\ is_Some (m !! name) \/ m !! name = None /\
        (e = NoutOfMemory /\ free_inodes s = ∅ \/ e = NdiskFull /\ (base.size (free_blocks s) <= if is_dir then 3 else 1)%nat))
    end) s.
Proof.
  intros (Q & HQ & ->) Hd Hat Hlen Hname Hu Hg type. rewrite lookup_fmap in Hd. destruct (Q !! d) as [[n [i ch]]|] eqn:Hq; [|done]. cbn in Hd. injection Hd as ->.
  pose proof HQ as (Hok & _ & HQs & _). destruct (HQs _ _ Hq) as (_ & _ & Hat' & Hs). cbn [fst snd] in *. assert (i = dir) as -> by congruence.
  destruct (stored_dir _ _ _ _ _ _ Hs) as (tbl & fr & Hda & Hm & _). unfold make_node. unfold wp at 1.
  destruct (wp_run _ _ _ (lookup_spec stack _ _ _ _ _ HD fd s dir ch tbl fr name Hok Hda Hlen)) as (r & s1 & -> & -> & Hun). rewrite Hm.
  pose proof (nodes_untouched _ _ _ _ _ HD _ _ _ _ HQ Hun) as HQ1. destruct (m !! name) as [x|] eqn:Hx.
  { split; [by exists Q|]. by left. }
  destruct (changes_untouched _ _ _ _ _ fd [] s s1 Hok Hun) as [(_ & _ & Hfr & _) Hfb].
  pose proof HQ1 as (Hok1 & _ & HQs1 & _). eapply (wp_mono (new_ino <-? nyfs_alloc_inode ;; _)); [apply wp_tryb|intros ?? H; exact H].
  eapply wp_mono; [by apply (alloc_inode_set _ _ _ _ _ HD fd)|]. intros [i|e] s2 (Hc & H).
  2: { destruct H as (-> & He0 & He). rewrite Hfr in He0. split; [|by right; split; [|left]]. exists Q. split; [|done].
       eapply (nodes_ichanges _ _ _ _ _ HD); [exact HQ1|exact Hc|]. intros j q _. rewrite He. apply not_elem_of_empty. }
  destruct H as (Hi & _ & Hfi). pose proof Hc as (_ & Hl & Hfb2 & _).
  assert (Hfresh : Q !! i = None). { destruct (Q !! i) as [q|] eqn:E; [|done]. by destruct (HQs1 _ _ E) as (_ & Hn & _). }
  assert (HQ2 : nodes_at fd s2 Q).
  { eapply (nodes_ichanges _ _ _ _ _ HD); [exact HQ1|exact Hc|]. intros j q Hj. rewrite Hfi. destruct (HQs1 _ _ Hj) as (_ & Hn & _). set_solver. }
  eapply wp_mono; [apply (place_node fd s2 Q d dir ch o m name mode cred is_dir i); try done|].
  - rewrite (layout_inodes _ _ Hl). by eapply free_inode_pos.
  - rewrite Hfi. set_solver.
  - intros [j|e] s3; [|intros (-> & Hfew & H); split; [done|right; split; [done|right]; split; [done|]; by rewrite <- Hfb, <- Hfb2]]. intros [-> H]. split; [done|]. split; [by rewrite lookup_fmap, Hfresh|]. split; [by rewrite <- Hfr|done].
Qed.

(** ** Taking a node away *)

Lemma kept_given fd s s' l root ch : stream_ok fd s root ch -> given fd l s s' -> apart (own ch) l -> kept img fd s s' root ch.
Proof.
  intros Hst (Hok & Hc & Hf) Hd. split.
  - eapply (stream_frame _ _ _ _ _ HD); [exact Hok|exact Hst|exact Hc|set_solver|]. intros x Hx. rewrite Hf, elem_of_union, elem_of_list_to_set.
    intros [H|H]; [by apply (Hd x)|]. destruct Hst as (_ & _ & _ & _ & Hin). by destruct (Hin x Hx).
  - intros x Hx. eapply (view_unchanged _ _ _ _ _ HD); [exact Hok|exact Hc|by eapply (data_in_range _ _ _ _ _ HD)|set_solver|exact Hx].
Qed.

Lemma nodes_given fd s s' l Q : nodes_at fd s Q -> given fd l s s' -> (forall j q, Q !! j = Some q -> apart (own q.2.2) l) -> nodes_at fd s' Q.
Proof.
  intros (Hok & Hcnt & HQ & Hdis) Hg Hd. pose proof Hg as (_ & Hc & _). pose proof Hc as (Hok' & Hl & Hfi & Hcnt' & _).
  split; [done|]. split; [auto|]. split; [|exact Hdis]. intros j q Hj. pose proof (HQ _ _ Hj) as Hn.
  pose proof Hn as (Hi & Hf & _ & _ & _ & _ & _ & Hst & _). eapply (node_kept _ _ _ _ _ HD); [exact Hok|exact Hl|exact Hn| |by rewrite Hfi|].
  - eapply changes_inode_at; [exact HD|exact Hok|exact Hc|constructor|lia].
  - eapply kept_given; [exact Hst|exact Hg|by eapply Hd].
Qed.

(** The blocks of a node that is no longer in the map, then its number. *)
Lemma release_chain fd s Q root ch : nodes_at fd s Q -> stream_ok fd s root ch -> (forall j q, Q !! j = Some q -> apart (own q.2.2) (own ch)) ->
  nodes_at fd (void (nyfs_free_extent_chain root) s) Q /\ same_layout s (void (nyfs_free_extent_chain root) s) /\
  free_inodes (void (nyfs_free_extent_chain root) s) = free_inodes s /\
  free_blocks (void (nyfs_free_extent_chain root) s) = list_to_set (own ch) ∪ free_blocks s.
Proof.
  intros HQ Hst Hd. pose proof HQ as (Hok & _). apply wp_void. eapply wp_mono; [by apply (free_chain_spec _ _ _ _ _ HD fd s root ch)|].
  intros r s' (l & _ & Hl & Hg). split; [|split; [apply Hg|split; [apply Hg|]]].
  2: { destruct Hg as (_ & _ & ->). f_equal. apply set_eq. intros x. by rewrite !elem_of_list_to_set, Hl. } eapply nodes_given; [exact HQ|exact Hg|]. intros j q Hj x Hx Hxl. apply (Hd j q Hj x Hx). by rewrite <- Hl.
Qed.

(** The four steps of [release_node] on an inode without links. *)
Definition release_steps (ino : Z) (b : body) (i : nyfs_inode_t) s : nst :=
  let s := match b with Dir _ => void (nyfs_free_extent_chain (in_dir_hash_root i)) s | File _ => s end in
  void (nyfs_free_inode ino) (void (nyfs_free_extent_chain (in_data_extent_root i)) s).

Lemma release_node_eq ino i b s : in_type i = body_type b ->
  release_node ino (set_in_owner (in_ino i) (in_type i) (in_unix_mode i) (in_uid i) (in_gid i) 0 i) s = release_steps ino b i s.
Proof.
  intros Ht. unfold release_node, release_steps. cbn [in_link_count set_in_owner in_type in_dir_hash_root in_data_extent_root].
  rewrite Ht, Z.eqb_refl. destruct b; cbn [body_type]; [|by rewrite Z.eqb_refl]. by rewrite (proj2 (Z.eqb_neq NYFS_INO_TYPE_FILE _)).
Qed.

Lemma release_nil s : void (nyfs_free_extent_chain NYFS_BLKNO_NONE) s = s.
Proof. by apply (wp_void (nyfs_free_extent_chain NYFS_BLKNO_NONE) (fun s' => s' = s)). Qed.

(** The blocks are given back, and the number. *)
Definition reclaimed s ino ch s' : Prop := ino ∈ free_inodes s' /\ free_blocks s' = list_to_set (own ch) ∪ free_blocks s.

Lemma free_number fd s i : vol_ok fd s -> 0 < i < inodes s -> i ∉ free_inodes s ->
  i ∈ free_inodes (void (nyfs_free_inode i) s) /\ free_blocks (void (nyfs_free_inode i) s) = free_blocks s.
Proof.
  intros Hok Hi Hf. apply wp_void. eapply wp_mono; [by apply (free_inode_set _ _ _ _ _ HD fd)|]. intros r s' (_ & Hc & ->).
  split; [set_solver|apply Hc].
Qed.

Lemma release_spec fd s Q ino i ch n links : nodes_at fd s Q -> Q !! ino = None -> 0 < ino < inodes s -> ino ∉ free_inodes s ->
  stored_at fd s i ch n -> (forall j q, Q !! j = Some q -> apart (own q.2.2) (own ch)) -> links = 0 ->
  nodes_at fd (release_node ino (set_in_owner (in_ino i) (in_type i) (in_unix_mode i) (in_uid i) (in_gid i) links i) s) Q /\
  reclaimed s ino ch (release_node ino (set_in_owner (in_ino i) (in_type i) (in_unix_mode i) (in_uid i) (in_gid i) links i) s).
Proof.
  intros HQ Hq Hi Hf (Hio & _ & Ht & _ & Hst & Hb) Hd ->. rewrite (release_node_eq _ _ _ _ Ht). unfold release_steps. cbv zeta.
  destruct (release_chain _ _ _ _ _ HQ Hst Hd) as (HQ1 & Hl1 & Hfi1 & Hfb1). rewrite <- (layout_inodes _ _ Hl1) in Hi. rewrite <- Hfi1 in Hf.
  pose proof HQ1 as (Hok1 & _). pose proof (free_number _ _ _ Hok1 Hi Hf) as [Hend2 Hend3]. rewrite Hfb1 in Hend3.
  pose proof (conj (free_new _ _ _ _ HQ1 Hq Hi Hf) (conj Hend2 Hend3)) as Hend. clear Hl1 Hfi1 HQ1 Hok1 Hfb1 Hend2 Hend3.
  destruct n as [o [c|m]]; cbn [n_body body_type body_root body_in] in *; [exact Hend|].
  destruct Hb as [-> _]. rewrite release_nil. exact Hend.
Qed.

Lemma dir_map_empty tbl : dir_map tbl = ∅ <-> concat tbl = [].
Proof.
  unfold dir_map. destruct (concat tbl) as [|p l]; [done|]. split; [|done]. intros H. apply (f_equal (lookup (e_name p.2))) in H.
  rewrite fmap_cons, list_to_map_cons, lookup_insert_eq, lookup_empty in H. done.
Qed.

(** The bytes a node takes on the disk, at least. *)
Definition room (b : body) : Z := match b with File c => Z.of_nat (length c) | Dir _ => 1 end.

Lemma reclaimed_room fd s s' ino i ch n : vol_ok fd s -> stored_at fd s i ch n -> reclaimed s ino ch s' ->
  Z.of_nat (base.size (free_blocks s)) * bsize s + room (n_body n) <= Z.of_nat (base.size (free_blocks s')) * bsize s.
Proof.
  intros Hok (_ & _ & _ & _ & (_ & _ & _ & Hnd & Hin) & Hb) [_ ->]. rewrite size_union by (intros x Hx%elem_of_list_to_set; by apply Hin).
  rewrite size_list_to_set by done. unfold own at 1. rewrite length_app. pose proof (vol_ok_facts _ _ _ _ _ HD _ _ Hok) as Hvf.
  assert (0 <= stream_len s ch) by (unfold stream_len; nia). assert (room (n_body n) <= stream_len s ch).
  { destruct (n_body n) as [c|m]; cbn in *; [destruct Hb as [Hle ->]; rewrite length_bytes_at; lia|].
    destruct Hb as (_ & tbl & fr & Hr & _). destruct Hr as [_ Hs _ _ _ _]. unfold table_end, DHDR_SIZE in Hs. lia. }
  unfold stream_len in *. nia.
Qed.

(** From the name on: it leads to the node [n] at [t]. *)
Lemma unlink_found fd s Q d dir ch o m name t ty n ti tch : nodes_at fd s Q -> Q !! d = Some (mk_node o (Dir m), (dir, ch)) ->
  Q !! t = Some (n, (ti, tch)) -> t <> d -> m !! name = Some (t, ty) -> 1 <= Z.of_nat (length name) <= NYFS_NAME_MAX ->
  wp (r <- nyfs_dirhash_remove stack dir name ;;
      match r with
      | (Err e, _) => fail e
      | (Ok _, dir) =>
        _ <-? nyfs_write_inode d dir ;;
        let links := in_link_count ti in
        let target_inode := set_in_owner (in_ino ti) (in_type ti) (in_unix_mode ti) (in_uid ti) (in_gid ti) (if 0 <? links then links - 1 else links) ti in
        fun s => (Ok tt, release_node t target_inode s)
      end) (fun r s' => r = Ok tt /\ holds fd s' (delete t (<[d := mk_node o (Dir (delete name m))]> (fst <$> Q))) /\
    t ∈ free_inodes s' /\ Z.of_nat (base.size (free_blocks s)) * bsize s + room (n_body n) <= Z.of_nat (base.size (free_blocks s')) * bsize s) s.
Proof.
  intros HQ Hq Hqt Hne Hx Hlen. pose proof HQ as (Hok & _ & HQs & _). destruct (HQs _ _ Hq) as (_ & _ & _ & Hs). cbn [fst snd] in Hs.
  destruct (stored_dir _ _ _ _ _ _ Hs) as (tbl & fr & Hda & Hm & _). apply wp_bind.
  eapply wp_mono; [by apply (dirhash_remove_spec _ _ _ _ _ _ HD fd s dir ch tbl fr)|].
  intros [[[]|e] dir'] s2 (ch' & tbl' & Hw & Hd' & H); cbn [fst snd] in *; [|exfalso; destruct H as (_ & H & _); congruence].
  destruct H as (_ & Hm' & _ & _ & Hdir' & Hfb2). rewrite Hm in Hm'. apply wp_tryb.
  eapply wp_mono; [eapply (store_dir fd s s2 Q d dir ch); [exact HQ|exact Hq|exact Hw|by eapply dir_update]|]. intros r s3 (-> & HQ3 & Hfb3 & Hbs3).
  destruct (written_facts _ _ _ _ _ _ _ _ _ _ _ Hw) as (_ & _ & Hbs2 & _). rewrite Hbs2 in Hbs3. rewrite Hfb2 in Hfb3.
  cbn zeta. unfold wp. split; [done|]. set (n' := mk_node o (Dir (delete name m))) in *. set (q' := (n', _)) in HQ3.
  pose proof HQ3 as (_ & _ & HQs3 & Hdis3). assert (Hqt3 : <[d:=q']> Q !! t = Some (n, (ti, tch))) by by rewrite lookup_insert_ne.
  destruct (HQs3 _ _ Hqt3) as (Ht & Hft & _ & Hst). cbn [fst snd] in *.
  pose proof HQ3 as (Hok3 & _). pose proof Hst as (_ & (_ & _ & _ & Hlinks) & _).
  assert (HQd : nodes_at fd s3 (delete t (<[d := q']> Q))) by (eapply nodes_subset; [exact HQ3|apply delete_subseteq]).
  destruct (release_spec fd s3 _ t ti tch n (if 0 <? in_link_count ti then in_link_count ti - 1 else in_link_count ti) HQd (lookup_delete_eq _ _) Ht Hft Hst)
    as [Hend Hrec]; [|by rewrite Hlinks|].
  { intros j q [Hj Hqj]%lookup_delete_Some. eapply (Hdis3 j t q _ Hqj Hqt3). done. }
  split; [eexists; split; [exact Hend|by rewrite fmap_delete, fmap_insert]|]. split; [apply Hrec|].
  pose proof (reclaimed_room _ _ _ _ _ _ _ Hok3 Hst Hrec) as Hroom. by rewrite Hfb3, Hbs3 in Hroom.
Qed.

(** A directory with entries stays. *)
Definition busy (b : body) : Prop := match b with File _ => False | Dir m => m <> ∅ end.

Lemma unlink_node_spec fd s M d o m dir name : holds fd s M -> M !! d = Some (mk_node o (Dir m)) -> inode_at s d = Ok dir ->
  1 <= Z.of_nat (length name) <= NYFS_NAME_MAX ->
  (forall x, m !! name = Some x -> x.1 <> d /\ is_Some (M !! x.1)) ->
  wp (unlink_node stack d dir name) (fun r s' => match r with
    | Ok _ => exists x n, m !! name = Some x /\ M !! x.1 = Some n /\ ~ busy (n_body n) /\
        holds fd s' (delete x.1 (<[d := mk_node o (Dir (delete name m))]> M)) /\ x.1 ∈ free_inodes s' /\
        Z.of_nat (base.size (free_blocks s)) * bsize s + room (n_body n) <= Z.of_nat (base.size (free_blocks s')) * bsize s
    | Err e => holds fd s' M /\ (e = NnotFound /\ m !! name = None \/
        e = Nbusy /\ exists x n, m !! name = Some x /\ M !! x.1 = Some n /\ busy (n_body n))
    end) s.
Proof.
  intros (Q & HQ & ->) Hd Hat Hlen Htgt. rewrite lookup_fmap in Hd. destruct (Q !! d) as [[nd [i ch]]|] eqn:Hq; [|done]. cbn in Hd. injection Hd as ->.
  pose proof HQ as (Hok & _ & HQs & _). destruct (HQs _ _ Hq) as (_ & _ & Hat' & Hs). cbn [fst snd] in *. assert (i = dir) as -> by congruence.
  destruct (stored_dir _ _ _ _ _ _ Hs) as (tbl & fr & Hda & Hm & _). unfold unlink_node. apply wp_tryb.
  eapply wp_mono; [by apply (lookup_spec stack _ _ _ _ _ HD fd s dir ch tbl fr name)|]. intros r s1 (-> & Hun). rewrite Hm.
  pose proof (nodes_untouched _ _ _ _ _ HD _ _ _ _ HQ Hun) as HQ1. destruct (m !! name) as [[t ty]|] eqn:Hx.
  2: { split; [by exists Q|]. by left. }
  destruct (Htgt _ eq_refl) as [Hne [n Hn]]. cbn [fst] in *. rewrite lookup_fmap in Hn. destruct (Q !! t) as [[n' [ti tch]]|] eqn:Hqt; [|done]. cbn in Hn. injection Hn as ->.
  pose proof HQ1 as (Hok1 & _ & HQs1 & _). destruct (HQs1 _ _ Hqt) as (Ht & _ & Hatt & Hst). cbn [fst snd] in *.
  apply wp_tryb. eapply wp_mono; [apply (read_inode_spec _ _ _ _ _ HD fd); [done|lia]|]. intros r s2 (-> & Hun2). rewrite Hatt.
  pose proof (nodes_untouched _ _ _ _ _ HD _ _ _ _ HQ1 Hun2) as HQ2.
  assert (Hbusy : (in_type ti =? NYFS_INO_TYPE_DIR) && (0 <? in_dir_entry_count ti) = true <-> busy (n_body n)).
  { destruct Hst as (_ & _ & -> & _ & _ & Hb). destruct (n_body n) as [c|m']; cbn; [done|].
    destruct Hb as (_ & tb & fr' & _ & <- & Hc). rewrite dir_map_empty, Hc. destruct (concat tb); cbn [length]; [done|]. split; [done|intros _; lia]. }
  destruct ((in_type ti =? NYFS_INO_TYPE_DIR) && (0 <? in_dir_entry_count ti)) eqn:Eb.
  { split; [by exists Q|]. right. split; [done|]. exists (t, ty), n. cbn [fst]. rewrite lookup_fmap, Hqt. split; [done|]. split; [done|]. by apply Hbusy. }
  eapply wp_mono; [exact (unlink_found fd s2 Q d dir ch o m name t ty n ti tch HQ2 Hq Hqt Hne Hx Hlen)|].
  intros r s3 [-> H]. exists (t, ty), n. cbn [fst]. rewrite lookup_fmap, Hqt. split; [done|]. split; [done|]. split; [intros Hb%Hbusy; done|].
  pose proof (untouched_trans _ _ _ _ _ Hun Hun2) as Hun3. destruct (changes_untouched _ _ _ _ _ fd [] _ _ Hok Hun3) as [_ Hfb].
  destruct (untouched_stream _ _ _ _ Hun3) as [Hbs _]. by rewrite Hfb, Hbs in H.
Qed.
End ops.
