(* ===== verification/NyfsVfs.v ===== *)
(** * What the NYFS driver promises to the virtual file system

    The driver's operations on open files and on directories, as the virtual
    file system calls them, on a volume that [holds] a map of nodes: each is a
    lookup or an update of the map, or fails and leaves it. *)

From S2P Require Import Prelude Types Loops Bytes Process FileIO FsCore Vfs NyfsDisk Nyfs NyfsAcl NyfsDir NyfsNodes NyfsFs NyfsIo NyfsAlloc NyfsFree NyfsInodes NyfsStream NyfsReadWrite NyfsTree NyfsTreeOps.

Section vfs.
Context {D : Type} (read : nyfs_disk_read_fn D) (write : nyfs_disk_write_fn D) (k size : Z) (img : D -> Z -> Z).
Context (HD : disk_laws read write k size img).
Abbreviation nst := (nst D).
Abbreviation vfs := (vfs nyfs_tbl nyfs_ptr (nyfs_st D)).
Abbreviation handle_t := (handle_t nyfs_ptr).
Abbreviation holds := (holds read write k size img).
Abbreviation free_blocks := (free_blocks img).
Implicit Types (s : vfs) (h : handle_t).

(** A volume of the driver's table, with the disks. *)
Definition nst_of (vol : nat) s : nst := mk_nst (volume_ vol s) (nyfs_disk (g_driver s)).
Definition in_table (vol : nat) s : Prop := (vol < length (g_volumes (g_driver s)))%nat.

Lemma on_volume_spec {A} vol (c : ST nst A) Q s : in_table vol s -> wp c Q (nst_of vol s) ->
  wp (on_volume vol c) (fun a s' => Q a (nst_of vol s') /\ in_table vol s' /\ (forall p, ndata_of p s' = ndata_of p s) /\
    forall d, vfs_get_vnode_private d s' = vfs_get_vnode_private d s) s.
Proof.
  intros Hvol Hc. unfold on_volume, nst_of in *. unfold wp in Hc |- *. destruct (c _) as [a [v d]]. cbn [n_vol n_disk] in *.
  unfold in_table, volume_, set_volume, on_nyfs, with_volumes, with_ndisk, with_driver. cbn.
  rewrite list_lookup_insert_eq by done. split; [done|]. rewrite length_insert. split; [done|]. split; [by intros []|done].
Qed.

(** The file a handle stands for. *)
Definition handle_on (vol : nat) (ino : Z) h s : Prop :=
  exists p, hd_private h = Some p /\ nd_vol (ndata_of p s) = Some vol /\ nd_ino (ndata_of p s) = ino /\ in_table vol s.

Lemma nyfs_read_run fd M vol ino o c h n s : handle_on vol ino h s -> holds fd (nst_of vol s) M -> M !! ino = Some (mk_node o (File c)) ->
  0 <= hd_offset h -> 0 <= n ->
  wp (nyfs_read h n) (fun r s' => exists m, r = ((Nok, (take (Z.to_nat n) (drop (Z.to_nat (hd_offset h)) c), m)), h) /\
    m = Z.max 0 (Z.min n (Z.of_nat (length c) - hd_offset h)) /\ holds fd (nst_of vol s') M /\ handle_on vol ino h s') s.
Proof.
  intros (p & Hpriv & Hv & Hi & Hin) HM Hc Ho Hn. unfold nyfs_read. unfold wp at 1. rewrite Hpriv. cbn zeta. rewrite Hv, Hi.
  destruct (wp_run _ _ _ (on_volume_spec _ _ _ _ Hin (open_file_spec _ _ _ _ _ HD _ _ _ _ _ _ HM Hc))) as (r & s1 & -> & Hr & Hin1 & Hnd1 & _).
  destruct Hr as (i & -> & Hsz & HM1 & Hread). rewrite Hsz. case_if.
  { eexists. split; [rewrite drop_ge by lia; by rewrite take_nil|]. split; [lia|]. split; [done|]. exists p. by rewrite Hnd1. }
  set (m := if n <? _ then n else _). assert (Hm : m = Z.min n (Z.of_nat (length c) - hd_offset h)) by (unfold m; case_if; lia).
  destruct (wp_run _ _ _ (on_volume_spec _ _ _ _ Hin1 (Hread (hd_offset h) m Ho ltac:(lia) ltac:(lia)))) as (r & s2 & -> & (-> & HM2) & Hin2 & Hnd2 & _).
  exists m. split.
  - do 3 f_equal. destruct (Z.le_gt_cases n (Z.of_nat (length c) - hd_offset h)); [by replace m with n by lia|].
    rewrite !(take_ge (drop _ _)); [done|rewrite length_drop; lia..].
  - split; [lia|]. split; [done|]. exists p. by rewrite Hnd2, Hnd1.
Qed.

Lemma nyfs_write_run fd M vol ino o c h buf s : handle_on vol ino h s -> holds fd (nst_of vol s) M -> M !! ino = Some (mk_node o (File c)) ->
  is_bytes buf -> buf <> [] -> 0 <= hd_offset h ->
  hd_offset h + Z.of_nat (length buf) + bsize (nst_of vol s) <= 2 ^ 64 ->
  wp (nyfs_write h buf) (fun r s' => r.2 = h /\ handle_on vol ino h s' /\ match r.1 with
    | Ok n => n = Z.of_nat (length buf) /\ exists gap, Z.of_nat (length gap) = Z.max 0 (hd_offset h - Z.of_nat (length c)) /\
        holds fd (nst_of vol s') (<[ino := mk_node o (File (splice (hd_offset h) buf (c ++ gap)))]> M)
    | Err e => e = NdiskFull /\ holds fd (nst_of vol s') M /\
        Z.of_nat (base.size (free_blocks (nst_of vol s))) < write_needs (bsize (nst_of vol s)) c (hd_offset h) buf
    end) s.
Proof.
  intros (p & Hpriv & Hv & Hi & Hin) HM Hc Hb Hne Ho Hlim. unfold nyfs_write. unfold wp at 1. rewrite Hpriv. cbn zeta. rewrite Hv, Hi.
  rewrite bool_decide_false.
  2: { destruct HM as (F & (((_ & Hw & _) & _) & _) & _). cbn in Hw. by rewrite Hw. }
  destruct (wp_run _ _ _ (on_volume_spec _ _ _ _ Hin (write_file_spec _ _ _ _ _ HD _ _ _ _ _ _ _ _ HM Hc Hb Hne Ho Hlim)))
    as (r & s1 & -> & Hr & Hin1 & Hnd1 & _).
  cbn [fst snd]. split; [done|]. split; [exists p; by rewrite Hnd1|]. destruct r as [n|e]; [exact Hr|]. destruct Hr as (? & ? & ?). by split.
Qed.

(** ** Vnodes *)

(** The node a vnode stands for. *)
Definition vnode_on (vol : nat) (ino : Z) (v : nat) s : Prop :=
  exists p, vfs_get_vnode_private (Some v) s = Some p /\ nd_vol (ndata_of p s) = Some vol /\ nd_ino (ndata_of p s) = ino.

Lemma make_vnode_spec vol ino ty s :
  wp (make_vnode vol ino ty) (fun r s' => (forall i, nst_of i s' = nst_of i s) /\
    match r with Ok v => vnode_on vol ino v s' | Err e => e = NoutOfMemory end) s.
Proof.
  unfold make_vnode, tryo, vfs_alloc_vnode, alloc_vnode. unfold wp. 
  destruct (list_find _ (g_vnodes s)) as [[v vn]|] eqn:Hv; [|done].
  unfold nyfs_alloc_vnode_data, nalloc_slot. cbn [g_driver with_vnodes].
  destruct (list_find _ (g_nyfs_vnode_data _)) as [[i sl]|] eqn:Hi; [|done].
  apply list_find_Some in Hv as (Hv & _). apply list_find_Some in Hi as (Hi & _).
  apply lookup_lt_Some in Hv as Hvl. apply lookup_lt_Some in Hi as Hil.
  cbn. split; [done|]. exists (NVnodeData i). unfold vfs_get_vnode_private, vnod, upd_vnode. cbn.
  rewrite list_lookup_alter_eq, list_lookup_insert_eq by done. cbn. split; [done|].
  by rewrite list_lookup_alter_eq, list_lookup_insert_eq by done.
Qed.

(** ** Directories, through their vnodes *)

(** Whether the mode of a node without access control entries gives the
    caller all rights of [mask]. *)
Definition may (o : Z * Z * Z) (cred : nyfs_cred_t) (mask : Z) : Prop :=
  cred_uid cred = 0 \/ forall right, 0 <= right -> Z.testbit mask right = true ->
    mode_gives o.2 (if cred_uid cred =? o.1.1 then 6 else if cred_gid cred =? o.1.2 then 3 else 0) right = true.

(** Taking names away is a right no mode gives. *)
Lemma only_root_may_delete o cred : may o cred NYFS_ACE_DELETE_CHILD <-> cred_uid cred = 0.
Proof.
  split; [|by left]. intros [?|H]; [done|]. specialize (H 3 ltac:(lia) eq_refl). done.
Qed.

Lemma check_plain (i : nyfs_inode_t) cred mask (n : nst) : plain i -> 0 <= mask ->
  exists r, nyfs_check_access i cred mask n = (r, n) /\ (r = Ok tt /\ may (inode_owner i) cred mask \/ r = Err Npermission /\ ~ may (inode_owner i) cred mask).
Proof.
  intros (Hn & Hb & Hc & _) Hm. unfold nyfs_check_access, may. rewrite Hn, Hc. cbn [Z.eqb andb inode_owner fst snd].
  destruct (cred_uid cred =? 0) eqn:Eu; bool_simpl; [eexists; split; [done|by auto]|].
  pose proof (mask_within mask (unix_bits i cred) Hm) as Hw.
  assert (Hiff : (forall right, 0 <= right -> Z.testbit mask right = true -> Z.testbit (unix_bits i cred) right = true) <->
    forall right, 0 <= right -> Z.testbit mask right = true -> mode_gives (in_unix_mode i) (mode_shift i cred) right = true).
  { split; intros H right Hr Ht; specialize (H right Hr Ht); by rewrite unix_bits_testbit in * by done. }
  rewrite Hiff in Hw. unfold mode_shift in Hw. destruct (Z.land mask (unix_bits i cred) =? mask); eexists; (split; [done|]).
  - left. split; [done|]. right. by apply Hw.
  - right. split; [done|]. intros [?|H]; [done|]. by apply Hw in H.
Qed.

Context {F : Type} (current_process : option (process_t F)) (stack : list Z).
Abbreviation cred := (cred current_process).
Abbreviation inode_at := (inode_at img).

Lemma vnode_on_same vol ino v s s' : vnode_on vol ino v s -> (forall d, vfs_get_vnode_private d s' = vfs_get_vnode_private d s) ->
  (forall p, ndata_of p s' = ndata_of p s) -> vnode_on vol ino v s'.
Proof. intros (p & H1 & H2 & H3) Hp Hn. exists p. by rewrite Hp, Hn. Qed.

Lemma enter_dir_spec fd M vol d o m dir writing mask s : vnode_on vol d dir s -> in_table vol s -> holds fd (nst_of vol s) M ->
  M !! d = Some (mk_node o (Dir m)) -> 0 <= mask ->
  wp (enter_dir current_process dir writing mask) (fun r s' => vnode_on vol d dir s' /\ in_table vol s' /\ holds fd (nst_of vol s') M /\
    free_inodes img (nst_of vol s') = free_inodes img (nst_of vol s) /\ free_blocks (nst_of vol s') = free_blocks (nst_of vol s) /\
    bsize (nst_of vol s') = bsize (nst_of vol s) /\
    match r with
    | Ok (v, i, inode) => v = vol /\ i = d /\ inode_at (nst_of vol s') d = Ok inode /\ may o cred mask
    | Err e => e = Npermission /\ ~ may o cred mask
    end) s.
Proof.
  intros Hv Hin HM Hd Hm. pose proof HM as (Q & HQ & HMQ). pose proof (f_equal (lookup d) HMQ) as Hq. rewrite Hd, lookup_fmap in Hq.
  destruct (Q !! d) as [[nd [i ch]]|] eqn:Hqd; [|done]. cbn in Hq. injection Hq as <-.
  pose proof HQ as (Hok & _ & HQs & _). destruct (HQs _ _ Hqd) as (Hdr & _ & Hat & Hio & Hplain & Hty & Hown & _). cbn [fst snd n_body n_owner body_type] in *.
  pose proof Hv as (p & Hp & Hnv & Hnd). unfold enter_dir. unfold wp at 1. rewrite Hp. cbv zeta. rewrite Hnv, Hnd.
  rewrite bool_decide_false.
  2: { destruct Hok as ((_ & Hw & _) & _). cbn in Hw. by rewrite Hw. }
  rewrite andb_false_r. eapply (wp_mono (tryb _ _)); [apply wp_tryb|intros ?? H; exact H].
  eapply wp_mono; [apply on_volume_spec; [exact Hin|apply (read_inode_spec _ _ _ _ _ HD fd); [done|lia]]|].
  intros r s1 ((-> & Hun) & Hin1 & Hnd1 & Hvp1). rewrite Hat. rewrite Hty, Z.eqb_refl. cbn [negb].
  pose proof (holds_untouched _ _ _ _ _ HD _ _ _ _ HM Hun) as HM1. pose proof (nodes_untouched _ _ _ _ _ HD _ _ _ _ HQ Hun) as (_ & _ & HQs1 & _).
  destruct (HQs1 _ _ Hqd) as (_ & _ & Hat1 & _). cbn [fst snd] in Hat1.
  destruct (changes_untouched _ _ _ _ _ fd [] _ _ Hok Hun) as [(_ & _ & Hfi & _) Hfb]. destruct (untouched_stream _ _ _ _ Hun) as [Hbs _].
  pose proof (vnode_on_same _ _ _ _ _ Hv Hvp1 Hnd1) as Hv1.
  destruct (check_plain i cred mask (nst_of vol s1) Hplain Hm) as (r & Hr & Hcase). rewrite Hown in Hcase.
  apply wp_tryb. eapply wp_mono; [apply (on_volume_spec vol _ (fun r' n' => r' = r /\ n' = nst_of vol s1)); [exact Hin1|by unfold wp; rewrite Hr]|].
  intros r' s2 ((-> & Hn2) & Hin2 & Hnd2 & Hvp2). pose proof (vnode_on_same _ _ _ _ _ Hv1 Hvp2 Hnd2) as Hv2.
  destruct Hcase as [[-> Hmay]|[-> Hmay]]; [apply wp_ret|]; rewrite Hn2; by split_and!.
Qed.

Lemma nyfs_make_run fd M vol d o m dir is_dir name mode s : vnode_on vol d dir s -> in_table vol s -> holds fd (nst_of vol s) M ->
  M !! d = Some (mk_node o (Dir m)) -> 1 <= Z.of_nat (length name) <= NYFS_NAME_MAX -> is_bytes name ->
  0 <= cred_uid cred < 2 ^ 32 -> 0 <= cred_gid cred < 2 ^ 32 ->
  let type := if is_dir : bool then NYFS_INO_TYPE_DIR else NYFS_INO_TYPE_FILE in
  wp (nyfs_make current_process stack is_dir dir name mode) (fun r s' =>
    (holds fd (nst_of vol s') M /\ exists e, r = Err e /\
      (e = Npermission /\ ~ may o cred NYFS_ACE_WRITE_DATA \/ e = NalreadyExists /\ is_Some (m !! name) \/
       e = NoutOfMemory /\ free_inodes img (nst_of vol s) = ∅ \/
       e = NdiskFull /\ (base.size (free_blocks (nst_of vol s)) <= if is_dir then 3 else 1)%nat)) \/
    (may o cred NYFS_ACE_WRITE_DATA /\ m !! name = None /\ exists i, M !! i = None /\
      holds fd (nst_of vol s')
        (<[d := mk_node o (Dir (<[name := (i, type)]> m))]> (<[i := mk_node (new_owner mode cred) (new_body is_dir)]> M)) /\
      (r = Err NoutOfMemory \/ exists v, r = Ok (Some v) /\ vnode_on vol i v s'))) s.
Proof.
  intros Hv Hin HM Hd Hlen Hname Hu Hg type. unfold nyfs_make. apply wp_tryb.
  eapply wp_mono; [by apply (enter_dir_spec fd M vol d o m dir true NYFS_ACE_WRITE_DATA s)|].
  intros [[[v i] inode]|e] s1 (Hv1 & Hin1 & HM1 & Hfi1 & Hfb1 & _ & H); [|left; split; [done|]; exists e; split; [done|by left]].
  destruct H as (-> & -> & Hat & Hmay). apply wp_tryb. eapply wp_mono; [apply on_volume_spec; [exact Hin1|]|].
  { by apply (make_node_spec stack _ _ _ _ _ HD fd _ M d o m inode name mode cred is_dir). }
  intros [i|e] s2 (H & Hin2 & Hnd2 & Hvp2).
  - destruct H as (Hnone & Hfresh & _ & HM2). apply wp_tryb. eapply wp_mono; [apply make_vnode_spec|].
    intros [v|e] s3 (Hn3 & H3); [apply wp_ret|]; right; (split; [done|]; split; [done|]; exists i; split; [done|]; rewrite Hn3; split; [done|]).
    + right. by exists v.
    + left. by subst e.
  - destruct H as (HM2 & H). left. split; [done|]. exists e. split; [done|]. rewrite Hfi1, Hfb1 in H. right.
    destruct H as [?|(_ & [?|?])]; [by left|right; by left|right; by right].
Qed.

Lemma nyfs_unlink_run fd M vol d o m dir name s : vnode_on vol d dir s -> in_table vol s -> holds fd (nst_of vol s) M ->
  M !! d = Some (mk_node o (Dir m)) -> 1 <= Z.of_nat (length name) <= NYFS_NAME_MAX ->
  (forall x, m !! name = Some x -> x.1 <> d /\ is_Some (M !! x.1)) ->
  wp (nyfs_unlink current_process stack dir name) (fun r s' => match r with
    | Ok _ => cred_uid cred = 0 /\ exists x n, m !! name = Some x /\ M !! x.1 = Some n /\ ~ busy (n_body n) /\
        holds fd (nst_of vol s') (delete x.1 (<[d := mk_node o (Dir (delete name m))]> M)) /\ x.1 ∈ free_inodes img (nst_of vol s') /\
        Z.of_nat (base.size (free_blocks (nst_of vol s))) * bsize (nst_of vol s) + room (n_body n) <=
          Z.of_nat (base.size (free_blocks (nst_of vol s'))) * bsize (nst_of vol s)
    | Err e => holds fd (nst_of vol s') M /\ (e = Npermission /\ cred_uid cred <> 0 \/ e = NnotFound /\ m !! name = None \/
        e = Nbusy /\ exists x n, m !! name = Some x /\ M !! x.1 = Some n /\ busy (n_body n))
    end) s.
Proof.
  intros Hv Hin HM Hd Hlen Htgt. unfold nyfs_unlink. apply wp_tryb.
  eapply wp_mono; [by apply (enter_dir_spec fd M vol d o m dir true NYFS_ACE_DELETE_CHILD s)|].
  intros [[[v i] inode]|e] s1 (Hv1 & Hin1 & HM1 & _ & Hfb1 & Hbs1 & H).
  2: { destruct H as [-> H]. split; [done|]. left. split; [done|]. by rewrite <- (only_root_may_delete o). }
  destruct H as (-> & -> & Hat & Hmay%only_root_may_delete). eapply wp_mono; [apply on_volume_spec; [exact Hin1|]|].
  { by apply (unlink_node_spec stack _ _ _ _ _ HD fd _ M d o m inode name). }
  intros [[]|e] s2 (H & _); [rewrite Hfb1, Hbs1 in H; by split|]. destruct H as [HM2 H]. split; [done|]. by right.
Qed.

(** ** What the driver promises *)

(** C13: [nyfs_read] through an open handle gives the bytes of the file at the
    handle's offset, cut at the end of the file, and their number; beyond the
    end it gives none.  The volume holds the same nodes afterwards. *)
Theorem nyfs_read_file fd M vol ino o c h n s : handle_on vol ino h s -> holds fd (nst_of vol s) M ->
  M !! ino = Some (mk_node o (File c)) -> 0 <= hd_offset h -> 0 <= n ->
  wp (nyfs_read h n) (fun r s' => exists m, r = ((Nok, (take (Z.to_nat n) (drop (Z.to_nat (hd_offset h)) c), m)), h) /\
    m = Z.max 0 (Z.min n (Z.of_nat (length c) - hd_offset h)) /\ holds fd (nst_of vol s') M /\ handle_on vol ino h s') s.
Proof. apply nyfs_read_run. Qed.

(** C12: [nyfs_write] through an open handle stores the bytes at the handle's
    offset, makes the file longer if the write goes past its end, and leaves
    every other byte of the file and every other file and directory as it is.
    An offset past the end is allowed: the bytes between the old end and the
    offset then become part of the file, and nothing is said of their values,
    since the code does not clear the blocks it adds.  It fails only with
    [NdiskFull], and no node has then changed; and only if the volume has fewer
    free blocks than the data blocks the file lacks and, each block being an
    extent of its own in the worst case, the extent blocks to list them.  The
    end of the write and one block more must fit 64 bits; the volume is in
    order, and without access control entries. *)
Theorem nyfs_write_file fd M vol ino o c h buf s : handle_on vol ino h s -> holds fd (nst_of vol s) M ->
  M !! ino = Some (mk_node o (File c)) -> is_bytes buf -> buf <> [] -> 0 <= hd_offset h ->
  hd_offset h + Z.of_nat (length buf) + bsize (nst_of vol s) <= 2 ^ 64 ->
  wp (nyfs_write h buf) (fun r s' => r.2 = h /\ handle_on vol ino h s' /\ match r.1 with
    | Ok n => n = Z.of_nat (length buf) /\ exists gap, Z.of_nat (length gap) = Z.max 0 (hd_offset h - Z.of_nat (length c)) /\
        holds fd (nst_of vol s') (<[ino := mk_node o (File (splice (hd_offset h) buf (c ++ gap)))]> M)
    | Err e => e = NdiskFull /\ holds fd (nst_of vol s') M /\
        Z.of_nat (base.size (free_blocks (nst_of vol s))) < write_needs (bsize (nst_of vol s)) c (hd_offset h) buf
    end) s.
Proof. apply nyfs_write_run. Qed.

(** C14: [nyfs_create] and [nyfs_mkdir] add to the volume one new node - an
    empty file or an empty directory with the caller's identity and the mode -
    under a number no node had, and its name to the directory, and give a vnode
    for it.  A caller the directory's mode gives no right to write is refused,
    a name that is there is [NalreadyExists], and without a free inode or
    blocks the nodes stay as they are; only a lack of vnodes, found last, is
    reported after the node was made. *)
Theorem nyfs_make_adds_node fd M vol d o m dir is_dir name mode s : vnode_on vol d dir s -> in_table vol s -> holds fd (nst_of vol s) M ->
  M !! d = Some (mk_node o (Dir m)) -> 1 <= Z.of_nat (length name) <= NYFS_NAME_MAX -> is_bytes name ->
  0 <= cred_uid cred < 2 ^ 32 -> 0 <= cred_gid cred < 2 ^ 32 ->
  let type := if is_dir : bool then NYFS_INO_TYPE_DIR else NYFS_INO_TYPE_FILE in
  wp (nyfs_make current_process stack is_dir dir name mode) (fun r s' =>
    (holds fd (nst_of vol s') M /\ exists e, r = Err e /\
      (e = Npermission /\ ~ may o cred NYFS_ACE_WRITE_DATA \/ e = NalreadyExists /\ is_Some (m !! name) \/
       e = NoutOfMemory /\ free_inodes img (nst_of vol s) = ∅ \/
       e = NdiskFull /\ (base.size (free_blocks (nst_of vol s)) <= if is_dir then 3 else 1)%nat)) \/
    (may o cred NYFS_ACE_WRITE_DATA /\ m !! name = None /\ exists i, M !! i = None /\
      holds fd (nst_of vol s')
        (<[d := mk_node o (Dir (<[name := (i, type)]> m))]> (<[i := mk_node (new_owner mode cred) (new_body is_dir)]> M)) /\
      (r = Err NoutOfMemory \/ exists v, r = Ok (Some v) /\ vnode_on vol i v s'))) s.
Proof. apply nyfs_make_run. Qed.

(** C15: [nyfs_unlink] takes a name out of a directory, and with it the node it
    led to; the node's number becomes free, and free blocks for at least the
    bytes it had; the other nodes stay as they are.  A directory with entries is [Nbusy], an unknown name [NnotFound] -
    and a caller other than root is always refused, since no mode bit stands
    for the right it checks. *)
Theorem nyfs_unlink_removes_node fd M vol d o m dir name s : vnode_on vol d dir s -> in_table vol s -> holds fd (nst_of vol s) M ->
  M !! d = Some (mk_node o (Dir m)) -> 1 <= Z.of_nat (length name) <= NYFS_NAME_MAX ->
  (forall x, m !! name = Some x -> x.1 <> d /\ is_Some (M !! x.1)) ->
  wp (nyfs_unlink current_process stack dir name) (fun r s' => match r with
    | Ok _ => cred_uid cred = 0 /\ exists x n, m !! name = Some x /\ M !! x.1 = Some n /\ ~ busy (n_body n) /\
        holds fd (nst_of vol s') (delete x.1 (<[d := mk_node o (Dir (delete name m))]> M)) /\ x.1 ∈ free_inodes img (nst_of vol s') /\
        Z.of_nat (base.size (free_blocks (nst_of vol s))) * bsize (nst_of vol s) + room (n_body n) <=
          Z.of_nat (base.size (free_blocks (nst_of vol s'))) * bsize (nst_of vol s)
    | Err e => holds fd (nst_of vol s') M /\ (e = Npermission /\ cred_uid cred <> 0 \/ e = NnotFound /\ m !! name = None \/
        e = Nbusy /\ exists x n, m !! name = Some x /\ M !! x.1 = Some n /\ busy (n_body n))
    end) s.
Proof. apply nyfs_unlink_run. Qed.
End vfs.
