(* ===== verification/NyfsFormatted.v ===== *)
(** * What formatting a NYFS volume makes

    The layout the parameters give is a good one; the writes then build the two
    bitmaps, and the volume is in order from the second superblock on.  The
    root directory has an empty table, and mounting accepts the result. *)

From S2P Require Import Prelude Types Loops Bytes NyfsDisk NyfsAcl NyfsDir NyfsFormat Nyfs NyfsImage NyfsIo NyfsAlloc NyfsFree NyfsInodes NyfsStream NyfsGrow NyfsReadWrite NyfsDirs NyfsDirOps NyfsTree NyfsTreeOps Vfs Process NyfsNodes NyfsFs.

(** ** The layout *)

Lemma blocks_for_spec bs n : 0 < bs -> 0 <= n -> n + bs <= 2 ^ 64 ->
  1 <= blocks_for bs n <= n + 1 /\ n <= blocks_for bs n * bs.
Proof.
  intros Hbs Hn Hl. unfold blocks_for. rewrite uw_small by lia.
  pose proof (Z.div_mod (n + bs - 1) bs ltac:(lia)). pose proof (Z.mod_pos_bound (n + bs - 1) bs ltac:(lia)).
  assert (0 <= (n + bs - 1) / bs <= n) by (split; [apply Z.div_pos; lia|apply Z.lt_succ_r, Z.div_lt_upper_bound; nia]).
  case_if; nia.
Qed.

Section layout.
Context (size bs total shift icount : Z).
Context (Hshift : 9 <= shift <= 16) (Hbs : bs = 2 ^ shift) (Htotal : 64 <= total) (Hfit : total * bs <= size) (Hsize : size < 2 ^ 63).
Context (Hic : icount = 0 \/ 2 <= icount < 2 ^ 55).

Lemma bs_range : 512 <= bs <= 65536.
Proof.
  rewrite Hbs. split; [change 512 with (2 ^ 9)|change 65536 with (2 ^ 16)]; apply Z.pow_le_mono_r; lia.
Qed.

(** Where the parts are, and that they do not overlap. *)
Lemma layout_ok l : format_layout_of bs total icount shift = Ok l ->
  let b := fl_sb l in
  geo_ok size (fl_first_data l) bs b /\ sb_ok b /\ sb_inode_bitmap_start b = 1 /\ sb_total_blocks b = total /\
  1 + fl_clear l = sb_inode_table_start b /\ 0 <= fl_clear l /\ fl_first_data l < total /\
  sb_free_blocks b = total - fl_first_data l /\ sb_free_inode_count b = sb_inode_count b /\
  sb_inode_count b = (if icount =? 0 then (if total / 8 <? 16 then 16 else total / 8) else icount).
Proof.
  pose proof bs_range as Hb. unfold format_layout_of.
  set (ic := if icount =? 0 then _ else icount). assert (Ht : total <= 2 ^ 54) by nia.
  assert (Hicr : 2 <= ic < 2 ^ 55).
  { assert (0 <= total / 8 <= total) by (split; [apply Z.div_pos; lia|apply Z.div_le_upper_bound; lia]).
    unfold ic. case_if; [case_if; lia|lia]. }
  assert (H7 : forall n, 0 <= n < 2 ^ 55 -> u64 (n + 7) / 8 = (n + 7) / 8 /\ 0 <= (n + 7) / 8 <= n + 7).
  { intros n Hn. rewrite uw_small by lia. split; [done|]. split; [apply Z.div_pos; lia|apply Z.div_le_upper_bound; lia]. }
  destruct (H7 ic ltac:(lia)) as [-> Hi7]. destruct (H7 total ltac:(lia)) as [-> Ht7].
  destruct (blocks_for_spec bs ((ic + 7) / 8) ltac:(lia) ltac:(lia) ltac:(lia)) as [Hi1 Hi2].
  destruct (blocks_for_spec bs ((total + 7) / 8) ltac:(lia) ltac:(lia) ltac:(lia)) as [Hb1 Hb2].
  rewrite (uw_small 64 (ic * INODE_SIZE)) by (unfold INODE_SIZE; lia).
  destruct (blocks_for_spec bs (ic * INODE_SIZE) ltac:(lia) ltac:(unfold INODE_SIZE; lia) ltac:(unfold INODE_SIZE; lia)) as [Hn1 Hn2].
  set (ib := blocks_for bs ((ic + 7) / 8)) in *. set (bb := blocks_for bs ((total + 7) / 8)) in *.
  set (tb := blocks_for bs (ic * INODE_SIZE)) in *. unfold INODE_SIZE in *.
  rewrite (uw_small 64 (1 + ib)), (uw_small 64 (1 + ib + bb)), (uw_small 64 (1 + ib + bb + tb)), (uw_small 64 (ib + bb)) by lia.
  case_if; [done|]. intros [= <-]. cbn [fl_sb fl_clear fl_first_data].
  cbn [sb_inode_bitmap_start sb_total_blocks sb_inode_table_start sb_free_blocks sb_free_inode_count sb_inode_count sb_alloc_meta_start].
  split.
  { unfold geo_ok. cbn [sb_inode_bitmap_start sb_total_blocks sb_inode_table_start sb_inode_count sb_alloc_meta_start]. unfold INODE_SIZE. lia. }
  split; [|lia]. split; [|unfold is_bytes; cbn; split_and!; repeat (constructor; [lia|]); constructor]. unfold sb_wf, NYFS_MAGIC, NYFS_VERSION, SB_SIZE, NYFS_ALLOC_BITMAP. cbn. lia.
Qed.
End layout.

(** ** The writes *)

Section format.
Context {D : Type} (read : nyfs_disk_read_fn D) (write : nyfs_disk_write_fn D) (k size : Z) (img : D -> Z -> Z).
Context (HD : disk_laws read write k size img).
Abbreviation nst := (nst D).
Abbreviation vol_ok := (vol_ok read write k size img).
Abbreviation bytes_of := (bytes_of img).
Abbreviation used := (used img).
Abbreviation iused := (iused img).
Abbreviation free_blocks := (free_blocks img).
Abbreviation free_inodes := (free_inodes img).
Abbreviation stream_ok := (stream_ok img).
Abbreviation counted := (counted img).
Implicit Types s : nst.

Lemma for_each_spec (I : Z -> nst -> Prop) n body s : 0 <= n < 2 ^ 64 -> I 0 s ->
  (forall i s, 0 <= i < n -> I i s -> wp (body i) (fun r s' => r = Ok tt /\ I (i + 1) s') s) ->
  wp (for_each n body) (fun r s' => r = Ok tt /\ I n s') s.
Proof.
  intros Hn H0 Hb. apply (wp_loop _ _ (fun m i s' => m = n - i /\ 0 <= i <= n /\ I i s') _ n); [|lia|].
  { split_and!; [lia..|done]. }
  intros m i s1 (-> & Hi & HI). case_if.
  - apply wp_stepb. eapply wp_mono; [apply Hb; [lia|done]|]. intros r s2 (-> & HI2). apply wp_ret.
    exists (n - (i + 1)). split; [|lia]. split_and!; [lia..|done].
  - apply wp_ret. by replace n with i by lia.
Qed.

Section build.
Context (V : nyfs_volume_t D) (fd : Z).
Context (HV : vol_read V = Some read /\ vol_write V = Some write /\ vol_diskno V = k).
Context (Hg : geo_ok size fd (vol_block_size V) (vol_sb V)) (Hsb : sb_ok (vol_sb V)).

Lemma V_disk s : n_vol s = V -> on_disk read write k s /\ bsize s = vol_block_size V /\ sb s = vol_sb V /\
  geo_ok size fd (bsize s) (sb s) /\ 0 <= total s < 2 ^ 64 /\ 0 <= inodes s < 2 ^ 64.
Proof.
  intros Hv. unfold on_disk, bsize, total, inodes, sb. rewrite Hv. pose proof (sb_ok_total _ Hsb). pose proof (sb_ok_inodes _ Hsb). destruct HV as (? & ? & ?). split_and!; first [done|lia].
Qed.

(** Every byte of the blocks is zero. *)
Lemma clear_bitmaps_spec start n s : n_vol s = V -> 0 <= start -> 0 <= n -> (start + n) * vol_block_size V <= size ->
  wp (clear_bitmaps start n) (fun r s' => r = Ok tt /\ n_vol s' = V /\
    forall a, start * vol_block_size V <= a < (start + n) * vol_block_size V -> bytes_of s' a = 0) s.
Proof.
  intros Hv Hst Hn Hl. set (bs := vol_block_size V) in *. assert (Hbs : 512 <= bs <= 65536) by apply Hg.
  pose proof (dl_size _ _ _ _ _ HD). assert (Hb : start + n < 2 ^ 63) by nia.
  apply (for_each_spec (fun i s => n_vol s = V /\ forall a, start * bs <= a < (start + i) * bs -> bytes_of s a = 0)); [lia| |].
  { split; [done|]. intros a Ha. lia. }
  intros i s1 Hi (Hv1 & Hz1). destruct (V_disk s1 Hv1) as (_ & Hbs1 & _). fold bs in Hbs1. unfold wp at 1. rewrite Hbs1.
  eapply (wp_mono (for_each _ _)).
  - apply (for_each_spec (fun b s => n_vol s = V /\ forall a, start * bs <= a < (start + i) * bs + b -> bytes_of s a = 0)); [lia| |].
    { split; [done|]. intros a Ha. apply Hz1. lia. }
    intros b s2 Hb2 (Hv2 & Hz2). destruct (V_disk s2 Hv2) as (Hod & Hbs2 & _). fold bs in Hbs2. unfold wp at 1. rewrite Hbs2.
    assert (0 <= (start + i) * bs) by nia. assert ((start + i) * bs + bs <= (start + n) * bs) by nia.
    rewrite (uw_small 64 (start + i)), (uw_small 64) by lia.
    eapply wp_mono; [apply (raw_write_spec _ _ _ _ _ HD); [done|by apply Forall_singleton|done|lia|cbn; lia]|].
    intros r s3 (-> & Hv3 & Hw). split; [done|]. split; [congruence|]. intros a Ha. rewrite Hw by lia.
    unfold patch. cbn [length]. case_if; [by replace (a - ((start + i) * bs + b)) with 0 by lia|]. apply Hz2. lia.
  - intros r s2 (-> & Hv2 & Hz2). split; [done|]. split; [done|]. intros a Ha. apply Hz2. lia.
Qed.

(** The bits below [m] of the block bitmap, and of the inode bitmap those below
    [q]. *)
Definition bits (m q : Z) s : Prop :=
  n_vol s = V /\ (forall j, 0 <= j < total s -> used s j = (j <? m)) /\ (forall j, 0 <= j < inodes s -> iused s j = (j <? q)).

Lemma region_order s : n_vol s = V -> forall i j, 0 <= i < total s -> 0 <= j < inodes s ->
  sb_alloc_meta_start (sb s) * bsize s + i / 8 <> sb_inode_bitmap_start (sb s) * bsize s + j / 8.
Proof.
  intros Hv i j Hi Hj. destruct (V_disk s Hv) as (_ & _ & _ & Hgs & Ht & _).
  destruct (geo_block_in _ s fd i Hgs Hi) as (_ & Hin & _). destruct (geo_inode_in _ s fd j Hgs (proj1 Ht) Hj) as (_ & Hin2 & _).
  unfold in_bitmap, in_ibitmap in *. lia.
Qed.

Lemma mark_block m s : bits m 0 s -> 0 <= m < total s ->
  wp (nyfs_bitmap_put (sb_alloc_meta_start (vol_sb V)) m true) (fun r s' => r = Ok tt /\ bits (m + 1) 0 s') s.
Proof.
  intros (Hv & Hu & Hiu) Hm. destruct (V_disk s Hv) as (Hod & Hbs & Hsbs & Hgs & Ht & Hi).
  destruct (geo_block_in _ s fd m Hgs Hm) as (Hin & _). rewrite <- Hsbs.
  eapply wp_mono; [by apply (bitmap_put_spec _ _ _ _ _ HD)|]. intros r s' (-> & Hv' & Hun & Hb). rewrite Hv in Hv'.
  destruct (V_disk s' Hv') as (_ & Hbs' & Hsbs' & _). split; [done|]. split; [done|].
  assert (Htt : total s' = total s) by (unfold total; congruence). assert (Hii : inodes s' = inodes s) by (unfold inodes; congruence).
  rewrite Htt, Hii. split.
  - intros j Hj. unfold used. rewrite Hsbs', <- Hsbs, Hb by (by apply (geo_block_in _ s fd)). fold (used s j). rewrite Hu by done.
    case_if; [subst; symmetry; apply Z.ltb_lt; lia|]. destruct (Z.ltb_spec j m), (Z.ltb_spec j (m + 1)); (done || lia).
  - intros j Hj. rewrite <- Hiu by done. unfold iused, bit_of. rewrite Hbs', Hsbs', <- Hbs, <- Hsbs. f_equal.
    destruct (geo_inode_in _ s fd j Hgs (proj1 Ht) Hj) as ((? & ? & ? & ?) & _ & Hge). unfold SB_SIZE in Hge.
    apply Hun; [lia|]. intros E. by apply (region_order s Hv m j Hm Hj).
Qed.

Lemma mark_inode_0 m s : bits m 0 s ->
  wp (nyfs_bitmap_put (sb_inode_bitmap_start (vol_sb V)) 0 true) (fun r s' => r = Ok tt /\ bits m 1 s') s.
Proof.
  intros (Hv & Hu & Hiu). destruct (V_disk s Hv) as (Hod & Hbs & Hsbs & Hgs & Ht & Hi).
  assert (H0 : 0 <= 0 < inodes s) by (unfold inodes; rewrite Hsbs; unfold geo_ok in Hg; lia).
  destruct (geo_inode_in _ s fd 0 Hgs (proj1 Ht) H0) as (Hin & _). rewrite <- Hsbs.
  eapply wp_mono; [by apply (bitmap_put_spec _ _ _ _ _ HD)|]. intros r s' (-> & Hv' & Hun & Hb). rewrite Hv in Hv'.
  destruct (V_disk s' Hv') as (_ & Hbs' & Hsbs' & _). split; [done|]. split; [done|].
  assert (Htt : total s' = total s) by (unfold total; congruence). assert (Hii : inodes s' = inodes s) by (unfold inodes; congruence).
  rewrite Htt, Hii. split.
  - intros j Hj. rewrite <- Hu by done. unfold used, bit_of. rewrite Hbs', Hsbs', <- Hbs, <- Hsbs. f_equal.
    destruct (geo_block_in _ s fd j Hgs Hj) as ((? & ? & ? & ?) & _ & Hge). unfold SB_SIZE in Hge.
    apply Hun; [lia|]. by apply (region_order s Hv j 0 Hj H0).
  - intros j Hj. unfold iused. rewrite Hsbs', <- Hsbs, Hb by (by apply (geo_inode_in _ s fd); [|apply Ht|]).
    fold (iused s j). rewrite Hiu by done.
    case_if; [by subst|]. destruct (Z.ltb_spec j 0), (Z.ltb_spec j 1); (done || lia).
Qed.

(** The volume is in order once the superblock with the right count is there. *)
Lemma bits_vol_ok s s' c : bits fd 1 s -> sb_free_blocks (vol_sb V) = sb_total_blocks (vol_sb V) - fd ->
  sb_free_inode_count (vol_sb V) = sb_inode_count (vol_sb V) ->
  counts_set (sb_free_blocks (sb s)) (u64 (sb_free_inode_count (sb s) + -1)) c s s' -> sb_ok (sb s') -> sb_stored img s' ->
  unchanged size img (fun a => a < SB_SIZE) s s' ->
  vol_ok fd s' /\ counted s' /\ same_layout s s' /\
  free_blocks s' = list_to_set (seqZ fd (total s' - fd)) /\ free_inodes s' = list_to_set (seqZ 1 (inodes s' - 1)).
Proof.
  intros (Hv & Hu & Hiu) Hfb Hfi Hc Hs' Hst Hun. destruct (V_disk s Hv) as (Hod & Hbs & Hsbs & Hgs & Ht & Hi).
  assert (Hl : same_layout s s') by by eapply same_layout_counts.
  assert (Htt : total s' = total s) by by apply layout_total. assert (Hii : inodes s' = inodes s) by by apply layout_inodes.
  assert (Hu' : forall j, 0 <= j < total s -> used s' j = (j <? fd)).
  { intros j Hj. rewrite <- Hu by done. unfold used, bit_of. destruct Hl as (_ & _ & _ & -> & _ & _ & -> & _).
    destruct (geo_block_in _ s fd j Hgs Hj) as ((? & ? & ? & ?) & _ & Hge). unfold SB_SIZE in *. rewrite Hun; [done|lia|lia]. }
  assert (Hiu' : forall j, 0 <= j < inodes s -> iused s' j = (j <? 1)).
  { intros j Hj. rewrite <- Hiu by done. unfold iused, bit_of. destruct Hl as (_ & _ & _ & -> & _ & _ & _ & -> & _).
    destruct (geo_inode_in _ s fd j Hgs (proj1 Ht) Hj) as ((? & ? & ? & ?) & _ & Hge). unfold SB_SIZE in *. rewrite Hun; [done|lia|lia]. }
  assert (Hgr : 2 <= inodes s /\ 0 <= fd <= total s).
  { pose proof (geo_order _ _ _ _ Hgs (proj1 Ht)). unfold inodes, total, geo_ok in *. lia. }
  assert (HX : free_blocks s' = list_to_set (seqZ fd (total s' - fd))).
  { apply set_eq. intros b. rewrite free_blocks_spec, Htt, elem_of_list_to_set, elem_of_seqZ. split.
    - intros [Hb Hf]. rewrite Hu' in Hf by done. lia.
    - intros Hb. split; [lia|]. rewrite Hu' by lia. lia. }
  assert (HY : free_inodes s' = list_to_set (seqZ 1 (inodes s' - 1))).
  { apply set_eq. intros b. rewrite free_inodes_spec, Hii, elem_of_list_to_set, elem_of_seqZ. split.
    - intros [Hb Hf]. rewrite Hiu' in Hf by done. lia.
    - intros Hb. split; [lia|]. rewrite Hiu' by lia. lia. }
  split; [|split; [|split_and!; done]].
  - split; [by eapply on_disk_layout|]. split; [by eapply geo_ok_layout|]. split; [done|]. split; [done|]. split.
    + intros b Hb. rewrite Hu' by lia. lia.
    + rewrite Hiu' by lia. done.
  - unfold counted. rewrite HX, HY, !size_list_to_set, !length_seqZ, Htt, Hii by apply NoDup_seqZ.
    unfold counts, sb at 1 2. rewrite Hc. cbn [set_sb vol_sb].
    replace (sb_free_blocks (set_sb_checksum c (set_sb_counts (sb_free_blocks (sb s)) (u64 (sb_free_inode_count (sb s) + -1)) (sb s))))
      with (sb_free_blocks (sb s)) by by destruct (sb s).
    replace (sb_free_inode_count (set_sb_checksum c (set_sb_counts (sb_free_blocks (sb s)) (u64 (sb_free_inode_count (sb s) + -1)) (sb s))))
      with (u64 (sb_free_inode_count (sb s) + -1)) by by destruct (sb s).
    unfold total, inodes in *. rewrite Hsbs, Hfb, Hfi in *. f_equal; [lia|]. rewrite uw_small by lia. lia.
Qed.

(** Everything up to the second superblock. *)
Lemma prepare_spec l s : n_vol s = V -> vol_sb V = fl_sb l -> fd = fl_first_data l -> sb_inode_bitmap_start (vol_sb V) = 1 ->
  1 + fl_clear l = sb_inode_table_start (vol_sb V) -> 0 <= fl_clear l ->
  sb_free_blocks (vol_sb V) = sb_total_blocks (vol_sb V) - fd -> sb_free_inode_count (vol_sb V) = sb_inode_count (vol_sb V) ->
  forall kont Q,
  (forall s', vol_ok fd s' -> counted s' -> bsize s' = vol_block_size V -> total s' = sb_total_blocks (vol_sb V) ->
     inodes s' = sb_inode_count (vol_sb V) -> sb_ident (sb s') = sb_ident (vol_sb V) ->
     free_blocks s' = list_to_set (seqZ fd (total s' - fd)) -> free_inodes s' = list_to_set (seqZ 1 (inodes s' - 1)) ->
     wp kont Q s') ->
  wp (_ <-? clear_bitmaps (sb_inode_bitmap_start (fl_sb l)) (fl_clear l) ;;
      _ <-? for_each (fl_first_data l) (fun i => nyfs_bitmap_put (sb_alloc_meta_start (fl_sb l)) i true) ;;
      _ <-? nyfs_bitmap_put (sb_inode_bitmap_start (fl_sb l)) 0 true ;;
      fun s => (_ <-? nyfs_flush_superblock ;; kont) (add_counts 0 (-1) s)) (Q : res unit -> nst -> Prop) s.
Proof.
  intros Hv Hl Hfd Hibs Hclr Hclr0 Hfb Hfi kont Q Hk. rewrite <- Hl, <- Hfd.
  destruct (V_disk s Hv) as (_ & _ & _ & _ & Ht & Hi). pose proof (geo_order _ _ _ _ Hg ltac:(unfold total in Ht; destruct (V_disk s Hv) as (_ & _ & <- & _); lia)) as Hord.
  assert (Hsz : size < 2 ^ 63) by apply (dl_size _ _ _ _ _ HD).
  assert (Hfdr : 0 <= fd < 2 ^ 64) by (pose proof (sb_ok_total _ Hsb); unfold geo_ok in Hg; lia).
  apply wp_tryb. eapply wp_mono; [apply clear_bitmaps_spec; [done|lia|lia|]|].
  { rewrite Hibs, Hclr. unfold geo_ok in Hg. lia. }
  intros r s1 (-> & Hv1 & Hz). rewrite Hibs, Hclr in Hz. destruct (V_disk s1 Hv1) as (_ & Hbs1 & Hsb1 & Hg1 & Ht1 & Hi1).
  pose proof (geo_order _ _ _ _ Hg1 (proj1 Ht1)) as Hord1.
  assert (Hb1 : bits 0 0 s1).
  { split; [done|]. split; intros j Hj.
    - destruct (geo_block_in _ s1 fd j Hg1 Hj) as (_ & Hin & _). unfold used, bit_of, in_bitmap in *.
      rewrite Hz by (rewrite <- Hbs1, <- Hsb1; unfold geo_ok in *; lia). rewrite Z.bits_0. symmetry. apply Z.ltb_ge. lia.
    - destruct (geo_inode_in _ s1 fd j Hg1 (proj1 Ht1) Hj) as (_ & Hin & _). unfold iused, bit_of, in_ibitmap in *.
      assert (Hib1 : sb_inode_bitmap_start (sb s1) = 1) by (by rewrite Hsb1). rewrite Hib1 in *.
      rewrite Hz by (rewrite <- Hbs1, <- Hsb1; unfold geo_ok in *; lia). rewrite Z.bits_0. symmetry. apply Z.ltb_ge. lia. }
  apply wp_tryb. eapply wp_mono; [apply (for_each_spec (fun i s => bits i 0 s)); [lia|exact Hb1|]|].
  { intros i s2 Hi2 Hb2. apply mark_block; [done|]. destruct Hb2 as (Hv2 & _). destruct (V_disk s2 Hv2) as (_ & _ & Hsb2 & _).
    unfold total. rewrite Hsb2. unfold geo_ok in Hg. lia. }
  intros r s2 (-> & Hb2). apply wp_tryb. eapply wp_mono; [by apply mark_inode_0|]. intros r s3 (-> & Hb3).
  pose proof Hb3 as (Hv3 & _). destruct (V_disk s3 Hv3) as (Hod3 & Hbs3 & Hsb3 & Hg3 & _).
  unfold wp at 1. apply (wp_tryb nyfs_flush_superblock).
  pose proof (counted_flush_spec _ _ _ _ _ HD 0 (-1) s3 Hod3) as Hf. unfold wp in Hf. unfold wp at 1.
  destruct (nyfs_flush_superblock (add_counts 0 (-1) s3)) as [r s4].
  destruct Hf as (-> & [c Hc] & Hs4 & Hst4 & Hu4); [by rewrite Hsb3|unfold geo_ok, SB_SIZE in *; lia|].
  rewrite Z.add_0_r, (uw_small 64 (sb_free_blocks (sb s3))) in Hc by (rewrite Hsb3, Hfb; unfold geo_ok, total in *; rewrite ?Hsb1 in *; lia).
  destruct (bits_vol_ok s3 s4 c Hb3 Hfb Hfi Hc Hs4 Hst4 Hu4) as (Hok & Hcnt & Hlay & HX & HY).
  apply Hk; [done|done|by rewrite (layout_bsize _ _ Hlay)|rewrite (layout_total _ _ Hlay); unfold total; by rewrite Hsb3|
    rewrite (layout_inodes _ _ Hlay); unfold inodes; by rewrite Hsb3| |done|done].
  destruct Hlay as (_ & _ & _ & _ & _ & _ & _ & _ & _ & ->). by rewrite Hsb3.
Qed.
End build.

(** ** The root directory *)

Lemma root_inode_ok r : 0 <= r < 2 ^ 64 -> inode_ok (set_in_dir r 0 root_inode).
Proof.
  intros Hr. unfold inode_ok, inode_wf, root_inode, is_bytes, ace_ok. cbn. split_and!; try lia; try done; repeat (constructor; [cbn; lia|]); constructor.
Qed.

(** The root directory: root's, with mode 755 and no entries. *)
Definition root_node : node := mk_node (0, 0, 0x1ED) (Dir ∅).

(** A new volume: in order, with the root directory and nothing else, so that
    every other inode and every block not the directory's is free. *)
Definition formatted (fd : Z) s : Prop :=
  exists i ch, nodes_at read write k size img fd s {[NYFS_ROOT_INO := (root_node, (i, ch))]} /\
    free_inodes s = list_to_set (seqZ 2 (inodes s - 2)) /\ (length (own ch) <= 2)%nat /\
    free_blocks s = list_to_set (seqZ fd (total s - fd)) ∖ list_to_set (own ch).

Lemma formatted_holds fd s : formatted fd s -> holds read write k size img fd s {[NYFS_ROOT_INO := root_node]}.
Proof. intros (i & ch & HQ & _). eexists. split; [exact HQ|]. by rewrite map_fmap_singleton. Qed.

(** The root directory is made in a volume whose other inodes are free. *)
Lemma make_root_spec fd s : vol_ok fd s -> counted s ->
  free_blocks s = list_to_set (seqZ fd (total s - fd)) -> free_inodes s = list_to_set (seqZ 1 (inodes s - 1)) ->
  2 <= total s - fd -> 2 <= inodes s ->
  wp (root_ino <-? nyfs_alloc_inode ;;
      if negb (root_ino =? NYFS_ROOT_INO) then fail Ncorrupted
      else
        r <- nyfs_dirhash_create root_inode ;;
        match r with
        | (Err e, _) => fail e
        | (Ok _, root) => _ <-? nyfs_write_inode NYFS_ROOT_INO root ;; nyfs_flush_superblock
        end) (fun r s' => r = Ok tt /\ formatted fd s' /\ same_layout s s') s.
Proof.
  intros Hok Hcnt HX HY Hfd Hin. pose proof (vol_ok_total _ _ _ _ _ _ _ Hok) as Htot. pose proof (vol_ok_facts _ _ _ _ _ HD _ _ Hok) as Hvf.
  apply wp_tryb. eapply wp_mono; [by apply (alloc_inode_set _ _ _ _ _ HD fd)|]. intros [i|e] s1.
  2: { intros (_ & _ & He & _). rewrite HY in He. exfalso. apply (not_elem_of_empty (C := gset Z) 1). rewrite <- He.
       apply elem_of_list_to_set, elem_of_seqZ. lia. }
  intros (Hic & Hi & Hleast & Hfi1). rewrite HY in Hi, Hleast, Hfi1.
  assert (i = 1) as ->.
  { specialize (Hleast 1). rewrite !elem_of_list_to_set, !elem_of_seqZ in *. lia. }
  cbn [NYFS_ROOT_INO Z.eqb negb Pos.eqb]. pose proof Hic as (Hok1 & Hl1 & Hfb1 & Hcnt1 & _). specialize (Hcnt1 Hcnt).
  apply wp_bind. eapply wp_mono; [by apply (dirhash_create_spec _ _ _ _ _ HD fd s1 root_inode)|]. intros [r root] s2 (ch & Hw & Hr). cbn [fst snd] in *.
  pose proof Hw as (N & bl & Hst2 & Hd2 & Hown & HN & Hfb2 & Hch2 & [HNe _] & _). cbn in Hown.
  destruct r as [[]|e].
  2: { destruct Hr as (-> & Hsz & -> & _). exfalso. cbn in Hown. apply Permutation_nil_l in Hown. subst N.
       rewrite Hfb1, HX, size_list_to_set, length_seqZ in Hsz by apply NoDup_seqZ. lia. }
  destruct Hr as (Hd & Hroot & Hlen). destruct (changes_vol_facts _ _ _ _ _ _ _ _ _ Hch2) as (Hbs2 & Ht2 & Hok2).
  assert (Hown2 : (length (own ch) <= 2)%nat).
  { rewrite Hown. cbn in Hd2. subst bl. unfold stream_len in Hlen. rewrite Hbs2 in Hlen. pose proof (vol_ok_facts _ _ _ _ _ HD _ _ Hok1) as Hvf1.
    assert (Z.of_nat (length (data_blocks ch)) = 1) by (clear -Hlen Hvf1; nia). lia. }
  pose proof Hch2 as (_ & Hl2 & Hfi2 & Hcnt2 & _). specialize (Hcnt2 Hcnt1).
  assert (Hrr : 0 <= in_dir_hash_root root < 2 ^ 64).
  { destruct Hst2 as (-> & _ & _ & _ & Hino). destruct ch as [|[c es] q]; [cbn; unfold NYFS_BLKNO_NONE; lia|]. cbn [chain_head].
    destruct (Hino c ltac:(unfold own; cbn; set_solver)). rewrite Ht2, (layout_total _ _ Hl1) in *. lia. }
  rewrite Hroot in *. cbn [in_dir_hash_root set_in_dir] in Hrr.
  apply wp_tryb. eapply wp_mono; [apply (write_inode_low _ _ _ _ _ HD fd 1); [done|rewrite (layout_inodes _ _ Hl2), (layout_inodes _ _ Hl1); lia|by apply root_inode_ok]|].
  intros r s3 (-> & Hlow3 & Hfb3 & Hfi3 & Hcnt3 & Hat3). pose proof Hlow3 as (Hok3 & Hl3 & _).
  eapply wp_mono; [by apply (flush_set _ _ _ _ _ HD fd)|]. intros r s4 (-> & Hch4 & Hfb4). pose proof Hch4 as (Hok4 & Hl4 & Hfi4 & Hcnt4 & _).
  assert (Hl : same_layout s s4) by (eapply same_layout_trans; [exact Hl1|]; eapply same_layout_trans; [exact Hl2|]; by eapply same_layout_trans).
  assert (Hlow : low read write k size img fd s2 s4) by (eapply low_trans; [exact Hlow3|by apply (changes_low _ _ _ _ _ fd)]).
  assert (Hfi : free_inodes s4 = list_to_set (seqZ 2 (inodes s4 - 2))).
  { rewrite Hfi4, Hfi3, Hfi2, Hfi1, (layout_inodes _ _ Hl). apply set_eq. intros x.
    rewrite elem_of_difference, !elem_of_list_to_set, !elem_of_seqZ, elem_of_singleton. lia. }
  split; [done|]. split; [|done]. exists (stamped 1 (set_in_dir (in_dir_hash_root root) 0 root_inode)), ch. split; [|split; [done|split; [done|]]].
  2: { rewrite Hfb4, Hfb3, Hfb2, Hfb1, HX, (layout_total _ _ Hl). f_equal. apply set_eq. intros x. by rewrite !elem_of_list_to_set, Hown. }
  apply (nodes_single read write k size img); [done|by auto|]. split; [rewrite (layout_inodes _ _ Hl); unfold NYFS_ROOT_INO; lia|]. split.
  { rewrite Hfi, elem_of_list_to_set, elem_of_seqZ. unfold NYFS_ROOT_INO. lia. }
  cbn [fst snd]. split.
  { unfold NYFS_ROOT_INO. rewrite (changes_inode_at _ _ _ _ _ HD fd [] s3 s4) by (done || lia). rewrite Hat3 by lia. by rewrite Z.eqb_refl. }
  apply stored_stamped; [lia|]. apply (stored_low _ _ _ _ _ HD fd s2); [done|done|by rewrite Hfb4, Hfb3|].
  change 0 with (Z.of_nat (length (concat no_entries))). by apply (dir_stored img fd s2 root_inode _ ch no_entries 160 (0, 0, 0x1ED) ∅ (root_inode_ok 0 ltac:(lia))).
Qed.

Lemma formatted_untouched fd s s' : formatted fd s -> untouched size img s s' -> formatted fd s'.
Proof.
  intros (i & ch & HQ & Hfi & Hlen & Hfb) Hun. pose proof HQ as (Hok & _).
  destruct (changes_untouched _ _ _ _ _ fd [] s s' Hok Hun) as [(_ & Hl & Hfi' & _) Hfb']. exists i, ch.
  split; [by eapply (nodes_untouched _ _ _ _ _ HD)|]. by rewrite Hfi', Hfb', (layout_inodes _ _ Hl), (layout_total _ _ Hl).
Qed.

(** Only the disk, the superblock and the block size of a volume matter. *)
Definition retag (v w : nyfs_volume_t D) : nyfs_volume_t D :=
  mk_vol (vol_used w) (vol_diskno v) (vol_read v) (vol_write v) (vol_sb v) (vol_block_size v) (vol_mount_path w) (vol_root_vnode w).
Lemma formatted_retag fd v w d : formatted fd (mk_nst v d) -> formatted fd (mk_nst (retag v w) d).
Proof. by destruct v. Qed.

(** ** Formatting, then mounting *)

Lemma format_volume_spec l s shift icount : n_vol s = mk_vol false k (Some read) (Some write) (fl_sb l) (2 ^ shift) [] None ->
  9 <= shift <= 16 -> 64 <= sb_total_blocks (fl_sb l) -> sb_total_blocks (fl_sb l) * 2 ^ shift <= size ->
  icount = 0 \/ 2 <= icount < 2 ^ 55 -> format_layout_of (2 ^ shift) (sb_total_blocks (fl_sb l)) icount shift = Ok l ->
  2 <= sb_total_blocks (fl_sb l) - fl_first_data l ->
  wp (format_volume l) (fun r s' => r = Ok tt /\ formatted (fl_first_data l) s' /\ bsize s' = 2 ^ shift /\
    sb_ident (sb s') = (NYFS_MAGIC, NYFS_VERSION, SB_SIZE, shift) /\
    total s' = sb_total_blocks (fl_sb l) /\ inodes s' = sb_inode_count (fl_sb l)) s.
Proof.
  intros Hv Hsh Ht Hfit Hic Hlay Hroom. pose proof (dl_size _ _ _ _ _ HD) as Hsz.
  destruct (layout_ok size _ _ shift icount Hsh eq_refl Ht Hfit ltac:(lia) Hic l Hlay) as (Hg & Hs & Hib & _ & Hclr & Hclr0 & Hfd & Hfb & Hfi & _).
  assert (Hid : sb_ident (fl_sb l) = (NYFS_MAGIC, NYFS_VERSION, SB_SIZE, shift)).
  { unfold format_layout_of in Hlay. cbv zeta in Hlay. destruct (_ <=? u64 _) in Hlay; [done|]. by injection Hlay as <-. }
  unfold format_volume. apply wp_tryb.
  eapply wp_mono; [apply (flush_spec _ _ _ _ _ HD); [unfold on_disk; by rewrite Hv|unfold sb; by rewrite Hv|]|].
  { unfold geo_ok, SB_SIZE in *. pose proof (geo_order _ _ _ _ Hg ltac:(lia)). nia. }
  intros r s1 (-> & [c Hc] & Hs1 & _). set (V := n_vol s1).
  assert (HVsb : vol_sb V = set_sb_checksum c (fl_sb l)).
  { unfold V. rewrite Hc. unfold sb. rewrite Hv. cbn [set_sb vol_sb]. by destruct (fl_sb l). }
  assert (HVb : vol_block_size V = 2 ^ shift) by (unfold V; rewrite Hc, Hv; done).
  assert (HVio : vol_read V = Some read /\ vol_write V = Some write /\ vol_diskno V = k) by (unfold V; rewrite Hc, Hv; done).
  set (l' := mk_flayout (vol_sb V) (fl_clear l) (fl_first_data l)).
  assert (Hfields : geo_ok size (fl_first_data l) (vol_block_size V) (vol_sb V) /\ sb_inode_bitmap_start (vol_sb V) = 1 /\
    1 + fl_clear l = sb_inode_table_start (vol_sb V) /\ sb_free_blocks (vol_sb V) = sb_total_blocks (vol_sb V) - fl_first_data l /\
    sb_free_inode_count (vol_sb V) = sb_inode_count (vol_sb V) /\ sb_total_blocks (vol_sb V) = sb_total_blocks (fl_sb l) /\
    sb_ident (vol_sb V) = sb_ident (fl_sb l) /\ sb_alloc_meta_start (vol_sb V) = sb_alloc_meta_start (fl_sb l) /\
    sb_inode_bitmap_start (vol_sb V) = sb_inode_bitmap_start (fl_sb l) /\ sb_inode_count (vol_sb V) = sb_inode_count (fl_sb l)).
  { rewrite HVsb, HVb. clear -Hg Hib Hclr Hfb Hfi. destruct (fl_sb l). split; [exact Hg|]. cbn in *. by split_and!. }
  destruct Hfields as (HVg & HVib & HVclr & HVfb & HVfi & HVt & HVid & HVam & HVibs & HVic).
  assert (HVs : sb_ok (vol_sb V)) by exact Hs1.
  rewrite <- HVam, <- HVibs. change (fl_first_data l) with (fl_first_data l') at 1.
  apply (prepare_spec V (fl_first_data l) HVio HVg HVs l' s1 eq_refl eq_refl eq_refl HVib HVclr Hclr0 HVfb HVfi).
  intros s2 Hok2 Hcnt2 Hbs2 Htt2 Hi2 Hid2 HX HY.
  assert (Htot : 2 <= total s2 - fl_first_data l) by (rewrite Htt2, HVt; lia).
  assert (Hin2 : 2 <= inodes s2) by (rewrite Hi2; unfold geo_ok in HVg; lia).
  eapply wp_mono; [by apply (make_root_spec (fl_first_data l) s2)|].
  intros r s3 (-> & Hform & Hl3). split; [done|]. split; [done|]. split; [by rewrite (layout_bsize _ _ Hl3), Hbs2|].
  rewrite (layout_total _ _ Hl3), (layout_inodes _ _ Hl3), Htt2, Hi2, HVt, HVic. split; [|done].
  destruct Hl3 as (_ & _ & _ & _ & _ & _ & _ & _ & _ & ->). by rewrite Hid2, HVid.
Qed.

(** A fresh disk becomes a volume that a mount accepts as it was made. *)
Lemma format_mount_spec (p : format_params D) (w : nyfs_volume_t D) l d :
  fp_read p = Some read -> fp_write p = Some write -> 9 <= fp_block_size_shift p <= 16 -> 64 <= fp_total_blocks p ->
  fp_total_blocks p * 2 ^ fp_block_size_shift p <= size -> fp_inode_count p = 0 \/ 2 <= fp_inode_count p < 2 ^ 55 ->
  format_layout_of (2 ^ fp_block_size_shift p) (fp_total_blocks p) (fp_inode_count p) (fp_block_size_shift p) = Ok l ->
  2 <= fp_total_blocks p - fl_first_data l -> vol_read w = Some read -> vol_write w = Some write -> vol_diskno w = k ->
  wp (format_disk k p) (fun r d' => r = Ok tt /\
    wp load_superblock (fun r s' => r = Ok tt /\ formatted (fl_first_data l) s' /\ bsize s' = 2 ^ fp_block_size_shift p /\
      total s' = fp_total_blocks p /\
      inodes s' = (if fp_inode_count p =? 0 then (if fp_total_blocks p / 8 <? 16 then 16 else fp_total_blocks p / 8) else fp_inode_count p))
      (mk_nst w d')) d.
Proof.
  intros Hr Hw Hsh Ht Hfit Hic Hlay Hroom Hwr Hww Hwk. unfold format_disk. unfold wp at 1. rewrite Hr, Hw.
  unfold NYFS_BLOCK_SIZE_SHIFT_MIN, NYFS_BLOCK_SIZE_SHIFT_MAX. case_if; [lia|]. case_if; [lia|].
  rewrite Z.shiftl_1_l. cbn zeta. rewrite Hlay.
  destruct (layout_ok size _ _ _ _ Hsh eq_refl Ht Hfit ltac:(apply (dl_size _ _ _ _ _ HD)) Hic l Hlay) as (_ & _ & _ & Htl & _ & _ & _ & _ & _ & Hicl).
  set (s0 := mk_nst _ d).
  assert (Hf : wp (format_volume l) (fun r s' => r = Ok tt /\ formatted (fl_first_data l) s' /\ bsize s' = 2 ^ fp_block_size_shift p /\
    sb_ident (sb s') = (NYFS_MAGIC, NYFS_VERSION, SB_SIZE, fp_block_size_shift p) /\
    total s' = sb_total_blocks (fl_sb l) /\ inodes s' = sb_inode_count (fl_sb l)) s0).
  { eapply format_volume_spec; [reflexivity|done|by rewrite Htl|by rewrite Htl|done|rewrite Htl; exact Hlay|by rewrite Htl]. }
  destruct (wp_run _ _ _ Hf) as (r & [v d'] & -> & -> & Hform & Hbs & Hid & Htot & Hino). split; [done|]. cbn [n_disk].
  pose proof Hform as (i & ch & (Hok & _) & _). pose proof Hok as (Hod & Hg & Hs & (Hst & Hck) & _).
  set (s1 := mk_nst w d'). assert (Hsize : SB_SIZE <= size) by by eapply vol_ok_size.
  unfold load_superblock. apply wp_tryb.
  eapply wp_mono; [apply (read_local_spec _ _ _ _ _ HD); [by split|lia|unfold SB_SIZE; lia|unfold SB_SIZE in *; lia]|].
  intros r [w' d''] (-> & Hv & Hu). cbn [n_vol] in Hv. subst w'.
  change (NyfsIo.bytes_of img s1) with (NyfsIo.bytes_of img (mk_nst v d')). rewrite Hst, sb_of_bytes by apply Hs. cbn zeta.
  unfold wp at 1. unfold check_superblock. cbn [sb with_sb n_vol set_sb vol_sb] in *. unfold sb in *. cbn [n_vol] in *.
  unfold sb_ident in Hid. injection Hid as -> -> -> ->. rewrite !Z.eqb_refl. cbn [negb orb].
  unfold NYFS_BLOCK_SIZE_SHIFT_MIN, NYFS_BLOCK_SIZE_SHIFT_MAX.
  replace ((fp_block_size_shift p <? 9) || (16 <? fp_block_size_shift p)) with false by lia.
  rewrite <- Hck, Z.eqb_refl. cbn [negb].
  split; [done|].
  assert (Hun : untouched size img (mk_nst v d') (mk_nst v d'')) by (split; [done|exact Hu]).
  pose proof (formatted_retag _ _ w _ (formatted_untouched _ _ _ Hform Hun)) as Hform'.
  destruct Hod as (Hvr & Hvw & Hvk). cbn [n_vol] in *. unfold bsize in Hbs. cbn [n_vol] in Hbs.
  cbn [n_disk n_vol s1 with_sb set_sb vol_used vol_diskno vol_read vol_write vol_sb vol_block_size vol_mount_path vol_root_vnode].
  unfold retag in Hform'. rewrite Hvr, Hvw, Hvk, Hbs in Hform'. unfold bsize. cbn [n_vol vol_block_size].
  rewrite Hwr, Hww, Hwk, Z.shiftl_1_l. split; [exact Hform'|]. split; [reflexivity|]. split; [rewrite <- Htl; exact Htot|idtac]. rewrite <- Hicl. exact Hino.
Qed.

(** C16: formatting a disk that has room and then reading its superblock as a
    mount does gives a volume in order: [nyfs_format] succeeds, the mount
    accepts the result, the volume holds the root directory, empty, and nothing
    else, and all inodes and blocks it does not use are free. *)
Theorem nyfs_format_mounts (p : format_params D) (w : nyfs_volume_t D) l d :
  fp_read p = Some read -> fp_write p = Some write -> 9 <= fp_block_size_shift p <= 16 -> 64 <= fp_total_blocks p ->
  fp_total_blocks p * 2 ^ fp_block_size_shift p <= size -> fp_inode_count p = 0 \/ 2 <= fp_inode_count p < 2 ^ 55 ->
  format_layout_of (2 ^ fp_block_size_shift p) (fp_total_blocks p) (fp_inode_count p) (fp_block_size_shift p) = Ok l ->
  2 <= fp_total_blocks p - fl_first_data l -> vol_read w = Some read -> vol_write w = Some write -> vol_diskno w = k ->
  wp (format_disk k p) (fun r d' => r = Ok tt /\
    wp load_superblock (fun r s' => r = Ok tt /\ formatted (fl_first_data l) s' /\
      holds read write k size img (fl_first_data l) s' {[NYFS_ROOT_INO := root_node]} /\
      bsize s' = 2 ^ fp_block_size_shift p /\ total s' = fp_total_blocks p /\
      inodes s' = (if fp_inode_count p =? 0 then (if fp_total_blocks p / 8 <? 16 then 16 else fp_total_blocks p / 8) else fp_inode_count p))
      (mk_nst w d')) d.
Proof.
  intros. eapply wp_mono; [by apply format_mount_spec|]. intros r d' (Hr & Hm). split; [done|].
  eapply wp_mono; [exact Hm|]. intros r' s' (? & Hf & ? & ? & ?). pose proof (formatted_holds _ _ Hf). by split_and!.
Qed.
End format.
