(* ===== verification/NyfsExamples.v ===== *)
(** * NYFS volumes to apply the theorems to

    A disk of 64 blocks of 512 bytes, formatted; the root directory then gets
    a file.  The first part is about any reliable disk of that size, the second
    puts it on a RAM disk. *)

From S2P Require Import Prelude Types Loops Mem Memory Bytes Process FileIO FsCore Vfs Ramdisk NyfsDisk Nyfs NyfsAcl NyfsDir NyfsNodes NyfsFormat NyfsFs NyfsImage NyfsIo NyfsAlloc NyfsFree NyfsInodes NyfsStream NyfsGrow NyfsReadWrite NyfsDirs NyfsDirOps NyfsTree NyfsTreeOps NyfsVfs NyfsFormatted.

(** ** Any disk *)

Definition ny_layout : format_layout :=
  match format_layout_of 512 64 0 9 with Ok l => l | Err _ => mk_flayout zero_sb 0 0 end.
Lemma ny_layout_ok : format_layout_of 512 64 0 9 = Ok ny_layout.
Proof. reflexivity. Qed.

Section any.
Context {D : Type} (read : nyfs_disk_read_fn D) (write : nyfs_disk_write_fn D) (k : Z) (img : D -> Z -> Z) (d0 : D).
Context (HD : disk_laws read write k 32768 img).
Abbreviation nst := (nst D).
Abbreviation formatted := (formatted read write k 32768 img).
Abbreviation holds := (holds read write k 32768 img).
Abbreviation nodes_at := (nodes_at read write k 32768 img).
Abbreviation free_blocks := (free_blocks img).
Abbreviation free_inodes := (free_inodes img).

Definition ny_params : format_params D := mk_fparams (Some read) (Some write) 64 0 9.
Definition ny_blank : nyfs_volume_t D := mk_vol true k (Some read) (Some write) zero_sb 0 [] None.

Lemma ny_formatted : exists s, formatted 11 s /\ bsize s = 512 /\ total s = 64 /\ inodes s = 16.
Proof.
  pose proof (format_mount_spec read write k 32768 img HD ny_params ny_blank ny_layout d0 eq_refl eq_refl ltac:(cbn; lia) ltac:(cbn; lia)
    ltac:(cbn; lia) ltac:(by left) ny_layout_ok ltac:(vm_compute; congruence) eq_refl eq_refl eq_refl) as H.
  destruct (wp_run _ _ _ H) as (r & d & _ & _ & H2). destruct (wp_run _ _ _ H2) as (r2 & s & _ & _ & Hf & Hb & Ht & Hi).
  exists s. by split_and!.
Qed.

Lemma ny_free s : formatted 11 s -> total s = 64 -> inodes s = 16 -> (50 <= base.size (free_blocks s))%nat /\ 2 ∈ free_inodes s.
Proof.
  intros (i & ch & (Hok & _) & Hfi & Hlen & Hfb) Ht Hi. split.
  - rewrite Hfb, Ht. pose proof (size_difference_list (list_to_set (seqZ 11 (64 - 11))) (own ch)) as H.
    rewrite size_list_to_set, length_seqZ in H by apply NoDup_seqZ. lia.
  - rewrite Hfi, elem_of_list_to_set, elem_of_seqZ. lia.
Qed.

(** ** With an empty file *)

Definition ny_empty : node := mk_node (0, 0, 0x1A4) (File []).
Definition ny_greeting : list Z := [104; 105].
Definition ny_written : node := mk_node (0, 0, 0x1A4) (File ny_greeting).
Definition ny_nodes (n : node) : gmap Z node := <[2 := n]> {[NYFS_ROOT_INO := root_node]}.

Definition ny_inode : nyfs_inode_t := new_inode 2 NYFS_INO_TYPE_FILE 0x1A4 (mk_cred 0 0).

Lemma ny_stored (s : nst) : stored_at img 11 s ny_inode [] ny_empty.
Proof.
  split; [by apply new_inode_ok|]. split; [done|]. split; [done|]. split; [done|].
  split; [apply (stream_nil read write k 32768 img HD)|]. split; [done|done].
Qed.

Lemma ny_file : exists s, holds 11 s (ny_nodes ny_empty) /\ (50 <= base.size (free_blocks s))%nat.
Proof.
  destruct ny_formatted as (s & Hf & _ & Ht & Hi). destruct (ny_free s Hf Ht Hi) as [Hfree H2].
  destruct Hf as (i & ch & HQ & Hfi & _). pose proof HQ as (Hok & Hcnt & HQs & _).
  destruct (wp_run _ _ _ (alloc_inode_set _ _ _ _ _ HD 11 s Hok)) as ([j|e] & s1 & _ & Hc & H).
  2: { destruct H as (_ & He & _). rewrite He in H2. by apply not_elem_of_empty in H2. }
  destruct H as (Hj & Hleast & Hfi1). pose proof Hc as (Hok1 & Hl1 & Hfb1 & _).
  assert (j = 2) as ->.
  { specialize (Hleast 2 H2). rewrite Hfi, elem_of_list_to_set, elem_of_seqZ in Hj. lia. }
  assert (HQ1 : nodes_at 11 s1 {[NYFS_ROOT_INO := (root_node, (i, ch))]}).
  { eapply (nodes_ichanges _ _ _ _ _ HD); [exact HQ|exact Hc|]. intros x q [<- <-]%lookup_singleton_Some.
    destruct (HQs _ _ (lookup_singleton_eq _ _)) as (_ & Hn & _). rewrite Hfi1. set_solver. }
  pose proof (stream_nil read write k 32768 img HD 11 s1) as Hnil.
  destruct (wp_run _ _ _ (store_inode read write k 32768 img HD 11 s1 s1 _ 2 ny_empty NYFS_BLKNO_NONE [] NYFS_BLKNO_NONE []
    ny_inode HQ1 Hnil (others_nil _ _)
    (written_untouched _ _ _ _ _ HD 11 s1 s1 _ _ Hok1 Hnil (untouched_refl _ _ _)) ltac:(rewrite (layout_inodes _ _ Hl1); lia)
    ltac:(rewrite Hfi1; set_solver) (ny_stored s1))) as (r & s2 & _ & _ & HQ2 & Hfb2 & _).
  exists s2. split; [apply holds_insert in HQ2; by rewrite map_fmap_singleton in HQ2|]. by rewrite Hfb2, Hfb1.
Qed.

(** Room for the greeting in any block: a data block and an extent block. *)
Lemma ny_needs bs : 512 <= bs <= 65536 -> write_needs bs [] 0 ny_greeting = 2.
Proof.
  intros Hb. pose proof (block_extents_range bs ltac:(lia)) as Hc.
  change (write_needs bs [] 0 ny_greeting) with (needed bs ((0 + 2 + bs - 1) / bs - (0 + bs - 1) / bs)).
  rewrite (Z.div_small (0 + bs - 1)) by lia. rewrite <- (Z.div_unique (0 + 2 + bs - 1) bs 1 1) by lia.
  unfold needed, div_up. rewrite <- (Z.div_unique (1 - 0 + block_extents bs - 1) (block_extents bs) 1 0) by lia. done.
Qed.

(** With two bytes in the file. *)
Lemma ny_hi : exists s, holds 11 s (ny_nodes ny_written).
Proof.
  destruct ny_file as (s & HM & Hfree). pose proof HM as (Q & (Hok & _) & _). pose proof (vol_ok_facts _ _ _ _ _ HD _ _ Hok) as Hvf.
  assert (H2 : ny_nodes ny_empty !! 2 = Some (mk_node (0, 0, 0x1A4) (File []))) by apply lookup_insert_eq.
  destruct (wp_run _ _ _ (write_file_spec _ _ _ _ _ HD 11 s _ 2 _ [] 0 ny_greeting HM H2 ltac:(repeat constructor; lia) ltac:(done) ltac:(cbn; lia) ltac:(cbn; lia)))
    as ([n|e] & s' & _ & H).
  - destruct H as (_ & gap & Hg & H). destruct gap; [|done]. exists s'. unfold ny_nodes in *. by rewrite insert_insert_eq in H.
  - exfalso. destruct H as (_ & H & _). rewrite ny_needs in H by lia. lia.
Qed.

(** ** With a damaged inode *)

Lemma ny_inode_ok : inode_ok ny_inode.
Proof. by apply new_inode_ok. Qed.

(** One byte of the record, the type's, is not what was written. *)
Lemma ny_damage : exists s pre xs ys post, vol_ok read write k 32768 img 11 s /\ 0 < 2 < inodes s /\
  inode_bytes (stamped 2 ny_inode) = pre ++ xs ++ post /\ is_bytes ys /\ length xs = length ys /\ (length xs <= 4)%nat /\ xs <> ys /\
  (length pre + length xs <= 164 \/ 164 <= length pre /\ length pre + length xs <= 168 \/ 168 <= length pre)%nat /\
  bytes_at (bytes_of img s) (inode_slot s 2) INODE_SIZE = pre ++ ys ++ post.
Proof.
  destruct ny_formatted as (s & (i & ch & (Hok & _) & _) & _ & _ & Hi).
  pose proof (stamped_ok 2 ny_inode ltac:(done) ny_inode_ok) as Hst. pose proof (is_bytes_inode _ Hst) as Hb. pose proof (length_inode _ Hst) as Hl.
  rewrite <- (take_drop 8 (inode_bytes (stamped 2 ny_inode))) in Hb. pose proof (take_drop 8 (inode_bytes (stamped 2 ny_inode))) as Htd.
  pose proof (length_take (inode_bytes (stamped 2 ny_inode)) 8) as Hlt. pose proof (length_drop (inode_bytes (stamped 2 ny_inode)) 8) as Hld.
  destruct (drop 8 _) as [|x post] eqn:Ex; [cbn in Hld; lia|]. set (pre := take 8 _) in *. unfold is_bytes in Hb.
  apply Forall_app in Hb as [Hpre [Hx Hpost]%Forall_cons].
  assert (Hbs : is_bytes (pre ++ [255 - x] ++ post)) by (apply is_bytes_app; [exact Hpre|]; apply is_bytes_app; [repeat constructor; lia|exact Hpost]).
  pose proof (slot_range _ _ _ _ _ 11 2 s Hok ltac:(rewrite Hi; lia)) as Hs. cbn [length] in Hld.
  assert (Hlen : Z.of_nat (length (pre ++ [255 - x] ++ post)) = 256) by (rewrite !length_app; cbn [length]; lia).
  pose proof (vol_ok_facts _ _ _ _ _ HD _ _ Hok) as Hvf.
  destruct (dl_write _ _ _ _ _ HD (n_disk s) (inode_slot s 2) _ Hbs ltac:(by destruct pre) ltac:(lia) ltac:(lia)) as (d & _ & Hd).
  set (s' := mk_nst (n_vol s) d).
  assert (Hu : unchanged 32768 img (fun a => inode_slot s 2 <= a < inode_slot s 2 + 256) s s').
  { intros a Ha Hn. unfold bytes_of. cbn. rewrite Hd by done. apply patch_other. lia. }
  exists s', pre, [x], [255 - x], post. split; [|split; [cbn; change (inodes s') with (inodes s); lia|]].
  { eapply (vol_ok_write _ _ _ _ _ _ 11 s); [exact Hok|done|exact Hu|]. intros a Ha. cbn in Ha.
    pose proof Hok as (_ & Hg & Hsb & _). pose proof (geo_order _ _ _ _ Hg (proj1 (sb_ok_total _ Hsb))). unfold SB_SIZE, in_bitmap, in_ibitmap, geo_ok in *. lia. }
  split; [by rewrite <- Htd|]. split; [repeat constructor; lia|]. split; [done|]. split; [cbn; lia|]. split; [intros [= ?]; lia|].
  split; [left; cbn; lia|]. change (inode_slot s' 2) with (inode_slot s 2). rewrite <- (bytes_at_patch (img (n_disk s)) (inode_slot s 2) (pre ++ [255 - x] ++ post)), Hlen.
  apply bytes_at_ext. intros a Ha. unfold INODE_SIZE in Ha. apply Hd. lia.
Qed.

(** ** With a name in the root directory *)

Definition ny_name : list Z := [102].
Definition ny_named (i : Z) : gmap Z node :=
  <[NYFS_ROOT_INO := mk_node (0, 0, 0x1ED) (Dir {[ny_name := (i, NYFS_INO_TYPE_FILE)]})]> {[i := ny_empty]}.

Lemma ny_link (stack : list Z) : exists s i, holds 11 s (ny_named i) /\ i <> NYFS_ROOT_INO.
Proof.
  destruct ny_formatted as (s & Hf & _ & Ht & Hi). destruct (ny_free s Hf Ht Hi) as [Hfree H2]. pose proof (formatted_holds _ _ _ _ _ _ _ Hf) as HM.
  pose proof Hf as (inode & ch & (_ & _ & HQs & _) & _). destruct (HQs _ _ (lookup_singleton_eq _ _)) as (_ & _ & Hat & _).
  destruct (wp_run _ _ _ (make_node_spec stack _ _ _ _ _ HD 11 s _ NYFS_ROOT_INO (0, 0, 0x1ED) ∅ inode ny_name 0x1A4 (mk_cred 0 0) false
    HM (lookup_singleton_eq _ _) Hat ltac:(done) ltac:(repeat constructor; lia) ltac:(done) ltac:(done))) as ([i|e] & s' & _ & H).
  - destruct H as (_ & Hnew & _ & H). exists s', i. unfold ny_named. apply lookup_singleton_None in Hnew. split; [|done].
    rewrite insert_insert_ne, insert_singleton_eq in H by done.
    by rewrite insert_singleton_ne by done.
  - exfalso. destruct H as (_ & [(_ & [? Hx])|(_ & [(_ & He)|(_ & Hfew)])]).
    + by rewrite lookup_empty in Hx.
    + rewrite He in H2. by apply not_elem_of_empty in H2.
    + lia.
Qed.

Lemma ny_dir (stack : list Z) : exists s dir i, dir_is read write k 32768 img 11 s dir {[ny_name := (i, NYFS_INO_TYPE_FILE)]}.
Proof.
  destruct (ny_link stack) as (s & i & (Q & HQ & HM) & _). pose proof (f_equal (lookup NYFS_ROOT_INO) HM) as Hq. unfold ny_named in Hq.
  rewrite lookup_insert_eq, lookup_fmap in Hq. destruct (Q !! NYFS_ROOT_INO) as [[n [inode ch]]|] eqn:E; [|done]. injection Hq as <-.
  pose proof HQ as (Hok & _ & HQs & _). destruct (HQs _ _ E) as (_ & _ & _ & Hst). cbn [fst snd] in Hst.
  destruct (stored_dir _ _ _ _ _ _ _ Hst) as (tbl & fr & Hd & Hm & _). exists s, inode, i. split; [done|]. by exists ch, tbl, fr.
Qed.

(** ** Under the VFS *)

(** Vnode 0 and handle slot 0 stand for the node [ino] of volume 0. *)
Definition ny_vfs (ino : Z) (s : nst) : vfs nyfs_tbl nyfs_ptr (nyfs_st D) :=
  mk_vfs [] [] [] None [mk_vnode 1 0 (Some NyfsOps) 1 (Some (NVnodeData 0))]
    (mk_nyfs [n_vol s] [mk_nslot true (mk_nd (Some 0%nat) ino)] [mk_nslot true (mk_nd (Some 0%nat) ino)] (n_disk s)).
Definition ny_handle : handle_t nyfs_ptr := mk_hd (Some 0%nat) 0 0 (Some (NHandleData 0)) 1.

Lemma ny_vfs_nst ino s : nst_of 0 (ny_vfs ino s) = s.
Proof. by destruct s. Qed.
Lemma ny_in_table ino s : in_table 0 (ny_vfs ino s).
Proof. unfold in_table. cbn. lia. Qed.
Lemma ny_handle_on ino s : handle_on 0 ino ny_handle (ny_vfs ino s).
Proof. exists (NHandleData 0). split; [done|]. split; [done|]. split; [done|apply ny_in_table]. Qed.
Lemma ny_vnode_on ino s : vnode_on 0 ino 0 (ny_vfs ino s).
Proof. by exists (NVnodeData 0). Qed.
End any.

(** ** On a RAM disk

    The transfers of [drivers/ramdisk/ramdisk.c], through a buffer of the
    kernel's memory outside the disk, are those of a reliable disk: every
    theorem on NYFS volumes holds of volumes on RAM disks. *)

Section ramdisk.
(** The table of disks, and the address of the buffer. *)
Context (T : list ramdisk_t) (buf : Z).

Definition rd_read : nyfs_disk_read_fn mem := fun k off n m =>
  let '(st, s) := ramdisk_read k off buf n (mk_rds T m) in
  ((st, if is_err st then [] else ld_bytes (rd_mem s) buf n), rd_mem s).
Definition rd_write : nyfs_disk_write_fn mem := fun k off bs m =>
  let '(st, s) := ramdisk_write k off buf (Z.of_nat (length bs)) (mk_rds T (st_bytes buf bs m)) in (st, rd_mem s).

Context (k lo size : Z) (i : nat) (rd : ramdisk_t).
Context (Hfind : forall m, ramdisk_find k (mk_rds T m) = Some (i, rd)).
Context (Hlo : rd_offset rd = lo) (Hsize : rd_size rd = size).
Context (Hdisk : 0 < lo /\ 0 < size < 2 ^ 63 /\ lo + size < 2 ^ 64) (Hbuf : 0 < buf /\ buf + size < 2 ^ 64).
Context (Hdj : disjoint_from buf size lo size).

Lemma ramdisk_laws : disk_laws rd_read rd_write k size (fun m a => ld8 m (lo + a)).
Proof.
  unfold disjoint_from in Hdj. split.
  - lia.
  - intros m a. apply ld8_range.
  - intros m off n Ho Hn Hl. unfold rd_read, ramdisk_read. rewrite Hfind. case_if; [lia|].
    rewrite (proj2 (range_within_spec off n (rd_size rd) ltac:(lia) ltac:(lia))) by lia.
    rewrite (proj2 (range_within_spec buf n 0xFFFFFFFFFFFFFFFF ltac:(lia) ltac:(lia))) by lia. cbn [negb rd_mem rd_set_mem is_err].
    rewrite Hlo, uw_small by lia. pose proof (memcpy_upd buf (lo + off) n m ltac:(lia) ltac:(lia)) as Hm.
    rewrite (ld_bytes_copied m _ _ (lo + off) n Hm). change (is_err Nok) with false. eexists. split.
    + do 2 f_equal. unfold ld_bytes, bytes_at. apply list_eq. intros j. rewrite !list_lookup_fmap.
      destruct (decide (Z.of_nat j < n)); [|by rewrite !lookup_seqZ_ge by lia]. rewrite !lookup_seqZ_lt by lia.
      cbn. do 2 f_equal. lia.
    + intros a Ha. rewrite Hm. case_if; [lia|done].
  - intros m off bs Hb Hne Ho Hl. unfold rd_write, ramdisk_write. rewrite Hfind.
    assert (Hn : 0 < Z.of_nat (length bs)) by (destruct bs; [done|cbn; lia]). case_if; [lia|].
    rewrite (proj2 (range_within_spec off _ (rd_size rd) ltac:(lia) ltac:(lia))) by lia.
    rewrite (proj2 (range_within_spec buf _ 0xFFFFFFFFFFFFFFFF ltac:(lia) ltac:(lia))) by lia. cbn [negb rd_mem rd_set_mem].
    rewrite Hlo, uw_small by lia. eexists. split; [done|]. intros a Ha.
    rewrite (memcpy_upd (lo + off) buf (Z.of_nat (length bs)) (st_bytes buf bs m) ltac:(lia) ltac:(lia)). unfold patch, copied.
    rewrite !ld8_st_bytes.
    destruct ((off <=? a) && (a <? off + Z.of_nat (length bs))) eqn:E1; bool_simpl; repeat (case_if; try lia); try done.
    replace (Z.to_nat (buf + (lo + a - (lo + off)) - buf)) with (Z.to_nat (a - off)) by lia.
    destruct (lookup_lt_is_Some_2 bs (Z.to_nat (a - off)) ltac:(lia)) as [x Hx]. rewrite Hx, (nth_lookup_Some _ _ _ _ Hx). cbn.
    apply Z.mod_small. unfold is_bytes in Hb. rewrite Forall_forall in Hb. by eapply Hb, list_elem_of_lookup_2.
Qed.
End ramdisk.

(** 32 KiB at 4 MiB, with the transfers' buffer at 2 MiB. *)
Definition ny_table : list ramdisk_t := mk_rd 5 0x400000 32768 true :: replicate 15 zero_rd.
Abbreviation ny_buf := 0x200000.
Abbreviation ny_read := (rd_read ny_table ny_buf).
Abbreviation ny_write := (rd_write ny_table ny_buf).
Abbreviation ny_img := (fun (m : mem) (a : Z) => ld8 m (0x400000 + a)).

Lemma ny_laws : disk_laws ny_read ny_write 5 32768 ny_img.
Proof. apply (ramdisk_laws ny_table ny_buf 5 0x400000 32768 0 (mk_rd 5 0x400000 32768 true)); unfold disjoint_from; done || lia. Qed.

Abbreviation ny_holds := (holds ny_read ny_write 5 32768 ny_img).


(** ** The theorems, on this disk *)

Lemma nyfs_format_mounts_witness : exists d, format_disk 5 (ny_params ny_read ny_write) ∅ = (Ok tt, d) /\
  wp load_superblock (fun r s => r = Ok tt /\ ny_holds 11 s {[NYFS_ROOT_INO := root_node]} /\ total s = 64 /\ inodes s = 16)
    (mk_nst (ny_blank ny_read ny_write 5) d).
Proof.
  pose proof (nyfs_format_mounts ny_read ny_write 5 32768 ny_img ny_laws (ny_params ny_read ny_write) (ny_blank ny_read ny_write 5) ny_layout ∅
    eq_refl eq_refl ltac:(cbn; lia) ltac:(cbn; lia) ltac:(cbn; lia) ltac:(by left) ny_layout_ok ltac:(vm_compute; congruence) eq_refl eq_refl eq_refl) as H.
  destruct (wp_run _ _ _ H) as (r & d & E & Hr & Hw). exists d. split; [rewrite E, Hr; reflexivity|].
  eapply wp_mono; [exact Hw|]. intros r' s (? & _ & ? & _ & ? & ?). split; [assumption|]. split; [assumption|]. by split.
Defined.

Lemma blocks_are_a_set_witness : exists (s : nst mem), (50 <= base.size (free_blocks ny_img s))%nat /\
  wp nyfs_alloc_block (fun r s' => exists b, r = Ok b /\ b ∈ free_blocks ny_img s /\ free_blocks ny_img s' = free_blocks ny_img s ∖ {[b]}) s.
Proof.
  destruct (ny_file ny_read ny_write 5 ny_img ∅ ny_laws) as (s & (Q & (Hok & _) & _) & Hfree). exists s. split; [exact Hfree|].
  eapply wp_mono; [exact (proj1 (blocks_are_a_set _ _ _ _ _ ny_laws 11 s Hok))|]. intros [b|e] s' (_ & H).
  - exists b. tauto.
  - destruct H as (_ & H & _). rewrite H, size_empty in Hfree. lia.
Defined.

Lemma inode_roundtrip_witness : exists s : nst mem,
  wp (r <- nyfs_write_inode 2 ny_inode ;; x <- nyfs_read_inode 2 ;; ret (r, x)) (fun p s' => p = (Ok tt, Ok (stamped 2 ny_inode))) s.
Proof.
  destruct (ny_formatted ny_read ny_write 5 ny_img ∅ ny_laws) as (s & (i & ch & (Hok & _) & _) & _ & _ & Hi). exists s.
  eapply wp_mono; [apply (inode_roundtrip _ _ _ _ _ ny_laws 11 2 ny_inode 2 s Hok); [rewrite Hi; lia|by apply new_inode_ok|done]|].
  intros [r x] s' (H1 & H2 & _). cbn [fst snd] in *. rewrite H1, H2. done.
Defined.

Lemma damaged_inode_refused_witness : exists s : nst mem,
  wp (nyfs_read_inode 2) (fun r s' => r = Err Ncorrupted) s.
Proof.
  destruct (ny_damage ny_read ny_write 5 ny_img ∅ ny_laws) as (s & pre & xs & ys & post & H1 & H2 & H3 & H4 & H5 & H6 & H7 & H8 & H9). exists s.
  eapply wp_mono; [exact (damaged_inode_refused _ _ _ _ _ ny_laws 11 2 ny_inode pre xs ys post s H1 H2 (ny_inode_ok) H3 H4 H5 H6 H7 H8 H9)|].
  intros r s' (-> & _). done.
Defined.

Lemma directory_is_map_witness (stack := replicate 256 0) : exists (s : nst mem) dir,
  wp (nyfs_dirhash_lookup stack dir ny_name) (fun r s' => exists i, r = Ok (i, NYFS_INO_TYPE_FILE)) s /\
  wp (nyfs_dirhash_remove stack dir ny_name) (fun r s' => r.1 = Ok tt /\ dir_is ny_read ny_write 5 32768 ny_img 11 s' r.2 ∅) s.
Proof.
  destruct (ny_dir ny_read ny_write 5 ny_img ∅ ny_laws stack) as (s & dir & i & Hd). exists s, dir.
  pose proof (directory_is_map stack _ _ _ _ _ ny_laws 11 s dir _ ny_name Hd ltac:(done)) as (Hl & _ & Hr). split.
  - eapply wp_mono; [exact Hl|]. intros r s' (-> & _). rewrite lookup_singleton_eq. by exists i.
  - eapply wp_mono; [exact Hr|]. intros [[[]|e] dir'] s'; cbn [fst snd].
    + intros (_ & H). by rewrite delete_singleton_eq in H.
    + intros (_ & H & _). by rewrite lookup_singleton_eq in H.
Defined.

Lemma nyfs_read_file_witness : exists s, ny_holds 11 (nst_of 0 s) (ny_nodes ny_written) /\
  wp (nyfs_read ny_handle 10) (fun r s' => r = ((Nok, ([104; 105], 2)), ny_handle)) s.
Proof.
  destruct (ny_hi ny_read ny_write 5 ny_img ∅ ny_laws) as (s & HM). exists (ny_vfs 2 s). split; [by rewrite ny_vfs_nst|].
  eapply wp_mono; [apply (nyfs_read_file _ _ _ _ _ ny_laws 11 (ny_nodes ny_written) 0 2 (0, 0, 0x1A4) ny_greeting);
    [apply ny_handle_on|by rewrite ny_vfs_nst|by apply lookup_insert_eq|done|done]|].
  intros r s' (m & -> & -> & _). done.
Defined.

Lemma nyfs_write_file_witness : exists s, ny_holds 11 (nst_of 0 s) (ny_nodes ny_empty) /\
  wp (nyfs_write ny_handle ny_greeting) (fun r s' => r = (Ok 2, ny_handle) /\ ny_holds 11 (nst_of 0 s') (ny_nodes ny_written)) s.
Proof.
  destruct (ny_file ny_read ny_write 5 ny_img ∅ ny_laws) as (s & HM & Hfree). exists (ny_vfs 2 s). split; [by rewrite ny_vfs_nst|].
  pose proof HM as (Q & (Hok & _) & _). pose proof (vol_ok_facts _ _ _ _ _ ny_laws _ _ Hok) as Hvf.
  eapply wp_mono; [apply (nyfs_write_file _ _ _ _ _ ny_laws 11 (ny_nodes ny_empty) 0 2 (0, 0, 0x1A4) [] ny_handle ny_greeting);
    [apply ny_handle_on|by rewrite ny_vfs_nst|by apply lookup_insert_eq|repeat constructor; lia|done|cbn; lia|rewrite ny_vfs_nst; cbn; lia]|].
  intros [[n|e] h] s'; cbn [fst snd]; intros (-> & _ & H).
  - destruct H as (-> & gap & Hg & H). destruct gap; [|done]. unfold ny_nodes in *. by rewrite insert_insert_eq in H.
  - exfalso. destruct H as (_ & _ & H). rewrite ny_vfs_nst, ny_needs in H by lia. lia.
Defined.

Lemma nyfs_make_adds_node_witness (stack := replicate 256 0) : exists s, ny_holds 11 (nst_of 0 s) {[NYFS_ROOT_INO := root_node]} /\
  wp (nyfs_make (F := unit) None stack true 0 ny_name 0x1ED) (fun r s' => exists i, i <> NYFS_ROOT_INO /\
    ny_holds 11 (nst_of 0 s') (<[NYFS_ROOT_INO := mk_node (0, 0, 0x1ED) (Dir {[ny_name := (i, NYFS_INO_TYPE_DIR)]})]>
      {[i := mk_node (0, 0, 0x1ED) (Dir ∅)]})) s.
Proof.
  destruct (ny_formatted ny_read ny_write 5 ny_img ∅ ny_laws) as (s & Hf & _ & Ht & Hi). destruct (ny_free _ _ _ _ s Hf Ht Hi) as [Hfree H2].
  pose proof (formatted_holds _ _ _ _ _ _ _ Hf) as HM. exists (ny_vfs 1 s). split; [by rewrite ny_vfs_nst|].
  eapply wp_mono; [apply (nyfs_make_adds_node _ _ _ _ _ ny_laws None stack 11 {[NYFS_ROOT_INO := root_node]} 0 NYFS_ROOT_INO (0, 0, 0x1ED) ∅ 0 true ny_name 0x1ED);
    [apply ny_vnode_on|apply ny_in_table|by rewrite ny_vfs_nst|by apply lookup_singleton_eq|done|repeat constructor; lia|done|done]|].
  intros r s' [(_ & e & _ & H)|(_ & _ & i & Hn%lookup_singleton_None & H & _)].
  - exfalso. rewrite ny_vfs_nst in H. destruct H as [[_ H]|[[_ [? H]]|[[_ H]|[_ H]]]].
    + apply H. by left.
    + by rewrite lookup_empty in H.
    + rewrite H in H2. by apply not_elem_of_empty in H2.
    + lia.
  - exists i. split; [done|]. rewrite insert_insert_ne, insert_singleton_eq in H by done. by rewrite insert_singleton_ne by done.
Defined.

Lemma nyfs_unlink_removes_node_witness (stack := replicate 256 0) : exists s i, ny_holds 11 (nst_of 0 s) (ny_named i) /\
  wp (nyfs_unlink (F := unit) None stack 0 ny_name) (fun r s' => r = Ok tt /\ ny_holds 11 (nst_of 0 s') {[NYFS_ROOT_INO := root_node]}) s.
Proof.
  destruct (ny_link ny_read ny_write 5 ny_img ∅ ny_laws stack) as (s & i & HM & Hi). exists (ny_vfs 1 s), i. split; [by rewrite ny_vfs_nst|].
  assert (Hfile : ny_named i !! i = Some ny_empty) by (unfold ny_named; rewrite lookup_insert_ne by done; apply lookup_singleton_eq).
  eapply wp_mono; [apply (nyfs_unlink_removes_node _ _ _ _ _ ny_laws None stack 11 (ny_named i) 0 NYFS_ROOT_INO (0, 0, 0x1ED) {[ny_name := (i, NYFS_INO_TYPE_FILE)]} 0 ny_name);
    [apply ny_vnode_on|apply ny_in_table|by rewrite ny_vfs_nst|by apply lookup_insert_eq|done|]|].
  { intros x [_ <-]%lookup_singleton_Some. cbn [fst]. split; [done|by exists ny_empty]. }
  intros [[]|e] s'.
  - intros (_ & x & n & [_ <-]%lookup_singleton_Some & _ & _ & H & _). split; [done|]. cbn [fst] in H. unfold ny_named in H.
    rewrite insert_insert_eq, delete_insert_ne, delete_singleton_eq, delete_singleton_eq in H by done. exact H.
  - intros (_ & [[_ H]|[[_ H]|(_ & x & n & [_ <-]%lookup_singleton_Some & Hx & H)]]); exfalso.
    + by apply H.
    + by rewrite lookup_singleton_eq in H.
    + cbn [fst] in Hx. rewrite Hfile in Hx. injection Hx as <-. exact H.
Defined.
